(* ===== verification/_CoqProject ===== *)
-Q . S2P
Prelude.v
Flash.v
Norcow.v
NorcowSpec.v
Bits.v
Hash.v
HashSpec.v
Sha2.v
Sha2Spec.v
Hmac.v
HmacSpec.v
ChaCha.v
PolySpec.v
AeadSpec.v
PinLog.v
PinLogSpec.v
Storage.v
StorageAuth.v
StorageSpec.v
StorageAccess.v
StoragePin.v
StorageUnlock.v
StorageSession.v
StorageCounter.v
Interp.v
GF256.v
Shamir.v
ShamirSpec.v
Blake2.v
Blake2Spec.v
Image.v
ImageSpec.v
ImageVerify.v
Version.v
VersionSpec.v
Update.v
UpdateSpec.v
Bignum.v
Curves.v
BignumSpec.v
Primes.v
EcGroup.v
BignumBits.v
BignumConv.v
BignumMul.v
BignumPow.v
BignumInverse.v
BignumFormat.v
Drbg.v
DrbgSpec.v
Ecdsa.v
EcdsaSig.v
EcField.v
EcCurve.v
EcCofactor.v
EcdsaPoint.v
EcdsaMul.v
EcTable.v
EcParams.v
EcdsaScalar.v
EcdsaKeys.v
EcdsaVerify.v
EcdsaSign.v
Der.v
Ripemd.v
Hasher.v
Base58.v
Base58Spec.v
Address.v
Bip32.v
Bip32Spec.v
Bip32Cache.v
Fifo.v
Usart.v
UsartSpec.v
Ble.v
Spi.v
Words.v
Slip39.v
