(* ===== verification/Prelude.v ===== *)
(** * OneKey Pro firmware: a verification of its core

    The repository is the firmware of a hardware wallet (an STM32H7 with secure elements).
    This library translates the parts of its C code that decide what is stored, what is
    unlocked, what code may run and what is signed, into executable definitions, and proves
    the theorems that make them correct.

    ** The parts and how they interact

    The bootloader receives an update file, checks it ([emmc_commands.c]) with the header and
    hash checks of [image.c], and installs it; at boot, [verify_firmware] of [image.c] checks
    the installed headers and code again.  These checks hash with BLAKE2s and compare
    versions that are printed with [mini_printf.c].  The firmware keeps its secrets with
    [storage.c]: entries encrypted with ChaCha20-Poly1305, keys sealed under a PIN by PBKDF2,
    a failure counter and an authentication tag over all keys, all of it in the log-structured
    store [norcow.c] on raw flash.  Backups are split with [shamir.c].  Messages are signed
    with [ecdsa.c] over the 256-bit arithmetic of [bignum.c], with nonces that [rfc6979.c]
    draws from the generator [hmac_drbg.c].  The keys are derived from a seed with [bip32.c];
    keys and addresses are written in base 58 with a checksum of a selectable hasher.  A
    second chip handles Bluetooth: its packets arrive over a serial line ([usart.c]) and SPI
    ([spi_legacy.c]), pass through byte queues ([trans_fifo.c]) and are read by the driver
    [ble.c] and the poll loop of the application.

    ** Files, modules and sources

    Each file has a module of its name (this one has none); [UsartSpec] also holds the module
    [UsartLink], [Ble] the module [BleSpec], and [AeadSpec] the module [Rfc7539].
    - [Prelude]: integers of a width as [Z] with their wrap-around, byte lists, the state and
      error monad [M], tactics, hints and shared lemmas.
    - [Flash]: [src/core/embed/unix/flash.c].  A sector is a list of bytes; erasing sets bits,
      writing clears them.
    - [Norcow], [NorcowSpec]: [src/storage/norcow.c].  State: the flash, the active sector, its
      version and the end of the items.  The specification gives the layout of the sectors, the
      finite map they stand for, and that every operation acts as the map operation.
    - [PinLog], [PinLogSpec]: the guard-keyed bit logs of [src/storage/storage.c] that count
      PIN failures.
    - [Storage]: all of [src/storage/storage.c]; state: norcow, the cached keys, the tag sum,
      the lock.  [StorageAuth] (the authentication tag), [StorageSpec] (the unlocked store is
      a map), [StorageAccess] (what is refused when locked, faults), [StoragePin] (counter, wipe
      code and key derivation as entries), [StorageUnlock] (wipe and unlock), [StorageSession]
      (lock, unlock, change of PIN, what a refused write leaves behind), [StorageCounter]
      (monotonic counters, sequences of calls on a locked storage).
    - [Bits], [Hash], [HashSpec], [Sha2], [Sha2Spec]: [src/crypto/sha2.c].  The three hash
      functions are one streaming skeleton over an algorithm record; the class [HashLaws] is
      what the skeleton promises to HMAC.
    - [Hmac], [HmacSpec]: [src/crypto/hmac.c] and [src/crypto/pbkdf2.c].
    - [ChaCha], [PolySpec], [AeadSpec]: [src/crypto/chacha20poly1305/]; [Rfc7539] is the
      cipher of the RFC, written from its text and checked on its test vectors.
    - [Interp], [GF256], [Shamir], [ShamirSpec]: [src/crypto/shamir.c] in its bitsliced form;
      interpolation over a field, and the field with 256 elements.
    - [Blake2], [Blake2Spec]: [src/crypto/blake2s.c] and [src/crypto/blake2b.c].
    - [Image], [ImageSpec], [ImageVerify]: [src/core/embed/trezorhal/image.c].  Memory is a
      list of bytes, a check is [Val], [Refused] or [OutOfBounds].
    - [Version], [VersionSpec]: [src/core/embed/trezorhal/mini_printf.c], [format_ver],
      [compare_str_version] and [version_compare].
    - [Update], [UpdateSpec]: [check_file_contents], [check_se_version] and
      [check_bootloader_update] of [src/core/embed/emmc_wrapper/emmc_commands.c]; state: the
      record [update_info] and the position in the file.
    - [Bignum]: [src/crypto/bignum.c] and [bignum.h], numbers of nine 29-bit limbs.
      [BignumSpec] (the number a limb list stands for), [BignumBits] (comparisons and bits),
      [BignumConv] (bytes, words, division), [BignumMul] (reduction and products),
      [BignumPow] (powers and square roots), [BignumInverse], [BignumFormat] (decimal output).
    - [Curves]: [ecdsa.h], [secp256k1.c] and [nist256p1.c]; [EcTable]: [secp256k1.table].
    - [Ecdsa] (points and multiplication), [EcdsaSig] (keys, ECDH, signing, verification,
      recovery), [Der] (the encoding of signatures): [src/crypto/ecdsa.c].
    - [Primes] (primality of the constants by certificates of Pocklington), [EcGroup] (the
      group of a short Weierstrass curve over a prime field, associativity included),
      [EcField] and [EcCurve] (the classes [CurveBase] and [CurveOk]: what the code needs of a
      curve), [EcCofactor] (every point has the order of the base point), [EcParams]
      (secp256k1 and its table are such a curve): the mathematics, no code of its own.
    - [EcdsaPoint], [EcdsaMul], [EcdsaScalar]: points and multiples are those of the group;
      [EcdsaKeys], [EcdsaVerify], [EcdsaSign]: keys, verification and signing.
    - [Drbg], [DrbgSpec]: [src/crypto/hmac_drbg.c] and [src/crypto/rfc6979.c].
    - [Ripemd]: [src/crypto/ripemd160.c]; [Hasher]: [src/crypto/hasher.c], with the class
      [DigestsOk] for the digests that are arguments.
    - [Base58], [Base58Spec]: [src/crypto/base58.c]; [Address]: [src/crypto/address.c] and the
      address functions of [src/crypto/ecdsa.c].
    - [Bip32], [Bip32Spec], [Bip32Cache]: [src/crypto/bip32.c]: nodes and derivation, the
      agreement of private and public derivation, the derivation cache and extended keys.
    - [Fifo]: [src/core/embed/trezorhal/trans_fifo.c]; state: the C structure.
    - [Usart], [UsartSpec]: the receive side of [src/core/embed/trezorhal/usart.c]; state: the
      DMA buffer, the read position and the queue.  [UsartSpec] is the framing on byte streams,
      [UsartLink] the link from the wire to the application.
    - [Ble]: [src/core/embed/trezorhal/ble.c]; state: the static variables, the queue and what
      was sent.  [Spi]: the receive side of [src/core/embed/trezorhal/spi_legacy.c].
    - [Words], [Slip39]: [src/crypto/slip39_wordlist.h] and [src/crypto/slip39.c].

    ** What the theorems show

    - Store: any sequence of norcow operations, restarts included, behaves as a finite map;
      setting an entry fails only for lack of space; compaction keeps the live items; scanning
      a sector of arbitrary bytes ends inside it.
    - Encrypted storage: an unlocked storage is a map of plaintexts whose tag stays valid, as
      long as the values fit into the sector; a locked one refuses protected access; contents survive locking, unlocking and a change of
      the PIN; failed attempts are counted before the PIN is checked and the tenth wipes; the
      wipe code wipes; counters count.
    - Cryptography: SHA-1, SHA-2, HMAC, PBKDF2, ChaCha20-Poly1305 and BLAKE2 equal their
      standards for every way of feeding the message, with the limb and counter arithmetic in
      range; Shamir interpolation recovers the shared polynomials.
    - Images: vendor header parsing stays in bounds; headers are accepted exactly when signed
      by the required keys; accepted firmware is covered by signed hashes byte by byte, so the
      signed header determines the code up to BLAKE2s collisions.
    - Versions and updates: formatting is exact and bounded, comparison is lexicographic;
      the items of an accepted update file lie inside it and its firmware is signed and no
      downgrade of the same vendor; the walk over the file ends unless a length overflows.
    - Numbers: within the bounds of its assertions every operation keeps numbers normalized
      and computes the residue it is meant to, for all primes the code admits; inversion is correct for odd moduli within its fixed
      number of turns; formatting prints what the prototype in its comment returns.
    - Curves: the points of the code implement the group law; multiplication by the window
      method and by the table give k times the point for every scalar, whatever the random
      words that blind it; the table of secp256k1 is right entry by entry; its order is prime
      and its cofactor is one.
    - Signatures: verification accepts exactly the signatures of the ECDSA equation and names
      the first check that fails; a returned signature verifies and recovers the public key;
      keys and DER signatures are read back; both sides of ECDH agree; the generator is that of
      the standard for every sequence of requests that reseeds with entropy.
    - Derivation and encodings: deriving a child on the private and on the public side gives
      the same key; the derivation cache gives what deriving the whole path gives, for paths
      of up to nine indices; base 58
      strings, addresses and extended keys are read back.
    - Links: the byte queue is a bounded queue within its contract; the framing of the serial
      line does not depend on how the stream is cut into interrupts, and its packets, like
      those of SPI, arrive complete and in order while no buffer is filled and every packet
      fits the buffer of the reader; an answered key request returns the key, battery and
      version requests give up at their 101st and 21st poll.
    - Words: the button keyboard finds exactly the words of the list.
    Where modelling showed a defect, a lemma proves it: [full_peek_loses],
    [refused_write_offered], [short_reader_overrun], [longest_frame_lost],
    [ble_key_requests_hang], [ble_poll_correct], [spi_fido_poll], [cached_overflow],
    [storage_set_full_breaks_tag],
    [blake2s_final_overread], [contents_overread], [update_walk_may_hang],
    [duplicate_se_version], [small_firmware_refused], [packed_order_differs],
    [bn_sqrt_assert_vacuous].

    ** Bounds, fuel and parameters

    Loops over a sector use [item_fuel], one more than the words of a sector, and every turn
    advances by a word ([norcow_scan_total]).  The block loops of hashes and ciphers use the
    length of their input.  [contents_fuel] is the length of the code plus two, and every turn
    but one takes a byte ([image_contents_correct]).  The walk over an update file takes its
    fuel as an argument, since it may not end.  Rejection sampling uses [rng_fuel]; the class
    [RngOk] assumes that the generator, which is hardware, gives words in range and an
    acceptable value within the fuel.  Inversion runs the 522 turns of the source; bit and digit
    loops run over the limbs (80 decimal digits at most); the multiplications take their 63 or
    64 windows; signing its 10000 turns.  In the curve code the random words are an argument:
    [generate_k_random] takes nine at a time, its fuel is their number, and [supplies] says
    that the words hold as many acceptable numbers as a call draws; [plenty] words of small
    value always do.  The generator writes at least a byte per turn, so its fuel is the
    requested length.  The retry loops of key derivation take their number of turns, since
    they may go on; a base 58 digit loop runs over a buffer of 138/100 of the bytes, which
    [Base58Spec] shows to be enough; the handler of the serial line makes at most one turn per
    unread byte; the loops that wait for the Bluetooth chip take their number of turns, and
    what interrupts do to the queue meanwhile is an argument; eleven turns halve the 1024 words
    of SLIP-39 down to one.  The DMA controller is described by [dma_byte].  The digests of
    SHA-3, Keccak, BLAKE-256 and Groestl ([other_digests]), the keys of the Edwards curves
    ([ed_keys]), the ed25519 functions, the versions that the chips
    report and the contents of the file system are arguments.  Storage is modelled in the
    emulator build (64-bit [size_t], no random delays); images and updates for the 32-bit
    device.  The host is little-endian.

    ** Not modelled

    Clearing of secrets from memory (nothing reads them again in the model), timing, and
    power loss inside an operation.  Of [image.c]: [install_bootloader] and
    [install_firmware] (flash and eMMC writing with retries and progress callbacks) and
    [check_image_contents], which has no caller.  Of [emmc_commands.c]: message handlers, file
    transfer and installation.  Of [bip32.c] and [address.c]:
    the functions for Ethereum, NEM and Cardano, which the default options leave out.  Of
    [usart.c] and [spi_legacy.c]: the set-up and the transmit side, which only drive the
    peripherals.  [bip39.c]: not modelled yet.  The theorems on curves hold for every curve of the class [CurveOk]; secp256k1 is
    the instance that is proved; for nist256p1 only the constants are translated.  The other drivers, USB, the secure element
    protocol, user interface and MicroPython glue have no behaviour that can be stated without their peripherals; FatFs,
    the QR decoders and SEGGER are vendored.

    ** Plan

    Next: recovery phrases ([bip39.c]), the other address encodings ([base32.c],
    [segwit_addr.c], [cash_addr.c]), SHA-3, the instance for nist256p1. *)

From stdpp Require Import base list numbers.
From Stdlib Require Import ZArith Lia.

Declare Scope fw_scope.
Delimit Scope fw_scope with fw.
Global Open Scope Z_scope.

(** ** Machine integers

    A C integer of width [w] is a [Z]; arithmetic that may leave the range is
    followed by the wrap of its type. *)

Definition wrap (w x : Z) : Z := x mod 2 ^ w.
Definition u8 (x : Z) : Z := wrap 8 x.
Definition u16 (x : Z) : Z := wrap 16 x.
Definition u32 (x : Z) : Z := wrap 32 x.

Notation "x '.&' y" := (Z.land x y) (at level 40, left associativity) : fw_scope.
Notation "x '.|' y" := (Z.lor x y) (at level 50, left associativity) : fw_scope.
Notation "x '.^' y" := (Z.lxor x y) (at level 50, left associativity) : fw_scope.

(** [~x] on an unsigned 32-bit integer. *)
Definition not32 (x : Z) : Z := 4294967295 - x.

(** A list of integers that are all bytes. *)
Definition is_byte (x : Z) : Prop := 0 <= x < 256.
Definition is_u16 (x : Z) : Prop := 0 <= x < 65536.
Definition is_u32 (x : Z) : Prop := 0 <= x < 4294967296.

#[global] Instance is_byte_dec x : Decision (is_byte x).
Proof. unfold is_byte. apply _. Defined.
#[global] Instance is_u16_dec x : Decision (is_u16 x).
Proof. unfold is_u16. apply _. Defined.
#[global] Instance is_u32_dec x : Decision (is_u32 x).
Proof. unfold is_u32. apply _. Defined.

(** The length of a list as an integer. *)
Definition zlen {A} (l : list A) : Z := Z.of_nat (length l).

(** [l[i]] and [l[i] = x] with an integer index.  Out of range the read yields
    [d] and the write does nothing. *)
Definition znth {A} (d : A) (l : list A) (i : Z) : A :=
  if i <? 0 then d else nth (Z.to_nat i) l d.
Definition zupd {A} (l : list A) (i : Z) (x : A) : list A :=
  if i <? 0 then l else <[Z.to_nat i := x]> l.

(** [len] elements starting at [off]. *)
Definition slice {A} (l : list A) (off len : Z) : list A :=
  take (Z.to_nat len) (drop (Z.to_nat off) l).

(** [len] copies of [x]. *)
Definition zrep {A} (n : Z) (x : A) : list A := replicate (Z.to_nat n) x.

(** ** Little-endian words *)

Fixpoint le_bytes (n : nat) (z : Z) : list Z :=
  match n with
  | O => []
  | S n => z mod 256 :: le_bytes n (z / 256)
  end.

Fixpoint le_val (bs : list Z) : Z :=
  match bs with
  | [] => 0
  | b :: bs => b + 256 * le_val bs
  end.

(** Big-endian words, the order the hash functions use. *)
Definition be_bytes (n : nat) (z : Z) : list Z := rev (le_bytes n z).
Definition be_val (bs : list Z) : Z := le_val (rev bs).

(** ** Computations with state that may stop

    [Ok a s] is a call that returned [a] leaving state [s]; [Halt f s] is a call
    that did not return: the device stopped with reason [f] ([ensure],
    [__fatal_error], ...), and [s] is the state (flash included) it stopped in. *)

Inductive outcome (E S A : Type) : Type :=
| Ok (a : A) (s : S)
| Halt (f : E) (s : S).
Arguments Ok {E S A} _ _.
Arguments Halt {E S A} _ _.

Definition M (E S A : Type) : Type := S -> outcome E S A.

#[global] Instance M_ret {E S} : MRet (M E S) := fun A a s => Ok a s.
#[global] Instance M_bind {E S} : MBind (M E S) := fun A B k m s =>
  match m s with
  | Ok a s' => k a s'
  | Halt f s' => Halt f s'
  end.
#[global] Instance M_fmap {E S} : FMap (M E S) := fun A B f m s =>
  match m s with
  | Ok a s' => Ok (f a) s'
  | Halt e s' => Halt e s'
  end.

Definition getS {E S} : M E S S := fun s => Ok s s.
Definition putS {E S} (s : S) : M E S unit := fun _ => Ok tt s.
Definition modS {E S} (f : S -> S) : M E S unit := fun s => Ok tt (f s).
Definition halt {E S A} (f : E) : M E S A := fun s => Halt f s.

(** [for (i = 0; ...) body(x_i)] over the elements of a list. *)
Fixpoint forM {E S A} (l : list A) (body : A -> M E S unit) : M E S unit :=
  match l with
  | [] => mret ()
  | x :: l => body x ≫= fun _ => forM l body
  end.

(** ** Tactics *)

(** Evaluate the monadic operators in the goal. *)
Ltac mstep :=
  cbv beta iota delta [mbind mret fmap M_bind M_ret M_fmap getS putS modS halt forM].

(** Turn the boolean comparisons of the code into propositions. *)
Ltac zbool :=
  repeat match goal with
  | H : (_ <? _) = true |- _ => apply Z.ltb_lt in H
  | H : (_ <? _) = false |- _ => apply Z.ltb_ge in H
  | H : (_ <=? _) = true |- _ => apply Z.leb_le in H
  | H : (_ <=? _) = false |- _ => apply Z.leb_gt in H
  | H : (_ =? _) = true |- _ => apply Z.eqb_eq in H
  | H : (_ =? _) = false |- _ => apply Z.eqb_neq in H
  | H : (_ && _) = true |- _ => apply andb_prop in H; destruct H
  | H : (_ || _) = false |- _ => apply orb_false_elim in H; destruct H
  | H : negb _ = true |- _ => apply negb_true_iff in H
  | H : negb _ = false |- _ => apply negb_false_iff in H
  end.

(** Decide the comparison the goal branches on when [lia] can, both ways. *)
Ltac zif :=
  repeat match goal with
  | |- context [?a <? ?b] =>
      first [ replace (a <? b) with true by (symmetry; apply Z.ltb_lt; lia)
            | replace (a <? b) with false by (symmetry; apply Z.ltb_ge; lia) ]
  | |- context [?a <=? ?b] =>
      first [ replace (a <=? b) with true by (symmetry; apply Z.leb_le; lia)
            | replace (a <=? b) with false by (symmetry; apply Z.leb_gt; lia) ]
  | |- context [?a =? ?b] =>
      first [ replace (a =? b) with true by (symmetry; apply Z.eqb_eq; lia)
            | replace (a =? b) with false by (symmetry; apply Z.eqb_neq; lia) ]
  end; cbn [negb andb orb].

(** [lia] with division and remainder by constants. *)
Ltac zlia := Z.to_euclidean_division_equations; lia.

Create HintDb fw discriminated.
Create Rewrite HintDb zlen.

(** ** Shared lemmas *)

Lemma wrap_small w x : 0 <= x < 2 ^ w -> wrap w x = x.
Proof. apply Z.mod_small. Qed.

Lemma u32_small x : 0 <= x < 4294967296 -> u32 x = x.
Proof. apply (wrap_small 32). Qed.

Lemma u16_small x : 0 <= x < 65536 -> u16 x = x.
Proof. apply (wrap_small 16). Qed.

Lemma u8_small x : 0 <= x < 256 -> u8 x = x.
Proof. apply (wrap_small 8). Qed.

Lemma u32_range x : 0 <= u32 x < 4294967296.
Proof. apply (Z.mod_pos_bound x (2 ^ 32)); lia. Qed.

Lemma u8_range x : 0 <= u8 x < 256.
Proof. apply (Z.mod_pos_bound x (2 ^ 8)); lia. Qed.

Lemma zlen_nonneg {A} (l : list A) : 0 <= zlen l.
Proof. unfold zlen; lia. Qed.

Lemma zlen_app {A} (l k : list A) : zlen (l ++ k) = zlen l + zlen k.
Proof. unfold zlen. rewrite length_app. lia. Qed.

Lemma zlen_cons {A} (x : A) l : zlen (x :: l) = 1 + zlen l.
Proof. unfold zlen. cbn [length]. lia. Qed.

Lemma zlen_nil {A} : zlen (@nil A) = 0.
Proof. reflexivity. Qed.

Lemma zlen_zrep {A} n (x : A) : 0 <= n -> zlen (zrep n x) = n.
Proof. intros. unfold zlen, zrep. rewrite length_replicate. lia. Qed.

Lemma length_le_bytes n z : length (le_bytes n z) = n.
Proof. revert z; induction n; intros; cbn; auto. Qed.

Lemma zlen_le_bytes n z : zlen (le_bytes n z) = Z.of_nat n.
Proof. unfold zlen. by rewrite length_le_bytes. Qed.

Lemma le_bytes_byte n z : Forall is_byte (le_bytes n z).
Proof.
  revert z; induction n; intros; cbn; constructor; auto.
  apply Z.mod_pos_bound; lia.
Qed.

Lemma le_val_range bs : Forall is_byte bs -> 0 <= le_val bs < 256 ^ zlen bs.
Proof.
  induction 1 as [|b bs Hb _ IH]; [change (0 <= 0 < 1); lia|].
  rewrite zlen_cons, Z.pow_add_r by (pose proof (zlen_nonneg bs); lia).
  rewrite Z.pow_1_r. unfold is_byte in *. cbn [le_val]. lia.
Qed.

Lemma le_val_bytes n z : le_val (le_bytes n z) = z mod 256 ^ Z.of_nat n.
Proof.
  revert z; induction n as [|n IH]; intros z; cbn [le_bytes le_val].
  - by rewrite Z.mod_1_r.
  - rewrite IH, Nat2Z.inj_succ, Z.pow_succ_r by (apply Nat2Z.is_nonneg).
    rewrite Z.rem_mul_r; [done | lia | apply Z.pow_pos_nonneg; lia].
Qed.

Lemma le_bytes_val bs : Forall is_byte bs -> le_bytes (length bs) (le_val bs) = bs.
Proof.
  induction 1 as [|b bs Hb _ IH]; [done|].
  cbn [length le_bytes le_val]. unfold is_byte in Hb. f_equal.
  - rewrite (Z.mul_comm 256), Z.mod_add by lia. apply Z.mod_small; lia.
  - rewrite (Z.mul_comm 256), Z.div_add by lia.
    rewrite Z.div_small, Z.add_0_l by lia. done.
Qed.

Lemma slice_mid {A} (p m q : list A) off len :
  off = zlen p -> len = zlen m -> slice (p ++ m ++ q) off len = m.
Proof.
  intros -> ->. unfold slice, zlen. rewrite !Nat2Z.id.
  by rewrite drop_app_length, take_app_length.
Qed.

Lemma znth_zupd_eq {A} (d : A) l i x : 0 <= i < zlen l -> znth d (zupd l i x) i = x.
Proof.
  intros Hi. unfold znth, zupd, zlen in *. zif.
  apply nth_lookup_Some, list_lookup_insert_eq. lia.
Qed.

Lemma znth_zupd_ne {A} (d : A) l i j x : i <> j -> znth d (zupd l i x) j = znth d l j.
Proof.
  intros Hne. unfold znth, zupd.
  destruct (Z.ltb_spec j 0); [done|]. destruct (Z.ltb_spec i 0); [done|].
  rewrite !nth_lookup. f_equal. apply list_lookup_insert_ne. lia.
Qed.

Lemma zlen_zupd {A} (l : list A) i x : zlen (zupd l i x) = zlen l.
Proof. unfold zlen, zupd. destruct (i <? 0); [done|]. by rewrite length_insert. Qed.

Lemma zupd_zupd {A} (l : list A) i x y : zupd (zupd l i x) i y = zupd l i y.
Proof. unfold zupd. destruct (i <? 0); [done|]. apply list_insert_insert_eq. Qed.

Lemma znth_app_r {A} (d : A) p l i : 0 <= i -> znth d (p ++ l) (zlen p + i) = znth d l i.
Proof.
  intros Hi. unfold znth, zlen. zif. rewrite app_nth2 by lia. f_equal. lia.
Qed.

Lemma zupd_app_r {A} (p l : list A) i x : 0 <= i -> zupd (p ++ l) (zlen p + i) x = p ++ zupd l i x.
Proof.
  intros Hi. unfold zupd, zlen. zif. rewrite insert_app_r_alt by lia. do 2 f_equal. lia.
Qed.

Lemma zupd_app_l {A} (p l : list A) i x : i < zlen p -> zupd (p ++ l) i x = zupd p i x ++ l.
Proof.
  intros Hi. unfold zupd, zlen in *. destruct (i <? 0) eqn:E; [done|]. zbool. by apply insert_app_l; lia.
Qed.

Lemma zrep_app {A} m n (x : A) : 0 <= m -> 0 <= n -> zrep (m + n) x = zrep m x ++ zrep n x.
Proof.
  intros. unfold zrep. rewrite Z2Nat.inj_add by lia. apply replicate_add.
Qed.

Lemma Forall_zrep {A} (P : A -> Prop) n x : P x -> Forall P (zrep n x).
Proof. intros. by apply Forall_replicate. Qed.

#[export] Hint Rewrite @zlen_app @zlen_cons @zlen_nil @zlen_le_bytes @zlen_zupd : zlen.
#[export] Hint Rewrite @zlen_zrep using lia : zlen.
Ltac zlen := autorewrite with zlen in *; try lia.

(** Clearing bits: [d] can be written over [o] in flash. *)
Definition clears (o d : Z) : Prop := Z.land o d = d.

#[global] Instance clears_dec o d : Decision (clears o d).
Proof. unfold clears. apply _. Defined.

Lemma clears_refl o : clears o o.
Proof. apply Z.land_diag. Qed.

Lemma clears_zero o : clears o 0.
Proof. apply Z.land_0_r. Qed.

Lemma clears_ff d : is_byte d -> clears 255 d.
Proof.
  intros. unfold clears. change 255 with (Z.ones 8).
  rewrite Z.land_comm, Z.land_ones by lia. apply Z.mod_small. unfold is_byte in *. lia.
Qed.

Lemma le_val_app a b : le_val (a ++ b) = le_val a + 256 ^ zlen a * le_val b.
Proof.
  induction a as [|x a IH]; cbn [app le_val].
  - change (256 ^ zlen []) with 1. lia.
  - rewrite IH, zlen_cons, Z.pow_add_r by (pose proof (zlen_nonneg a); lia).
    rewrite Z.pow_1_r. lia.
Qed.

Lemma le_bytes_uniq n z bs :
  length bs = n -> Forall is_byte bs -> le_val bs = z -> le_bytes n z = bs.
Proof. intros <- ? <-. by apply le_bytes_val. Qed.
