(* ===== verification/Flash.v ===== *)
(** * Flash memory: [core/embed/unix/flash.c]

    The memory-mapped flash of the emulator, which is the build the storage
    library is linked into.  [FLASH_BUFFER] is kept per sector; a pointer
    returned by [flash_get_address] is the pair of its sector and the offset in
    it.  Erasing sets every bit, and a write can only clear bits. *)

From stdpp Require Import base list numbers.
From Stdlib Require Import ZArith Lia.
From S2P Require Import Prelude.
Local Open Scope fw_scope.

Module Flash.

Definition FLASH_SECTOR_COUNT : Z := 24.

(** Start addresses of the sectors (model T); the last is not a sector. *)
Definition FLASH_SECTOR_TABLE : list Z :=
  [0x08000000; 0x08004000; 0x08008000; 0x0800C000; 0x08010000; 0x08020000;
   0x08040000; 0x08060000; 0x08080000; 0x080A0000; 0x080C0000; 0x080E0000;
   0x08100000; 0x08104000; 0x08108000; 0x0810C000; 0x08110000; 0x08120000;
   0x08140000; 0x08160000; 0x08180000; 0x081A0000; 0x081C0000; 0x081E0000;
   0x08200000].

Definition sector_addr (sector : Z) : Z := znth 0 FLASH_SECTOR_TABLE sector.

(** The contents of the flash, sector by sector. *)
Definition flash_mem : Type := list (list Z).

Definition flash_sector_size (sector : Z) : Z :=
  if FLASH_SECTOR_COUNT <=? sector then 0
  else sector_addr (sector + 1) - sector_addr sector.

(** A fresh flash file: every byte 0xFF. *)
Definition flash_init : flash_mem :=
  map (fun i => zrep (flash_sector_size (Z.of_nat i)) 0xFF) (seq 0 24).

(** The offset in [sector] the returned pointer points at, [None] for NULL. *)
Definition flash_get_address (sector offset size : Z) : option Z :=
  if FLASH_SECTOR_COUNT <=? sector then None
  else
    let addr := u32 (sector_addr sector + offset) in
    let next := sector_addr (sector + 1) in
    if next <? u32 (addr + size) then None
    else Some (addr - sector_addr sector).

(** [len] bytes behind a pointer. *)
Definition flash_read (fl : flash_mem) (sector offset len : Z) : list Z :=
  slice (znth [] fl sector) offset len.

(** Store bytes behind a pointer. *)
Definition splice (l : list Z) (offset : Z) (bs : list Z) : list Z :=
  take (Z.to_nat offset) l ++ bs ++ drop (Z.to_nat offset + length bs) l.
Definition flash_store (fl : flash_mem) (sector offset : Z) (bs : list Z) : flash_mem :=
  zupd fl sector (splice (znth [] fl sector) offset bs).

Fixpoint flash_erase_sectors (fl : flash_mem) (sectors : list Z) : flash_mem :=
  match sectors with
  | [] => fl
  | s :: sectors =>
      let size := sector_addr (s + 1) - sector_addr s in
      flash_erase_sectors (zupd fl s (zrep size 0xFF)) sectors
  end.

Definition flash_erase (fl : flash_mem) (sector : Z) : flash_mem :=
  flash_erase_sectors fl [sector].

(** [None] is [secfalse]: nothing was written. *)
Definition flash_write_byte (fl : flash_mem) (sector offset data : Z)
    : option flash_mem :=
  match flash_get_address sector offset 1 with
  | None => None
  | Some p =>
      let old := le_val (flash_read fl sector p 1) in
      if negb (old .& data =? data) then None
      else Some (flash_store fl sector p (le_bytes 1 data))
  end.

Definition flash_write_word (fl : flash_mem) (sector offset data : Z)
    : option flash_mem :=
  if negb (offset mod 4 =? 0) then None
  else
    match flash_get_address sector offset 4 with
    | None => None
    | Some p =>
        let old := le_val (flash_read fl sector p 4) in
        if negb (old .& data =? data) then None
        else Some (flash_store fl sector p (le_bytes 4 data))
    end.

(** ** Pointers and writes by the decomposition of a sector *)

Lemma flash_get_address_in sector offset size :
  0 <= sector < FLASH_SECTOR_COUNT -> 0 <= offset -> 0 <= size ->
  offset + size <= flash_sector_size sector ->
  flash_get_address sector offset size = Some offset.
Proof.
  intros Hs Ho Hz Hfit. unfold flash_get_address, flash_sector_size in *.
  destruct (Z.leb_spec FLASH_SECTOR_COUNT sector); [lia|].
  assert (0 <= sector_addr sector /\ sector_addr (sector + 1) < 2 ^ 30) as [H0 H1].
  { assert (Forall (fun x => 0 <= x < 2 ^ 30) FLASH_SECTOR_TABLE) as Ht
      by (repeat constructor; lia).
    unfold sector_addr, znth. zif. rewrite Forall_nth in Ht.
    unfold FLASH_SECTOR_COUNT in *.
    split; apply Ht; cbn [length FLASH_SECTOR_TABLE]; lia. }
  rewrite (u32_small (_ + offset)) by lia. rewrite u32_small by lia.
  zif. f_equal. lia.
Qed.

Lemma flash_get_address_out sector offset size :
  0 <= sector < FLASH_SECTOR_COUNT -> 0 <= offset < 2 ^ 30 -> 0 <= size < 2 ^ 30 ->
  flash_sector_size sector < offset + size ->
  flash_get_address sector offset size = None.
Proof.
  intros Hs Ho Hz Hfit. unfold flash_get_address, flash_sector_size in *.
  destruct (Z.leb_spec FLASH_SECTOR_COUNT sector); [lia|].
  assert (0 <= sector_addr sector < 2 ^ 30) as H0.
  { assert (Forall (fun x => 0 <= x < 2 ^ 30) FLASH_SECTOR_TABLE) as Ht
      by (repeat constructor; lia).
    unfold sector_addr, znth. zif. rewrite Forall_nth in Ht.
    unfold FLASH_SECTOR_COUNT in *.
    apply Ht; cbn [length FLASH_SECTOR_TABLE]; lia. }
  rewrite (u32_small (_ + offset)) by lia. rewrite u32_small by lia.
  by zif.
Qed.

Lemma splice_mid p m m' q off :
  off = zlen p -> length m = length m' -> splice (p ++ m ++ q) off m' = p ++ m' ++ q.
Proof.
  intros -> Hl. unfold splice, zlen. rewrite Nat2Z.id.
  rewrite take_app_length, drop_app_add', <- Hl by done. by rewrite drop_app_length.
Qed.

Section Writes.
Context (fl : flash_mem) (s : Z).
Context (Hs : 0 <= s < FLASH_SECTOR_COUNT).

Lemma flash_write_byte_mid p b q off d :
  znth [] fl s = p ++ [b] ++ q -> off = zlen p ->
  off + 1 <= flash_sector_size s -> is_byte d ->
  flash_write_byte fl s off d =
    if decide (clears b d) then Some (zupd fl s (p ++ [d] ++ q)) else None.
Proof.
  intros Hsec Ho Hfit Hd. unfold flash_write_byte.
  pose proof (zlen_nonneg p).
  rewrite flash_get_address_in by lia.
  unfold flash_read, flash_store. rewrite Hsec, slice_mid by done.
  cbn [le_val le_bytes]. rewrite Z.mul_0_r, Z.add_0_r.
  unfold clears, is_byte in *.
  case_decide as Hc.
  - rewrite Hc, Z.eqb_refl. cbn [negb]. f_equal. f_equal.
    rewrite Z.mod_small by lia. by apply splice_mid.
  - by destruct (Z.eqb_spec (Z.land b d) d).
Qed.

Lemma flash_write_word_mid p w q off d :
  znth [] fl s = p ++ w ++ q -> off = zlen p -> length w = 4%nat ->
  off mod 4 = 0 -> off + 4 <= flash_sector_size s ->
  flash_write_word fl s off d =
    if decide (clears (le_val w) d) then Some (zupd fl s (p ++ le_bytes 4 d ++ q))
    else None.
Proof.
  intros Hsec Ho Hw Hal Hfit. unfold flash_write_word.
  pose proof (zlen_nonneg p).
  rewrite Hal, flash_get_address_in by lia. cbn [negb Z.eqb].
  unfold flash_read, flash_store. rewrite Hsec, slice_mid by (done || unfold zlen; lia).
  unfold clears. case_decide as Hc.
  - rewrite Hc, Z.eqb_refl. cbn [negb]. f_equal. f_equal. by apply splice_mid.
  - by destruct (Z.eqb_spec (Z.land (le_val w) d) d).
Qed.

End Writes.

End Flash.
