(* ===== verification/Norcow.v ===== *)
(** * Norcow, the log-structured key-value store: [storage/norcow.c]

    Two flash sectors; one is active and holds a magic, a version and a sequence
    of items (key, length, data, padding to a word).  An entry is changed by
    clearing bits in place or by appending a new item after zeroing the old one;
    a full sector is compacted into the other sector. *)

From stdpp Require Import base list numbers gmap.
From Stdlib Require Import ZArith Lia.
From S2P Require Import Prelude Flash.
Local Open Scope fw_scope.

Module Norcow.
Import Flash.

(** ** Configuration (model T) *)

Definition NORCOW_SECTOR_COUNT : Z := 2.
Definition NORCOW_SECTOR_SIZE : Z := 64 * 1024.
Definition norcow_sectors : list Z := [4; 16].
Definition NORCOW_HEADER_LEN : Z := 0.
Definition NORCOW_VERSION : Z := 3.

Definition NORCOW_MAGIC : Z := 0x3243524e.
Definition NORCOW_MAGIC_V0 : Z := 0x5743524e.
Definition NORCOW_WORD_SIZE : Z := 4.
Definition NORCOW_PREFIX_LEN : Z := NORCOW_WORD_SIZE.
Definition NORCOW_MAGIC_LEN : Z := NORCOW_WORD_SIZE.
Definition NORCOW_VERSION_LEN : Z := NORCOW_WORD_SIZE.
Definition NORCOW_KEY_FREE : Z := 0xFFFF.
Definition NORCOW_KEY_DELETED : Z := 0x0000.
Definition NORCOW_STORAGE_START : Z :=
  NORCOW_HEADER_LEN + NORCOW_MAGIC_LEN + NORCOW_VERSION_LEN.

(** ** State: the static variables and the flash *)

Record norcow_state := NorcowState {
  nc_flash : flash_mem;
  norcow_active_sector : Z;
  norcow_write_sector : Z;
  norcow_active_version : Z;
  norcow_free_offset : Z;
}.

(** Why a call does not return: a failed [ensure], an access outside an array
    (undefined in C), or a model loop without fuel (shown impossible). *)
Inductive fault := EnsureFailed | OutOfBounds | OutOfFuel.

Abbreviation NC := (M fault norcow_state).

Definition ensure (b : bool) : NC unit :=
  if b then mret () else halt EnsureFailed.

Definition set_flash (fl : flash_mem) : NC unit :=
  modS (fun s => NorcowState fl (norcow_active_sector s) (norcow_write_sector s)
                   (norcow_active_version s) (norcow_free_offset s)).
Definition set_active_sector (i : Z) : NC unit :=
  modS (fun s => NorcowState (nc_flash s) i (norcow_write_sector s)
                   (norcow_active_version s) (norcow_free_offset s)).
Definition set_write_sector (i : Z) : NC unit :=
  modS (fun s => NorcowState (nc_flash s) (norcow_active_sector s) i
                   (norcow_active_version s) (norcow_free_offset s)).
Definition set_active_version (v : Z) : NC unit :=
  modS (fun s => NorcowState (nc_flash s) (norcow_active_sector s)
                   (norcow_write_sector s) v (norcow_free_offset s)).
Definition set_free_offset (o : Z) : NC unit :=
  modS (fun s => NorcowState (nc_flash s) (norcow_active_sector s)
                   (norcow_write_sector s) (norcow_active_version s) o).

(** [norcow_sectors[sector]] *)
Definition sector_num (sector : Z) : NC Z :=
  match norcow_sectors !! Z.to_nat sector with
  | Some n => mret n
  | None => halt OutOfBounds
  end.

(** [flash_write_byte] and [flash_write_word] on the state; the result is the
    returned [secbool]. *)
Definition write_byte (num offset data : Z) : NC bool :=
  s ← getS;
  match flash_write_byte (nc_flash s) num offset data with
  | Some fl => set_flash fl ≫= fun _ => mret true
  | None => mret false
  end.
Definition write_word (num offset data : Z) : NC bool :=
  s ← getS;
  match flash_write_word (nc_flash s) num offset data with
  | Some fl => set_flash fl ≫= fun _ => mret true
  | None => mret false
  end.

(** ** Reading *)

(** A pointer into sector [sector], as an offset. *)
Definition norcow_ptr (sector offset size : Z) : NC (option Z) :=
  ensure (sector <=? NORCOW_SECTOR_COUNT) ≫= fun _ =>
  num ← sector_num sector;
  mret (flash_get_address num offset size).

(** The bytes behind such a pointer. *)
Definition ptr_read (sector p len : Z) : NC (list Z) :=
  num ← sector_num sector;
  s ← getS;
  mret (flash_read (nc_flash s) num p len).

Definition ALIGN4 (x : Z) : Z := Z.land (x + 3) (-4).

(** Key, value pointer, length and position of the next item. *)
Definition read_item (sector offset : Z) : NC (option (Z * Z * Z * Z)) :=
  k ← norcow_ptr sector offset 2;
  match k with
  | None => mret None
  | Some k =>
      kb ← ptr_read sector k 2;
      let key := le_val kb in
      if key =? NORCOW_KEY_FREE then mret None
      else
        l ← norcow_ptr sector (offset + 2) 2;
        match l with
        | None => mret None
        | Some l =>
            lb ← ptr_read sector l 2;
            let len := le_val lb in
            v ← norcow_ptr sector (offset + 4) len;
            match v with
            | None => mret None
            | Some v => mret (Some (key, v, len, ALIGN4 (offset + 4 + len)))
            end
        end
  end.

(** Start of the items and the version of a sector. *)
Definition find_start_offset (sector : Z) : NC (option (Z * Z)) :=
  m ← norcow_ptr sector NORCOW_HEADER_LEN (NORCOW_MAGIC_LEN + NORCOW_VERSION_LEN);
  match m with
  | None => mret None
  | Some m =>
      mb ← ptr_read sector m 4;
      vb ← ptr_read sector (m + 4) 4;
      let magic := le_val mb in
      if magic =? NORCOW_MAGIC then
        mret (Some (NORCOW_STORAGE_START, not32 (le_val vb)))
      else if magic =? NORCOW_MAGIC_V0 then
        mret (Some (NORCOW_HEADER_LEN + NORCOW_MAGIC_LEN, 0))
      else mret None
  end.

(** Bound on the items of a sector: every item takes at least a word. *)
Definition item_fuel : nat := Z.to_nat (NORCOW_SECTOR_SIZE / 4 + 1).

Fixpoint find_item_loop (fuel : nat) (sector key offset : Z)
    (found : option (Z * Z)) : NC (option (Z * Z)) :=
  match fuel with
  | O => halt OutOfFuel
  | S fuel =>
      r ← read_item sector offset;
      match r with
      | None => mret found
      | Some (k, v, l, pos) =>
          find_item_loop fuel sector key pos (if key =? k then Some (v, l) else found)
      end
  end.

(** The value pointer and length of the last item with the key. *)
Definition find_item (sector key : Z) : NC (option (Z * Z)) :=
  st ← find_start_offset sector;
  match st with
  | None => mret None
  | Some (offset, _) => find_item_loop item_fuel sector key offset None
  end.

Fixpoint find_free_offset_loop (fuel : nat) (sector offset : Z) : NC Z :=
  match fuel with
  | O => halt OutOfFuel
  | S fuel =>
      r ← read_item sector offset;
      match r with
      | None => mret offset
      | Some (_, _, _, pos) => find_free_offset_loop fuel sector pos
      end
  end.

(** Returns [secfalse], that is 0, for a sector without a magic. *)
Definition find_free_offset (sector : Z) : NC Z :=
  st ← find_start_offset sector;
  match st with
  | None => mret 0
  | Some (offset, _) => find_free_offset_loop item_fuel sector offset
  end.

(** ** Writing *)

(** [for (i = 0; i < len; i++, offset++) ensure(flash_write_byte(...))] *)
Fixpoint write_bytes (num offset : Z) (bs : list Z) : NC unit :=
  match bs with
  | [] => mret ()
  | b :: bs =>
      r ← write_byte num offset b;
      ensure r ≫= fun _ => write_bytes num (offset + 1) bs
  end.

(** [for (; offset % NORCOW_WORD_SIZE; offset++)] *)
Fixpoint pad_zeroes (fuel : nat) (num offset : Z) : NC unit :=
  if offset mod NORCOW_WORD_SIZE =? 0 then mret ()
  else match fuel with
  | O => halt OutOfFuel
  | S fuel =>
      r ← write_byte num offset 0x00;
      ensure r ≫= fun _ => pad_zeroes fuel num (offset + 1)
  end.

(** [data = None] is the NULL pointer: the space is left erased. *)
Definition norcow_write (sector offset prefix : Z) (data : option (list Z)) (len : Z)
    : NC bool :=
  if NORCOW_SECTOR_COUNT <=? sector then mret false
  else if NORCOW_SECTOR_SIZE <? offset + NORCOW_PREFIX_LEN + len then mret false
  else
    num ← sector_num sector;
    r ← write_word num offset prefix;
    ensure r ≫= fun _ =>
    match data with
    | Some bs => write_bytes num (offset + NORCOW_PREFIX_LEN) (take (Z.to_nat len) bs)
    | None => mret ()
    end ≫= fun _ =>
    pad_zeroes 3 num (offset + NORCOW_PREFIX_LEN + len) ≫= fun _ =>
    mret true.

(** [NORCOW_HEADER_LEN] is 0, so there is no header to keep. *)
Definition erase_sector (sector : Z) (set_magic : bool) : NC unit :=
  num ← sector_num sector;
  s ← getS;
  set_flash (flash_erase (nc_flash s) num) ≫= fun _ =>
  if set_magic then
    r1 ← norcow_write sector NORCOW_HEADER_LEN NORCOW_MAGIC None 0;
    ensure r1 ≫= fun _ =>
    r2 ← norcow_write sector (NORCOW_HEADER_LEN + NORCOW_MAGIC_LEN)
           (not32 NORCOW_VERSION) None 0;
    ensure r2
  else mret ().

(** Whether the item was written, and the position after it. *)
Definition write_item (sector offset key : Z) (val : option (list Z)) (len : Z)
    : NC (bool * Z) :=
  let prefix := (u32 (Z.shiftl len 16)) .| key in
  let pos := ALIGN4 (offset + NORCOW_PREFIX_LEN + len) in
  r ← norcow_write sector offset prefix val len;
  mret (r, pos).

Fixpoint compact_loop (fuel : nat) (offsetr offsetw : Z) : NC unit :=
  match fuel with
  | O => halt OutOfFuel
  | S fuel =>
      s ← getS;
      r ← read_item (norcow_active_sector s) offsetr;
      match r with
      | None => mret ()
      | Some (k, v, l, posr) =>
          if k =? NORCOW_KEY_DELETED then compact_loop fuel posr offsetw
          else
            data ← ptr_read (norcow_active_sector s) v l;
            w ← write_item (norcow_write_sector s) offsetw k (Some data) l;
            ensure w.1 ≫= fun _ => compact_loop fuel posr w.2
      end
  end.

Definition compact : NC unit :=
  s ← getS;
  st ← find_start_offset (norcow_active_sector s);
  match st with
  | None => mret ()
  | Some (offsetr, _) =>
      let ws := (norcow_active_sector s + 1) mod NORCOW_SECTOR_COUNT in
      set_write_sector ws ≫= fun _ =>
      erase_sector ws true ≫= fun _ =>
      compact_loop item_fuel offsetr NORCOW_STORAGE_START ≫= fun _ =>
      erase_sector (norcow_active_sector s) false ≫= fun _ =>
      set_active_sector ws ≫= fun _ =>
      set_active_version NORCOW_VERSION ≫= fun _ =>
      fo ← find_free_offset ws;
      set_free_offset fo
  end.

(** ** The interface of norcow.h *)

Definition norcow_wipe : NC unit :=
  s ← getS;
  let act := norcow_active_sector s in
  erase_sector act true ≫= fun _ =>
  forM [0; 1] (fun i => if negb (i =? act) then erase_sector i false else mret ())
    ≫= fun _ =>
  set_active_version NORCOW_VERSION ≫= fun _ =>
  set_write_sector act ≫= fun _ =>
  set_free_offset NORCOW_STORAGE_START.

(** The sector scan of [norcow_init]: found flag and best version so far. *)
Fixpoint init_scan (sectors : list Z) (found : bool) (version : Z) : NC (bool * Z) :=
  match sectors with
  | [] => mret (found, version)
  | i :: sectors =>
      st ← find_start_offset i;
      match st with
      | None => init_scan sectors found version
      | Some (_, v) =>
          set_active_version v ≫= fun _ =>
          if version <=? v then
            set_active_sector i ≫= fun _ => init_scan sectors true v
          else init_scan sectors found version
      end
  end.

(** Returns the version written to [norcow_version]. *)
Definition norcow_init : NC Z :=
  set_active_sector 0 ≫= fun _ =>
  r ← init_scan [0; 1] false 0;
  let '(found, version) := r in
  if negb found || (NORCOW_VERSION <? version) then
    norcow_wipe ≫= fun _ => mret NORCOW_VERSION
  else if version <? NORCOW_VERSION then
    s ← getS;
    let ws := (norcow_active_sector s + 1) mod NORCOW_SECTOR_COUNT in
    set_write_sector ws ≫= fun _ =>
    erase_sector ws true ≫= fun _ =>
    fo ← find_free_offset ws;
    set_free_offset fo ≫= fun _ => mret version
  else
    s ← getS;
    let ws := norcow_active_sector s in
    set_write_sector ws ≫= fun _ =>
    fo ← find_free_offset ws;
    set_free_offset fo ≫= fun _ => mret version.

Definition norcow_get (key : Z) : NC (option (Z * Z)) :=
  s ← getS;
  find_item (norcow_active_sector s) key.

(** Is there a newer instance of the key from [offsetr] on? *)
Fixpoint newer_loop (fuel : nat) (sector key offsetr : Z) : NC bool :=
  match fuel with
  | O => halt OutOfFuel
  | S fuel =>
      r ← read_item sector offsetr;
      match r with
      | None => mret false
      | Some (k, _, _, pos) =>
          if key =? k then mret true else newer_loop fuel sector key pos
      end
  end.

(** The entry found, if any, and the updated [*offset]. *)
Fixpoint get_next_loop (fuel : nat) (sector version offset : Z)
    : NC (option (Z * Z * Z) * Z) :=
  match fuel with
  | O => halt OutOfFuel
  | S fuel =>
      r ← read_item sector offset;
      match r with
      | None => mret (None, offset)
      | Some (key, v, len, pos) =>
          if key =? NORCOW_KEY_DELETED then get_next_loop fuel sector version pos
          else if version =? 0 then
            n ← newer_loop item_fuel sector key pos;
            if (n : bool) then get_next_loop fuel sector version pos
            else mret (Some (key, v, len), pos)
          else mret (Some (key, v, len), pos)
      end
  end.

(** The next entry from [offset] on and the offset to continue from. *)
Definition norcow_get_next (offset : Z) : NC (option (Z * Z * Z) * Z) :=
  s ← getS;
  let sector := norcow_active_sector s in
  let version := norcow_active_version s in
  if offset =? 0 then
    st ← find_start_offset sector;
    match st with
    | None => mret (None, offset)
    | Some (o, _) => get_next_loop item_fuel sector version o
    end
  else get_next_loop item_fuel sector version offset.

(** The in-place update loop: stops at the first byte that cannot be written. *)
Fixpoint update_loop (num offset : Z) (bs : list Z) : NC bool :=
  match bs with
  | [] => mret true
  | b :: bs =>
      r ← write_byte num offset b;
      if (r : bool) then update_loop num (offset + 1) bs else mret false
  end.

(** [while (offset < end) { write a zero word; offset += 4; }] *)
Fixpoint zero_words (fuel : nat) (num offset fin : Z) : NC unit :=
  if fin <=? offset then mret ()
  else match fuel with
  | O => halt OutOfFuel
  | S fuel =>
      r ← write_word num offset 0x00000000;
      ensure r ≫= fun _ => zero_words fuel num (offset + NORCOW_WORD_SIZE) fin
  end.

(** Mark the item whose data is at [offset] as deleted and zero its data. *)
Definition delete_item (num offset len : Z) : NC unit :=
  r ← write_word num (offset - NORCOW_PREFIX_LEN) (u32 (Z.shiftl len 16));
  ensure r ≫= fun _ => zero_words item_fuel num offset (offset + len).

(** Status and the [found] out-parameter. *)
Definition norcow_set_ex (key : Z) (val : option (list Z)) (len : Z)
    : NC (bool * bool) :=
  if key =? NORCOW_KEY_FREE then mret (false, false)
  else
    s ← getS;
    let ws := norcow_write_sector s in
    num ← sector_num ws;
    f ← find_item ws key;
    ret ← match f, val with
          | Some (offset, len_old), Some bs =>
              if len_old =? len then update_loop num offset (take (Z.to_nat len) bs)
              else mret false
          | _, _ => mret false
          end;
    if (ret : bool) then mret (true, true)
    else
      match f with
      | Some (offset, len_old) => delete_item num offset len_old
      | None => mret ()
      end ≫= fun _ =>
      s ← getS;
      (if NORCOW_SECTOR_SIZE <? norcow_free_offset s + NORCOW_PREFIX_LEN + len
       then compact else mret ()) ≫= fun _ =>
      s ← getS;
      w ← write_item (norcow_write_sector s) (norcow_free_offset s) key val len;
      (if (w.1 : bool) then set_free_offset w.2 else mret ()) ≫= fun _ =>
      mret (w.1, bool_decide (is_Some f)).

Definition norcow_set (key : Z) (val : option (list Z)) (len : Z) : NC bool :=
  r ← norcow_set_ex key val len; mret r.1.

Definition norcow_delete (key : Z) : NC bool :=
  if key =? NORCOW_KEY_FREE then mret false
  else
    s ← getS;
    let ws := norcow_write_sector s in
    num ← sector_num ws;
    f ← find_item ws key;
    match f with
    | None => mret false
    | Some (offset, len) => delete_item num offset len ≫= fun _ => mret true
    end.

Definition norcow_update_word (key offset value : Z) : NC bool :=
  s ← getS;
  let ws := norcow_write_sector s in
  f ← find_item ws key;
  match f with
  | None => mret false
  | Some (p, len) =>
      if negb (Z.land offset 3 =? 0) || (len <=? offset) then mret false
      else
        num ← sector_num ws;
        r ← write_word num (p + offset) value;
        ensure r ≫= fun _ => mret true
  end.

Definition norcow_update_bytes (key offset : Z) (data : list Z) (len : Z) : NC bool :=
  s ← getS;
  let ws := norcow_write_sector s in
  f ← find_item ws key;
  match f with
  | None => mret false
  | Some (p, allocated_len) =>
      if allocated_len <? offset + len then mret false
      else
        num ← sector_num ws;
        write_bytes num (p + offset) (take (Z.to_nat len) data) ≫= fun _ => mret true
  end.

Definition norcow_upgrade_finish : NC bool :=
  s ← getS;
  erase_sector (norcow_active_sector s) false ≫= fun _ =>
  set_active_sector (norcow_write_sector s) ≫= fun _ =>
  set_active_version NORCOW_VERSION ≫= fun _ =>
  mret true.

End Norcow.
