(* ===== verification/NorcowSpec.v ===== *)
(** * Norcow implements a finite map

    [Norcow.v] translates [storage/norcow.c]; this file gives the layout
    invariant of its sectors, the abstract contents of the store (a finite map
    from keys to byte strings) and the refinement theorems: every operation of
    norcow.h acts on the contents as the corresponding map operation. *)

From stdpp Require Import base list numbers gmap.
From Stdlib Require Import ZArith Lia.
From S2P Require Import Prelude Flash Norcow.
Local Open Scope fw_scope.

Module NorcowSpec.
Import Flash Norcow.

(** ** Sectors of the state *)

Definition idx (i : Z) : Prop := i = 0 \/ i = 1.
Definition num (i : Z) : Z := if i =? 0 then 4 else 16.
Definition sec (s : norcow_state) (i : Z) : list Z := znth [] (nc_flash s) (num i).

Definition flash_wf (fl : flash_mem) : Prop :=
  zlen fl = FLASH_SECTOR_COUNT /\
  forall i, idx i -> zlen (znth [] fl (num i)) = NORCOW_SECTOR_SIZE.

(** The state with the bytes of one sector replaced. *)
Definition with_sec (s : norcow_state) (i : Z) (bs : list Z) : norcow_state :=
  NorcowState (zupd (nc_flash s) (num i) bs) (norcow_active_sector s)
    (norcow_write_sector s) (norcow_active_version s) (norcow_free_offset s).

Lemma idx_count i : idx i -> (i <=? NORCOW_SECTOR_COUNT) = true.
Proof. by intros [->| ->]. Qed.

Lemma idx_not_count i : idx i -> (NORCOW_SECTOR_COUNT <=? i) = false.
Proof. by intros [->| ->]. Qed.

Lemma num_range i : 0 <= num i < FLASH_SECTOR_COUNT.
Proof. unfold num, FLASH_SECTOR_COUNT. destruct (i =? 0); lia. Qed.

Lemma num_size i : flash_sector_size (num i) = NORCOW_SECTOR_SIZE.
Proof. unfold num. by destruct (i =? 0). Qed.

Lemma num_ne i j : idx i -> idx j -> i <> j -> num i <> num j.
Proof. intros [->| ->] [->| ->]; unfold num; cbn; congruence. Qed.

Lemma sector_num_ok i s : idx i -> sector_num i s = Ok (num i) s.
Proof. by intros [-> | ->]. Qed.

Lemma sec_with_sec s i bs : flash_wf (nc_flash s) -> idx i -> sec (with_sec s i bs) i = bs.
Proof.
  intros [Hl _] _. unfold sec. cbn. apply znth_zupd_eq. rewrite Hl. apply num_range.
Qed.

Lemma sec_with_sec_ne s i j bs :
  idx i -> idx j -> i <> j -> sec (with_sec s i bs) j = sec s j.
Proof. intros. unfold sec. cbn. apply znth_zupd_ne. by apply num_ne. Qed.

Lemma with_sec_with_sec s i bs bs' : with_sec (with_sec s i bs) i bs' = with_sec s i bs'.
Proof. unfold with_sec. cbn. by rewrite zupd_zupd. Qed.

Lemma with_sec_wf s i bs :
  flash_wf (nc_flash s) -> idx i -> zlen bs = NORCOW_SECTOR_SIZE ->
  flash_wf (nc_flash (with_sec s i bs)).
Proof.
  intros [Hl Hw] Hi Hb. split; cbn; [by rewrite zlen_zupd|].
  intros j Hj. destruct (decide (i = j)) as [<-|].
  - rewrite znth_zupd_eq; [done|]. rewrite Hl. apply num_range.
  - rewrite znth_zupd_ne by (by apply num_ne). auto.
Qed.

Lemma sec_len s i : flash_wf (nc_flash s) -> idx i -> zlen (sec s i) = NORCOW_SECTOR_SIZE.
Proof. intros [_ H]. apply H. Qed.

#[local] Hint Resolve num_range sec_len with_sec_wf : fw.

(** ** Primitive reads and writes *)

Section Prim.
Context (s : norcow_state) (i : Z) (Hwf : flash_wf (nc_flash s)) (Hi : idx i).

Lemma norcow_ptr_in off size :
  0 <= off -> 0 <= size -> off + size <= NORCOW_SECTOR_SIZE ->
  norcow_ptr i off size s = Ok (Some off) s.
Proof.
  intros. unfold norcow_ptr, ensure.
  rewrite idx_count by done.
  mstep. rewrite sector_num_ok by done.
  rewrite flash_get_address_in; rewrite ?num_size; auto with fw.
Qed.

Lemma norcow_ptr_out off size :
  0 <= off < 2 ^ 30 -> 0 <= size < 2 ^ 30 -> NORCOW_SECTOR_SIZE < off + size ->
  norcow_ptr i off size s = Ok None s.
Proof.
  intros. unfold norcow_ptr, ensure.
  rewrite idx_count by done.
  mstep. rewrite sector_num_ok by done.
  rewrite flash_get_address_out; rewrite ?num_size; auto with fw.
Qed.

Lemma ptr_read_mid p m q off len :
  sec s i = p ++ m ++ q -> off = zlen p -> len = zlen m ->
  ptr_read i off len s = Ok m s.
Proof.
  intros Hsec -> ->. unfold ptr_read. mstep. rewrite sector_num_ok by done.
  unfold flash_read. fold (sec s i). by rewrite Hsec, slice_mid.
Qed.

Lemma write_byte_mid p b q off d :
  sec s i = p ++ [b] ++ q -> off = zlen p -> is_byte d ->
  write_byte (num i) off d s =
    if decide (clears b d) then Ok true (with_sec s i (p ++ [d] ++ q)) else Ok false s.
Proof.
  intros Hsec Ho Hd. unfold write_byte. mstep.
  erewrite flash_write_byte_mid; eauto using num_range.
  - by case_decide.
  - rewrite num_size. pose proof (sec_len s i Hwf Hi) as Hl.
    rewrite Hsec in Hl. pose proof (zlen_nonneg q). zlen.
Qed.

Lemma write_word_mid p w q off d :
  sec s i = p ++ w ++ q -> off = zlen p -> length w = 4%nat -> off mod 4 = 0 ->
  write_word (num i) off d s =
    if decide (clears (le_val w) d) then Ok true (with_sec s i (p ++ le_bytes 4 d ++ q))
    else Ok false s.
Proof.
  intros Hsec Ho Hw Hal. unfold write_word. mstep.
  erewrite flash_write_word_mid; eauto using num_range.
  - by case_decide.
  - rewrite num_size. pose proof (sec_len s i Hwf Hi) as Hl.
    rewrite Hsec in Hl. pose proof (zlen_nonneg q).
    assert (zlen w = 4) by (unfold zlen; lia). zlen.
Qed.

End Prim.

Lemma with_sec_id s i : flash_wf (nc_flash s) -> idx i -> with_sec s i (sec s i) = s.
Proof.
  intros [Hl _] Hi. destruct s as [fl ? ? ? ?]. unfold with_sec, sec. cbn in *. f_equal.
  pose proof (num_range i). unfold zupd, znth, zlen in *. zif.
  apply list_insert_id.
  destruct (nth_lookup_or_length fl (Z.to_nat (num i)) []); [done | lia].
Qed.

(** Writing a run of bytes over bytes it only clears bits of. *)
Lemma write_bytes_mid s i p old bs q off :
  flash_wf (nc_flash s) -> idx i ->
  sec s i = p ++ old ++ q -> off = zlen p ->
  Forall2 clears old bs -> Forall is_byte bs ->
  write_bytes (num i) off bs s = Ok tt (with_sec s i (p ++ bs ++ q)).
Proof.
  intros Hwf Hi Hsec Ho Hc Hb. revert s p off Hwf Hsec Ho Hb.
  induction Hc as [|o b old bs Ho Hc IH]; intros s p off Hwf Hsec Hoff Hb.
  - rewrite <- Hsec, with_sec_id by done. done.
  - inversion Hb as [|? ? Hb0 Hb']; subst. cbn [write_bytes]. mstep.
    rewrite (write_byte_mid s i Hwf Hi p o (old ++ q)) by done.
    rewrite decide_True by done. unfold ensure. mstep.
    assert (zlen (p ++ [b] ++ old ++ q) = NORCOW_SECTOR_SIZE).
    { rewrite <- (sec_len s i Hwf Hi), Hsec. zlen. }
    rewrite (IH _ (p ++ [b])); auto with fw; [| |zlen].
    + rewrite with_sec_with_sec. by rewrite <- app_assoc.
    + rewrite sec_with_sec by done. by rewrite <- app_assoc.
Qed.

Lemma Forall2_clears_ff bs : Forall is_byte bs -> Forall2 clears (zrep (zlen bs) 255) bs.
Proof.
  intros H. unfold zrep, zlen. rewrite Nat2Z.id.
  induction H; cbn; constructor; auto using clears_ff.
Qed.

(** ** Items *)

Record item := Item { ikey : Z; idata : list Z }.

(** Bytes of padding after [n] bytes of data. *)
Definition pad (n : Z) : Z := (- n) mod 4.

Definition enc (it : item) : list Z :=
  le_bytes 2 (ikey it) ++ le_bytes 2 (zlen (idata it)) ++ idata it
    ++ zrep (pad (zlen (idata it))) 0.

Definition item_ok (it : item) : Prop :=
  0 <= ikey it < NORCOW_KEY_FREE /\ Forall is_byte (idata it) /\ zlen (idata it) < 65536.

Definition body (items : list item) : list Z := concat (map enc items).

Definition header : list Z :=
  le_bytes 4 NORCOW_MAGIC ++ le_bytes 4 (not32 NORCOW_VERSION).

(** Bytes used in a sector that holds [items]. *)
Definition used (items : list item) : Z := NORCOW_STORAGE_START + zlen (body items).

(** The bytes of a sector that holds [items]. *)
Definition sector_bytes (items : list item) : list Z :=
  header ++ body items ++ zrep (NORCOW_SECTOR_SIZE - used items) 255.

Lemma pad_range n : 0 <= pad n < 4.
Proof. apply Z.mod_pos_bound. lia. Qed.

Lemma pad_align n : (n + pad n) mod 4 = 0.
Proof. unfold pad. zlia. Qed.

Lemma ALIGN4_eq x : ALIGN4 x = (x + 3) / 4 * 4.
Proof.
  unfold ALIGN4. change (-4) with (Z.lnot (Z.ones 2)).
  rewrite <- Z.ldiff_land, Z.ldiff_ones_r by lia.
  by rewrite Z.shiftl_mul_pow2, Z.shiftr_div_pow2 by lia.
Qed.

Lemma ALIGN4_pad off n : off mod 4 = 0 -> ALIGN4 (off + n) = off + n + pad n.
Proof. intros. rewrite ALIGN4_eq. unfold pad. zlia. Qed.

Lemma zlen_enc it :
  zlen (enc it) = 4 + zlen (idata it) + pad (zlen (idata it)).
Proof. unfold enc. pose proof (pad_range (zlen (idata it))). zlen. Qed.

Lemma enc_aligned it : zlen (enc it) mod 4 = 0.
Proof.
  rewrite zlen_enc. pose proof (pad_align (zlen (idata it))). zlia.
Qed.

Lemma body_cons it items : body (it :: items) = enc it ++ body items.
Proof. done. Qed.

Lemma body_app xs ys : body (xs ++ ys) = body xs ++ body ys.
Proof. unfold body. by rewrite map_app, concat_app. Qed.

Lemma body_aligned items : zlen (body items) mod 4 = 0.
Proof.
  induction items as [|it items IH]; [done|].
  rewrite body_cons, zlen_app. pose proof (enc_aligned it). zlia.
Qed.

Lemma body_length items : 4 * Z.of_nat (length items) <= zlen (body items).
Proof.
  induction items as [|it items IH]; [done|].
  rewrite body_cons, zlen_app, zlen_enc. cbn [length].
  pose proof (pad_range (zlen (idata it))). pose proof (zlen_nonneg (idata it)). lia.
Qed.

Lemma zlen_header : zlen header = NORCOW_STORAGE_START.
Proof. done. Qed.

Lemma zlen_sector_bytes items :
  used items <= NORCOW_SECTOR_SIZE -> zlen (sector_bytes items) = NORCOW_SECTOR_SIZE.
Proof. intros H. unfold sector_bytes. zlen. rewrite zlen_header. unfold used in *. lia. Qed.

(** ** Scanning a sector *)

Section Scan.
Context (s : norcow_state) (i : Z) (Hwf : flash_wf (nc_flash s)) (Hi : idx i).

Lemma read_item_enc p it q off :
  sec s i = p ++ enc it ++ q -> off = zlen p -> off mod 4 = 0 -> item_ok it ->
  read_item i off s =
    Ok (Some (ikey it, off + 4, zlen (idata it), off + zlen (enc it))) s.
Proof.
  intros Hsec Ho Hal (Hk & Hb & Hl). set (d := idata it) in *.
  pose proof (sec_len s i Hwf Hi) as Hlen. rewrite Hsec in Hlen.
  rewrite !zlen_app, zlen_enc in Hlen. fold d in Hlen.
  pose proof (zlen_nonneg p). pose proof (zlen_nonneg q). pose proof (zlen_nonneg d).
  pose proof (pad_range (zlen d)). unfold NORCOW_KEY_FREE in *.
  assert (Hkey : ptr_read i off 2 s = Ok (le_bytes 2 (ikey it)) s).
  { eapply ptr_read_mid; eauto.
    rewrite Hsec. unfold enc. by rewrite <- !app_assoc. }
  assert (Hlr : ptr_read i (off + 2) 2 s = Ok (le_bytes 2 (zlen d)) s).
  { apply (ptr_read_mid s i Hi (p ++ le_bytes 2 (ikey it)) _ (d ++ zrep (pad (zlen d)) 0 ++ q));
      [|zlen..].
    rewrite Hsec. unfold enc. fold d. by rewrite <- !app_assoc. }
  unfold read_item. mstep.
  rewrite norcow_ptr_in by (done || lia). rewrite Hkey, le_val_bytes.
  rewrite Z.mod_small by (cbn; lia). unfold NORCOW_KEY_FREE. zif.
  rewrite norcow_ptr_in by (done || lia). rewrite Hlr, le_val_bytes.
  rewrite Z.mod_small by (cbn; lia). rewrite norcow_ptr_in by (done || lia).
  rewrite <- (Z.add_assoc off 4), ALIGN4_pad, zlen_enc by done. fold d.
  unfold pad. do 3 f_equal. zlia.
Qed.

Lemma read_item_free p n off :
  sec s i = p ++ zrep n 255 -> off = zlen p -> off mod 4 = 0 -> 0 <= n ->
  read_item i off s = Ok None s.
Proof.
  intros Hsec Ho Hal Hn. pose proof (sec_len s i Hwf Hi) as Hlen.
  rewrite Hsec, zlen_app, zlen_zrep in Hlen by done.
  pose proof (zlen_nonneg p). unfold read_item. mstep.
  unfold NORCOW_SECTOR_SIZE in *.
  destruct (decide (n = 0)) as [->|].
  - by rewrite norcow_ptr_out by (done || unfold NORCOW_SECTOR_SIZE; lia).
  - assert (4 <= n) by zlia.
    rewrite norcow_ptr_in by (done || unfold NORCOW_SECTOR_SIZE; lia).
    rewrite (ptr_read_mid s i Hi p [255; 255] (zrep (n - 2) 255)); [done| |done|done].
    rewrite Hsec. f_equal. replace n with (2 + (n - 2)) at 1 by lia. by rewrite zrep_app by lia.
Qed.

(** Where [find_item_loop] ends on a list of items. *)
Fixpoint locate (key off : Z) (items : list item) (found : option (Z * Z)) :=
  match items with
  | [] => found
  | it :: items =>
      locate key (off + zlen (enc it)) items
        (if key =? ikey it then Some (off + 4, zlen (idata it)) else found)
  end.

Lemma find_item_loop_eq items : forall p n off fuel key found,
  sec s i = p ++ body items ++ zrep n 255 -> off = zlen p -> off mod 4 = 0 -> 0 <= n ->
  Forall item_ok items -> (length items < fuel)%nat ->
  find_item_loop fuel i key off found s = Ok (locate key off items found) s.
Proof.
  induction items as [|it items IH]; intros p n off fuel key found Hsec Ho Hal Hn Hok Hf;
    (destruct fuel as [|fuel]; [cbn in *; lia|]); cbn [find_item_loop locate]; mstep.
  - by rewrite (read_item_free p n) by (done || lia).
  - inversion Hok; subst. rewrite body_cons in Hsec.
    rewrite <- app_assoc in Hsec.
    rewrite (read_item_enc p it (body items ++ zrep n 255)) by (done || lia).
    apply (IH (p ++ enc it) n); auto; [| | |cbn in Hf; lia].
    + rewrite Hsec. by rewrite <- app_assoc.
    + zlen.
    + pose proof (enc_aligned it). zlia.
Qed.

Lemma find_free_offset_loop_eq items : forall p n off fuel,
  sec s i = p ++ body items ++ zrep n 255 -> off = zlen p -> off mod 4 = 0 -> 0 <= n ->
  Forall item_ok items -> (length items < fuel)%nat ->
  find_free_offset_loop fuel i off s = Ok (off + zlen (body items)) s.
Proof.
  induction items as [|it items IH]; intros p n off fuel Hsec Ho Hal Hn Hok Hf;
    (destruct fuel as [|fuel]; [cbn in *; lia|]); cbn [find_free_offset_loop]; mstep.
  - rewrite (read_item_free p n) by (done || lia).
    f_equal. change (body []) with (@nil Z). zlen.
  - inversion Hok; subst. rewrite body_cons in *. rewrite <- app_assoc in Hsec.
    rewrite (read_item_enc p it (body items ++ zrep n 255)) by (done || lia).
    erewrite (IH (p ++ enc it) n); auto; [f_equal; zlen | | | |cbn in Hf; lia].
    + rewrite Hsec. by rewrite <- app_assoc.
    + zlen.
    + pose proof (enc_aligned it). zlia.
Qed.

Section Sector.
Context (items : list item).
Context (Hsec : sec s i = sector_bytes items) (Hfit : used items <= NORCOW_SECTOR_SIZE).
Context (Hok : Forall item_ok items).

Lemma items_fuel : (length items < item_fuel)%nat.
Proof.
  pose proof (body_length items). unfold used, item_fuel in *.
  change NORCOW_STORAGE_START with 8 in *. unfold NORCOW_SECTOR_SIZE in *. zlia.
Qed.

Lemma find_start_offset_eq :
  find_start_offset i s = Ok (Some (NORCOW_STORAGE_START, NORCOW_VERSION)) s.
Proof.
  unfold find_start_offset. mstep.
  rewrite norcow_ptr_in by (done || unfold NORCOW_SECTOR_SIZE; cbn; lia).
  unfold sector_bytes, header in Hsec.
  rewrite (ptr_read_mid s i Hi [] (le_bytes 4 NORCOW_MAGIC)
    (le_bytes 4 (not32 NORCOW_VERSION) ++ body items
       ++ zrep (NORCOW_SECTOR_SIZE - used items) 255));
    [|by rewrite Hsec, <- app_assoc|done|done].
  rewrite (ptr_read_mid s i Hi (le_bytes 4 NORCOW_MAGIC) (le_bytes 4 (not32 NORCOW_VERSION))
    (body items ++ zrep (NORCOW_SECTOR_SIZE - used items) 255));
    [|by rewrite Hsec, <- app_assoc|done|done].
  done.
Qed.

Lemma find_item_eq key : find_item i key s = Ok (locate key NORCOW_STORAGE_START items None) s.
Proof.
  unfold find_item. mstep. rewrite find_start_offset_eq.
  eapply (find_item_loop_eq items header); eauto using items_fuel; try done. lia.
Qed.

Lemma find_free_offset_eq : find_free_offset i s = Ok (used items) s.
Proof.
  unfold find_free_offset. mstep. rewrite find_start_offset_eq.
  eapply (find_free_offset_loop_eq items header); eauto using items_fuel; try done. lia.
Qed.

End Sector.
End Scan.

(** ** Writing to a sector *)

Lemma land_shift_low a b : 0 <= b < 65536 -> Z.land (a * 65536) b = 0.
Proof.
  intros Hb. change 65536 with (2 ^ 16) in *. rewrite <- Z.shiftl_mul_pow2 by lia.
  rewrite <- (Z.mod_small b (2 ^ 16)), <- Z.land_ones by lia.
  apply Z.bits_inj'. intros n Hn. rewrite !Z.land_spec, Z.bits_0.
  destruct (Z.lt_ge_cases n 16).
  - rewrite Z.shiftl_spec_low by lia. done.
  - rewrite Z.ones_spec_high by lia. by rewrite !andb_false_r.
Qed.

Lemma prefix_eq len key :
  0 <= len < 65536 -> 0 <= key < 65536 ->
  u32 (Z.shiftl len 16) .| key = len * 65536 + key.
Proof.
  intros. rewrite Z.shiftl_mul_pow2 by lia. change (2 ^ 16) with 65536.
  rewrite u32_small by lia. rewrite <- Z.lxor_lor by (by apply land_shift_low).
  symmetry. apply Z.add_nocarry_lxor. by apply land_shift_low.
Qed.

Lemma prefix_bytes len key :
  0 <= len < 65536 -> 0 <= key < 65536 ->
  le_bytes 4 (len * 65536 + key) = le_bytes 2 key ++ le_bytes 2 len.
Proof.
  intros. apply le_bytes_uniq; [done|apply Forall_app; split; apply le_bytes_byte|].
  rewrite le_val_app, zlen_le_bytes, !le_val_bytes.
  change (256 ^ Z.of_nat 2) with 65536. rewrite !Z.mod_small by lia. lia.
Qed.

Lemma clears_prefix len key :
  0 <= len < 65536 -> 0 <= key < 65536 -> clears (len * 65536 + key) (len * 65536).
Proof.
  intros. unfold clears. rewrite Z.add_nocarry_lxor by (by apply land_shift_low).
  rewrite Z.lxor_lor by (by apply land_shift_low).
  rewrite Z.land_lor_distr_l, Z.land_diag, (Z.land_comm key), land_shift_low by lia.
  apply Z.lor_0_r.
Qed.

Section Write.
Context (i : Z) (Hi : idx i).

Lemma pad_zeroes_mid k : forall fuel s p q off,
  flash_wf (nc_flash s) -> sec s i = p ++ replicate k 255 ++ q -> off = zlen p ->
  (off + Z.of_nat k) mod 4 = 0 -> (k < 4)%nat -> (k <= fuel)%nat ->
  pad_zeroes fuel (num i) off s = Ok tt (with_sec s i (p ++ replicate k 0 ++ q)).
Proof.
  induction k as [|k IH]; intros fuel s p q off Hwf Hsec Ho Hal Hk Hf.
  - change (replicate 0 0 ++ q) with (replicate 0 255 ++ q).
    rewrite <- Hsec, with_sec_id by done.
    rewrite Nat2Z.inj_0, Z.add_0_r in Hal. change 4 with NORCOW_WORD_SIZE in Hal.
    destruct fuel; cbn [pad_zeroes]; by rewrite Hal.
  - destruct fuel as [|fuel]; [lia|]. cbn [pad_zeroes].
    change NORCOW_WORD_SIZE with 4. destruct (Z.eqb_spec (off mod 4) 0); [zlia|].
    mstep. rewrite (write_byte_mid s i Hwf Hi p 255 (replicate k 255 ++ q)) by done.
    rewrite decide_True by apply clears_zero. unfold ensure. mstep.
    assert (zlen (p ++ [0] ++ replicate k 255 ++ q) = NORCOW_SECTOR_SIZE).
    { rewrite <- (sec_len s i Hwf Hi), Hsec. cbn [replicate]. zlen. }
    rewrite (IH fuel _ (p ++ [0]) q); auto with fw; [| |zlen|zlia|lia|lia].
    + rewrite with_sec_with_sec. by rewrite <- app_assoc.
    + rewrite sec_with_sec by done. by rewrite <- app_assoc.
Qed.

(** The bytes an item holds after [write_item]: a NULL value leaves the space
    erased. *)
Definition data_of (val : option (list Z)) (len : Z) : list Z :=
  match val with Some bs => bs | None => zrep len 255 end.

Lemma zlen_data_of val len :
  0 <= len -> zlen (data_of val len) = len \/ exists bs, val = Some bs.
Proof. intros. destruct val; [eauto|]. left. cbn. zlen. Qed.

Lemma norcow_write_free s p n off prefix val len :
  flash_wf (nc_flash s) -> sec s i = p ++ zrep n 255 -> off = zlen p -> off mod 4 = 0 ->
  is_u32 prefix -> 0 <= len -> 4 + len + pad len <= n ->
  zlen (data_of val len) = len -> Forall is_byte (data_of val len) ->
  norcow_write i off prefix val len s =
    Ok true (with_sec s i (p ++ (le_bytes 4 prefix ++ data_of val len ++ zrep (pad len) 0)
                             ++ zrep (n - (4 + len + pad len)) 255)).
Proof.
  intros Hwf Hsec Ho Hal Hp Hl0 Hn Hlen Hb. set (d := data_of val len) in *.
  pose proof (pad_range len). pose proof (zlen_nonneg p).
  pose proof (sec_len s i Hwf Hi) as Hsz. rewrite Hsec in Hsz. zlen.
  set (r := zrep (n - (4 + len + pad len)) 255).
  assert (Hr : zlen r = n - (4 + len + pad len)) by (unfold r; zlen).
  assert (Hn' : zrep n 255 = [255; 255; 255; 255] ++ zrep len 255 ++ zrep (pad len) 255 ++ r).
  { unfold r. rewrite <- !zrep_app by lia. change [255; 255; 255; 255] with (zrep 4 255).
    rewrite <- zrep_app by lia. f_equal. lia. }
  rewrite Hn' in Hsec.
  unfold norcow_write.
  rewrite idx_not_count by done.
  change NORCOW_PREFIX_LEN with 4. zif. mstep. rewrite sector_num_ok by done.
  rewrite (write_word_mid s i Hwf Hi p [255; 255; 255; 255]
             (zrep len 255 ++ zrep (pad len) 255 ++ r)) by done.
  rewrite decide_True.
  2:{ unfold clears. change (le_val _) with (Z.ones 32).
      rewrite Z.land_comm, Z.land_ones by lia. apply Z.mod_small. apply Hp. }
  unfold ensure. mstep. set (s1 := with_sec s i _).
  assert (Hwf1 : flash_wf (nc_flash s1)).
  { apply with_sec_wf; auto. zlen. }
  set (s2 := with_sec s i ((p ++ le_bytes 4 prefix ++ d) ++ zrep (pad len) 255 ++ r)).
  assert (Hd : match val with
               | Some bs => write_bytes (num i) (off + 4) (take (Z.to_nat len) bs)
               | None => fun s => Ok () s
               end s1 = Ok tt s2).
  { destruct val as [bs|]; unfold d, data_of in *.
    - replace (take (Z.to_nat len) bs) with bs
        by (rewrite take_ge; [done|unfold zlen in *; lia]).
      rewrite (write_bytes_mid s1 i (p ++ le_bytes 4 prefix) (zrep len 255) bs
                 (zrep (pad len) 255 ++ r)); auto.
      + unfold s1, s2. rewrite with_sec_with_sec. by rewrite <- !app_assoc.
      + unfold s1. rewrite sec_with_sec by done. by rewrite <- !app_assoc.
      + zlen.
      + rewrite <- Hlen. by apply Forall2_clears_ff.
    - f_equal. unfold s1, s2. by rewrite <- !app_assoc. }
  rewrite Hd. rewrite (pad_zeroes_mid (Z.to_nat (pad len)) 3 s2
    (p ++ le_bytes 4 prefix ++ d) r); try lia.
  - unfold s2. rewrite with_sec_with_sec. by rewrite <- !app_assoc.
  - apply with_sec_wf; auto. zlen.
  - unfold s2. by rewrite sec_with_sec.
  - zlen.
  - rewrite Z2Nat.id by lia. unfold pad. zlia.
Qed.

Lemma write_item_append s items key val len :
  flash_wf (nc_flash s) -> sec s i = sector_bytes items ->
  item_ok (Item key (data_of val len)) -> zlen (data_of val len) = len ->
  used items + 4 + len <= NORCOW_SECTOR_SIZE ->
  let items' := items ++ [Item key (data_of val len)] in
  write_item i (used items) key val len s =
    Ok (true, used items') (with_sec s i (sector_bytes items')).
Proof.
  intros Hwf Hsec (Hk & Hb & Hl) Hlen Hfit items'. cbn [ikey idata] in *.
  pose proof (zlen_nonneg (data_of val len)). pose proof (body_aligned items).
  pose proof (pad_range len).
  assert (Hu : used items mod 4 = 0).
  { unfold used. change NORCOW_STORAGE_START with 8. zlia. }
  assert (Hpad : used items + 4 + len + pad len <= NORCOW_SECTOR_SIZE).
  { unfold NORCOW_SECTOR_SIZE, pad in *. zlia. }
  assert (Hu' : used items' = used items + (4 + len + pad len)).
  { unfold used, items'. rewrite body_app, zlen_app. cbn [body map concat].
    rewrite app_nil_r, zlen_enc. cbn [idata]. rewrite Hlen. lia. }
  unfold NORCOW_KEY_FREE in *.
  unfold write_item. mstep. rewrite prefix_eq by lia.
  rewrite (norcow_write_free s (header ++ body items) (NORCOW_SECTOR_SIZE - used items)); auto.
  - f_equal.
    + f_equal. change NORCOW_PREFIX_LEN with 4.
      rewrite <- (Z.add_assoc (used items)), ALIGN4_pad by done.
      rewrite Hu'. unfold pad. zlia.
    + f_equal. unfold sector_bytes, items'. rewrite body_app, <- !app_assoc.
      do 2 f_equal. cbn [body map concat]. rewrite app_nil_r. unfold enc. cbn [ikey idata].
      rewrite prefix_bytes, Hlen, <- !app_assoc by lia.
      do 5 f_equal. fold items'. lia.
  - rewrite zlen_app, zlen_header. done.
  - unfold is_u32. lia.
  - lia.
  - lia.
Qed.

(** What is left of an item once it is deleted. *)
Definition deleted (it : item) : item :=
  Item NORCOW_KEY_DELETED (zrep (zlen (idata it)) 0).

Lemma zlen_enc_same it it' :
  zlen (idata it) = zlen (idata it') -> zlen (enc it) = zlen (enc it').
Proof. intros H. by rewrite !zlen_enc, H. Qed.

Lemma zero_words_mid k : forall fuel s p m q off fin,
  flash_wf (nc_flash s) -> sec s i = p ++ m ++ q -> off = zlen p -> off mod 4 = 0 ->
  length m = (4 * k)%nat -> off + 4 * (Z.of_nat k - 1) < fin <= off + 4 * Z.of_nat k ->
  (k <= fuel)%nat ->
  zero_words fuel (num i) off fin s = Ok tt (with_sec s i (p ++ replicate (4 * k) 0 ++ q)).
Proof.
  induction k as [|k IH]; intros fuel s p m q off fin Hwf Hsec Ho Hal Hm Hfin Hf.
  - apply length_zero_iff_nil in Hm as ->.
    replace (zero_words fuel (num i) off fin s) with (@Ok fault _ _ tt s)
      by (destruct fuel; cbn [zero_words]; by zif).
    change (replicate (4 * 0) 0 ++ q) with ([] ++ q). by rewrite <- Hsec, with_sec_id.
  - destruct fuel as [|fuel]; [lia|]. cbn [zero_words]. zif. mstep.
    set (w := take 4 m). set (m' := drop 4 m).
    assert (Hmm : m = w ++ m') by (symmetry; apply take_drop).
    assert (Hw : length w = 4%nat) by (unfold w; rewrite length_take; lia).
    rewrite Hmm, <- app_assoc in Hsec.
    rewrite (write_word_mid s i Hwf Hi p w (m' ++ q)) by done.
    rewrite decide_True by apply clears_zero. unfold ensure. mstep.
    change (le_bytes 4 0) with [0; 0; 0; 0].
    assert (zlen (p ++ [0; 0; 0; 0] ++ m' ++ q) = NORCOW_SECTOR_SIZE).
    { rewrite <- (sec_len s i Hwf Hi), Hsec. unfold zlen.
      rewrite !length_app, Hw. cbn [length]. lia. }
    change NORCOW_WORD_SIZE with 4.
    rewrite (IH fuel _ (p ++ [0; 0; 0; 0]) m' q); auto with fw; try lia; [| |zlen|zlia|].
    + rewrite with_sec_with_sec, <- app_assoc.
      replace (4 * S k)%nat with (4 + 4 * k)%nat by lia. by rewrite replicate_add, <- app_assoc.
    + rewrite sec_with_sec by done. by rewrite <- app_assoc.
    + unfold m'. rewrite length_drop. lia.
Qed.

Lemma delete_item_mid s p it q off len :
  flash_wf (nc_flash s) -> sec s i = p ++ enc it ++ q -> item_ok it ->
  zlen p mod 4 = 0 -> off = zlen p + 4 -> len = zlen (idata it) ->
  delete_item (num i) off len s = Ok tt (with_sec s i (p ++ enc (deleted it) ++ q)).
Proof.
  intros Hwf Hsec (Hk & Hb & Hl) Hal -> ->. set (d := idata it) in *.
  pose proof (pad_range (zlen d)). pose proof (zlen_nonneg d). pose proof (zlen_nonneg p).
  pose proof (sec_len s i Hwf Hi) as Hsz. rewrite Hsec, !zlen_app, zlen_enc in Hsz.
  fold d in Hsz. unfold NORCOW_KEY_FREE in *. pose proof (zlen_nonneg q).
  set (dp := d ++ zrep (pad (zlen d)) 0).
  assert (Hdp : zlen dp = zlen d + pad (zlen d)) by (unfold dp; zlen).
  assert (Henc : enc it = le_bytes 4 (zlen d * 65536 + ikey it) ++ dp).
  { rewrite prefix_bytes by lia. unfold enc, dp. fold d. by rewrite <- !app_assoc. }
  rewrite Henc, <- app_assoc in Hsec.
  unfold delete_item. mstep. change NORCOW_PREFIX_LEN with 4.
  replace (zlen p + 4 - 4) with (zlen p) by lia.
  rewrite (write_word_mid s i Hwf Hi p _ (dp ++ q)) by done.
  replace (u32 (Z.shiftl (zlen d) 16)) with (zlen d * 65536)
    by (rewrite Z.shiftl_mul_pow2, u32_small; lia).
  rewrite decide_True.
  2:{ rewrite le_val_bytes. change (256 ^ Z.of_nat 4) with 4294967296.
      rewrite Z.mod_small by lia. apply clears_prefix; lia. }
  unfold ensure. mstep. set (p' := p ++ le_bytes 4 (zlen d * 65536)).
  set (s1 := with_sec s i _). set (k := Z.to_nat ((zlen d + pad (zlen d)) / 4)).
  assert (H4 : zlen d + pad (zlen d) = 4 * Z.of_nat k).
  { unfold k. pose proof (pad_align (zlen d)). zlia. }
  assert (Hwf1 : flash_wf (nc_flash s1)).
  { apply with_sec_wf; auto. zlen. }
  rewrite (zero_words_mid k item_fuel s1 p' dp q); auto.
  - unfold s1. rewrite with_sec_with_sec. do 2 f_equal.
    unfold p', enc, deleted. cbn [ikey idata]. fold d. rewrite zlen_zrep by lia.
    rewrite <- (Z.add_0_r (_ * 65536)), prefix_bytes by lia. rewrite <- !app_assoc.
    do 3 f_equal. unfold zrep. rewrite app_assoc, <- replicate_add.
    do 2 f_equal. lia.
  - unfold s1. rewrite sec_with_sec by done. unfold p'. by rewrite <- app_assoc.
  - unfold p'. zlen.
  - zlia.
  - unfold zlen in *; lia.
  - lia.
  - unfold item_fuel, k, NORCOW_SECTOR_SIZE in *. zlia.
Qed.

(** The in-place update: on success the value is stored, otherwise the item's
    bytes are some bytes of the same length. *)
Lemma update_loop_mid s p old bs q off :
  flash_wf (nc_flash s) -> sec s i = p ++ old ++ q -> off = zlen p ->
  length old = length bs -> Forall is_byte old -> Forall is_byte bs ->
  exists b old', update_loop (num i) off bs s = Ok b (with_sec s i (p ++ old' ++ q)) /\
    length old' = length old /\ Forall is_byte old' /\ (b = true -> old' = bs).
Proof.
  revert s p old off. induction bs as [|b bs IH];
    intros s p old off Hwf Hsec Ho Hlen Hold Hbs; destruct old as [|o old]; try done.
  - exists true, []. rewrite <- Hsec, with_sec_id by done. done.
  - inversion Hold; inversion Hbs; subst. cbn [update_loop]. mstep.
    rewrite (write_byte_mid s i Hwf Hi p o (old ++ q)) by done.
    case_decide.
    + assert (zlen (p ++ [b] ++ old ++ q) = NORCOW_SECTOR_SIZE).
      { rewrite <- (sec_len s i Hwf Hi), Hsec. zlen. }
      destruct (IH (with_sec s i (p ++ [b] ++ old ++ q)) (p ++ [b]) old (zlen p + 1))
        as (r & old' & -> & ? & ? & Hr); auto with fw.
      * rewrite sec_with_sec by done. by rewrite <- app_assoc.
      * zlen.
      * exists r, (b :: old'). rewrite with_sec_with_sec, <- app_assoc. cbn.
        repeat split; auto. intros ->. by rewrite Hr.
    + exists false, (o :: old).
      rewrite <- Hsec, with_sec_id by done. by repeat split.
Qed.

#[local] Opaque zrep.

Lemma flash_erase_num fl :
  flash_erase fl (num i) = zupd fl (num i) (zrep NORCOW_SECTOR_SIZE 255).
Proof.
  unfold flash_erase. cbn [flash_erase_sectors].
  replace (sector_addr (num i + 1) - sector_addr (num i)) with NORCOW_SECTOR_SIZE;
    [done|by destruct Hi as [-> | ->]].
Qed.

Lemma erase_sector_false s :
  erase_sector i false s = Ok tt (with_sec s i (zrep NORCOW_SECTOR_SIZE 255)).
Proof.
  unfold erase_sector, set_flash. mstep. rewrite sector_num_ok by done.
  by rewrite flash_erase_num.
Qed.

(** One word written at the start of an erased tail. *)
Lemma write_free_word s p n off prefix :
  flash_wf (nc_flash s) -> sec s i = p ++ zrep n 255 -> off = zlen p -> off mod 4 = 0 ->
  is_u32 prefix -> 4 <= n ->
  norcow_write i off prefix None 0 s =
    Ok true (with_sec s i (p ++ le_bytes 4 prefix ++ zrep (n - 4) 255)).
Proof.
  intros Hwf Hsec Ho Hal Hp Hn. change (pad 0) with 0.
  rewrite (norcow_write_free s p n); auto; try done.
Qed.

Lemma erase_sector_true s :
  flash_wf (nc_flash s) ->
  erase_sector i true s = Ok tt (with_sec s i (sector_bytes [])).
Proof.
  intros Hwf. unfold erase_sector, set_flash. mstep. rewrite sector_num_ok by done.
  rewrite flash_erase_num.
  fold (with_sec s i (zrep NORCOW_SECTOR_SIZE 255)). set (s1 := with_sec s i _).
  assert (Hwf1 : flash_wf (nc_flash s1)).
  { apply with_sec_wf; [done|done|]. by apply zlen_zrep. }
  rewrite (write_free_word s1 [] NORCOW_SECTOR_SIZE); try done.
  2:{ unfold s1. by rewrite sec_with_sec. }
  unfold ensure. mstep. unfold s1. rewrite with_sec_with_sec.
  set (s2 := with_sec s i _).
  assert (Hwf2 : flash_wf (nc_flash s2)).
  { apply with_sec_wf; [done|done|]. unfold NORCOW_SECTOR_SIZE. zlen. }
  rewrite (write_free_word s2 (le_bytes 4 NORCOW_MAGIC) (NORCOW_SECTOR_SIZE - 4)); try done.
  2:{ unfold s2. by rewrite sec_with_sec. }
  unfold s2. rewrite with_sec_with_sec. unfold sector_bytes, header.
  rewrite <- app_assoc. done.
Qed.

End Write.

(** ** Contents *)

Definition live (it : item) : bool := negb (ikey it =? NORCOW_KEY_DELETED).
Definition live_items (items : list item) : list item := List.filter live items.
Definition live_keys (items : list item) : list Z := map ikey (live_items items).

(** The map a list of items stands for. *)
Fixpoint contents (items : list item) : gmap Z (list Z) :=
  match items with
  | [] => ∅
  | it :: items => if live it then <[ikey it := idata it]> (contents items) else contents items
  end.

Lemma contents_app xs ys k :
  contents (xs ++ ys) !! k =
    match contents xs !! k with Some v => Some v | None => contents ys !! k end.
Proof.
  induction xs as [|it xs IH]; [done|]. cbn [app contents]. destruct (live it); [|done].
  rewrite !lookup_insert. by case_decide.
Qed.

Lemma contents_notin items k : k ∉ live_keys items -> contents items !! k = None.
Proof.
  induction items as [|it items IH]; intros H; [done|].
  unfold live_keys, live_items in *. cbn [contents List.filter map] in *.
  destruct (live it); [|auto]. cbn in H. apply not_elem_of_cons in H as [??].
  rewrite lookup_insert_ne by done. auto.
Qed.

Lemma contents_live items : contents (live_items items) = contents items.
Proof.
  induction items as [|it items IH]; [done|]. unfold live_items in *. cbn.
  destruct (live it) eqn:E; cbn; [rewrite E; by f_equal|done].
Qed.

Lemma live_items_app xs ys : live_items (xs ++ ys) = live_items xs ++ live_items ys.
Proof. apply List.filter_app. Qed.

Lemma live_keys_app xs ys : live_keys (xs ++ ys) = live_keys xs ++ live_keys ys.
Proof. unfold live_keys. by rewrite live_items_app, map_app. Qed.

Lemma live_items_idem items : live_items (live_items items) = live_items items.
Proof.
  induction items as [|it items IH]; [done|]. unfold live_items in *. cbn.
  destruct (live it) eqn:E; cbn; [rewrite E; by f_equal|done].
Qed.

Lemma live_keys_live items : live_keys (live_items items) = live_keys items.
Proof. unfold live_keys. by rewrite live_items_idem. Qed.

Lemma used_live items : used (live_items items) <= used items.
Proof.
  unfold used, live_items. induction items as [|it items IH]; [done|]. cbn [List.filter].
  destruct (live it); rewrite ?body_cons, ?zlen_app; pose proof (zlen_nonneg (enc it)); lia.
Qed.

Lemma live_key it : live it = true -> ikey it <> 0.
Proof. unfold live, NORCOW_KEY_DELETED. intros. zbool. done. Qed.

Lemma notin_live_keys_cons it items k :
  k <> 0 -> k ∉ live_keys (it :: items) -> k <> ikey it /\ k ∉ live_keys items.
Proof.
  unfold live_keys, live_items. cbn [List.filter]. intros Hk H.
  destruct (live it) eqn:E; cbn in H; [by apply not_elem_of_cons in H|].
  split; [|done]. unfold live, NORCOW_KEY_DELETED in E. zbool. congruence.
Qed.

Lemma locate_app key xs ys : forall off f,
  locate key off (xs ++ ys) f = locate key (off + zlen (body xs)) ys (locate key off xs f).
Proof.
  induction xs as [|it xs IH]; intros off f; cbn [app locate].
  - f_equal. change (body []) with (@nil Z). zlen.
  - rewrite IH, body_cons, zlen_app. by rewrite Z.add_assoc.
Qed.

Lemma locate_notin key items : key <> 0 -> key ∉ live_keys items ->
  forall off f, locate key off items f = f.
Proof.
  intros Hk. induction items as [|it items IH]; intros H off f; [done|].
  apply notin_live_keys_cons in H as [Hne H]; [|done]. cbn [locate].
  zif. by rewrite IH.
Qed.

(** A key is absent, or held by exactly one live item, which the scan finds. *)
Lemma find_split items key :
  key <> 0 -> NoDup (live_keys items) ->
  ((contents items !! key) = None /\ (key ∉ live_keys items) /\
     (forall off, locate key off items None = None)) \/
  exists pre it post,
    items = pre ++ it :: post /\ ikey it = key /\
    (key ∉ live_keys pre) /\ (key ∉ live_keys post) /\
    (contents items !! key) = Some (idata it) /\
    (forall off, locate key off items None =
      Some (off + zlen (body pre) + 4, zlen (idata it))).
Proof.
  intros Hk Hnd. destruct (decide (key ∈ live_keys items)) as [Hin|Hin].
  2:{ left. split; [by apply contents_notin|]. split; [done|]. intros. by apply locate_notin. }
  right. unfold live_keys in Hin. apply list_elem_of_fmap in Hin as (it & -> & Hit).
  apply list_elem_of_In, List.filter_In in Hit as [Hit Hl].
  apply list_elem_of_In, list_elem_of_split in Hit as (pre & post & ->).
  exists pre, it, post.
  replace (live_keys (pre ++ it :: post))
    with (live_keys pre ++ ikey it :: live_keys post) in Hnd.
  2:{ rewrite live_keys_app. f_equal. unfold live_keys, live_items. cbn [List.filter].
      by rewrite Hl. }
  apply NoDup_app in Hnd as (_ & Hpre & Hpost). apply NoDup_cons in Hpost as [Hpost _].
  assert (ikey it ∉ live_keys pre).
  { intros Hc. apply (Hpre _ Hc). constructor. }
  repeat split; auto.
  - rewrite contents_app, contents_notin by done. cbn [contents]. rewrite Hl.
    apply lookup_insert_eq.
  - intros off. rewrite locate_app, (locate_notin _ pre) by done. cbn [locate].
    by rewrite Z.eqb_refl, locate_notin by done.
Qed.

Lemma contents_deleted pre it post :
  ikey it <> 0 -> ikey it ∉ live_keys pre -> ikey it ∉ live_keys post ->
  contents (pre ++ deleted it :: post) = delete (ikey it) (contents (pre ++ it :: post)).
Proof.
  intros H0 Hpre Hpost. apply map_eq. intros j. rewrite lookup_delete, !contents_app.
  cbn [contents]. unfold live at 1. cbn [deleted ikey negb Z.eqb NORCOW_KEY_DELETED].
  case_decide as Hj; [subst j; by rewrite !contents_notin|].
  destruct (contents pre !! j); [done|]. destruct (live it); [|done].
  by rewrite lookup_insert_ne.
Qed.

Lemma contents_snoc items it :
  live it = true -> ikey it ∉ live_keys items ->
  contents (items ++ [it]) = <[ikey it := idata it]> (contents items).
Proof.
  intros Hl Hn. apply map_eq. intros j. rewrite contents_app, lookup_insert.
  cbn [contents]. rewrite Hl, lookup_insert, lookup_empty.
  case_decide; [subst j; by rewrite contents_notin|]. by destruct (contents items !! j).
Qed.

(** ** The layout invariant

    [nc_rep s items]: the active sector (which is the writing sector) holds the
    items and nothing else, the other sector is erased, live keys are unique. *)

Record nc_rep (s : norcow_state) (items : list item) : Prop := {
  rep_wf : flash_wf (nc_flash s);
  rep_idx : idx (norcow_active_sector s);
  rep_write : norcow_write_sector s = norcow_active_sector s;
  rep_version : norcow_active_version s = NORCOW_VERSION;
  rep_free : norcow_free_offset s = used items;
  rep_fit : used items <= NORCOW_SECTOR_SIZE;
  rep_sec : sec s (norcow_active_sector s) = sector_bytes items;
  rep_other : sec s (1 - norcow_active_sector s) = zrep NORCOW_SECTOR_SIZE 255;
  rep_ok : Forall item_ok items;
  rep_nodup : NoDup (live_keys items);
}.

Lemma idx_other i : idx i -> idx (1 - i) /\ 1 - i <> i /\ (i + 1) mod 2 = 1 - i.
Proof. unfold idx. intros [->| ->]; cbn; repeat split; lia. Qed.

Lemma item_ok_deleted it : item_ok it -> item_ok (deleted it).
Proof.
  intros (Hk & Hb & Hl). pose proof (zlen_nonneg (idata it)).
  unfold item_ok, deleted, NORCOW_KEY_FREE, NORCOW_KEY_DELETED in *.
  split; [|split]; cbn [ikey idata]; [lia| |zlen].
  by apply Forall_zrep.
Qed.

Lemma used_same pre it it' post :
  zlen (idata it) = zlen (idata it') ->
  used (pre ++ it :: post) = used (pre ++ it' :: post).
Proof.
  intros H. unfold used. rewrite !body_app, !body_cons, !zlen_app.
  by rewrite (zlen_enc_same it it').
Qed.

Lemma sector_bytes_mid pre it post :
  sector_bytes (pre ++ it :: post) =
    (header ++ body pre) ++ enc it
      ++ (body post ++ zrep (NORCOW_SECTOR_SIZE - used (pre ++ it :: post)) 255).
Proof.
  unfold sector_bytes. rewrite body_app, body_cons. by rewrite <- !app_assoc.
Qed.

(** Replacing one item by one of the same length whose key is not new. *)
Lemma nc_rep_replace s pre it it' post :
  nc_rep s (pre ++ it :: post) -> item_ok it' -> zlen (idata it) = zlen (idata it') ->
  ikey it' = ikey it \/ ikey it' = 0 ->
  nc_rep (with_sec s (norcow_active_sector s) (sector_bytes (pre ++ it' :: post)))
    (pre ++ it' :: post).
Proof.
  intros R Hok Hlen Hkey. destruct (idx_other _ (rep_idx _ _ R)) as (? & ? & ?).
  pose proof (used_same pre it it' post Hlen) as Hu. destruct R.
  assert (Hfit : used (pre ++ it' :: post) <= NORCOW_SECTOR_SIZE) by lia.
  split; cbn [norcow_active_sector norcow_write_sector norcow_active_version
              norcow_free_offset with_sec]; auto.
  - apply with_sec_wf; auto. by apply zlen_sector_bytes.
  - congruence.
  - by apply sec_with_sec.
  - by rewrite sec_with_sec_ne.
  - apply Forall_app in rep_ok0 as [? Hc]. apply Forall_app; split; [done|].
    inversion Hc; by constructor.
  - rewrite live_keys_app in *. unfold live_keys, live_items in *. cbn [List.filter] in *.
    unfold live, NORCOW_KEY_DELETED in *.
    destruct Hkey as [Hkey | Hkey]; rewrite Hkey;
      [destruct (negb (ikey it =? 0)); cbn in *; by rewrite ?Hkey|].
    cbn [Z.eqb negb]. destruct (negb (ikey it =? 0)); [|done]. cbn in *.
    apply NoDup_app in rep_nodup0 as (? & Hd & Hn). apply NoDup_cons in Hn as [? ?].
    apply NoDup_app. repeat split; auto. intros x Hx Hx'. apply (Hd x Hx). by constructor.
Qed.

Lemma body_pre_aligned pre : zlen (header ++ body pre) mod 4 = 0.
Proof.
  rewrite zlen_app, zlen_header. pose proof (body_aligned pre).
  change NORCOW_STORAGE_START with 8. zlia.
Qed.

(** [find_item] in a represented state. *)
Lemma rep_find s items key :
  nc_rep s items ->
  find_item (norcow_active_sector s) key s =
    Ok (locate key NORCOW_STORAGE_START items None) s.
Proof. intros []. by apply find_item_eq. Qed.

(** Deleting the item [find_item] found. *)
Lemma rep_delete s pre it post :
  nc_rep s (pre ++ it :: post) ->
  delete_item (num (norcow_active_sector s)) (NORCOW_STORAGE_START + zlen (body pre) + 4)
    (zlen (idata it)) s =
  Ok tt (with_sec s (norcow_active_sector s) (sector_bytes (pre ++ deleted it :: post))).
Proof.
  intros R. destruct R. rewrite sector_bytes_mid in rep_sec0.
  pose proof (Forall_elt _ _ _ rep_ok0) as Hit.
  erewrite delete_item_mid; eauto using body_pre_aligned.
  - rewrite sector_bytes_mid. do 6 f_equal.
    erewrite used_same; [done|]. cbn. pose proof (zlen_nonneg (idata it)). by zlen.
  - rewrite zlen_app, zlen_header. lia.
Qed.

Lemma nc_rep_delete s pre it post :
  nc_rep s (pre ++ it :: post) ->
  nc_rep (with_sec s (norcow_active_sector s) (sector_bytes (pre ++ deleted it :: post)))
    (pre ++ deleted it :: post).
Proof.
  intros R. pose proof (zlen_nonneg (idata it)). eapply nc_rep_replace; eauto.
  - apply item_ok_deleted. by apply (Forall_elt _ _ _ (rep_ok _ _ R)).
  - cbn. zlen.
Qed.

(** ** Compaction *)

Lemma used_app_l xs ys : used xs <= used (xs ++ ys).
Proof.
  unfold used. rewrite body_app, zlen_app. pose proof (zlen_nonneg (body ys)). lia.
Qed.

Lemma compact_loop_eq s a items : forall p n off fuel acc s',
  idx a -> s' = with_sec s (1 - a) (sector_bytes acc) ->
  norcow_active_sector s = a -> norcow_write_sector s = 1 - a ->
  flash_wf (nc_flash s) -> sec s a = p ++ body items ++ zrep n 255 -> off = zlen p ->
  off mod 4 = 0 -> 0 <= n -> Forall item_ok items -> (length items < fuel)%nat ->
  used (acc ++ live_items items) <= NORCOW_SECTOR_SIZE ->
  compact_loop fuel off (used acc) s' =
    Ok tt (with_sec s (1 - a) (sector_bytes (acc ++ live_items items))).
Proof.
  induction items as [|it items IH];
    intros p n off fuel acc s' Ha -> Hact Hwr Hwf Hsec Ho Hal Hn Hok Hf Hfit;
    (destruct fuel as [|fuel]; [cbn in *; lia|]); cbn [compact_loop]; mstep;
    cbn [norcow_active_sector norcow_write_sector with_sec]; rewrite Hact, Hwr;
    fold (with_sec s (1 - a) (sector_bytes acc));
    destruct (idx_other a Ha) as (Hw & Hne & _);
    pose proof (Z.le_trans _ _ _ (used_app_l acc _) Hfit) as Hud;
    set (s' := with_sec s (1 - a) (sector_bytes acc));
    assert (Hwf' : flash_wf (nc_flash s')) by (apply with_sec_wf; auto using zlen_sector_bytes);
    assert (Hsec' : sec s' a = sec s a) by (by apply sec_with_sec_ne).
  - rewrite (read_item_free s' a Hwf' Ha p n) by (done || lia || (rewrite Hsec', Hsec; done)).
    by rewrite app_nil_r.
  - apply Forall_cons in Hok as [Hit Hok']. rewrite body_cons in Hsec.
    rewrite <- app_assoc in Hsec.
    rewrite (read_item_enc s' a Hwf' Ha p it (body items ++ zrep n 255))
      by (done || lia || (rewrite Hsec', Hsec; done)).
    assert (IH' : forall acc', used (acc' ++ live_items items) <= NORCOW_SECTOR_SIZE ->
      compact_loop fuel (off + zlen (enc it)) (used acc')
        (with_sec s (1 - a) (sector_bytes acc')) =
      Ok tt (with_sec s (1 - a) (sector_bytes (acc' ++ live_items items)))).
    { intros acc' Hfit'. apply (IH (p ++ enc it) n); auto; [| | |cbn in Hf; lia].
      - rewrite Hsec. by rewrite <- app_assoc.
      - zlen.
      - pose proof (enc_aligned it). zlia. }
    unfold live_items in *. cbn [List.filter] in *.
    destruct (ikey it =? NORCOW_KEY_DELETED) eqn:E; unfold live in *; rewrite E in *;
      cbn [negb] in *; [by apply IH'|]. fold live in *.
    assert (Hread : ptr_read a (off + 4) (zlen (idata it)) s' = Ok (idata it) s').
    { eapply (ptr_read_mid s' a Ha (p ++ le_bytes 2 (ikey it) ++ le_bytes 2 (zlen (idata it)))
        (idata it)); [|zlen|done].
      rewrite Hsec', Hsec. unfold enc. by rewrite <- !app_assoc. }
    rewrite Hread.
    pose proof (zlen_nonneg (idata it)).
    rewrite (write_item_append (1 - a) Hw s' acc (ikey it) (Some (idata it)));
      [|done|unfold s'; by rewrite sec_with_sec|by destruct it|done|].
    + unfold ensure. mstep. cbn [fst snd data_of]. unfold s'. rewrite with_sec_with_sec.
      replace (Item (ikey it) (idata it)) with it by (by destruct it).
      rewrite IH'; rewrite <- app_assoc; done.
    + revert Hfit. unfold used. rewrite body_app, body_cons, !zlen_app, zlen_enc.
      pose proof (pad_range (zlen (idata it))).
      pose proof (zlen_nonneg (body (List.filter live items))). unfold live in *. lia.
Qed.

Lemma Forall_live (P : item -> Prop) items : Forall P items -> Forall P (live_items items).
Proof.
  rewrite !List.Forall_forall. intros H x Hx. apply List.filter_In in Hx as [Hx _]. auto.
Qed.

(** Compaction keeps exactly the live items, in their order. *)
Lemma compact_rep s items :
  nc_rep s items -> exists s', compact s = Ok tt s' /\ nc_rep s' (live_items items).
Proof.
  intros R. destruct R as [Hwf Ha Hw Hv Hfr Hfit Hsec Hoth Hok Hnd].
  set (a := norcow_active_sector s) in *.
  destruct (idx_other a Ha) as (Hb & Hne & Hmod).
  pose proof (used_live items) as Hul.
  unfold compact. mstep. fold a.
  rewrite (find_start_offset_eq s a) with (items := items) by done.
  change NORCOW_SECTOR_COUNT with 2. rewrite Hmod.
  unfold set_write_sector. mstep.
  set (s1 := NorcowState (nc_flash s) _ _ _ _).
  assert (Hwf1 : flash_wf (nc_flash s1)) by done.
  rewrite erase_sector_true by done.
  change NORCOW_STORAGE_START with (used []) at 2.
  rewrite (compact_loop_eq s1 a items header (NORCOW_SECTOR_SIZE - used items));
    try done; try lia; [|by apply items_fuel|cbn [app]; lia].
  cbn [app]. set (s2 := with_sec s1 (1 - a) (sector_bytes (live_items items))).
  assert (Hl : zlen (sector_bytes (live_items items)) = NORCOW_SECTOR_SIZE)
    by (apply zlen_sector_bytes; lia).
  assert (Hwf2 : flash_wf (nc_flash s2)) by (by apply with_sec_wf).
  rewrite erase_sector_false by done.
  set (s3 := with_sec s2 a _).
  assert (Hwf3 : flash_wf (nc_flash s3)).
  { apply with_sec_wf; [done|done|]. by apply zlen_zrep. }
  assert (Hs3 : sec s3 (1 - a) = sector_bytes (live_items items)).
  { unfold s3. rewrite sec_with_sec_ne by done. unfold s2. by rewrite sec_with_sec. }
  assert (Hs3' : sec s3 a = zrep NORCOW_SECTOR_SIZE 255).
  { unfold s3. by rewrite sec_with_sec. }
  unfold set_active_sector, set_active_version, set_free_offset. mstep.
  match goal with |- context [find_free_offset _ ?st] => set (s4 := st) end.
  rewrite (find_free_offset_eq s4 (1 - a)) with (items := live_items items);
    try done; [|lia|by apply Forall_live].
  eexists. split; [done|]. split; try done; [lia| |by apply Forall_live|].
  - cbn. replace (1 - (1 - a)) with a by lia. exact Hs3'.
  - by rewrite live_keys_live.
Qed.

(** ** The interface *)

(** A key an entry can have. *)
Definition valid_key (key : Z) : Prop := 0 < key < NORCOW_KEY_FREE.

(** Space an entry takes in a sector. *)
Definition entry_size (len : Z) : Z := 4 + len + pad len.

Lemma norcow_get_rep s items key :
  nc_rep s items -> valid_key key ->
  match contents items !! key with
  | None => norcow_get key s = Ok None s
  | Some v => exists p, norcow_get key s = Ok (Some (p, zlen v)) s /\
                ptr_read (norcow_active_sector s) p (zlen v) s = Ok v s
  end.
Proof.
  intros R [Hk _]. unfold norcow_get. mstep. erewrite rep_find by done.
  destruct (find_split items key) as [(-> & _ & ->)|(pre & it & post & -> & <- & _ & _ & -> & ->)];
    [lia|by destruct R|done|].
  eexists. split; [done|]. destruct R. rewrite sector_bytes_mid in rep_sec0.
  apply (ptr_read_mid s _ rep_idx0 ((header ++ body pre) ++ le_bytes 2 (ikey it)
    ++ le_bytes 2 (zlen (idata it))) (idata it)
    (zrep (pad (zlen (idata it))) 0 ++ body post
      ++ zrep (NORCOW_SECTOR_SIZE - used (pre ++ it :: post)) 255)); [|zlen|done].
  - rewrite rep_sec0. unfold enc. by rewrite <- !app_assoc.
  - rewrite zlen_header. lia.
Qed.

Lemma nc_rep_append s items key val len :
  nc_rep s items -> item_ok (Item key (data_of val len)) ->
  zlen (data_of val len) = len -> key <> 0 -> key ∉ live_keys items ->
  used items + 4 + len <= NORCOW_SECTOR_SIZE ->
  let it := Item key (data_of val len) in
  let s' := with_sec s (norcow_active_sector s) (sector_bytes (items ++ [it])) in
  write_item (norcow_active_sector s) (used items) key val len s =
    Ok (true, used (items ++ [it])) s' /\
  nc_rep (NorcowState (nc_flash s') (norcow_active_sector s') (norcow_write_sector s')
            (norcow_active_version s') (used (items ++ [it]))) (items ++ [it]).
Proof.
  intros R Hok Hlen Hk Hnew Hfit it s'. destruct (idx_other _ (rep_idx _ _ R)) as (? & ? & ?).
  destruct R. pose proof (body_aligned items).
  assert (Hu : used (items ++ [it]) = used items + (4 + len + pad len)).
  { unfold used. rewrite body_app, zlen_app, body_cons, zlen_app, zlen_enc.
    unfold it. cbn [idata]. rewrite Hlen. change (zlen (body [])) with 0. lia. }
  assert (Hfit' : used (items ++ [it]) <= NORCOW_SECTOR_SIZE).
  { rewrite Hu. pose proof (pad_range len). unfold pad in *. unfold used in *.
    change NORCOW_STORAGE_START with 8 in *. unfold NORCOW_SECTOR_SIZE in *. zlia. }
  split; [by apply write_item_append|].
  assert (Hlv : live it = true).
  { unfold live, it, NORCOW_KEY_DELETED. cbn [ikey]. by zif. }
  split; cbn; try done.
  - apply with_sec_wf; auto. by apply zlen_sector_bytes.
  - by apply (sec_with_sec s).
  - rewrite <- rep_other0. by apply (sec_with_sec_ne s).
  - apply Forall_app. auto.
  - rewrite live_keys_app.
    replace (live_keys [it]) with [key]
      by (unfold live_keys, live_items; cbn [List.filter]; by rewrite Hlv).
    apply NoDup_app. repeat split; auto using NoDup_singleton.
    by intros x Hx ->%list_elem_of_singleton.
Qed.

(** The second half of [norcow_set_ex], once the old entry is gone. *)
Lemma set_new_entry s items key val len :
  nc_rep s items -> item_ok (Item key (data_of val len)) ->
  zlen (data_of val len) = len -> key <> 0 -> key ∉ live_keys items ->
  exists s' items' b w,
    ((if NORCOW_SECTOR_SIZE <? norcow_free_offset s + NORCOW_PREFIX_LEN + len
      then compact else mret ()) ≫= fun _ =>
     s ← getS;
     w ← write_item (norcow_write_sector s) (norcow_free_offset s) key val len;
     (if (w.1 : bool) then set_free_offset w.2 else mret ()) ≫= fun _ => mret w) s
      = Ok (b, w) s' /\ nc_rep s' items' /\
    (if b then contents items' = <[key := data_of val len]> (contents items)
     else contents items' = contents items) /\
    (b = false <-> NORCOW_SECTOR_SIZE < used (live_items items) + 4 + len).
Proof.
  intros R Hok Hlen Hk Hnew. pose proof (used_live items) as Hul.
  change NORCOW_PREFIX_LEN with 4.
  assert (Happ : forall s0 items0, nc_rep s0 items0 -> key ∉ live_keys items0 ->
    used items0 + 4 + len <= NORCOW_SECTOR_SIZE ->
    exists s', (s ← getS;
     w ← write_item (norcow_write_sector s) (norcow_free_offset s) key val len;
     (if (w.1 : bool) then set_free_offset w.2 else mret ()) ≫= fun _ => mret w) s0
      = Ok (true, used (items0 ++ [Item key (data_of val len)])) s' /\
     nc_rep s' (items0 ++ [Item key (data_of val len)])).
  { intros s0 items0 R0 Hnew0 Hfit0.
    destruct (nc_rep_append s0 items0 key val len) as [Hw Hr]; auto.
    mstep. rewrite (rep_write _ _ R0), (rep_free _ _ R0), Hw. cbn [fst snd].
    unfold set_free_offset, modS. eexists. split; [done|exact Hr]. }
  assert (Hlv : live (Item key (data_of val len)) = true).
  { unfold live, NORCOW_KEY_DELETED. cbn [ikey]. by zif. }
  rewrite (rep_free _ _ R). destruct (Z.ltb_spec NORCOW_SECTOR_SIZE (used items + 4 + len)).
  - destruct (compact_rep s items R) as (s1 & Hc & R1).
    destruct (Z.le_gt_cases (used (live_items items) + 4 + len) NORCOW_SECTOR_SIZE).
    + destruct (Happ s1 (live_items items)) as (s' & Hw & R'); auto.
      { by rewrite live_keys_live. }
      eexists s', _, true, _. revert Hw. mstep. rewrite Hc. intros ->.
      split; [done|]. split; [done|]. split; [|lia].
      rewrite contents_snoc, contents_live; [done|done|by rewrite live_keys_live].
    + exists s1, (live_items items), false. eexists. mstep. rewrite Hc.
      unfold write_item, norcow_write. mstep.
      rewrite (rep_write _ _ R1), (rep_free _ _ R1), idx_not_count by apply R1.
      change NORCOW_PREFIX_LEN with 4. zif. cbn [fst snd].
      split; [done|]. split; [done|]. split; [by rewrite contents_live|lia].
  - destruct (Happ s items) as (s' & Hw & R'); auto.
    eexists s', _, true, _. revert Hw. mstep. intros ->.
    split; [done|]. split; [done|]. split; [by rewrite contents_snoc|lia].
Qed.

(** Space a map of entries takes in a compacted sector. *)
Definition map_used (m : gmap Z (list Z)) : Z :=
  map_fold (fun _ v acc => acc + entry_size (zlen v)) NORCOW_STORAGE_START m.

Lemma used_live_map items :
  NoDup (live_keys items) -> used (live_items items) = map_used (contents items).
Proof.
  unfold live_keys, live_items. induction items as [|it items IH]; intros Hnd; [done|].
  cbn [List.filter contents] in *. destruct (live it) eqn:E; [|auto].
  cbn in Hnd. apply NoDup_cons in Hnd as [Hin Hnd]. unfold map_used.
  rewrite map_fold_insert_L; [|intros; lia|by apply contents_notin].
  fold (map_used (contents items)). rewrite <- IH by done.
  unfold used. rewrite body_cons, zlen_app, zlen_enc. unfold entry_size. lia.
Qed.

Lemma live_keys_deleted_notin pre it post :
  ikey it <> 0 -> ikey it ∉ live_keys pre -> ikey it ∉ live_keys post ->
  ikey it ∉ live_keys (pre ++ deleted it :: post).
Proof.
  intros. rewrite live_keys_app, elem_of_app. by intros [?|?].
Qed.

(** The replacement of a value by one of the same length, in the contents. *)
Lemma contents_replace pre it v post :
  ikey it <> 0 -> ikey it ∉ live_keys pre ->
  contents (pre ++ Item (ikey it) v :: post) = <[ikey it := v]> (contents (pre ++ it :: post)).
Proof.
  intros H0 Hpre. apply map_eq. intros j. rewrite lookup_insert, !contents_app.
  cbn [contents]. assert (Hl : forall d, live (Item (ikey it) d) = true).
  { intros d. unfold live, NORCOW_KEY_DELETED. cbn [ikey]. by zif. }
  replace (live it) with true by (destruct it; symmetry; apply Hl).
  rewrite Hl, !lookup_insert. cbn [ikey idata].
  case_decide; [subst j; by rewrite contents_notin|done].
Qed.

Section SetEx.
Context (s : norcow_state) (items : list item) (key : Z) (val : option (list Z)) (len : Z).
Context (R : nc_rep s items) (Hkey : valid_key key).
Context (Hlen : zlen (data_of val len) = len) (Hmax : len < 65536).
Context (Hbytes : Forall is_byte (data_of val len)).

Lemma item_ok_new : item_ok (Item key (data_of val len)).
Proof. unfold valid_key in *. split; [|split]; cbn [ikey idata]; auto; lia. Qed.

(** The bytes of an item of a represented state, in its sector. *)
Lemma sector_data_mid pre it post :
  sector_bytes (pre ++ it :: post) =
    ((header ++ body pre) ++ le_bytes 2 (ikey it) ++ le_bytes 2 (zlen (idata it)))
      ++ idata it ++ (zrep (pad (zlen (idata it))) 0 ++ body post
      ++ zrep (NORCOW_SECTOR_SIZE - used (pre ++ it :: post)) 255).
Proof. rewrite sector_bytes_mid. unfold enc. by rewrite <- !app_assoc. Qed.

(** The in-place update [norcow_set_ex] tries first on an existing entry. *)
Definition try_update (offset len_old : Z) : NC bool :=
  match val with
  | Some bs =>
      if len_old =? len
      then update_loop (num (norcow_active_sector s)) offset (take (Z.to_nat len) bs)
      else mret false
  | None => mret false
  end.

Lemma try_update_rep pre it post :
  items = pre ++ it :: post ->
  exists b d,
    let items' := pre ++ Item (ikey it) d :: post in
    let s' := with_sec s (norcow_active_sector s) (sector_bytes items') in
    try_update (NORCOW_STORAGE_START + zlen (body pre) + 4) (zlen (idata it)) s = Ok b s' /\
    nc_rep s' items' /\ zlen d = zlen (idata it) /\ (b = true -> d = data_of val len).
Proof.
  intros ->. set (a := norcow_active_sector s) in *.
  pose proof (Forall_elt _ _ _ (rep_ok _ _ R)) as Hit.
  assert (Hrep : forall d, zlen d = zlen (idata it) -> Forall is_byte d ->
    nc_rep (with_sec s a (sector_bytes (pre ++ Item (ikey it) d :: post)))
      (pre ++ Item (ikey it) d :: post)).
  { intros d Hl Hd. apply (nc_rep_replace s pre it); auto.
    destruct Hit as (? & _ & ?). split; [done|]. split; [done|]. cbn [idata]. lia. }
  assert (Hsame : with_sec s a (sector_bytes (pre ++ Item (ikey it) (idata it) :: post)) = s).
  { replace (Item (ikey it) (idata it)) with it by (by destruct it).
    rewrite <- (rep_sec _ _ R). apply with_sec_id; apply R. }
  assert (Hno : exists b d,
    Ok false s = Ok (E := fault) b (with_sec s a (sector_bytes (pre ++ Item (ikey it) d :: post)))
    /\ nc_rep (with_sec s a (sector_bytes (pre ++ Item (ikey it) d :: post)))
         (pre ++ Item (ikey it) d :: post) /\ zlen d = zlen (idata it) /\
    (b = true -> d = data_of val len)).
  { exists false, (idata it). rewrite Hsame. split; [done|]. split; [|done].
    rewrite <- Hsame. apply Hrep; [done|]. apply Hit. }
  unfold try_update. destruct val as [bs|]; [|exact Hno].
  destruct (Z.eqb_spec (zlen (idata it)) len) as [E|]; [|exact Hno].
  cbn [data_of] in *. rewrite take_ge by (unfold zlen in *; lia).
  destruct (update_loop_mid a (rep_idx _ _ R) s _ (idata it) bs _
    (NORCOW_STORAGE_START + zlen (body pre) + 4) (rep_wf _ _ R)
    (eq_trans (rep_sec _ _ R) (sector_data_mid pre it post)))
    as (b & d & Hu & Hl & Hb & Hbt); auto; [|unfold zlen in *; lia|apply Hit|].
  { zlen. rewrite zlen_header. lia. }
  assert (Hz : zlen d = zlen (idata it)) by (unfold zlen; lia).
  exists b, d. rewrite sector_data_mid. cbn [ikey idata]. rewrite Hz.
  rewrite <- (used_same pre it (Item (ikey it) d) post) by (cbn [idata]; lia).
  split; [exact Hu|].
  split; [|done]. pose proof (Hrep d Hz Hb) as Hr. rewrite sector_data_mid in Hr.
  cbn [ikey idata] in Hr. rewrite Hz in Hr.
  by rewrite (used_same pre it (Item (ikey it) d) post) by (cbn [idata]; lia).
Qed.

Lemma norcow_set_ex_rep :
  exists s' items' b,
    norcow_set_ex key val len s = Ok (b, bool_decide (is_Some (contents items !! key))) s' /\
    nc_rep s' items' /\
    contents items' =
      (if b then <[key := data_of val len]> (contents items) else delete key (contents items)) /\
    (b = false -> NORCOW_SECTOR_SIZE < map_used (delete key (contents items)) + 4 + len).
Proof.
  pose proof item_ok_new as Hok. destruct Hkey as [Hk0 Hk1].
  pose proof (rep_idx _ _ R) as Ha. unfold norcow_set_ex. zif. mstep.
  rewrite (rep_write _ _ R), sector_num_ok, (rep_find s items key R) by done.
  destruct (find_split items key) as
    [(Hc & Hni & Hloc)|(pre & it & post & Hit & <- & Hpre & Hpost & Hc & Hloc)];
    [lia|apply R| |]; rewrite Hloc, Hc.
  - destruct (set_new_entry s items key val len)
      as (s' & items' & b & w & Hset & R' & Hcon & Hcap); auto; [lia|].
    exists s', items', b. rewrite delete_id by done.
    split; [|split; [done|split; [by destruct b|]]].
    + revert Hset. mstep.
      repeat (match goal with |- context [match ?x with Ok _ _ => _ | Halt _ _ => _ end] =>
                destruct x end; [|done]). by intros [= -> ->].
    + intros Hb. rewrite <- used_live_map by apply R. by apply Hcap.
  - destruct (try_update_rep pre it post Hit) as (b & d & Hu & R1 & Hd & Hbt).
    unfold try_update in Hu. revert Hu. mstep. intros ->.
    set (it1 := Item (ikey it) d) in *. set (s1 := with_sec s _ _) in *.
    rewrite bool_decide_true by eauto. rewrite Hit. destruct b.
    { exists s1, (pre ++ it1 :: post), true. split; [done|]. split; [done|]. split; [|done].
      unfold it1. rewrite Hbt by done. apply contents_replace; [lia|done]. }
    rewrite <- Hd. change d with (idata it1).
    change (norcow_active_sector s) with (norcow_active_sector s1).
    rewrite (rep_delete s1 pre it1 post R1).
    pose proof (nc_rep_delete s1 pre it1 post R1) as R2.
    set (s2 := with_sec s1 _ _) in *. clearbody s2.
    assert (Hc2 : contents (pre ++ deleted it1 :: post)
                  = delete (ikey it) (contents (pre ++ it :: post))).
    { rewrite (contents_deleted pre it1 post) by (done || cbn; lia). unfold it1.
      rewrite contents_replace by (done || lia). by rewrite delete_insert_eq. }
    destruct (set_new_entry s2 (pre ++ deleted it1 :: post) (ikey it) val len)
      as (s' & items' & b & w & Hset & R' & Hcon & Hcap); auto; [lia|
      apply (live_keys_deleted_notin pre it1 post); (done || cbn; lia)|].
    exists s', items', b. split; [|split; [done|split]].
    + revert Hset. mstep.
      repeat (match goal with |- context [match ?x with Ok _ _ => _ | Halt _ _ => _ end] =>
                destruct x end; [|done]). by intros [= -> ->].
    + destruct b; rewrite Hcon, Hc2; [|done]. by rewrite insert_delete_eq.
    + intros Hb. rewrite <- Hc2, <- used_live_map by apply R2. by apply Hcap.
Qed.

End SetEx.

Lemma norcow_delete_rep s items key :
  nc_rep s items -> valid_key key ->
  exists s' items',
    norcow_delete key s = Ok (bool_decide (is_Some (contents items !! key))) s' /\
    nc_rep s' items' /\ contents items' = delete key (contents items).
Proof.
  intros R [Hk0 Hk1]. unfold norcow_delete. zif. mstep.
  rewrite (rep_write _ _ R), sector_num_ok, (rep_find s items key R) by apply R.
  destruct (find_split items key) as
    [(Hc & Hni & Hloc)|(pre & it & post & -> & <- & Hpre & Hpost & Hc & Hloc)];
    [lia|apply R| |]; rewrite Hloc, Hc.
  - exists s, items. by rewrite delete_id.
  - rewrite (rep_delete s pre it post R). eexists _, _. split; [by rewrite bool_decide_true by eauto|].
    split; [by apply nc_rep_delete|]. apply contents_deleted; (done || lia).
Qed.

(** ** Partial updates *)

(** The value with the bytes from [offset] on replaced by [data]. *)
Definition patch (v : list Z) (offset : Z) (data : list Z) : list Z :=
  splice v offset data.

Lemma splice_split (v : list Z) offset len :
  0 <= offset -> 0 <= len -> offset + len <= zlen v ->
  exists p m q, v = p ++ m ++ q /\ offset = zlen p /\ len = zlen m.
Proof.
  intros. exists (take (Z.to_nat offset) v), (slice v offset len),
    (drop (Z.to_nat (offset + len)) v). unfold slice, zlen in *.
  rewrite !length_take, length_drop. split; [|lia].
  rewrite Z2Nat.inj_add, <- drop_drop by lia. by rewrite !take_drop.
Qed.

Section Update.
Context (s : norcow_state) (items : list item) (key offset : Z) (data v : list Z).
Context (R : nc_rep s items) (Hkey : valid_key key).
Context (Hv : contents items !! key = Some v).
Context (Hoff : 0 <= offset) (Hfits : offset + zlen data <= zlen v).
Context (Hdata : Forall is_byte data).
Context (Hclear : Forall2 clears (slice v offset (zlen data)) data).

(** Where the value is in the sector, and what the sector is after the update. *)
Lemma update_split :
  exists pre it post p m q,
    items = pre ++ it :: post /\ ikey it = key /\ idata it = v /\ v = p ++ m ++ q /\
    offset = zlen p /\ Forall2 clears m data /\ length m = length data /\
    patch v offset data = p ++ data ++ q /\
    find_item (norcow_active_sector s) key s =
      Ok (Some (NORCOW_STORAGE_START + zlen (body pre) + 4, zlen v)) s /\
    (let items' := pre ++ Item key (p ++ data ++ q) :: post in
     nc_rep (with_sec s (norcow_active_sector s) (sector_bytes items')) items' /\
     contents items' = <[key := patch v offset data]> (contents items)).
Proof.
  destruct (find_split items key) as
    [(Hc & _)|(pre & it & post & Hi & <- & Hpre & Hpost & Hc & Hloc)];
    [destruct Hkey; lia|apply R|congruence|].
  rewrite Hv in Hc. injection Hc as Hit. subst v.
  pose proof (zlen_nonneg data).
  destruct (splice_split (idata it) offset (zlen data)) as (p & m & q & Hpq & Ho & Hm); auto.
  rewrite Hpq, slice_mid in Hclear by done.
  pose proof (Forall2_length _ _ _ Hclear) as Hlm.
  assert (Hpatch : patch (idata it) offset data = p ++ data ++ q).
  { rewrite Hpq. by apply splice_mid. }
  exists pre, it, post, p, m, q. rewrite (rep_find s items (ikey it) R), Hloc.
  do 9 (split; [done|]). subst items. cbn zeta. split.
  - pose proof (Forall_elt _ _ _ (rep_ok _ _ R)) as (Hk & Hb & Hl).
    assert (Hz : zlen (p ++ data ++ q) = zlen (idata it)).
    { rewrite Hpq. unfold zlen. rewrite !length_app. lia. }
    apply (nc_rep_replace s pre it); auto. split; [done|]. cbn [idata]. rewrite Hz.
    split; [|done]. rewrite Hpq, !Forall_app in Hb. rewrite !Forall_app.
    destruct Hb as (? & ? & ?). auto.
  - rewrite Hpatch. apply contents_replace; [destruct Hkey; lia|done].
Qed.

(** The position of the patched bytes in the sector. *)
Lemma sector_patch pre post p m q :
  length m = length data ->
  sector_bytes (pre ++ Item key (p ++ m ++ q) :: post) =
    (((header ++ body pre) ++ le_bytes 2 key ++ le_bytes 2 (zlen (p ++ data ++ q))) ++ p)
      ++ m ++ (q ++ zrep (pad (zlen (p ++ data ++ q))) 0 ++ body post
      ++ zrep (NORCOW_SECTOR_SIZE - used (pre ++ Item key (p ++ data ++ q) :: post)) 255).
Proof.
  intros Hl. rewrite sector_data_mid. cbn [ikey idata].
  replace (zlen (p ++ m ++ q)) with (zlen (p ++ data ++ q))
    by (unfold zlen; rewrite !length_app; lia).
  rewrite (used_same pre _ (Item key (p ++ data ++ q))); [by rewrite <- !app_assoc|].
  unfold zlen; cbn [idata]; rewrite !length_app; lia.
Qed.

Lemma norcow_update_bytes_rep :
  exists s' items',
    norcow_update_bytes key offset data (zlen data) s = Ok true s' /\ nc_rep s' items' /\
    contents items' = <[key := patch v offset data]> (contents items).
Proof.
  destruct update_split as
    (pre & it & post & p & m & q & Hi & Hk & Hd & Hpq & Ho & Hc & Hl & Hp & Hf & R' & Hcon).
  unfold norcow_update_bytes. mstep. rewrite (rep_write _ _ R), Hf. zif.
  rewrite sector_num_ok by apply R. rewrite take_ge by (unfold zlen; lia).
  replace it with (Item key (p ++ m ++ q)) in Hi by (destruct it; cbn in *; congruence).
  eexists _, _. split; [|split; [exact R'|exact Hcon]].
  erewrite (write_bytes_mid s _ _ m data); [|apply R|apply R| | |done|done].
  - by rewrite sector_patch.
  - rewrite (rep_sec _ _ R), Hi. by apply sector_patch.
  - zlen. rewrite zlen_header. lia.
Qed.

Lemma norcow_update_word_rep value :
  offset mod 4 = 0 -> data = le_bytes 4 value -> is_u32 value ->
  clears (le_val (slice v offset 4)) value ->
  exists s' items',
    norcow_update_word key offset value s = Ok true s' /\ nc_rep s' items' /\
    contents items' = <[key := patch v offset data]> (contents items).
Proof.
  intros Hal Hdt Hu Hcw. destruct update_split as
    (pre & it & post & p & m & q & Hi & Hk & Hd & Hpq & Ho & Hc & Hl & Hp & Hf & R' & Hcon).
  pose proof (sector_patch pre post p) as Hsp. subst data. rewrite zlen_le_bytes in Hfits. rewrite length_le_bytes in Hl.
  unfold norcow_update_word. mstep. rewrite (rep_write _ _ R), Hf.
  change 3 with (Z.ones 2). rewrite Z.land_ones by lia.
  change (2 ^ 2) with 4. rewrite Hal. zif.
  rewrite sector_num_ok by apply R.
  replace it with (Item key (p ++ m ++ q)) in Hi by (destruct it; cbn in *; congruence).
  eexists _, _. split; [|split; [exact R'|exact Hcon]].
  erewrite (write_word_mid s _ _ _ _ m); [|..|done|].
  - rewrite decide_True; [unfold ensure; mstep; by rewrite Hsp|].
    rewrite Hpq, slice_mid in Hcw; [done|done|unfold zlen; lia].
  - rewrite (rep_sec _ _ R), Hi. apply Hsp. by rewrite length_le_bytes.
  - zlen. rewrite zlen_header. lia.
  - pose proof (body_aligned pre). change NORCOW_STORAGE_START with 8. zlia.
Unshelve. all: apply R.
Qed.

End Update.

(** A word that would set a bit that is cleared: the write fails, and the code halts
    with the flash unchanged. *)
Lemma norcow_update_word_stuck s items key offset v value :
  nc_rep s items -> valid_key key -> contents items !! key = Some v -> Forall is_byte v ->
  0 <= offset -> offset + 4 <= zlen v -> offset mod 4 = 0 ->
  ~ clears (le_val (slice v offset 4)) value ->
  norcow_update_word key offset value s = Halt EnsureFailed s.
Proof.
  intros R Hk Hv Hb Ho Hf Hal Hc. set (d := slice v offset 4).
  assert (Hd : zlen d = 4) by (unfold d, slice, zlen in *; rewrite length_take, length_drop; lia).
  destruct (update_split s items key offset d v R Hk Hv Ho) as
    (pre & it & post & p & m & q & Hi & Hik & Hid & Hpq & Hop & _ & Hl & _ & Hfi & _).
  { lia. }
  { unfold d, slice. by apply Forall_take, Forall_drop. }
  { rewrite Hd. fold d. clear. induction d; constructor; [apply clears_refl|done]. }
  unfold norcow_update_word. mstep. rewrite (rep_write _ _ R), Hfi.
  change 3 with (Z.ones 2). rewrite Z.land_ones by lia. change (2 ^ 2) with 4. rewrite Hal. zif.
  rewrite sector_num_ok by apply R.
  replace it with (Item key (p ++ m ++ q)) in Hi by (destruct it; cbn in *; congruence).
  pose proof (sector_patch key d pre post p m q Hl) as Hsp.
  erewrite (write_word_mid s _ _ _ _ m); [|..|unfold zlen in *; lia|].
  - rewrite decide_False; [done|]. unfold d in Hc. rewrite Hpq, slice_mid in Hc; [done|done|unfold zlen in *; lia].
  - rewrite (rep_sec _ _ R), Hi. exact Hsp.
  - zlen. rewrite zlen_header. lia.
  - pose proof (body_aligned pre). change NORCOW_STORAGE_START with 8. zlia.
Unshelve. all: apply R.
Qed.

(** ** Wipe and initialization *)

Lemma sector_erased_start s i :
  flash_wf (nc_flash s) -> idx i -> sec s i = zrep NORCOW_SECTOR_SIZE 255 ->
  find_start_offset i s = Ok None s.
Proof.
  intros Hwf Hi Hsec. unfold find_start_offset. mstep.
  rewrite norcow_ptr_in by (done || unfold NORCOW_SECTOR_SIZE; cbn; lia).
  assert (Hz : zrep NORCOW_SECTOR_SIZE 255
               = zrep 4 255 ++ zrep 4 255 ++ zrep (NORCOW_SECTOR_SIZE - 8) 255).
  { unfold NORCOW_SECTOR_SIZE. by rewrite <- !zrep_app by lia. }
  rewrite (ptr_read_mid s i Hi [] (zrep 4 255) (zrep 4 255 ++ zrep (NORCOW_SECTOR_SIZE - 8) 255));
    [|by rewrite Hsec|done|done].
  rewrite (ptr_read_mid s i Hi (zrep 4 255) (zrep 4 255) (zrep (NORCOW_SECTOR_SIZE - 8) 255));
    [done|by rewrite Hsec|done|done].
Qed.

Lemma norcow_wipe_rep s :
  flash_wf (nc_flash s) -> idx (norcow_active_sector s) ->
  exists s', norcow_wipe s = Ok tt s' /\ nc_rep s' [] /\
    norcow_active_sector s' = norcow_active_sector s.
Proof.
  intros Hwf Ha. set (a := norcow_active_sector s) in *.
  destruct (idx_other a Ha) as (Hb & Hne & _).
  unfold norcow_wipe. mstep. fold a. rewrite erase_sector_true by done.
  set (s1 := with_sec s a (sector_bytes [])).
  assert (Hwf1 : flash_wf (nc_flash s1)).
  { apply with_sec_wf; [done|done|]. by apply zlen_sector_bytes. }
  set (s2 := with_sec s1 (1 - a) (zrep NORCOW_SECTOR_SIZE 255)).
  assert (Hloop : forM [0; 1] (fun i => if negb (i =? a) then erase_sector i false else mret ()) s1
                  = Ok tt s2).
  { unfold s2. mstep. destruct Ha as [E|E]; rewrite E; cbn [negb Z.eqb Pos.eqb Z.sub Z.opp Z.add];
      rewrite erase_sector_false; [done|by right|done|by left]. }
  revert Hloop. mstep. intros ->.
  unfold set_active_version, set_write_sector, set_free_offset. mstep.
  eexists. split; [done|]. split; [|done].
  assert (Hwf2 : flash_wf (nc_flash s2)).
  { apply with_sec_wf; [done|done|]. by apply zlen_zrep. }
  split; try done.
  - change (sec s2 a = sector_bytes []). unfold s2. rewrite sec_with_sec_ne by done.
    by apply sec_with_sec.
  - change (sec s2 (1 - a) = zrep NORCOW_SECTOR_SIZE 255). by apply sec_with_sec.
  - constructor.
Qed.

(** The scan of [norcow_init] finds the active sector of a stored layout. *)
Lemma init_scan_rep s items fl a :
  nc_rep s items -> fl = nc_flash s -> a = norcow_active_sector s ->
  forall s0, nc_flash s0 = fl ->
  exists s1, init_scan [0; 1] false 0 s0 = Ok (true, NORCOW_VERSION) s1 /\
    nc_flash s1 = fl /\ norcow_active_sector s1 = a /\
    norcow_active_version s1 = NORCOW_VERSION.
Proof.
  intros R -> -> s0 Hfl. destruct R. set (a := norcow_active_sector s) in *.
  assert (Hstart : forall st, nc_flash st = nc_flash s ->
    find_start_offset a st = Ok (Some (NORCOW_STORAGE_START, NORCOW_VERSION)) st).
  { intros st E. apply (find_start_offset_eq st a) with (items := items); try done;
      unfold sec; rewrite E; done. }
  assert (Hnone : forall st, nc_flash st = nc_flash s -> find_start_offset (1 - a) st = Ok None st).
  { intros st E. destruct (idx_other a rep_idx0) as (? & ? & ?).
    apply sector_erased_start; auto; [by rewrite E|]. unfold sec. by rewrite E. }
  cbn [init_scan]. unfold set_active_sector, set_active_version. mstep.
  destruct rep_idx0 as [E|E]; rewrite E in *;
    [change (1 - 0) with 1 in *|change (1 - 1) with 0 in *].
  - rewrite Hstart by done. change (0 <=? NORCOW_VERSION) with true. mstep.
    rewrite Hnone by done. by eexists.
  - rewrite Hnone by done. rewrite Hstart by done.
    change (0 <=? NORCOW_VERSION) with true. mstep. by eexists.
Qed.

(** A restart: the static variables are whatever they are, the flash is kept. *)
Lemma norcow_init_rep s items s0 :
  nc_rep s items -> nc_flash s0 = nc_flash s ->
  exists s', norcow_init s0 = Ok NORCOW_VERSION s' /\ nc_rep s' items.
Proof.
  intros R Hfl. unfold norcow_init, set_active_sector at 1. mstep.
  match goal with |- context [init_scan _ _ _ ?st] =>
    destruct (init_scan_rep s items _ _ R eq_refl eq_refl st) as (s1 & -> & Hf1 & Ha1 & Hv1);
      [done|] end.
  cbn [negb orb Z.ltb Z.compare Pos.compare Pos.compare_cont NORCOW_VERSION].
  unfold set_write_sector, set_free_offset. mstep.
  match goal with |- context [find_free_offset _ ?st] => set (s2 := st) end.
  destruct R. rewrite (find_free_offset_eq s2 (norcow_active_sector s1)) with (items := items);
    rewrite ?Ha1; try done.
  - eexists. split; [done|]. split; cbn; rewrite ?Ha1, ?Hf1; try done;
      unfold sec; cbn; by rewrite Hf1.
  - cbn. by rewrite Hf1.
  - unfold sec. cbn. by rewrite Hf1.
Qed.

(** ** Arbitrary flash contents *)

Definition all_bytes (fl : flash_mem) : Prop :=
  forall i, idx i -> Forall is_byte (znth [] fl (num i)).

Lemma le_val_slice2 l off : Forall is_byte l -> 0 <= le_val (slice l off 2) < 65536.
Proof.
  intros H. assert (Hb : Forall is_byte (slice l off 2)).
  { unfold slice. by apply Forall_take, Forall_drop. }
  pose proof (le_val_range _ Hb) as [H0 H1]. split; [done|].
  assert (zlen (slice l off 2) <= 2) by (unfold zlen, slice; rewrite length_take; lia).
  pose proof (zlen_nonneg (slice l off 2)).
  assert (256 ^ zlen (slice l off 2) <= 256 ^ 2) by (apply Z.pow_le_mono_r; lia). lia.
Qed.

(** On any contents an item that is read lies in its sector and the scan
    advances by at least a word. *)
Lemma read_item_total s i off :
  flash_wf (nc_flash s) -> all_bytes (nc_flash s) -> idx i ->
  0 <= off <= NORCOW_SECTOR_SIZE ->
  exists r, read_item i off s = Ok r s /\
    match r with
    | None => True
    | Some (k, v, l, pos) =>
        v = off + 4 /\ 0 <= l /\ v + l <= NORCOW_SECTOR_SIZE /\
        off + 4 <= pos <= NORCOW_SECTOR_SIZE
    end.
Proof.
  intros Hwf Hb Hi Hoff. unfold NORCOW_SECTOR_SIZE in *.
  assert (Hptr : forall o n, 0 <= o <= 65540 -> 0 <= n < 65536 ->
    norcow_ptr i o n s = Ok (if o + n <=? 65536 then Some o else None) s).
  { intros o n ? ?. destruct (Z.leb_spec (o + n) 65536).
    - apply norcow_ptr_in; (done || unfold NORCOW_SECTOR_SIZE; lia).
    - apply norcow_ptr_out; (done || unfold NORCOW_SECTOR_SIZE; lia). }
  assert (Hread : forall o, ptr_read i o 2 s = Ok (slice (sec s i) o 2) s).
  { intros o. unfold ptr_read. mstep. by rewrite sector_num_ok. }
  pose proof (fun o => le_val_slice2 (sec s i) o (Hb i Hi)) as Hl.
  unfold read_item. mstep. rewrite Hptr by lia.
  destruct (off + 2 <=? 65536); [|by exists None].
  rewrite Hread. destruct (_ =? NORCOW_KEY_FREE); [by exists None|].
  rewrite Hptr by lia. destruct (off + 2 + 2 <=? 65536) eqn:E2; [|by exists None].
  zbool. rewrite Hread. pose proof (Hl (off + 2)). rewrite Hptr by lia.
  destruct (off + 4 + _ <=? 65536) eqn:E3; [|by exists None].
  zbool. eexists. split; [done|]. rewrite ALIGN4_eq. cbn beta iota. repeat split; try lia; zlia.
Qed.

(** Enough fuel from offset [off]. *)
Definition enough (fuel : nat) (off : Z) : Prop :=
  0 <= off <= NORCOW_SECTOR_SIZE /\ NORCOW_SECTOR_SIZE - off < 4 * Z.of_nat fuel.

Section Total.
Context (s : norcow_state) (i : Z).
Context (Hwf : flash_wf (nc_flash s)) (Hb : all_bytes (nc_flash s)) (Hi : idx i).

Lemma find_item_loop_total fuel : forall key off f, enough fuel off ->
  exists r, find_item_loop fuel i key off f s = Ok r s.
Proof.
  induction fuel as [|fuel IH]; intros key off f [H1 H2]; [lia|].
  cbn [find_item_loop]. mstep.
  destruct (read_item_total s i off) as ([[[[k v] l] pos]|] & -> & Hr); auto; [|by eexists].
  apply IH. unfold enough. lia.
Qed.

Lemma find_free_offset_loop_total fuel : forall off, enough fuel off ->
  exists r, find_free_offset_loop fuel i off s = Ok r s.
Proof.
  induction fuel as [|fuel IH]; intros off [H1 H2]; [lia|].
  cbn [find_free_offset_loop]. mstep.
  destruct (read_item_total s i off) as ([[[[k v] l] pos]|] & -> & Hr); auto; [|by eexists].
  apply IH. unfold enough. lia.
Qed.

Lemma find_start_offset_total :
  exists r, find_start_offset i s = Ok r s /\
    match r with None => True | Some (off, _) => enough item_fuel off end.
Proof.
  unfold find_start_offset. mstep.
  rewrite norcow_ptr_in by (done || unfold NORCOW_SECTOR_SIZE; cbn; lia).
  assert (Hread : forall o n, ptr_read i o n s = Ok (slice (sec s i) o n) s).
  { intros o n. unfold ptr_read. mstep. by rewrite sector_num_ok. }
  rewrite !Hread.
  assert (forall o, 0 <= o <= 8 -> enough item_fuel o).
  { intros. unfold enough, item_fuel, NORCOW_SECTOR_SIZE.
    change (64 * 1024 / 4 + 1) with 16385. lia. }
  repeat (case_match); eexists; (split; [done|]); try done; apply H; cbn; lia.
Qed.

Lemma find_item_total key : exists r, find_item i key s = Ok r s.
Proof.
  unfold find_item. mstep. destruct find_start_offset_total as ([[o v]|] & -> & Ho);
    [by apply find_item_loop_total|by eexists].
Qed.

Lemma find_free_offset_total : exists r, find_free_offset i s = Ok r s.
Proof.
  unfold find_free_offset. mstep. destruct find_start_offset_total as ([[o v]|] & -> & Ho);
    [by apply find_free_offset_loop_total|by eexists].
Qed.

End Total.

(** ** The store as an abstract machine *)

Inductive kv_op :=
| KSet (key : Z) (v : list Z)      (* norcow_set(key, val, len) *)
| KAlloc (key len : Z)             (* norcow_set(key, NULL, len) *)
| KGet (key : Z)                   (* norcow_get and the bytes it points at *)
| KDelete (key : Z)
| KRestart                         (* power cycle, then norcow_init *)
| KWipe.

Inductive kv_res := RStatus (b : bool) | RValue (v : option (list Z)).

Definition op_ok (op : kv_op) : Prop :=
  match op with
  | KSet key v => valid_key key /\ Forall is_byte v /\ zlen v < 65536
  | KAlloc key len => valid_key key /\ 0 <= len < 65536
  | KGet key | KDelete key => valid_key key
  | KRestart | KWipe => True
  end.

(** The calls of the implementation. *)
Definition nc_exec (op : kv_op) : NC kv_res :=
  match op with
  | KSet key v => b ← norcow_set key (Some v) (zlen v); mret (RStatus b)
  | KAlloc key len => b ← norcow_set key None len; mret (RStatus b)
  | KGet key =>
      r ← norcow_get key;
      match r with
      | None => mret (RValue None)
      | Some (p, l) =>
          s ← getS;
          v ← ptr_read (norcow_active_sector s) p l; mret (RValue (Some v))
      end
  | KDelete key => b ← norcow_delete key; mret (RStatus b)
  | KRestart =>
      s ← getS;
      putS (NorcowState (nc_flash s) 0 0 0 0) ≫= fun _ =>
      norcow_init ≫= fun _ => mret (RStatus true)
  | KWipe => norcow_wipe ≫= fun _ => mret (RStatus true)
  end.

Fixpoint nc_run (ops : list kv_op) : NC (list kv_res) :=
  match ops with
  | [] => mret []
  | op :: ops => r ← nc_exec op; rs ← nc_run ops; mret (r :: rs)
  end.

(** The abstract machine: a finite map.  A store is refused only when the
    entry does not fit beside the other entries, and then the old value of the
    key is gone. *)
Inductive kv_step : gmap Z (list Z) -> kv_op -> kv_res -> gmap Z (list Z) -> Prop :=
| kv_set m key v : kv_step m (KSet key v) (RStatus true) (<[key := v]> m)
| kv_set_full m key v :
    NORCOW_SECTOR_SIZE < map_used (delete key m) + 4 + zlen v ->
    kv_step m (KSet key v) (RStatus false) (delete key m)
| kv_alloc m key len :
    kv_step m (KAlloc key len) (RStatus true) (<[key := zrep len 255]> m)
| kv_alloc_full m key len :
    NORCOW_SECTOR_SIZE < map_used (delete key m) + 4 + len ->
    kv_step m (KAlloc key len) (RStatus false) (delete key m)
| kv_get m key : kv_step m (KGet key) (RValue (m !! key)) m
| kv_delete m key :
    kv_step m (KDelete key) (RStatus (bool_decide (is_Some (m !! key)))) (delete key m)
| kv_restart m : kv_step m KRestart (RStatus true) m
| kv_wipe m : kv_step m KWipe (RStatus true) ∅.

Inductive kv_steps : gmap Z (list Z) -> list kv_op -> list kv_res -> gmap Z (list Z) -> Prop :=
| kv_nil m : kv_steps m [] [] m
| kv_cons m m' m'' op r ops rs :
    kv_step m op r m' -> kv_steps m' ops rs m'' -> kv_steps m (op :: ops) (r :: rs) m''.

Lemma nc_exec_rep s items op :
  nc_rep s items -> op_ok op ->
  exists r s' items', nc_exec op s = Ok r s' /\ nc_rep s' items' /\
    kv_step (contents items) op r (contents items').
Proof.
  intros R Hop. destruct op as [key v|key len|key|key| |]; cbn [op_ok nc_exec] in *.
  - destruct Hop as (Hk & Hb & Hl).
    destruct (norcow_set_ex_rep s items key (Some v) (zlen v)) as (s' & it' & b & Hs & R' & Hc & Hf);
      auto.
    eexists _, s', it'. unfold norcow_set. mstep. rewrite Hs. split; [done|]. split; [done|].
    rewrite Hc. destruct b; constructor. auto.
  - destruct Hop as (Hk & Hl). assert (zlen (zrep len 255) = len) by (apply zlen_zrep; lia).
    destruct (norcow_set_ex_rep s items key None len) as (s' & it' & b & Hs & R' & Hc & Hf);
      auto; [lia|by apply Forall_zrep|].
    eexists _, s', it'. unfold norcow_set. mstep. rewrite Hs. split; [done|]. split; [done|].
    rewrite Hc. destruct b; constructor. auto.
  - pose proof (norcow_get_rep s items key R Hop) as Hg. mstep.
    destruct (contents items !! key) as [v|] eqn:E.
    + destruct Hg as (p & -> & ->). eexists _, s, items. rewrite <- E. split; [done|].
      split; [done|constructor].
    + rewrite Hg. eexists _, s, items. rewrite <- E. split; [done|]. split; [done|constructor].
  - destruct (norcow_delete_rep s items key R Hop) as (s' & it' & Hs & R' & Hc). mstep.
    rewrite Hs. eexists _, s', it'. split; [done|]. split; [done|]. rewrite Hc. constructor.
  - mstep. destruct (norcow_init_rep s items (NorcowState (nc_flash s) 0 0 0 0) R)
      as (s' & -> & R'); [done|].
    eexists _, s', items. split; [done|]. split; [done|constructor].
  - mstep. destruct (norcow_wipe_rep s) as (s' & -> & R' & _); [apply R|apply R|].
    eexists _, s', []. split; [done|]. split; [done|constructor].
Qed.

Lemma nc_run_rep ops : forall s items,
  nc_rep s items -> Forall op_ok ops ->
  exists rs s' items', nc_run ops s = Ok rs s' /\ nc_rep s' items' /\
    kv_steps (contents items) ops rs (contents items').
Proof.
  induction ops as [|op ops IH]; intros s items R Hops.
  - eexists [], s, items. split; [done|]. split; [done|constructor].
  - apply Forall_cons in Hops as [Hop Hops].
    destruct (nc_exec_rep s items op R Hop) as (r & s1 & it1 & He & R1 & Hs1).
    destruct (IH s1 it1 R1 Hops) as (rs & s2 & it2 & Hr & R2 & Hs2).
    exists (r :: rs), s2, it2. cbn [nc_run]. mstep. rewrite He, Hr.
    split; [done|]. split; [done|]. by econstructor.
Qed.

(** A concrete flash with erased storage sectors, for the examples. *)
Definition blank_flash : flash_mem :=
  map (fun i => if (i =? 4)%nat || (i =? 16)%nat then zrep NORCOW_SECTOR_SIZE 255 else [])
    (seq 0 24).

Lemma blank_flash_wf : flash_wf blank_flash.
Proof. split; [done|]. by intros i [->| ->]; apply zlen_zrep. Qed.

Lemma blank_flash_bytes : all_bytes blank_flash.
Proof. by intros i [->| ->]; apply Forall_zrep. Qed.

(** The state of a store given by its items, in the first sector. *)
Definition store_flash (items : list item) : flash_mem :=
  map (fun i => if (i =? 4)%nat then sector_bytes items
                else if (i =? 16)%nat then zrep NORCOW_SECTOR_SIZE 255 else []) (seq 0 24).
Definition store_state (items : list item) : norcow_state :=
  NorcowState (store_flash items) 0 0 NORCOW_VERSION (used items).

Lemma store_rep items : used items <= NORCOW_SECTOR_SIZE -> Forall item_ok items ->
  NoDup (live_keys items) -> nc_rep (store_state items) items.
Proof.
  intros Hfit Hok Hnd. split; try done.
  - split; [done|]. intros i [->| ->]; [by apply zlen_sector_bytes|by apply zlen_zrep].
  - by left.
Qed.

(** A store with one entry, for the examples. *)
Definition demo_items : list item := [Item 5 [255; 6; 7]].
Definition demo_state : norcow_state := store_state demo_items.

Lemma demo_rep : nc_rep demo_state demo_items.
Proof.
  apply store_rep; [vm_compute; congruence| |apply NoDup_singleton].
  constructor; [|constructor]. unfold item_ok, NORCOW_KEY_FREE; cbn [ikey idata].
  split; [lia|]. split; [|done]. repeat constructor; unfold is_byte; lia.
Qed.

(** ** Properties *)

(** C4: starting from wiped storage, any sequence of stores, allocations,
    reads, deletions, restarts and wipes returns (no [ensure] fails, no access
    leaves an array) and behaves as the finite map: reads give the last value
    stored, restarts lose nothing, and a store is refused only when the sector
    cannot hold the entry beside the others. *)
Theorem norcow_refines_map s0 ops :
  flash_wf (nc_flash s0) -> idx (norcow_active_sector s0) -> Forall op_ok ops ->
  exists s1 rs s' m, norcow_wipe s0 = Ok tt s1 /\ nc_run ops s1 = Ok rs s' /\
    kv_steps ∅ ops rs m.
Proof.
  intros Hwf Ha Hops. destruct (norcow_wipe_rep s0 Hwf Ha) as (s1 & H1 & R1 & _).
  destruct (nc_run_rep ops s1 [] R1 Hops) as (rs & s' & it' & Hr & _ & Hs). eauto 8.
Qed.

Lemma norcow_refines_map_witness :
  exists s1 rs s' m,
    norcow_wipe (NorcowState blank_flash 0 0 0 0) = Ok tt s1 /\
    nc_run [KSet 5 [1; 2; 3]; KGet 5; KSet 5 [9]; KRestart; KDelete 5; KGet 5] s1 = Ok rs s' /\
    kv_steps ∅ [KSet 5 [1; 2; 3]; KGet 5; KSet 5 [9]; KRestart; KDelete 5; KGet 5] rs m.
Proof.
  apply norcow_refines_map; [exact blank_flash_wf|by left|].
  repeat constructor; unfold valid_key, NORCOW_KEY_FREE; vm_compute; congruence.
Defined.

(** [norcow_set] on any represented store: it returns, keeps the layout
    invariant, stores the value, and fails only when the entry does not fit in a
    compacted sector; on failure the key is absent and the others are kept. *)
Theorem norcow_set_correct s items key v :
  nc_rep s items -> valid_key key -> Forall is_byte v -> zlen v < 65536 ->
  exists s' items' b,
    norcow_set key (Some v) (zlen v) s = Ok b s' /\ nc_rep s' items' /\
    contents items' =
      (if b then <[key := v]> (contents items) else delete key (contents items)) /\
    (map_used (delete key (contents items)) + 4 + zlen v <= NORCOW_SECTOR_SIZE -> b = true).
Proof.
  intros R Hk Hb Hl.
  destruct (norcow_set_ex_rep s items key (Some v) (zlen v)) as (s' & it' & b & Hs & R' & Hc & Hf);
    auto.
  exists s', it', b. unfold norcow_set. mstep. rewrite Hs.
  split; [done|]. split; [done|]. split; [done|]. destruct b; [done|]. specialize (Hf eq_refl). lia.
Qed.

Lemma norcow_set_correct_witness :
  exists s' items' b,
    norcow_set 7 (Some [1; 2]) 2 demo_state = Ok b s' /\ nc_rep s' items' /\
    contents items' =
      (if b then <[7 := [1; 2]]> (contents demo_items) else delete 7 (contents demo_items)) /\
    (map_used (delete 7 (contents demo_items)) + 4 + 2 <= NORCOW_SECTOR_SIZE -> b = true).
Proof.
  apply (norcow_set_correct demo_state demo_items 7 [1; 2]);
    [exact demo_rep|vm_compute; done| |vm_compute; done].
  repeat constructor; unfold is_byte; lia.
Defined.

(** C25: compaction of a represented store returns, keeps exactly the live
    items in their order, drops the deleted ones, and keeps the contents. *)
Theorem compact_correct s items :
  nc_rep s items ->
  exists s', compact s = Ok tt s' /\ nc_rep s' (live_items items) /\
    contents (live_items items) = contents items /\
    norcow_free_offset s' = map_used (contents items).
Proof.
  intros R. destruct (compact_rep s items R) as (s' & Hc & R'). exists s'.
  split; [done|]. split; [done|]. split; [apply contents_live|].
  rewrite (rep_free _ _ R'). apply used_live_map, R.
Qed.

Lemma compact_correct_witness :
  exists s', compact demo_state = Ok tt s' /\ nc_rep s' (live_items demo_items) /\
    contents (live_items demo_items) = contents demo_items /\
    norcow_free_offset s' = map_used (contents demo_items).
Proof. apply compact_correct. exact demo_rep. Defined.

(** [norcow_update_bytes] replaces the given bytes of the value when they
    only clear bits, and touches nothing else. *)
Theorem norcow_update_bytes_correct s items key offset data v :
  nc_rep s items -> valid_key key -> contents items !! key = Some v ->
  0 <= offset -> offset + zlen data <= zlen v -> Forall is_byte data ->
  Forall2 clears (slice v offset (zlen data)) data ->
  exists s' items',
    norcow_update_bytes key offset data (zlen data) s = Ok true s' /\ nc_rep s' items' /\
    contents items' = <[key := patch v offset data]> (contents items).
Proof. intros. by apply norcow_update_bytes_rep. Qed.

Lemma norcow_update_bytes_correct_witness :
  exists s' items',
    norcow_update_bytes 5 1 [2; 1] 2 demo_state = Ok true s' /\ nc_rep s' items' /\
    contents items' = <[5 := patch [255; 6; 7] 1 [2; 1]]> (contents demo_items).
Proof.
  apply (norcow_update_bytes_correct demo_state demo_items 5 1 [2; 1] [255; 6; 7]);
    [exact demo_rep|vm_compute; done|vm_compute; done|lia|vm_compute; congruence| |].
  - repeat constructor; unfold is_byte; lia.
  - repeat constructor; vm_compute; done.
Defined.

(** whatever the two sectors hold (corrupted flash included), looking up a
    key and finding the free offset terminate, never read outside the sector and
    leave the state alone. *)
Theorem norcow_scan_total s i key :
  flash_wf (nc_flash s) -> all_bytes (nc_flash s) -> idx i ->
  (exists r, find_item i key s = Ok r s) /\ (exists o, find_free_offset i s = Ok o s).
Proof. intros. split; [by apply find_item_total|by apply find_free_offset_total]. Qed.

Lemma norcow_scan_total_witness :
  (exists r, find_item 1 7 (NorcowState blank_flash 0 0 0 0)
             = Ok r (NorcowState blank_flash 0 0 0 0)) /\
  (exists o, find_free_offset 1 (NorcowState blank_flash 0 0 0 0)
             = Ok o (NorcowState blank_flash 0 0 0 0)).
Proof.
  apply norcow_scan_total; [exact blank_flash_wf|exact blank_flash_bytes|by right].
Defined.

End NorcowSpec.
