(* ===== verification/Bits.v ===== *)
(** * Bits and bytes of machine words

    Lemmas on bitwise operations shared by the components: bit-by-bit
    extensionality for 32-bit words and the byte-by-byte behaviour of masks. *)

From stdpp Require Import base list numbers.
From Stdlib Require Import ZArith Lia.
From S2P Require Import Prelude.
Local Open Scope fw_scope.

(** ** Bit-by-bit reasoning *)

Lemma not32_ldiff x : is_u32 x -> not32 x = Z.ldiff (Z.ones 32) x.
Proof.
  intros Hx. unfold not32. change 4294967295 with (Z.ones 32).
  apply Z.sub_nocarry_ldiff. apply Z.ldiff_ones_r_low; [apply Hx|].
  destruct (Z.eq_dec x 0) as [->|]; [cbn; lia|].
  apply Z.log2_lt_pow2; unfold is_u32 in *; lia.
Qed.

Lemma not32_spec x n : is_u32 x -> 0 <= n ->
  Z.testbit (not32 x) n = (n <? 32) && negb (Z.testbit x n).
Proof.
  intros Hx Hn. rewrite not32_ldiff, Z.ldiff_spec by done.
  rewrite Z.testbit_ones_nonneg by lia. done.
Qed.

Lemma u32_spec x n : 0 <= n -> Z.testbit (u32 x) n = (n <? 32) && Z.testbit x n.
Proof.
  intros Hn. unfold u32, wrap. destruct (Z.ltb_spec n 32).
  - by rewrite Z.mod_pow2_bits_low by lia.
  - by rewrite Z.mod_pow2_bits_high by lia.
Qed.

Lemma u32_high x n : is_u32 x -> 32 <= n -> Z.testbit x n = false.
Proof.
  intros Hx Hn. rewrite <- (u32_small x) by apply Hx. rewrite u32_spec by lia. by zif.
Qed.

(** Two words are equal when their 32 bits are. *)
Lemma u32_bits_eq x y : is_u32 x -> is_u32 y ->
  (forall n, 0 <= n < 32 -> Z.testbit x n = Z.testbit y n) -> x = y.
Proof.
  intros Hx Hy H. apply Z.bits_inj'. intros n Hn. destruct (Z.lt_ge_cases n 32).
  - apply H; lia.
  - by rewrite !u32_high.
Qed.

Lemma bounded_bits k x : 0 <= k -> 0 <= x ->
  (forall n, k <= n -> Z.testbit x n = false) -> x < 2 ^ k.
Proof.
  intros Hk Hx H. destruct (Z.lt_ge_cases x (2 ^ k)) as [|Hge]; [done|].
  assert (0 < 2 ^ k) by (apply Z.pow_pos_nonneg; lia).
  assert (Hl : k <= Z.log2 x) by (apply Z.log2_le_pow2; lia).
  pose proof (H (Z.log2 x) Hl) as Hb. rewrite Z.bit_log2 in Hb by lia. done.
Qed.

Lemma is_u32_bits x : 0 <= x -> (forall n, 32 <= n -> Z.testbit x n = false) -> is_u32 x.
Proof. intros Hx H. split; [done|]. by apply (bounded_bits 32). Qed.

Lemma is_u32_land x y : is_u32 x -> 0 <= y -> is_u32 (Z.land x y).
Proof.
  intros Hx Hy. apply is_u32_bits; [apply Z.land_nonneg; left; apply Hx|].
  intros n Hn. by rewrite Z.land_spec, u32_high.
Qed.

Lemma is_u32_lor x y : is_u32 x -> is_u32 y -> is_u32 (Z.lor x y).
Proof.
  intros Hx Hy. apply is_u32_bits; [apply Z.lor_nonneg; split; [apply Hx|apply Hy]|].
  intros n Hn. by rewrite Z.lor_spec, !u32_high.
Qed.

Lemma is_u32_lxor x y : is_u32 x -> is_u32 y -> is_u32 (Z.lxor x y).
Proof.
  intros Hx Hy. apply is_u32_bits.
  - apply Z.lxor_nonneg. split; intros; [apply Hy|apply Hx].
  - intros n Hn. by rewrite Z.lxor_spec, !u32_high.
Qed.

Lemma is_u32_shiftr x k : is_u32 x -> 0 <= k -> is_u32 (Z.shiftr x k).
Proof.
  intros Hx Hk. rewrite Z.shiftr_div_pow2 by lia. unfold is_u32 in *.
  assert (0 < 2 ^ k) by (apply Z.pow_pos_nonneg; lia). split; [apply Z.div_pos; lia|].
  apply Z.le_lt_trans with x; [|lia]. apply Z.div_le_upper_bound; nia.
Qed.

Lemma is_u32_not32 x : is_u32 x -> is_u32 (not32 x).
Proof. unfold is_u32, not32. lia. Qed.

Lemma is_u32_u32 x : is_u32 (u32 x).
Proof. apply u32_range. Qed.

Lemma is_u32_const x : (0 <=? x) && (x <? 4294967296) = true -> is_u32 x.
Proof. intros. zbool. done. Qed.

Lemma is_u32_nonneg x : is_u32 x -> 0 <= x.
Proof. unfold is_u32. lia. Qed.

Create HintDb u32.
#[export] Hint Resolve is_u32_nonneg is_u32_land is_u32_lor is_u32_lxor is_u32_shiftr is_u32_not32
  is_u32_u32 : u32.
#[export] Hint Extern 1 (is_u32 _) => (apply is_u32_const; reflexivity) : u32.
#[export] Hint Extern 3 (0 <= _) => lia : u32.

(** ** Byte-by-byte reasoning *)

Lemma land_split x y :
  Z.land x y = Z.land (x mod 256) (y mod 256) + 256 * Z.land (x / 256) (y / 256).
Proof.
  rewrite (Z.div_mod (Z.land x y) 256) at 1 by lia. rewrite Z.add_comm. f_equal.
  - change 256 with (2 ^ 8). rewrite <- !Z.land_ones by lia.
    apply Z.bits_inj'. intros n Hn. rewrite !Z.land_spec.
    destruct (Z.testbit x n), (Z.testbit y n), (Z.testbit (Z.ones 8) n); done.
  - f_equal. change 256 with (2 ^ 8). rewrite <- !Z.shiftr_div_pow2 by lia.
    apply Z.shiftr_land.
Qed.

(** A property of all bytes, by evaluation. *)
Lemma all_bytes_dec (P : Z -> bool) :
  forallb P (map Z.of_nat (seq 0 256)) = true -> forall a, 0 <= a < 256 -> P a = true.
Proof.
  intros H a Ha. rewrite forallb_forall in H. apply H. rewrite in_map_iff.
  exists (Z.to_nat a). split; [lia|]. apply in_seq. lia.
Qed.

Lemma land_bound k x y : 0 <= k -> 0 <= y < 2 ^ k -> 0 <= Z.land x y < 2 ^ k.
Proof.
  intros Hk Hy. split; [apply Z.land_nonneg; right; lia|].
  apply bounded_bits; [done|apply Z.land_nonneg; right; lia|].
  intros n Hn. rewrite Z.land_spec, andb_comm.
  rewrite <- (Z.mod_small y (2 ^ k)), Z.mod_pow2_bits_high by lia. done.
Qed.

(** ** Words as lists of bytes *)

Lemma le_val_testbit bs : forall n, Forall is_byte bs -> 0 <= n ->
  Z.testbit (le_val bs) n = Z.testbit (znth 0 bs (n / 8)) (n mod 8).
Proof.
  induction bs as [|b bs IH]; intros n Hb Hn.
  - cbn [le_val]. assert (znth 0 [] (n / 8) = 0) as ->.
    { unfold znth. destruct (n / 8 <? 0); [done|]. by destruct (Z.to_nat (n / 8)). }
    by rewrite !Z.bits_0.
  - inversion Hb as [|? ? Hb0 Hbs]; subst. unfold is_byte in Hb0. cbn [le_val].
    destruct (Z.lt_ge_cases n 8).
    + rewrite Z.div_small, Z.mod_small by lia. change (znth 0 (b :: bs) 0) with b.
      rewrite <- (Z.mod_pow2_bits_low _ 8) by lia. change (2 ^ 8) with 256.
      by replace ((b + 256 * le_val bs) mod 256) with b by zlia.
    + replace n with (n - 8 + 8) at 1 by lia. rewrite <- Z.div_pow2_bits by lia.
      change (2 ^ 8) with 256. replace ((b + 256 * le_val bs) / 256) with (le_val bs) by zlia.
      rewrite IH by (done || lia).
      replace ((n - 8) mod 8) with (n mod 8) by zlia. f_equal.
      assert (0 < n / 8) by zlia. replace ((n - 8) / 8) with (n / 8 - 1) by zlia.
      unfold znth. zif. replace (Z.to_nat (n / 8)) with (S (Z.to_nat (n / 8 - 1))) by lia. done.
Qed.

(** Words built from bytes: bitwise operations act on the bytes. *)
Lemma land_cons x xs y ys : is_byte x -> is_byte y ->
  le_val (x :: xs) .& le_val (y :: ys) = Z.land x y + 256 * (le_val xs .& le_val ys).
Proof.
  unfold is_byte. intros Hx Hy. cbn [le_val]. rewrite land_split.
  replace ((x + 256 * le_val xs) mod 256) with x by zlia.
  replace ((y + 256 * le_val ys) mod 256) with y by zlia.
  replace ((x + 256 * le_val xs) / 256) with (le_val xs) by zlia.
  by replace ((y + 256 * le_val ys) / 256) with (le_val ys) by zlia.
Qed.

Lemma lor_cons x xs y ys : is_byte x -> is_byte y ->
  le_val (x :: xs) .| le_val (y :: ys) = Z.lor x y + 256 * (le_val xs .| le_val ys).
Proof.
  intros Hx Hy. pose proof (Z.add_lor_land (le_val (x :: xs)) (le_val (y :: ys))) as H.
  rewrite land_cons in H by done. pose proof (Z.add_lor_land x y).
  pose proof (Z.add_lor_land (le_val xs) (le_val ys)). cbn [le_val] in *. lia.
Qed.

Lemma land_bytes xs ys : Forall is_byte xs -> Forall is_byte ys -> length xs = length ys ->
  le_val xs .& le_val ys = le_val (zip_with Z.land xs ys).
Proof.
  intros Hx. revert ys. induction Hx as [|x xs Hx _ IH]; intros ys Hy Hl; [by destruct ys|].
  destruct Hy as [|y ys Hy Hys]; [done|]. rewrite land_cons by done. cbn [zip_with le_val].
  rewrite IH; [done|done|]. by injection Hl.
Qed.

Lemma lor_bytes xs ys : Forall is_byte xs -> Forall is_byte ys -> length xs = length ys ->
  le_val xs .| le_val ys = le_val (zip_with Z.lor xs ys).
Proof.
  intros Hx. revert ys. induction Hx as [|x xs Hx _ IH]; intros ys Hy Hl; [by destruct ys|].
  destruct Hy as [|y ys Hy Hys]; [done|]. rewrite lor_cons by done. cbn [zip_with le_val].
  rewrite IH; [done|done|]. by injection Hl.
Qed.

Lemma land_byte_ff x : is_byte x -> Z.land x 255 = x.
Proof.
  unfold is_byte. intros. change 255 with (Z.ones 8). rewrite Z.land_ones by lia.
  by apply Z.mod_small.
Qed.

Lemma le_val_zeros bs k : le_val (bs ++ replicate k 0) = le_val bs.
Proof.
  rewrite le_val_app. assert (E : le_val (replicate k 0) = 0) by (induction k; cbn; lia).
  rewrite E. lia.
Qed.

Lemma shiftr_bytes k : forall bs, Forall is_byte bs ->
  Z.shiftr (le_val bs) (8 * Z.of_nat k) = le_val (drop k bs).
Proof.
  induction k as [|k IH]; intros bs Hb; [by rewrite Z.mul_0_r, Z.shiftr_0_r|].
  destruct Hb as [|b bs Hb Hbs]; [by rewrite Z.shiftr_0_l|].
  replace (8 * Z.of_nat (S k)) with (8 + 8 * Z.of_nat k) by lia.
  rewrite <- Z.shiftr_shiftr, (Z.shiftr_div_pow2 _ 8) by lia. cbn [drop].
  rewrite <- IH by done. f_equal. cbn [le_val]. unfold is_byte in Hb. change (2 ^ 8) with 256. zlia.
Qed.

Lemma shiftl_bytes k : forall bs, Z.shiftl (le_val bs) (8 * Z.of_nat k) = le_val (replicate k 0 ++ bs).
Proof.
  induction k as [|k IH]; intros bs; [by rewrite Z.mul_0_r, Z.shiftl_0_r|].
  replace (8 * Z.of_nat (S k)) with (8 * Z.of_nat k + 8) by lia.
  rewrite <- Z.shiftl_shiftl, IH, Z.shiftl_mul_pow2 by lia. cbn [replicate app le_val].
  change (2 ^ 8) with 256. lia.
Qed.

Lemma wrap_bytes k bs : Forall is_byte bs ->
  wrap (8 * Z.of_nat k) (le_val bs) = le_val (take k bs).
Proof.
  revert bs; induction k as [|k IH]; intros bs Hb; [apply Z.mod_1_r|].
  destruct Hb as [|b bs Hb Hbs]; [apply Z.mod_0_l, Z.pow_nonzero; lia|].
  cbn [take le_val]. rewrite <- IH by done. unfold wrap, is_byte in *.
  replace (8 * Z.of_nat (S k)) with (8 + 8 * Z.of_nat k) by lia.
  rewrite Z.pow_add_r by lia. change (2 ^ 8) with 256.
  pose proof (Z.pow_pos_nonneg 2 (8 * Z.of_nat k)).
  rewrite Z.rem_mul_r by lia.
  replace ((b + 256 * le_val bs) mod 256) with b by zlia.
  by replace ((b + 256 * le_val bs) / 256) with (le_val bs) by zlia.
Qed.

(** A list of bytes given by its elements. *)
Ltac bytes_list :=
  repeat first [apply Forall_nil_2 | apply Forall_cons_2; [first [assumption|unfold is_byte; lia]|]].

Ltac inv_bytes :=
  repeat match goal with H : Forall _ (_ :: _) |- _ => apply Forall_cons_iff in H as [? H] end.

(** Byte-aligned shifts, and disjunction with zero bytes. *)
Ltac byte_shifts :=
  rewrite ?shiftl_bytes, ?shiftr_bytes, ?wrap_bytes by bytes_list;
  cbn [drop replicate app take].
Ltac byte_lors :=
  rewrite lor_bytes by (first [reflexivity | bytes_list]);
  cbn [zip_with]; rewrite ?Z.lor_0_r, ?Z.lor_0_l.
Ltac byte_lands :=
  rewrite !land_bytes by (first [reflexivity | bytes_list]);
  cbn [zip_with]; rewrite ?Z.land_0_r, ?land_byte_ff by assumption.

Lemma byte_high x n : is_byte x -> 8 <= n -> Z.testbit x n = false.
Proof.
  unfold is_byte. intros Hx Hn. rewrite <- (Z.mod_small x (2 ^ 8)) by done.
  apply Z.mod_pow2_bits_high. lia.
Qed.

Lemma lxor_split x y :
  Z.lxor x y = Z.lxor (x mod 256) (y mod 256) + 256 * Z.lxor (x / 256) (y / 256).
Proof.
  rewrite (Z.div_mod (Z.lxor x y) 256) at 1 by lia. rewrite Z.add_comm. f_equal.
  - change 256 with (2 ^ 8). rewrite <- !Z.land_ones by lia.
    apply Z.bits_inj'. intros n Hn. rewrite !Z.land_spec, !Z.lxor_spec, !Z.land_spec.
    destruct (Z.testbit (Z.ones 8) n), (Z.testbit x n), (Z.testbit y n); done.
  - f_equal. change 256 with (2 ^ 8). rewrite <- !Z.shiftr_div_pow2 by lia. apply Z.shiftr_lxor.
Qed.

Lemma is_byte_lxor x y : is_byte x -> is_byte y -> is_byte (Z.lxor x y).
Proof.
  unfold is_byte. intros Hx Hy.
  assert (H : 0 <= Z.lxor x y) by (apply Z.lxor_nonneg; lia). split; [done|].
  apply (bounded_bits 8); [lia|done|]. intros n Hn.
  rewrite Z.lxor_spec, !byte_high by (done || lia). done.
Qed.

Lemma lxor_bytes xs : forall ys, Forall is_byte xs -> Forall is_byte ys -> length xs = length ys ->
  le_val xs .^ le_val ys = le_val (zip_with Z.lxor xs ys).
Proof.
  induction xs as [|x xs IH]; intros [|y ys] Hx Hy Hl; try done. inv_bytes.
  cbn [le_val zip_with]. rewrite lxor_split. unfold is_byte in *.
  replace ((x + 256 * le_val xs) mod 256) with x by zlia.
  replace ((y + 256 * le_val ys) mod 256) with y by zlia.
  replace ((x + 256 * le_val xs) / 256) with (le_val xs) by zlia.
  replace ((y + 256 * le_val ys) / 256) with (le_val ys) by zlia.
  rewrite IH; [done..|]. cbn in Hl. lia.
Qed.

Lemma le_bytes_add m : forall n z, le_bytes (m + n) z = le_bytes m z ++ le_bytes n (z / 256 ^ Z.of_nat m).
Proof.
  induction m as [|m IH]; intros n z; [by rewrite Z.div_1_r|].
  cbn [Nat.add le_bytes app]. rewrite IH, Z.div_div by lia.
  rewrite Nat2Z.inj_succ, Z.pow_succ_r by lia. done.
Qed.

Lemma le_bytes_mod n z : le_bytes n (z mod 256 ^ Z.of_nat n) = le_bytes n z.
Proof.
  apply le_bytes_uniq; [apply length_le_bytes|apply le_bytes_byte|apply le_val_bytes].
Qed.

(** Disjunction of disjoint parts is addition. *)
Lemma lor_shift lo hi k : 0 <= k -> 0 <= lo < 2 ^ k -> lo .| Z.shiftl hi k = lo + hi * 2 ^ k.
Proof.
  intros Hk Hlo. rewrite <- Z.shiftl_mul_pow2 by done.
  assert (E : Z.land lo (Z.shiftl hi k) = 0).
  { apply Z.bits_inj'. intros n Hn. rewrite Z.land_spec, Z.bits_0, Z.shiftl_spec by done.
    destruct (Z.lt_ge_cases n k).
    - rewrite (Z.testbit_neg_r hi) by lia. apply andb_false_r.
    - rewrite <- (Z.mod_small lo (2 ^ k)), Z.mod_pow2_bits_high by lia. done. }
  by rewrite <- Z.lxor_lor, <- Z.add_nocarry_lxor.
Qed.
