(* ===== verification/HashSpec.v ===== *)
(** * Correctness of the block hash functions

    [digest_of] is the padded Merkle-Damgard construction over a whole message.
    The buffered [hash_Update] and [hash_Final] compute it, however the message is
    split over the calls. *)

From stdpp Require Import base list numbers.
From Stdlib Require Import ZArith Lia.
From S2P Require Import Prelude Bits Hash.
Local Open Scope fw_scope.

Module HashSpec.
Import Hash.

(** ** Words in big-endian order *)

Fixpoint be_words (wb n : nat) (bs : list Z) : list Z :=
  match n with
  | O => []
  | S n => be_val (take wb bs) :: be_words wb n (drop wb bs)
  end.

Lemma be_words_app wb m : forall n bs, be_words wb (m + n) bs
  = be_words wb m bs ++ be_words wb n (drop (m * wb) bs).
Proof.
  induction m as [|m IH]; intros n bs; [done|]. cbn [Nat.add be_words app].
  rewrite IH, drop_drop. done.
Qed.

Lemma be_words_prefix wb n : forall xs ys, (n * wb <= length xs)%nat ->
  be_words wb n (xs ++ ys) = be_words wb n xs.
Proof.
  induction n as [|n IH]; intros xs ys H; [done|]. cbn [be_words].
  rewrite take_app_le, drop_app_le by lia. by rewrite IH by (rewrite length_drop; lia).
Qed.

Lemma length_be_words wb n bs : length (be_words wb n bs) = n.
Proof. revert bs. induction n; intros; cbn; auto. Qed.

Lemma length_bytes_of wb ws : length (bytes_of wb ws) = (wb * length ws)%nat.
Proof.
  unfold bytes_of. induction ws; cbn [map concat length]; [lia|].
  rewrite length_app, length_le_bytes, IHws. lia.
Qed.

Lemma bytes_of_byte wb ws : Forall is_byte (bytes_of wb ws).
Proof.
  unfold bytes_of. induction ws; cbn [map concat]; [constructor|].
  apply Forall_app; split; [apply le_bytes_byte|done].
Qed.

Lemma length_memcpy {A} (buf src : list A) off :
  (off + length src <= length buf)%nat -> length (memcpy buf off src) = length buf.
Proof. intros. unfold memcpy. rewrite !length_app, length_take, length_drop. lia. Qed.

Lemma Forall_memcpy {A} (P : A -> Prop) buf off src :
  Forall P buf -> Forall P src -> Forall P (memcpy buf off src).
Proof.
  intros. unfold memcpy. apply Forall_app; split; [by apply Forall_take|].
  apply Forall_app; split; [done|by apply Forall_drop].
Qed.

Lemma take_memcpy {A} (buf src : list A) off : (off <= length buf)%nat ->
  take (off + length src) (memcpy buf off src) = take off buf ++ src.
Proof.
  intros. unfold memcpy. rewrite app_assoc. apply take_app_length'.
  rewrite length_app, length_take. lia.
Qed.

Lemma memcpy_full {A} (buf src : list A) off : (off + length src = length buf)%nat ->
  memcpy buf off src = take off buf ++ src.
Proof. intros H. unfold memcpy. rewrite H, drop_all. by rewrite app_nil_r. Qed.

(** ** What the algorithm record must satisfy *)

Class HashLaws {C : Type} (A : hash_alg C) (limit : Z) := {
  hl_cnt : C -> Z -> Prop;    (* the bit count holds this many bits *)
  hl_wb : (ha_wb A <> 0)%nat;
  hl_block : (2 ^ 61) mod Z.of_nat (block_len A) = 0;
  hl_reverse : forall bs, length bs = ha_wb A -> Forall is_byte bs ->
    ha_reverse A (le_val bs) = be_val bs;
  hl_init : Forall (fun x => 0 <= x < 256 ^ Z.of_nat (ha_wb A)) (ha_init A);
  hl_words : forall st ws, Forall (fun x => 0 <= x < 256 ^ Z.of_nat (ha_wb A)) (ha_transform A st ws);
  hl_zero : hl_cnt (ha_zero A) 0;
  hl_inc : forall c k n, hl_cnt c k -> 0 <= n <= 8 * Z.of_nat (block_len A) -> 0 <= k -> k + n < limit ->
    hl_cnt (ha_inc A c n) (k + n);
  hl_low : forall c k, hl_cnt c k -> 0 <= k -> ha_low A c = k mod 2 ^ 64;
  hl_len : forall c k, hl_cnt c k -> 0 <= k < limit ->
    ha_len A c = be_words (ha_wb A) 2 (be_bytes (2 * ha_wb A) k);
}.

Section Correct.
Context {C : Type} (A : hash_alg C) {limit : Z} {L : HashLaws A limit}.
Local Abbreviation B := (block_len A).
Local Abbreviation wb := (ha_wb A).

(** ** The reference construction *)

(** The state after the first [n] blocks. *)
Fixpoint absorb (n : nat) (st : list Z) (msg : list Z) : list Z :=
  match n with
  | O => st
  | S n => absorb n (ha_transform A st (be_words wb 16 (take B msg))) (drop B msg)
  end.

(** Zeroes up to the length field. *)
Definition pad_zeros (len : nat) : nat :=
  ((B - (len + 1 + 2 * wb) mod B) mod B)%nat.

Definition padded (msg : list Z) : list Z :=
  msg ++ 0x80 :: replicate (pad_zeros (length msg)) 0
    ++ be_bytes (2 * wb) (8 * zlen msg).

Definition final_state (msg : list Z) : list Z :=
  absorb (length (padded msg) / B) (ha_init A) (padded msg).

Definition digest_of (msg : list Z) : list Z := concat (map (be_bytes wb) (final_state msg)).

(** ** Lemmas on blocks *)

Lemma B_pos : (B <> 0)%nat.
Proof. unfold block_len. pose proof hl_wb. lia. Qed.

Lemma absorb_add m : forall n st msg,
  absorb (m + n) st msg = absorb n (absorb m st msg) (drop (m * B) msg).
Proof.
  induction m as [|m IH]; intros n st msg; cbn [Nat.add absorb Nat.mul]; [by rewrite drop_0|].
  rewrite IH, drop_drop. done.
Qed.

Lemma absorb_prefix n : forall st msg xs, (n * B <= length msg)%nat ->
  absorb n st (msg ++ xs) = absorb n st msg.
Proof.
  induction n as [|n IH]; intros st msg xs H; [done|]. cbn [absorb].
  rewrite take_app_le, drop_app_le by lia. by rewrite IH by (rewrite length_drop; lia).
Qed.

Lemma map_words n : forall bs, (n * wb <= length bs)%nat -> Forall is_byte bs ->
  map (ha_reverse A) (words_of wb n bs) = be_words wb n bs.
Proof.
  induction n as [|n IH]; intros bs Hl Hb; [done|]. cbn [words_of map be_words].
  rewrite hl_reverse; [|rewrite length_take; lia|by apply Forall_take].
  rewrite IH; [done|rewrite length_drop; lia|by apply Forall_drop].
Qed.

Lemma host_words_eq buf : length buf = B -> Forall is_byte buf ->
  host_words A buf = be_words wb 16 buf.
Proof. intros Hl Hb. apply map_words; [unfold block_len in Hl; lia|done]. Qed.

Lemma length_host_bytes buf : length (bytes_of wb (host_words A buf)) = B.
Proof.
  assert (Hw : forall n bs, length (words_of wb n bs) = n) by (induction n; intros; cbn; auto).
  rewrite length_bytes_of. unfold host_words. rewrite length_map, Hw. unfold block_len. lia.
Qed.

(** ** The context represents the message hashed so far *)

Record ctx_rep (ctx : hash_ctx C) (msg : list Z) : Prop := {
  cr_state : state ctx = absorb (length msg / B) (ha_init A) msg;
  cr_count : hl_cnt (bitcount ctx) (8 * zlen msg);
  cr_length : length (buffer ctx) = B;
  cr_bytes : Forall is_byte (buffer ctx);
  cr_buffer : take (length msg mod B) (buffer ctx) = drop (length msg / B * B) msg;
}.

Lemma usedspace_rep ctx msg : ctx_rep ctx msg -> usedspace A ctx = (length msg mod B)%nat.
Proof.
  intros R. unfold usedspace. rewrite (hl_low _ _ (cr_count _ _ R)) by (unfold zlen; lia).
  rewrite Z.shiftr_div_pow2 by lia. change (2 ^ 3) with 8.
  change (2 ^ 64) with (8 * 2 ^ 61). rewrite Z.mul_mod_distr_l by lia.
  rewrite Z.mul_comm, Z.div_mul by lia. pose proof B_pos.
  destruct (proj1 (Z.mod_divide (2 ^ 61) (Z.of_nat B) ltac:(lia)) hl_block) as [q Hq].
  rewrite Hq, (Z.mul_comm q). unfold zlen.
  assert (q <> 0) by (intros ->; cbn in Hq; lia).
  rewrite Z.rem_mul_r by lia.
  rewrite (Z.mul_comm (Z.of_nat B)), Z.mod_add, Z.mod_mod by lia.
  rewrite <- Nat2Z.inj_mod. lia.
Qed.

(** Consuming one whole block that completes the message to a block boundary. *)
Lemma rep_block ctx msg data n c :
  ctx_rep ctx msg -> Forall is_byte data -> n = (length msg mod B)%nat ->
  (n + length data = B)%nat ->
  hl_cnt c (8 * (zlen msg + zlen data)) ->
  let ws := host_words A (memcpy (buffer ctx) n data) in
  ctx_rep (HashCtx (ha_transform A (state ctx) ws) c (bytes_of wb ws)) (msg ++ data).
Proof.
  intros R Hd -> Hn Hc. pose proof B_pos as HB. cbn zeta.
  pose proof (Nat.div_mod_eq (length msg) B) as Hdm.
  assert (Hlen : length (msg ++ data) = (S (length msg / B) * B)%nat)
    by (rewrite length_app; lia).
  rewrite host_words_eq.
  2:{ rewrite length_memcpy; rewrite (cr_length _ _ R); lia. }
  2:{ apply Forall_memcpy; [apply R|done]. }
  rewrite memcpy_full by (rewrite (cr_length _ _ R); lia). rewrite (cr_buffer _ _ R).
  split; cbn [state bitcount buffer].
  - rewrite Hlen, Nat.div_mul by done.
    replace (S (length msg / B)) with (length msg / B + 1)%nat by lia.
    rewrite absorb_add. cbn [absorb].
    rewrite absorb_prefix, (cr_state _ _ R) by lia. do 2 f_equal.
    rewrite drop_app_le by lia. rewrite take_ge; [done|]. rewrite length_app, length_drop. lia.
  - by rewrite zlen_app.
  - rewrite length_bytes_of, length_be_words. unfold block_len. lia.
  - apply bytes_of_byte.
  - rewrite Hlen, Nat.Div0.mod_mul, Nat.div_mul by done. rewrite <- Hlen, drop_all. done.
Qed.

(** Bytes that do not complete a block. *)
Lemma rep_partial ctx msg data n c :
  ctx_rep ctx msg -> Forall is_byte data -> n = (length msg mod B)%nat ->
  (n + length data < B)%nat -> hl_cnt c (8 * (zlen msg + zlen data)) ->
  ctx_rep (HashCtx (state ctx) c (memcpy (buffer ctx) n data)) (msg ++ data).
Proof.
  intros R Hd -> Hn Hc. pose proof B_pos as HB.
  pose proof (Nat.div_mod_eq (length msg) B) as Hdm.
  assert (Hq : (length (msg ++ data) / B = length msg / B)%nat).
  { symmetry. apply (Nat.div_unique _ _ _ (length msg mod B + length data)); [lia|].
    rewrite length_app. lia. }
  assert (Hr : (length (msg ++ data) mod B = length msg mod B + length data)%nat).
  { symmetry. apply (Nat.mod_unique _ _ (length msg / B)); [lia|]. rewrite length_app. lia. }
  split; cbn [state bitcount buffer].
  - rewrite Hq, absorb_prefix by lia. apply R.
  - by rewrite zlen_app.
  - rewrite length_memcpy; rewrite (cr_length _ _ R); lia.
  - apply Forall_memcpy; [apply R|done].
  - rewrite Hr, Hq, take_memcpy by (rewrite (cr_length _ _ R); lia).
    rewrite (cr_buffer _ _ R), drop_app_le by lia. done.
Qed.

Lemma shiftl3 x : Z.shiftl x 3 = 8 * x.
Proof. rewrite Z.shiftl_mul_pow2 by lia. lia. Qed.

Lemma inc_rep ctx msg d : ctx_rep ctx msg -> 0 <= d <= Z.of_nat B ->
  8 * (zlen msg + d) < limit -> hl_cnt (ha_inc A (bitcount ctx) (Z.shiftl d 3)) (8 * (zlen msg + d)).
Proof.
  intros R Hd Hl. rewrite shiftl3, Z.mul_add_distr_l. pose proof (zlen_nonneg msg).
  apply hl_inc; [apply R|lia..].
Qed.

Lemma update_blocks_rep fuel : forall ctx msg data,
  ctx_rep ctx msg -> (length msg mod B = 0)%nat -> (length data < fuel)%nat ->
  Forall is_byte data -> 8 * (zlen msg + zlen data) < limit ->
  ctx_rep (update_blocks A fuel ctx data) (msg ++ data).
Proof.
  induction fuel as [|fuel IH]; intros ctx msg data R Hm Hf Hd Hl; [lia|].
  cbn [update_blocks]. pose proof B_pos as HB. unfold zlen in *.
  destruct (Nat.leb_spec B (length data)).
  - replace (msg ++ data) with ((msg ++ take B data) ++ drop B data)
      by (by rewrite <- app_assoc, take_drop).
    assert (Ht : length (take B data) = B) by (rewrite length_take; lia).
    apply IH.
    + apply rep_block; [done|by apply Forall_take|done|lia|].
      replace (zlen (take B data)) with (Z.of_nat B) by (unfold zlen; lia).
      apply inc_rep; [done|lia|unfold zlen; lia].
    + rewrite length_app, Ht, <- Nat.Div0.add_mod_idemp_l, Hm, Nat.add_0_l. apply Nat.Div0.mod_same.
    + rewrite length_drop. lia.
    + by apply Forall_drop.
    + rewrite !length_app, length_drop, Ht. lia.
  - destruct (Nat.ltb_spec 0 (length data)).
    + apply rep_partial; [done|done|done|lia|]. apply inc_rep; [done|unfold zlen..]; lia.
    + destruct data; [|cbn in *; lia]. by rewrite app_nil_r.
Qed.

Lemma hash_Update_rep ctx msg data :
  ctx_rep ctx msg -> Forall is_byte data -> 8 * (zlen msg + zlen data) < limit ->
  ctx_rep (hash_Update A ctx data) (msg ++ data).
Proof.
  intros R Hd Hl. unfold hash_Update. rewrite (usedspace_rep _ _ R). pose proof B_pos as HB.
  pose proof (Nat.mod_upper_bound (length msg) B HB).
  destruct (Nat.eqb_spec (length data) 0) as [E|E].
  { destruct data; [|done]. by rewrite app_nil_r. }
  destruct (Nat.ltb_spec 0 (length msg mod B)); [|apply update_blocks_rep; auto; lia].
  set (fs := (B - length msg mod B)%nat). destruct (Nat.leb_spec fs (length data)).
  - replace (msg ++ data) with ((msg ++ take fs data) ++ drop fs data)
      by (by rewrite <- app_assoc, take_drop).
    assert (Ht : length (take fs data) = fs) by (rewrite length_take; lia).
    apply update_blocks_rep.
    + apply rep_block; [done|by apply Forall_take|done|lia|].
      replace (zlen (take fs data)) with (Z.of_nat fs) by (unfold zlen; lia).
      apply inc_rep; [done|lia|unfold zlen in *; lia].
    + rewrite length_app, Ht, <- Nat.Div0.add_mod_idemp_l.
      replace (length msg mod B + fs)%nat with B by lia. apply Nat.Div0.mod_same.
    + lia.
    + by apply Forall_drop.
    + unfold zlen in *. rewrite !length_app, length_drop, Ht. lia.
  - apply rep_partial; [done..|lia|]. apply inc_rep; [done|unfold zlen in *..]; lia.
Qed.

Lemma hash_Init_rep : ctx_rep (hash_Init A) [].
Proof.
  pose proof B_pos as HB. split; cbn [hash_Init state bitcount buffer length].
  - by rewrite Nat.Div0.div_0_l.
  - apply hl_zero.
  - apply length_replicate.
  - apply Forall_replicate. unfold is_byte. lia.
  - by rewrite Nat.Div0.mod_0_l, Nat.Div0.div_0_l.
Qed.

(** The words of the last block: the padded data, then the length. *)
Lemma last_words buf X len : length buf = B -> Forall is_byte buf ->
  take (14 * wb) buf = X ->
  take 14 (host_words A buf) ++ be_words wb 2 len = be_words wb 16 (X ++ len).
Proof.
  intros Hl Hb HX. rewrite host_words_eq by done.
  assert (HXl : length X = (14 * wb)%nat) by (rewrite <- HX, length_take; unfold block_len in Hl; lia).
  rewrite <- (take_drop (14 * wb) buf), HX.
  change 16%nat with (14 + 2)%nat. rewrite !be_words_app.
  rewrite take_app_length' by (by rewrite length_be_words).
  rewrite !be_words_prefix by lia. rewrite !drop_app_length' by lia. done.
Qed.

Lemma memcpy_memcpy_take (buf xs ys : list Z) n m :
  (n + length xs + length ys = m)%nat -> (m <= length buf)%nat ->
  take m (memcpy (memcpy buf n xs) (n + length xs) ys) = take n buf ++ xs ++ ys.
Proof.
  intros <- Hm. rewrite take_memcpy by (rewrite length_memcpy; lia).
  by rewrite take_memcpy, app_assoc by lia.
Qed.

Lemma padded_length msg :
  let r := (length msg mod B)%nat in let q := (length msg / B)%nat in
  if (short_block_len A <? S r)%nat then
    pad_zeros (length msg) = (B - S r + short_block_len A)%nat /\
    (length (padded msg) / B = q + 2)%nat
  else pad_zeros (length msg) = (short_block_len A - S r)%nat /\
    (length (padded msg) / B = q + 1)%nat.
Proof.
  cbn zeta. pose proof B_pos as HB. pose proof hl_wb as Hw.
  pose proof (Nat.div_mod_eq (length msg) B) as Hdm.
  pose proof (Nat.mod_upper_bound (length msg) B HB).
  assert (Hlen : length (padded msg) = (length msg + 1 + pad_zeros (length msg) + 2 * wb)%nat).
  { unfold padded, be_bytes. rewrite length_app. cbn [length].
    rewrite length_app, length_replicate, length_rev, length_le_bytes. lia. }
  rewrite Hlen. set (r := (length msg mod B)%nat) in *. set (q := (length msg / B)%nat) in *.
  assert (Hm : ((length msg + 1 + 2 * wb) mod B = (r + 1 + 2 * wb) mod B)%nat).
  { rewrite <- !Nat.add_assoc. unfold r. by rewrite Nat.Div0.add_mod_idemp_l. }
  unfold pad_zeros, short_block_len. rewrite Hm.
  assert (HBw : B = (16 * wb)%nat) by done.
  destruct (Nat.ltb_spec (14 * wb) (S r)).
  - replace ((r + 1 + 2 * wb) mod B)%nat with (r + 1 + 2 * wb - B)%nat
      by (apply (Nat.mod_unique _ _ 1); lia).
    rewrite Nat.mod_small by lia. split; [lia|].
    symmetry. apply (Nat.div_unique _ _ _ 0); lia.
  - destruct (Nat.eq_dec (r + 1 + 2 * wb) B) as [E|E].
    + rewrite E, Nat.Div0.mod_same, Nat.sub_0_r, Nat.Div0.mod_same. split; [lia|].
      symmetry. apply (Nat.div_unique _ _ _ 0); lia.
    + rewrite (Nat.mod_small (r + 1 + 2 * wb)), Nat.mod_small by lia. split; [lia|].
      symmetry. apply (Nat.div_unique _ _ _ 0); lia.
Qed.

Lemma byte_80 : Forall is_byte [0x80].
Proof. repeat constructor; unfold is_byte; lia. Qed.

Lemma bytes_0 n : Forall is_byte (replicate n 0).
Proof. apply Forall_replicate. unfold is_byte. lia. Qed.

(** The three kinds of final blocks: the data, 0x80 and zeroes to the end of the
    block; the same up to the length field; zeroes and the length field. *)
Section Blocks.
Context (buf : list Z) (r : nat) (Hl : length buf = B) (Hb : Forall is_byte buf).

Lemma length_buf_80 : (r < B)%nat -> length (memcpy buf r [0x80]) = B.
Proof. intros. rewrite length_memcpy; cbn [length]; lia. Qed.

Lemma block_80_zeros : (r < B)%nat ->
  host_words A (memcpy (memcpy buf r [0x80]) (S r) (replicate (B - S r) 0))
  = be_words wb 16 (take r buf ++ [0x80] ++ replicate (B - S r) 0).
Proof.
  intros Hr. pose proof (length_buf_80 Hr) as Hm. rewrite host_words_eq.
  - pose proof (memcpy_memcpy_take buf [0x80] (replicate (B - S r) 0) r B) as E.
    cbn [length] in E. rewrite Nat.add_1_r in E. rewrite <- E; [|rewrite length_replicate; lia|lia].
    symmetry. f_equal. apply take_ge. rewrite length_memcpy; rewrite ?length_replicate; lia.
  - rewrite length_memcpy; rewrite ?length_replicate; lia.
  - apply Forall_memcpy; [apply Forall_memcpy; [done|apply byte_80]|apply bytes_0].
Qed.

Lemma block_80_len len : (S r <= 14 * wb)%nat ->
  take 14 (host_words A (memcpy (memcpy buf r [0x80]) (S r) (replicate (14 * wb - S r) 0)))
    ++ be_words wb 2 len
  = be_words wb 16 ((take r buf ++ [0x80] ++ replicate (14 * wb - S r) 0) ++ len).
Proof.
  intros Hr. assert (HBw : B = (16 * wb)%nat) by done.
  pose proof (length_buf_80 ltac:(lia)) as Hm. apply last_words.
  - rewrite length_memcpy; rewrite ?length_replicate; lia.
  - apply Forall_memcpy; [apply Forall_memcpy; [done|apply byte_80]|apply bytes_0].
  - pose proof (memcpy_memcpy_take buf [0x80] (replicate (14 * wb - S r) 0) r (14 * wb)) as E.
    cbn [length] in E. rewrite Nat.add_1_r in E. apply E; [rewrite length_replicate; lia|lia].
Qed.

Lemma block_zeros_len len :
  take 14 (host_words A (memcpy buf 0 (replicate (14 * wb - 0) 0))) ++ be_words wb 2 len
  = be_words wb 16 (replicate (14 * wb) 0 ++ len).
Proof.
  assert (HBw : B = (16 * wb)%nat) by done. rewrite Nat.sub_0_r. apply last_words.
  - rewrite length_memcpy; rewrite ?length_replicate; lia.
  - apply Forall_memcpy; [done|apply bytes_0].
  - pose proof (take_memcpy buf (replicate (14 * wb) 0) 0 ltac:(lia)) as E.
    rewrite length_replicate in E. exact E.
Qed.

End Blocks.

Lemma length_be_bytes n z : length (be_bytes n z) = n.
Proof. unfold be_bytes. by rewrite length_rev, length_le_bytes. Qed.

Lemma hash_Last_rep ctx msg : ctx_rep ctx msg -> 8 * zlen msg < limit ->
  hash_Last A ctx = final_state msg.
Proof.
  intros R Hl. unfold hash_Last, final_state. rewrite (usedspace_rep _ _ R).
  pose proof B_pos as HB. pose proof (padded_length msg) as Hp.
  cbn zeta in Hp. pose proof (Nat.div_mod_eq (length msg) B) as Hdm.
  pose proof (Nat.mod_upper_bound (length msg) B HB).
  rewrite (hl_len _ _ (cr_count _ _ R)) by (pose proof (zlen_nonneg msg); lia).
  pose proof (cr_length _ _ R) as HL. pose proof (cr_bytes _ _ R) as Hby. rewrite (cr_state _ _ R).
  set (r := (length msg mod B)%nat) in *. set (q := (length msg / B)%nat) in *.
  assert (HBw : B = (16 * wb)%nat) by done. unfold short_block_len in *.
  assert (Hdrop : drop (q * B) (padded msg) = take r (buffer ctx) ++
    0x80 :: replicate (pad_zeros (length msg)) 0 ++ be_bytes (2 * wb) (8 * zlen msg)).
  { unfold padded. rewrite drop_app_le by lia. f_equal. symmetry. apply (cr_buffer _ _ R). }
  assert (Hlen8 := length_be_bytes (2 * wb) (8 * zlen msg)).
  assert (Hltake : length (take r (buffer ctx)) = r) by (rewrite length_take; lia).
  assert (Habs : absorb q (ha_init A) (padded msg) = absorb q (ha_init A) msg)
    by (apply absorb_prefix; lia).
  destruct (Nat.ltb_spec (14 * wb) (S r)); destruct Hp as [Hz Hq];
    rewrite Hq, absorb_add, Habs, Hdrop, Hz; set (len8 := be_bytes _ _) in *; clearbody len8.
  - rewrite replicate_add, block_80_zeros by done.
    rewrite block_zeros_len by (apply bytes_of_byte || (rewrite length_bytes_of, length_be_words; lia)).
    rewrite <- app_assoc, app_comm_cons, (app_assoc _ (_ :: _) (_ ++ len8)). cbn [absorb].
    rewrite (take_app_length' (take r (buffer ctx) ++ _)), (drop_app_length' (take r (buffer ctx) ++ _))
      by (rewrite length_app; cbn [length]; rewrite length_replicate; lia).
    rewrite (take_ge (_ ++ len8)) by (rewrite length_app, length_replicate; lia). done.
  - rewrite block_80_len by done. cbn [absorb].
    rewrite app_comm_cons, (app_assoc _ (_ :: _) len8), (take_ge (_ ++ len8)); [done|].
    rewrite !length_app; cbn [length]; rewrite length_replicate; lia.
Qed.

Lemma absorb_words n : forall st msg, Forall (fun x => 0 <= x < 256 ^ Z.of_nat wb) st ->
  Forall (fun x => 0 <= x < 256 ^ Z.of_nat wb) (absorb n st msg).
Proof. induction n as [|n IH]; intros st msg H; cbn [absorb]; [done|]. apply IH, hl_words. Qed.

Lemma bytes_of_reverse ws : Forall (fun x => 0 <= x < 256 ^ Z.of_nat wb) ws ->
  bytes_of wb (map (ha_reverse A) ws) = concat (map (be_bytes wb) ws).
Proof.
  unfold bytes_of. induction 1 as [|x ws Hx _ IH]; [done|]. cbn [map concat]. rewrite IH. f_equal.
  rewrite <- (Z.mod_small x (256 ^ Z.of_nat wb)) at 1 by done.
  rewrite <- le_val_bytes, hl_reverse by (apply length_le_bytes || apply le_bytes_byte).
  unfold be_val, be_bytes. apply le_bytes_uniq; [by rewrite length_rev, length_le_bytes| |done].
  apply Forall_rev, le_bytes_byte.
Qed.

Lemma hash_Final_rep ctx msg : ctx_rep ctx msg -> 8 * zlen msg < limit ->
  hash_Final A ctx = digest_of msg.
Proof.
  intros R Hl. unfold hash_Final, digest_of. rewrite (hash_Last_rep ctx msg) by done.
  apply bytes_of_reverse, absorb_words, hl_init.
Qed.

(** Any sequence of updates from a fresh context. *)
Lemma hash_stream chunks : Forall (Forall is_byte) chunks -> 8 * zlen (concat chunks) < limit ->
  hash_Final A (fold_left (hash_Update A) chunks (hash_Init A)) = digest_of (concat chunks).
Proof.
  intros Hb Hl.
  assert (G : forall ctx msg, ctx_rep ctx msg -> 8 * zlen (msg ++ concat chunks) < limit ->
    ctx_rep (fold_left (hash_Update A) chunks ctx) (msg ++ concat chunks)).
  { clear Hl. induction Hb as [|d chunks Hd Hb IH]; intros ctx msg R Hl; cbn [fold_left concat] in *.
    - by rewrite app_nil_r.
    - rewrite app_assoc in *. apply IH; [|done]. apply hash_Update_rep; [done|done|].
      rewrite !zlen_app in Hl. pose proof (zlen_nonneg (concat chunks)). lia. }
  apply hash_Final_rep; [|done]. apply (G _ []); [apply hash_Init_rep|done].
Qed.

Lemma hash_Raw_eq data : Forall is_byte data -> 8 * zlen data < limit ->
  hash_Raw A data = digest_of data.
Proof.
  intros Hb Hl. pose proof (hash_stream [data]) as H. cbn [concat] in H. rewrite app_nil_r in H.
  apply H; [by constructor|done].
Qed.

End Correct.
End HashSpec.
