(* ===== verification/Sha2.v ===== *)
(** * SHA-1, SHA-256 and SHA-512: [crypto/sha2.c]

    The transforms with their sixteen-word ring buffers, and the hash functions
    built on them.  The configuration is the one of the firmware: little-endian,
    without [SHA2_UNROLL_TRANSFORM]. *)

From stdpp Require Import base list numbers.
From Stdlib Require Import ZArith Lia.
From S2P Require Import Prelude Bits Hash.
Local Open Scope fw_scope.

Module Sha2.
Import Hash.

(** ** The logical functions *)

Definition SHR (b x : Z) : Z := Z.shiftr x b.
Definition ROTR32 (b x : Z) : Z := Z.shiftr x b .| u32 (Z.shiftl x (32 - b)).
Definition ROTR64 (b x : Z) : Z := Z.shiftr x b .| u64 (Z.shiftl x (64 - b)).
Definition ROTL32 (b x : Z) : Z := u32 (Z.shiftl x b) .| Z.shiftr x (32 - b).

(** [~x] is truncated by the conjunction with [z]. *)
Definition Ch (x y z : Z) : Z := (x .& y) .^ (Z.lnot x .& z).
Definition Maj (x y z : Z) : Z := (x .& y) .^ (x .& z) .^ (y .& z).
Definition Parity (x y z : Z) : Z := x .^ y .^ z.

Definition Sigma0_256 (x : Z) : Z := ROTR32 2 x .^ ROTR32 13 x .^ ROTR32 22 x.
Definition Sigma1_256 (x : Z) : Z := ROTR32 6 x .^ ROTR32 11 x .^ ROTR32 25 x.
Definition sigma0_256 (x : Z) : Z := ROTR32 7 x .^ ROTR32 18 x .^ SHR 3 x.
Definition sigma1_256 (x : Z) : Z := ROTR32 17 x .^ ROTR32 19 x .^ SHR 10 x.
Definition Sigma0_512 (x : Z) : Z := ROTR64 28 x .^ ROTR64 34 x .^ ROTR64 39 x.
Definition Sigma1_512 (x : Z) : Z := ROTR64 14 x .^ ROTR64 18 x .^ ROTR64 41 x.
Definition sigma0_512 (x : Z) : Z := ROTR64 1 x .^ ROTR64 8 x .^ SHR 7 x.
Definition sigma1_512 (x : Z) : Z := ROTR64 19 x .^ ROTR64 61 x .^ SHR 6 x.

(** ** Constants *)

Definition K1_0_TO_19 : Z := 0x5a827999.
Definition K1_20_TO_39 : Z := 0x6ed9eba1.
Definition K1_40_TO_59 : Z := 0x8f1bbcdc.
Definition K1_60_TO_79 : Z := 0xca62c1d6.

Definition sha1_initial_hash_value : list Z :=
  [ 0x67452301; 0xefcdab89; 0x98badcfe; 0x10325476; 0xc3d2e1f0 ].

(** A table of [bits]-bit words, given by its rows of [n] words. *)
Definition table (bits : Z) (n : nat) (rows : list Z) : list Z :=
  concat (map (fun r => rev (map (fun i => wrap bits (Z.shiftr r (bits * Z.of_nat i))) (seq 0 n))) rows).

Definition K256 : list Z := Eval vm_compute in
  table 32 4
     [ 0x428a2f9871374491b5c0fbcfe9b5dba5; 0x3956c25b59f111f1923f82a4ab1c5ed5;
       0xd807aa9812835b01243185be550c7dc3; 0x72be5d7480deb1fe9bdc06a7c19bf174;
       0xe49b69c1efbe47860fc19dc6240ca1cc; 0x2de92c6f4a7484aa5cb0a9dc76f988da;
       0x983e5152a831c66db00327c8bf597fc7; 0xc6e00bf3d5a7914706ca635114292967;
       0x27b70a852e1b21384d2c6dfc53380d13; 0x650a7354766a0abb81c2c92e92722c85;
       0xa2bfe8a1a81a664bc24b8b70c76c51a3; 0xd192e819d6990624f40e3585106aa070;
       0x19a4c1161e376c082748774c34b0bcb5; 0x391c0cb34ed8aa4a5b9cca4f682e6ff3;
       0x748f82ee78a5636f84c878148cc70208; 0x90befffaa4506cebbef9a3f7c67178f2 ].

Definition sha256_initial_hash_value : list Z :=
  [ 0x6a09e667; 0xbb67ae85; 0x3c6ef372; 0xa54ff53a;
    0x510e527f; 0x9b05688c; 0x1f83d9ab; 0x5be0cd19 ].

Definition K512 : list Z := Eval vm_compute in
  table 64 2
     [ 0x428a2f98d728ae227137449123ef65cd; 0xb5c0fbcfec4d3b2fe9b5dba58189dbbc;
       0x3956c25bf348b53859f111f1b605d019; 0x923f82a4af194f9bab1c5ed5da6d8118;
       0xd807aa98a303024212835b0145706fbe; 0x243185be4ee4b28c550c7dc3d5ffb4e2;
       0x72be5d74f27b896f80deb1fe3b1696b1; 0x9bdc06a725c71235c19bf174cf692694;
       0xe49b69c19ef14ad2efbe4786384f25e3; 0x0fc19dc68b8cd5b5240ca1cc77ac9c65;
       0x2de92c6f592b02754a7484aa6ea6e483; 0x5cb0a9dcbd41fbd476f988da831153b5;
       0x983e5152ee66dfaba831c66d2db43210; 0xb00327c898fb213fbf597fc7beef0ee4;
       0xc6e00bf33da88fc2d5a79147930aa725; 0x06ca6351e003826f142929670a0e6e70;
       0x27b70a8546d22ffc2e1b21385c26c926; 0x4d2c6dfc5ac42aed53380d139d95b3df;
       0x650a73548baf63de766a0abb3c77b2a8; 0x81c2c92e47edaee692722c851482353b;
       0xa2bfe8a14cf10364a81a664bbc423001; 0xc24b8b70d0f89791c76c51a30654be30;
       0xd192e819d6ef5218d69906245565a910; 0xf40e35855771202a106aa07032bbd1b8;
       0x19a4c116b8d2d0c81e376c085141ab53; 0x2748774cdf8eeb9934b0bcb5e19b48a8;
       0x391c0cb3c5c95a634ed8aa4ae3418acb; 0x5b9cca4f7763e373682e6ff3d6b2b8a3;
       0x748f82ee5defb2fc78a5636f43172f60; 0x84c87814a1f0ab728cc702081a6439ec;
       0x90befffa23631e28a4506cebde82bde9; 0xbef9a3f7b2c67915c67178f2e372532b;
       0xca273eceea26619cd186b8c721c0c207; 0xeada7dd6cde0eb1ef57d4f7fee6ed178;
       0x06f067aa72176fba0a637dc5a2c898a6; 0x113f9804bef90dae1b710b35131c471b;
       0x28db77f523047d8432caab7b40c72493; 0x3c9ebe0a15c9bebc431d67c49c100d4c;
       0x4cc5d4becb3e42b6597f299cfc657e2a; 0x5fcb6fab3ad6faec6c44198c4a475817 ].

Definition sha512_initial_hash_value : list Z :=
  [ 0x6a09e667f3bcc908; 0xbb67ae8584caa73b; 0x3c6ef372fe94f82b; 0xa54ff53a5f1d36f1;
    0x510e527fade682d1; 0x9b05688c2b3e6c1f; 0x1f83d9abfb41bd6b; 0x5be0cd19137e2179 ].

(** ** The SHA-2 transform

    [sha256_Transform] and [sha512_Transform] are the same code over another word
    type, other logical functions and another number of rounds. *)

Record regs := Regs { ra : Z; rb : Z; rc : Z; rd : Z; re : Z; rf : Z; rg : Z; rh : Z }.

Section Transform.
Context (w : Z) (Sigma0 Sigma1 sigma0 sigma1 : Z -> Z) (K : list Z) (rounds : nat).

(** One step of the compression function with the message word [wj]. *)
Definition sha2_round (k wj : Z) (r : regs) : regs :=
  let T1 := wrap w (rh r + Sigma1 (re r) + Ch (re r) (rf r) (rg r) + k + wj) in
  let T2 := wrap w (Sigma0 (ra r) + Maj (ra r) (rb r) (rc r)) in
  Regs (wrap w (T1 + T2)) (ra r) (rb r) (rc r) (wrap w (rd r + T1)) (re r) (rf r) (rg r).

(** Rounds 0 to 15, which copy the data. *)
Fixpoint sha2_load_loop (data : list Z) (j : Z) (W : list Z) (r : regs) : list Z * regs :=
  match data with
  | [] => (W, r)
  | x :: data => sha2_load_loop data (j + 1) (zupd W j x) (sha2_round (znth 0 K j) x r)
  end.

(** The remaining rounds, with the message expansion in the ring buffer. *)
Fixpoint sha2_expand_loop (n : nat) (j : Z) (W : list Z) (r : regs) : regs :=
  match n with
  | O => r
  | S n =>
      let s0 := sigma0 (znth 0 W ((j + 1) .& 0x0f)) in
      let s1 := sigma1 (znth 0 W ((j + 14) .& 0x0f)) in
      let wj := wrap w (znth 0 W (j .& 0x0f) + (s1 + znth 0 W ((j + 9) .& 0x0f) + s0)) in
      sha2_expand_loop n (j + 1) (zupd W (j .& 0x0f) wj) (sha2_round (znth 0 K j) wj r)
  end.

Definition sha2_Transform (state_in data : list Z) : list Z :=
  let s i := znth 0 state_in i in
  let r := Regs (s 0) (s 1) (s 2) (s 3) (s 4) (s 5) (s 6) (s 7) in
  let '(W, r) := sha2_load_loop (take 16 data) 0 (zrep 16 0) r in
  let r := sha2_expand_loop (rounds - 16) 16 W r in
  [ wrap w (s 0 + ra r); wrap w (s 1 + rb r); wrap w (s 2 + rc r); wrap w (s 3 + rd r);
    wrap w (s 4 + re r); wrap w (s 5 + rf r); wrap w (s 6 + rg r); wrap w (s 7 + rh r) ].

End Transform.

Definition sha256_Transform : list Z -> list Z -> list Z :=
  sha2_Transform 32 Sigma0_256 Sigma1_256 sigma0_256 sigma1_256 K256 64.
Definition sha512_Transform : list Z -> list Z -> list Z :=
  sha2_Transform 64 Sigma0_512 Sigma1_512 sigma0_512 sigma1_512 K512 80.

(** ** The SHA-1 transform *)

Record regs1 := Regs1 { qa : Z; qb : Z; qc : Z; qd : Z; qe : Z }.

Definition sha1_round (f : Z -> Z -> Z -> Z) (k wj : Z) (r : regs1) : regs1 :=
  let T1 := u32 (ROTL32 5 (qa r) + f (qb r) (qc r) (qd r) + qe r + k + wj) in
  Regs1 T1 (qa r) (ROTL32 30 (qb r)) (qc r) (qd r).

Fixpoint sha1_load_loop (data : list Z) (j : Z) (W : list Z) (r : regs1) : list Z * regs1 :=
  match data with
  | [] => (W, r)
  | x :: data => sha1_load_loop data (j + 1) (zupd W j x) (sha1_round Ch K1_0_TO_19 x r)
  end.

(** The loops up to 20, 40, 60 and 80 differ in the function and the constant. *)
Fixpoint sha1_expand_loop (f : Z -> Z -> Z -> Z) (k : Z) (n : nat) (j : Z) (W : list Z) (r : regs1)
    : list Z * regs1 :=
  match n with
  | O => (W, r)
  | S n =>
      let T1 := znth 0 W ((j + 13) .& 0x0f) .^ znth 0 W ((j + 8) .& 0x0f)
                .^ znth 0 W ((j + 2) .& 0x0f) .^ znth 0 W (j .& 0x0f) in
      let wj := ROTL32 1 T1 in
      sha1_expand_loop f k n (j + 1) (zupd W (j .& 0x0f) wj) (sha1_round f k wj r)
  end.

Definition sha1_Transform (state_in data : list Z) : list Z :=
  let s i := znth 0 state_in i in
  let r := Regs1 (s 0) (s 1) (s 2) (s 3) (s 4) in
  let '(W, r) := sha1_load_loop (take 16 data) 0 (zrep 16 0) r in
  let '(W, r) := sha1_expand_loop Ch K1_0_TO_19 4 16 W r in
  let '(W, r) := sha1_expand_loop Parity K1_20_TO_39 20 20 W r in
  let '(W, r) := sha1_expand_loop Maj K1_40_TO_59 20 40 W r in
  let '(W, r) := sha1_expand_loop Parity K1_60_TO_79 20 60 W r in
  [ u32 (s 0 + qa r); u32 (s 1 + qb r); u32 (s 2 + qc r); u32 (s 3 + qd r); u32 (s 4 + qe r) ].

(** ** The hash functions *)

(** SHA-1 and SHA-256 count bits in a 64-bit integer. *)
Definition add64 (c n : Z) : Z := u64 (c + n).
Definition len64 (c : Z) : list Z := [Z.shiftr c 32; c .& 0xffffffff].

(** SHA-512 counts in two 64-bit words, low word first. *)
Definition ADDINC128 (c : Z * Z) (n : Z) : Z * Z :=
  let w0 := u64 (c.1 + n) in
  (w0, if w0 <? n then u64 (c.2 + 1) else c.2).
Definition len128 (c : Z * Z) : list Z := [c.2; c.1].

Definition sha1_alg : hash_alg Z :=
  HashAlg 4 sha1_initial_hash_value sha1_Transform REVERSE32 0 add64 id len64.
Definition sha256_alg : hash_alg Z :=
  HashAlg 4 sha256_initial_hash_value sha256_Transform REVERSE32 0 add64 id len64.
Definition sha512_alg : hash_alg (Z * Z) :=
  HashAlg 8 sha512_initial_hash_value sha512_Transform REVERSE64 (0, 0) ADDINC128 fst len128.

Definition sha1_Init := hash_Init sha1_alg.
Definition sha1_Update := hash_Update sha1_alg.
Definition sha1_Final := hash_Final sha1_alg.
Definition sha1_Raw := hash_Raw sha1_alg.

Definition sha256_Init := hash_Init sha256_alg.
Definition sha256_Init_ex (st : list Z) (bc : Z) : hash_ctx Z := HashCtx st bc (replicate 64 0).
Definition sha256_Update := hash_Update sha256_alg.
Definition sha256_Final := hash_Final sha256_alg.
Definition sha256_Raw := hash_Raw sha256_alg.

Definition sha512_Init := hash_Init sha512_alg.
Definition sha512_Update := hash_Update sha512_alg.
Definition sha512_Last := hash_Last sha512_alg.
Definition sha512_Final := hash_Final sha512_alg.
Definition sha512_Raw := hash_Raw sha512_alg.

(** The hexadecimal digests of [sha1_End], [sha256_End] and [sha512_End]. *)
Definition sha2_hex_digits : list Z :=
  [48; 49; 50; 51; 52; 53; 54; 55; 56; 57; 97; 98; 99; 100; 101; 102].
Definition hex_string (digest : list Z) : list Z :=
  concat (map (fun d => [znth 0 sha2_hex_digits (Z.shiftr (d .& 0xf0) 4);
                         znth 0 sha2_hex_digits (d .& 0x0f)]) digest).
Definition sha1_End (ctx : hash_ctx Z) : list Z := hex_string (sha1_Final ctx).
Definition sha256_End (ctx : hash_ctx Z) : list Z := hex_string (sha256_Final ctx).
Definition sha512_End (ctx : hash_ctx (Z * Z)) : list Z := hex_string (sha512_Final ctx).
Definition sha1_Data (data : list Z) : list Z := sha1_End (sha1_Update sha1_Init data).
Definition sha256_Data (data : list Z) : list Z := sha256_End (sha256_Update sha256_Init data).
Definition sha512_Data (data : list Z) : list Z := sha512_End (sha512_Update sha512_Init data).

End Sha2.
