(* ===== verification/Sha2Spec.v ===== *)
(** * Correctness of SHA-1, SHA-256 and SHA-512

    The transforms with their ring buffers compute the message schedule and
    compression function of FIPS 180-4, the byte-order macros reverse the bytes of
    a word, and the hash functions compute the padded construction of
    [HashSpec.digest_of] for every way of feeding the message. *)

From stdpp Require Import base list numbers.
From Stdlib Require Import ZArith Lia.
From S2P Require Import Prelude Bits Hash HashSpec Sha2.
Local Open Scope fw_scope.

Module Sha2Spec.
Import Hash HashSpec Sha2.

(** ** Byte order *)

Lemma REVERSE32_spec a b c d : Forall is_byte [a; b; c; d] ->
  REVERSE32 (le_val [a; b; c; d]) = le_val [d; c; b; a].
Proof.
  intros Hb. inv_bytes. unfold REVERSE32, u32.
  change (wrap 32) with (wrap (8 * Z.of_nat 4)).
  change 0xff00ff00 with (le_val [0; 255; 0; 255]). change 0x00ff00ff with (le_val [255; 0; 255; 0]).
  change 16 with (8 * Z.of_nat 2). byte_shifts.
  rewrite <- (le_val_zeros [c; d] 2). cbn [replicate app]. byte_lors. byte_lands.
  change (Z.shiftr ?x 8) with (Z.shiftr x (8 * Z.of_nat 1)).
  change (Z.shiftl ?x 8) with (Z.shiftl x (8 * Z.of_nat 1)). byte_shifts.
  rewrite <- (le_val_zeros [d; 0; b] 1). cbn [replicate app]. by byte_lors.
Qed.

Lemma REVERSE64_spec a b c d e f g h : Forall is_byte [a; b; c; d; e; f; g; h] ->
  REVERSE64 (le_val [a; b; c; d; e; f; g; h]) = le_val [h; g; f; e; d; c; b; a].
Proof.
  intros Hb. inv_bytes. unfold REVERSE64, u64.
  change (wrap 64) with (wrap (8 * Z.of_nat 8)).
  change 0xff00ff00ff00ff00 with (le_val [0; 255; 0; 255; 0; 255; 0; 255]).
  change 0x00ff00ff00ff00ff with (le_val [255; 0; 255; 0; 255; 0; 255; 0]).
  change 0xffff0000ffff0000 with (le_val [0; 0; 255; 255; 0; 0; 255; 255]).
  change 0x0000ffff0000ffff with (le_val [255; 255; 0; 0; 255; 255; 0; 0]).
  change 32 with (8 * Z.of_nat 4). byte_shifts.
  rewrite <- (le_val_zeros [e; f; g; h] 4). cbn [replicate app]. byte_lors. byte_lands.
  change (Z.shiftr ?x 8) with (Z.shiftr x (8 * Z.of_nat 1)).
  change (Z.shiftl ?x 8) with (Z.shiftl x (8 * Z.of_nat 1)). byte_shifts.
  rewrite <- (le_val_zeros [f; 0; h; 0; b; 0; d] 1). cbn [replicate app]. byte_lors. byte_lands.
  change 16 with (8 * Z.of_nat 2). byte_shifts.
  rewrite <- (le_val_zeros [h; g; 0; 0; d; c] 2). cbn [replicate app]. by byte_lors.
Qed.

Lemma reverse32_law bs : length bs = 4%nat -> Forall is_byte bs -> REVERSE32 (le_val bs) = be_val bs.
Proof.
  intros Hl Hb. destruct bs as [|a [|b [|c [|d [|]]]]]; try done. by apply REVERSE32_spec.
Qed.

Lemma reverse64_law bs : length bs = 8%nat -> Forall is_byte bs -> REVERSE64 (le_val bs) = be_val bs.
Proof.
  intros Hl Hb. destruct bs as [|a [|b [|c [|d [|e [|f [|g [|h [|]]]]]]]]]; try done.
  by apply REVERSE64_spec.
Qed.

(** ** The length field *)

Lemma be_words_two wb k : be_words wb 2 (be_bytes (2 * wb) k)
  = [(k / 256 ^ Z.of_nat wb) mod 256 ^ Z.of_nat wb; k mod 256 ^ Z.of_nat wb].
Proof.
  unfold be_bytes. replace (2 * wb)%nat with (wb + wb)%nat by lia.
  rewrite le_bytes_add, rev_app_distr. cbn [be_words].
  rewrite take_app_length', drop_app_length' by (by rewrite length_rev, length_le_bytes).
  rewrite take_ge by (by rewrite length_rev, length_le_bytes).
  unfold be_val. by rewrite !rev_involutive, !le_val_bytes.
Qed.

Lemma len64_words k : 0 <= k < 2 ^ 64 -> len64 k = be_words 4 2 (be_bytes 8 k).
Proof.
  intros Hk. pose proof (be_words_two 4 k) as E. cbn [Nat.mul Nat.add] in E. rewrite E.
  unfold len64. change 0xffffffff with (Z.ones 32). rewrite Z.land_ones, Z.shiftr_div_pow2 by lia.
  change (256 ^ Z.of_nat 4) with (2 ^ 32).
  rewrite (Z.mod_small (k / _)); [done|]. change (2 ^ 64) with (2 ^ 32 * 2 ^ 32) in Hk.
  split; [apply Z.div_pos; lia|apply Z.div_lt_upper_bound; lia].
Qed.

Definition cnt64 (c k : Z) : Prop := c = k mod 2 ^ 64.

Lemma add64_cnt c k n : cnt64 c k -> cnt64 (add64 c n) (k + n).
Proof. unfold cnt64, add64, u64, wrap. intros ->. by rewrite Zplus_mod_idemp_l. Qed.

Definition cnt128 (c : Z * Z) (k : Z) : Prop :=
  0 <= c.1 < 2 ^ 64 /\ 0 <= c.2 < 2 ^ 64 /\ k = c.1 + 2 ^ 64 * c.2.

Lemma ADDINC128_cnt c k n : cnt128 c k -> 0 <= n < 2 ^ 64 -> k + n < 2 ^ 128 ->
  cnt128 (ADDINC128 c n) (k + n).
Proof.
  destruct c as [lo hi]. unfold cnt128, ADDINC128, u64, wrap. cbn [fst snd].
  intros (Hlo & Hhi & ->) Hn Hk. change (2 ^ 128) with (2 ^ 64 * 2 ^ 64) in Hk.
  destruct (Z.lt_ge_cases (lo + n) (2 ^ 64)).
  - rewrite Z.mod_small by lia. zif. lia.
  - replace ((lo + n) mod 2 ^ 64) with (lo + n - 2 ^ 64)
      by (apply (Z.mod_unique _ _ 1); lia).
    zif. rewrite (Z.mod_small (hi + 1)) by lia. lia.
Qed.

Lemma len64_cnt c k : cnt64 c k -> 0 <= k < 2 ^ 64 -> len64 c = be_words 4 2 (be_bytes 8 k).
Proof. unfold cnt64. intros -> Hk. rewrite Z.mod_small by done. by apply len64_words. Qed.

Lemma len128_cnt c k : cnt128 c k -> len128 c = be_words 8 2 (be_bytes 16 k).
Proof.
  destruct c as [lo hi]. unfold cnt128, len128. cbn [fst snd]. intros (Hlo & Hhi & ->).
  pose proof (be_words_two 8 (lo + 2 ^ 64 * hi)) as E. cbn [Nat.mul Nat.add] in E. rewrite E.
  change (256 ^ Z.of_nat 8) with (2 ^ 64).
  rewrite (Z.mul_comm _ hi), Z.div_add, Z.mod_add by lia.
  by rewrite (Z.div_small lo), Z.add_0_l, !Z.mod_small by lia.
Qed.

Lemma words_dec (b : Z) ws : forallb (fun x => (0 <=? x) && (x <? b)) ws = true ->
  Forall (fun x => 0 <= x < b) ws.
Proof.
  induction ws as [|x ws IH]; cbn [forallb]; intros H; zbool; constructor; [lia|auto].
Qed.

Lemma wrap_range w x : 0 <= w -> 0 <= wrap w x < 2 ^ w.
Proof. intros. apply Z.mod_pos_bound, Z.pow_pos_nonneg; lia. Qed.

Lemma sha2_words w S0 S1 s0 s1 K rounds st ws : 0 <= w ->
  Forall (fun x => 0 <= x < 2 ^ w) (sha2_Transform w S0 S1 s0 s1 K rounds st ws).
Proof.
  intros Hw. unfold sha2_Transform. destruct (sha2_load_loop _ _ _ _ _ _ _ _).
  repeat (apply Forall_cons_2; [by apply wrap_range|]). constructor.
Qed.

Lemma sha1_words st ws : Forall (fun x => 0 <= x < 2 ^ 32) (sha1_Transform st ws).
Proof.
  unfold sha1_Transform. destruct (sha1_load_loop _ _ _ _) as [W r].
  repeat match goal with |- context [sha1_expand_loop ?f ?k ?n ?j ?W ?r] =>
    destruct (sha1_expand_loop f k n j W r) end.
  repeat (apply Forall_cons_2; [by apply wrap_range|]). constructor.
Qed.

#[global] Instance sha1_laws : HashLaws sha1_alg (2 ^ 64).
Proof.
  refine {| hl_cnt := cnt64 |}; [done|done|apply reverse32_law|by apply words_dec|apply sha1_words|done|..].
  - intros. by apply add64_cnt.
  - by intros c k ->.
  - intros. by apply len64_cnt.
Defined.

#[global] Instance sha256_laws : HashLaws sha256_alg (2 ^ 64).
Proof.
  refine {| hl_cnt := cnt64 |}; [done|done|apply reverse32_law|by apply words_dec|intros; by apply (sha2_words 32)|done|..].
  - intros. by apply add64_cnt.
  - by intros c k ->.
  - intros. by apply len64_cnt.
Defined.

#[global] Instance sha512_laws : HashLaws sha512_alg (2 ^ 128).
Proof.
  refine {| hl_cnt := cnt128 |}; [done|done|apply reverse64_law|by apply words_dec|intros; by apply (sha2_words 64)|done|..].
  - intros c k n Hc Hn Hk Hl. change (Z.of_nat (block_len sha512_alg)) with 128 in Hn.
    apply ADDINC128_cnt; [done|lia|done].
  - intros [lo hi] k (Hlo & Hhi & ->) Hk. cbn [ha_low sha512_alg fst snd] in *.
    rewrite (Z.mul_comm _ hi), Z.mod_add, Z.mod_small by lia. done.
  - intros. by apply len128_cnt.
Defined.

(** ** The message schedule

    [step g] computes the next word [W_t] of the schedule from the previous
    sixteen, [g i] being [W_(t-16+i)]. *)

Section Schedule.
Context (step : (Z -> Z) -> Z).

Definition next_W (ws : list Z) : Z := step (fun i => znth 0 ws (zlen ws - 16 + i)).

(** The next [n] words after [ws]. *)
Fixpoint schedule (n : nat) (ws : list Z) : list Z :=
  match n with
  | O => []
  | S n => next_W ws :: schedule n (ws ++ [next_W ws])
  end.

Lemma schedule_add m : forall n ws,
  schedule (m + n) ws = schedule m ws ++ schedule n (ws ++ schedule m ws).
Proof.
  induction m as [|m IH]; intros n ws; cbn [Nat.add schedule app]; [by rewrite app_nil_r|].
  by rewrite IH, <- app_assoc.
Qed.

Lemma length_schedule n ws : length (schedule n ws) = n.
Proof. revert ws; induction n; intros; cbn [schedule length]; auto. Qed.

End Schedule.

(** The ring buffer holds the last sixteen words of the schedule. *)
Definition ring_ok (W ws : list Z) : Prop :=
  zlen W = 16 /\ forall i, 0 <= i < 16 ->
    znth 0 W ((zlen ws + i) .& 0x0f) = znth 0 ws (zlen ws - 16 + i).

Lemma land_0f x : x .& 0x0f = x mod 16.
Proof. change 0x0f with (Z.ones 4). by rewrite Z.land_ones by lia. Qed.

Lemma znth_app_l {A} (d : A) l k i : i < zlen l -> znth d (l ++ k) i = znth d l i.
Proof.
  intros H. unfold znth. destruct (Z.ltb_spec i 0); [done|]. apply app_nth1. unfold zlen in H. lia.
Qed.

Lemma znth_snoc {A} (d : A) l x : znth d (l ++ [x]) (zlen l) = x.
Proof.
  unfold znth, zlen. zif. rewrite Nat2Z.id, app_nth2 by lia. by rewrite Nat.sub_diag.
Qed.

Lemma ring_push W ws x : ring_ok W ws -> ring_ok (zupd W (zlen ws .& 0x0f) x) (ws ++ [x]).
Proof.
  intros [HW H]. split; [by rewrite zlen_zupd|]. intros i Hi.
  assert (E : zlen (ws ++ [x]) = zlen ws + (1 + 0)) by zlen. rewrite E, !land_0f.
  replace (zlen ws + (1 + 0) - 16 + i) with (zlen ws - 15 + i) by lia.
  destruct (Z.eq_dec i 15) as [->|].
  - replace ((zlen ws + (1 + 0) + 15) mod 16) with (zlen ws mod 16) by zlia.
    rewrite znth_zupd_eq by zlia. replace (zlen ws - 15 + 15) with (zlen ws) by lia.
    symmetry. apply znth_snoc.
  - rewrite znth_zupd_ne by zlia. rewrite znth_app_l by lia.
    replace (zlen ws + (1 + 0) + i) with (zlen ws + (i + 1)) by lia.
    rewrite <- land_0f, H by lia. f_equal. lia.
Qed.

(** A freshly loaded block. *)
Lemma ring_block data : zlen data = 16 -> ring_ok data data.
Proof.
  intros H. split; [done|]. intros i Hi. rewrite H, land_0f. f_equal. zlia.
Qed.

(** ** SHA-2 *)

Section Sha2Transform.
Context (w : Z) (Sigma0 Sigma1 sigma0 sigma1 : Z -> Z) (K : list Z).

(** [W_t = sigma1(W_(t-2)) + W_(t-7) + sigma0(W_(t-15)) + W_(t-16)] *)
Definition sha2_step (g : Z -> Z) : Z := wrap w (sigma1 (g 14) + g 9 + sigma0 (g 1) + g 0).

(** The compression steps for the words [ws] from step [t] on. *)
Fixpoint sha2_rounds (ws : list Z) (t : Z) (r : regs) : regs :=
  match ws with
  | [] => r
  | x :: ws => sha2_rounds ws (t + 1) (sha2_round w Sigma0 Sigma1 (znth 0 K t) x r)
  end.

Lemma sha2_rounds_app xs : forall ys t r,
  sha2_rounds (xs ++ ys) t r = sha2_rounds ys (t + zlen xs) (sha2_rounds xs t r).
Proof.
  induction xs as [|x xs IH]; intros; cbn [app sha2_rounds]; [by rewrite Z.add_0_r|].
  rewrite IH, zlen_cons. f_equal. lia.
Qed.

Lemma sha2_load_eq data : forall p old r, length old = length data ->
  sha2_load_loop w Sigma0 Sigma1 K data (zlen p) (p ++ old) r
  = (p ++ data, sha2_rounds data (zlen p) r).
Proof.
  induction data as [|x data IH]; intros p old r Hl; destruct old as [|y old]; try done.
  cbn [sha2_load_loop sha2_rounds]. injection Hl as Hl.
  assert (E : zupd (p ++ y :: old) (zlen p) x = (p ++ [x]) ++ old).
  { unfold zupd, zlen. zif. rewrite Nat2Z.id, insert_app_r_alt, Nat.sub_diag by lia.
    by rewrite <- app_assoc. }
  rewrite E. replace (zlen p + 1) with (zlen (p ++ [x])) by zlen. rewrite IH by done.
  by rewrite <- app_assoc.
Qed.

Lemma sha2_expand_eq n : forall W ws r, ring_ok W ws ->
  sha2_expand_loop w Sigma0 Sigma1 sigma0 sigma1 K n (zlen ws) W r
  = sha2_rounds (schedule sha2_step n ws) (zlen ws) r.
Proof.
  induction n as [|n IH]; intros W ws r R; [done|].
  cbn [sha2_expand_loop schedule sha2_rounds].
  assert (E : wrap w (znth 0 W (zlen ws .& 15) + (sigma1 (znth 0 W ((zlen ws + 14) .& 15))
    + znth 0 W ((zlen ws + 9) .& 15) + sigma0 (znth 0 W ((zlen ws + 1) .& 15)))) = next_W sha2_step ws).
  { pose proof (proj2 R) as H. pose proof (H 0 ltac:(lia)) as H0. rewrite Z.add_0_r in H0.
    unfold next_W, sha2_step. rewrite H0, !H by lia. f_equal. lia. }
  rewrite E. replace (zlen ws + 1) with (zlen (ws ++ [next_W sha2_step ws])) by zlen.
  rewrite IH by (by apply ring_push). done.
Qed.

Definition regs_of (st : list Z) : regs :=
  let s i := znth 0 st i in Regs (s 0) (s 1) (s 2) (s 3) (s 4) (s 5) (s 6) (s 7).
Definition regs_list (r : regs) : list Z := [ra r; rb r; rc r; rd r; re r; rf r; rg r; rh r].

(** The FIPS compression function: [n] words of schedule from the block. *)
Definition fips_compress (rounds : nat) (st block : list Z) : list Z :=
  let ws := block ++ schedule sha2_step (rounds - 16) block in
  zip_with (fun x y => wrap w (x + y)) (regs_list (regs_of st))
    (regs_list (sha2_rounds ws 0 (regs_of st))).

Lemma sha2_Transform_fips rounds st block : length block = 16%nat ->
  sha2_Transform w Sigma0 Sigma1 sigma0 sigma1 K rounds st block = fips_compress rounds st block.
Proof.
  intros Hl. unfold sha2_Transform, fips_compress. rewrite take_ge by lia.
  pose proof (sha2_load_eq block [] (zrep 16 0)) as E. cbn [app] in E.
  change (zlen []) with 0 in E. cbn zeta. rewrite E by (unfold zrep; rewrite length_replicate; lia).
  assert (Hz : zlen block = 16) by (unfold zlen; lia).
  pose proof (fun r => sha2_expand_eq (rounds - 16) block block r (ring_block _ Hz)) as E2.
  rewrite Hz in E2. rewrite E2, sha2_rounds_app, Hz. done.
Qed.

End Sha2Transform.

(** ** SHA-1 *)

(** [W_t = ROTL(1, W_(t-3) xor W_(t-8) xor W_(t-14) xor W_(t-16))] *)
Definition sha1_step (g : Z -> Z) : Z := ROTL32 1 (g 13 .^ g 8 .^ g 2 .^ g 0).

(** The function and the constant of step [t]. *)
Definition sha1_f (t : Z) : Z -> Z -> Z -> Z :=
  if t <? 20 then Ch else if t <? 40 then Parity else if t <? 60 then Maj else Parity.
Definition sha1_K (t : Z) : Z :=
  if t <? 20 then K1_0_TO_19 else if t <? 40 then K1_20_TO_39
  else if t <? 60 then K1_40_TO_59 else K1_60_TO_79.

Fixpoint sha1_rounds (ws : list Z) (t : Z) (r : regs1) : regs1 :=
  match ws with
  | [] => r
  | x :: ws => sha1_rounds ws (t + 1) (sha1_round (sha1_f t) (sha1_K t) x r)
  end.

Definition fips_sha1_compress (st block : list Z) : list Z :=
  let s i := znth 0 st i in
  let r := sha1_rounds (block ++ schedule sha1_step 64 block) 0 (Regs1 (s 0) (s 1) (s 2) (s 3) (s 4)) in
  zip_with (fun x y => u32 (x + y)) [s 0; s 1; s 2; s 3; s 4] [qa r; qb r; qc r; qd r; qe r].

Lemma sha1_rounds_app xs : forall ys t r,
  sha1_rounds (xs ++ ys) t r = sha1_rounds ys (t + zlen xs) (sha1_rounds xs t r).
Proof.
  induction xs as [|x xs IH]; intros; cbn [app sha1_rounds]; [by rewrite Z.add_0_r|].
  rewrite IH, zlen_cons. f_equal. lia.
Qed.

Lemma sha1_load_eq data : forall p old r, length old = length data -> zlen p + zlen data <= 20 ->
  sha1_load_loop data (zlen p) (p ++ old) r = (p ++ data, sha1_rounds data (zlen p) r).
Proof.
  induction data as [|x data IH]; intros p old r Hl Hp; destruct old as [|y old]; try done.
  cbn [sha1_load_loop sha1_rounds]. injection Hl as Hl. rewrite zlen_cons in Hp.
  pose proof (zlen_nonneg data). unfold sha1_f, sha1_K. zif.
  assert (E : zupd (p ++ y :: old) (zlen p) x = (p ++ [x]) ++ old).
  { unfold zupd, zlen. zif. rewrite Nat2Z.id, insert_app_r_alt, Nat.sub_diag by lia.
    by rewrite <- app_assoc. }
  rewrite E. replace (zlen p + 1) with (zlen (p ++ [x])) by zlen.
  rewrite IH by (done || zlen). by rewrite <- app_assoc.
Qed.

(** One of the four loops, over steps that share the function and constant. *)
Lemma sha1_expand_eq f k n : forall W ws r, ring_ok W ws ->
  (forall t, zlen ws <= t < zlen ws + Z.of_nat n -> sha1_f t = f /\ sha1_K t = k) ->
  exists W', ring_ok W' (ws ++ schedule sha1_step n ws) /\
    sha1_expand_loop f k n (zlen ws) W r
    = (W', sha1_rounds (schedule sha1_step n ws) (zlen ws) r).
Proof.
  induction n as [|n IH]; intros W ws r R Hf.
  { exists W. cbn [schedule sha1_expand_loop sha1_rounds]. by rewrite app_nil_r. }
  cbn [sha1_expand_loop schedule sha1_rounds].
  assert (E : ROTL32 1 (znth 0 W ((zlen ws + 13) .& 15) .^ znth 0 W ((zlen ws + 8) .& 15)
    .^ znth 0 W ((zlen ws + 2) .& 15) .^ znth 0 W (zlen ws .& 15)) = next_W sha1_step ws).
  { pose proof (proj2 R) as H. pose proof (H 0 ltac:(lia)) as H0. rewrite Z.add_0_r in H0.
    unfold next_W, sha1_step. by rewrite H0, !H by lia. }
  rewrite E. destruct (Hf (zlen ws)) as [-> ->]; [lia|].
  set (x := next_W sha1_step ws). assert (Hz : zlen ws + 1 = zlen (ws ++ [x])) by zlen.
  rewrite Hz.
  destruct (IH (zupd W (zlen ws .& 15) x) (ws ++ [x]) (sha1_round f k x r)) as (W' & R' & E').
  - by apply ring_push.
  - intros t Ht. apply Hf. lia.
  - exists W'. split; [|done]. by rewrite <- app_assoc in R'.
Qed.

Lemma sha1_phases t :
  (t < 20 -> sha1_f t = Ch /\ sha1_K t = K1_0_TO_19) /\
  (20 <= t < 40 -> sha1_f t = Parity /\ sha1_K t = K1_20_TO_39) /\
  (40 <= t < 60 -> sha1_f t = Maj /\ sha1_K t = K1_40_TO_59) /\
  (60 <= t -> sha1_f t = Parity /\ sha1_K t = K1_60_TO_79).
Proof. unfold sha1_f, sha1_K. repeat split; intros; zif; reflexivity. Qed.

Lemma sha1_Transform_fips st block : length block = 16%nat ->
  sha1_Transform st block = fips_sha1_compress st block.
Proof.
  intros Hl. assert (Hz : zlen block = 16) by (unfold zlen; lia).
  unfold sha1_Transform, fips_sha1_compress. rewrite take_ge by lia. cbn zeta.
  set (r0 := Regs1 _ _ _ _ _).
  pose proof (sha1_load_eq block [] (zrep 16 0)) as E. cbn [app] in E.
  change (zlen []) with 0 in E. rewrite E by (lia || (unfold zrep; rewrite length_replicate; lia)).
  pose (G := fun n ws => zlen_app ws (schedule sha1_step n ws)).
  assert (L : forall n ws, zlen (schedule sha1_step n ws) = Z.of_nat n)
    by (intros; unfold zlen; by rewrite length_schedule).
  pose proof (ring_block block Hz) as R0.
  set (b1 := block ++ schedule sha1_step 4 block).
  set (b2 := b1 ++ schedule sha1_step 20 b1). set (b3 := b2 ++ schedule sha1_step 20 b2).
  assert (Z1 : zlen b1 = 20) by (unfold b1; rewrite G, L; lia).
  assert (Z2 : zlen b2 = 40) by (unfold b2; rewrite G, L; lia).
  assert (Z3 : zlen b3 = 60) by (unfold b3; rewrite G, L; lia).
  destruct (sha1_expand_eq Ch K1_0_TO_19 4 block block (sha1_rounds block 0 r0)) as (W1 & R1 & E1);
    [assumption|intros t Ht; apply sha1_phases; lia|]. rewrite Hz in E1. rewrite E1.
  destruct (sha1_expand_eq Parity K1_20_TO_39 20 W1 b1
    (sha1_rounds (schedule sha1_step 4 block) 16 (sha1_rounds block 0 r0))) as (W2 & R2 & E2);
    [assumption|intros t Ht; apply sha1_phases; lia|]. rewrite Z1 in E2. rewrite E2.
  match goal with |- context [sha1_expand_loop Maj _ _ _ _ ?r] =>
    destruct (sha1_expand_eq Maj K1_40_TO_59 20 W2 b2 r) as (W3 & R3 & E3);
    [assumption|intros t Ht; apply sha1_phases; lia|] end. rewrite Z2 in E3. rewrite E3.
  match goal with |- context [sha1_expand_loop Parity _ _ _ _ ?r] =>
    destruct (sha1_expand_eq Parity K1_60_TO_79 20 W3 b3 r) as (W4 & R4 & E4);
    [assumption|intros t Ht; apply sha1_phases; lia|] end. rewrite Z3 in E4. rewrite E4.
  change 64%nat with (4 + (20 + (20 + 20)))%nat. rewrite !schedule_add.
  fold b1. fold b2. fold b3. rewrite !sha1_rounds_app, !L, Hz. done.
Qed.

(** ** The hash functions of FIPS 180-4 *)

Definition fips_sha1 (msg : list Z) : list Z :=
  digest_of (HashAlg 4 sha1_initial_hash_value fips_sha1_compress id 0 Z.add id (fun _ => [])) msg.
Definition fips_sha256 (msg : list Z) : list Z :=
  digest_of (HashAlg 4 sha256_initial_hash_value
    (fips_compress 32 Sigma0_256 Sigma1_256 sigma0_256 sigma1_256 K256 64) id 0 Z.add id (fun _ => []))
    msg.
Definition fips_sha512 (msg : list Z) : list Z :=
  digest_of (HashAlg 8 sha512_initial_hash_value
    (fips_compress 64 Sigma0_512 Sigma1_512 sigma0_512 sigma1_512 K512 80) id 0 Z.add id (fun _ => []))
    msg.

Lemma absorb_ext {C D} (A : hash_alg C) (A' : hash_alg D) n : ha_wb A = ha_wb A' ->
  (forall st ws, length ws = 16%nat -> ha_transform A st ws = ha_transform A' st ws) ->
  forall st msg, absorb A n st msg = absorb A' n st msg.
Proof.
  intros Hw Ht. induction n as [|n IH]; intros st msg; [done|]. cbn [absorb].
  unfold block_len. rewrite <- Hw, Ht by apply length_be_words. apply IH.
Qed.

Lemma digest_ext {C D} (A : hash_alg C) (A' : hash_alg D) msg : ha_wb A = ha_wb A' ->
  ha_init A = ha_init A' ->
  (forall st ws, length ws = 16%nat -> ha_transform A st ws = ha_transform A' st ws) ->
  digest_of A msg = digest_of A' msg.
Proof.
  intros Hw Hi Ht. unfold digest_of, final_state, padded, pad_zeros, block_len.
  rewrite Hw, Hi. f_equal. f_equal. by apply absorb_ext.
Qed.

Lemma sha256_digest msg : digest_of sha256_alg msg = fips_sha256 msg.
Proof. apply digest_ext; [done|done|]. intros. by apply sha2_Transform_fips. Qed.

Lemma sha512_digest msg : digest_of sha512_alg msg = fips_sha512 msg.
Proof. apply digest_ext; [done|done|]. intros. by apply sha2_Transform_fips. Qed.

Lemma sha1_digest msg : digest_of sha1_alg msg = fips_sha1 msg.
Proof. apply digest_ext; [done|done|]. intros. by apply sha1_Transform_fips. Qed.

Lemma length_digest {C} (A : hash_alg C) msg n :
  length (ha_init A) = n -> (forall st ws, length (ha_transform A st ws) = n) ->
  length (digest_of A msg) = (n * ha_wb A)%nat.
Proof.
  intros Hi Ht. unfold digest_of, final_state.
  assert (H : forall m st msg, length st = n -> length (absorb A m st msg) = n)
    by (induction m; intros; cbn [absorb]; auto).
  set (st := absorb _ _ _ _). assert (E : length st = n) by (by apply H). rewrite <- E. clear.
  induction st as [|x st IH]; [done|]. cbn [map concat length]. rewrite length_app, IH, length_be_bytes. lia.
Qed.

(** SHA-256 is correct for every way of feeding the message: any sequence of
    [sha256_Update] calls on byte strings of less than 2^61 bytes in total, between
    [sha256_Init] and [sha256_Final], yields the FIPS 180-4 digest of their
    concatenation. *)
Theorem sha256_stream_correct chunks :
  Forall (Forall is_byte) chunks -> 8 * zlen (concat chunks) < 2 ^ 64 ->
  sha256_Final (fold_left sha256_Update chunks sha256_Init) = fips_sha256 (concat chunks).
Proof. intros Hb Hl. rewrite <- sha256_digest. by apply hash_stream with (limit := 2 ^ 64) (L := sha256_laws). Qed.

Lemma sha256_stream_correct_witness :
  sha256_Final (sha256_Update (sha256_Update sha256_Init [97]) [98; 99]) = fips_sha256 [97; 98; 99].
Proof.
  apply (sha256_stream_correct [[97]; [98; 99]]).
  - repeat (apply Forall_cons_2; [repeat (apply Forall_cons_2; [unfold is_byte; lia|]); apply Forall_nil_2|]).
    apply Forall_nil_2.
  - reflexivity.
Defined.

(** SHA-512 is correct for every way of feeding the message, with its 128-bit
    count of the message bits. *)
Theorem sha512_stream_correct chunks :
  Forall (Forall is_byte) chunks -> 8 * zlen (concat chunks) < 2 ^ 128 ->
  sha512_Final (fold_left sha512_Update chunks sha512_Init) = fips_sha512 (concat chunks).
Proof. intros Hb Hl. rewrite <- sha512_digest. by apply hash_stream with (limit := 2 ^ 128) (L := sha512_laws). Qed.

Lemma sha512_stream_correct_witness :
  sha512_Final (sha512_Update (sha512_Update sha512_Init [97]) [98; 99]) = fips_sha512 [97; 98; 99].
Proof.
  apply (sha512_stream_correct [[97]; [98; 99]]).
  - repeat (apply Forall_cons_2; [repeat (apply Forall_cons_2; [unfold is_byte; lia|]); apply Forall_nil_2|]).
    apply Forall_nil_2.
  - reflexivity.
Defined.

(** SHA-1 is correct for every way of feeding the message. *)
Theorem sha1_stream_correct chunks :
  Forall (Forall is_byte) chunks -> 8 * zlen (concat chunks) < 2 ^ 64 ->
  sha1_Final (fold_left sha1_Update chunks sha1_Init) = fips_sha1 (concat chunks).
Proof. intros Hb Hl. rewrite <- sha1_digest. by apply hash_stream with (limit := 2 ^ 64) (L := sha1_laws). Qed.

Lemma sha1_stream_correct_witness :
  sha1_Final (sha1_Update (sha1_Update sha1_Init [97]) [98; 99]) = fips_sha1 [97; 98; 99].
Proof.
  apply (sha1_stream_correct [[97]; [98; 99]]).
  - repeat (apply Forall_cons_2; [repeat (apply Forall_cons_2; [unfold is_byte; lia|]); apply Forall_nil_2|]).
    apply Forall_nil_2.
  - reflexivity.
Defined.

End Sha2Spec.
