(* ===== verification/Hmac.v ===== *)
(** * HMAC and PBKDF2: [crypto/hmac.c] and [crypto/pbkdf2.c]

    The SHA-256 and SHA-512 versions are the same code over another hash
    function; both are instances of the section below. *)

From stdpp Require Import base list numbers.
From Stdlib Require Import ZArith Lia.
From S2P Require Import Prelude Hash Sha2.
Local Open Scope fw_scope.

Module Hmac.
Import Hash Sha2.

Record hmac_ctx (C : Type) := HmacCtx { hc_ctx : hash_ctx C; o_key_pad : list Z }.
Arguments HmacCtx {C}. Arguments hc_ctx {C}. Arguments o_key_pad {C}.

Record pbkdf2_ctx := Pbkdf2Ctx {
  odig : list Z; idig : list Z; pf : list Z; pg : list Z; first : Z }.

Section Hmac.
Context {C : Type} (A : hash_alg C).
(** The pad bytes repeated over a word, the first padding word, and the number of
    words of a digest. *)
Context (opad_word ipad_word pad_word : Z) (digest_words : nat).

(** The key, hashed when it is longer than a block, in a zeroed block. *)
Definition key_block (key : list Z) : list Z :=
  memcpy (replicate (block_len A) 0) 0
    (if (block_len A <? length key)%nat then hash_Raw A key else key).

Definition hmac_Init (key : list Z) : hmac_ctx C :=
  let i_key_pad := key_block key in
  let o := map (fun b => b .^ 0x5c) i_key_pad in
  let i_key_pad := map (fun b => b .^ 0x36) i_key_pad in
  HmacCtx (hash_Update A (hash_Init A) i_key_pad) o.

Definition hmac_Update (hctx : hmac_ctx C) (msg : list Z) : hmac_ctx C :=
  HmacCtx (hash_Update A (hc_ctx hctx) msg) (o_key_pad hctx).

Definition hmac_Final (hctx : hmac_ctx C) : list Z :=
  let hmac := hash_Final A (hc_ctx hctx) in
  let ctx := hash_Update A (hash_Init A) (o_key_pad hctx) in
  let ctx := hash_Update A ctx hmac in
  hash_Final A ctx.

Definition hmac (key msg : list Z) : list Z := hmac_Final (hmac_Update (hmac_Init key) msg).

(** The digests of the padded keys: outer, inner. *)
Definition hmac_prepare (key : list Z) : list Z * list Z :=
  let key_pad := words_of (ha_wb A) 16 (key_block key) in
  let key_pad := map (fun x => ha_reverse A x .^ opad_word) key_pad in
  let opad_digest := ha_transform A (ha_init A) key_pad in
  let key_pad := map (fun x => x .^ opad_word .^ ipad_word) key_pad in
  let ipad_digest := ha_transform A (ha_init A) key_pad in
  (opad_digest, ipad_digest).

(** ** PBKDF2 *)

(** Replace the first words of [g] by a transform's output. *)
Definition set_words (g st : list Z) : list Z := memcpy g 0 st.

Definition pbkdf2_Init (pass salt : list Z) (blocknr : Z) : pbkdf2_ctx :=
  let blocknr := REVERSE32 blocknr in
  let '(odig, idig) := hmac_prepare pass in
  let g := replicate 16 0 in
  let g := zupd g 8 pad_word in
  let g := zupd g 15 ((Z.of_nat (block_len A) + Z.of_nat (digest_words * ha_wb A)) * 8) in
  let ctx := HashCtx idig (ha_inc A (ha_zero A) (Z.of_nat (block_len A) * 8))
               (replicate (block_len A) 0) in
  let ctx := hash_Update A ctx salt in
  let ctx := hash_Update A ctx (le_bytes 4 blocknr) in
  let g := set_words g (words_of (ha_wb A) digest_words (hash_Final A ctx)) in
  let g := memcpy g 0 (map (ha_reverse A) (take digest_words g)) in
  let g := set_words g (ha_transform A odig g) in
  Pbkdf2Ctx odig idig (take digest_words g) g 1.

(** The loop body: two transforms and the accumulation. *)
Definition pbkdf2_step (p : pbkdf2_ctx) : pbkdf2_ctx :=
  let g := set_words (pg p) (ha_transform A (idig p) (pg p)) in
  let g := set_words g (ha_transform A (odig p) g) in
  Pbkdf2Ctx (odig p) (idig p) (zip_with Z.lxor (pf p) (take digest_words g)) g (first p).

Definition pbkdf2_Update (p : pbkdf2_ctx) (iterations : Z) : pbkdf2_ctx :=
  let p := Nat.iter (Z.to_nat (iterations - first p)) pbkdf2_step p in
  Pbkdf2Ctx (odig p) (idig p) (pf p) (pg p) 0.

Definition pbkdf2_Final (p : pbkdf2_ctx) : list Z :=
  bytes_of (ha_wb A) (map (ha_reverse A) (pf p)).

(** The blocks of the derived key; the last one may be cut. *)
Fixpoint pbkdf2_blocks (pass salt : list Z) (iterations : Z) (n : nat) (blocknr blocks_count : Z)
    (last_block_size : nat) : list Z :=
  match n with
  | O => []
  | S n =>
      let digest := pbkdf2_Final (pbkdf2_Update (pbkdf2_Init pass salt blocknr) iterations) in
      (if blocknr <? blocks_count then digest else take last_block_size digest)
        ++ pbkdf2_blocks pass salt iterations n (blocknr + 1) blocks_count last_block_size
  end.

Definition pbkdf2 (pass salt : list Z) (iterations : Z) (keylen : nat) : list Z :=
  let dlen := (digest_words * ha_wb A)%nat in
  let last_block_size := (keylen mod dlen)%nat in
  let blocks_count := (keylen / dlen)%nat in
  let '(blocks_count, last_block_size) :=
    if (last_block_size =? 0)%nat then (blocks_count, dlen)
    else (S blocks_count, last_block_size) in
  pbkdf2_blocks pass salt iterations blocks_count 1 (Z.of_nat blocks_count) last_block_size.

End Hmac.

Definition hmac_sha256_Init := hmac_Init sha256_alg.
Definition hmac_sha256_Update := hmac_Update sha256_alg.
Definition hmac_sha256_Final := hmac_Final sha256_alg.
Definition hmac_sha256 := hmac sha256_alg.
Definition hmac_sha256_prepare := hmac_prepare sha256_alg 0x5c5c5c5c 0x36363636.

Definition hmac_sha512_Init := hmac_Init sha512_alg.
Definition hmac_sha512_Update := hmac_Update sha512_alg.
Definition hmac_sha512_Final := hmac_Final sha512_alg.
Definition hmac_sha512 := hmac sha512_alg.
Definition hmac_sha512_prepare := hmac_prepare sha512_alg 0x5c5c5c5c5c5c5c5c 0x3636363636363636.

Definition pbkdf2_hmac_sha256_Init :=
  pbkdf2_Init sha256_alg 0x5c5c5c5c 0x36363636 0x80000000 8.
Definition pbkdf2_hmac_sha256_Update := pbkdf2_Update sha256_alg 8.
Definition pbkdf2_hmac_sha256_Final := pbkdf2_Final sha256_alg.
Definition pbkdf2_hmac_sha256 := pbkdf2 sha256_alg 0x5c5c5c5c 0x36363636 0x80000000 8.

Definition pbkdf2_hmac_sha512_Init :=
  pbkdf2_Init sha512_alg 0x5c5c5c5c5c5c5c5c 0x3636363636363636 0x8000000000000000 8.
Definition pbkdf2_hmac_sha512_Update := pbkdf2_Update sha512_alg 8.
Definition pbkdf2_hmac_sha512_Final := pbkdf2_Final sha512_alg.
Definition pbkdf2_hmac_sha512 :=
  pbkdf2 sha512_alg 0x5c5c5c5c5c5c5c5c 0x3636363636363636 0x8000000000000000 8.

End Hmac.
