(* ===== verification/HmacSpec.v ===== *)
(** * Correctness of HMAC and PBKDF2

    [hmac] computes RFC 2104; the precomputed pad digests of [hmac_prepare] stand
    for the two padded keys; PBKDF2, which runs on raw transforms over a
    precomputed padding, computes RFC 8018, and its [Update] can be split. *)

From stdpp Require Import base list numbers.
From Stdlib Require Import ZArith Lia.
From S2P Require Import Prelude Bits Hash HashSpec Sha2 Sha2Spec Hmac.
Local Open Scope fw_scope.

Module HmacSpec.
Import Hash HashSpec Sha2 Sha2Spec Hmac.

Lemma zip_with_rev {X Y Z'} (f : X -> Y -> Z') xs : forall ys, length xs = length ys ->
  rev (zip_with f xs ys) = zip_with f (rev xs) (rev ys).
Proof.
  induction xs as [|x xs IH]; intros [|y ys] Hl; try done. cbn [zip_with rev].
  injection Hl as Hl. rewrite IH, zip_with_app by (rewrite ?length_rev; done). done.
Qed.

(** ** Parameters of the two instances *)

Class HmacParams {C : Type} (A : hash_alg C) (limit opw ipw pw : Z) := {
  hp_laws :: HashLaws A limit;
  hp_wb : (4 <= ha_wb A)%nat;
  hp_opw : opw = le_val (replicate (ha_wb A) 0x5c);
  hp_ipw : ipw = le_val (replicate (ha_wb A) 0x36);
  hp_pw : be_words (ha_wb A) 8 (0x80 :: replicate (6 * ha_wb A - 1) 0
             ++ be_bytes (2 * ha_wb A) (8 * Z.of_nat (24 * ha_wb A)))
          = [pw; 0; 0; 0; 0; 0; 0; Z.of_nat (24 * ha_wb A) * 8];
  hp_transform : forall st ws, length (ha_transform A st ws) = 8%nat;
  hp_init : length (ha_init A) = 8%nat;
}.

#[global] Instance sha256_params : HmacParams sha256_alg (2 ^ 64) 0x5c5c5c5c 0x36363636 0x80000000.
Proof.
  refine {| hp_laws := sha256_laws |}; [cbn; lia|reflexivity..| |reflexivity].
  intros st ws. unfold ha_transform, sha256_alg, sha256_Transform, sha2_Transform.
  by destruct (sha2_load_loop _ _ _ _ _ _ _ _).
Defined.

#[global] Instance sha512_params :
  HmacParams sha512_alg (2 ^ 128) 0x5c5c5c5c5c5c5c5c 0x3636363636363636 0x8000000000000000.
Proof.
  refine {| hp_laws := sha512_laws |}; [cbn; lia|reflexivity..| |reflexivity].
  intros st ws. unfold ha_transform, sha512_alg, sha512_Transform, sha2_Transform.
  by destruct (sha2_load_loop _ _ _ _ _ _ _ _).
Defined.

Definition xor_with (c : Z) (bs : list Z) : list Z := map (fun b => Z.lxor b c) bs.

Lemma xor_with_bytes c bs : is_byte c -> Forall is_byte bs -> Forall is_byte (xor_with c bs).
Proof. intros Hc. unfold xor_with. induction 1; cbn [map]; constructor; [by apply is_byte_lxor|done]. Qed.

Lemma length_xor_with c bs : length (xor_with c bs) = length bs.
Proof. apply length_map. Qed.

Lemma zip_with_const c bs n : length bs = n ->
  zip_with Z.lxor bs (replicate n c) = xor_with c bs.
Proof. intros <-. induction bs; cbn; [done|]. by rewrite IHbs. Qed.

(** RFC 2104 over a hash function [H] with blocks of [B] bytes. *)
Definition hmac_key (H : list Z -> list Z) (B : nat) (key : list Z) : list Z :=
  let k := if (B <? length key)%nat then H key else key in
  k ++ replicate (B - length k) 0.
Definition rfc2104 (H : list Z -> list Z) (B : nat) (key msg : list Z) : list Z :=
  H (xor_with 0x5c (hmac_key H B key) ++ H (xor_with 0x36 (hmac_key H B key) ++ msg)).

(** RFC 8018 over a pseudorandom function: [F] is [U_1 xor ... xor U_c], and the
    derived key is the first [keylen] bytes of the concatenated blocks. *)
Fixpoint F_loop (prf : list Z -> list Z) (n : nat) (u acc : list Z) : list Z :=
  match n with
  | O => acc
  | S n => let u' := prf u in F_loop prf n u' (zip_with Z.lxor acc u')
  end.
Definition rfc8018_F (prf : list Z -> list Z) (salt : list Z) (c : nat) (i : Z) : list Z :=
  let u := prf (salt ++ be_bytes 4 i) in F_loop prf (c - 1) u u.
Definition rfc8018 (prf : list Z -> list Z) (salt : list Z) (c keylen : nat) : list Z :=
  take keylen (concat (map (fun i => rfc8018_F prf salt c (Z.of_nat i)) (seq 1 keylen))).

Lemma hmac_ext H H' B key msg : (forall m, H m = H' m) -> rfc2104 H B key msg = rfc2104 H' B key msg.
Proof. intros E. unfold rfc2104, hmac_key. by rewrite !E. Qed.

Lemma F_ext prf prf' salt c i : (forall m, prf m = prf' m) ->
  rfc8018_F prf salt c i = rfc8018_F prf' salt c i.
Proof.
  intros E. unfold rfc8018_F. rewrite E. generalize (prf' (salt ++ be_bytes 4 i)) as u. intros u.
  generalize u at 2 4. revert u. induction (c - 1)%nat as [|n IH]; intros u acc; [done|].
  cbn [F_loop]. by rewrite E.
Qed.

Lemma rfc8018_ext prf prf' salt c keylen : (forall m, prf m = prf' m) ->
  rfc8018 prf salt c keylen = rfc8018 prf' salt c keylen.
Proof.
  intros E. unfold rfc8018. f_equal. f_equal. apply map_ext. intros. by apply F_ext.
Qed.

Section Correct.
Context {C : Type} (A : hash_alg C) {limit opw ipw pw : Z} {P : HmacParams A limit opw ipw pw}.
Local Abbreviation B := (block_len A).
Local Abbreviation wb := (ha_wb A).

(** ** RFC 2104 *)

Definition rfc_key (key : list Z) : list Z := hmac_key (digest_of A) B key.
Definition rfc_hmac (key msg : list Z) : list Z := rfc2104 (digest_of A) B key msg.

Lemma length_digest_of msg : length (digest_of A msg) = (8 * wb)%nat.
Proof. apply length_digest; [apply hp_init|apply hp_transform]. Qed.

Lemma digest_bytes msg : Forall is_byte (digest_of A msg).
Proof.
  unfold digest_of. induction (final_state A msg); cbn [map concat]; [constructor|].
  apply Forall_app; split; [|done]. apply Forall_rev, le_bytes_byte.
Qed.

Lemma opw_eq : opw = le_val (replicate wb 0x5c).
Proof. apply hp_opw. Qed.
Lemma ipw_eq : ipw = le_val (replicate wb 0x36).
Proof. apply hp_ipw. Qed.

Lemma B_words : B = (16 * wb)%nat.
Proof. done. Qed.

Lemma rfc_key_block key : Forall is_byte key ->
  length (rfc_key key) = B /\ Forall is_byte (rfc_key key).
Proof.
  intros Hb. unfold rfc_key, hmac_key. set (k := if (B <? length key)%nat then digest_of A key else key).
  assert (Hk : (length k <= B)%nat).
  { unfold k. destruct (Nat.ltb_spec B (length key)); [|done]. rewrite length_digest_of, B_words. lia. }
  split; [rewrite length_app, length_replicate; lia|].
  apply Forall_app; split; [|apply bytes_0].
  unfold k. destruct (Nat.ltb B (length key)); [apply digest_bytes|done].
Qed.

Lemma key_block_eq key : Forall is_byte key -> 8 * zlen key < limit ->
  key_block A key = rfc_key key.
Proof.
  intros Hb Hl. unfold key_block, rfc_key, hmac_key, memcpy. cbn [take app].
  rewrite drop_replicate, Nat.add_0_l.
  destruct (Nat.ltb B (length key)); [|done]. by rewrite (hash_Raw_eq A (limit:=limit)).
Qed.

Lemma byte_5c : is_byte 0x5c. Proof. unfold is_byte. lia. Qed.
Lemma byte_36 : is_byte 0x36. Proof. unfold is_byte. lia. Qed.

(** The contexts after the padded key. *)
Lemma hmac_Init_rep key : Forall is_byte key -> 8 * zlen key < limit -> 8 * Z.of_nat B < limit ->
  ctx_rep A (hc_ctx (hmac_Init A key)) (xor_with 0x36 (rfc_key key)) /\
  o_key_pad (hmac_Init A key) = xor_with 0x5c (rfc_key key).
Proof.
  intros Hb Hl HB. unfold hmac_Init. cbn [hc_ctx o_key_pad]. rewrite key_block_eq by done.
  destruct (rfc_key_block key Hb) as [Hlen Hby]. split; [|done].
  apply (hash_Update_rep A (limit:=limit) _ []); [apply hash_Init_rep| |].
  - by apply xor_with_bytes; [apply byte_36|].
  - rewrite zlen_nil. unfold zlen. rewrite length_map, Hlen. lia.
Qed.

Lemma hmac_stream key chunks :
  Forall is_byte key -> Forall (Forall is_byte) chunks ->
  8 * zlen key < limit -> 8 * (Z.of_nat (2 * B) + zlen (concat chunks)) < limit ->
  hmac_Final A (fold_left (hmac_Update A) chunks (hmac_Init A key)) = rfc_hmac key (concat chunks).
Proof.
  intros Hb Hc Hl HB. pose proof (zlen_nonneg (concat chunks)).
  destruct (hmac_Init_rep key) as [R Ho]; [done|done|lia|].
  destruct (rfc_key_block key Hb) as [Hlen Hby].
  assert (G : forall h msg, ctx_rep A (hc_ctx h) msg -> 8 * (zlen msg + zlen (concat chunks)) < limit ->
    ctx_rep A (hc_ctx (fold_left (hmac_Update A) chunks h)) (msg ++ concat chunks) /\
    o_key_pad (fold_left (hmac_Update A) chunks h) = o_key_pad h).
  { clear -Hc P. induction Hc as [|d ds Hd _ IH]; intros h msg R Hl; cbn [fold_left concat] in *.
    - by rewrite app_nil_r.
    - rewrite zlen_app in Hl. pose proof (zlen_nonneg (concat ds)).
      destruct (IH (hmac_Update A h d) (msg ++ d)) as [R' E]; [|rewrite zlen_app; lia|].
      + cbn [hmac_Update hc_ctx]. apply (hash_Update_rep A (limit:=limit)); [done|done|lia].
      + by rewrite <- app_assoc in R'. }
  assert (Hzk : forall c, zlen (xor_with c (rfc_key key)) = Z.of_nat B)
    by (intros c; unfold zlen; by rewrite length_xor_with, Hlen).
  destruct (G _ _ R) as [R1 E1]; [rewrite Hzk; lia|].
  unfold hmac_Final, rfc_hmac. rewrite (hash_Final_rep A (limit:=limit) _ _ R1) by (rewrite zlen_app, Hzk; lia).
  rewrite E1, Ho. apply (hash_Final_rep A (limit:=limit)); [|rewrite zlen_app, Hzk; unfold zlen; rewrite length_digest_of, !B_words in *; lia].
  apply (hash_Update_rep A (limit:=limit)); [|apply digest_bytes|
    rewrite Hzk; unfold zlen; rewrite length_digest_of, !B_words in *; lia].
  apply (hash_Update_rep A (limit:=limit) _ []); [apply hash_Init_rep| |rewrite zlen_nil, Hzk; lia].
  by apply xor_with_bytes; [apply byte_5c|].
Qed.

Lemma hmac_eq key msg : Forall is_byte key -> Forall is_byte msg ->
  8 * zlen key < limit -> 8 * (Z.of_nat (2 * B) + zlen msg) < limit ->
  hmac A key msg = rfc_hmac key msg.
Proof.
  intros Hk Hm Hl HB. pose proof (hmac_stream key [msg]) as H. cbn [concat] in H.
  rewrite app_nil_r in H. apply H; [done|by constructor|done|done].
Qed.

(** ** Precomputed pad digests *)

Lemma xor_word c bs : is_byte c -> length bs = wb -> Forall is_byte bs ->
  be_val bs .^ le_val (replicate wb c) = be_val (xor_with c bs).
Proof.
  intros Hc Hl Hb. unfold be_val. rewrite lxor_bytes.
  - rewrite zip_with_const by (by rewrite length_rev). f_equal. unfold xor_with. apply map_rev.
  - by apply Forall_rev.
  - by apply Forall_replicate.
  - by rewrite length_rev, length_replicate.
Qed.

Lemma xor_words c n : forall bs, is_byte c -> (n * wb <= length bs)%nat -> Forall is_byte bs ->
  map (fun x => x .^ le_val (replicate wb c)) (be_words wb n bs) = be_words wb n (xor_with c bs).
Proof.
  induction n as [|n IH]; intros bs Hc Hl Hb; [done|]. cbn [be_words map].
  rewrite xor_word by (done || (by apply Forall_take) || (rewrite length_take; lia)).
  rewrite IH by (done || (by apply Forall_drop) || (rewrite length_drop; lia)).
  unfold xor_with. by rewrite <- firstn_map, <- skipn_map.
Qed.

Lemma hmac_prepare_eq key : Forall is_byte key -> 8 * zlen key < limit ->
  hmac_prepare A opw ipw key
  = (absorb A 1 (ha_init A) (xor_with 0x5c (rfc_key key)),
     absorb A 1 (ha_init A) (xor_with 0x36 (rfc_key key))).
Proof.
  intros Hb Hl. destruct (rfc_key_block key Hb) as [Hlen Hby].
  unfold hmac_prepare. rewrite key_block_eq by done. cbn [absorb].
  rewrite !(take_ge (xor_with _ _)) by (rewrite length_xor_with; lia).
  assert (E : map (fun x => ha_reverse A x .^ opw) (words_of wb 16 (rfc_key key))
              = be_words wb 16 (xor_with 0x5c (rfc_key key))).
  { rewrite opw_eq, <- xor_words by (apply byte_5c || (rewrite Hlen, B_words; lia) || done).
    rewrite <- (map_words A (limit:=limit)) by (done || (rewrite Hlen, B_words; lia)).
    by rewrite map_map. }
  rewrite E. f_equal. f_equal. rewrite opw_eq, ipw_eq.
  rewrite <- !xor_words by (apply byte_5c || apply byte_36 || (rewrite Hlen, B_words; lia) || done).
  rewrite map_map. apply map_ext. intros x.
  by rewrite (Z.lxor_assoc x), Z.lxor_nilpotent, Z.lxor_0_r.
Qed.

(** The context set up from a pad digest stands for the padded key. *)
Lemma pad_ctx_rep blk c : length blk = B -> hl_cnt c (8 * Z.of_nat B) ->
  ctx_rep A (HashCtx (absorb A 1 (ha_init A) blk) c (replicate B 0)) blk.
Proof.
  intros Hl Hc. pose proof (B_pos A (limit:=limit)) as HB.
  split; cbn [state bitcount buffer]; rewrite ?Hl, ?Nat.div_same, ?Nat.Div0.mod_same by done.
  - done.
  - unfold zlen. by rewrite Hl.
  - apply length_replicate.
  - apply bytes_0.
  - by rewrite Nat.mul_1_l, <- Hl, drop_all.
Qed.

(** ** One more block after a padded key *)

Lemma final_short blk m : length blk = B -> (length m + 1 + 2 * wb <= B)%nat ->
  final_state A (blk ++ m)
  = ha_transform A (absorb A 1 (ha_init A) blk)
      (be_words wb 16 (m ++ 0x80 :: replicate (B - (length m + 1 + 2 * wb)) 0
        ++ be_bytes (2 * wb) (8 * Z.of_nat (B + length m)))).
Proof.
  intros Hl Hm. pose proof (B_pos A (limit:=limit)) as HB. pose proof hp_wb. unfold final_state.
  assert (Hlen : length (blk ++ m) = (B + length m)%nat) by (rewrite length_app; lia).
  assert (Hr : (length (blk ++ m) mod B = length m)%nat).
  { rewrite Hlen. symmetry. apply (Nat.mod_unique _ _ 1); lia. }
  assert (Hq : (length (blk ++ m) / B = 1)%nat).
  { rewrite Hlen. symmetry. apply (Nat.div_unique _ _ _ (length m)); lia. }
  pose proof (padded_length A (limit:=limit) (blk ++ m)) as Hp. cbn zeta in Hp.
  rewrite Hr, Hq in Hp. unfold short_block_len in Hp. rewrite B_words in *.
  destruct (Nat.ltb_spec (14 * wb) (S (length m))); [lia|]. destruct Hp as [Hz ->].
  rewrite absorb_add. unfold padded. rewrite <- app_assoc.
  rewrite absorb_prefix by (rewrite B_words; lia).
  rewrite Nat.mul_1_l, drop_app_length' by (rewrite B_words; lia).
  rewrite Hz. unfold zlen. rewrite Hlen.
  replace (14 * wb - S (length m))%nat with (16 * wb - (length m + 1 + 2 * wb))%nat by lia.
  set (x := m ++ _). cbn [absorb]. rewrite (take_ge x); [done|unfold x].
  rewrite !length_app. cbn [length]. rewrite length_app, length_replicate, length_be_bytes, B_words. lia.
Qed.

(** The padding words behind a digest. *)
Definition tail_words : list Z := [pw; 0; 0; 0; 0; 0; 0; Z.of_nat (24 * wb) * 8].

Lemma final_digest blk m : length blk = B -> length m = (8 * wb)%nat ->
  final_state A (blk ++ m)
  = ha_transform A (absorb A 1 (ha_init A) blk) (be_words wb 8 m ++ tail_words).
Proof.
  intros Hl Hm. pose proof hp_wb. rewrite final_short by (done || (rewrite B_words; lia)). f_equal.
  change 16%nat with (8 + 8)%nat. rewrite be_words_app, be_words_prefix, drop_app_length' by lia.
  f_equal. unfold tail_words. rewrite <- hp_pw. rewrite Hm, B_words.
  replace (16 * wb - (8 * wb + 1 + 2 * wb))%nat with (6 * wb - 1)%nat by lia.
  by replace (16 * wb + 8 * wb)%nat with (24 * wb)%nat by lia.
Qed.

(** ** Digests as words *)

Lemma be_words_concat ws : Forall (fun x => 0 <= x < 256 ^ Z.of_nat wb) ws ->
  be_words wb (length ws) (concat (map (be_bytes wb) ws)) = ws.
Proof.
  induction 1 as [|x ws Hx _ IH]; [done|]. cbn [map concat length be_words].
  rewrite take_app_length', drop_app_length' by (by rewrite length_be_bytes). rewrite IH. f_equal.
  unfold be_val, be_bytes. rewrite rev_involutive, le_val_bytes. by apply Z.mod_small.
Qed.

Lemma be_bytes_val bs : length bs = wb -> Forall is_byte bs -> be_bytes wb (be_val bs) = bs.
Proof.
  intros Hl Hb. unfold be_bytes, be_val. rewrite <- (rev_involutive bs) at 2. f_equal.
  apply le_bytes_uniq; [by rewrite length_rev|by apply Forall_rev|done].
Qed.

Lemma concat_be_words n : forall bs, length bs = (n * wb)%nat -> Forall is_byte bs ->
  concat (map (be_bytes wb) (be_words wb n bs)) = bs.
Proof.
  induction n as [|n IH]; intros bs Hl Hb; [by destruct bs|]. cbn [be_words map concat].
  rewrite be_bytes_val by ((by apply Forall_take) || (rewrite length_take; lia)).
  rewrite IH by ((by apply Forall_drop) || (rewrite length_drop; lia)). apply take_drop.
Qed.

Lemma be_words_range n : forall bs, (n * wb <= length bs)%nat -> Forall is_byte bs ->
  Forall (fun x => 0 <= x < 256 ^ Z.of_nat wb) (be_words wb n bs).
Proof.
  induction n as [|n IH]; intros bs Hl Hb; cbn [be_words]; constructor.
  - assert (Hr : Forall is_byte (rev (take wb bs))) by (by apply Forall_rev, Forall_take).
    pose proof (le_val_range _ Hr) as H. unfold zlen in H.
    by rewrite length_rev, length_take_le in H by lia.
  - apply IH; [rewrite length_drop; lia|by apply Forall_drop].
Qed.

Lemma length_absorb n : forall st msg, length st = 8%nat -> length (absorb A n st msg) = 8%nat.
Proof. induction n; intros; cbn [absorb]; [done|]. apply IHn, hp_transform. Qed.

Lemma digest_words_eq msg : be_words wb 8 (digest_of A msg) = final_state A msg.
Proof.
  unfold digest_of. assert (E : length (final_state A msg) = 8%nat)
    by (apply length_absorb, hp_init). rewrite <- E at 1. apply be_words_concat.
  apply (absorb_words A (limit:=limit)), (hl_init (HashLaws:=hp_laws)).
Qed.

Lemma xor_be_words n : forall xs ys, length xs = (n * wb)%nat -> length ys = (n * wb)%nat ->
  Forall is_byte xs -> Forall is_byte ys ->
  zip_with Z.lxor (be_words wb n xs) (be_words wb n ys) = be_words wb n (zip_with Z.lxor xs ys).
Proof.
  induction n as [|n IH]; intros xs ys Hx Hy Bx By; [done|]. cbn [be_words zip_with].
  rewrite IH by (rewrite ?length_drop; (lia || by apply Forall_drop)).
  unfold be_val at 1 2. rewrite lxor_bytes
    by (rewrite ?length_rev, ?length_take; (lia || by apply Forall_rev, Forall_take)).
  unfold be_val. rewrite zip_with_take, zip_with_drop. do 2 f_equal.
  symmetry. apply zip_with_rev. rewrite !length_take. lia.
Qed.

(** ** PBKDF2 *)

Section Pbkdf2.
Context (pass : list Z) (Hpass : Forall is_byte pass) (Hplen : 8 * zlen pass < limit).

Local Abbreviation rfc_F_loop := (F_loop (rfc_hmac pass)).
Local Abbreviation rfc_F := (rfc8018_F (rfc_hmac pass)).

(** The context after an iteration that left [u], with the sum [acc]. *)
Record p_rep (p : pbkdf2_ctx) (u acc : list Z) : Prop := {
  pr_odig : odig p = absorb A 1 (ha_init A) (xor_with 0x5c (rfc_key pass));
  pr_idig : idig p = absorb A 1 (ha_init A) (xor_with 0x36 (rfc_key pass));
  pr_g : pg p = be_words wb 8 u ++ tail_words;
  pr_f : pf p = be_words wb 8 acc;
  pr_u : length u = (8 * wb)%nat /\ Forall is_byte u;
  pr_acc : length acc = (8 * wb)%nat /\ Forall is_byte acc;
}.

Lemma set_words_tail u st : length st = 8%nat ->
  set_words (be_words wb 8 u ++ tail_words) st = st ++ tail_words.
Proof.
  intros Hl. unfold set_words, memcpy. rewrite take_0, app_nil_l, Nat.add_0_l. f_equal.
  rewrite Hl. by rewrite drop_app_length' by (by rewrite length_be_words).
Qed.

Lemma raw_hash c u : length u = (8 * wb)%nat ->
  ha_transform A (absorb A 1 (ha_init A) (xor_with c (rfc_key pass))) (be_words wb 8 u ++ tail_words)
  = be_words wb 8 (digest_of A (xor_with c (rfc_key pass) ++ u)).
Proof.
  intros Hu. destruct (rfc_key_block pass Hpass) as [Hlen _].
  rewrite digest_words_eq, final_digest by (rewrite ?length_xor_with; done). done.
Qed.

Lemma rfc_hmac_ok msg : length (rfc_hmac pass msg) = (8 * wb)%nat /\ Forall is_byte (rfc_hmac pass msg).
Proof. split; [apply length_digest_of|apply digest_bytes]. Qed.

Lemma pbkdf2_step_rep p u acc : p_rep p u acc ->
  p_rep (pbkdf2_step A 8 p) (rfc_hmac pass u) (zip_with Z.lxor acc (rfc_hmac pass u)).
Proof.
  intros [Ho Hi Hg Hf [Hu Bu] [Ha Ba]]. destruct (rfc_hmac_ok u) as [Hl Hb].
  assert (E : set_words (set_words (pg p) (ha_transform A (idig p) (pg p)))
      (ha_transform A (odig p) (set_words (pg p) (ha_transform A (idig p) (pg p))))
    = be_words wb 8 (rfc_hmac pass u) ++ tail_words).
  { rewrite Hg, Ho, Hi, set_words_tail by apply hp_transform.
    rewrite (raw_hash 0x36) by done. rewrite set_words_tail by apply hp_transform.
    rewrite (raw_hash 0x5c) by apply length_digest_of. done. }
  split; unfold pbkdf2_step; cbn [odig idig pg pf]; rewrite ?E; try done.
  - rewrite Hf, take_app_length' by (by rewrite length_be_words). by apply xor_be_words.
  - rewrite length_zip_with_l by lia. split; [done|].
    clear -Ba Hb. revert Ba Hb. generalize (rfc_hmac pass u) as v. induction acc as [|x acc IH];
      intros [|y v] Hx Hy; cbn [zip_with]; try constructor; inv_bytes; [by apply is_byte_lxor|auto].
Qed.

Lemma pbkdf2_iter_rep n : forall p u acc, p_rep p u acc ->
  exists u', p_rep (Nat.iter n (pbkdf2_step A 8) p) u' (rfc_F_loop n u acc).
Proof.
  induction n as [|n IH]; intros p u acc R; [by exists u|].
  rewrite Nat.iter_succ_r. apply (IH _ (rfc_hmac pass u)). by apply pbkdf2_step_rep.
Qed.

Lemma pbkdf2_Init_rep salt i : Forall is_byte salt -> is_u32 i ->
  8 * (Z.of_nat (3 * B) + zlen salt) < limit ->
  let u := rfc_hmac pass (salt ++ be_bytes 4 i) in
  p_rep (pbkdf2_Init A opw ipw pw 8 pass salt i) u u /\
  first (pbkdf2_Init A opw ipw pw 8 pass salt i) = 1.
Proof.
  intros Hs Hi Hl. cbn zeta. destruct (rfc_key_block pass Hpass) as [Hlen Hby].
  unfold pbkdf2_Init. rewrite hmac_prepare_eq by done.
  assert (Ei : le_bytes 4 (REVERSE32 i) = be_bytes 4 i).
  { rewrite <- (Z.mod_small i (256 ^ Z.of_nat 4)) at 1 by exact Hi.
    rewrite <- le_val_bytes, reverse32_law by (apply length_le_bytes || apply le_bytes_byte).
    apply le_bytes_uniq; [apply length_be_bytes| |done].
    apply Forall_rev, le_bytes_byte. }
  rewrite Ei. set (ikp := xor_with 0x36 (rfc_key pass)).
  set (ctx := HashCtx _ _ _). assert (R0 : ctx_rep A ctx ikp).
  { apply pad_ctx_rep; [unfold ikp; by rewrite length_xor_with|].
    rewrite (Z.mul_comm _ 8). apply (hl_inc _ 0); [apply hl_zero|lia|lia|unfold zlen in Hl; lia]. }
  assert (Zi : zlen ikp = Z.of_nat B) by (unfold zlen, ikp; by rewrite length_xor_with, Hlen).
  assert (R2 : ctx_rep A (hash_Update A (hash_Update A ctx salt) (be_bytes 4 i))
                 (ikp ++ salt ++ be_bytes 4 i)).
  { rewrite app_assoc. apply (hash_Update_rep A (limit:=limit)).
    - apply (hash_Update_rep A (limit:=limit)); [done|done|rewrite Zi; lia].
    - apply Forall_rev, le_bytes_byte.
    - rewrite zlen_app, Zi. unfold zlen at 2. rewrite length_be_bytes.
      rewrite B_words in *. pose proof hp_wb. lia. }
  rewrite (hash_Final_rep A (limit:=limit) _ _ R2).
  2:{ rewrite !zlen_app, Zi. unfold zlen at 2. rewrite length_be_bytes, B_words in *.
      pose proof hp_wb. lia. }
  set (d := digest_of A (ikp ++ salt ++ be_bytes 4 i)).
  assert (Hd : length d = (8 * wb)%nat) by apply length_digest_of.
  assert (Bd : Forall is_byte d) by apply digest_bytes.
  assert (Eg : memcpy (set_words (zupd (zupd (replicate 16 0) 8 pw) 15
        ((Z.of_nat B + Z.of_nat (8 * wb)) * 8)) (words_of wb 8 d)) 0
      (map (ha_reverse A) (take 8 (set_words (zupd (zupd (replicate 16 0) 8 pw) 15
        ((Z.of_nat B + Z.of_nat (8 * wb)) * 8)) (words_of wb 8 d))))
    = be_words wb 8 d ++ tail_words).
  { assert (Hw : length (words_of wb 8 d) = 8%nat) by done.
    rewrite <- (map_words A (limit:=limit)) by (done || lia).
    unfold set_words. set (z := zupd _ _ _).
    assert (Ez : z = replicate 8 0 ++ tail_words).
    { unfold z, tail_words.
      by replace (Z.of_nat B + Z.of_nat (8 * wb)) with (Z.of_nat (24 * wb)) by (rewrite B_words; lia). }
    unfold memcpy. rewrite Ez, !take_0, !app_nil_l, !Nat.add_0_l, length_map.
    rewrite take_app_length' by done. rewrite Hw. rewrite !drop_app_length' by done. done. }
  rewrite Eg, set_words_tail by apply hp_transform.
  rewrite (raw_hash 0x5c) by done. split; [|done].
  split; cbn [odig idig pg pf]; try done; apply rfc_hmac_ok.
Qed.

Lemma rfc_F_loop_add m : forall n u acc p, p_rep p u acc ->
  exists u', p_rep (Nat.iter m (pbkdf2_step A 8) p) u' (rfc_F_loop m u acc) /\
    rfc_F_loop (m + n) u acc = rfc_F_loop n u' (rfc_F_loop m u acc).
Proof.
  induction m as [|m IH]; intros n u acc p R; [by exists u|].
  rewrite Nat.iter_succ_r. cbn [Nat.add F_loop].
  by apply IH, pbkdf2_step_rep.
Qed.

Lemma first_iter n p : first (Nat.iter n (pbkdf2_step A 8) p) = first p.
Proof. induction n; [done|]. rewrite Nat.iter_succ. by unfold pbkdf2_step at 1. Qed.

(** Any sequence of [pbkdf2_Update] calls. *)
Lemma pbkdf2_updates_rep its : forall p u acc, p_rep p u acc -> first p = 0 ->
  Forall (fun n => 0 <= n) its ->
  exists u', p_rep (fold_left (pbkdf2_Update A 8) its p) u'
               (rfc_F_loop (Z.to_nat (foldr Z.add 0 its)) u acc).
Proof.
  induction its as [|n its IH]; intros p u acc R Hf Hn; cbn [fold_left foldr]; [by exists u|].
  apply Forall_cons_iff in Hn as [Hn Hns].
  assert (Hs : 0 <= foldr Z.add 0 its) by (clear -Hns; induction Hns; cbn; lia).
  rewrite Z2Nat.inj_add by lia.
  destruct (rfc_F_loop_add (Z.to_nat n) (Z.to_nat (foldr Z.add 0 its)) u acc p R) as (u' & R' & ->).
  apply IH; [|done|done]. unfold pbkdf2_Update. rewrite Hf, Z.sub_0_r.
  destruct R'. by split.
Qed.

Lemma pbkdf2_Final_rep p u acc : p_rep p u acc -> pbkdf2_Final A p = acc.
Proof.
  intros R. unfold pbkdf2_Final. rewrite (pr_f _ _ _ R). destruct (pr_acc _ _ _ R) as [Hl Hb].
  rewrite (bytes_of_reverse A (limit:=limit)); [by apply concat_be_words|].
  apply be_words_range; [lia|done].
Qed.

Lemma pbkdf2_block salt i n its :
  Forall is_byte salt -> is_u32 i -> 8 * (Z.of_nat (3 * B) + zlen salt) < limit ->
  0 < n -> Forall (fun n => 0 <= n) its ->
  pbkdf2_Final A (fold_left (pbkdf2_Update A 8) (n :: its) (pbkdf2_Init A opw ipw pw 8 pass salt i))
  = rfc_F salt (Z.to_nat (foldr Z.add n its)) i.
Proof.
  intros Hs Hi Hl Hn Hits. cbn [fold_left].
  destruct (pbkdf2_Init_rep salt i Hs Hi Hl) as [R Hf]. set (p := pbkdf2_Init _ _ _ _ _ _ _ _) in *.
  set (u := rfc_hmac _ _) in *.
  assert (Hsum : 0 <= foldr Z.add 0 its /\ foldr Z.add n its = n + foldr Z.add 0 its)
    by (clear -Hits; induction Hits; cbn; lia). destruct Hsum as [Hsum ->].
  destruct (rfc_F_loop_add (Z.to_nat (n - 1)) (Z.to_nat (foldr Z.add 0 its)) u u p R) as (u' & R' & E).
  destruct (pbkdf2_updates_rep its (pbkdf2_Update A 8 p n) u' (rfc_F_loop (Z.to_nat (n - 1)) u u))
    as (u'' & R''); [|done|done|].
  { unfold pbkdf2_Update. rewrite Hf. destruct R'. by split. }
  rewrite (pbkdf2_Final_rep _ _ _ R''), <- E. unfold rfc8018_F. fold u. f_equal. lia.
Qed.

Lemma length_rfc_F salt c i : length (rfc_F salt c i) = (8 * wb)%nat.
Proof.
  assert (H : forall n u acc, length acc = (8 * wb)%nat -> length (rfc_F_loop n u acc) = (8 * wb)%nat).
  { induction n as [|n IH]; intros u acc Ha; [done|]. cbn [F_loop]. apply IH.
    rewrite length_zip_with_l; [done|]. by rewrite (proj1 (rfc_hmac_ok u)), Ha. }
  apply H, rfc_hmac_ok.
Qed.

Lemma pbkdf2_blocks_eq salt c m : forall k n last, Forall is_byte salt ->
  8 * (Z.of_nat (3 * B) + zlen salt) < limit -> 0 < c ->
  Z.of_nat (k + m) < 2 ^ 32 -> (last <= 8 * wb)%nat -> (n = k + m)%nat -> (1 <= m)%nat ->
  pbkdf2_blocks A opw ipw pw 8 pass salt c m (Z.of_nat (S k)) (Z.of_nat n) last
  = take ((m - 1) * (8 * wb) + last)
      (concat (map (fun i => rfc_F salt (Z.to_nat c) (Z.of_nat i)) (seq (S k) m))).
Proof.
  induction m as [|m IH]; intros k n last Hs Hl Hc Hk Hlast -> Hm; [lia|].
  cbn [pbkdf2_blocks seq map concat].
  assert (Eb : pbkdf2_Final A (pbkdf2_Update A 8 (pbkdf2_Init A opw ipw pw 8 pass salt (Z.of_nat (S k))) c)
    = rfc_F salt (Z.to_nat c) (Z.of_nat (S k))).
  { pose proof (pbkdf2_block salt (Z.of_nat (S k)) c []) as E. cbn [fold_left foldr] in E.
    apply E; [done|unfold is_u32; lia|done|done|constructor]. }
  rewrite Eb. pose proof (length_rfc_F salt (Z.to_nat c) (Z.of_nat (S k))) as HF.
  destruct m as [|m].
  - zif. cbn [pbkdf2_blocks seq map concat]. by rewrite !app_nil_r.
  - zif. replace (Z.of_nat (S k) + 1) with (Z.of_nat (S (S k))) by lia.
    rewrite (IH (S k)) by (done || lia). rewrite take_app, HF.
    rewrite (take_ge (rfc_F _ _ _)) by lia. f_equal. f_equal. nia.
Qed.

Lemma pbkdf2_eq salt c keylen : Forall is_byte salt ->
  8 * (Z.of_nat (3 * B) + zlen salt) < limit -> 0 < c -> Z.of_nat keylen < 2 ^ 32 - 1 ->
  pbkdf2 A opw ipw pw 8 pass salt c keylen = rfc8018 (rfc_hmac pass) salt (Z.to_nat c) keylen.
Proof.
  intros Hs Hl Hc Hk. unfold pbkdf2. pose proof hp_wb as Hw. set (dl := (8 * wb)%nat).
  assert (Hdl : (dl <> 0)%nat) by lia. pose proof (Nat.div_mod_eq keylen dl) as Hdm.
  pose proof (Nat.mod_upper_bound keylen dl Hdl).
  assert (G : forall n last, (last <= dl)%nat -> (1 <= n)%nat -> (n <= keylen)%nat ->
    ((n - 1) * dl + last = keylen)%nat ->
    pbkdf2_blocks A opw ipw pw 8 pass salt c n 1 (Z.of_nat n) last
    = rfc8018 (rfc_hmac pass) salt (Z.to_nat c) keylen).
  { intros n last Hlast Hn1 Hnk Hn.
    pose proof (pbkdf2_blocks_eq salt c n 0 n last) as E. change (Z.of_nat 1) with 1 in E.
    rewrite E by (done || lia). fold dl. rewrite Hn. unfold rfc8018.
    replace (seq 1 keylen) with (seq 1 n ++ seq (1 + n) (keylen - n))
      by (rewrite <- seq_app; f_equal; lia).
    rewrite map_app, concat_app, take_app_le; [done|].
    assert (Hcl : forall l, length (concat (map (fun i => rfc_F salt (Z.to_nat c) (Z.of_nat i)) l))
                  = (length l * dl)%nat).
    { induction l; [done|]. cbn [map concat length]. rewrite length_app, length_rfc_F, IHl. lia. }
    rewrite Hcl, length_seq. nia. }
  destruct (Nat.eqb_spec (keylen mod dl) 0).
  - destruct (Nat.eq_dec keylen 0) as [->|]; [by rewrite Nat.Div0.div_0_l|].
    destruct (keylen / dl)%nat as [|q]; [lia|]. cbn [Nat.sub] in *. apply G; [lia|lia|nia|].
    cbn [Nat.sub]. rewrite Nat.sub_0_r. lia.
  - apply G; [lia|lia|nia|]. cbn [Nat.sub]. rewrite Nat.sub_0_r. lia.
Qed.

End Pbkdf2.
End Correct.
(** ** The four functions *)

Lemma rfc_hmac_sha256 key msg : rfc_hmac sha256_alg key msg = rfc2104 fips_sha256 64 key msg.
Proof. apply hmac_ext, sha256_digest. Qed.

Lemma rfc_hmac_sha512 key msg : rfc_hmac sha512_alg key msg = rfc2104 fips_sha512 128 key msg.
Proof. apply hmac_ext, sha512_digest. Qed.

(** HMAC-SHA256 fed in any number of [hmac_sha256_Update] calls is the RFC
    2104 construction over FIPS SHA-256, long keys being hashed first. *)
Theorem hmac_sha256_correct key chunks :
  Forall is_byte key -> Forall (Forall is_byte) chunks ->
  zlen key < 2 ^ 60 -> zlen (concat chunks) < 2 ^ 60 ->
  hmac_sha256_Final (fold_left hmac_sha256_Update chunks (hmac_sha256_Init key))
  = rfc2104 fips_sha256 64 key (concat chunks).
Proof.
  intros Hk Hc Hkl Hcl. rewrite <- rfc_hmac_sha256.
  apply (hmac_stream sha256_alg (P := sha256_params)); [done|done|lia|].
  change (Z.of_nat (2 * block_len sha256_alg)) with 128. lia.
Qed.

Lemma hmac_sha256_correct_witness :
  hmac_sha256_Final (hmac_sha256_Update (hmac_sha256_Init [107; 101; 121]) [97; 98; 99])
  = rfc2104 fips_sha256 64 [107; 101; 121] [97; 98; 99].
Proof.
  apply (hmac_sha256_correct [107; 101; 121] [[97; 98; 99]]); [bytes_list| |reflexivity..].
  apply Forall_cons_2; [bytes_list|apply Forall_nil_2].
Defined.

(** HMAC-SHA512 is the RFC 2104 construction over FIPS SHA-512. *)
Theorem hmac_sha512_correct key chunks :
  Forall is_byte key -> Forall (Forall is_byte) chunks ->
  zlen key < 2 ^ 60 -> zlen (concat chunks) < 2 ^ 60 ->
  hmac_sha512_Final (fold_left hmac_sha512_Update chunks (hmac_sha512_Init key))
  = rfc2104 fips_sha512 128 key (concat chunks).
Proof.
  intros Hk Hc Hkl Hcl. rewrite <- rfc_hmac_sha512.
  apply (hmac_stream sha512_alg (P := sha512_params)); [done|done|lia|].
  change (Z.of_nat (2 * block_len sha512_alg)) with 256. lia.
Qed.

Lemma hmac_sha512_correct_witness :
  hmac_sha512_Final (hmac_sha512_Update (hmac_sha512_Init [107; 101; 121]) [97; 98; 99])
  = rfc2104 fips_sha512 128 [107; 101; 121] [97; 98; 99].
Proof.
  apply (hmac_sha512_correct [107; 101; 121] [[97; 98; 99]]); [bytes_list| |reflexivity..].
  apply Forall_cons_2; [bytes_list|apply Forall_nil_2].
Defined.

(** PBKDF2-HMAC-SHA256 on raw transforms with precomputed pad digests and
    padding is RFC 8018 over HMAC-SHA256, for every key length; and one block may be
    computed with the iterations split over several [pbkdf2_hmac_sha256_Update]
    calls. *)
Theorem pbkdf2_hmac_sha256_correct pass salt c keylen :
  Forall is_byte pass -> Forall is_byte salt -> zlen pass < 2 ^ 31 -> zlen salt < 2 ^ 31 ->
  0 < c < 2 ^ 32 -> Z.of_nat keylen < 2 ^ 31 ->
  pbkdf2_hmac_sha256 pass salt c keylen
    = rfc8018 (rfc2104 fips_sha256 64 pass) salt (Z.to_nat c) keylen /\
  forall n its i, 0 < n -> Forall (fun n => 0 <= n) its -> foldr Z.add n its = c -> is_u32 i ->
    pbkdf2_hmac_sha256_Final
      (fold_left pbkdf2_hmac_sha256_Update (n :: its) (pbkdf2_hmac_sha256_Init pass salt i))
    = rfc8018_F (rfc2104 fips_sha256 64 pass) salt (Z.to_nat c) i.
Proof.
  intros Hp Hs Hpl Hsl Hc Hk.
  assert (HB : 8 * (Z.of_nat (3 * block_len sha256_alg) + zlen salt) < 2 ^ 64)
    by (change (Z.of_nat (3 * block_len sha256_alg)) with 192; lia).
  split.
  - rewrite <- (rfc8018_ext _ _ _ _ _ (rfc_hmac_sha256 pass)).
    apply (pbkdf2_eq sha256_alg (P := sha256_params)); [done|lia|done|done|lia|lia].
  - intros n its i Hn Hits <- Hi. rewrite <- (F_ext _ _ _ _ _ (rfc_hmac_sha256 pass)).
    apply (pbkdf2_block sha256_alg (P := sha256_params)); [done|lia|done..].
Qed.

Lemma pbkdf2_hmac_sha256_correct_witness :
  pbkdf2_hmac_sha256 [107; 101; 121] [97; 98; 99] 20000 40
  = rfc8018 (rfc2104 fips_sha256 64 [107; 101; 121]) [97; 98; 99] (Z.to_nat 20000) 40.
Proof.
  refine (proj1 (pbkdf2_hmac_sha256_correct [107; 101; 121] [97; 98; 99] 20000 40 _ _ _ _ _ _));
    [bytes_list|bytes_list|reflexivity|reflexivity|lia|lia].
Defined.

(** PBKDF2-HMAC-SHA512 is RFC 8018 over HMAC-SHA512. *)
Theorem pbkdf2_hmac_sha512_correct pass salt c keylen :
  Forall is_byte pass -> Forall is_byte salt -> zlen pass < 2 ^ 31 -> zlen salt < 2 ^ 31 ->
  0 < c < 2 ^ 32 -> Z.of_nat keylen < 2 ^ 31 ->
  pbkdf2_hmac_sha512 pass salt c keylen
    = rfc8018 (rfc2104 fips_sha512 128 pass) salt (Z.to_nat c) keylen.
Proof.
  intros Hp Hs Hpl Hsl Hc Hk.
  rewrite <- (rfc8018_ext _ _ _ _ _ (rfc_hmac_sha512 pass)).
  apply (pbkdf2_eq sha512_alg (P := sha512_params)); [done|lia|done| |lia|lia].
  change (Z.of_nat (3 * block_len sha512_alg)) with 384. lia.
Qed.

Lemma pbkdf2_hmac_sha512_correct_witness :
  pbkdf2_hmac_sha512 [107; 101; 121] [97; 98; 99] 2048 64
  = rfc8018 (rfc2104 fips_sha512 128 [107; 101; 121]) [97; 98; 99] (Z.to_nat 2048) 64.
Proof.
  apply (pbkdf2_hmac_sha512_correct [107; 101; 121] [97; 98; 99] 2048 64);
    [bytes_list|bytes_list|reflexivity|reflexivity|lia|lia].
Defined.

End HmacSpec.
