(* ===== verification/ChaCha.v ===== *)
(** * ChaCha20 and Poly1305: [crypto/chacha20poly1305/]

    The stream cipher of [chacha_merged.c], the authenticator of
    [poly1305-donna-32.h] and [poly1305-donna.c], and the authenticated encryption
    of [chacha20poly1305.c] and [rfc7539.c]. *)

From stdpp Require Import base list numbers.
From Stdlib Require Import ZArith Lia.
From S2P Require Import Prelude Hash.
Local Open Scope fw_scope.

Module ChaCha.
Import Hash.

(** ** [chacha_merged.c] *)

Definition ROTATE (v c : Z) : Z := u32 (Z.shiftl v c) .| Z.shiftr v (32 - c).
Definition PLUS (v w : Z) : Z := u32 (v + w).
Definition U8TO32_LITTLE (bs : list Z) (off : nat) : Z := le_val (take 4 (drop off bs)).

(** [QUARTERROUND(a, b, c, d)] on the words with these indices. *)
Definition QUARTERROUND (x : list Z) (ia ib ic id : Z) : list Z :=
  let a := znth 0 x ia in let b := znth 0 x ib in
  let c := znth 0 x ic in let d := znth 0 x id in
  let a := PLUS a b in let d := ROTATE (d .^ a) 16 in
  let c := PLUS c d in let b := ROTATE (b .^ c) 12 in
  let a := PLUS a b in let d := ROTATE (d .^ a) 8 in
  let c := PLUS c d in let b := ROTATE (b .^ c) 7 in
  zupd (zupd (zupd (zupd x ia a) ib b) ic c) id d.

Definition double_round (x : list Z) : list Z :=
  let x := QUARTERROUND x 0 4 8 12 in
  let x := QUARTERROUND x 1 5 9 13 in
  let x := QUARTERROUND x 2 6 10 14 in
  let x := QUARTERROUND x 3 7 11 15 in
  let x := QUARTERROUND x 0 5 10 15 in
  let x := QUARTERROUND x 1 6 11 12 in
  let x := QUARTERROUND x 2 7 8 13 in
  QUARTERROUND x 3 4 9 14.

Definition rounds20 (x : list Z) : list Z := Nat.iter 10 double_round x.

(** "expand 32-byte k" and "expand 16-byte k" *)
Definition sigma : list Z := [101; 120; 112; 97; 110; 100; 32; 51; 50; 45; 98; 121; 116; 101; 32; 107].
Definition tau : list Z := [101; 120; 112; 97; 110; 100; 32; 49; 54; 45; 98; 121; 116; 101; 32; 107].

(** The words 0 to 11 of the input; 12 to 15 are kept. *)
Definition ECRYPT_keysetup (input k : list Z) (kbits : Z) : list Z :=
  let '(off, constants) := if kbits =? 256 then (16%nat, sigma) else (0%nat, tau) in
  words_of 4 4 constants ++ words_of 4 4 k ++ words_of 4 4 (drop off k) ++ drop 12 input.

Definition ECRYPT_ivsetup (input iv : list Z) : list Z :=
  take 12 input ++ [0; 0; U8TO32_LITTLE iv 0; U8TO32_LITTLE iv 4].

Definition ECRYPT_ctrsetup (input ctr : list Z) : list Z :=
  take 12 input ++ [U8TO32_LITTLE ctr 0; U8TO32_LITTLE ctr 4] ++ drop 14 input.

(** The key stream block of the input, and the input with the counter advanced. *)
Definition chacha_block (j : list Z) : list Z := zip_with PLUS (rounds20 j) j.
Definition next_counter (j : list Z) : list Z :=
  let j12 := PLUS (znth 0 j 12) 1 in
  let j := zupd j 12 j12 in
  if j12 =? 0 then zupd j 13 (PLUS (znth 0 j 13) 1) else j.

(** Exclusive or of the key stream with 64 bytes. *)
Definition xor_block (j m : list Z) : list Z :=
  bytes_of 4 (zip_with Z.lxor (chacha_block j) (words_of 4 16 m)).

(** [for (;;)]: the last block is padded in [tmp], whose content beyond the
    message is not output. *)
Fixpoint encrypt_loop (fuel : nat) (j m : list Z) : list Z * list Z :=
  match fuel with
  | O => (j, [])
  | S fuel =>
      if (length m <? 64)%nat then
        (next_counter j, take (length m) (xor_block j (m ++ replicate (64 - length m) 0)))
      else if (length m =? 64)%nat then (next_counter j, xor_block j m)
      else
        let c := xor_block j (take 64 m) in
        let '(j, cs) := encrypt_loop fuel (next_counter j) (drop 64 m) in
        (j, c ++ cs)
  end.

(** The new input and the output.  The length of [m] is the argument [bytes], a 32-bit
    number in the source, so [m] is shorter than [2^32]. *)
Definition ECRYPT_encrypt_bytes (input m : list Z) : list Z * list Z :=
  if (length m =? 0)%nat then (input, [])
  else
    let '(j, c) := encrypt_loop (length m) input m in
    (zupd (zupd input 12 (znth 0 j 12)) 13 (znth 0 j 13), c).

Definition ECRYPT_decrypt_bytes := ECRYPT_encrypt_bytes.
Definition ECRYPT_keystream_bytes (input : list Z) (bytes : nat) : list Z * list Z :=
  ECRYPT_encrypt_bytes input (replicate bytes 0).

Definition hchacha20 (input : list Z) : list Z :=
  let x := rounds20 input in
  bytes_of 4 (take 4 x ++ take 4 (drop 12 x)).

(** ** Poly1305

    [ulw] is the width of [unsigned long]: 32 on the device, 64 in the emulator. *)

Record poly1305_state := Poly1305State {
  pr : list Z; ph : list Z; ppad : list Z;
  leftover : nat; pbuffer : list Z; final : bool }.

Section Poly1305.
Context (ulw : Z).

Definition UL (x : Z) : Z := wrap ulw x.
Definition ULL (x : Z) : Z := wrap 64 x.
Definition U8TO32 (m : list Z) (off : nat) : Z := le_val (take 4 (drop off m)).
Definition U32TO8 (v : Z) : list Z := le_bytes 4 v.

Definition poly1305_init (key : list Z) : poly1305_state :=
  Poly1305State
    [ U8TO32 key 0 .& 0x3ffffff;
      Z.shiftr (U8TO32 key 3) 2 .& 0x3ffff03;
      Z.shiftr (U8TO32 key 6) 4 .& 0x3ffc0ff;
      Z.shiftr (U8TO32 key 9) 6 .& 0x3f03fff;
      Z.shiftr (U8TO32 key 12) 8 .& 0x00fffff ]
    [0; 0; 0; 0; 0]
    [U8TO32 key 16; U8TO32 key 20; U8TO32 key 24; U8TO32 key 28]
    0 (replicate 16 0) false.

(** One iteration of [poly1305_blocks] on the limbs [h]. *)
Definition poly1305_block (r h : list Z) (hibit : Z) (m : list Z) : list Z :=
  let r0 := znth 0 r 0 in let r1 := znth 0 r 1 in let r2 := znth 0 r 2 in
  let r3 := znth 0 r 3 in let r4 := znth 0 r 4 in
  let s1 := UL (r1 * 5) in let s2 := UL (r2 * 5) in let s3 := UL (r3 * 5) in let s4 := UL (r4 * 5) in
  (* h += m[i] *)
  let h0 := UL (znth 0 h 0 + (U8TO32 m 0 .& 0x3ffffff)) in
  let h1 := UL (znth 0 h 1 + (Z.shiftr (U8TO32 m 3) 2 .& 0x3ffffff)) in
  let h2 := UL (znth 0 h 2 + (Z.shiftr (U8TO32 m 6) 4 .& 0x3ffffff)) in
  let h3 := UL (znth 0 h 3 + (Z.shiftr (U8TO32 m 9) 6 .& 0x3ffffff)) in
  let h4 := UL (znth 0 h 4 + (Z.shiftr (U8TO32 m 12) 8 .| hibit)) in
  (* h *= r *)
  let d0 := ULL (h0 * r0 + h1 * s4 + h2 * s3 + h3 * s2 + h4 * s1) in
  let d1 := ULL (h0 * r1 + h1 * r0 + h2 * s4 + h3 * s3 + h4 * s2) in
  let d2 := ULL (h0 * r2 + h1 * r1 + h2 * r0 + h3 * s4 + h4 * s3) in
  let d3 := ULL (h0 * r3 + h1 * r2 + h2 * r1 + h3 * r0 + h4 * s4) in
  let d4 := ULL (h0 * r4 + h1 * r3 + h2 * r2 + h3 * r1 + h4 * r0) in
  (* (partial) h %= p *)
  let c := UL (Z.shiftr d0 26) in let h0 := UL d0 .& 0x3ffffff in
  let d1 := ULL (d1 + c) in let c := UL (Z.shiftr d1 26) in let h1 := UL d1 .& 0x3ffffff in
  let d2 := ULL (d2 + c) in let c := UL (Z.shiftr d2 26) in let h2 := UL d2 .& 0x3ffffff in
  let d3 := ULL (d3 + c) in let c := UL (Z.shiftr d3 26) in let h3 := UL d3 .& 0x3ffffff in
  let d4 := ULL (d4 + c) in let c := UL (Z.shiftr d4 26) in let h4 := UL d4 .& 0x3ffffff in
  let h0 := UL (h0 + UL (c * 5)) in let c := Z.shiftr h0 26 in let h0 := h0 .& 0x3ffffff in
  let h1 := UL (h1 + c) in
  [h0; h1; h2; h3; h4].

(** [while (bytes >= poly1305_block_size)] *)
Fixpoint blocks_loop (n : nat) (r h : list Z) (hibit : Z) (m : list Z) : list Z :=
  match n with
  | O => h
  | S n => blocks_loop n r (poly1305_block r h hibit m) hibit (drop 16 m)
  end.

Definition poly1305_blocks (st : poly1305_state) (m : list Z) : poly1305_state :=
  let hibit := if final st then 0 else Z.shiftl 1 24 in
  Poly1305State (pr st) (blocks_loop (length m / 16) (pr st) (ph st) hibit m) (ppad st)
    (leftover st) (pbuffer st) (final st).

Definition poly1305_update (st : poly1305_state) (m : list Z) : poly1305_state :=
  let '(st, m, full) :=
    if (leftover st =? 0)%nat then (st, m, true)
    else
      let want := Nat.min (16 - leftover st) (length m) in
      let st := Poly1305State (pr st) (ph st) (ppad st) (leftover st + want)
                  (memcpy (pbuffer st) (leftover st) (take want m)) (final st) in
      if (leftover st <? 16)%nat then (st, drop want m, false)
      else
        let st := poly1305_blocks st (pbuffer st) in
        (Poly1305State (pr st) (ph st) (ppad st) 0 (pbuffer st) (final st), drop want m, true) in
  if negb full then st
  else
    let want := (length m / 16 * 16)%nat in
    let '(st, m) :=
      if (16 <=? length m)%nat then (poly1305_blocks st (take want m), drop want m) else (st, m) in
    if (length m =? 0)%nat then st
    else Poly1305State (pr st) (ph st) (ppad st) (leftover st + length m)
           (memcpy (pbuffer st) (leftover st) m) (final st).

(** The reduction and addition at the end, on the limbs. *)
Definition poly1305_tag (h pad : list Z) : list Z :=
  let h0 := znth 0 h 0 in let h1 := znth 0 h 1 in let h2 := znth 0 h 2 in
  let h3 := znth 0 h 3 in let h4 := znth 0 h 4 in
  (* fully carry h *)
  let c := Z.shiftr h1 26 in let h1 := h1 .& 0x3ffffff in
  let h2 := UL (h2 + c) in let c := Z.shiftr h2 26 in let h2 := h2 .& 0x3ffffff in
  let h3 := UL (h3 + c) in let c := Z.shiftr h3 26 in let h3 := h3 .& 0x3ffffff in
  let h4 := UL (h4 + c) in let c := Z.shiftr h4 26 in let h4 := h4 .& 0x3ffffff in
  let h0 := UL (h0 + UL (c * 5)) in let c := Z.shiftr h0 26 in let h0 := h0 .& 0x3ffffff in
  let h1 := UL (h1 + c) in
  (* compute h + -p *)
  let g0 := UL (h0 + 5) in let c := Z.shiftr g0 26 in let g0 := g0 .& 0x3ffffff in
  let g1 := UL (h1 + c) in let c := Z.shiftr g1 26 in let g1 := g1 .& 0x3ffffff in
  let g2 := UL (h2 + c) in let c := Z.shiftr g2 26 in let g2 := g2 .& 0x3ffffff in
  let g3 := UL (h3 + c) in let c := Z.shiftr g3 26 in let g3 := g3 .& 0x3ffffff in
  let g4 := UL (h4 + c - Z.shiftl 1 26) in
  (* select h if h < p, or h + -p if h >= p *)
  let mask := UL (Z.shiftr g4 (ulw - 1) - 1) in
  let g0 := g0 .& mask in let g1 := g1 .& mask in let g2 := g2 .& mask in
  let g3 := g3 .& mask in let g4 := g4 .& mask in
  let mask := 2 ^ ulw - 1 - mask in
  let h0 := (h0 .& mask) .| g0 in let h1 := (h1 .& mask) .| g1 in
  let h2 := (h2 .& mask) .| g2 in let h3 := (h3 .& mask) .| g3 in
  let h4 := (h4 .& mask) .| g4 in
  (* h = h % (2^128) *)
  let h0 := (h0 .| UL (Z.shiftl h1 26)) .& 0xffffffff in
  let h1 := (Z.shiftr h1 6 .| UL (Z.shiftl h2 20)) .& 0xffffffff in
  let h2 := (Z.shiftr h2 12 .| UL (Z.shiftl h3 14)) .& 0xffffffff in
  let h3 := (Z.shiftr h3 18 .| UL (Z.shiftl h4 8)) .& 0xffffffff in
  (* mac = (h + pad) % (2^128) *)
  let f := ULL (h0 + znth 0 pad 0) in let h0 := UL f in
  let f := ULL (h1 + znth 0 pad 1 + Z.shiftr f 32) in let h1 := UL f in
  let f := ULL (h2 + znth 0 pad 2 + Z.shiftr f 32) in let h2 := UL f in
  let f := ULL (h3 + znth 0 pad 3 + Z.shiftr f 32) in let h3 := UL f in
  U32TO8 h0 ++ U32TO8 h1 ++ U32TO8 h2 ++ U32TO8 h3.

Definition poly1305_finish (st : poly1305_state) : list Z :=
  let st :=
    if (leftover st =? 0)%nat then st
    else
      let buf := memcpy (pbuffer st) (leftover st)
                   (1 :: replicate (16 - S (leftover st)) 0) in
      poly1305_blocks
        (Poly1305State (pr st) (ph st) (ppad st) (leftover st) buf true) buf in
  poly1305_tag (ph st) (ppad st).

Definition poly1305_auth (m key : list Z) : list Z :=
  poly1305_finish (poly1305_update (poly1305_init key) m).

Definition poly1305_verify (mac1 mac2 : list Z) : bool :=
  let dif := foldr Z.lor 0 (zip_with Z.lxor (take 16 mac1) (take 16 mac2)) in
  Z.shiftr (u32 (dif - 1)) 31 .& 1 =? 1.

(** ** [chacha20poly1305.c] and [rfc7539.c] *)

Record chacha20poly1305_ctx := AeadCtx { chacha20 : list Z; poly1305 : poly1305_state }.

Definition xchacha20poly1305_init (input0 key nonce : list Z) : chacha20poly1305_ctx :=
  let tmp := ECRYPT_keysetup (replicate 16 0) key 256 in
  let tmp := take 12 tmp ++ words_of 4 4 nonce in
  let subkey := hchacha20 tmp in
  let input := ECRYPT_ivsetup (ECRYPT_keysetup input0 subkey 256) (drop 16 nonce) in
  let '(input, block0) := ECRYPT_encrypt_bytes input (replicate 64 0) in
  AeadCtx input (poly1305_init block0).

(** Initialization does not read the words 12 to 15 the context had before. *)
Definition rfc7539_init (key nonce : list Z) : chacha20poly1305_ctx :=
  let input := ECRYPT_keysetup (replicate 16 0) key 256 in
  let input := take 12 input
                 ++ [0; U8TO32_LITTLE nonce 0; U8TO32_LITTLE nonce 4; U8TO32_LITTLE nonce 8] in
  let '(input, block0) := ECRYPT_encrypt_bytes input (replicate 64 0) in
  AeadCtx input (poly1305_init block0).

Definition chacha20poly1305_encrypt (ctx : chacha20poly1305_ctx) (m : list Z)
    : chacha20poly1305_ctx * list Z :=
  let '(input, c) := ECRYPT_encrypt_bytes (chacha20 ctx) m in
  (AeadCtx input (poly1305_update (poly1305 ctx) c), c).

Definition chacha20poly1305_decrypt (ctx : chacha20poly1305_ctx) (c : list Z)
    : chacha20poly1305_ctx * list Z :=
  let p := poly1305_update (poly1305 ctx) c in
  let '(input, m) := ECRYPT_encrypt_bytes (chacha20 ctx) c in
  (AeadCtx input p, m).

Definition chacha20poly1305_auth (ctx : chacha20poly1305_ctx) (ad : list Z) : chacha20poly1305_ctx :=
  AeadCtx (chacha20 ctx) (poly1305_update (poly1305 ctx) ad).

Definition chacha20poly1305_finish (ctx : chacha20poly1305_ctx) : list Z :=
  poly1305_finish (poly1305 ctx).

Definition rfc7539_auth (ctx : chacha20poly1305_ctx) (ad : list Z) : chacha20poly1305_ctx :=
  let p := poly1305_update (poly1305 ctx) ad in
  let n := length ad in
  AeadCtx (chacha20 ctx)
    (if (n mod 16 =? 0)%nat then p else poly1305_update p (replicate (16 - n mod 16) 0)).

Definition rfc7539_finish (ctx : chacha20poly1305_ctx) (alen plen : Z) : list Z :=
  let lengths := le_bytes 8 alen ++ le_bytes 8 plen in
  let p := poly1305 ctx in
  let p := if plen mod 16 =? 0 then p
           else poly1305_update p (replicate (16 - Z.to_nat (plen mod 16)) 0) in
  poly1305_finish (poly1305_update p lengths).

End Poly1305.
End ChaCha.
