(* ===== verification/PolySpec.v ===== *)
(** * Correctness of Poly1305

    The 26-bit limb arithmetic of [poly1305-donna-32.h] never leaves the range of
    its types, for a 32-bit and for a 64-bit [unsigned long], and the authenticator
    is the polynomial evaluation modulo [2^130 - 5] of RFC 7539, for every way of
    feeding the message. *)

From stdpp Require Import base list numbers.
From Stdlib Require Import ZArith Lia.
From S2P Require Import Prelude Bits Hash HashSpec ChaCha.
Local Open Scope fw_scope.

Module PolySpec.
Import Hash HashSpec ChaCha.

Definition P1305 : Z := 2 ^ 130 - 5.

(** ** Limbs *)

Definition lval (l : list Z) : Z :=
  znth 0 l 0 + 2 ^ 26 * znth 0 l 1 + 2 ^ 52 * znth 0 l 2 + 2 ^ 78 * znth 0 l 3
  + 2 ^ 104 * znth 0 l 4.

Lemma lval_list a b c d e :
  lval [a; b; c; d; e] = a + 2 ^ 26 * b + 2 ^ 52 * c + 2 ^ 78 * d + 2 ^ 104 * e.
Proof. reflexivity. Qed.

Ltac limbs_eval :=
  repeat match goal with
  | |- context [znth 0 [?a; ?b; ?c; ?d; ?e] 0] => change (znth 0 [a; b; c; d; e] 0) with a
  | |- context [znth 0 [?a; ?b; ?c; ?d; ?e] 1] => change (znth 0 [a; b; c; d; e] 1) with b
  | |- context [znth 0 [?a; ?b; ?c; ?d; ?e] 2] => change (znth 0 [a; b; c; d; e] 2) with c
  | |- context [znth 0 [?a; ?b; ?c; ?d; ?e] 3] => change (znth 0 [a; b; c; d; e] 3) with d
  | |- context [znth 0 [?a; ?b; ?c; ?d; ?e] 4] => change (znth 0 [a; b; c; d; e] 4) with e
  end.

Lemma mod_div_mod x n s k : 0 <= s -> 0 <= k -> s + k <= n ->
  (x mod 2 ^ n / 2 ^ s) mod 2 ^ k = (x / 2 ^ s) mod 2 ^ k.
Proof.
  intros Hs Hk Hn. apply Z.bits_inj'. intros b Hb. destruct (Z.lt_ge_cases b k).
  - rewrite !Z.mod_pow2_bits_low, !Z.div_pow2_bits by lia. by rewrite Z.mod_pow2_bits_low by lia.
  - by rewrite !Z.mod_pow2_bits_high by lia.
Qed.

Lemma le_val_drop off m : Forall is_byte m -> le_val (drop off m) = le_val m / 2 ^ (8 * Z.of_nat off).
Proof. intros. by rewrite <- shiftr_bytes, Z.shiftr_div_pow2 by (done || lia). Qed.

Lemma le_val_take k m : Forall is_byte m -> le_val (take k m) = le_val m mod 2 ^ (8 * Z.of_nat k).
Proof. intros. by rewrite <- wrap_bytes by done. Qed.

(** A limb of a byte string: [width] bits from bit [8 * off + s] on. *)
Lemma limb m off s width : Forall is_byte m -> 0 <= s -> 0 <= width -> s + width <= 32 ->
  Z.shiftr (U8TO32 m off) s mod 2 ^ width
  = (le_val m / 2 ^ (8 * Z.of_nat off + s)) mod 2 ^ width.
Proof.
  intros Hm Hs Hw Hsw. unfold U8TO32.
  rewrite le_val_take, le_val_drop by (done || by apply Forall_drop).
  rewrite Z.shiftr_div_pow2 by lia. change (8 * Z.of_nat 4) with 32.
  rewrite mod_div_mod by lia. by rewrite Z.div_div, <- Z.pow_add_r by lia.
Qed.

Lemma land_26 x : x .& 0x3ffffff = x mod 2 ^ 26.
Proof. change 0x3ffffff with (Z.ones 26). by rewrite Z.land_ones by lia. Qed.

(** Recomposition of five limbs. *)
Lemma limbs_sum x : 0 <= x < 2 ^ 130 ->
  x mod 2 ^ 26 + 2 ^ 26 * ((x / 2 ^ 26) mod 2 ^ 26) + 2 ^ 52 * ((x / 2 ^ 52) mod 2 ^ 26)
  + 2 ^ 78 * ((x / 2 ^ 78) mod 2 ^ 26) + 2 ^ 104 * (x / 2 ^ 104) = x.
Proof.
  intros Hx.
  assert (E : forall a, x / 2 ^ (a + 26) = x / 2 ^ a / 2 ^ 26 \/ a < 0).
  { intros a. destruct (Z.lt_ge_cases a 0); [by right|left].
    by rewrite Z.pow_add_r, Z.div_div by lia. }
  destruct (E 26) as [E1|]; [|lia]. destruct (E 52) as [E2|]; [|lia]. destruct (E 78) as [E3|]; [|lia].
  change (26 + 26) with 52 in E1. change (52 + 26) with 78 in E2. change (78 + 26) with 104 in E3.
  rewrite E3, E2, E1. change (2 ^ 26) with 67108864. change (2 ^ 52) with 4503599627370496.
  change (2 ^ 78) with 302231454903657293676544. change (2 ^ 104) with 20282409603651670423947251286016.
  zlia.
Qed.

(** ** The product of two limb vectors modulo [p] *)

Lemma poly_mul_arith h0 h1 h2 h3 h4 r0 r1 r2 r3 r4 c0 c1 c2 c3 c4 c5 :
  let d0 := h0 * r0 + h1 * (r4 * 5) + h2 * (r3 * 5) + h3 * (r2 * 5) + h4 * (r1 * 5) in
  let d1 := h0 * r1 + h1 * r0 + h2 * (r4 * 5) + h3 * (r3 * 5) + h4 * (r2 * 5) in
  let d2 := h0 * r2 + h1 * r1 + h2 * r0 + h3 * (r4 * 5) + h4 * (r3 * 5) in
  let d3 := h0 * r3 + h1 * r2 + h2 * r1 + h3 * r0 + h4 * (r4 * 5) in
  let d4 := h0 * r4 + h1 * r3 + h2 * r2 + h3 * r1 + h4 * r0 in
  let k := h1 * r4 + h2 * (r3 + 2 ^ 26 * r4) + h3 * (r2 + 2 ^ 26 * r3 + 2 ^ 52 * r4)
           + h4 * (r1 + 2 ^ 26 * r2 + 2 ^ 52 * r3 + 2 ^ 78 * r4) in
  lval [ d0 - 2 ^ 26 * c0 + 5 * c4 - 2 ^ 26 * c5; d1 + c0 - 2 ^ 26 * c1 + c5;
         d2 + c1 - 2 ^ 26 * c2; d3 + c2 - 2 ^ 26 * c3; d4 + c3 - 2 ^ 26 * c4 ]
  = lval [h0; h1; h2; h3; h4] * lval [r0; r1; r2; r3; r4] - P1305 * (k + c4).
Proof. cbn zeta. rewrite !lval_list. unfold P1305. ring. Qed.

Section Width.
Context (ulw : Z) (Hulw : ulw = 32 \/ ulw = 64).

Lemma UL_small x : 0 <= x < 2 ^ 32 -> UL ulw x = x.
Proof.
  intros Hx. apply wrap_small. assert (2 ^ 32 <= 2 ^ ulw) by (apply Z.pow_le_mono_r; lia). lia.
Qed.

Lemma ULL_small x : 0 <= x < 2 ^ 64 -> ULL x = x.
Proof. apply wrap_small. Qed.

Lemma UL_mod_26 x : UL ulw x .& 0x3ffffff = x mod 2 ^ 26.
Proof.
  rewrite land_26. unfold UL, wrap. apply Z.bits_inj'. intros b Hb. destruct (Z.lt_ge_cases b 26).
  - by rewrite !Z.mod_pow2_bits_low by lia.
  - by rewrite !Z.mod_pow2_bits_high by lia.
Qed.

Lemma mul_bound a b A B : 0 <= a <= A -> 0 <= b <= B -> 0 <= a * b <= A * B.
Proof. intros. nia. Qed.

(** Bounds of the limbs between blocks. *)
Definition h_ok (h : list Z) : Prop := exists h0 h1 h2 h3 h4, h = [h0; h1; h2; h3; h4] /\
  0 <= h0 < 2 ^ 26 /\ 0 <= h1 < 2 ^ 26 + 64 /\ 0 <= h2 < 2 ^ 26 /\ 0 <= h3 < 2 ^ 26 /\ 0 <= h4 < 2 ^ 26.
Definition r_ok (r : list Z) : Prop := exists r0 r1 r2 r3 r4, r = [r0; r1; r2; r3; r4] /\
  0 <= r0 < 2 ^ 26 /\ 0 <= r1 < 2 ^ 26 /\ 0 <= r2 < 2 ^ 26 /\ 0 <= r3 < 2 ^ 26 /\ 0 <= r4 < 2 ^ 20.

(** The carry chain, given bounds on the column sums. *)
Lemma carry_chain d0 d1 d2 d3 d4 :
  0 <= d0 < 18 * 2 ^ 53 -> 0 <= d1 < 18 * 2 ^ 53 -> 0 <= d2 < 18 * 2 ^ 53 ->
  0 <= d3 < 18 * 2 ^ 53 -> 0 <= d4 < 5 * 2 ^ 53 ->
  exists c0 c1 c2 c3 c4 c5,
  let h :=
    let c := UL ulw (Z.shiftr d0 26) in let h0 := UL ulw d0 .& 0x3ffffff in
    let d1 := ULL (d1 + c) in let c := UL ulw (Z.shiftr d1 26) in let h1 := UL ulw d1 .& 0x3ffffff in
    let d2 := ULL (d2 + c) in let c := UL ulw (Z.shiftr d2 26) in let h2 := UL ulw d2 .& 0x3ffffff in
    let d3 := ULL (d3 + c) in let c := UL ulw (Z.shiftr d3 26) in let h3 := UL ulw d3 .& 0x3ffffff in
    let d4 := ULL (d4 + c) in let c := UL ulw (Z.shiftr d4 26) in let h4 := UL ulw d4 .& 0x3ffffff in
    let h0 := UL ulw (h0 + UL ulw (c * 5)) in let c := Z.shiftr h0 26 in let h0 := h0 .& 0x3ffffff in
    let h1 := UL ulw (h1 + c) in
    [h0; h1; h2; h3; h4] in
  h = [ d0 - 2 ^ 26 * c0 + 5 * c4 - 2 ^ 26 * c5; d1 + c0 - 2 ^ 26 * c1 + c5;
        d2 + c1 - 2 ^ 26 * c2; d3 + c2 - 2 ^ 26 * c3; d4 + c3 - 2 ^ 26 * c4 ] /\ h_ok h.
Proof.
  intros H0 H1 H2 H3 H4. cbn zeta.
  assert (D : forall x, x = 2 ^ 26 * (x / 2 ^ 26) + x mod 2 ^ 26 /\ 0 <= x mod 2 ^ 26 < 2 ^ 26)
    by (intros x; split; [apply Z.div_mod; lia|apply Z.mod_pos_bound; lia]).
  rewrite !UL_mod_26, !Z.shiftr_div_pow2 by lia.
  pose (c0 := d0 / 2 ^ 26). pose proof (D d0) as [E0 B0]. fold c0 in E0.
  rewrite (UL_small (d0 / 2 ^ 26)) by (fold c0; lia). fold c0.
  rewrite (ULL_small (d1 + c0)) by lia.
  pose (c1 := (d1 + c0) / 2 ^ 26). pose proof (D (d1 + c0)) as [E1 B1]. fold c1 in E1.
  rewrite (UL_small ((d1 + c0) / 2 ^ 26)) by (fold c1; lia). fold c1.
  rewrite (ULL_small (d2 + c1)) by lia.
  pose (c2 := (d2 + c1) / 2 ^ 26). pose proof (D (d2 + c1)) as [E2 B2]. fold c2 in E2.
  rewrite (UL_small ((d2 + c1) / 2 ^ 26)) by (fold c2; lia). fold c2.
  rewrite (ULL_small (d3 + c2)) by lia.
  pose (c3 := (d3 + c2) / 2 ^ 26). pose proof (D (d3 + c2)) as [E3 B3]. fold c3 in E3.
  rewrite (UL_small ((d3 + c2) / 2 ^ 26)) by (fold c3; lia). fold c3.
  rewrite (ULL_small (d4 + c3)) by lia.
  pose (c4 := (d4 + c3) / 2 ^ 26). pose proof (D (d4 + c3)) as [E4 B4]. fold c4 in E4.
  rewrite (UL_small ((d4 + c3) / 2 ^ 26)) by (fold c4; lia). fold c4.
  rewrite (UL_small (c4 * 5)), (UL_small (d0 mod 2 ^ 26 + c4 * 5)) by lia.
  set (f0 := d0 mod 2 ^ 26 + c4 * 5) in *.
  pose (c5 := f0 / 2 ^ 26). pose proof (D f0) as [E5 B5]. fold c5 in E5. fold c5.
  assert (Hc5 : 0 <= c5 < 64) by (unfold f0 in *; lia).
  rewrite (UL_small ((d1 + c0) mod 2 ^ 26 + c5)) by lia.
  exists c0, c1, c2, c3, c4, c5. split; [unfold f0 in *; repeat (f_equal; [lia|]); f_equal; lia|].
  do 5 eexists. split; [reflexivity|]. clearbody f0. lia.
Qed.

Lemma block_limbs m : Forall is_byte m -> length m = 16%nat ->
  0 <= le_val m < 2 ^ 128 /\
  (U8TO32 m 0 .& 0x3ffffff) = le_val m mod 2 ^ 26 /\
  (Z.shiftr (U8TO32 m 3) 2 .& 0x3ffffff) = (le_val m / 2 ^ 26) mod 2 ^ 26 /\
  (Z.shiftr (U8TO32 m 6) 4 .& 0x3ffffff) = (le_val m / 2 ^ 52) mod 2 ^ 26 /\
  (Z.shiftr (U8TO32 m 9) 6 .& 0x3ffffff) = (le_val m / 2 ^ 78) mod 2 ^ 26 /\
  Z.shiftr (U8TO32 m 12) 8 = le_val m / 2 ^ 104.
Proof.
  intros Hm Hl. pose proof (le_val_range m Hm) as Hr. unfold zlen in Hr. rewrite Hl in Hr.
  change (256 ^ Z.of_nat 16) with (2 ^ 128) in Hr. rewrite !land_26.
  pose proof (limb m 0 0 26 Hm) as L0. pose proof (limb m 12 8 24 Hm) as L4.
  rewrite Z.shiftr_0_r in L0. rewrite L0, (limb m 3 2), (limb m 6 4), (limb m 9 6) by (done || lia).
  split; [done|]. split; [by rewrite Z.div_1_r|]. do 3 (split; [done|]).
  assert (Hu : 0 <= U8TO32 m 12 < 2 ^ 32).
  { unfold U8TO32. pose proof (le_val_range (take 4 (drop 12 m)) ltac:(by apply Forall_take, Forall_drop)) as H.
    unfold zlen in H. rewrite length_take, length_drop, Hl in H. exact H. }
  rewrite Z.mod_small, Z.mod_small in L4; [apply L4; lia| |].
  - split; [apply Z.div_pos; lia|]. apply Z.div_lt_upper_bound; [lia|].
    change (2 ^ (8 * Z.of_nat 12 + 8) * 2 ^ 24) with (2 ^ 128). lia.
  - rewrite Z.shiftr_div_pow2 by lia. change (2 ^ 32) with (2 ^ 8 * 2 ^ 24) in Hu.
    split; [apply Z.div_pos; lia|apply Z.div_lt_upper_bound; lia].
Qed.

(** Column sums stay below the bounds of [carry_chain]. *)
Lemma column_bounds a0 a1 a2 a3 a4 r0 r1 r2 r3 r4 :
  0 <= a0 <= 2 ^ 27 -> 0 <= a1 <= 2 ^ 27 + 64 -> 0 <= a2 <= 2 ^ 27 -> 0 <= a3 <= 2 ^ 27 ->
  0 <= a4 <= 3 * 2 ^ 25 ->
  0 <= r0 <= 2 ^ 26 -> 0 <= r1 <= 2 ^ 26 -> 0 <= r2 <= 2 ^ 26 -> 0 <= r3 <= 2 ^ 26 -> 0 <= r4 <= 2 ^ 20 ->
  0 <= a0 * r0 + a1 * (r4 * 5) + a2 * (r3 * 5) + a3 * (r2 * 5) + a4 * (r1 * 5) < 18 * 2 ^ 53 /\
  0 <= a0 * r1 + a1 * r0 + a2 * (r4 * 5) + a3 * (r3 * 5) + a4 * (r2 * 5) < 18 * 2 ^ 53 /\
  0 <= a0 * r2 + a1 * r1 + a2 * r0 + a3 * (r4 * 5) + a4 * (r3 * 5) < 18 * 2 ^ 53 /\
  0 <= a0 * r3 + a1 * r2 + a2 * r1 + a3 * r0 + a4 * (r4 * 5) < 18 * 2 ^ 53 /\
  0 <= a0 * r4 + a1 * r3 + a2 * r2 + a3 * r1 + a4 * r0 < 5 * 2 ^ 53.
Proof.
  intros A0 A1 A2 A3 A4 R0 R1 R2 R3 R4.
  assert (S : forall r B, 0 <= r <= B -> 0 <= r * 5 <= B * 5) by (intros; lia).
  pose proof (S _ _ R1) as S1. pose proof (S _ _ R2) as S2. pose proof (S _ _ R3) as S3.
  pose proof (S _ _ R4) as S4. clear S.
  repeat match goal with |- _ /\ _ => split end;
  repeat match goal with |- context [?a * ?r] =>
    match goal with
    | Ha : 0 <= a <= _, Hr : 0 <= r <= _ |- _ =>
        let H := fresh in pose proof (mul_bound a r _ _ Ha Hr) as H;
        generalize dependent (a * r); intros
    end end; lia.
Qed.

Lemma poly1305_block_ok r h hibit m :
  r_ok r -> h_ok h -> Forall is_byte m -> length m = 16%nat -> hibit = 0 \/ hibit = 2 ^ 24 ->
  h_ok (poly1305_block ulw r h hibit m) /\
  exists k, lval (poly1305_block ulw r h hibit m)
            = (lval h + le_val m + 2 ^ 104 * hibit) * lval r - P1305 * k.
Proof.
  intros (r0 & r1 & r2 & r3 & r4 & -> & R0 & R1 & R2 & R3 & R4)
         (h0 & h1 & h2 & h3 & h4 & -> & H0 & H1 & H2 & H3 & H4) Hm Hl Hh.
  destruct (block_limbs m Hm Hl) as (Hv & M0 & M1 & M2 & M3 & M4).
  assert (D : forall x, 0 <= x mod 2 ^ 26 < 2 ^ 26) by (intros; apply Z.mod_pos_bound; lia).
  assert (M4b : 0 <= le_val m / 2 ^ 104 < 2 ^ 24).
  { split; [apply Z.div_pos; lia|]. apply Z.div_lt_upper_bound; [lia|].
    change (2 ^ 104 * 2 ^ 24) with (2 ^ 128). lia. }
  assert (Hor : Z.shiftr (U8TO32 m 12) 8 .| hibit = le_val m / 2 ^ 104 + hibit).
  { rewrite M4. destruct Hh as [-> | ->]; [rewrite Z.lor_0_r; lia|].
    rewrite <- Z.lxor_lor, <- Z.add_nocarry_lxor; [done|..];
      apply Z.bits_inj'; intros n Hn; rewrite Z.land_spec, Z.bits_0, Z.pow2_bits_eqb by lia;
      (destruct (Z.eqb_spec 24 n) as [<-|]; [|by rewrite andb_false_r]);
      rewrite <- (Z.mod_small (le_val m / 2 ^ 104) (2 ^ 24)) by done;
      by rewrite Z.mod_pow2_bits_high by lia. }
  pose proof (limbs_sum (le_val m) ltac:(lia)) as Hsum.
  unfold poly1305_block. limbs_eval. cbn zeta. rewrite M0, M1, M2, M3, Hor.
  pose proof (D (le_val m)) as D0. pose proof (D (le_val m / 2 ^ 26)) as D1.
  pose proof (D (le_val m / 2 ^ 52)) as D2. pose proof (D (le_val m / 2 ^ 78)) as D3. clear D.
  set (m0 := le_val m mod 2 ^ 26) in *. set (m1 := (le_val m / 2 ^ 26) mod 2 ^ 26) in *.
  set (m2 := (le_val m / 2 ^ 52) mod 2 ^ 26) in *. set (m3 := (le_val m / 2 ^ 78) mod 2 ^ 26) in *.
  set (m4 := le_val m / 2 ^ 104) in *. clearbody m0 m1 m2 m3 m4.
  rewrite (UL_small (h0 + _)), (UL_small (h1 + _)), (UL_small (h2 + _)), (UL_small (h3 + _)),
    (UL_small (h4 + _)) by lia.
  rewrite (UL_small (r1 * 5)), (UL_small (r2 * 5)), (UL_small (r3 * 5)), (UL_small (r4 * 5)) by lia.
  destruct (column_bounds (h0 + m0) (h1 + m1) (h2 + m2) (h3 + m3) (h4 + (m4 + hibit)) r0 r1 r2 r3 r4)
    as (B0 & B1 & B2 & B3 & B4); try lia.
  assert (U : forall x b, 0 <= x < b * 2 ^ 53 -> b <= 18 -> ULL x = x) by (intros; apply ULL_small; lia).
  rewrite (U _ _ B0), (U _ _ B1), (U _ _ B2), (U _ _ B3), (U _ _ B4) by lia. clear U.
  destruct (carry_chain _ _ _ _ _ B0 B1 B2 B3 B4) as (c0 & c1 & c2 & c3 & c4 & c5 & E & Hok).
  split; [exact Hok|]. cbn zeta in E. rewrite E. eexists. rewrite poly_mul_arith.
  rewrite <- Hsum, !lval_list. f_equal. f_equal. ring.
Qed.

(** ** The polynomial *)

(** [n] full blocks: the accumulator of RFC 7539. *)
Fixpoint poly_eval (n : nat) (r acc : Z) (msg : list Z) : Z :=
  match n with
  | O => acc
  | S n => poly_eval n r (((acc + le_val (take 16 msg) + 2 ^ 128) * r) mod P1305) (drop 16 msg)
  end.

Lemma poly_eval_add m : forall n r acc msg,
  poly_eval (m + n) r acc msg = poly_eval n r (poly_eval m r acc msg) (drop (m * 16) msg).
Proof.
  induction m as [|m IH]; intros n r acc msg; cbn [Nat.add poly_eval Nat.mul]; [by rewrite drop_0|].
  by rewrite IH, drop_drop.
Qed.

Lemma poly_eval_prefix n : forall r acc msg xs, (n * 16 <= length msg)%nat ->
  poly_eval n r acc (msg ++ xs) = poly_eval n r acc msg.
Proof.
  induction n as [|n IH]; intros r acc msg xs H; [done|]. cbn [poly_eval].
  rewrite take_app_le, drop_app_le by lia. apply IH. rewrite length_drop. lia.
Qed.

Lemma U8TO32_take m off : (off + 4 <= 16)%nat -> U8TO32 (take 16 m) off = U8TO32 m off.
Proof. intros. unfold U8TO32. by rewrite skipn_firstn_comm, take_take, Nat.min_l by lia. Qed.

Lemma block_take r h hibit m : poly1305_block ulw r h hibit (take 16 m) = poly1305_block ulw r h hibit m.
Proof. unfold poly1305_block. by rewrite !U8TO32_take by lia. Qed.

Lemma P1305_pos : 0 < P1305.
Proof. by vm_compute. Qed.

(** One block on the accumulator value. *)
Lemma block_mod r h hibit m acc :
  r_ok r -> h_ok h -> Forall is_byte m -> (16 <= length m)%nat -> hibit = 0 \/ hibit = 2 ^ 24 ->
  lval h mod P1305 = acc mod P1305 ->
  h_ok (poly1305_block ulw r h hibit m) /\
  lval (poly1305_block ulw r h hibit m) mod P1305
  = ((acc + le_val (take 16 m) + 2 ^ 104 * hibit) * lval r) mod P1305.
Proof.
  intros Hr Hh Hm Hl Hb Ha. rewrite <- block_take.
  destruct (poly1305_block_ok r h hibit (take 16 m)) as [Hok (k & Hk)]; [done|done| | |done|].
  { by apply Forall_take. } { rewrite length_take. lia. }
  split; [done|]. rewrite Hk, <- Z.add_opp_r, <- Z.mul_opp_r, (Z.mul_comm P1305), Z.mod_add by done.
  rewrite Z.mul_mod by done. rewrite (Z.mul_mod (acc + _ + _)) by done. f_equal. f_equal.
  rewrite <- !Z.add_assoc, Z.add_mod, Ha, <- Z.add_mod by done. done.
Qed.

Lemma blocks_loop_ok n : forall r h m acc,
  r_ok r -> h_ok h -> Forall is_byte m -> (n * 16 <= length m)%nat -> lval h mod P1305 = acc mod P1305 ->
  h_ok (blocks_loop ulw n r h (2 ^ 24) m) /\
  lval (blocks_loop ulw n r h (2 ^ 24) m) mod P1305 = poly_eval n (lval r) acc m mod P1305.
Proof.
  induction n as [|n IH]; intros r h m acc Hr Hh Hm Hl Ha; cbn [blocks_loop poly_eval]; [done|].
  destruct (block_mod r h (2 ^ 24) m acc) as [Hok Hv]; [done|done|done|lia|by right|done|].
  apply IH; [done|done|by apply Forall_drop|rewrite length_drop; lia|].
  rewrite Hv. change (2 ^ 104 * 2 ^ 24) with (2 ^ 128). by rewrite Z.mod_mod.
Qed.

(** ** The state represents the message authenticated so far *)

Record p_rep (r : Z) (pad : list Z) (st : poly1305_state) (msg : list Z) : Prop := {
  pp_r : r_ok (pr st) /\ lval (pr st) = r;
  pp_h : h_ok (ph st);
  pp_acc : lval (ph st) mod P1305 = poly_eval (length msg / 16) r 0 msg mod P1305;
  pp_pad : ppad st = pad;
  pp_left : leftover st = (length msg mod 16)%nat;
  pp_len : length (pbuffer st) = 16%nat;
  pp_bytes : Forall is_byte (pbuffer st);
  pp_buf : take (length msg mod 16) (pbuffer st) = drop (length msg / 16 * 16) msg;
  pp_final : final st = false;
}.

Section Update.
Context (r : Z) (pad : list Z).

(** Whole blocks appended at a block boundary. *)
Lemma rep_blocks st msg d : p_rep r pad st msg -> (length msg mod 16 = 0)%nat ->
  (length d mod 16 = 0)%nat -> Forall is_byte d ->
  p_rep r pad (poly1305_blocks ulw st d) (msg ++ d).
Proof.
  intros [[Hr <-] Hh Ha Hp Hleft Hlen Hb Hbuf Hf] Hm Hd Hby. unfold poly1305_blocks. rewrite Hf.
  change (Z.shiftl 1 24) with (2 ^ 24).
  pose proof (Nat.div_mod_eq (length msg) 16) as E1. pose proof (Nat.div_mod_eq (length d) 16) as E2.
  assert (Hl : length (msg ++ d) = ((length msg / 16 + length d / 16) * 16)%nat)
    by (rewrite length_app; lia).
  destruct (blocks_loop_ok (length d / 16) (pr st) (ph st) d _ Hr Hh Hby ltac:(lia) Ha) as [Hok Hv].
  assert (Hq : (length (msg ++ d) / 16 = length msg / 16 + length d / 16)%nat)
    by (rewrite Hl; by apply Nat.div_mul).
  assert (Hmod : (length (msg ++ d) mod 16 = 0)%nat) by (rewrite Hl; by apply Nat.Div0.mod_mul).
  split; cbn [pr ph ppad leftover pbuffer final]; try done.
  - rewrite Hv, Hq, poly_eval_add, poly_eval_prefix by lia.
    by rewrite drop_app_length' by lia.
  - by rewrite Hleft, Hm, Hmod.
  - rewrite Hmod, Hq, drop_ge by (rewrite length_app; lia). done.
Qed.

(** Bytes that do not complete a block. *)
Lemma rep_left st msg d : p_rep r pad st msg -> (length msg mod 16 + length d < 16)%nat ->
  Forall is_byte d ->
  p_rep r pad (Poly1305State (pr st) (ph st) (ppad st) (leftover st + length d)
                 (memcpy (pbuffer st) (leftover st) d) (final st)) (msg ++ d).
Proof.
  intros [Hr Hh Ha Hp Hleft Hlen Hb Hbuf Hf] Hm Hby.
  pose proof (Nat.div_mod_eq (length msg) 16) as E1.
  assert (Hq : (length (msg ++ d) / 16 = length msg / 16)%nat).
  { symmetry. apply (Nat.div_unique _ _ _ (length msg mod 16 + length d)); [lia|]. rewrite length_app. lia. }
  assert (Hmod : (length (msg ++ d) mod 16 = length msg mod 16 + length d)%nat).
  { symmetry. apply (Nat.mod_unique _ _ (length msg / 16)); [lia|]. rewrite length_app. lia. }
  split; cbn [pr ph ppad leftover pbuffer final]; try done.
  - rewrite Hq, poly_eval_prefix by lia. done.
  - by rewrite Hleft, Hmod.
  - rewrite length_memcpy; lia.
  - by apply Forall_memcpy.
  - rewrite Hmod, Hq, Hleft, take_memcpy by lia. by rewrite Hbuf, drop_app_le by lia.
Qed.

(** The part of [poly1305_update] after the leftover is handled. *)
Definition update_tail (st : poly1305_state) (m : list Z) : poly1305_state :=
  let want := (length m / 16 * 16)%nat in
  let '(st, m) :=
    if (16 <=? length m)%nat then (poly1305_blocks ulw st (take want m), drop want m) else (st, m) in
  if (length m =? 0)%nat then st
  else Poly1305State (pr st) (ph st) (ppad st) (leftover st + length m)
         (memcpy (pbuffer st) (leftover st) m) (final st).

Lemma update_tail_rep st msg d : p_rep r pad st msg -> (length msg mod 16 = 0)%nat ->
  Forall is_byte d -> p_rep r pad (update_tail st d) (msg ++ d).
Proof.
  intros R Hm Hb. unfold update_tail.
  assert (G : forall st msg d, p_rep r pad st msg -> (length msg mod 16 = 0)%nat -> Forall is_byte d ->
    (length d < 16)%nat ->
    p_rep r pad (if (length d =? 0)%nat then st
      else Poly1305State (pr st) (ph st) (ppad st) (leftover st + length d)
             (memcpy (pbuffer st) (leftover st) d) (final st)) (msg ++ d)).
  { clear. intros st msg d R Hm Hb Hl. destruct (Nat.eqb_spec (length d) 0).
    - destruct d; [|done]. by rewrite app_nil_r.
    - apply rep_left; [done|lia|done]. }
  destruct (Nat.leb_spec 16 (length d)); [|by apply G].
  pose proof (Nat.div_mod_eq (length d) 16) as E. pose proof (Nat.mod_upper_bound (length d) 16).
  set (w := (length d / 16 * 16)%nat). replace (msg ++ d) with ((msg ++ take w d) ++ drop w d)
    by (by rewrite <- app_assoc, take_drop).
  assert (Hw : length (take w d) = w) by (rewrite length_take; lia).
  apply G; [apply rep_blocks; [done|done| |by apply Forall_take]| |by apply Forall_drop|].
  - rewrite Hw. unfold w. apply Nat.Div0.mod_mul.
  - rewrite length_app, Hw, <- Nat.Div0.add_mod_idemp_l, Hm. unfold w. apply Nat.Div0.mod_mul.
  - rewrite length_drop. lia.
Qed.

(** Bytes that complete the buffered block. *)
Lemma rep_complete st msg d : p_rep r pad st msg -> (length msg mod 16 + length d = 16)%nat ->
  (length msg mod 16 <> 0)%nat -> Forall is_byte d ->
  let buf := memcpy (pbuffer st) (leftover st) d in
  let st' := poly1305_blocks ulw (Poly1305State (pr st) (ph st) (ppad st)
               (leftover st + length d) buf (final st)) buf in
  p_rep r pad (Poly1305State (pr st') (ph st') (ppad st') 0 (pbuffer st') (final st')) (msg ++ d).
Proof.
  intros [[Hr <-] Hh Ha Hp Hleft Hlen Hb Hbuf Hf] Hd Hne Hby. cbn zeta.
  pose proof (Nat.div_mod_eq (length msg) 16) as E1.
  assert (Hl : length (msg ++ d) = (S (length msg / 16) * 16)%nat) by (rewrite length_app; lia).
  assert (Hq : (length (msg ++ d) / 16 = length msg / 16 + 1)%nat)
    by (rewrite Hl, Nat.div_mul; lia).
  assert (Hmod : (length (msg ++ d) mod 16 = 0)%nat) by (rewrite Hl; by apply Nat.Div0.mod_mul).
  assert (Hm : memcpy (pbuffer st) (leftover st) d = drop (length msg / 16 * 16) msg ++ d)
    by (rewrite memcpy_full, Hleft, Hbuf by lia; done).
  unfold poly1305_blocks. cbn [pr ph ppad leftover pbuffer final]. rewrite Hf.
  change (Z.shiftl 1 24) with (2 ^ 24).
  set (buf := memcpy _ _ _) in *.
  assert (Hbl : length buf = 16%nat) by (rewrite Hm, length_app, length_drop; lia).
  assert (Hbb : Forall is_byte buf) by (by apply Forall_memcpy).
  destruct (blocks_loop_ok 1 (pr st) (ph st) buf _ Hr Hh Hbb ltac:(lia) Ha) as [Hok Hv].
  rewrite Hbl. change (16 / 16)%nat with 1%nat.
  split; cbn [pr ph ppad leftover pbuffer final]; try done.
  - rewrite Hv, Hq, poly_eval_add, poly_eval_prefix by lia.
    rewrite drop_app_le by lia. by rewrite <- Hm.
  - rewrite Hmod, Hq, drop_ge by (rewrite length_app; lia). done.
Qed.

Lemma poly1305_update_rep st msg d : p_rep r pad st msg -> Forall is_byte d ->
  p_rep r pad (poly1305_update ulw st d) (msg ++ d).
Proof.
  intros R Hb. unfold poly1305_update. pose proof (pp_left _ _ _ _ R) as Hleft.
  pose proof (Nat.mod_upper_bound (length msg) 16).
  destruct (Nat.eqb_spec (leftover st) 0) as [E|E].
  { apply update_tail_rep; [done|lia|done]. }
  set (want := Nat.min (16 - leftover st) (length d)).
  assert (Hw : length (take want d) = want) by (rewrite length_take; lia).
  cbn [leftover]. destruct (Nat.ltb_spec (leftover st + want) 16).
  - cbn [negb]. assert (want = length d) as -> by lia. rewrite take_ge by lia.
    apply rep_left; [done|lia|done].
  - cbn [negb]. replace (msg ++ d) with ((msg ++ take want d) ++ drop want d)
      by (by rewrite <- app_assoc, take_drop).
    apply update_tail_rep; [|rewrite length_app, Hw|by apply Forall_drop].
    + pose proof (rep_complete st msg (take want d) R) as G. cbn zeta in G. rewrite Hw in G.
      apply G; [lia|lia|by apply Forall_take].
    + rewrite <- Nat.Div0.add_mod_idemp_l.
      by replace (length msg mod 16 + want)%nat with 16%nat by lia.
Qed.

End Update.

(** ** The final reduction *)

(** [mac = (h mod p + pad) mod 2^128] on words. *)
Definition pval (pad : list Z) : Z :=
  znth 0 pad 0 + 2 ^ 32 * znth 0 pad 1 + 2 ^ 64 * znth 0 pad 2 + 2 ^ 96 * znth 0 pad 3.

Lemma land_ff32 x : x .& 0xffffffff = x mod 2 ^ 32.
Proof. change 0xffffffff with (Z.ones 32). by rewrite Z.land_ones by lia. Qed.

(** Full carry: canonical limbs of a value congruent to [h]. *)
Lemma full_carry h0 h1 h2 h3 h4 : h_ok [h0; h1; h2; h3; h4] ->
  exists a0 a1 a2 a3 a4 k,
    let h := lval [h0; h1; h2; h3; h4] in
    (let c := Z.shiftr h1 26 in let h1 := h1 .& 0x3ffffff in
     let h2 := UL ulw (h2 + c) in let c := Z.shiftr h2 26 in let h2 := h2 .& 0x3ffffff in
     let h3 := UL ulw (h3 + c) in let c := Z.shiftr h3 26 in let h3 := h3 .& 0x3ffffff in
     let h4 := UL ulw (h4 + c) in let c := Z.shiftr h4 26 in let h4 := h4 .& 0x3ffffff in
     let h0 := UL ulw (h0 + UL ulw (c * 5)) in let c := Z.shiftr h0 26 in let h0 := h0 .& 0x3ffffff in
     let h1 := UL ulw (h1 + c) in [h0; h1; h2; h3; h4]) = [a0; a1; a2; a3; a4] /\
    0 <= a0 < 2 ^ 26 /\ 0 <= a1 < 2 ^ 26 /\ 0 <= a2 < 2 ^ 26 /\ 0 <= a3 < 2 ^ 26 /\ 0 <= a4 < 2 ^ 26 /\
    lval [a0; a1; a2; a3; a4] = h - P1305 * k.
Proof.
  intros (g0 & g1 & g2 & g3 & g4 & [= <- <- <- <- <-] & H0 & H1 & H2 & H3 & H4). cbn zeta.
  assert (D : forall x, x = 2 ^ 26 * (x / 2 ^ 26) + x mod 2 ^ 26 /\ 0 <= x mod 2 ^ 26 < 2 ^ 26)
    by (intros x; split; [apply Z.div_mod; lia|apply Z.mod_pos_bound; lia]).
  rewrite !UL_mod_26, !land_26, !Z.shiftr_div_pow2 by lia.
  pose (c1 := h1 / 2 ^ 26). pose proof (D h1) as [E1 B1]. fold c1 in E1. fold c1.
  rewrite (UL_small (h2 + c1)) by lia.
  pose (c2 := (h2 + c1) / 2 ^ 26). pose proof (D (h2 + c1)) as [E2 B2]. fold c2 in E2. fold c2.
  rewrite (UL_small (h3 + c2)) by lia.
  pose (c3 := (h3 + c2) / 2 ^ 26). pose proof (D (h3 + c2)) as [E3 B3]. fold c3 in E3. fold c3.
  rewrite (UL_small (h4 + c3)) by lia.
  pose (c4 := (h4 + c3) / 2 ^ 26). pose proof (D (h4 + c3)) as [E4 B4]. fold c4 in E4. fold c4.
  rewrite (UL_small (c4 * 5)), (UL_small (h0 + c4 * 5)) by lia.
  pose (c0 := (h0 + c4 * 5) / 2 ^ 26). pose proof (D (h0 + c4 * 5)) as [E0 B0]. fold c0 in E0. fold c0.
  rewrite (UL_small (h1 mod 2 ^ 26 + c0)) by lia.
  do 5 eexists. exists c4. split; [reflexivity|]. split; [done|]. split; [lia|]. do 3 (split; [done|]).
  rewrite !lval_list. unfold P1305. lia.
Qed.

Lemma UL_ones x : 0 <= x < 2 ^ 32 -> x .& (2 ^ ulw - 1) = x.
Proof.
  intros Hx. replace (2 ^ ulw - 1) with (Z.ones ulw) by (rewrite Z.ones_equiv; lia).
  rewrite Z.land_ones by lia. apply (UL_small x Hx).
Qed.

(** Selection of [h] or [h - p]: limbs of [h mod p]. *)
Definition select_limbs (h0 h1 h2 h3 h4 : Z) : list Z :=
  let g0 := UL ulw (h0 + 5) in let c := Z.shiftr g0 26 in let g0 := g0 .& 0x3ffffff in
  let g1 := UL ulw (h1 + c) in let c := Z.shiftr g1 26 in let g1 := g1 .& 0x3ffffff in
  let g2 := UL ulw (h2 + c) in let c := Z.shiftr g2 26 in let g2 := g2 .& 0x3ffffff in
  let g3 := UL ulw (h3 + c) in let c := Z.shiftr g3 26 in let g3 := g3 .& 0x3ffffff in
  let g4 := UL ulw (h4 + c - Z.shiftl 1 26) in
  let mask := UL ulw (Z.shiftr g4 (ulw - 1) - 1) in
  let g0 := g0 .& mask in let g1 := g1 .& mask in let g2 := g2 .& mask in
  let g3 := g3 .& mask in let g4 := g4 .& mask in
  let mask := 2 ^ ulw - 1 - mask in
  [(h0 .& mask) .| g0; (h1 .& mask) .| g1; (h2 .& mask) .| g2; (h3 .& mask) .| g3; (h4 .& mask) .| g4].

Lemma select_ok a0 a1 a2 a3 a4 :
  0 <= a0 < 2 ^ 26 -> 0 <= a1 < 2 ^ 26 -> 0 <= a2 < 2 ^ 26 -> 0 <= a3 < 2 ^ 26 -> 0 <= a4 < 2 ^ 26 ->
  exists b0 b1 b2 b3 b4, select_limbs a0 a1 a2 a3 a4 = [b0; b1; b2; b3; b4] /\
    0 <= b0 < 2 ^ 26 /\ 0 <= b1 < 2 ^ 26 /\ 0 <= b2 < 2 ^ 26 /\ 0 <= b3 < 2 ^ 26 /\ 0 <= b4 < 2 ^ 26 /\
    lval [b0; b1; b2; b3; b4] = lval [a0; a1; a2; a3; a4] mod P1305.
Proof.
  intros H0 H1 H2 H3 H4. unfold select_limbs. cbn zeta.
  assert (D : forall x, x = 2 ^ 26 * (x / 2 ^ 26) + x mod 2 ^ 26 /\ 0 <= x mod 2 ^ 26 < 2 ^ 26)
    by (intros x; split; [apply Z.div_mod; lia|apply Z.mod_pos_bound; lia]).
  rewrite !UL_mod_26, !(Z.shiftr_div_pow2 _ 26) by lia.
  rewrite (UL_small (a0 + 5)) by lia.
  pose (c0 := (a0 + 5) / 2 ^ 26). pose proof (D (a0 + 5)) as [E0 B0]. fold c0 in E0. fold c0.
  rewrite (UL_small (a1 + c0)) by lia.
  pose (c1 := (a1 + c0) / 2 ^ 26). pose proof (D (a1 + c0)) as [E1 B1]. fold c1 in E1. fold c1.
  rewrite (UL_small (a2 + c1)) by lia.
  pose (c2 := (a2 + c1) / 2 ^ 26). pose proof (D (a2 + c1)) as [E2 B2]. fold c2 in E2. fold c2.
  rewrite (UL_small (a3 + c2)) by lia.
  pose (c3 := (a3 + c2) / 2 ^ 26). pose proof (D (a3 + c2)) as [E3 B3]. fold c3 in E3. fold c3.
  clearbody c0 c1 c2 c3. clear D. change (Z.shiftl 1 26) with (2 ^ 26).
  assert (Hc : 0 <= c3 <= 1) by lia. assert (Hw : 2 ^ ulw = 2 ^ (ulw - 1) * 2)
    by (rewrite Z.mul_comm, <- Z.pow_succ_r by lia; f_equal; lia).
  assert (Hw2 : 2 ^ 31 <= 2 ^ (ulw - 1)) by (apply Z.pow_le_mono_r; lia).
  destruct (Z.lt_ge_cases (a4 + c3) (2 ^ 26)) as [Hlt|Hge].
  - assert (Em : Z.shiftr (UL ulw (a4 + c3 - 2 ^ 26)) (ulw - 1) = 1).
    { unfold UL, wrap. rewrite Z.shiftr_div_pow2 by lia.
      replace ((a4 + c3 - 2 ^ 26) mod 2 ^ ulw) with (a4 + c3 - 2 ^ 26 + 2 ^ ulw)
        by (apply (Z.mod_unique _ _ (-1)); lia).
      symmetry. apply (Z.div_unique _ _ _ (a4 + c3 - 2 ^ 26 + 2 ^ (ulw - 1))); lia. }
    rewrite Em. change (UL ulw (1 - 1)) with (UL ulw 0). rewrite (UL_small 0) by lia.
    rewrite !Z.land_0_r, !Z.lor_0_r, Z.sub_0_r, !UL_ones by lia.
    do 5 eexists. split; [reflexivity|]. do 5 (split; [done|]).
    symmetry. apply Z.mod_small. rewrite lval_list. unfold P1305. lia.
  - assert (Em : Z.shiftr (UL ulw (a4 + c3 - 2 ^ 26)) (ulw - 1) = 0).
    { rewrite UL_small, Z.shiftr_div_pow2 by lia. apply Z.div_small. lia. }
    assert (Eo : UL ulw (0 - 1) = 2 ^ ulw - 1) by (symmetry; apply (Z.mod_unique _ _ (-1)); lia).
    rewrite Em, Eo, Z.sub_diag, !Z.land_0_r, !Z.lor_0_l, (UL_small (a4 + c3 - 2 ^ 26)), !UL_ones by lia.
    do 5 eexists. split; [reflexivity|]. do 5 (split; [lia|]).
    apply (Z.mod_unique _ _ 1); rewrite !lval_list; unfold P1305; lia.
Qed.

(** Packing of the limbs into words. *)
Lemma pack_word lo hi k : 0 <= k <= 32 -> 0 <= lo < 2 ^ k ->
  (lo .| UL ulw (Z.shiftl hi k)) .& 0xffffffff = (lo + hi * 2 ^ k) mod 2 ^ 32.
Proof.
  intros Hk Hlo. rewrite land_ff32, <- lor_shift by lia.
  apply Z.bits_inj'. intros b Hb. destruct (Z.lt_ge_cases b 32).
  - rewrite !Z.mod_pow2_bits_low, !Z.lor_spec by lia. unfold UL, wrap.
    by rewrite Z.mod_pow2_bits_low by lia.
  - by rewrite !Z.mod_pow2_bits_high by lia.
Qed.

(** The words of a value given by canonical limbs. *)
Lemma pack_words b0 b1 b2 b3 b4 :
  0 <= b0 < 2 ^ 26 -> 0 <= b1 < 2 ^ 26 -> 0 <= b2 < 2 ^ 26 -> 0 <= b3 < 2 ^ 26 -> 0 <= b4 < 2 ^ 26 ->
  let v := lval [b0; b1; b2; b3; b4] in
  (b0 .| UL ulw (Z.shiftl b1 26)) .& 0xffffffff = v mod 2 ^ 32 /\
  (Z.shiftr b1 6 .| UL ulw (Z.shiftl b2 20)) .& 0xffffffff = (v / 2 ^ 32) mod 2 ^ 32 /\
  (Z.shiftr b2 12 .| UL ulw (Z.shiftl b3 14)) .& 0xffffffff = (v / 2 ^ 64) mod 2 ^ 32 /\
  (Z.shiftr b3 18 .| UL ulw (Z.shiftl b4 8)) .& 0xffffffff = (v / 2 ^ 96) mod 2 ^ 32.
Proof.
  intros H0 H1 H2 H3 H4 v. rewrite !Z.shiftr_div_pow2 by lia.
  assert (D : forall x s, 0 <= s <= 26 -> 0 <= x < 2 ^ 26 -> x = 2 ^ s * (x / 2 ^ s) + x mod 2 ^ s /\
    0 <= x mod 2 ^ s < 2 ^ s /\ 0 <= x / 2 ^ s < 2 ^ (26 - s)).
  { intros x s Hs Hx. assert (0 < 2 ^ s) by (apply Z.pow_pos_nonneg; lia).
    split; [apply Z.div_mod; lia|split; [apply Z.mod_pos_bound; lia|]].
    split; [apply Z.div_pos; lia|apply Z.div_lt_upper_bound; [lia|]].
    rewrite <- Z.pow_add_r by lia. replace (s + (26 - s)) with 26 by lia. lia. }
  pose proof (D b1 6 ltac:(lia) H1) as (E1 & R1 & Q1).
  pose proof (D b2 12 ltac:(lia) H2) as (E2 & R2 & Q2).
  pose proof (D b3 18 ltac:(lia) H3) as (E3 & R3 & Q3). clear D.
  rewrite !pack_word by lia. unfold v. rewrite !lval_list.
  set (q1 := b1 / 2 ^ 6) in *. set (t1 := b1 mod 2 ^ 6) in *. set (q2 := b2 / 2 ^ 12) in *.
  set (t2 := b2 mod 2 ^ 12) in *. set (q3 := b3 / 2 ^ 18) in *. set (t3 := b3 mod 2 ^ 18) in *.
  clearbody q1 t1 q2 t2 q3 t3. split; [|split; [|split]].
  - replace (b0 + 2 ^ 26 * b1 + 2 ^ 52 * b2 + 2 ^ 78 * b3 + 2 ^ 104 * b4)
      with (b0 + b1 * 2 ^ 26 + (2 ^ 20 * b2 + 2 ^ 46 * b3 + 2 ^ 72 * b4) * 2 ^ 32) by ring.
    by rewrite Z.mod_add by lia.
  - replace ((b0 + 2 ^ 26 * b1 + 2 ^ 52 * b2 + 2 ^ 78 * b3 + 2 ^ 104 * b4) / 2 ^ 32)
      with (q1 + b2 * 2 ^ 20 + (2 ^ 14 * b3 + 2 ^ 40 * b4) * 2 ^ 32)
      by (apply (Z.div_unique _ _ _ (b0 + 2 ^ 26 * t1)); lia).
    by rewrite Z.mod_add by lia.
  - replace ((b0 + 2 ^ 26 * b1 + 2 ^ 52 * b2 + 2 ^ 78 * b3 + 2 ^ 104 * b4) / 2 ^ 64)
      with (q2 + b3 * 2 ^ 14 + (2 ^ 8 * b4) * 2 ^ 32)
      by (apply (Z.div_unique _ _ _ (b0 + 2 ^ 26 * b1 + 2 ^ 52 * t2)); lia).
    by rewrite Z.mod_add by lia.
  - f_equal. apply (Z.div_unique _ _ _ (b0 + 2 ^ 26 * b1 + 2 ^ 52 * b2 + 2 ^ 78 * t3)); lia.
Qed.

(** The final addition with carries through 64-bit sums. *)
Lemma add_words v p0 p1 p2 p3 :
  0 <= v -> 0 <= p0 < 2 ^ 32 -> 0 <= p1 < 2 ^ 32 -> 0 <= p2 < 2 ^ 32 -> 0 <= p3 < 2 ^ 32 ->
  let f0 := ULL (v mod 2 ^ 32 + p0) in
  let f1 := ULL ((v / 2 ^ 32) mod 2 ^ 32 + p1 + Z.shiftr f0 32) in
  let f2 := ULL ((v / 2 ^ 64) mod 2 ^ 32 + p2 + Z.shiftr f1 32) in
  let f3 := ULL ((v / 2 ^ 96) mod 2 ^ 32 + p3 + Z.shiftr f2 32) in
  U32TO8 (UL ulw f0) ++ U32TO8 (UL ulw f1) ++ U32TO8 (UL ulw f2) ++ U32TO8 (UL ulw f3)
  = le_bytes 16 (v + (p0 + 2 ^ 32 * p1 + 2 ^ 64 * p2 + 2 ^ 96 * p3)).
Proof.
  intros Hv P0 P1 P2 P3. cbn zeta. unfold U32TO8.
  assert (U : forall x, le_bytes 4 (UL ulw x) = le_bytes 4 x).
  { intros x. rewrite <- (le_bytes_mod 4 x), <- (le_bytes_mod 4 (UL ulw x)). f_equal.
    change (256 ^ Z.of_nat 4) with (2 ^ 32). unfold UL, wrap. apply Z.bits_inj'. intros b Hb.
    destruct (Z.lt_ge_cases b 32); [by rewrite !Z.mod_pow2_bits_low by lia|].
    by rewrite !Z.mod_pow2_bits_high by lia. }
  rewrite !U. clear U.
  assert (D : forall x, x = 2 ^ 32 * (x / 2 ^ 32) + x mod 2 ^ 32 /\ 0 <= x mod 2 ^ 32 < 2 ^ 32)
    by (intros x; split; [apply Z.div_mod; lia|apply Z.mod_pos_bound; lia]).
  rewrite !Z.shiftr_div_pow2 by lia.
  destruct (D v) as [E0 B0]. destruct (D (v / 2 ^ 32)) as [E1 B1]. destruct (D (v / 2 ^ 64)) as [E2 B2].
  destruct (D (v / 2 ^ 96)) as [E3 B3].
  assert (Q : v / 2 ^ 32 / 2 ^ 32 = v / 2 ^ 64 /\ v / 2 ^ 64 / 2 ^ 32 = v / 2 ^ 96)
    by (rewrite !Z.div_div by lia; done).
  destruct Q as [Q1 Q2]. rewrite Q1 in E1. rewrite Q2 in E2.
  set (w0 := v mod 2 ^ 32) in *. set (w1 := (v / 2 ^ 32) mod 2 ^ 32) in *.
  set (w2 := (v / 2 ^ 64) mod 2 ^ 32) in *. set (w3 := (v / 2 ^ 96) mod 2 ^ 32) in *.
  clearbody w0 w1 w2 w3. destruct (D (w0 + p0)) as [F0 G0].
  rewrite (ULL_small (w0 + p0)) by lia. set (k0 := (w0 + p0) / 2 ^ 32) in *.
  destruct (D (w1 + p1 + k0)) as [F1 G1]. rewrite (ULL_small (w1 + p1 + k0)) by lia.
  set (k1 := (w1 + p1 + k0) / 2 ^ 32) in *. destruct (D (w2 + p2 + k1)) as [F2 G2].
  rewrite (ULL_small (w2 + p2 + k1)) by lia. set (k2 := (w2 + p2 + k1) / 2 ^ 32) in *.
  rewrite (ULL_small (w3 + p3 + k2)) by lia. clearbody k0 k1 k2.
  change 16%nat with (4 + (4 + (4 + 4)))%nat. rewrite !le_bytes_add. change (256 ^ Z.of_nat 4) with (2 ^ 32).
  set (t := v + _). assert (T1 : t / 2 ^ 32 = w1 + p1 + k0 + 2 ^ 32 * (v / 2 ^ 64 + p2 + 2 ^ 32 * p3)).
  { symmetry. apply (Z.div_unique _ _ _ ((w0 + p0) mod 2 ^ 32)); unfold t; lia. }
  assert (T2 : t / 2 ^ 32 / 2 ^ 32 = w2 + p2 + k1 + 2 ^ 32 * (v / 2 ^ 96 + p3)).
  { rewrite T1. symmetry. apply (Z.div_unique _ _ _ ((w1 + p1 + k0) mod 2 ^ 32)); lia. }
  assert (T3 : t / 2 ^ 32 / 2 ^ 32 / 2 ^ 32 = w3 + p3 + k2 + 2 ^ 32 * (v / 2 ^ 96 / 2 ^ 32)).
  { rewrite T2. symmetry. apply (Z.div_unique _ _ _ ((w2 + p2 + k1) mod 2 ^ 32)); lia. }
  assert (M : forall x y k, x = y + 2 ^ 32 * k -> le_bytes 4 x = le_bytes 4 y).
  { intros x y k ->. rewrite <- (le_bytes_mod 4 y), <- le_bytes_mod. f_equal.
    change (256 ^ Z.of_nat 4) with (2 ^ 32). by rewrite Z.mul_comm, Z.mod_add by lia. }
  rewrite <- (M _ _ _ T3), <- (M _ _ _ T2), <- (M _ _ _ T1). f_equal. symmetry.
  apply (M _ _ (v / 2 ^ 32 + p1 + 2 ^ 32 * p2 + 2 ^ 64 * p3)). unfold t. lia.
Qed.

Lemma poly1305_tag_ok h pad p0 p1 p2 p3 : h_ok h -> pad = [p0; p1; p2; p3] ->
  0 <= p0 < 2 ^ 32 -> 0 <= p1 < 2 ^ 32 -> 0 <= p2 < 2 ^ 32 -> 0 <= p3 < 2 ^ 32 ->
  poly1305_tag ulw h pad
  = le_bytes 16 (lval h mod P1305 + (p0 + 2 ^ 32 * p1 + 2 ^ 64 * p2 + 2 ^ 96 * p3)).
Proof.
  intros Hok -> P0 P1 P2 P3. pose proof Hok as (h0 & h1 & h2 & h3 & h4 & -> & _).
  destruct (full_carry h0 h1 h2 h3 h4 Hok) as (a0 & a1 & a2 & a3 & a4 & k & E & A0 & A1 & A2 & A3 & A4 & V).
  destruct (select_ok a0 a1 a2 a3 a4 A0 A1 A2 A3 A4)
    as (b0 & b1 & b2 & b3 & b4 & F & B0 & B1 & B2 & B3 & B4 & W).
  unfold poly1305_tag. limbs_eval.
  change (znth 0 [p0; p1; p2; p3] 0) with p0. change (znth 0 [p0; p1; p2; p3] 1) with p1.
  change (znth 0 [p0; p1; p2; p3] 2) with p2. change (znth 0 [p0; p1; p2; p3] 3) with p3.
  cbn zeta in E |- *. injection E as E0 E1 E2 E3 E4. rewrite E1, E2, E3, E4, E0.
  unfold select_limbs in F. cbn zeta in F. injection F as F0 F1 F2 F3 F4. rewrite F0, F1, F2, F3, F4.
  destruct (pack_words b0 b1 b2 b3 b4 B0 B1 B2 B3 B4) as (K0 & K1 & K2 & K3).
  rewrite K0, K1, K2, K3. rewrite W, V in *.
  replace ((lval [h0; h1; h2; h3; h4] - P1305 * k) mod P1305) with (lval [h0; h1; h2; h3; h4] mod P1305)
    by (rewrite <- Z.add_opp_r, <- Z.mul_opp_r, (Z.mul_comm P1305), Z.mod_add by done; done).
  apply add_words; [|done..]. by apply Z.mod_pos_bound.
Qed.

(** ** Keys *)

Definition clamp_mask : Z := 0x0ffffffc0ffffffc0ffffffc0fffffff.

Lemma land_mod_26 x M : Z.land M (Z.ones 26) = M -> x .& M = (x mod 2 ^ 26) .& M.
Proof.
  intros HM. rewrite <- Z.land_ones, <- Z.land_assoc, (Z.land_comm (Z.ones 26)), HM by lia. done.
Qed.

Lemma clamp_limb key off s M : Forall is_byte key -> 0 <= s <= 6 ->
  (Z.shiftr clamp_mask (8 * Z.of_nat off + s) .& Z.ones 26) = M ->
  Z.shiftr (U8TO32 key off) s .& M
  = (Z.land (le_val key) clamp_mask / 2 ^ (8 * Z.of_nat off + s)) mod 2 ^ 26.
Proof.
  intros Hk Hs HM. assert (HM' : Z.land M (Z.ones 26) = M)
    by (rewrite <- HM, <- Z.land_assoc, Z.land_diag; done).
  rewrite (land_mod_26 _ M HM'), limb, <- (land_mod_26 _ M HM') by (done || lia).
  rewrite <- (Z.land_ones (_ / _)), <- !Z.shiftr_div_pow2, Z.shiftr_land, <- Z.land_assoc, HM by lia.
  done.
Qed.

Lemma init_r key : Forall is_byte key -> (16 <= length key)%nat ->
  r_ok (pr (poly1305_init key)) /\
  lval (pr (poly1305_init key)) = Z.land (le_val (take 16 key)) clamp_mask.
Proof.
  intros Hk Hl. unfold poly1305_init. cbn [pr].
  set (k := take 16 key). assert (Hkb : Forall is_byte k) by (by apply Forall_take).
  rewrite <- !(U8TO32_take key) by lia. fold k.
  set (X := Z.land (le_val k) clamp_mask).
  assert (HX : 0 <= X < 2 ^ 124) by (apply land_bound; [lia|by vm_compute]).
  assert (L0 : U8TO32 k 0 .& 0x3ffffff = X mod 2 ^ 26).
  { pose proof (clamp_limb k 0 0 0x3ffffff Hkb ltac:(lia) eq_refl) as E.
    rewrite Z.shiftr_0_r in E. rewrite E. by rewrite Z.div_1_r. }
  rewrite L0, (clamp_limb k 3 2 _ Hkb), (clamp_limb k 6 4 _ Hkb), (clamp_limb k 9 6 _ Hkb)
    by (lia || reflexivity). fold X.
  assert (L4 : Z.shiftr (U8TO32 k 12) 8 .& 0x00fffff = X / 2 ^ 104).
  { change 0x00fffff with (Z.land (Z.shiftr clamp_mask 104) (Z.ones 24)).
    rewrite (Z.land_comm (Z.shiftr clamp_mask 104)), Z.land_assoc, Z.land_ones by lia.
    rewrite (limb k 12 8 24) by (done || lia). change (8 * Z.of_nat 12 + 8) with 104.
    rewrite <- Z.land_ones, <- Z.land_assoc by lia.
    change (Z.land (Z.ones 24) (Z.shiftr clamp_mask 104)) with (Z.shiftr clamp_mask 104).
    by rewrite <- !Z.shiftr_div_pow2, <- Z.shiftr_land by lia. }
  rewrite L4. change (8 * Z.of_nat 3 + 2) with 26. change (8 * Z.of_nat 6 + 4) with 52.
  change (8 * Z.of_nat 9 + 6) with 78.
  assert (D : forall x, 0 <= x mod 2 ^ 26 < 2 ^ 26) by (intros; apply Z.mod_pos_bound; lia).
  split; [|rewrite lval_list; apply limbs_sum; lia].
  do 5 eexists. split; [reflexivity|]. do 4 (split; [apply D|]).
  split; [apply Z.div_pos; lia|]. apply Z.div_lt_upper_bound; [lia|].
  change (2 ^ 104 * 2 ^ 20) with (2 ^ 124). lia.
Qed.

Lemma U8TO32_range m off : Forall is_byte m -> 0 <= U8TO32 m off < 2 ^ 32.
Proof.
  intros Hm. unfold U8TO32. rewrite le_val_take by (by apply Forall_drop).
  apply Z.mod_pos_bound. done.
Qed.

Lemma init_pad key : Forall is_byte key -> (32 <= length key)%nat ->
  U8TO32 key 16 + 2 ^ 32 * U8TO32 key 20 + 2 ^ 64 * U8TO32 key 24 + 2 ^ 96 * U8TO32 key 28
  = le_val (take 16 (drop 16 key)).
Proof.
  intros Hk Hl. unfold U8TO32. set (l := drop 16 key).
  assert (Hll : (16 <= length l)%nat) by (unfold l; rewrite length_drop; lia).
  replace (drop 20 key) with (drop 4 l) by (unfold l; by rewrite drop_drop).
  replace (drop 24 key) with (drop 8 l) by (unfold l; by rewrite drop_drop).
  replace (drop 28 key) with (drop 12 l) by (unfold l; by rewrite drop_drop).
  clearbody l. do 16 (destruct l as [|? l]; [cbn in Hll; lia|]). cbn [take drop le_val]. ring.
Qed.

Lemma poly1305_init_rep key : Forall is_byte key -> (32 <= length key)%nat ->
  p_rep (Z.land (le_val (take 16 key)) clamp_mask)
    [U8TO32 key 16; U8TO32 key 20; U8TO32 key 24; U8TO32 key 28] (poly1305_init key) [].
Proof.
  intros Hk Hl. destruct (init_r key Hk ltac:(lia)) as [Hr Hv].
  split; try done.
  - exists 0, 0, 0, 0, 0. split; [done|lia].
  - by apply Forall_replicate.
Qed.

(** ** The authenticator of RFC 7539 *)

Definition poly1305_mac (key msg : list Z) : list Z :=
  let r := Z.land (le_val (take 16 key)) clamp_mask in
  let s := le_val (take 16 (drop 16 key)) in
  let n := (length msg / 16)%nat in
  let acc := poly_eval n r 0 msg in
  let rest := drop (n * 16) msg in
  let acc := match rest with [] => acc | _ => ((acc + le_val (rest ++ [1])) * r) mod P1305 end in
  le_bytes 16 (acc + s).

Lemma poly_eval_range n : forall r acc msg, 0 <= acc < P1305 -> 0 <= poly_eval n r acc msg < P1305.
Proof.
  induction n as [|n IH]; intros r acc msg H; cbn [poly_eval]; [done|].
  apply IH, Z.mod_pos_bound, P1305_pos.
Qed.

Lemma poly1305_finish_rep key st msg : Forall is_byte key -> (32 <= length key)%nat ->
  p_rep (Z.land (le_val (take 16 key)) clamp_mask)
    [U8TO32 key 16; U8TO32 key 20; U8TO32 key 24; U8TO32 key 28] st msg ->
  poly1305_finish ulw st = poly1305_mac key msg.
Proof.
  intros Hk Hl R. unfold poly1305_finish, poly1305_mac. set (r := Z.land _ _) in *.
  pose proof (pp_left _ _ _ _ R) as Hleft. pose proof (Nat.div_mod_eq (length msg) 16) as E1.
  pose proof (Nat.mod_upper_bound (length msg) 16). rewrite <- init_pad by done.
  pose proof (poly_eval_range (length msg / 16) r 0 msg ltac:(pose proof P1305_pos; lia)) as Hpe.
  destruct (Nat.eqb_spec (leftover st) 0) as [E|E].
  - rewrite drop_ge by lia.
    rewrite (poly1305_tag_ok (ph st) (ppad st) _ _ _ _ (pp_h _ _ _ _ R) (pp_pad _ _ _ _ R))
      by (by apply U8TO32_range).
    by rewrite (pp_acc _ _ _ _ R), (Z.mod_small (poly_eval _ _ _ _)).
  - set (buf := memcpy _ _ _). set (rest := drop _ msg).
    assert (Hrest : length rest = (length msg mod 16)%nat) by (unfold rest; rewrite length_drop; lia).
    assert (Hbuf : buf = (rest ++ [1]) ++ replicate (16 - S (leftover st)) 0).
    { unfold buf. rewrite memcpy_full
        by (rewrite (pp_len _ _ _ _ R); cbn [length]; rewrite length_replicate; lia).
      rewrite Hleft at 1. rewrite (pp_buf _ _ _ _ R), <- app_assoc. done. }
    assert (Hlb : length buf = 16%nat)
      by (rewrite Hbuf, !length_app, length_replicate, Hrest; cbn [length]; lia).
    assert (Hbb : Forall is_byte buf).
    { apply Forall_memcpy; [apply R|]. apply Forall_cons_2; [unfold is_byte; lia|apply bytes_0]. }
    unfold poly1305_blocks. cbn [pr ph ppad leftover pbuffer final]. rewrite Hlb.
    change (16 / 16)%nat with 1%nat. cbn [blocks_loop].
    destruct (block_mod (pr st) (ph st) 0 buf _ (proj1 (pp_r _ _ _ _ R)) (pp_h _ _ _ _ R) Hbb
      ltac:(lia) (or_introl eq_refl) (pp_acc _ _ _ _ R)) as [Hok Hv].
    rewrite (poly1305_tag_ok _ (ppad st) _ _ _ _ Hok (pp_pad _ _ _ _ R)) by (by apply U8TO32_range).
    rewrite Hv, (proj2 (pp_r _ _ _ _ R)), Z.mul_0_r, Z.add_0_r, take_ge, Hbuf, le_val_zeros by lia.
    rewrite <- Hleft in Hrest. clearbody rest. destruct rest; [cbn [length] in Hrest; lia|done].
Qed.

Lemma poly1305_stream key chunks : Forall is_byte key -> (32 <= length key)%nat ->
  Forall (Forall is_byte) chunks ->
  poly1305_finish ulw (fold_left (poly1305_update ulw) chunks (poly1305_init key))
  = poly1305_mac key (concat chunks).
Proof.
  intros Hk Hl Hc. apply poly1305_finish_rep; [done|done|].
  set (r := Z.land _ _). set (pad := [_; _; _; _]).
  assert (G : forall st msg, p_rep r pad st msg ->
    p_rep r pad (fold_left (poly1305_update ulw) chunks st) (msg ++ concat chunks)).
  { induction Hc as [|d ds Hd _ IH]; intros st msg R; cbn [fold_left concat]; [by rewrite app_nil_r|].
    rewrite app_assoc. by apply IH, poly1305_update_rep. }
  apply (G _ []). by apply poly1305_init_rep.
Qed.

End Width.

(** Poly1305 is correct and free of overflow for a 32-bit and for a 64-bit
    [unsigned long]: for every one-time key and every way of splitting the message over
    [poly1305_update] calls, the tag is the RFC 7539 polynomial modulo [2^130 - 5]
    plus the pad. *)
Theorem poly1305_correct ulw key chunks :
  ulw = 32 \/ ulw = 64 -> Forall is_byte key -> length key = 32%nat ->
  Forall (Forall is_byte) chunks ->
  poly1305_finish ulw (fold_left (poly1305_update ulw) chunks (poly1305_init key))
  = poly1305_mac key (concat chunks).
Proof. intros Hu Hk Hl Hc. apply poly1305_stream; [done|done|lia|done]. Qed.

Lemma poly1305_correct_witness :
  poly1305_auth 32 (replicate 16 255) (2 :: replicate 31 0)
  = poly1305_mac (2 :: replicate 31 0) (replicate 16 255) /\
  poly1305_mac (2 :: replicate 31 0) (replicate 16 255) = 3 :: replicate 15 0.
Proof.
  split; [|reflexivity].
  apply (poly1305_correct 32 (2 :: replicate 31 0) [replicate 16 255]); [by left| |reflexivity|].
  - apply Forall_cons_2; [unfold is_byte; lia|]. apply Forall_replicate. unfold is_byte. lia.
  - apply Forall_cons_2; [|apply Forall_nil_2]. apply Forall_replicate. unfold is_byte. lia.
Defined.

End PolySpec.
