(* ===== verification/AeadSpec.v ===== *)
(** * Correctness of ChaCha20 and of the authenticated encryption of RFC 7539

    [Rfc7539] is the RFC's own definition of the block function, the cipher and the
    authenticated encryption, checked on its test vectors, and the code is proved to
    compute it. [ECRYPT_encrypt_bytes] is the exclusive or with the key stream, whatever the
    split of the message into calls of whole blocks; decryption inverts encryption;
    the tag authenticates the padded associated data and ciphertext with their
    lengths. *)

From stdpp Require Import base list numbers.
From Stdlib Require Import ZArith Lia.
From S2P Require Import Prelude Bits Hash HashSpec ChaCha PolySpec.
Local Open Scope fw_scope.

(** ** RFC 7539, from its text

    The block function, the stream cipher and the authenticated encryption as the RFC
    writes them (section numbers of the RFC), with word operations of their own: the
    reference the code is compared with. *)

Module Rfc7539.
Import PolySpec.

(** 2.1: addition modulo [2^32] and rotation to the left. *)
Definition add32 (a b : Z) : Z := (a + b) mod 2 ^ 32.
Definition rotl32 (x n : Z) : Z := (x * 2 ^ n) mod 2 ^ 32 + x / 2 ^ (32 - n).

Definition quarter_round (a b c d : Z) : Z * Z * Z * Z :=
  let a := add32 a b in let d := rotl32 (Z.lxor d a) 16 in
  let c := add32 c d in let b := rotl32 (Z.lxor b c) 12 in
  let a := add32 a b in let d := rotl32 (Z.lxor d a) 8 in
  let c := add32 c d in let b := rotl32 (Z.lxor b c) 7 in
  (a, b, c, d).

(** 2.2: a quarter round on four words of the state. *)
Definition qround (s : list Z) (x y z w : nat) : list Z :=
  let '(a, b, c, d) := quarter_round (nth x s 0) (nth y s 0) (nth z s 0) (nth w s 0) in
  <[w := d]> (<[z := c]> (<[y := b]> (<[x := a]> s))).

(** 2.3.1: four column rounds, then four diagonal rounds. *)
Definition inner_block (s : list Z) : list Z :=
  let s := qround s 0 4 8 12 in
  let s := qround s 1 5 9 13 in
  let s := qround s 2 6 10 14 in
  let s := qround s 3 7 11 15 in
  let s := qround s 0 5 10 15 in
  let s := qround s 1 6 11 12 in
  let s := qround s 2 7 8 13 in
  qround s 3 4 9 14.

Definition word (bs : list Z) (i : nat) : Z := le_val (take 4 (drop (4 * i) bs)).

(** 2.3: constants, key, block counter and nonce. *)
Definition state (key : list Z) (counter : Z) (nonce : list Z) : list Z :=
  [0x61707865; 0x3320646e; 0x79622d32; 0x6b206574]
    ++ map (word key) (seq 0 8) ++ [counter] ++ map (word nonce) (seq 0 3).

Definition chacha20_block (key : list Z) (counter : Z) (nonce : list Z) : list Z :=
  let s := state key counter nonce in
  concat (map (le_bytes 4) (zip_with add32 s (Nat.iter 10 inner_block s))).

(** 2.4: block [j] of the text under counter [counter + j]. *)
Definition chacha20_encrypt (key : list Z) (counter : Z) (nonce text : list Z) : list Z :=
  let blocks := ((length text + 63) / 64)%nat in
  zip_with Z.lxor text
    (concat (map (fun j => chacha20_block key (add32 counter (Z.of_nat j)) nonce) (seq 0 blocks))).

(** 2.6 *)
Definition poly1305_key_gen (key nonce : list Z) : list Z := take 32 (chacha20_block key 0 nonce).

(** 2.8: ciphertext and tag. *)
Definition pad16 (x : list Z) : list Z :=
  if (length x mod 16 =? 0)%nat then [] else replicate (16 - length x mod 16) 0.

Definition mac_data (aad c : list Z) : list Z :=
  aad ++ pad16 aad ++ c ++ pad16 c ++ le_bytes 8 (zlen aad) ++ le_bytes 8 (zlen c).

Definition chacha20_aead_encrypt (key nonce aad text : list Z) : list Z * list Z :=
  let c := chacha20_encrypt key 1 nonce text in
  (c, poly1305_mac (poly1305_key_gen key nonce) (mac_data aad c)).

(** The test vector of 2.3.2: key 00 01 .. 1f, counter 1. *)
Example chacha20_block_vector :
  take 8 (chacha20_block (map Z.of_nat (seq 0 32)) 1 [0; 0; 0; 9; 0; 0; 0; 0x4a; 0; 0; 0; 0])
  = [0x10; 0xf1; 0xe7; 0xe4; 0xd1; 0x3b; 0x59; 0x15].
Proof. vm_compute. reflexivity. Qed.

(** The test vector of 2.8.2. *)
Example aead_vector_tag :
  snd (chacha20_aead_encrypt (map (fun i => 0x80 + Z.of_nat i) (seq 0 32))
         [7; 0; 0; 0; 0x40; 0x41; 0x42; 0x43; 0x44; 0x45; 0x46; 0x47]
         [0x50; 0x51; 0x52; 0x53; 0xc0; 0xc1; 0xc2; 0xc3; 0xc4; 0xc5; 0xc6; 0xc7]
         [76; 97; 100; 105; 101; 115; 32; 97; 110; 100; 32; 71; 101; 110; 116; 108; 101; 109; 101; 110;
          32; 111; 102; 32; 116; 104; 101; 32; 99; 108; 97; 115; 115; 32; 111; 102; 32; 39; 57; 57; 58;
          32; 73; 102; 32; 73; 32; 99; 111; 117; 108; 100; 32; 111; 102; 102; 101; 114; 32; 121; 111;
          117; 32; 111; 110; 108; 121; 32; 111; 110; 101; 32; 116; 105; 112; 32; 102; 111; 114; 32; 116;
          104; 101; 32; 102; 117; 116; 117; 114; 101; 44; 32; 115; 117; 110; 115; 99; 114; 101; 101; 110;
          32; 119; 111; 117; 108; 100; 32; 98; 101; 32; 105; 116; 46])
  = [0x1a; 0xe1; 0x0b; 0x59; 0x4f; 0x09; 0xe2; 0x6a; 0x7e; 0x90; 0x2e; 0xcb; 0xd0; 0x60; 0x06; 0x91].
Proof. vm_compute. reflexivity. Qed.

End Rfc7539.

Module AeadSpec.
Import Hash HashSpec ChaCha PolySpec.

(** ** Key stream *)

Definition input_ok (j : list Z) : Prop := length j = 16%nat.

Lemma length_zupd {A} (l : list A) i x : length (zupd l i x) = length l.
Proof. unfold zupd. destruct (i <? 0); [done|]. apply length_insert. Qed.

Lemma length_QUARTERROUND x a b c d : length (QUARTERROUND x a b c d) = length x.
Proof. unfold QUARTERROUND. cbn zeta. by rewrite !length_zupd. Qed.

Lemma length_rounds j : length (rounds20 j) = length j.
Proof.
  unfold rounds20. generalize 10%nat. intros n. induction n as [|n IH]; [done|]. rewrite Nat.iter_succ.
  unfold double_round at 1. by rewrite !length_QUARTERROUND.
Qed.

Lemma length_chacha_block j : length (chacha_block j) = length j.
Proof. unfold chacha_block. rewrite length_zip_with_l; rewrite length_rounds; lia. Qed.

Lemma chacha_block_words j : Forall is_u32 (chacha_block j).
Proof.
  unfold chacha_block. generalize (rounds20 j). intros l. revert j.
  induction l as [|x l IH]; intros [|y j]; cbn [zip_with]; constructor; [apply u32_range|apply IH].
Qed.

Definition ks_block (j : list Z) : list Z := bytes_of 4 (chacha_block j).

Lemma ks_block_length j : input_ok j -> length (ks_block j) = 64%nat.
Proof. intros H. unfold ks_block. by rewrite length_bytes_of, length_chacha_block, H. Qed.

Lemma ks_block_bytes j : Forall is_byte (ks_block j).
Proof. apply bytes_of_byte. Qed.

Definition xor_bytes (a b : list Z) : list Z := zip_with Z.lxor a b.

Lemma xor_bytes_bytes a : forall b, Forall is_byte a -> Forall is_byte b -> Forall is_byte (xor_bytes a b).
Proof.
  unfold xor_bytes. induction a as [|x a IH]; intros [|y b] Ha Hb; cbn [zip_with]; try constructor;
    inv_bytes; [by apply is_byte_lxor|auto].
Qed.

Lemma xor_bytes_cancel a : forall b, (length a <= length b)%nat -> xor_bytes (xor_bytes a b) b = a.
Proof.
  unfold xor_bytes. induction a as [|x a IH]; intros [|y b] H; cbn [zip_with length] in *; try done; [lia|].
  rewrite IH by lia. by rewrite Z.lxor_assoc, Z.lxor_nilpotent, Z.lxor_0_r.
Qed.

(** A word operation is a byte operation. *)
Lemma xor_word_bytes x m : is_u32 x -> Forall is_byte m -> length m = 4%nat ->
  le_bytes 4 (x .^ le_val m) = xor_bytes (le_bytes 4 x) m.
Proof.
  intros Hx Hm Hl. assert (Ex : x = le_val (le_bytes 4 x))
    by (rewrite le_val_bytes; symmetry; apply Z.mod_small; exact Hx).
  rewrite Ex at 1. rewrite lxor_bytes by (apply le_bytes_byte || done || by rewrite length_le_bytes).
  apply le_bytes_uniq; [| |done].
  - unfold xor_bytes. rewrite length_zip_with_l; rewrite length_le_bytes; lia.
  - apply xor_bytes_bytes; [apply le_bytes_byte|done].
Qed.

Lemma xor_words_bytes ws : forall m, Forall is_u32 ws -> Forall is_byte m ->
  length m = (4 * length ws)%nat ->
  bytes_of 4 (zip_with Z.lxor ws (words_of 4 (length ws) m)) = xor_bytes m (bytes_of 4 ws).
Proof.
  induction ws as [|w ws IH]; intros m Hw Hm Hl; [by destruct m|].
  apply Forall_cons_iff in Hw as [Hw Hws]. cbn [length words_of zip_with].
  unfold bytes_of. cbn [map concat]. fold (bytes_of 4 ws).
  fold (bytes_of 4 (zip_with Z.lxor ws (words_of 4 (length ws) (drop 4 m)))).
  cbn [length] in Hl. assert (Ht : length (take 4 m) = 4%nat) by (rewrite length_take; lia).
  rewrite xor_word_bytes by (done || by apply Forall_take).
  rewrite IH by (done || (by apply Forall_drop) || (rewrite length_drop; lia)).
  unfold xor_bytes. rewrite <- (take_drop 4 m) at 3.
  rewrite zip_with_app by (by rewrite Ht, length_le_bytes). f_equal.
  clear. generalize (le_bytes 4 w). generalize (take 4 m). induction l as [|x l IH]; intros [|y l'];
    cbn [zip_with]; try done. rewrite IH. f_equal. apply Z.lxor_comm.
Qed.

Lemma xor_block_eq j m : input_ok j -> Forall is_byte m -> length m = 64%nat ->
  xor_block j m = xor_bytes m (ks_block j).
Proof.
  intros Hj Hm Hl. unfold xor_block, ks_block.
  assert (E : length (chacha_block j) = 16%nat) by (by rewrite length_chacha_block).
  rewrite <- E. apply xor_words_bytes; [apply chacha_block_words|done|lia].
Qed.

Lemma next_counter_ok j : input_ok j -> input_ok (next_counter j).
Proof.
  intros H. unfold next_counter, input_ok. destruct (PLUS _ 1 =? 0); by rewrite !length_zupd.
Qed.

(** [n] blocks of key stream. *)
Fixpoint keystream (n : nat) (j : list Z) : list Z :=
  match n with
  | O => []
  | S n => ks_block j ++ keystream n (next_counter j)
  end.

Lemma iter_counter_ok n : forall j, input_ok j -> input_ok (Nat.iter n next_counter j).
Proof. induction n; intros; [done|]. rewrite Nat.iter_succ. apply next_counter_ok. auto. Qed.

Lemma keystream_length n : forall j, input_ok j -> length (keystream n j) = (n * 64)%nat.
Proof.
  induction n as [|n IH]; intros j Hj; [done|]. cbn [keystream].
  rewrite length_app, ks_block_length, IH by (done || by apply next_counter_ok). lia.
Qed.

Lemma keystream_bytes n : forall j, Forall is_byte (keystream n j).
Proof.
  induction n as [|n IH]; intros j; cbn [keystream]; [constructor|].
  apply Forall_app; split; [apply ks_block_bytes|apply IH].
Qed.

Lemma keystream_add m : forall n j,
  keystream (m + n) j = keystream m j ++ keystream n (Nat.iter m next_counter j).
Proof.
  induction m as [|m IH]; intros n j; [done|]. cbn [Nat.add keystream].
  by rewrite IH, <- app_assoc, Nat.iter_succ_r.
Qed.

(** Blocks needed for a message. *)
Definition nblocks (len : nat) : nat := ((len + 63) / 64)%nat.

Lemma nblocks_spec len : (len <= nblocks len * 64 < len + 64)%nat.
Proof.
  unfold nblocks. pose proof (Nat.div_mod_eq (len + 63) 64).
  pose proof (Nat.mod_upper_bound (len + 63) 64). lia.
Qed.

Lemma nblocks_S len : (64 <= len)%nat -> nblocks len = S (nblocks (len - 64)).
Proof.
  intros H. unfold nblocks. replace (len + 63)%nat with (len - 64 + 63 + 1 * 64)%nat by lia.
  rewrite Nat.div_add; lia.
Qed.

Lemma nblocks_one len : (0 < len <= 64)%nat -> nblocks len = 1%nat.
Proof. intros. pose proof (nblocks_spec len). lia. Qed.

Lemma xor_bytes_app a b c d : length a = length c -> xor_bytes (a ++ b) (c ++ d) = xor_bytes a c ++ xor_bytes b d.
Proof. intros. by apply zip_with_app. Qed.

Lemma xor_bytes_take n a b : take n (xor_bytes a b) = xor_bytes (take n a) (take n b).
Proof. apply zip_with_take. Qed.

Lemma xor_bytes_prefix a b c : (length a <= length b)%nat -> xor_bytes a (b ++ c) = xor_bytes a b.
Proof.
  intros. unfold xor_bytes. rewrite <- (zip_with_take_r _ a (b ++ c)), <- (zip_with_take_r _ a b).
  by rewrite take_app_le.
Qed.

Lemma encrypt_loop_eq fuel : forall j m, input_ok j -> Forall is_byte m -> (0 < length m <= fuel)%nat ->
  encrypt_loop fuel j m
  = (Nat.iter (nblocks (length m)) next_counter j, xor_bytes m (keystream (nblocks (length m)) j)).
Proof.
  induction fuel as [|fuel IH]; intros j m Hj Hm Hl; [lia|]. cbn [encrypt_loop].
  pose proof (ks_block_length j Hj) as Hk.
  destruct (Nat.ltb_spec (length m) 64).
  - rewrite nblocks_one by lia. cbn [Nat.iter keystream]. rewrite app_nil_r.
    rewrite xor_block_eq; [|done|apply Forall_app; split; [done|apply bytes_0]|
      rewrite length_app, length_replicate; lia].
    rewrite xor_bytes_take, take_app_length. f_equal.
    unfold xor_bytes. by rewrite zip_with_take_r.
  - destruct (Nat.eqb_spec (length m) 64) as [E|E].
    + rewrite nblocks_one by lia. cbn [Nat.iter keystream]. rewrite app_nil_r.
      by rewrite xor_block_eq.
    + rewrite nblocks_S by lia. rewrite Nat.iter_succ_r. cbn [keystream].
      assert (Ht : length (take 64 m) = 64%nat) by (rewrite length_take; lia).
      assert (Hd : length (drop 64 m) = (length m - 64)%nat) by (rewrite length_drop; lia).
      rewrite IH; [|by apply next_counter_ok|by apply Forall_drop|lia].
      rewrite Hd, xor_block_eq by (done || by apply Forall_take).
      f_equal. rewrite <- xor_bytes_app by lia. by rewrite take_drop.
Qed.

(** Only the counter words change. *)
Lemma counter_words n : forall j, input_ok j ->
  zupd (zupd j 12 (znth 0 (Nat.iter n next_counter j) 12)) 13 (znth 0 (Nat.iter n next_counter j) 13)
  = Nat.iter n next_counter j.
Proof.
  assert (G : forall k j, input_ok j -> input_ok k ->
    (forall i, i <> 12 -> i <> 13 -> znth 0 k i = znth 0 j i) ->
    zupd (zupd j 12 (znth 0 k 12)) 13 (znth 0 k 13) = k).
  { intros k j Hj Hk H. unfold input_ok in *. apply list_eq_same_length with 16%nat;
      [done|by rewrite !length_zupd|]. intros i x y Hi Hx Hy.
    assert (Ez : forall l v, l !! i = Some v -> v = znth 0 l (Z.of_nat i)).
    { intros l v Hv. unfold znth. zif. rewrite Nat2Z.id. symmetry. by apply nth_lookup_Some. }
    rewrite (Ez _ _ Hx), (Ez _ _ Hy).
    destruct (Z.eq_dec (Z.of_nat i) 13) as [->|]; [by rewrite znth_zupd_eq by (rewrite zlen_zupd; unfold zlen; lia)|].
    rewrite znth_zupd_ne by lia.
    destruct (Z.eq_dec (Z.of_nat i) 12) as [->|]; [by rewrite znth_zupd_eq by (unfold zlen; lia)|].
    rewrite znth_zupd_ne by lia. symmetry. apply H; lia. }
  intros j Hj. apply G; [done|by apply iter_counter_ok|].
  induction n as [|n IH]; intros i H12 H13; [done|]. rewrite Nat.iter_succ, <- IH by done.
  unfold next_counter. destruct (PLUS _ 1 =? 0); by rewrite ?znth_zupd_ne by lia.
Qed.

Lemma encrypt_bytes_eq j m : input_ok j -> Forall is_byte m ->
  ECRYPT_encrypt_bytes j m
  = (Nat.iter (nblocks (length m)) next_counter j, xor_bytes m (keystream (nblocks (length m)) j)).
Proof.
  intros Hj Hm. unfold ECRYPT_encrypt_bytes. destruct (Nat.eqb_spec (length m) 0) as [E|E].
  - destruct m; [|done]. done.
  - rewrite encrypt_loop_eq by (done || lia). by rewrite counter_words.
Qed.

Lemma xor_bytes_length a b : (length a <= length b)%nat -> length (xor_bytes a b) = length a.
Proof. intros. by apply length_zip_with_l. Qed.

Lemma nblocks_add a b : (a mod 64 = 0)%nat -> nblocks (a + b) = (nblocks a + nblocks b)%nat.
Proof.
  intros Ha. pose proof (Nat.div_mod_eq a 64) as E. unfold nblocks. rewrite Ha in E.
  replace (a + b + 63)%nat with (b + 63 + a / 64 * 64)%nat by lia. rewrite Nat.div_add by lia.
  replace (a + 63)%nat with (63 + a / 64 * 64)%nat by lia. rewrite Nat.div_add by lia.
  change (63 / 64)%nat with 0%nat. lia.
Qed.

(** Splitting a message at a block boundary. *)
Lemma keystream_split j m1 m2 : input_ok j -> (length m1 mod 64 = 0)%nat ->
  xor_bytes (m1 ++ m2) (keystream (nblocks (length (m1 ++ m2))) j)
  = xor_bytes m1 (keystream (nblocks (length m1)) j)
    ++ xor_bytes m2 (keystream (nblocks (length m2)) (Nat.iter (nblocks (length m1)) next_counter j)).
Proof.
  intros Hj H. rewrite length_app, nblocks_add, keystream_add by done. apply xor_bytes_app.
  rewrite keystream_length by done. unfold nblocks.
  pose proof (Nat.div_mod_eq (length m1) 64) as E. rewrite H in E.
  replace (length m1 + 63)%nat with (63 + length m1 / 64 * 64)%nat by lia.
  rewrite Nat.div_add by lia. change (63 / 64)%nat with 0%nat. lia.
Qed.

(** ** RFC 7539 *)

Section Aead.
Context (ulw : Z) (Hulw : ulw = 32 \/ ulw = 64).

(** Every chunk but the last is a whole number of blocks, as the comment of
    [chacha20poly1305_encrypt] demands. *)
Fixpoint split_ok (chunks : list (list Z)) : Prop :=
  match chunks with
  | [] => True
  | [m] => True
  | m :: ms => (length m mod 64 = 0)%nat /\ split_ok ms
  end.

(** Repeated calls, with their outputs concatenated. *)
Fixpoint crypt_all (f : chacha20poly1305_ctx -> list Z -> chacha20poly1305_ctx * list Z)
    (ctx : chacha20poly1305_ctx) (chunks : list (list Z)) : chacha20poly1305_ctx * list Z :=
  match chunks with
  | [] => (ctx, [])
  | m :: ms =>
      let '(ctx, c) := f ctx m in
      let '(ctx, cs) := crypt_all f ctx ms in (ctx, c ++ cs)
  end.

Definition rfc_input (key nonce : list Z) : list Z :=
  words_of 4 4 sigma ++ words_of 4 4 key ++ words_of 4 4 (drop 16 key)
    ++ [0; U8TO32_LITTLE nonce 0; U8TO32_LITTLE nonce 4; U8TO32_LITTLE nonce 8].

Lemma rfc_input_ok key nonce : input_ok (rfc_input key nonce).
Proof. done. Qed.

Lemma xor_zeros a n : length a = n -> xor_bytes (replicate n 0) a = a.
Proof. intros <-. unfold xor_bytes. induction a; cbn; [done|]. by rewrite IHa. Qed.

Lemma rfc7539_init_eq key nonce :
  rfc7539_init key nonce
  = AeadCtx (next_counter (rfc_input key nonce)) (poly1305_init (ks_block (rfc_input key nonce))).
Proof.
  unfold rfc7539_init. set (j := take 12 _ ++ _). assert (Ej : j = rfc_input key nonce) by done.
  rewrite Ej, encrypt_bytes_eq by (apply rfc_input_ok || apply bytes_0).
  rewrite length_replicate. change (nblocks 64) with 1%nat. cbn [Nat.iter keystream].
  rewrite app_nil_r, xor_zeros by (by apply ks_block_length). done.
Qed.

Definition pad16 (m : list Z) : list Z :=
  m ++ (if (length m mod 16 =? 0)%nat then [] else replicate (16 - length m mod 16) 0).

(** Key stream from counter 1, and the tag, by the code's block and counter: the form the
    storage theorems use; [rfc_aead] below equates it with [Rfc7539]. *)
Definition rfc_cipher (key nonce m : list Z) : list Z :=
  xor_bytes m (keystream (nblocks (length m)) (next_counter (rfc_input key nonce))).
Definition rfc_tag (key nonce ad c : list Z) : list Z :=
  poly1305_mac (ks_block (rfc_input key nonce))
    (pad16 ad ++ pad16 c ++ le_bytes 8 (zlen ad) ++ le_bytes 8 (zlen c)).

Record aead_rep (key nonce : list Z) (n : nat) (authed : list Z) (ctx : chacha20poly1305_ctx) : Prop := {
  ar_chacha : chacha20 ctx = Nat.iter n next_counter (next_counter (rfc_input key nonce));
  ar_poly : let otk := ks_block (rfc_input key nonce) in
    p_rep (Z.land (le_val (take 16 otk)) clamp_mask)
      [U8TO32 otk 16; U8TO32 otk 20; U8TO32 otk 24; U8TO32 otk 28] (poly1305 ctx) authed;
}.

Section Key.
Context (key nonce : list Z).
Local Abbreviation j1 := (next_counter (rfc_input key nonce)).

Lemma j1_ok n : input_ok (Nat.iter n next_counter j1).
Proof. apply iter_counter_ok, next_counter_ok, rfc_input_ok. Qed.

Lemma init_rep : aead_rep key nonce 0 [] (rfc7539_init key nonce).
Proof.
  rewrite rfc7539_init_eq. split; [done|]. cbn zeta. cbn [poly1305].
  apply poly1305_init_rep; [apply ks_block_bytes|].
  rewrite ks_block_length by apply rfc_input_ok. lia.
Qed.

Lemma auth_rep n authed ctx ad : aead_rep key nonce n authed ctx -> Forall is_byte ad ->
  aead_rep key nonce n (authed ++ pad16 ad) (rfc7539_auth ulw ctx ad).
Proof.
  intros [Hc Hp] Ha. cbn zeta in Hp. unfold rfc7539_auth, pad16. split; [done|]. cbn zeta. cbn [poly1305].
  destruct (Nat.eqb_spec (length ad mod 16) 0).
  - rewrite app_nil_r. by apply poly1305_update_rep.
  - rewrite app_assoc. apply poly1305_update_rep; [done| |apply bytes_0].
    by apply poly1305_update_rep.
Qed.

Lemma crypt_step (enc : bool) n authed ctx m : aead_rep key nonce n authed ctx -> Forall is_byte m ->
  let out := xor_bytes m (keystream (nblocks (length m)) (Nat.iter n next_counter j1)) in
  exists ctx', (if enc then chacha20poly1305_encrypt ulw ctx m else chacha20poly1305_decrypt ulw ctx m)
    = (ctx', out) /\
  aead_rep key nonce (nblocks (length m) + n) (authed ++ if enc then out else m) ctx'.
Proof.
  intros [Hc Hp] Hm. cbn zeta in *. unfold chacha20poly1305_encrypt, chacha20poly1305_decrypt.
  rewrite Hc, encrypt_bytes_eq by (apply j1_ok || done).
  pose proof keystream_bytes as Hks.
  destruct enc; eexists; (split; [reflexivity|]); (split; [cbn [chacha20]; symmetry; apply Nat.iter_add|]);
    cbn zeta; cbn [poly1305]; apply poly1305_update_rep; try done. by apply xor_bytes_bytes.
Qed.

Lemma crypt_all_rep (enc : bool) chunks : forall n authed ctx, aead_rep key nonce n authed ctx ->
  Forall (Forall is_byte) chunks -> split_ok chunks ->
  let msg := concat chunks in
  let out := xor_bytes msg (keystream (nblocks (length msg)) (Nat.iter n next_counter j1)) in
  exists ctx' k,
    crypt_all (if enc then chacha20poly1305_encrypt ulw else chacha20poly1305_decrypt ulw) ctx chunks
    = (ctx', out) /\
    aead_rep key nonce k (authed ++ if enc then out else msg) ctx'.
Proof.
  induction chunks as [|m ms IH]; intros n authed ctx R Hb Hs; cbn zeta; cbn [concat crypt_all].
  { exists ctx, n. split; [done|]. destruct enc; by rewrite app_nil_r. }
  apply Forall_cons_iff in Hb as [Hm Hms].
  destruct (crypt_step enc n authed ctx m R Hm) as (c1 & E1 & R1). cbn zeta in E1, R1.
  assert (Ef : (if enc then chacha20poly1305_encrypt ulw else chacha20poly1305_decrypt ulw) ctx m
    = (c1, xor_bytes m (keystream (nblocks (length m)) (Nat.iter n next_counter j1))))
    by (by destruct enc).
  rewrite Ef. destruct ms as [|m2 ms].
  { cbn [crypt_all concat]. rewrite !app_nil_r. by exists c1, (nblocks (length m) + n)%nat. }
  destruct Hs as [Hm64 Hs].
  destruct (IH _ _ c1 R1 Hms Hs) as (c2 & k & E2 & R2). cbn zeta in E2, R2. rewrite E2.
  rewrite keystream_split by (apply j1_ok || done). rewrite <- Nat.iter_add.
  exists c2, k. split; [done|]. destruct enc; by rewrite app_assoc.
Qed.

Lemma finish_rep k ad c ctx : aead_rep key nonce k (pad16 ad ++ c) ctx ->
  rfc7539_finish ulw ctx (zlen ad) (zlen c) = rfc_tag key nonce ad c.
Proof.
  intros [_ Hp]. cbn zeta in Hp. unfold rfc7539_finish, rfc_tag.
  assert (Hk : Forall is_byte (ks_block (rfc_input key nonce))) by apply ks_block_bytes.
  assert (Hkl : (32 <= length (ks_block (rfc_input key nonce)))%nat)
    by (rewrite ks_block_length by apply rfc_input_ok; lia).
  apply poly1305_finish_rep; [done|done|done|].
  unfold pad16 at 2. rewrite <- app_assoc, (app_assoc _ c).
  assert (Em : zlen c mod 16 = Z.of_nat (length c mod 16)) by (unfold zlen; by rewrite Nat2Z.inj_mod).
  rewrite Em, Nat2Z.id. rewrite (app_assoc (pad16 ad ++ c)).
  apply poly1305_update_rep; [done| |apply Forall_app; split; apply le_bytes_byte].
  destruct (Nat.eqb_spec (length c mod 16) 0) as [E|E].
  - rewrite E. cbn [Z.of_nat Z.eqb]. by rewrite app_nil_r.
  - replace (Z.of_nat (length c mod 16) =? 0) with false by (symmetry; apply Z.eqb_neq; lia).
    apply poly1305_update_rep; [done|done|apply bytes_0].
Qed.

(** Encryption of a message in chunks. *)
Lemma rfc7539_encrypt_eq ad chunks : Forall is_byte ad -> Forall (Forall is_byte) chunks -> split_ok chunks ->
  let msg := concat chunks in let c := rfc_cipher key nonce msg in
  exists ctx, crypt_all (chacha20poly1305_encrypt ulw) (rfc7539_auth ulw (rfc7539_init key nonce) ad) chunks
    = (ctx, c) /\ rfc7539_finish ulw ctx (zlen ad) (zlen c) = rfc_tag key nonce ad c.
Proof.
  intros Ha Hc Hs. cbn zeta. pose proof (auth_rep 0 [] _ ad init_rep Ha) as R.
  destruct (crypt_all_rep true chunks 0 _ _ R Hc Hs) as (ctx & k & E & R'). cbn zeta in E, R'.
  exists ctx. split; [exact E|]. by apply (finish_rep k).
Qed.

Lemma rfc7539_decrypt_eq ad chunks : Forall is_byte ad -> Forall (Forall is_byte) chunks -> split_ok chunks ->
  let c := concat chunks in
  exists ctx, crypt_all (chacha20poly1305_decrypt ulw) (rfc7539_auth ulw (rfc7539_init key nonce) ad) chunks
    = (ctx, rfc_cipher key nonce c) /\
    rfc7539_finish ulw ctx (zlen ad) (zlen c) = rfc_tag key nonce ad c.
Proof.
  intros Ha Hc Hs. cbn zeta. pose proof (auth_rep 0 [] _ ad init_rep Ha) as R.
  destruct (crypt_all_rep false chunks 0 _ _ R Hc Hs) as (ctx & k & E & R'). cbn zeta in E, R'.
  exists ctx. split; [exact E|]. by apply (finish_rep k).
Qed.

Lemma rfc_cipher_length m : length (rfc_cipher key nonce m) = length m.
Proof.
  apply xor_bytes_length. rewrite keystream_length by apply (j1_ok 0).
  pose proof (nblocks_spec (length m)). lia.
Qed.

Lemma rfc_cipher_involutive m : rfc_cipher key nonce (rfc_cipher key nonce m) = m.
Proof.
  unfold rfc_cipher at 1. rewrite rfc_cipher_length. apply xor_bytes_cancel.
  rewrite keystream_length by apply (j1_ok 0). pose proof (nblocks_spec (length m)). lia.
Qed.

Lemma rfc_cipher_bytes m : Forall is_byte m -> Forall is_byte (rfc_cipher key nonce m).
Proof.
  intros Hm. apply xor_bytes_bytes; [done|apply keystream_bytes].
Qed.

End Key.
End Aead.

(** ** The code's block function is the RFC's *)

Lemma rotate_rfc v c : is_u32 v -> 0 < c < 32 -> ROTATE v c = Rfc7539.rotl32 v c.
Proof.
  intros Hv Hc. unfold ROTATE, Rfc7539.rotl32, u32, wrap. unfold is_u32 in Hv.
  rewrite Z.shiftl_mul_pow2, Z.shiftr_div_pow2 by lia.
  assert (E : 2 ^ 32 = 2 ^ (32 - c) * 2 ^ c) by (rewrite <- Z.pow_add_r by lia; f_equal; lia).
  assert (H0 : 0 < 2 ^ (32 - c)) by (apply Z.pow_pos_nonneg; lia).
  rewrite E, Z.mul_mod_distr_r by (apply Z.pow_nonzero; lia).
  rewrite <- Z.shiftl_mul_pow2 by lia. rewrite Z.lor_comm, lor_shift, Z.shiftl_mul_pow2; [lia|lia|lia|].
  split; [apply Z.div_pos; lia|]. apply Z.div_lt_upper_bound; [lia|]. rewrite <- E. lia.
Qed.

Lemma rotl32_u32 v c : is_u32 v -> 0 < c < 32 -> is_u32 (Rfc7539.rotl32 v c).
Proof.
  intros Hv Hc. rewrite <- rotate_rfc by done. unfold ROTATE.
  apply is_u32_lor; [apply u32_range|apply is_u32_shiftr; done || lia].
Qed.

Lemma znth_nat {A} (d : A) l n : znth d l (Z.of_nat n) = nth n l d.
Proof. unfold znth. zif. by rewrite Nat2Z.id. Qed.

Lemma zupd_nat {A} (l : list A) n x : zupd l (Z.of_nat n) x = <[n := x]> l.
Proof. unfold zupd. zif. by rewrite Nat2Z.id. Qed.

Lemma nth_u32 s i : Forall is_u32 s -> is_u32 (nth i s 0).
Proof.
  intros Hs. destruct (nth_in_or_default i s 0) as [Hi | ->]; [|unfold is_u32; lia].
  by apply (proj1 (List.Forall_forall _ _) Hs).
Qed.

Lemma quarterround_rfc s x y z w : Forall is_u32 s ->
  QUARTERROUND s (Z.of_nat x) (Z.of_nat y) (Z.of_nat z) (Z.of_nat w) = Rfc7539.qround s x y z w /\
  Forall is_u32 (Rfc7539.qround s x y z w).
Proof.
  intros Hs. pose proof (fun i => nth_u32 s i Hs) as Hn.
  unfold QUARTERROUND, Rfc7539.qround, Rfc7539.quarter_round. rewrite !znth_nat.
  pose proof (Hn x) as Ha. pose proof (Hn y) as Hb. pose proof (Hn z) as Hc. pose proof (Hn w) as Hd.
  revert Ha Hb Hc Hd. generalize (nth x s 0) (nth y s 0) (nth z s 0) (nth w s 0). clear Hn.
  intros a b c d Ha Hb Hc Hd. cbn zeta.
  change Rfc7539.add32 with PLUS.
  assert (HP : forall u v, is_u32 (PLUS u v)) by (intros; apply u32_range).
  set (a1 := PLUS a b). assert (H1 : is_u32 (d .^ a1)) by (apply is_u32_lxor; [done|apply HP]).
  rewrite (rotate_rfc _ 16) by (done || lia).
  pose proof (rotl32_u32 _ 16 H1 ltac:(lia)) as Hd1. set (d1 := Rfc7539.rotl32 _ 16) in *.
  set (c1 := PLUS c d1). assert (H2 : is_u32 (b .^ c1)) by (apply is_u32_lxor; [done|apply HP]).
  rewrite (rotate_rfc _ 12) by (done || lia).
  pose proof (rotl32_u32 _ 12 H2 ltac:(lia)) as Hb1. set (b1 := Rfc7539.rotl32 _ 12) in *.
  set (a2 := PLUS a1 b1). assert (H3 : is_u32 (d1 .^ a2)) by (apply is_u32_lxor; [done|apply HP]).
  rewrite (rotate_rfc _ 8) by (done || lia).
  pose proof (rotl32_u32 _ 8 H3 ltac:(lia)) as Hd2. set (d2 := Rfc7539.rotl32 _ 8) in *.
  set (c2 := PLUS c1 d2). assert (H4 : is_u32 (b1 .^ c2)) by (apply is_u32_lxor; [done|apply HP]).
  rewrite (rotate_rfc _ 7) by (done || lia).
  pose proof (rotl32_u32 _ 7 H4 ltac:(lia)) as Hb2. set (b2 := Rfc7539.rotl32 _ 7) in *.
  rewrite !zupd_nat. split; [done|]. repeat apply Forall_insert; done || apply HP.
Qed.

(** Rewrites the quarter round of the code at these indices into that of the RFC. *)
Local Ltac qr H x y z w :=
  let E := fresh "E" in let H' := fresh "H" in
  match type of H with Forall _ ?s =>
    destruct (quarterround_rfc s x y z w H) as [E H'];
    let x' := eval cbv in (Z.of_nat x) in let y' := eval cbv in (Z.of_nat y) in
    let z' := eval cbv in (Z.of_nat z) in let w' := eval cbv in (Z.of_nat w) in
    change (QUARTERROUND s x' y' z' w' = Rfc7539.qround s x y z w) in E;
    rewrite E; clear E; clear H; rename H' into H;
    generalize dependent (Rfc7539.qround s x y z w); clear s; intros s H
  end.

Lemma double_round_rfc s : Forall is_u32 s ->
  double_round s = Rfc7539.inner_block s /\ Forall is_u32 (Rfc7539.inner_block s).
Proof.
  intros Hs. unfold double_round, Rfc7539.inner_block. cbn zeta.
  qr Hs 0%nat 4%nat 8%nat 12%nat. qr Hs 1%nat 5%nat 9%nat 13%nat.
  qr Hs 2%nat 6%nat 10%nat 14%nat. qr Hs 3%nat 7%nat 11%nat 15%nat.
  qr Hs 0%nat 5%nat 10%nat 15%nat. qr Hs 1%nat 6%nat 11%nat 12%nat.
  qr Hs 2%nat 7%nat 8%nat 13%nat. by apply (quarterround_rfc s 3 4 9 14).
Qed.

Lemma rounds_rfc n s : Forall is_u32 s ->
  Nat.iter n double_round s = Nat.iter n Rfc7539.inner_block s /\
  Forall is_u32 (Nat.iter n Rfc7539.inner_block s).
Proof.
  intros Hs. induction n as [|n [IH Hn]]; [done|]. rewrite !Nat.iter_succ, IH. by apply double_round_rfc.
Qed.

(** ** The code's input words are the RFC's state *)

Lemma words_of_seq n : forall bs k,
  words_of 4 n (drop (4 * k) bs) = map (Rfc7539.word bs) (seq k n).
Proof.
  induction n as [|n IH]; intros bs k; [done|]. cbn [words_of seq map].
  rewrite <- IH, drop_drop. do 3 f_equal. lia.
Qed.

Lemma words_u32 bs n : Forall is_byte bs -> Forall is_u32 (words_of 4 n bs).
Proof.
  revert bs. induction n as [|n IH]; intros bs Hb; cbn [words_of]; constructor; [|by apply IH, Forall_drop].
  pose proof (le_val_range (take 4 bs) ltac:(by apply Forall_take)) as [H0 H1]. split; [done|].
  eapply Z.lt_le_trans; [exact H1|]. change 4294967296 with (256 ^ 4).
  apply Z.pow_le_mono_r; [lia|]. unfold zlen. rewrite length_take. lia.
Qed.

(** The input with the counter at [c]. *)
Definition counter_input (key nonce : list Z) (c : Z) : list Z :=
  take 12 (rfc_input key nonce) ++ [c] ++ drop 13 (rfc_input key nonce).

Section Bridge.
Context (key nonce : list Z).
Context (Hk : Forall is_byte key) (Hn : Forall is_byte nonce).

Lemma counter_input_state c : counter_input key nonce c = Rfc7539.state key c nonce.
Proof.
  unfold counter_input, rfc_input.
  rewrite (words_of_seq 4 key 0 : words_of 4 4 key = _), (words_of_seq 4 key 4 : words_of 4 4 (drop 16 key) = _).
  reflexivity.
Qed.

Lemma counter_input_u32 c : is_u32 c -> Forall is_u32 (counter_input key nonce c).
Proof.
  intros Hc. rewrite counter_input_state. unfold Rfc7539.state. rewrite <- (words_of_seq 8), <- (words_of_seq 3).
  repeat apply Forall_app_2; [|by apply words_u32, Forall_drop|by constructor|by apply words_u32, Forall_drop].
  repeat constructor; unfold is_u32; lia.
Qed.

Lemma ks_block_rfc c : is_u32 c -> ks_block (counter_input key nonce c) = Rfc7539.chacha20_block key c nonce.
Proof.
  intros Hc. unfold ks_block, chacha_block, rounds20, Rfc7539.chacha20_block, bytes_of. cbn zeta.
  destruct (rounds_rfc 10 _ (counter_input_u32 c Hc)) as [-> _]. rewrite counter_input_state.
  do 2 f_equal. generalize (Nat.iter 10 Rfc7539.inner_block (Rfc7539.state key c nonce)) as l.
  induction (Rfc7539.state key c nonce) as [|a s IH]; intros [|b l]; cbn [zip_with]; try done.
  rewrite IH. f_equal. unfold PLUS, u32, wrap, Rfc7539.add32. by rewrite Z.add_comm.
Qed.

(** Below [2^32 - 1] the counter does not carry into the nonce. *)
Lemma next_counter_input c : 0 <= c < 2 ^ 32 - 1 ->
  next_counter (counter_input key nonce c) = counter_input key nonce (c + 1).
Proof.
  intros Hc. unfold next_counter. change (znth 0 (counter_input key nonce c) 12) with c.
  assert (E : PLUS c 1 = c + 1) by (unfold PLUS, u32, wrap; apply Z.mod_small; lia).
  rewrite E. zif. reflexivity.
Qed.

Lemma keystream_blocks n : forall c, 0 <= c -> c + Z.of_nat n <= 2 ^ 32 ->
  keystream n (counter_input key nonce c)
  = concat (map (fun j => Rfc7539.chacha20_block key (c + Z.of_nat j) nonce) (seq 0 n)).
Proof.
  induction n as [|n IH]; intros c Hc Hl; [done|]. cbn [keystream seq map concat].
  rewrite ks_block_rfc by (unfold is_u32; lia). rewrite Z.add_0_r. apply (f_equal (app _)).
  destruct n as [|n]; [done|]. rewrite next_counter_input, IH by lia.
  rewrite <- seq_shift, map_map. apply (f_equal (@concat Z)), map_ext. intros j.
  replace (c + 1 + Z.of_nat j) with (c + Z.of_nat (S j)) by lia. reflexivity.
Qed.

Lemma keystream_rfc n c : 0 <= c -> c + Z.of_nat n <= 2 ^ 32 ->
  keystream n (counter_input key nonce c)
  = concat (map (fun j => Rfc7539.chacha20_block key (Rfc7539.add32 c (Z.of_nat j)) nonce) (seq 0 n)).
Proof.
  intros Hc Hl. rewrite keystream_blocks by done. apply (f_equal (@concat Z)), map_ext_in. intros j Hj.
  apply in_seq in Hj. unfold Rfc7539.add32. rewrite Z.mod_small; [reflexivity|lia].
Qed.

(** The longest text of RFC 7539, [2^38 - 64] bytes: block counters 1 to [2^32 - 1]. *)
Lemma rfc_cipher_rfc m : zlen m <= 2 ^ 38 - 64 ->
  rfc_cipher key nonce m = Rfc7539.chacha20_encrypt key 1 nonce m.
Proof.
  intros Hm. unfold rfc_cipher, Rfc7539.chacha20_encrypt, xor_bytes. cbn zeta.
  apply (f_equal (zip_with Z.lxor m)).
  change (next_counter (rfc_input key nonce)) with (next_counter (counter_input key nonce 0)).
  rewrite next_counter_input by lia. change (0 + 1) with 1. apply keystream_rfc; [lia|].
  pose proof (nblocks_spec (length m)). unfold nblocks in *. unfold zlen in Hm. lia.
Qed.

Lemma mac_take32 otk msg : poly1305_mac (take 32 otk) msg = poly1305_mac otk msg.
Proof.
  unfold poly1305_mac. rewrite take_take, skipn_firstn_comm, take_take. reflexivity.
Qed.

Lemma rfc_tag_rfc ad c :
  rfc_tag key nonce ad c
  = poly1305_mac (Rfc7539.poly1305_key_gen key nonce) (Rfc7539.mac_data ad c).
Proof.
  unfold rfc_tag, Rfc7539.poly1305_key_gen, Rfc7539.mac_data.
  change (rfc_input key nonce) with (counter_input key nonce 0).
  rewrite ks_block_rfc by (unfold is_u32; lia). rewrite mac_take32.
  unfold pad16. fold (Rfc7539.pad16 ad) (Rfc7539.pad16 c). by rewrite <- !app_assoc.
Qed.

(** The code's ciphertext and tag are those of the RFC. *)
Lemma rfc_aead ad m : zlen m <= 2 ^ 38 - 64 ->
  (rfc_cipher key nonce m, rfc_tag key nonce ad (rfc_cipher key nonce m))
  = Rfc7539.chacha20_aead_encrypt key nonce ad m.
Proof.
  intros Hm. unfold Rfc7539.chacha20_aead_encrypt. cbn zeta. by rewrite rfc_tag_rfc, rfc_cipher_rfc.
Qed.

End Bridge.

(** What a call takes: bytes, no more than its 32-bit length tells. *)
Definition chunk_ok (m : list Z) : Prop := Forall is_byte m /\ zlen m < 2 ^ 32.

Lemma chunks_bytes chunks : Forall chunk_ok chunks -> Forall (Forall is_byte) chunks.
Proof. apply Forall_impl. by intros m [? _]. Qed.

(** C28: Authenticated encryption per RFC 7539, with the block function, the 32-bit
    block counter and the tag written from the RFC ([Rfc7539]): for a 32-byte key, a
    12-byte nonce and a message of at most [2^38 - 64] bytes (the limit of the RFC),
    encrypting it in chunks of whole 64-byte blocks (the last may be short), each shorter
    than [2^32] bytes, yields the ciphertext and the tag of the RFC; decrypting it, in
    chunks split in any other such way, yields the message and the same tag. *)
Theorem rfc7539_roundtrip ulw key nonce ad chunks chunks' :
  ulw = 32 \/ ulw = 64 ->
  Forall is_byte key -> length key = 32%nat -> Forall is_byte nonce -> length nonce = 12%nat ->
  chunk_ok ad -> Forall chunk_ok chunks -> Forall chunk_ok chunks' ->
  split_ok chunks -> split_ok chunks' ->
  let msg := concat chunks in
  zlen msg <= 2 ^ 38 - 64 ->
  let c := fst (Rfc7539.chacha20_aead_encrypt key nonce ad msg) in
  let tag := snd (Rfc7539.chacha20_aead_encrypt key nonce ad msg) in
  concat chunks' = c ->
  let ctx := rfc7539_auth ulw (rfc7539_init key nonce) ad in
  exists e d,
    crypt_all (chacha20poly1305_encrypt ulw) ctx chunks = (e, c) /\
    crypt_all (chacha20poly1305_decrypt ulw) ctx chunks' = (d, msg) /\
    rfc7539_finish ulw e (zlen ad) (zlen msg) = tag /\
    rfc7539_finish ulw d (zlen ad) (zlen msg) = tag.
Proof.
  intros Hu Hk Hkl Hn Hnl [Ha _] Hc%chunks_bytes Hc2%chunks_bytes Hs Hs' msg Hlen c tag Hc' ctx.
  pose proof (rfc_aead key nonce Hk Hn ad msg Hlen) as R.
  unfold c, tag in *. rewrite <- R in *. cbn [fst snd] in *. clear R c tag.
  set (c := rfc_cipher key nonce msg) in *.
  assert (Hl : zlen c = zlen msg) by (unfold zlen; f_equal; apply rfc_cipher_length).
  destruct (rfc7539_encrypt_eq ulw Hu key nonce ad chunks Ha Hc Hs) as (e & E & T). cbn zeta in E, T.
  destruct (rfc7539_decrypt_eq ulw Hu key nonce ad chunks' Ha Hc2 Hs') as (d & E' & T').
  cbn zeta in E', T'. rewrite Hc' in E', T'. unfold c in E'. rewrite rfc_cipher_involutive in E'.
  exists e, d. fold msg in E, T. fold c in E, T. rewrite Hl in T, T'.
  split; [exact E|split; [exact E'|split; [exact T|exact T']]].
Qed.

Lemma rfc7539_roundtrip_witness :
  exists e d,
    crypt_all (chacha20poly1305_encrypt 32) (rfc7539_auth 32 (rfc7539_init (replicate 32 7) (replicate 12 9)) [1; 2])
      [replicate 64 5; [6; 7]]
      = (e, fst (Rfc7539.chacha20_aead_encrypt (replicate 32 7) (replicate 12 9) [1; 2] (concat [replicate 64 5; [6; 7]]))) /\
    crypt_all (chacha20poly1305_decrypt 32) (rfc7539_auth 32 (rfc7539_init (replicate 32 7) (replicate 12 9)) [1; 2])
      [fst (Rfc7539.chacha20_aead_encrypt (replicate 32 7) (replicate 12 9) [1; 2] (concat [replicate 64 5; [6; 7]]))]
      = (d, concat [replicate 64 5; [6; 7]]) /\
    rfc7539_finish 32 e 2 66 = rfc7539_finish 32 d 2 66.
Proof.
  set (c := fst _).
  assert (Hb : forall k x, is_byte x -> (Z.of_nat k < 2 ^ 32) -> chunk_ok (replicate k x)).
  { intros k x Hx Hkk. split; [by apply Forall_replicate|]. unfold zlen. by rewrite length_replicate. }
  assert (Hl : (zlen c <? 2 ^ 32) = true) by (vm_compute; reflexivity).
  assert (Hcb : bool_decide (Forall is_byte c) = true) by (vm_compute; reflexivity).
  destruct (rfc7539_roundtrip 32 (replicate 32 7) (replicate 12 9) [1; 2] [replicate 64 5; [6; 7]] [c])
    as (e & d & E & D & T & T').
  - by left.
  - apply Forall_replicate; unfold is_byte; lia.
  - reflexivity.
  - apply Forall_replicate; unfold is_byte; lia.
  - reflexivity.
  - split; [bytes_list|reflexivity].
  - apply Forall_cons_2; [apply Hb; [unfold is_byte; lia|reflexivity]|].
    apply Forall_cons_2; [split; [bytes_list|reflexivity]|apply Forall_nil_2].
  - apply Forall_cons_2; [|apply Forall_nil_2].
    split; [exact (bool_decide_eq_true_1 _ Hcb)|exact (proj1 (Z.ltb_lt _ _) Hl)].
  - split; [reflexivity|exact I].
  - exact I.
  - vm_compute. discriminate.
  - apply app_nil_r.
  - exists e, d. split; [exact E|]. split; [exact D|].
    change (zlen [1; 2]) with 2 in T, T'. change (zlen (concat [replicate 64 5; [6; 7]])) with 66 in T, T'.
    exact (eq_trans T (eq_sym T')).
Defined.

End AeadSpec.
