(* ===== verification/PinLog.v ===== *)
(** * The PIN failure counter: [storage/storage.c]

    The counter is kept in flash as two unary logs of sixteen words, the entry
    log and the success log.  One bit of every pair of bits is a guard bit whose
    position and value derive from a random guard key; the other is a data bit.
    A data bit of the entry log is cleared before every PIN check, and on success
    the success log is brought level with the entry log. *)

From stdpp Require Import base list numbers.
From Stdlib Require Import ZArith Lia.
From S2P Require Import Prelude.
Local Open Scope fw_scope.

Module PinLog.

Definition LOW_MASK : Z := 0x55555555.
Definition GUARD_KEY_WORDS : Z := 1.
Definition PIN_LOG_WORDS : Z := 16.
Definition PIN_MAX_TRIES : Z := 10.
Definition GUARD_KEY_MODULUS : Z := 6311.
Definition GUARD_KEY_REMAINDER : Z := 15.

Definition hamming_weight (value : Z) : Z :=
  let value := u32 (value - (Z.shiftr value 1 .& 0x55555555)) in
  let value := u32 ((value .& 0x33333333) + (Z.shiftr value 2 .& 0x33333333)) in
  let value := u32 (value + Z.shiftr value 4) .& 0x0F0F0F0F in
  let value := u32 (value + Z.shiftr value 8) in
  let value := u32 (value + Z.shiftr value 16) in
  value .& 0x3F.

Definition check_guard_key (guard_key : Z) : bool :=
  if negb (guard_key mod GUARD_KEY_MODULUS =? GUARD_KEY_REMAINDER) then false
  else
    let count := u32 ((guard_key .& 0x22222222) + (Z.shiftr guard_key 2 .& 0x22222222)) in
    let count := u32 (count + Z.shiftr count 4) in
    if negb (count .& 0x0e0e0e0e =? 0x04040404) then false
    else
      let zero_runs := not32 guard_key in
      let zero_runs := zero_runs .& Z.shiftr zero_runs 2 in
      let zero_runs := zero_runs .& Z.shiftr zero_runs 1 in
      let zero_runs := zero_runs .& Z.shiftr zero_runs 1 in
      let one_runs := guard_key in
      let one_runs := one_runs .& Z.shiftr one_runs 2 in
      let one_runs := one_runs .& Z.shiftr one_runs 1 in
      let one_runs := one_runs .& Z.shiftr one_runs 1 in
      if negb (one_runs =? 0) || negb (zero_runs =? 0) then false else true.

(** Guard mask and guard; [None] when the guard key is not valid. *)
Definition expand_guard_key (guard_key : Z) : option (Z * Z) :=
  if check_guard_key guard_key then
    Some (u32 (Z.shiftl (guard_key .& LOW_MASK) 1) .| (not32 guard_key .& LOW_MASK),
          (u32 (Z.shiftl (guard_key .& LOW_MASK) 1) .& guard_key)
            .| ((not32 guard_key .& LOW_MASK) .& Z.shiftr guard_key 1))
  else None.

(** The words of a freshly initialized PIN_LOGS_KEY entry. *)
Definition pin_logs_words (guard_key guard_mask guard fails : Z) : list Z :=
  let unused := guard .| not32 guard_mask in
  guard_key :: replicate 16 unused
    ++ (((Z.shiftr 0xFFFFFFFF (2 * fails) .& not32 guard_mask) .| guard)
        :: replicate 15 unused).

(** The word after one more data bit is cleared. *)
Definition next_word (guard_mask guard entry : Z) : Z :=
  let word := entry .& not32 guard_mask in
  let word := (Z.shiftr word 1 .| word) .& LOW_MASK in
  let word := Z.shiftr word 2 .| Z.shiftr word 1 in
  (word .& not32 guard_mask) .| guard.

(** The loop of [storage_pin_fails_increase] over the entry log: the word to
    update and its new value. *)
Inductive increase_result := IncBadGuard | IncExhausted | IncUpdate (i word : Z).

Fixpoint increase_loop (guard_mask guard : Z) (entry_log : list Z) (i : Z)
    : increase_result :=
  match entry_log with
  | [] => IncExhausted
  | e :: entry_log =>
      if negb (e .& guard_mask =? guard) then IncBadGuard
      else if negb (e =? guard) then IncUpdate i (next_word guard_mask guard e)
      else increase_loop guard_mask guard entry_log (i + 1)
  end.

(** The format loop of [pin_get_fails]: [None] is a fault, otherwise the index
    of the current word ([-1] when all words are used up). *)
Fixpoint fails_loop (guard_mask guard unused : Z) (success_log entry_log : list Z)
    (i current : Z) : option Z :=
  match entry_log, success_log with
  | e :: entry_log, s :: success_log =>
      if negb (e .& guard_mask =? guard) || negb (s .& guard_mask =? guard)
         || negb (e .& s =? e) then None
      else if current =? -1 then
        fails_loop guard_mask guard unused success_log entry_log (i + 1)
          (if negb (e =? guard) then i else current)
      else if negb (e =? unused) then None
      else fails_loop guard_mask guard unused success_log entry_log (i + 1) current
  | _, _ => Some current
  end.

(** [pin_get_fails] on the words of the entry; [None] is a fault. *)
Definition get_fails (guard_mask guard : Z) (success_log entry_log : list Z) : option Z :=
  let unused := guard .| not32 guard_mask in
  match fails_loop guard_mask guard unused success_log entry_log 0 (-1) with
  | None => None
  | Some current =>
      if (current <? 0) || (PIN_LOG_WORDS <=? current) then None
      else
        let word := znth 0 entry_log current .& not32 guard_mask in
        let word := (Z.shiftr word 1 .| word) .& LOW_MASK in
        let word := word .| u32 (Z.shiftl word 1) in
        if negb (word .& u32 (word + 1) =? 0) then None
        else
          let current := if current =? 0 then current + 1 else current in
          Some (hamming_weight (znth 0 success_log (current - 1) .^ znth 0 entry_log (current - 1))
                + hamming_weight (znth 0 success_log current .^ znth 0 entry_log current))
  end.

(** The loop of [pin_fails_reset]: the updates it makes to the success log, in
    order, and whether it fell through to the reinitialization of the logs. *)
Fixpoint reset_loop (guard unused : Z) (success_log entry_log : list Z) (i : Z)
    : list (Z * Z) * bool :=
  match entry_log, success_log with
  | e :: entry_log, s :: success_log =>
      if e =? unused then ([], false)
      else
        let '(ups, again) := reset_loop guard unused success_log entry_log (i + 1) in
        ((if negb (s =? guard) then [(i, e)] else []) ++ ups, again)
  | _, _ => ([], true)
  end.

(** Legacy PIN and wipe code formats. *)
Definition V0_PIN_EMPTY : Z := 1.
Definition V0_MAX_PIN_LEN : Z := 9.
Definition V2_WIPE_CODE_EMPTY : Z := 0.

Fixpoint pin_to_int_loop (pin : list Z) (val : Z) : Z :=
  match pin with
  | [] => val
  | c :: pin =>
      if (c <? 48) || (57 <? c) then 0
      else pin_to_int_loop pin (u32 (10 * val + c - 48))
  end.

Definition pin_to_int (pin : list Z) : Z :=
  if V0_MAX_PIN_LEN <? zlen pin then 0 else pin_to_int_loop pin 1.

(** The digits in front of the terminator; [None] is NULL.  [pos] counts the
    free bytes of the buffer. *)
Fixpoint int_to_wipe_code_loop (pos : nat) (val : Z) (acc : list Z) : option (list Z) :=
  if val =? 1 then Some acc
  else match pos with
  | O => None
  | S pos => int_to_wipe_code_loop pos (val / 10) (48 + val mod 10 :: acc)
  end.

Definition int_to_wipe_code (val : Z) : option (list Z) :=
  if val =? V2_WIPE_CODE_EMPTY then Some []
  else if val =? V0_PIN_EMPTY then None
  else int_to_wipe_code_loop 9 val [].

End PinLog.
