(* ===== verification/PinLogSpec.v ===== *)
(** * The PIN failure counter counts

    The bit tricks of [PinLog.v] implement a unary counter: on the logs that the
    code writes, [get_fails] is the number of attempts since the last success,
    an increase adds one, a reset returns it to zero, and the log is never
    exhausted while the number of tries is bounded by [PIN_MAX_TRIES]. *)

From stdpp Require Import base list numbers.
From Stdlib Require Import ZArith Lia.
From S2P Require Import Prelude Bits PinLog.
Local Open Scope fw_scope.

Module PinLogSpec.
Import PinLog.

(** ** Population count *)

(** The number of ones among the low [n] bits. *)
Fixpoint bitcount (n : nat) (x : Z) : Z :=
  match n with
  | O => 0
  | S n => x mod 2 + bitcount n (x / 2)
  end.

(** [k] bytes equal to [c]. *)
Fixpoint repb (k : nat) (c : Z) : Z :=
  match k with O => 0 | S k => c + 256 * repb k c end.

Definition g1 (k : nat) (x : Z) : Z := x - Z.land (x / 2) (repb k 0x55).
Definition g2 (k : nat) (x : Z) : Z :=
  Z.land x (repb k 0x33) + Z.land (x / 4) (repb k 0x33).
Definition g3 (k : nat) (x : Z) : Z := Z.land (x + x / 16) (repb k 0x0F).

Lemma land_rep k c y x : 0 <= c < 256 ->
  Z.land (x + 256 * y) (repb (S k) c) =
    Z.land (x mod 256) c + 256 * Z.land (y + x / 256) (repb k c).
Proof.
  intros Hc. rewrite land_split. cbn [repb].
  replace ((x + 256 * y) mod 256) with (x mod 256) by zlia.
  replace ((x + 256 * y) / 256) with (y + x / 256) by zlia.
  replace ((c + 256 * repb k c) mod 256) with c by zlia.
  replace ((c + 256 * repb k c) / 256) with (repb k c) by zlia. done.
Qed.

(** The byte a stage makes of a byte [a] with the low bits [c] of the next. *)
Definition b1 (a : Z) : Z := a - Z.land (a / 2) 0x55.
Definition b2 (a : Z) : Z := Z.land a 0x33 + Z.land (a / 4) 0x33.
Definition b3 (a : Z) : Z := Z.land (a + a / 16) 0x0F.

Lemma byte_facts a : 0 <= a < 256 ->
  (Z.land (a / 2 + 128) 0x55 = Z.land (a / 2) 0x55 /\ 0 <= b1 a < 256) /\
  (forall c, 0 <= c < 4 -> Z.land (a / 4 + 64 * c) 0x33 = Z.land (a / 4) 0x33) /\
  0 <= b2 a < 256 /\ (0 <= b2 (b1 a) < 256 /\ b2 (b1 a) mod 16 <= 4 /\ b2 (b1 a) / 16 <= 4) /\
  b3 (b2 (b1 a)) = bitcount 8 a /\ 0 <= bitcount 8 a <= 8.
Proof.
  set (P a := (Z.land (a / 2 + 128) 0x55 =? Z.land (a / 2) 0x55) && (0 <=? b1 a) && (b1 a <? 256)
     && forallb (fun c => Z.land (a / 4 + 64 * c) 0x33 =? Z.land (a / 4) 0x33) [0; 1; 2; 3]
     && (0 <=? b2 a) && (b2 a <? 256)
     && (0 <=? b2 (b1 a)) && (b2 (b1 a) <? 256) && (b2 (b1 a) mod 16 <=? 4)
     && (b2 (b1 a) / 16 <=? 4)
     && (b3 (b2 (b1 a)) =? bitcount 8 a) && (0 <=? bitcount 8 a) && (bitcount 8 a <=? 8)).
  intros Ha. assert (H : P a = true) by (apply (all_bytes_dec P); [by vm_compute|done]).
  unfold P in H. cbn [forallb] in H. zbool. repeat split; try lia.
  intros c Hc. assert (c = 0 \/ c = 1 \/ c = 2 \/ c = 3) as [->|[->|[->| ->]]] by lia; done.
Qed.

Lemma g1_step k a y : 0 <= a < 256 -> 0 <= y -> g1 (S k) (a + 256 * y) = b1 a + 256 * g1 k y.
Proof.
  intros Ha Hy. unfold g1, b1.
  replace ((a + 256 * y) / 2) with ((a / 2 + 128 * (y mod 2)) + 256 * (y / 2)) by zlia.
  rewrite land_rep by lia.
  assert (0 <= a / 2 + 128 * (y mod 2) < 256) by zlia.
  rewrite Z.mod_small, (Z.div_small (_ + _)), Z.add_0_r by done.
  destruct (byte_facts a Ha) as [[H1 _] _].
  assert (y mod 2 = 0 \/ y mod 2 = 1) as [-> | ->] by zlia;
    rewrite ?Z.mul_0_r, ?Z.add_0_r, ?Z.mul_1_r, ?H1; lia.
Qed.

Lemma g2_step k a y : 0 <= a < 256 -> 0 <= y -> g2 (S k) (a + 256 * y) = b2 a + 256 * g2 k y.
Proof.
  intros Ha Hy. unfold g2, b2.
  replace ((a + 256 * y) / 4) with ((a / 4 + 64 * (y mod 4)) + 256 * (y / 4)) by zlia.
  rewrite !land_rep by lia.
  assert (0 <= a / 4 + 64 * (y mod 4) < 256) by zlia.
  rewrite (Z.mod_small (_ + 64 * _)), (Z.div_small (_ + 64 * _)) by done.
  rewrite (Z.mod_small a), (Z.div_small a), !Z.add_0_r by done.
  destruct (byte_facts a Ha) as [_ [H2 _]].
  rewrite H2 by (apply Z.mod_pos_bound; lia). lia.
Qed.

Lemma g3_step k a y : 0 <= a < 256 -> a / 16 <= 4 -> a mod 16 <= 4 -> 0 <= y -> y mod 16 <= 4 ->
  g3 (S k) (a + 256 * y) = b3 a + 256 * g3 k y.
Proof.
  intros Ha Hh Hl Hy Hm. unfold g3, b3.
  replace (a + 256 * y + (a + 256 * y) / 16)
    with ((a + a / 16 + 16 * (y mod 16)) + 256 * (y + y / 16)) by zlia.
  rewrite land_rep by lia.
  rewrite Z.mod_small, (Z.div_small (a + _ + _)), Z.add_0_r by zlia. f_equal.
  change 0x0F with (Z.ones 4). rewrite !Z.land_ones by lia. change (2 ^ 4) with 16. zlia.
Qed.

Lemma bitcount_app m : forall n x,
  bitcount (m + n) x = bitcount m x + bitcount n (x / 2 ^ Z.of_nat m).
Proof.
  induction m as [|m IH]; intros n x; cbn [Nat.add bitcount].
  - by rewrite Z.div_1_r.
  - rewrite IH, Nat2Z.inj_succ, Z.pow_succ_r, Z.div_div by lia. lia.
Qed.

Lemma bitcount_low m : forall x y, bitcount m (x + 2 ^ Z.of_nat m * y) = bitcount m x.
Proof.
  induction m as [|m IH]; intros x y; [done|]. cbn [bitcount].
  rewrite Nat2Z.inj_succ, Z.pow_succ_r by lia.
  replace (x + 2 * 2 ^ Z.of_nat m * y) with (x + (2 ^ Z.of_nat m * y) * 2) by lia.
  by rewrite Z.mod_add, Z.div_add, IH by lia.
Qed.

Lemma bitcount_byte n a y : 0 <= a < 256 -> 0 <= y ->
  bitcount (8 + n) (a + 256 * y) = bitcount 8 a + bitcount n y.
Proof.
  intros Ha Hy. rewrite bitcount_app, (bitcount_low 8). change (2 ^ Z.of_nat 8) with 256.
  by replace ((a + 256 * y) / 256) with y by zlia.
Qed.

(** The three masked stages leave the population count of every byte in it. *)
Fixpoint counts (k : nat) (x : Z) : Z :=
  match k with O => 0 | S k => bitcount 8 (x mod 256) + 256 * counts k (x / 256) end.

Lemma stages_counts k : forall x, 0 <= x < 256 ^ Z.of_nat k ->
  0 <= g1 k x /\ 0 <= g2 k (g1 k x) /\ (g2 k (g1 k x)) mod 16 <= 4 /\
  g3 k (g2 k (g1 k x)) = counts k x.
Proof.
  induction k as [|k IH]; intros x Hx.
  - assert (x = 0) as -> by (change (256 ^ Z.of_nat 0) with 1 in Hx; lia). by vm_compute.
  - rewrite Nat2Z.inj_succ, Z.pow_succ_r in Hx by lia.
    destruct (IH (x / 256)) as (I1 & I2 & I3 & I4).
    { split; [apply Z.div_pos; lia|]. apply Z.div_lt_upper_bound; lia. }
    set (a := x mod 256) in *. set (y := x / 256) in *.
    assert (Ha : 0 <= a < 256) by (apply Z.mod_pos_bound; lia).
    assert (Hy : 0 <= y) by (apply Z.div_pos; lia).
    replace x with (a + 256 * y) by (unfold a, y; zlia).
    destruct (byte_facts a Ha) as ((_ & B1) & _ & B2 & (B3 & B4 & B5) & B6 & _).
    rewrite g1_step, g2_step, g3_step by (lia || done). cbn [counts].
    replace ((a + 256 * y) mod 256) with a by zlia.
    replace ((a + 256 * y) / 256) with y by zlia.
    rewrite I4, B6. split; [lia|]. split; [lia|]. split; [|lia].
    replace (256 * g2 k (g1 k y)) with (16 * g2 k (g1 k y) * 16) by lia.
    by rewrite Z.mod_add by lia.
Qed.

Lemma counts_step k a y : 0 <= a < 256 ->
  counts (S k) (a + 256 * y) = bitcount 8 a + 256 * counts k y.
Proof.
  intros Ha. cbn [counts].
  replace ((a + 256 * y) mod 256) with a by zlia.
  by replace ((a + 256 * y) / 256) with y by zlia.
Qed.

Lemma u32_four_bytes x : is_u32 x -> exists a b c d,
  0 <= a < 256 /\ 0 <= b < 256 /\ 0 <= c < 256 /\ 0 <= d < 256 /\
  x = a + 256 * (b + 256 * (c + 256 * d)).
Proof.
  unfold is_u32. intros Hx.
  exists (x mod 256), (x / 256 mod 256), (x / 256 / 256 mod 256), (x / 256 / 256 / 256). zlia.
Qed.

(** The last two sums add up four byte counts. *)
Lemma sum_counts p q r t : 0 <= p <= 8 -> 0 <= q <= 8 -> 0 <= r <= 8 -> 0 <= t <= 8 ->
  let v := p + 256 * (q + 256 * (r + 256 * t)) in
  let v := u32 (v + v / 256) in
  let v := u32 (v + v / 65536) in v mod 64 = p + (q + (r + t)).
Proof.
  intros Hp Hq Hr Ht v1. assert (E1 : v1 / 256 = q + 256 * (r + 256 * t)) by (unfold v1; zlia).
  set (v2 := u32 _).
  assert (E2 : v2 = (p + q) + 256 * (q + r) + 65536 * (r + t + 256 * t)).
  { unfold v2. rewrite E1, u32_small; unfold v1; lia. }
  assert (E3 : v2 / 65536 = r + t + 256 * t) by (rewrite E2; zlia).
  cbn zeta. rewrite E3, E2, u32_small by lia. zlia.
Qed.

Lemma hamming_weight_bitcount x : is_u32 x -> hamming_weight x = bitcount 32 x.
Proof.
  intros Hx. destruct (stages_counts 4 x) as (I1 & I2 & I3 & I4); [exact Hx|].
  assert (G1 : g1 4 x <= x).
  { unfold g1. pose proof (proj2 (Z.land_nonneg (x / 2) (repb 4 0x55)) ltac:(right; by vm_compute)).
    lia. }
  assert (G2 : g2 4 (g1 4 x) < 4294967296).
  { unfold g2. pose proof (fun y => land_bound 30 y (repb 4 0x33) ltac:(lia) ltac:(by vm_compute))
      as Hl. pose proof (Hl (g1 4 x)). pose proof (Hl (g1 4 x / 4)). lia. }
  unfold hamming_weight. rewrite !Z.shiftr_div_pow2 by lia.
  change (2 ^ 1) with 2. change (2 ^ 2) with 4. change (2 ^ 4) with 16.
  change (2 ^ 8) with 256. change (2 ^ 16) with 65536.
  change 0x55555555 with (repb 4 0x55). change 0x33333333 with (repb 4 0x33).
  change 0x0F0F0F0F with (repb 4 0x0F). change 0x3F with (Z.ones 6).
  fold (g1 4 x). rewrite (u32_small (g1 4 x)) by (unfold is_u32 in Hx; lia).
  fold (g2 4 (g1 4 x)). set (w := g2 4 (g1 4 x)) in *. rewrite (u32_small w) by lia.
  replace (Z.land (u32 (w + w / 16)) (repb 4 0x0F)) with (g3 4 w).
  2:{ unfold g3. rewrite <- (Z.land_diag (repb 4 0x0F)) at 1. unfold u32, wrap.
      rewrite <- Z.land_ones by lia. rewrite <- !Z.land_assoc. f_equal. }
  rewrite I4, Z.land_ones by lia.
  destruct (u32_four_bytes x Hx) as (a & b & c & d & Ha & Hb & Hc & Hd & ->).
  rewrite !counts_step by done.
  assert (C1 : counts 1 d = bitcount 8 d).
  { cbn [counts]. rewrite Z.mod_small by done. lia. }
  rewrite C1.
  assert (H8 : forall e, 0 <= e < 256 -> 0 <= bitcount 8 e <= 8)
    by (intros e He; by destruct (byte_facts e He) as (_ & _ & _ & _ & _ & ?)).
  change (2 ^ 6) with 64. rewrite sum_counts by auto.
  rewrite (bitcount_byte 24), (bitcount_byte 16), (bitcount_byte 8) by lia. done.
Qed.

(** ** Guard bits *)

Lemma even_range (P : Z -> bool) :
  forallb P (map Z.of_nat (seq 0 32)) = true -> forall n, 0 <= n < 32 -> P n = true.
Proof.
  intros H n Hn. rewrite forallb_forall in H. apply H. rewrite in_map_iff.
  exists (Z.to_nat n). split; [lia|]. apply in_seq. lia.
Qed.

Lemma LOW_MASK_spec n : 0 <= n < 32 -> Z.testbit LOW_MASK n = Z.even n.
Proof.
  intros Hn. apply eqb_prop.
  by apply (even_range (fun n => Bool.eqb (Z.testbit LOW_MASK n) (Z.even n))); [vm_compute|].
Qed.

(** One guard bit in every pair of bits, and the guard only has guard bits. *)
Record guard_ok (mask guard : Z) : Prop := {
  gk_mask : is_u32 mask;
  gk_guard : is_u32 guard;
  gk_sub : forall n, 0 <= n -> Z.testbit guard n = true -> Z.testbit mask n = true;
  gk_pair : forall p, 0 <= p < 16 ->
    Z.testbit mask (2 * p) = negb (Z.testbit mask (2 * p + 1));
}.

(** A 32-bit position is even or odd. *)
Lemma pair_cases n : 0 <= n < 32 -> exists p, 0 <= p < 16 /\ (n = 2 * p \/ n = 2 * p + 1).
Proof. intros. exists (n / 2). zlia. Qed.

Lemma LOW_even p : 0 <= p < 16 -> Z.testbit LOW_MASK (2 * p) = true.
Proof. intros. rewrite LOW_MASK_spec by lia. by rewrite Z.even_mul. Qed.

Lemma LOW_odd p : 0 <= p < 16 -> Z.testbit LOW_MASK (2 * p + 1) = false.
Proof.
  intros. rewrite LOW_MASK_spec by lia. rewrite Z.add_1_r, Z.even_succ, Z.odd_mul. done.
Qed.

Lemma expand_guard_key_bits k mask guard :
  is_u32 k -> expand_guard_key k = Some (mask, guard) ->
  is_u32 mask /\ is_u32 guard /\
  forall p, 0 <= p < 16 ->
    Z.testbit mask (2 * p) = negb (Z.testbit k (2 * p)) /\
    Z.testbit mask (2 * p + 1) = Z.testbit k (2 * p) /\
    Z.testbit guard (2 * p) = negb (Z.testbit k (2 * p)) && Z.testbit k (2 * p + 1) /\
    Z.testbit guard (2 * p + 1) = Z.testbit k (2 * p) && Z.testbit k (2 * p + 1).
Proof.
  intros Hk He. unfold expand_guard_key in He. destruct (check_guard_key k); [|done].
  injection He as <- <-. assert (HL : is_u32 LOW_MASK) by auto with u32.
  split; [auto 10 with u32|]. split; [auto 10 with u32|]. intros p Hp.
  assert (Hprev : Z.testbit (u32 (Z.shiftl (k .& LOW_MASK) 1)) (2 * p) = false).
  { rewrite u32_spec, Z.shiftl_spec, Z.land_spec by lia.
    destruct (Z.eq_dec p 0) as [->|]; [by rewrite Z.testbit_neg_r, andb_false_r by lia|].
    replace (2 * p - 1) with (2 * (p - 1) + 1) by lia. rewrite LOW_odd by lia.
    by rewrite !andb_false_r. }
  assert (Hprev' : Z.testbit (u32 (Z.shiftl (k .& LOW_MASK) 1)) (2 * p + 1)
                   = Z.testbit k (2 * p)).
  { rewrite u32_spec, Z.shiftl_spec, Z.land_spec by lia.
    replace (2 * p + 1 - 1) with (2 * p) by lia. rewrite LOW_even by lia. zif.
    by rewrite andb_true_r. }
  rewrite !Z.lor_spec, !Z.land_spec, Hprev, Hprev', LOW_even, LOW_odd by lia.
  rewrite Z.shiftr_spec, !not32_spec by (done || lia). zif.
  rewrite !andb_false_r, !orb_false_r, andb_true_r. done.
Qed.

Lemma expand_guard_ok k mask guard :
  is_u32 k -> expand_guard_key k = Some (mask, guard) -> guard_ok mask guard.
Proof.
  intros Hk He. destruct (expand_guard_key_bits k mask guard Hk He) as (Hm & Hg & Hb).
  split; auto.
  - intros n Hn Hg1. destruct (Z.lt_ge_cases n 32); [|by rewrite u32_high in Hg1].
    destruct (pair_cases n) as (p & Hp & [-> | ->]); [lia|..];
      destruct (Hb p Hp) as (E1 & E2 & E3 & E4); rewrite ?E3, ?E4, ?E1, ?E2 in *;
      by apply andb_prop in Hg1 as [? _].
  - intros p Hp. destruct (Hb p Hp) as (-> & -> & _). done.
Qed.

(** ** Words of the logs *)

Section Words.
Context (mask guard : Z) (G : guard_ok mask guard).

(** A log word with [j] of its sixteen data bits cleared. *)
Definition log_word (j : Z) : Z :=
  (Z.ones (2 * (16 - j)) .& not32 mask) .| guard.

Lemma gk_u32 : is_u32 mask /\ is_u32 guard.
Proof. split; apply G. Qed.

Lemma ones_u32 k : 0 <= k <= 32 -> is_u32 (Z.ones k).
Proof.
  intros Hk. unfold is_u32. rewrite Z.ones_equiv.
  pose proof (Z.pow_pos_nonneg 2 k). pose proof (Z.pow_le_mono_r 2 k 32). lia.
Qed.

Lemma log_word_u32 j : 0 <= j <= 16 -> is_u32 (log_word j).
Proof.
  intros Hj. destruct gk_u32. unfold log_word.
  apply is_u32_lor; [|done]. apply is_u32_land; [apply ones_u32; lia|].
  by apply is_u32_not32.
Qed.

Lemma log_word_bits j n : 0 <= j <= 16 -> 0 <= n < 32 ->
  Z.testbit (log_word j) n =
    (n <? 2 * (16 - j)) && negb (Z.testbit mask n) || Z.testbit guard n.
Proof.
  intros Hj Hn. destruct gk_u32. unfold log_word.
  rewrite Z.lor_spec, Z.land_spec, not32_spec by (done || lia).
  rewrite Z.testbit_ones_nonneg by lia. by zif.
Qed.

Lemma guard_or_mask n : 0 <= n -> Z.testbit guard n && negb (Z.testbit mask n) = false.
Proof.
  intros Hn. destruct (Z.testbit guard n) eqn:E; [|done]. by rewrite (gk_sub _ _ G).
Qed.

(** Decide an equation between words bit by bit, by cases on the atoms. *)
Ltac word_bits :=
  apply u32_bits_eq; [auto using log_word_u32 with u32.. |];
  let n := fresh "n" in let Hn := fresh "Hn" in intros n Hn;
  pose proof (guard_or_mask n ltac:(lia)) as Hgm;
  rewrite ?Z.land_spec, ?Z.lor_spec, ?Z.lxor_spec, ?not32_spec, ?log_word_bits
    by (lia || apply gk_u32 || auto with u32);
  repeat match goal with
  | |- context [Z.testbit guard n] => destruct (Z.testbit guard n)
  | |- context [Z.testbit mask n] => destruct (Z.testbit mask n)
  end; cbn in *; try done.

Lemma log_word_unused : log_word 0 = guard .| not32 mask.
Proof.
  destruct gk_u32. unfold log_word. rewrite Z.lor_comm. f_equal.
  apply u32_bits_eq; [apply is_u32_land; [apply ones_u32; lia|auto with u32]|auto with u32|].
  intros n Hn. rewrite Z.land_spec, Z.testbit_ones_nonneg by lia. by zif.
Qed.

Lemma log_word_guard : log_word 16 = guard.
Proof. unfold log_word. cbn [Z.sub Z.mul Z.opp Z.add Z.pos_sub]. done. Qed.

Lemma log_word_mask j : 0 <= j <= 16 -> log_word j .& mask = guard.
Proof.
  intros Hj. destruct gk_u32. word_bits. all: by rewrite ?andb_false_r.
Qed.

Lemma log_word_mono i j : 0 <= i <= j -> j <= 16 -> log_word j .& log_word i = log_word j.
Proof.
  intros Hi Hj. destruct gk_u32.
  apply u32_bits_eq; [apply is_u32_land; [|apply log_word_u32; lia]; apply log_word_u32; lia
                     |apply log_word_u32; lia|].
  intros n Hn. rewrite Z.land_spec, !log_word_bits by lia.
  destruct (Z.ltb_spec n (2 * (16 - j))); cbn [andb].
  - zif. by destruct (negb (Z.testbit mask n)), (Z.testbit guard n).
  - destruct (Z.testbit guard n); [by rewrite !orb_true_r|done].
Qed.

(** In every pair exactly one bit is a data bit. *)
Lemma pair_data p : 0 <= p < 16 ->
  (Z.testbit mask (2 * p) = false /\ Z.testbit mask (2 * p + 1) = true) \/
  (Z.testbit mask (2 * p) = true /\ Z.testbit mask (2 * p + 1) = false).
Proof.
  intros Hp. pose proof (gk_pair _ _ G p Hp).
  destruct (Z.testbit mask (2 * p)), (Z.testbit mask (2 * p + 1)); auto; done.
Qed.

Lemma log_word_inj i j : 0 <= i < j -> j <= 16 -> log_word i <> log_word j.
Proof.
  intros Hi Hj E. set (p := 16 - j).
  assert (Hb : forall n, n = 2 * p \/ n = 2 * p + 1 ->
    Z.testbit (log_word i) n = Z.testbit (log_word j) n) by (intros; by rewrite E).
  pose proof (Hb (2 * p) (or_introl eq_refl)) as H0.
  pose proof (Hb (2 * p + 1) (or_intror eq_refl)) as H1.
  rewrite !log_word_bits in H0, H1 by (unfold p; lia). revert H0 H1.
  pose proof (guard_or_mask (2 * p) ltac:(unfold p; lia)).
  pose proof (guard_or_mask (2 * p + 1) ltac:(unfold p; lia)). unfold p in *. zif.
  destruct (pair_data (16 - j)) as [[E0 E1]|[E0 E1]]; [lia|..]; rewrite E0, E1 in *; cbn in *;
    destruct (Z.testbit guard _), (Z.testbit guard _); cbn in *; done.
Qed.

(** The data bits of a word, gathered on the even positions. *)
Lemma gather_bits j p : 0 <= j <= 16 -> 0 <= p < 16 ->
  let word := log_word j .& not32 mask in
  let word := (Z.shiftr word 1 .| word) .& LOW_MASK in
  Z.testbit word (2 * p) = (p <? 16 - j) /\ Z.testbit word (2 * p + 1) = false.
Proof.
  intros Hj Hp. destruct gk_u32. cbn zeta.
  assert (Hbit : forall n, 0 <= n < 32 -> Z.testbit (log_word j .& not32 mask) n
                  = (n <? 2 * (16 - j)) && negb (Z.testbit mask n)).
  { intros n Hn. rewrite Z.land_spec, log_word_bits, not32_spec by (done || lia). zif.
    pose proof (guard_or_mask n ltac:(lia)).
    destruct (n <? _), (Z.testbit mask n), (Z.testbit guard n); done. }
  rewrite !Z.land_spec, LOW_even, LOW_odd, andb_false_r, andb_true_r by lia.
  split; [|done]. rewrite Z.lor_spec, Z.shiftr_spec, !Hbit by lia.
  destruct (pair_data p Hp) as [[-> ->]|[-> ->]]; cbn [negb];
    rewrite ?andb_true_r, ?andb_false_r, ?orb_false_r; cbn [orb];
    destruct (Z.ltb_spec p (16 - j)); by zif.
Qed.

Lemma gather_u32 j : 0 <= j <= 16 ->
  is_u32 ((Z.shiftr (log_word j .& not32 mask) 1 .| (log_word j .& not32 mask)) .& LOW_MASK).
Proof.
  intros Hj. destruct gk_u32. pose proof (log_word_u32 j Hj).
  apply is_u32_land; [|by vm_compute]. auto 8 with u32.
Qed.

(** Clearing one more data bit. *)
Lemma next_word_log j : 0 <= j < 16 -> next_word mask guard (log_word j) = log_word (j + 1).
Proof.
  intros Hj. destruct gk_u32. unfold next_word.
  change (log_word (j + 1)) with ((Z.ones (2 * (16 - (j + 1))) .& not32 mask) .| guard).
  do 2 f_equal.
  pose proof (gather_u32 j ltac:(lia)) as Hu.
  set (w := (Z.shiftr _ 1 .| _) .& LOW_MASK) in *.
  assert (Hb : forall p, 0 <= p < 16 -> Z.testbit w (2 * p) = (p <? 16 - j) /\
                          Z.testbit w (2 * p + 1) = false)
    by (intros p Hp; apply (gather_bits j p); lia).
  assert (Hhi : forall n, 32 <= n -> Z.testbit w n = false) by (intros; by apply u32_high).
  apply u32_bits_eq; [auto with u32|apply ones_u32; lia|]. intros n Hn.
  rewrite Z.lor_spec, !Z.shiftr_spec, Z.testbit_ones_nonneg by lia.
  destruct (pair_cases n Hn) as (p & Hp & [-> | ->]).
  - replace (2 * p + 2) with (2 * (p + 1)) by lia. destruct (Hb p Hp) as [_ ->].
    rewrite orb_false_r. destruct (Z.lt_ge_cases (p + 1) 16).
    + destruct (Hb (p + 1)) as [-> _]; [lia|]. destruct (Z.ltb_spec (p + 1) (16 - j)); by zif.
    + rewrite Hhi by lia. by zif.
  - replace (2 * p + 1 + 1) with (2 * (p + 1)) by lia.
    replace (2 * p + 1 + 2) with (2 * (p + 1) + 1) by lia.
    destruct (Z.lt_ge_cases (p + 1) 16).
    + destruct (Hb (p + 1)) as [-> ->]; [lia|]. destruct (Z.ltb_spec (p + 1) (16 - j)); by zif.
    + rewrite !Hhi by lia. by zif.
Qed.

(** The format check of [pin_get_fails] passes on log words. *)
Lemma log_word_form j : 0 <= j <= 16 ->
  let word := log_word j .& not32 mask in
  let word := (Z.shiftr word 1 .| word) .& LOW_MASK in
  let word := word .| u32 (Z.shiftl word 1) in
  word .& u32 (word + 1) = 0.
Proof.
  intros Hj. cbn zeta. pose proof (gather_u32 j Hj) as Hu.
  pose proof (fun p => gather_bits j p Hj) as Hb. cbn zeta in Hb.
  set (w := (Z.shiftr _ 1 .| _) .& LOW_MASK) in *.
  assert (Hw : w .| u32 (Z.shiftl w 1) = Z.ones (2 * (16 - j))).
  { apply u32_bits_eq; [auto with u32|apply ones_u32; lia|]. intros n Hn.
    rewrite Z.lor_spec, u32_spec, Z.shiftl_spec, Z.testbit_ones_nonneg by lia.
    destruct (pair_cases n Hn) as (p & Hp & [-> | ->]); destruct (Hb p Hp) as [E0 E1].
    - rewrite E0. assert (Z.testbit w (2 * p - 1) = false) as ->.
      { destruct (Z.eq_dec p 0) as [->|]; [by apply Z.testbit_neg_r|].
        replace (2 * p - 1) with (2 * (p - 1) + 1) by lia. by apply Hb; lia. }
      rewrite andb_false_r, orb_false_r. destruct (Z.ltb_spec p (16 - j)); by zif.
    - replace (2 * p + 1 - 1) with (2 * p) by lia. rewrite E0, E1. zif.
      destruct (Z.ltb_spec p (16 - j)); by zif. }
  rewrite Hw, Z.ones_equiv. set (k := 2 * (16 - j)).
  replace (Z.pred (2 ^ k) + 1) with (2 ^ k) by lia.
  destruct (Z.eq_dec j 0) as [->|]; [by vm_compute|].
  assert (2 ^ k < 2 ^ 32) by (apply Z.pow_lt_mono_r; unfold k; lia).
  rewrite u32_small by (pose proof (Z.pow_pos_nonneg 2 k); unfold k in *; lia).
  apply Z.bits_inj'. intros b Hbb. rewrite Z.land_spec, Z.bits_0, <- Z.ones_equiv.
  rewrite Z.pow2_bits_eqb, Z.testbit_ones_nonneg by (unfold k; lia).
  destruct (Z.ltb_spec b k); [|done]. by zif.
Qed.

Lemma bitcount_pairs m : forall x a b, 0 <= x -> 0 <= a <= b -> b <= Z.of_nat m ->
  (forall p, 0 <= p < Z.of_nat m ->
     Z.b2z (Z.testbit x (2 * p)) + Z.b2z (Z.testbit x (2 * p + 1))
     = (if (a <=? p) && (p <? b) then 1 else 0)) ->
  bitcount (2 * m) x = b - a.
Proof.
  induction m as [|m IH]; intros x a b Hx Hab Hb H; [cbn; lia|].
  replace (2 * S m)%nat with (S (S (2 * m))) by lia. cbn [bitcount].
  pose proof (H 0 ltac:(lia)) as H0. rewrite Z.mul_0_r, Z.add_0_l in H0.
  rewrite <- (Z.bit0_mod x), <- (Z.bit0_mod (x / 2)).
  replace (Z.testbit (x / 2) 0) with (Z.testbit x 1)
    by (change 2 with (2 ^ 1); by rewrite Z.div_pow2_bits by lia).
  rewrite Z.div_div by lia. change (2 * 2) with (2 ^ 2).
  rewrite (IH (x / 2 ^ 2) (Z.max (a - 1) 0) (Z.max (b - 1) 0)); [|apply Z.div_pos; lia|lia|lia|].
  - destruct (Z.leb_spec a 0), (Z.ltb_spec 0 b); cbn [andb] in H0; lia.
  - intros p Hp. rewrite !Z.div_pow2_bits by lia.
    pose proof (H (p + 1) ltac:(lia)) as Hp1.
    replace (2 * (p + 1)) with (2 * p + 2) in Hp1 by lia.
    replace (2 * p + 2 + 1) with (2 * p + 1 + 2) in Hp1 by lia. rewrite Hp1.
    destruct (Z.leb_spec a (p + 1)), (Z.ltb_spec (p + 1) b); cbn [andb]; zif; lia.
Qed.

(** The population count of the difference of two words is the number of data
    bits between them. *)
Lemma hamming_log_words i j : 0 <= i <= j -> j <= 16 ->
  hamming_weight (log_word i .^ log_word j) = j - i.
Proof.
  intros Hi Hj. pose proof (log_word_u32 i ltac:(lia)). pose proof (log_word_u32 j ltac:(lia)).
  assert (Hu : is_u32 (log_word i .^ log_word j)) by auto with u32.
  rewrite hamming_weight_bitcount by done.
  rewrite (bitcount_pairs 16 _ (16 - j) (16 - i)); [lia|apply Hu|lia|lia|].
  intros p Hp. rewrite !Z.lxor_spec, !log_word_bits by lia.
  pose proof (guard_or_mask (2 * p) ltac:(lia)) as G0.
  pose proof (guard_or_mask (2 * p + 1) ltac:(lia)) as G1.
  destruct (pair_data p) as [[E0 E1]|[E0 E1]]; [lia|..]; rewrite E0, E1 in *; cbn [negb] in *;
    rewrite ?andb_true_r, ?andb_false_r in *; rewrite ?G0, ?G1; cbn [orb];
    rewrite ?orb_false_r, ?xorb_nilpotent; cbn [Z.b2z];
    destruct (Z.leb_spec (16 - j) p), (Z.ltb_spec p (16 - i)); cbn [andb]; zif; cbn [xorb Z.b2z]; lia.
Qed.

(** ** Unary counters over several words *)

(** Word [i] of the log of a counter at [n]. *)
Definition cword (n i : Z) : Z := log_word (Z.max 0 (Z.min 16 (n - 16 * i))).

(** Words [i], ..., [i + len - 1]. *)
Fixpoint cfrom (n i : Z) (len : nat) : list Z :=
  match len with
  | O => []
  | S len => cword n i :: cfrom n (i + 1) len
  end.

Lemma zlen_cfrom n i len : zlen (cfrom n i len) = Z.of_nat len.
Proof. revert i; induction len; intros; cbn [cfrom]; zlen. rewrite IHlen. lia. Qed.

Lemma znth_cfrom n k len : forall i, 0 <= k < Z.of_nat len ->
  znth 0 (cfrom n i len) k = cword n (i + k).
Proof.
  revert k; induction len as [|len IH]; intros k i Hk; [lia|].
  cbn [cfrom]. destruct (Z.eq_dec k 0) as [->|].
  - unfold znth. cbn. f_equal. lia.
  - unfold znth. zif. replace (Z.to_nat k) with (S (Z.to_nat (k - 1))) by lia. cbn [nth].
    specialize (IH (k - 1) (i + 1) ltac:(lia)). unfold znth in IH.
    replace (k - 1 <? 0) with false in IH by (symmetry; apply Z.ltb_ge; lia).
    rewrite IH. f_equal. lia.
Qed.

Lemma Forall_cfrom n i len : Forall is_u32 (cfrom n i len).
Proof.
  revert i; induction len; intros; cbn [cfrom]; constructor; auto. apply log_word_u32. lia.
Qed.

(** Beyond a position where both counters are full, or not yet started, the logs
    agree. *)
Lemma cword_same m n i : m <= n -> (16 * i + 16 <= m \/ n <= 16 * i) -> cword m i = cword n i.
Proof. intros. unfold cword. f_equal. lia. Qed.

Lemma cfrom_unused m n i len : m <= 16 * i -> n <= 16 * i -> cfrom m i len = cfrom n i len.
Proof.
  revert i; induction len as [|len IH]; intros i Hm Hn; cbn [cfrom]; [done|].
  rewrite (IH (i + 1)) by lia. f_equal. unfold cword. f_equal. lia.
Qed.

Lemma cfrom_full m n i len :
  16 * (i + Z.of_nat len) <= m -> 16 * (i + Z.of_nat len) <= n -> cfrom m i len = cfrom n i len.
Proof.
  revert i; induction len as [|len IH]; intros i Hm Hn; cbn [cfrom]; [done|].
  rewrite (IH (i + 1)) by lia. f_equal. unfold cword. f_equal. lia.
Qed.

Lemma cword_mask n i : cword n i .& mask = guard.
Proof. apply log_word_mask. lia. Qed.

Lemma cword_mono m n i : m <= n -> cword n i .& cword m i = cword n i.
Proof. intros. apply log_word_mono; lia. Qed.

Lemma cword_unused n i : (cword n i =? guard .| not32 mask) = (n <=? 16 * i).
Proof.
  rewrite <- log_word_unused. unfold cword. destruct (Z.leb_spec n (16 * i)).
  - apply Z.eqb_eq. f_equal. lia.
  - apply Z.eqb_neq. apply not_eq_sym, log_word_inj; lia.
Qed.

Lemma cword_guard n i : (cword n i =? guard) = (16 * i + 16 <=? n).
Proof.
  rewrite <- log_word_guard at 1. unfold cword. destruct (Z.leb_spec (16 * i + 16) n).
  - apply Z.eqb_eq. f_equal. lia.
  - apply Z.eqb_neq. apply log_word_inj; lia.
Qed.

(** Increasing the entry log. *)
Lemma increase_cfrom e len : forall i, 16 * i <= e < 16 * (i + Z.of_nat len) ->
  increase_loop mask guard (cfrom e i len) i = IncUpdate (e / 16) (cword (e + 1) (e / 16)).
Proof.
  induction len as [|len IH]; intros i He; [lia|].
  cbn [cfrom increase_loop]. rewrite cword_mask, Z.eqb_refl, cword_guard. cbn [negb].
  destruct (Z.leb_spec (16 * i + 16) e); cbn [negb].
  - apply IH. lia.
  - replace (e / 16) with i by zlia. unfold cword. f_equal.
    rewrite next_word_log by lia. f_equal. lia.
Qed.

Lemma zupd_cfrom e len : forall i, 16 * i <= e < 16 * (i + Z.of_nat len) ->
  zupd (cfrom e i len) (e / 16 - i) (cword (e + 1) (e / 16)) = cfrom (e + 1) i len.
Proof.
  induction len as [|len IH]; intros i He; [lia|]. cbn [cfrom].
  destruct (Z.eq_dec (e / 16) i) as [E|E].
  - rewrite E, Z.sub_diag. change (cword (e + 1) i :: cfrom e (i + 1) len = cfrom (e + 1) i (S len)). cbn [cfrom].
    f_equal. apply cfrom_unused; zlia.
  - assert (i + 1 <= e / 16) by zlia. unfold zupd. zif.
    replace (Z.to_nat (e / 16 - i)) with (S (Z.to_nat (e / 16 - (i + 1)))) by lia.
    cbn [insert list_insert]. f_equal; [apply cword_same; zlia|].
    rewrite <- (IH (i + 1)) by zlia. unfold zupd. by zif.
Qed.

(** Reading the counter. *)
Lemma fails_loop_unused c e len : forall i current, c <= e -> e <= 16 * i -> current <> -1 ->
  fails_loop mask guard (guard .| not32 mask) (cfrom c i len) (cfrom e i len) i current
  = Some current.
Proof.
  induction len as [|len IH]; intros i current Hc He Hcur; [done|].
  cbn [cfrom fails_loop]. rewrite !cword_mask, cword_mono, !Z.eqb_refl, cword_unused by lia.
  zif. apply IH; lia.
Qed.

Lemma fails_loop_cfrom c e len : forall i, 0 <= i -> c <= e -> 16 * i <= e < 16 * (i + Z.of_nat len) ->
  fails_loop mask guard (guard .| not32 mask) (cfrom c i len) (cfrom e i len) i (-1)
  = Some (e / 16).
Proof.
  induction len as [|len IH]; intros i Hi Hc He; [lia|].
  cbn [cfrom fails_loop]. rewrite !cword_mask, cword_mono, !Z.eqb_refl, cword_guard by lia.
  cbn [negb orb]. destruct (Z.leb_spec (16 * i + 16) e); cbn [negb].
  - apply IH; lia.
  - replace (e / 16) with i by zlia. apply fails_loop_unused; lia.
Qed.

(** [pin_get_fails] reads the difference of the two counters. *)
Lemma get_fails_counters c e : 0 <= c <= e -> e < 256 -> e - c <= 16 ->
  get_fails mask guard (cfrom c 0 16) (cfrom e 0 16) = Some (e - c).
Proof.
  intros Hc He Hd. unfold get_fails. rewrite fails_loop_cfrom by lia.
  assert (0 <= e / 16 < 16) by zlia. change PIN_LOG_WORDS with 16. zif.
  rewrite (znth_cfrom e (e / 16)) by lia. rewrite Z.add_0_l.
  pose proof (log_word_form (Z.max 0 (Z.min 16 (e - 16 * (e / 16)))) ltac:(lia)) as Hf.
  cbn zeta in Hf. fold (cword e (e / 16)) in Hf. rewrite Hf. cbn [negb Z.eqb].
  destruct (Z.eqb_spec (e / 16) 0) as [E|E]; rewrite !znth_cfrom by lia;
    unfold cword; rewrite !hamming_log_words by lia; f_equal; zlia.
Qed.

(** An exhausted entry log is a fault. *)
Lemma get_fails_exhausted c : 0 <= c <= 256 ->
  get_fails mask guard (cfrom c 0 16) (cfrom 256 0 16) = None.
Proof.
  intros Hc. unfold get_fails.
  assert (H : forall len i, i + Z.of_nat len <= 16 ->
    fails_loop mask guard (guard .| not32 mask) (cfrom c i len) (cfrom 256 i len) i (-1)
    = Some (-1)).
  { induction len as [|len IH]; intros i Hi; [done|]. cbn [cfrom fails_loop].
    rewrite !cword_mask, cword_mono, !Z.eqb_refl, cword_guard by lia.
    zif. apply IH. lia. }
  by rewrite H by lia.
Qed.

(** The updates made by [pin_fails_reset] bring the success log level. *)
Definition apply_updates (l : list Z) (ups : list (Z * Z)) : list Z :=
  fold_left (fun l '(i, w) => zupd l i w) ups l.

Lemma zupd_app_here (p : list Z) x y l i : i = zlen p -> zupd (p ++ x :: l) i y = p ++ y :: l.
Proof.
  intros ->. unfold zupd, zlen. zif. rewrite Nat2Z.id, insert_app_r_alt by lia.
  by rewrite Nat.sub_diag.
Qed.

Lemma reset_cfrom c e len : forall p i, 0 <= i -> i = zlen p -> c <= e ->
  let '(ups, again) := reset_loop guard (guard .| not32 mask) (cfrom c i len) (cfrom e i len) i in
  apply_updates (p ++ cfrom c i len) ups = p ++ cfrom e i len /\
  again = match len with O => true | S n => 16 * (i + Z.of_nat n) <? e end /\
  Forall (fun '(j, w) => i <= j < i + Z.of_nat len /\ w = cword e j) ups.
Proof.
  induction len as [|len IH]; intros p i Hi Hp Hc; [done|]. cbn [cfrom reset_loop].
  rewrite cword_unused. destruct (Z.leb_spec e (16 * i)).
  { cbn [apply_updates fold_left]. split; [|split; [by zif|constructor]].
    f_equal. f_equal; [apply cword_same; lia|apply cfrom_unused; lia]. }
  specialize (IH (p ++ [cword e i]) (i + 1) ltac:(lia) ltac:(zlen) Hc).
  rewrite <- !app_assoc in IH. cbn [app] in IH.
  destruct (reset_loop _ _ _ _ (i + 1)) as [ups again]. destruct IH as (E & Ha & HF).
  rewrite cword_guard. split; [|split].
  - unfold apply_updates in *. rewrite fold_left_app, <- E. f_equal.
    destruct (Z.leb_spec (16 * i + 16) c); cbn [negb fold_left].
    + f_equal. f_equal. apply cword_same; lia.
    + by apply zupd_app_here.
  - rewrite Ha. destruct len; [by zif|]. f_equal. lia.
  - apply Forall_app. split; [destruct (negb _); constructor; [|constructor]; split; [lia|done]|].
    eapply Forall_impl; [|exact HF]. intros [j w] [? ->]. split; [lia|done].
Qed.

(** A fresh entry. *)
Lemma pin_logs_words_counters gk f : 0 <= f <= 16 ->
  pin_logs_words gk mask guard f = gk :: cfrom 0 0 16 ++ cfrom f 0 16.
Proof.
  intros Hf. unfold pin_logs_words. f_equal.
  assert (E : Z.shiftr 0xFFFFFFFF (2 * f) = Z.ones (2 * (16 - f))).
  { rewrite Z.shiftr_div_pow2, Z.ones_equiv by lia.
    replace 0xFFFFFFFF with (2 ^ (2 * f) * 2 ^ (2 * (16 - f)) - 1)
      by (rewrite <- Z.pow_add_r by lia; by replace (2 * f + 2 * (16 - f)) with 32 by lia).
    pose proof (Z.pow_pos_nonneg 2 (2 * f)). pose proof (Z.pow_pos_nonneg 2 (2 * (16 - f))).
    symmetry. apply (Z.div_unique _ _ _ (2 ^ (2 * f) - 1)); lia. }
  rewrite E. fold (log_word f). rewrite <- log_word_unused.
  cbn [replicate app cfrom]. unfold cword.
  repeat match goal with |- context [log_word (Z.max 0 (Z.min 16 ?x))] =>
    first [ replace (Z.max 0 (Z.min 16 x)) with 0 by lia
          | replace (Z.max 0 (Z.min 16 x)) with f by lia ] end.
  done.
Qed.

End Words.

(** ** Legacy PIN format *)

Definition is_digit (c : Z) : Prop := 48 <= c <= 57.

(** The decimal value of the digits after a leading [acc]. *)
Definition dec_val (acc : Z) (pin : list Z) : Z := fold_left (fun v c => 10 * v + (c - 48)) pin acc.

Lemma dec_val_bounds pin : forall acc, Forall is_digit pin -> 0 <= acc ->
  10 ^ zlen pin * acc <= dec_val acc pin < 10 ^ zlen pin * (acc + 1).
Proof.
  induction pin as [|c pin IH]; intros acc Hp Ha; [cbn; change (10 ^ zlen []) with 1; lia|].
  inversion Hp as [|? ? Hc Hp']; subst. unfold is_digit in Hc.
  cbn [dec_val fold_left]. fold (dec_val (10 * acc + (c - 48)) pin).
  specialize (IH (10 * acc + (c - 48)) Hp' ltac:(lia)).
  pose proof (zlen_nonneg pin). pose proof (Z.pow_pos_nonneg 10 (zlen pin)).
  rewrite zlen_cons, Z.pow_add_r, Z.pow_1_r by lia. nia.
Qed.

Lemma pin_to_int_loop_val pin : forall val, Forall is_digit pin -> 0 <= val ->
  10 ^ zlen pin * (val + 1) <= 4294967296 -> pin_to_int_loop pin val = dec_val val pin.
Proof.
  induction pin as [|c pin IH]; intros val Hp Hv Hb; [done|].
  inversion Hp as [|? ? Hc Hp']; subst. unfold is_digit in Hc.
  pose proof (zlen_nonneg pin). pose proof (Z.pow_pos_nonneg 10 (zlen pin)).
  rewrite zlen_cons, Z.pow_add_r, Z.pow_1_r in Hb by lia.
  assert (E : 10 ^ zlen pin * (10 * val + (c - 48) + 1) <= 4294967296) by nia.
  cbn [pin_to_int_loop dec_val fold_left]. zif.
  replace (10 * val + c - 48) with (10 * val + (c - 48)) by lia.
  rewrite u32_small by nia. by apply IH; [|lia|].
Qed.

Lemma pin_to_int_val pin : Forall is_digit pin -> zlen pin <= 9 ->
  pin_to_int pin = dec_val 1 pin.
Proof.
  intros Hp Hl. unfold pin_to_int, V0_MAX_PIN_LEN. zif.
  apply pin_to_int_loop_val; [done|lia|].
  pose proof (Z.pow_le_mono_r 10 (zlen pin) 9). lia.
Qed.

Lemma dec_val_snoc acc pin c : dec_val acc (pin ++ [c]) = 10 * dec_val acc pin + (c - 48).
Proof. unfold dec_val. by rewrite fold_left_app. Qed.

Lemma wipe_code_loop_digits pin : forall n acc, Forall is_digit pin -> (length pin <= n)%nat ->
  int_to_wipe_code_loop n (dec_val 1 pin) acc = Some (pin ++ acc).
Proof.
  induction pin as [|c pin IH] using rev_ind; intros n acc Hp Hn.
  - by destruct n.
  - apply Forall_app in Hp as [Hp Hc]. inversion Hc as [|? ? Hd]; subst. unfold is_digit in Hd.
    pose proof (dec_val_bounds pin 1 Hp ltac:(lia)) as Hb.
    pose proof (Z.pow_pos_nonneg 10 (zlen pin) ltac:(lia) (zlen_nonneg pin)).
    rewrite length_app in Hn. cbn [length] in Hn. destruct n as [|n]; [lia|].
    cbn [int_to_wipe_code_loop]. rewrite dec_val_snoc. zif.
    replace ((10 * dec_val 1 pin + (c - 48)) / 10) with (dec_val 1 pin) by zlia.
    replace (48 + (10 * dec_val 1 pin + (c - 48)) mod 10) with c by zlia.
    rewrite IH by (done || lia). by rewrite <- app_assoc.
Qed.

Lemma pin_int_roundtrip pin : Forall is_digit pin -> 1 <= zlen pin <= 9 ->
  int_to_wipe_code (pin_to_int pin) = Some pin.
Proof.
  intros Hp Hl. rewrite pin_to_int_val by (done || lia). unfold int_to_wipe_code.
  pose proof (dec_val_bounds pin 1 Hp ltac:(lia)).
  pose proof (Z.pow_le_mono_r 10 1 (zlen pin)).
  unfold V2_WIPE_CODE_EMPTY, V0_PIN_EMPTY. zif.
  rewrite wipe_code_loop_digits; [by rewrite app_nil_r|done|unfold zlen in Hl; lia].
Qed.

(** the integer form of a PIN or wipe code of one to nine decimal digits is
    never zero, fits 32 bits, and is converted back to the same digits by
    [int_to_wipe_code]; distinct PINs have distinct integers. *)
Theorem pin_to_int_roundtrip pin : Forall is_digit pin -> 1 <= zlen pin <= 9 ->
  0 < pin_to_int pin < 2000000000 /\ int_to_wipe_code (pin_to_int pin) = Some pin /\
  forall pin', Forall is_digit pin' -> 1 <= zlen pin' <= 9 ->
    pin_to_int pin' = pin_to_int pin -> pin' = pin.
Proof.
  intros Hp Hl. split; [|split; [by apply pin_int_roundtrip|]].
  - rewrite pin_to_int_val by (done || lia).
    pose proof (dec_val_bounds pin 1 Hp ltac:(lia)).
    pose proof (Z.pow_le_mono_r 10 (zlen pin) 9). pose proof (Z.pow_pos_nonneg 10 (zlen pin)). lia.
  - intros pin' Hp' Hl' E. pose proof (pin_int_roundtrip pin' Hp' Hl') as H.
    rewrite E, pin_int_roundtrip in H by done. by injection H.
Qed.

Lemma pin_to_int_roundtrip_witness :
  pin_to_int [48; 57; 49] = 1091 /\ int_to_wipe_code (pin_to_int [48; 57; 49]) = Some [48; 57; 49].
Proof.
  split; [reflexivity|]. apply (pin_to_int_roundtrip [48; 57; 49]).
  - repeat constructor; unfold is_digit; lia.
  - rewrite !zlen_cons, zlen_nil. lia.
Defined.

End PinLogSpec.
