(* ===== verification/Storage.v ===== *)
(** * The encrypted storage: [storage/storage.c]

    Values are kept in norcow under 16-bit keys whose high byte is the APP: APP 0
    is reserved, an APP with the top bit is public, every other entry is encrypted
    with ChaCha20-Poly1305 under the data encryption key and covered by the
    storage authentication tag.  The data encryption key and the storage
    authentication key are encrypted under a key derived from the PIN.

    The model is the emulator build, the one that links [storage.c]: [wait_random]
    does nothing ([core/embed/unix/random_delays.c]), [storage_wipe] wipes
    ([TREZOR_EMULATOR]), [restart], [error_reset] and [__fatal_error] do not
    return, and [size_t] and [unsigned long] have 64 bits.  The user-interface
    callback only displays and is not part of the state. *)

From stdpp Require Import base list numbers.
From Stdlib Require Import ZArith Lia.
From S2P Require Import Prelude Flash Norcow Hash Sha2 Hmac ChaCha PinLog.
Local Open Scope fw_scope.

Module Storage.
Import Flash.
Import Hash Sha2 Hmac ChaCha PinLog.
Abbreviation norcow_state := Norcow.norcow_state.

(** ** Constants *)

Definition APP_STORAGE : Z := 0x00.
Definition PIN_LOGS_KEY : Z := Z.shiftl APP_STORAGE 8 .| 0x01.
Definition EDEK_PVC_KEY : Z := Z.shiftl APP_STORAGE 8 .| 0x02.
Definition PIN_NOT_SET_KEY : Z := Z.shiftl APP_STORAGE 8 .| 0x03.
Definition VERSION_KEY : Z := Z.shiftl APP_STORAGE 8 .| 0x04.
Definition STORAGE_TAG_KEY : Z := Z.shiftl APP_STORAGE 8 .| 0x05.
Definition WIPE_CODE_DATA_KEY : Z := Z.shiftl APP_STORAGE 8 .| 0x06.
Definition STORAGE_UPGRADED_KEY : Z := Z.shiftl APP_STORAGE 8 .| 0x07.
Definition UNAUTH_VERSION_KEY : Z := Z.shiftl APP_STORAGE 8 .| 0x08.
Definition V0_PIN_KEY : Z := 0x0000.
Definition V0_PIN_FAIL_KEY : Z := 0x0001.

Definition FLAG_PUBLIC : Z := 0x80.
Definition FLAGS_WRITE : Z := 0xC0.
Definition EXTERNAL_SALT_SIZE : Z := 32.
Definition PIN_EMPTY : list Z := [].
Definition MAX_WIPE_CODE_LEN : Z := 50.
Definition PIN_ITER_COUNT : Z := 20000.
Definition DERIVE_SECS : Z := 1.
Definition RANDOM_SALT_SIZE : Z := 4.
Definition DEK_SIZE : Z := 32.
Definition SAK_SIZE : Z := 16.
Definition KEYS_SIZE : Z := DEK_SIZE + SAK_SIZE.
Definition PVC_SIZE : Z := 8.
Definition STORAGE_TAG_SIZE : Z := 16.
Definition POLY1305_TAG_SIZE : Z := 16.
Definition CHACHA20_IV_SIZE : Z := 12.
Definition CHACHA20_BLOCK_SIZE : Z := 64.
Definition WIPE_CODE_SALT_SIZE : Z := 8.
Definition WIPE_CODE_TAG_SIZE : Z := 8.
Definition WIPE_CODE_EMPTY : list Z := [0; 0; 0; 0].
Definition COUNTER_TAIL_WORDS : nat := 2.
Definition UINT16_MAX : Z := 65535.
Definition TRUE_BYTE : Z := 0x01.
Definition FALSE_BYTE : Z := 0x00.
Definition TRUE_WORD : Z := 0xC35A69A5.
Definition FALSE_WORD : Z := 0x3CA5965A.
Definition PIN_LOGS_SIZE : Z := 4 * (GUARD_KEY_WORDS + 2 * PIN_LOG_WORDS).

Inductive ui_msg := VERIFYING_PIN_MSG | PROCESSING_MSG | STARTING_MSG.

(** ** State: the static variables, the norcow state and the random source *)

Record storage_state := StorageState {
  st_nc : norcow_state;
  initialized : bool;
  unlocked : bool;
  ui_total : Z;
  ui_rem : Z;
  ui_message : option ui_msg;
  cached_keys : list Z;
  authentication_sum : list Z;
  hardware_salt : list Z;
  norcow_active_version : Z;
  in_progress : bool;             (* the static variable of [__handle_fault] *)
  rng_pos : nat;                  (* words drawn from the generator so far *)
}.

(** The fault messages of [handle_fault]. *)
Inductive fault_msg :=
| LoopCompletion | StorageTagCheck | SanityCheck | NoWipeCode | WipeCodeTag | WipeCodeFault
| GuardKeyCheck | NoPinLogs | GuardKeyExpansion | GuardBitsCheck | PinLogsUpdate
| PinLogExhausted | PinLogsFormat | PinEntryLogFormat | NoLockVersion | VersionCheck
| NoEdek | PinCounterIncrement | CiphertextLength | AuthTagCheck | InvalidWipeCode.

(** Why a call does not return. *)
Inductive fault :=
| NorcowFault (f : Norcow.fault)   (* a failed [ensure] inside norcow *)
| EnsureFailed                     (* a failed [ensure] of this file *)
| FatalError (msg : fault_msg)     (* [__handle_fault] *)
| WipeCodeEntered                  (* [error_reset] *)
| Restart                          (* [restart] after too many attempts *)
| DivByZero                        (* the progress computation with no total *)
| NestedFault                      (* a fault while wiping for a nested fault *)
| RngFuel | LoopFuel.              (* a model loop without fuel *)

Abbreviation ST := (M fault storage_state).

Definition set_nc (x : norcow_state) : ST unit := modS (fun s =>
  StorageState x (initialized s) (unlocked s) (ui_total s) (ui_rem s) (ui_message s)
    (cached_keys s) (authentication_sum s) (hardware_salt s) (norcow_active_version s)
    (in_progress s) (rng_pos s)).
Definition set_initialized (b : bool) : ST unit := modS (fun s =>
  StorageState (st_nc s) b (unlocked s) (ui_total s) (ui_rem s) (ui_message s)
    (cached_keys s) (authentication_sum s) (hardware_salt s) (norcow_active_version s)
    (in_progress s) (rng_pos s)).
Definition set_unlocked (b : bool) : ST unit := modS (fun s =>
  StorageState (st_nc s) (initialized s) b (ui_total s) (ui_rem s) (ui_message s)
    (cached_keys s) (authentication_sum s) (hardware_salt s) (norcow_active_version s)
    (in_progress s) (rng_pos s)).
Definition set_ui_time (total rem : Z) : ST unit := modS (fun s =>
  StorageState (st_nc s) (initialized s) (unlocked s) total rem (ui_message s)
    (cached_keys s) (authentication_sum s) (hardware_salt s) (norcow_active_version s)
    (in_progress s) (rng_pos s)).
Definition set_ui_message (m : ui_msg) : ST unit := modS (fun s =>
  StorageState (st_nc s) (initialized s) (unlocked s) (ui_total s) (ui_rem s) (Some m)
    (cached_keys s) (authentication_sum s) (hardware_salt s) (norcow_active_version s)
    (in_progress s) (rng_pos s)).
Definition set_cached_keys (ks : list Z) : ST unit := modS (fun s =>
  StorageState (st_nc s) (initialized s) (unlocked s) (ui_total s) (ui_rem s) (ui_message s)
    ks (authentication_sum s) (hardware_salt s) (norcow_active_version s)
    (in_progress s) (rng_pos s)).
Definition set_authentication_sum (x : list Z) : ST unit := modS (fun s =>
  StorageState (st_nc s) (initialized s) (unlocked s) (ui_total s) (ui_rem s) (ui_message s)
    (cached_keys s) x (hardware_salt s) (norcow_active_version s)
    (in_progress s) (rng_pos s)).
Definition set_hardware_salt (x : list Z) : ST unit := modS (fun s =>
  StorageState (st_nc s) (initialized s) (unlocked s) (ui_total s) (ui_rem s) (ui_message s)
    (cached_keys s) (authentication_sum s) x (norcow_active_version s)
    (in_progress s) (rng_pos s)).
Definition set_active_version (v : Z) : ST unit := modS (fun s =>
  StorageState (st_nc s) (initialized s) (unlocked s) (ui_total s) (ui_rem s) (ui_message s)
    (cached_keys s) (authentication_sum s) (hardware_salt s) v
    (in_progress s) (rng_pos s)).
Definition set_in_progress (b : bool) : ST unit := modS (fun s =>
  StorageState (st_nc s) (initialized s) (unlocked s) (ui_total s) (ui_rem s) (ui_message s)
    (cached_keys s) (authentication_sum s) (hardware_salt s) (norcow_active_version s)
    b (rng_pos s)).
Definition set_rng_pos (n : nat) : ST unit := modS (fun s =>
  StorageState (st_nc s) (initialized s) (unlocked s) (ui_total s) (ui_rem s) (ui_message s)
    (cached_keys s) (authentication_sum s) (hardware_salt s) (norcow_active_version s)
    (in_progress s) n).

(** A norcow call. *)
Definition lift {A} (m : M Norcow.fault norcow_state A) : ST A := fun s =>
  match m (st_nc s) with
  | Ok a nc => (set_nc nc ;; mret a) s
  | Halt f nc => (set_nc nc ;; halt (NorcowFault f)) s
  end.

(** The bytes a callee reads from a buffer with a length. *)
Definition bytes_at (buf : list Z) (len : Z) : option (list Z) := Some (take (Z.to_nat len) buf).

Definition ensure (b : bool) : ST unit := if b then mret () else halt EnsureFailed.

(** [norcow_get] followed by the read of the bytes behind the pointer. *)
Definition get_bytes (key : Z) : ST (option (list Z)) :=
  s ← getS;
  r ← lift (Norcow.norcow_get key);
  match r with
  | None => mret None
  | Some (p, len) =>
      bs ← lift (Norcow.ptr_read (Norcow.norcow_active_sector (st_nc s)) p len);
      mret (Some bs)
  end.

Definition cached_dek (s : storage_state) : list Z := take (Z.to_nat DEK_SIZE) (cached_keys s).
Definition cached_sak (s : storage_state) : list Z := drop (Z.to_nat DEK_SIZE) (cached_keys s).

(** ** Comparisons in constant time *)

(** [diff |= *p1 ^ *p2] over [n] bytes. *)
Fixpoint secequal_loop (n : nat) (p1 p2 : list Z) (diff : Z) : Z :=
  match n with
  | O => diff
  | S n => secequal_loop n (drop 1 p1) (drop 1 p2) (diff .| (znth 0 p1 0 .^ znth 0 p2 0))
  end.

(** The loop always completes, so its completion check never faults. *)
Definition secequal (p1 p2 : list Z) (n : Z) : bool :=
  if secequal_loop (Z.to_nat n) p1 p2 0 =? 0 then true else false.

Definition is_protected (key : Z) : bool :=
  let app := u8 (Z.shiftr key 8) in
  (app .& FLAG_PUBLIC =? 0) && negb (app =? APP_STORAGE).

Section Storage.
(** The words of the random generator ([rng_get], which reads /dev/urandom), and
    a bound on the draws of a rejection loop. *)
Context (random : nat -> Z) (rng_fuel : nat).

Definition random32 : ST Z :=
  s ← getS; set_rng_pos (S (rng_pos s)) ;; mret (random (rng_pos s)).

(** [random_buffer]: a draw for every four bytes. *)
Fixpoint random_buffer_loop (n : nat) (i r : Z) : ST (list Z) :=
  match n with
  | O => mret []
  | S n =>
      r ← (if i mod 4 =? 0 then random32 else mret r);
      rest ← random_buffer_loop n (i + 1) r;
      mret ((Z.shiftr r ((i mod 4) * 8) .& 0xFF) :: rest)
  end.

Definition random_buffer (len : Z) : ST (list Z) := random_buffer_loop (Z.to_nat len) 0 0.

Fixpoint random_uniform_loop (fuel : nat) (max : Z) : ST Z :=
  match fuel with
  | O => halt RngFuel
  | S fuel => x ← random32; if max <=? x then random_uniform_loop fuel max else mret x
  end.

Definition random_uniform (n : Z) : ST Z :=
  let max := 0xFFFFFFFF - 0xFFFFFFFF mod n in
  x ← random_uniform_loop rng_fuel max;
  mret (x / (max / n)).

Fixpoint secequal32_loop (n : nat) (p1 p2 : list Z) (diff : Z) : ST Z :=
  match n with
  | O => mret diff
  | S n =>
      mask ← random32;
      secequal32_loop n (drop 4 p1) (drop 4 p2)
        (diff .| (u32 (le_val (take 4 p1) + mask - le_val (take 4 p2)) .^ mask))
  end.

Definition secequal32 (p1 p2 : list Z) (n : Z) : ST bool :=
  diff ← secequal32_loop (Z.to_nat (n / 4)) p1 p2 0;
  mret (if diff =? 0 then true else false).

(** ** The storage authentication tag *)

Definition auth_init : ST bool :=
  set_authentication_sum (zrep 32 0) ;;
  s ← getS;
  let tag := hmac_sha256 (cached_sak s) (authentication_sum s) in
  lift (Norcow.norcow_set STORAGE_TAG_KEY (bytes_at tag STORAGE_TAG_SIZE) STORAGE_TAG_SIZE).

Definition auth_update (key : Z) : ST bool :=
  if negb (is_protected key) then mret true
  else
    s ← getS;
    let tag := hmac_sha256 (cached_sak s) (le_bytes 2 key) in
    set_authentication_sum (zip_with Z.lxor (authentication_sum s) tag) ;;
    s ← getS;
    let tag := hmac_sha256 (cached_sak s) (authentication_sum s) in
    lift (Norcow.norcow_set STORAGE_TAG_KEY (bytes_at tag STORAGE_TAG_SIZE) STORAGE_TAG_SIZE).

Definition auth_set (key : Z) (val : option (list Z)) (len : Z) : ST bool :=
  r ← lift (Norcow.norcow_set_ex key val len);
  let '(ret, found) := r in
  if ret && negb found then
    ret ← auth_update key;
    (if negb ret then lift (Norcow.norcow_delete key) ;; mret () else mret ()) ;;
    mret ret
  else mret ret.

(** ** Wipe code and PIN *)

Definition set_wipe_code (wipe_code : list Z) : ST bool :=
  if (MAX_WIPE_CODE_LEN <? zlen wipe_code)
     || (UINT16_MAX - WIPE_CODE_SALT_SIZE - WIPE_CODE_TAG_SIZE <? zlen wipe_code)
  then mret false
  else
    let wipe_code := if zlen wipe_code =? 0 then WIPE_CODE_EMPTY else wipe_code in
    salt ← random_buffer WIPE_CODE_SALT_SIZE;
    let tag := hmac_sha256 salt wipe_code in
    r ← lift (Norcow.norcow_set WIPE_CODE_DATA_KEY None
                (zlen wipe_code + WIPE_CODE_SALT_SIZE + WIPE_CODE_TAG_SIZE));
    if negb r then mret false
    else
      r ← lift (Norcow.norcow_update_bytes WIPE_CODE_DATA_KEY 0 wipe_code (zlen wipe_code));
      if negb r then mret false
      else
        lift (Norcow.norcow_update_bytes WIPE_CODE_DATA_KEY (zlen wipe_code)
                (take (Z.to_nat (WIPE_CODE_SALT_SIZE + WIPE_CODE_TAG_SIZE)) (salt ++ tag))
                (WIPE_CODE_SALT_SIZE + WIPE_CODE_TAG_SIZE)).

(** The key encryption key and its initialization vector. *)
Definition derive_kek (pin random_salt : list Z) (ext_salt : option (list Z))
    : ST (list Z * list Z) :=
  s ← getS;
  let salt := hardware_salt s ++ take (Z.to_nat RANDOM_SALT_SIZE) random_salt
                ++ match ext_salt with
                   | Some e => take (Z.to_nat EXTERNAL_SALT_SIZE) e
                   | None => []
                   end in
  if ui_total s =? 0 then halt DivByZero
  else
    let ctx := pbkdf2_hmac_sha256_Init pin salt 1 in
    let ctx := Nat.iter 5 (fun c => pbkdf2_hmac_sha256_Update c (PIN_ITER_COUNT / 10)) ctx in
    let kek := pbkdf2_hmac_sha256_Final ctx in
    let ctx := pbkdf2_hmac_sha256_Init pin salt 2 in
    let ctx := Nat.iter 5 (fun c => pbkdf2_hmac_sha256_Update c (PIN_ITER_COUNT / 10)) ctx in
    let keiv := pbkdf2_hmac_sha256_Final ctx in
    set_ui_time (ui_total s) (u32 (ui_rem s - DERIVE_SECS)) ;;
    mret (kek, keiv).

Definition set_pin (pin : list Z) (ext_salt : option (list Z)) : ST bool :=
  rand_salt ← random_buffer RANDOM_SALT_SIZE;
  k ← derive_kek pin rand_salt ext_salt;
  let '(kek, keiv) := k in
  let ctx := rfc7539_init kek keiv in
  s ← getS;
  let '(ctx, ekeys) := chacha20poly1305_encrypt 64 ctx (cached_keys s) in
  let pvc := rfc7539_finish 64 ctx 0 KEYS_SIZE in
  ret ← lift (Norcow.norcow_set EDEK_PVC_KEY
                (bytes_at (rand_salt ++ ekeys ++ pvc) (RANDOM_SALT_SIZE + KEYS_SIZE + PVC_SIZE))
                (RANDOM_SALT_SIZE + KEYS_SIZE + PVC_SIZE));
  if (ret : bool) then
    lift (Norcow.norcow_set PIN_NOT_SET_KEY
            (Some [if zlen pin =? 0 then TRUE_BYTE else FALSE_BYTE]) 1)
  else mret ret.

(** ** Encrypted values *)

(** All blocks but the last, then the last one and the tag. *)
Fixpoint set_blocks (fuel : nat) (key : Z) (ctx : chacha20poly1305_ctx) (val : list Z)
    (offset : Z) : ST (bool * chacha20poly1305_ctx) :=
  if CHACHA20_BLOCK_SIZE <? zlen val then
    match fuel with
    | O => halt LoopFuel
    | S fuel =>
        let '(ctx, buffer) := chacha20poly1305_encrypt 64 ctx (take 64 val) in
        r ← lift (Norcow.norcow_update_bytes key offset buffer CHACHA20_BLOCK_SIZE);
        if negb r then mret (false, ctx)
        else set_blocks fuel key ctx (drop 64 val) (u16 (offset + CHACHA20_BLOCK_SIZE))
    end
  else
    let '(ctx, buffer) := chacha20poly1305_encrypt 64 ctx val in
    ret ← lift (Norcow.norcow_update_bytes key offset buffer (zlen val));
    mret (ret, ctx).

Definition storage_set_encrypted (key : Z) (val : list Z) : ST bool :=
  let len := zlen val in
  if UINT16_MAX - CHACHA20_IV_SIZE - POLY1305_TAG_SIZE <? len then mret false
  else
    r ← auth_set key None (CHACHA20_IV_SIZE + POLY1305_TAG_SIZE + len);
    if negb r then mret false
    else
      iv ← random_buffer CHACHA20_IV_SIZE;
      r ← lift (Norcow.norcow_update_bytes key 0 iv CHACHA20_IV_SIZE);
      if negb r then mret false
      else
        s ← getS;
        let ctx := rfc7539_init (cached_dek s) iv in
        let ctx := rfc7539_auth 64 ctx (le_bytes 2 key) in
        r ← set_blocks (length val) key ctx val (CHACHA20_IV_SIZE + POLY1305_TAG_SIZE);
        let '(ret, ctx) := r in
        if (ret : bool) then
          lift (Norcow.norcow_update_bytes key CHACHA20_IV_SIZE
                  (rfc7539_finish 64 ctx 2 len) POLY1305_TAG_SIZE)
        else mret ret.

(** The tag and version entries that [init_wiped_storage] writes first. *)
Definition init_versions : ST unit :=
  r ← auth_init; ensure r ;;
  r ← storage_set_encrypted VERSION_KEY (le_bytes 4 Norcow.NORCOW_VERSION); ensure r ;;
  r ← lift (Norcow.norcow_set UNAUTH_VERSION_KEY
              (Some (le_bytes 4 Norcow.NORCOW_VERSION)) 4); ensure r ;;
  r ← lift (Norcow.norcow_set STORAGE_UPGRADED_KEY (Some (le_bytes 4 FALSE_WORD)) 4);
  ensure r.

Fixpoint generate_guard_key_loop (fuel : nat) : ST Z :=
  match fuel with
  | O => halt RngFuel
  | S fuel =>
      x ← random_uniform (0xFFFFFFFF / GUARD_KEY_MODULUS + 1);
      let guard_key := u32 (x * GUARD_KEY_MODULUS + GUARD_KEY_REMAINDER) in
      if check_guard_key guard_key then mret guard_key else generate_guard_key_loop fuel
  end.

Definition generate_guard_key : ST Z := generate_guard_key_loop rng_fuel.

Definition storage_lock : ST unit :=
  set_unlocked false ;; set_cached_keys (zrep KEYS_SIZE 0) ;;
  set_authentication_sum (zrep 32 0).

(** ** The operations that may fault

    [handle_fault] reads and increments the PIN counter, operations that may fault
    themselves; their fault action is an argument here, and the knot is tied
    below: faults inside [handle_fault] find [in_progress] set. *)

Section Faulting.
Context (on_fault : forall A, fault_msg -> ST A).
Local Abbreviation handle_fault := (on_fault _).

(** Guard mask and guard. *)
Definition expand_guard (guard_key : Z) : ST (Z * Z) :=
  match expand_guard_key guard_key with
  | Some r => mret r
  | None => handle_fault GuardKeyCheck
  end.

Definition pin_logs_init (fails : Z) : ST bool :=
  if PIN_MAX_TRIES <=? fails then mret false
  else
    guard_key ← generate_guard_key;
    g ← expand_guard guard_key;
    let '(guard_mask, guard) := g in
    lift (Norcow.norcow_set PIN_LOGS_KEY
            (Some (bytes_of 4 (pin_logs_words guard_key guard_mask guard fails)))
            PIN_LOGS_SIZE).

Definition init_wiped_storage : ST unit :=
  s ← getS;
  if negb (initialized s) then mret ()
  else
    ks ← random_buffer KEYS_SIZE;
    set_cached_keys ks ;;
    set_unlocked true ;;
    init_versions ;;
    r ← pin_logs_init 0; ensure r ;;
    r ← set_wipe_code WIPE_CODE_EMPTY; ensure r ;;
    set_ui_time DERIVE_SECS DERIVE_SECS ;;
    set_ui_message PROCESSING_MSG ;;
    r ← set_pin PIN_EMPTY None; ensure r.

Definition _storage_wipe : ST unit :=
  lift Norcow.norcow_wipe ;;
  set_active_version Norcow.NORCOW_VERSION ;;
  set_authentication_sum (zrep 32 0) ;;
  set_cached_keys (zrep KEYS_SIZE 0) ;;
  init_wiped_storage.

Definition storage_wipe : ST unit := _storage_wipe.

(** The words of the PIN logs entry; a missing entry or a wrong length is [None]. *)
Definition get_pin_logs : ST (option (list Z)) :=
  r ← get_bytes PIN_LOGS_KEY;
  mret match r with
       | None => None
       | Some bs => if zlen bs =? PIN_LOGS_SIZE then Some (words_of 4 33 bs) else None
       end.

Definition success_log (logs : list Z) : list Z := slice logs GUARD_KEY_WORDS PIN_LOG_WORDS.
Definition entry_log (logs : list Z) : list Z :=
  slice logs (GUARD_KEY_WORDS + PIN_LOG_WORDS) PIN_LOG_WORDS.

(** The updates of the success log, stopping at the first that fails. *)
Fixpoint reset_updates (ups : list (Z * Z)) : ST bool :=
  match ups with
  | [] => mret true
  | (i, w) :: ups =>
      r ← lift (Norcow.norcow_update_word PIN_LOGS_KEY (4 * (i + GUARD_KEY_WORDS)) w);
      if negb r then mret false else reset_updates ups
  end.

(** The loop of the code reads the entry log and, at each index, the success word
    it is about to replace, so it reads the same words before the updates. *)
Definition pin_fails_reset : ST bool :=
  l ← get_pin_logs;
  match l with
  | None => mret false
  | Some logs =>
      g ← expand_guard (znth 0 logs 0);
      let '(guard_mask, guard) := g in
      let unused := guard .| not32 guard_mask in
      let '(ups, again) := reset_loop guard unused (success_log logs) (entry_log logs) 0 in
      r ← reset_updates ups;
      if negb r then mret false
      else if (again : bool) then pin_logs_init 0 else mret true
  end.

Definition storage_pin_fails_increase : ST bool :=
  s ← getS;
  if negb (initialized s) then mret false
  else
    l ← get_pin_logs;
    match l with
    | None => handle_fault NoPinLogs
    | Some logs =>
        g ← expand_guard (znth 0 logs 0);
        let '(guard_mask, guard) := g in
        match increase_loop guard_mask guard (entry_log logs) 0 with
        | IncBadGuard => handle_fault GuardBitsCheck
        | IncExhausted => handle_fault PinLogExhausted
        | IncUpdate i word =>
            r ← lift (Norcow.norcow_update_word PIN_LOGS_KEY
                        (4 * (i + GUARD_KEY_WORDS + PIN_LOG_WORDS)) word);
            if negb r then handle_fault PinLogsUpdate else mret true
        end
    end.

(** The status is always true: every failure faults ([PinLogsFormat] stands for
    its three messages on the words of the logs). *)
Definition pin_get_fails : ST Z :=
  l ← get_pin_logs;
  match l with
  | None => handle_fault NoPinLogs
  | Some logs =>
      g ← expand_guard (znth 0 logs 0);
      let '(guard_mask, guard) := g in
      match get_fails guard_mask guard (success_log logs) (entry_log logs) with
      | None => handle_fault PinLogsFormat
      | Some ctr => mret ctr
      end
  end.

End Faulting.

(** A fault during fault handling: wipe and halt.  A further fault while wiping
    is [NestedFault]. *)
Definition fault_nested {A} (msg : fault_msg) : ST A :=
  storage_wipe (fun _ _ => halt NestedFault) ;; halt (FatalError msg).

(** [__handle_fault]: the PIN failure counter is the fault counter. *)
Definition handle_fault {A} (msg : fault_msg) : ST A :=
  s ← getS;
  if in_progress s then fault_nested msg
  else
    set_in_progress true ;;
    ctr ← pin_get_fails (@fault_nested);
    r ← storage_pin_fails_increase (@fault_nested);
    if negb r then storage_wipe (@fault_nested) ;; halt (FatalError msg)
    else
      ctr_new ← pin_get_fails (@fault_nested);
      (if negb (u32 (ctr + 1) =? ctr_new) then storage_wipe (@fault_nested) else mret ()) ;;
      halt (FatalError msg).

(** ** Reading the authenticated store *)

(** The loop variables of [auth_get]: [*val] and [*len], the tag entry (pointers
    into the active sector), the two counters and the sum of the tags. *)
Record auth_scan := AuthScan {
  as_val : option (Z * Z);
  as_tag : option (Z * Z);
  entry_count : Z;
  other_count : Z;
  as_sum : list Z;
  as_h : list Z;
}.

(** The padding words of the two HMAC blocks. *)
Definition auth_g : list Z := zupd (replicate 16 0) 15 ((64 + 2) * 8).
Definition auth_h : list Z := zupd (zupd (replicate 16 0) 15 ((64 + 32) * 8)) 8 0x80000000.

Fixpoint auth_loop (fuel : nat) (key : Z) (odig idig : list Z) (offset : Z) (a : auth_scan)
    : ST (auth_scan * Z) :=
  match fuel with
  | O => halt LoopFuel
  | S fuel =>
      r ← lift (Norcow.norcow_get_next offset);
      let '(e, offset) := r in
      match e with
      | None => mret (a, offset)
      | Some (k, v, l) =>
          let val := if k =? key then Some (v, l) else as_val a in
          let other := if k =? key then other_count a else u16 (other_count a + 1) in
          let entry := u16 (entry_count a + 1) in
          if negb (is_protected k) then
            let tag := if k =? STORAGE_TAG_KEY then Some (v, l) else as_tag a in
            auth_loop fuel key odig idig offset
              (AuthScan val tag entry other (as_sum a) (as_h a))
          else
            let g := zupd auth_g 0
                       (u32 (Z.shiftl (k .& 0xff) 24) .| u32 (Z.shiftl (k .& 0xff00) 8) .| 0x8000) in
            let h := set_words (as_h a) (sha256_Transform idig g) in
            let h := set_words h (sha256_Transform odig h) in
            auth_loop fuel key odig idig offset
              (AuthScan val (as_tag a) entry other
                 (zip_with Z.lxor (as_sum a) (take 8 h)) h)
      end
  end.

(** [*val] and [*len] when the key is found. *)
Definition auth_get (key : Z) : ST (option (Z * Z)) :=
  s ← getS;
  let '(odig, idig) := hmac_sha256_prepare (cached_sak s) in
  r ← auth_loop Norcow.item_fuel key odig idig 0
        (AuthScan None None 0 0 (replicate 8 0) auth_h);
  let '(a, offset) := r in
  let h := set_words (as_h a) (as_sum a) in
  let h := set_words h (sha256_Transform idig h) in
  let h := set_words h (sha256_Transform odig h) in
  set_authentication_sum (bytes_of 4 (map REVERSE32 (as_sum a))) ;;
  n ← lift (Norcow.norcow_get_next offset);
  if bool_decide (is_Some n.1) then handle_fault LoopCompletion
  else
    let h := bytes_of 4 (map REVERSE32 (take 8 h)) in
    ok ← match as_tag a with
         | None => mret false
         | Some (p, len) =>
             if negb (len =? STORAGE_TAG_SIZE) then mret false
             else
               s ← getS;
               tag_val ← lift (Norcow.ptr_read (Norcow.norcow_active_sector (st_nc s)) p len);
               mret (secequal h tag_val STORAGE_TAG_SIZE)
         end;
    if negb ok then handle_fault StorageTagCheck
    else
      match as_val a with
      | None => if negb (other_count a =? entry_count a) then handle_fault SanityCheck
                else mret None
      | Some r => mret (Some r)
      end.

(** The result of reading a value: the status, the length written to [*len] and
    the bytes written to [val_dest], if any. *)
Record get_result := GetResult { g_ret : bool; g_len : option Z; g_val : option (list Z) }.

(** [dest] is [max_len] when [val_dest] is not NULL. *)
Definition storage_get_encrypted (key : Z) (dest : option Z) : ST get_result :=
  r ← auth_get key;
  match r with
  | None => mret (GetResult false (Some 0) None)
  | Some (p, len) =>
      if len <? CHACHA20_IV_SIZE + POLY1305_TAG_SIZE then handle_fault CiphertextLength
      else
        let len := len - (CHACHA20_IV_SIZE + POLY1305_TAG_SIZE) in
        match dest with
        | None => mret (GetResult true (Some len) None)
        | Some max_len =>
            if max_len <? len then mret (GetResult false (Some len) None)
            else
              s ← getS;
              let sector := Norcow.norcow_active_sector (st_nc s) in
              iv ← lift (Norcow.ptr_read sector p CHACHA20_IV_SIZE);
              tag_stored ← lift (Norcow.ptr_read sector (p + CHACHA20_IV_SIZE) POLY1305_TAG_SIZE);
              ciphertext ← lift (Norcow.ptr_read sector
                                   (p + CHACHA20_IV_SIZE + POLY1305_TAG_SIZE) len);
              let ctx := rfc7539_init (cached_dek s) iv in
              let ctx := rfc7539_auth 64 ctx (le_bytes 2 key) in
              let '(ctx, val) := chacha20poly1305_decrypt 64 ctx ciphertext in
              let tag_computed := rfc7539_finish 64 ctx 2 len in
              if negb (secequal tag_computed tag_stored POLY1305_TAG_SIZE)
              then handle_fault AuthTagCheck
              else mret (GetResult true (Some len) (Some val))
        end
  end.

(** ** Wipe code and version checks *)

Definition is_not_wipe_code (pin : list Z) : ST bool :=
  r ← get_bytes WIPE_CODE_DATA_KEY;
  match r with
  | None => handle_fault NoWipeCode
  | Some data =>
      let len := zlen data in
      if len <=? WIPE_CODE_SALT_SIZE + WIPE_CODE_TAG_SIZE then handle_fault NoWipeCode
      else
        let wipe_code_len := len - WIPE_CODE_SALT_SIZE - WIPE_CODE_TAG_SIZE in
        let wipe_code := slice data 0 wipe_code_len in
        let salt := slice data wipe_code_len WIPE_CODE_SALT_SIZE in
        let stored_tag := slice data (wipe_code_len + WIPE_CODE_SALT_SIZE) WIPE_CODE_TAG_SIZE in
        let computed_tag1 := hmac_sha256 salt wipe_code in
        if negb (secequal stored_tag computed_tag1 WIPE_CODE_TAG_SIZE)
        then handle_fault WipeCodeTag
        else
          let computed_tag1 := hmac_sha256 salt pin in
          let computed_tag2 := hmac_sha256 salt pin in
          if negb (secequal computed_tag1 computed_tag2 32) then handle_fault WipeCodeFault
          else if secequal stored_tag computed_tag1 WIPE_CODE_TAG_SIZE then mret false
          else mret true
  end.

Definition get_lock_version : ST Z :=
  r ← get_bytes UNAUTH_VERSION_KEY;
  match r with
  | Some bs => if zlen bs =? 4 then mret (le_val bs) else handle_fault NoLockVersion
  | None => handle_fault NoLockVersion
  end.

(** The authenticated version entry, as both callers read it. *)
Definition get_version : ST Z :=
  r ← storage_get_encrypted VERSION_KEY (Some 4);
  match r with
  | GetResult true (Some 4) (Some bs) => mret (le_val bs)
  | _ => handle_fault VersionCheck
  end.

Definition check_storage_version : ST bool :=
  version ← get_version;
  lock_version ← get_lock_version;
  if negb (version =? lock_version) then handle_fault VersionCheck
  else
    r ← get_bytes STORAGE_UPGRADED_KEY;
    match r with
    | None => handle_fault VersionCheck
    | Some bs =>
        if negb (zlen bs =? 4) then handle_fault VersionCheck
        else
          let storage_upgraded := le_val bs in
          s ← getS;
          let active := norcow_active_version s in
          if active <? version then
            storage_wipe (@handle_fault) ;; handle_fault VersionCheck
          else if version <? active then
            if negb (storage_upgraded =? TRUE_WORD) then
              storage_wipe (@handle_fault) ;; handle_fault VersionCheck
            else
              lift (Norcow.norcow_set STORAGE_UPGRADED_KEY (Some (le_bytes 4 FALSE_WORD)) 4) ;;
              storage_set_encrypted VERSION_KEY (le_bytes 4 active) ;;
              lift (Norcow.norcow_set UNAUTH_VERSION_KEY (Some (le_bytes 4 active)) 4) ;;
              mret true
          else if negb (storage_upgraded =? FALSE_WORD) then
            storage_wipe (@handle_fault) ;; handle_fault VersionCheck
          else mret true
    end.

(** ** Unlocking *)

Definition decrypt_dek (kek keiv : list Z) : ST bool :=
  r ← get_bytes EDEK_PVC_KEY;
  s ← getS;
  match r with
  | None => handle_fault NoEdek
  | Some buffer =>
      if negb (initialized s) || negb (zlen buffer =? RANDOM_SALT_SIZE + KEYS_SIZE + PVC_SIZE)
      then handle_fault NoEdek
      else
        let ekeys := slice buffer RANDOM_SALT_SIZE KEYS_SIZE in
        let pvc := slice buffer (RANDOM_SALT_SIZE + KEYS_SIZE) PVC_SIZE in
        let ctx := rfc7539_init kek keiv in
        let '(ctx, keys) := chacha20poly1305_decrypt 64 ctx ekeys in
        let tag := rfc7539_finish 64 ctx 0 KEYS_SIZE in
        ok ← secequal32 tag pvc PVC_SIZE;
        if negb ok then mret false
        else set_cached_keys keys ;; mret true
  end.

Definition ensure_not_wipe_code (pin : list Z) : ST unit :=
  ok ← is_not_wipe_code pin;
  if negb ok then storage_wipe (@handle_fault) ;; halt WipeCodeEntered else mret ().

Definition storage_upgrade_unlocked (pin : list Z) (ext_salt : option (list Z)) : ST bool :=
  version ← get_version;
  ok ← (if version <=? 2 then set_pin pin ext_salt else mret true);
  if negb ok then mret false
  else if version =? 2 then
    r ← get_bytes WIPE_CODE_DATA_KEY;
    match r with
    | None => handle_fault NoWipeCode
    | Some data =>
        if zlen data <? 4 then handle_fault NoWipeCode
        else
          match int_to_wipe_code (le_val (take 4 data)) with
          | None => handle_fault InvalidWipeCode
          | Some wipe_code => set_wipe_code wipe_code
          end
    end
  else mret true.

(** Wipe, show the message and restart. *)
Definition pin_max_reached {A} : ST A := storage_wipe (@handle_fault) ;; halt Restart.

Definition unlock (pin : list Z) (ext_salt : option (list Z)) : ST bool :=
  lock_version ← get_lock_version;
  unlock_pin ← (if lock_version <=? 2 then
                  s ← getS;
                  set_ui_time (u32 (ui_total s + DERIVE_SECS)) (u32 (ui_rem s + DERIVE_SECS)) ;;
                  mret (le_bytes 4 (pin_to_int pin))
                else mret pin);
  ensure_not_wipe_code unlock_pin ;;
  ctr ← pin_get_fails (@handle_fault);
  if PIN_MAX_TRIES <=? ctr then pin_max_reached
  else
    r ← get_bytes EDEK_PVC_KEY;
    s ← getS;
    match r with
    | None => handle_fault NoEdek
    | Some rand_salt =>
        if negb (initialized s)
           || negb (zlen rand_salt =? RANDOM_SALT_SIZE + KEYS_SIZE + PVC_SIZE)
        then handle_fault NoEdek
        else
          k ← derive_kek unlock_pin rand_salt ext_salt;
          let '(kek, keiv) := k in
          r ← storage_pin_fails_increase (@handle_fault);
          if negb r then mret false
          else
            ctr_ck ← pin_get_fails (@handle_fault);
            if negb (u32 (ctr + 1) =? ctr_ck) then handle_fault PinCounterIncrement
            else
              ok ← decrypt_dek kek keiv;
              if negb ok then
                if PIN_MAX_TRIES <=? u32 (ctr + 1) then pin_max_reached else mret false
              else
                ok ← storage_upgrade_unlocked pin ext_salt;
                if negb ok then mret false
                else
                  ok ← check_storage_version;
                  if negb ok then mret false
                  else set_unlocked true ;; pin_fails_reset (@handle_fault)
    end.

(** [pin = None] is the NULL pointer. *)
Definition storage_unlock (pin : option (list Z)) (ext_salt : option (list Z)) : ST bool :=
  s ← getS;
  match pin with
  | None => mret false
  | Some pin =>
      if negb (initialized s) then mret false
      else
        set_ui_time DERIVE_SECS DERIVE_SECS ;;
        set_ui_message (if zlen pin =? 0 then
                          match ui_message s with
                          | None => STARTING_MSG
                          | Some _ => PROCESSING_MSG
                          end
                        else VERIFYING_PIN_MSG) ;;
        unlock pin ext_salt
  end.

(** ** The interface of storage.h *)

Definition storage_is_unlocked : ST bool :=
  s ← getS; mret (if negb (initialized s) then false else unlocked s).

Definition storage_get (key : Z) (dest : option Z) : ST get_result :=
  let app := u8 (Z.shiftr key 8) in
  s ← getS;
  if negb (initialized s) || (app =? APP_STORAGE) then mret (GetResult false None None)
  else if negb (app .& FLAG_PUBLIC =? 0) then
    r ← lift (Norcow.norcow_get key);
    match r with
    | None => mret (GetResult false (Some 0) None)
    | Some (p, len) =>
        match dest with
        | None => mret (GetResult true (Some len) None)
        | Some max_len =>
            if max_len <? len then mret (GetResult false (Some len) None)
            else
              v ← lift (Norcow.ptr_read (Norcow.norcow_active_sector (st_nc s)) p len);
              mret (GetResult true (Some len) (Some v))
        end
    end
  else if negb (unlocked s) then mret (GetResult false None None)
  else storage_get_encrypted key dest.

Definition storage_has (key : Z) : ST bool := r ← storage_get key None; mret (g_ret r).

(** Locked storage and an APP without the two top bits. *)
Definition write_refused (s : storage_state) (app : Z) : bool :=
  negb (unlocked s) && negb (app .& FLAGS_WRITE =? FLAGS_WRITE).

Definition storage_set (key : Z) (val : list Z) : ST bool :=
  let app := u8 (Z.shiftr key 8) in
  s ← getS;
  if negb (initialized s) || (app =? APP_STORAGE) then mret false
  else if write_refused s app then mret false
  else if negb (app .& FLAG_PUBLIC =? 0) then
    lift (Norcow.norcow_set key (Some val) (zlen val))
  else storage_set_encrypted key val.

Definition storage_delete (key : Z) : ST bool :=
  let app := u8 (Z.shiftr key 8) in
  s ← getS;
  if negb (initialized s) || (app =? APP_STORAGE) then mret false
  else if write_refused s app then mret false
  else
    ret ← lift (Norcow.norcow_delete key);
    if (ret : bool) then auth_update key else mret ret.

Definition storage_set_counter (key count : Z) : ST bool :=
  let app := u8 (Z.shiftr key 8) in
  if app .& FLAG_PUBLIC =? 0 then mret false
  else storage_set key (bytes_of 4 (count :: replicate COUNTER_TAIL_WORDS 0xFFFFFFFF)).

(** [while (i < len_words && val_stored[i] == 0) ++i;] *)
Fixpoint counter_index (words : list Z) (i : Z) : Z :=
  match words with
  | [] => i
  | w :: words => if w =? 0 then counter_index words (i + 1) else i
  end.

(** The status and [*count] when it is written. *)
Definition storage_next_counter (key : Z) : ST (bool * option Z) :=
  let app := u8 (Z.shiftr key 8) in
  s ← getS;
  if negb (initialized s) || (app =? APP_STORAGE) || (app .& FLAG_PUBLIC =? 0)
  then mret (false, None)
  else if write_refused s app then mret (false, None)
  else
    r ← get_bytes key;
    match r with
    | None => ret ← storage_set_counter key 0; mret (ret, Some 0)
    | Some bs =>
        let len := zlen bs in
        if (len <? 4) || negb (len mod 4 =? 0) then mret (false, None)
        else
          let len_words := len / 4 in
          let val_stored := words_of 4 (Z.to_nat len_words) bs in
          let base := znth 0 val_stored 0 in
          let i := counter_index (drop 1 val_stored) 1 in
          let count := u32 (base + 1 + 32 * (i - 1)) in
          if count <? base then mret (false, Some count)
          else if i <? len_words then
            let word := znth 0 val_stored i in
            let count := u32 (count + hamming_weight (not32 word)) in
            if count <? base then mret (false, Some count)
            else
              ret ← lift (Norcow.norcow_update_word key (4 * i) (Z.shiftr word 1));
              mret (ret, Some count)
          else
            ret ← storage_set_counter key count;
            mret (ret, Some count)
    end.

Definition storage_has_pin : ST bool :=
  s ← getS;
  if negb (initialized s) then mret false
  else
    r ← get_bytes PIN_NOT_SET_KEY;
    mret match r with
         | None => false
         | Some bs => if (0 <? zlen bs) && negb (znth 0 bs 0 =? FALSE_BYTE) then false else true
         end.

Definition storage_get_pin_rem : ST Z :=
  s ← getS;
  if negb (initialized s) then mret 0
  else ctr ← pin_get_fails (@handle_fault); mret (u32 (PIN_MAX_TRIES - ctr)).

Definition storage_change_pin (oldpin newpin : option (list Z))
    (old_ext_salt new_ext_salt : option (list Z)) : ST bool :=
  s ← getS;
  match oldpin, newpin with
  | Some oldpin, Some newpin =>
      if negb (initialized s) then mret false
      else
        set_ui_time (2 * DERIVE_SECS) (2 * DERIVE_SECS) ;;
        set_ui_message (if negb (zlen oldpin =? 0) && (zlen newpin =? 0)
                        then VERIFYING_PIN_MSG else PROCESSING_MSG) ;;
        ok ← unlock oldpin old_ext_salt;
        if negb ok then mret false
        else
          ok ← is_not_wipe_code newpin;
          if negb ok then mret false else set_pin newpin new_ext_salt
  | _, _ => mret false
  end.

Definition storage_ensure_not_wipe_code (pin : list Z) : ST unit :=
  lock_version ← get_lock_version;
  ensure_not_wipe_code (if lock_version <=? 2 then le_bytes 4 (pin_to_int pin) else pin).

Definition storage_has_wipe_code : ST bool :=
  s ← getS;
  if negb (initialized s) || negb (unlocked s) then mret false
  else is_not_wipe_code WIPE_CODE_EMPTY.

Definition storage_change_wipe_code (pin ext_salt wipe_code : option (list Z)) : ST bool :=
  s ← getS;
  match pin, wipe_code with
  | Some pin, Some wipe_code =>
      if negb (initialized s)
         || (negb (zlen pin =? 0) && (zlen pin =? zlen wipe_code) && bool_decide (pin = wipe_code))
      then mret false
      else
        set_ui_time DERIVE_SECS DERIVE_SECS ;;
        set_ui_message (if negb (zlen pin =? 0) && (zlen wipe_code =? 0)
                        then VERIFYING_PIN_MSG else PROCESSING_MSG) ;;
        ok ← unlock pin ext_salt;
        if (ok : bool) then set_wipe_code wipe_code else mret false
  | _, _ => mret false
  end.

(** ** Upgrade of older formats and initialization *)

Fixpoint first_nonzero (words : list Z) : option Z :=
  match words with
  | [] => None
  | w :: words => if negb (w =? 0) then Some w else first_nonzero words
  end.

Definition v0_pin_get_fails : ST Z :=
  r ← get_bytes V0_PIN_FAIL_KEY;
  mret match r with
       | None => 0
       | Some bs =>
           match first_nonzero (words_of 4 (length bs / 4) bs) with
           | Some w => hamming_weight (not32 w)
           | None => 0
           end
       end.

(** The copy of the entries into the new sector: [encrypt] for version 0. *)
Fixpoint copy_entries (fuel : nat) (encrypt : bool) (offset : Z) : ST bool :=
  match fuel with
  | O => halt LoopFuel
  | S fuel =>
      r ← lift (Norcow.norcow_get_next offset);
      let '(e, offset) := r in
      match e with
      | None => mret true
      | Some (key, p, len) =>
          if encrypt && ((key =? V0_PIN_KEY) || (key =? V0_PIN_FAIL_KEY))
          then copy_entries fuel encrypt offset
          else
            s ← getS;
            val ← lift (Norcow.ptr_read (Norcow.norcow_active_sector (st_nc s)) p len);
            ret ← (if encrypt && (Z.shiftr key 8 .& FLAG_PUBLIC =? 0)
                   then storage_set_encrypted key val
                   else lift (Norcow.norcow_set key (Some val) len));
            if negb ret then mret false else copy_entries fuel encrypt offset
      end
  end.

(** The part for version 0: new keys, the PIN and the failure counter. *)
Definition upgrade_v0 : ST bool :=
  ks ← random_buffer KEYS_SIZE;
  set_cached_keys ks ;;
  auth_init ;;
  r ← storage_set_encrypted VERSION_KEY (le_bytes 4 1);
  if negb r then mret false
  else
    set_ui_time DERIVE_SECS DERIVE_SECS ;;
    set_ui_message PROCESSING_MSG ;;
    s ← getS;
    let sector := Norcow.norcow_active_sector (st_nc s) in
    found ← lift (Norcow.norcow_get V0_PIN_KEY);
    pin ← match found with
          | None => mret None
          | Some (p, len) =>
              w ← lift (Norcow.ptr_read sector p 4);
              if le_val w =? V0_PIN_EMPTY then mret None
              else v ← lift (Norcow.ptr_read sector p len); mret (Some v)
          end;
    match pin with
    | Some v => set_pin v None ;; mret ()
    | None =>
        set_pin (le_bytes 4 V0_PIN_EMPTY) None ;;
        lift (Norcow.norcow_set PIN_NOT_SET_KEY (Some [TRUE_BYTE]) 1) ;; mret ()
    end ;;
    fails ← v0_pin_get_fails;
    pin_logs_init (@handle_fault) fails ;;
    ok ← copy_entries Norcow.item_fuel true 0;
    if negb ok then mret false
    else set_unlocked false ;; set_cached_keys (zrep KEYS_SIZE 0) ;; mret true.

Definition storage_upgrade : ST bool :=
  s ← getS;
  let version := norcow_active_version s in
  ok ← (if version =? 0 then upgrade_v0 else copy_entries Norcow.item_fuel false 0);
  if negb ok then mret false
  else
    ok ← (if version <=? 1 then set_wipe_code WIPE_CODE_EMPTY else mret true);
    if negb ok then mret false
    else
      ok ← (if version <=? 2 then
              r ← get_bytes STORAGE_UPGRADED_KEY;
              let v := match r with
                       | Some bs => if (zlen bs =? 4) && (le_val bs =? FALSE_WORD) then 2 else 1
                       | None => 1
                       end in
              lift (Norcow.norcow_set UNAUTH_VERSION_KEY (Some (le_bytes 4 v)) 4)
            else mret true);
      if negb ok then mret false
      else
        lift (Norcow.norcow_set STORAGE_UPGRADED_KEY (Some (le_bytes 4 TRUE_WORD)) 4) ;;
        set_active_version Norcow.NORCOW_VERSION ;;
        lift Norcow.norcow_upgrade_finish.

Definition storage_init (salt : list Z) : ST unit :=
  set_initialized false ;;
  set_unlocked false ;;
  v ← lift Norcow.norcow_init;
  set_active_version v ;;
  set_initialized true ;;
  set_hardware_salt (sha256_Raw salt) ;;
  (if v <? Norcow.NORCOW_VERSION then
     ok ← storage_upgrade;
     if negb ok then storage_wipe (@handle_fault) ;; ensure false else mret ()
   else mret ()) ;;
  r ← lift (Norcow.norcow_get EDEK_PVC_KEY);
  match r with
  | None => init_wiped_storage (@handle_fault) ;; storage_lock
  | Some _ => mret ()
  end ;;
  set_cached_keys (zrep KEYS_SIZE 0).

End Storage.
End Storage.
