(* ===== verification/StorageAuth.v ===== *)
(** * The storage authentication tag

    [auth_get] walks over all entries of norcow, recomputes the exclusive-or of
    the HMACs of the protected keys with two bare SHA-256 transforms per key, and
    compares the HMAC of the sum with the stored tag.  This file shows that the
    walk visits exactly the live entries, that the bare transforms compute
    [hmac_sha256], and what [auth_get], [auth_set] and [auth_update] do to a store
    whose tag is right. *)

From stdpp Require Import base list numbers gmap.
From Stdlib Require Import ZArith Lia.
From S2P Require Import Prelude Bits Flash Norcow NorcowSpec Hash HashSpec Sha2 Sha2Spec Hmac HmacSpec ChaCha AeadSpec PinLog Storage.
Local Open Scope fw_scope.

Module StorageAuth.
Import Norcow NorcowSpec.

(** ** The walk over the entries *)

(** Where the next live entry is: key, data pointer and length, and the offset to
    continue from. *)
Fixpoint next_entry (off : Z) (items : list item) : option (Z * Z * Z) * Z :=
  match items with
  | [] => (None, off)
  | it :: items =>
      if live it then (Some (ikey it, off + 4, zlen (idata it)), off + zlen (enc it))
      else next_entry (off + zlen (enc it)) items
  end.

Lemma get_next_loop_eq s i (Hwf : flash_wf (nc_flash s)) (Hi : idx i) items : forall p n off fuel version,
  sec s i = p ++ body items ++ zrep n 255 -> off = zlen p -> off mod 4 = 0 -> 0 <= n ->
  Forall item_ok items -> (length items < fuel)%nat -> version <> 0 ->
  get_next_loop fuel i version off s = Ok (next_entry off items) s.
Proof.
  induction items as [|it items IH]; intros p n off fuel version Hsec Ho Hal Hn Hok Hf Hv;
    (destruct fuel as [|fuel]; [cbn in *; lia|]); cbn [get_next_loop next_entry]; mstep.
  - by rewrite (read_item_free s i Hwf Hi p n) by (done || lia).
  - inversion Hok; subst. rewrite body_cons, <- app_assoc in Hsec.
    rewrite (read_item_enc s i Hwf Hi p it (body items ++ zrep n 255)) by (done || lia).
    unfold live. destruct (ikey it =? NORCOW_KEY_DELETED); cbn [negb]; [|by zif].
    apply (IH (p ++ enc it) n); auto; [| | |cbn in Hf; lia].
    + rewrite Hsec. by rewrite <- app_assoc.
    + zlen.
    + pose proof (enc_aligned it). zlia.
Qed.

(** The position after the items [pre]. *)
Definition pos (pre : list item) : Z := NORCOW_STORAGE_START + zlen (body pre).

Lemma get_next_rep s pre items off : nc_rep s (pre ++ items) ->
  off = pos pre \/ (off = 0 /\ pre = []) ->
  norcow_get_next off s = Ok (next_entry (pos pre) items) s.
Proof.
  intros R Ho. assert (Hv := rep_version _ _ R). assert (Hi := rep_idx _ _ R).
  assert (Hwf := rep_wf _ _ R). assert (Hfit := rep_fit _ _ R).
  assert (Hok := rep_ok _ _ R). assert (Hsec := rep_sec _ _ R).
  assert (Hl : get_next_loop item_fuel (norcow_active_sector s) (norcow_active_version s) (pos pre) s
    = Ok (next_entry (pos pre) items) s).
  { apply (get_next_loop_eq s _ Hwf Hi items (header ++ body pre)
      (NORCOW_SECTOR_SIZE - used (pre ++ items))).
    - rewrite Hsec. unfold sector_bytes. by rewrite body_app, <- !app_assoc.
    - unfold pos. by rewrite zlen_app, zlen_header.
    - unfold pos. pose proof (body_aligned pre). change NORCOW_STORAGE_START with 8. zlia.
    - lia.
    - by apply Forall_app in Hok as [_ ?].
    - pose proof (items_fuel _ Hfit) as Hf. rewrite length_app in Hf. lia.
    - rewrite Hv. done. }
  unfold norcow_get_next. mstep. destruct Ho as [->|[-> ->]].
  - replace (pos pre =? 0) with false; [exact Hl|]. symmetry. apply Z.eqb_neq.
    unfold pos. pose proof (zlen_nonneg (body pre)). change NORCOW_STORAGE_START with 8. lia.
  - cbn [Z.eqb]. rewrite (find_start_offset_eq s _ Hi ([] ++ items)) by done. exact Hl.
Qed.

Lemma pos_snoc pre it : pos pre + zlen (enc it) = pos (pre ++ [it]).
Proof. unfold pos. rewrite body_app, zlen_app, body_cons. change (body []) with (@nil Z). rewrite app_nil_r. lia. Qed.

(** The next live entry splits the remaining items. *)
Lemma next_entry_cases pre items :
  (next_entry (pos pre) items = (None, pos (pre ++ items)) /\ live_items items = []) \/
  exists dead it rest, items = dead ++ it :: rest /\ live_items dead = [] /\ live it = true /\
    next_entry (pos pre) items
    = (Some (ikey it, pos (pre ++ dead) + 4, zlen (idata it)), pos (pre ++ dead ++ [it])).
Proof.
  revert pre. induction items as [|it items IH]; intros pre.
  { left. by rewrite app_nil_r. }
  cbn [next_entry]. destruct (live it) eqn:E.
  - right. exists [], it, items. rewrite app_nil_r, pos_snoc. done.
  - rewrite pos_snoc. destruct (IH (pre ++ [it])) as [[-> El]|(dead & it' & rest & -> & Hd & Hl & ->)].
    + left. rewrite <- app_assoc. split; [done|]. unfold live_items. cbn [List.filter]. by rewrite E.
    + right. exists (it :: dead), it', rest. rewrite <- !app_assoc. split; [done|].
      split; [unfold live_items; cbn [List.filter]; by rewrite E|]. done.
Qed.

Lemma ptr_read_entry s pre it post : nc_rep s (pre ++ it :: post) ->
  forall a n, 0 <= a -> 0 <= n -> a + n <= zlen (idata it) ->
  ptr_read (norcow_active_sector s) (pos pre + 4 + a) n s = Ok (slice (idata it) a n) s.
Proof.
  intros R a n Ha Hn Hl. destruct R. rewrite sector_bytes_mid in rep_sec0.
  set (d := idata it) in *.
  assert (Hd : d = slice d 0 a ++ slice d a n ++ drop (Z.to_nat (a + n)) d).
  { unfold slice. rewrite drop_0. replace (Z.to_nat (a + n)) with (Z.to_nat a + Z.to_nat n)%nat by lia.
    by rewrite <- drop_drop, take_drop, take_drop. }
  apply (ptr_read_mid s _ rep_idx0 ((header ++ body pre) ++ le_bytes 2 (ikey it)
    ++ le_bytes 2 (zlen d) ++ slice d 0 a) _
    (drop (Z.to_nat (a + n)) d ++ zrep (pad (zlen d)) 0 ++ body post
      ++ zrep (NORCOW_SECTOR_SIZE - used (pre ++ it :: post)) 255)).
  - rewrite rep_sec0. unfold enc. fold d. rewrite Hd at 2. by rewrite <- !app_assoc.
  - zlen. rewrite zlen_header. unfold pos. unfold slice, zlen in *. rewrite length_take, length_drop.
    lia.
  - unfold slice, zlen in *. rewrite length_take, length_drop. lia.
Qed.


(** ** The sum of the key tags *)

Import Hash HashSpec Sha2 Sha2Spec Hmac HmacSpec AeadSpec Storage.

#[local] Opaque hmac_sha256.

Definition key_tag (sak : list Z) (k : Z) : list Z := hmac_sha256 sak (le_bytes 2 k).

Definition sum_keys (sak : list Z) (ks : list Z) : list Z :=
  foldr (fun k acc => if is_protected k then xor_bytes acc (key_tag sak k) else acc)
    (replicate 32 0) ks.

(** The sum over the keys of a store, in any order, and its tag. *)
Definition auth_sum (sak : list Z) (m : gmap Z (list Z)) : list Z :=
  sum_keys sak (elements (dom m)).
Definition auth_tag (sak : list Z) (m : gmap Z (list Z)) : list Z :=
  take 16 (hmac_sha256 sak (auth_sum sak m)).

Lemma xor_bytes_swap a : forall b c, xor_bytes (xor_bytes a b) c = xor_bytes (xor_bytes a c) b.
Proof.
  induction a as [|x a IH]; intros [|y b] [|z c]; cbn [xor_bytes zip_with]; try done.
  f_equal; [|apply IH]. by rewrite !Z.lxor_assoc, (Z.lxor_comm y).
Qed.

Lemma sum_keys_perm sak ks ks' : ks ≡ₚ ks' -> sum_keys sak ks = sum_keys sak ks'.
Proof.
  intros E. unfold sum_keys. induction E as [|k ks ks' _ IH|k k' ks|? ? ? _ IH1 _ IH2]; cbn [foldr].
  - reflexivity.
  - by rewrite IH.
  - destruct (is_protected k), (is_protected k'); [apply xor_bytes_swap|reflexivity..].
  - by rewrite IH1.
Qed.

Lemma live_keys_dom items : NoDup (live_keys items) ->
  live_keys items ≡ₚ elements (dom (contents items)).
Proof.
  intros Hnd. apply NoDup_Permutation; [done|apply NoDup_elements|]. intros k.
  rewrite elem_of_elements, elem_of_dom. clear Hnd. unfold live_keys, live_items.
  induction items as [|it items IH]; cbn [List.filter contents map].
  - rewrite lookup_empty. split; [intros H; inversion H|intros [? H]; discriminate].
  - destruct (live it); [|done]. cbn [map]. rewrite elem_of_cons, IH, lookup_insert_is_Some.
    split; intros [?|?]; destruct (decide (ikey it = k)); auto; tauto.
Qed.

Section Sak.
Context (sak : list Z) (Hsak : Forall is_byte sak) (Hsakl : length sak = 16%nat).

Lemma hmac_sak msg : Forall is_byte msg -> zlen msg < 1000 ->
  hmac_sha256 sak msg = rfc_hmac sha256_alg sak msg.
Proof.
  intros Hm Hl. apply (hmac_eq sha256_alg (P := sha256_params)); [done|done| |].
  - unfold zlen. rewrite Hsakl. lia.
  - change (Z.of_nat (2 * block_len sha256_alg)) with 128. lia.
Qed.

Lemma hmac_sak_ok msg : Forall is_byte msg -> zlen msg < 1000 ->
  length (hmac_sha256 sak msg) = 32%nat /\ Forall is_byte (hmac_sha256 sak msg).
Proof.
  intros Hm Hl. rewrite hmac_sak by done.
  exact (rfc_hmac_ok sha256_alg (P := sha256_params) sak msg).
Qed.

Lemma key_tag_ok k : length (key_tag sak k) = 32%nat /\ Forall is_byte (key_tag sak k).
Proof. apply hmac_sak_ok; [apply le_bytes_byte|rewrite zlen_le_bytes; lia]. Qed.

Lemma sum_keys_ok ks : length (sum_keys sak ks) = 32%nat /\ Forall is_byte (sum_keys sak ks).
Proof.
  induction ks as [|k ks [IHl IHb]]; cbn [sum_keys foldr].
  { split; [apply length_replicate|apply bytes_0]. }
  fold (sum_keys sak ks). destruct (is_protected k); [|done]. destruct (key_tag_ok k).
  split; [rewrite xor_bytes_length; lia|by apply xor_bytes_bytes].
Qed.

Lemma auth_sum_ok m : length (auth_sum sak m) = 32%nat /\ Forall is_byte (auth_sum sak m).
Proof. apply sum_keys_ok. Qed.

Lemma auth_tag_ok m : length (auth_tag sak m) = 16%nat /\ Forall is_byte (auth_tag sak m).
Proof.
  destruct (auth_sum_ok m) as [Hl Hb]. destruct (hmac_sak_ok (auth_sum sak m) Hb) as [Hl' Hb'];
    [unfold zlen; rewrite Hl; lia|].
  split; [unfold auth_tag; rewrite length_take, Hl'; done|by apply Forall_take].
Qed.

Lemma auth_sum_items items : NoDup (live_keys items) ->
  sum_keys sak (live_keys items) = auth_sum sak (contents items).
Proof. intros Hnd. by apply sum_keys_perm, live_keys_dom. Qed.

(** Overwriting an entry does not change the sum; a new protected entry adds its
    tag; deleting one takes its tag away, by adding it again. *)
Lemma auth_sum_overwrite m k v : is_Some (m !! k) -> auth_sum sak (<[k := v]> m) = auth_sum sak m.
Proof. intros H. unfold auth_sum. by rewrite dom_insert_lookup_L. Qed.

Lemma auth_sum_new m k v : m !! k = None ->
  auth_sum sak (<[k := v]> m)
  = if is_protected k then xor_bytes (auth_sum sak m) (key_tag sak k) else auth_sum sak m.
Proof.
  intros H. unfold auth_sum. rewrite dom_insert_L.
  rewrite (sum_keys_perm sak _ (k :: elements (dom m))); [done|].
  rewrite elements_union_singleton; [done|]. by apply not_elem_of_dom.
Qed.

Lemma auth_sum_unprotected m k v : is_protected k = false -> auth_sum sak (<[k := v]> m) = auth_sum sak m.
Proof.
  intros Hp. destruct (m !! k) eqn:E; [by apply auth_sum_overwrite|].
  rewrite auth_sum_new, Hp by done. done.
Qed.

Lemma auth_sum_delete m k : is_Some (m !! k) ->
  auth_sum sak (delete k m)
  = if is_protected k then xor_bytes (auth_sum sak m) (key_tag sak k) else auth_sum sak m.
Proof.
  intros [v Hv]. pose proof (auth_sum_new (delete k m) k v (lookup_delete_eq m k)) as E.
  rewrite insert_delete_eq, insert_id in E by done. destruct (is_protected k); [|done].
  rewrite E, xor_bytes_cancel; [done|].
  rewrite (proj1 (auth_sum_ok _)), (proj1 (key_tag_ok k)). lia.
Qed.

(** ** The bare transforms compute HMAC-SHA256 *)

Local Abbreviation tail := (tail_words sha256_alg (pw := 0x80000000)).

Lemma set_words_8 x t st : length x = 8%nat -> length st = 8%nat -> set_words (x ++ t) st = st ++ t.
Proof.
  intros Hx Hs. unfold set_words, memcpy. rewrite take_0, app_nil_l. f_equal.
  by rewrite Hs, drop_app_length'.
Qed.

Lemma inline_hmac msg g x : Forall is_byte msg -> (length msg + 9 <= 64)%nat -> length x = 8%nat ->
  g = be_words 4 16 (msg ++ 0x80 :: replicate (64 - (length msg + 9)) 0
        ++ be_bytes 8 (8 * Z.of_nat (64 + length msg))) ->
  let '(odig, idig) := hmac_sha256_prepare sak in
  let h := set_words (x ++ tail) (sha256_Transform idig g) in
  set_words h (sha256_Transform odig h) = be_words 4 8 (hmac_sha256 sak msg) ++ tail.
Proof.
  intros Hm Hl Hx ->. unfold hmac_sha256_prepare.
  rewrite (hmac_prepare_eq sha256_alg (P := sha256_params)) by (done || (unfold zlen; rewrite Hsakl; lia)).
  pose proof (hp_transform (HmacParams := sha256_params)) as Ht. cbn [ha_transform sha256_alg] in Ht.
  destruct (rfc_key_block sha256_alg (P := sha256_params) sak Hsak) as [Hkl _].
  pose proof (final_short sha256_alg (P := sha256_params) (xor_with 0x36 (rfc_key sha256_alg sak)) msg) as E.
  rewrite length_xor_with in E. specialize (E Hkl). cbn [ha_wb sha256_alg] in E.
  change (block_len sha256_alg) with 64%nat in E. change (2 * 4)%nat with 8%nat in E.
  replace (length msg + 1 + 8)%nat with (length msg + 9)%nat in E by lia.
  specialize (E Hl). rewrite hmac_sak by (done || (unfold zlen; lia)).
  rewrite set_words_8 by (done || apply Ht).
  change (sha256_Transform (absorb sha256_alg 1 (ha_init sha256_alg) (xor_with 54 (rfc_key sha256_alg sak))))
    with (ha_transform sha256_alg (absorb sha256_alg 1 (ha_init sha256_alg) (xor_with 54 (rfc_key sha256_alg sak)))).
  rewrite <- E, <- (digest_words_eq sha256_alg (P := sha256_params)).
  rewrite set_words_8 by (rewrite ?length_be_words; (done || apply Ht)).
  f_equal. exact (raw_hash sha256_alg (P := sha256_params) sak Hsak 0x5c _
    (length_digest_of sha256_alg (P := sha256_params) _)).
Qed.

End Sak.

(** ** The block of a key *)

Lemma key_word lo hi : is_byte lo -> is_byte hi ->
  let k := lo + 256 * hi in
  u32 (Z.shiftl (k .& 0xff) 24) .| u32 (Z.shiftl (k .& 0xff00) 8) .| 0x8000
  = be_val [lo; hi; 0x80; 0].
Proof.
  intros Hlo Hhi k. unfold is_byte in *.
  assert (E1 : k .& 0xff = lo).
  { change 0xff with (Z.ones 8). rewrite Z.land_ones by lia. unfold k. zlia. }
  assert (E2 : k .& 0xff00 = hi * 256).
  { change 0xff00 with (Z.shiftl (Z.ones 8) 8).
    apply Z.bits_inj'. intros n Hn. rewrite Z.land_spec, Z.shiftl_spec by done.
    change 256 with (2 ^ 8). rewrite <- Z.shiftl_mul_pow2, Z.shiftl_spec by lia.
    destruct (Z.lt_ge_cases n 8); [rewrite !(Z.testbit_neg_r _ (n - 8)) by lia; apply andb_false_r|].
    replace (Z.testbit k n) with (Z.testbit hi (n - 8)).
    2:{ replace hi with (Z.shiftr k 8) at 1. { rewrite Z.shiftr_spec by lia. f_equal. lia. }
      rewrite Z.shiftr_div_pow2 by lia. unfold k. change (2 ^ 8) with 256. zlia. }
    destruct (Z.lt_ge_cases (n - 8) 8).
    - rewrite Z.ones_spec_low by lia. apply andb_true_r.
    - rewrite Z.ones_spec_high by lia. rewrite andb_false_r. symmetry.
      apply (Z.bits_above_log2); [lia|]. destruct (decide (hi = 0)) as [->|]; [cbn; lia|].
      pose proof (Z.log2_lt_pow2 hi 8 ltac:(lia)). lia. }
  rewrite E1, E2, !Z.shiftl_mul_pow2 by lia. change (2 ^ 24) with 16777216. change (2 ^ 8) with 256.
  rewrite !u32_small by lia.
  replace (hi * 256 * 256) with (Z.shiftl hi 16) by (rewrite Z.shiftl_mul_pow2 by lia; lia).
  rewrite <- (Z.lor_comm 0x8000).
  replace (lo * 16777216) with (Z.shiftl lo 24) by (rewrite Z.shiftl_mul_pow2 by lia; lia).
  rewrite (Z.lor_comm (Z.shiftl lo 24)), Z.lor_assoc, (lor_shift 0x8000) by lia.
  rewrite lor_shift by (change (2^16) with 65536; change (2^24) with 16777216; lia).
  unfold be_val. cbn [rev app le_val]. lia.
Qed.

Lemma key_block_words k : is_u16 k ->
  zupd auth_g 0 (u32 (Z.shiftl (k .& 0xff) 24) .| u32 (Z.shiftl (k .& 0xff00) 8) .| 0x8000)
  = be_words 4 16 (le_bytes 2 k ++ 0x80 :: replicate (64 - (length (le_bytes 2 k) + 9)) 0
        ++ be_bytes 8 (8 * Z.of_nat (64 + length (le_bytes 2 k)))).
Proof.
  intros Hk. unfold is_u16 in Hk.
  pose proof (key_word (k mod 256) (k / 256 mod 256)) as E. cbn zeta in E.
  rewrite <- (le_bytes_val (le_bytes 2 k)) by apply le_bytes_byte.
  replace (k mod 256 + 256 * (k / 256 mod 256)) with k in E by zlia.
  rewrite E by (unfold is_byte; zlia). rewrite le_bytes_val by apply le_bytes_byte. reflexivity.
Qed.

Definition with_nc (s : storage_state) (x : norcow_state) : storage_state :=
  StorageState x (initialized s) (unlocked s) (ui_total s) (ui_rem s) (ui_message s)
    (cached_keys s) (authentication_sum s) (hardware_salt s) (Storage.norcow_active_version s)
    (in_progress s) (rng_pos s).

Lemma with_nc_id s : with_nc s (st_nc s) = s.
Proof. by destruct s. Qed.

Lemma lift_ok {A} (m : M Norcow.fault norcow_state A) s a nc :
  m (st_nc s) = Ok a nc -> lift m s = Ok a (with_nc s nc).
Proof. intros E. unfold lift. rewrite E. reflexivity. Qed.

Lemma lift_read {A} (m : M Norcow.fault norcow_state A) s a :
  m (st_nc s) = Ok a (st_nc s) -> lift m s = Ok a s.
Proof. intros E. rewrite (lift_ok m s a (st_nc s) E). by rewrite with_nc_id. Qed.

(** ** The loop of [auth_get] *)

(** What the scan knows of a key after the items [done]. *)
Definition located (key : Z) (done : list item) (val : option (Z * Z)) : Prop :=
  (val = None /\ key ∉ live_keys done) \/
  exists pre it post, done = pre ++ it :: post /\ ikey it = key /\ live it = true /\
    val = Some (pos pre + 4, zlen (idata it)).

Lemma live_keys_snoc done it : live it = true -> live_keys (done ++ [it]) = live_keys done ++ [ikey it].
Proof. intros Hl. rewrite live_keys_app. unfold live_keys at 2, live_items. cbn [List.filter]. by rewrite Hl. Qed.

Lemma live_keys_dead done dead : live_items dead = [] -> live_keys (done ++ dead) = live_keys done.
Proof. intros Hd. rewrite live_keys_app. unfold live_keys at 2. rewrite Hd. apply app_nil_r. Qed.

Lemma located_dead key done dead val : live_items dead = [] ->
  located key done val -> located key (done ++ dead) val.
Proof.
  intros Hd [[-> H]|(pre & it & post & -> & Hk & Hl & ->)].
  - left. by rewrite live_keys_dead.
  - right. exists pre, it, (post ++ dead). by rewrite <- app_assoc.
Qed.

Lemma located_snoc key done it val : live it = true -> located key done val ->
  located key (done ++ [it]) (if ikey it =? key then Some (pos done + 4, zlen (idata it)) else val).
Proof.
  intros Hl H. destruct (Z.eqb_spec (ikey it) key) as [E|E].
  - right. by exists done, it, [].
  - destruct H as [[-> H]|(pre & it' & post & -> & Hk & Hl' & ->)].
    + left. split; [done|]. rewrite live_keys_snoc by done. rewrite elem_of_app, list_elem_of_singleton.
      intros [?|?]; congruence.
    + right. exists pre, it', (post ++ [it]). by rewrite <- app_assoc.
Qed.

(** A scan of all items finds what the map has. *)
Lemma located_all key items val : NoDup (live_keys items) -> located key items val ->
  match contents items !! key with
  | None => val = None
  | Some v => exists pre it post, items = pre ++ it :: post /\ idata it = v /\
                val = Some (pos pre + 4, zlen v)
  end.
Proof.
  intros Hnd [[-> H]|(pre & it & post & -> & <- & Hl & ->)].
  - by rewrite contents_notin.
  - rewrite contents_app, contents_notin.
    + cbn [contents]. rewrite Hl, lookup_insert_eq. by exists pre, it, post.
    + intros Hin. rewrite live_keys_app in Hnd. apply NoDup_app in Hnd as (_ & Hd & _).
      apply (Hd _ Hin). unfold live_keys, live_items. cbn [List.filter]. rewrite Hl. constructor.
Qed.

Section Loop.
Context (sak : list Z) (Hsak : Forall is_byte sak) (Hsakl : length sak = 16%nat) (key : Z).
Local Abbreviation tail := (tail_words sha256_alg (pw := 0x80000000)).
Local Abbreviation odig := (hmac_sha256_prepare sak).1.
Local Abbreviation idig := (hmac_sha256_prepare sak).2.
Local Opaque hmac_sha256_prepare sha256_Transform.

Record scan_inv (done : list item) (a : auth_scan) : Prop := {
  si_sum : as_sum a = be_words 4 8 (sum_keys sak (live_keys done));
  si_h : exists x, length x = 8%nat /\ as_h a = x ++ tail;
  si_val : located key done (as_val a);
  si_tag : located STORAGE_TAG_KEY done (as_tag a);
  si_cnt : as_val a = None -> other_count a = entry_count a;
}.

Lemma scan_inv_dead done dead a : live_items dead = [] -> scan_inv done a -> scan_inv (done ++ dead) a.
Proof. intros Hd []. split; auto using located_dead. by rewrite live_keys_dead. Qed.

Lemma scan_inv_init : scan_inv [] (AuthScan None None 0 0 (replicate 8 0) auth_h).
Proof.
  split; cbn [as_sum as_h as_val as_tag other_count entry_count]; try done.
  - exists (replicate 8 0). done.
  - left. split; [done|]. intros H. inversion H.
  - left. split; [done|]. intros H. inversion H.
Qed.

Lemma sum_keys_snoc ks k :
  sum_keys sak (ks ++ [k]) = if is_protected k then xor_bytes (sum_keys sak ks) (key_tag sak k) else sum_keys sak ks.
Proof.
  rewrite (sum_keys_perm sak _ (k :: ks)) by (symmetry; apply Permutation_cons_append). reflexivity.
Qed.

(** The body of the loop. *)
Definition scan_step (k v l : Z) (a : auth_scan) : auth_scan :=
  let val := if k =? key then Some (v, l) else as_val a in
  let other := if k =? key then other_count a else u16 (other_count a + 1) in
  let entry := u16 (entry_count a + 1) in
  if negb (is_protected k) then
    AuthScan val (if k =? STORAGE_TAG_KEY then Some (v, l) else as_tag a) entry other (as_sum a) (as_h a)
  else
    let g := zupd auth_g 0
               (u32 (Z.shiftl (k .& 0xff) 24) .| u32 (Z.shiftl (k .& 0xff00) 8) .| 0x8000) in
    let h := set_words (as_h a) (sha256_Transform idig g) in
    let h := set_words h (sha256_Transform odig h) in
    AuthScan val (as_tag a) entry other (zip_with Z.lxor (as_sum a) (take 8 h)) h.

Lemma scan_inv_step done it a : scan_inv done a -> live it = true -> item_ok it ->
  scan_inv (done ++ [it]) (scan_step (ikey it) (pos done + 4) (zlen (idata it)) a).
Proof.
  intros [Hs (x & Hx & Hh) Hv Ht Hc] Hl [Hk _]. unfold NORCOW_KEY_FREE in Hk. unfold scan_step.
  destruct (is_protected (ikey it)) eqn:Hp; cbn [negb].
  - assert (E := inline_hmac sak Hsak Hsakl (le_bytes 2 (ikey it))
      (zupd auth_g 0 (u32 (Z.shiftl (ikey it .& 0xff) 24) .| u32 (Z.shiftl (ikey it .& 0xff00) 8) .| 0x8000))
      x (le_bytes_byte 2 _) ltac:(rewrite length_le_bytes; lia) Hx
      (key_block_words (ikey it) ltac:(unfold is_u16; lia))).
    destruct (hmac_sha256_prepare sak) as [od id_]. cbn zeta in E. cbn [fst snd]. rewrite Hh, E.
    change (hmac_sha256 sak (le_bytes 2 (ikey it))) with (key_tag sak (ikey it)).
    split; cbn [as_sum as_h as_val as_tag other_count entry_count].
    + rewrite Hs, take_app_length' by (symmetry; apply length_be_words).
      rewrite live_keys_snoc, sum_keys_snoc, Hp by done.
      destruct (sum_keys_ok sak Hsak Hsakl (live_keys done)), (key_tag_ok sak Hsak Hsakl (ikey it)).
      by apply (xor_be_words sha256_alg 8).
    + eexists. split; [|reflexivity]. apply length_be_words.
    + by apply located_snoc.
    + replace (as_tag a) with (if ikey it =? STORAGE_TAG_KEY
        then Some (pos done + 4, zlen (idata it)) else as_tag a); [by apply located_snoc|].
      destruct (Z.eqb_spec (ikey it) STORAGE_TAG_KEY) as [E'|]; [|done]. rewrite E' in Hp. done.
    + intros H. destruct (ikey it =? key); [done|]. by rewrite Hc.
  - split; cbn [as_sum as_h as_val as_tag other_count entry_count].
    + by rewrite Hs, live_keys_snoc, sum_keys_snoc, Hp.
    + by exists x.
    + by apply located_snoc.
    + by apply located_snoc.
    + intros H. destruct (ikey it =? key); [done|]. by rewrite Hc.
Qed.

Lemma auth_loop_eq fuel : forall s items done off a,
  nc_rep (st_nc s) (done ++ items) -> scan_inv done a ->
  off = pos done \/ (off = 0 /\ done = []) -> (length items < fuel)%nat ->
  exists a', auth_loop fuel key odig idig off a s = Ok (a', pos (done ++ items)) s /\
    scan_inv (done ++ items) a'.
Proof.
  induction fuel as [|fuel IH]; intros s items done off a R I Ho Hf; [lia|].
  cbn [auth_loop]. mstep.
  rewrite (lift_read _ s _ (get_next_rep _ done items off R Ho)).
  destruct (next_entry_cases done items) as [[-> Hd]|(dead & it & rest & -> & Hd & Hl & ->)].
  { exists a. split; [done|]. by apply scan_inv_dead. }
  assert (Hit : item_ok it).
  { pose proof (rep_ok _ _ R) as Hok. rewrite app_assoc in Hok. by apply Forall_elt in Hok. }
  pose proof (scan_inv_step (done ++ dead) it a (scan_inv_dead _ _ _ Hd I) Hl Hit) as I'.
  rewrite <- app_assoc in I'.
  replace (done ++ dead ++ it :: rest) with ((done ++ dead ++ [it]) ++ rest) in *
    by (by rewrite <- !app_assoc).
  rewrite length_app in Hf. cbn [length] in Hf.
  destruct (IH s rest (done ++ dead ++ [it]) (pos (done ++ dead ++ [it])) _ R I' (or_introl eq_refl)
    ltac:(lia)) as (a' & E & I'').
  exists a'. split; [|done]. rewrite <- E. unfold scan_step.
  by destruct (is_protected (ikey it)).
Qed.

End Loop.

(** ** [secequal] *)

Lemma secequal_loop_zero n : forall p1 p2 d, (n <= length p1)%nat -> (n <= length p2)%nat ->
  (secequal_loop n p1 p2 d = 0 <-> d = 0 /\ take n p1 = take n p2).
Proof.
  induction n as [|n IH]; intros p1 p2 d H1 H2; cbn [secequal_loop].
  { rewrite !take_0. split; [done|by intros [? _]]. }
  destruct p1 as [|x p1], p2 as [|y p2]; cbn in H1, H2; try lia.
  change (drop 1 (x :: p1)) with p1. change (drop 1 (y :: p2)) with p2. change (znth 0 (x :: p1) 0) with x.
  change (znth 0 (y :: p2) 0) with y.
  rewrite IH by lia. rewrite Z.lor_eq_0_iff, Z.lxor_eq_0_iff. cbn [take]. split.
  - intros [[-> ->] ->]. done.
  - intros [-> E]. injection E as -> E. done.
Qed.

Lemma secequal_spec p1 p2 n : 0 <= n -> n <= zlen p1 -> n <= zlen p2 ->
  secequal p1 p2 n = bool_decide (take (Z.to_nat n) p1 = take (Z.to_nat n) p2).
Proof.
  intros Hn H1 H2. unfold secequal, zlen in *.
  pose proof (secequal_loop_zero (Z.to_nat n) p1 p2 0 ltac:(lia) ltac:(lia)) as E.
  destruct (Z.eqb_spec (secequal_loop (Z.to_nat n) p1 p2 0) 0).
  - rewrite bool_decide_true; [done|]. by apply E.
  - rewrite bool_decide_false; [done|]. intros H. apply n0. by apply E.
Qed.

Definition with_sum (s : storage_state) (x : list Z) : storage_state :=
  StorageState (st_nc s) (initialized s) (unlocked s) (ui_total s) (ui_rem s) (ui_message s)
    (cached_keys s) x (hardware_salt s) (Storage.norcow_active_version s)
    (in_progress s) (rng_pos s).

Lemma words_be_bytes bs : length bs = 32%nat -> Forall is_byte bs ->
  bytes_of 4 (map REVERSE32 (be_words 4 8 bs)) = bs.
Proof.
  intros Hl Hb.
  change REVERSE32 with (ha_reverse sha256_alg). change 4%nat with (ha_wb sha256_alg).
  rewrite (bytes_of_reverse sha256_alg (limit := 2 ^ 64));
    [by apply concat_be_words|apply be_words_range; [rewrite Hl; cbn; lia|done]].
Qed.

(** A digest as the block of another HMAC. *)
Lemma digest_block bs : length bs = 32%nat ->
  be_words 4 8 bs ++ tail_words sha256_alg (pw := 0x80000000)
  = be_words 4 16 (bs ++ 0x80 :: replicate 23 0 ++ be_bytes 8 (8 * Z.of_nat (64 + 32))).
Proof.
  intros Hl. change 16%nat with (8 + 8)%nat. rewrite be_words_app, be_words_prefix by lia.
  rewrite drop_app_length' by lia. reflexivity.
Qed.

(** The tag entry matches the keys of the store. *)
Definition tag_ok (sak : list Z) (m : gmap Z (list Z)) : Prop :=
  m !! STORAGE_TAG_KEY = Some (auth_tag sak m).
#[global] Instance tag_ok_dec sak m : Decision (tag_ok sak m).
Proof. unfold tag_ok. apply _. Defined.

Section AuthGet.
Context (random : nat -> Z) (rng_fuel : nat).
Context (s : storage_state) (items : list item).
Local Abbreviation sak := (cached_sak s).
Local Abbreviation m := (contents items).
Local Abbreviation s' := (with_sum s (auth_sum sak m)).
Context (R : nc_rep (st_nc s) items) (Hsak : Forall is_byte sak) (Hsakl : length sak = 16%nat).
Local Opaque hmac_sha256_prepare sha256_Transform handle_fault Norcow.item_fuel.

(** The tag comparison, on the entry the walk found. *)
Lemma tag_check tagp : located STORAGE_TAG_KEY items tagp ->
  match tagp with
  | None => mret false
  | Some (p, len) =>
      if negb (len =? STORAGE_TAG_SIZE) then mret false
      else
        s ← getS;
        tag_val ← lift (ptr_read (norcow_active_sector (st_nc s)) p len);
        mret (secequal (hmac_sha256 sak (auth_sum sak m)) tag_val STORAGE_TAG_SIZE)
  end s' = Ok (bool_decide (tag_ok sak m)) s'.
Proof.
  intros Ht. pose proof (located_all _ _ _ (rep_nodup _ _ R) Ht) as Lt.
  remember (m !! STORAGE_TAG_KEY) as o eqn:Em in Lt. symmetry in Em. destruct o as [t|].
  2:{ subst tagp. rewrite bool_decide_false; [done|]. unfold tag_ok. by rewrite Em. }
  destruct Lt as (pre & it & post & Hit & Hd & ->).
  destruct (auth_tag_ok sak Hsak Hsakl m) as [Htl _].
  change STORAGE_TAG_SIZE with 16. destruct (Z.eqb_spec (zlen t) 16) as [Hz|Hz]; cbn [negb].
  2:{ rewrite bool_decide_false; [done|]. unfold tag_ok. rewrite Em. intros E. injection E as ->. apply Hz. unfold zlen. by rewrite Htl. }
  destruct (auth_sum_ok sak Hsak Hsakl m) as [Hsl Hsb].
  destruct (hmac_sak_ok sak Hsak Hsakl (auth_sum sak m) Hsb) as [Hl _]; [unfold zlen; rewrite Hsl; lia|].
  mstep. rewrite (lift_read _ s' t).
  2:{ change (st_nc s') with (st_nc s). pose proof R as R'. rewrite Hit in R'.
      pose proof (ptr_read_entry _ pre it post R' 0 (zlen t) ltac:(lia) ltac:(lia)) as G.
      rewrite Z.add_0_r, Hd in G. rewrite (G ltac:(lia)). f_equal. unfold slice, zlen.
      change (Z.to_nat 0) with 0%nat. by rewrite drop_0, Nat2Z.id, firstn_all. }
  rewrite secequal_spec by (rewrite ?Hz; unfold zlen; rewrite ?Hl; lia).
  f_equal. apply bool_decide_ext. unfold tag_ok. rewrite Em. change (Z.to_nat 16) with 16%nat.
  rewrite (take_ge t) by (unfold zlen in Hz; lia).
  change (take 16 (hmac_sha256 sak (auth_sum sak m))) with (auth_tag sak m). split; congruence.
Qed.

Lemma auth_get_eval key : exists val, located key items val /\
  auth_get random rng_fuel key s
  = if bool_decide (tag_ok sak m) then Ok val s' else handle_fault random rng_fuel StorageTagCheck s'.
Proof.
  destruct (auth_loop_eq sak Hsak Hsakl key item_fuel s items [] 0 _ R (scan_inv_init sak key)
    ltac:(by right)) as (a & E & I); [by apply items_fuel, R|]. rewrite app_nil_l in E, I.
  destruct I as [Hs (x & Hx & Hh) Hv Ht Hc]. exists (as_val a). split; [done|].
  rewrite auth_sum_items in Hs by apply (rep_nodup _ _ R).
  destruct (auth_sum_ok sak Hsak Hsakl m) as [Hsl Hsb].
  destruct (hmac_sak_ok sak Hsak Hsakl (auth_sum sak m) Hsb) as [Hl Hb]; [unfold zlen; rewrite Hsl; lia|].
  assert (En : lift (norcow_get_next (pos items)) s' = Ok (None, pos items) s').
  { apply lift_read. pose proof (get_next_rep (st_nc s') items [] (pos items)) as G.
    rewrite app_nil_r in G. apply G; [exact R|by left]. }
  assert (Eh := inline_hmac sak Hsak Hsakl (auth_sum sak m) (set_words (as_h a) (as_sum a)) (as_sum a) Hsb
    ltac:(rewrite Hsl; lia) ltac:(rewrite Hs; apply length_be_words)).
  rewrite Hh, set_words_8 in Eh by (rewrite ?Hs, ?length_be_words; done).
  pose proof (tag_check (as_tag a) Ht) as Tc.
  unfold auth_get. mstep. destruct (hmac_sha256_prepare sak) as [od id_]. cbn [fst snd] in E.
  rewrite E. cbn zeta in Eh.
  rewrite Hh, set_words_8 by (rewrite ?Hs, ?length_be_words; done). rewrite Eh.
  2:{ rewrite Hsl, Hs. by apply digest_block. }
  unfold set_authentication_sum. mstep. rewrite Hs, words_be_bytes by done.
  change (StorageState (st_nc s) _ _ _ _ _ _ _ _ _ _ _) with s'. rewrite En. cbn [fst].
  rewrite bool_decide_false by (intros [? ?]; discriminate).
  rewrite take_app_length' by (symmetry; apply length_be_words). rewrite words_be_bytes by done.
  revert Tc. mstep. intros ->. destruct (bool_decide (tag_ok sak m)); cbn [negb]; [|done].
  destruct (as_val a); [done|]. rewrite Hc, Z.eqb_refl by done. done.
Qed.

(** With the right tag the lookup succeeds and caches the sum. *)
Lemma auth_get_rep key : tag_ok sak m ->
  match m !! key with
  | None => auth_get random rng_fuel key s = Ok None s'
  | Some v => exists pre it post, items = pre ++ it :: post /\ idata it = v /\
      auth_get random rng_fuel key s = Ok (Some (pos pre + 4, zlen v)) s'
  end.
Proof.
  intros Htag. destruct (auth_get_eval key) as (val & L & ->). rewrite bool_decide_true by done.
  pose proof (located_all _ _ _ (rep_nodup _ _ R) L) as Lv.
  destruct (m !! key); [|by subst val]. destruct Lv as (pre & it & post & ? & ? & ->). by exists pre, it, post.
Qed.

End AuthGet.

End StorageAuth.
