(* ===== verification/StorageSpec.v ===== *)
(** * The encrypted store refines a map

    The entries of an unlocked storage stand for a map from keys to values: a
    public entry for its bytes, a protected entry for the plaintext that was
    encrypted into it.  [storage_get], [storage_set] and [storage_delete] are shown
    to implement this map, keeping the storage authentication tag right. *)

From stdpp Require Import base list numbers gmap.
From Stdlib Require Import ZArith Lia.
From S2P Require Import Prelude Bits Flash Norcow NorcowSpec Hash HashSpec Sha2 Sha2Spec Hmac HmacSpec ChaCha PolySpec AeadSpec PinLog Storage StorageAuth.
Local Open Scope fw_scope.

Module StorageSpec.
Import Norcow NorcowSpec Hash HashSpec HmacSpec ChaCha AeadSpec Storage StorageAuth.
Lemma rfc_tag_ok dek iv ad c : zlen (rfc_tag dek iv ad c) = 16 /\ Forall is_byte (rfc_tag dek iv ad c).
Proof. unfold rfc_tag, PolySpec.poly1305_mac. split; [by rewrite zlen_le_bytes|apply le_bytes_byte]. Qed.

#[local] Opaque Hmac.hmac_sha256 rfc_cipher rfc_tag.

(** ** Norcow calls on a store given by its map *)

Definition holds (s : storage_state) (m : gmap Z (list Z)) : Prop :=
  exists items, nc_rep (st_nc s) items /\ contents items = m.

Lemma holds_used s m : holds s m -> map_used m <= NORCOW_SECTOR_SIZE.
Proof.
  intros (items & R & <-). rewrite <- used_live_map by apply (rep_nodup _ _ R).
  pose proof (used_live items). pose proof (rep_fit _ _ R). lia.
Qed.

Lemma entry_size_bound len : 0 <= len -> 4 + len <= entry_size len <= len + 7.
Proof. intros. unfold entry_size. pose proof (pad_range len). lia. Qed.

Lemma map_used_insert m k v : m !! k = None ->
  map_used (<[k := v]> m) = map_used m + entry_size (zlen v).
Proof. intros H. unfold map_used. rewrite map_fold_insert_L; [done|intros; lia|done]. Qed.

Lemma map_used_delete m k v : m !! k = Some v ->
  map_used m = map_used (delete k m) + entry_size (zlen v).
Proof.
  intros H. rewrite <- (map_used_insert _ k) by apply lookup_delete_eq. by rewrite insert_delete_eq, insert_id.
Qed.

Lemma map_used_delete_le m k : map_used (delete k m) <= map_used m.
Proof.
  destruct (m !! k) as [v|] eqn:E; [|by rewrite delete_id].
  rewrite (map_used_delete m k v E). pose proof (entry_size_bound (zlen v) (zlen_nonneg v)).
  pose proof (zlen_nonneg v). lia.
Qed.

Lemma map_used_insert_le m k v : map_used (<[k := v]> m) <= map_used m + entry_size (zlen v).
Proof.
  rewrite <- insert_delete_eq, map_used_insert by apply lookup_delete_eq.
  pose proof (map_used_delete_le m k). lia.
Qed.

Lemma map_used_overwrite m k v v' : m !! k = Some v -> zlen v' = zlen v ->
  map_used (<[k := v']> m) = map_used m.
Proof.
  intros H E. rewrite <- insert_delete_eq, map_used_insert by apply lookup_delete_eq.
  by rewrite E, <- map_used_delete.
Qed.

Lemma get_bytes_ok s m k : holds s m -> valid_key k -> get_bytes k s = Ok (m !! k) s.
Proof.
  intros (items & R & <-) Hk. pose proof (norcow_get_rep _ _ _ R Hk) as H. unfold get_bytes. mstep.
  destruct (contents items !! k) as [v|].
  - destruct H as (p & E & Er). by rewrite (lift_read _ _ _ E), (lift_read _ _ _ Er).
  - by rewrite (lift_read _ _ _ H).
Qed.

(** A new value, given or (for NULL) left erased. *)
Lemma set_ex_ok s m k val len : holds s m -> valid_key k ->
  zlen (data_of val len) = len -> len < 65536 -> Forall is_byte (data_of val len) ->
  exists nc b,
    lift (norcow_set_ex k val len) s = Ok (b, bool_decide (is_Some (m !! k))) (with_nc s nc) /\
    holds (with_nc s nc) (if b then <[k := data_of val len]> m else delete k m) /\
    (map_used (delete k m) + 4 + len <= NORCOW_SECTOR_SIZE -> b = true).
Proof.
  intros (items & R & <-) Hk Hl Hm Hb.
  destruct (norcow_set_ex_rep _ _ _ _ _ R Hk Hl Hm Hb) as (nc & items' & b & E & R' & Ec & Hs).
  exists nc, b. split; [by apply lift_ok|]. split; [by exists items'|].
  intros Hfit. destruct b; [done|]. specialize (Hs eq_refl). lia.
Qed.

Lemma set_val_ok s m k val len : holds s m -> valid_key k ->
  zlen (data_of val len) = len -> len < 65536 -> Forall is_byte (data_of val len) ->
  exists nc b,
    lift (norcow_set k val len) s = Ok b (with_nc s nc) /\
    holds (with_nc s nc) (if b then <[k := data_of val len]> m else delete k m) /\
    (map_used (delete k m) + 4 + len <= NORCOW_SECTOR_SIZE -> b = true).
Proof.
  intros Hm Hk Hl Hmax Hb.
  destruct (set_ex_ok s m k val len Hm Hk Hl Hmax Hb) as (nc & b & E & H & F).
  exists nc, b. split; [|done]. unfold lift in *. unfold norcow_set. mstep.
  destruct (norcow_set_ex k val len (st_nc s)) as [[b' f] nc'|]; [|discriminate].
  revert E. mstep. cbn [fst]. intros E. injection E as -> _ ->. done.
Qed.

Lemma set_ok s m k v len : holds s m -> valid_key k -> Forall is_byte v -> len = zlen v -> len < 65536 ->
  exists nc b,
    lift (norcow_set k (Some v) len) s = Ok b (with_nc s nc) /\
    holds (with_nc s nc) (if b then <[k := v]> m else delete k m) /\
    (map_used (delete k m) + 4 + len <= NORCOW_SECTOR_SIZE -> b = true).
Proof. intros Hm Hk Hb -> Hl. by apply (set_val_ok s m k (Some v)). Qed.

(** Replacing an entry by one of the same length always succeeds. *)
Lemma set_same_ok s m k old v len : holds s m -> valid_key k -> Forall is_byte v -> len = zlen v ->
  m !! k = Some old -> zlen old = len ->
  exists nc, lift (norcow_set k (Some v) len) s = Ok true (with_nc s nc) /\
    holds (with_nc s nc) (<[k := v]> m).
Proof.
  intros Hm Hk Hb Hl Ho Hol.
  assert (Hlen : len < 65536).
  { destruct Hm as (items & R & <-).
    assert (Hin : Forall item_ok items) by apply (rep_ok _ _ R). clear R. rewrite <- Hol.
    induction items as [|it items IH]; cbn [contents] in Ho; [by rewrite lookup_empty in Ho|].
    apply Forall_cons_iff in Hin as [Hit Hin]. destruct (live it); [|auto].
    rewrite lookup_insert in Ho. case_decide; [injection Ho as <-; apply Hit|auto]. }
  destruct (set_ok s m k v len Hm Hk Hb Hl Hlen) as (nc & b & E & H & F).
  pose proof (holds_used s m Hm) as Hu. rewrite (map_used_delete m k old Ho) in Hu.
  pose proof (entry_size_bound (zlen old) (zlen_nonneg old)).
  assert (b = true) as -> by (apply F; lia). by exists nc.
Qed.

Lemma delete_ok s m k : holds s m -> valid_key k ->
  exists nc, lift (norcow_delete k) s = Ok (bool_decide (is_Some (m !! k))) (with_nc s nc) /\
    holds (with_nc s nc) (delete k m).
Proof.
  intros (items & R & <-) Hk. destruct (norcow_delete_rep _ _ _ R Hk) as (nc & items' & E & R' & Ec).
  exists nc. split; [by apply lift_ok|by exists items'].
Qed.

(** Writing bytes into a part of an entry that is still erased. *)
Lemma update_ok s m k p n q data len : holds s m -> valid_key k ->
  m !! k = Some (p ++ zrep n 255 ++ q) -> Forall is_byte data -> n = zlen data -> len = n ->
  exists nc, lift (norcow_update_bytes k (zlen p) data len) s = Ok true (with_nc s nc) /\
    holds (with_nc s nc) (<[k := p ++ data ++ q]> m).
Proof.
  intros (items & R & <-) Hk Hv Hb -> ->. pose proof (zlen_nonneg data).
  destruct (norcow_update_bytes_rep _ items k (zlen p) data _ R Hk Hv) as (nc & items' & E & R' & Ec); auto.
  - apply zlen_nonneg.
  - zlen. pose proof (zlen_nonneg q). lia.
  - rewrite slice_mid; [by apply Forall2_clears_ff|done|zlen].
  - exists nc. split; [by apply lift_ok|]. exists items'. split; [done|].
    rewrite Ec. unfold patch. f_equal. apply Flash.splice_mid; [done|].
    unfold zrep, zlen. rewrite length_replicate. lia.
Qed.

(** ** What a call leaves alone *)

(** All variables but the norcow state, the cached sum, the generator and the
    remaining time and message of the progress display. *)
Record frame (s s' : storage_state) : Prop := {
  fr_init : initialized s' = initialized s;
  fr_unlocked : unlocked s' = unlocked s;
  fr_total : ui_total s' = ui_total s;
  fr_keys : cached_keys s' = cached_keys s;
  fr_salt : hardware_salt s' = hardware_salt s;
  fr_version : Storage.norcow_active_version s' = Storage.norcow_active_version s;
  fr_progress : in_progress s' = in_progress s;
}.

#[global] Instance frame_preorder : PreOrder frame.
Proof.
  split; [by split|]. intros x y z [] []. split; congruence.
Qed.

Lemma frame_nc s nc : frame s (with_nc s nc).
Proof. by split. Qed.
Lemma frame_sum s x : frame s (with_sum s x).
Proof. by split. Qed.

Lemma frame_sak s s' : frame s s' -> cached_sak s' = cached_sak s.
Proof. intros F. unfold cached_sak. by rewrite (fr_keys _ _ F). Qed.
Lemma frame_dek s s' : frame s s' -> cached_dek s' = cached_dek s.
Proof. intros F. unfold cached_dek. by rewrite (fr_keys _ _ F). Qed.

(** ** The authenticated store *)

Definition keys_ok (s : storage_state) : Prop :=
  length (cached_keys s) = 48%nat /\ Forall is_byte (cached_keys s).

Lemma keys_sak s : keys_ok s -> Forall is_byte (cached_sak s) /\ length (cached_sak s) = 16%nat.
Proof.
  intros [Hl Hb]. unfold cached_sak. split; [by apply Forall_drop|]. rewrite length_drop, Hl. done.
Qed.

Record auth_ok (s : storage_state) (m : gmap Z (list Z)) : Prop := {
  ao_holds : holds s m;
  ao_keys : keys_ok s;
  ao_tag : tag_ok (cached_sak s) m;
  ao_sum : authentication_sum s = auth_sum (cached_sak s) m;
}.

(** The map with its tag entry renewed. *)
Definition retag (sak : list Z) (m : gmap Z (list Z)) : gmap Z (list Z) :=
  <[STORAGE_TAG_KEY := auth_tag sak m]> m.

Lemma auth_tag_retag sak m v : auth_tag sak (<[STORAGE_TAG_KEY := v]> m) = auth_tag sak m.
Proof. unfold auth_tag. by rewrite auth_sum_unprotected. Qed.

Lemma retag_id sak m : tag_ok sak m -> retag sak m = m.
Proof. intros H. by apply insert_id. Qed.

Lemma tag_ok_retag sak m : tag_ok sak (retag sak m).
Proof. unfold tag_ok, retag. by rewrite lookup_insert_eq, auth_tag_retag. Qed.

Lemma lookup_retag_ne sak m k : k <> STORAGE_TAG_KEY -> retag sak m !! k = m !! k.
Proof. intros. by apply lookup_insert_ne. Qed.

Lemma auth_sum_same sak m k v v' : auth_sum sak (<[k := v]> m) = auth_sum sak (<[k := v']> m).
Proof. unfold auth_sum. by rewrite !dom_insert_L. Qed.

Lemma retag_insert sak m k v v' : k <> STORAGE_TAG_KEY ->
  <[k := v']> (retag sak (<[k := v]> m)) = retag sak (<[k := v']> m).
Proof.
  intros Hk. unfold retag. rewrite insert_insert_ne, insert_insert_eq by done.
  unfold auth_tag. by rewrite (auth_sum_same _ _ _ v v').
Qed.

Lemma auth_sum_retag sak m : auth_sum sak (retag sak m) = auth_sum sak m.
Proof. by apply auth_sum_unprotected. Qed.

Lemma valid_tag_key : valid_key STORAGE_TAG_KEY.
Proof. done. Qed.

Lemma auth_tag_zlen sak m : Forall is_byte sak -> length sak = 16%nat -> zlen (auth_tag sak m) = 16.
Proof. intros Hb Hl. unfold zlen. by rewrite (proj1 (auth_tag_ok sak Hb Hl m)). Qed.

(** Renewing the tag entry, always possible: the entry exists with its length. *)
Lemma write_tag_ok s m old sum : holds s m -> keys_ok s -> m !! STORAGE_TAG_KEY = Some old ->
  zlen old = 16 -> auth_sum (cached_sak s) m = sum -> authentication_sum s = sum ->
  exists nc, lift (norcow_set STORAGE_TAG_KEY
      (bytes_at (Hmac.hmac_sha256 (cached_sak s) sum) STORAGE_TAG_SIZE) STORAGE_TAG_SIZE) s
    = Ok true (with_nc s nc) /\ auth_ok (with_nc s nc) (retag (cached_sak s) m).
Proof.
  intros Hm Hk Ho Hol Hs Hs'. destruct (keys_sak s Hk) as [Hb Hl]. unfold bytes_at.
  change (Z.to_nat STORAGE_TAG_SIZE) with 16%nat. rewrite <- Hs.
  fold (auth_tag (cached_sak s) m).
  destruct (set_same_ok s m STORAGE_TAG_KEY old (auth_tag (cached_sak s) m) STORAGE_TAG_SIZE) as (nc & E & H');
    try done.
  - apply (auth_tag_ok _ Hb Hl).
  - by rewrite auth_tag_zlen.
  - exists nc. split; [exact E|]. split; [done|done|apply tag_ok_retag|].
    unfold retag. rewrite auth_sum_unprotected by done. cbn [authentication_sum with_nc].
    rewrite Hs', <- Hs. done.
Qed.

Section Auth.
Context (s : storage_state) (m : gmap Z (list Z)) (key : Z).
Context (A : auth_ok s m) (Hkey : valid_key key) (Hne : key <> STORAGE_TAG_KEY).
Local Abbreviation sak := (cached_sak s).

(** [auth_update] after the key came into or left the store [m]. *)
Lemma auth_update_ok s1 m1 : holds s1 m1 -> frame s s1 -> authentication_sum s1 = authentication_sum s ->
  m1 !! STORAGE_TAG_KEY = m !! STORAGE_TAG_KEY ->
  auth_sum sak m1 = (if is_protected key then xor_bytes (auth_sum sak m) (key_tag sak key) else auth_sum sak m) ->
  exists s2, auth_update key s1 = Ok true s2 /\ frame s1 s2 /\ auth_ok s2 (retag sak m1).
Proof.
  intros H1 F Hs Ht Hsum. destruct A as [Hm Hk Htag Has]. destruct (keys_sak s Hk) as [Hb Hl].
  assert (Hk1 : keys_ok s1) by (unfold keys_ok; by rewrite (fr_keys _ _ F)).
  unfold auth_update. destruct (is_protected key) eqn:Ep; cbn [negb].
  - mstep. unfold set_authentication_sum. mstep.
    change (StorageState (st_nc s1) _ _ _ _ _ _ _ _ _ _ _)
      with (with_sum s1 (zip_with Z.lxor (authentication_sum s1) (Hmac.hmac_sha256 (cached_sak s1) (le_bytes 2 key)))).
    set (x := zip_with _ _ _).
    assert (Hx : x = auth_sum sak m1).
    { rewrite Hsum. unfold x. rewrite Hs, Has, (frame_sak _ _ F). done. }
    change (cached_sak (with_sum s1 x)) with (cached_sak s1).
    change (authentication_sum (with_sum s1 x)) with x. clearbody x. subst x.
    rewrite <- (frame_sak s s1) in Hb, Hl, Htag, Hsum |- * by done.
    destruct (write_tag_ok (with_sum s1 (auth_sum (cached_sak s1) m1)) m1 (auth_tag (cached_sak s1) m)
      (auth_sum (cached_sak s1) m1)) as (nc & E & A'); try done.
    + by rewrite Ht.
    + by apply auth_tag_zlen.
    + eexists. split; [exact E|]. split; [by split|exact A'].
  - exists s1. split; [done|]. split; [done|].
    assert (E : retag sak m1 = m1).
    { apply retag_id. unfold tag_ok. rewrite Ht, Htag. unfold auth_tag. by rewrite Hsum. }
    rewrite E. split; rewrite ?(frame_sak _ _ F), ?Hs; [done|done| |by rewrite Hsum].
    unfold tag_ok. rewrite Ht, Htag. unfold auth_tag. by rewrite Hsum.
Qed.

(** [auth_set] with room for the entry keeps the tag right. *)
Lemma auth_set_ok val len : zlen (data_of val len) = len -> len < 65536 -> Forall is_byte (data_of val len) ->
  map_used (delete key m) + 4 + len <= NORCOW_SECTOR_SIZE ->
  exists s', auth_set key val len s = Ok true s' /\ frame s s' /\
    auth_ok s' (retag sak (<[key := data_of val len]> m)).
Proof.
  intros Hl Hm Hb Hfit. pose proof A as [Hh Hk Htag Has].
  destruct (set_ex_ok s m key val len Hh Hkey Hl Hm Hb) as (nc & b & E & H & Hfb).
  rewrite (Hfb Hfit) in *. clear Hfb. unfold auth_set. mstep. rewrite E.
  assert (Ht : <[key := data_of val len]> m !! STORAGE_TAG_KEY = m !! STORAGE_TAG_KEY)
    by (by rewrite lookup_insert_ne).
  destruct (m !! key) as [old|] eqn:Eo.
  - rewrite bool_decide_true by done. cbn [andb negb]. eexists. split; [done|]. split; [apply frame_nc|].
    assert (Ea : auth_sum sak (<[key := data_of val len]> m) = auth_sum sak m)
      by (apply auth_sum_overwrite; by rewrite Eo).
    assert (Er : tag_ok sak (<[key := data_of val len]> m))
      by (unfold tag_ok, auth_tag; rewrite Ht, Ea; exact Htag).
    rewrite retag_id by done. split; [done|done|exact Er|].
    change (authentication_sum s = auth_sum sak (<[key := data_of val len]> m)). by rewrite Ea.
  - rewrite bool_decide_false by (intros [? ?]; discriminate). cbn [andb negb].
    destruct (auth_update_ok (with_nc s nc) _ H (frame_nc s nc) eq_refl Ht) as (s2 & E2 & F2 & A2).
    { by apply auth_sum_new. }
    mstep. rewrite E2. cbn [negb]. exists s2. split; [done|]. split; [|done].
    by transitivity (with_nc s nc).
Qed.

End Auth.

(** ** Random bytes *)

Definition with_rng (s : storage_state) (n : nat) : storage_state :=
  StorageState (st_nc s) (initialized s) (unlocked s) (ui_total s) (ui_rem s) (ui_message s)
    (cached_keys s) (authentication_sum s) (hardware_salt s) (Storage.norcow_active_version s)
    (in_progress s) n.

Lemma frame_rng s n : frame s (with_rng s n).
Proof. by split. Qed.

Section Ops.
Context (random : nat -> Z) (rng_fuel : nat).

Ltac divlia := zify; Z.to_euclidean_division_equations; lia.

(** Byte [i] of a buffer that starts at word [p] of the generator. *)
Definition draw_byte (p : nat) (i : Z) : Z :=
  Z.shiftr (random (p + Z.to_nat (i / 4))) ((i mod 4) * 8) .& 0xFF.

(** The bytes are consecutive output of the generator. *)
Definition drawn (len : Z) (bs : list Z) : Prop := exists p, bs = map (draw_byte p) (seqZ 0 len).

Lemma draw_byte_ok p i : is_byte (draw_byte p i).
Proof.
  unfold draw_byte. change 0xFF with (Z.ones 8). rewrite Z.land_ones by lia. apply Z.mod_pos_bound. lia.
Qed.

Lemma drawn_ok len bs : 0 <= len -> drawn len bs -> zlen bs = len /\ Forall is_byte bs.
Proof.
  intros Hl [p ->]. split; [unfold zlen; rewrite length_map, length_seqZ; lia|].
  apply Forall_map, Forall_forall. intros i _. apply draw_byte_ok.
Qed.

Lemma random_buffer_loop_ok k p : forall i r s, 0 <= i -> rng_pos s = (p + Z.to_nat ((i + 3) / 4))%nat ->
  (i mod 4 <> 0 -> r = random (p + Z.to_nat (i / 4))) -> exists n,
  random_buffer_loop random k i r s = Ok (map (draw_byte p) (seqZ i (Z.of_nat k))) (with_rng s n).
Proof.
  induction k as [|k IH]; intros i r s Hi Hp Hr; cbn [random_buffer_loop]; mstep.
  { exists (rng_pos s). by destruct s. }
  rewrite seqZ_cons by lia. replace (Z.pred (Z.of_nat (S k))) with (Z.of_nat k) by lia. cbn [map].
  destruct (Z.eqb_spec (i mod 4) 0) as [Hz|Hz].
  - unfold random32, set_rng_pos. mstep.
    destruct (IH (Z.succ i) (random (rng_pos s)) (with_rng s (S (rng_pos s)))) as (n & E); [lia|cbn; rewrite Hp; divlia|intros _; f_equal; divlia|].
    revert E. unfold with_rng at 1. cbn -[random_buffer_loop map]. change (i + 1) with (Z.succ i). intros ->.
    exists n. unfold mret, M_ret, draw_byte. rewrite Hp. do 5 f_equal. divlia.
  - destruct (IH (Z.succ i) r s) as (n & E); [lia|rewrite Hp; divlia|intros Hs; rewrite Hr by lia; f_equal; divlia|].
    change (i + 1) with (Z.succ i). rewrite E. exists n. unfold draw_byte at 2. by rewrite Hr.
Qed.

Lemma random_buffer_ok len s : 0 <= len -> exists bs n,
  random_buffer random len s = Ok bs (with_rng s n) /\ zlen bs = len /\ Forall is_byte bs /\ drawn len bs.
Proof.
  intros Hlen. destruct (random_buffer_loop_ok (Z.to_nat len) (rng_pos s) 0 0 s) as (n & E); [lia|change (Z.to_nat ((0 + 3) / 4)) with 0%nat; lia|done|].
  rewrite Z2Nat.id in E by lia. eexists _, n. split; [exact E|].
  assert (D : drawn len (map (draw_byte (rng_pos s)) (seqZ 0 len))) by (by eexists).
  destruct (drawn_ok _ _ Hlen D). done.
Qed.

(** ** Encryption in blocks *)

(** What is stored for a protected value. *)
Definition enc_entry (dek iv : list Z) (key : Z) (val : list Z) : list Z :=
  let c := rfc_cipher dek iv val in
  iv ++ rfc_tag dek iv (le_bytes 2 key) c ++ c.

Lemma u64 : (64 : Z) = 32 \/ (64 : Z) = 64.
Proof. by right. Qed.

Section Blocks.
Context (dek iv : list Z) (key : Z) (Hkey : valid_key key).

Definition crypt_at (n : nat) (val : list Z) : list Z :=
  xor_bytes val (keystream (nblocks (length val))
    (Nat.iter n next_counter (next_counter (rfc_input dek iv)))).

Lemma crypt_at_ok n val : Forall is_byte val ->
  length (crypt_at n val) = length val /\ Forall is_byte (crypt_at n val).
Proof.
  intros Hb. split; [|apply xor_bytes_bytes; [done|apply keystream_bytes]].
  apply xor_bytes_length. rewrite keystream_length by apply j1_ok.
  pose proof (nblocks_spec (length val)). lia.
Qed.

(** One [chacha20poly1305_encrypt] and the write of its output. *)
Lemma write_block s m p q ctx n authed blk len :
  holds s m -> m !! key = Some (p ++ zrep (zlen blk) 255 ++ q) -> Forall is_byte blk ->
  aead_rep dek iv n authed ctx -> len = zlen blk ->
  exists ctx' nc, chacha20poly1305_encrypt 64 ctx blk = (ctx', crypt_at n blk) /\
    lift (norcow_update_bytes key (zlen p) (crypt_at n blk) len) s = Ok true (with_nc s nc) /\
    holds (with_nc s nc) (<[key := p ++ crypt_at n blk ++ q]> m) /\
    aead_rep dek iv (nblocks (length blk) + n) (authed ++ crypt_at n blk) ctx'.
Proof.
  intros Hm Hv Hb R ->. destruct (crypt_step 64 u64 dek iv true n authed ctx blk R Hb) as (ctx' & E & R').
  cbn zeta in E, R'. fold (crypt_at n blk) in E, R'. destruct (crypt_at_ok n blk Hb) as [Hl Hcb].
  destruct (update_ok s m key p (zlen blk) q (crypt_at n blk) (zlen blk)) as (nc & E1 & H1); try done.
  { unfold zlen. by rewrite Hl. }
  by exists ctx', nc.
Qed.

Lemma set_blocks_ok fuel : forall val s m p ctx n authed,
  holds s m -> m !! key = Some (p ++ zrep (zlen val) 255) -> zlen p + zlen val < 65536 ->
  Forall is_byte val -> aead_rep dek iv n authed ctx -> (length val <= fuel)%nat ->
  exists nc ctx' k, set_blocks fuel key ctx val (zlen p) s = Ok (true, ctx') (with_nc s nc) /\
    holds (with_nc s nc) (<[key := p ++ crypt_at n val]> m) /\
    aead_rep dek iv k (authed ++ crypt_at n val) ctx'.
Proof.
  assert (Hlast : forall val s m p ctx n authed, holds s m -> m !! key = Some (p ++ zrep (zlen val) 255) ->
    Forall is_byte val -> aead_rep dek iv n authed ctx ->
    exists nc ctx' k, (let '(ctx, buffer) := chacha20poly1305_encrypt 64 ctx val in
      ret ← lift (norcow_update_bytes key (zlen p) buffer (zlen val)); mret (ret, ctx)) s
      = Ok (true, ctx') (with_nc s nc) /\
    holds (with_nc s nc) (<[key := p ++ crypt_at n val]> m) /\
    aead_rep dek iv k (authed ++ crypt_at n val) ctx').
  { intros val s m p ctx n authed Hm Hv Hb R.
    destruct (write_block s m p [] ctx n authed val (zlen val)) as (ctx' & nc & E & E1 & H1 & R'); auto.
    { by rewrite app_nil_r. }
    rewrite E. mstep. rewrite E1. rewrite app_nil_r in H1. by exists nc, ctx', (nblocks (length val) + n)%nat. }
  induction fuel as [|fuel IH]; intros val s m p ctx n authed Hm Hv Hsz Hb R Hf; cbn [set_blocks];
    change CHACHA20_BLOCK_SIZE with 64; destruct (Z.ltb_spec 64 (zlen val)) as [Hlt|Hge];
    [unfold zlen in Hlt; lia|by apply Hlast| |by apply Hlast].
  pose proof (zlen_nonneg p) as Hp0.
  set (blk := take 64 val). set (rest := drop 64 val).
  assert (Hval : val = blk ++ rest) by (unfold blk, rest; by rewrite take_drop).
  assert (Hbl : length blk = 64%nat) by (unfold blk; rewrite length_take; unfold zlen in Hlt; lia).
  assert (Hbz : zlen blk = 64) by (unfold zlen; by rewrite Hbl).
  assert (Hrz : zlen val = 64 + zlen rest) by (rewrite Hval, zlen_app; lia).
  rewrite Hval in Hb. apply Forall_app in Hb as [Hbb Hrb].
  destruct (write_block s m p (zrep (zlen rest) 255) ctx n authed blk 64) as (c1 & nc & E & E1 & H1 & R1); auto.
  { rewrite Hv, Hbz, Hrz, zrep_app by (lia || apply zlen_nonneg). done. }
  rewrite E. mstep. rewrite E1. cbn [negb].
  assert (Hz1 : zlen (p ++ crypt_at n blk) = zlen p + 64).
  { rewrite zlen_app. unfold zlen at 2. rewrite (proj1 (crypt_at_ok n blk Hbb)), Hbl. done. }
  rewrite u16_small by (pose proof (zlen_nonneg rest); lia).
  rewrite <- Hz1. pose proof (zlen_nonneg rest) as Hr0.
  destruct (IH rest (with_nc s nc) (<[key := p ++ crypt_at n blk ++ zrep (zlen rest) 255]> m)
    (p ++ crypt_at n blk) c1 (nblocks (length blk) + n)%nat (authed ++ crypt_at n blk) H1) as (nc2 & c2 & k & E2 & H2 & R2); try done.
  - by rewrite lookup_insert_eq, <- app_assoc.
  - lia.
  - unfold rest. rewrite length_drop. unfold zlen in Hlt. lia.
  - rewrite E2. exists nc2, c2, k. split; [done|].
    assert (Es : crypt_at n val = crypt_at n blk ++ crypt_at (nblocks (length blk) + n) rest).
    { unfold crypt_at. rewrite Hval at 1 2. rewrite keystream_split by (apply j1_ok || by rewrite Hbl).
      by rewrite <- Nat.iter_add. }
    rewrite Es, app_assoc, app_assoc. split; [|done]. by rewrite insert_insert_eq in H2.
Qed.

End Blocks.

(** Writing into an entry that exists leaves the tag right. *)
Lemma auth_ok_patch s s1 s2 m key v v' : let sak := cached_sak s in
  frame s s1 -> auth_ok s1 (retag sak (<[key := v]> m)) -> key <> STORAGE_TAG_KEY ->
  frame s1 s2 -> authentication_sum s2 = authentication_sum s1 ->
  holds s2 (<[key := v']> (retag sak (<[key := v]> m))) ->
  auth_ok s2 (retag sak (<[key := v']> m)).
Proof.
  intros sak F1 [_ Hk _ Hs] Hne F Es H. rewrite retag_insert in H by done.
  assert (Ek : cached_sak s2 = sak) by (rewrite (frame_sak _ _ F); by apply frame_sak).
  split; rewrite ?Ek; [done| |apply tag_ok_retag|].
  - unfold keys_ok. by rewrite (fr_keys _ _ F).
  - rewrite Es, Hs, (frame_sak _ _ F1). fold sak. rewrite !auth_sum_retag. apply auth_sum_same.
Qed.

Lemma fits_len m len : 4 + len + map_used m <= NORCOW_SECTOR_SIZE -> len < 65536.
Proof.
  intros H. assert (NORCOW_STORAGE_START <= map_used m).
  { clear H. induction m as [|k v m Hk IH] using map_ind; [done|]. rewrite map_used_insert by done.
    pose proof (entry_size_bound (zlen v) (zlen_nonneg v)). pose proof (zlen_nonneg v). lia. }
  change NORCOW_STORAGE_START with 8 in *. change NORCOW_SECTOR_SIZE with 65536 in *. lia.
Qed.

Lemma storage_set_encrypted_ok s m key val :
  auth_ok s m -> valid_key key -> key <> STORAGE_TAG_KEY -> Forall is_byte val ->
  map_used (delete key m) + 4 + (28 + zlen val) <= NORCOW_SECTOR_SIZE ->
  exists s' iv, storage_set_encrypted random key val s = Ok true s' /\ frame s s' /\
    zlen iv = 12 /\ Forall is_byte iv /\
    auth_ok s' (retag (cached_sak s) (<[key := enc_entry (cached_dek s) iv key val]> m)).
Proof.
  intros A Hkey Hne Hb Hfit. pose proof (zlen_nonneg val) as Hv0.
  assert (Hlen : 28 + zlen val < 65536) by (apply (fits_len (delete key m)); lia).
  unfold storage_set_encrypted.
  change (UINT16_MAX - CHACHA20_IV_SIZE - POLY1305_TAG_SIZE) with 65507. zif.
  change (CHACHA20_IV_SIZE + POLY1305_TAG_SIZE) with 28. change CHACHA20_IV_SIZE with 12.
  change POLY1305_TAG_SIZE with 16.
  destruct (auth_set_ok s m key A Hkey Hne None (28 + zlen val)) as (s1 & E1 & F1 & A1);
    [cbn [data_of]; zlen|lia|apply Forall_zrep; unfold is_byte; lia|done|].
  cbn [data_of] in A1. mstep. rewrite E1. cbn [negb].
  destruct (random_buffer_ok 12 s1 ltac:(lia)) as (iv & n & Er & Hivl & Hivb & _). rewrite Er.
  set (m1 := retag _ _) in A1. set (s2 := with_rng s1 n).
  assert (H2 : holds s2 m1) by apply (ao_holds _ _ A1).
  assert (L1 : m1 !! key = Some (zrep (28 + zlen val) 255))
    by (unfold m1; by rewrite lookup_retag_ne, lookup_insert_eq).
  destruct (update_ok s2 m1 key [] 12 (zrep (16 + zlen val) 255) iv 12) as (nc3 & E3 & H3); try done.
  { rewrite L1, app_nil_l, <- zrep_app by lia. do 2 f_equal. lia. }
  change (zlen []) with 0 in E3. rewrite E3. cbn [negb app] in H3 |- *.
  assert (Ed : cached_dek (with_nc s2 nc3) = cached_dek s) by (apply frame_dek in F1; exact F1).
  rewrite Ed. set (dek := cached_dek s) in *.
  assert (R0 := auth_rep 64 u64 dek iv 0 [] _ (le_bytes 2 key) (init_rep dek iv) (le_bytes_byte 2 key)).
  rewrite app_nil_l in R0.
  assert (Hp : zlen (iv ++ zrep 16 255) = 28) by (zlen).
  destruct (set_blocks_ok dek iv key Hkey (length val) val (with_nc s2 nc3) _ (iv ++ zrep 16 255)
    (rfc7539_auth 64 (rfc7539_init dek iv) (le_bytes 2 key)) 0 (pad16 (le_bytes 2 key)) H3)
    as (nc4 & ctx & k & E4 & H4 & R4); try done.
  { rewrite lookup_insert_eq, <- app_assoc. by rewrite <- zrep_app by lia. }
  { lia. }
  rewrite Hp in E4. rewrite E4. rewrite insert_insert_eq in H4.
  change (crypt_at dek iv 0 val) with (rfc_cipher dek iv val) in H4, R4. set (c := rfc_cipher dek iv val) in *.
  assert (Hcl : zlen c = zlen val) by (unfold zlen; f_equal; apply rfc_cipher_length).
  pose proof (finish_rep 64 u64 dek iv k (le_bytes 2 key) c ctx R4) as Ef.
  rewrite zlen_le_bytes, Hcl in Ef. change (Z.of_nat 2) with 2 in Ef. rewrite Ef.
  destruct (rfc_tag_ok dek iv (le_bytes 2 key) c) as [Htl Htb].
  destruct (update_ok (with_nc (with_nc s2 nc3) nc4) _ key iv 16 c (rfc_tag dek iv (le_bytes 2 key) c) 16 H4 Hkey)
    as (nc5 & E5 & H5); try done.
  { by rewrite lookup_insert_eq, <- app_assoc. }
  rewrite Hivl in E5. rewrite E5. rewrite insert_insert_eq in H5.
  eexists _, iv. split; [done|]. split; [by destruct F1; split|]. split; [done|]. split; [done|].
  apply (auth_ok_patch s s1 _ m key (zrep (28 + zlen val) 255)); done.
Qed.

(** ** Decryption *)

Definition found (r : option (list Z)) (dest : option Z) : get_result :=
  match r with
  | None => GetResult false (Some 0) None
  | Some v =>
      match dest with
      | None => GetResult true (Some (zlen v)) None
      | Some max_len =>
          if max_len <? zlen v then GetResult false (Some (zlen v)) None
          else GetResult true (Some (zlen v)) (Some v)
      end
  end.

(** A protected entry of the store and the value it stands for. *)
Definition sealed (dek : list Z) (key : Z) (e val : list Z) : Prop :=
  exists iv, zlen iv = 12 /\ Forall is_byte iv /\ Forall is_byte val /\ e = enc_entry dek iv key val.

Lemma storage_get_encrypted_ok s m key v dest :
  holds s m -> keys_ok s -> tag_ok (cached_sak s) m ->
  match v with
  | None => m !! key = None
  | Some val => exists e, m !! key = Some e /\ sealed (cached_dek s) key e val
  end ->
  storage_get_encrypted random rng_fuel key dest s
  = Ok (found v dest) (with_sum s (auth_sum (cached_sak s) m)).
Proof.
  intros (items & R & <-) Hk Htag Hv. destruct (keys_sak s Hk) as [Hb Hl].
  pose proof (auth_get_rep random rng_fuel s items R Hb Hl key Htag) as G.
  unfold storage_get_encrypted. mstep. destruct v as [val|].
  2:{ rewrite Hv in G. by rewrite G. }
  destruct Hv as (e & He & iv & Hivl & Hivb & Hvb & Ee). rewrite He in G.
  destruct G as (pre & it & post & Hit & Hd & ->).
  set (s' := with_sum s _). unfold enc_entry in Ee. set (dek := cached_dek s) in *.
  set (c := rfc_cipher dek iv val) in *. destruct (rfc_tag_ok dek iv (le_bytes 2 key) c) as [Htl _].
  assert (Hcl : zlen c = zlen val) by (unfold zlen; f_equal; apply rfc_cipher_length).
  assert (Hel : zlen e = 28 + zlen val) by (rewrite Ee, !zlen_app; lia).
  pose proof (zlen_nonneg val) as Hv0. rewrite Hel.
  change (CHACHA20_IV_SIZE + POLY1305_TAG_SIZE) with 28. zif. replace (28 + zlen val - 28) with (zlen val) by lia.
  destruct dest as [max_len|]; [|done]. cbn [found]. destruct (max_len <? zlen val); [done|]. mstep.
  rewrite Hit in R.
  assert (Hr : forall a n, 0 <= a -> 0 <= n -> a + n <= zlen e ->
    lift (ptr_read (norcow_active_sector (st_nc s')) (pos pre + 4 + a) n) s' = Ok (slice e a n) s').
  { intros a n Ha Hn Han. apply lift_read. rewrite <- Hd. apply (ptr_read_entry _ pre it post R); [done|done|].
    by rewrite Hd. }
  change CHACHA20_IV_SIZE with 12. change POLY1305_TAG_SIZE with 16.
  rewrite <- (Z.add_0_r (pos pre + 4)) at 1. rewrite Hr by lia.
  rewrite Hr by lia. rewrite <- (Z.add_assoc (pos pre + 4) 12 16). rewrite Hr by lia.
  assert (S1 : slice e 0 12 = iv) by (rewrite Ee; by apply (slice_mid [])).
  assert (S2 : slice e 12 16 = rfc_tag dek iv (le_bytes 2 key) c) by (rewrite Ee; by apply slice_mid).
  assert (S3 : slice e (12 + 16) (zlen val) = c).
  { replace e with ((iv ++ rfc_tag dek iv (le_bytes 2 key) c) ++ c ++ [])
      by (by rewrite app_nil_r, <- app_assoc).
    apply slice_mid; [rewrite zlen_app; lia|done]. }
  rewrite S1, S2, S3. change (cached_dek s') with dek.
  assert (Hcb : Forall is_byte c) by (by apply rfc_cipher_bytes).
  destruct (rfc7539_decrypt_eq 64 u64 dek iv (le_bytes 2 key) [c] (le_bytes_byte 2 key)) as (ctx & E & T);
    [by constructor|done|]. cbn [concat] in E, T. rewrite app_nil_r in E, T.
  cbn [crypt_all] in E. destruct (chacha20poly1305_decrypt 64 _ c) as [ctx' val'].
  rewrite app_nil_r in E. injection E as -> ->.
  assert (Ei : rfc_cipher dek iv c = val) by apply rfc_cipher_involutive. rewrite Ei.
  rewrite zlen_le_bytes, Hcl in T. change (Z.of_nat 2) with 2 in T. rewrite T.
  rewrite secequal_spec, bool_decide_true by (done || lia). done.
Qed.

(** ** The store as a map of values *)

(** The keys callers may use: a nonzero APP, and not the free marker of norcow. *)
Definition user_key (k : Z) : Prop := 256 <= k < 65535.
Definition is_public (k : Z) : bool := negb (u8 (Z.shiftr k 8) .& FLAG_PUBLIC =? 0).

Definition entry_rep (dek : list Z) (m a : gmap Z (list Z)) (k : Z) : Prop :=
  match a !! k with
  | None => m !! k = None
  | Some v => exists e, m !! k = Some e /\
      if is_public k then e = v /\ Forall is_byte v else sealed dek k e v
  end.

(** The unlocked storage with contents [m] stands for the map [a]. *)
Record st_rep (s : storage_state) (m a : gmap Z (list Z)) : Prop := {
  sr_init : initialized s = true;
  sr_unlocked : unlocked s = true;
  sr_auth : auth_ok s m;
  sr_entries : forall k, user_key k -> entry_rep (cached_dek s) m a k;
}.

Lemma user_valid k : user_key k -> valid_key k /\ k <> STORAGE_TAG_KEY.
Proof. unfold user_key, valid_key, NORCOW_KEY_FREE. change STORAGE_TAG_KEY with 5. lia. Qed.

Lemma user_app k : user_key k -> (u8 (Z.shiftr k 8) =? APP_STORAGE) = false.
Proof.
  clear rng_fuel. intros Hk. unfold user_key in Hk. rewrite Z.shiftr_div_pow2 by lia. change (2 ^ 8) with 256.
  rewrite u8_small by zlia. change APP_STORAGE with 0. apply Z.eqb_neq. zlia.
Qed.

Lemma user_protected k : user_key k -> is_protected k = negb (is_public k).
Proof.
  intros Hk. unfold is_protected, is_public. rewrite user_app by done. cbn [negb].
  by rewrite negb_involutive, andb_true_r.
Qed.

Lemma st_rep_user s m a k : st_rep s m a -> user_key k ->
  match a !! k with
  | None => m !! k = None
  | Some v => exists e, m !! k = Some e /\
      if is_public k then e = v /\ Forall is_byte v else sealed (cached_dek s) k e v
  end.
Proof. intros R. apply (sr_entries _ _ _ R). Qed.

Lemma st_rep_same_sum s m a : st_rep s m a -> with_sum s (auth_sum (cached_sak s) m) = s.
Proof. intros R. rewrite <- (ao_sum _ _ (sr_auth _ _ _ R)). by destruct s. Qed.

Lemma storage_get_public s m k dest : holds s m -> initialized s = true -> user_key k -> is_public k = true ->
  storage_get random rng_fuel k dest s = Ok (found (m !! k) dest) s.
Proof.
  intros (items & Rn & <-) Hi Hk Hp. destruct (user_valid k Hk) as [Hvk _]. unfold storage_get. mstep.
  rewrite Hi, user_app by done. cbn [negb orb]. fold (is_public k). rewrite Hp.
  pose proof (norcow_get_rep _ _ _ Rn Hvk) as G. destruct (contents items !! k) as [v|].
  - destruct G as (p & E & Er). rewrite (lift_read _ _ _ E). destruct dest as [max_len|]; [|done].
    cbn [found]. destruct (max_len <? zlen v); [done|]. by rewrite (lift_read _ _ _ Er).
  - by rewrite (lift_read _ _ _ G).
Qed.

Lemma storage_get_ok s m a k dest : st_rep s m a -> user_key k ->
  storage_get random rng_fuel k dest s = Ok (found (a !! k) dest) s.
Proof.
  intros R Hk. pose proof (st_rep_user _ _ _ _ R Hk) as Hv. destruct (user_valid k Hk) as [Hvk _].
  pose proof (sr_auth _ _ _ R) as A. destruct (is_public k) eqn:Ep.
  - rewrite (storage_get_public s m) by (done || apply A || apply R). do 2 f_equal.
    destruct (a !! k) as [v|]; [|done]. by destruct Hv as (e & -> & -> & _).
  - unfold storage_get. mstep. rewrite (sr_init _ _ _ R), user_app by done. cbn [negb orb].
    fold (is_public k). rewrite Ep, (sr_unlocked _ _ _ R). cbn [negb].
    rewrite (storage_get_encrypted_ok s m k (a !! k) dest); [by rewrite (st_rep_same_sum s m a)|apply A..|done].
Qed.

(** Renewing the tag entry takes no space. *)
Lemma map_used_retag sak m : Forall is_byte sak -> length sak = 16%nat ->
  (exists old, m !! STORAGE_TAG_KEY = Some old /\ zlen old = 16) -> map_used (retag sak m) = map_used m.
Proof.
  intros Hb Hl (old & Ho & Hol). apply (map_used_overwrite m _ old); [done|].
  by rewrite Hol, auth_tag_zlen.
Qed.

Lemma tag_entry s m : auth_ok s m -> exists old, m !! STORAGE_TAG_KEY = Some old /\ zlen old = 16.
Proof.
  intros [_ Hk Ht _]. destruct (keys_sak s Hk). eexists. split; [exact Ht|by apply auth_tag_zlen].
Qed.

(** The map after a user entry changed, whatever happened to the other entries of
    the store. *)
Lemma st_rep_update s s' m m' a a' k : st_rep s m a -> frame s s' -> auth_ok s' m' -> user_key k ->
  (forall j, j <> k -> a' !! j = a !! j) -> (forall j, user_key j -> j <> k -> m' !! j = m !! j) ->
  entry_rep (cached_dek s) m' a' k -> st_rep s' m' a'.
Proof.
  intros R F A Hk Ha Hm Hr. split.
  - rewrite (fr_init _ _ F). apply R.
  - rewrite (fr_unlocked _ _ F). apply R.
  - done.
  - intros j Hj. rewrite (frame_dek _ _ F). destruct (decide (j = k)) as [->|Hne]; [done|].
    unfold entry_rep. rewrite Ha, Hm by done. apply (sr_entries _ _ _ R j Hj).
Qed.

Lemma entry_size_mono x y : 0 <= x <= y -> entry_size x <= entry_size y.
Proof. intros. unfold entry_size, pad. zlia. Qed.

(** The reserved entries other than the tag are not touched by user operations. *)
Definition same_reserved (m m' : gmap Z (list Z)) : Prop :=
  forall j, j < 256 -> j <> STORAGE_TAG_KEY -> m' !! j = m !! j.

Lemma same_reserved_trans m1 m2 m3 : same_reserved m1 m2 -> same_reserved m2 m3 -> same_reserved m1 m3.
Proof. intros H1 H2 j Hj Hn. by rewrite H2, H1. Qed.

(** Room for a value, encrypted or not. *)
Definition room (m : gmap Z (list Z)) (len : Z) : Prop :=
  map_used m + entry_size (28 + len) <= NORCOW_SECTOR_SIZE.

Lemma storage_set_ok s m a k v : st_rep s m a -> user_key k -> Forall is_byte v -> room m (zlen v) ->
  exists s' m', storage_set random k v s = Ok true s' /\ frame s s' /\ st_rep s' m' (<[k := v]> a) /\
    map_used m' <= map_used m + entry_size (28 + zlen v) /\ same_reserved m m'.
Proof.
  intros R Hk Hb Hroom. unfold room in Hroom. destruct (user_valid k Hk) as [Hvk Hne].
  pose proof (sr_auth _ _ _ R) as A. pose proof (zlen_nonneg v) as Hv0.
  pose proof (map_used_delete_le m k) as Hd. pose proof (entry_size_bound (28 + zlen v) ltac:(lia)) as Hes.
  destruct (keys_sak s (ao_keys _ _ A)) as [Hsb Hsl].
  unfold storage_set, write_refused. mstep.
  rewrite (sr_init _ _ _ R), user_app, (sr_unlocked _ _ _ R) by done. cbn [negb orb andb].
  fold (is_public k). destruct (is_public k) eqn:Ep.
  - destruct (set_ok s m k v (zlen v)) as (nc & b & E & H & Hf); [apply A|done|done|done| |].
    { apply (fits_len (delete k m)). lia. }
    rewrite Hf in * by lia. rewrite E. eexists _, (<[k := v]> m). split; [done|]. split; [apply frame_nc|]. split.
    2:{ pose proof (map_used_insert_le m k v). pose proof (entry_size_mono (zlen v) (28 + zlen v) ltac:(lia)).
        split; [lia|]. intros j Hj _. apply lookup_insert_ne. unfold user_key in Hk. lia. }
    assert (Ea : auth_sum (cached_sak s) (<[k := v]> m) = auth_sum (cached_sak s) m)
      by (apply auth_sum_unprotected; by rewrite user_protected, Ep).
    apply (st_rep_update s _ m _ a _ k R (frame_nc s nc)); [|done| | |].
    + split; [done|apply A| |].
      * change (tag_ok (cached_sak s) (<[k := v]> m)). unfold tag_ok, auth_tag.
        rewrite lookup_insert_ne, Ea by done. apply A.
      * change (authentication_sum s = auth_sum (cached_sak s) (<[k := v]> m)). rewrite Ea. apply A.
    + intros j Hj. by rewrite lookup_insert_ne.
    + intros j _ Hj. by rewrite lookup_insert_ne.
    + unfold entry_rep. rewrite !lookup_insert_eq, Ep. by exists v.
  - destruct (storage_set_encrypted_ok s m k v A Hvk Hne Hb) as (s' & iv & E & F & Hivl & Hivb & A'); [lia|].
    set (e := enc_entry _ _ _ _) in A'. rewrite E. eexists _, _. split; [done|]. split; [done|]. split.
    + apply (st_rep_update s _ m _ a _ k R F A'); [done| | |].
      * intros j Hj. by rewrite lookup_insert_ne.
      * intros j Hjk Hj. rewrite lookup_retag_ne by apply (user_valid j Hjk). by rewrite lookup_insert_ne.
      * unfold entry_rep. rewrite lookup_insert_eq, Ep, lookup_retag_ne, lookup_insert_eq by done.
        exists e. split; [done|]. by exists iv.
    + split; [|intros j Hj Hjt; rewrite lookup_retag_ne by done; apply lookup_insert_ne; unfold user_key in Hk; lia].
      rewrite map_used_retag; [|done|done|].
      2:{ rewrite lookup_insert_ne by done. apply (tag_entry s m A). }
      etransitivity; [apply map_used_insert_le|].
      assert (zlen e = 28 + zlen v) as ->; [|lia].
      unfold e, enc_entry. rewrite !zlen_app, (proj1 (rfc_tag_ok _ _ _ _)).
      unfold zlen at 2. rewrite rfc_cipher_length. unfold zlen in *. lia.
Qed.

Lemma storage_delete_ok s m a k : st_rep s m a -> user_key k ->
  exists s' m', storage_delete k s = Ok (bool_decide (is_Some (a !! k))) s' /\ frame s s' /\
    st_rep s' m' (delete k a) /\ map_used m' <= map_used m /\ same_reserved m m'.
Proof.
  intros R Hk. destruct (user_valid k Hk) as [Hvk Hne]. pose proof (sr_auth _ _ _ R) as A.
  pose proof (map_used_delete_le m k) as Hd. destruct (keys_sak s (ao_keys _ _ A)) as [Hsb Hsl].
  pose proof (st_rep_user _ _ _ _ R Hk) as He.
  unfold storage_delete, write_refused. mstep.
  rewrite (sr_init _ _ _ R), user_app, (sr_unlocked _ _ _ R) by done. cbn [negb orb andb].
  destruct (delete_ok s m k (ao_holds _ _ A) Hvk) as (nc & E & H). rewrite E.
  destruct (a !! k) as [v|] eqn:Ea.
  - destruct He as (e & Hme & _). rewrite Hme, !bool_decide_true by done.
    destruct (auth_update_ok s m k A (with_nc s nc) (delete k m) H (frame_nc s nc) eq_refl)
      as (s2 & E2 & F2 & A2).
    { by rewrite lookup_delete_ne. }
    { apply auth_sum_delete; [done|done|by rewrite Hme]. }
    rewrite E2. eexists _, _. split; [done|]. split; [by transitivity (with_nc s nc)|]. split.
    + apply (st_rep_update s _ m _ a _ k R); [by transitivity (with_nc s nc)|exact A2|done| | |].
      * intros j Hj. by rewrite lookup_delete_ne.
      * intros j Hjk Hj. rewrite lookup_retag_ne by apply (user_valid j Hjk). by rewrite lookup_delete_ne.
      * unfold entry_rep. by rewrite lookup_delete_eq, lookup_retag_ne, lookup_delete_eq.
    + split; [|intros j Hj Hjt; rewrite lookup_retag_ne by done; apply lookup_delete_ne; unfold user_key in Hk; lia].
      rewrite map_used_retag; [done|done|done|]. rewrite lookup_delete_ne by done. apply (tag_entry s m A).
  - rewrite He, !bool_decide_false by (intros [? ?]; discriminate).
    rewrite delete_id in H by done. rewrite delete_id by done.
    eexists _, m. split; [done|]. split; [apply frame_nc|]. split; [|split; [lia|done]].
    destruct R as [Hi Hu [Hh Hks Htg Hsm] Hen]. by split.
Qed.

(** ** Sequences of calls *)

Inductive st_op :=
| OGet (k : Z) (dest : option Z)
| OHas (k : Z)
| OSet (k : Z) (v : list Z)
| ODelete (k : Z).

Inductive st_res := RGet (r : get_result) | RStatus (b : bool).

Definition st_op_ok (op : st_op) : Prop :=
  match op with
  | OGet k _ | OHas k | ODelete k => user_key k
  | OSet k v => user_key k /\ Forall is_byte v
  end.

Definition st_exec (op : st_op) : ST st_res :=
  match op with
  | OGet k dest => r ← storage_get random rng_fuel k dest; mret (RGet r)
  | OHas k => b ← storage_has random rng_fuel k; mret (RStatus b)
  | OSet k v => b ← storage_set random k v; mret (RStatus b)
  | ODelete k => b ← storage_delete k; mret (RStatus b)
  end.

Fixpoint st_run (ops : list st_op) : ST (list st_res) :=
  match ops with
  | [] => mret []
  | op :: ops => r ← st_exec op; rs ← st_run ops; mret (r :: rs)
  end.

(** The calls on a map. *)
Definition map_exec (a : gmap Z (list Z)) (op : st_op) : st_res * gmap Z (list Z) :=
  match op with
  | OGet k dest => (RGet (found (a !! k) dest), a)
  | OHas k => (RStatus (bool_decide (is_Some (a !! k))), a)
  | OSet k v => (RStatus true, <[k := v]> a)
  | ODelete k => (RStatus (bool_decide (is_Some (a !! k))), delete k a)
  end.

Fixpoint map_run (a : gmap Z (list Z)) (ops : list st_op) : list st_res * gmap Z (list Z) :=
  match ops with
  | [] => ([], a)
  | op :: ops =>
      let '(r, a) := map_exec a op in
      let '(rs, a) := map_run a ops in (r :: rs, a)
  end.

(** The space the values stored by the calls take together. *)
Fixpoint space (ops : list st_op) : Z :=
  match ops with
  | [] => 0
  | OSet _ v :: ops => entry_size (28 + zlen v) + space ops
  | _ :: ops => space ops
  end.

Lemma space_nonneg ops : 0 <= space ops.
Proof.
  induction ops as [|[| |k v|] ops IH]; cbn [space]; try lia.
  pose proof (zlen_nonneg v). pose proof (entry_size_bound (28 + zlen v) ltac:(lia)). lia.
Qed.

Lemma st_exec_ok s m a op ops : st_rep s m a -> st_op_ok op ->
  map_used m + space (op :: ops) <= NORCOW_SECTOR_SIZE ->
  exists s' m', st_exec op s = Ok (map_exec a op).1 s' /\ st_rep s' m' (map_exec a op).2 /\
    frame s s' /\ map_used m' + space ops <= NORCOW_SECTOR_SIZE /\ same_reserved m m'.
Proof.
  intros R Hop Hsp. destruct op as [k dest|k|k v|k]; cbn [st_exec map_exec fst snd st_op_ok space] in *; mstep.
  - rewrite (storage_get_ok s m a) by done. by exists s, m.
  - unfold storage_has. mstep. rewrite (storage_get_ok s m a) by done. exists s, m.
    split; [|done]. by destruct (a !! k).
  - destruct Hop as [Hk Hb]. pose proof (space_nonneg ops).
    destruct (storage_set_ok s m a k v) as (s' & m' & -> & F & R' & Hu & O); [done|done|done|unfold room; lia|].
    exists s', m'. split; [done|]. split; [done|]. split; [done|]. split; [lia|done].
  - destruct (storage_delete_ok s m a k) as (s' & m' & -> & F & R' & Hu & O); [done|done|].
    exists s', m'. split; [done|]. split; [done|]. split; [done|]. split; [lia|done].
Qed.

Lemma st_run_ok ops : forall s m a, st_rep s m a -> Forall st_op_ok ops ->
  map_used m + space ops <= NORCOW_SECTOR_SIZE ->
  exists s' m', st_run ops s = Ok (map_run a ops).1 s' /\ st_rep s' m' (map_run a ops).2 /\ frame s s' /\
    same_reserved m m' /\ map_used m' <= NORCOW_SECTOR_SIZE.
Proof.
  induction ops as [|op ops IH]; intros s m a R Hok Hsp; cbn [st_run map_run]; mstep.
  { exists s, m. do 4 (split; [done|]). cbn [space] in Hsp. lia. }
  apply Forall_cons_iff in Hok as [Hop Hok].
  destruct (st_exec_ok s m a op ops R Hop Hsp) as (s1 & m1 & -> & R1 & F1 & Hsp1 & O1).
  destruct (map_exec a op) as [r a1]. cbn [fst snd] in *.
  destruct (IH s1 m1 a1 R1 Hok Hsp1) as (s2 & m2 & -> & R2 & F2 & O2 & U2).
  destruct (map_run a1 ops) as [rs a2]. cbn [fst snd] in *.
  exists s2, m2. split; [done|]. split; [done|]. split; [by transitivity s1|].
  split; [by apply (same_reserved_trans _ m1)|done].
Qed.

End Ops.

(** ** An example store: only the tag entry, all keys zero *)

Definition demo_keys : list Z := replicate 48 0.
Definition demo_tag : list Z := auth_tag (replicate 16 0) ∅.
Definition demo_store : storage_state :=
  StorageState (store_state [Item STORAGE_TAG_KEY demo_tag]) true true 1 1 None
    demo_keys (auth_sum (replicate 16 0) ∅) (replicate 32 0) NORCOW_VERSION false 0.
Definition demo_map : gmap Z (list Z) := {[ STORAGE_TAG_KEY := demo_tag ]}.

Lemma demo_tag_ok : zlen demo_tag = 16 /\ Forall is_byte demo_tag.
Proof.
  assert (Hb : Forall is_byte (replicate 16 0)) by apply bytes_0.
  split; [by apply auth_tag_zlen|]. by apply auth_tag_ok.
Qed.

Lemma demo_store_rep : st_rep demo_store demo_map ∅.
Proof.
  destruct demo_tag_ok as [Hl Hb].
  assert (Es : forall sak, auth_sum sak demo_map = auth_sum sak ∅).
  { intros sak. unfold demo_map. rewrite <- insert_empty. by apply auth_sum_unprotected. }
  split; [done|done| |].
  - split.
    + exists [Item STORAGE_TAG_KEY demo_tag]. split; [|done]. apply store_rep.
      * unfold used, body. cbn [map concat]. rewrite app_nil_r, zlen_enc. cbn [idata]. rewrite Hl. done.
      * constructor; [|constructor]. split; [done|]. split; [done|]. cbn [idata]. rewrite Hl. done.
      * apply NoDup_singleton.
    + split; [done|apply bytes_0].
    + change (tag_ok (replicate 16 0) demo_map). unfold tag_ok, auth_tag. rewrite Es.
      apply lookup_singleton_eq.
    + change (auth_sum (replicate 16 0) ∅ = auth_sum (replicate 16 0) demo_map). by rewrite Es.
  - intros k Hk. unfold entry_rep. rewrite lookup_empty. apply lookup_singleton_ne.
    symmetry. apply (user_valid k Hk).
Qed.

(** ** Properties *)

(** C1: An unlocked storage behaves as a map from keys to values under any
    sequence of [storage_get], [storage_has], [storage_set] and [storage_delete] on
    application keys (256 to 65534), as long as the entries there are and the values
    the sequence stores fit into the sector together ([map_used], [space]): every call
    returns, no fault is raised, a read gives the value stored last (decrypted for
    protected keys) whatever the random generator yields. *)
Theorem storage_refines_map random rng_fuel s m a ops :
  st_rep s m a -> Forall st_op_ok ops -> map_used m + space ops <= NORCOW_SECTOR_SIZE ->
  exists s' m', st_run random rng_fuel ops s = Ok (map_run a ops).1 s' /\
    st_rep s' m' (map_run a ops).2.
Proof.
  intros R Hok Hsp. destruct (st_run_ok random rng_fuel ops s m a R Hok Hsp) as (s' & m' & E & R' & _).
  by exists s', m'.
Qed.

Lemma storage_refines_map_witness : exists s' m',
  st_run (fun n => Z.of_nat n) 0 [OSet 0x0101 [1; 2; 3]; OSet 0x8001 [9]; OGet 0x0101 (Some 10); ODelete 0x0101; OHas 0x0101] demo_store
  = Ok [RStatus true; RStatus true; RGet (GetResult true (Some 3) (Some [1; 2; 3])); RStatus true; RStatus false] s' /\
  st_rep s' m' (delete 0x0101 (<[0x8001 := [9]]> (<[0x0101 := [1; 2; 3]]> ∅))).
Proof.
  refine (storage_refines_map (fun n => Z.of_nat n) 0 demo_store demo_map ∅
    [OSet 0x0101 [1; 2; 3]; OSet 0x8001 [9]; OGet 0x0101 (Some 10); ODelete 0x0101; OHas 0x0101]
    demo_store_rep _ _).
  - assert (H : forall k, (256 <=? k) = true -> (k <? 65535) = true -> user_key k)
      by (intros k H1 H2; unfold user_key; zbool; lia).
    repeat (apply Forall_cons_2; [cbn [st_op_ok]; try (split; [|bytes_list]); by apply H|]). apply Forall_nil_2.
  - assert (E : map_used demo_map = 8 + entry_size (zlen demo_tag)).
    { unfold demo_map. rewrite <- insert_empty. by apply map_used_insert. }
    rewrite E, (proj1 demo_tag_ok). done.
Defined.

End StorageSpec.
