(* ===== verification/StorageAccess.v ===== *)
(** * Access control and faults of the storage

    What a locked storage refuses, that [handle_fault] never returns, that a
    wrong storage tag stops every protected read, and what a refused
    [storage_set] leaves behind. *)

From stdpp Require Import base list numbers gmap.
From Stdlib Require Import ZArith Lia.
From S2P Require Import Prelude Bits Flash Norcow NorcowSpec Hash HashSpec Hmac ChaCha PolySpec AeadSpec PinLog Storage StorageAuth StorageSpec.
Local Open Scope fw_scope.

Module StorageAccess.
Import Norcow NorcowSpec Hash HashSpec AeadSpec Storage StorageAuth StorageSpec.
#[local] Opaque Hmac.hmac_sha256.

(** ** Faults do not return *)

Definition halts {A} (c : ST A) : Prop := forall s, exists f s', c s = Halt f s'.

Lemma halts_halt {A} f : halts (halt f : ST A).
Proof. intros s. by exists f, s. Qed.

Lemma halts_bind {A B} (c : ST A) (k : A -> ST B) : (forall a, halts (k a)) -> halts (c ≫= k).
Proof.
  intros H s. mstep. destruct (c s) as [a s'|f s']; [apply H|by exists f, s'].
Qed.

Lemma halts_if {A} (b : bool) (c d : ST A) : halts c -> halts d -> halts (if b then c else d).
Proof. by destruct b. Qed.

#[local] Hint Resolve halts_halt halts_bind halts_if : fw.

Section Faults.
Context (random : nat -> Z) (rng_fuel : nat).

Lemma fault_nested_halts {A} msg : halts (fault_nested random rng_fuel msg : ST A).
Proof. unfold fault_nested. auto with fw. Qed.

Lemma handle_fault_halts {A} msg : halts (handle_fault random rng_fuel msg : ST A).
Proof.
  unfold handle_fault. apply halts_bind. intros s. apply halts_if; [apply fault_nested_halts|].
  apply halts_bind. intros _. apply halts_bind. intros ctr. apply halts_bind. intros r.
  apply halts_if; auto 6 with fw.
Qed.

(** A wrong tag entry stops the lookup of any key with the fault of the tag check. *)
Lemma auth_get_wrong_tag s m key : holds s m -> keys_ok s -> ~ tag_ok (cached_sak s) m ->
  exists x, auth_get random rng_fuel key s = handle_fault random rng_fuel StorageTagCheck (with_sum s x).
Proof.
  intros (items & R & <-) Hk Ht. destruct (keys_sak s Hk) as [Hb Hl].
  destruct (auth_get_eval random rng_fuel s items R Hb Hl key) as (val & _ & ->).
  rewrite bool_decide_false by done. by eexists.
Qed.

Lemma storage_get_wrong_tag s m k dest : holds s m -> keys_ok s -> ~ tag_ok (cached_sak s) m ->
  initialized s = true -> unlocked s = true -> user_key k -> is_public k = false ->
  exists x, forall f s', (handle_fault random rng_fuel StorageTagCheck : ST (option (Z * Z))) (with_sum s x) = Halt f s' ->
    storage_get random rng_fuel k dest s = Halt f s'.
Proof.
  intros Hm Hk Ht Hi Hu Huk Hp. destruct (auth_get_wrong_tag s m k Hm Hk Ht) as (x & E).
  exists x. intros f s' Ef. unfold storage_get. mstep. rewrite Hi, Hu, user_app by done. cbn [negb orb].
  fold (is_public k). rewrite Hp. unfold storage_get_encrypted. mstep. by rewrite E, Ef.
Qed.

(** ** A refused [storage_set] of a protected entry *)

(** [auth_set] does not renew the tag when norcow refuses the value, although
    norcow has deleted the old entry by then. *)
Lemma auth_set_full s m key len : auth_ok s m -> valid_key key -> 0 <= len < 65536 ->
  NORCOW_SECTOR_SIZE < map_used (delete key m) + 4 + len ->
  exists nc, auth_set key None len s = Ok false (with_nc s nc) /\ holds (with_nc s nc) (delete key m).
Proof.
  intros A Hk Hl Hfull.
  destruct (set_ex_ok s m key None len (ao_holds _ _ A) Hk) as (nc & b & E & H & _);
    [cbn [data_of]; zlen|lia|apply Forall_zrep; unfold is_byte; lia|].
  destruct b.
  - exfalso. apply holds_used in H. rewrite <- insert_delete_eq, map_used_insert in H by apply lookup_delete_eq.
    cbn [data_of] in H. rewrite zlen_zrep in H by lia. pose proof (entry_size_bound len ltac:(lia)). lia.
  - exists nc. split; [|done]. unfold auth_set. mstep. by rewrite E.
Qed.

Lemma storage_set_full s m a k v : st_rep s m a -> user_key k -> is_public k = false ->
  zlen v <= 65507 -> NORCOW_SECTOR_SIZE < map_used (delete k m) + 4 + (28 + zlen v) ->
  exists nc, storage_set random k v s = Ok false (with_nc s nc) /\ holds (with_nc s nc) (delete k m).
Proof.
  intros R Hk Hp Hv Hfull. destruct (user_valid k Hk) as [Hvk _]. pose proof (zlen_nonneg v).
  destruct (auth_set_full s m k (28 + zlen v) (sr_auth _ _ _ R) Hvk) as (nc & E & H'); [lia|done|].
  exists nc. split; [|done]. unfold storage_set, write_refused. mstep.
  rewrite (sr_init _ _ _ R), user_app, (sr_unlocked _ _ _ R) by done. cbn [negb orb andb].
  fold (is_public k). rewrite Hp. unfold storage_set_encrypted.
  change (UINT16_MAX - CHACHA20_IV_SIZE - POLY1305_TAG_SIZE) with 65507. zif.
  change (CHACHA20_IV_SIZE + POLY1305_TAG_SIZE) with 28. mstep. by rewrite E.
Qed.

End Faults.

(** ** The locked storage *)

(** Entries that may be written while the storage is locked. *)
Definition write_open (k : Z) : bool := u8 (Z.shiftr k 8) .& FLAGS_WRITE =? FLAGS_WRITE.

(** What a call answers that is refused. *)
Definition refused (op : st_op) (r : st_res) : Prop :=
  match op with
  | OGet _ _ => r = RGet (GetResult false None None)
  | OHas _ | OSet _ _ | ODelete _ => r = RStatus false
  end.

Definition op_key (op : st_op) : Z :=
  match op with OGet k _ | OHas k | OSet k _ | ODelete k => k end.
Definition reads (op : st_op) : bool :=
  match op with OGet _ _ | OHas _ => true | OSet _ _ | ODelete _ => false end.

(** A call is allowed on a locked storage when it reads a public entry or writes
    one with both top bits set. *)
Definition locked_allowed (op : st_op) : bool :=
  if reads op then is_public (op_key op) else write_open (op_key op).

Lemma write_open_public k : write_open k = true -> is_public k = true.
Proof.
  unfold write_open, is_public. intros H. zbool. apply negb_true_iff, Z.eqb_neq. intros E.
  assert (Hc : u8 (Z.shiftr k 8) .& FLAGS_WRITE .& FLAG_PUBLIC = FLAG_PUBLIC) by (by rewrite H).
  rewrite <- Z.land_assoc, (Z.land_comm FLAGS_WRITE) in Hc.
  change (FLAG_PUBLIC .& FLAGS_WRITE) with FLAG_PUBLIC in Hc. rewrite E in Hc. done.
Qed.

Section Locked.
Context (random : nat -> Z) (rng_fuel : nat).

Record locked_rep (s : storage_state) (m : gmap Z (list Z)) : Prop := {
  lr_locked : unlocked s = false;
  lr_holds : holds s m;
}.

Lemma locked_refused s op : unlocked s = false -> locked_allowed op = false ->
  exists r, st_exec random rng_fuel op s = Ok r s /\ refused op r.
Proof.
  intros Hu Ha. destruct op as [k dest|k|k v|k]; cbn [locked_allowed reads op_key] in Ha;
    cbn [st_exec refused]; unfold storage_has, storage_get, storage_set, storage_delete, write_refused; mstep;
    fold (is_public k) (write_open k); rewrite ?Ha, Hu; cbn [negb andb];
    destruct (negb (initialized s) || _); eexists; split; reflexivity.
Qed.

Definition key_ok (op : st_op) : Prop :=
  0 <= op_key op < 65535 /\
  match op with OSet _ v => Forall is_byte v /\ zlen v < 65536 | _ => True end.

(** The entries a call can change on a locked storage. *)
Lemma locked_exec s m op : locked_rep s m -> key_ok op ->
  exists r s' m', st_exec random rng_fuel op s = Ok r s' /\ locked_rep s' m' /\ frame s s' /\
    (forall k, write_open k = false -> m' !! k = m !! k) /\
    (locked_allowed op = false -> refused op r).
Proof.
  intros [Hu Hm] [Hk Hop]. destruct (locked_allowed op) eqn:Ea.
  2:{ destruct (locked_refused s op Hu Ea) as (r & E & Hr). by exists r, s, m. }
  destruct (decide (initialized s = false \/ op_key op < 256)) as [Hi|Hi].
  { (* refused for another reason *)
    assert (E : forall k, k = op_key op ->
      negb (initialized s) || (u8 (Z.shiftr k 8) =? APP_STORAGE) = true).
    { intros k ->. destruct Hi as [->|Hi]; [done|]. rewrite Z.shiftr_div_pow2 by lia.
      change (2 ^ 8) with 256. rewrite Z.div_small by lia. apply orb_true_r. }
    destruct op as [k dest|k|k v|k]; cbn [op_key st_exec] in *;
      unfold storage_has, storage_get, storage_set, storage_delete; mstep; rewrite (E k) by done;
      by eexists _, s, m. }
  assert (Hi' : initialized s = true) by (destruct (initialized s); [done|by destruct Hi; left]).
  assert (Huk : user_key (op_key op)) by (unfold user_key; lia).
  destruct (user_valid _ Huk) as [Hvk _].
  destruct op as [k dest|k|k v|k]; cbn [locked_allowed reads op_key st_exec] in *.
  - mstep. rewrite (storage_get_public _ _ s m) by done. by eexists _, s, m.
  - unfold storage_has. mstep. rewrite (storage_get_public _ _ s m) by done. by eexists _, s, m.
  - destruct Hop as [Hb Hl]. destruct (set_ok s m k v (zlen v) Hm Hvk Hb eq_refl Hl) as (nc & b & E & H & _).
    unfold storage_set, write_refused. mstep. fold (write_open k) (is_public k).
    rewrite Hi', user_app, Ea, write_open_public, Hu by done. cbn [negb orb andb]. rewrite E.
    eexists _, _, _. split; [done|]. split; [by split|]. split; [apply frame_nc|]. split; [|done].
    intros j Hj. assert (j <> k) by congruence.
    destruct b; [by rewrite lookup_insert_ne|by rewrite lookup_delete_ne].
  - destruct (delete_ok s m k Hm Hvk) as (nc & E & H).
    unfold storage_delete, write_refused. mstep. fold (write_open k).
    rewrite Hi', user_app, Ea, Hu by done. cbn [negb orb andb]. rewrite E.
    unfold auth_update. rewrite user_protected, write_open_public by done. cbn [negb].
    assert (Hf : forall j, write_open j = false -> delete k m !! j = m !! j).
    { intros j Hj. rewrite lookup_delete_ne; [done|congruence]. }
    destruct (bool_decide (is_Some (m !! k))); mstep; eexists _, _, _;
      (split; [done|]); (split; [by split|]); (split; [apply frame_nc|]); by split.
Qed.

End Locked.

(** ** A locked storage for examples *)

Definition locked_demo : storage_state :=
  StorageState (st_nc demo_store) true false 1 1 None demo_keys (auth_sum (replicate 16 0) ∅)
    (replicate 32 0) NORCOW_VERSION false 0.

Lemma locked_demo_rep : locked_rep locked_demo demo_map.
Proof. split; [done|]. apply (ao_holds _ _ (sr_auth _ _ _ demo_store_rep)). Qed.

End StorageAccess.
