(* ===== verification/StoragePin.v ===== *)
(** * PIN logs, wipe code and unlocking

    The PIN failure counter of [PinLog] as an entry of the store: reading it,
    incrementing it in place and resetting it; the wipe code entry; the entry with
    the encrypted keys; and from these what [storage_wipe] and [storage_unlock] do. *)

From stdpp Require Import base list numbers gmap.
From Stdlib Require Import ZArith Lia.
From S2P Require Import Prelude Bits Flash Norcow NorcowSpec Hash HashSpec Sha2 Sha2Spec Hmac HmacSpec ChaCha PolySpec AeadSpec PinLog PinLogSpec Storage StorageAuth StorageSpec StorageAccess.
Local Open Scope fw_scope.

Module StoragePin.
Import Norcow NorcowSpec Hash HashSpec HmacSpec ChaCha AeadSpec PinLog PinLogSpec Storage StorageAuth StorageSpec StorageAccess.

Lemma zlen_bytes_of ws : zlen (bytes_of 4 ws) = 4 * zlen ws.
Proof.
  induction ws as [|w ws IH]; [done|]. unfold bytes_of in *. cbn [map concat].
  rewrite zlen_app, zlen_le_bytes, zlen_cons, IH. lia.
Qed.

Lemma bytes_of_bytes ws : Forall is_byte (bytes_of 4 ws).
Proof.
  induction ws as [|w ws IH]; [constructor|]. unfold bytes_of in *. cbn [map concat].
  apply Forall_app; split; [apply le_bytes_byte|done].
Qed.

Lemma final_len ctx : length (hash_Final Sha2.sha256_alg ctx) = 32%nat /\
  Forall is_byte (hash_Final Sha2.sha256_alg ctx).
Proof.
  unfold hash_Final. split; [|apply bytes_of_bytes].
  assert (H : length (hash_Last Sha2.sha256_alg ctx) = 8%nat).
  { unfold hash_Last. destruct (_ <? _)%nat; apply (hp_transform (HmacParams := sha256_params)). }
  pose proof (zlen_bytes_of (map (ha_reverse Sha2.sha256_alg) (hash_Last Sha2.sha256_alg ctx))) as E.
  change (ha_wb Sha2.sha256_alg) with 4%nat. unfold zlen in E. rewrite length_map, H in E. lia.
Qed.

Lemma hmac_len key msg : length (Hmac.hmac_sha256 key msg) = 32%nat /\ Forall is_byte (Hmac.hmac_sha256 key msg).
Proof. apply final_len. Qed.

#[local] Opaque Hmac.hmac_sha256 rfc_cipher rfc_tag.

(** ** The random generator *)

(** A draw that [random_uniform] accepts and that yields a valid guard key. *)
Definition uniform_max (n : Z) : Z := 0xFFFFFFFF - 0xFFFFFFFF mod n.
Definition guard_of (x : Z) : Z :=
  u32 (x / (uniform_max 680553 / 680553) * GUARD_KEY_MODULUS + GUARD_KEY_REMAINDER).
Definition good_draw (x : Z) : Prop := x < uniform_max 680553 /\ check_guard_key (guard_of x) = true.

(** What is assumed of the generator: its words have 32 bits, and a good draw comes
    within [rng_fuel] draws from any point on. *)
Class RngOk (random : nat -> Z) (rng_fuel : nat) : Prop := {
  rng_u32 : forall n, is_u32 (random n);
  rng_good : forall p, exists n, (n < rng_fuel)%nat /\ good_draw (random (p + n)%nat);
}.

Section Rng.
Context (random : nat -> Z) (rng_fuel : nat) {Rng : RngOk random rng_fuel}.

Lemma uniform_loop_ok fuel : forall s n, (n < fuel)%nat -> random (rng_pos s + n)%nat < uniform_max 680553 ->
  exists j, (j <= n)%nat /\
    random_uniform_loop random fuel (uniform_max 680553) s
    = Ok (random (rng_pos s + j)%nat) (with_rng s (S (rng_pos s + j))).
Proof.
  induction fuel as [|fuel IH]; intros s n Hn Hg; [lia|]. cbn [random_uniform_loop].
  unfold random32, set_rng_pos. mstep.
  destruct (Z.leb_spec (uniform_max 680553) (random (rng_pos s))) as [Hm|Hm].
  - destruct n as [|n]; [rewrite Nat.add_0_r in Hg; lia|].
    destruct (IH (with_rng s (S (rng_pos s))) n) as (j & Hj & E); [lia| |].
    { cbn [rng_pos with_rng]. by replace (S (rng_pos s) + n)%nat with (rng_pos s + S n)%nat by lia. }
    exists (S j). split; [lia|]. revert E. unfold with_rng at 1. cbn -[random_uniform_loop uniform_max].
    intros ->. by rewrite <- plus_n_Sm.
  - exists 0%nat. split; [lia|]. rewrite Nat.add_0_r. by destruct s.
Qed.

Lemma generate_loop_ok fuel : forall s n, (n < fuel)%nat -> (n < rng_fuel)%nat ->
  good_draw (random (rng_pos s + n)%nat) ->
  exists gk n', generate_guard_key_loop random rng_fuel fuel s = Ok gk (with_rng s n') /\
    check_guard_key gk = true /\ is_u32 gk.
Proof.
  induction fuel as [|fuel IH]; intros s n Hn Hnf [Hg1 Hg2]; [lia|]. cbn [generate_guard_key_loop].
  unfold random_uniform. change (0xFFFFFFFF / GUARD_KEY_MODULUS + 1) with 680553.
  fold (uniform_max 680553). mstep.
  destruct (uniform_loop_ok rng_fuel s n Hnf Hg1) as (j & Hj & ->).
  fold (guard_of (random (rng_pos s + j)%nat)). mstep.
  destruct (check_guard_key (guard_of (random (rng_pos s + j)%nat))) eqn:Ec.
  { eexists _, _. split; [done|]. split; [done|]. apply u32_range. }
  assert (Hjn : j <> n) by (intros ->; congruence).
  destruct (IH (with_rng s (S (rng_pos s + j))) (n - S j)%nat) as (gk & n' & E & H); [lia|lia| |].
  { cbn [rng_pos with_rng]. replace (S (rng_pos s + j) + (n - S j))%nat with (rng_pos s + n)%nat by lia.
    by split. }
  by exists gk, n'.
Qed.

Lemma generate_guard_key_ok s : exists gk n,
  generate_guard_key random rng_fuel s = Ok gk (with_rng s n) /\ check_guard_key gk = true /\ is_u32 gk.
Proof.
  destruct (rng_good (rng_pos s)) as (n & Hn & Hg). by apply (generate_loop_ok rng_fuel s n).
Qed.

End Rng.

(** ** Words in an entry *)

Lemma words_bytes ws : Forall is_u32 ws -> words_of 4 (length ws) (bytes_of 4 ws) = ws.
Proof.
  induction 1 as [|w ws Hw _ IH]; [done|]. unfold bytes_of in *. cbn [map concat length words_of].
  rewrite take_app_length', drop_app_length' by (by rewrite length_le_bytes). rewrite IH. f_equal.
  rewrite le_val_bytes. apply Z.mod_small. exact Hw.
Qed.

Lemma bytes_of_app xs ys : bytes_of 4 (xs ++ ys) = bytes_of 4 xs ++ bytes_of 4 ys.
Proof. unfold bytes_of. by rewrite map_app, concat_app. Qed.

Lemma words_split ws i : 0 <= i < zlen ws ->
  exists p w q, ws = p ++ w :: q /\ zlen p = i /\ znth 0 ws i = w /\ forall x, zupd ws i x = p ++ x :: q.
Proof.
  intros Hi. exists (take (Z.to_nat i) ws), (znth 0 ws i), (drop (S (Z.to_nat i)) ws).
  unfold zlen in Hi. assert (Hn : (Z.to_nat i < length ws)%nat) by lia.
  destruct (lookup_lt_is_Some_2 ws (Z.to_nat i) Hn) as [w Hw].
  assert (Ez : znth 0 ws i = w).
  { unfold znth. zif. by apply nth_lookup_Some. }
  rewrite Ez. split; [by rewrite take_drop_middle|].
  split; [unfold zlen; rewrite length_take; lia|]. split; [done|].
  intros x. unfold zupd. zif. by rewrite insert_take_drop.
Qed.

Lemma clears_bytes xs : forall ys, length xs = length ys -> Forall is_byte xs -> Forall is_byte ys ->
  clears (le_val xs) (le_val ys) -> Forall2 clears xs ys.
Proof.
  unfold clears. induction xs as [|x xs IH]; intros [|y ys] Hl Hx Hy Hc; try done.
  apply Forall_cons_iff in Hx as [Hx Hxs]. apply Forall_cons_iff in Hy as [Hy Hys].
  rewrite land_cons in Hc by done. cbn [le_val] in Hc.
  assert (0 <= x .& y < 256).
  { replace (x .& y) with ((x .& y) mod 2 ^ 8); [apply Z.mod_pos_bound; lia|].
    rewrite <- Z.land_ones, <- Z.land_assoc, (Z.land_ones y) by lia. by rewrite Z.mod_small. }
  unfold is_byte in *. constructor; [lia|]. apply IH; [by injection Hl|done|done|lia].
Qed.

(** Clearing bits of a word of an entry. *)
Lemma update_word_ok s m k ws i w : holds s m -> valid_key k -> m !! k = Some (bytes_of 4 ws) ->
  Forall is_u32 ws -> 0 <= i < zlen ws -> is_u32 w -> clears (znth 0 ws i) w ->
  exists nc, lift (norcow_update_word k (4 * i) w) s = Ok true (with_nc s nc) /\
    holds (with_nc s nc) (<[k := bytes_of 4 (zupd ws i w)]> m).
Proof.
  intros (items & R & <-) Hk Hv Hu Hi Hw Hc.
  destruct (words_split ws i Hi) as (p & o & q & Hws & Hp & Ho & Hz). rewrite Hz. rewrite Ho in Hc.
  assert (Huo : is_u32 o) by (rewrite Hws in Hu; by apply Forall_elt in Hu).
  rewrite Hws, bytes_of_app in Hv. change (bytes_of 4 (o :: q)) with (le_bytes 4 o ++ bytes_of 4 q) in Hv.
  assert (Hs : slice (bytes_of 4 p ++ le_bytes 4 o ++ bytes_of 4 q) (4 * i) 4 = le_bytes 4 o).
  { apply slice_mid; [|done]. rewrite zlen_bytes_of. lia. }
  assert (Hlo : le_val (le_bytes 4 o) = o) by (rewrite le_val_bytes; apply Z.mod_small; exact Huo).
  assert (Hlw : le_val (le_bytes 4 w) = w) by (rewrite le_val_bytes; apply Z.mod_small; exact Hw).
  destruct (norcow_update_word_rep _ items k (4 * i) (le_bytes 4 w) _ R Hk Hv) with (value := w)
    as (nc & items' & E & R' & Ec).
  - lia.
  - rewrite !zlen_app, !zlen_le_bytes, !zlen_bytes_of. pose proof (zlen_nonneg q). lia.
  - apply le_bytes_byte.
  - rewrite zlen_le_bytes. change (Z.of_nat 4) with 4. rewrite Hs.
    apply clears_bytes; [by rewrite !length_le_bytes|apply le_bytes_byte..|by rewrite Hlo, Hlw].
  - zlia.
  - done.
  - done.
  - by rewrite Hs, Hlo.
  - exists nc. split; [by apply lift_ok|]. exists items'. split; [done|]. rewrite Ec. unfold patch.
    f_equal. rewrite bytes_of_app. change (bytes_of 4 (w :: q)) with (le_bytes 4 w ++ bytes_of 4 q).
    apply Flash.splice_mid; [rewrite zlen_bytes_of; lia|by rewrite !length_le_bytes].
Qed.

(** ** The PIN logs entry *)

(** The success counter is at [c], the entry counter at [e]. *)
Definition logs_words (gk mask guard c e : Z) : list Z :=
  gk :: cfrom mask guard c 0 16 ++ cfrom mask guard e 0 16.

Definition logs_at (m : gmap Z (list Z)) (c e : Z) : Prop :=
  exists gk mask guard, is_u32 gk /\ expand_guard_key gk = Some (mask, guard) /\
    m !! PIN_LOGS_KEY = Some (bytes_of 4 (logs_words gk mask guard c e)).

Lemma logs_words_ok gk mask guard c e : is_u32 gk -> expand_guard_key gk = Some (mask, guard) ->
  Forall is_u32 (logs_words gk mask guard c e) /\ length (logs_words gk mask guard c e) = 33%nat /\
  success_log (logs_words gk mask guard c e) = cfrom mask guard c 0 16 /\
  entry_log (logs_words gk mask guard c e) = cfrom mask guard e 0 16 /\ guard_ok mask guard.
Proof.
  intros Hg He. pose proof (expand_guard_ok gk mask guard Hg He) as G. unfold logs_words.
  split; [constructor; [done|]; apply Forall_app; split; by apply Forall_cfrom|].
  assert (Hl : forall n, length (cfrom mask guard n 0 16) = 16%nat)
    by (intros n; pose proof (zlen_cfrom mask guard n 0 16) as H; unfold zlen in H; lia).
  split; [cbn [length]; rewrite length_app, !Hl; done|].
  split; [apply (slice_mid [gk]); [done|unfold zlen; by rewrite Hl]|]. split; [|done].
  unfold entry_log. rewrite <- (app_nil_r (cfrom mask guard e 0 16)), app_comm_cons.
  apply slice_mid; [unfold zlen; cbn [length]; by rewrite Hl|]. rewrite app_nil_r. unfold zlen. by rewrite Hl.
Qed.

Section Logs.
Context (on_fault : forall A, fault_msg -> ST A).

Lemma get_pin_logs_ok s m gk mask guard c e : holds s m -> is_u32 gk ->
  expand_guard_key gk = Some (mask, guard) ->
  m !! PIN_LOGS_KEY = Some (bytes_of 4 (logs_words gk mask guard c e)) ->
  get_pin_logs s = Ok (Some (logs_words gk mask guard c e)) s.
Proof.
  intros Hm Hg He Hl. destruct (logs_words_ok gk mask guard c e Hg He) as (Hu & Hlen & _).
  unfold get_pin_logs. mstep. rewrite (get_bytes_ok s m) by done. rewrite Hl.
  assert (Ez : zlen (bytes_of 4 (logs_words gk mask guard c e)) = PIN_LOGS_SIZE)
    by (rewrite zlen_bytes_of; unfold zlen; by rewrite Hlen).
  rewrite Ez, Z.eqb_refl. rewrite <- Hlen at 1. by rewrite words_bytes.
Qed.

Lemma pin_get_fails_ok s m c e : holds s m -> logs_at m c e -> 0 <= c <= e -> e < 256 -> e - c <= 16 ->
  pin_get_fails on_fault s = Ok (e - c) s.
Proof.
  intros Hm (gk & mask & guard & Hg & He & Hl) Hc He' Hd.
  destruct (logs_words_ok gk mask guard c e Hg He) as (_ & _ & Hsl & Hel & G).
  unfold pin_get_fails. mstep. rewrite (get_pin_logs_ok s m gk mask guard c e) by done.
  unfold expand_guard. change (znth 0 (logs_words gk mask guard c e) 0) with gk. rewrite He. mstep.
  by rewrite Hsl, Hel, get_fails_counters.
Qed.

Lemma fails_increase_ok s m c e : holds s m -> initialized s = true -> logs_at m c e -> 0 <= c <= e -> e < 256 ->
  exists nc m', storage_pin_fails_increase on_fault s = Ok true (with_nc s nc) /\
    holds (with_nc s nc) m' /\ logs_at m' c (e + 1) /\ (forall k, k <> PIN_LOGS_KEY -> m' !! k = m !! k).
Proof.
  intros Hm Hi (gk & mask & guard & Hg & He & Hl) Hc He'.
  destruct (logs_words_ok gk mask guard c e Hg He) as (Hu & Hlen & _ & Hel & G).
  assert (Hq : 0 <= e / 16 < 16) by zlia.
  assert (logs_entry_index : e / 16 + GUARD_KEY_WORDS + PIN_LOG_WORDS
    = zlen (gk :: cfrom mask guard c 0 16) + e / 16)
    by (rewrite zlen_cons, zlen_cfrom; change GUARD_KEY_WORDS with 1; change PIN_LOG_WORDS with 16; lia).
  assert (Hnth : znth 0 (logs_words gk mask guard c e) (e / 16 + GUARD_KEY_WORDS + PIN_LOG_WORDS)
    = cword mask guard e (e / 16)).
  { rewrite logs_entry_index. unfold logs_words. rewrite app_comm_cons.
    rewrite znth_app_r, znth_cfrom by lia. f_equal. }
  destruct (update_word_ok s m PIN_LOGS_KEY (logs_words gk mask guard c e)
    (e / 16 + GUARD_KEY_WORDS + PIN_LOG_WORDS) (cword mask guard (e + 1) (e / 16)))
    as (nc & E & H); try done.
  { unfold zlen. rewrite Hlen. change GUARD_KEY_WORDS with 1. change PIN_LOG_WORDS with 16. lia. }
  { apply log_word_u32; [done|lia]. }
  { rewrite Hnth. unfold clears. rewrite Z.land_comm. apply cword_mono; [done|lia]. }
  eexists nc, _. split; [|split; [exact H|]].
  - unfold storage_pin_fails_increase. mstep. rewrite Hi. cbn [negb].
    rewrite (get_pin_logs_ok s m gk mask guard c e) by done.
    unfold expand_guard. change (znth 0 (logs_words gk mask guard c e) 0) with gk. rewrite He. mstep.
    rewrite Hel, increase_cfrom by (done || lia). by rewrite E.
  - split; [|intros k Hk; by rewrite lookup_insert_ne].
    exists gk, mask, guard. split; [done|]. split; [done|]. rewrite lookup_insert_eq. do 2 f_equal.
    rewrite logs_entry_index. unfold logs_words. rewrite app_comm_cons, zupd_app_r by lia.
    rewrite <- (Z.sub_0_r (e / 16)) at 1. by rewrite zupd_cfrom by (done || lia).
Qed.

(** The writes of [pin_fails_reset]. *)
Lemma reset_updates_ok gk mask guard c e ups : is_u32 gk -> expand_guard_key gk = Some (mask, guard) ->
  0 <= c <= e ->
  Forall (fun '(j, w) => 0 <= j < 16 /\ w = cword mask guard e j) ups ->
  forall s m sl, holds s m -> zlen sl = 16 -> Forall is_u32 sl ->
  (forall j, 0 <= j < 16 -> znth 0 sl j = cword mask guard c j \/ znth 0 sl j = cword mask guard e j) ->
  m !! PIN_LOGS_KEY = Some (bytes_of 4 (gk :: sl ++ cfrom mask guard e 0 16)) ->
  exists nc m', reset_updates ups s = Ok true (with_nc s nc) /\ holds (with_nc s nc) m' /\
    m' !! PIN_LOGS_KEY = Some (bytes_of 4 (gk :: apply_updates sl ups ++ cfrom mask guard e 0 16)) /\
    (forall k, k <> PIN_LOGS_KEY -> m' !! k = m !! k).
Proof.
  intros Hg He Hc Hups. pose proof (expand_guard_ok gk mask guard Hg He) as G.
  induction Hups as [|[j w] ups [Hj ->] _ IH]; intros s m sl Hm Hsl Hsu Hsj Hl; cbn [reset_updates]; mstep.
  { exists (st_nc s), m. rewrite with_nc_id. done. }
  set (ws := gk :: sl ++ cfrom mask guard e 0 16) in *.
  assert (Hzw : zlen ws = 33) by (unfold ws; rewrite zlen_cons, zlen_app, zlen_cfrom, Hsl; done).
  assert (Hidx : j + GUARD_KEY_WORDS = zlen [gk] + j) by (change GUARD_KEY_WORDS with 1; change (zlen [gk]) with 1; lia).
  assert (Ews : ws = [gk] ++ sl ++ cfrom mask guard e 0 16) by done.
  assert (Hnth : znth 0 ws (j + GUARD_KEY_WORDS) = znth 0 sl j).
  { rewrite Hidx, Ews, znth_app_r by lia. unfold znth. zif. apply app_nth1. unfold zlen in Hsl. lia. }
  assert (Hupd : zupd ws (j + GUARD_KEY_WORDS) (cword mask guard e j)
    = gk :: zupd sl j (cword mask guard e j) ++ cfrom mask guard e 0 16).
  { rewrite Hidx, Ews, zupd_app_r, zupd_app_l by lia. done. }
  assert (Hcu : forall n, is_u32 (cword mask guard n j)) by (intros n; apply log_word_u32; [done|lia]).
  destruct (update_word_ok s m PIN_LOGS_KEY ws (j + GUARD_KEY_WORDS) (cword mask guard e j)) as (nc & E & H); try done.
  { constructor; [done|]. apply Forall_app; split; [done|by apply Forall_cfrom]. }
  { rewrite Hzw. change GUARD_KEY_WORDS with 1. lia. }
  { rewrite Hnth. destruct (Hsj j Hj) as [->| ->]; [|apply clears_refl].
    unfold clears. rewrite Z.land_comm. apply cword_mono; [done|lia]. }
  rewrite E. cbn [negb]. rewrite Hupd in H.
  destruct (IH (with_nc s nc) _ (zupd sl j (cword mask guard e j)) H) as (nc2 & m2 & E2 & H2 & L2 & O2).
  - by rewrite zlen_zupd.
  - unfold zupd. destruct (j <? 0); [done|]. by apply Forall_insert.
  - intros i Hi. destruct (decide (i = j)) as [->|Hne]; [right; apply znth_zupd_eq; lia|].
    rewrite znth_zupd_ne by done. by apply Hsj.
  - by rewrite lookup_insert_eq.
  - rewrite E2. exists nc2, m2. split; [done|]. split; [done|]. split; [exact L2|].
    intros k Hk. rewrite O2 by done. by apply lookup_insert_ne.
Qed.

Section Init.
Context (random : nat -> Z) (rng_fuel : nat) {Rng : RngOk random rng_fuel}.

Lemma expand_check gk : check_guard_key gk = true -> exists mask guard, expand_guard_key gk = Some (mask, guard).
Proof. intros H. unfold expand_guard_key. rewrite H. eauto. Qed.

Lemma pin_logs_init_ok s m f : holds s m -> 0 <= f < 10 ->
  map_used (delete PIN_LOGS_KEY m) + 4 + 132 <= NORCOW_SECTOR_SIZE ->
  exists s' m' v, pin_logs_init random rng_fuel on_fault f s = Ok true s' /\ frame s s' /\
    authentication_sum s' = authentication_sum s /\ holds s' m' /\ logs_at m' 0 f /\
    m' = <[PIN_LOGS_KEY := v]> m /\ zlen v = 132.
Proof.
  intros Hm Hf Hfit. unfold pin_logs_init. change PIN_MAX_TRIES with 10. zif. mstep.
  destruct (generate_guard_key_ok random rng_fuel s) as (gk & n & -> & Hck & Hg).
  destruct (expand_check gk Hck) as (mask & guard & He). unfold expand_guard. rewrite He. mstep.
  pose proof (expand_guard_ok gk mask guard Hg He) as G.
  rewrite pin_logs_words_counters by (done || lia). fold (logs_words gk mask guard 0 f).
  destruct (logs_words_ok gk mask guard 0 f Hg He) as (Hu & Hlen & _).
  set (v := bytes_of 4 (logs_words gk mask guard 0 f)).
  assert (Hv : zlen v = 132) by (unfold v; rewrite zlen_bytes_of; unfold zlen; by rewrite Hlen).
  destruct (set_ok (with_rng s n) m PIN_LOGS_KEY v PIN_LOGS_SIZE) as (nc & b & E & H & Hb);
    [done|done|apply bytes_of_bytes|by rewrite Hv|done|].
  rewrite (Hb Hfit) in *. rewrite E. eexists _, _, v. split; [done|]. split; [by split|]. split; [done|].
  split; [exact H|]. split; [|done]. exists gk, mask, guard. by rewrite lookup_insert_eq.
Qed.

Lemma pin_fails_reset_ok s m c e : holds s m -> logs_at m c e -> 0 <= c <= e -> e < 256 ->
  exists s' m' c', pin_fails_reset random rng_fuel on_fault s = Ok true s' /\ frame s s' /\
    authentication_sum s' = authentication_sum s /\ holds s' m' /\ logs_at m' c' c' /\ 0 <= c' <= 240 /\
    (forall k, k <> PIN_LOGS_KEY -> m' !! k = m !! k).
Proof.
  intros Hm (gk & mask & guard & Hg & He & Hl) Hc He'.
  destruct (logs_words_ok gk mask guard c e Hg He) as (Hu & Hlen & Hsl & Hel & G).
  unfold pin_fails_reset. mstep. rewrite (get_pin_logs_ok s m gk mask guard c e) by done.
  unfold expand_guard. change (znth 0 (logs_words gk mask guard c e) 0) with gk. rewrite He. mstep.
  rewrite Hsl, Hel. pose proof (reset_cfrom mask guard G c e 16 [] 0 ltac:(lia) eq_refl ltac:(lia)) as Hr.
  destruct (reset_loop guard (guard .| not32 mask) (cfrom mask guard c 0 16) (cfrom mask guard e 0 16) 0)
    as [ups again]. destruct Hr as (Ea & -> & Hups). rewrite !app_nil_l in Ea.
  destruct (reset_updates_ok gk mask guard c e ups Hg He Hc) with (s := s) (m := m)
    (sl := cfrom mask guard c 0 16) as (nc & m1 & E1 & H1 & L1 & O1); try done.
  { by apply Forall_cfrom. }
  { intros j Hj. left. by rewrite znth_cfrom by lia. }
  rewrite E1. cbn [negb]. rewrite Ea in L1.
  assert (Hle : logs_at m1 e e) by (by exists gk, mask, guard).
  change (16 * (0 + Z.of_nat 15)) with 240. destruct (Z.ltb_spec 240 e) as [Hb|Hb].
  - destruct (pin_logs_init_ok (with_nc s nc) m1 0 H1 ltac:(lia)) as (s2 & m2 & v & E2 & F2 & S2 & H2 & L2 & M2 & V2).
    { pose proof (holds_used _ _ H1) as Hu1. rewrite (map_used_delete m1 _ _ L1) in Hu1.
      assert (Hz : zlen (bytes_of 4 (gk :: cfrom mask guard e 0 16 ++ cfrom mask guard e 0 16)) = 132)
        by (by rewrite zlen_bytes_of, zlen_cons, zlen_app, !zlen_cfrom).
      rewrite Hz in Hu1. change (entry_size 132) with 136 in Hu1. lia. }
    rewrite E2. exists s2, m2, 0. split; [done|].
    split; [by transitivity (with_nc s nc)|]. split; [done|]. split; [done|]. split; [done|]. split; [lia|].
    intros k Hk. rewrite M2, lookup_insert_ne by done. by apply O1.
  - exists (with_nc s nc), m1, e. split; [done|]. split; [apply frame_nc|]. split; [done|].
    split; [done|]. split; [done|]. split; [lia|done].
Qed.

End Init.
End Logs.

(** ** The wipe code *)

(** The wipe code entry holds [wc], a salt and a tag. *)
Definition wipe_at (m : gmap Z (list Z)) (wc salt : list Z) : Prop :=
  0 < zlen wc /\ zlen salt = 8 /\
  m !! WIPE_CODE_DATA_KEY = Some (wc ++ salt ++ take 8 (Hmac.hmac_sha256 salt wc)).

(** The entered PIN passes for the wipe code. *)
Definition is_wipe_code (wc salt pin : list Z) : bool :=
  bool_decide (take 8 (Hmac.hmac_sha256 salt wc) = take 8 (Hmac.hmac_sha256 salt pin)).

Lemma tag8_len salt x : zlen (take 8 (Hmac.hmac_sha256 salt x)) = 8.
Proof. unfold zlen. rewrite length_take, (proj1 (hmac_len salt x)). done. Qed.

Section WipeCode.
Context (random : nat -> Z) (rng_fuel : nat).

Lemma is_not_wipe_code_ok s m wc salt pin : holds s m -> wipe_at m wc salt ->
  is_not_wipe_code random rng_fuel pin s = Ok (negb (is_wipe_code wc salt pin)) s.
Proof.
  intros Hm (Hwc & Hs & Hl). unfold is_not_wipe_code. mstep. rewrite (get_bytes_ok s m), Hl by done.
  set (d := wc ++ _). pose proof (tag8_len salt wc) as Ht.
  assert (Hd : zlen d = zlen wc + 16) by (unfold d; rewrite !zlen_app; lia).
  change (WIPE_CODE_SALT_SIZE + WIPE_CODE_TAG_SIZE) with 16. change WIPE_CODE_SALT_SIZE with 8.
  change WIPE_CODE_TAG_SIZE with 8. rewrite Hd. zif. replace (zlen wc + 16 - 8 - 8) with (zlen wc) by lia.
  assert (S1 : slice d 0 (zlen wc) = wc) by (unfold d; by apply (slice_mid [])).
  assert (S2 : slice d (zlen wc) 8 = salt) by (unfold d; by apply slice_mid).
  assert (S3 : slice d (zlen wc + 8) 8 = take 8 (Hmac.hmac_sha256 salt wc)).
  { replace d with ((wc ++ salt) ++ take 8 (Hmac.hmac_sha256 salt wc) ++ [])
      by (rewrite app_nil_r; unfold d; by rewrite <- app_assoc).
    apply slice_mid; [rewrite zlen_app; lia|lia]. }
  rewrite S1, S2, S3.
  assert (Hz : forall x, zlen (Hmac.hmac_sha256 salt x) = 32) by (intros x; unfold zlen; by rewrite (proj1 (hmac_len salt x))).
  rewrite !secequal_spec by (rewrite ?Ht, ?Hz; lia).
  change (Z.to_nat 8) with 8%nat. rewrite take_take. change (8 `min` 8)%nat with 8%nat.
  rewrite !(bool_decide_true (_ = _)) by done. cbn [negb].
  unfold is_wipe_code. by destruct (bool_decide _).
Qed.

Lemma set_wipe_code_ok s m wc : holds s m -> Forall is_byte wc -> zlen wc <= 50 ->
  map_used (delete WIPE_CODE_DATA_KEY m) + 4 + 66 <= NORCOW_SECTOR_SIZE ->
  exists s' m' salt v, set_wipe_code random wc s = Ok true s' /\ frame s s' /\
    authentication_sum s' = authentication_sum s /\ holds s' m' /\
    wipe_at m' (if zlen wc =? 0 then WIPE_CODE_EMPTY else wc) salt /\
    m' = <[WIPE_CODE_DATA_KEY := v]> m /\ zlen v <= 66 /\ drawn random 8 salt.
Proof.
  intros Hm Hb Hl Hfit. unfold set_wipe_code. change MAX_WIPE_CODE_LEN with 50.
  change (UINT16_MAX - WIPE_CODE_SALT_SIZE - WIPE_CODE_TAG_SIZE) with 65519. zif. cbn [orb].
  set (w := if zlen wc =? 0 then WIPE_CODE_EMPTY else wc).
  assert (Hw : 0 < zlen w <= 50 /\ Forall is_byte w).
  { pose proof (zlen_nonneg wc). unfold w. destruct (Z.eqb_spec (zlen wc) 0); [|split; [lia|done]].
    split; [done|]. unfold WIPE_CODE_EMPTY. bytes_list. }
  destruct Hw as [Hw Hwb]. change WIPE_CODE_SALT_SIZE with 8. change WIPE_CODE_TAG_SIZE with 8. mstep.
  destruct (random_buffer_ok random 8 s ltac:(lia)) as (salt & n & -> & Hsl & Hsb & Hdr).
  set (s1 := with_rng s n). replace (zlen w + 8 + 8) with (zlen w + 16) by lia.
  destruct (set_val_ok s1 m WIPE_CODE_DATA_KEY None (zlen w + 16)) as (nc & b & E & H & F);
    [done|done|cbn [data_of]; zlen|lia|apply Forall_zrep; unfold is_byte; lia|].
  rewrite (F ltac:(lia)) in *. clear F. cbn [data_of] in H. rewrite E. cbn [negb].
  destruct (update_ok (with_nc s1 nc) _ WIPE_CODE_DATA_KEY [] (zlen w) (zrep 16 255) w (zlen w) H)
    as (nc2 & E2 & H2); try done.
  { rewrite lookup_insert_eq, app_nil_l, <- zrep_app by lia. done. }
  change (zlen []) with 0 in E2. rewrite E2. cbn [negb app] in H2 |- *. rewrite insert_insert_eq in H2.
  set (x := take _ _). assert (Hx : x = salt ++ take 8 (Hmac.hmac_sha256 salt w)).
  { unfold x. change (Z.to_nat (8 + 8)) with 16%nat. unfold zlen in Hsl.
    rewrite take_app_ge by lia. do 2 f_equal. lia. }
  pose proof (tag8_len salt w) as Ht.
  assert (Hxz : zlen x = 16) by (rewrite Hx, zlen_app; lia).
  assert (Hxb : Forall is_byte x).
  { rewrite Hx. apply Forall_app; split; [done|]. apply Forall_take, hmac_len. }
  destruct (update_ok (with_nc (with_nc s1 nc) nc2) _ WIPE_CODE_DATA_KEY w 16 [] x 16 H2)
    as (nc3 & E3 & H3); try done.
  { by rewrite lookup_insert_eq, app_nil_r. }
  rewrite insert_insert_eq, app_nil_r in H3. change (8 + 8) with 16. rewrite E3.
  eexists _, _, salt, (w ++ x). split; [done|]. split; [by split|]. split; [done|]. split; [exact H3|].
  split; [|split; [done|split; [rewrite zlen_app; lia|exact Hdr]]].
  split; [lia|]. split; [done|]. by rewrite lookup_insert_eq, Hx.
Qed.

End WipeCode.

(** ** The keys derived from the PIN *)

Definition kek_salt (hw rs : list Z) (ext : option (list Z)) : list Z :=
  hw ++ take 4 rs ++ match ext with Some e => take 32 e | None => [] end.

(** The key encryption key ([i = 1]) and the initialization vector ([i = 2]). *)
Definition kek_block (hw pin rs : list Z) (ext : option (list Z)) (i : Z) : list Z :=
  Hmac.pbkdf2_hmac_sha256_Final
    (Nat.iter 5 (fun c => Hmac.pbkdf2_hmac_sha256_Update c 2000)
       (Hmac.pbkdf2_hmac_sha256_Init pin (kek_salt hw rs ext) i)).

Definition with_ui (s : storage_state) (rem : Z) : storage_state :=
  StorageState (st_nc s) (initialized s) (unlocked s) (ui_total s) rem (ui_message s)
    (cached_keys s) (authentication_sum s) (hardware_salt s) (Storage.norcow_active_version s)
    (in_progress s) (rng_pos s).

Lemma frame_ui s r : frame s (with_ui s r).
Proof. by split. Qed.

Lemma derive_kek_ok s pin rs ext : ui_total s <> 0 ->
  derive_kek pin rs ext s
  = Ok (kek_block (hardware_salt s) pin rs ext 1, kek_block (hardware_salt s) pin rs ext 2)
      (with_ui s (u32 (ui_rem s - DERIVE_SECS))).
Proof.
  intros Hu. unfold derive_kek. mstep. replace (ui_total s =? 0) with false by (symmetry; by apply Z.eqb_neq).
  unfold kek_block, kek_salt. change (Z.to_nat RANDOM_SALT_SIZE) with 4%nat.
  change (Z.to_nat EXTERNAL_SALT_SIZE) with 32%nat. change (PIN_ITER_COUNT / 10) with 2000.
  unfold set_ui_time. mstep. unfold with_ui. f_equal.
Qed.

(** Each is a block of PBKDF2-HMAC-SHA256 with 10000 iterations. *)
Lemma kek_block_rfc8018 hw pin rs ext i : Forall is_byte pin -> zlen pin < 2 ^ 32 ->
  Forall is_byte hw -> zlen hw = 32 -> Forall is_byte rs ->
  match ext with Some e => Forall is_byte e | None => True end -> is_u32 i ->
  kek_block hw pin rs ext i
  = rfc8018_F (rfc2104 Sha2Spec.fips_sha256 64 pin) (kek_salt hw rs ext) (Z.to_nat 10000) i.
Proof.
  intros Hp Hpl Hh Hhl Hr He Hi.
  assert (Hs : Forall is_byte (kek_salt hw rs ext) /\ zlen (kek_salt hw rs ext) <= 100).
  { unfold kek_salt. split.
    - apply Forall_app; split; [done|]. apply Forall_app; split; [by apply Forall_take|].
      destruct ext; [by apply Forall_take|constructor].
    - rewrite !zlen_app, Hhl. unfold zlen. rewrite length_take.
      destruct ext; rewrite ?length_take; cbn [length]; lia. }
  destruct Hs as [Hs Hsl].
  rewrite (F_ext _ (rfc_hmac Sha2.sha256_alg pin)) by (intros m; symmetry; apply rfc_hmac_sha256).
  pose proof (pbkdf2_block Sha2.sha256_alg (P := sha256_params) pin Hp ltac:(lia) (kek_salt hw rs ext) i 2000
    [2000; 2000; 2000; 2000] Hs Hi) as E.
  change (Z.of_nat (3 * block_len Sha2.sha256_alg)) with 192 in E.
  specialize (E ltac:(lia) ltac:(lia) ltac:(repeat constructor; lia)).
  change (foldr Z.add 2000 [2000; 2000; 2000; 2000]) with 10000 in E. exact E.
Qed.

(** Only the salt in front of the entry matters. *)
Lemma kek_block_take hw pin v ext i : kek_block hw pin v ext i = kek_block hw pin (take 4 v) ext i.
Proof. unfold kek_block, kek_salt. by rewrite take_take. Qed.

#[local] Opaque kek_block.

(** The entry with the keys [ks] sealed under the PIN. *)
Definition pin_seal (kek keiv ks : list Z) : list Z :=
  let c := rfc_cipher kek keiv ks in c ++ take 8 (rfc_tag kek keiv [] c).

Definition pin_at (hw : list Z) (m : gmap Z (list Z)) (ks pin : list Z) (ext : option (list Z)) : Prop :=
  exists rs, zlen rs = 4 /\
    m !! EDEK_PVC_KEY = Some (rs ++ pin_seal (kek_block hw pin rs ext 1) (kek_block hw pin rs ext 2) ks).

Lemma pin_seal_ok kek keiv ks : zlen ks = 48 -> Forall is_byte ks ->
  zlen (pin_seal kek keiv ks) = 56 /\ Forall is_byte (pin_seal kek keiv ks).
Proof.
  intros Hl Hb. unfold pin_seal. set (c := rfc_cipher _ _ _).
  destruct (rfc_tag_ok kek keiv [] c) as [Ht Htb]. split.
  - assert (Hc : zlen c = 48) by (unfold c, zlen; rewrite rfc_cipher_length; exact Hl).
    rewrite zlen_app, Hc. unfold zlen in *. rewrite length_take. lia.
  - apply Forall_app; split; [by apply rfc_cipher_bytes|by apply Forall_take].
Qed.

Section Pin.
Context (random : nat -> Z) (rng_fuel : nat).

Lemma set_pin_ok s m pin ext : holds s m -> keys_ok s -> ui_total s <> 0 ->
  map_used (delete EDEK_PVC_KEY m) + 4 + 60 <= NORCOW_SECTOR_SIZE ->
  (forall v, zlen v = 60 ->
     map_used (delete PIN_NOT_SET_KEY (<[EDEK_PVC_KEY := v]> m)) + 4 + 1 <= NORCOW_SECTOR_SIZE) ->
  exists s' m' v, set_pin random pin ext s = Ok true s' /\ frame s s' /\
    authentication_sum s' = authentication_sum s /\ holds s' m' /\
    pin_at (hardware_salt s) m' (cached_keys s) pin ext /\
    m' = <[PIN_NOT_SET_KEY := [if zlen pin =? 0 then TRUE_BYTE else FALSE_BYTE]]> (<[EDEK_PVC_KEY := v]> m) /\
    zlen v = 60.
Proof.
  intros Hm [Hkl Hkb] Hu Hfit Hfit2. unfold set_pin. mstep.
  change RANDOM_SALT_SIZE with 4. destruct (random_buffer_ok random 4 s ltac:(lia)) as (rs & n & -> & Hrl & Hrb & _).
  rewrite derive_kek_ok by done. cbn [hardware_salt with_rng ui_rem].
  set (kek := kek_block _ _ _ _ 1). set (keiv := kek_block _ _ _ _ 2). set (s1 := with_ui _ _).
  assert (Hkz : zlen (cached_keys s) = 48) by (unfold zlen; by rewrite Hkl).
  destruct (crypt_step 64 u64 kek keiv true 0 [] (rfc7539_init kek keiv) (cached_keys s)
    (init_rep kek keiv) Hkb) as (ctx & E & R). cbn zeta in E, R.
  change (xor_bytes _ _) with (rfc_cipher kek keiv (cached_keys s)) in E, R.
  change (cached_keys s1) with (cached_keys s). rewrite E.
  set (c := rfc_cipher kek keiv (cached_keys s)) in *.
  assert (Hcl : zlen c = 48) by (unfold c, zlen; rewrite rfc_cipher_length; exact Hkz).
  pose proof (finish_rep 64 u64 kek keiv _ [] c ctx R) as Ef. rewrite Hcl in Ef. change (zlen []) with 0 in Ef.
  change KEYS_SIZE with 48. rewrite Ef. unfold bytes_at. change (4 + 48 + PVC_SIZE) with 60.
  assert (Ev : take (Z.to_nat 60) (rs ++ c ++ rfc_tag kek keiv [] c) = rs ++ pin_seal kek keiv (cached_keys s)).
  { unfold pin_seal. fold c. change (Z.to_nat 60) with 60%nat. unfold zlen in Hrl, Hcl.
    rewrite take_app_ge, take_app_ge by lia. do 3 f_equal. lia. }
  rewrite Ev. destruct (pin_seal_ok kek keiv (cached_keys s) Hkz Hkb) as [Hpl Hpb].
  set (v := rs ++ pin_seal kek keiv (cached_keys s)). assert (Hv : zlen v = 60) by (unfold v; rewrite zlen_app; lia).
  destruct (set_ok s1 m EDEK_PVC_KEY v 60 Hm) as (nc & b & E1 & H1 & F1);
    [done|unfold v; by apply Forall_app|done|done|].
  rewrite (F1 Hfit) in *. clear F1. rewrite E1.
  set (x := if zlen pin =? 0 then TRUE_BYTE else FALSE_BYTE).
  assert (Hx : Forall is_byte [x]) by (unfold x; destruct (zlen pin =? 0); [unfold TRUE_BYTE|unfold FALSE_BYTE]; bytes_list).
  destruct (set_ok (with_nc s1 nc) _ PIN_NOT_SET_KEY [x] 1 H1) as (nc2 & b2 & E2 & H2 & F2); try done.
  rewrite (F2 (Hfit2 v Hv)) in *. rewrite E2.
  eexists _, _, v. split; [done|]. split; [by split|]. split; [done|]. split; [exact H2|]. split; [|done].
  exists rs. split; [done|]. by rewrite lookup_insert_ne, lookup_insert_eq.
Qed.

Definition with_keys (s : storage_state) (ks : list Z) : storage_state :=
  StorageState (st_nc s) (initialized s) (unlocked s) (ui_total s) (ui_rem s) (ui_message s)
    ks (authentication_sum s) (hardware_salt s) (Storage.norcow_active_version s)
    (in_progress s) (rng_pos s).

(** The comparison under random masks. *)
Lemma secequal32_loop_ok n : (forall i, is_u32 (random i)) -> forall p1 p2 d s,
  (4 * n <= length p1)%nat -> (4 * n <= length p2)%nat -> Forall is_byte p1 -> Forall is_byte p2 ->
  exists d' k, secequal32_loop random n p1 p2 d s = Ok d' (with_rng s k) /\
    (d' = 0 <-> d = 0 /\ take (4 * n) p1 = take (4 * n) p2).
Proof.
  intros Hr. induction n as [|n IH]; intros p1 p2 d s H1 H2 B1 B2; cbn [secequal32_loop]; mstep.
  { exists d, (rng_pos s). split; [by destruct s|]. rewrite Nat.mul_0_r, !take_0. split; [done|by intros [? _]]. }
  unfold random32, set_rng_pos. mstep.
  set (a := le_val (take 4 p1)). set (b := le_val (take 4 p2)). set (mask := random (rng_pos s)).
  destruct (IH (drop 4 p1) (drop 4 p2) (d .| (u32 (a + mask - b) .^ mask)) (with_rng s (S (rng_pos s))))
    as (d' & k & E & Hd); try (rewrite length_drop; lia); try (by apply Forall_drop).
  revert E. unfold with_rng at 1. cbn -[secequal32_loop]. intros E. rewrite E.
  exists d', k. split; [done|]. rewrite Hd, Z.lor_eq_0_iff, Z.lxor_eq_0_iff.
  assert (L4 : forall p : list Z, (4 * S n <= length p)%nat -> length (take 4 p) = 4%nat) by (intros p Hp; rewrite length_take; lia).
  assert (Ha : is_u32 a).
  { pose proof (le_val_range (take 4 p1) ltac:(by apply Forall_take)) as H. unfold zlen in H. rewrite L4 in H by done. exact H. }
  assert (Hb : is_u32 b).
  { pose proof (le_val_range (take 4 p2) ltac:(by apply Forall_take)) as H. unfold zlen in H. rewrite L4 in H by done. exact H. }
  assert (Hab : u32 (a + mask - b) = mask <-> take 4 p1 = take 4 p2).
  { specialize (Hr (rng_pos s)). fold mask in Hr. unfold is_u32, u32, wrap in *. change (2 ^ 32) with 4294967296.
    split; [|intros Ee; unfold a, b; rewrite Ee; zlia].
    intros Hm. assert (Eab : a = b) by zlia.
    rewrite <- (le_bytes_val (take 4 p1)), <- (le_bytes_val (take 4 p2)) by (by apply Forall_take).
    rewrite !L4 by done. unfold a, b in Eab. by rewrite Eab. }
  assert (Ht : forall p : list Z, take (4 * S n) p = take 4 p ++ take (4 * n) (drop 4 p)).
  { intros p. replace (4 * S n)%nat with (4 + 4 * n)%nat by lia. symmetry. apply take_take_drop. }
  rewrite Hab, !Ht. split.
  - intros [[-> ->] ->]. done.
  - intros [-> Ee]. apply app_inj_1 in Ee; [|by rewrite !L4]. by destruct Ee as [-> ->].
Qed.

Lemma secequal32_ok p1 p2 s : (forall i, is_u32 (random i)) ->
  (8 <= length p1)%nat -> (8 <= length p2)%nat -> Forall is_byte p1 -> Forall is_byte p2 ->
  exists k, secequal32 random p1 p2 8 s = Ok (bool_decide (take 8 p1 = take 8 p2)) (with_rng s k).
Proof.
  intros Hr H1 H2 B1 B2. unfold secequal32. change (Z.to_nat (8 / 4)) with 2%nat. mstep.
  destruct (secequal32_loop_ok 2 Hr p1 p2 0 s) as (d & k & -> & Hd); [lia|lia|done|done|].
  exists k. f_equal. change (4 * 2)%nat with 8%nat in Hd. destruct (Z.eqb_spec d 0) as [E|E].
  - rewrite bool_decide_true; [done|]. by apply Hd.
  - rewrite bool_decide_false; [done|]. intros Ee. apply E. by apply Hd.
Qed.

(** [decrypt_dek] accepts exactly when the PIN verification code matches. *)
Lemma decrypt_dek_ok s m rs ek pvc kek keiv : (forall i, is_u32 (random i)) -> holds s m ->
  initialized s = true -> m !! EDEK_PVC_KEY = Some (rs ++ ek ++ pvc) ->
  zlen rs = 4 -> zlen ek = 48 -> zlen pvc = 8 -> Forall is_byte ek -> Forall is_byte pvc ->
  let ok := bool_decide (take 8 (rfc_tag kek keiv [] ek) = pvc) in
  exists n, decrypt_dek random rng_fuel kek keiv s
    = Ok ok (if ok then with_keys (with_rng s n) (rfc_cipher kek keiv ek) else with_rng s n).
Proof.
  intros Hr Hm Hi He Hrl Hel Hpl Heb Hpb ok. unfold decrypt_dek. mstep.
  rewrite (get_bytes_ok s m), He, Hi by done. change (RANDOM_SALT_SIZE + KEYS_SIZE + PVC_SIZE) with 60.
  change (RANDOM_SALT_SIZE + KEYS_SIZE) with 52. change RANDOM_SALT_SIZE with 4. change KEYS_SIZE with 48.
  change PVC_SIZE with 8. assert (Hz : zlen (rs ++ ek ++ pvc) = 60) by (rewrite !zlen_app; lia).
  rewrite Hz. cbn [negb orb Z.eqb Pos.eqb].
  assert (S1 : slice (rs ++ ek ++ pvc) 4 48 = ek) by (by apply slice_mid).
  assert (S2 : slice (rs ++ ek ++ pvc) 52 8 = pvc).
  { replace (rs ++ ek ++ pvc) with ((rs ++ ek) ++ pvc ++ []) by (by rewrite app_nil_r, <- app_assoc).
    apply slice_mid; [rewrite zlen_app; lia|done]. }
  rewrite S1, S2.
  destruct (crypt_step 64 u64 kek keiv false 0 [] (rfc7539_init kek keiv) ek (init_rep kek keiv) Heb)
    as (ctx & E & R). cbn zeta in E, R.
  change (xor_bytes _ _) with (rfc_cipher kek keiv ek) in E. rewrite E.
  pose proof (finish_rep 64 u64 kek keiv _ [] ek ctx R) as Ef. rewrite Hel in Ef. change (zlen []) with 0 in Ef.
  rewrite Ef. destruct (rfc_tag_ok kek keiv [] ek) as [Htl Htb]. unfold zlen in Htl, Hpl.
  destruct (secequal32_ok (rfc_tag kek keiv [] ek) pvc s Hr) as (n & ->); [lia|lia|done|done|].
  exists n. rewrite (take_ge pvc) by lia. fold ok. by destruct ok.
Qed.

End Pin.

(** ** Properties *)

(** [derive_kek] computes the key encryption key and its initialization vector
    as the first two blocks of RFC 8018 PBKDF2 with HMAC-SHA256 over FIPS SHA-256,
    of 10000 iterations each, on the PIN and the concatenation of the hardware
    salt, the random salt of the entry and the external salt, and changes only the
    time left to display. *)
Theorem derive_kek_rfc8018 s pin rs ext : ui_total s <> 0 -> Forall is_byte pin -> zlen pin < 2 ^ 32 ->
  Forall is_byte (hardware_salt s) -> zlen (hardware_salt s) = 32 -> Forall is_byte rs ->
  match ext with Some e => Forall is_byte e | None => True end ->
  derive_kek pin rs ext s
  = Ok (let prf := rfc2104 Sha2Spec.fips_sha256 64 pin in
        let salt := hardware_salt s ++ take 4 rs ++ match ext with Some e => take 32 e | None => [] end in
        (rfc8018_F prf salt (Z.to_nat 10000) 1, rfc8018_F prf salt (Z.to_nat 10000) 2))
      (with_ui s (u32 (ui_rem s - DERIVE_SECS))).
Proof.
  intros Hu Hp Hpl Hh Hhl Hr He. rewrite derive_kek_ok by exact Hu.
  rewrite !kek_block_rfc8018 by (first [assumption | split; [discriminate|reflexivity]]). reflexivity.
Qed.

Lemma derive_kek_rfc8018_witness :
  derive_kek [49; 50] [1; 2; 3; 4] None demo_store
  = Ok (let prf := rfc2104 Sha2Spec.fips_sha256 64 [49; 50] in
        let salt := hardware_salt demo_store ++ [1; 2; 3; 4] ++ [] in
        (rfc8018_F prf salt (Z.to_nat 10000) 1, rfc8018_F prf salt (Z.to_nat 10000) 2))
      (with_ui demo_store (u32 (ui_rem demo_store - DERIVE_SECS))).
Proof.
  refine (derive_kek_rfc8018 demo_store [49; 50] [1; 2; 3; 4] None _ _ _ _ _ _ I).
  - discriminate.
  - bytes_list.
  - reflexivity.
  - apply bytes_0.
  - reflexivity.
  - bytes_list.
Defined.

End StoragePin.
