(* ===== verification/StorageUnlock.v ===== *)
(** * Wiping and unlocking the storage

    [storage_wipe] leaves a fresh, unlocked, empty store; [storage_unlock] counts
    the attempt in flash before it looks at the PIN, opens the store for the right
    PIN, and wipes it for the wipe code or after the tenth failure. *)

From stdpp Require Import base list numbers gmap.
From Stdlib Require Import ZArith Lia.
From S2P Require Import Prelude Bits Flash Norcow NorcowSpec Hash HashSpec Hmac HmacSpec ChaCha PolySpec AeadSpec PinLog PinLogSpec Storage StorageAuth StorageSpec StorageAccess StoragePin.
Local Open Scope fw_scope.

Module StorageUnlock.
Import Norcow NorcowSpec Hash HashSpec HmacSpec ChaCha AeadSpec PinLog PinLogSpec Storage StorageAuth StorageSpec StorageAccess StoragePin.
#[local] Opaque Hmac.hmac_sha256 rfc_cipher rfc_tag kek_block.

(** ** The contents of a storage in version 3 *)

Definition version_at (dek : list Z) (m : gmap Z (list Z)) (v : Z) : Prop :=
  exists e, m !! VERSION_KEY = Some e /\ sealed dek VERSION_KEY e (le_bytes 4 v).

(** What the flash holds: the keys [ks] authenticate it, the counters are at [c]
    and [e], and [wc] is the wipe code.  At most ten failures have been counted and
    the success counter never passes 240, so the logs cannot run out. *)
Record disk (m : gmap Z (list Z)) (ks : list Z) (c e : Z) (wc salt : list Z) : Prop := {
  dk_keys : length ks = 48%nat /\ Forall is_byte ks;
  dk_lock : m !! UNAUTH_VERSION_KEY = Some (le_bytes 4 NORCOW_VERSION);
  dk_upgraded : m !! STORAGE_UPGRADED_KEY = Some (le_bytes 4 FALSE_WORD);
  dk_logs : logs_at m c e;
  dk_range : 0 <= c <= 240 /\ c <= e <= c + 10;
  dk_wipe : wipe_at m wc salt;
  dk_tag : tag_ok (drop 32 ks) m;
  dk_version : version_at (take 32 ks) m NORCOW_VERSION;
}.

(** The static variables of an initialized storage. *)
Record ready (s : storage_state) (m : gmap Z (list Z)) : Prop := {
  rd_holds : holds s m;
  rd_init : initialized s = true;
  rd_version : Storage.norcow_active_version s = NORCOW_VERSION;
}.

Lemma ready_frame s s' m m' : ready s m -> frame s s' -> holds s' m' -> ready s' m'.
Proof.
  intros [_ Hi Hv] F H. split; [done| |]; [rewrite (fr_init _ _ F)|rewrite (fr_version _ _ F)]; done.
Qed.

Definition ready' (s s' : storage_state) (m' : gmap Z (list Z)) : Prop :=
  holds s' m' /\ initialized s' = true /\ hardware_salt s' = hardware_salt s /\
  Storage.norcow_active_version s' = Storage.norcow_active_version s.

(** The entries of the store other than the PIN logs stay. *)
Definition same_but_logs (m m' : gmap Z (list Z)) : Prop :=
  forall k, k <> PIN_LOGS_KEY -> m' !! k = m !! k.

Lemma auth_sum_same_dom sak m m' : dom m = dom m' -> auth_sum sak m = auth_sum sak m'.
Proof. intros E. unfold auth_sum. by rewrite E. Qed.

Lemma same_but_logs_dom m m' : same_but_logs m m' -> is_Some (m !! PIN_LOGS_KEY) -> is_Some (m' !! PIN_LOGS_KEY) ->
  dom m = dom m'.
Proof.
  intros H H1 H2. apply set_eq. intros k. rewrite !elem_of_dom.
  destruct (decide (k = PIN_LOGS_KEY)) as [->|Hk]; [done|]. by rewrite H.
Qed.

Lemma logs_at_some m c e : logs_at m c e -> is_Some (m !! PIN_LOGS_KEY).
Proof. intros (gk & mask & guard & _ & _ & ->). done. Qed.

Lemma same_logs_sum sak m m' c e c' e' : same_but_logs m m' -> logs_at m c e -> logs_at m' c' e' ->
  auth_sum sak m' = auth_sum sak m.
Proof.
  intros H L L'. symmetry. apply auth_sum_same_dom, same_but_logs_dom; eauto using logs_at_some.
Qed.

Lemma disk_logs m m' ks c e wc salt c' e' : disk m ks c e wc salt -> same_but_logs m m' ->
  logs_at m' c' e' -> 0 <= c' <= 240 /\ c' <= e' <= c' + 10 -> disk m' ks c' e' wc salt.
Proof.
  intros [] H L Hr. split; auto; try (by rewrite H).
  - destruct dk_wipe0 as (? & ? & E). split; [done|]. split; [done|]. by rewrite H.
  - unfold tag_ok, auth_tag. rewrite H by done. rewrite (same_logs_sum _ m m' c e c' e') by done. done.
  - destruct dk_version0 as (x & E & Hs). exists x. by rewrite H.
Qed.

Lemma holds_bytes s m k v : holds s m -> m !! k = Some v -> Forall is_byte v.
Proof.
  intros (items & R & <-) Hv. pose proof (rep_ok _ _ R) as Hok. clear R.
  induction items as [|it items IH]; cbn [contents] in Hv; [by rewrite lookup_empty in Hv|].
  apply Forall_cons_iff in Hok as [Hit Hok]. destruct (live it); [|auto].
  rewrite lookup_insert in Hv. case_decide; [injection Hv as <-; apply Hit|auto].
Qed.

(** ** Entries that the tag does not cover *)

Lemma auth_ok_set s s' m k v : auth_ok s m -> is_protected k = false -> k <> STORAGE_TAG_KEY ->
  frame s s' -> authentication_sum s' = authentication_sum s -> holds s' (<[k := v]> m) ->
  auth_ok s' (<[k := v]> m).
Proof.
  intros [Hm Hk Ht Hs] Hp Hne F Es H. split; [done| | |]; rewrite ?(frame_sak _ _ F).
  - unfold keys_ok. by rewrite (fr_keys _ _ F).
  - unfold tag_ok, auth_tag. rewrite lookup_insert_ne, auth_sum_unprotected by done. exact Ht.
  - by rewrite Es, auth_sum_unprotected.
Qed.

(** A plain [norcow_set] of a reserved key in [init_wiped_storage]. *)
Lemma set_reserved_ok s m k v len : auth_ok s m -> valid_key k -> is_protected k = false ->
  k <> STORAGE_TAG_KEY -> Forall is_byte v -> len = zlen v -> map_used m + 4 + len <= NORCOW_SECTOR_SIZE ->
  exists s', lift (norcow_set k (Some v) len) s = Ok true s' /\ frame s s' /\ auth_ok s' (<[k := v]> m).
Proof.
  intros A Hk Hp Hne Hb -> Hfit. pose proof (map_used_delete_le m k). pose proof (zlen_nonneg v).
  destruct (set_ok s m k v (zlen v) (ao_holds _ _ A) Hk Hb eq_refl) as (nc & b & E & H' & F).
  { apply (fits_len m). lia. }
  rewrite (F ltac:(lia)) in *. exists (with_nc s nc). split; [done|]. split; [apply frame_nc|].
  by apply (auth_ok_set s _ m k v A).
Qed.

(** ** The wiped store *)

Section Wipe.
Context (random : nat -> Z) (rng_fuel : nat) {Rng : RngOk random rng_fuel}.
Context (on_fault : forall A, fault_msg -> ST A).

(** The part of [init_wiped_storage] after the keys were drawn: authentication tag
    and versions. *)
Lemma auth_init_ok s : holds s ∅ -> keys_ok s ->
  exists s', auth_init s = Ok true s' /\ frame s s' /\ auth_ok s' (retag (cached_sak s) ∅).
Proof.
  intros Hm Hk. destruct (keys_sak s Hk) as [Hb Hl]. unfold auth_init, set_authentication_sum. mstep.
  set (s1 := StorageState _ _ _ _ _ _ _ _ _ _ _ _). unfold bytes_at.
  change (Z.to_nat STORAGE_TAG_SIZE) with 16%nat. change (cached_sak s1) with (cached_sak s).
  change (take 16 (Hmac.hmac_sha256 (cached_sak s) (authentication_sum s1))) with (auth_tag (cached_sak s) ∅).
  destruct (set_ok s1 ∅ STORAGE_TAG_KEY (auth_tag (cached_sak s) ∅) STORAGE_TAG_SIZE) as (nc & b & E & H & F);
    [done|done|by apply auth_tag_ok|by rewrite auth_tag_zlen|done|].
  rewrite F in * by done. rewrite E. eexists. split; [done|]. split; [by split|].
  split; [done|done|apply tag_ok_retag|]. rewrite auth_sum_retag. done.
Qed.

Lemma version_bytes v : Forall is_byte (le_bytes 4 v) /\ zlen (le_bytes 4 v) = 4.
Proof. split; [apply le_bytes_byte|by rewrite zlen_le_bytes]. Qed.

(** The reserved entries that are never protected. *)
Definition reserved (k : Z) : Prop := 0 < k < 256.

Lemma reserved_ok k : reserved k -> valid_key k /\ is_protected k = false.
Proof.
  intros Hk. unfold reserved in Hk. split; [unfold valid_key, NORCOW_KEY_FREE; lia|].
  unfold is_protected. rewrite Z.shiftr_div_pow2 by lia. change (2 ^ 8) with 256.
  rewrite Z.div_small by lia. done.
Qed.

Lemma user_not_reserved k j : user_key k -> reserved j -> k <> j.
Proof. unfold user_key, reserved. lia. Qed.

Local Abbreviation N := NORCOW_VERSION.

(** First half: tag, authenticated version, lock version and upgrade flag. *)
Lemma init_versions_ok s : holds s ∅ -> keys_ok s ->
  exists s' m', init_versions random s = Ok tt s' /\
    frame s s' /\ auth_ok s' m' /\ version_at (cached_dek s) m' N /\
    m' !! UNAUTH_VERSION_KEY = Some (le_bytes 4 N) /\
    m' !! STORAGE_UPGRADED_KEY = Some (le_bytes 4 FALSE_WORD) /\
    (forall k, user_key k -> m' !! k = None) /\ map_used m' <= 200.
Proof.
  intros Hm Hk. destruct (keys_sak s Hk) as [Hsb Hsl]. set (sak := cached_sak s) in *.
  unfold init_versions. mstep.
  destruct (auth_init_ok s Hm Hk) as (s1 & E1 & F1 & A1). fold sak in A1. rewrite E1. unfold Storage.ensure at 1. mstep.
  set (m1 := retag sak ∅) in A1.
  assert (U1 : map_used m1 = 28).
  { unfold m1, retag. rewrite map_used_insert, auth_tag_zlen by done. done. }
  assert (K1 : cached_sak s1 = sak) by (by apply frame_sak).
  destruct (version_bytes N) as [Vb Vl]. destruct (version_bytes FALSE_WORD) as [Wb Wl].
  destruct (storage_set_encrypted_ok random s1 m1 VERSION_KEY (le_bytes 4 N) A1) as (s2 & iv & E2 & F2 & Hil & Hib & A2);
    [done|done|done|pose proof (map_used_delete_le m1 VERSION_KEY); rewrite Vl; change NORCOW_SECTOR_SIZE with 65536; lia|].
  rewrite E2. unfold Storage.ensure at 1. mstep. rewrite K1, (frame_dek _ _ F1) in A2.
  set (e := enc_entry (cached_dek s) iv VERSION_KEY (le_bytes 4 N)) in A2. set (m2 := retag sak _) in A2.
  assert (He : zlen e = 32).
  { unfold e, enc_entry. rewrite !zlen_app, (proj1 (rfc_tag_ok _ _ _ _)). unfold zlen at 2.
    rewrite rfc_cipher_length. unfold zlen in *. lia. }
  assert (U2 : map_used m2 <= 64).
  { unfold m2. rewrite map_used_retag; [|done|done|].
    - pose proof (map_used_insert_le m1 VERSION_KEY e) as H. rewrite He in H. change (entry_size 32) with 36 in H. lia.
    - rewrite lookup_insert_ne by done. exists (auth_tag sak ∅). split; [by apply lookup_insert_eq|by apply auth_tag_zlen]. }
  destruct (set_reserved_ok s2 m2 UNAUTH_VERSION_KEY (le_bytes 4 N) 4 A2) as (s3 & E3 & F3 & A3);
    [done|done|done|done|done|change NORCOW_SECTOR_SIZE with 65536; lia|].
  rewrite E3. unfold Storage.ensure at 1. mstep.
  set (m3 := <[UNAUTH_VERSION_KEY := le_bytes 4 N]> m2) in *.
  assert (U3 : map_used m3 <= 75).
  { pose proof (map_used_insert_le m2 UNAUTH_VERSION_KEY (le_bytes 4 N)) as H. rewrite Vl in H. change (entry_size 4) with 8 in H. unfold m3. lia. }
  destruct (set_reserved_ok s3 m3 STORAGE_UPGRADED_KEY (le_bytes 4 FALSE_WORD) 4 A3) as (s4 & E4 & F4 & A4);
    [done|done|done|done|done|change NORCOW_SECTOR_SIZE with 65536; lia|].
  rewrite E4. unfold Storage.ensure. mstep. eexists s4, _. split; [done|].
  split; [by transitivity s1; [|transitivity s2; [|transitivity s3]]|]. split; [exact A4|]. split; [|split; [|split; [|split]]].
  - exists e. rewrite lookup_insert_ne by done. unfold m3, m2. rewrite lookup_insert_ne by done.
    rewrite lookup_retag_ne, lookup_insert_eq by done. split; [done|]. by exists iv.
  - unfold m3. by rewrite lookup_insert_ne, lookup_insert_eq.
  - by rewrite lookup_insert_eq.
  - intros k Huk. assert (Hne : forall j, reserved j -> j <> k)
      by (intros j Hj ->; unfold user_key, reserved in *; lia).
    unfold m3, m2, m1, retag. rewrite !lookup_insert_ne by (apply Hne; done). done.
  - pose proof (map_used_insert_le m3 STORAGE_UPGRADED_KEY (le_bytes 4 FALSE_WORD)) as H. rewrite Wl in H.
    change (entry_size 4) with 8 in H. lia.
Qed.

Lemma init_wiped_storage_ok s : holds s ∅ -> initialized s = true ->
  exists s' m' salt, init_wiped_storage random rng_fuel on_fault s = Ok tt s' /\ ready' s s' m' /\
    disk m' (cached_keys s') 0 0 WIPE_CODE_EMPTY salt /\
    pin_at (hardware_salt s) m' (cached_keys s') PIN_EMPTY None /\ st_rep s' m' ∅ /\
    drawn random 48 (cached_keys s') /\ drawn random 8 salt /\ map_used m' <= 600 /\
    m' !! PIN_NOT_SET_KEY = Some [TRUE_BYTE].
Proof.
  intros Hm Hi. unfold init_wiped_storage. mstep. rewrite Hi. cbn [negb].
  change KEYS_SIZE with 48. destruct (random_buffer_ok random 48 s ltac:(lia)) as (ks & n & -> & Hkl & Hkb & Hkd).
  unfold set_cached_keys, set_unlocked. mstep.
  set (s0' := StorageState (st_nc (with_rng s n)) _ _ _ _ _ _ _ _ _ _ _). set (s0 := StorageState (st_nc s0') _ _ _ _ _ _ _ _ _ _ _).
  assert (Hk0 : keys_ok s0) by (split; [unfold zlen in Hkl; cbn; lia|done]).
  assert (Hm0 : holds s0 ∅) by exact Hm.
  destruct (init_versions_ok s0 Hm0 Hk0) as (s1 & m1 & -> & F1 & A1 & V1 & L1 & G1 & N1 & U1).
  assert (Hfit : forall m k len, map_used m <= 1000 -> len <= 1000 -> map_used (delete k m) + 4 + len <= NORCOW_SECTOR_SIZE).
  { intros m k len H1 H2. pose proof (map_used_delete_le m k). change NORCOW_SECTOR_SIZE with 65536. lia. }
  destruct (pin_logs_init_ok on_fault random rng_fuel s1 m1 0 (ao_holds _ _ A1) ltac:(lia) ltac:(apply Hfit; lia))
    as (s2 & m2 & v2 & -> & F2 & S2 & H2 & Lg2 & M2 & Z2). unfold Storage.ensure at 1. mstep.
  assert (U2 : map_used m2 <= 400).
  { rewrite M2. pose proof (map_used_insert_le m1 PIN_LOGS_KEY v2) as H. rewrite Z2 in H. change (entry_size 132) with 136 in H. lia. }
  destruct (set_wipe_code_ok random s2 m2 WIPE_CODE_EMPTY H2) as (s3 & m3 & salt & v3 & -> & F3 & S3 & H3 & W3 & M3 & Z3 & Sd3);
    [unfold WIPE_CODE_EMPTY; bytes_list|done|apply Hfit; lia|].
  unfold Storage.ensure at 1. mstep. change (zlen WIPE_CODE_EMPTY =? 0) with false in W3. cbn match in W3.
  assert (U3 : map_used m3 <= 500).
  { rewrite M3. pose proof (map_used_insert_le m2 WIPE_CODE_DATA_KEY v3) as H.
    pose proof (entry_size_bound (zlen v3) (zlen_nonneg v3)). lia. }
  unfold set_ui_time, set_ui_message. mstep. 
  set (s3' := StorageState (st_nc s3) _ _ _ _ _ _ _ _ _ _ _). set (s4 := StorageState (st_nc s3') _ _ _ _ _ _ _ _ _ _ _).
  assert (F3' : frame s0 s3) by (transitivity s1; [done|]; by transitivity s2).
  destruct (set_pin_ok random s4 m3 PIN_EMPTY None) as (s5 & m5 & v5 & -> & F5 & S5 & H5 & P5 & M5 & Z5);
    [done|unfold keys_ok; change (cached_keys s4) with (cached_keys s3); by rewrite (fr_keys _ _ F3')|done|apply Hfit; lia| |].
  { intros v Hv. apply Hfit; [|lia]. pose proof (map_used_insert_le m3 EDEK_PVC_KEY v) as H. rewrite Hv in H.
    change (entry_size 60) with 64 in H. lia. }
  unfold Storage.ensure. mstep.
  assert (Ks : cached_keys s5 = ks) by exact (eq_trans (fr_keys _ _ F5) (fr_keys _ _ F3')).
  assert (Hi5 : initialized s5 = true) by exact (eq_trans (fr_init _ _ F5) (eq_trans (fr_init _ _ F3') Hi)).
  assert (Hu5 : unlocked s5 = true) by exact (eq_trans (fr_unlocked _ _ F5) (fr_unlocked _ _ F3')).
  assert (O : forall k, k <> PIN_LOGS_KEY -> k <> WIPE_CODE_DATA_KEY -> k <> EDEK_PVC_KEY -> k <> PIN_NOT_SET_KEY ->
    m5 !! k = m1 !! k).
  { intros k ? ? ? ?. rewrite M5, M3, M2. by rewrite !lookup_insert_ne. }
  assert (Sk : cached_sak s5 = cached_sak s1).
  { unfold cached_sak. rewrite Ks. by rewrite (fr_keys _ _ F1). }
  assert (Es : forall sak, auth_sum sak m5 = auth_sum sak m1).
  { intros sak. rewrite M5, M3, M2. by rewrite !auth_sum_unprotected. }
  assert (T5 : tag_ok (cached_sak s5) m5).
  { unfold tag_ok, auth_tag. rewrite O, Es, Sk by done. apply (ao_tag _ _ A1). }
  exists s5, m5, salt. split; [done|]. split; [|split; [|split; [|split; [|split; [by rewrite Ks|split; [done|split]]]]]].
  - split; [done|]. split; [done|].
    split; [exact (eq_trans (fr_salt _ _ F5) (fr_salt _ _ F3'))|exact (eq_trans (fr_version _ _ F5) (fr_version _ _ F3'))].
  - split.
    + rewrite Ks. split; [unfold zlen in Hkl; lia|done].
    + by rewrite O.
    + by rewrite O.
    + destruct Lg2 as (gk & mask & guard & Hg & He & Hl). exists gk, mask, guard. split; [done|]. split; [done|].
      rewrite M5, M3, !lookup_insert_ne by done. exact Hl.
    + lia.
    + destruct W3 as (? & ? & Hw). split; [done|]. split; [done|]. rewrite M5, !lookup_insert_ne by done. exact Hw.
    + exact T5.
    + destruct V1 as (e & Hv & Hs). exists e. rewrite O, Ks by done. split; [done|]. exact Hs.
  - assert (Hs4 : hardware_salt s4 = hardware_salt s) by apply (fr_salt _ _ F3').
    assert (Hk4 : cached_keys s4 = ks) by apply (fr_keys _ _ F3').
    rewrite Hs4, Hk4 in P5. by rewrite Ks.
  - split.
    + done.
    + done.
    + split; [done|unfold keys_ok; by rewrite Ks; split; [unfold zlen in Hkl; lia|]|exact T5|].
      rewrite S5. change (authentication_sum s4) with (authentication_sum s3).
      rewrite S3, S2, (ao_sum _ _ A1), Es. by rewrite Sk.
    + intros k Hk. unfold entry_rep. rewrite lookup_empty. rewrite O; [by apply N1|..];
        apply user_not_reserved; done.
  - rewrite M5. etransitivity; [apply map_used_insert_le|]. change (entry_size (zlen [_])) with 8.
    pose proof (map_used_insert_le m3 EDEK_PVC_KEY v5) as H. rewrite Z5 in H. change (entry_size 60) with 64 in H. lia.
  - rewrite M5. apply lookup_insert_eq.
Qed.


(** The result of [storage_wipe]: an unlocked, empty store with the empty PIN, no
    wipe code and keys drawn from the generator, whatever the flash held before. *)
Definition wiped (s s' : storage_state) : Prop :=
  exists m' salt, ready s' m' /\ hardware_salt s' = hardware_salt s /\
    disk m' (cached_keys s') 0 0 WIPE_CODE_EMPTY salt /\
    pin_at (hardware_salt s) m' (cached_keys s') PIN_EMPTY None /\ st_rep s' m' ∅ /\
    drawn random 48 (cached_keys s') /\ drawn random 8 salt /\ map_used m' <= 600 /\
    m' !! PIN_NOT_SET_KEY = Some [TRUE_BYTE].

Lemma storage_wipe_ok s : flash_wf (nc_flash (st_nc s)) -> idx (norcow_active_sector (st_nc s)) ->
  initialized s = true ->
  exists s', storage_wipe random rng_fuel on_fault s = Ok tt s' /\ wiped s s'.
Proof.
  intros Hwf Hidx Hi. unfold storage_wipe, _storage_wipe. mstep.
  destruct (norcow_wipe_rep (st_nc s) Hwf Hidx) as (nc & E & R & _). rewrite (lift_ok _ _ _ _ E).
  unfold set_active_version, set_authentication_sum, set_cached_keys. mstep.
  match goal with |- context [init_wiped_storage _ _ _ ?x] => set (s1 := x) end.
  destruct (init_wiped_storage_ok s1) as (s' & m' & salt & E' & (H' & Hi' & Hs' & Hv') & D & P & St & Dr).
  - by exists [].
  - exact Hi.
  - exists s'. split; [exact E'|]. exists m', salt. split; [by split|]. split; [exact Hs'|]. by split.
Qed.

Lemma holds_flash s m : holds s m -> flash_wf (nc_flash (st_nc s)) /\ idx (norcow_active_sector (st_nc s)).
Proof. intros (items & R & _). split; apply R. Qed.

End Wipe.

(** ** Unlocking *)

Section Unlock.
Context (random : nat -> Z) (rng_fuel : nat) {Rng : RngOk random rng_fuel}.
Local Abbreviation N := NORCOW_VERSION.

Lemma get_lock_version_ok s m : holds s m -> m !! UNAUTH_VERSION_KEY = Some (le_bytes 4 N) ->
  get_lock_version random rng_fuel s = Ok N s.
Proof. intros Hm Hl. unfold get_lock_version. mstep. by rewrite (get_bytes_ok s m), Hl. Qed.

Lemma get_version_ok s m : holds s m -> keys_ok s -> tag_ok (cached_sak s) m -> version_at (cached_dek s) m N ->
  get_version random rng_fuel s = Ok N (with_sum s (auth_sum (cached_sak s) m)).
Proof.
  intros Hm Hk Ht (e & He & Hs). unfold get_version. mstep.
  rewrite (storage_get_encrypted_ok random rng_fuel s m VERSION_KEY (Some (le_bytes 4 N)) (Some 4)) by (eauto).
  reflexivity.
Qed.

Lemma storage_upgrade_unlocked_ok s m pin ext : holds s m -> keys_ok s -> tag_ok (cached_sak s) m ->
  version_at (cached_dek s) m N ->
  storage_upgrade_unlocked random rng_fuel pin ext s = Ok true (with_sum s (auth_sum (cached_sak s) m)).
Proof.
  intros Hm Hk Ht Hv. unfold storage_upgrade_unlocked. mstep. by rewrite (get_version_ok s m).
Qed.

Lemma check_storage_version_ok s m : ready s m -> keys_ok s -> tag_ok (cached_sak s) m ->
  version_at (cached_dek s) m N -> m !! UNAUTH_VERSION_KEY = Some (le_bytes 4 N) ->
  m !! STORAGE_UPGRADED_KEY = Some (le_bytes 4 FALSE_WORD) ->
  check_storage_version random rng_fuel s = Ok true (with_sum s (auth_sum (cached_sak s) m)).
Proof.
  intros [Hm Hi Ha] Hk Ht Hv Hl Hu. unfold check_storage_version. mstep. rewrite (get_version_ok s m) by done.
  set (s' := with_sum s _). assert (Hm' : holds s' m) by exact Hm.
  rewrite (get_lock_version_ok s' m) by done. change (N =? N) with true. cbn [negb].
  rewrite (get_bytes_ok s' m), Hu by done. change (zlen (le_bytes 4 FALSE_WORD) =? 4) with true. cbn [negb].
  change (Storage.norcow_active_version s') with (Storage.norcow_active_version s). rewrite Ha. reflexivity.
Qed.

(** Whether the PIN opens the entry of the encrypted keys. *)
Definition pin_opens (hw : list Z) (m : gmap Z (list Z)) (pin : list Z) (ext : option (list Z)) : bool :=
  match m !! EDEK_PVC_KEY with
  | Some v =>
      let rs := take 4 v in let ek := take 48 (drop 4 v) in let pvc := drop 52 v in
      bool_decide (take 8 (rfc_tag (kek_block hw pin rs ext 1) (kek_block hw pin rs ext 2) [] ek) = pvc)
  | None => false
  end.

(** The keys it opens. *)
Definition pin_keys (hw : list Z) (m : gmap Z (list Z)) (pin : list Z) (ext : option (list Z)) : list Z :=
  match m !! EDEK_PVC_KEY with
  | Some v =>
      let rs := take 4 v in
      rfc_cipher (kek_block hw pin rs ext 1) (kek_block hw pin rs ext 2) (take 48 (drop 4 v))
  | None => []
  end.

Definition edek_ok (m : gmap Z (list Z)) : Prop := exists v, m !! EDEK_PVC_KEY = Some v /\ zlen v = 60.

(** The right PIN opens the entry and yields the keys. *)
Lemma pin_at_opens hw m ks pin ext : zlen ks = 48 -> Forall is_byte ks -> pin_at hw m ks pin ext ->
  edek_ok m /\ pin_opens hw m pin ext = true /\ pin_keys hw m pin ext = ks.
Proof.
  intros Hl Hb (rs & Hrl & He). set (kek := kek_block hw pin rs ext 1) in *. set (keiv := kek_block hw pin rs ext 2) in *.
  destruct (pin_seal_ok kek keiv ks Hl Hb) as [Hpl _]. unfold pin_seal in *. set (c := rfc_cipher kek keiv ks) in *.
  assert (Hcl : length c = 48%nat) by (unfold c; rewrite rfc_cipher_length; unfold zlen in Hl; lia).
  unfold zlen in Hrl.
  assert (E1 : take 4 (rs ++ c ++ take 8 (rfc_tag kek keiv [] c)) = rs) by (apply take_app_length'; lia).
  assert (E2 : take 48 (drop 4 (rs ++ c ++ take 8 (rfc_tag kek keiv [] c))) = c).
  { rewrite drop_app_length' by lia. apply take_app_length'. lia. }
  assert (E3 : drop 52 (rs ++ c ++ take 8 (rfc_tag kek keiv [] c)) = take 8 (rfc_tag kek keiv [] c)).
  { rewrite app_assoc. apply drop_app_length'. rewrite length_app. lia. }
  split; [eexists; split; [exact He|rewrite zlen_app; unfold zlen at 1; rewrite Hpl; lia]|].
  unfold pin_opens, pin_keys. rewrite He. cbn zeta. rewrite E1, E2, E3. fold kek keiv.
  split; [by apply bool_decide_true|]. apply rfc_cipher_involutive.
Qed.

(** The part of [unlock] up to the PIN check: the attempt is counted. *)
Lemma unlock_counts s m ks c e wc salt pin ext : ready s m -> disk m ks c e wc salt -> edek_ok m ->
  ui_total s <> 0 -> is_wipe_code wc salt pin = false -> e < c + 10 ->
  exists s1 m1, ready s1 m1 /\ frame s s1 /\ same_but_logs m m1 /\ disk m1 ks c (e + 1) wc salt /\
    unlock random rng_fuel pin ext s
    = (ok ← decrypt_dek random rng_fuel (kek_block (hardware_salt s) pin (take 4 (default [] (m !! EDEK_PVC_KEY))) ext 1)
              (kek_block (hardware_salt s) pin (take 4 (default [] (m !! EDEK_PVC_KEY))) ext 2);
       if negb ok then
         if PIN_MAX_TRIES <=? u32 (e - c + 1) then pin_max_reached random rng_fuel else mret false
       else
         ok ← storage_upgrade_unlocked random rng_fuel pin ext;
         if negb ok then mret false
         else
           ok ← check_storage_version random rng_fuel;
           if negb ok then mret false
           else set_unlocked true ;; pin_fails_reset random rng_fuel (@handle_fault random rng_fuel)) s1.
Proof.
  intros Rd D (v & Hv & Hvl) Hu Hw He. pose proof (rd_holds _ _ Rd) as Hm. destruct (dk_range _ _ _ _ _ _ D) as [Hc Hce].
  set (s0 := with_ui s (u32 (ui_rem s - DERIVE_SECS))). assert (Hm0 : holds s0 m) by exact Hm.
  destruct (fails_increase_ok (@handle_fault random rng_fuel) s0 m c e Hm0 (rd_init _ _ Rd) (dk_logs _ _ _ _ _ _ D))
    as (nc & m1 & E1 & H1 & L1 & O1); [lia|lia|].
  assert (F1 : frame s (with_nc s0 nc)) by (by split).
  exists (with_nc s0 nc), m1. split; [by apply (ready_frame s _ m)|]. split; [done|]. split; [exact O1|].
  split; [apply (disk_logs m m1 ks c e); [done|done|done|lia]|].
  unfold unlock. mstep. rewrite (get_lock_version_ok s m) by (done || apply D).
  change (N <=? 2) with false. cbn match. unfold ensure_not_wipe_code. mstep.
  rewrite (is_not_wipe_code_ok random rng_fuel s m wc salt) by (done || apply D). rewrite Hw. cbn [negb]. mstep.
  rewrite (pin_get_fails_ok _ s m c e) by (done || apply D || lia).
  change PIN_MAX_TRIES with 10. zif. rewrite (get_bytes_ok s m) by done. rewrite Hv, (rd_init _ _ Rd), Hvl.
  change (60 =? RANDOM_SALT_SIZE + KEYS_SIZE + PVC_SIZE) with true. cbn [negb orb default].
  rewrite derive_kek_ok by done. fold s0.
  assert (Hkb : forall i, kek_block (hardware_salt s) pin v ext i = kek_block (hardware_salt s) pin (take 4 v) ext i).
  { intros i. apply kek_block_take. }
  rewrite !Hkb, E1. cbn [negb].
  rewrite (pin_get_fails_ok _ (with_nc s0 nc) m1 c (e + 1)) by (done || lia).
  rewrite u32_small by lia. replace (e + 1 - c) with (e - c + 1) by lia. by rewrite Z.eqb_refl.
Qed.

Lemma edek_split (v : list Z) : zlen v = 60 -> exists rs ek pvc, v = rs ++ ek ++ pvc /\
  zlen rs = 4 /\ zlen ek = 48 /\ zlen pvc = 8 /\ rs = take 4 v /\ ek = take 48 (drop 4 v) /\ pvc = drop 52 v.
Proof.
  intros Hl. exists (take 4 v), (take 48 (drop 4 v)), (drop 52 v). unfold zlen in *.
  rewrite !length_take, !length_drop. split; [|split; [lia|split; [lia|split; [lia|done]]]].
  change 52%nat with (4 + 48)%nat. by rewrite <- drop_drop, take_drop, take_drop.
Qed.

(** [decrypt_dek] in terms of the entry. *)
Lemma decrypt_entry s m pin ext : ready s m -> edek_ok m ->
  exists n, decrypt_dek random rng_fuel
      (kek_block (hardware_salt s) pin (take 4 (default [] (m !! EDEK_PVC_KEY))) ext 1)
      (kek_block (hardware_salt s) pin (take 4 (default [] (m !! EDEK_PVC_KEY))) ext 2) s
    = Ok (pin_opens (hardware_salt s) m pin ext)
        (if pin_opens (hardware_salt s) m pin ext
         then with_keys (with_rng s n) (pin_keys (hardware_salt s) m pin ext) else with_rng s n).
Proof.
  intros Rd (v & Hv & Hvl). pose proof (holds_bytes s m _ _ (rd_holds _ _ Rd) Hv) as Hb.
  destruct (edek_split v Hvl) as (rs & ek & pvc & Ev & Hr & He & Hp & Er & Ee & Ep).
  unfold pin_opens, pin_keys. rewrite Hv. change (default [] (Some v)) with v. rewrite <- Er, <- Ee, <- Ep.
  rewrite Ev in Hb. apply Forall_app in Hb as [_ Hb]. apply Forall_app in Hb as [Heb Hpb].
  clear Er Ee Ep. generalize (kek_block (hardware_salt s) pin rs ext 1) (kek_block (hardware_salt s) pin rs ext 2).
  intros kek keiv. rewrite Ev in Hv.
  exact (decrypt_dek_ok random rng_fuel s m rs ek pvc kek keiv rng_u32 (rd_holds _ _ Rd) (rd_init _ _ Rd) Hv Hr He Hp Heb Hpb).
Qed.

(** The outcomes of [unlock], for a PIN that is not the wipe code. *)
Section Attempt.
Context (s : storage_state) (m : gmap Z (list Z)) (ks : list Z) (c e : Z) (wc salt pin : list Z) (ext : option (list Z)).
Context (Rd : ready s m) (D : disk m ks c e wc salt) (Ed : edek_ok m) (Hu : ui_total s <> 0).
Local Abbreviation hw := (hardware_salt s).

Lemma pin_opens_same m' : same_but_logs m m' -> pin_opens hw m' pin ext = pin_opens hw m pin ext.
Proof. intros H. unfold pin_opens. by rewrite H. Qed.

Lemma pin_keys_same m' : same_but_logs m m' -> pin_keys hw m' pin ext = pin_keys hw m pin ext.
Proof. intros H. unfold pin_keys. by rewrite H. Qed.

Lemma edek_same m' : same_but_logs m m' -> edek_ok m'.
Proof. intros H. unfold edek_ok. by rewrite H. Qed.

Lemma unlock_wrong : is_wipe_code wc salt pin = false -> e < c + 9 -> pin_opens hw m pin ext = false ->
  exists s' m', unlock random rng_fuel pin ext s = Ok false s' /\ ready s' m' /\ frame s s' /\
    same_but_logs m m' /\ disk m' ks c (e + 1) wc salt.
Proof.
  intros Hw He Ho. destruct (unlock_counts s m ks c e wc salt pin ext Rd D Ed Hu Hw ltac:(lia))
    as (s1 & m1 & R1 & F1 & O1 & D1 & ->). mstep. pose proof (dk_range _ _ _ _ _ _ D) as [? ?].
  destruct (decrypt_entry s1 m1 pin ext R1 (edek_same _ O1)) as (n & E).
  rewrite (fr_salt _ _ F1), O1 in E by done. rewrite E. rewrite (pin_opens_same m1 O1), Ho. cbn [negb].
  change PIN_MAX_TRIES with 10. rewrite u32_small by lia. zif. mstep.
  exists (with_rng s1 n), m1. split; [done|]. split; [apply (ready_frame s1 _ m1 m1); [done|apply frame_rng|apply (rd_holds _ _ R1)]|].
  split; [|done]. transitivity s1; [done|apply frame_rng].
Qed.

(** The tenth failure wipes. *)
Lemma unlock_last : is_wipe_code wc salt pin = false -> e = c + 9 -> pin_opens hw m pin ext = false ->
  exists s', unlock random rng_fuel pin ext s = Halt Restart s' /\ wiped random s s'.
Proof.
  intros Hw He Ho. destruct (unlock_counts s m ks c e wc salt pin ext Rd D Ed Hu Hw ltac:(lia))
    as (s1 & m1 & R1 & F1 & O1 & D1 & ->). mstep. pose proof (dk_range _ _ _ _ _ _ D) as [? ?].
  destruct (decrypt_entry s1 m1 pin ext R1 (edek_same _ O1)) as (n & E).
  rewrite (fr_salt _ _ F1), O1 in E by done. rewrite E. rewrite (pin_opens_same m1 O1), Ho. cbn [negb].
  change PIN_MAX_TRIES with 10. rewrite u32_small by lia. zif. unfold pin_max_reached. mstep.
  destruct (holds_flash s1 m1 (rd_holds _ _ R1)) as [Hwf Hidx].
  destruct (storage_wipe_ok random rng_fuel (@handle_fault random rng_fuel) (with_rng s1 n) Hwf Hidx (rd_init _ _ R1))
    as (s' & -> & m' & sa & A & B & C & P & St & Dr).
  exists s'. split; [done|]. cbn [hardware_salt with_rng] in *. rewrite (fr_salt _ _ F1) in *. by exists m', sa.
Qed.

(** The wipe code wipes, whatever the counters. *)
Lemma unlock_wipe_code : is_wipe_code wc salt pin = true ->
  exists s', unlock random rng_fuel pin ext s = Halt WipeCodeEntered s' /\ wiped random s s'.
Proof.
  intros Hw. pose proof (rd_holds _ _ Rd) as Hm. unfold unlock. mstep.
  rewrite (get_lock_version_ok s m) by (done || apply D).
  change (N <=? 2) with false. cbn match. unfold ensure_not_wipe_code. mstep.
  rewrite (is_not_wipe_code_ok random rng_fuel s m wc salt) by (done || apply D). rewrite Hw. cbn [negb].
  destruct (holds_flash s m Hm) as [Hwf Hidx]. mstep.
  destruct (storage_wipe_ok random rng_fuel (@handle_fault random rng_fuel) s Hwf Hidx (rd_init _ _ Rd))
    as (s' & -> & W). by exists s'.
Qed.

(** The right PIN unlocks, and the counter is reset. *)
Lemma unlock_right : is_wipe_code wc salt pin = false -> e < c + 10 -> pin_opens hw m pin ext = true ->
  pin_keys hw m pin ext = ks ->
  exists s' m' c', unlock random rng_fuel pin ext s = Ok true s' /\ ready s' m' /\ hardware_salt s' = hw /\
    same_but_logs m m' /\ disk m' ks c' c' wc salt /\
    unlocked s' = true /\ cached_keys s' = ks /\ authentication_sum s' = auth_sum (drop 32 ks) m' /\
    ui_total s' = ui_total s.
Proof.
  intros Hw He Ho Hks. destruct (unlock_counts s m ks c e wc salt pin ext Rd D Ed Hu Hw He)
    as (s1 & m1 & R1 & F1 & O1 & D1 & ->). mstep. pose proof (dk_range _ _ _ _ _ _ D) as [? ?].
  destruct (decrypt_entry s1 m1 pin ext R1 (edek_same _ O1)) as (n & E).
  rewrite (fr_salt _ _ F1), O1 in E by done. rewrite E.
  rewrite (pin_opens_same m1 O1), (pin_keys_same m1 O1), Ho, Hks. cbn [negb].
  set (s2 := with_keys (with_rng s1 n) ks).
  assert (R2 : ready s2 m1) by (destruct R1; by split).
  assert (K2 : keys_ok s2) by apply (dk_keys _ _ _ _ _ _ D).
  rewrite (storage_upgrade_unlocked_ok s2 m1) by (done || apply R2 || apply D1). cbn [negb].
  set (s3 := with_sum s2 _). assert (R3 : ready s3 m1) by (destruct R2; by split).
  rewrite (check_storage_version_ok s3 m1) by (done || apply D1). cbn [negb].
  unfold set_unlocked. mstep. match goal with |- context [pin_fails_reset _ _ _ ?x] => set (s4 := x) end.
  assert (H4 : holds s4 m1) by apply (rd_holds _ _ R3).
  destruct (pin_fails_reset_ok (@handle_fault random rng_fuel) random rng_fuel s4 m1 c (e + 1) H4 (dk_logs _ _ _ _ _ _ D1))
    as (s5 & m5 & c' & -> & F5 & S5 & H5 & L5 & Hc5 & O5); [lia|lia|].
  exists s5, m5, c'. split; [done|]. split; [|split; [|split; [|split; [|split; [|split; [|split]]]]]].
  - split; [done| |]; [rewrite (fr_init _ _ F5)|rewrite (fr_version _ _ F5)]; apply R1.
  - rewrite (fr_salt _ _ F5). apply (fr_salt _ _ F1).
  - intros k Hk. by rewrite O5, O1.
  - apply (disk_logs m1 m5 ks c (e + 1)); [done|done|done|lia].
  - by rewrite (fr_unlocked _ _ F5).
  - by rewrite (fr_keys _ _ F5).
  - rewrite S5. change (authentication_sum s4) with (auth_sum (drop 32 ks) m1). symmetry.
    apply (same_logs_sum _ m1 m5 c (e + 1) c' c'); [done|apply D1|done].
  - exact (eq_trans (fr_total _ _ F5) (fr_total _ _ F1)).
Qed.

End Attempt.

(** ** Sequences of attempts *)

(** The state in which [storage_unlock] calls [unlock]. *)
Lemma storage_unlock_eq s pin ext : initialized s = true ->
  exists s0, storage_unlock random rng_fuel (Some pin) ext s = unlock random rng_fuel pin ext s0 /\
    ui_total s0 = DERIVE_SECS /\ st_nc s0 = st_nc s /\ initialized s0 = true /\
    hardware_salt s0 = hardware_salt s /\
    Storage.norcow_active_version s0 = Storage.norcow_active_version s /\ unlocked s0 = unlocked s.
Proof.
  intros Hi. unfold storage_unlock, set_ui_time, set_ui_message. mstep. rewrite Hi. cbn [negb].
  match goal with |- context [unlock _ _ _ _ ?x] => exists x end. done.
Qed.

Lemma ready_nc s s0 m : ready s m -> st_nc s0 = st_nc s -> initialized s0 = true ->
  Storage.norcow_active_version s0 = Storage.norcow_active_version s -> ready s0 m.
Proof.
  intros [Hm Hi Hv] En Ei Ev. split; [|done|by rewrite Ev]. unfold holds. by rewrite En.
Qed.

Fixpoint unlock_run (pins : list (list Z)) (ext : option (list Z)) : ST (list bool) :=
  match pins with
  | [] => mret []
  | pin :: pins =>
      r ← storage_unlock random rng_fuel (Some pin) ext;
      rs ← unlock_run pins ext;
      mret (r :: rs)
  end.

(** The attempt counter as an abstract machine: the answers, and the counter after
    them or [None] when the tenth failure in a row was reached. *)
Fixpoint attempts (opens : list Z -> bool) (f : Z) (pins : list (list Z)) : list bool * option Z :=
  match pins with
  | [] => ([], Some f)
  | pin :: pins =>
      if opens pin then let '(rs, r) := attempts opens 0 pins in (true :: rs, r)
      else if PIN_MAX_TRIES <=? f + 1 then ([], None)
      else let '(rs, r) := attempts opens (f + 1) pins in (false :: rs, r)
  end.

Section Attempts.
Context (hw : list Z) (edek : list Z) (ks wc salt : list Z) (ext : option (list Z)).

(** What stays the same during attempts. *)
Record attempt_state (s : storage_state) (m : gmap Z (list Z)) (c e : Z) : Prop := {
  at_ready : ready s m;
  at_disk : disk m ks c e wc salt;
  at_edek : m !! EDEK_PVC_KEY = Some edek /\ zlen edek = 60;
  at_salt : hardware_salt s = hw;
}.

(** Whether a PIN opens the store, as a function of the PIN only. *)
Definition opens (pin : list Z) : bool := pin_opens hw {[ EDEK_PVC_KEY := edek ]} pin ext.
Definition opened (pin : list Z) : list Z := pin_keys hw {[ EDEK_PVC_KEY := edek ]} pin ext.

Lemma opens_eq s m c e pin : attempt_state s m c e ->
  pin_opens hw m pin ext = opens pin /\ pin_keys hw m pin ext = opened pin /\ edek_ok m.
Proof.
  intros [_ _ [He Hl] _]. unfold opens, opened, pin_opens, pin_keys. rewrite He, lookup_singleton_eq.
  split; [done|]. split; [done|]. by exists edek.
Qed.

Lemma attempt_one s m c e pin : attempt_state s m c e -> e < c + 10 -> is_wipe_code wc salt pin = false ->
  (opens pin = true -> opened pin = ks) ->
  if opens pin then
    exists s' m' c', storage_unlock random rng_fuel (Some pin) ext s = Ok true s' /\ attempt_state s' m' c' c' /\
      same_but_logs m m' /\ unlocked s' = true
  else if PIN_MAX_TRIES <=? e - c + 1 then
    exists s', storage_unlock random rng_fuel (Some pin) ext s = Halt Restart s' /\ wiped random s s'
  else
    exists s' m', storage_unlock random rng_fuel (Some pin) ext s = Ok false s' /\ attempt_state s' m' c (e + 1) /\
      same_but_logs m m' /\ unlocked s' = unlocked s.
Proof.
  intros A He Hw Hk. destruct (opens_eq s m c e pin A) as (Eo & Ek & Ed). destruct A as [Rd D [Hv Hl] Hs].
  destruct (storage_unlock_eq s pin ext (rd_init _ _ Rd)) as (s0 & -> & Ht & En & Ei & Eh & Ev & Eu).
  pose proof (ready_nc s s0 m Rd En Ei Ev) as Rd0. pose proof (dk_range _ _ _ _ _ _ D) as [? ?].
  assert (Ht0 : ui_total s0 <> 0) by (by rewrite Ht). rewrite <- Hs, <- Eh in Eo, Ek.
  change PIN_MAX_TRIES with 10. destruct (opens pin) eqn:Hop.
  - destruct (unlock_right s0 m ks c e wc salt pin ext Rd0 D Ed Ht0 Hw He Eo) as (s' & m' & c' & -> & R' & Hs' & O & D' & U & _);
      [by rewrite Ek, Hk|].
    exists s', m', c'. split; [done|]. split; [|done].
    split; [done|done|by rewrite O|by rewrite Hs', Eh].
  - destruct (Z.leb_spec 10 (e - c + 1)).
    + destruct (unlock_last s0 m ks c e wc salt pin ext Rd0 D Ed Ht0 Hw ltac:(lia) Eo) as (s' & -> & W).
      exists s'. split; [done|]. unfold wiped in *. by rewrite Eh in W.
    + destruct (unlock_wrong s0 m ks c e wc salt pin ext Rd0 D Ed Ht0 Hw ltac:(lia) Eo) as (s' & m' & -> & R' & F & O & D').
      exists s', m'. split; [done|]. split; [split; [done|done|by rewrite O|by rewrite (fr_salt _ _ F), Eh]|].
      split; [done|]. by rewrite (fr_unlocked _ _ F).
Qed.

Lemma wiped_salt s s1 s' : hardware_salt s1 = hardware_salt s -> wiped random s1 s' -> wiped random s s'.
Proof. intros E W. unfold wiped in *. by rewrite E in W. Qed.

Lemma unlock_run_ok pins : Forall (fun pin => is_wipe_code wc salt pin = false /\ (opens pin = true -> opened pin = ks)) pins ->
  forall s m c e, attempt_state s m c e -> e < c + 10 ->
  match attempts opens (e - c) pins with
  | (rs, Some f) => exists s' m' c' e', unlock_run pins ext s = Ok rs s' /\ attempt_state s' m' c' e' /\
      e' - c' = f /\ same_but_logs m m'
  | (_, None) => exists s', unlock_run pins ext s = Halt Restart s' /\ wiped random s s'
  end.
Proof.
  induction 1 as [|pin pins [Hw Hk] _ IH]; intros s m c e A He; cbn [attempts unlock_run]; mstep.
  { by exists s, m, c, e. }
  pose proof (attempt_one s m c e pin A He Hw Hk) as H1. destruct (opens pin).
  - destruct H1 as (s1 & m1 & c1 & -> & A1 & O1 & _). specialize (IH s1 m1 c1 c1 A1 ltac:(lia)).
    rewrite Z.sub_diag in IH. destruct (attempts opens 0 pins) as [rs [f|]].
    + destruct IH as (s2 & m2 & c2 & e2 & -> & A2 & Ef & O2). exists s2, m2, c2, e2. split; [done|]. split; [done|].
      split; [done|]. intros k Hne. by rewrite O2, O1.
    + destruct IH as (s2 & -> & W). exists s2. split; [done|]. apply (wiped_salt s s1); [|done].
      by rewrite (at_salt _ _ _ _ A), (at_salt _ _ _ _ A1).
  - destruct (Z.leb_spec PIN_MAX_TRIES (e - c + 1)) as [Hl|Hl].
    + destruct H1 as (s1 & -> & W). by exists s1.
    + destruct H1 as (s1 & m1 & -> & A1 & O1 & _). change PIN_MAX_TRIES with 10 in Hl.
      specialize (IH s1 m1 c (e + 1) A1 ltac:(lia)). replace (e + 1 - c) with (e - c + 1) in IH by lia.
      destruct (attempts opens (e - c + 1) pins) as [rs [f|]].
      * destruct IH as (s2 & m2 & c2 & e2 & -> & A2 & Ef & O2). exists s2, m2, c2, e2. split; [done|]. split; [done|].
        split; [done|]. intros k Hne. by rewrite O2, O1.
      * destruct IH as (s2 & -> & W). exists s2. split; [done|]. apply (wiped_salt s s1); [|done].
        by rewrite (at_salt _ _ _ _ A), (at_salt _ _ _ _ A1).
Qed.

End Attempts.

End Unlock.

(** ** Examples: a generator, and the store it wipes *)

Definition demo_random (_ : nat) : Z := 169549700.

#[global] Instance demo_rng : RngOk demo_random 1.
Proof.
  split; [intros n; unfold is_u32, demo_random; lia|].
  intros p. exists 0%nat. split; [lia|]. unfold good_draw, demo_random. split; vm_compute; reflexivity.
Qed.

Definition demo_init : storage_state :=
  StorageState (NorcowState blank_flash 0 0 NORCOW_VERSION 0) true false 0 0 None (replicate 48 0)
    (replicate 32 0) (replicate 32 0) NORCOW_VERSION false 0.

(** ** Properties *)

(** C19: [storage_wipe] of an initialized storage, whatever the flash held, returns
    and leaves an unlocked store with no user entry, counters at zero, no wipe
    code, matching version entries, a valid storage tag, and fresh keys sealed under
    the empty PIN. *)
Theorem storage_wipe_fresh random rng_fuel on_fault s : RngOk random rng_fuel ->
  flash_wf (nc_flash (st_nc s)) -> idx (norcow_active_sector (st_nc s)) -> initialized s = true ->
  exists s', storage_wipe random rng_fuel on_fault s = Ok tt s' /\ wiped random s s'.
Proof. intros Rng Hwf Hi Hinit. by apply storage_wipe_ok. Qed.

Lemma storage_wipe_fresh_witness : exists s',
  storage_wipe demo_random 1 (fun _ _ => halt NestedFault) demo_init = Ok tt s' /\ wiped demo_random demo_init s'.
Proof.
  apply (storage_wipe_fresh demo_random 1 (fun _ _ => halt NestedFault) demo_init demo_rng);
    [exact blank_flash_wf|by left|reflexivity].
Defined.

End StorageUnlock.
