(* ===== verification/StorageSession.v ===== *)
(** * Sessions: locking, unlocking and changing the PIN

    The contents of a store survive being locked: the keys are sealed under the
    PIN, and unlocking recovers them.  [storage_change_pin] reseals the same keys,
    [storage_change_wipe_code] replaces the wipe code, and entering the wipe code
    wipes. *)

From stdpp Require Import base list numbers gmap.
From Stdlib Require Import ZArith Lia.
From S2P Require Import Prelude Bits Flash Norcow NorcowSpec Hash HashSpec Hmac HmacSpec ChaCha PolySpec AeadSpec PinLog PinLogSpec Storage StorageAuth StorageSpec StorageAccess StoragePin StorageUnlock.
Local Open Scope fw_scope.

Module StorageSession.
Import Norcow NorcowSpec Hash HashSpec HmacSpec ChaCha AeadSpec PinLog PinLogSpec Storage StorageAuth StorageSpec StorageAccess StoragePin StorageUnlock.
#[local] Opaque Hmac.hmac_sha256 rfc_cipher rfc_tag kek_block.

(** ** A store at rest *)

(** What the flash holds: the entries of [a] under the keys [ks], the keys sealed
    under [pin] and [ext], the wipe code [wc], and the counters [c] and [e]. *)
Record at_rest (s : storage_state) (m a : gmap Z (list Z)) (ks : list Z) (c e : Z)
    (wc salt pin : list Z) (ext : option (list Z)) : Prop := {
  ar_ready : ready s m;
  ar_disk : disk m ks c e wc salt;
  ar_pin : pin_at (hardware_salt s) m ks pin ext;
  ar_flag : m !! PIN_NOT_SET_KEY = Some [if zlen pin =? 0 then TRUE_BYTE else FALSE_BYTE];
  ar_entries : forall k, user_key k -> entry_rep (take 32 ks) m a k;
}.

(** The same store with its keys in memory. *)
Definition open_rep (s : storage_state) (m a : gmap Z (list Z)) (ks : list Z) (c e : Z)
    (wc salt pin : list Z) (ext : option (list Z)) : Prop :=
  at_rest s m a ks c e wc salt pin ext /\ st_rep s m a /\ cached_keys s = ks.

Lemma wiped_open random s s' : wiped random s s' ->
  exists m salt, open_rep s' m ∅ (cached_keys s') 0 0 WIPE_CODE_EMPTY salt PIN_EMPTY None /\
    map_used m <= 600 /\ drawn random 8 salt.
Proof.
  intros (m & salt & Rd & Hs & D & P & R & _ & Hsalt & Hu & Hf). exists m, salt. split; [|done].
  split; [|done]. split; [done|done|by rewrite Hs|done|]. apply R.
Qed.

Lemma at_rest_attempt s m a ks c e wc salt pin ext : at_rest s m a ks c e wc salt pin ext ->
  exists edek, attempt_state (hardware_salt s) edek ks wc salt s m c e /\
    opens (hardware_salt s) edek ext pin = true /\ opened (hardware_salt s) edek ext pin = ks.
Proof.
  intros [Rd D P _ _]. destruct (dk_keys _ _ _ _ _ _ D) as [Hl Hb].
  destruct (pin_at_opens (hardware_salt s) m ks pin ext ltac:(unfold zlen; lia) Hb P) as ((v & Hv & Hvl) & Ho & Hk).
  exists v. unfold opens, opened, pin_opens, pin_keys in *. rewrite Hv in Ho, Hk. rewrite lookup_singleton_eq.
  split; [|done]. by split.
Qed.

Section Session.
Context (random : nat -> Z) (rng_fuel : nat) {Rng : RngOk random rng_fuel}.

(** The entries are the same and the logs are at the new counters. *)
Lemma at_rest_logs s s' m m' a ks c e wc salt pin ext c' e' : at_rest s m a ks c e wc salt pin ext ->
  ready s' m' -> hardware_salt s' = hardware_salt s -> same_but_logs m m' -> disk m' ks c' e' wc salt ->
  at_rest s' m' a ks c' e' wc salt pin ext.
Proof.
  intros [_ _ P Fl En] Rd Hs O D. split; [done|done| | |].
  - rewrite Hs. destruct P as (rs & Hrs & Hv). exists rs. split; [done|]. by rewrite O.
  - by rewrite O.
  - intros k Hk. unfold entry_rep. rewrite O by (apply user_not_reserved; done). by apply En.
Qed.

(** A state whose keys and sum are those of the store is open. *)
Lemma open_intro s m a ks c e wc salt pin ext : at_rest s m a ks c e wc salt pin ext ->
  unlocked s = true -> cached_keys s = ks -> authentication_sum s = auth_sum (drop 32 ks) m ->
  open_rep s m a ks c e wc salt pin ext.
Proof.
  intros H Hu Hk Hs. split; [done|]. split; [|done]. destruct H as [Rd D _ _ En]. subst ks. split.
  - apply Rd.
  - done.
  - split; [apply Rd|apply D|apply D|exact Hs].
  - exact En.
Qed.

(** [unlock] with the right PIN, as its three callers use it. *)
Lemma unlock_open s m a ks c e wc salt pin ext : at_rest s m a ks c e wc salt pin ext ->
  ui_total s <> 0 -> is_wipe_code wc salt pin = false -> e < c + 10 ->
  exists s' m' c', unlock random rng_fuel pin ext s = Ok true s' /\
    open_rep s' m' a ks c' c' wc salt pin ext /\ same_but_logs m m' /\ ui_total s' = ui_total s /\
    hardware_salt s' = hardware_salt s.
Proof.
  intros H Hu Hw He. pose proof H as [Rd D P _ _]. destruct (dk_keys _ _ _ _ _ _ D) as [Hl Hb].
  destruct (pin_at_opens (hardware_salt s) m ks pin ext ltac:(unfold zlen; lia) Hb P) as (Ed & Ho & Hk).
  destruct (unlock_right random rng_fuel s m ks c e wc salt pin ext Rd D Ed Hu Hw He Ho Hk)
    as (s' & m' & c' & -> & Rd' & Hs & O & D' & U & Kc & Sm & T).
  exists s', m', c'. split; [done|]. split; [|done]. apply open_intro; [|done..].
  by apply (at_rest_logs s s' m m' a ks c e).
Qed.

(** The messages and progress of the callers. *)
Lemma at_rest_ui s s' m a ks c e wc salt pin ext : at_rest s m a ks c e wc salt pin ext ->
  st_nc s' = st_nc s -> initialized s' = true -> hardware_salt s' = hardware_salt s ->
  Storage.norcow_active_version s' = Storage.norcow_active_version s ->
  at_rest s' m a ks c e wc salt pin ext.
Proof.
  intros [Rd D P Fl En] En' Ei Es Ev. split; [by apply (ready_nc s)|done|by rewrite Es|done|done].
Qed.

Lemma storage_lock_ok s m a ks c e wc salt pin ext : at_rest s m a ks c e wc salt pin ext ->
  exists s', storage_lock s = Ok tt s' /\ at_rest s' m a ks c e wc salt pin ext /\
    unlocked s' = false /\ cached_keys s' = replicate 48 0 /\ hardware_salt s' = hardware_salt s.
Proof.
  intros H. unfold storage_lock, set_unlocked, set_cached_keys, set_authentication_sum. mstep.
  eexists. split; [done|]. split; [|done]. apply (at_rest_ui s); [exact H|done| |done|done]. apply (rd_init _ _ (ar_ready _ _ _ _ _ _ _ _ _ _ H)).
Qed.

Lemma storage_unlock_open s m a ks c e wc salt pin ext : at_rest s m a ks c e wc salt pin ext ->
  is_wipe_code wc salt pin = false -> e < c + 10 ->
  exists s' m' c', storage_unlock random rng_fuel (Some pin) ext s = Ok true s' /\
    open_rep s' m' a ks c' c' wc salt pin ext.
Proof.
  intros H Hw He.
  destruct (storage_unlock_eq random rng_fuel s pin ext (rd_init _ _ (ar_ready _ _ _ _ _ _ _ _ _ _ H)))
    as (s0 & -> & Ht & En & Ei & Eh & Ev & _).
  destruct (unlock_open s0 m a ks c e wc salt pin ext) as (s' & m' & c' & -> & O & _); [|by rewrite Ht|done|done|].
  { by apply (at_rest_ui s). }
  by exists s', m', c'.
Qed.

(** User operations keep the store at rest in step with the open store. *)
Lemma open_run ops s m a ks c e wc salt pin ext : open_rep s m a ks c e wc salt pin ext ->
  Forall st_op_ok ops -> map_used m + space ops <= NORCOW_SECTOR_SIZE ->
  exists s' m', st_run random rng_fuel ops s = Ok (map_run a ops).1 s' /\
    open_rep s' m' (map_run a ops).2 ks c e wc salt pin ext.
Proof.
  intros ([Rd D P Fl En] & R & Hk) Hok Hsp.
  destruct (st_run_ok random rng_fuel ops s m a R Hok Hsp) as (s' & m' & -> & R' & F & O & _).
  exists s', m'. split; [done|]. split; [|split; [done|by rewrite (fr_keys _ _ F)]].
  assert (Kd : cached_keys s' = ks) by (by rewrite (fr_keys _ _ F)).
  split.
  - apply (ready_frame s s' m m' Rd F). apply R'.
  - destruct D as [D1 D2 D3 D4 D5 D6 D7 D8]. split; [done|by rewrite O|by rewrite O| |done| | |].
    + destruct D4 as (gk & mk & g & Hg & He & Hl). exists gk, mk, g. by rewrite O.
    + destruct D6 as (Ha & Hb & Hl). split; [done|]. split; [done|]. by rewrite O.
    + pose proof (ao_tag _ _ (sr_auth _ _ _ R')) as T. unfold cached_sak in T. by rewrite Kd in T.
    + destruct D8 as (x & Hx & Hs). exists x. by rewrite O.
  - rewrite (fr_salt _ _ F). destruct P as (rs & Hrs & Hv). exists rs. by rewrite O.
  - by rewrite O.
  - intros k Hk'. pose proof (sr_entries _ _ _ R' k Hk') as E. unfold cached_dek in E. by rewrite Kd in E.
Qed.

(** New entries for the PIN and the wipe code leave the store open. *)
Lemma open_reseal s s' m m' a ks c e wc salt pin ext wc' salt' pin' ext' :
  open_rep s m a ks c e wc salt pin ext -> frame s s' -> authentication_sum s' = authentication_sum s ->
  holds s' m' -> (forall k, k <> EDEK_PVC_KEY -> k <> PIN_NOT_SET_KEY -> k <> WIPE_CODE_DATA_KEY -> m' !! k = m !! k) ->
  (forall sak, auth_sum sak m' = auth_sum sak m) -> wipe_at m' wc' salt' -> pin_at (hardware_salt s) m' ks pin' ext' ->
  m' !! PIN_NOT_SET_KEY = Some [if zlen pin' =? 0 then TRUE_BYTE else FALSE_BYTE] ->
  open_rep s' m' a ks c e wc' salt' pin' ext'.
Proof.
  intros ([Rd D P Fl En] & R & Hk) F Sm Hm O Es W P' Fl'. apply open_intro.
  - split; [by apply (ready_frame s s' m m')| |by rewrite (fr_salt _ _ F)|done|].
    + destruct D as [D1 D2 D3 D4 D5 D6 D7 D8]. split; [done|by rewrite O|by rewrite O| |done|done| |].
      * destruct D4 as (gk & mk & g & Hg & He & Hl). exists gk, mk, g. by rewrite O.
      * unfold tag_ok, auth_tag. by rewrite O, Es.
      * destruct D8 as (x & Hx & Hs). exists x. by rewrite O.
    + intros k Hk'. unfold entry_rep. rewrite O by (apply user_not_reserved; done). by apply En.
  - rewrite (fr_unlocked _ _ F). apply R.
  - by rewrite (fr_keys _ _ F).
  - rewrite Sm, (ao_sum _ _ (sr_auth _ _ _ R)), Es. unfold cached_sak. by rewrite Hk.
Qed.

(** The entries that [set_pin] replaces have the size of the new ones. *)
Lemma reseal_fits s m a ks c e wc salt pin ext : at_rest s m a ks c e wc salt pin ext ->
  map_used (delete EDEK_PVC_KEY m) + 4 + 60 <= NORCOW_SECTOR_SIZE /\
  (forall v, zlen v = 60 ->
     map_used (delete PIN_NOT_SET_KEY (<[EDEK_PVC_KEY := v]> m)) + 4 + 1 <= NORCOW_SECTOR_SIZE).
Proof.
  intros [Rd D P Fl _]. destruct (dk_keys _ _ _ _ _ _ D) as [Hl Hb].
  destruct (pin_at_opens (hardware_salt s) m ks pin ext ltac:(unfold zlen; lia) Hb P) as ((v0 & Hv & Hvl) & _).
  pose proof (holds_used s m (rd_holds _ _ Rd)) as Hu.
  pose proof (map_used_delete m _ _ Hv) as H1. rewrite Hvl in H1. change (entry_size 60) with 64 in H1.
  split; [lia|]. intros v Hvz.
  pose proof (map_used_overwrite m _ _ v Hv ltac:(lia)) as H2.
  assert (H3 : <[EDEK_PVC_KEY := v]> m !! PIN_NOT_SET_KEY = Some [if zlen pin =? 0 then TRUE_BYTE else FALSE_BYTE])
    by (by rewrite lookup_insert_ne).
  pose proof (map_used_delete _ _ _ H3) as H4. change (entry_size (zlen [_])) with 8 in H4. lia.
Qed.

Lemma storage_change_pin_ok s m a ks c e wc salt oldpin newpin ext ext' :
  at_rest s m a ks c e wc salt oldpin ext -> is_wipe_code wc salt oldpin = false -> e < c + 10 ->
  let refused := is_wipe_code wc salt newpin in
  exists s' m' c', storage_change_pin random rng_fuel (Some oldpin) (Some newpin) ext ext' s = Ok (negb refused) s' /\
    open_rep s' m' a ks c' c' wc salt (if refused then oldpin else newpin) (if refused then ext else ext').
Proof.
  intros H Hw He. cbn zeta. pose proof (rd_init _ _ (ar_ready _ _ _ _ _ _ _ _ _ _ H)) as Hi.
  unfold storage_change_pin, set_ui_time, set_ui_message. mstep. rewrite Hi. cbn [negb].
  match goal with |- context [unlock _ _ _ _ ?x] => set (s0 := x) end.
  destruct (unlock_open s0 m a ks c e wc salt oldpin ext) as (s1 & m1 & c1 & -> & O1 & _ & T1 & Hs1);
    [by apply (at_rest_ui s)|done|done|done|]. cbn [negb].
  pose proof O1 as ([Rd1 D1 _ _ _] & R1 & K1).
  rewrite (is_not_wipe_code_ok random rng_fuel s1 m1 wc salt) by (apply Rd1 || apply D1).
  destruct (is_wipe_code wc salt newpin); cbn [negb]; [by exists s1, m1, c1|].
  destruct (reseal_fits s1 m1 a ks c1 c1 wc salt oldpin ext) as [Hf1 Hf2]; [apply O1|].
  destruct (set_pin_ok random s1 m1 newpin ext') as (s2 & m2 & v & -> & F2 & S2 & H2 & P2 & M2 & Z2);
    [apply Rd1|apply R1|by rewrite T1|done|done|].
  exists s2, m2, c1. split; [done|]. apply (open_reseal s1 s2 m1 m2 a ks c1 c1 wc salt oldpin ext); try done.
  - intros k H3 H4 _. by rewrite M2, !lookup_insert_ne.
  - intros sak. by rewrite M2, !auth_sum_unprotected.
  - destruct (dk_wipe _ _ _ _ _ _ D1) as (Ha & Hb & Hl). split; [done|]. split; [done|]. by rewrite M2, !lookup_insert_ne.
  - by rewrite K1 in P2.
  - by rewrite M2, lookup_insert_eq.
Qed.

(** The logs entry never changes its size. *)
Lemma logs_used m m' c e c' e' : same_but_logs m m' -> logs_at m c e -> logs_at m' c' e' -> map_used m' = map_used m.
Proof.
  intros O (gk & mk & g & Hg & He & Hl) (gk' & mk' & g' & Hg' & He' & Hl').
  assert (E : m' = <[PIN_LOGS_KEY := bytes_of 4 (logs_words gk' mk' g' c' e')]> m).
  { apply map_eq. intros k. rewrite lookup_insert. case_decide as Hk; [by subst|]. by apply O. }
  rewrite E. apply (map_used_overwrite m _ _ _ Hl). rewrite !zlen_bytes_of.
  destruct (logs_words_ok gk mk g c e Hg He) as (_ & Hz & _).
  destruct (logs_words_ok gk' mk' g' c' e' Hg' He') as (_ & Hz' & _). unfold zlen. by rewrite Hz, Hz'.
Qed.

Lemma storage_change_wipe_code_ok s m a ks c e wc salt pin ext wc' :
  at_rest s m a ks c e wc salt pin ext -> is_wipe_code wc salt pin = false -> e < c + 10 ->
  pin = [] \/ pin <> wc' -> Forall is_byte wc' -> zlen wc' <= 50 -> map_used m + 70 <= NORCOW_SECTOR_SIZE ->
  exists s' m' c' salt', storage_change_wipe_code random rng_fuel (Some pin) ext (Some wc') s = Ok true s' /\
    open_rep s' m' a ks c' c' (if zlen wc' =? 0 then WIPE_CODE_EMPTY else wc') salt' pin ext.
Proof.
  intros H Hw He Hne Hb Hl Hfit. pose proof (rd_init _ _ (ar_ready _ _ _ _ _ _ _ _ _ _ H)) as Hi.
  unfold storage_change_wipe_code, set_ui_time, set_ui_message. mstep. rewrite Hi. cbn [negb orb].
  assert (negb (zlen pin =? 0) && (zlen pin =? zlen wc') && bool_decide (pin = wc') = false) as ->.
  { destruct Hne as [->|Hne]; [done|]. rewrite (bool_decide_false _ Hne). apply andb_false_r. }
  match goal with |- context [unlock _ _ _ _ ?x] => set (s0 := x) end.
  destruct (unlock_open s0 m a ks c e wc salt pin ext) as (s1 & m1 & c1 & -> & O1 & O & T1 & Hs1);
    [by apply (at_rest_ui s)|done|done|done|].
  pose proof O1 as ([Rd1 D1 P1 Fl1 _] & R1 & K1).
  pose proof (logs_used m m1 _ _ _ _ O (dk_logs _ _ _ _ _ _ (ar_disk _ _ _ _ _ _ _ _ _ _ H)) (dk_logs _ _ _ _ _ _ D1)) as Hu.
  pose proof (map_used_delete_le m1 WIPE_CODE_DATA_KEY).
  destruct (set_wipe_code_ok random s1 m1 wc') as (s2 & m2 & salt' & v & -> & F2 & S2 & H2 & W2 & M2 & _);
    [apply Rd1|done|done|lia|].
  exists s2, m2, c1, salt'. split; [done|]. apply (open_reseal s1 s2 m1 m2 a ks c1 c1 wc salt pin ext); try done.
  - intros k _ _ H3. by rewrite M2, lookup_insert_ne.
  - intros sak. by rewrite M2, auth_sum_unprotected.
  - destruct P1 as (rs & Hrs & Hv). exists rs. by rewrite M2, lookup_insert_ne.
  - by rewrite M2, lookup_insert_ne.
Qed.

(** The number of attempts left. *)
Lemma storage_get_pin_rem_ok s m a ks c e wc salt pin ext : at_rest s m a ks c e wc salt pin ext ->
  storage_get_pin_rem random rng_fuel s = Ok (10 - (e - c)) s.
Proof.
  intros [Rd D _ _ _]. unfold storage_get_pin_rem. mstep. rewrite (rd_init _ _ Rd). cbn [negb].
  pose proof (dk_range _ _ _ _ _ _ D) as [? ?].
  rewrite (pin_get_fails_ok _ s m c e) by (apply Rd || apply D || lia).
  change PIN_MAX_TRIES with 10. by rewrite u32_small by lia.
Qed.

Lemma storage_has_pin_ok s m a ks c e wc salt pin ext : at_rest s m a ks c e wc salt pin ext ->
  storage_has_pin s = Ok (negb (zlen pin =? 0)) s.
Proof.
  intros [Rd _ _ Fl _]. unfold storage_has_pin. mstep. rewrite (rd_init _ _ Rd). cbn [negb].
  rewrite (get_bytes_ok s m), Fl by (apply Rd || done). by destruct (zlen pin =? 0).
Qed.

(** The wipe code, entered as the PIN. *)
Lemma wipe_code_unlock s m a ks c e wc salt pin ext pin' ext' : at_rest s m a ks c e wc salt pin ext ->
  is_wipe_code wc salt pin' = true ->
  exists s', storage_unlock random rng_fuel (Some pin') ext' s = Halt WipeCodeEntered s' /\ wiped random s s'.
Proof.
  intros [Rd D _ _ _] Hw.
  destruct (storage_unlock_eq random rng_fuel s pin' ext' (rd_init _ _ Rd)) as (s0 & -> & Ht & En & Ei & Eh & Ev & _).
  destruct (unlock_wipe_code random rng_fuel s0 m ks c e wc salt pin' ext') as (s' & -> & W); [by apply (ready_nc s)|done|done|].
  exists s'. split; [done|]. by apply (wiped_salt random s s0).
Qed.

End Session.

(** ** An example: the store left by a wipe *)

Definition demo_salt : list Z := map (draw_byte demo_random 0) (seqZ 0 8).

Lemma demo_wiped : exists s m, storage_wipe demo_random 1 (fun _ _ => halt NestedFault) demo_init = Ok tt s /\
  open_rep s m ∅ (cached_keys s) 0 0 WIPE_CODE_EMPTY demo_salt PIN_EMPTY None /\ map_used m <= 600.
Proof.
  destruct (storage_wipe_ok demo_random 1 (fun _ _ => halt NestedFault) demo_init blank_flash_wf ltac:(by left) eq_refl)
    as (s & E & W).
  destruct (wiped_open _ _ _ W) as (m & salt & O & Hu & [p Hs]). exists s, m. split; [exact E|].
  assert (Ed : salt = demo_salt) by exact Hs. rewrite Ed in O. exact (conj O Hu).
Qed.

Lemma demo_not_wipe_code pin : pin = [] \/ pin = [49; 50] -> is_wipe_code WIPE_CODE_EMPTY demo_salt pin = false.
Proof. intros [->| ->]; vm_compute; reflexivity. Qed.

(** ** Properties *)

(** C3: The contents survive a session: user operations on an open store, then
    [storage_lock], which forgets the keys, then [storage_unlock] with the PIN,
    leave an open store with the contents the operations produced, under the same
    keys, with the failure counter reset; provided the values stored fit into the
    sector, the PIN is not the wipe code and fewer than ten failures are counted. *)
Theorem session_roundtrip random rng_fuel ops s m a ks c e wc salt pin ext : RngOk random rng_fuel ->
  open_rep s m a ks c e wc salt pin ext -> is_wipe_code wc salt pin = false -> e < c + 10 ->
  Forall st_op_ok ops -> map_used m + space ops <= NORCOW_SECTOR_SIZE ->
  exists s1 s2 s3 m' c', st_run random rng_fuel ops s = Ok (map_run a ops).1 s1 /\
    storage_lock s1 = Ok tt s2 /\ unlocked s2 = false /\ cached_keys s2 = replicate 48 0 /\
    storage_unlock random rng_fuel (Some pin) ext s2 = Ok true s3 /\
    open_rep s3 m' (map_run a ops).2 ks c' c' wc salt pin ext.
Proof.
  intros Rng O Hw He Hok Hsp.
  destruct (open_run random rng_fuel ops s m a ks c e wc salt pin ext O Hok Hsp) as (s1 & m1 & E1 & O1).
  destruct (storage_lock_ok s1 m1 _ ks c e wc salt pin ext (proj1 O1)) as (s2 & E2 & A2 & U2 & K2 & _).
  destruct (storage_unlock_open random rng_fuel s2 m1 _ ks c e wc salt pin ext A2 Hw He) as (s3 & m3 & c3 & E3 & O3).
  by exists s1, s2, s3, m3, c3.
Qed.

Lemma session_roundtrip_witness : exists s m, open_rep s m ∅ (cached_keys s) 0 0 WIPE_CODE_EMPTY demo_salt [] None /\
  exists s1 s2 s3 m' c', st_run demo_random 1 [OSet 0x0101 [1; 2; 3]] s = Ok [RStatus true] s1 /\
    storage_lock s1 = Ok tt s2 /\ unlocked s2 = false /\ cached_keys s2 = replicate 48 0 /\
    storage_unlock demo_random 1 (Some []) None s2 = Ok true s3 /\
    open_rep s3 m' {[0x0101 := [1; 2; 3]]} (cached_keys s) c' c' WIPE_CODE_EMPTY demo_salt [] None.
Proof.
  destruct demo_wiped as (s & m & _ & O & Hu). exists s, m. split; [exact O|].
  refine (session_roundtrip demo_random 1 [OSet 0x0101 [1; 2; 3]] s m ∅ (cached_keys s) 0 0 WIPE_CODE_EMPTY demo_salt [] None
    demo_rng O _ _ _ _).
  - apply demo_not_wipe_code. by left.
  - reflexivity.
  - apply Forall_cons_2; [|apply Forall_nil_2]. split; [split; reflexivity || discriminate|bytes_list].
  - change (space _) with 36. change NORCOW_SECTOR_SIZE with 65536. lia.
Defined.

(** C20: [storage_change_pin] with the right PIN, which is not the wipe code, on any store,
    full or not, with fewer than ten failures counted: it succeeds unless the new PIN is the
    wipe code (has its tag); then the same keys and contents are sealed under the new PIN, which
    opens the store. A new PIN that is the wipe code is refused, and the old one still opens
    the same contents. Either way the failure counter is reset. *)
Theorem change_pin_reseals random rng_fuel s m a ks c e wc salt oldpin newpin ext ext' : RngOk random rng_fuel ->
  at_rest s m a ks c e wc salt oldpin ext -> is_wipe_code wc salt oldpin = false -> e < c + 10 ->
  let refused := is_wipe_code wc salt newpin in
  let pin := if refused then oldpin else newpin in
  let x := if refused then ext else ext' in
  exists s' m' c', storage_change_pin random rng_fuel (Some oldpin) (Some newpin) ext ext' s = Ok (negb refused) s' /\
    open_rep s' m' a ks c' c' wc salt pin x /\
    storage_has_pin s' = Ok (negb (zlen pin =? 0)) s' /\
    exists s2 m2 c2, storage_unlock random rng_fuel (Some pin) x s' = Ok true s2 /\
      open_rep s2 m2 a ks c2 c2 wc salt pin x.
Proof.
  intros Rng A Hw He refused pin x.
  destruct (storage_change_pin_ok random rng_fuel s m a ks c e wc salt oldpin newpin ext ext' A Hw He)
    as (s' & m' & c' & E & O). exists s', m', c'. split; [exact E|]. fold refused pin x in O. split; [exact O|].
  split; [by apply (storage_has_pin_ok s' m' a ks c' c' wc salt pin x), O|].
  apply (storage_unlock_open random rng_fuel s' m' a ks c' c' wc salt pin x); [apply O| |lia].
  unfold pin. by destruct refused eqn:Er.
Qed.

Lemma change_pin_reseals_witness : exists s m, at_rest s m ∅ (cached_keys s) 0 0 WIPE_CODE_EMPTY demo_salt [] None /\
  exists s' m' c', storage_change_pin demo_random 1 (Some []) (Some [49; 50]) None None s = Ok true s' /\
    open_rep s' m' ∅ (cached_keys s) c' c' WIPE_CODE_EMPTY demo_salt [49; 50] None /\
    storage_has_pin s' = Ok true s' /\
    exists s2 m2 c2, storage_unlock demo_random 1 (Some [49; 50]) None s' = Ok true s2 /\
      open_rep s2 m2 ∅ (cached_keys s) c2 c2 WIPE_CODE_EMPTY demo_salt [49; 50] None.
Proof.
  destruct demo_wiped as (s & m & _ & O & _). exists s, m. split; [exact (proj1 O)|].
  pose proof (change_pin_reseals demo_random 1 s m ∅ (cached_keys s) 0 0 WIPE_CODE_EMPTY demo_salt [] [49; 50] None None
    demo_rng (proj1 O) (demo_not_wipe_code [] (or_introl eq_refl)) eq_refl) as H.
  rewrite (demo_not_wipe_code [49; 50] (or_intror eq_refl)) in H. exact H.
Defined.

(** C21: After [storage_change_wipe_code] with the right PIN the contents are
    unchanged, and entering the new wipe code instead of the PIN erases the store:
    the call does not return, and the storage is left as by [storage_wipe]. *)
Theorem wipe_code_erases random rng_fuel s m a ks c e wc salt pin ext wc' : RngOk random rng_fuel ->
  at_rest s m a ks c e wc salt pin ext -> is_wipe_code wc salt pin = false -> e < c + 10 ->
  pin = [] \/ pin <> wc' -> Forall is_byte wc' -> 0 < zlen wc' <= 50 -> map_used m + 70 <= NORCOW_SECTOR_SIZE ->
  exists s' m' c' salt', storage_change_wipe_code random rng_fuel (Some pin) ext (Some wc') s = Ok true s' /\
    open_rep s' m' a ks c' c' wc' salt' pin ext /\
    exists s2, storage_unlock random rng_fuel (Some wc') ext s' = Halt WipeCodeEntered s2 /\ wiped random s' s2.
Proof.
  intros Rng A Hw He Hne Hb Hl Hf.
  destruct (storage_change_wipe_code_ok random rng_fuel s m a ks c e wc salt pin ext wc' A Hw He Hne Hb ltac:(lia) Hf)
    as (s' & m' & c' & salt' & E & O). destruct (Z.eqb_spec (zlen wc') 0); [lia|].
  exists s', m', c', salt'. split; [exact E|]. split; [exact O|].
  apply (wipe_code_unlock random rng_fuel s' m' a ks c' c' wc' salt' pin ext); [apply O|].
  apply bool_decide_true. reflexivity.
Qed.

Lemma wipe_code_erases_witness : exists s m, at_rest s m ∅ (cached_keys s) 0 0 WIPE_CODE_EMPTY demo_salt [] None /\
  exists s' m' c' salt', storage_change_wipe_code demo_random 1 (Some []) None (Some [57]) s = Ok true s' /\
    open_rep s' m' ∅ (cached_keys s) c' c' [57] salt' [] None /\
    exists s2, storage_unlock demo_random 1 (Some [57]) None s' = Halt WipeCodeEntered s2 /\ wiped demo_random s' s2.
Proof.
  destruct demo_wiped as (s & m & _ & O & Hu). exists s, m. split; [exact (proj1 O)|].
  refine (wipe_code_erases demo_random 1 s m ∅ (cached_keys s) 0 0 WIPE_CODE_EMPTY demo_salt [] None [57]
    demo_rng (proj1 O) _ _ _ _ _ _).
  - apply demo_not_wipe_code. by left.
  - reflexivity.
  - by left.
  - bytes_list.
  - split; reflexivity || discriminate.
  - change NORCOW_SECTOR_SIZE with 65536. lia.
Defined.

(** C2: A sequence of [storage_unlock] calls behaves as the attempt counter: a PIN
    that opens the store is answered with true and resets the counter, any other is
    answered with false and counted in flash before the answer, and the tenth
    failure in a row wipes the storage and restarts.  The logs never run out,
    however long the sequence. *)
Theorem unlock_attempts random rng_fuel hw edek ks wc salt ext pins s m c e : RngOk random rng_fuel ->
  Forall (fun pin => is_wipe_code wc salt pin = false /\
                     (opens hw edek ext pin = true -> opened hw edek ext pin = ks)) pins ->
  attempt_state hw edek ks wc salt s m c e -> e < c + 10 ->
  match attempts (opens hw edek ext) (e - c) pins with
  | (rs, Some f) => exists s' m' c' e', unlock_run random rng_fuel pins ext s = Ok rs s' /\
      attempt_state hw edek ks wc salt s' m' c' e' /\ e' - c' = f /\ same_but_logs m m'
  | (_, None) => exists s', unlock_run random rng_fuel pins ext s = Halt Restart s' /\ wiped random s s'
  end.
Proof. intros Rng Hp A He. by apply unlock_run_ok. Qed.


Lemma unlock_attempts_witness : exists s m edek,
  attempt_state (hardware_salt s) edek (cached_keys s) WIPE_CODE_EMPTY demo_salt s m 0 0 /\
  exists s' m' c' e', unlock_run demo_random 1 [[]; []] None s = Ok [true; true] s' /\
    attempt_state (hardware_salt s) edek (cached_keys s) WIPE_CODE_EMPTY demo_salt s' m' c' e' /\ e' - c' = 0 /\
    same_but_logs m m'.
Proof.
  destruct demo_wiped as (s & m & _ & O & _).
  destruct (at_rest_attempt _ _ _ _ _ _ _ _ _ _ (proj1 O)) as (edek & A & Ho & Hk). exists s, m, edek.
  split; [exact A|].
  assert (Hp : is_wipe_code WIPE_CODE_EMPTY demo_salt [] = false /\
    (opens (hardware_salt s) edek None [] = true -> opened (hardware_salt s) edek None [] = cached_keys s)).
  { split; [apply demo_not_wipe_code; by left|]. intros _. exact Hk. }
  pose proof (unlock_attempts demo_random 1 (hardware_salt s) edek (cached_keys s) WIPE_CODE_EMPTY demo_salt None [[]; []] s m 0 0
    demo_rng (Forall_cons_2 _ _ _ Hp (Forall_cons_2 _ _ _ Hp (Forall_nil_2 _))) A eq_refl) as H.
  change PIN_EMPTY with (@nil Z) in Ho. cbn [attempts] in H. rewrite Ho in H. exact H.
Defined.


(** ** A refused write of a protected entry *)

(** A fault on a working storage is counted as a PIN failure and halts the device. *)
Lemma handle_fault_counts random rng_fuel A msg s m c e : holds s m -> initialized s = true -> in_progress s = false ->
  logs_at m c e -> 0 <= c <= e -> e < 255 -> e - c <= 15 ->
  exists s' m', (handle_fault random rng_fuel msg : ST A) s = Halt (FatalError msg) s' /\ holds s' m' /\ logs_at m' c (e + 1) /\
    (forall k, k <> PIN_LOGS_KEY -> m' !! k = m !! k).
Proof.
  intros Hm Hi Hp L Hc He Hd. unfold handle_fault. mstep. rewrite Hp. unfold set_in_progress. mstep.
  set (s1 := StorageState _ _ _ _ _ _ _ _ _ _ _ _). assert (H1 : holds s1 m) by exact Hm.
  rewrite (pin_get_fails_ok _ s1 m c e) by (done || lia).
  destruct (fails_increase_ok (@fault_nested random rng_fuel) s1 m c e H1 Hi L Hc ltac:(lia)) as (nc & m' & -> & H2 & L2 & Hs).
  cbn [negb]. rewrite (pin_get_fails_ok _ (with_nc s1 nc) m' c (e + 1)) by (done || lia).
  assert (Ew : (u32 (e - c + 1) =? e + 1 - c) = true) by (apply Z.eqb_eq; rewrite u32_small; lia).
  rewrite Ew. cbn [negb]. exists (with_nc s1 nc), m'. done.
Qed.

(** C39: A [storage_set] of a protected key that does not fit into the sector is refused after
    the old entry was deleted and without renewing the storage tag: the key is gone, and, unless
    the tags of the two key sets collide, the tag stored no longer matches the entries. Every
    later read of a protected entry then stops the device with the fault of the storage tag
    check, after counting a PIN failure (given PIN logs with at most 15 failures and room for
    one more), and changes nothing else. *)
Theorem storage_set_full_breaks_tag random rng_fuel s m a k v c e j dest :
  st_rep s m a -> user_key k -> is_public k = false -> zlen v <= 65507 ->
  NORCOW_SECTOR_SIZE < map_used (delete k m) + 4 + (28 + zlen v) ->
  auth_tag (cached_sak s) (delete k m) <> auth_tag (cached_sak s) m ->
  in_progress s = false -> logs_at m c e -> 0 <= c <= e -> e < 255 -> e - c <= 15 ->
  user_key j -> is_public j = false ->
  exists s' s'' m'', storage_set random k v s = Ok false s' /\
    holds s' (delete k m) /\ ~ tag_ok (cached_sak s') (delete k m) /\
    storage_get random rng_fuel j dest s' = Halt (FatalError StorageTagCheck) s'' /\
    holds s'' m'' /\ logs_at m'' c (e + 1) /\ (forall i, i <> PIN_LOGS_KEY -> m'' !! i = delete k m !! i).
Proof.
  intros R Hk Hp Hv Hfull Htag Hpr L Hc He Hd Hj Hjp.
  destruct (storage_set_full random s m a k v R Hk Hp Hv Hfull) as (nc & E & H).
  destruct (user_valid k Hk) as [_ Hne].
  assert (Ht : ~ tag_ok (cached_sak s) (delete k m)).
  { unfold tag_ok. rewrite lookup_delete_ne by done. rewrite (ao_tag _ _ (sr_auth _ _ _ R)). congruence. }
  assert (L' : logs_at (delete k m) c e).
  { destruct L as (gk & mask & guard & Hg & Hx & Hl). exists gk, mask, guard. split; [done|]. split; [done|].
    rewrite lookup_delete_ne; [done|]. unfold user_key in Hk. change PIN_LOGS_KEY with 1. lia. }
  destruct (storage_get_wrong_tag random rng_fuel (with_nc s nc) (delete k m) j dest H) as (x & Eg);
    [apply (sr_auth _ _ _ R)|exact Ht|apply R|apply R|done|done|].
  destruct (handle_fault_counts random rng_fuel (option (Z * Z)) StorageTagCheck (with_sum (with_nc s nc) x) (delete k m) c e)
    as (s2 & m2 & E2 & H2 & L2 & O2); [exact H|apply R|done|done|done|done|done|].
  exists (with_nc s nc), s2, m2. split; [done|]. split; [done|]. split; [exact Ht|]. split; [by apply Eg|done].
Qed.

(** A store with one protected entry and fresh PIN logs. *)
Definition one_key : Z := 0x0101.
Definition one_entry : list Z := enc_entry (replicate 32 0) (replicate 12 0) one_key [7].
Definition one_guard : Z := 1914334578.
Definition one_logs : list Z :=
  match expand_guard_key one_guard with Some (mask, guard) => bytes_of 4 (logs_words one_guard mask guard 0 0) | None => [] end.
Definition one_tag : list Z := auth_tag (replicate 16 0) {[ one_key := one_entry ]}.
Definition one_items : list item := [Item PIN_LOGS_KEY one_logs; Item STORAGE_TAG_KEY one_tag; Item one_key one_entry].
Definition one_map : gmap Z (list Z) := <[PIN_LOGS_KEY := one_logs]> (<[STORAGE_TAG_KEY := one_tag]> {[ one_key := one_entry ]}).
Definition one_store : storage_state :=
  StorageState (store_state one_items) true true 1 1 None demo_keys
    (auth_sum (replicate 16 0) one_map) (replicate 32 0) NORCOW_VERSION false 0.

Lemma one_sizes : zlen one_tag = 16 /\ Forall is_byte one_tag /\ zlen one_entry = 29 /\ Forall is_byte one_entry /\
  zlen one_logs = 132 /\ Forall is_byte one_logs.
Proof.
  assert (Hb : Forall is_byte (replicate 16 0)) by apply bytes_0.
  split; [by apply auth_tag_zlen|]. split; [by apply auth_tag_ok|].
  assert (Hc : Forall is_byte (rfc_cipher (replicate 32 0) (replicate 12 0) [7]))
    by (apply rfc_cipher_bytes; bytes_list).
  unfold one_entry, enc_entry. destruct (rfc_tag_ok (replicate 32 0) (replicate 12 0) (le_bytes 2 one_key)
    (rfc_cipher (replicate 32 0) (replicate 12 0) [7])) as [Hl Ht]. split; [|split].
  - rewrite !zlen_app, Hl. unfold zlen at 2. rewrite rfc_cipher_length. done.
  - apply Forall_app; split; [apply bytes_0|]. by apply Forall_app.
  - split; [vm_compute; reflexivity|]. apply (bool_decide_unpack _). vm_compute. exact I.
Qed.

Lemma one_logs_at : logs_at one_map 0 0.
Proof.
  destruct (expand_guard_key one_guard) as [[mask guard]|] eqn:E; [|vm_compute in E; discriminate].
  exists one_guard, mask, guard. split; [unfold is_u32, one_guard; lia|]. split; [done|].
  unfold one_map. rewrite lookup_insert_eq. unfold one_logs. by rewrite E.
Qed.

Lemma one_used : map_used one_map = 200.
Proof.
  destruct one_sizes as (Ht & _ & He & _ & Hl & _). unfold one_map.
  rewrite !map_used_insert by done. rewrite <- insert_empty, map_used_insert by done.
  rewrite Ht, He, Hl. done.
Qed.

Lemma one_store_rep : st_rep one_store one_map {[ one_key := [7] ]}.
Proof.
  destruct one_sizes as (Htl & Htb & Hel & Heb & Hll & Hlb). split; [done|done| |].
  - split.
    + exists one_items. split; [|reflexivity]. apply store_rep.
      * unfold used, body, one_items. cbn [map concat]. rewrite app_nil_r, !zlen_app, !zlen_enc. cbn [idata].
        rewrite Htl, Hel, Hll. done.
      * unfold one_items. repeat (apply Forall_cons_2; [split; [split; reflexivity || done|split; [assumption|cbn [idata]; lia]]|]).
        apply Forall_nil_2.
      * change (live_keys one_items) with [PIN_LOGS_KEY; STORAGE_TAG_KEY; one_key]. apply (bool_decide_unpack _). vm_compute. exact I.
    + split; [done|apply bytes_0].
    + change (tag_ok (replicate 16 0) one_map). unfold tag_ok.
      assert (Et : auth_tag (replicate 16 0) one_map = one_tag) by (vm_compute; reflexivity).
      rewrite Et. unfold one_map. rewrite lookup_insert_ne, lookup_insert_eq by done. reflexivity.
    + done.
  - intros k Hk. destruct (user_valid k Hk) as [_ Hne]. unfold entry_rep, one_map.
    assert (k <> PIN_LOGS_KEY) by (unfold user_key in Hk; change PIN_LOGS_KEY with 1; lia).
    rewrite !lookup_insert_ne by done. destruct (decide (k = one_key)) as [->|Hn].
    + rewrite !lookup_singleton_eq. exists one_entry. split; [done|]. change (is_public one_key) with false.
      cbn match. exists (replicate 12 0). split; [done|]. split; [apply bytes_0|]. split; [bytes_list|done].
    + by rewrite !lookup_singleton_ne.
Qed.

Lemma storage_set_full_breaks_tag_witness : exists s' s'' m'',
  storage_set (fun _ => 0) one_key (zrep 65500 1) one_store = Ok false s' /\
  storage_get (fun _ => 0) 0 one_key None s' = Halt (FatalError StorageTagCheck) s'' /\
  holds s'' m'' /\ logs_at m'' 0 1.
Proof.
  assert (Hz : zlen (zrep 65500 1) = 65500) by (by apply zlen_zrep).
  destruct (storage_set_full_breaks_tag (fun _ => 0) 0 one_store one_map {[ one_key := [7] ]} one_key
    (zrep 65500 1) 0 0 one_key None one_store_rep) as (s' & s'' & m'' & E & _ & _ & E' & H & L & _).
  - unfold user_key, one_key. lia.
  - reflexivity.
  - rewrite Hz. done.
  - rewrite Hz. pose proof (map_used_delete one_map one_key one_entry eq_refl) as E.
    rewrite one_used, (proj1 (proj2 (proj2 one_sizes))) in E. change (entry_size 29) with 36 in E.
    change NORCOW_SECTOR_SIZE with 65536. lia.
  - intros E. change (cached_sak one_store) with (replicate 16 0) in E.
    vm_compute in E. discriminate.
  - reflexivity.
  - exact one_logs_at.
  - lia.
  - lia.
  - lia.
  - unfold user_key, one_key. lia.
  - reflexivity.
  - exists s', s'', m''. split; [exact E|]. split; [exact E'|]. split; [exact H|exact L].
Defined.

End StorageSession.
