(* ===== verification/StorageCounter.v ===== *)
(** * Monotonic counters: [storage_next_counter], and calls on a locked storage

    A counter is a public entry with a base word and two tail words whose bits are
    cleared one per step, so that 64 steps reuse the same flash words; the entry is
    rewritten with a new base after them.  With the counters, this file also has what a
    locked storage protects from every call that reads or writes entries. *)

From stdpp Require Import base list numbers gmap.
From Stdlib Require Import ZArith Lia.
From S2P Require Import Prelude Bits Flash Norcow NorcowSpec Hash PinLog PinLogSpec Storage StorageAuth StorageSpec StorageAccess StoragePin StorageUnlock AeadSpec.
Local Open Scope fw_scope.

Module StorageCounter.
Import Norcow NorcowSpec Hash PinLog PinLogSpec Storage StorageAuth StorageSpec StorageAccess StoragePin StorageUnlock.

(** A tail word with [d] bits cleared. *)
Definition tail_word (d : Z) : Z := Z.shiftr 0xFFFFFFFF (Z.min 32 (Z.max 0 d)).

(** The entry of a counter that last returned [base + d]. *)
Definition counter_entry (base d : Z) : list Z := [base; tail_word d; tail_word (d - 32)].

Definition counter_at (m : gmap Z (list Z)) (k n : Z) : Prop :=
  exists base d, 0 <= d <= 64 /\ 0 <= base /\ base + d = n /\ n < 2 ^ 32 /\
    m !! k = Some (bytes_of 4 (counter_entry base d)).

(** A public key that the caller may write. *)
Record may_count (s : storage_state) (k : Z) : Prop := {
  mc_init : initialized s = true;
  mc_key : user_key k;
  mc_public : is_public k = true;
  mc_write : write_refused s (u8 (Z.shiftr k 8)) = false;
}.

Lemma may_count_frame s s' k : may_count s k -> frame s s' -> may_count s' k.
Proof.
  intros [Hi Hk Hp Hw] F. split; [by rewrite (fr_init _ _ F)|done|done|].
  unfold write_refused in *. by rewrite (fr_unlocked _ _ F).
Qed.

(** What the loop and the population count find in an entry, for every state of
    the tail. *)
Definition tail_ok (d : Z) : bool :=
  let ws := [tail_word d; tail_word (d - 32)] in
  let i := counter_index ws 1 in
  (i =? 1 + d / 32) &&
  (if d <? 64 then
     let w := znth 0 ws (i - 1) in
     (hamming_weight (not32 w) =? d mod 32) && bool_decide (clears w (Z.shiftr w 1)) &&
     bool_decide (zupd ws (i - 1) (Z.shiftr w 1) = [tail_word (d + 1); tail_word (d + 1 - 32)])
   else true).

Lemma tail_all d : 0 <= d <= 64 -> tail_ok d = true.
Proof.
  intros Hd. assert (H : forallb tail_ok (seqZ 0 65) = true) by (vm_compute; reflexivity).
  apply (proj1 (forallb_forall _ _) H), list_elem_of_In, elem_of_seqZ. lia.
Qed.

Lemma tail_word_u32 d : is_u32 (tail_word d).
Proof.
  unfold tail_word. rewrite Z.shiftr_div_pow2 by lia. assert (0 < 2 ^ Z.min 32 (Z.max 0 d)) by (apply Z.pow_pos_nonneg; lia).
  split; [apply Z.div_pos; lia|]. apply Z.div_lt_upper_bound; nia.
Qed.

Lemma entry_u32 base d : is_u32 base -> Forall is_u32 (counter_entry base d).
Proof. intros H. repeat constructor; try apply H; apply tail_word_u32. Qed.

Lemma public_flag k : is_public k = true -> (u8 (Z.shiftr k 8) .& FLAG_PUBLIC =? 0) = false.
Proof. unfold is_public. by destruct (_ =? 0). Qed.

Section Counter.
Context (random : nat -> Z).

Lemma set_counter_ok s m k n : holds s m -> may_count s k -> is_u32 n ->
  map_used (delete k m) + 4 + 12 <= NORCOW_SECTOR_SIZE ->
  exists s', storage_set_counter random k n s = Ok true s' /\ frame s s' /\
    holds s' (<[k := bytes_of 4 (counter_entry n 0)]> m).
Proof.
  intros Hm [Hi Hk Hp Hw] Hn Hf. destruct (user_valid k Hk) as [Hvk _].
  unfold storage_set_counter. rewrite public_flag by done. unfold storage_set. mstep.
  rewrite Hi, user_app, Hw, public_flag by done. cbn [negb orb].
  change (n :: replicate COUNTER_TAIL_WORDS 0xFFFFFFFF) with (counter_entry n 0).
  assert (Hz : zlen (bytes_of 4 (counter_entry n 0)) = 12) by (by rewrite zlen_bytes_of).
  destruct (set_ok s m k (bytes_of 4 (counter_entry n 0)) 12) as (nc & b & E & H & F);
    [done|done|by apply bytes_of_bytes|done|lia|]. rewrite (F Hf) in *. rewrite Hz, E.
  eexists. split; [done|]. split; [apply frame_nc|done].
Qed.

(** A counter that does not exist yet starts at zero. *)
Lemma next_counter_new s m k : holds s m -> may_count s k -> m !! k = None ->
  map_used m + 16 <= NORCOW_SECTOR_SIZE ->
  exists s', storage_next_counter random k s = Ok (true, Some 0) s' /\ frame s s' /\
    exists m', holds s' m' /\ counter_at m' k 0 /\ (forall j, j <> k -> m' !! j = m !! j).
Proof.
  intros Hm C He Hf. pose proof C as [Hi Hk Hp Hw]. destruct (user_valid k Hk) as [Hvk _].
  unfold storage_next_counter. mstep. rewrite Hi, user_app, public_flag, Hw by done. cbn [negb orb].
  rewrite (get_bytes_ok s m), He by done. rewrite <- (delete_id m k He) in Hf.
  destruct (set_counter_ok s m k 0 Hm C ltac:(unfold is_u32; lia) ltac:(lia)) as (s' & -> & F & H).
  exists s'. split; [done|]. split; [done|]. eexists. split; [done|]. split.
  - exists 0, 0. do 4 (split; [lia|]). apply lookup_insert_eq.
  - intros j Hj. by apply lookup_insert_ne.
Qed.

(** The call once the entry was read: the loop stops at word [1 + d / 32], which
    has [d mod 32] bits cleared. *)
Lemma next_counter_eq s m k base d : holds s m -> may_count s k ->
  m !! k = Some (bytes_of 4 (counter_entry base d)) -> is_u32 base -> 0 <= d <= 64 ->
  storage_next_counter random k s
  = (let count := u32 (base + 1 + 32 * (d / 32)) in
     if count <? base then mret (false, Some count)
     else if d <? 64 then
       let count := u32 (count + d mod 32) in
       if count <? base then mret (false, Some count)
       else
         ret ← lift (norcow_update_word k (4 * (1 + d / 32))
                       (Z.shiftr (znth 0 (counter_entry base d) (1 + d / 32)) 1));
         mret (ret, Some count)
     else ret ← storage_set_counter random k count; mret (ret, Some count)) s.
Proof.
  intros Hm [Hi Hk Hp Hw] He Hb Hd. destruct (user_valid k Hk) as [Hvk _].
  unfold storage_next_counter. mstep. rewrite Hi, user_app, public_flag, Hw by done. cbn [negb orb].
  rewrite (get_bytes_ok s m), He by done.
  assert (Hz : zlen (bytes_of 4 (counter_entry base d)) = 12) by (by rewrite zlen_bytes_of).
  rewrite Hz. change ((12 <? 4) || negb (12 mod 4 =? 0)) with false. cbn match.
  change (Z.to_nat (12 / 4)) with (length (counter_entry base d)). rewrite words_bytes by (by apply entry_u32).
  change (drop 1 (counter_entry base d)) with [tail_word d; tail_word (d - 32)].
  change (znth 0 (counter_entry base d) 0) with base. change (12 / 4) with 3.
  pose proof (tail_all d Hd) as T. unfold tail_ok in T.
  set (i := counter_index _ 1) in *. apply andb_prop in T as [Ti T]. apply Z.eqb_eq in Ti.
  rewrite Ti in *. replace (1 + d / 32 - 1) with (d / 32) in * by lia.
  assert ((1 + d / 32 <? 3) = (d <? 64)) as -> by zlia.
  cbn zeta. destruct (_ <? base); [done|]. destruct (d <? 64); [|done].
  apply andb_prop in T as [T _]. apply andb_prop in T as [T _]. apply Z.eqb_eq in T.
  replace (znth 0 (counter_entry base d) (1 + d / 32)) with (znth 0 [tail_word d; tail_word (d - 32)] (d / 32)).
  - by rewrite T.
  - unfold counter_entry. symmetry. change (base :: ?l) with ([base] ++ l). rewrite znth_app_r; [f_equal; change (zlen [base]) with 1; lia|].
    change (zlen [base]) with 1. zlia.
Qed.

(** A counter that is not at its maximum counts. *)
Lemma next_counter_step s m k n : holds s m -> may_count s k -> counter_at m k n -> n + 1 < 2 ^ 32 ->
  exists s' m', storage_next_counter random k s = Ok (true, Some (n + 1)) s' /\ frame s s' /\
    holds s' m' /\ counter_at m' k (n + 1) /\ (forall j, j <> k -> m' !! j = m !! j).
Proof.
  intros Hm C (base & d & Hd & Hb0 & Hn & Hn2 & He) Hn1. assert (Hb : is_u32 base) by (unfold is_u32; lia).
  pose proof (mc_key _ _ C) as Hk. destruct (user_valid k Hk) as [Hvk _].
  rewrite (next_counter_eq s m k base d) by done. cbn zeta.
  assert (Hdm : 32 * (d / 32) + d mod 32 = d /\ 0 <= d mod 32 /\ 0 <= d / 32) by zlia.
  rewrite (u32_small (base + 1 + 32 * (d / 32))) by lia. zif.
  destruct (Z.ltb_spec d 64) as [H64|H64].
  - rewrite u32_small by lia. zif. mstep.
    pose proof (tail_all d Hd) as T. unfold tail_ok in T. apply andb_prop in T as [Ti T]. apply Z.eqb_eq in Ti.
    rewrite Ti in T. replace (1 + d / 32 - 1) with (d / 32) in T by lia.
    replace (d <? 64) with true in T by (symmetry; by apply Z.ltb_lt).
    apply andb_prop in T as [T Tz]. apply andb_prop in T as [_ Tc]. apply bool_decide_eq_true_1 in Tz, Tc.
    assert (Ew : znth 0 (counter_entry base d) (1 + d / 32) = znth 0 [tail_word d; tail_word (d - 32)] (d / 32)).
    { change (counter_entry base d) with ([base] ++ [tail_word d; tail_word (d - 32)]).
      rewrite znth_app_r; change (zlen [base]) with 1; [f_equal; lia|lia]. }
    rewrite Ew. set (w := znth 0 [_; _] _) in *.
    assert (Hw : is_u32 w).
    { unfold w. assert (d / 32 = 0 \/ d / 32 = 1) as [-> | ->] by zlia; apply tail_word_u32. }
    destruct (update_word_ok s m k (counter_entry base d) (1 + d / 32) (Z.shiftr w 1)) as (nc & -> & H).
    + done.
    + done.
    + done.
    + by apply entry_u32.
    + change (zlen (counter_entry base d)) with 3. zlia.
    + unfold is_u32 in *. rewrite Z.shiftr_div_pow2 by lia. change (2 ^ 1) with 2. zlia.
    + by rewrite Ew.
    + eexists _, _. split; [do 3 f_equal; lia|]. split; [apply frame_nc|]. split; [exact H|].
      split; [|intros j Hj; by rewrite lookup_insert_ne].
      exists base, (d + 1). do 4 (split; [lia|]). rewrite lookup_insert_eq. do 2 f_equal.
      change (counter_entry base d) with ([base] ++ [tail_word d; tail_word (d - 32)]).
      rewrite zupd_app_r; change (zlen [base]) with 1; [|lia].
      replace (1 + d / 32 - 1) with (d / 32) by lia. by rewrite Tz.
  - assert (d = 64) as -> by lia. change (32 * (64 / 32)) with 64.
    pose proof (map_used_delete m k _ He) as Hu. rewrite zlen_bytes_of in Hu. change (entry_size (4 * zlen _)) with 16 in Hu.
    pose proof (holds_used s m Hm).
    destruct (set_counter_ok s m k (base + 1 + 64) Hm C) as (s' & E & F & Hh); [unfold is_u32; lia|lia|]. mstep. rewrite E.
    eexists _, _. split; [do 3 f_equal; lia|]. split; [done|]. split; [exact Hh|].
    split; [|intros j Hj; by rewrite lookup_insert_ne].
    exists (base + 65), 0. do 4 (split; [lia|]). rewrite lookup_insert_eq. do 3 f_equal. lia.
Qed.

(** At its maximum it refuses and the storage is unchanged. *)
Lemma next_counter_full s m k : holds s m -> may_count s k -> counter_at m k (2 ^ 32 - 1) ->
  storage_next_counter random k s = Ok (false, Some 0) s.
Proof.
  intros Hm C (base & d & Hd & Hb0 & Hn & Hn2 & He). assert (Hb : is_u32 base) by (unfold is_u32; lia).
  rewrite (next_counter_eq s m k base d) by done. cbn zeta.
  assert (Hdm : 32 * (d / 32) + d mod 32 = d /\ 0 <= d mod 32 /\ 0 <= d / 32) by zlia.
  assert (E0 : u32 (2 ^ 32) = 0) by reflexivity.
  destruct (Z.eq_dec (base + 1 + 32 * (d / 32)) (2 ^ 32)) as [E|E].
  - rewrite E, E0. zif. done.
  - rewrite (u32_small (base + 1 + 32 * (d / 32))) by lia. zif.
    destruct (Z.ltb_spec d 64); [|zlia]. replace (base + 1 + 32 * (d / 32) + d mod 32) with (2 ^ 32) by lia.
    rewrite E0. zif. done.
Qed.

(** [n] calls in a row. *)
Fixpoint counter_run (k : Z) (n : nat) : ST (list (bool * option Z)) :=
  match n with
  | O => mret []
  | S n => r ← storage_next_counter random k; rs ← counter_run k n; mret (r :: rs)
  end.

Lemma counter_run_ok k N : forall s m n, holds s m -> may_count s k -> counter_at m k n -> n + Z.of_nat N < 2 ^ 32 ->
  exists s' m', counter_run k N s = Ok (map (fun i => (true, Some i)) (seqZ (n + 1) (Z.of_nat N))) s' /\
    frame s s' /\ holds s' m' /\ counter_at m' k (n + Z.of_nat N) /\ (forall j, j <> k -> m' !! j = m !! j).
Proof.
  induction N as [|N IH]; intros s m n Hm C H Hn; cbn [counter_run]; mstep.
  { exists s, m. rewrite Z.add_0_r. by split. }
  destruct (next_counter_step s m k n Hm C H ltac:(lia)) as (s1 & m1 & -> & F1 & H1 & C1 & O1).
  destruct (IH s1 m1 (n + 1) H1 (may_count_frame _ _ _ C F1) C1 ltac:(lia)) as (s2 & m2 & -> & F2 & H2 & C2 & O2).
  exists s2, m2. split.
  { rewrite (seqZ_cons (n + 1)) by lia. replace (Z.pred (Z.of_nat (S N))) with (Z.of_nat N) by lia. done. }
  split; [by transitivity s1|]. split; [done|]. split; [by replace (n + Z.of_nat (S N)) with (n + 1 + Z.of_nat N) by lia|].
  intros j Hj. by rewrite O2, O1.
Qed.

End Counter.

(** ** Calls on a locked storage

    The calls that read and write entries, counters included.  Unlocking, changing the PIN
    or the wipe code, and wiping are not among them. *)

Inductive call :=
| CEntry (op : st_op)
| CSetCounter (k count : Z)
| CNextCounter (k : Z).

Inductive answer := AEntry (r : st_res) | AStatus (b : bool) | ACount (b : bool) (count : option Z).

Definition call_ok (c : call) : Prop :=
  match c with
  | CEntry op => key_ok op
  | CSetCounter k count => 0 <= k < 65535 /\ is_u32 count
  | CNextCounter k => 0 <= k < 65535
  end.

Definition call_allowed (c : call) : bool :=
  match c with CEntry op => locked_allowed op | CSetCounter k _ | CNextCounter k => write_open k end.

Definition call_refused (c : call) (r : answer) : Prop :=
  match c with
  | CEntry op => exists r', r = AEntry r' /\ refused op r'
  | CSetCounter _ _ => r = AStatus false
  | CNextCounter _ => r = ACount false None
  end.

Section LockedCalls.
Context (random : nat -> Z) (rng_fuel : nat).

Definition call_exec (c : call) : ST answer :=
  match c with
  | CEntry op => r ← st_exec random rng_fuel op; mret (AEntry r)
  | CSetCounter k count => b ← storage_set_counter random k count; mret (AStatus b)
  | CNextCounter k => r ← storage_next_counter random k; mret (ACount (fst r) (snd r))
  end.

Fixpoint call_run (calls : list call) : ST (list answer) :=
  match calls with
  | [] => mret []
  | c :: calls => r ← call_exec c; rs ← call_run calls; mret (r :: rs)
  end.

(** The entries without the write flags are the same. *)
Definition same_protected (m m' : gmap Z (list Z)) : Prop := forall k, write_open k = false -> m' !! k = m !! k.

Lemma not_public_closed k : is_public k = false -> write_open k = false.
Proof. destruct (write_open k) eqn:E; [|done]. by rewrite write_open_public. Qed.

(** Setting a counter is setting the entry, or refused. *)
Lemma locked_set_counter s m k n : locked_rep s m -> 0 <= k < 65535 -> is_u32 n ->
  exists b s' m', storage_set_counter random k n s = Ok b s' /\ locked_rep s' m' /\ frame s s' /\ same_protected m m' /\
    (write_open k = false -> b = false /\ s' = s).
Proof.
  intros L Hk Hn. unfold storage_set_counter. destruct (is_public k) eqn:Ep.
  - rewrite public_flag by done. set (v := bytes_of 4 _).
    assert (Hv : key_ok (OSet k v)).
    { split; [done|]. split; [apply bytes_of_bytes|]. unfold v. rewrite zlen_bytes_of. vm_compute. done. }
    destruct (locked_exec random rng_fuel s m (OSet k v) L Hv) as (r & s' & m' & E & L' & F & H & _).
    cbn [st_exec] in E. cbv [mbind M_bind mret M_ret] in E.
    destruct (storage_set random k v s) as [b s1|] eqn:Es; [|discriminate]. injection E as <- <-.
    exists b, s1, m'. do 4 (split; [done|]). intros Hc.
    destruct (locked_refused random rng_fuel s (OSet k v) (lr_locked _ _ L) Hc) as (r & E & Hr). cbn [st_exec] in E.
    cbv [mbind M_bind mret M_ret] in E. rewrite Es in E. injection E as <- <-. by injection Hr as ->.
  - replace (u8 (Z.shiftr k 8) .& FLAG_PUBLIC =? 0) with true by (unfold is_public in Ep; by destruct (_ =? 0)).
    by exists false, s, m.
Qed.

Lemma bytes_words n : forall bs, Forall is_byte bs -> length bs = (4 * n)%nat -> bytes_of 4 (words_of 4 n bs) = bs.
Proof.
  induction n as [|n IH]; intros bs Hb Hl; [by destruct bs|]. cbn [words_of]. unfold bytes_of. cbn [map concat].
  fold (bytes_of 4 (words_of 4 n (drop 4 bs))). rewrite IH by (by apply Forall_drop || (rewrite length_drop; lia)).
  rewrite <- (take_drop 4 bs) at 3. f_equal.
  apply le_bytes_uniq; [rewrite length_take; lia|by apply Forall_take|].
  done.
Qed.

Lemma counter_index_ge ws : forall i, i <= counter_index ws i.
Proof.
  induction ws as [|w ws IH]; intros i; cbn [counter_index]; [lia|]. destruct (w =? 0); [|lia]. pose proof (IH (i + 1)). lia.
Qed.

(** Any word of an entry may be overwritten, or the write fails and the device halts. *)
Lemma update_word_any s m k bs i w : holds s m -> valid_key k -> m !! k = Some bs -> 0 <= i -> 4 * i + 4 <= zlen bs ->
  zlen bs mod 4 = 0 -> is_u32 w ->
  (exists nc bs', lift (norcow_update_word k (4 * i) w) s = Ok true (with_nc s nc) /\ holds (with_nc s nc) (<[k := bs']> m)) \/
  lift (norcow_update_word k (4 * i) w) s = Halt (NorcowFault Norcow.EnsureFailed) s.
Proof.
  intros Hm Hk Hv Hi Hl Ha Hw. pose proof (holds_bytes s m k bs Hm Hv) as Hb.
  set (n := Z.to_nat (zlen bs / 4)).
  assert (Hn : length bs = (4 * n)%nat) by (unfold n, zlen in *; zlia).
  pose proof (bytes_words n bs Hb Hn) as Ebs. set (ws := words_of 4 n bs) in *.
  assert (Hu : Forall is_u32 ws).
  { unfold ws. apply AeadSpec.words_u32, Hb. }
  assert (Hlw : zlen ws = zlen bs / 4).
  { assert (E := f_equal zlen Ebs). rewrite zlen_bytes_of in E. zlia. }
  destruct (decide (clears (znth 0 ws i) w)) as [Hc|Hc].
  - left. destruct (update_word_ok s m k ws i w) as (nc & E & H); [done|done|by rewrite Ebs|done|zlia|done|done|]. by eexists nc, _.
  - right. destruct Hm as (items & R & Em). unfold lift.
    rewrite (norcow_update_word_stuck _ items k (4 * i) bs w); [|done|done|by rewrite Em|done|lia|lia|zlia|].
    + mstep. unfold set_nc. mstep. f_equal. by destruct s.
    + destruct (words_split ws i ltac:(zlia)) as (p & o & q & Hws & Hp & Ho & _). rewrite Ho in Hc.
      assert (Huo : is_u32 o) by (rewrite Hws in Hu; by apply Forall_elt in Hu).
      rewrite <- Ebs, Hws, bytes_of_app. change (bytes_of 4 (o :: q)) with (le_bytes 4 o ++ bytes_of 4 q).
      rewrite slice_mid; [|rewrite zlen_bytes_of; lia|done]. rewrite le_val_bytes, Z.mod_small by exact Huo. exact Hc.
Qed.

(** The counter of a write-open key touches its own entry only; it may halt when the
    entry holds no counter, with nothing changed. *)
Lemma locked_next_counter s m k : locked_rep s m -> 0 <= k < 65535 ->
  (exists r s' m', storage_next_counter random k s = Ok r s' /\ locked_rep s' m' /\ frame s s' /\ same_protected m m' /\
     (write_open k = false -> r = (false, None))) \/
  write_open k = true /\ storage_next_counter random k s = Halt (NorcowFault Norcow.EnsureFailed) s.
Proof.
  intros L Hk. pose proof (lr_locked _ _ L) as Hu. pose proof (lr_holds _ _ L) as Hm.
  unfold storage_next_counter. mstep. destruct (negb (initialized s) || _ || _) eqn:Eg.
  { left. by exists (false, None), s, m. }
  unfold write_refused. rewrite Hu. fold (write_open k). cbn [negb andb].
  destruct (write_open k) eqn:Ew; cbn [negb]; [|left; by exists (false, None), s, m].
  assert (Hvk : valid_key k).
  { apply orb_false_iff in Eg as [Eg _]. apply orb_false_iff in Eg as [_ Eg]. apply user_valid. split; [|lia].
    destruct (Z.lt_ge_cases k 256); [|done]. exfalso. apply Z.eqb_neq in Eg. apply Eg. unfold u8, wrap.
    rewrite Z.shiftr_div_pow2 by lia. change (2 ^ 8) with 256. by rewrite Z.div_small by lia. }
  rewrite (get_bytes_ok s m) by done.
  assert (Set1 : forall n, is_u32 n -> exists b s' m', storage_set_counter random k n s = Ok b s' /\ locked_rep s' m' /\ frame s s' /\ same_protected m m').
  { intros n Hn. destruct (locked_set_counter s m k n L Hk Hn) as (b & s' & m' & ? & ? & ? & ? & _). by exists b, s', m'. }
  destruct (m !! k) as [bs|] eqn:Ev.
  2:{ left. destruct (Set1 0 ltac:(unfold is_u32; lia)) as (b & s' & m' & -> & ? & ? & ?). by exists (b, Some 0), s', m'. }
  destruct ((zlen bs <? 4) || negb (zlen bs mod 4 =? 0)) eqn:El; [left; by exists (false, None), s, m|].
  apply orb_false_iff in El as [El1 El2]. apply negb_false_iff in El2. zbool. cbn zeta.
  set (ws := words_of 4 _ bs). set (base := znth 0 ws 0). set (i := counter_index _ 1). set (count := u32 _).
  assert (Hi : 1 <= i) by apply counter_index_ge.
  destruct (count <? base); [left; by exists (false, Some count), s, m|]. destruct (Z.ltb_spec i (zlen bs / 4)).
  - set (w := znth 0 ws i). destruct (u32 (count + _) <? base); [left; by eexists (false, Some _), s, m|].
    assert (Hw : is_u32 (Z.shiftr w 1)).
    { apply is_u32_shiftr; [|lia]. unfold w, znth. zif. apply AeadSpec.nth_u32, AeadSpec.words_u32. by apply (holds_bytes s m k). }
    destruct (update_word_any s m k bs i (Z.shiftr w 1)) as [(nc & bs' & -> & H')| ->];
      [done|done|done|lia|zlia|done|done| |by right].
    left. eexists (true, Some _), _, _. split; [done|]. split; [by split|]. split; [apply frame_nc|].
    split; [|done]. intros j Hj. rewrite lookup_insert_ne; [done|congruence].
  - left. destruct (Set1 count ltac:(apply u32_range)) as (b & s' & m' & -> & ? & ? & ?). by exists (b, Some count), s', m'.
Qed.

Lemma locked_call s m c : locked_rep s m -> call_ok c ->
  (exists r s' m', call_exec c s = Ok r s' /\ locked_rep s' m' /\ same_protected m m' /\
     (call_allowed c = false -> call_refused c r)) \/
  (exists k, c = CNextCounter k /\ write_open k = true) /\ call_exec c s = Halt (NorcowFault Norcow.EnsureFailed) s.
Proof.
  intros L Hc. destruct c as [op|k count|k]; cbn [call_ok call_exec call_allowed call_refused] in *; mstep.
  - left. destruct (locked_exec random rng_fuel s m op L Hc) as (r & s' & m' & -> & ? & _ & ? & Hr).
    exists (AEntry r), s', m'. do 3 (split; [done|]). intros Ha. exists r. split; [done|]. by apply Hr.
  - left. destruct Hc as [Hk Hn]. destruct (locked_set_counter s m k count L Hk Hn) as (b & s' & m' & -> & ? & _ & ? & Hr).
    exists (AStatus b), s', m'. do 3 (split; [done|]). intros Ha. by destruct (Hr Ha) as [-> _].
  - destruct (locked_next_counter s m k L Hc) as [(r & s' & m' & -> & ? & _ & ? & Hr)|[Ho ->]].
    + left. eexists _, s', m'. do 3 (split; [done|]). intros Ha. by rewrite (Hr Ha).
    + right. split; [by exists k|done].
Qed.

Lemma locked_calls calls : forall s m, locked_rep s m -> Forall call_ok calls ->
  exists s' m', locked_rep s' m' /\ same_protected m m' /\
    ((exists rs, call_run calls s = Ok rs s' /\ Forall2 (fun c r => call_allowed c = false -> call_refused c r) calls rs) \/
     call_run calls s = Halt (NorcowFault Norcow.EnsureFailed) s' /\ exists k, In (CNextCounter k) calls /\ write_open k = true).
Proof.
  induction calls as [|c calls IH]; intros s m L Hok; cbn [call_run]; mstep.
  { exists s, m. split; [done|]. split; [done|]. left. by exists []. }
  apply Forall_cons_iff in Hok as [Hc Hok].
  destruct (locked_call s m c L Hc) as [(r & s1 & m1 & -> & L1 & H1 & R1)|[(k & -> & Hk) ->]].
  - destruct (IH s1 m1 L1 Hok) as (s2 & m2 & L2 & H2 & D). exists s2, m2. split; [done|].
    split; [intros j Hj; by rewrite H2, H1|]. destruct D as [(rs & -> & R2)|[-> (k & Hin & Hk)]].
    + left. exists (r :: rs). split; [done|by constructor].
    + right. split; [done|]. exists k. split; [by right|done].
  - exists s, m. split; [done|]. split; [done|]. right. split; [done|]. exists k. split; [by left|done].
Qed.

End LockedCalls.

(** ** Properties *)


Definition demo_calls : list call :=
  [CEntry (OGet 0x0101 (Some 4)); CEntry (OSet 0x8001 [1]); CEntry (OSet 0xC001 [2]); CEntry (ODelete 5);
   CNextCounter 0x8002; CSetCounter 0xC002 7].


(** Repeated calls of [storage_next_counter] on a stored counter return the
    consecutive numbers after the last one, each with success, across the rewrites
    of the entry and the compactions they cause, touch no other entry, and after
    the last 32-bit value the call is refused and changes nothing. *)
Theorem next_counter_consecutive random s m k n N : holds s m -> may_count s k -> counter_at m k n ->
  n + Z.of_nat N < 2 ^ 32 ->
  exists s' m', counter_run random k N s = Ok (map (fun i => (true, Some i)) (seqZ (n + 1) (Z.of_nat N))) s' /\
    holds s' m' /\ counter_at m' k (n + Z.of_nat N) /\ (forall j, j <> k -> m' !! j = m !! j) /\
    (n + Z.of_nat N = 2 ^ 32 - 1 -> storage_next_counter random k s' = Ok (false, Some 0) s').
Proof.
  intros Hm C H Hn. destruct (counter_run_ok random k N s m n Hm C H Hn) as (s' & m' & E & F & H' & C' & O).
  exists s', m'. split; [done|]. split; [done|]. split; [done|]. split; [done|]. intros Ef. rewrite Ef in C'.
  by apply (next_counter_full random s' m'); [|apply (may_count_frame s)|].
Qed.

Lemma next_counter_consecutive_witness : exists s m, counter_at m 0x8001 0 /\
  exists s' m', counter_run (fun _ => 0) 0x8001 3 s = Ok [(true, Some 1); (true, Some 2); (true, Some 3)] s' /\
    holds s' m' /\ counter_at m' 0x8001 3 /\ (forall j, j <> 0x8001 -> m' !! j = m !! j) /\
    (0 + 3 = 2 ^ 32 - 1 -> storage_next_counter (fun _ => 0) 0x8001 s' = Ok (false, Some 0) s').
Proof.
  assert (C : may_count demo_store 0x8001) by (split; [reflexivity|split; reflexivity || discriminate|reflexivity|reflexivity]).
  destruct (next_counter_new (fun _ => 0) demo_store demo_map 0x8001) as (s & _ & F & m & H & Hc & _).
  - exact (ao_holds _ _ (sr_auth _ _ _ demo_store_rep)).
  - exact C.
  - reflexivity.
  - assert (E : map_used demo_map = 8 + entry_size (zlen demo_tag)).
    { unfold demo_map. rewrite <- insert_empty. by apply map_used_insert. }
    rewrite E, (proj1 demo_tag_ok). done.
  - exists s, m. split; [exact Hc|].
    exact (next_counter_consecutive (fun _ => 0) s m 0x8001 0 3 H (may_count_frame _ _ _ C F) Hc ltac:(reflexivity)).
Defined.

End StorageCounter.
