(* ===== verification/Interp.v ===== *)
(** * Lagrange interpolation over a field

    The polynomial of degree below [n] through [n] points with distinct abscissae
    is unique, and its value is the Lagrange sum. *)

From Stdlib Require Import Field_theory Field Lia.
From stdpp Require Import base list numbers.

Module Interp.

Section Interp.
Context {F : Type} {zero one : F} {add mul sub : F -> F -> F} {opp : F -> F} {div : F -> F -> F} {inv : F -> F}.
Context (Fth : field_theory zero one add mul sub opp div inv eq).
Add Field interp_field : Fth.
Local Infix "/" := div.
Local Infix "-" := sub.
Local Infix "*" := mul.
Local Notation "0" := zero.
Local Infix "+" := add.
Local Notation "1" := one.

(** ** Polynomials by their coefficients *)

Definition eval (p : list F) (x : F) : F := foldr (fun c acc => c + x * acc) 0 p.

(** The functions that are polynomials with [n] coefficients. *)
Definition is_poly (n : nat) (f : F -> F) : Prop := exists p, length p = n /\ forall x, f x = eval p x.

Lemma eval_replicate_0 n x : eval (replicate n 0) x = 0.
Proof. induction n as [|n IH]; cbn [replicate eval foldr]; [done|]. unfold eval in IH. rewrite IH. ring. Qed.

Lemma poly_zero n : is_poly n (fun _ => 0).
Proof. exists (replicate n 0). split; [apply length_replicate|]. intros x. by rewrite eval_replicate_0. Qed.

Lemma poly_const n c : is_poly (S n) (fun _ => c).
Proof.
  exists (c :: replicate n 0). split; [cbn; by rewrite length_replicate|]. intros x.
  change (eval (c :: replicate n 0) x) with (c + x * eval (replicate n 0) x). rewrite eval_replicate_0. ring.
Qed.

Lemma poly_add n f g : is_poly n f -> is_poly n g -> is_poly n (fun x => f x + g x).
Proof.
  intros (p & Hp & Ef) (q & Hq & Eg). exists (zip_with add p q). split; [rewrite length_zip_with; lia|].
  intros x. rewrite Ef, Eg. clear Ef Eg f g. subst n. revert q Hq.
  induction p as [|a p IH]; intros [|b q] Hq; try discriminate; cbn [zip_with eval foldr]; [ring|].
  injection Hq as Hq. unfold eval in IH. rewrite <- IH by done. ring.
Qed.

Lemma poly_scale n c f : is_poly n f -> is_poly n (fun x => c * f x).
Proof.
  intros (p & Hp & Ef). exists (map (mul c) p). split; [by rewrite length_map|]. intros x. rewrite Ef.
  clear Hp Ef. induction p as [|a p IH]; cbn [map eval foldr]; [ring|]. unfold eval in IH. rewrite <- IH. ring.
Qed.

Lemma poly_weaken n f : is_poly n f -> is_poly (S n) f.
Proof.
  intros (p & Hp & Ef). exists (p ++ [0]). split; [rewrite length_app; cbn; lia|]. intros x. rewrite Ef.
  unfold eval. rewrite foldr_app. f_equal. cbn. ring.
Qed.

Lemma poly_le n m f : (n <= m)%nat -> is_poly n f -> is_poly m f.
Proof. induction 1; auto using poly_weaken. Qed.

Lemma poly_ext n f g : (forall x, f x = g x) -> is_poly n f -> is_poly n g.
Proof. intros E (p & Hp & Ef). exists p. split; [done|]. intros x. by rewrite <- E. Qed.

(** Multiplication by a linear factor. *)
Lemma poly_linear n a f : is_poly n f -> is_poly (S n) (fun x => (x - a) * f x).
Proof.
  intros Hf. apply (poly_ext _ (fun x => x * f x + opp a * f x)); [intros x; ring|].
  apply poly_add; [|by apply poly_weaken, poly_scale].
  destruct Hf as (p & Hp & Ef). exists (0 :: p). split; [cbn; by rewrite Hp|]. intros x. rewrite Ef.
  change (eval (0 :: p) x) with (0 + x * eval p x). ring.
Qed.

(** ** Roots *)

(** Division by [x - a]. *)
Lemma synthetic_division p a : exists q, length q = pred (length p) /\
  forall x, eval p x = eval p a + (x - a) * eval q x.
Proof.
  induction p as [|c p (q & Hq & E)]; [exists []; split; [done|]; intros x; cbn; ring|].
  destruct p as [|d p]; [exists []; split; [done|]; intros x; cbn; ring|].
  exists (eval (d :: p) a :: q). split; [cbn in *; lia|]. intros x.
  change (eval (c :: d :: p) x) with (c + x * eval (d :: p) x).
  change (eval (c :: d :: p) a) with (c + a * eval (d :: p) a).
  change (eval (eval (d :: p) a :: q) x) with (eval (d :: p) a + x * eval q x). rewrite (E x). ring.
Qed.

Lemma mul_zero_r x y : x <> 0 -> x * y = 0 -> y = 0.
Proof.
  intros Hx E. transitivity (inv x * (x * y)); [|rewrite E; ring].
  transitivity ((inv x * x) * y); [|ring]. rewrite (Finv_l Fth x Hx). ring.
Qed.

Lemma sub_nonzero x y : x <> y -> x - y <> 0.
Proof. intros H E. apply H. transitivity (x - y + y); [ring|]. rewrite E. ring. Qed.

Lemma roots_zero rs p : NoDup rs -> length p = length rs -> (forall r, r ∈ rs -> eval p r = 0) ->
  forall x, eval p x = 0.
Proof.
  revert p. induction rs as [|a rs IH]; intros p Hnd Hl Hr x.
  { by destruct p. }
  apply list.NoDup_cons in Hnd as [Ha Hnd]. destruct (synthetic_division p a) as (q & Hq & E).
  rewrite E, (Hr a) by (apply list_elem_of_here). rewrite (IH q); [ring|done|rewrite Hq, Hl; done|].
  intros r Hin. pose proof (Hr r ltac:(by apply list_elem_of_further)) as H0. rewrite E, (Hr a) in H0 by (apply list_elem_of_here).
  apply (mul_zero_r (r - a)); [apply sub_nonzero; by intros ->|]. rewrite <- H0. ring.
Qed.

(** Two polynomials with [n] coefficients that agree on [n] points are equal. *)
Lemma poly_unique n f g rs : is_poly n f -> is_poly n g -> NoDup rs -> length rs = n ->
  (forall r, r ∈ rs -> f r = g r) -> forall x, f x = g x.
Proof.
  intros Hf Hg Hnd Hl Hr x.
  destruct (poly_add n f (fun x => opp 1 * g x) Hf (poly_scale n _ g Hg)) as (p & Hp & E).
  assert (Hz : eval p x = 0).
  { apply (roots_zero rs p Hnd ltac:(lia)). intros r Hin. rewrite <- E, Hr by done. ring. }
  rewrite <- E in Hz. transitivity (f x + opp 1 * g x + g x); [ring|]. rewrite Hz. ring.
Qed.

(** ** The Lagrange sum *)

Definition sum (l : list F) : F := foldr add 0 l.
Definition prod (l : list F) : F := foldr mul 1 l.

(** The list without its element [i]. *)
Definition others {A} (i : nat) (l : list A) : list A := take i l ++ drop (S i) l.

(** The basis polynomial of point [i] at [x]. *)
Definition basis (xs : list F) (i : nat) (xi x : F) : F :=
  prod (map (fun xj => (x - xj) / (xi - xj)) (others i xs)).

Definition lagrange (xs ys : list F) (x : F) : F :=
  sum (imap (fun i p => p.2 * basis xs i p.1 x) (zip xs ys)).

Lemma prod_zero l : 0 ∈ l -> prod l = 0.
Proof.
  induction l as [|a l IH]; intros Hin; [by apply not_elem_of_nil in Hin|]. cbn [prod foldr].
  apply elem_of_cons in Hin as [<-|Hin]; [ring|]. unfold prod in IH. rewrite IH by done. ring.
Qed.

Lemma prod_one l : (forall y, y ∈ l -> y = 1) -> prod l = 1.
Proof.
  induction l as [|a l IH]; intros H; [done|]. cbn [prod foldr]. rewrite (H a) by (apply list_elem_of_here).
  unfold prod in IH. rewrite IH; [ring|]. intros y Hy. apply H. by apply list_elem_of_further.
Qed.

Lemma others_lookup {A} i (l : list A) x : l !! i = Some x -> l ≡ₚ x :: others i l.
Proof.
  intros H. rewrite <- (take_drop_middle l i x H) at 1. unfold others. by rewrite Permutation_middle.
Qed.

Lemma others_length {A} i (l : list A) : (i < length l)%nat -> length (others i l) = pred (length l).
Proof. intros H. unfold others. rewrite length_app, length_take, length_drop. lia. Qed.

Lemma others_ne i (l : list F) x y : NoDup l -> l !! i = Some x -> y ∈ others i l -> x <> y.
Proof.
  intros Hnd H Hy ->. rewrite (others_lookup i l y H) in Hnd. by apply list.NoDup_cons in Hnd as [Hn _].
Qed.

Lemma div_mul_inv x y : x / y = x * inv y.
Proof. apply (Fdiv_def Fth). Qed.

Lemma div_self x : x <> 0 -> x / x = 1.
Proof. intros H. rewrite div_mul_inv. transitivity (inv x * x); [ring|]. by apply (Finv_l Fth). Qed.

(** Each basis polynomial is one at its own point and zero at the others. *)
Lemma basis_self xs i xi : NoDup xs -> xs !! i = Some xi -> basis xs i xi xi = 1.
Proof.
  intros Hnd Hi. apply prod_one. intros y Hy. apply list_elem_of_fmap in Hy as (xj & -> & Hj).
  apply div_self, sub_nonzero. by apply (others_ne i xs).
Qed.

Lemma basis_other xs i j xi xj : NoDup xs -> xs !! i = Some xi -> xs !! j = Some xj -> i <> j -> basis xs i xi xj = 0.
Proof.
  intros Hnd Hi Hj Hne. apply prod_zero, list_elem_of_fmap. exists xj.
  split; [rewrite div_mul_inv; ring|].
  assert (Hin : xj ∈ xi :: others i xs) by (rewrite <- (others_lookup i xs xi Hi); by eapply list_elem_of_lookup_2).
  apply elem_of_cons in Hin as [->|Hin]; [|done].
  exfalso. apply Hne. by apply (NoDup_lookup xs i j xi).
Qed.

Lemma basis_poly xs i xi : (i < length xs)%nat -> is_poly (length xs) (basis xs i xi).
Proof.
  intros Hi. apply (poly_le (S (length (others i xs)))); [rewrite others_length by done; lia|].
  unfold basis. induction (others i xs) as [|xj l IH]; [apply (poly_const 0 one)|].
  cbn [length map prod foldr]. apply (poly_ext _ (fun x => inv (xi - xj) * ((x - xj) * prod (map (fun xj => (x - xj) / (xi - xj)) l)))).
  { intros x. rewrite (div_mul_inv (x - xj)). unfold prod. ring. }
  by apply poly_scale, poly_linear.
Qed.

Lemma sum_poly {A} n (g : nat -> A -> F -> F) (l : list A) :
  (forall i a, l !! i = Some a -> is_poly n (g i a)) -> is_poly n (fun x => sum (imap (fun i a => g i a x) l)).
Proof.
  revert g. induction l as [|a l IH]; intros g H; [apply poly_zero|].
  cbn [imap sum foldr]. apply (poly_add n (g O a)); [by apply H|].
  apply (poly_ext _ (fun x => sum (imap (fun i a => g (S i) a x) l))); [intros x; done|].
  apply IH. intros i b Hb. by apply (H (S i)).
Qed.

Lemma lagrange_poly xs ys : length ys = length xs -> is_poly (length xs) (lagrange xs ys).
Proof.
  intros Hl. unfold lagrange. apply (sum_poly (length xs) (fun i p x => p.2 * basis xs i p.1 x)).
  intros i [xi yi] H. apply poly_scale, basis_poly. apply lookup_lt_Some in H. rewrite length_zip in H. lia.
Qed.

(** A sum with one term that is not zero. *)
Lemma sum_single {A} (g : nat -> A -> F) (l : list A) k a :
  l !! k = Some a -> (forall i b, l !! i = Some b -> i <> k -> g i b = 0) -> sum (imap g l) = g k a.
Proof.
  revert g k. induction l as [|b l IH]; intros g k Hk H; [done|]. cbn [imap sum foldr]. destruct k as [|k].
  - injection Hk as ->. assert (E : forall (g' : nat -> A -> F) l', (forall i b, l' !! i = Some b -> g' i b = 0) -> sum (imap g' l') = 0).
    { clear - Fth. intros g' l'. revert g'. induction l' as [|b l' IH]; intros g' H; [done|]. cbn [imap sum foldr].
      rewrite (H O b eq_refl). unfold sum in IH. rewrite (IH (g' ∘ S)); [ring|]. intros i c Hc. by apply (H (S i)). }
    unfold sum in E. rewrite (E (g ∘ S) l); [ring|]. intros i c Hc. by apply (H (S i)).
  - rewrite (H O b eq_refl) by lia. unfold sum in IH. rewrite (IH (g ∘ S) k Hk); [cbn; ring|].
    intros i c Hc Hne. apply (H (S i)); [done|lia].
Qed.

Lemma lagrange_at xs ys k xk yk : NoDup xs -> length ys = length xs -> xs !! k = Some xk -> ys !! k = Some yk ->
  lagrange xs ys xk = yk.
Proof.
  intros Hnd Hl Hx Hy. unfold lagrange.
  rewrite (sum_single (fun i p => p.2 * basis xs i p.1 xk) (zip xs ys) k (xk, yk)).
  - rewrite basis_self by done. cbn [snd]. ring.
  - by rewrite lookup_zip_Some.
  - intros i [xi yi] Hi Hne. apply lookup_zip_Some in Hi as [Hi _]. cbn [fst snd]. rewrite (basis_other xs i k xi xk) by done. ring.
Qed.

(** The sum interpolates every polynomial with at most as many coefficients as
    points. *)
Lemma lagrange_interpolates xs n f : NoDup xs -> is_poly n f -> (n <= length xs)%nat ->
  forall x, lagrange xs (map f xs) x = f x.
Proof.
  intros Hnd Hf Hn. apply (poly_unique (length xs) _ _ xs).
  - apply lagrange_poly. by rewrite length_map.
  - by apply (poly_le n).
  - done.
  - done.
  - intros r Hr. apply list_elem_of_lookup in Hr as (k & Hk). apply (lagrange_at xs _ k); [done|by rewrite length_map|done|].
    by rewrite list_lookup_fmap, Hk.
Qed.

(** ** The sum with one numerator for all terms *)

Lemma prod_perm l l' : l ≡ₚ l' -> prod l = prod l'.
Proof. induction 1; cbn [prod foldr] in *; unfold prod in *; [done|by rewrite IHPermutation|ring|congruence]. Qed.

Lemma mul_nonzero x y : x <> 0 -> y <> 0 -> x * y <> 0.
Proof. intros Hx Hy E. by apply Hy, (mul_zero_r x). Qed.

Lemma prod_nonzero l : (forall y, y ∈ l -> y <> 0) -> prod l <> 0.
Proof.
  induction l as [|a l IH]; intros H; cbn [prod foldr]; [apply (F_1_neq_0 Fth)|].
  apply mul_nonzero; [apply H, list_elem_of_here|]. apply IH. intros y Hy. by apply H, list_elem_of_further.
Qed.

Context `{EqDecision F}.

(** The factor of the own point is left out when the polynomial is evaluated there. *)
Definition denom (xs : list F) (x : F) (i : nat) (xi : F) : F :=
  (if decide (xi = x) then 1 else x - xi) * prod (map (sub xi) (others i xs)).

Definition term (xs : list F) (x : F) (i : nat) (p : F * F) : F :=
  (if decide (p.1 = x) then p.2 else 0) + inv (denom xs x i p.1) * prod (map (sub x) xs) * p.2.

Lemma denom_nonzero xs x i xi : NoDup xs -> xs !! i = Some xi -> denom xs x i xi <> 0.
Proof.
  intros Hnd Hi. apply mul_nonzero.
  - case_decide; [apply (F_1_neq_0 Fth)|by apply sub_nonzero].
  - apply prod_nonzero. intros y Hy. apply list_elem_of_fmap in Hy as (xj & -> & Hj).
    apply sub_nonzero. by apply (others_ne i xs).
Qed.

Lemma denom_dup xs x i j xi : xs !! i = Some xi -> xs !! j = Some xi -> i <> j -> denom xs x i xi = 0.
Proof.
  intros Hi Hj Hne. unfold denom. rewrite (prod_zero (map _ _)); [ring|]. apply list_elem_of_fmap. exists xi.
  split; [ring|]. unfold others. rewrite elem_of_app. destruct (Nat.lt_ge_cases j i).
  - left. apply list_elem_of_lookup. exists j. by rewrite lookup_take_lt by lia.
  - right. apply list_elem_of_lookup. exists (j - S i)%nat. rewrite lookup_drop. by replace (S i + (j - S i))%nat with j by lia.
Qed.

Lemma prod_quotient l x xi : (forall xj, xj ∈ l -> xi <> xj) ->
  prod (map (fun xj => (x - xj) / (xi - xj)) l) * prod (map (sub xi) l) = prod (map (sub x) l).
Proof.
  induction l as [|a l IH]; intros H; cbn [map prod foldr]; [ring|]. unfold prod in IH.
  rewrite <- IH by (intros xj Hj; by apply H, list_elem_of_further).
  field. apply sub_nonzero, H, list_elem_of_here.
Qed.

Lemma inv_cancel d q : d <> 0 -> inv d * (q * d) = q.
Proof.
  intros Hd. transitivity ((inv d * d) * q); [ring|]. rewrite (Finv_l Fth d Hd). ring.
Qed.

Lemma term_basis xs x i xi yi : NoDup xs -> xs !! i = Some xi -> xi <> x ->
  term xs x i (xi, yi) = yi * basis xs i xi x.
Proof.
  intros Hnd Hi Hne. pose proof (denom_nonzero xs x i xi Hnd Hi) as Hd. unfold term. cbn [fst snd].
  rewrite decide_False by done.
  assert (E : prod (map (sub x) xs) = basis xs i xi x * denom xs x i xi).
  { rewrite (prod_perm (map (sub x) xs) (map (sub x) (xi :: others i xs))) by (by rewrite <- others_lookup).
    cbn [map prod foldr]. pose proof (prod_quotient (others i xs) x xi) as Q. unfold prod in Q.
    rewrite <- Q by (intros xj Hj; by apply (others_ne i xs)).
    unfold basis, denom, prod. rewrite decide_False by done. ring. }
  rewrite E, inv_cancel by done. ring.
Qed.

Lemma term_sum xs ys x : NoDup xs -> length ys = length xs ->
  sum (imap (term xs x) (zip xs ys)) = lagrange xs ys x.
Proof.
  intros Hnd Hl. destruct (decide (x ∈ xs)) as [Hin|Hout].
  - assert (H0 : prod (map (sub x) xs) = 0).
    { apply prod_zero, list_elem_of_fmap. exists x. split; [ring|done]. }
    apply list_elem_of_lookup in Hin as (k & Hk).
    destruct (lookup_lt_is_Some_2 ys k) as (yk & Hy); [apply lookup_lt_Some in Hk; lia|].
    rewrite (lagrange_at xs ys k x yk) by done.
    rewrite (sum_single (term xs x) (zip xs ys) k (x, yk)).
    + unfold term. cbn [fst snd]. rewrite decide_True, H0 by done. ring.
    + by rewrite lookup_zip_Some.
    + intros i [xi yi] Hi Hne. apply lookup_zip_Some in Hi as [Hi _]. unfold term. cbn [fst snd].
      rewrite H0, decide_False; [ring|]. intros ->. apply Hne. by apply (NoDup_lookup xs i k x).
  - unfold lagrange. f_equal. apply imap_ext. intros i [xi yi] Hi. apply lookup_zip_Some in Hi as [Hi _].
    rewrite term_basis; [done|done|done|]. intros ->. apply Hout. by eapply list_elem_of_lookup_2.
Qed.

End Interp.
End Interp.
