(* ===== verification/GF256.v ===== *)
(** * The field with 256 elements

    Bytes as polynomials over GF(2) modulo x^8 + x^4 + x^3 + x + 1, by carry-less
    multiplication and reduction, and the proof that they form a field. *)

From Stdlib Require Import Field_theory Field ZArith Lia.
From stdpp Require Import base list numbers.
From S2P Require Import Prelude.
Local Open Scope fw_scope.

Module GF256.

(** ** Multiplication of bytes *)

(** The carry-less product: the sum of the shifts of [a] at the bits of [b]. *)
Fixpoint clmul (n : nat) (a b : Z) : Z :=
  match n with
  | O => 0
  | S n => clmul n a b .^ (if Z.testbit b (Z.of_nat n) then Z.shiftl a (Z.of_nat n) else 0)
  end.

(** Reduction of the bits [8 + n - 1], ..., 8. *)
Fixpoint reduce (n : nat) (p : Z) : Z :=
  match n with
  | O => p
  | S n =>
      reduce n (if Z.testbit p (8 + Z.of_nat n) then p .^ Z.shiftl 0x11B (Z.of_nat n) else p)
  end.

Definition gmul (a b : Z) : Z := reduce 7 (clmul 8 a b).

Definition all_bytes : list Z := seqZ 0 256.

Lemma all_bytes_spec x : is_byte x -> In x all_bytes.
Proof. intros H. apply list_elem_of_In, elem_of_seqZ. unfold is_byte in H. lia. Qed.

(** Facts that hold for every byte, or every pair, by evaluation. *)
Lemma byte_forall (P : Z -> bool) : forallb P all_bytes = true -> forall a, is_byte a -> P a = true.
Proof. intros H a Ha. by apply (proj1 (forallb_forall _ _) H), all_bytes_spec. Qed.

Definition byteb (x : Z) : bool := (0 <=? x) && (x <? 256).

Lemma byteb_spec x : byteb x = true <-> is_byte x.
Proof. unfold byteb, is_byte. rewrite andb_true_iff, Z.leb_le, Z.ltb_lt. done. Qed.

Lemma gmul_1 a : is_byte a -> gmul 1 a = a.
Proof.
  intros Ha. apply Z.eqb_eq. apply (byte_forall (fun a => gmul 1 a =? a)); [|done].
  vm_compute. reflexivity.
Qed.

Lemma lxor_byte a b : is_byte a -> is_byte b -> is_byte (a .^ b).
Proof.
  unfold is_byte. intros Ha Hb. assert (H0 : 0 <= a .^ b) by (apply Z.lxor_nonneg; lia). split; [done|].
  apply (Z.log2_lt_cancel _ 256). pose proof (Z.log2_lxor a b ltac:(lia) ltac:(lia)).
  assert (Hl : forall x, 0 <= x < 256 -> Z.log2 x < 8).
  { intros x Hx. destruct (Z.eq_dec x 0) as [->|]; [done|]. apply Z.log2_lt_pow2; lia. }
  pose proof (Hl a Ha). pose proof (Hl b Hb). change (Z.log2 256) with 8. lia.
Qed.

(** *** Distributivity *)

Lemma clmul_lxor n a b c : clmul n a (b .^ c) = clmul n a b .^ clmul n a c.
Proof.
  induction n as [|n IH]; [done|]. cbn [clmul]. rewrite IH, Z.lxor_spec. apply Z.bits_inj'. intros k _.
  rewrite !Z.lxor_spec. destruct (Z.testbit b (Z.of_nat n)), (Z.testbit c (Z.of_nat n)); cbn [xorb];
    rewrite ?Z.bits_0; repeat match goal with |- context [Z.testbit ?x k] => destruct (Z.testbit x k) end; done.
Qed.

Lemma reduce_lxor n p q : reduce n (p .^ q) = reduce n p .^ reduce n q.
Proof.
  revert p q. induction n as [|n IH]; intros p q; [done|]. cbn [reduce]. rewrite Z.lxor_spec, <- IH. f_equal.
  set (r := Z.shiftl _ _). apply Z.bits_inj'. intros k _.
  destruct (Z.testbit p _), (Z.testbit q _); cbn [xorb]; rewrite !Z.lxor_spec;
    repeat match goal with |- context [Z.testbit ?x k] => destruct (Z.testbit x k) end; done.
Qed.

Lemma gmul_lxor a b c : gmul a (b .^ c) = gmul a b .^ gmul a c.
Proof. unfold gmul. by rewrite clmul_lxor, reduce_lxor. Qed.

Lemma gmul_0_r a : gmul a 0 = 0.
Proof. change 0 with (0 .^ 0) at 1. by rewrite gmul_lxor, Z.lxor_nilpotent. Qed.

Lemma gmul_0 a : is_byte a -> gmul 0 a = 0.
Proof.
  intros Ha. apply Z.eqb_eq. apply (byte_forall (fun a => gmul 0 a =? 0)); [|done]. vm_compute. reflexivity.
Qed.

(** A property of all bytes that is compatible with sums follows from the powers of
    two. *)
Lemma byte_linear_ind (P : Z -> Prop) : P 0 -> (forall k, In k (seqZ 0 8) -> P (Z.shiftl 1 k)) ->
  (forall b c, P b -> P c -> P (b .^ c)) -> forall b, is_byte b -> P b.
Proof.
  intros H0 Hk Hx b Hb. set (term := fun k => if Z.testbit b k then Z.shiftl 1 k else 0).
  assert (E : b = foldr Z.lxor 0 (map term (seqZ 0 8))).
  { apply Z.eqb_eq. apply (byte_forall (fun b => b =? foldr Z.lxor 0
      (map (fun k => if Z.testbit b k then Z.shiftl 1 k else 0) (seqZ 0 8)))); [vm_compute; reflexivity|done]. }
  rewrite E. assert (Ht : forall k, In k (seqZ 0 8) -> P (term k)).
  { intros k Hin. unfold term. destruct (Z.testbit b k); auto. }
  clearbody term. clear E. induction (seqZ 0 8) as [|k l IH]; [done|]. cbn [map foldr].
  apply Hx; [apply Ht; by left|]. apply IH; intros j Hj; [apply Hk|apply Ht]; by right.
Qed.

(** *** The powers of the generator 3 *)

Lemma gmul3_byte a : is_byte a -> is_byte (gmul 3 a).
Proof.
  intros Ha. apply byteb_spec. apply (byte_forall (fun a => byteb (gmul 3 a))); [|done]. vm_compute. reflexivity.
Qed.

Lemma gmul3_assoc a b : is_byte a -> is_byte b -> gmul (gmul 3 a) b = gmul 3 (gmul a b).
Proof.
  intros Ha. revert b. apply byte_linear_ind.
  - by rewrite !gmul_0_r.
  - intros k Hk. apply Z.eqb_eq.
    pose proof (byte_forall (fun a => forallb (fun k => gmul (gmul 3 a) (Z.shiftl 1 k) =? gmul 3 (gmul a (Z.shiftl 1 k))) (seqZ 0 8))
      ltac:(vm_compute; reflexivity) a Ha) as H. apply (proj1 (forallb_forall _ _) H k Hk).
  - intros b c Hb Hc. by rewrite !gmul_lxor, Hb, Hc.
Qed.

Definition pow3 (n : nat) (b : Z) : Z := Nat.iter n (gmul 3) b.

Lemma pow3_byte n b : is_byte b -> is_byte (pow3 n b).
Proof. intros Hb. induction n as [|n IH]; [done|]. by apply gmul3_byte. Qed.

Lemma pow3_mul n b : is_byte b -> gmul (pow3 n 1) b = pow3 n b.
Proof.
  intros Hb. induction n as [|n IH]; [by apply gmul_1|].
  change (pow3 (S n) 1) with (gmul 3 (pow3 n 1)). change (pow3 (S n) b) with (gmul 3 (pow3 n b)).
  rewrite gmul3_assoc, IH; [reflexivity|by apply pow3_byte|done].
Qed.

Lemma pow3_add n m b : pow3 n (pow3 m b) = pow3 (n + m) b.
Proof. symmetry. apply Nat.iter_add. Qed.

(** The table of the powers. *)
Fixpoint powers (n : nat) (x : Z) : list Z :=
  match n with O => [] | S n => x :: powers n (gmul 3 x) end.

Lemma powers_in n x a : In a (powers n x) -> exists i, a = pow3 i x.
Proof.
  revert x. induction n as [|n IH]; intros x Hin; [done|]. destruct Hin as [<-|Hin]; [by exists O|].
  destruct (IH _ Hin) as (i & ->). exists (S i). unfold pow3. by rewrite Nat.iter_succ_r.
Qed.

Lemma pow3_surj a : is_byte a -> a <> 0 -> exists i, a = pow3 i 1.
Proof.
  intros Ha H0. apply (powers_in 255).
  set (tab := powers 255 1).
  assert (H : (a =? 0) || existsb (Z.eqb a) tab = true).
  { subst tab. revert a Ha H0. assert (H : let tab := powers 255 1 in forallb (fun a => (a =? 0) || existsb (Z.eqb a) tab) all_bytes = true)
      by (vm_compute; reflexivity). intros a Ha _. apply (byte_forall _ H a Ha). }
  apply orb_prop in H as [H|H]; [apply Z.eqb_eq in H; done|].
  apply existsb_exists in H as (i & Hi & E). apply Z.eqb_eq in E. by subst i.
Qed.

Lemma gmul_byte a b : is_byte a -> is_byte b -> is_byte (gmul a b).
Proof.
  intros Ha Hb. destruct (Z.eq_dec a 0) as [->|Na]; [by rewrite gmul_0|].
  destruct (pow3_surj a Ha Na) as (i & ->). rewrite pow3_mul by done. by apply pow3_byte.
Qed.

Lemma gmul_comm a b : is_byte a -> is_byte b -> gmul a b = gmul b a.
Proof.
  intros Ha Hb. destruct (Z.eq_dec a 0) as [->|Na]; [by rewrite gmul_0, gmul_0_r|].
  destruct (Z.eq_dec b 0) as [->|Nb]; [by rewrite gmul_0, gmul_0_r|].
  destruct (pow3_surj a Ha Na) as (i & ->), (pow3_surj b Hb Nb) as (j & ->).
  rewrite !pow3_mul, !pow3_add by done. f_equal. lia.
Qed.

Lemma gmul_assoc a b c : is_byte a -> is_byte b -> is_byte c -> gmul a (gmul b c) = gmul (gmul a b) c.
Proof.
  intros Ha Hb Hc. destruct (Z.eq_dec a 0) as [->|Na]; [by rewrite !gmul_0 by auto using gmul_byte|].
  destruct (Z.eq_dec b 0) as [->|Nb]; [by rewrite (gmul_0 c), gmul_0_r, (gmul_0 c)|].
  destruct (pow3_surj a Ha Na) as (i & ->), (pow3_surj b Hb Nb) as (j & ->).
  rewrite (pow3_mul j c), (pow3_mul i (pow3 j c)), (pow3_mul i (pow3 j 1)), !pow3_add, pow3_mul; auto using pow3_byte.
Qed.

(** The inverse is the power 254. *)
Definition ginv (a : Z) : Z :=
  let a2 := gmul a a in let a4 := gmul a2 a2 in let a8 := gmul a4 a4 in let a16 := gmul a8 a8 in
  let a32 := gmul a16 a16 in let a64 := gmul a32 a32 in let a128 := gmul a64 a64 in
  gmul a128 (gmul a64 (gmul a32 (gmul a16 (gmul a8 (gmul a4 a2))))).

Lemma ginv_byte a : is_byte a -> is_byte (ginv a).
Proof. intros Ha. unfold ginv. auto 15 using gmul_byte. Qed.

Lemma ginv_l a : is_byte a -> a <> 0 -> gmul (ginv a) a = 1.
Proof.
  intros Ha H0. assert (H : (a =? 0) || (gmul (ginv a) a =? 1) = true).
  { apply (byte_forall (fun a => (a =? 0) || (gmul (ginv a) a =? 1))); [|done]. vm_compute. reflexivity. }
  apply orb_prop in H as [H|H]; apply Z.eqb_eq in H; done.
Qed.

(** ** The field as a type *)

Record gf := GF { gv : Z; gv_ok : byteb gv = true }.

Lemma gf_eq a b : gv a = gv b -> a = b.
Proof. destruct a as [a Ha], b as [b Hb]. cbn. intros <-. f_equal. apply (proof_irrel Ha Hb). Qed.

Lemma gv_byte a : is_byte (gv a).
Proof. apply byteb_spec, gv_ok. Qed.

#[global] Instance gf_eq_dec : EqDecision gf.
Proof. intros a b. destruct (Z.eq_dec (gv a) (gv b)); [left; by apply gf_eq|right; by intros ->]. Defined.

Definition mk (x : Z) (H : is_byte x) : gf := GF x (proj2 (byteb_spec x) H).

(** The element of a byte; other integers are taken modulo 256. *)
Definition of_Z (x : Z) : gf := mk (x mod 256) (Z.mod_pos_bound x 256 eq_refl).

Lemma gv_of_Z x : is_byte x -> gv (of_Z x) = x.
Proof. intros H. cbn. by apply Z.mod_small. Qed.

Lemma of_Z_gv a : of_Z (gv a) = a.
Proof. apply gf_eq, gv_of_Z, gv_byte. Qed.

Definition f0 : gf := of_Z 0.
Definition f1 : gf := of_Z 1.
Definition fadd (a b : gf) : gf := mk (gv a .^ gv b) (lxor_byte _ _ (gv_byte a) (gv_byte b)).
Definition fmul (a b : gf) : gf := mk (gmul (gv a) (gv b)) (gmul_byte _ _ (gv_byte a) (gv_byte b)).
Definition finv (a : gf) : gf := mk (ginv (gv a)) (ginv_byte _ (gv_byte a)).
Definition fdiv (a b : gf) : gf := fmul a (finv b).

(** In characteristic two every element is its own opposite. *)
Lemma gf_field : field_theory f0 f1 fadd fmul fadd (fun a => a) fdiv finv eq.
Proof.
  split; [split| | |].
  - intros a. apply gf_eq. exact (Z.lxor_0_l (gv a)).
  - intros a b. apply gf_eq, Z.lxor_comm.
  - intros a b c. apply gf_eq. symmetry. apply Z.lxor_assoc.
  - intros a. apply gf_eq. apply (gmul_1 (gv a)), gv_byte.
  - intros a b. apply gf_eq, gmul_comm; apply gv_byte.
  - intros a b c. apply gf_eq, gmul_assoc; apply gv_byte.
  - intros a b c. apply gf_eq. change (gmul (gv a .^ gv b) (gv c) = gmul (gv a) (gv c) .^ gmul (gv b) (gv c)).
    rewrite gmul_comm, gmul_lxor by auto using gv_byte, lxor_byte.
    by rewrite (gmul_comm (gv c) (gv a)), (gmul_comm (gv c) (gv b)) by apply gv_byte.
  - done.
  - intros a. apply gf_eq. exact (Z.lxor_nilpotent (gv a)).
  - intros H. apply (f_equal gv) in H. discriminate H.
  - done.
  - intros a Ha. apply gf_eq. apply (ginv_l (gv a)); [apply gv_byte|].
    intros H. apply Ha. by apply gf_eq.
Qed.

End GF256.
