(* ===== verification/Shamir.v ===== *)
(** * Shamir secret sharing: [crypto/shamir.c]

    Up to 32 bytes are shared at once: an array of eight 32-bit words holds one bit
    of each byte per word (bit [k] of word [i] is bit [i] of byte [k]), so that the
    field operations of GF(2^8) work on all bytes in parallel. *)

From stdpp Require Import base list numbers.
From Stdlib Require Import ZArith Lia.
From S2P Require Import Prelude.
Local Open Scope fw_scope.

Module Shamir.

Definition SHAMIR_MAX_LEN : Z := 32.

(** [uint32_t r[8]]. *)
Record sliced := Sliced { w0 : Z; w1 : Z; w2 : Z; w3 : Z; w4 : Z; w5 : Z; w6 : Z; w7 : Z }.

Definition zeros : sliced := Sliced 0 0 0 0 0 0 0 0.

(** The words as a list, and word by word. *)
Definition words (s : sliced) : list Z := [w0 s; w1 s; w2 s; w3 s; w4 s; w5 s; w6 s; w7 s].
Definition tabulate (f : Z -> Z) : sliced := Sliced (f 0) (f 1) (f 2) (f 3) (f 4) (f 5) (f 6) (f 7).

(** The outer loop of [bitslice], at byte [arr_idx]; the inner one sets a bit in
    each word. *)
Fixpoint bitslice_loop (x : list Z) (arr_idx : Z) (r : sliced) : sliced :=
  match x with
  | [] => r
  | cur :: x =>
      bitslice_loop x (arr_idx + 1)
        (tabulate (fun bit_idx =>
           znth 0 (words r) bit_idx .| u32 (Z.shiftl (Z.shiftr cur bit_idx .& 1) arr_idx)))
  end.

Definition bitslice (x : list Z) (len : Z) : sliced :=
  bitslice_loop (take (Z.to_nat len) x) 0 zeros.

(** The inner loop of [unbitslice] over the bytes. *)
Fixpoint unbitslice_bytes (r : list Z) (cur bit_idx arr_idx : Z) : list Z :=
  match r with
  | [] => []
  | b :: r =>
      u8 (b .| Z.shiftl (Z.shiftr cur arr_idx .& 1) bit_idx)
        :: unbitslice_bytes r cur bit_idx (arr_idx + 1)
  end.

Fixpoint unbitslice_loop (r : list Z) (x : list Z) (bit_idx : Z) : list Z :=
  match x with
  | [] => r
  | cur :: x => unbitslice_loop (unbitslice_bytes r cur bit_idx 0) x (bit_idx + 1)
  end.

Definition unbitslice (x : sliced) (len : Z) : list Z := unbitslice_loop (zrep len 0) (words x) 0.

(** [-((x >> idx) & 1)] in each word. *)
Definition bitslice_setall (x : Z) : sliced :=
  tabulate (fun idx => u32 (- (Z.shiftr x idx .& 1))).

Definition gf256_add (r x : sliced) : sliced :=
  tabulate (fun idx => znth 0 (words r) idx .^ znth 0 (words x) idx).

(** The reads of [a] precede the writes of [r], so the two may be the same array. *)
Definition gf256_mul (a b : sliced) : sliced :=
  let '(Sliced a0 a1 a2 a3 a4 a5 a6 a7) := a in
  let '(Sliced b0 b1 b2 b3 b4 b5 b6 b7) := b in
  let r0 := a0 .& b0 in let r1 := a1 .& b0 in let r2 := a2 .& b0 in let r3 := a3 .& b0 in
  let r4 := a4 .& b0 in let r5 := a5 .& b0 in let r6 := a6 .& b0 in let r7 := a7 .& b0 in
  let a0 := a0 .^ a7 in let a2 := a2 .^ a7 in let a3 := a3 .^ a7 in let r0 := r0 .^ (a7 .& b1) in
  let r1 := r1 .^ (a0 .& b1) in let r2 := r2 .^ (a1 .& b1) in let r3 := r3 .^ (a2 .& b1) in
  let r4 := r4 .^ (a3 .& b1) in let r5 := r5 .^ (a4 .& b1) in let r6 := r6 .^ (a5 .& b1) in
  let r7 := r7 .^ (a6 .& b1) in let a7 := a7 .^ a6 in let a1 := a1 .^ a6 in let a2 := a2 .^ a6 in
  let r0 := r0 .^ (a6 .& b2) in let r1 := r1 .^ (a7 .& b2) in let r2 := r2 .^ (a0 .& b2) in
  let r3 := r3 .^ (a1 .& b2) in let r4 := r4 .^ (a2 .& b2) in let r5 := r5 .^ (a3 .& b2) in
  let r6 := r6 .^ (a4 .& b2) in let r7 := r7 .^ (a5 .& b2) in let a6 := a6 .^ a5 in
  let a0 := a0 .^ a5 in let a1 := a1 .^ a5 in let r0 := r0 .^ (a5 .& b3) in
  let r1 := r1 .^ (a6 .& b3) in let r2 := r2 .^ (a7 .& b3) in let r3 := r3 .^ (a0 .& b3) in
  let r4 := r4 .^ (a1 .& b3) in let r5 := r5 .^ (a2 .& b3) in let r6 := r6 .^ (a3 .& b3) in
  let r7 := r7 .^ (a4 .& b3) in let a5 := a5 .^ a4 in let a7 := a7 .^ a4 in let a0 := a0 .^ a4 in
  let r0 := r0 .^ (a4 .& b4) in let r1 := r1 .^ (a5 .& b4) in let r2 := r2 .^ (a6 .& b4) in
  let r3 := r3 .^ (a7 .& b4) in let r4 := r4 .^ (a0 .& b4) in let r5 := r5 .^ (a1 .& b4) in
  let r6 := r6 .^ (a2 .& b4) in let r7 := r7 .^ (a3 .& b4) in let a4 := a4 .^ a3 in
  let a6 := a6 .^ a3 in let a7 := a7 .^ a3 in let r0 := r0 .^ (a3 .& b5) in
  let r1 := r1 .^ (a4 .& b5) in let r2 := r2 .^ (a5 .& b5) in let r3 := r3 .^ (a6 .& b5) in
  let r4 := r4 .^ (a7 .& b5) in let r5 := r5 .^ (a0 .& b5) in let r6 := r6 .^ (a1 .& b5) in
  let r7 := r7 .^ (a2 .& b5) in let a3 := a3 .^ a2 in let a5 := a5 .^ a2 in let a6 := a6 .^ a2 in
  let r0 := r0 .^ (a2 .& b6) in let r1 := r1 .^ (a3 .& b6) in let r2 := r2 .^ (a4 .& b6) in
  let r3 := r3 .^ (a5 .& b6) in let r4 := r4 .^ (a6 .& b6) in let r5 := r5 .^ (a7 .& b6) in
  let r6 := r6 .^ (a0 .& b6) in let r7 := r7 .^ (a1 .& b6) in let a2 := a2 .^ a1 in
  let a4 := a4 .^ a1 in let a5 := a5 .^ a1 in let r0 := r0 .^ (a1 .& b7) in
  let r1 := r1 .^ (a2 .& b7) in let r2 := r2 .^ (a3 .& b7) in let r3 := r3 .^ (a4 .& b7) in
  let r4 := r4 .^ (a5 .& b7) in let r5 := r5 .^ (a6 .& b7) in let r6 := r6 .^ (a7 .& b7) in
  let r7 := r7 .^ (a0 .& b7) in
  Sliced r0 r1 r2 r3 r4 r5 r6 r7.

Definition gf256_square (x : sliced) : sliced :=
  let '(Sliced x0 x1 x2 x3 x4 x5 x6 x7) := x in
  let r14 := x7 in let r12 := x6 in let r10 := x5 in let r8 := x4 in
  let r6 := x3 in let r4 := x2 in let r2 := x1 in let r0 := x0 in
  let r7 := r14 in let r6 := r6 .^ r14 in let r10 := r10 .^ r14 in
  let r4 := r4 .^ r12 in let r5 := r12 in let r7 := r7 .^ r12 in let r8 := r8 .^ r12 in
  let r2 := r2 .^ r10 in let r3 := r10 in let r5 := r5 .^ r10 in let r6 := r6 .^ r10 in
  let r1 := r14 in let r2 := r2 .^ r14 in let r4 := r4 .^ r14 in let r5 := r5 .^ r14 in
  let r0 := r0 .^ r8 in let r1 := r1 .^ r8 in let r3 := r3 .^ r8 in let r4 := r4 .^ r8 in
  Sliced r0 r1 r2 r3 r4 r5 r6 r7.

Definition gf256_inv (x : sliced) : sliced :=
  let y := gf256_square x in
  let y := gf256_square y in
  let r := gf256_square y in
  let z := gf256_mul r x in
  let r := gf256_square r in
  let r := gf256_mul r z in
  let r := gf256_square r in
  let z := gf256_square r in
  let z := gf256_square z in
  let r := gf256_mul r z in
  gf256_mul r y.

(** [num]: the product of [x - x_i] over the shares. *)
Fixpoint numerator (x : sliced) (xs : list sliced) (num : sliced) : sliced :=
  match xs with
  | [] => num
  | xi :: xs => numerator x xs (gf256_mul num (gf256_add x xi))
  end.

(** The inner loop over the other shares, at index [j]. *)
Fixpoint denominator (i j : Z) (xi : sliced) (xs : list sliced) (denom : sliced) : sliced :=
  match xs with
  | [] => denom
  | xj :: xs =>
      denominator i (j + 1) xi xs
        (if i =? j then denom else gf256_mul denom (gf256_add xi xj))
  end.

Definition is_zero (s : sliced) : bool :=
  w0 s .| w1 s .| w2 s .| w3 s .| w4 s .| w5 s .| w6 s .| w7 s =? 0.

(** The sum over the shares from index [i] on; [None] when the indices are not
    unique. *)
Fixpoint basis_loop (i : Z) (x num : sliced) (result_index : Z) (xs : list sliced)
    (shares : list (Z * (sliced * sliced))) (secret : sliced) : option sliced :=
  match shares with
  | [] => Some secret
  | (index, (xi, yi)) :: shares =>
      let '(denom, secret) :=
        if negb (index =? result_index) then (gf256_add x xi, secret)
        else (bitslice_setall 1, gf256_add secret yi) in
      let denom := denominator i 0 xi xs denom in
      if is_zero denom then None
      else
        let tmp := gf256_inv denom in
        let tmp := gf256_mul tmp num in
        let tmp := gf256_mul tmp yi in
        basis_loop (i + 1) x num result_index xs shares (gf256_add secret tmp)
  end.

(** The result, or [None] when false is returned. *)
Definition shamir_interpolate (result_index : Z) (share_indices : list Z)
    (share_values : list (list Z)) (len : Z) : option (list Z) :=
  if SHAMIR_MAX_LEN <? len then None
  else
    let xs := map bitslice_setall share_indices in
    let ys := map (fun v => bitslice v len) share_values in
    let x := bitslice_setall result_index in
    let num := numerator x xs (Sliced 0xFFFFFFFF 0 0 0 0 0 0 0) in
    match basis_loop 0 x num result_index xs (zip share_indices (zip xs ys)) zeros with
    | None => None
    | Some secret => Some (unbitslice secret len)
    end.

End Shamir.
