(* ===== verification/ShamirSpec.v ===== *)
(** * Shamir interpolation: correctness

    Each byte position of the shares is a lane of the sliced words.  On every lane
    the operations are those of the field GF(256), so [shamir_interpolate] computes
    the Lagrange interpolation of each byte. *)

From Stdlib Require Import Field_theory Field ZArith Lia.
From stdpp Require Import base list numbers.
From S2P Require Import Prelude Interp GF256 Shamir.
Local Open Scope fw_scope.

Module ShamirSpec.
Import Interp GF256 Shamir.
#[local] Opaque gmul.

(** ** Words and lanes *)

Definition smap (h : Z -> Z) (s : sliced) : sliced :=
  Sliced (h (w0 s)) (h (w1 s)) (h (w2 s)) (h (w3 s)) (h (w4 s)) (h (w5 s)) (h (w6 s)) (h (w7 s)).

(** Bit [k] of each word. *)
Definition bit (k w : Z) : Z := Z.shiftr w k .& 1.

(** Words 0 or 1 with the bits of a byte, and back. *)
Definition bits (x : Z) : sliced := tabulate (fun i => bit i x).
Definition of_bits (s : sliced) : Z := foldr (fun w acc => w + 2 * acc) 0 (words s).

Definition lane (k : Z) (s : sliced) : Z := of_bits (smap (bit k) s).

Lemma bit_b2z k w : 0 <= k -> bit k w = Z.b2z (Z.testbit w k).
Proof.
  intros Hk. unfold bit. change 1 with (Z.ones 1) at 1. rewrite Z.land_ones by lia.
  change (2 ^ 1) with 2. rewrite <- Z.bit0_mod, Z.shiftr_spec by lia. done.
Qed.

Lemma bit_lxor k x y : bit k (x .^ y) = bit k x .^ bit k y.
Proof.
  unfold bit. rewrite Z.shiftr_lxor. apply Z.bits_inj'. intros i _. rewrite !Z.land_spec, !Z.lxor_spec, !Z.land_spec.
  by destruct (Z.testbit (Z.shiftr x k) i), (Z.testbit (Z.shiftr y k) i), (Z.testbit 1 i).
Qed.

Lemma bit_land k x y : bit k (x .& y) = bit k x .& bit k y.
Proof.
  unfold bit. rewrite Z.shiftr_land. apply Z.bits_inj'. intros i _. rewrite !Z.land_spec.
  by destruct (Z.testbit (Z.shiftr x k) i), (Z.testbit (Z.shiftr y k) i), (Z.testbit 1 i).
Qed.

(** A word that is 0 or 1. *)
Definition bool_word (w : Z) : Prop := w = 0 \/ w = 1.

Lemma bit_bool k w : 0 <= k -> bool_word (bit k w).
Proof. intros Hk. rewrite bit_b2z by done. unfold bool_word. destruct (Z.testbit w k); cbn; lia. Qed.

Lemma of_bits_bits s : bool_word (w0 s) -> bool_word (w1 s) -> bool_word (w2 s) -> bool_word (w3 s) ->
  bool_word (w4 s) -> bool_word (w5 s) -> bool_word (w6 s) -> bool_word (w7 s) ->
  bits (of_bits s) = s /\ is_byte (of_bits s).
Proof.
  destruct s as [a b c d e f g h]; cbn [w0 w1 w2 w3 w4 w5 w6 w7].
  intros [->| ->] [->| ->] [->| ->] [->| ->] [->| ->] [->| ->] [->| ->] [->| ->]; (split; [reflexivity|]);
    apply byteb_spec; reflexivity.
Qed.

Lemma bits_lane k s : 0 <= k -> bits (lane k s) = smap (bit k) s /\ is_byte (lane k s).
Proof. intros Hk. apply of_bits_bits; by apply bit_bool. Qed.

Lemma of_bits_inv x : is_byte x -> of_bits (bits x) = x.
Proof.
  intros Hx. apply Z.eqb_eq. apply (byte_forall (fun x => of_bits (bits x) =? x)); [vm_compute; reflexivity|done].
Qed.

Lemma lane_byte k s : 0 <= k -> is_byte (lane k s).
Proof. intros Hk. by apply bits_lane. Qed.

Lemma add_eq a b : gf256_add a b = Sliced (w0 a .^ w0 b) (w1 a .^ w1 b) (w2 a .^ w2 b) (w3 a .^ w3 b)
  (w4 a .^ w4 b) (w5 a .^ w5 b) (w6 a .^ w6 b) (w7 a .^ w7 b).
Proof. reflexivity. Qed.

(** ** Multiplication by rows *)

(** Multiplication by x, and the selection of the rows. *)
Definition xtime (a : sliced) : sliced :=
  let '(Sliced a0 a1 a2 a3 a4 a5 a6 a7) := a in
  Sliced a7 (a0 .^ a7) a1 (a2 .^ a7) (a3 .^ a7) a4 a5 a6.

Definition sel (w : Z) (s : sliced) : sliced := smap (fun x => x .& w) s.

Fixpoint rows (a : sliced) (bs : list Z) (acc : sliced) : sliced :=
  match bs with
  | [] => acc
  | b :: bs => rows (xtime a) bs (gf256_add acc (sel b (xtime a)))
  end.

Lemma mul_rows a b : gf256_mul a b = rows a [w1 b; w2 b; w3 b; w4 b; w5 b; w6 b; w7 b] (sel (w0 b) a).
Proof. destruct a, b. reflexivity. Qed.

Lemma add_swap a b c d : gf256_add (gf256_add a b) (gf256_add c d) = gf256_add (gf256_add a c) (gf256_add b d).
Proof.
  rewrite !add_eq. cbn [w0 w1 w2 w3 w4 w5 w6 w7]. f_equal;
    (rewrite !Z.lxor_assoc; f_equal; rewrite <- !Z.lxor_assoc; f_equal; apply Z.lxor_comm).
Qed.

Lemma sel_lxor w v s : sel (w .^ v) s = gf256_add (sel w s) (sel v s).
Proof.
  assert (E : forall x, x .& (w .^ v) = (x .& w) .^ (x .& v)).
  { intros x. apply Z.bits_inj'. intros i _. rewrite Z.lxor_spec, !Z.land_spec, Z.lxor_spec.
    by destruct (Z.testbit x i), (Z.testbit w i), (Z.testbit v i). }
  destruct s. unfold sel, smap. cbn [w0 w1 w2 w3 w4 w5 w6 w7]. rewrite add_eq, !E. reflexivity.
Qed.

Lemma sel_0 s : sel 0 s = zeros.
Proof. unfold sel, smap. by rewrite !Z.land_0_r. Qed.

Lemma rows_0 n : forall a acc, rows a (replicate n 0) acc = acc.
Proof.
  induction n as [|n IH]; intros a acc; [done|]. cbn [replicate rows]. rewrite IH, sel_0, add_eq.
  unfold zeros. cbn [w0 w1 w2 w3 w4 w5 w6 w7]. rewrite !Z.lxor_0_r. by destruct acc.
Qed.

Lemma rows_add bs : forall a cs acc acc', length cs = length bs ->
  rows a (zip_with Z.lxor bs cs) (gf256_add acc acc') = gf256_add (rows a bs acc) (rows a cs acc').
Proof.
  induction bs as [|b bs IH]; intros a [|c cs] acc acc' Hl; try discriminate; [done|]. cbn [zip_with rows].
  rewrite sel_lxor, add_swap. apply IH. by injection Hl.
Qed.

Lemma mul_add_r a b c : gf256_mul a (gf256_add b c) = gf256_add (gf256_mul a b) (gf256_mul a c).
Proof.
  rewrite !mul_rows, <- (rows_add _ a [w1 c; w2 c; w3 c; w4 c; w5 c; w6 c; w7 c]) by done.
  rewrite <- sel_lxor. by destruct b, c.
Qed.

(** ** The lanes of the operations *)

Section Hom.
Context (h : Z -> Z) (Hx : forall x y, h (x .^ y) = h x .^ h y) (Ha : forall x y, h (x .& y) = h x .& h y).

Lemma smap_add a b : smap h (gf256_add a b) = gf256_add (smap h a) (smap h b).
Proof. rewrite !add_eq. unfold smap. cbn [w0 w1 w2 w3 w4 w5 w6 w7]. f_equal; apply Hx. Qed.

Lemma smap_xtime a : smap h (xtime a) = xtime (smap h a).
Proof. destruct a. unfold xtime, smap. cbn [w0 w1 w2 w3 w4 w5 w6 w7]. by rewrite !Hx. Qed.

Lemma smap_sel w a : smap h (sel w a) = sel (h w) (smap h a).
Proof. destruct a. unfold sel, smap. cbn [w0 w1 w2 w3 w4 w5 w6 w7]. by rewrite !Ha. Qed.

Lemma smap_rows bs : forall a acc, smap h (rows a bs acc) = rows (smap h a) (map h bs) (smap h acc).
Proof.
  induction bs as [|b bs IH]; intros a acc; [done|]. cbn [rows map].
  by rewrite IH, smap_add, smap_sel, smap_xtime.
Qed.

Lemma smap_mul a b : smap h (gf256_mul a b) = gf256_mul (smap h a) (smap h b).
Proof. rewrite !mul_rows, smap_rows, smap_sel. by destruct b. Qed.

Lemma smap_square a : smap h (gf256_square a) = gf256_square (smap h a).
Proof. destruct a. unfold gf256_square, smap. cbn [w0 w1 w2 w3 w4 w5 w6 w7]. by rewrite !Hx. Qed.

End Hom.

Lemma bits_add a b : bits (a .^ b) = gf256_add (bits a) (bits b).
Proof.
  rewrite add_eq. unfold bits, tabulate. cbn [w0 w1 w2 w3 w4 w5 w6 w7]. f_equal; apply bit_lxor.
Qed.

(** The multiplication of single bytes. *)
Lemma mul_bits a b : is_byte a -> is_byte b -> gf256_mul (bits a) (bits b) = bits (gmul a b).
Proof.
  intros Ha. revert b. apply byte_linear_ind.
  - rewrite gmul_0_r, mul_rows. change (bits 0) with zeros. cbn [w0 w1 w2 w3 w4 w5 w6 w7 zeros].
    rewrite sel_0. apply (rows_0 7).
  - intros k Hk.
    set (chk := fun a k => bool_decide (words (gf256_mul (bits a) (bits (Z.shiftl 1 k))) = words (bits (gmul a (Z.shiftl 1 k))))).
    assert (H : forallb (chk a) (seqZ 0 8) = true).
    { apply (byte_forall (fun a => forallb (chk a) (seqZ 0 8))); [vm_compute; reflexivity|done]. }
    pose proof (proj1 (forallb_forall _ _) H k Hk) as E. apply bool_decide_eq_true_1 in E.
    destruct (gf256_mul (bits a) (bits (Z.shiftl 1 k))), (bits (gmul a (Z.shiftl 1 k))). unfold words in E.
    cbn [w0 w1 w2 w3 w4 w5 w6 w7] in E. congruence.
  - intros b c Hb Hc. rewrite bits_add, mul_add_r, Hb, Hc, gmul_lxor. symmetry. apply bits_add.
Qed.

Lemma lane_mul k a b : 0 <= k -> lane k (gf256_mul a b) = gmul (lane k a) (lane k b).
Proof.
  intros Hk. destruct (bits_lane k a Hk) as [Ea Ba], (bits_lane k b Hk) as [Eb Bb]. unfold lane at 1.
  rewrite (smap_mul _ (bit_lxor k) (bit_land k)), <- Ea, <- Eb, mul_bits by done. apply of_bits_inv. by apply gmul_byte.
Qed.

Lemma lane_add k a b : 0 <= k -> lane k (gf256_add a b) = lane k a .^ lane k b.
Proof.
  intros Hk. destruct (bits_lane k a Hk) as [Ea Ba], (bits_lane k b Hk) as [Eb Bb]. unfold lane at 1.
  rewrite (smap_add _ (bit_lxor k)), <- Ea, <- Eb, <- bits_add. apply of_bits_inv. by apply lxor_byte.
Qed.

(** Squaring, by the squares of the single bytes. *)
Lemma square_bits a : is_byte a -> gf256_square (bits a) = bits (gmul a a).
Proof.
  intros Ha. set (chk := fun a => bool_decide (words (gf256_square (bits a)) = words (bits (gmul a a)))).
  assert (E : chk a = true) by (apply (byte_forall chk); [vm_compute; reflexivity|done]).
  apply bool_decide_eq_true_1 in E. destruct (gf256_square (bits a)), (bits (gmul a a)). unfold words in E.
  cbn [w0 w1 w2 w3 w4 w5 w6 w7] in E. congruence.
Qed.

Lemma lane_square k a : 0 <= k -> lane k (gf256_square a) = gmul (lane k a) (lane k a).
Proof.
  intros Hk. destruct (bits_lane k a Hk) as [Ea Ba]. unfold lane at 1.
  rewrite (smap_square _ (bit_lxor k)), <- Ea, square_bits by done. apply of_bits_inv. by apply gmul_byte.
Qed.

(** ** Lanes as field elements *)

Definition glane (k : Z) (s : sliced) : gf := of_Z (lane k s).

Lemma gv_glane k s : 0 <= k -> gv (glane k s) = lane k s.
Proof. intros Hk. apply gv_of_Z. by apply lane_byte. Qed.

Lemma glane_add k a b : 0 <= k -> glane k (gf256_add a b) = fadd (glane k a) (glane k b).
Proof.
  intros Hk. apply gf_eq. rewrite gv_glane, lane_add by done.
  change (lane k a .^ lane k b = gv (glane k a) .^ gv (glane k b)). by rewrite !gv_glane.
Qed.

Lemma glane_mul k a b : 0 <= k -> glane k (gf256_mul a b) = fmul (glane k a) (glane k b).
Proof.
  intros Hk. apply gf_eq. rewrite gv_glane, lane_mul by done.
  change (gmul (lane k a) (lane k b) = gmul (gv (glane k a)) (gv (glane k b))). by rewrite !gv_glane.
Qed.

(** The addition chain of [gf256_inv] on a byte. *)
Definition inv_chain (x : Z) : Z :=
  let y := gmul x x in let y := gmul y y in let r := gmul y y in let z := gmul r x in
  let r := gmul r r in let r := gmul r z in let r := gmul r r in let z := gmul r r in
  let z := gmul z z in let r := gmul r z in gmul r y.

Lemma inv_chain_ok x : is_byte x -> inv_chain x = ginv x.
Proof.
  intros Hx. apply Z.eqb_eq. apply (byte_forall (fun x => inv_chain x =? ginv x)); [vm_compute; reflexivity|done].
Qed.

Lemma glane_inv k a : 0 <= k -> glane k (gf256_inv a) = finv (glane k a).
Proof.
  intros Hk. apply gf_eq. rewrite gv_glane by done. change (gv (finv (glane k a))) with (ginv (gv (glane k a))).
  rewrite gv_glane, <- inv_chain_ok by (try apply lane_byte; done). unfold gf256_inv, inv_chain. cbn zeta.
  rewrite !lane_mul, !lane_square, !lane_mul, !lane_square by done. reflexivity.
Qed.

(** *** Slicing *)

Lemma lane_testbit k s s' : 0 <= k ->
  (forall f, In f [w0; w1; w2; w3; w4; w5; w6; w7] -> Z.testbit (f s) k = Z.testbit (f s') k) -> lane k s = lane k s'.
Proof.
  intros Hk H. unfold lane, smap. rewrite !bit_b2z by done.
  rewrite (H w0), (H w1), (H w2), (H w3), (H w4), (H w5), (H w6), (H w7) by (cbn; tauto). reflexivity.
Qed.

(** A lane from the bits of the words. *)
Lemma lane_of_bits k s x : 0 <= k -> is_byte x ->
  (forall i, 0 <= i < 8 -> Z.testbit (znth 0 (words s) i) k = Z.testbit x i) -> lane k s = x.
Proof.
  intros Hk Hx H. rewrite <- (of_bits_inv x Hx). unfold lane, smap, bits, tabulate. rewrite !bit_b2z by lia.
  rewrite <- !H by lia. reflexivity.
Qed.

Lemma znth_tabulate f i : 0 <= i < 8 -> znth 0 (words (tabulate f)) i = f i.
Proof.
  intros Hi. assert (i = 0 \/ i = 1 \/ i = 2 \/ i = 3 \/ i = 4 \/ i = 5 \/ i = 6 \/ i = 7) as H by lia.
  repeat destruct H as [->|H]; try subst i; reflexivity.
Qed.

Lemma lane_setall k x : 0 <= k < 32 -> is_byte x -> lane k (bitslice_setall x) = x.
Proof.
  intros Hk Hx. apply lane_of_bits; [lia|done|]. intros i Hi. unfold bitslice_setall. rewrite znth_tabulate by done.
  fold (bit i x). rewrite bit_b2z by lia. destruct (Z.testbit x i); [|apply Z.bits_0].
  change (u32 (- Z.b2z true)) with (Z.ones 32). apply Z.ones_spec_low. lia.
Qed.

(** Bit [k] of the sliced words after the bytes [x] were put at [idx] and on. *)
Lemma bitslice_loop_bits x : forall idx r i k, Forall is_byte x -> 0 <= i < 8 -> 0 <= k -> 0 <= idx ->
  idx + zlen x <= 32 ->
  Z.testbit (znth 0 (words (bitslice_loop x idx r)) i) k
  = Z.testbit (znth 0 (words r) i) k
    || (if (idx <=? k) && (k <? idx + zlen x) then Z.testbit (znth 0 x (k - idx)) i else false).
Proof.
  induction x as [|c x IH]; intros idx r i k Hb Hi Hk Hidx Hlen; cbn [bitslice_loop].
  - change (zlen (@nil Z)) with 0. rewrite Z.add_0_r.
    destruct (Z.leb_spec idx k), (Z.ltb_spec k idx); cbn [andb]; try lia; by rewrite orb_false_r.
  - apply Forall_cons_iff in Hb as [Hc Hb]. rewrite zlen_cons in *. pose proof (zlen_nonneg x).
    rewrite IH by (done || lia). rewrite znth_tabulate by done. rewrite Z.lor_spec, <- orb_assoc. f_equal.
    fold (bit i c). rewrite bit_b2z by lia.
    assert (Hw : u32 (Z.shiftl (Z.b2z (Z.testbit c i)) idx) = Z.shiftl (Z.b2z (Z.testbit c i)) idx).
    { apply u32_small. rewrite Z.shiftl_mul_pow2 by lia.
      assert (0 < 2 ^ idx <= 2 ^ 31) by (split; [apply Z.pow_pos_nonneg; lia|apply Z.pow_le_mono_r; lia]).
      change (2 ^ 31) with 2147483648 in *. destruct (Z.testbit c i); cbn [Z.b2z]; lia. }
    rewrite Hw, Z.shiftl_spec by lia.
    destruct (Z.leb_spec (idx + 1) k), (Z.ltb_spec k (idx + 1 + zlen x)); cbn [andb].
    + rewrite Z.bits_above_log2 by (destruct (Z.testbit c i); cbn; lia). cbn [orb].
      destruct (Z.leb_spec idx k), (Z.ltb_spec k (idx + (1 + zlen x))); cbn [andb]; try lia.
      change (c :: x) with ([c] ++ x). replace (k - idx) with (zlen [c] + (k - (idx + 1))) by (change (zlen [c]) with 1; lia).
      by rewrite znth_app_r by lia.
    + rewrite Z.bits_above_log2 by (destruct (Z.testbit c i); cbn; lia). cbn [orb].
      destruct (Z.leb_spec idx k), (Z.ltb_spec k (idx + (1 + zlen x))); cbn [andb]; try lia; done.
    + rewrite orb_false_r. destruct (Z.leb_spec idx k), (Z.ltb_spec k (idx + (1 + zlen x))); cbn [andb]; try lia.
      * replace (k - idx) with 0 by lia. change (znth 0 (c :: x) 0) with c. by destruct (Z.testbit c i).
      * rewrite Z.testbit_neg_r by lia. done.
    + rewrite orb_false_r. destruct (Z.leb_spec idx k), (Z.ltb_spec k (idx + (1 + zlen x))); cbn [andb]; try lia.
Qed.

Lemma lane_bitslice k x len : 0 <= k < len -> len <= 32 -> zlen x = len -> Forall is_byte x ->
  lane k (bitslice x len) = znth 0 x k.
Proof.
  intros Hk Hl Hx Hb. unfold bitslice. rewrite take_ge by (unfold zlen in Hx; lia).
  apply lane_of_bits; [lia| |].
  - unfold znth. destruct (Z.ltb_spec k 0); [lia|]. apply (proj1 (List.Forall_nth _ x) Hb). unfold zlen in Hx. lia.
  - intros i Hi. rewrite bitslice_loop_bits by (done || lia). rewrite Z.add_0_l, Z.sub_0_r.
    destruct (Z.leb_spec 0 k), (Z.ltb_spec k (zlen x)); try lia. cbn [andb].
    assert (Hz : znth 0 (words zeros) i = 0).
    { assert (i = 0 \/ i = 1 \/ i = 2 \/ i = 3 \/ i = 4 \/ i = 5 \/ i = 6 \/ i = 7) as H' by lia.
      repeat destruct H' as [->|H']; try subst i; reflexivity. }
    by rewrite Hz, Z.bits_0.
Qed.

Lemma unbitslice_bytes_len r cur b : forall a, zlen (unbitslice_bytes r cur b a) = zlen r.
Proof. induction r as [|c r IH]; intros a; cbn [unbitslice_bytes]; [done|]. by rewrite !zlen_cons, IH. Qed.

Lemma unbitslice_bytes_nth r cur b : forall a k, 0 <= k < zlen r ->
  znth 0 (unbitslice_bytes r cur b a) k = u8 (znth 0 r k .| Z.shiftl (bit (a + k) cur) b).
Proof.
  induction r as [|c r IH]; intros a k Hk; [change (zlen (@nil Z)) with 0 in Hk; lia|]. cbn [unbitslice_bytes].
  rewrite zlen_cons in Hk. destruct (Z.eq_dec k 0) as [->|Hne].
  - change (znth 0 (?x :: ?l) 0) with x. by rewrite Z.add_0_r.
  - replace k with (1 + (k - 1)) by lia. generalize (u8 (c .| Z.shiftl (Z.shiftr cur a .& 1) b)). intros y.
    change (y :: ?l) with ([y] ++ l). change (c :: r) with ([c] ++ r).
    change 1 with (zlen [y]) at 1. rewrite znth_app_r by lia. change (1 + (k - 1)) with (zlen [c] + (k - 1)).
    rewrite znth_app_r by lia. rewrite IH by lia. change (zlen [c]) with 1.
    change (zlen [y]) with 1. by replace (a + 1 + (k - 1)) with (a + (1 + (k - 1))) by lia.
Qed.

Lemma znth_zrep n k : 0 <= k < n -> znth 0 (zrep n 0) k = 0.
Proof.
  intros Hk. unfold znth, zrep. zif. rewrite nth_lookup, lookup_replicate_2 by lia. done.
Qed.

Lemma unbitslice_lane s len : 0 <= len -> zlen (unbitslice s len) = len /\
  forall k, 0 <= k < len -> znth 0 (unbitslice s len) k = lane k s.
Proof.
  intros Hl. unfold unbitslice, words. cbn [unbitslice_loop].
  split; [by rewrite !unbitslice_bytes_len, zlen_zrep by lia|]. intros k Hk.
  do 8 (rewrite unbitslice_bytes_nth by (rewrite ?unbitslice_bytes_len, zlen_zrep by lia; lia)).
  rewrite znth_zrep, Z.add_0_l, !bit_b2z by lia. unfold lane, smap. rewrite !bit_b2z by lia.
  destruct (Z.testbit (w0 s) k), (Z.testbit (w1 s) k), (Z.testbit (w2 s) k), (Z.testbit (w3 s) k),
    (Z.testbit (w4 s) k), (Z.testbit (w5 s) k), (Z.testbit (w6 s) k), (Z.testbit (w7 s) k); reflexivity.
Qed.

(** *** Words within 32 bits *)

Definition mask (w : Z) : Z := w .& 0xFFFFFFFF.
Definition ok32 (s : sliced) : Prop := smap mask s = s.

Lemma mask_lxor x y : mask (x .^ y) = mask x .^ mask y.
Proof.
  unfold mask. apply Z.bits_inj'. intros i _. rewrite !Z.land_spec, !Z.lxor_spec, !Z.land_spec.
  by destruct (Z.testbit x i), (Z.testbit y i), (Z.testbit _ i).
Qed.

Lemma mask_land x y : mask (x .& y) = mask x .& mask y.
Proof.
  unfold mask. apply Z.bits_inj'. intros i _. rewrite !Z.land_spec.
  by destruct (Z.testbit x i), (Z.testbit y i), (Z.testbit _ i).
Qed.

Lemma ok32_add a b : ok32 a -> ok32 b -> ok32 (gf256_add a b).
Proof. unfold ok32. intros Ha Hb. by rewrite (smap_add _ mask_lxor), Ha, Hb. Qed.

Lemma ok32_mul a b : ok32 a -> ok32 b -> ok32 (gf256_mul a b).
Proof. unfold ok32. intros Ha Hb. by rewrite (smap_mul _ mask_lxor mask_land), Ha, Hb. Qed.

Lemma ok32_setall x : ok32 (bitslice_setall x).
Proof.
  unfold ok32, smap, bitslice_setall, tabulate. cbn [w0 w1 w2 w3 w4 w5 w6 w7].
  assert (H : forall y, mask (u32 y) = u32 y).
  { intros y. unfold mask. change 0xFFFFFFFF with (Z.ones 32). rewrite Z.land_ones by lia.
    apply Z.mod_small. apply (u32_range y). }
  by rewrite !H.
Qed.

(** A sliced value that is the same on all lanes. *)
Definition uniform (s : sliced) (v : gf) : Prop := ok32 s /\ forall k, 0 <= k < 32 -> glane k s = v.

Lemma uniform_add a b u v : uniform a u -> uniform b v -> uniform (gf256_add a b) (fadd u v).
Proof.
  intros [Oa Ha] [Ob Hb]. split; [by apply ok32_add|]. intros k Hk. by rewrite glane_add, Ha, Hb by lia.
Qed.

Lemma uniform_mul a b u v : uniform a u -> uniform b v -> uniform (gf256_mul a b) (fmul u v).
Proof.
  intros [Oa Ha] [Ob Hb]. split; [by apply ok32_mul|]. intros k Hk. by rewrite glane_mul, Ha, Hb by lia.
Qed.

Lemma uniform_setall x : is_byte x -> uniform (bitslice_setall x) (of_Z x).
Proof. intros Hx. split; [apply ok32_setall|]. intros k Hk. unfold glane. by rewrite lane_setall. Qed.

Lemma uniform_num1 : uniform (Sliced 0xFFFFFFFF 0 0 0 0 0 0 0) f1.
Proof. exact (uniform_setall 1 ltac:(unfold is_byte; lia)). Qed.

Lemma word_zero w : mask w = w -> (forall k, 0 <= k < 32 -> bit k w = 0) -> w = 0.
Proof.
  intros Hm H. apply Z.bits_inj'. intros k Hk. rewrite Z.bits_0. destruct (Z.lt_ge_cases k 32).
  - specialize (H k ltac:(lia)). rewrite bit_b2z in H by lia. by destruct (Z.testbit w k).
  - rewrite <- Hm. unfold mask. rewrite Z.land_spec. change 0xFFFFFFFF with (Z.ones 32).
    rewrite Z.ones_spec_high by lia. apply andb_false_r.
Qed.

Lemma is_zero_spec s : is_zero s = true <-> s = zeros.
Proof.
  unfold is_zero. rewrite Z.eqb_eq, !Z.lor_eq_0_iff. destruct s; cbn. unfold zeros. split.
  - intros ((((((( -> & ->) & ->) & ->) & ->) & ->) & ->) & ->). done.
  - intros [= -> -> -> -> -> -> -> ->]. done.
Qed.

Lemma uniform_is_zero s v : uniform s v -> is_zero s = bool_decide (v = f0).
Proof.
  intros [Ho Hl]. apply Bool.eq_true_iff_eq. rewrite is_zero_spec, bool_decide_eq_true. split.
  - intros ->. by rewrite <- (Hl 0 ltac:(lia)).
  - intros ->. assert (H : forall k, 0 <= k < 32 -> smap (bit k) s = zeros).
    { intros k Hk. destruct (bits_lane k s ltac:(lia)) as [<- Hb]. specialize (Hl k Hk).
      apply (f_equal gv) in Hl. rewrite gv_glane in Hl by lia. rewrite Hl. reflexivity. }
    unfold ok32 in Ho. destruct s as [a b c d e f g h]. unfold smap in *. cbn [w0 w1 w2 w3 w4 w5 w6 w7] in *.
    injection Ho as E0 E1 E2 E3 E4 E5 E6 E7. unfold zeros.
    f_equal; (apply word_zero; [assumption|]); intros k Hk; specialize (H k Hk); injection H; auto.
Qed.

(** ** The loops of [shamir_interpolate] *)

Abbreviation gprod := (@prod gf f1 fmul).
Abbreviation gsum := (@sum gf f0 fadd).
Abbreviation gdenom := (@denom gf f1 fmul fadd _).
Abbreviation gterm := (@term gf f0 f1 fadd fmul fadd finv _).

(** The interpolated value of the points at [x], and the value of a polynomial. *)
Definition glagrange (xs ys : list gf) (x : gf) : gf := @lagrange gf f0 f1 fadd fmul fadd fdiv xs ys x.
Definition geval (p : list gf) (x : gf) : gf := @eval gf f0 fadd fmul p x.

Add Field gf256_field : gf_field.

Lemma numerator_uniform x vx xs vxs : uniform x vx -> Forall2 uniform xs vxs ->
  forall num v, uniform num v -> uniform (numerator x xs num) (fmul v (gprod (map (fadd vx) vxs))).
Proof.
  intros Hx. induction 1 as [|xi vi xs vxs Hi _ IH]; intros num v Hn; cbn [numerator map prod foldr].
  - by replace (fmul v f1) with v by ring.
  - specialize (IH _ _ (uniform_mul _ _ _ _ Hn (uniform_add _ _ _ _ Hx Hi))).
    unfold prod in IH. replace (fmul v (fmul (fadd vx vi) (foldr fmul f1 (map (fadd vx) vxs))))
      with (fmul (fmul v (fadd vx vi)) (foldr fmul f1 (map (fadd vx) vxs))) by ring. done.
Qed.

(** Past the own index every share is a factor. *)
Lemma denominator_after xi vi xs vxs : uniform xi vi -> Forall2 uniform xs vxs ->
  forall i j d v, i < j -> uniform d v -> uniform (denominator i j xi xs d) (fmul v (gprod (map (fadd vi) vxs))).
Proof.
  intros Hx. induction 1 as [|xj vj xs vxs Hj _ IH]; intros i j d v Hij Hd; cbn [denominator map prod foldr].
  - by replace (fmul v f1) with v by ring.
  - destruct (Z.eqb_spec i j); [lia|].
    specialize (IH i (j + 1) _ _ ltac:(lia) (uniform_mul _ _ _ _ Hd (uniform_add _ _ _ _ Hx Hj))).
    unfold prod in IH. replace (fmul v (fmul (fadd vi vj) (foldr fmul f1 (map (fadd vi) vxs))))
      with (fmul (fmul v (fadd vi vj)) (foldr fmul f1 (map (fadd vi) vxs))) by ring. done.
Qed.

Lemma denominator_uniform xi vi xs vxs : uniform xi vi -> Forall2 uniform xs vxs ->
  forall i j d v, j <= i -> uniform d v ->
  uniform (denominator i j xi xs d) (fmul v (gprod (map (fadd vi) (others (Z.to_nat (i - j)) vxs)))).
Proof.
  intros Hx H. induction H as [|xj vj xs vxs Hj H IH]; intros i j d v Hij Hd; cbn [denominator].
  - unfold others. rewrite take_nil, drop_nil. cbn [map app prod foldr]. by replace (fmul v f1) with v by ring.
  - destruct (Z.eqb_spec i j) as [->|Hne].
    + rewrite Z.sub_diag. unfold others. cbn [Z.to_nat take drop app]. apply denominator_after; (done || lia).
    + specialize (IH i (j + 1) _ _ ltac:(lia) (uniform_mul _ _ _ _ Hd (uniform_add _ _ _ _ Hx Hj))).
      replace (Z.to_nat (i - j)) with (S (Z.to_nat (i - (j + 1)))) by lia. unfold others. cbn [take drop app map prod foldr].
      unfold others, prod in IH. set (q := foldr _ _ _) in *.
      by replace (fmul v (fmul (fadd vi vj) q)) with (fmul (fmul v (fadd vi vj)) q) by ring.
Qed.

Lemma byte_elem l a : Forall is_byte l -> a ∈ l -> is_byte a.
Proof. intros H Hin. apply list_elem_of_lookup in Hin as (n & Hn). by apply (proj1 (Forall_lookup _ _) H n). Qed.

Lemma glane_zeros k : glane k zeros = f0.
Proof. unfold glane, lane, smap, zeros, bit. cbn [w0 w1 w2 w3 w4 w5 w6 w7]. by rewrite Z.shiftr_0_l. Qed.

Lemma uniform_map l : Forall is_byte l -> Forall2 uniform (map bitslice_setall l) (map of_Z l).
Proof. induction 1 as [|i l Hi _ IH]; cbn [map]; constructor; [by apply uniform_setall|done]. Qed.

Section Interpolate.
Context (result_index : Z) (indices : list Z) (values : list (list Z)) (len : Z).
Context (Hri : is_byte result_index) (Hidx : Forall is_byte indices) (Hcount : length values = length indices).
Context (Hlen : 0 <= len <= 32) (Hval : Forall (fun v => zlen v = len /\ Forall is_byte v) values).

Local Abbreviation gx := (of_Z result_index).
Local Abbreviation gxs := (map of_Z indices).
Local Abbreviation xs := (map bitslice_setall indices).
Local Abbreviation gys k := (map (fun v => of_Z (znth 0 v k)) values).

Lemma xs_uniform : Forall2 uniform xs gxs.
Proof. by apply uniform_map. Qed.

Lemma num_uniform : uniform (numerator (bitslice_setall result_index) xs (Sliced 0xFFFFFFFF 0 0 0 0 0 0 0))
  (gprod (map (fadd gx) gxs)).
Proof.
  pose proof (numerator_uniform _ _ _ _ (uniform_setall _ Hri) xs_uniform _ _ uniform_num1) as H.
  by replace (fmul f1 (gprod (map (fadd gx) gxs))) with (gprod (map (fadd gx) gxs)) in H by ring.
Qed.

Lemma of_Z_inj a b : is_byte a -> is_byte b -> of_Z a = of_Z b -> a = b.
Proof. intros Ha Hb E. apply (f_equal gv) in E. by rewrite !gv_of_Z in E. Qed.

(** The denominator of a share, with its first factor as the code sets it. *)
Lemma denom_uniform i index : is_byte index -> 0 <= i ->
  uniform (denominator i 0 (bitslice_setall index) xs
             (if negb (index =? result_index) then gf256_add (bitslice_setall result_index) (bitslice_setall index)
              else bitslice_setall 1))
    (gdenom gxs gx (Z.to_nat i) (of_Z index)).
Proof.
  intros Hi H0. replace (Z.to_nat i) with (Z.to_nat (i - 0)) by (f_equal; lia). unfold denom.
  apply denominator_uniform; [by apply uniform_setall|apply xs_uniform|done|].
  destruct (Z.eqb_spec index result_index) as [->|Hne]; cbn [negb].
  - rewrite decide_True by done. apply uniform_setall. unfold is_byte. lia.
  - rewrite decide_False by (intros E; by apply Hne, of_Z_inj). apply uniform_add; by apply uniform_setall.
Qed.

Local Abbreviation x := (bitslice_setall result_index).
Local Abbreviation num := (numerator x xs (Sliced 0xFFFFFFFF 0 0 0 0 0 0 0)).
Local Abbreviation gpt k := (fun p : Z * list Z => (of_Z p.1, of_Z (znth 0 p.2 k))).
Local Abbreviation share := (fun p : Z * list Z => (p.1, (bitslice_setall p.1, bitslice p.2 len))).

(** One share that is not a duplicate: its term is added on every lane. *)
Lemma basis_step i p shares secret : is_byte p.1 -> zlen p.2 = len -> Forall is_byte p.2 -> 0 <= i ->
  gdenom gxs gx (Z.to_nat i) (of_Z p.1) <> f0 ->
  exists secret', basis_loop i x num result_index xs (share p :: shares) secret
                  = basis_loop (i + 1) x num result_index xs shares secret' /\
    forall k, 0 <= k < len -> glane k secret' = fadd (glane k secret) (gterm gxs gx (Z.to_nat i) (gpt k p)).
Proof.
  destruct p as [index v]. cbn [fst snd]. intros Hi Hv Hb H0 Hd. cbn [basis_loop].
  pose proof (denom_uniform i index Hi H0) as Du. set (first := if negb _ then _ else _) in Du.
  assert (E : (if negb (index =? result_index) then (gf256_add x (bitslice_setall index), secret)
               else (bitslice_setall 1, gf256_add secret (bitslice v len)))
              = (first, if negb (index =? result_index) then secret else gf256_add secret (bitslice v len)))
    by (subst first; by destruct (index =? result_index)).
  rewrite E, (uniform_is_zero _ _ Du), bool_decide_false by done.
  eexists. split; [reflexivity|]. intros k Hk. destruct Du as [_ Du].
  rewrite glane_add, !glane_mul, glane_inv, Du by lia. rewrite (proj2 num_uniform) by lia.
  assert (Ey : glane k (bitslice v len) = of_Z (znth 0 v k)) by (unfold glane; by rewrite lane_bitslice by (done || lia)).
  rewrite Ey. unfold term. cbn [fst snd]. destruct (Z.eqb_spec index result_index) as [->|Hne]; cbn [negb].
  - rewrite decide_True, glane_add, Ey by (done || lia). ring.
  - rewrite decide_False by (intros E'; by apply Hne, of_Z_inj). ring.
Qed.

(** All shares from position [i] on. *)
Lemma basis_loop_ok l : forall i secret, 0 <= i ->
  Forall (fun p => is_byte p.1 /\ zlen p.2 = len /\ Forall is_byte p.2) l ->
  (forall n p, l !! n = Some p -> gdenom gxs gx (Z.to_nat i + n) (of_Z p.1) <> f0) ->
  exists secret', basis_loop i x num result_index xs (map share l) secret = Some secret' /\
    forall k, 0 <= k < len -> glane k secret'
      = fadd (glane k secret) (gsum (imap (fun n p => gterm gxs gx (Z.to_nat i + n) (gpt k p)) l)).
Proof.
  induction l as [|p l IH]; intros i secret H0 Hl Hd.
  - exists secret. split; [done|]. intros k _. cbn [imap sum foldr]. ring.
  - apply Forall_cons_iff in Hl as [(Hi & Hv & Hb) Hl].
    destruct (basis_step i p (map share l) secret Hi Hv Hb H0) as (s1 & E1 & L1).
    { rewrite <- (Nat.add_0_r (Z.to_nat i)). by apply (Hd O). }
    cbn [map]. rewrite E1. destruct (IH (i + 1) s1 ltac:(lia) Hl) as (s2 & E2 & L2).
    { intros n q Hq. replace (Z.to_nat (i + 1) + n)%nat with (Z.to_nat i + S n)%nat by lia. by apply Hd. }
    exists s2. split; [exact E2|]. intros k Hk. rewrite L2, L1 by done. cbn [imap sum foldr]. unfold sum.
    rewrite Nat.add_0_r. rewrite (imap_ext _ ((fun n p => gterm gxs gx (Z.to_nat i + n) (gpt k p)) ∘ S)).
    + ring.
    + intros n q _. cbn. by replace (Z.to_nat (i + 1) + n)%nat with (Z.to_nat i + S n)%nat by lia.
Qed.

Lemma basis_loop_dup l : forall i secret n p, 0 <= i ->
  Forall (fun p => is_byte p.1 /\ zlen p.2 = len /\ Forall is_byte p.2) l ->
  l !! n = Some p -> gdenom gxs gx (Z.to_nat i + n) (of_Z p.1) = f0 ->
  basis_loop i x num result_index xs (map share l) secret = None.
Proof.
  induction l as [|q l IH]; intros i secret n p H0 Hl Hn Hd; [done|].
  apply Forall_cons_iff in Hl as [(Hi & Hv & Hb) Hl]. cbn [map].
  destruct (decide (gdenom gxs gx (Z.to_nat i) (of_Z q.1) = f0)) as [E0|E0].
  - destruct q as [index v]. cbn [fst snd] in *. cbn [basis_loop].
    pose proof (denom_uniform i index Hi H0) as Du. apply uniform_is_zero in Du. rewrite E0, bool_decide_true in Du by done.
    by destruct (index =? result_index); cbn [negb] in *; rewrite Du.
  - destruct (basis_step i q (map share l) secret Hi Hv Hb H0 E0) as (s1 & -> & _).
    destruct n as [|n]; [injection Hn as ->; by rewrite Nat.add_0_r in Hd|].
    apply (IH (i + 1) s1 n p ltac:(lia) Hl Hn). by replace (Z.to_nat (i + 1) + n)%nat with (Z.to_nat i + S n)%nat by lia.
Qed.

Lemma shares_zip : zip indices (zip xs (map (fun v => bitslice v len) values)) = map share (zip indices values).
Proof.
  clear. revert values. induction indices as [|i l IH]; intros [|v vs]; cbn [map zip zip_with]; [done..|]. f_equal. apply IH.
Qed.

Lemma shares_ok : Forall (fun p => is_byte p.1 /\ zlen p.2 = len /\ Forall is_byte p.2) (zip indices values).
Proof.
  apply Forall_lookup. intros n [i v] Hn.
  apply lookup_zip_Some in Hn as [Hi Hv]. cbn [fst snd].
  pose proof (proj1 (Forall_lookup _ _) Hidx n i Hi). pose proof (proj1 (Forall_lookup _ _) Hval n v Hv). done.
Qed.

Lemma interpolate_ok : NoDup indices ->
  exists r, shamir_interpolate result_index indices values len = Some r /\ zlen r = len /\
    forall k, 0 <= k < len -> of_Z (znth 0 r k) = glagrange gxs (gys k) gx.
Proof.
  intros Hnd. assert (Hgnd : NoDup gxs).
  { apply NoDup_fmap_2_strong; [|done]. intros a b Ha Hb. by apply (byte_elem indices) in Ha, Hb; [apply of_Z_inj|..]. }
  unfold shamir_interpolate. change SHAMIR_MAX_LEN with 32. destruct (Z.ltb_spec 32 len); [lia|].
  rewrite shares_zip. destruct (basis_loop_ok (zip indices values) 0 zeros ltac:(lia) shares_ok) as (s & -> & L).
  { intros n [i v] Hn. apply lookup_zip_Some in Hn as [Hi _]. apply (denom_nonzero gf_field); [done|].
    change (gxs !! n = Some (of_Z i)). rewrite list_lookup_fmap. by rewrite Hi. }
  destruct (unbitslice_lane s len ltac:(lia)) as [Hl Hb]. eexists. split; [done|]. split; [done|].
  intros k Hk. rewrite Hb by done. fold (glane k s). rewrite L by done. rewrite glane_zeros.
  unfold glagrange. rewrite <- (term_sum gf_field gxs (gys k) gx Hgnd) by (by rewrite !length_map).
  assert (E : zip gxs (gys k) = map (gpt k) (zip indices values)).
  { clear. revert values. induction indices as [|i l IH]; intros [|v vs]; cbn [map zip zip_with]; [done..|]. f_equal. apply IH. }
  rewrite E. rewrite imap_fmap. change (Z.to_nat 0) with 0%nat. cbn [Nat.add]. unfold compose. ring.
Qed.

Lemma interpolate_dup : ~ NoDup indices -> shamir_interpolate result_index indices values len = None.
Proof.
  intros Hnd. unfold shamir_interpolate. change SHAMIR_MAX_LEN with 32. destruct (Z.ltb_spec 32 len); [lia|].
  rewrite shares_zip.
  assert (exists i j y, i <> j /\ indices !! i = Some y /\ indices !! j = Some y) as (i & j & y & Hij & Hi & Hj).
  { clear -Hnd. induction indices as [|a l IH]; [destruct Hnd; constructor|].
    destruct (decide (a ∈ l)) as [Hin|Hout].
    - apply list_elem_of_lookup in Hin as (j & Hj). exists O, (S j), a. done.
    - destruct IH as (i & j & y & Hij & Hi & Hj); [intros H; apply Hnd; by apply NoDup_cons_2|].
      exists (S i), (S j), y. split; [lia|done]. }
  destruct (lookup_lt_is_Some_2 values i) as (v & Hv); [apply lookup_lt_Some in Hi; lia|].
  rewrite (basis_loop_dup (zip indices values) 0 zeros i (y, v)); [done|lia|apply shares_ok|by rewrite lookup_zip_Some|].
  cbn [fst Z.to_nat Nat.add]. apply (denom_dup gf_field gxs gx i j); [by rewrite list_lookup_fmap, Hi|by rewrite list_lookup_fmap, Hj|done].
Qed.

End Interpolate.

(** ** Properties *)

(** Each byte of the shares is the value of a polynomial at the index of the share. *)
Definition shares_of (polys : list (list gf)) (index : Z) (v : list Z) : Prop :=
  forall k p, polys !! k = Some p -> of_Z (znth 0 v (Z.of_nat k)) = geval p (of_Z index).

(** C27: [shamir_interpolate] recovers shared secrets: when at least as many shares
    with distinct indices are given as the polynomials have coefficients, the result
    has the value of every polynomial at the result index, in particular the secret
    or a further share, for up to 32 bytes at once. *)
Theorem shamir_recovers result_index indices values len polys :
  is_byte result_index -> Forall is_byte indices -> length values = length indices -> 0 <= len <= 32 ->
  Forall (fun v => zlen v = len /\ Forall is_byte v) values -> NoDup indices ->
  Z.of_nat (length polys) = len -> Forall (fun p => (length p <= length indices)%nat) polys ->
  Forall2 (shares_of polys) indices values ->
  exists r, shamir_interpolate result_index indices values len = Some r /\ zlen r = len /\
    shares_of polys result_index r.
Proof.
  intros Hr Hi Hc Hl Hv Hnd Hp Hdeg Hs.
  destruct (interpolate_ok result_index indices values len Hr Hi Hc Hl Hv Hnd) as (r & E & Hrl & L).
  exists r. split; [done|]. split; [done|]. intros k p Hk.
  pose proof (lookup_lt_Some _ _ _ Hk) as Hlt. rewrite L by lia.
  assert (Hnd' : NoDup (map of_Z indices)).
  { apply NoDup_fmap_2_strong; [|done]. intros a b Ha Hb. by apply (byte_elem indices) in Ha, Hb; [apply of_Z_inj|..]. }
  assert (Ey : map (fun v => of_Z (znth 0 v (Z.of_nat k))) values = map (geval p) (map of_Z indices)).
  { clear -Hs Hk. induction Hs as [|i v l vs H _ IH]; [done|]. cbn [map]. f_equal; [by apply H|done]. }
  rewrite Ey. unfold glagrange. apply (lagrange_interpolates gf_field _ (length p)).
  - done.
  - exists p. done.
  - rewrite length_map. by apply (proj1 (Forall_lookup _ _) Hdeg k p).
Qed.

(** The secret byte 5 shared with the polynomial 5 + 7x. *)
Lemma shamir_recovers_witness :
  exists r, shamir_interpolate 0 [1; 2] [[2]; [11]] 1 = Some r /\ zlen r = 1 /\ shares_of [[of_Z 5; of_Z 7]] 0 r.
Proof.
  assert (Hb : forall x, byteb x = true -> is_byte x) by (intros x; apply byteb_spec).
  refine (shamir_recovers 0 [1; 2] [[2]; [11]] 1 [[of_Z 5; of_Z 7]] _ _ _ _ _ _ _ _ _).
  - by apply Hb.
  - repeat constructor; by apply Hb.
  - reflexivity.
  - lia.
  - repeat constructor; by apply Hb.
  - apply NoDup_cons_2; [|apply NoDup_singleton]. intros H. by apply list_elem_of_singleton in H.
  - reflexivity.
  - repeat constructor.
  - repeat constructor; intros [|k] p Hk; try discriminate; injection Hk as <-; apply gf_eq; vm_compute; reflexivity.
Defined.

(** [shamir_interpolate] accepts exactly the inputs of at most 32 bytes with
    distinct indices, and then every byte of the result is the Lagrange
    interpolation of that byte of the shares; otherwise it returns false. *)
Theorem shamir_interpolate_correct result_index indices values len :
  is_byte result_index -> Forall is_byte indices -> length values = length indices -> 0 <= len ->
  Forall (fun v => zlen v = len /\ Forall is_byte v) values ->
  match shamir_interpolate result_index indices values len with
  | Some r => len <= 32 /\ NoDup indices /\ zlen r = len /\
      forall k, 0 <= k < len -> of_Z (znth 0 r k)
        = glagrange (map of_Z indices) (map (fun v => of_Z (znth 0 v k)) values) (of_Z result_index)
  | None => 32 < len \/ ~ NoDup indices
  end.
Proof.
  intros Hr Hi Hc Hl Hv. destruct (Z.lt_ge_cases 32 len) as [Hlt|Hge].
  { unfold shamir_interpolate. change SHAMIR_MAX_LEN with 32. destruct (Z.ltb_spec 32 len); [by left|lia]. }
  destruct (decide (NoDup indices)) as [Hnd|Hnd].
  - destruct (interpolate_ok result_index indices values len Hr Hi Hc ltac:(lia) Hv Hnd) as (r & -> & Hrl & L). done.
  - rewrite (interpolate_dup result_index indices values len) by (done || lia). by right.
Qed.

Lemma shamir_interpolate_correct_witness :
  match shamir_interpolate 3 [1; 2] [[2; 0]; [11; 255]] 2 with
  | Some r => 2 <= 32 /\ NoDup [1; 2] /\ zlen r = 2 /\
      forall k, 0 <= k < 2 -> of_Z (znth 0 r k)
        = glagrange (map of_Z [1; 2]) (map (fun v => of_Z (znth 0 v k)) [[2; 0]; [11; 255]]) (of_Z 3)
  | None => 32 < 2 \/ ~ NoDup [1; 2]
  end.
Proof.
  assert (Hb : forall x, byteb x = true -> is_byte x) by (intros x; apply byteb_spec).
  refine (shamir_interpolate_correct 3 [1; 2] [[2; 0]; [11; 255]] 2 _ _ _ _ _).
  - by apply Hb.
  - repeat constructor; by apply Hb.
  - reflexivity.
  - lia.
  - repeat constructor; by apply Hb.
Defined.

End ShamirSpec.
