(* ===== verification/Blake2.v ===== *)
(** * BLAKE2s and BLAKE2b: [crypto/blake2s.c], [crypto/blake2b.c]

    The two files are the same code for words of 32 and 64 bits, with their own
    constants, rotations and parameter block; they are written once here over a
    record of these differences. *)

From stdpp Require Import base list numbers.
From Stdlib Require Import ZArith Lia.
From S2P Require Import Prelude Hash.
Local Open Scope fw_scope.

Module Blake2.
Import Hash.

Record blake2_alg := Blake2Alg {
  b_wb : nat;                             (* bytes of a word *)
  b_iv : list Z;
  b_sigma : list (list Z);                (* a row per round *)
  b_rot : Z * Z * Z * Z;                  (* the rotations of G *)
  b_param : Z -> Z -> list Z -> list Z;   (* parameter block: digest length, key length, personal *)
  b_personal_len : Z;
  b_copied : Z -> Z -> Z;                 (* bytes written by Final: S->outlen, outlen *)
}.

(** [blake2s_state]. *)
Record blake2_state := Blake2State {
  bs_h : list Z;
  bs_t0 : Z; bs_t1 : Z;
  bs_f0 : Z; bs_f1 : Z;
  bs_buf : list Z;
  bs_buflen : Z;
  bs_outlen : Z;
  bs_last_node : bool;
}.

Section Ops.
Context (A : blake2_alg).

Definition wbits : Z := 8 * Z.of_nat (b_wb A).
Definition uw (x : Z) : Z := wrap wbits x.
Definition all_ones : Z := uw (-1).
Definition blockbytes : Z := 16 * Z.of_nat (b_wb A).
Definition outbytes : Z := 8 * Z.of_nat (b_wb A).
Definition keybytes : Z := outbytes.

Definition rotr (w c : Z) : Z := Z.shiftr w c .| uw (Z.shiftl w (wbits - c)).

Definition set_lastblock (st : blake2_state) : blake2_state :=
  let f1 := if bs_last_node st then all_ones else bs_f1 st in
  Blake2State (bs_h st) (bs_t0 st) (bs_t1 st) all_ones f1 (bs_buf st) (bs_buflen st) (bs_outlen st)
    (bs_last_node st).

Definition is_lastblock (st : blake2_state) : bool := negb (bs_f0 st =? 0).

Definition increment_counter (st : blake2_state) (inc : Z) : blake2_state :=
  let t0 := uw (bs_t0 st + inc) in
  let t1 := uw (bs_t1 st + (if t0 <? inc then 1 else 0)) in
  Blake2State (bs_h st) t0 t1 (bs_f0 st) (bs_f1 st) (bs_buf st) (bs_buflen st) (bs_outlen st)
    (bs_last_node st).

Definition init0 : blake2_state :=
  Blake2State (b_iv A) 0 0 0 0 (zrep blockbytes 0) 0 0 false.

(** The digest length is the first byte of the parameter block. *)
Definition init_param (P : list Z) : blake2_state :=
  let st := init0 in
  Blake2State (zip_with Z.lxor (bs_h st) (words_of (b_wb A) 8 P)) (bs_t0 st) (bs_t1 st) (bs_f0 st) (bs_f1 st)
    (bs_buf st) (bs_buflen st) (znth 0 P 0) (bs_last_node st).

(** [None] is the return value -1. *)
Definition blake2_Init (outlen : Z) : option blake2_state :=
  if (outlen =? 0) || (outbytes <? outlen) then None
  else Some (init_param (b_param A (u8 outlen) 0 (zrep (b_personal_len A) 0))).

Definition blake2_InitPersonal (outlen : Z) (personal : option (list Z)) : option blake2_state :=
  if (outlen =? 0) || (outbytes <? outlen) then None
  else
    match personal with
    | None => None
    | Some p =>
        if negb (zlen p =? b_personal_len A) then None
        else Some (init_param (b_param A (u8 outlen) 0 p))
    end.

(** The macros [G] and [ROUND] on the array [v]. *)
Definition G (m : list Z) (row : list Z) (i a b c d : Z) (v : list Z) : list Z :=
  let '(r1, r2, r3, r4) := b_rot A in
  let v := zupd v a (uw (znth 0 v a + znth 0 v b + znth 0 m (znth 0 row (2 * i + 0)))) in
  let v := zupd v d (rotr (znth 0 v d .^ znth 0 v a) r1) in
  let v := zupd v c (uw (znth 0 v c + znth 0 v d)) in
  let v := zupd v b (rotr (znth 0 v b .^ znth 0 v c) r2) in
  let v := zupd v a (uw (znth 0 v a + znth 0 v b + znth 0 m (znth 0 row (2 * i + 1)))) in
  let v := zupd v d (rotr (znth 0 v d .^ znth 0 v a) r3) in
  let v := zupd v c (uw (znth 0 v c + znth 0 v d)) in
  zupd v b (rotr (znth 0 v b .^ znth 0 v c) r4).

Definition ROUND (m : list Z) (v : list Z) (row : list Z) : list Z :=
  let v := G m row 0 0 4 8 12 v in
  let v := G m row 1 1 5 9 13 v in
  let v := G m row 2 2 6 10 14 v in
  let v := G m row 3 3 7 11 15 v in
  let v := G m row 4 0 5 10 15 v in
  let v := G m row 5 1 6 11 12 v in
  let v := G m row 6 2 7 8 13 v in
  G m row 7 3 4 9 14 v.

Definition compress (st : blake2_state) (block : list Z) : blake2_state :=
  let m := words_of (b_wb A) 16 block in
  let v := bs_h st ++ take 4 (b_iv A)
             ++ [bs_t0 st .^ znth 0 (b_iv A) 4; bs_t1 st .^ znth 0 (b_iv A) 5;
                 bs_f0 st .^ znth 0 (b_iv A) 6; bs_f1 st .^ znth 0 (b_iv A) 7] in
  let v := foldl (ROUND m) v (b_sigma A) in
  Blake2State (zip_with Z.lxor (zip_with Z.lxor (bs_h st) (take 8 v)) (drop 8 v))
    (bs_t0 st) (bs_t1 st) (bs_f0 st) (bs_f1 st) (bs_buf st) (bs_buflen st) (bs_outlen st) (bs_last_node st).

Definition set_buf (st : blake2_state) (buf : list Z) (buflen : Z) : blake2_state :=
  Blake2State (bs_h st) (bs_t0 st) (bs_t1 st) (bs_f0 st) (bs_f1 st) buf buflen (bs_outlen st) (bs_last_node st).

(** [while (inlen > BLOCKBYTES)]: the state and the input that is left. *)
Fixpoint blake2_update_loop (fuel : nat) (st : blake2_state) (data : list Z) : blake2_state * list Z :=
  match fuel with
  | O => (st, data)
  | S fuel =>
      if blockbytes <? zlen data then
        blake2_update_loop fuel (compress (increment_counter st blockbytes) (take (Z.to_nat blockbytes) data))
          (drop (Z.to_nat blockbytes) data)
      else (st, data)
  end.

Definition blake2_Update (st : blake2_state) (data : list Z) : blake2_state :=
  if 0 <? zlen data then
    let left := bs_buflen st in
    let fill := blockbytes - left in
    let '(st, data) :=
      if fill <? zlen data then
        let st := set_buf st (memcpy (bs_buf st) (Z.to_nat left) (take (Z.to_nat fill) data)) 0 in
        let st := compress (increment_counter st blockbytes) (bs_buf st) in
        blake2_update_loop (length data) st (drop (Z.to_nat fill) data)
      else (st, data) in
    set_buf st (memcpy (bs_buf st) (Z.to_nat (bs_buflen st)) data) (bs_buflen st + zlen data)
  else st.

(** The outcomes of [Final]: the bytes written, -1, or a copy that would read past
    the local buffer. *)
Inductive final_result := Digest (out : list Z) | Failed | Overread.

Definition blake2_Final (st : blake2_state) (outlen : Z) : final_result :=
  if outlen <? bs_outlen st then Failed
  else if is_lastblock st then Failed
  else
    let st := increment_counter st (bs_buflen st) in
    let st := set_lastblock st in
    let st := set_buf st (memcpy (bs_buf st) (Z.to_nat (bs_buflen st)) (zrep (blockbytes - bs_buflen st) 0)) (bs_buflen st) in
    let st := compress st (bs_buf st) in
    let buffer := bytes_of (b_wb A) (bs_h st) in
    let n := b_copied A (bs_outlen st) outlen in
    if zlen buffer <? n then Overread else Digest (take (Z.to_nat n) buffer).

Definition blake2_InitKey (outlen : Z) (key : option (list Z)) : option blake2_state :=
  if (outlen =? 0) || (outbytes <? outlen) then None
  else
    match key with
    | None => None
    | Some key =>
        if (zlen key =? 0) || (keybytes <? zlen key) then None
        else
          let st := init_param (b_param A (u8 outlen) (u8 (zlen key)) (zrep (b_personal_len A) 0)) in
          Some (blake2_Update st (key ++ zrep (blockbytes - zlen key) 0))
    end.

Definition blake2 (msg : list Z) (outlen : Z) : final_result :=
  match blake2_Init outlen with
  | None => Failed
  | Some st => blake2_Final (blake2_Update st msg) outlen
  end.

Definition blake2_Key (msg : list Z) (key : option (list Z)) (outlen : Z) : final_result :=
  match blake2_InitKey outlen key with
  | None => Failed
  | Some st => blake2_Final (blake2_Update st msg) outlen
  end.

End Ops.

(** ** The two instances *)

Definition blake2s_IV : list Z :=
  [0x6A09E667; 0xBB67AE85; 0x3C6EF372; 0xA54FF53A; 0x510E527F; 0x9B05688C; 0x1F83D9AB; 0x5BE0CD19].

Definition blake2s_sigma : list (list Z) :=
  [ [ 0;  1;  2;  3;  4;  5;  6;  7;  8;  9; 10; 11; 12; 13; 14; 15];
    [14; 10;  4;  8;  9; 15; 13;  6;  1; 12;  0;  2; 11;  7;  5;  3];
    [11;  8; 12;  0;  5;  2; 15; 13; 10; 14;  3;  6;  7;  1;  9;  4];
    [ 7;  9;  3;  1; 13; 12; 11; 14;  2;  6;  5; 10;  4;  0; 15;  8];
    [ 9;  0;  5;  7;  2;  4; 10; 15; 14;  1; 11; 12;  6;  8;  3; 13];
    [ 2; 12;  6; 10;  0; 11;  8;  3;  4; 13;  7;  5; 15; 14;  1;  9];
    [12;  5;  1; 15; 14; 13;  4; 10;  0;  7;  6;  3;  9;  2;  8; 11];
    [13; 11;  7; 14; 12;  1;  3;  9;  5;  0; 15;  4;  8;  6;  2; 10];
    [ 6; 15; 14;  9; 11;  3;  0;  8; 12;  2; 13;  7;  1;  4; 10;  5];
    [10;  2;  8;  4;  7;  6;  1;  5; 15; 11;  9; 14;  3; 12; 13;  0] ].

(** [blake2s_param]: digest length, key length, fanout, depth, leaf length, node
    offset, xof length, node depth, inner length, salt, personal. *)
Definition blake2s_param (digest_length key_length : Z) (personal : list Z) : list Z :=
  [digest_length; key_length; 1; 1] ++ le_bytes 4 0 ++ le_bytes 4 0 ++ le_bytes 2 0 ++ [0; 0]
    ++ zrep 8 0 ++ personal.

Definition blake2s_alg : blake2_alg :=
  Blake2Alg 4 blake2s_IV blake2s_sigma (16, 12, 8, 7) blake2s_param 8 (fun _ outlen => outlen).

Definition blake2b_IV : list Z :=
  [0x6a09e667f3bcc908; 0xbb67ae8584caa73b; 0x3c6ef372fe94f82b; 0xa54ff53a5f1d36f1;
   0x510e527fade682d1; 0x9b05688c2b3e6c1f; 0x1f83d9abfb41bd6b; 0x5be0cd19137e2179].

(** Rows 10 and 11 repeat the first two. *)
Definition blake2b_sigma : list (list Z) := blake2s_sigma ++ take 2 blake2s_sigma.

Definition blake2b_param (digest_length key_length : Z) (personal : list Z) : list Z :=
  [digest_length; key_length; 1; 1] ++ le_bytes 4 0 ++ le_bytes 4 0 ++ le_bytes 4 0 ++ [0; 0]
    ++ zrep 14 0 ++ zrep 16 0 ++ personal.

Definition blake2b_alg : blake2_alg :=
  Blake2Alg 8 blake2b_IV blake2b_sigma (32, 24, 16, 63) blake2b_param 16 (fun outlen _ => outlen).

Definition blake2s_Init := blake2_Init blake2s_alg.
Definition blake2s_InitKey := blake2_InitKey blake2s_alg.
Definition blake2s_InitPersonal := blake2_InitPersonal blake2s_alg.
Definition blake2s_Update := blake2_Update blake2s_alg.
Definition blake2s_Final := blake2_Final blake2s_alg.
Definition blake2s := blake2 blake2s_alg.
Definition blake2s_Key := blake2_Key blake2s_alg.
Definition blake2b_Init := blake2_Init blake2b_alg.
Definition blake2b_InitKey := blake2_InitKey blake2b_alg.
Definition blake2b_InitPersonal := blake2_InitPersonal blake2b_alg.
Definition blake2b_Update := blake2_Update blake2b_alg.
Definition blake2b_Final := blake2_Final blake2b_alg.
Definition blake2b := blake2 blake2b_alg.
Definition blake2b_Key := blake2_Key blake2b_alg.

(** The test vectors of RFC 7693, appendix A and B ("abc"). *)
Example blake2b_abc : blake2b [97; 98; 99] 64 = Digest
  [0xBA; 0x80; 0xA5; 0x3F; 0x98; 0x1C; 0x4D; 0x0D; 0x6A; 0x27; 0x97; 0xB6; 0x9F; 0x12; 0xF6; 0xE9;
   0x4C; 0x21; 0x2F; 0x14; 0x68; 0x5A; 0xC4; 0xB7; 0x4B; 0x12; 0xBB; 0x6F; 0xDB; 0xFF; 0xA2; 0xD1;
   0x7D; 0x87; 0xC5; 0x39; 0x2A; 0xAB; 0x79; 0x2D; 0xC2; 0x52; 0xD5; 0xDE; 0x45; 0x33; 0xCC; 0x95;
   0x18; 0xD3; 0x8A; 0xA8; 0xDB; 0xF1; 0x92; 0x5A; 0xB9; 0x23; 0x86; 0xED; 0xD4; 0x00; 0x99; 0x23].
Proof. vm_compute. reflexivity. Qed.

Example blake2s_abc : blake2s [97; 98; 99] 32 = Digest
  [0x50; 0x8C; 0x5E; 0x8C; 0x32; 0x7C; 0x14; 0xE2; 0xE1; 0xA7; 0x2B; 0xA3; 0x4E; 0xEB; 0x45; 0x2F;
   0x37; 0x45; 0x8B; 0x20; 0x9E; 0xD6; 0x3A; 0x29; 0x4D; 0x99; 0x9B; 0x4C; 0x86; 0x67; 0x59; 0x82].
Proof. vm_compute. reflexivity. Qed.

End Blake2.
