(* ===== verification/Blake2Spec.v ===== *)
(** * BLAKE2: equivalence with RFC 7693

    The reference is the function of the whole message in section 3 of the RFC,
    with one integer as the offset counter.  The code keeps a block of input back
    (the last one is compressed with a flag), and counts in two words. *)

From stdpp Require Import base list numbers.
From Stdlib Require Import ZArith Lia.
From S2P Require Import Prelude Hash HashSpec Blake2.
Local Open Scope fw_scope.

Module Blake2Spec.
Import Hash HashSpec Blake2.

Lemma zlen_bytes_of_words wb l : zlen (bytes_of wb l) = Z.of_nat wb * zlen l.
Proof. unfold zlen. rewrite length_bytes_of. lia. Qed.

Section Spec.
Context (A : blake2_alg).
Local Abbreviation bb := (blockbytes A).

(** ** The reference *)

(** The compression function F of section 3.2; [G] and the schedule [SIGMA] are
    those of the code. *)
Definition rfc_F (h block : list Z) (t : Z) (final : bool) : list Z :=
  let v := h ++ b_iv A in
  let v := zupd v 12 (znth 0 v 12 .^ uw A t) in
  let v := zupd v 13 (znth 0 v 13 .^ uw A (Z.shiftr t (wbits A))) in
  let v := if final then zupd v 14 (znth 0 v 14 .^ all_ones A) else v in
  let v := foldl (ROUND A (words_of (b_wb A) 16 block)) v (b_sigma A) in
  zip_with Z.lxor (zip_with Z.lxor h (take 8 v)) (drop 8 v).

Definition pad (data : list Z) : list Z := data ++ zrep (bb - zlen data) 0.

(** Section 3.3: all blocks but the last, then the last one, padded. *)
Fixpoint rfc_blocks (fuel : nat) (h : list Z) (t : Z) (data : list Z) : list Z :=
  match fuel with
  | O => rfc_F h (pad data) (t + zlen data) true
  | S fuel =>
      if zlen data <=? bb then rfc_F h (pad data) (t + zlen data) true
      else rfc_blocks fuel (rfc_F h (take (Z.to_nat bb) data) (t + bb) false) (t + bb)
             (drop (Z.to_nat bb) data)
  end.

Definition rfc_from (h : list Z) (t : Z) (data : list Z) : list Z := rfc_blocks (length data) h t data.

(** The digest of [nn] bytes with a key: the padded key is the first block, also
    when the message is empty. *)
Definition rfc7693 (nn : Z) (key data : list Z) : list Z :=
  let h := zip_with Z.lxor (b_iv A)
             (words_of (b_wb A) 8 (b_param A nn (zlen key) (zrep (b_personal_len A) 0))) in
  let data := if zlen key =? 0 then data else pad key ++ data in
  take (Z.to_nat nn) (bytes_of (b_wb A) (rfc_from h 0 data)).

(** ** The streaming code *)

(** What the proofs need of the constants. *)
Class Params : Prop := {
  pr_wb : (0 < b_wb A)%nat;
  pr_iv : length (b_iv A) = 8%nat;
  pr_small : bb < 2 ^ wbits A;
}.
Context {Pr : Params}.

Lemma bb_pos : 0 < bb.
Proof. unfold blockbytes. pose proof pr_wb. lia. Qed.

Lemma rfc_blocks_fuel f g h t data : (length data <= f)%nat -> (length data <= g)%nat ->
  rfc_blocks f h t data = rfc_blocks g h t data.
Proof.
  pose proof bb_pos. revert g h t data. induction f as [|f IH]; intros [|g] h t data Hf Hg; cbn [rfc_blocks]; [done| | |].
  - destruct data; [|cbn in Hf; lia]. change (zlen (@nil Z)) with 0. destruct (Z.leb_spec 0 bb); [done|lia].
  - destruct data; [|cbn in Hg; lia]. change (zlen (@nil Z)) with 0. destruct (Z.leb_spec 0 bb); [done|lia].
  - destruct (Z.leb_spec (zlen data) bb); [done|]. unfold zlen in *.
    apply IH; rewrite length_drop; lia.
Qed.

Lemma rfc_from_last h t data : zlen data <= bb -> rfc_from h t data = rfc_F h (pad data) (t + zlen data) true.
Proof.
  intros H. unfold rfc_from. destruct (length data); cbn [rfc_blocks]; [done|].
  by destruct (Z.leb_spec (zlen data) bb); [|lia].
Qed.

Lemma rfc_from_block h t block data : zlen block = bb -> 0 < zlen data ->
  rfc_from h t (block ++ data) = rfc_from (rfc_F h block (t + bb) false) (t + bb) data.
Proof.
  intros Hb Hd. pose proof bb_pos. unfold rfc_from. rewrite length_app.
  assert (exists n, (length block + length data = S n)%nat) as (n & E).
  { exists (pred (length block + length data)). unfold zlen in *. lia. }
  rewrite E. cbn [rfc_blocks]. rewrite zlen_app. destruct (Z.leb_spec (zlen block + zlen data) bb); [lia|].
  unfold zlen in *. rewrite take_app_length', drop_app_length' by lia.
  apply rfc_blocks_fuel; lia.
Qed.

(** The two words of the counter. *)
Definition counts (st : blake2_state) (t : Z) : Prop :=
  bs_t0 st = uw A t /\ bs_t1 st = uw A (Z.shiftr t (wbits A)).

Lemma increment_counts st t inc : counts st t -> 0 <= t -> 0 <= inc < 2 ^ wbits A ->
  counts (increment_counter A st inc) (t + inc).
Proof.
  intros [E0 E1] Ht Hi. unfold counts, increment_counter. cbn [bs_t0 bs_t1]. rewrite E0, E1. unfold uw, wrap.
  assert (Hw : 0 < wbits A) by (unfold wbits; pose proof pr_wb; lia).
  rewrite !Z.shiftr_div_pow2 by lia. set (m := 2 ^ wbits A) in *. assert (Hm : 0 < m) by lia.
  split; [by rewrite Zplus_mod_idemp_l|].
  rewrite Zplus_mod_idemp_l. f_equal.
  pose proof (Z.div_mod t m ltac:(lia)) as D. pose proof (Z.mod_pos_bound t m Hm) as B.
  set (q := t / m) in *. set (r := t mod m) in *.
  destruct (Z.lt_ge_cases (r + inc) m) as [Hlt|Hge].
  - rewrite (Z.mod_small (r + inc) m) by lia. destruct (Z.ltb_spec (r + inc) inc); [lia|].
    apply (Z.div_unique_pos _ _ _ (r + inc)); lia.
  - assert (E : (r + inc) mod m = r + inc - m) by (symmetry; apply (Z.mod_unique_pos _ _ 1); lia). rewrite E.
    destruct (Z.ltb_spec (r + inc - m) inc); [|lia]. apply (Z.div_unique_pos _ _ _ (r + inc - m)); lia.
Qed.

Lemma compress_F st block t : counts st t -> bs_f1 st = 0 -> bs_f0 st = 0 \/ bs_f0 st = all_ones A ->
  length (bs_h st) = 8%nat ->
  bs_h (compress A st block) = rfc_F (bs_h st) block t (negb (bs_f0 st =? 0)).
Proof.
  intros [E0 E1] Hf1 Hf0 Hh. unfold compress, rfc_F. cbn [bs_h]. rewrite E0, E1, Hf1.
  pose proof pr_iv as Hiv. destruct (bs_h st) as [|h0 [|h1 [|h2 [|h3 [|h4 [|h5 [|h6 [|h7 [|]]]]]]]]]; try discriminate Hh.
  destruct (b_iv A) as [|i0 [|i1 [|i2 [|i3 [|i4 [|i5 [|i6 [|i7 [|]]]]]]]]]; try discriminate Hiv.
  assert (Hone : (all_ones A =? 0) = false).
  { apply Z.eqb_neq. unfold all_ones, uw, wrap. assert (0 < wbits A) by (unfold wbits; pose proof pr_wb; lia).
    assert (1 < 2 ^ wbits A) by (apply Z.pow_gt_1; lia).
    rewrite <- (Z.mod_unique_pos (-1) (2 ^ wbits A) (-1) (2 ^ wbits A - 1)); lia. }
  cbn [app take]. change (znth 0 [i0; i1; i2; i3; i4; i5; i6; i7] 4) with i4.
  change (znth 0 [i0; i1; i2; i3; i4; i5; i6; i7] 5) with i5.
  change (znth 0 [i0; i1; i2; i3; i4; i5; i6; i7] 6) with i6.
  change (znth 0 [i0; i1; i2; i3; i4; i5; i6; i7] 7) with i7.
  rewrite (Z.lxor_comm _ i4), (Z.lxor_comm _ i5), (Z.lxor_comm _ i6), Z.lxor_0_l.
  destruct Hf0 as [-> | ->]; rewrite ?Hone; cbn [negb Z.eqb]; [rewrite Z.lxor_0_r|]; reflexivity.
Qed.

Lemma G_len m row i a b c d v : length (G A m row i a b c d v) = length v.
Proof.
  assert (H : forall (l : list Z) i x, length (zupd l i x) = length l).
  { intros l j x. unfold zupd. destruct (j <? 0); [done|apply length_insert]. }
  unfold G. destruct (b_rot A) as [[[r1 r2] r3] r4]. cbn zeta. by rewrite !H.
Qed.

Lemma rounds_len m rows v : length (foldl (ROUND A m) v rows) = length v.
Proof.
  revert v. induction rows as [|row rows IH]; intros v; [done|]. cbn [foldl]. rewrite IH. unfold ROUND. cbn zeta.
  by rewrite !G_len.
Qed.

Lemma compress_len st block : length (bs_h st) = 8%nat -> length (bs_h (compress A st block)) = 8%nat.
Proof.
  intros H. unfold compress. cbn [bs_h]. rewrite !length_zip_with, length_take, length_drop, rounds_len.
  rewrite !length_app, length_take, H, pr_iv. reflexivity.
Qed.

Definition flags_clear (st : blake2_state) : Prop := bs_f0 st = 0 /\ bs_f1 st = 0 /\ bs_last_node st = false.

(** What stays valid of a state between blocks. *)
Definition running (st : blake2_state) (t : Z) : Prop :=
  counts st t /\ 0 <= t /\ length (bs_h st) = 8%nat /\ flags_clear st.

(** Compressing one more block. *)
Lemma block_step st t block : running st t -> zlen block = bb ->
  let st' := compress A (increment_counter A st bb) block in
  running st' (t + bb) /\
  forall X, 0 < zlen X -> rfc_from (bs_h st) t (block ++ X) = rfc_from (bs_h st') (t + bb) X.
Proof.
  intros (Hc & Ht & Hh & Hf0 & Hf1 & Hn) Hb. pose proof bb_pos. pose proof pr_small. cbn zeta.
  pose proof (increment_counts st t bb Hc Ht ltac:(lia)) as Hc'.
  split; [split; [exact Hc'|]; split; [lia|]; split; [by apply compress_len|done]|].
  intros X HX. rewrite rfc_from_block by done.
  rewrite (compress_F (increment_counter A st bb) block (t + bb)); [|done|done|by left|done].
  cbn [increment_counter bs_f0 bs_h]. by rewrite Hf0.
Qed.

(** The loop over whole blocks, on a nonempty rest. *)
Lemma update_loop_ok fuel : forall st t data, (length data <= fuel)%nat -> 0 < zlen data -> running st t ->
  let '(st', data') := blake2_update_loop A fuel st data in
  exists t', running st' t' /\ 0 < zlen data' <= bb /\
    bs_buf st' = bs_buf st /\ bs_buflen st' = bs_buflen st /\ bs_outlen st' = bs_outlen st /\
    (forall X, rfc_from (bs_h st) t (data ++ X) = rfc_from (bs_h st') t' (data' ++ X)).
Proof.
  pose proof bb_pos as Hbb. induction fuel as [|fuel IH]; intros st t data Hf Hd R; cbn [blake2_update_loop].
  { unfold zlen in Hd. lia. }
  destruct (Z.ltb_spec bb (zlen data)) as [Hlt|Hge].
  2:{ exists t. split; [done|]. split; [lia|]. done. }
  set (block := take (Z.to_nat bb) data). set (data' := drop (Z.to_nat bb) data).
  assert (Hbl : zlen block = bb) by (unfold block, zlen in *; rewrite length_take; lia).
  assert (Hdl : zlen data' = zlen data - bb) by (unfold data', zlen in *; rewrite length_drop; lia).
  assert (Hsplit : data = block ++ data') by (symmetry; apply take_drop).
  destruct (block_step st t block R Hbl) as [R1 C1]. set (st1 := compress _ _ _) in *.
  specialize (IH st1 (t + bb) data' ltac:(unfold zlen in *; lia) ltac:(lia) R1).
  destruct (blake2_update_loop A fuel st1 data') as [st' d']. destruct IH as (t' & R' & Hd' & Eb & El & Eo & C').
  exists t'. split; [done|]. split; [done|]. split; [done|]. split; [done|]. split; [done|].
  intros X. rewrite Hsplit, <- app_assoc, C1 by (rewrite zlen_app; pose proof (zlen_nonneg X); lia). apply C'.
Qed.

(** The state stands for the message [M]: whatever follows, hashing continues from
    the kept tail. *)
Record stands_for (h0 : list Z) (outlen : Z) (st : blake2_state) (M : list Z) (t : Z) (tail : list Z) : Prop := {
  sf_run : running st t;
  sf_out : bs_outlen st = outlen;
  sf_buf : zlen (bs_buf st) = bb;
  sf_len : bs_buflen st = zlen tail /\ zlen tail <= bb;
  sf_tail : take (length tail) (bs_buf st) = tail;
  sf_cont : forall X, rfc_from h0 0 (M ++ X) = rfc_from (bs_h st) t (tail ++ X);
}.

Lemma blake2_update_ok h0 outlen st M t tail data : stands_for h0 outlen st M t tail ->
  exists t' tail', stands_for h0 outlen (blake2_Update A st data) (M ++ data) t' tail'.
Proof.
  intros [R Ho Hbuf [Hl Hle] Htail Hcont]. pose proof bb_pos as Hbb. unfold blake2_Update.
  destruct (Z.ltb_spec 0 (zlen data)) as [Hd|Hd].
  2:{ exists t, tail. destruct data; [|rewrite zlen_cons in Hd; pose proof (zlen_nonneg data); lia].
      rewrite app_nil_r. by split. }
  rewrite Hl. destruct (Z.ltb_spec (bb - zlen tail) (zlen data)) as [Hlt|Hge].
  - set (fill := Z.to_nat (bb - zlen tail)). set (st1 := set_buf st _ 0).
    assert (Hblk : bs_buf st1 = tail ++ take fill data).
    { unfold st1. cbn [set_buf bs_buf]. unfold zlen in *.
      rewrite memcpy_full by (rewrite length_take; unfold fill, zlen; lia). rewrite Nat2Z.id. by rewrite Htail. }
    assert (Hbz : zlen (tail ++ take fill data) = bb).
    { rewrite zlen_app. unfold zlen in *. rewrite length_take. unfold fill, zlen in *. lia. }
    assert (R1 : running st1 t) by exact R. rewrite Hblk.
    destruct (block_step st1 t (tail ++ take fill data) R1 Hbz) as [R2 C2]. set (st2 := compress _ _ _) in *.
    set (data' := drop fill data).
    assert (Hdl : 0 < zlen data' /\ (length data' <= length data)%nat).
    { unfold data', zlen in *. rewrite length_drop. unfold fill, zlen in *. lia. }
    pose proof (update_loop_ok (length data) st2 (t + bb) data' ltac:(lia) ltac:(lia) R2) as L.
    destruct (blake2_update_loop A (length data) st2 data') as [st3 d3].
    destruct L as (t3 & R3 & Hd3 & Eb & El & Eo & C3).
    assert (Eb' : bs_buf st3 = tail ++ take fill data) by (rewrite Eb; exact Hblk).
    exists t3, d3. cbn [set_buf bs_buflen bs_buf]. rewrite El. change (bs_buflen st2) with 0. split.
    + exact R3.
    + cbn [bs_outlen set_buf]. rewrite Eo. exact Ho.
    + cbn [bs_buf set_buf]. rewrite Eb'. change (Z.to_nat 0) with O. unfold zlen in *. rewrite length_memcpy; lia.
    + cbn [bs_buflen set_buf]. lia.
    + cbn [bs_buf set_buf]. rewrite Eb'. change (Z.to_nat 0) with O.
      pose proof (take_memcpy (tail ++ take fill data) d3 O ltac:(lia)) as T. exact T.
    + intros X. cbn [bs_h set_buf]. rewrite <- C3, <- app_assoc, Hcont.
      change (bs_h st) with (bs_h st1). rewrite <- (take_drop fill data) at 1. rewrite <- app_assoc, app_assoc. fold data'.
      apply C2. rewrite zlen_app. pose proof (zlen_nonneg X). lia.
  - rewrite Hl. exists t, (tail ++ data). split.
    + exact R.
    + exact Ho.
    + cbn [bs_buf set_buf]. unfold zlen in *. rewrite length_memcpy; lia.
    + cbn [bs_buflen set_buf]. rewrite zlen_app. split; [lia|unfold zlen in *; lia].
    + cbn [bs_buf set_buf]. rewrite length_app. unfold zlen in *. rewrite Nat2Z.id, take_memcpy by lia. by rewrite Htail.
    + intros X. cbn [bs_h set_buf]. by rewrite <- !app_assoc, Hcont.
Qed.

Lemma updates_ok h0 outlen chunks : forall st M t tail, stands_for h0 outlen st M t tail ->
  exists t' tail', stands_for h0 outlen (foldl (blake2_Update A) st chunks) (M ++ concat chunks) t' tail'.
Proof.
  induction chunks as [|c chunks IH]; intros st M t tail S; cbn [foldl concat].
  - exists t, tail. by rewrite app_nil_r.
  - destruct (blake2_update_ok _ _ _ _ _ _ c S) as (t1 & tail1 & S1). destruct (IH _ _ _ _ S1) as (t2 & tail2 & S2).
    exists t2, tail2. by rewrite app_assoc.
Qed.

Lemma final_h h0 outlen st M t tail : stands_for h0 outlen st M t tail ->
  let st1 := set_lastblock A (increment_counter A st (bs_buflen st)) in
  bs_h (compress A st1 (memcpy (bs_buf st1) (Z.to_nat (bs_buflen st1)) (zrep (bb - bs_buflen st1) 0)))
  = rfc_from h0 0 M.
Proof.
  intros [(Hc & Ht & Hh & F0 & F1 & FL) Ho Hbuf [Hl Hle] Htail Hcont]. cbn zeta. pose proof bb_pos. pose proof pr_small.
  pose proof (increment_counts st t (zlen tail) Hc Ht ltac:(pose proof (zlen_nonneg tail); lia)) as Hc'.
  specialize (Hcont []). rewrite !app_nil_r in Hcont. rewrite Hcont, rfc_from_last by done. rewrite Hl.
  unfold set_lastblock. cbn [increment_counter bs_buf bs_buflen bs_last_node bs_f1 bs_h bs_t0 bs_t1 bs_outlen].
  assert (Hblk : memcpy (bs_buf st) (Z.to_nat (zlen tail)) (zrep (bb - zlen tail) 0) = pad tail).
  { unfold zlen in *. rewrite memcpy_full by (unfold zrep; rewrite length_replicate; lia). rewrite Nat2Z.id, Htail. done. }
  rewrite ?Hl, Hblk, FL.
  match goal with |- bs_h (compress A ?s _) = _ => rewrite (compress_F s (pad tail) (t + zlen tail)) end; cbn [bs_h bs_f0 bs_f1];
    [|exact Hc'|done|by right|done].
  assert (Hone : (all_ones A =? 0) = false).
  { apply Z.eqb_neq. unfold all_ones, uw, wrap. assert (0 < wbits A) by (unfold wbits; pose proof pr_wb; lia).
    assert (1 < 2 ^ wbits A) by (apply Z.pow_gt_1; lia).
    rewrite <- (Z.mod_unique_pos (-1) (2 ^ wbits A) (-1) (2 ^ wbits A - 1)); lia. }
  by rewrite Hone.
Qed.

Lemma length_words_of wb n bs : length (words_of wb n bs) = n.
Proof. revert bs. induction n as [|n IH]; intros bs; [done|]. cbn [words_of length]. by rewrite IH. Qed.

Lemma init_ok P : stands_for (zip_with Z.lxor (b_iv A) (words_of (b_wb A) 8 P)) (znth 0 P 0) (init_param A P) [] 0 [].
Proof.
  pose proof bb_pos. split.
  - split; [split; cbn; unfold uw, wrap; by rewrite ?Z.shiftr_0_l, Zmod_0_l|]. split; [lia|]. split; [|done].
    cbn [init_param bs_h init0]. by rewrite length_zip_with, length_words_of, pr_iv.
  - done.
  - cbn [init_param bs_buf init0]. rewrite zlen_zrep; lia.
  - split; [done|]. change (zlen (@nil Z)) with 0. lia.
  - done.
  - done.
Qed.

Lemma final_ok h0 nn st M t tail : stands_for h0 nn st M t tail -> 0 < nn <= outbytes A ->
  b_copied A nn nn = nn -> blake2_Final A st nn = Digest (take (Z.to_nat nn) (bytes_of (b_wb A) (rfc_from h0 0 M))).
Proof.
  intros S Hn Hcp. pose proof (final_h h0 nn st M t tail S) as E. cbn zeta in E.
  destruct S as [(Hc & Ht & Hh & F0 & F1 & FL) Ho Hbuf Hl Htail Hcont].
  unfold blake2_Final, is_lastblock. rewrite Ho, F0. destruct (Z.ltb_spec nn nn); [lia|]. cbn [negb Z.eqb].
  set (st1 := set_lastblock A (increment_counter A st (bs_buflen st))) in *.
  set (st2 := set_buf st1 _ _). assert (E2 : bs_h (compress A st2 (bs_buf st2)) = rfc_from h0 0 M) by exact E.
  assert (Eo : bs_outlen (compress A st2 (bs_buf st2)) = nn) by exact Ho. rewrite Eo, Hcp.
  assert (Hl8 : length (bs_h (compress A st2 (bs_buf st2))) = 8%nat) by (by apply compress_len).
  assert (Hb : zlen (bytes_of (b_wb A) (bs_h (compress A st2 (bs_buf st2)))) = outbytes A).
  { rewrite zlen_bytes_of_words. unfold zlen, outbytes. rewrite Hl8. lia. }
  rewrite Hb. destruct (Z.ltb_spec (outbytes A) nn); [lia|]. by rewrite E2.
Qed.

(** The three ways to start. *)
Definition start (nn : Z) (key : list Z) : option blake2_state :=
  if zlen key =? 0 then blake2_Init A nn else blake2_InitKey A nn (Some key).

Context (Hparam : forall nn kk p, znth 0 (b_param A nn kk p) 0 = nn) (Hcopied : forall nn, b_copied A nn nn = nn)
  (Hout : outbytes A < 256).

Lemma start_ok nn key : 0 < nn <= outbytes A -> zlen key <= keybytes A ->
  exists st t tail, start nn key = Some st /\
    stands_for (zip_with Z.lxor (b_iv A) (words_of (b_wb A) 8 (b_param A nn (zlen key) (zrep (b_personal_len A) 0))))
      nn st (if zlen key =? 0 then [] else pad key) t tail.
Proof.
  intros Hn Hk. pose proof (zlen_nonneg key) as H0. unfold start, blake2_Init, blake2_InitKey.
  destruct (Z.eqb_spec nn 0); [lia|]. destruct (Z.ltb_spec (outbytes A) nn); [lia|]. cbn [orb].
  rewrite (u8_small nn) by lia. destruct (Z.eqb_spec (zlen key) 0) as [Ek|Ek].
  - rewrite Ek. pose proof (init_ok (b_param A nn 0 (zrep (b_personal_len A) 0))) as I. rewrite Hparam in I. by eexists _, _, _.
  - destruct (Z.ltb_spec (keybytes A) (zlen key)); [lia|]. cbn [orb].
    rewrite (u8_small (zlen key)) by (unfold keybytes in *; lia).
    pose proof (init_ok (b_param A nn (zlen key) (zrep (b_personal_len A) 0))) as I. rewrite Hparam in I.
    destruct (blake2_update_ok _ _ _ _ _ _ (pad key) I) as (t & tail & S). by exists (blake2_Update A
      (init_param A (b_param A nn (zlen key) (zrep (b_personal_len A) 0))) (pad key)), t, tail.
Qed.

Lemma blake2_stream nn key chunks : 0 < nn <= outbytes A -> zlen key <= keybytes A ->
  exists st, start nn key = Some st /\
    blake2_Final A (foldl (blake2_Update A) st chunks) nn = Digest (rfc7693 nn key (concat chunks)).
Proof.
  intros Hn Hk. destruct (start_ok nn key Hn Hk) as (st & t & tail & E & S). exists st. split; [done|].
  destruct (updates_ok _ _ chunks _ _ _ _ S) as (t' & tail' & S').
  rewrite (final_ok _ nn _ _ _ _ S') by auto. unfold rfc7693. by destruct (zlen key =? 0).
Qed.

End Spec.

#[global] Instance blake2s_params : Params blake2s_alg.
Proof. split; [cbn; lia|reflexivity|reflexivity]. Qed.
#[global] Instance blake2b_params : Params blake2b_alg.
Proof. split; [cbn; lia|reflexivity|reflexivity]. Qed.

(** A length above 32 passes the check of [blake2s_Final] and is copied from a local
    buffer of 32 bytes; [blake2b_Final] copies the length given to its Init. *)
Lemma blake2s_final_overread st outlen : 32 < outlen -> bs_outlen st <= 32 -> bs_f0 st = 0 ->
  length (bs_h st) = 8%nat -> blake2s_Final st outlen = Overread.
Proof.
  intros Ho Hs Hf Hh. unfold blake2s_Final, blake2_Final, is_lastblock. rewrite Hf.
  destruct (Z.ltb_spec outlen (bs_outlen st)); [lia|]. cbn [negb Z.eqb]. cbn zeta.
  set (st2 := set_buf _ _ _). set (st3 := compress _ _ _).
  assert (Hl8 : length (bs_h st3) = 8%nat) by (apply (compress_len blake2s_alg); exact Hh).
  assert (Hb : zlen (bytes_of 4 (bs_h st3)) = 32).
  { rewrite zlen_bytes_of_words. unfold zlen. by rewrite Hl8. }
  cbn [b_wb blake2s_alg b_copied]. rewrite Hb. by destruct (Z.ltb_spec 32 outlen); [|lia].
Qed.

(** ** Properties *)

(** BLAKE2s, with or without a key, fed in any chunks, returns the digest of
    RFC 7693 of the whole message; in particular the block that is kept back and the
    counter in two words are right at every block boundary. *)
Theorem blake2s_correct nn key chunks : 0 < nn <= 32 -> zlen key <= 32 ->
  exists st, (if zlen key =? 0 then blake2s_Init nn else blake2s_InitKey nn (Some key)) = Some st /\
    blake2s_Final (foldl blake2s_Update st chunks) nn = Digest (rfc7693 blake2s_alg nn key (concat chunks)).
Proof. intros Hn Hk. by apply (blake2_stream blake2s_alg). Qed.

Lemma blake2s_correct_witness :
  exists st, blake2s_Init 32 = Some st /\
    blake2s_Final (foldl blake2s_Update st [[97]; [98; 99]]) 32 = Digest (rfc7693 blake2s_alg 32 [] [97; 98; 99]).
Proof. exact (blake2s_correct 32 [] [[97]; [98; 99]] ltac:(lia) ltac:(discriminate)). Defined.

(** BLAKE2b, with or without a key, fed in any chunks, returns the digest of
    RFC 7693 of the whole message. *)
Theorem blake2b_correct nn key chunks : 0 < nn <= 64 -> zlen key <= 64 ->
  exists st, (if zlen key =? 0 then blake2b_Init nn else blake2b_InitKey nn (Some key)) = Some st /\
    blake2b_Final (foldl blake2b_Update st chunks) nn = Digest (rfc7693 blake2b_alg nn key (concat chunks)).
Proof. intros Hn Hk. by apply (blake2_stream blake2b_alg). Qed.

Lemma blake2b_correct_witness :
  exists st, blake2b_InitKey 64 (Some [1; 2]) = Some st /\
    blake2b_Final (foldl blake2b_Update st [[97]; [98; 99]]) 64 = Digest (rfc7693 blake2b_alg 64 [1; 2] [97; 98; 99]).
Proof. exact (blake2b_correct 64 [1; 2] [[97]; [98; 99]] ltac:(lia) ltac:(discriminate)). Defined.

End Blake2Spec.
