(* ===== verification/Image.v ===== *)
(** * Firmware images: [core/embed/trezorhal/image.c]

    Parsing and checking of vendor and image headers, the signature check and the
    hashes of the code.  Reads are bounded by the memory that holds the data: a read
    past it is [OutOfBounds].  [size_t] has 32 bits on the device.  The ed25519
    functions are parameters: combining public keys and opening a signature. *)

From stdpp Require Import base list numbers strings.
From Stdlib Require Import ZArith Lia.
From S2P Require Import Prelude Hash Blake2 Blake2Spec.
Local Open Scope fw_scope.

Module Image.
Import Hash Blake2.

(** ** Results of checks *)

Inductive res (A : Type) := Val (a : A) | Refused | OutOfBounds.
Arguments Val {A}. Arguments Refused {A}. Arguments OutOfBounds {A}.

#[global] Instance res_ret : MRet res := fun A a => Val a.
#[global] Instance res_bind : MBind res := fun A B f m =>
  match m with Val a => f a | Refused => Refused | OutOfBounds => OutOfBounds end.

(** The read of [len] bytes at [off] from the memory at a pointer. *)
Definition read (data : list Z) (off len : Z) : res (list Z) :=
  if (off <? 0) || (len <? 0) || (zlen data <? off + len) then OutOfBounds else Val (slice data off len).

Definition read_word (n : Z) (data : list Z) (off : Z) : res Z := bs ← read data off n; mret (le_val bs).

(** [if (!b) return secfalse;] *)
Definition require (b : bool) : res unit := if b then Val () else Refused.

(** ** Constants *)

Definition IMAGE_HEADER_SIZE : Z := 0x400.
Definition IMAGE_SIG_SIZE : Z := 65.
Definition VENDOR_HEADER_MAX_SIZE : Z := 64 * 1024.
Definition IMAGE_CHUNK_SIZE : Z := 128 * 1024.
Definition BOOTLOADER_SECTORS_COUNT : Z := 2.
Definition FIRMWARE_INNER_SECTORS_COUNT : Z := 12.
Definition FLASH_FIRMWARE_SECTOR_SIZE : Z := 128 * 1024.
Definition FMC_SDRAM_FIRMWARE_P2_LEN : Z := 4 * 1024 * 1024.
Definition BOOTLOADER_IMAGE_MAGIC : Z := 0x42324354.
Definition BOOTLOADER_IMAGE_MAXSIZE : Z := BOOTLOADER_SECTORS_COUNT * IMAGE_CHUNK_SIZE.
Definition FIRMWARE_IMAGE_MAGIC : Z := 0x46324354.
Definition FIRMWARE_IMAGE_INNER_SIZE : Z := FIRMWARE_INNER_SECTORS_COUNT * IMAGE_CHUNK_SIZE.
Definition FIRMWARE_IMAGE_MAXSIZE : Z := FIRMWARE_IMAGE_INNER_SIZE + FMC_SDRAM_FIRMWARE_P2_LEN.
Definition MAX_VENDOR_PUBLIC_KEYS : Z := 8.
Definition BLAKE2S_DIGEST_LENGTH : Z := 32.

(** ** Headers *)

Record image_header := ImageHeader {
  ih_magic : Z; ih_hdrlen : Z; ih_expiry : Z; ih_codelen : Z;
  ih_version : Z; ih_fix_version : Z; ih_onekey_version : Z; ih_hash_block : Z;
  ih_hashes : list Z;
  ih_purpose : Z; ih_se_minimum_version : Z;
  ih_sigmask : Z; ih_sig : list Z; ih_fingerprint : list Z;
}.

(** The pointers of a vendor header are offsets into the data. *)
Record vendor_header := VendorHeader {
  vh_magic : Z; vh_hdrlen : Z; vh_expiry : Z; vh_version : Z;
  vh_vsig_m : Z; vh_vsig_n : Z; vh_vtrust : Z;
  vh_vpub : list (option Z);
  vh_vstr_len : Z; vh_vstr : Z; vh_vimg : Z;
  vh_sigmask : Z; vh_sig : list Z;
}.

Record image_header_th89 := ImageHeaderTh89 {
  th_magic : Z; th_hdrlen : Z; th_expiry : Z; th_codelen : Z; th_version : Z;
  th_i2c_address : Z; th_hashes : list Z; th_sig1 : list Z;
}.

(** Init, Update of each chunk and Final of BLAKE2s with a 32-byte digest. *)
Definition blake2s_chunks (chunks : list (list Z)) : list Z :=
  match blake2s_Init BLAKE2S_DIGEST_LENGTH with
  | Some st =>
      match blake2s_Final (foldl blake2s_Update st chunks) BLAKE2S_DIGEST_LENGTH with
      | Digest d => d
      | _ => []
      end
  | None => []
  end.

(** The header with its signature replaced by zeros, as it is hashed. *)
Definition header_chunks (signed : list Z) : list (list Z) :=
  signed :: replicate (Z.to_nat IMAGE_SIG_SIZE) [0].

Definition popcount (n : nat) (x : Z) : Z :=
  foldr (fun i acc => Z.b2z (Z.testbit x (Z.of_nat i)) + acc) 0 (seq 0 n).

Section Signed.
Context (cosi_combine_publickeys : list (list Z) -> option (list Z)).
Context (sign_open : list Z -> list Z -> list Z -> bool).

(** The keys whose bit is set, in the order of the array. *)
Definition selected_keys (sig_n : Z) (sigmask : Z) (pub : list (list Z)) : list (list Z) :=
  map (fun i => znth [] pub i) (filter (fun i => Z.testbit sigmask i = true) (seqZ 0 sig_n)).

Definition compute_pubkey (sig_m sig_n : Z) (pub : list (list Z)) (sigmask : Z) : res (list Z) :=
  if (sig_m =? 0) || (sig_n =? 0) then Refused
  else if sig_n <? sig_m then Refused
  else
    let sigmask := sigmask .& (Z.shiftl 1 sig_n - 1) in
    if negb (popcount 8 sigmask =? sig_m) then Refused
    else
      match cosi_combine_publickeys (selected_keys sig_n sigmask pub) with
      | Some res => Val res
      | None => Refused
      end.

Definition load_image_header (data : list Z) (magic maxsize key_m key_n : Z) (keys : list (list Z))
    : res image_header :=
  hmagic ← read_word 4 data 0; require (hmagic =? magic) ≫= fun _ =>
  hdrlen ← read_word 4 data 4; require (hdrlen =? IMAGE_HEADER_SIZE) ≫= fun _ =>
  expiry ← read_word 4 data 8; require (expiry =? 0) ≫= fun _ =>
  codelen ← read_word 4 data 12;
  require (negb (u32 (maxsize - hdrlen) <? codelen)) ≫= fun _ =>
  require (negb (u32 (hdrlen + codelen) <? 4 * 1024)) ≫= fun _ =>
  require (u32 (hdrlen + codelen) mod 512 =? 0) ≫= fun _ =>
  version ← read_word 4 data 16;
  fix_version ← read_word 4 data 20;
  onekey_version ← read_word 4 data 24;
  hash_block ← read_word 4 data 28;
  hashes ← read data 32 512;
  purpose ← read_word 4 data 544;
  se_minimum_version ← read_word 4 data 548;
  sigmask ← read_word 1 data (IMAGE_HEADER_SIZE - IMAGE_SIG_SIZE);
  sig ← read data (IMAGE_HEADER_SIZE - IMAGE_SIG_SIZE + 1) (IMAGE_SIG_SIZE - 1);
  signed ← read data 0 (IMAGE_HEADER_SIZE - IMAGE_SIG_SIZE);
  let fingerprint := blake2s_chunks (header_chunks signed) in
  pub ← compute_pubkey key_m key_n keys sigmask;
  require (sign_open fingerprint pub sig) ≫= fun _ =>
  mret (ImageHeader hmagic hdrlen expiry codelen version fix_version onekey_version hash_block
          hashes purpose se_minimum_version sigmask sig fingerprint).

(** The fields that [load_ble_image_header] does not read are zero here. *)
Definition load_ble_image_header (data : list Z) (magic : Z) : res image_header :=
  hmagic ← read_word 4 data 0; require (hmagic =? magic) ≫= fun _ =>
  hdrlen ← read_word 4 data 4;
  expiry ← read_word 4 data 8; require (expiry =? 0) ≫= fun _ =>
  codelen ← read_word 4 data 12;
  version ← read_word 4 data 16;
  fix_version ← read_word 4 data 20;
  onekey_version ← read_word 4 data 24;
  hashes ← read data 32 512;
  sigmask ← read_word 1 data (IMAGE_HEADER_SIZE - IMAGE_SIG_SIZE);
  sig ← read data (IMAGE_HEADER_SIZE - IMAGE_SIG_SIZE + 1) (IMAGE_SIG_SIZE - 1);
  mret (ImageHeader hmagic hdrlen expiry codelen version fix_version onekey_version 0
          hashes 0 0 sigmask sig []).

Definition load_thd89_image_header (data : list Z) (magic : Z) : res image_header_th89 :=
  hmagic ← read_word 4 data 0; require (hmagic =? magic) ≫= fun _ =>
  hdrlen ← read_word 4 data 4;
  expiry ← read_word 4 data 8;
  version ← read_word 4 data 16;
  i2c_address ← read_word 1 data 28;
  codelen ← read_word 4 data 12;
  hashes ← read data 32 512;
  sig1 ← read data (32 + 512) 64;
  mret (ImageHeaderTh89 hmagic hdrlen expiry codelen version i2c_address hashes sig1).

(** [addr] is the address of [data], for the alignment of the image pointer. *)
Definition read_vendor_header (addr : Z) (data : list Z) (data_size : Z) : res vendor_header :=
  require (negb (data_size <? 33)) ≫= fun _ =>
  magic ← read_word 4 data 0; require (magic =? 0x56544B4F) ≫= fun _ =>
  hdrlen ← read_word 4 data 4;
  require (negb ((hdrlen <? IMAGE_SIG_SIZE) || (VENDOR_HEADER_MAX_SIZE <? hdrlen) || (data_size <? hdrlen)))
    ≫= fun _ =>
  expiry ← read_word 4 data 8; require (expiry =? 0) ≫= fun _ =>
  version ← read_word 2 data 12;
  vsig_m ← read_word 1 data 14;
  vsig_n ← read_word 1 data 15;
  vtrust ← read_word 2 data 16;
  require (negb (MAX_VENDOR_PUBLIC_KEYS <? vsig_n)) ≫= fun _ =>
  let signature_offset := hdrlen - IMAGE_SIG_SIZE in
  let vstr_len_offset := 32 + vsig_n * 32 in
  require (negb (signature_offset <=? vstr_len_offset)) ≫= fun _ =>
  let vpub := map (fun i => if i <? vsig_n then Some (32 + i * 32) else None)
                (seqZ 0 MAX_VENDOR_PUBLIC_KEYS) in
  vstr_len ← read_word 1 data vstr_len_offset;
  let vstr_offset := vstr_len_offset + 1 in
  require (negb (u32 (signature_offset - vstr_offset) <? vstr_len)) ≫= fun _ =>
  let vimg := vstr_offset + vstr_len in
  let vimg := vimg + (u32 (- (addr + vimg)) .& 3) in
  require (negb (signature_offset <? vimg)) ≫= fun _ =>
  sigmask ← read_word 1 data signature_offset;
  sig ← read data (signature_offset + 1) (IMAGE_SIG_SIZE - 1);
  mret (VendorHeader magic hdrlen expiry version vsig_m vsig_n vtrust vpub vstr_len vstr_offset vimg
          sigmask sig).

Definition load_vendor_header (addr : Z) (data : list Z) (data_size key_m key_n : Z) (keys : list (list Z))
    : res vendor_header :=
  vhdr ← read_vendor_header addr data data_size;
  signed ← read data 0 (vh_hdrlen vhdr - IMAGE_SIG_SIZE);
  let hash := blake2s_chunks (header_chunks signed) in
  pub ← compute_pubkey key_m key_n keys (vh_sigmask vhdr);
  require (sign_open hash pub (vh_sig vhdr)) ≫= fun _ => mret vhdr.

(** "OneKey Vendor Header" *)
Definition vendor_label : list Z :=
  [79; 110; 101; 75; 101; 121; 32; 86; 101; 110; 100; 111; 114; 32; 72; 101; 97; 100; 101; 114].

Definition vendor_header_hash (data : list Z) (vhdr : vendor_header) : res (list Z) :=
  vstr ← read data (vh_vstr vhdr) (vh_vstr_len vhdr);
  mret (blake2s_chunks [vstr; vendor_label]).

(** ** The hashes of the code *)

Definition check_single_hash (hash data : list Z) : bool :=
  match blake2s data BLAKE2S_DIGEST_LENGTH with
  | Digest h => bool_decide (h = hash)
  | _ => false
  end.

(** [for (i = block; i < 16; i++)]: the remaining hashes are zero. *)
Definition remain_zero (hashes : list Z) (block : Z) : bool :=
  forallb (fun i => bool_decide (slice hashes (i * 32) 32 = zrep 32 0)) (seqZ block (16 - block)).

(** [while (true)]; [first] is the size of the first chunk of the image that is
    code. *)
Fixpoint contents_loop (fuel : nat) (hashes code : list Z) (first chunk len : Z) (check_remain : bool)
    (block processed : Z) : res unit :=
  match fuel with
  | O => Refused
  | S fuel =>
      let size := if (processed =? 0) && (block =? 0) then Z.min (u32 (len - processed)) first
                  else Z.min (u32 (len - processed)) chunk in
      hash ← read hashes (block * 32) 32;
      data ← read code processed size;
      if check_single_hash hash data then
        let block := block + 1 in
        let processed := processed + size in
        if len <=? processed then
          require (negb check_remain || remain_zero hashes block) ≫= fun _ =>
          require (0 <? processed)
        else contents_loop fuel hashes code first chunk len check_remain block processed
      else Refused
  end.

(** Each turn but possibly the first takes at least a byte. *)
Definition contents_fuel (len : Z) : nat := S (S (Z.to_nat len)).

Definition check_image_contents_ADV (vhdr : option vendor_header) (hdr : image_header) (code : list Z)
    (code_len_skipped code_len_check : Z) (check_remain : bool) : res unit :=
  let chunk := if ih_hash_block hdr =? 0 then FLASH_FIRMWARE_SECTOR_SIZE * 2 else ih_hash_block hdr in
  let skip := u32 (match vhdr with Some v => vh_hdrlen v | None => 0 end + ih_hdrlen hdr) in
  let block := u32 (code_len_skipped + skip) / chunk in
  contents_loop (contents_fuel code_len_check) (ih_hashes hdr) code (u32 (chunk - skip)) chunk
    code_len_check check_remain block 0.

(** ** Verification of the installed images *)

(** The header that is output and whether all checks passed, with the error message. *)
Definition verify_bootloader (key_m key_n : Z) (keys : list (list Z)) (mem : list Z)
    : option image_header * (res unit * string) :=
  match load_image_header mem BOOTLOADER_IMAGE_MAGIC BOOTLOADER_IMAGE_MAXSIZE key_m key_n keys with
  | Val hdr =>
      match check_image_contents_ADV None hdr (drop (Z.to_nat (ih_hdrlen hdr)) mem) 0 (ih_codelen hdr) true with
      | Val _ => (Some hdr, (Val (), EmptyString))
      | Refused => (Some hdr, (Refused, "Bootloader code invalid!"%string))
      | OutOfBounds => (Some hdr, (OutOfBounds, EmptyString))
      end
  | Refused => (None, (Refused, "Bootloader image header invalid!"%string))
  | OutOfBounds => (None, (OutOfBounds, EmptyString))
  end.

(** What the file system and the memories hold for the second part of the code:
    whether the path can be examined, the file (its size and contents, when the read
    succeeds), the old SDRAM contents and the external flash of older hardware. *)
Record p2_source := P2Source {
  p2_info : bool;
  p2_file : option (Z * option (list Z));
  p2_sdram : list Z;
  p2_qspi : option (list Z);
}.

(** The bytes in SDRAM before they are checked, or the error message. *)
Definition load_p2 (src : p2_source) (external_size : Z) : list Z + string :=
  if negb (p2_info src) then inr "Firmware code invalid! (P2_EMMC_1)"%string
  else
    match p2_file src with
    | Some (size, contents) =>
        if negb (size =? external_size) then inr "Firmware file P2 size mismatch!"%string
        else
          match contents with
          | None => inr "Firmware code invalid! (P2_EMMC_2)"%string
          | Some bs => inl (take (Z.to_nat external_size) bs ++ drop (Z.to_nat external_size) (p2_sdram src))
          end
    | None =>
        match p2_qspi src with
        | Some bs => inl (take (Z.to_nat external_size) bs ++ drop (Z.to_nat external_size) (p2_sdram src))
        | None => inl (p2_sdram src)
        end
    end.

(** The keys a vendor header points to. *)
Definition vendor_keys (mem : list Z) (vhdr : vendor_header) : list (list Z) :=
  map (fun p => match p with Some off => slice mem off 32 | None => [] end) (vh_vpub vhdr).

(** The headers when all checks passed, the error message, and the SDRAM contents
    afterwards: code that was refused is erased. *)
Definition verify_firmware (key_m key_n : Z) (keys : list (list Z)) (addr : Z) (mem : list Z)
    (src : p2_source) : res (vendor_header * image_header) * string * list Z :=
  let fw_internal_size := FLASH_FIRMWARE_SECTOR_SIZE * FIRMWARE_INNER_SECTORS_COUNT in
  let sdram := p2_sdram src in
  match load_vendor_header addr mem VENDOR_HEADER_MAX_SIZE key_m key_n keys with
  | Refused => (Refused, "Firmware vendor header invalid!"%string, sdram)
  | OutOfBounds => (OutOfBounds, EmptyString, sdram)
  | Val vhdr =>
      match load_image_header (drop (Z.to_nat (vh_hdrlen vhdr)) mem) FIRMWARE_IMAGE_MAGIC
              FIRMWARE_IMAGE_MAXSIZE (vh_vsig_m vhdr) (vh_vsig_n vhdr) (vendor_keys mem vhdr) with
      | Refused => (Refused, "Firmware image header invalid!"%string, sdram)
      | OutOfBounds => (OutOfBounds, EmptyString, sdram)
      | Val hdr =>
          let headers := vh_hdrlen vhdr + ih_hdrlen hdr in
          match check_image_contents_ADV (Some vhdr) hdr (drop (Z.to_nat headers) mem) 0
                  (u32 (fw_internal_size - headers)) false with
          | Refused => (Refused, "Firmware code invalid! (P1)"%string, sdram)
          | OutOfBounds => (OutOfBounds, EmptyString, sdram)
          | Val _ =>
              let external_size := ih_codelen hdr - (fw_internal_size - headers) in
              if 0 <? external_size then
                if FMC_SDRAM_FIRMWARE_P2_LEN <? external_size
                then (Refused, "Firmware file P2 too large!"%string, sdram)
                else
                  match load_p2 src external_size with
                  | inr msg => (Refused, msg, sdram)
                  | inl code =>
                      match check_image_contents_ADV (Some vhdr) hdr code
                              (u32 (fw_internal_size - headers)) external_size true with
                      | Refused => (Refused, "Firmware code invalid! (P2)"%string,
                                    zrep external_size 0 ++ drop (Z.to_nat external_size) code)
                      | OutOfBounds => (OutOfBounds, EmptyString, code)
                      | Val _ => (Val (vhdr, hdr), EmptyString, code)
                      end
                  end
              else (Val (vhdr, hdr), EmptyString, sdram)
          end
      end
  end.

End Signed.
End Image.
