(* ===== verification/ImageSpec.v ===== *)
(** * Image checks: memory safety and authenticity

    The header parsers never read outside their data and return consistent offsets;
    an image that is accepted has a header signed by the required number of keys,
    and every byte of its code is covered by a hash in that header. *)

From stdpp Require Import base list numbers strings.
From Stdlib Require Import ZArith Lia.
From S2P Require Import Prelude Hash HashSpec Blake2 Blake2Spec Image.
Local Open Scope fw_scope.

Module ImageSpec.
Import Hash HashSpec Blake2 Blake2Spec Image.

(** ** Reasoning about checks *)

Lemma bind_val {A B} (m : res A) (f : A -> res B) v : (m ≫= f) = Val v -> exists a, m = Val a /\ f a = Val v.
Proof. destruct m; cbn; [by exists a|discriminate..]. Qed.

Lemma require_val b v : require b = Val v -> b = true.
Proof. by destruct b. Qed.

Lemma read_val data off len bs : read data off len = Val bs ->
  0 <= off /\ 0 <= len /\ off + len <= zlen data /\ bs = slice data off len.
Proof.
  unfold read. destruct (Z.ltb_spec off 0), (Z.ltb_spec len 0), (Z.ltb_spec (zlen data) (off + len)); cbn [orb]; try discriminate.
  intros [= <-]. done.
Qed.

Lemma read_in data off len : 0 <= off -> 0 <= len -> off + len <= zlen data -> read data off len = Val (slice data off len).
Proof. intros. unfold read. by zif. Qed.

Lemma read_out data off len : zlen data < off + len -> read data off len = OutOfBounds.
Proof. intros. unfold read. replace (zlen data <? off + len) with true by (symmetry; apply Z.ltb_lt; lia). by rewrite orb_true_r. Qed.

Lemma read_word_in n data off : 0 <= off -> 0 <= n -> off + n <= zlen data ->
  read_word n data off = Val (le_val (slice data off n)).
Proof. intros. unfold read_word. by rewrite read_in. Qed.

Lemma read_word_val n data off w : read_word n data off = Val w ->
  0 <= off /\ 0 <= n /\ off + n <= zlen data /\ w = le_val (slice data off n).
Proof.
  unfold read_word. intros H. apply bind_val in H as (bs & H & [= <-]). apply read_val in H as (? & ? & ? & ->). done.
Qed.

Lemma zlen_slice {A} (data : list A) off n : 0 <= off -> 0 <= n -> off + n <= zlen data -> zlen (slice data off n) = n.
Proof. intros. unfold slice, zlen in *. rewrite length_take, length_drop. lia. Qed.

Lemma slice_range data off n : Forall is_byte data -> 0 <= off -> 0 <= n -> off + n <= zlen data ->
  0 <= le_val (slice data off n) < 256 ^ n.
Proof.
  intros Hb Ho Hn Hl. pose proof (le_val_range (slice data off n)) as H. rewrite zlen_slice in H by done.
  apply H. by apply Forall_take, Forall_drop.
Qed.

(** Take a successful parse apart. *)
Ltac parse_step :=
  match goal with
  | H : mbind _ _ = Val _ |- _ =>
      let a := fresh "x" in let E := fresh "E" in apply bind_val in H as (a & E & H); cbn beta in H
  end.

Ltac parse_clean :=
  repeat match goal with
  | E : require _ = Val _ |- _ => apply require_val in E
  | E : read_word _ _ _ = Val _ |- _ => apply read_word_val in E as (? & ? & ? & ->)
  | E : read _ _ _ = Val _ |- _ => apply read_val in E as (? & ? & ? & ->)
  | E : negb _ = true |- _ => apply negb_true_iff in E
  | E : _ || _ = false |- _ => apply orb_false_iff in E as [? ?]
  | E : (_ <? _) = false |- _ => apply Z.ltb_ge in E
  | E : (_ <=? _) = false |- _ => apply Z.leb_gt in E
  | E : (_ =? _) = true |- _ => apply Z.eqb_eq in E
  end.

(** ** The vendor header *)

(** Consistent offsets: keys, vendor string and image lie in this order between the
    fixed fields and the signature. *)
Record vendor_layout (addr : Z) (data : list Z) (data_size : Z) (v : vendor_header) : Prop := {
  vl_hdrlen : IMAGE_SIG_SIZE <= vh_hdrlen v <= Z.min VENDOR_HEADER_MAX_SIZE data_size;
  vl_keys : 0 <= vh_vsig_n v <= MAX_VENDOR_PUBLIC_KEYS /\ length (vh_vpub v) = 8%nat;
  vl_pub : forall i, 0 <= i < vh_vsig_n v ->
    exists off, vh_vpub v !! Z.to_nat i = Some (Some off) /\ 32 <= off /\ off + 32 < vh_vstr v;
  vl_str : 0 <= vh_vstr_len v < 256 /\ vh_vstr v + vh_vstr_len v <= vh_vimg v;
  vl_img : vh_vimg v <= vh_hdrlen v - IMAGE_SIG_SIZE /\ (addr + vh_vimg v) mod 4 = 0;
}.

Lemma align_up a : 0 <= (u32 (- a) .& 3) < 4 /\ (a + (u32 (- a) .& 3)) mod 4 = 0.
Proof.
  change 3 with (Z.ones 2). rewrite Z.land_ones by lia. change (2 ^ 2) with 4. unfold u32, wrap.
  assert (E : ((- a) mod 2 ^ 32) mod 4 = (- a) mod 4).
  { change (2 ^ 32) with (4 * 2 ^ 30). rewrite Z.rem_mul_r by lia. rewrite Z.mul_comm, Z_mod_plus_full. apply Z.mod_mod. lia. }
  rewrite E. split; [apply Z.mod_pos_bound; lia|]. rewrite Zplus_mod_idemp_r. by replace (a + - a) with 0 by lia.
Qed.

Lemma vpub_nth n i : 0 <= n <= 8 -> 0 <= i < n ->
  map (fun i => if i <? n then Some (32 + i * 32) else None) (seqZ 0 8) !! Z.to_nat i = Some (Some (32 + i * 32)).
Proof.
  intros Hn Hi. rewrite list_lookup_fmap, lookup_seqZ_lt by lia. cbn. rewrite Z2Nat.id by lia. zif. done.
Qed.

Lemma val_inj {A} (a b : A) : Val a = Val b -> b = a.
Proof. by intros [= <-]. Qed.

Lemma read_vendor_header_layout addr data data_size v : Forall is_byte data ->
  read_vendor_header addr data data_size = Val v -> vendor_layout addr data data_size v.
Proof.
  intros Hb H. unfold read_vendor_header in H. repeat parse_step. apply val_inj in H. parse_clean.
  pose proof (slice_range data 15 1 Hb ltac:(lia) ltac:(lia) ltac:(lia)) as Hn.
  pose proof (slice_range data 4 4 Hb ltac:(lia) ltac:(lia) ltac:(lia)) as Hh.
  pose proof (slice_range data (32 + le_val (slice data 15 1) * 32) 1 Hb ltac:(lia) ltac:(lia) ltac:(lia)) as Hs.
  set (n := le_val (slice data 15 1)) in *. set (hl := le_val (slice data 4 4)) in *.
  set (s := le_val (slice data (32 + n * 32) 1)) in *.
  destruct (align_up (addr + (32 + n * 32 + 1 + s))) as [Ha Hm].
  unfold IMAGE_SIG_SIZE, VENDOR_HEADER_MAX_SIZE, MAX_VENDOR_PUBLIC_KEYS in *.
  rewrite u32_small in * by lia.
  subst v. split; cbn [vh_hdrlen vh_vsig_n vh_vpub vh_vstr vh_vstr_len vh_vimg]; unfold IMAGE_SIG_SIZE, VENDOR_HEADER_MAX_SIZE, MAX_VENDOR_PUBLIC_KEYS; try lia.
  - split; [lia|]. rewrite length_map. reflexivity.
  - intros i Hi. exists (32 + i * 32). rewrite vpub_nth by lia. split; [done|lia].
  - split; [lia|]. rewrite <- Hm. f_equal. lia.
Qed.

(** ** Reads stay inside the data *)

Definition safe {A} (m : res A) : Prop := m <> OutOfBounds.

Lemma safe_bind {A B} (m : res A) (f : A -> res B) : safe m -> (forall a, m = Val a -> safe (f a)) -> safe (m ≫= f).
Proof. intros Hm Hf. destruct m; cbn; [by apply Hf|discriminate|done]. Qed.

Lemma safe_require b : safe (require b).
Proof. by destruct b. Qed.

Lemma safe_read data off len : 0 <= off -> 0 <= len -> off + len <= zlen data -> safe (read data off len).
Proof. intros. by rewrite read_in. Qed.

Lemma safe_read_word n data off : 0 <= off -> 0 <= n -> off + n <= zlen data -> safe (read_word n data off).
Proof. intros. by rewrite read_word_in. Qed.

Lemma safe_ret {A} (a : A) : safe (mret a).
Proof. discriminate. Qed.

(** Follow the parser, keeping what each passed check says. *)
Ltac safe_step :=
  apply safe_bind; [first [apply safe_require | apply safe_read_word; lia | apply safe_read; lia]|];
  let x := fresh "x" in let E := fresh "E" in intros x E; parse_clean.

Lemma read_vendor_header_safe addr data data_size : Forall is_byte data -> data_size <= zlen data ->
  safe (read_vendor_header addr data data_size).
Proof.
  intros Hb Hs. unfold read_vendor_header. do 6 safe_step.
  pose proof (slice_range data 4 4 Hb ltac:(lia) ltac:(lia) ltac:(lia)).
  unfold IMAGE_SIG_SIZE, VENDOR_HEADER_MAX_SIZE, MAX_VENDOR_PUBLIC_KEYS in *.
  do 6 safe_step. pose proof (slice_range data 15 1 Hb ltac:(lia) ltac:(lia) ltac:(lia)).
  repeat safe_step. apply safe_ret.
Qed.

(** ** Signatures *)

(** The hash of RFC 7693. *)
Definition H256 (data : list Z) : list Z := rfc7693 blake2s_alg 32 [] data.

Lemma zupd_length {A} (l : list A) i x : length (zupd l i x) = length l.
Proof. apply Nat2Z.inj. apply zlen_zupd. Qed.

Lemma rfc_F_len h block t final : length h = 8%nat -> length (rfc_F blake2s_alg h block t final) = 8%nat.
Proof.
  intros Hh. unfold rfc_F. cbn zeta. rewrite !length_zip_with, length_take, length_drop, rounds_len.
  destruct final; rewrite !zupd_length, length_app, Hh; reflexivity.
Qed.

Lemma rfc_blocks_len fuel : forall h t data, length h = 8%nat -> length (rfc_blocks blake2s_alg fuel h t data) = 8%nat.
Proof.
  induction fuel as [|f IH]; intros h t data Hh; cbn [rfc_blocks]; [by apply rfc_F_len|].
  destruct (_ <=? _); [by apply rfc_F_len|]. by apply IH, rfc_F_len.
Qed.

Lemma H256_shape data : length (H256 data) = 32%nat /\ Forall is_byte (H256 data).
Proof.
  unfold H256, rfc7693. cbn zeta. split.
  - rewrite length_take, length_bytes_of. unfold rfc_from. rewrite rfc_blocks_len; reflexivity.
  - apply Forall_take, bytes_of_byte.
Qed.

Lemma blake2s_chunks_ok chunks : blake2s_chunks chunks = H256 (concat chunks).
Proof.
  destruct (blake2_stream blake2s_alg ltac:(reflexivity) ltac:(reflexivity) ltac:(reflexivity) 32 [] chunks) as (st & E & F); [done|done|].
  unfold blake2s_chunks, BLAKE2S_DIGEST_LENGTH. change (blake2_Init blake2s_alg 32 = Some st) in E.
  unfold blake2s_Init. rewrite E. unfold blake2s_Final, blake2s_Update. by rewrite F.
Qed.

Lemma check_single_hash_ok hash data : check_single_hash hash data = bool_decide (H256 data = hash).
Proof.
  destruct (blake2_stream blake2s_alg ltac:(reflexivity) ltac:(reflexivity) ltac:(reflexivity) 32 [] [data]) as (st & E & F); [done|done|].
  unfold check_single_hash, blake2s, blake2, BLAKE2S_DIGEST_LENGTH. change (blake2_Init blake2s_alg 32 = Some st) in E.
  rewrite E. cbn [foldl] in F. rewrite F. cbn [concat]. by rewrite app_nil_r.
Qed.

Lemma header_chunks_concat signed : concat (header_chunks signed) = signed ++ zrep IMAGE_SIG_SIZE 0.
Proof. unfold header_chunks, IMAGE_SIG_SIZE. cbn. done. Qed.

(** The indices of the keys a mask selects. *)
Definition signers (n mask : Z) : list Z := filter (fun i => Z.testbit mask i = true) (seqZ 0 n).

Lemma low_mask n mask i : 0 <= n -> 0 <= i -> Z.testbit (mask .& (Z.shiftl 1 n - 1)) i = Z.testbit mask i && (i <? n).
Proof.
  intros Hn Hi. rewrite Z.shiftl_1_l. replace (2 ^ n - 1) with (Z.ones n) by (rewrite Z.ones_equiv; lia).
  by rewrite Z.land_spec, Z.testbit_ones_nonneg.
Qed.

Lemma signers_low n mask : 0 <= n -> signers n (mask .& (Z.shiftl 1 n - 1)) = signers n mask.
Proof.
  intros Hn. unfold signers. assert (Hf : Forall (fun i => 0 <= i < n) (seqZ 0 n)).
  { apply Forall_seqZ. lia. }
  induction Hf as [|i l Hi Hl IH]; [done|]. rewrite !filter_cons, low_mask by lia. zif. rewrite andb_true_r, IH. done.
Qed.

Lemma count_bits x l : Z.of_nat (length (filter (fun i => Z.testbit x i = true) (map (fun i => Z.of_nat i + 0) l))) =
  foldr (fun i acc => Z.b2z (Z.testbit x (Z.of_nat i)) + acc) 0 l.
Proof.
  induction l as [|i l IH]; [done|]. cbn [map foldr]. rewrite filter_cons, Z.add_0_r.
  destruct (Z.testbit x (Z.of_nat i)); destruct (decide _); try done; cbn [length Z.b2z]; lia.
Qed.

Lemma popcount_signers n mask : 0 <= n <= 8 -> popcount 8 (mask .& (Z.shiftl 1 n - 1)) = zlen (signers n mask).
Proof.
  intros Hn. rewrite <- signers_low by lia. unfold zlen, signers, seqZ. rewrite count_bits. unfold popcount.
  replace 8%nat with (Z.to_nat n + (8 - Z.to_nat n))%nat by lia. rewrite seq_app, foldr_app. f_equal.
  induction (8 - Z.to_nat n)%nat as [|k IH] using nat_ind; [done|]. rewrite seq_S, foldr_app. cbn [foldr].
  rewrite low_mask by lia. zif. rewrite andb_false_r. exact IH.
Qed.

Lemma selected_signers n mask pub : selected_keys n mask pub = map (znth [] pub) (signers n mask).
Proof. done. Qed.

#[local] Opaque rfc7693.

Lemma require_true b : b = true -> require b = Val ().
Proof. by intros ->. Qed.

(** Run a parse whose reads are inside the data. *)
Ltac parse_ok :=
  repeat first [rewrite read_word_in by lia | rewrite read_in by lia]; cbn [mbind res_bind].

(** ** Accepted headers *)

Section Accepted.
Context (cosi_combine_publickeys : list (list Z) -> option (list Z)).
Context (sign_open : list Z -> list Z -> list Z -> bool).
Abbreviation compute_pubkey := (compute_pubkey cosi_combine_publickeys).
Abbreviation load_image_header := (load_image_header cosi_combine_publickeys sign_open).
Abbreviation load_vendor_header := (load_vendor_header cosi_combine_publickeys sign_open).

Lemma compute_pubkey_iff m n keys mask pub : 0 <= m -> 0 <= n <= 8 ->
  (compute_pubkey m n keys mask = Val pub) <->
  0 < m <= n /\ zlen (signers n mask) = m /\
  cosi_combine_publickeys (map (znth [] keys) (signers n mask)) = Some pub.
Proof.
  intros Hm Hn. unfold Image.compute_pubkey.
  rewrite popcount_signers, selected_signers, signers_low by lia.
  destruct (Z.eqb_spec m 0); cbn [orb]; [split; [discriminate|lia]|].
  destruct (Z.eqb_spec n 0); cbn [orb]; [split; [discriminate|lia]|].
  destruct (Z.ltb_spec n m); [split; [discriminate|lia]|].
  destruct (Z.eqb_spec (zlen (signers n mask)) m); cbn [negb]; [|split; [discriminate|by intros (_ & ? & _)]].
  destruct (cosi_combine_publickeys _) as [p|]; [|split; [discriminate|by intros (_ & _ & ?)]].
  split; [intros [= <-]|intros (_ & _ & [= <-])]; auto with lia.
Qed.

Lemma compute_pubkey_safe m n keys mask : safe (compute_pubkey m n keys mask).
Proof.
  unfold Image.compute_pubkey. destruct (_ || _); [done|]. destruct (_ <? _); [done|].
  destruct (negb _); [done|]. by destruct (cosi_combine_publickeys _).
Qed.

(** [m] of the first [n] keys, those in the mask, have signed the message. *)
Definition signed_by (m n : Z) (keys : list (list Z)) (mask : Z) (msg sig : list Z) : Prop :=
  0 < m <= n /\ zlen (signers n mask) = m /\
  exists pub, cosi_combine_publickeys (map (znth [] keys) (signers n mask)) = Some pub /\
    sign_open msg pub sig = true.

(** The hash of a header of [len] bytes whose signature is zeroed. *)
Definition header_hash (data : list Z) (len : Z) : list Z :=
  H256 (slice data 0 (len - IMAGE_SIG_SIZE) ++ zrep IMAGE_SIG_SIZE 0).

(** The fields of an image header. *)
Definition header_at (data : list Z) : image_header :=
  let word n off := le_val (slice data off n) in
  ImageHeader (word 4 0) (word 4 4) (word 4 8) (word 4 12) (word 4 16) (word 4 20) (word 4 24)
    (word 4 28) (slice data 32 512) (word 4 544) (word 4 548) (word 1 959) (slice data 960 64)
    (header_hash data IMAGE_HEADER_SIZE).

Record image_accepted (data : list Z) (magic maxsize m n : Z) (keys : list (list Z)) (hdr : image_header)
    : Prop := {
  ia_size : IMAGE_HEADER_SIZE <= zlen data;
  ia_fields : hdr = header_at data;
  ia_magic : ih_magic hdr = magic;
  ia_hdrlen : ih_hdrlen hdr = IMAGE_HEADER_SIZE;
  ia_expiry : ih_expiry hdr = 0;
  ia_codelen : 4096 <= IMAGE_HEADER_SIZE + ih_codelen hdr <= maxsize;
  ia_sectors : (IMAGE_HEADER_SIZE + ih_codelen hdr) mod 512 = 0;
  ia_signed : signed_by m n keys (ih_sigmask hdr) (ih_fingerprint hdr) (ih_sig hdr);
}.

Lemma load_image_header_iff data magic maxsize m n keys hdr :
  Forall is_byte data -> IMAGE_HEADER_SIZE <= maxsize < 2 ^ 32 -> 0 <= m -> 0 <= n <= 8 ->
  (load_image_header data magic maxsize m n keys = Val hdr) <->
  image_accepted data magic maxsize m n keys hdr.
Proof.
  unfold IMAGE_HEADER_SIZE. intros Hb Hmax Hm Hn. split.
  - unfold Image.load_image_header. intros H. repeat parse_step. apply val_inj in H.
    match goal with E : compute_pubkey _ _ _ _ = Val _ |- _ => apply compute_pubkey_iff in E as (? & ? & ?); [|lia|lia] end.
    parse_clean. rewrite blake2s_chunks_ok, header_chunks_concat in *.
    assert (hdr = header_at data) as ->.
    { subst hdr. unfold header_at, header_hash. done. }
    pose proof (slice_range data 12 4 Hb ltac:(lia) ltac:(lia) ltac:(lia)).
    unfold IMAGE_HEADER_SIZE, IMAGE_SIG_SIZE in *. rewrite E2 in *. clear H.
    rewrite (u32_small (maxsize - 1024)) in E6 by lia. rewrite u32_small in E7, E8 by lia.
    split; cbn [header_at ih_magic ih_hdrlen ih_expiry ih_codelen ih_sigmask ih_fingerprint ih_sig];
      unfold IMAGE_HEADER_SIZE; try done; try lia.
    split; [lia|]. split; [done|]. by exists x19.
  - intros [Hsz -> <- Hh He Hc Hs (? & ? & pub & Hp & Ho)].
    cbn [header_at ih_magic ih_hdrlen ih_expiry ih_codelen ih_sigmask ih_fingerprint ih_sig] in *.
    unfold IMAGE_HEADER_SIZE in *.
    unfold Image.load_image_header, IMAGE_HEADER_SIZE, IMAGE_SIG_SIZE. parse_ok. rewrite Z.eqb_refl. parse_ok. 
    rewrite Hh, He, !u32_small by lia. rewrite Hs. do 3 (rewrite require_true by (zif; lia || done); parse_ok).
    change (1024 - 65) with 959. change (959 + 1) with 960. change (65 - 1) with 64.
    rewrite (proj2 (compute_pubkey_iff m n keys _ pub Hm Hn)) by done.
    rewrite blake2s_chunks_ok, header_chunks_concat. cbn [require Z.eqb Pos.eqb mbind res_bind].
    rewrite require_true by exact Ho. cbn [mbind res_bind]. unfold header_at. by rewrite Hh, He.
Qed.

Lemma load_image_header_safe data magic maxsize m n keys :
  IMAGE_HEADER_SIZE <= zlen data -> safe (load_image_header data magic maxsize m n keys).
Proof.
  unfold IMAGE_HEADER_SIZE. intros Hs. unfold Image.load_image_header, IMAGE_HEADER_SIZE, IMAGE_SIG_SIZE.
  repeat safe_step. apply safe_bind; [apply compute_pubkey_safe|]. intros pub _. safe_step. apply safe_ret.
Qed.

(** An accepted vendor header. *)
Record vendor_accepted (addr : Z) (data : list Z) (data_size m n : Z) (keys : list (list Z)) (v : vendor_header)
    : Prop := {
  va_fields : read_vendor_header addr data data_size = Val v;
  va_layout : vendor_layout addr data data_size v;
  va_signed : signed_by m n keys (vh_sigmask v) (header_hash data (vh_hdrlen v)) (vh_sig v);
}.

Lemma load_vendor_header_accepted addr data data_size m n keys v :
  Forall is_byte data -> 0 <= m -> 0 <= n <= 8 ->
  load_vendor_header addr data data_size m n keys = Val v -> vendor_accepted addr data data_size m n keys v.
Proof.
  intros Hb Hm Hn. unfold Image.load_vendor_header. intros H. repeat parse_step. apply val_inj in H as ->.
  match goal with E : compute_pubkey _ _ _ _ = Val _ |- _ => apply compute_pubkey_iff in E as (? & ? & ?); [|lia|lia] end.
  parse_clean. rewrite blake2s_chunks_ok, header_chunks_concat in *.
  split; [done|by apply read_vendor_header_layout|]. split; [lia|]. split; [done|]. eexists. eauto.
Qed.

Lemma load_vendor_header_safe addr data data_size m n keys :
  Forall is_byte data -> data_size <= zlen data -> safe (load_vendor_header addr data data_size m n keys).
Proof.
  intros Hb Hs. unfold Image.load_vendor_header. apply safe_bind; [by apply read_vendor_header_safe|].
  intros v Hv. apply read_vendor_header_layout in Hv as [Hl _ _ _ _]; [|done].
  unfold IMAGE_SIG_SIZE in *. safe_step. apply safe_bind; [apply compute_pubkey_safe|]. intros pub _. safe_step. apply safe_ret.
Qed.

End Accepted.

(** ** The hashes of the code *)

(** [l] in pieces of [chunk], the last one shorter. *)
Fixpoint pieces_of (fuel chunk : nat) (l : list Z) : list (list Z) :=
  match fuel, l with
  | S fuel, _ :: _ => take chunk l :: pieces_of fuel chunk (drop chunk l)
  | _, _ => []
  end.

Definition pieces (chunk : Z) (l : list Z) : list (list Z) := pieces_of (length l) (Z.to_nat chunk) l.

Lemma pieces_of_fuel f g c l : (0 < c)%nat -> (length l <= f)%nat -> (length l <= g)%nat -> pieces_of f c l = pieces_of g c l.
Proof.
  intros Hc. revert g l. induction f as [|f IH]; intros [|g] [|x l] Hf Hg; cbn in Hf, Hg; try done; try lia.
  cbn [pieces_of]. f_equal. apply IH; rewrite length_drop; cbn; lia.
Qed.

Lemma pieces_step chunk l : 0 < chunk -> l <> [] ->
  pieces chunk l = take (Z.to_nat chunk) l :: pieces chunk (drop (Z.to_nat chunk) l).
Proof.
  intros Hc Hl. unfold pieces. destruct l as [|x l]; [done|]. cbn [length pieces_of]. f_equal.
  apply pieces_of_fuel; rewrite ?length_drop; cbn; lia.
Qed.

Lemma pieces_concat chunk l : 0 < chunk -> concat (pieces chunk l) = l.
Proof.
  intros Hc. remember (length l) as n eqn:E. revert l E. induction n as [n IH] using lt_wf_ind. intros l ->.
  destruct (decide (l = [])) as [->|Hl]; [done|]. rewrite pieces_step by done. cbn [concat].
  rewrite (IH (length (drop (Z.to_nat chunk) l))); [apply take_drop| |done].
  rewrite length_drop. destruct l; [done|]. cbn. lia.
Qed.

(** The pieces that are hashed: the first one of an image lacks the headers. *)
Definition code_pieces (first chunk block : Z) (code : list Z) : list (list Z) :=
  if block =? 0 then take (Z.to_nat first) code :: pieces chunk (drop (Z.to_nat first) code)
  else pieces chunk code.

Lemma code_pieces_concat first chunk block code : 0 < chunk -> concat (code_pieces first chunk block code) = code.
Proof.
  intros Hc. unfold code_pieces. destruct (block =? 0); [|by apply pieces_concat].
  cbn [concat]. rewrite pieces_concat by done. apply take_drop.
Qed.

(** Consecutive hashes, from the one at [block], are those of the pieces. *)
Fixpoint covered (hashes : list Z) (block : Z) (ps : list (list Z)) : Prop :=
  match ps with
  | [] => True
  | p :: ps => slice hashes (block * 32) 32 = H256 p /\ covered hashes (block + 1) ps
  end.

(** The hashes from [block] on are zero. *)
Definition unused (hashes : list Z) (block : Z) : Prop :=
  forall i, block <= i < 16 -> slice hashes (i * 32) 32 = zrep 32 0.

Lemma remain_zero_iff hashes block : remain_zero hashes block = true <-> unused hashes block.
Proof.
  unfold remain_zero, unused. rewrite forallb_forall. split; intros H i Hi.
  - specialize (H i). rewrite bool_decide_eq_true in H. apply H. apply list_elem_of_In, elem_of_seqZ. lia.
  - rewrite bool_decide_eq_true. apply H. apply list_elem_of_In, elem_of_seqZ in Hi. lia.
Qed.

(** What the loop checks from [block] on, for the rest of the code. *)
Definition verified (hashes : list Z) (block : Z) (ps : list (list Z)) (check_remain : bool) : Prop :=
  covered hashes block ps /\ (block + zlen ps) * 32 <= zlen hashes /\
  (check_remain = true -> unused hashes (block + zlen ps)).

Section Loop.
Context (hashes code : list Z) (first chunk len : Z) (check_remain : bool).
Hypothesis Hchunk : 0 < chunk.
Hypothesis Hcode : len <= zlen code.
Hypothesis Hlen : len < 4294967296.
Abbreviation loop fuel block processed := (contents_loop fuel hashes code first chunk len check_remain block processed).

Lemma contents_step fuel block processed size : 0 <= block -> 0 <= processed < len -> 0 <= size <= len - processed ->
  size = (if (processed =? 0) && (block =? 0) then Z.min (len - processed) first else Z.min (len - processed) chunk) ->
  (loop (S fuel) block processed = Val ()) <->
  slice hashes (block * 32) 32 = H256 (slice code processed size) /\ (block + 1) * 32 <= zlen hashes /\
  if len <=? processed + size then (check_remain = true -> unused hashes (block + 1))
  else loop fuel (block + 1) (processed + size) = Val ().
Proof.
  intros Hb Hp Hs Es. cbn [contents_loop]. rewrite (u32_small (len - processed)) by lia. rewrite <- Es.
  destruct (Z.leb_spec ((block + 1) * 32) (zlen hashes)).
  2:{ rewrite (read_out hashes) by lia. split; [discriminate|lia]. }
  rewrite (read_in hashes) by lia. rewrite (read_in code) by lia. cbn [mbind res_bind]. rewrite check_single_hash_ok.
  destruct (bool_decide_reflect (H256 (slice code processed size) = slice hashes (block * 32) 32)) as [E|N].
  2:{ split; [discriminate|]. intros [E _]. by symmetry in E. }
  destruct (Z.leb_spec len (processed + size)).
  - replace (0 <? processed + size) with true by (symmetry; apply Z.ltb_lt; lia).
    pose proof (remain_zero_iff hashes (block + 1)) as R.
    destruct check_remain, (remain_zero hashes (block + 1)); cbn; split; intros; intuition congruence.
  - split; [auto|]. by intros (_ & _ & ?).
Qed.

Lemma slice_take {A} (l : list A) off n k : 0 <= off -> 0 <= k -> slice l off (Z.min n k) = take (Z.to_nat k) (slice l off n).
Proof. intros. unfold slice. rewrite take_take. f_equal. lia. Qed.

Lemma slice_drop {A} (l : list A) off n k : 0 <= off -> 0 <= k -> slice l (off + k) (n - k) = drop (Z.to_nat k) (slice l off n).
Proof. intros. unfold slice. rewrite skipn_firstn_comm, drop_drop. f_equal; [lia|]. f_equal. lia. Qed.

Lemma loop_tail fuel : forall block processed, 0 < block -> 0 <= processed < len -> len - processed < Z.of_nat fuel ->
  (loop fuel block processed = Val ()) <->
  verified hashes block (pieces chunk (slice code processed (len - processed))) check_remain.
Proof.
  induction fuel as [|fuel IH]; intros block processed Hb Hp Hf; [lia|].
  rewrite (contents_step fuel block processed (Z.min (len - processed) chunk)) by (first [lia | rewrite (proj2 (Z.eqb_neq block 0)), andb_false_r by lia; done]).
  assert (Hz : zlen (slice code processed (len - processed)) = len - processed) by (apply zlen_slice; lia).
  rewrite pieces_step; [|done|intros E; rewrite E in Hz; cbn in Hz; unfold zlen in Hz; cbn in Hz; lia].
  rewrite slice_take by lia. unfold verified. cbn [covered]. rewrite zlen_cons.
  destruct (Z.leb_spec len (processed + Z.min (len - processed) chunk)).
  - rewrite (drop_ge (slice code _ _)) by (unfold zlen in Hz; lia).
    change (pieces chunk []) with (@nil (list Z)). cbn [covered]. rewrite (@zlen_nil (list Z)), Z.add_0_r. tauto.
  - rewrite Z.min_r by lia. rewrite IH by lia. rewrite <- slice_drop by lia.
    replace (len - (processed + chunk)) with (len - processed - chunk) by lia.
    rewrite (Z.add_assoc block 1). unfold verified.
    pose proof (zlen_nonneg (pieces chunk (slice code (processed + chunk) (len - processed - chunk)))). intuition lia.
Qed.

Lemma loop_ok fuel block : 0 <= block -> 0 < len -> (block = 0 -> 0 < first) -> len < Z.of_nat fuel ->
  (loop (S fuel) block 0 = Val ()) <->
  verified hashes block (code_pieces first chunk block (slice code 0 len)) check_remain.
Proof.
  intros Hb Hl Hf Hfuel. unfold code_pieces. destruct (Z.eqb_spec block 0) as [->|Nb].
  2:{ rewrite loop_tail by lia. by rewrite Z.sub_0_r. }
  specialize (Hf eq_refl).
  rewrite (contents_step fuel 0 0 (Z.min len first)) by (first [lia | rewrite Z.sub_0_r; done]).
  rewrite slice_take by lia. unfold verified. cbn [covered]. rewrite zlen_cons, !Z.add_0_l.
  assert (Hz : zlen (slice code 0 len) = len) by (apply zlen_slice; lia).
  destruct (Z.leb_spec len (Z.min len first)).
  - rewrite (drop_ge (slice code _ _)) by (unfold zlen in Hz; lia).
    change (pieces chunk []) with (@nil (list Z)). cbn [covered]. rewrite (@zlen_nil (list Z)), Z.add_0_r. tauto.
  - rewrite Z.min_r by lia. rewrite loop_tail by lia. rewrite <- slice_drop by lia. rewrite Z.add_0_l.
    unfold verified. pose proof (zlen_nonneg (pieces chunk (slice code first (len - first)))). intuition lia.
Qed.

(** The loop ends with an answer when the header has a hash for every piece. *)
Lemma loop_tail_safe fuel : forall block processed, 0 < block -> 0 <= processed < len -> len - processed < Z.of_nat fuel ->
  (block + zlen (pieces chunk (slice code processed (len - processed)))) * 32 <= zlen hashes ->
  safe (loop fuel block processed).
Proof.
  induction fuel as [|fuel IH]; intros block processed Hb Hp Hf Hn; [lia|].
  assert (Hz : zlen (slice code processed (len - processed)) = len - processed) by (apply zlen_slice; lia).
  rewrite pieces_step in Hn; [|done|intros E; rewrite E in Hz; unfold zlen in Hz; cbn in Hz; lia].
  rewrite zlen_cons in Hn. pose proof (zlen_nonneg (pieces chunk (drop (Z.to_nat chunk) (slice code processed (len - processed))))).
  cbn [contents_loop]. rewrite (u32_small (len - processed)) by lia.
  rewrite (proj2 (Z.eqb_neq block 0)), andb_false_r by lia.
  rewrite (read_in hashes) by lia. rewrite (read_in code) by lia. cbn [mbind res_bind].
  destruct (check_single_hash _ _); [|done].
  destruct (Z.leb_spec len (processed + Z.min (len - processed) chunk)).
  - apply safe_bind; auto using safe_require.
  - rewrite Z.min_r by lia. apply IH; try lia. rewrite <- slice_drop in Hn by lia.
    replace (len - (processed + chunk)) with (len - processed - chunk) by lia. lia.
Qed.

Lemma loop_safe fuel block : 0 <= block -> 0 < len -> (block = 0 -> 0 < first) -> len < Z.of_nat fuel ->
  (block + zlen (code_pieces first chunk block (slice code 0 len))) * 32 <= zlen hashes ->
  safe (loop (S fuel) block 0).
Proof.
  intros Hb Hl Hf Hfuel. unfold code_pieces. destruct (Z.eqb_spec block 0) as [->|Nb]; intros Hn.
  2:{ apply loop_tail_safe; rewrite ?Z.sub_0_r; lia. }
  specialize (Hf eq_refl). rewrite zlen_cons in Hn.
  pose proof (zlen_nonneg (pieces chunk (drop (Z.to_nat first) (slice code 0 len)))).
  cbn [contents_loop]. rewrite Z.sub_0_r, (u32_small len) by lia. cbn [Z.eqb andb].
  rewrite (read_in hashes) by lia. rewrite (read_in code) by lia. cbn [mbind res_bind].
  destruct (check_single_hash _ _); [|done].
  destruct (Z.leb_spec len (0 + Z.min len first)).
  - apply safe_bind; auto using safe_require.
  - rewrite Z.min_r, !Z.add_0_l by lia. apply loop_tail_safe; try lia. rewrite <- slice_drop in Hn by lia. exact Hn.
Qed.
End Loop.

(** The sizes in a check of an image: the pieces and the first of them. *)
Definition chunk_size (hdr : image_header) : Z :=
  if ih_hash_block hdr =? 0 then FLASH_FIRMWARE_SECTOR_SIZE * 2 else ih_hash_block hdr.

Definition code_parts (hdr : image_header) (headers block : Z) (code : list Z) : list (list Z) :=
  code_pieces (chunk_size hdr - headers) (chunk_size hdr) block code.

(** The length of the headers before the code. *)
Definition headers_len (vhdr : option vendor_header) (hdr : image_header) : Z :=
  match vhdr with Some v => vh_hdrlen v | None => 0 end + ih_hdrlen hdr.

Section Contents.
Context (vhdr : option vendor_header) (hdr : image_header) (code : list Z) (skipped len : Z) (check_remain : bool).
Abbreviation headers := (headers_len vhdr hdr).
Abbreviation block := ((skipped + headers) / chunk_size hdr).
Hypothesis Hblock : is_u32 (ih_hash_block hdr).
Hypothesis Hheaders : 0 <= headers.
Hypothesis Hskip : 0 <= skipped /\ is_u32 (skipped + headers).
Hypothesis Hlen : 0 < len /\ is_u32 len /\ len <= zlen code.

Lemma chunk_size_range : 0 < chunk_size hdr < 4294967296.
Proof. unfold chunk_size, FLASH_FIRMWARE_SECTOR_SIZE, is_u32 in *. destruct (Z.eqb_spec (ih_hash_block hdr) 0); lia. Qed.

Lemma contents_eq : check_image_contents_ADV vhdr hdr code skipped len check_remain =
  contents_loop (S (S (Z.to_nat len))) (ih_hashes hdr) code (u32 (chunk_size hdr - headers)) (chunk_size hdr) len
    check_remain block 0.
Proof.
  unfold is_u32 in *. unfold check_image_contents_ADV, contents_fuel. fold (chunk_size hdr). fold (headers_len vhdr hdr).
  by rewrite !(u32_small headers), (u32_small (skipped + headers)) by lia.
Qed.

Lemma first_size : block = 0 -> 0 < u32 (chunk_size hdr - headers) /\ u32 (chunk_size hdr - headers) = chunk_size hdr - headers.
Proof.
  pose proof chunk_size_range. unfold is_u32 in *. intros E. apply Z.div_small_iff in E; [|lia]. rewrite u32_small by lia. lia.
Qed.

Lemma code_parts_eq l : code_pieces (u32 (chunk_size hdr - headers)) (chunk_size hdr) block l = code_parts hdr headers block l.
Proof.
  unfold code_parts, code_pieces. destruct (Z.eqb_spec block 0) as [E|]; [|done]. by rewrite (proj2 (first_size E)).
Qed.

Lemma contents_iff :
  (check_image_contents_ADV vhdr hdr code skipped len check_remain = Val ()) <->
  verified (ih_hashes hdr) block (code_parts hdr headers block (slice code 0 len)) check_remain.
Proof.
  pose proof chunk_size_range. rewrite contents_eq. unfold is_u32 in *.
  assert (0 <= block) by (apply Z.div_pos; lia).
  rewrite loop_ok; [by rewrite code_parts_eq|lia..|by intros [? _]%first_size|lia].
Qed.

Lemma contents_safe :
  (block + zlen (code_parts hdr headers block (slice code 0 len))) * 32 <= zlen (ih_hashes hdr) ->
  safe (check_image_contents_ADV vhdr hdr code skipped len check_remain).
Proof.
  pose proof chunk_size_range. rewrite contents_eq. unfold is_u32 in *.
  assert (0 <= block) by (apply Z.div_pos; lia). rewrite <- code_parts_eq.
  intros H'. apply loop_safe; [lia..|by intros [? _]%first_size|lia|done].
Qed.
End Contents.

(** ** Properties *)

(** Parsing a vendor header of arbitrary bytes never reads outside the data given,
    and an accepted header has its keys, vendor string and image in this order and
    inside the header, before the signature, with the image aligned to 4 bytes. *)
Theorem vendor_header_bounds addr data data_size : Forall is_byte data -> data_size <= zlen data ->
  read_vendor_header addr data data_size <> OutOfBounds /\
  forall v, read_vendor_header addr data data_size = Val v -> vendor_layout addr data data_size v.
Proof. intros Hb Hs. split; [by apply read_vendor_header_safe|]. intros v. by apply read_vendor_header_layout. Qed.

(** A header with one key and the vendor string "abc". *)
Definition demo_vendor : list Z :=
  [0x4F; 0x4B; 0x54; 0x56] ++ le_bytes 4 133 ++ zrep 4 0 ++ [1; 0; 1; 1; 0; 0] ++ zrep 14 0 ++
  zrep 32 7 ++ [3; 97; 98; 99] ++ [1] ++ zrep 64 7.

Lemma vendor_header_bounds_witness : exists v,
  read_vendor_header 0x1000 demo_vendor 133 = Val v /\ vh_vstr v = 65 /\ vendor_layout 0x1000 demo_vendor 133 v.
Proof.
  eexists. split; [vm_compute; reflexivity|]. split; [reflexivity|].
  refine (proj2 (vendor_header_bounds 0x1000 demo_vendor 133 _ _) _ _); [|vm_compute; discriminate|vm_compute; reflexivity].
  apply (bool_decide_unpack _). vm_compute. exact I.
Defined.

(** An image header is accepted exactly when it has the magic, size and length fields
    in range and [m] of the [n] keys, those its mask names, have signed the BLAKE2s hash
    of the header with its signature zeroed; checking it reads 1024 bytes at most. *)
Theorem image_header_authentic combine sign_open data magic maxsize m n keys hdr :
  Forall is_byte data -> IMAGE_HEADER_SIZE <= maxsize < 2 ^ 32 -> 0 <= m -> 0 <= n <= 8 ->
  ((load_image_header combine sign_open data magic maxsize m n keys = Val hdr) <->
   image_accepted combine sign_open data magic maxsize m n keys hdr) /\
  (IMAGE_HEADER_SIZE <= zlen data -> load_image_header combine sign_open data magic maxsize m n keys <> OutOfBounds).
Proof. intros. split; [by apply load_image_header_iff|]. intros. by apply load_image_header_safe. Qed.

(** A signature scheme for examples: the first key signs by repeating itself. *)
Definition demo_combine (keys : list (list Z)) : option (list Z) := head keys.
Definition demo_sign_open (msg pub sig : list Z) : bool := bool_decide (sig = pub ++ pub).

Definition demo_image : list Z :=
  [0x54; 0x43; 0x32; 0x42] ++ le_bytes 4 1024 ++ zrep 4 0 ++ le_bytes 4 3072 ++ zrep 943 0 ++ [2] ++ zrep 64 9.

Lemma image_header_authentic_witness :
  image_accepted demo_combine demo_sign_open demo_image BOOTLOADER_IMAGE_MAGIC BOOTLOADER_IMAGE_MAXSIZE 1 2
    [zrep 32 8; zrep 32 9] (header_at demo_image).
Proof.
  apply (image_header_authentic demo_combine demo_sign_open demo_image BOOTLOADER_IMAGE_MAGIC BOOTLOADER_IMAGE_MAXSIZE 1 2
    [zrep 32 8; zrep 32 9] (header_at demo_image)); [|vm_compute; split; [discriminate|reflexivity]|lia|lia|].
  - apply (bool_decide_unpack _). vm_compute. exact I.
  - vm_compute. reflexivity.
Defined.

(** The contents check of an image terminates, and succeeds exactly when the code is
    the concatenation of pieces whose hashes are consecutive ones of the header, starting
    at the piece the skipped part ends in, and (when asked) all further hashes are zero.
    It reads no hash past the header when the header has one for every piece. *)
Theorem image_contents_correct vhdr hdr code skipped len check_remain :
  is_u32 (ih_hash_block hdr) -> 0 <= headers_len vhdr hdr -> 0 <= skipped ->
  is_u32 (skipped + headers_len vhdr hdr) -> 0 < len -> is_u32 len -> len <= zlen code ->
  let block := (skipped + headers_len vhdr hdr) / chunk_size hdr in
  let parts := code_parts hdr (headers_len vhdr hdr) block (slice code 0 len) in
  concat parts = slice code 0 len /\
  ((check_image_contents_ADV vhdr hdr code skipped len check_remain = Val ()) <->
   verified (ih_hashes hdr) block parts check_remain) /\
  ((block + zlen parts) * 32 <= zlen (ih_hashes hdr) ->
   check_image_contents_ADV vhdr hdr code skipped len check_remain <> OutOfBounds).
Proof.
  intros. split; [apply code_pieces_concat; by apply chunk_size_range|].
  split; [by apply contents_iff|]. intros. by apply contents_safe.
Qed.

Definition demo_contents : image_header :=
  ImageHeader 0 1024 0 3 0 0 0 0 (H256 [97; 98; 99] ++ zrep 480 0) 0 0 0 [] [].

Lemma image_contents_correct_witness :
  verified (ih_hashes demo_contents) 0 [[97; 98; 99]] true.
Proof.
  refine (proj1 (proj1 (proj2 (image_contents_correct None demo_contents [97; 98; 99] 0 3 true _ _ _ _ _ _ _))) _);
    [vm_compute; split; [discriminate|reflexivity]|vm_compute; discriminate|lia|
     vm_compute; split; [discriminate|reflexivity]|lia|split; lia|vm_compute; discriminate|].
  vm_compute. reflexivity.
Defined.

End ImageSpec.
