(* ===== verification/ImageVerify.v ===== *)
(** * Verification of the installed bootloader and firmware

    [verify_bootloader] and [verify_firmware] of [core/embed/trezorhal/image.c]: what is
    known of the memory once they accept, and that the signed headers determine the
    code. *)

From stdpp Require Import base list numbers strings.
From Stdlib Require Import ZArith Lia.
From S2P Require Import Prelude Hash Blake2 Blake2Spec Image ImageSpec.
Local Open Scope fw_scope.

Module ImageVerify.
Import Hash Blake2 Blake2Spec Image ImageSpec.
#[local] Opaque rfc7693 H256.

Section Verify.
Context (combine : list (list Z) -> option (list Z)).
Context (sign_open : list Z -> list Z -> list Z -> bool).
Context (key_m key_n : Z) (keys : list (list Z)).
Hypothesis Hm : 0 <= key_m.
Hypothesis Hn : 0 <= key_n <= 8.
Abbreviation verify_bootloader := (verify_bootloader combine sign_open key_m key_n keys).
Abbreviation verify_firmware := (verify_firmware combine sign_open key_m key_n keys).
Abbreviation image_accepted := (image_accepted combine sign_open).
Abbreviation vendor_accepted := (vendor_accepted combine sign_open).

(** The code at [off] of [len] bytes is covered by the hashes of the header. *)
Definition code_verified (hdr : image_header) (headers skipped : Z) (code : list Z) (check_remain : bool) : Prop :=
  let block := (skipped + headers) / chunk_size hdr in
  verified (ih_hashes hdr) block (code_parts hdr headers block code) check_remain.

Lemma accepted_fields data magic maxsize m n ks hdr : Forall is_byte data ->
  image_accepted data magic maxsize m n ks hdr ->
  is_u32 (ih_hash_block hdr) /\ zlen (ih_hashes hdr) = 512.
Proof.
  intros Hb [Hs -> _ _ _ _ _ _]. unfold IMAGE_HEADER_SIZE in Hs. cbn [header_at ih_hash_block ih_hashes].
  split; [apply (slice_range data 28 4); lia || done|apply zlen_slice; lia].
Qed.

Lemma verify_bootloader_accepts mem hdr msg :
  Forall is_byte mem -> IMAGE_HEADER_SIZE + ih_codelen hdr <= zlen mem ->
  verify_bootloader mem = (Some hdr, (Val (), msg)) ->
  image_accepted mem BOOTLOADER_IMAGE_MAGIC BOOTLOADER_IMAGE_MAXSIZE key_m key_n keys hdr /\
  code_verified hdr IMAGE_HEADER_SIZE 0 (slice mem IMAGE_HEADER_SIZE (ih_codelen hdr)) true.
Proof.
  intros Hb Hs. unfold Image.verify_bootloader. destruct (load_image_header _ _ _ _ _ _ _ _) as [h| |] eqn:E; try discriminate.
  destruct (check_image_contents_ADV _ _ _ _ _ _) as [[]| |] eqn:C; try discriminate. intros [= -> _].
  apply load_image_header_iff in E; [|done|vm_compute; split; [discriminate|reflexivity]|done|done]. split; [done|].
  destruct (accepted_fields _ _ _ _ _ _ _ Hb E) as [Hblk _].
  pose proof (ia_hdrlen _ _ _ _ _ _ _ _ _ E) as Eh. pose proof (ia_codelen _ _ _ _ _ _ _ _ _ E) as Ec.
  unfold IMAGE_HEADER_SIZE, BOOTLOADER_IMAGE_MAXSIZE, BOOTLOADER_SECTORS_COUNT, IMAGE_CHUNK_SIZE in *.
  apply contents_iff in C; unfold headers_len, is_u32 in *; rewrite ?Eh in *; try lia.
  - unfold code_verified. unfold slice in *. rewrite drop_0 in C. exact C.
  - unfold zlen in *. rewrite length_drop. lia.
Qed.

Lemma verify_bootloader_complete mem hdr :
  Forall is_byte mem -> IMAGE_HEADER_SIZE + ih_codelen hdr <= zlen mem ->
  image_accepted mem BOOTLOADER_IMAGE_MAGIC BOOTLOADER_IMAGE_MAXSIZE key_m key_n keys hdr ->
  code_verified hdr IMAGE_HEADER_SIZE 0 (slice mem IMAGE_HEADER_SIZE (ih_codelen hdr)) true ->
  verify_bootloader mem = (Some hdr, (Val (), EmptyString)).
Proof.
  intros Hb Hs E C. assert (Hmax : IMAGE_HEADER_SIZE <= BOOTLOADER_IMAGE_MAXSIZE < 2 ^ 32) by (vm_compute; split; [discriminate|reflexivity]).
  unfold Image.verify_bootloader. rewrite (proj2 (load_image_header_iff combine sign_open _ _ _ _ _ _ hdr Hb Hmax Hm Hn) E).
  destruct (accepted_fields _ _ _ _ _ _ _ Hb E) as [Hblk _].
  pose proof (ia_hdrlen _ _ _ _ _ _ _ _ _ E) as Eh. pose proof (ia_codelen _ _ _ _ _ _ _ _ _ E) as Ec.
  unfold IMAGE_HEADER_SIZE, BOOTLOADER_IMAGE_MAXSIZE, BOOTLOADER_SECTORS_COUNT, IMAGE_CHUNK_SIZE in *.
  rewrite (proj2 (contents_iff None hdr (drop (Z.to_nat (ih_hdrlen hdr)) mem) 0 (ih_codelen hdr) true Hblk
    ltac:(unfold headers_len; lia) ltac:(unfold headers_len, is_u32; lia)
    ltac:(unfold is_u32, zlen in *; rewrite length_drop; lia))); [done|].
  unfold headers_len. rewrite Eh. unfold slice in *. rewrite drop_0. exact C.
Qed.

(** ** The firmware *)

Definition FW_INTERNAL : Z := FLASH_FIRMWARE_SECTOR_SIZE * FIRMWARE_INNER_SECTORS_COUNT.

(** The SDRAM area is as large as declared, a file that was read has its size, and so has
    the external flash. *)
Record p2_wf (src : p2_source) : Prop := {
  pw_sdram : zlen (p2_sdram src) = FMC_SDRAM_FIRMWARE_P2_LEN;
  pw_file : forall size bs, p2_file src = Some (size, Some bs) -> zlen bs = size;
  pw_qspi : forall bs, p2_qspi src = Some bs -> zlen bs = FMC_SDRAM_FIRMWARE_P2_LEN;
}.

Lemma load_p2_len src size code : p2_wf src -> 0 < size <= FMC_SDRAM_FIRMWARE_P2_LEN ->
  load_p2 src size = inl code -> size <= zlen code.
Proof.
  intros [Hs Hf Hq] Hsz. unfold load_p2. destruct (negb _); [discriminate|].
  assert (Hcat : forall bs, size <= zlen bs ->
    size <= zlen (take (Z.to_nat size) bs ++ drop (Z.to_nat size) (p2_sdram src))).
  { intros bs Hbs. rewrite zlen_app. pose proof (zlen_nonneg (drop (Z.to_nat size) (p2_sdram src))).
    unfold zlen in *. rewrite length_take. lia. }
  destruct (p2_file src) as [[sz [bs|]]|].
  - destruct (Z.eqb_spec sz size) as [->|]; [|discriminate]. intros [= <-]. apply Hcat. rewrite (Hf _ _ eq_refl). lia.
  - destruct (negb _); discriminate.
  - destruct (p2_qspi src) as [bs|]; intros [= <-]; [|lia]. apply Hcat. rewrite (Hq _ eq_refl). lia.
Qed.

(** What an accepting run has established: both headers, the code in the internal flash,
    and the code in SDRAM when there is more. *)
Record firmware_verified (addr : Z) (mem : list Z) (sdram : list Z) (v : vendor_header) (h : image_header)
    : Prop := {
  fv_vendor : vendor_accepted addr mem VENDOR_HEADER_MAX_SIZE key_m key_n keys v;
  fv_image : image_accepted (drop (Z.to_nat (vh_hdrlen v)) mem) FIRMWARE_IMAGE_MAGIC FIRMWARE_IMAGE_MAXSIZE
               (vh_vsig_m v) (vh_vsig_n v) (vendor_keys mem v) h;
  fv_internal : let headers := vh_hdrlen v + IMAGE_HEADER_SIZE in
    code_verified h headers 0 (slice mem headers (FW_INTERNAL - headers)) false;
  fv_external : let headers := vh_hdrlen v + IMAGE_HEADER_SIZE in
    let size := ih_codelen h - (FW_INTERNAL - headers) in
    0 < size -> code_verified h headers (FW_INTERNAL - headers) (slice sdram 0 size) true;
}.

Lemma vendor_sig_range addr mem size v : Forall is_byte mem -> read_vendor_header addr mem size = Val v -> 0 <= vh_vsig_m v.
Proof.
  intros Hb H. unfold read_vendor_header in H. repeat parse_step. apply val_inj in H. parse_clean. subst v. cbn [vh_vsig_m].
  by apply slice_range.
Qed.

Lemma verify_firmware_accepts addr mem src v h msg sdram :
  Forall is_byte mem -> FW_INTERNAL <= zlen mem -> p2_wf src ->
  verify_firmware addr mem src = (Val (v, h), msg, sdram) -> firmware_verified addr mem sdram v h.
Proof.
  intros Hb Hs Hw. unfold Image.verify_firmware. fold FW_INTERNAL.
  destruct (load_vendor_header _ _ _ _ _ _ _ _) as [v'| |] eqn:EV; try discriminate.
  destruct (load_image_header _ _ _ _ _ _ _ _) as [h'| |] eqn:EI; try discriminate.
  destruct (check_image_contents_ADV _ _ _ 0 _ _) as [[]| |] eqn:C1; try discriminate.
  intros H. assert (v' = v /\ h' = h) as [-> ->].
  { destruct (0 <? _) in H; [|by injection H]. destruct (_ <? _) in H; [discriminate|].
    destruct (load_p2 _ _) in H; [|discriminate]. destruct (check_image_contents_ADV _ _ _ _ _ _) in H; [by injection H|discriminate..]. }
  apply load_vendor_header_accepted in EV; [|done..].
  pose proof (va_layout _ _ _ _ _ _ _ _ _ EV) as L. pose proof (vl_hdrlen _ _ _ _ L) as Lh.
  pose proof (vl_keys _ _ _ _ L) as [Lk _].
  assert (Hbd : Forall is_byte (drop (Z.to_nat (vh_hdrlen v)) mem)) by by apply Forall_drop.
  apply load_image_header_iff in EI; [|done|vm_compute; split; [discriminate|reflexivity]|
    eapply vendor_sig_range; [exact Hb|apply (va_fields _ _ _ _ _ _ _ _ _ EV)]|exact Lk].
  destruct (accepted_fields _ _ _ _ _ _ _ Hbd EI) as [Hblk _].
  pose proof (ia_hdrlen _ _ _ _ _ _ _ _ _ EI) as Eh. pose proof (ia_codelen _ _ _ _ _ _ _ _ _ EI) as Ec.
  unfold IMAGE_HEADER_SIZE, IMAGE_SIG_SIZE, VENDOR_HEADER_MAX_SIZE, FW_INTERNAL, FLASH_FIRMWARE_SECTOR_SIZE,
    FIRMWARE_INNER_SECTORS_COUNT in *. rewrite Eh in *. rewrite !u32_small in * by lia.
  split; [done|done|cbn zeta..].
  - apply contents_iff in C1; unfold headers_len, is_u32 in *; rewrite ?Eh in *; try lia.
    + unfold slice in *. rewrite drop_0 in C1. exact C1.
    + unfold zlen in *. rewrite length_drop. lia.
  - unfold IMAGE_HEADER_SIZE, FW_INTERNAL, FLASH_FIRMWARE_SECTOR_SIZE, FIRMWARE_INNER_SECTORS_COUNT.
    intros Hext. rewrite (proj2 (Z.ltb_lt _ _) Hext) in H.
    destruct (Z.ltb_spec FMC_SDRAM_FIRMWARE_P2_LEN (ih_codelen h - (128 * 1024 * 12 - (vh_hdrlen v + 1024)))); [discriminate|].
    destruct (load_p2 _ _) as [code|] eqn:EP in H; [|discriminate].
    destruct (check_image_contents_ADV _ _ code _ _ _) as [[]| |] eqn:C2 in H; try discriminate. injection H as _ <-.
    apply load_p2_len in EP; [|done|lia]. unfold FMC_SDRAM_FIRMWARE_P2_LEN in *.
    apply contents_iff in C2; unfold headers_len, is_u32 in *; rewrite ?Eh in *; try lia. exact C2.
Qed.

(** The SDRAM contents of an accepted firmware. *)
Lemma verify_firmware_source addr mem src v h msg sdram :
  image_accepted (drop (Z.to_nat (vh_hdrlen v)) mem) FIRMWARE_IMAGE_MAGIC FIRMWARE_IMAGE_MAXSIZE
    (vh_vsig_m v) (vh_vsig_n v) (vendor_keys mem v) h ->
  verify_firmware addr mem src = (Val (v, h), msg, sdram) ->
  let size := ih_codelen h - (FW_INTERNAL - (vh_hdrlen v + IMAGE_HEADER_SIZE)) in
  if 0 <? size then size <= FMC_SDRAM_FIRMWARE_P2_LEN /\ load_p2 src size = inl sdram else sdram = p2_sdram src.
Proof.
  intros EI. unfold Image.verify_firmware. fold FW_INTERNAL.
  destruct (load_vendor_header _ _ _ _ _ _ _ _) as [v'| |]; try discriminate.
  destruct (load_image_header _ _ _ _ _ _ _ _) as [h'| |]; try discriminate.
  destruct (check_image_contents_ADV _ _ _ 0 _ _) as [[]| |]; try discriminate.
  pose proof (ia_hdrlen _ _ _ _ _ _ _ _ _ EI) as Eh. intros H. cbn zeta. rewrite <- Eh.
  destruct (0 <? ih_codelen h' - _) eqn:Ex in H.
  - destruct (Z.ltb_spec FMC_SDRAM_FIRMWARE_P2_LEN (ih_codelen h' - (FW_INTERNAL - (vh_hdrlen v' + ih_hdrlen h')))); [discriminate|].
    destruct (load_p2 _ _) as [code|] eqn:EP in H; [|discriminate].
    destruct (check_image_contents_ADV _ _ code _ _ _) as [[]| |] in H; try discriminate. injection H as -> -> _ ->.
    by rewrite Ex.
  - injection H as -> -> _ <-. by rewrite Ex.
Qed.

(** Conversely, the checks accept whatever is verified. *)
Lemma vendor_accepted_loads addr data size v : vendor_accepted addr data size key_m key_n keys v ->
  load_vendor_header combine sign_open addr data size key_m key_n keys = Val v.
Proof.
  intros [Hr Hl (? & ? & pub & Hp & Ho)]. unfold load_vendor_header. rewrite Hr. cbn [mbind res_bind].
  assert (Hd : exists bs, read data 0 (vh_hdrlen v - IMAGE_SIG_SIZE) = Val bs /\ bs = slice data 0 (vh_hdrlen v - IMAGE_SIG_SIZE)).
  { eexists. split; [|reflexivity]. pose proof (vl_hdrlen _ _ _ _ Hl). unfold IMAGE_SIG_SIZE in *. apply read_in; [lia..|].
    unfold read_vendor_header in Hr. clear Hl Ho. repeat parse_step. apply val_inj in Hr. parse_clean. subst v.
    cbn [vh_hdrlen] in *. unfold IMAGE_SIG_SIZE in *. lia. }
  destruct Hd as (bs & -> & ->). cbn [mbind res_bind].
  rewrite (proj2 (compute_pubkey_iff combine key_m key_n keys _ pub Hm Hn)) by done. cbn [mbind res_bind].
  rewrite blake2s_chunks_ok, header_chunks_concat, require_true by exact Ho. done.
Qed.

Lemma verify_firmware_complete addr mem src sdram v h :
  Forall is_byte mem -> FW_INTERNAL <= zlen mem -> p2_wf src -> firmware_verified addr mem sdram v h ->
  (let size := ih_codelen h - (FW_INTERNAL - (vh_hdrlen v + IMAGE_HEADER_SIZE)) in
   if 0 <? size then size <= FMC_SDRAM_FIRMWARE_P2_LEN /\ load_p2 src size = inl sdram else sdram = p2_sdram src) ->
  verify_firmware addr mem src = (Val (v, h), EmptyString, sdram).
Proof.
  intros Hb Hs Hw [EV EI C1 C2] HP. cbn zeta in C1, C2, HP. unfold Image.verify_firmware. fold FW_INTERNAL.
  pose proof (va_layout _ _ _ _ _ _ _ _ _ EV) as L. pose proof (vl_hdrlen _ _ _ _ L) as Lh.
  pose proof (vl_keys _ _ _ _ L) as [Lk _]. pose proof (va_fields _ _ _ _ _ _ _ _ _ EV) as EF.
  rewrite (vendor_accepted_loads _ _ _ _ EV).
  assert (Hbd : Forall is_byte (drop (Z.to_nat (vh_hdrlen v)) mem)) by by apply Forall_drop.
  pose proof (vendor_sig_range _ _ _ _ Hb EF) as Hm'.
  assert (Hmax : IMAGE_HEADER_SIZE <= FIRMWARE_IMAGE_MAXSIZE < 2 ^ 32) by (vm_compute; split; [discriminate|reflexivity]).
  rewrite (proj2 (load_image_header_iff combine sign_open _ _ _ _ _ _ h Hbd Hmax Hm' Lk) EI).
  destruct (accepted_fields _ _ _ _ _ _ _ Hbd EI) as [Hblk _].
  pose proof (ia_hdrlen _ _ _ _ _ _ _ _ _ EI) as Eh. pose proof (ia_codelen _ _ _ _ _ _ _ _ _ EI) as Ec.
  rewrite Eh. unfold code_verified, IMAGE_HEADER_SIZE, IMAGE_SIG_SIZE, VENDOR_HEADER_MAX_SIZE, FW_INTERNAL, FLASH_FIRMWARE_SECTOR_SIZE,
    FIRMWARE_INNER_SECTORS_COUNT in *. rewrite !u32_small by lia.
  rewrite (proj2 (contents_iff (Some v) h (drop (Z.to_nat (vh_hdrlen v + 1024)) mem) 0 (128 * 1024 * 12 - (vh_hdrlen v + 1024)) false Hblk
    ltac:(unfold headers_len; lia) ltac:(unfold headers_len, is_u32; lia)
    ltac:(unfold is_u32, zlen in *; rewrite length_drop; lia))).
  2:{ unfold headers_len. rewrite Eh. unfold slice in *. rewrite drop_0. exact C1. }
  destruct (Z.ltb_spec 0 (ih_codelen h - (128 * 1024 * 12 - (vh_hdrlen v + 1024)))) as [Hx|Hx]; [|by subst sdram].
  destruct HP as [Hle HP]. destruct (Z.ltb_spec FMC_SDRAM_FIRMWARE_P2_LEN (ih_codelen h - (128 * 1024 * 12 - (vh_hdrlen v + 1024)))); [lia|].
  rewrite HP. apply load_p2_len in HP; [|done|lia]. unfold FMC_SDRAM_FIRMWARE_P2_LEN in *.
  by rewrite (proj2 (contents_iff (Some v) h sdram (128 * 1024 * 12 - (vh_hdrlen v + 1024)) (ih_codelen h - (128 * 1024 * 12 - (vh_hdrlen v + 1024))) true Hblk
    ltac:(unfold headers_len; lia) ltac:(unfold headers_len, is_u32; lia) ltac:(unfold is_u32 in *; lia)));
    [|unfold headers_len; rewrite Eh; apply C2].
Qed.

End Verify.

(** The sizes of verified firmware. *)
Lemma verified_facts combine sign_open key_m key_n keys addr mem sdram v h : Forall is_byte mem ->
  firmware_verified combine sign_open key_m key_n keys addr mem sdram v h ->
  0 < chunk_size h /\ 0 < vh_hdrlen v + IMAGE_HEADER_SIZE < FW_INTERNAL.
Proof.
  intros Hb [EV EI _ _]. pose proof (va_layout _ _ _ _ _ _ _ _ _ EV) as L. pose proof (vl_hdrlen _ _ _ _ L) as Lh.
  destruct (accepted_fields _ _ _ _ _ _ _ _ _ ltac:(apply Forall_drop, Hb) EI) as [Hblk _].
  split; [by apply chunk_size_range|].
  unfold IMAGE_HEADER_SIZE, IMAGE_SIG_SIZE, VENDOR_HEADER_MAX_SIZE, FW_INTERNAL, FLASH_FIRMWARE_SECTOR_SIZE,
    FIRMWARE_INNER_SECTORS_COUNT in *. lia.
Qed.

Lemma external_len combine sign_open key_m key_n keys addr mem src v h msg sdram : p2_wf src ->
  firmware_verified combine sign_open key_m key_n keys addr mem sdram v h ->
  verify_firmware combine sign_open key_m key_n keys addr mem src = (Val (v, h), msg, sdram) ->
  let size := ih_codelen h - (FW_INTERNAL - (vh_hdrlen v + IMAGE_HEADER_SIZE)) in 0 < size -> size <= zlen sdram.
Proof.
  intros Hw F R size Hx. pose proof (verify_firmware_source _ _ _ _ _ _ _ _ _ _ _ _ (fv_image _ _ _ _ _ _ _ _ _ _ F) R) as S.
  cbn zeta in S. fold size in S. rewrite (proj2 (Z.ltb_lt 0 size) Hx) in S. destruct S as [S1 S2].
  by apply load_p2_len in S2.
Qed.

(** ** The hashes determine the code *)

Lemma pieces_of_length f c l k : length l = length k -> length (pieces_of f c l) = length (pieces_of f c k).
Proof.
  revert l k. induction f as [|f IH]; intros [|x l] [|y k] E; try done. cbn [pieces_of length]. f_equal.
  apply IH. rewrite !length_drop. by cbn in *; lia.
Qed.

Lemma code_parts_length h headers block l k : length l = length k ->
  length (code_parts h headers block l) = length (code_parts h headers block k).
Proof.
  intros E. unfold code_parts, code_pieces, pieces. destruct (block =? 0); cbn [length]; rewrite ?length_drop, ?E; [f_equal|];
    apply pieces_of_length; rewrite ?length_drop; lia.
Qed.

(** Two different pieces with the same hash, at the same place of the two lists. *)
Definition collision (ps qs : list (list Z)) : Prop :=
  exists k p q, ps !! k = Some p /\ qs !! k = Some q /\ p <> q /\ H256 p = H256 q.

Lemma covered_unique hashes ps : forall block qs, covered hashes block ps -> covered hashes block qs ->
  length ps = length qs -> ps = qs \/ collision ps qs.
Proof.
  induction ps as [|p ps IH]; intros block [|q qs] Hp Hq E; try done; [by left|]. destruct Hp as [Hp Hps], Hq as [Hq Hqs].
  destruct (decide (p = q)) as [->|N]; [|right; exists 0%nat, p, q; repeat split; congruence].
  destruct (IH (block + 1) qs Hps Hqs ltac:(by cbn in E; lia)) as [->|(k & p' & q' & ?)]; [by left|].
  right. exists (S k), p', q'. done.
Qed.

Lemma code_unique h headers skipped c d r : 0 < chunk_size h -> code_verified h headers skipped c r ->
  code_verified h headers skipped d r -> length c = length d ->
  c = d \/ (let block := (skipped + headers) / chunk_size h in
            collision (code_parts h headers block c) (code_parts h headers block d)).
Proof.
  intros Hc [Hp _] [Hq _] E. destruct (covered_unique _ _ _ _ Hp Hq (code_parts_length _ _ _ _ _ E)) as [Eq|]; [left|by right].
  apply (f_equal (@concat Z)) in Eq. unfold code_parts in Eq. by rewrite !code_pieces_concat in Eq.
Qed.
(** A header has 16 hashes; a piece past them is compared with what follows them. *)
Lemma contents_overread vhdr hdr code skipped len r : zlen (ih_hashes hdr) = 512 ->
  16 <= u32 (skipped + u32 (headers_len vhdr hdr)) / chunk_size hdr ->
  check_image_contents_ADV vhdr hdr code skipped len r = OutOfBounds.
Proof.
  intros Hh Hb. unfold check_image_contents_ADV, contents_fuel. fold (chunk_size hdr). fold (headers_len vhdr hdr).
  cbn zeta. set (b := _ / chunk_size hdr) in *. cbn [contents_loop]. rewrite (read_out (ih_hashes hdr) (b * 32) 32) by lia. reflexivity.
Qed.

(** ** A firmware for examples

    One vendor key, 3072 bytes of code claimed, the internal flash filled with zeros and
    covered by a single hash. *)

Definition demo_v : vendor_header :=
  VendorHeader 0x56544B4F 133 0 1 1 1 0 ([Some 32] ++ replicate 7 None) 3 65 68 1 (zrep 64 7).

Lemma demo_vendor_ok rest size : 133 <= size <= zlen (demo_vendor ++ rest) -> Forall is_byte (demo_vendor ++ rest) ->
  vendor_accepted demo_combine demo_sign_open 0 (demo_vendor ++ rest) size 1 1 [zrep 32 7] demo_v.
Proof.
  intros Hl Hb.
  assert (E : read_vendor_header 0 (demo_vendor ++ rest) size = Val demo_v).
  { unfold read_vendor_header, IMAGE_SIG_SIZE. rewrite (proj2 (Z.ltb_ge size 33)) by lia. parse_ok.
    replace (le_val (slice (demo_vendor ++ rest) 4 4)) with 133 by reflexivity.
    replace (le_val (slice (demo_vendor ++ rest) 15 1)) with 1 by reflexivity.
    rewrite (proj2 (Z.ltb_ge size 133)) by lia. parse_ok. reflexivity. }
  split; [done|by apply read_vendor_header_layout|].
  split; [lia|]. split; [reflexivity|]. exists (zrep 32 7). split; reflexivity.
Qed.

Definition demo_header (hs : list Z) : list Z :=
  [0x54; 0x43; 0x32; 0x46] ++ le_bytes 4 1024 ++ zrep 4 0 ++ le_bytes 4 3072 ++ zrep 12 0 ++ le_bytes 4 0x200000 ++
  hs ++ zrep 895 0 ++ [1] ++ zrep 64 7.

Definition demo_code : list Z := zrep 1571707 0.

Lemma demo_code_len : zlen demo_code = 1571707.
Proof. by apply zlen_zrep. Qed.

Lemma demo_code_bytes : Forall is_byte demo_code.
Proof. by apply Forall_zrep. Qed.

#[local] Opaque demo_code.

Definition demo_mem (extra : list Z) : list Z :=
  demo_vendor ++ demo_header (H256 demo_code) ++ demo_code ++ extra.

(** The conditions of acceptance on a header that is known but for its hash. *)
Ltac demo_accepted unf :=
  split; cbn [header_at ih_magic ih_hdrlen ih_expiry ih_codelen ih_sigmask ih_fingerprint ih_sig];
  [unf; unfold IMAGE_HEADER_SIZE; match goal with |- context [_ ++ ?rest] => pose proof (zlen_nonneg rest) end; zlen
  |reflexivity|vm_compute; reflexivity|vm_compute; reflexivity|vm_compute; reflexivity
  |vm_compute; split; discriminate|vm_compute; reflexivity
  |split; [lia|]; split; [vm_compute; reflexivity|]; exists (zrep 32 7); split; [vm_compute; reflexivity|];
   unfold demo_sign_open; apply bool_decide_eq_true; vm_compute; reflexivity].

Lemma demo_header_ok hs rest : length hs = 32%nat -> Forall is_byte (demo_header hs ++ rest) ->
  forall h, h = header_at (demo_header hs ++ rest) ->
  image_accepted demo_combine demo_sign_open (demo_header hs ++ rest) FIRMWARE_IMAGE_MAGIC FIRMWARE_IMAGE_MAXSIZE 1 1
    (zrep 32 7 :: replicate 7 []) h /\
  ih_codelen h = 3072 /\ chunk_size h = 0x200000 /\ ih_hashes h = hs ++ zrep 480 0.
Proof.
  intros Hl Hb h ->. do 32 (destruct hs as [|? hs]; [discriminate Hl|]). destruct hs; [|discriminate Hl].
  unfold chunk_size. split; [|cbn [header_at ih_codelen ih_hash_block ih_hashes]; repeat split; vm_compute; reflexivity].
  demo_accepted ltac:(unfold demo_header).
Qed.

Definition demo_h : image_header := header_at (demo_header (H256 demo_code)).

Lemma slice_app_l {A} (l k : list A) off n : 0 <= off -> off + n <= zlen l -> slice (l ++ k) off n = slice l off n.
Proof.
  intros Ho Hn. unfold slice, zlen in *. destruct (decide (Z.to_nat off <= length l)%nat).
  - rewrite drop_app_le by lia. apply take_app_le. rewrite length_drop. lia.
  - replace (Z.to_nat n) with 0%nat by lia. done.
Qed.

Lemma header_at_app data rest : IMAGE_HEADER_SIZE <= zlen data -> header_at (data ++ rest) = header_at data.
Proof.
  unfold IMAGE_HEADER_SIZE. intros Hl. unfold header_at, header_hash, IMAGE_HEADER_SIZE, IMAGE_SIG_SIZE. cbn zeta.
  by rewrite !slice_app_l by lia.
Qed.

Lemma demo_header_len hs : length hs = 32%nat -> zlen (demo_header hs) = 1024.
Proof. intros H. unfold demo_header. assert (zlen hs = 32) by (unfold zlen; lia). zlen. Qed.

Lemma demo_bytes extra : Forall is_byte extra -> Forall is_byte (demo_mem extra).
Proof.
  intros He. pose proof (proj2 (H256_shape demo_code)) as Hh. pose proof demo_code_bytes as Hc. unfold demo_mem.
  generalize dependent (H256 demo_code). generalize dependent demo_code. intros code Hc hs Hh. unfold demo_header.
  repeat apply Forall_app_2; try assumption; apply (bool_decide_unpack _); vm_compute; exact I.
Qed.

Lemma demo_len extra : zlen (demo_mem extra) = FW_INTERNAL + zlen extra.
Proof.
  unfold demo_mem. rewrite !zlen_app, demo_header_len by apply H256_shape.
  rewrite demo_code_len. change (zlen demo_vendor) with 133. 
  change FW_INTERNAL with 1572864. lia.
Qed.

Lemma demo_pieces : code_pieces (0x200000 - 1157) 0x200000 0 demo_code = [demo_code].
Proof.
  pose proof demo_code_len as L. unfold code_pieces. change (0 =? 0) with true. cbn iota.
  rewrite take_ge, drop_ge by (unfold zlen in L; lia). done.
Qed.

Lemma first_hash hs : length hs = 32%nat -> slice (hs ++ zrep 480 0) (0 * 32) 32 = hs.
Proof. intros H. apply (slice_mid []); [done|]. unfold zlen. by rewrite H. Qed.

Lemma demo_firmware extra sdram : Forall is_byte extra ->
  firmware_verified demo_combine demo_sign_open 1 1 [zrep 32 7] 0 (demo_mem extra) sdram demo_v demo_h.
Proof.
  intros He. pose proof (demo_bytes extra He) as Hb. pose proof (demo_len extra) as Hl. pose proof (zlen_nonneg extra).
  pose proof (proj1 (H256_shape demo_code)) as Hh.
  assert (Hd : drop (Z.to_nat (vh_hdrlen demo_v)) (demo_mem extra) = demo_header (H256 demo_code) ++ demo_code ++ extra).
  { unfold demo_mem. apply (drop_app_length' demo_vendor). reflexivity. }
  assert (Hbd : Forall is_byte (demo_header (H256 demo_code) ++ demo_code ++ extra)) by (rewrite <- Hd; by apply Forall_drop).
  assert (HA : demo_h = header_at (demo_header (H256 demo_code) ++ demo_code ++ extra)).
  { symmetry. apply header_at_app. rewrite demo_header_len by exact Hh. unfold IMAGE_HEADER_SIZE. lia. }
  destruct (demo_header_ok _ _ Hh Hbd demo_h HA) as (IA & Hcl & Hck & Hhs).
  assert (Hk : vendor_keys (demo_mem extra) demo_v = zrep 32 7 :: replicate 7 []).
  { unfold demo_mem. generalize (demo_header (H256 demo_code) ++ demo_code ++ extra). intros rest. vm_compute. reflexivity. }
  change (FW_INTERNAL) with 1572864 in Hl. change (vh_hdrlen demo_v) with 133 in Hd. 
  split; cbn zeta; change (vh_hdrlen demo_v + IMAGE_HEADER_SIZE) with 1157.
  - apply demo_vendor_ok; [|exact Hb]. fold (demo_mem extra). rewrite Hl. unfold VENDOR_HEADER_MAX_SIZE. lia.
  - change (vh_hdrlen demo_v) with 133. rewrite Hd, Hk. exact IA.
  - assert (slice (demo_mem extra) 1157 (FW_INTERNAL - 1157) = demo_code) as ->.
    { unfold demo_mem. rewrite app_assoc. apply slice_mid.
      - rewrite zlen_app, demo_header_len by exact Hh. reflexivity.
      - rewrite demo_code_len. reflexivity. }
    unfold code_verified. rewrite Hck. change ((0 + 1157) / 0x200000) with 0. unfold code_parts. rewrite Hck, demo_pieces, Hhs.
    split; [|split; [|discriminate]].
    + split; [|exact I]. exact (first_hash _ Hh).
    + rewrite zlen_app, zlen_zrep by lia. unfold zlen. rewrite Hh. cbn [length]. lia.
  - rewrite Hcl. unfold FW_INTERNAL, FLASH_FIRMWARE_SECTOR_SIZE, FIRMWARE_INNER_SECTORS_COUNT. lia.
Qed.

(** ** Properties *)

(** C5: When the boot firmware verification accepts, the vendor header is signed by the
    required device keys, the image header by the vendor's keys, every byte of the code in
    internal flash and every byte of the rest that was loaded into SDRAM is covered by the
    hashes of the signed header; and whatever satisfies this is accepted. *)
Theorem firmware_verified_iff combine sign_open key_m key_n keys addr mem src v h sdram :
  0 <= key_m -> 0 <= key_n <= 8 -> Forall is_byte mem -> FW_INTERNAL <= zlen mem -> p2_wf src ->
  (exists msg, verify_firmware combine sign_open key_m key_n keys addr mem src = (Val (v, h), msg, sdram)) <->
  firmware_verified combine sign_open key_m key_n keys addr mem sdram v h /\
  let size := ih_codelen h - (FW_INTERNAL - (vh_hdrlen v + IMAGE_HEADER_SIZE)) in
  if 0 <? size then size <= FMC_SDRAM_FIRMWARE_P2_LEN /\ load_p2 src size = inl sdram else sdram = p2_sdram src.
Proof.
  intros Hm Hn Hb Hs Hw. split.
  - intros [msg H]. pose proof (verify_firmware_accepts _ _ _ _ _ Hm Hn _ _ _ _ _ _ _ Hb Hs Hw H) as F. split; [done|].
    exact (verify_firmware_source _ _ _ _ _ _ _ _ _ _ _ _ (fv_image _ _ _ _ _ _ _ _ _ _ F) H).
  - intros [F HP]. exists EmptyString. by apply verify_firmware_complete.
Qed.

Definition demo_src (fill : Z) : p2_source := P2Source true None (zrep FMC_SDRAM_FIRMWARE_P2_LEN fill) None.

Lemma demo_src_wf fill : p2_wf (demo_src fill).
Proof. split; [by apply zlen_zrep|discriminate|discriminate]. Qed.

Lemma demo_size : ih_codelen demo_h - (FW_INTERNAL - (vh_hdrlen demo_v + IMAGE_HEADER_SIZE)) = 3072 - 1571707.
Proof.
  pose proof (proj1 (H256_shape demo_code)) as Hh. unfold demo_h. cbn [header_at ih_codelen]. revert Hh.
  generalize (H256 demo_code). intros hs _. vm_compute. reflexivity.
Qed.

Lemma firmware_verified_iff_witness : exists msg,
  verify_firmware demo_combine demo_sign_open 1 1 [zrep 32 7] 0 (demo_mem []) (demo_src 0) =
  (Val (demo_v, demo_h), msg, p2_sdram (demo_src 0)).
Proof.
  apply (firmware_verified_iff demo_combine demo_sign_open 1 1 [zrep 32 7] 0 (demo_mem []) (demo_src 0) demo_v demo_h
    (p2_sdram (demo_src 0))); [lia|lia|apply demo_bytes; constructor|rewrite demo_len, zlen_nil; lia|apply demo_src_wf|].
  split; [apply demo_firmware; constructor|]. cbn zeta. rewrite demo_size. reflexivity.
Defined.

(** When the bootloader verification accepts, the image header is signed by the required
    device keys and every byte of the code is covered by its hashes, in order, with the
    unused hashes zero. *)
Theorem bootloader_verified combine sign_open key_m key_n keys mem hdr msg :
  0 <= key_m -> 0 <= key_n <= 8 -> Forall is_byte mem -> IMAGE_HEADER_SIZE + ih_codelen hdr <= zlen mem ->
  verify_bootloader combine sign_open key_m key_n keys mem = (Some hdr, (Val (), msg)) ->
  image_accepted combine sign_open mem BOOTLOADER_IMAGE_MAGIC BOOTLOADER_IMAGE_MAXSIZE key_m key_n keys hdr /\
  concat (code_parts hdr IMAGE_HEADER_SIZE ((0 + IMAGE_HEADER_SIZE) / chunk_size hdr)
    (slice mem IMAGE_HEADER_SIZE (ih_codelen hdr))) = slice mem IMAGE_HEADER_SIZE (ih_codelen hdr) /\
  code_verified hdr IMAGE_HEADER_SIZE 0 (slice mem IMAGE_HEADER_SIZE (ih_codelen hdr)) true.
Proof.
  intros Hm Hn Hb Hs H. destruct (verify_bootloader_accepts _ _ _ _ _ Hm Hn _ _ _ Hb Hs H) as [A C].
  split; [done|]. split; [|done]. apply code_pieces_concat, chunk_size_range. by eapply accepted_fields.
Qed.

(** A bootloader of 3072 zero bytes of code with their hash. *)
Definition boot_header (hs : list Z) : list Z :=
  [0x54; 0x43; 0x32; 0x42] ++ le_bytes 4 1024 ++ zrep 4 0 ++ le_bytes 4 3072 ++ zrep 16 0 ++
  hs ++ zrep 895 0 ++ [1] ++ zrep 64 7.

Definition boot_mem : list Z := boot_header (H256 (zrep 3072 0)) ++ zrep 3072 0.

Lemma boot_header_ok hs rest h : length hs = 32%nat -> h = header_at (boot_header hs ++ rest) ->
  image_accepted demo_combine demo_sign_open (boot_header hs ++ rest) BOOTLOADER_IMAGE_MAGIC BOOTLOADER_IMAGE_MAXSIZE 1 1
    [zrep 32 7] h /\ ih_codelen h = 3072 /\ ih_hash_block h = 0 /\ ih_hashes h = hs ++ zrep 480 0.
Proof.
  intros Hl ->. do 32 (destruct hs as [|? hs]; [discriminate Hl|]). destruct hs; [|discriminate Hl].
  split; [|cbn [header_at ih_codelen ih_hash_block ih_hashes]; repeat split; vm_compute; reflexivity].
  demo_accepted ltac:(unfold boot_header).
Qed.

Lemma zero_hashes hs i : length hs = 32%nat -> 1 <= i < 16 -> slice (hs ++ zrep 480 0) (i * 32) 32 = zrep 32 0.
Proof.
  intros Hl Hi. unfold slice. rewrite drop_app_ge by lia. unfold zrep. rewrite drop_replicate, take_replicate. f_equal. lia.
Qed.

Lemma boot_accepts : verify_bootloader demo_combine demo_sign_open 1 1 [zrep 32 7] boot_mem =
  (Some (header_at boot_mem), (Val (), EmptyString)) /\ IMAGE_HEADER_SIZE + ih_codelen (header_at boot_mem) <= zlen boot_mem /\ Forall is_byte boot_mem.
Proof.
  pose proof (H256_shape (zrep 3072 0)) as [Hl Hb].
  destruct (boot_header_ok _ (zrep 3072 0) _ Hl eq_refl) as (A & Hc & Hk & Hh). fold boot_mem in A, Hc, Hk, Hh.
  assert (Hbytes : Forall is_byte boot_mem).
  { unfold boot_mem, boot_header. revert Hb. generalize (H256 (zrep 3072 0)). intros hs Hb.
    repeat apply Forall_app_2; try assumption; apply (bool_decide_unpack _); vm_compute; exact I. }
  assert (Hcode : drop (Z.to_nat 1024) boot_mem = zrep 3072 0).
  { unfold boot_mem. apply drop_app_length'. apply Nat2Z.inj. fold (zlen (boot_header (H256 (zrep 3072 0)))).
    unfold boot_header. assert (zlen (H256 (zrep 3072 0)) = 32) by (unfold zlen; by rewrite Hl). zlen. }
  assert (Hz : IMAGE_HEADER_SIZE + ih_codelen (header_at boot_mem) <= zlen boot_mem).
  { rewrite Hc. unfold IMAGE_HEADER_SIZE, zlen. apply (f_equal length) in Hcode. rewrite length_drop in Hcode.
    unfold zrep in Hcode. rewrite length_replicate in Hcode. lia. }
  split; [|exact (conj Hz Hbytes)].
  apply verify_bootloader_complete; [lia|lia|exact Hbytes|exact Hz|exact A|].
  rewrite Hc. unfold slice, IMAGE_HEADER_SIZE. rewrite Hcode, take_ge by (unfold zrep; rewrite length_replicate; lia).
  assert (Hck : chunk_size (header_at boot_mem) = 0x40000) by (unfold chunk_size; rewrite Hk; reflexivity).
  unfold code_verified, code_parts. rewrite Hck. change ((0 + 1024) / 0x40000) with 0. unfold code_pieces.
  change (0 =? 0) with true. cbn iota. rewrite take_ge, drop_ge by (unfold zrep; rewrite length_replicate; lia).
  rewrite Hh. split; [split; [exact (first_hash _ Hl)|exact I]|].
  change (zlen (zrep 3072 0 :: pieces 262144 [])) with 1. split.
  - rewrite zlen_app, zlen_zrep by lia. unfold zlen. rewrite Hl. lia.
  - intros _ i Hi. apply zero_hashes; [exact Hl|lia].
Qed.

Lemma bootloader_verified_witness :
  code_verified (header_at boot_mem) 1024 0 (slice boot_mem 1024 (ih_codelen (header_at boot_mem))) true.
Proof.
  refine (proj2 (proj2 (bootloader_verified demo_combine demo_sign_open 1 1 [zrep 32 7] boot_mem _ _ _ _ _ _ (proj1 boot_accepts))));
    [lia|lia|exact (proj2 (proj2 boot_accepts))|exact (proj1 (proj2 boot_accepts))].
Defined.

(** C26: The signed header determines the code: two firmwares accepted with the same headers
    have the same code, in internal flash and in SDRAM, unless two different pieces of them
    at the same place have the same BLAKE2s hash. *)
Theorem firmware_header_binds_code combine sign_open key_m key_n keys addr mem1 mem2 src1 src2 v h msg1 msg2 sdram1 sdram2 :
  0 <= key_m -> 0 <= key_n <= 8 -> Forall is_byte mem1 -> Forall is_byte mem2 ->
  FW_INTERNAL <= zlen mem1 -> FW_INTERNAL <= zlen mem2 -> p2_wf src1 -> p2_wf src2 ->
  verify_firmware combine sign_open key_m key_n keys addr mem1 src1 = (Val (v, h), msg1, sdram1) ->
  verify_firmware combine sign_open key_m key_n keys addr mem2 src2 = (Val (v, h), msg2, sdram2) ->
  let headers := vh_hdrlen v + IMAGE_HEADER_SIZE in
  let size := ih_codelen h - (FW_INTERNAL - headers) in
  let internal mem := slice mem headers (FW_INTERNAL - headers) in
  let external sdram := slice sdram 0 size in
  let parts skipped := code_parts h headers ((skipped + headers) / chunk_size h) in
  internal mem1 = internal mem2 /\ (0 < size -> external sdram1 = external sdram2) \/
  collision (parts 0 (internal mem1)) (parts 0 (internal mem2)) \/
  collision (parts (FW_INTERNAL - headers) (external sdram1)) (parts (FW_INTERNAL - headers) (external sdram2)).
Proof.
  intros Hm Hn Hb1 Hb2 Hs1 Hs2 Hw1 Hw2 R1 R2 headers size internal external parts.
  pose proof (verify_firmware_accepts _ _ _ _ _ Hm Hn _ _ _ _ _ _ _ Hb1 Hs1 Hw1 R1) as F1.
  pose proof (verify_firmware_accepts _ _ _ _ _ Hm Hn _ _ _ _ _ _ _ Hb2 Hs2 Hw2 R2) as F2.
  pose proof (external_len _ _ _ _ _ _ _ _ _ _ _ _ Hw1 F1 R1) as L1.
  pose proof (external_len _ _ _ _ _ _ _ _ _ _ _ _ Hw2 F2 R2) as L2.
  destruct (verified_facts _ _ _ _ _ _ _ _ _ _ Hb1 F1) as [Hc Hh].
  destruct F1 as [_ _ I1 E1], F2 as [_ _ I2 E2]. cbn zeta in *. fold headers in Hh, I1, I2, E1, E2, L1, L2.
  destruct (code_unique h headers 0 (internal mem1) (internal mem2) false) as [EI|C]; auto.
  { apply Nat2Z.inj. fold (zlen (internal mem1)) (zlen (internal mem2)). unfold internal. rewrite !zlen_slice by lia. done. }
  fold size in E1, E2, L1, L2. destruct (Z.ltb_spec 0 size) as [Hx|]; [|left; auto with lia].
  destruct (code_unique h headers (FW_INTERNAL - headers) (external sdram1) (external sdram2) true) as [EE|C]; auto.
  apply Nat2Z.inj. fold (zlen (external sdram1)) (zlen (external sdram2)). unfold external. rewrite !zlen_slice by lia. done.
Qed.

(** The same firmware with other contents of the unused memories. *)
Lemma demo_verifies extra fill : Forall is_byte extra ->
  verify_firmware demo_combine demo_sign_open 1 1 [zrep 32 7] 0 (demo_mem extra) (demo_src fill) =
  (Val (demo_v, demo_h), EmptyString, p2_sdram (demo_src fill)).
Proof.
  intros He. pose proof (zlen_nonneg extra).
  apply verify_firmware_complete; [lia|lia|by apply demo_bytes|rewrite demo_len; lia|apply demo_src_wf|by apply demo_firmware|].
  cbn zeta. rewrite demo_size. change (0 <? 3072 - 1571707) with false. reflexivity.
Qed.

Lemma firmware_header_binds_code_witness :
  let parts := code_parts demo_h 1157 ((0 + 1157) / chunk_size demo_h) in
  let code mem := slice mem 1157 (FW_INTERNAL - 1157) in
  let size := ih_codelen demo_h - (FW_INTERNAL - 1157) in
  let external fill := slice (p2_sdram (demo_src fill)) 0 size in
  let rest := code_parts demo_h 1157 ((FW_INTERNAL - 1157 + 1157) / chunk_size demo_h) in
  code (demo_mem [1]) = code (demo_mem [2]) /\ (0 < size -> external 3 = external 4) \/
  collision (parts (code (demo_mem [1]))) (parts (code (demo_mem [2]))) \/
  collision (rest (external 3)) (rest (external 4)).
Proof.
  refine (firmware_header_binds_code demo_combine demo_sign_open 1 1 [zrep 32 7] 0 (demo_mem [1]) (demo_mem [2])
    (demo_src 3) (demo_src 4) demo_v demo_h EmptyString EmptyString _ _ _ _ _ _ _ _ (demo_src_wf 3) (demo_src_wf 4)
    (demo_verifies [1] 3 _) (demo_verifies [2] 4 _));
    first [lia | apply demo_bytes; by repeat constructor | rewrite demo_len; vm_compute; discriminate | by repeat constructor].
Defined.

End ImageVerify.
