(* ===== verification/Version.v ===== *)
(** * Formatting and comparison of versions

    [core/embed/trezorhal/mini_printf.c], [format_ver] of [bootloader/bootui.c],
    [compare_str_version] of [trezorhal/common.c] and [version_compare] of
    [emmc_wrapper/emmc_commands.c].  Strings are lists of character codes without the
    terminating zero; a store outside a buffer is [None]. *)

From stdpp Require Import base list numbers.
From Stdlib Require Import ZArith Lia.
From S2P Require Import Prelude.
Local Open Scope fw_scope.

Module Version.

(** ** [mini_itoa] *)

Definition digit_char (uppercase : bool) (d : Z) : Z :=
  if d <? 10 then 48 + d else (if uppercase then 65 else 97) + d - 10.

(** [do ... while (value > 0)], least significant digit first; a value of 32 bits has
    at most 32 digits in any radix. *)
Fixpoint digits (fuel : nat) (radix : Z) (uppercase : bool) (value : Z) : list Z :=
  match fuel with
  | O => []
  | S fuel =>
      let d := digit_char uppercase (value mod radix) in
      let value := value / radix in
      if 0 <? value then d :: digits fuel radix uppercase value else [d]
  end.

(** [for (i = 0; i < len / 2; i++)] swapping [i] and [len - i - 1]. *)
Fixpoint reverse_loop (n : nat) (i len : Z) (buffer : list Z) : list Z :=
  match n with
  | O => buffer
  | S n =>
      let j := znth 0 buffer i in
      let buffer := zupd buffer i (znth 0 buffer (len - i - 1)) in
      reverse_loop n (i + 1) len (zupd buffer (len - i - 1) j)
  end.

(** [value] is the 32-bit pattern of the argument. *)
Definition mini_itoa (value radix : Z) (uppercase unsig : bool) (zero_pad : Z) : list Z :=
  if 16 <? radix then []
  else
    let negative := (2 ^ 31 <=? value) && negb unsig in
    let value := if negative then u32 (- value) else value in
    let pbuffer := digits 32 radix uppercase value in
    let pbuffer := pbuffer ++ zrep (zero_pad - zlen pbuffer) 48 in
    let pbuffer := if negative then pbuffer ++ [45] else pbuffer in
    let len := zlen pbuffer in
    reverse_loop (Z.to_nat (len / 2)) 0 len pbuffer.

(** ** [mini_vsnprintf] *)

Inductive arg := AInt (v : Z) | AStr (s : list Z).

(** The buffer and the position of [pbuffer]. *)
Definition out : Type := list Z * Z.

Definition store (buffer : list Z) (i x : Z) : option (list Z) :=
  if (0 <=? i) && (i <? zlen buffer) then Some (zupd buffer i x) else None.

Definition putc (buffer_len ch : Z) (o : out) : option out :=
  let '(buffer, pos) := o in
  if buffer_len <=? u32 (pos + 1) then Some o
  else
    buffer ← store buffer pos ch;
    buffer ← store buffer (pos + 1) 0;
    Some (buffer, pos + 1).

Fixpoint copy (s : list Z) (o : out) : option out :=
  match s with
  | [] => Some o
  | c :: s => buffer ← store (fst o) (snd o) c; copy s (buffer, snd o + 1)
  end.

Definition puts (buffer_len : Z) (s : list Z) (o : out) : option out :=
  let room := u32 (buffer_len - snd o - 1) in
  let len := if room <? zlen s then room else zlen s in
  o ← copy (take (Z.to_nat len) s) o;
  buffer ← store (fst o) (snd o) 0;
  Some (buffer, snd o).

(** One conversion; an argument of another type than the conversion asks for is [None]. *)
Definition convert (buffer_len zero_pad ch : Z) (args : list arg) (o : out) : option (list arg * out) :=
  let number radix uppercase unsig :=
    match args with
    | AInt v :: args => o ← puts buffer_len (mini_itoa (u32 v) radix uppercase unsig zero_pad) o; Some (args, o)
    | _ => None
    end in
  if ch =? 117 then number 10 false true
  else if ch =? 100 then number 10 false false
  else if ch =? 120 then number 16 false true
  else if ch =? 88 then number 16 true true
  else if ch =? 99 then
    match args with
    | AInt v :: args => o ← putc buffer_len (u8 v) o; Some (args, o)
    | _ => None
    end
  else if ch =? 115 then
    match args with
    | AStr s :: args => o ← puts buffer_len s o; Some (args, o)
    | _ => None
    end
  else o ← putc buffer_len ch o; Some (args, o).

Fixpoint mini_vsnprintf_loop (buffer_len : Z) (fmt : list Z) (args : list arg) (o : out) : option out :=
  match fmt with
  | [] => Some o
  | ch :: fmt =>
      if buffer_len <=? u32 (snd o + 1) then Some o
      else if negb (ch =? 37) then o ← putc buffer_len ch o; mini_vsnprintf_loop buffer_len fmt args o
      else
        match fmt with
        | [] => Some o
        | ch :: fmt =>
            if ch =? 48 then
              match fmt with
              | [] => Some o
              | d :: fmt =>
                  let zero_pad := if (48 <=? d) && (d <=? 57) then d - 48 else 0 in
                  match fmt with
                  | [] => Some o
                  | ch :: fmt =>
                      '(args, o) ← convert buffer_len zero_pad ch args o;
                      mini_vsnprintf_loop buffer_len fmt args o
                  end
              end
            else
              '(args, o) ← convert buffer_len 0 ch args o;
              mini_vsnprintf_loop buffer_len fmt args o
        end
  end.

(** The buffer afterwards and the number of characters. *)
Definition mini_snprintf (buffer : list Z) (buffer_len : Z) (fmt : list Z) (args : list arg) : option out :=
  mini_vsnprintf_loop buffer_len fmt args (buffer, 0).

(** ** Versions *)

(** The string at the start of a buffer. *)
Fixpoint cstring (buffer : list Z) : list Z :=
  match buffer with
  | [] => []
  | c :: buffer => if c =? 0 then [] else c :: cstring buffer
  end.

(** "%d.%d.%d" *)
Definition ver_fmt : list Z := [37; 100; 46; 37; 100; 46; 37; 100].

(** [ver_str] is the static buffer; the string it holds afterwards. *)
Definition format_ver (ver_str : list Z) (format : list Z) (version : Z) : option (list Z) :=
  o ← mini_snprintf ver_str 64 format
        [AInt (version .& 0xFF); AInt (Z.shiftr version 8 .& 0xFF); AInt (Z.shiftr version 16 .& 0xFF)];
  Some (fst o).

Definition version_compare (vera verb : Z) : Z :=
  let a := vera .& 0xFF in let b := verb .& 0xFF in
  if negb (a =? b) then a - b
  else
    let a := Z.shiftr vera 8 .& 0xFF in let b := Z.shiftr verb 8 .& 0xFF in
    if negb (a =? b) then a - b
    else
      let a := Z.shiftr vera 16 .& 0xFF in let b := Z.shiftr verb 16 .& 0xFF in
      if negb (a =? b) then a - b
      else (Z.shiftr vera 24 .& 0xFF) - (Z.shiftr verb 24 .& 0xFF).

(** The inner loops, up to a dot or the end: the number and the rest. *)
Fixpoint vnum (version : list Z) (n : Z) : Z * list Z :=
  match version with
  | [] => (n, [])
  | c :: rest => if c =? 46 then (n, version) else vnum rest (n * 10 + (c - 48))
  end.

Fixpoint compare_loop (fuel : nat) (version1 version2 : list Z) : Z :=
  match fuel with
  | O => 0
  | S fuel =>
      match version1, version2 with
      | [], [] => 0
      | _, _ =>
          let '(vnum1, version1) := vnum version1 0 in
          let '(vnum2, version2) := vnum version2 0 in
          if vnum2 <? vnum1 then 1
          else if vnum1 <? vnum2 then -1
          else compare_loop fuel (tail version1) (tail version2)
      end
  end.

(** Each turn takes a character of one of the strings. *)
Definition compare_str_version (version1 version2 : list Z) : Z :=
  compare_loop (S (length version1 + length version2)) version1 version2.

Example format_demo : (cstring <$> format_ver (zrep 64 7) ver_fmt 0x050A02) = Some [50; 46; 49; 48; 46; 53].
Proof. vm_compute. reflexivity. Qed.

Example itoa_min : mini_itoa 0x80000000 10 false false 0 = [45; 50; 49; 52; 55; 52; 56; 51; 54; 52; 56].
Proof. vm_compute. reflexivity. Qed.

Example compare_demo : compare_str_version [49; 46; 57] [49; 46; 49; 48] = -1.
Proof. vm_compute. reflexivity. Qed.

End Version.
