(* ===== verification/VersionSpec.v ===== *)
(** * Versions: formatting is exact and bounded, comparison is lexicographic *)

From stdpp Require Import base tactics sets list numbers.
From Stdlib Require Import ZArith Lia.
From S2P Require Import Prelude Version.
Local Open Scope fw_scope.

Module VersionSpec.
Import Version.

(** ** Numbers *)

Lemma reverse_step (p m q : list Z) (x y : Z) len : zlen (p ++ x :: m ++ y :: q) = len -> length p = length q ->
  let buffer := p ++ x :: m ++ y :: q in let i := zlen p in
  zupd (zupd buffer i (znth 0 buffer (len - i - 1))) (len - i - 1) (znth 0 buffer i) = p ++ y :: m ++ x :: q.
Proof.
  intros <- Hpq. cbn zeta.
  assert (E : zlen (p ++ x :: m ++ y :: q) - zlen p - 1 = zlen (p ++ x :: m) + 0).
  { autorewrite with zlen. unfold zlen. rewrite Hpq. lia. }
  rewrite E. replace (znth 0 (p ++ x :: m ++ y :: q) (zlen p)) with x.
  2:{ rewrite <- (Z.add_0_r (zlen p)). by rewrite znth_app_r by lia. }
  change (p ++ x :: m ++ y :: q) with (p ++ (x :: m) ++ y :: q). rewrite (app_assoc p (x :: m) (y :: q)), znth_app_r by lia.
  change (znth 0 (y :: q) 0) with y. rewrite <- app_assoc. cbn [app].
  replace (zlen p) with (zlen p + 0) at 1 by lia. rewrite zupd_app_r by lia. change (zupd (x :: m ++ y :: q) 0 y) with (y :: m ++ y :: q).
  change (p ++ y :: m ++ y :: q) with (p ++ (y :: m) ++ y :: q). rewrite (app_assoc p (y :: m) (y :: q)).
  replace (zlen (p ++ x :: m)) with (zlen (p ++ y :: m)) by (by autorewrite with zlen).
  rewrite zupd_app_r by lia. by rewrite <- app_assoc.
Qed.

Lemma reverse_loop_ok n : forall p m q, length p = length q -> n = (length m / 2)%nat ->
  reverse_loop n (zlen p) (zlen (p ++ m ++ q)) (p ++ m ++ q) = p ++ rev m ++ q.
Proof.
  induction n as [|n IH]; intros p m q Hpq Hn.
  - destruct m as [|x [|y m]]; [done|done|]. cbn [length] in Hn.
    pose proof (Nat.Div0.div_le_mono 2 (S (S (length m))) 2). cbn in *. lia.
  - destruct m as [|x m]; [discriminate|]. destruct m as [|y m _] using rev_ind; [discriminate|].
    cbn [reverse_loop app]. rewrite <- app_assoc. cbn [app].
    rewrite (reverse_step p m q x y) by done.
    replace (zlen (p ++ x :: m ++ y :: q)) with (zlen ((p ++ [y]) ++ m ++ x :: q)) by (autorewrite with zlen; lia).
    replace (zlen p + 1) with (zlen (p ++ [y])) by (by autorewrite with zlen).
    replace (p ++ y :: m ++ x :: q) with ((p ++ [y]) ++ m ++ x :: q) by by rewrite <- app_assoc.
    rewrite IH.
    + rewrite <- app_assoc. cbn [rev]. rewrite rev_app_distr. cbn. by rewrite <- app_assoc.
    + rewrite length_app. cbn. lia.
    + cbn [length] in Hn. rewrite length_app in Hn. cbn [length] in Hn.
      replace (S (length m + 1)) with (length m + 1 * 2)%nat in Hn by lia. rewrite Nat.div_add in Hn by lia. lia.
Qed.

Lemma reverse_ok l : reverse_loop (Z.to_nat (zlen l / 2)) 0 (zlen l) l = rev l.
Proof.
  pose proof (reverse_loop_ok (length l / 2) [] l [] eq_refl eq_refl) as H. rewrite app_nil_r in H. cbn [app] in H.
  rewrite app_nil_r in H. rewrite <- H. f_equal. unfold zlen. rewrite <- (Nat2Z.id (length l / 2)). by rewrite Nat2Z.inj_div.
Qed.

(** The value of a digit, and of digits with the most significant first. *)
Definition undigit (c : Z) : Z := if c <=? 57 then c - 48 else if c <=? 90 then c - 55 else c - 87.
Definition number (radix : Z) (s : list Z) : Z := foldl (fun n c => n * radix + undigit c) 0 s.

Lemma undigit_char up d : 0 <= d < 16 -> undigit (digit_char up d) = d.
Proof. intros Hd. unfold undigit, digit_char. destruct up; repeat (zif || case_match); lia. Qed.

Lemma digit_zero up d : 0 <= d < 16 -> digit_char up d = 48 -> d = 0.
Proof. intros Hd. unfold digit_char. destruct up; case_match; lia. Qed.

Lemma number_snoc radix s c : number radix (s ++ [c]) = number radix s * radix + undigit c.
Proof. unfold number. by rewrite foldl_app. Qed.

Lemma number_zeros radix n s : number radix (zrep n 48 ++ s) = number radix s.
Proof.
  unfold zrep. induction (Z.to_nat n) as [|k IH]; [done|]. cbn. unfold number in *. cbn [foldl]. exact IH.
Qed.

(** The digits of a value: it is their value, and they do not start with a zero. *)
Lemma digits_ok radix up fuel : 2 <= radix <= 16 -> forall value, 0 <= value < radix ^ Z.of_nat fuel -> (0 < fuel)%nat ->
  number radix (rev (digits fuel radix up value)) = value /\
  Forall (fun c => exists d, 0 <= d < radix /\ c = digit_char up d) (digits fuel radix up value) /\
  (0 < value -> head (rev (digits fuel radix up value)) <> Some 48).
Proof.
  intros Hr. induction fuel as [|fuel IH]; intros value Hv Hf; [lia|]. cbn [digits].
  pose proof (Z.mod_pos_bound value radix ltac:(lia)) as Hm. pose proof (Z_div_mod_eq_full value radix) as Hd.
  assert (Hdig : exists d, 0 <= d < radix /\ digit_char up (value mod radix) = digit_char up d) by eauto.
  destruct (Z.ltb_spec 0 (value / radix)) as [Hq|Hq].
  - destruct (IH (value / radix)) as (N & F & L).
    + split; [lia|]. apply Z.div_lt_upper_bound; [lia|]. rewrite <- Z.pow_succ_r by lia. rewrite <- Nat2Z.inj_succ. lia.
    + destruct fuel; [|lia]. change (radix ^ Z.of_nat 1) with (radix ^ 1) in Hv. rewrite Z.pow_1_r in Hv. rewrite Z.div_small in Hq by lia. lia.
    + cbn [rev]. rewrite number_snoc, N, undigit_char by lia. split; [lia|]. split; [by constructor|].
      intros _. specialize (L Hq). destruct (rev (digits fuel radix up (value / radix))) eqn:E; [|exact L].
      cbn [number foldl] in N. unfold number in N. cbn in N. lia.
  - cbn [rev app]. unfold number. cbn [foldl]. rewrite undigit_char by lia.
    assert (Hz : value / radix = 0) by (pose proof (Z.div_pos value radix); lia).
    split; [lia|]. split; [by repeat constructor|]. intros Hp [= E]. apply digit_zero in E; [|lia]. lia.
Qed.

Lemma itoa_eq value radix up unsig zero_pad : radix <= 16 ->
  mini_itoa value radix up unsig zero_pad =
  let negative := (2 ^ 31 <=? value) && negb unsig in
  let ds := rev (digits 32 radix up (if negative then u32 (- value) else value)) in
  (if negative then [45] else []) ++ zrep (zero_pad - zlen ds) 48 ++ ds.
Proof.
  intros Hr. unfold mini_itoa. destruct (Z.ltb_spec 16 radix); [lia|]. cbn zeta. rewrite reverse_ok.
  set (ds := digits _ _ _ _).
  replace (zlen (rev ds)) with (zlen ds) by (unfold zlen; by rewrite length_rev).
  assert (Hz : forall n, rev (zrep n 48) = zrep n 48).
  { intros n. unfold zrep. induction (Z.to_nat n) as [|k IH]; [done|]. rewrite replicate_S_end at 2. cbn. by rewrite IH. }
  destruct ((2 ^ 31 <=? value) && negb unsig); rewrite ?rev_app_distr, Hz; done.
Qed.

(** [u32 (- value)] is the magnitude of a negative value. *)
Lemma magnitude value : 2 ^ 31 <= value < 2 ^ 32 -> u32 (- value) = 2 ^ 32 - value.
Proof. intros H. unfold u32, wrap. rewrite <- (Z.mod_small (2 ^ 32 - value) (2 ^ 32)) by lia. rewrite <- (Z_mod_plus_full (- value) 1). f_equal. lia. Qed.

(** ** Writing to the buffer *)

Lemma store_at p x q c : store (p ++ x :: q) (zlen p) c = Some (p ++ c :: q).
Proof.
  unfold store. pose proof (zlen_nonneg p). pose proof (zlen_nonneg q). autorewrite with zlen.
  rewrite (proj2 (Z.leb_le 0 (zlen p))), (proj2 (Z.ltb_lt _ _)) by lia. cbn [andb].
  replace (zlen p) with (zlen p + 0) by lia. by rewrite zupd_app_r.
Qed.

Lemma copy_ok t : forall s tl, (length t <= length tl)%nat ->
  copy t (s ++ tl, zlen s) = Some (s ++ t ++ drop (length t) tl, zlen (s ++ t)).
Proof.
  induction t as [|c t IH]; intros s tl Ht; cbn [copy length fst snd].
  - cbn. by rewrite app_nil_r.
  - destruct tl as [|x tl]; [cbn in Ht; lia|]. rewrite store_at. cbn [mbind option_bind].
    replace (s ++ c :: tl) with ((s ++ [c]) ++ tl) by by rewrite <- app_assoc.
    replace (zlen s + 1) with (zlen (s ++ [c])) by (by autorewrite with zlen).
    rewrite IH by (cbn in Ht; lia). rewrite <- !app_assoc. done.
Qed.

(** A string is cut to the room that is left, less the terminating zero. *)
Lemma puts_ok t s tl : 0 < zlen tl -> zlen (s ++ tl) < 2 ^ 31 ->
  let t' := take (Z.to_nat (zlen tl - 1)) t in
  puts (zlen (s ++ tl)) t (s ++ tl, zlen s) = Some ((s ++ t') ++ 0 :: drop (S (length t')) tl, zlen (s ++ t')).
Proof.
  intros Hl Hb t'. unfold puts. cbn [snd]. pose proof (zlen_nonneg s).
  replace (u32 (zlen (s ++ tl) - zlen s - 1)) with (zlen tl - 1) by (rewrite zlen_app in *; rewrite u32_small; lia).
  assert (E : take (Z.to_nat (if zlen tl - 1 <? zlen t then zlen tl - 1 else zlen t)) t = t').
  { unfold t'. destruct (Z.ltb_spec (zlen tl - 1) (zlen t)); [done|].
    rewrite !take_ge; [done|unfold zlen in *; lia..]. }
  rewrite E. assert (Ht : (length t' < length tl)%nat) by (unfold t'; rewrite length_take; unfold zlen in *; lia).
  rewrite copy_ok by lia. cbn [mbind option_bind fst snd].
  destruct (drop (length t') tl) as [|x r] eqn:Er; [apply (f_equal length) in Er; rewrite length_drop in Er; cbn in Er; lia|].
  rewrite app_assoc, store_at. cbn [mbind option_bind]. do 4 f_equal.
  rewrite <- Nat.add_1_r, <- drop_drop, Er. done.
Qed.

Lemma putc_ok c s tl : 1 < zlen tl -> zlen (s ++ tl) < 2 ^ 31 ->
  putc (zlen (s ++ tl)) c (s ++ tl, zlen s) = Some ((s ++ [c]) ++ 0 :: drop 2 tl, zlen (s ++ [c])).
Proof.
  intros Hl Hb. unfold putc. pose proof (zlen_nonneg s). rewrite zlen_app in *.
  rewrite u32_small by lia. destruct (Z.leb_spec (zlen s + zlen tl) (zlen s + 1)); [lia|].
  destruct tl as [|x [|y tl]]; [unfold zlen in *; cbn in *; lia..|]. rewrite store_at. cbn [mbind option_bind].
  replace (zlen s + 1) with (zlen (s ++ [c])) by (by autorewrite with zlen).
  replace (s ++ c :: y :: tl) with ((s ++ [c]) ++ y :: tl) by by rewrite <- app_assoc.
  rewrite store_at. done.
Qed.

(** The arguments that are left after a conversion, when they have its type. *)
Definition conv_args (ch : Z) (args : list arg) : option (list arg) :=
  if bool_decide (ch ∈ [117; 100; 120; 88; 99]) then match args with AInt _ :: args => Some args | _ => None end
  else if ch =? 115 then match args with AStr _ :: args => Some args | _ => None end
  else Some args.

(** Every conversion of the format has an argument of its type. *)
Fixpoint well_typed (fmt : list Z) (args : list arg) : bool :=
  match fmt with
  | [] => true
  | ch :: fmt =>
      if negb (ch =? 37) then well_typed fmt args
      else
        match fmt with
        | [] => true
        | ch :: fmt =>
            if ch =? 48 then
              match fmt with
              | _ :: ch :: fmt => match conv_args ch args with Some args => well_typed fmt args | None => false end
              | _ => true
              end
            else match conv_args ch args with Some args => well_typed fmt args | None => false end
        end
  end.

(** The output so far, terminated unless nothing was written, and room for a zero. *)
Definition good (blen : Z) (o : out) : Prop := exists s tl, o = (s ++ tl, zlen s) /\ zlen (s ++ tl) = blen /\
  0 < zlen tl /\ (s = [] \/ exists r, tl = 0 :: r).

Lemma good_puts blen t o : blen < 2 ^ 31 -> good blen o -> exists o', puts blen t o = Some o' /\ good blen o'.
Proof.
  intros Hb (s & tl & -> & <- & Hl & _). rewrite puts_ok by done. eexists. split; [done|].
  eexists _, _. split; [done|]. rewrite !zlen_app, zlen_cons. unfold zlen in *. rewrite length_drop, length_take. split; [lia|].
  split; [lia|]. right. eauto.
Qed.

Lemma good_putc blen c o : blen < 2 ^ 31 -> snd o + 1 < blen -> good blen o -> exists o', putc blen c o = Some o' /\ good blen o'.
Proof.
  intros Hb Hr (s & tl & -> & <- & Hl & _). cbn [snd] in Hr. rewrite zlen_app in Hr. rewrite putc_ok by lia || done. eexists. split; [done|].
  eexists _, _. split; [done|]. rewrite !zlen_app, !zlen_cons. unfold zlen in *. rewrite length_drop. cbn [length] in *. split; [lia|].
  split; [lia|]. right. eauto.
Qed.

Lemma good_convert blen zp ch args args' o : blen < 2 ^ 31 -> snd o + 1 < blen -> good blen o ->
  conv_args ch args = Some args' -> exists o', convert blen zp ch args o = Some (args', o') /\ good blen o'.
Proof.
  intros Hb Hr Hg. unfold conv_args, convert.
  assert (P : forall t (args : list arg), exists o', (o ← puts blen t o; Some (args, o)) = Some (args, o') /\ good blen o').
  { intros t a. destruct (good_puts blen t o Hb Hg) as (o' & -> & G). by exists o'. }
  assert (C : forall c (args : list arg), exists o', (o ← putc blen c o; Some (args, o)) = Some (args, o') /\ good blen o').
  { intros c a. destruct (good_putc blen c o Hb Hr Hg) as (o' & -> & G). by exists o'. }
  case_bool_decide as E.
  - destruct args as [|[v|] args]; intros [= <-]. set_unfold in E.
    destruct_or! E; subst ch; cbn [Z.eqb Pos.eqb]; auto.
  - destruct (Z.eqb_spec ch 115) as [->|N].
    + destruct args as [|[] args]; intros [= <-]; cbn [Z.eqb Pos.eqb]; auto.
    + intros [= <-]. set_unfold in E. rewrite !(proj2 (Z.eqb_neq _ _)) by (intros ->; tauto). auto.
Qed.

Lemma loop_good blen : blen < 2 ^ 31 -> forall n fmt args o, (length fmt <= n)%nat -> good blen o ->
  well_typed fmt args = true -> exists o', mini_vsnprintf_loop blen fmt args o = Some o' /\ good blen o'.
Proof.
  intros Hb. induction n as [|n IH]; intros fmt args o Hn Hg Hw; (destruct fmt as [|ch fmt]; [by exists o|]); cbn [length] in Hn; [lia|].
  cbn [mini_vsnprintf_loop]. destruct (Z.leb_spec blen (u32 (snd o + 1))) as [|Hr]; [by exists o|].
  assert (Hr' : snd o + 1 < blen).
  { destruct Hg as (s & tl & -> & <- & Hl & _). cbn [snd] in *. rewrite zlen_app in *. pose proof (zlen_nonneg s). rewrite u32_small in Hr; lia. }
  cbn [well_typed] in Hw. destruct (negb (ch =? 37)).
  - destruct (good_putc blen ch o Hb Hr' Hg) as (o' & -> & G). cbn [mbind option_bind]. apply IH; [lia|done..].
  - destruct fmt as [|c fmt]; [by exists o|]. cbn [length] in Hn. destruct (c =? 48).
    + destruct fmt as [|d [|c' fmt]]; [by exists o..|]. cbn [length] in Hn. destruct (conv_args c' args) as [args'|] eqn:EA; [|done].
      eapply good_convert in EA as (o' & -> & G); [|done..]. cbn [mbind option_bind]. apply IH; [lia|done..].
    + destruct (conv_args c args) as [args'|] eqn:EA; [|done].
      eapply good_convert in EA as (o' & -> & G); [|done..]. cbn [mbind option_bind]. apply IH; [lia|done..].
Qed.

(** ** Version strings *)

(** A byte in decimal. *)
Definition decimal (x : Z) : list Z :=
  if x <? 10 then [48 + x]
  else if x <? 100 then [48 + x / 10; 48 + x mod 10]
  else [48 + x / 100; 48 + (x / 10) mod 10; 48 + x mod 10].

Lemma itoa_byte x : is_byte x -> mini_itoa x 10 false false 0 = decimal x.
Proof.
  intros Hx. assert (A : forallb (fun x => bool_decide (mini_itoa x 10 false false 0 = decimal x)) (seqZ 0 256) = true)
    by (vm_compute; reflexivity).
  rewrite forallb_forall in A. apply (bool_decide_unpack _). apply Is_true_true, A, list_elem_of_In, elem_of_seqZ. unfold is_byte in Hx. lia.
Qed.

(** The components of a version, the most significant first. *)
Definition components (v : Z) : list Z := [v .& 0xFF; Z.shiftr v 8 .& 0xFF; Z.shiftr v 16 .& 0xFF; Z.shiftr v 24 .& 0xFF].

Lemma byte_of v n : 0 <= n -> is_byte (Z.shiftr v n .& 0xFF).
Proof. intros. change 0xFF with (Z.ones 8). rewrite Z.land_ones by lia. apply Z.mod_pos_bound. lia. Qed.

Lemma components_bytes v : Forall is_byte (components v).
Proof. unfold components. rewrite <- (Z.shiftr_0_r v) at 1. repeat constructor; by apply byte_of. Qed.

(** Numbers separated by dots. *)
Fixpoint dotted (xs : list Z) : list Z :=
  match xs with
  | [] => []
  | [x] => decimal x
  | x :: xs => decimal x ++ 46 :: dotted xs
  end.

Lemma decimal_len x : (1 <= length (decimal x) <= 3)%nat.
Proof. unfold decimal. repeat case_match; cbn; lia. Qed.

Lemma decimal_nozero x : is_byte x -> Forall (fun c => 48 <= c <= 57) (decimal x).
Proof.
  unfold is_byte. intros Hx. unfold decimal. repeat case_match; repeat constructor; repeat match goal with H : (_ <? _) = _ |- _ =>
    first [apply Z.ltb_lt in H | apply Z.ltb_ge in H] end; zlia.
Qed.

Lemma cstring_app s r : Forall (fun c => 0 < c) s -> cstring (s ++ 0 :: r) = s.
Proof. induction 1 as [|c s Hc _ IH]; [done|]. cbn. destruct (Z.eqb_spec c 0); [lia|]. by rewrite IH. Qed.

Lemma puts_fits t s tl : zlen t < zlen tl -> zlen (s ++ tl) < 2 ^ 31 ->
  exists tl', puts (zlen (s ++ tl)) t (s ++ tl, zlen s) = Some ((s ++ t) ++ 0 :: tl', zlen (s ++ t)) /\
    zlen tl = zlen t + 1 + zlen tl'.
Proof.
  intros Ht Hb. pose proof (zlen_nonneg t). rewrite puts_ok by lia. rewrite (take_ge t) by (unfold zlen in *; lia). eexists. split; [done|].
  unfold zlen in *. rewrite length_drop. lia.
Qed.

Lemma putc_fits c s tl : 1 < zlen tl -> zlen (s ++ tl) < 2 ^ 31 ->
  exists tl', putc (zlen (s ++ tl)) c (s ++ tl, zlen s) = Some ((s ++ [c]) ++ 0 :: tl', zlen (s ++ [c])) /\ zlen tl = 2 + zlen tl'.
Proof. intros Ht Hb. rewrite putc_ok by lia. eexists. split; [done|]. unfold zlen in *. rewrite length_drop. lia. Qed.

(** One conversion of a byte, and one character, when there is room. *)
Lemma loop_d blen fmt args x s tl : blen = zlen (s ++ tl) -> blen < 2 ^ 31 -> is_byte x -> 4 <= zlen tl ->
  exists r, mini_vsnprintf_loop blen (37 :: 100 :: fmt) (AInt x :: args) (s ++ tl, zlen s) =
    mini_vsnprintf_loop blen fmt args ((s ++ decimal x) ++ 0 :: r, zlen (s ++ decimal x)) /\
    blen = zlen ((s ++ decimal x) ++ 0 :: r) /\ zlen tl - 4 <= zlen r.
Proof.
  intros -> Hb Hx Hl. pose proof (decimal_len x). pose proof (zlen_nonneg s).
  destruct (puts_fits (decimal x) s tl) as (r & E & Er); [unfold zlen in *; lia|done|].
  exists r. split.
  - cbn [mini_vsnprintf_loop snd]. rewrite u32_small by (rewrite zlen_app in *; lia).
    destruct (Z.leb_spec (zlen (s ++ tl)) (zlen s + 1)); [rewrite zlen_app in *; lia|]. cbn [Z.eqb Pos.eqb negb].
    unfold convert. cbn [Z.eqb Pos.eqb]. rewrite u32_small, itoa_byte, E by (unfold is_byte in Hx; lia || done). done.
  - autorewrite with zlen in *. unfold zlen in *. lia.
Qed.

Lemma loop_char blen fmt args c s tl : blen = zlen (s ++ tl) -> blen < 2 ^ 31 -> c <> 37 -> 2 <= zlen tl ->
  exists r, mini_vsnprintf_loop blen (c :: fmt) args (s ++ tl, zlen s) =
    mini_vsnprintf_loop blen fmt args ((s ++ [c]) ++ 0 :: r, zlen (s ++ [c])) /\
    blen = zlen ((s ++ [c]) ++ 0 :: r) /\ zlen tl - 2 <= zlen r.
Proof.
  intros -> Hb Hc Hl. pose proof (zlen_nonneg s). destruct (putc_fits c s tl) as (r & E & Er); [lia|done|].
  exists r. split.
  - cbn [mini_vsnprintf_loop snd]. rewrite u32_small by (rewrite zlen_app in *; lia).
    destruct (Z.leb_spec (zlen (s ++ tl)) (zlen s + 1)); [rewrite zlen_app in *; lia|].
    rewrite (proj2 (Z.eqb_neq c 37) Hc). cbn [negb]. by rewrite E.
  - autorewrite with zlen in *. lia.
Qed.

Lemma format_ver_ok buf v : zlen buf = 64 -> exists buf', format_ver buf ver_fmt v = Some buf' /\ zlen buf' = 64 /\
  cstring buf' = dotted (take 3 (components v)).
Proof.
  intros Hz. unfold format_ver, mini_snprintf, ver_fmt. pose proof (components_bytes v) as Hc. unfold components in *.
  pose proof (Forall_inv Hc) as B0. apply Forall_inv_tail in Hc. pose proof (Forall_inv Hc) as B1.
  apply Forall_inv_tail in Hc. pose proof (Forall_inv Hc) as B2. clear Hc.
  set (b0 := v .& 255) in *. set (b1 := Z.shiftr v 8 .& 255) in *. set (b2 := Z.shiftr v 16 .& 255) in *.
  change (buf, 0) with ([] ++ buf, zlen (@nil Z)).
  destruct (loop_d 64 [46; 37; 100; 46; 37; 100] [AInt b1; AInt b2] b0 [] buf) as (r0 & -> & E0 & L0); [done|lia|done|lia|].
  destruct (loop_char 64 [37; 100; 46; 37; 100] [AInt b1; AInt b2] 46 ([] ++ decimal b0) (0 :: r0)) as (r1 & -> & E1 & L1);
    [done|lia|done|autorewrite with zlen in *; lia|].
  destruct (loop_d 64 [46; 37; 100] [AInt b2] b1 (([] ++ decimal b0) ++ [46]) (0 :: r1)) as (r2 & -> & E2 & L2);
    [done|lia|done|autorewrite with zlen in *; lia|].
  destruct (loop_char 64 [37; 100] [AInt b2] 46 ((([] ++ decimal b0) ++ [46]) ++ decimal b1) (0 :: r2)) as (r3 & -> & E3 & L3);
    [done|lia|done|autorewrite with zlen in *; lia|].
  destruct (loop_d 64 [] [] b2 (((([] ++ decimal b0) ++ [46]) ++ decimal b1) ++ [46]) (0 :: r3)) as (r4 & -> & E4 & L4);
    [done|lia|done|autorewrite with zlen in *; lia|].
  cbn [mini_vsnprintf_loop mbind option_bind fst]. eexists. split; [done|]. split; [by symmetry|].
  assert (P : forall x, is_byte x -> Forall (fun c => 0 < c) (decimal x)).
  { intros x Hx. induction (decimal_nozero x Hx); constructor; [lia|done]. }
  rewrite cstring_app.
  - cbn [take dotted app]. by rewrite <- !app_assoc.
  - cbn [app]. repeat apply Forall_app_2; auto; by repeat constructor.
Qed.

(** ** Comparison *)

(** Lexicographic comparison; missing components count as zero. *)
Definition order (x y less_significant : Z) : Z := if y <? x then 1 else if x <? y then -1 else less_significant.

Fixpoint lex (xs ys : list Z) : Z :=
  match xs with
  | [] => foldr (order 0) 0 ys
  | x :: xs => order x (hd 0 ys) (lex xs (tail ys))
  end.

Lemma vnum_digits s : forall n r, Forall (fun c => 48 <= c <= 57) s -> r = [] \/ head r = Some 46 ->
  vnum (s ++ r) n = (foldl (fun n c => n * 10 + (c - 48)) n s, r).
Proof.
  induction s as [|c s IH]; intros n r Hs Hr; cbn [app foldl].
  - destruct r as [|x r]; [done|]. destruct Hr as [?|[= ->]]; done.
  - apply Forall_cons_1 in Hs as [Hc Hs]. cbn [vnum]. destruct (Z.eqb_spec c 46); [lia|]. by apply IH.
Qed.

Lemma decimal_value x : is_byte x -> foldl (fun n c => n * 10 + (c - 48)) 0 (decimal x) = x.
Proof.
  unfold is_byte, decimal. intros Hx. repeat case_match; cbn [foldl]; repeat match goal with H : (_ <? _) = _ |- _ =>
    first [apply Z.ltb_lt in H | apply Z.ltb_ge in H] end; zlia.
Qed.

(** The first number of a dotted string and what follows it. *)
Lemma vnum_dotted x xs : is_byte x -> exists r, vnum (dotted (x :: xs)) 0 = (x, r) /\ tail r = dotted xs.
Proof.
  intros Hx. pose proof (decimal_nozero x Hx) as Hd. destruct xs as [|y xs].
  - exists []. cbn [dotted]. rewrite <- (app_nil_r (decimal x)), vnum_digits, decimal_value by auto. done.
  - exists (46 :: dotted (y :: xs)). change (dotted (x :: y :: xs)) with (decimal x ++ 46 :: dotted (y :: xs)).
    rewrite vnum_digits, decimal_value by auto. done.
Qed.

Lemma dotted_len x xs : (length (dotted xs) < length (dotted (x :: xs)))%nat.
Proof.
  pose proof (decimal_len x). destruct xs as [|y xs]; [cbn [dotted length]; lia|].
  change (dotted (x :: y :: xs)) with (decimal x ++ 46 :: dotted (y :: xs)). rewrite length_app. cbn [length]. lia.
Qed.

Lemma dotted_cons x xs : exists c r, dotted (x :: xs) = c :: r.
Proof. pose proof (dotted_len x xs). destruct (dotted (x :: xs)); [cbn in *; lia|eauto]. Qed.

Lemma compare_loop_ok fuel : forall xs ys, (length (dotted xs) + length (dotted ys) < fuel)%nat ->
  Forall is_byte xs -> Forall is_byte ys -> compare_loop fuel (dotted xs) (dotted ys) = lex xs ys.
Proof.
  induction fuel as [|fuel IH]; intros xs ys Hf Hx Hy; [lia|].
  assert (Hstep : forall x r1 y r2 xs' ys', vnum (dotted xs) 0 = (x, r1) -> vnum (dotted ys) 0 = (y, r2) ->
    tail r1 = dotted xs' -> tail r2 = dotted ys' -> dotted xs <> [] \/ dotted ys <> [] ->
    compare_loop (S fuel) (dotted xs) (dotted ys) =
    if y <? x then 1 else if x <? y then -1 else compare_loop fuel (dotted xs') (dotted ys')).
  { intros x r1 y r2 xs' ys' E1 E2 T1 T2 N. cbn [compare_loop]. rewrite E1, E2, T1, T2.
    destruct (dotted xs), (dotted ys); [destruct N; done|done..]. }
  destruct xs as [|x xs], ys as [|y ys]; [done| | |];
    repeat match goal with H : Forall is_byte (_ :: _) |- _ => apply Forall_cons_1 in H as [? ?] end.
  - destruct (vnum_dotted y ys) as (r & E & T); [done|]. destruct (dotted_cons y ys) as (c & s & Ec). pose proof (dotted_len y ys).
    rewrite (Hstep 0 [] y r [] ys) by (done || (right; by rewrite Ec)). cbn [lex]. rewrite IH by (cbn [dotted length] in *; lia || done). done.
  - destruct (vnum_dotted x xs) as (r & E & T); [done|]. destruct (dotted_cons x xs) as (c & s & Ec). pose proof (dotted_len x xs).
    rewrite (Hstep x r 0 [] xs []) by (done || (left; by rewrite Ec)). cbn [lex]. rewrite IH by (cbn [dotted length] in *; lia || done). done.
  - destruct (vnum_dotted x xs) as (r & E & T); [done|]. destruct (vnum_dotted y ys) as (r' & E' & T'); [done|].
    destruct (dotted_cons x xs) as (c & s & Ec). pose proof (dotted_len x xs). pose proof (dotted_len y ys).
    rewrite (Hstep x r y r' xs ys) by (done || (left; by rewrite Ec)). cbn [lex]. rewrite IH by (lia || done). done.
Qed.

Lemma compare_dotted xs ys : Forall is_byte xs -> Forall is_byte ys ->
  compare_str_version (dotted xs) (dotted ys) = lex xs ys.
Proof. intros. unfold compare_str_version. apply compare_loop_ok; [lia|done..]. Qed.

Lemma version_compare_lex a b : Z.sgn (version_compare a b) = lex (components a) (components b).
Proof.
  assert (S : forall x y, Z.sgn (x - y) = order x y 0).
  { intros x y. unfold order. destruct (Z.ltb_spec y x); [|destruct (Z.ltb_spec x y)]; lia. }
  assert (O : forall x y k, x <> y -> order x y k = order x y 0).
  { intros x y k N. unfold order. destruct (Z.ltb_spec y x); [done|]. destruct (Z.ltb_spec x y); [done|lia]. }
  assert (R : forall x k, order x x k = k) by (intros; unfold order; by rewrite Z.ltb_irrefl).
  unfold version_compare, components. cbn [lex hd tail foldr].
  repeat match goal with |- context [negb (?x =? ?y)] => destruct (Z.eqb_spec x y) as [->|]; cbn [negb];
    [rewrite R|rewrite S; symmetry; by apply O] end.
  apply S.
Qed.

(** ** Properties *)

(** For every 32-bit value, radix from 2 to 16 and padding, the printed string is the
    sign of a negative value and then digits whose value is the magnitude; they are padded
    to the width asked for, and unpadded digits have no leading zero. *)
Theorem itoa_prints value radix up unsig zero_pad : is_u32 value -> 2 <= radix <= 16 -> 0 <= zero_pad ->
  let negative := (2 ^ 31 <=? value) && negb unsig in
  let magnitude := if negative then 2 ^ 32 - value else value in
  exists ds, mini_itoa value radix up unsig zero_pad = (if negative then [45] else []) ++ ds /\
    number radix ds = magnitude /\ zero_pad <= zlen ds /\
    (zero_pad < zlen ds -> 0 < magnitude -> head ds <> Some 48).
Proof.
  intros Hv Hr Hz negative. rewrite itoa_eq by lia. cbn zeta. fold negative.
  assert (E : (if negative then u32 (- value) else value) = if negative then 2 ^ 32 - value else value).
  { unfold negative. destruct (Z.leb_spec (2 ^ 31) value); [|done]. destruct unsig; [done|]. apply magnitude. unfold is_u32 in Hv. lia. }
  rewrite E. set (mag := if negative then 2 ^ 32 - value else value).
  assert (Hm : 0 <= mag < radix ^ Z.of_nat 32).
  { assert (2 ^ 32 <= radix ^ Z.of_nat 32) by (apply Z.pow_le_mono_l; lia). unfold mag, negative, is_u32 in *. destruct (Z.leb_spec (2 ^ 31) value), unsig; cbn [andb negb]; lia. }
  destruct (digits_ok radix up 32 Hr mag Hm ltac:(lia)) as (N & _ & L). set (ds := digits 32 radix up mag) in *.
  exists (zrep (zero_pad - zlen (rev ds)) 48 ++ rev ds). split; [done|]. split; [by rewrite number_zeros|].
  pose proof (zlen_nonneg (rev ds)). split; [rewrite zlen_app; unfold zrep, zlen in *; rewrite length_replicate; lia|].
  intros Hlt Hp. rewrite zlen_app in Hlt. unfold zrep in *. destruct (Z.to_nat (zero_pad - zlen (rev ds))) as [|k] eqn:Ek; [by apply L|].
  unfold zlen in Hlt at 1. rewrite length_replicate in Hlt. lia.
Qed.

Lemma itoa_prints_witness : exists ds, mini_itoa 0x80000000 10 false false 0 = [45] ++ ds /\
  number 10 ds = 2147483648 /\ 0 <= zlen ds /\ (0 < zlen ds -> 0 < 2147483648 -> head ds <> Some 48).
Proof. exact (itoa_prints 0x80000000 10 false false 0 ltac:(unfold is_u32; lia) ltac:(lia) ltac:(lia)). Defined.

(** Whatever the format and the arguments of matching types, formatting writes inside
    the buffer only, and the output is shorter than the buffer and terminated by a zero
    unless nothing was written. *)
Theorem snprintf_bounded buffer fmt args : zlen buffer < 2 ^ 31 -> well_typed fmt args = true ->
  exists s rest, mini_snprintf buffer (zlen buffer) fmt args = Some (s ++ rest, zlen s) /\
    zlen (s ++ rest) = zlen buffer /\ (s = [] \/ exists r, rest = 0 :: r).
Proof.
  intros Hb Hw. unfold mini_snprintf. destruct buffer as [|c buffer].
  - exists [], []. split; [|auto]. by destruct fmt.
  - destruct (loop_good (zlen (c :: buffer)) Hb (length fmt) fmt args (c :: buffer, 0)) as (o & -> & s & r & -> & Hl & _ & Hs); [lia| |done|].
    { exists [], (c :: buffer). split; [done|]. split; [done|]. split; [rewrite zlen_cons; pose proof (zlen_nonneg buffer); lia|auto]. }
    by exists s, r.
Qed.

Lemma snprintf_bounded_witness : exists s rest,
  mini_snprintf (zrep 6 9) 6 [37; 48; 52; 120; 37; 115] [AInt 255; AStr [97; 98; 99]] = Some (s ++ rest, zlen s) /\
  zlen (s ++ rest) = 6 /\ (s = [] \/ exists r, rest = 0 :: r).
Proof.
  exact (snprintf_bounded (zrep 6 9) [37; 48; 52; 120; 37; 115] [AInt 255; AStr [97; 98; 99]] ltac:(vm_compute; reflexivity)
    ltac:(vm_compute; reflexivity)).
Defined.

(** Comparing versions as strings, each printed into any 64-byte buffer, is the
    lexicographic order of major, minor and patch, and agrees with the comparison of the
    packed words by [version_compare] when the build numbers are equal. *)
Theorem version_strings_ordered bufa bufb a b : zlen bufa = 64 -> zlen bufb = 64 ->
  exists sa sb, format_ver bufa ver_fmt a = Some sa /\ format_ver bufb ver_fmt b = Some sb /\
    let result := compare_str_version (cstring sa) (cstring sb) in
    result = lex (take 3 (components a)) (take 3 (components b)) /\
    (Z.shiftr a 24 .& 0xFF = Z.shiftr b 24 .& 0xFF -> result = Z.sgn (version_compare a b)).
Proof.
  intros Ha Hb. destruct (format_ver_ok bufa a Ha) as (sa & Fa & _ & Ca). destruct (format_ver_ok bufb b Hb) as (sb & Fb & _ & Cb).
  exists sa, sb. split; [done|]. split; [done|]. cbn zeta. rewrite Ca, Cb, compare_dotted by (apply Forall_take, components_bytes).
  split; [done|]. intros E. rewrite version_compare_lex. unfold components. cbn [take lex hd tail foldr]. rewrite E.
  unfold order at 7. by rewrite Z.ltb_irrefl.
Qed.

Lemma version_strings_ordered_witness : exists sa sb,
  format_ver (zrep 64 1) ver_fmt 0x010902 = Some sa /\ format_ver (zrep 64 0) ver_fmt 0x000A02 = Some sb /\
  let result := compare_str_version (cstring sa) (cstring sb) in
  result = lex [2; 9; 1] [2; 10; 0] /\ (0 = 0 -> result = Z.sgn (version_compare 0x010902 0x000A02)).
Proof. exact (version_strings_ordered (zrep 64 1) (zrep 64 0) 0x010902 0x000A02 eq_refl eq_refl). Defined.

End VersionSpec.
