(* ===== verification/Update.v ===== *)
(** * Checking an update file: [core/embed/emmc_wrapper/emmc_commands.c]

    [check_file_contents] walks the items of an update file in memory (system firmware,
    secure element, Bluetooth), checks them and records them in [update_info];
    [check_bootloader_update] checks a new bootloader.  The versions that the secure
    elements and the Bluetooth chip report are parameters.  The file lies at the start of a
    memory [mem] at address [addr]; a read past [mem] is a fault. *)

From stdpp Require Import base list numbers strings.
From Stdlib Require Import ZArith Lia String Ascii.
From S2P Require Import Prelude Image Version.
Local Open Scope fw_scope.
Local Open Scope Z_scope.

Module Update.
Import Image Version.

Definition UPDATE_ITEM_COUNT : Z := 6.
Definition UPDATE_MCU : Z := 1.
Definition UPDATE_SE : Z := 2.
Definition UPDATE_BLE : Z := 3.
Definition FIRMWARE_IMAGE_MAGIC_THD89 : Z := 0x39384654.
Definition FIRMWARE_IMAGE_MAGIC_BLE : Z := 0x33383235.
Definition FIRMWARE_PURPOSE_GENERAL : Z := 0.
Definition MCU_HEADER_MAGIC : list Z := [79; 75; 84; 86].
Definition SE_HEADER_MAGIC : list Z := [84; 70; 56; 57].
Definition BLE_HEADER_MAGIC : list Z := [53; 50; 56; 51].

Record update_item := UpdateItem {
  it_type : Z; it_offset : Z; it_length : Z; it_current_version : list Z; it_new_version : list Z;
}.

(** The fields [current_version_valid] and [new_version_valid] are never used. *)
Record mcu_update_info := McuInfo {
  mi_vendor_changed : bool; mi_wipe_required : bool; mi_purpose_changed : bool;
  mi_purpose : Z; mi_se_minimum_version : Z;
}.

Record update_info := UpdateInfo {
  ui_items : list update_item; ui_item_count : Z; ui_se_count : Z;
  ui_mcu_location : Z; ui_se_location : list Z; ui_se_address : list Z; ui_ble_location : Z;
  ui_mcu : mcu_update_info; ui_se_new_version : Z;
}.

(** [memset(&update_info, 0, sizeof(update_info))] *)
Definition empty_item : update_item := UpdateItem 0 0 0 (zrep 32 0) (zrep 32 0).
Definition empty_info : update_info :=
  UpdateInfo (zrep UPDATE_ITEM_COUNT empty_item) 0 0 0 (zrep 4 0) (zrep 4 0) 0 (McuInfo false false false 0 0) 0.

(** [strncpy] into a field of 32 bytes. *)
Definition strncpy32 (s : list Z) : list Z := take 32 (s ++ zrep (32 - zlen s) 0).

(** The string that [format_ver] returns; what the static buffer held does not matter. *)
Definition ver_string (version : Z) : list Z :=
  match format_ver (zrep 64 0) ver_fmt version with Some b => cstring b | None => [] end.

Definition string_of (s : list Z) : string := fold_right (fun c r => String (ascii_of_N (Z.to_N c)) r) EmptyString s.

(** One turn of the loop. *)
Inductive turn := Next (u : update_info) (off len : Z) | Failed (msg : string) (u : update_info) | Fault.

(** [ExecuteCheck_MSGS_ADV] *)
Definition check {A} (m : res A) (msg : string) (u : update_info) (k : A -> turn) : turn :=
  match m with Val a => k a | Refused => Failed msg u | OutOfBounds => Fault end.

Section Check.
Context (cosi_combine_publickeys : list (list Z) -> option (list Z)).
Context (sign_open : list Z -> list Z -> list Z -> bool).
Context (FW_KEY_M FW_KEY_N : Z) (FW_KEYS : list (list Z)).
Context (se_versions : list (list Z)) (ble_version : option (list Z)).
Context (flash_addr : Z) (flash : list Z).
Context (addr : Z) (mem : list Z).
Local Abbreviation load_vendor_header := (load_vendor_header cosi_combine_publickeys sign_open).
Local Abbreviation load_image_header := (load_image_header cosi_combine_publickeys sign_open).

Definition check_se_version (u : update_info) : bool :=
  let minimum := mi_se_minimum_version (ui_mcu u) in
  if negb (minimum =? 0) then
    let se_version := znth [] se_versions 0 in
    if negb (ui_se_new_version u =? 0) then
      if compare_str_version (ver_string (ui_se_new_version u)) se_version <? 0 then false
      else negb (version_compare (ui_se_new_version u) minimum <? 0)
    else negb (compare_str_version se_version (ver_string minimum) <? 0)
  else true.

(** Write the versions of the next item. *)
Definition set_versions (u : update_info) (current new : list Z) : update_info :=
  let i := ui_item_count u in
  let it := znth empty_item (ui_items u) i in
  UpdateInfo (zupd (ui_items u) i (UpdateItem (it_type it) (it_offset it) (it_length it) (strncpy32 current) (strncpy32 new)))
    i (ui_se_count u) (ui_mcu_location u) (ui_se_location u) (ui_se_address u) (ui_ble_location u)
    (ui_mcu u) (ui_se_new_version u).

(** Write the type, offset and length of the next item and count it. *)
Definition add_item (u : update_info) (type off len : Z) : update_info :=
  let i := ui_item_count u in
  let it := znth empty_item (ui_items u) i in
  UpdateInfo (zupd (ui_items u) i (UpdateItem type off len (it_current_version it) (it_new_version it)))
    (i + 1) (ui_se_count u) (ui_mcu_location u) (ui_se_location u) (ui_se_address u) (ui_ble_location u)
    (ui_mcu u) (ui_se_new_version u).

Definition set_mcu (u : update_info) (mi : mcu_update_info) : update_info :=
  UpdateInfo (ui_items u) (ui_item_count u) (ui_se_count u) (ui_mcu_location u) (ui_se_location u) (ui_se_address u)
    (ui_ble_location u) mi (ui_se_new_version u).

(** What [load_image_header] leaves in the version field of a zeroed header, also when it
    fails: the field is written after the checks of the lengths. *)
Definition loaded_version (data : list Z) (magic maxsize : Z) : res Z :=
  hmagic ← read_word 4 data 0;
  hdrlen ← read_word 4 data 4;
  expiry ← read_word 4 data 8;
  codelen ← read_word 4 data 12;
  if (hmagic =? magic) && (hdrlen =? IMAGE_HEADER_SIZE) && (expiry =? 0) &&
     negb (u32 (maxsize - hdrlen) <? codelen) && negb (u32 (hdrlen + codelen) <? 4 * 1024) &&
     (u32 (hdrlen + codelen) mod 512 =? 0)
  then read_word 4 data 24 else mret 0.

(** The headers of the installed firmware when both are valid, and the version field. *)
Definition current_headers : res (option (vendor_header * image_header) * Z) :=
  match load_vendor_header flash_addr flash VENDOR_HEADER_MAX_SIZE FW_KEY_M FW_KEY_N FW_KEYS with
  | OutOfBounds => OutOfBounds
  | Refused => Val (None, 0)
  | Val vhdr =>
      let data := drop (Z.to_nat (vh_hdrlen vhdr)) flash in
      match load_image_header data FIRMWARE_IMAGE_MAGIC FIRMWARE_IMAGE_MAXSIZE (vh_vsig_m vhdr) (vh_vsig_n vhdr)
              (vendor_keys flash vhdr) with
      | OutOfBounds => OutOfBounds
      | Refused => v ← loaded_version data FIRMWARE_IMAGE_MAGIC FIRMWARE_IMAGE_MAXSIZE; Val (None, v)
      | Val hdr => Val (Some (vhdr, hdr), ih_onekey_version hdr)
      end
  end.

Definition downgrade_msg (current : Z) : string :=
  String.append "Firmware downgrade not allowed! Current version is: " (string_of (ver_string current)).

(** The comparison with the installed firmware: the changes, and the failure message when
    the update is refused. *)
Definition compare_installed (data : list Z) (file_vhdr : vendor_header) (file_hdr : image_header) (mi : mcu_update_info)
    (current : option (vendor_header * image_header)) : res (mcu_update_info * option string) :=
  let mi := McuInfo true true false (mi_purpose mi) (mi_se_minimum_version mi) in
  match current with
  | None => Val (mi, None)
  | Some (current_vhdr, current_hdr) =>
      hash1 ← vendor_header_hash data file_vhdr;
      hash2 ← vendor_header_hash flash current_vhdr;
      if bool_decide (hash1 = hash2) then
        let mi := McuInfo false (mi_wipe_required mi) (mi_purpose_changed mi) (mi_purpose mi) (ih_se_minimum_version file_hdr) in
        let older := 0 <? version_compare (ih_onekey_version current_hdr) (ih_onekey_version file_hdr) in
        let refused := Some (downgrade_msg (ih_onekey_version current_hdr)) in
        if negb (ih_purpose current_hdr =? ih_purpose file_hdr) then
          let mi := McuInfo (mi_vendor_changed mi) true true (mi_purpose mi) (mi_se_minimum_version mi) in
          if (ih_purpose file_hdr =? FIRMWARE_PURPOSE_GENERAL) && older then mret (mi, refused) else mret (mi, None)
        else if older then mret (mi, refused)
        else mret (McuInfo (mi_vendor_changed mi) false (mi_purpose_changed mi) (mi_purpose mi) (mi_se_minimum_version mi), None)
      else mret (mi, None)
  end.

Definition check_mcu_item (u : update_info) (off len : Z) : turn :=
  if negb (ui_mcu_location u =? 0) then Failed "Update file already has System update!" u
  else
    let data := drop (Z.to_nat off) mem in
    check (load_vendor_header (addr + off) data len FW_KEY_M FW_KEY_N FW_KEYS) "Update file vendor header invalid!" u (fun vhdr =>
    if (len <? vh_hdrlen vhdr) || (u32 (len - vh_hdrlen vhdr) <? IMAGE_HEADER_SIZE)
    then Failed "Update file header truncated!" u
    else
    check (load_image_header (drop (Z.to_nat (vh_hdrlen vhdr)) data) FIRMWARE_IMAGE_MAGIC FIRMWARE_IMAGE_MAXSIZE
             (vh_vsig_m vhdr) (vh_vsig_n vhdr) (vendor_keys data vhdr)) "Update file header invalid!" u (fun hdr =>
    let headers := u32 (vh_hdrlen vhdr + ih_hdrlen hdr) in
    if (len <? headers) || (u32 (len - headers) <? ih_codelen hdr) then Failed "Firmware file truncated!" u
    else
    let firmware_item_len := u32 (headers + ih_codelen hdr) in
    if FMC_SDRAM_FIRMWARE_P2_LEN <? u32 (ih_codelen hdr - u32 (FIRMWARE_IMAGE_INNER_SIZE - headers))
    then Failed "Firmware file P2 too big!" u
    else
    check (check_image_contents_ADV (Some vhdr) hdr (drop (Z.to_nat headers) data) 0 (ih_codelen hdr) true)
      "Update file hash invalid!" u (fun _ =>
    if negb (firmware_item_len <=? FIRMWARE_IMAGE_MAXSIZE) then Failed "Firmware file is too big!" u
    else
    check current_headers EmptyString u (fun current =>
    check (compare_installed data vhdr hdr (ui_mcu u) (fst current)) EmptyString u (fun result =>
    let '(mi, refused) := result in
    let u := set_mcu u mi in
    match refused with
    | Some msg => Failed msg u
    | None =>
        let u := set_versions u (ver_string (snd current)) (ver_string (ih_onekey_version hdr)) in
        let u := add_item u UPDATE_MCU off firmware_item_len in
        let mi := McuInfo (mi_vendor_changed mi) (mi_wipe_required mi) (mi_purpose_changed mi) (u8 (ih_purpose hdr))
                    (mi_se_minimum_version mi) in
        let u := UpdateInfo (ui_items u) (ui_item_count u) (ui_se_count u) (u8 (ui_item_count u)) (ui_se_location u)
                   (ui_se_address u) (ui_ble_location u) mi (ui_se_new_version u) in
        Next u (off + firmware_item_len) (u32 (len - firmware_item_len))
    end))))).

(** The index of a secure element by its address. *)
Definition se_index (i2c_address : Z) : option Z :=
  let a := Z.shiftl i2c_address 1 in
  if a =? Z.shiftl 0x10 1 then Some 0
  else if a =? Z.shiftl 0x11 1 then Some 1
  else if a =? Z.shiftl 0x12 1 then Some 2
  else if a =? Z.shiftl 0x13 1 then Some 3
  else None.

Definition check_se_item (u : update_info) (off len : Z) : turn :=
  if 4 <=? ui_se_count u then Failed "Update file too many items!" u
  else
    check (load_thd89_image_header (drop (Z.to_nat off) mem) FIRMWARE_IMAGE_MAGIC_THD89) "SE header error!" u (fun hdr =>
    let item_len := u32 (th_codelen hdr + IMAGE_HEADER_SIZE) in
    if len <? item_len then Failed "SE firmware length error!" u
    else
    match se_index (th_i2c_address hdr) with
    | None => Failed "SE i2c address error!" u
    | Some index =>
        let u := UpdateInfo (ui_items u) (ui_item_count u) (ui_se_count u) (ui_mcu_location u) (ui_se_location u)
                   (ui_se_address u) (ui_ble_location u) (ui_mcu u)
                   (if index =? 0 then th_version hdr else ui_se_new_version u) in
        let u := set_versions u (znth [] se_versions index) (ver_string (th_version hdr)) in
        let u :=
          if znth 0 (ui_se_address u) index =? 0 then
            let u := add_item u UPDATE_SE off item_len in
            UpdateInfo (ui_items u) (ui_item_count u) (ui_se_count u + 1) (ui_mcu_location u)
              (zupd (ui_se_location u) index (u8 (ui_item_count u)))
              (zupd (ui_se_address u) index (u8 (Z.shiftl (th_i2c_address hdr) 1)))
              (ui_ble_location u) (ui_mcu u) (ui_se_new_version u)
          else u in
        Next u (off + item_len) (u32 (len - item_len))
    end).

Definition unknown : list Z := [117; 110; 107; 110; 111; 119; 110].

Definition check_ble_item (u : update_info) (off len : Z) : turn :=
  check (load_ble_image_header (drop (Z.to_nat off) mem) FIRMWARE_IMAGE_MAGIC_BLE) "Update file header invalid!" u (fun hdr =>
  let item_len := u32 (ih_codelen hdr + IMAGE_HEADER_SIZE) in
  if len <? item_len then Failed "BLE firmware length error!" u
  else
    let u := set_versions u (default unknown ble_version)
               (if negb (ih_version hdr =? 0) then ver_string (ih_version hdr) else unknown) in
    let u := add_item u UPDATE_BLE off item_len in
    let u := UpdateInfo (ui_items u) (ui_item_count u) (ui_se_count u) (ui_mcu_location u) (ui_se_location u)
               (ui_se_address u) (u8 (ui_item_count u)) (ui_mcu u) (ui_se_new_version u) in
    Next u (off + item_len) (u32 (len - item_len))).

(** The body of [while ( buffer_len )]. *)
Definition check_item (u : update_info) (off len : Z) : turn :=
  if UPDATE_ITEM_COUNT <=? ui_item_count u then Failed "Update file too many items!" u
  else
    check (read mem off 4) EmptyString u (fun magic =>
    if bool_decide (magic = MCU_HEADER_MAGIC) then check_mcu_item u off len
    else if bool_decide (magic = SE_HEADER_MAGIC) then check_se_item u off len
    else if bool_decide (magic = BLE_HEADER_MAGIC) then check_ble_item u off len
    else Failed "Update file unknown type!" u).

Inductive verdict := Accepted (u : update_info) | Rejected (msg : string) (u : update_info) | MemoryFault | Unfinished.

Fixpoint check_items (fuel : nat) (u : update_info) (off len : Z) : verdict :=
  if len =? 0 then
    if check_se_version u then Accepted u else Rejected "SE version mismatch!" u
  else
    match fuel with
    | O => Unfinished
    | S fuel =>
        match check_item u off len with
        | Next u off len => check_items fuel u off len
        | Failed msg u => Rejected msg u
        | Fault => MemoryFault
        end
    end.

Definition check_file_contents (fuel : nat) (buffer_len : Z) : verdict :=
  if buffer_len <? IMAGE_HEADER_SIZE then Rejected "Update file too small!" empty_info
  else check_items fuel empty_info 0 buffer_len.

(** ** The bootloader file *)

(** The file as the file system has it: its size and contents when the path exists and can
    be examined, and whether the read succeeds and how many bytes it returns. *)
Record boot_file := BootFile { bf_size : Z; bf_read : option Z; bf_data : list Z }.

(** The return code, and the header when it was loaded. *)
Definition check_bootloader_update (VERSION_UINT32 : Z) (file : option (option boot_file)) : res Z * option image_header :=
  match file with
  | None => (Val 2, None)
  | Some None => (Val (-1), None)
  | Some (Some f) =>
      if BOOTLOADER_IMAGE_MAXSIZE <? bf_size f then (Val (-1), None)
      else
        match bf_read f with
        | None => (Val (-1), None)
        | Some num_of_read =>
            if negb (num_of_read =? bf_size f) then (Val (-1), None)
            else
              match load_image_header (bf_data f) BOOTLOADER_IMAGE_MAGIC BOOTLOADER_IMAGE_MAXSIZE FW_KEY_M FW_KEY_N FW_KEYS with
              | OutOfBounds => (OutOfBounds, None)
              | Refused => (Val (-1), None)
              | Val hdr =>
                  match check_image_contents_ADV None hdr (drop (Z.to_nat (ih_hdrlen hdr)) (bf_data f)) 0 (ih_codelen hdr) true with
                  | OutOfBounds => (OutOfBounds, Some hdr)
                  | Refused => (Val (-1), Some hdr)
                  | Val _ =>
                      if negb (u32 (ih_hdrlen hdr + ih_codelen hdr) =? bf_size f) then (Val (-1), Some hdr)
                      else if ih_version hdr <? VERSION_UINT32 then (Val 1, Some hdr)
                      else (Val 0, Some hdr)
                  end
              end
        end
  end.

End Check.
End Update.
