(* ===== verification/UpdateSpec.v ===== *)
(** * Update files: what an accepted file contains

    The recorded items lie inside the file, in order and apart from each other; the system
    firmware among them is signed, hashed and not older than the installed one.  The walk
    over the file ends unless the length of a secure element or Bluetooth item overflows;
    with an overflow it may not end. *)

From stdpp Require Import base list numbers strings.
From Stdlib Require Import ZArith Lia.
From S2P Require Import Prelude Hash Blake2 Blake2Spec Image ImageSpec ImageVerify Version VersionSpec Update.
Local Open Scope fw_scope.
Local Open Scope Z_scope.

Module UpdateSpec.
Import Blake2Spec Image ImageSpec ImageVerify Version VersionSpec Update.
#[local] Opaque rfc7693 H256.

Lemma check_next {A} (m : res A) msg u k u' off len : check m msg u k = Next u' off len ->
  exists a, m = Val a /\ k a = Next u' off len.
Proof. destruct m; cbn; [eauto|discriminate..]. Qed.

Lemma next_inj u off len u' off' len' : Next u off len = Next u' off' len' -> u' = u /\ off' = off /\ len' = len.
Proof. by intros [= <- <- <-]. Qed.

(** ** The records *)

Abbreviation item u i := (znth empty_item (ui_items u) i).
Abbreviation minimum u := (mi_se_minimum_version (ui_mcu u)).

(** Room for six items, and the ones in use lie before [off], each after the previous. *)
Record info_inv (ok : update_item -> Prop) (off : Z) (u : update_info) : Prop := {
  inv_len : zlen (ui_items u) = 6;
  inv_count : 0 <= ui_item_count u <= 6;
  inv_range : forall i, 0 <= i < ui_item_count u -> 0 <= it_offset (item u i) /\ 0 <= it_length (item u i) /\
    it_offset (item u i) + it_length (item u i) <= off;
  inv_order : forall i j, 0 <= i < j -> j < ui_item_count u ->
    it_offset (item u i) + it_length (item u i) <= it_offset (item u j);
  inv_ok : forall i, 0 <= i < ui_item_count u -> ok (item u i);
}.

Lemma info_inv_empty ok : info_inv ok 0 empty_info.
Proof. split; try reflexivity; cbn; try lia. Qed.

Lemma info_inv_mono ok off off' u : off <= off' -> info_inv ok off u -> info_inv ok off' u.
Proof. intros Ho [H1 H2 H3 H4 H5]. split; auto. intros i Hi. specialize (H3 i Hi). lia. Qed.

Lemma info_inv_impl (ok ok' : update_item -> Prop) off u :
  (forall i, 0 <= i < ui_item_count u -> ok (item u i) -> ok' (item u i)) -> info_inv ok off u -> info_inv ok' off u.
Proof. intros H [H1 H2 H3 H4 H5]. split; auto. Qed.

(** Only the items and their number matter. *)
Lemma info_inv_ext ok off u v : ui_items u = ui_items v -> ui_item_count u = ui_item_count v -> info_inv ok off u -> info_inv ok off v.
Proof. intros E1 E2 [H1 H2 H3 H4 H5]. rewrite E1, E2 in *. by split. Qed.

Lemma item_set_versions u c n i : 0 <= i < ui_item_count u -> item (set_versions u c n) i = item u i.
Proof. intros Hi. unfold set_versions. cbn [ui_items]. apply znth_zupd_ne. lia. Qed.

Lemma info_inv_versions ok off u c n : info_inv ok off u -> info_inv ok off (set_versions u c n).
Proof.
  intros [H1 H2 H3 H4 H5]. split; [cbn [set_versions ui_items]; by rewrite zlen_zupd|done|..].
  - intros i Hi. rewrite item_set_versions by done. auto.
  - intros i j Hi Hj. cbn [set_versions ui_item_count] in Hj. rewrite !item_set_versions by lia. auto.
  - intros i Hi. rewrite item_set_versions by done. auto.
Qed.

Lemma info_inv_add ok off u type len : info_inv ok off u -> ui_item_count u < 6 -> 0 <= off -> 0 <= len ->
  (forall it, it_type it = type -> it_offset it = off -> it_length it = len -> ok it) ->
  info_inv ok (off + len) (add_item u type off len).
Proof.
  intros [H1 H2 H3 H4 H5] Hc Ho Hl Hok.
  assert (Old : forall i, 0 <= i < ui_item_count u -> item (add_item u type off len) i = item u i).
  { intros i Hi. unfold add_item. cbn [ui_items]. apply znth_zupd_ne. lia. }
  assert (New : it_type (item (add_item u type off len) (ui_item_count u)) = type /\
    it_offset (item (add_item u type off len) (ui_item_count u)) = off /\ it_length (item (add_item u type off len) (ui_item_count u)) = len).
  { unfold add_item. cbn [ui_items]. by rewrite znth_zupd_eq by lia. }
  destruct New as (N1 & N2 & N3). split; cbn [add_item ui_item_count].
  - unfold add_item. cbn [ui_items]. by rewrite zlen_zupd.
  - lia.
  - intros i Hi. destruct (decide (i = ui_item_count u)) as [->|]; [lia|]. rewrite Old by lia. specialize (H3 i ltac:(lia)). lia.
  - intros i j Hi Hj. rewrite (Old i) by lia. destruct (decide (j = ui_item_count u)) as [->|].
    + rewrite N2. apply H3. lia.
    + rewrite Old by lia. apply H4; lia.
  - intros i Hi. destruct (decide (i = ui_item_count u)) as [->|]; [by apply Hok|]. rewrite Old by lia. apply H5. lia.
Qed.

Section Check.
Context (combine : list (list Z) -> option (list Z)).
Context (sign_open : list Z -> list Z -> list Z -> bool).
Context (key_m key_n : Z) (keys : list (list Z)).
Context (se_versions : list (list Z)) (ble_version : option (list Z)).
Context (flash_addr : Z) (flash : list Z) (addr : Z) (mem : list Z).
Hypothesis Hm : 0 <= key_m.
Hypothesis Hn : 0 <= key_n <= 8.
Hypothesis Hbytes : Forall is_byte mem.
Hypothesis Hsize : zlen mem < 4294967296.
Abbreviation current_headers := (current_headers combine sign_open key_m key_n keys flash_addr flash).
Abbreviation check_mcu_item := (check_mcu_item combine sign_open key_m key_n keys flash_addr flash addr mem).
Abbreviation check_se_item := (check_se_item se_versions mem).
Abbreviation check_ble_item := (check_ble_item ble_version mem).
Abbreviation check_item := (check_item combine sign_open key_m key_n keys se_versions ble_version flash_addr flash addr mem).
Abbreviation check_items := (check_items combine sign_open key_m key_n keys se_versions ble_version flash_addr flash addr mem).

(** Same vendor, and same purpose or the general one: not older than what is installed. *)
Definition not_downgrade (off : Z) (v : vendor_header) (h : image_header) : Prop :=
  forall cv ch n, current_headers = Val (Some (cv, ch), n) ->
  vendor_header_hash (drop (Z.to_nat off) mem) v = vendor_header_hash flash cv ->
  ih_purpose ch = ih_purpose h \/ ih_purpose h = FIRMWARE_PURPOSE_GENERAL ->
  lex (components (ih_onekey_version ch)) (components (ih_onekey_version h)) <= 0.

(** Same vendor: the least version of the secure element is the one its header demands. *)
Definition minimum_set (off minimum : Z) (v : vendor_header) (h : image_header) : Prop :=
  forall cv ch n, current_headers = Val (Some (cv, ch), n) ->
  vendor_header_hash (drop (Z.to_nat off) mem) v = vendor_header_hash flash cv ->
  minimum = ih_se_minimum_version h.

(** System firmware at [off]: both headers signed, the code hashed, no downgrade. *)
Definition mcu_verified (minimum off len : Z) : Prop := exists size v h,
  let data := drop (Z.to_nat off) mem in
  let headers := vh_hdrlen v + IMAGE_HEADER_SIZE in
  vendor_accepted combine sign_open (addr + off) data size key_m key_n keys v /\
  image_accepted combine sign_open (drop (Z.to_nat (vh_hdrlen v)) data) FIRMWARE_IMAGE_MAGIC FIRMWARE_IMAGE_MAXSIZE
    (vh_vsig_m v) (vh_vsig_n v) (vendor_keys data v) h /\
  len = headers + ih_codelen h /\
  code_verified h headers 0 (slice mem (off + headers) (ih_codelen h)) true /\
  not_downgrade off v h /\ minimum_set off minimum v h.

Definition item_ok (minimum : Z) (it : update_item) : Prop :=
  it_type it = UPDATE_MCU /\ mcu_verified minimum (it_offset it) (it_length it) \/ it_type it = UPDATE_SE \/ it_type it = UPDATE_BLE.

(** A header for the first secure element, before [off], has this version. *)
Definition se_header_before (off version : Z) : Prop := exists o hdr, 0 <= o <= off /\
  load_thd89_image_header (drop (Z.to_nat o) mem) FIRMWARE_IMAGE_MAGIC_THD89 = Val hdr /\
  se_index (th_i2c_address hdr) = Some 0 /\ th_version hdr = version.

(** The walk at [off]: the items, the only system firmware, and the version of the first
    secure element that was met last. *)
Record walk_inv (off : Z) (u : update_info) : Prop := {
  wi_items : info_inv (item_ok (minimum u)) off u;
  wi_mcu : ui_mcu_location u = 0 -> forall i, 0 <= i < ui_item_count u -> it_type (item u i) <> UPDATE_MCU;
  wi_se : ui_se_new_version u = 0 \/ se_header_before off (ui_se_new_version u);
}.

Lemma walk_inv_empty : walk_inv 0 empty_info.
Proof. split; [apply info_inv_empty|cbn; lia|by left]. Qed.

Lemma se_header_mono off off' version : off <= off' -> se_header_before off version -> se_header_before off' version.
Proof. intros H (o & hdr & ? & ?). exists o, hdr. split; [lia|done]. Qed.

Lemma add_item_type u type off len i : zlen (ui_items u) = 6 -> 0 <= ui_item_count u < 6 -> 0 <= i < ui_item_count (add_item u type off len) ->
  it_type (item (add_item u type off len) i) = if i =? ui_item_count u then type else it_type (item u i).
Proof.
  intros Hl Hc Hi. cbn [add_item ui_item_count] in Hi. unfold add_item. cbn [ui_items].
  destruct (Z.eqb_spec i (ui_item_count u)) as [->|]; [by rewrite znth_zupd_eq by lia|]. by rewrite znth_zupd_ne by lia.
Qed.

(** A record with the items and their number of [v]. *)
Lemma no_mcu_ext u v : ui_items u = ui_items v -> ui_item_count u = ui_item_count v ->
  (forall i, 0 <= i < ui_item_count v -> it_type (item v i) <> UPDATE_MCU) -> forall i, 0 <= i < ui_item_count u -> it_type (item u i) <> UPDATE_MCU.
Proof. intros -> ->. auto. Qed.

Lemma no_mcu_versions u c n : (forall i, 0 <= i < ui_item_count u -> it_type (item u i) <> UPDATE_MCU) ->
  forall i, 0 <= i < ui_item_count (set_versions u c n) -> it_type (item (set_versions u c n) i) <> UPDATE_MCU.
Proof. intros H i Hi. rewrite item_set_versions by done. auto. Qed.

Lemma no_mcu_add u type off len : zlen (ui_items u) = 6 -> 0 <= ui_item_count u < 6 -> type <> UPDATE_MCU ->
  (forall i, 0 <= i < ui_item_count u -> it_type (item u i) <> UPDATE_MCU) ->
  forall i, 0 <= i < ui_item_count (add_item u type off len) -> it_type (item (add_item u type off len) i) <> UPDATE_MCU.
Proof.
  intros Hl Hc Ht H i Hi. rewrite add_item_type by done. cbn [add_item ui_item_count] in Hi.
  destruct (Z.eqb_spec i (ui_item_count u)); [done|]. apply H. lia.
Qed.

(** A turn moves on by a number of bytes that are left. *)
Definition moves (off len off' len' : Z) : Prop := off <= off' /\ 0 <= len' /\ off' + len' = off + len.

Lemma check_se_item_ok u off len u' off' len' : walk_inv off u -> ui_item_count u < 6 -> 0 <= off -> 0 <= len < 4294967296 ->
  check_se_item u off len = Next u' off' len' -> walk_inv off' u' /\ moves off len off' len'.
Proof.
  intros [Hi Hmcu Hse] Hc Ho Hl H. unfold Update.check_se_item in H. destruct (4 <=? _); [discriminate|].
  apply check_next in H as (hdr & EH & H). set (n := u32 (th_codelen hdr + IMAGE_HEADER_SIZE)) in *.
  pose proof (u32_range (th_codelen hdr + IMAGE_HEADER_SIZE)) as Hu. fold n in Hu.
  destruct (Z.ltb_spec len n); [discriminate|]. destruct (se_index _) as [index|] eqn:EX; [|discriminate].
  cbn zeta in H. apply next_inj in H as (-> & -> & ->).
  split; [|unfold moves; rewrite u32_small; lia]. pose proof (inv_count _ _ _ Hi).
  set (u1 := UpdateInfo _ _ _ _ _ _ _ _ _). set (u2 := set_versions u1 _ _).
  assert (I2 : info_inv (item_ok (minimum u)) off u2) by (apply info_inv_versions; by apply (info_inv_ext _ _ u)).
  assert (M2 : ui_mcu_location u = 0 -> forall i, 0 <= i < ui_item_count u2 -> it_type (item u2 i) <> UPDATE_MCU).
  { intros Hz. apply no_mcu_versions. apply (no_mcu_ext u1 u); auto. }
  assert (S2 : ui_se_new_version u2 = 0 \/ se_header_before (off + n) (ui_se_new_version u2)).
  { unfold u2, u1. cbn [set_versions ui_se_new_version]. destruct (Z.eqb_spec index 0) as [->|].
    - right. exists off, hdr. split; [lia|done].
    - destruct Hse; [by left|right]. apply (se_header_mono off); [lia|done]. }
  destruct (znth 0 (ui_se_address u2) index =? 0).
  - split; [|intros Hz|exact S2].
    + apply (info_inv_ext _ _ (add_item u2 UPDATE_SE off n)); [done..|]. apply info_inv_add; [done|done|lia|lia|].
      intros it Et _ _. right. by left.
    + apply (no_mcu_ext _ (add_item u2 UPDATE_SE off n)); [done..|].
      apply no_mcu_add; [apply (inv_len _ _ _ I2)|split; cbn; lia|done|by apply M2].
  - split; [|exact M2|exact S2]. apply (info_inv_mono _ off); [lia|done].
Qed.

Lemma check_ble_item_ok u off len u' off' len' : walk_inv off u -> ui_item_count u < 6 -> 0 <= off -> 0 <= len < 4294967296 ->
  check_ble_item u off len = Next u' off' len' -> walk_inv off' u' /\ moves off len off' len'.
Proof.
  intros [Hi Hmcu Hse] Hc Ho Hl H. unfold Update.check_ble_item in H.
  apply check_next in H as (hdr & _ & H). set (n := u32 (ih_codelen hdr + IMAGE_HEADER_SIZE)) in *.
  pose proof (u32_range (ih_codelen hdr + IMAGE_HEADER_SIZE)) as Hu. fold n in Hu.
  destruct (Z.ltb_spec len n); [discriminate|].
  cbn zeta in H. apply next_inj in H as (-> & -> & ->).
  split; [|unfold moves; rewrite u32_small; lia]. pose proof (inv_count _ _ _ Hi).
  set (u2 := set_versions u _ _). assert (I2 : info_inv (item_ok (minimum u)) off u2) by by apply info_inv_versions.
  split.
  - apply (info_inv_ext _ _ (add_item u2 UPDATE_BLE off n)); [done..|]. apply info_inv_add; [done|done|lia|lia|].
    intros it Et _ _. right. by right.
  - intros Hz. apply (no_mcu_ext _ (add_item u2 UPDATE_BLE off n)); [done..|].
    apply no_mcu_add; [apply (inv_len _ _ _ I2)|split; cbn; lia|done|]. apply no_mcu_versions. by apply Hmcu.
  - destruct Hse; [by left|right]. apply (se_header_mono off); [lia|done].
Qed.

Lemma compare_installed_ok data v h mi current mi' : compare_installed flash data v h mi current = Val (mi', None) ->
  forall cv ch, current = Some (cv, ch) -> vendor_header_hash data v = vendor_header_hash flash cv ->
  ih_purpose ch = ih_purpose h \/ ih_purpose h = FIRMWARE_PURPOSE_GENERAL ->
  version_compare (ih_onekey_version ch) (ih_onekey_version h) <= 0.
Proof.
  intros H cv ch -> Eh Hp. unfold compare_installed in H. repeat parse_step. assert (x = x0) as -> by congruence.
  rewrite bool_decide_true in H by done. destruct (Z.ltb_spec 0 (version_compare (ih_onekey_version ch) (ih_onekey_version h))); [|lia].
  destruct (Z.eqb_spec (ih_purpose ch) (ih_purpose h)); cbn [negb] in H; [discriminate|].
  destruct Hp as [?|Hp]; [done|]. rewrite Hp in H. discriminate.
Qed.

Lemma compare_installed_min data v h mi current mi' : compare_installed flash data v h mi current = Val (mi', None) ->
  forall cv ch, current = Some (cv, ch) -> vendor_header_hash data v = vendor_header_hash flash cv ->
  mi_se_minimum_version mi' = ih_se_minimum_version h.
Proof.
  intros H cv ch -> Eh. unfold compare_installed in H. repeat parse_step. assert (x = x0) as -> by congruence.
  rewrite bool_decide_true in H by done.
  destruct (negb _); [destruct (_ && _); [discriminate|]|destruct (0 <? _); [discriminate|]]; by injection H as <-.
Qed.

Lemma check_mcu_item_ok u off len u' off' len' : walk_inv off u -> ui_item_count u < 6 -> 0 <= off -> 0 <= len ->
  off + len <= zlen mem ->
  check_mcu_item u off len = Next u' off' len' -> walk_inv off' u' /\ moves off len off' len' /\ off < off'.
Proof.
  intros [Hi Hmcu Hse] Hc Ho Hl Hz H. unfold Update.check_mcu_item in H.
  destruct (Z.eqb_spec (ui_mcu_location u) 0) as [Hloc|]; [|discriminate]. cbn [negb] in H. specialize (Hmcu Hloc).
  apply check_next in H as (v & EV & H). apply load_vendor_header_accepted in EV; [|by apply Forall_drop|done..].
  set (data := drop (Z.to_nat off) mem) in *.
  assert (Hb : Forall is_byte data) by by apply Forall_drop.
  assert (Hd : zlen data = zlen mem - off) by (unfold data, zlen in *; rewrite length_drop; lia).
  pose proof (va_layout _ _ _ _ _ _ _ _ _ EV) as L. pose proof (vl_hdrlen _ _ _ _ L) as Lh. pose proof (vl_keys _ _ _ _ L) as [Lk _].
  destruct (_ || _); [discriminate|]. apply check_next in H as (h & EI & H).
  assert (Hmax : IMAGE_HEADER_SIZE <= FIRMWARE_IMAGE_MAXSIZE < 2 ^ 32) by (vm_compute; split; [discriminate|reflexivity]).
  apply load_image_header_iff in EI; [|by apply Forall_drop|done|
    eapply vendor_sig_range; [exact Hb|apply (va_fields _ _ _ _ _ _ _ _ _ EV)]|exact Lk].
  destruct (accepted_fields combine sign_open _ _ _ _ _ _ _ (Forall_drop _ _ _ Hb) EI) as [Hblk _].
  pose proof (ia_hdrlen _ _ _ _ _ _ _ _ _ EI) as Eh. pose proof (ia_codelen _ _ _ _ _ _ _ _ _ EI) as Ec. cbn zeta in H.
  assert (Hc1 : 0 < ih_codelen h <= 5767168 /\ 65 <= vh_hdrlen v <= 65536).
  { revert Ec Lh. unfold IMAGE_SIG_SIZE, VENDOR_HEADER_MAX_SIZE. change FIRMWARE_IMAGE_MAXSIZE with 5767168. unfold IMAGE_HEADER_SIZE. lia. }
  rewrite Eh in H. unfold IMAGE_HEADER_SIZE in H. rewrite (u32_small (vh_hdrlen v + 1024)) in H by lia.
  destruct (Z.ltb_spec len (vh_hdrlen v + 1024)); [discriminate|]. rewrite (u32_small (len - (vh_hdrlen v + 1024))) in H by lia.
  destruct (Z.ltb_spec (len - (vh_hdrlen v + 1024)) (ih_codelen h)); [discriminate|]. cbn [orb] in H.
  rewrite (u32_small (vh_hdrlen v + 1024 + ih_codelen h)) in H by lia.
  destruct (_ <? _); [discriminate|]. apply check_next in H as ([] & EC & H). destruct (negb _); [discriminate|].
  apply check_next in H as (cur & ECur & H). apply check_next in H as ([mi refused] & ECmp & H).
  destruct refused; [discriminate|]. cbn zeta in H. apply next_inj in H as (-> & -> & ->).
  assert (HC : code_verified h (vh_hdrlen v + IMAGE_HEADER_SIZE) 0 (slice mem (off + (vh_hdrlen v + IMAGE_HEADER_SIZE)) (ih_codelen h)) true).
  { unfold IMAGE_HEADER_SIZE. apply contents_iff in EC; unfold headers_len, is_u32 in *; rewrite ?Eh in *; unfold IMAGE_HEADER_SIZE in *; try lia.
    - unfold slice in *. unfold data in EC. rewrite drop_0, drop_drop in EC.
      replace (Z.to_nat (off + (vh_hdrlen v + 1024))) with (Z.to_nat off + Z.to_nat (vh_hdrlen v + 1024))%nat by lia. exact EC.
    - unfold zlen in *. rewrite length_drop. lia. }
  split; [|unfold moves; rewrite u32_small by lia; lia].
  set (u2 := set_versions _ _ _). set (n := vh_hdrlen v + 1024 + ih_codelen h). pose proof (inv_count _ _ _ Hi).
  assert (I2 : info_inv (item_ok (mi_se_minimum_version mi)) off u2).
  { apply info_inv_versions, (info_inv_ext _ _ u); [done..|]. revert Hi. apply info_inv_impl.
    intros i Hi [[Ht _]|Hk]; [by destruct (Hmcu i Hi)|by right]. }
  split.
  - apply (info_inv_ext _ _ (add_item u2 UPDATE_MCU off n)); [done..|]. apply info_inv_add; [done|done|lia|lia|].
    intros it Et Eo El. left. split; [done|]. exists len, v, h. cbn zeta. rewrite Eo, El. fold data.
    split; [done|]. split; [done|]. split; [done|]. split; [done|].
    split; intros cv ch k Ek Ev; rewrite Ek in ECur; apply val_inj in ECur; subst cur.
    + intros Ep. rewrite <- version_compare_lex. pose proof (compare_installed_ok _ _ _ _ _ _ ECmp cv ch eq_refl Ev Ep). lia.
    + by apply (compare_installed_min _ _ _ _ _ _ ECmp cv ch).
  - cbn [ui_mcu_location add_item ui_item_count set_versions set_mcu u2]. intros Hz8. exfalso. revert Hz8.
    change (ui_item_count u2) with (ui_item_count u). unfold u8, wrap. rewrite Z.mod_small; lia.
  - destruct Hse; [by left|right]. apply (se_header_mono off); [lia|done].
Qed.

(** Conversely, verified firmware that does not fit into the internal flash is recorded. *)
Lemma check_mcu_item_next u off len v h cur mi : ui_mcu_location u = 0 -> zlen (ui_items u) = 6 -> 0 <= ui_item_count u < 6 ->
  0 <= off -> 0 <= len -> off + len <= zlen mem ->
  let data := drop (Z.to_nat off) mem in
  let headers := vh_hdrlen v + IMAGE_HEADER_SIZE in
  vendor_accepted combine sign_open (addr + off) data len key_m key_n keys v ->
  image_accepted combine sign_open (drop (Z.to_nat (vh_hdrlen v)) data) FIRMWARE_IMAGE_MAGIC FIRMWARE_IMAGE_MAXSIZE
    (vh_vsig_m v) (vh_vsig_n v) (vendor_keys data v) h ->
  FIRMWARE_IMAGE_INNER_SIZE <= headers + ih_codelen h -> headers + ih_codelen h <= FIRMWARE_IMAGE_MAXSIZE ->
  headers + ih_codelen h <= len -> headers + ih_codelen h <= FIRMWARE_IMAGE_INNER_SIZE + FMC_SDRAM_FIRMWARE_P2_LEN ->
  code_verified h headers 0 (slice mem (off + headers) (ih_codelen h)) true ->
  current_headers = Val cur -> compare_installed flash data v h (ui_mcu u) (fst cur) = Val (mi, None) ->
  exists u', check_mcu_item u off len = Next u' (off + (headers + ih_codelen h)) (len - (headers + ih_codelen h)) /\
    minimum u' = mi_se_minimum_version mi /\ ui_se_new_version u' = ui_se_new_version u /\
    ui_item_count u' = ui_item_count u + 1 /\ it_type (item u' (ui_item_count u)) = UPDATE_MCU.
Proof.
  intros Hloc Hz6 Hc Ho Hl Hz data headers EV EI Hi Hmx Hle Hp2 HC ECur ECmp. unfold headers in *. clear headers.
  unfold Update.check_mcu_item. rewrite Hloc. cbn [negb Z.eqb]. fold data.
  rewrite (vendor_accepted_loads _ _ _ _ _ Hm Hn _ _ _ _ EV). cbn [check].
  assert (Hb : Forall is_byte data) by by apply Forall_drop.
  assert (Hd : zlen data = zlen mem - off) by (unfold data, zlen in *; rewrite length_drop; lia).
  pose proof (va_layout _ _ _ _ _ _ _ _ _ EV) as L. pose proof (vl_hdrlen _ _ _ _ L) as Lh. pose proof (vl_keys _ _ _ _ L) as [Lk _].
  pose proof (vendor_sig_range _ _ _ _ Hb (va_fields _ _ _ _ _ _ _ _ _ EV)) as Hm'.
  assert (Hmax : IMAGE_HEADER_SIZE <= FIRMWARE_IMAGE_MAXSIZE < 2 ^ 32) by (vm_compute; split; [discriminate|reflexivity]).
  destruct (accepted_fields combine sign_open _ _ _ _ _ _ _ (Forall_drop _ _ _ Hb) EI) as [Hblk _].
  pose proof (ia_hdrlen _ _ _ _ _ _ _ _ _ EI) as Eh. pose proof (ia_codelen _ _ _ _ _ _ _ _ _ EI) as Ec.
  change FIRMWARE_IMAGE_MAXSIZE with 5767168 in Hmx, Ec. change FIRMWARE_IMAGE_INNER_SIZE with 1572864 in *.
  change FMC_SDRAM_FIRMWARE_P2_LEN with 4194304 in *. unfold IMAGE_HEADER_SIZE, IMAGE_SIG_SIZE, VENDOR_HEADER_MAX_SIZE in *.
  rewrite (proj2 (Z.ltb_ge len (vh_hdrlen v))), (u32_small (len - vh_hdrlen v)) by lia.
  rewrite (proj2 (Z.ltb_ge (len - vh_hdrlen v) 1024)) by lia. cbn [orb].
  rewrite (proj2 (load_image_header_iff combine sign_open _ _ _ _ _ _ h (Forall_drop _ _ _ Hb) Hmax Hm' Lk) EI). cbn [check].
  rewrite Eh, (u32_small (vh_hdrlen v + 1024)), (u32_small (len - (vh_hdrlen v + 1024))) by lia.
  rewrite (proj2 (Z.ltb_ge len (vh_hdrlen v + 1024))), (proj2 (Z.ltb_ge (len - (vh_hdrlen v + 1024)) (ih_codelen h))) by lia. cbn [orb].
  rewrite (u32_small (1572864 - (vh_hdrlen v + 1024))), (u32_small (ih_codelen h - _)), (proj2 (Z.ltb_ge 4194304 _)) by lia.
  rewrite (u32_small (vh_hdrlen v + 1024 + ih_codelen h)) by lia.
  rewrite (proj2 (contents_iff (Some v) h (drop (Z.to_nat (vh_hdrlen v + 1024)) data) 0 (ih_codelen h) true Hblk
    ltac:(unfold headers_len; lia) ltac:(unfold headers_len, is_u32; lia) ltac:(unfold is_u32, zlen in *; rewrite length_drop; lia))).
  2:{ unfold headers_len. rewrite Eh. unfold code_verified, slice, data in *. rewrite drop_0, drop_drop.
      replace (Z.to_nat off + Z.to_nat (vh_hdrlen v + 1024))%nat with (Z.to_nat (off + (vh_hdrlen v + 1024))) by lia. exact HC. }
  cbn [check]. change FIRMWARE_IMAGE_MAXSIZE with 5767168. rewrite (proj2 (Z.leb_le _ 5767168)) by lia. cbn [negb].
  rewrite ECur. cbn [check]. rewrite ECmp. cbn [check]. rewrite (u32_small (len - _)) by lia.
  eexists. split; [reflexivity|]. split; [reflexivity|]. split; [reflexivity|]. split; [reflexivity|].
  cbn [ui_items add_item]. rewrite znth_zupd_eq; [reflexivity|]. cbn [set_versions set_mcu ui_items ui_item_count]. rewrite zlen_zupd. lia.
Qed.

Lemma check_item_ok u off len u' off' len' : walk_inv off u -> 0 <= off -> 0 <= len -> off + len <= zlen mem ->
  check_item u off len = Next u' off' len' -> walk_inv off' u' /\ moves off len off' len'.
Proof.
  intros Hi Ho Hl Hz H. unfold Update.check_item, UPDATE_ITEM_COUNT in H. destruct (Z.leb_spec 6 (ui_item_count u)); [discriminate|].
  apply check_next in H as (magic & _ & H). case_bool_decide.
  { apply check_mcu_item_ok in H as (? & ? & ?); auto. }
  case_bool_decide; [apply check_se_item_ok in H; auto with lia|].
  case_bool_decide; [apply check_ble_item_ok in H; auto with lia|discriminate].
Qed.

Lemma check_items_ok fuel : forall u off len u', walk_inv off u -> 0 <= off -> 0 <= len -> off + len <= zlen mem ->
  check_items fuel u off len = Accepted u' -> walk_inv (off + len) u' /\ check_se_version se_versions u' = true.
Proof.
  induction fuel as [|fuel IH]; intros u off len u' Hi Ho Hl Hz H; cbn [Update.check_items] in H.
  - destruct (Z.eqb_spec len 0) as [->|]; [|discriminate]. destruct (check_se_version _ u) eqn:E; [|discriminate].
    injection H as <-. by rewrite Z.add_0_r.
  - destruct (Z.eqb_spec len 0) as [->|].
    { destruct (check_se_version _ u) eqn:E; [|discriminate]. injection H as <-. by rewrite Z.add_0_r. }
    destruct (check_item u off len) as [u1 off1 len1| |] eqn:E; try discriminate.
    apply check_item_ok in E as [I1 (? & ? & E1)]; [|done..]. rewrite <- E1. apply (IH _ _ _ _ I1) in H; [done|lia..].
Qed.

(** ** Termination *)

(** The states the walk over a file of [buffer_len] bytes goes through. *)
Inductive reached (buffer_len : Z) : update_info -> Z -> Z -> Prop :=
  | reached_start : reached buffer_len empty_info 0 buffer_len
  | reached_step u off len u' off' len' : reached buffer_len u off len -> len <> 0 ->
      check_item u off len = Next u' off' len' -> reached buffer_len u' off' len'.

(** The length in every secure element or Bluetooth header that is met can be added to the
    size of the header without overflow. *)
Definition lengths_fit (buffer_len : Z) : Prop := forall u off len, reached buffer_len u off len -> len <> 0 ->
  slice mem off 4 = SE_HEADER_MAGIC \/ slice mem off 4 = BLE_HEADER_MAGIC ->
  le_val (slice mem (off + 12) 4) + IMAGE_HEADER_SIZE < 2 ^ 32.

Lemma slice_of_drop {A} (l : list A) off k n : 0 <= off -> 0 <= k -> slice (drop (Z.to_nat off) l) k n = slice l (off + k) n.
Proof. intros. unfold slice. rewrite drop_drop. do 2 f_equal. lia. Qed.

Lemma zlen_drop {A} (l : list A) off : 0 <= off <= zlen l -> zlen (drop (Z.to_nat off) l) = zlen l - off.
Proof. intros. unfold zlen in *. rewrite length_drop. lia. Qed.

Lemma se_codelen off magic hdr : 0 <= off -> load_thd89_image_header (drop (Z.to_nat off) mem) magic = Val hdr ->
  th_codelen hdr = le_val (slice mem (off + 12) 4) /\ off + 16 <= zlen mem.
Proof.
  intros Ho H. unfold load_thd89_image_header in H. repeat parse_step. apply val_inj in H. parse_clean. subst hdr. cbn [th_codelen].
  rewrite slice_of_drop by lia. split; [done|]. unfold zlen in *. rewrite length_drop in *. lia.
Qed.

Lemma ble_codelen off magic hdr : 0 <= off -> load_ble_image_header (drop (Z.to_nat off) mem) magic = Val hdr ->
  ih_codelen hdr = le_val (slice mem (off + 12) 4) /\ off + 16 <= zlen mem.
Proof.
  intros Ho H. unfold load_ble_image_header in H. repeat parse_step. apply val_inj in H. parse_clean. subst hdr. cbn [ih_codelen].
  rewrite slice_of_drop by lia. split; [done|]. unfold zlen in *. rewrite length_drop in *. lia.
Qed.

(** Without overflow every item takes something of the file. *)
Lemma check_item_moves u off len u' off' len' : walk_inv off u -> 0 <= off -> 0 <= len -> off + len <= zlen mem ->
  (slice mem off 4 = SE_HEADER_MAGIC \/ slice mem off 4 = BLE_HEADER_MAGIC ->
   le_val (slice mem (off + 12) 4) + IMAGE_HEADER_SIZE < 2 ^ 32) ->
  check_item u off len = Next u' off' len' -> off < off'.
Proof.
  intros Hi Ho Hl Hz Hf H. unfold Update.check_item, UPDATE_ITEM_COUNT in H. destruct (Z.leb_spec 6 (ui_item_count u)); [discriminate|].
  apply check_next in H as (magic & ER & H). apply read_val in ER as (_ & _ & _ & ->). case_bool_decide as B1.
  { apply check_mcu_item_ok in H as (? & ? & ?); auto. }
  assert (R : forall x, off + 16 <= zlen mem -> x = le_val (slice mem (off + 12) 4) -> x + IMAGE_HEADER_SIZE < 2 ^ 32 ->
    0 < u32 (x + IMAGE_HEADER_SIZE)).
  { intros x Hx -> Hlt. pose proof (slice_range mem (off + 12) 4 Hbytes ltac:(lia) ltac:(lia) ltac:(lia)). unfold IMAGE_HEADER_SIZE in *.
    rewrite u32_small; lia. }
  case_bool_decide as B2; [|case_bool_decide as B3; [|discriminate]].
  - unfold Update.check_se_item in H. destruct (4 <=? _); [discriminate|]. apply check_next in H as (hdr & EH & H).
    apply se_codelen in EH as [Ec Hx]; [|done]. specialize (R _ Hx Ec). rewrite Ec in R. cbn zeta in H.
    destruct (_ <? _); [discriminate|]. destruct (se_index _); [|discriminate]. apply next_inj in H as (_ & -> & _). rewrite Ec. specialize (R (Hf (or_introl B2))). lia.
  - unfold Update.check_ble_item in H. apply check_next in H as (hdr & EH & H).
    apply ble_codelen in EH as [Ec Hx]; [|done]. specialize (R _ Hx Ec). rewrite Ec in R. cbn zeta in H.
    destruct (_ <? _); [discriminate|]. apply next_inj in H as (_ & -> & _). rewrite Ec. specialize (R (Hf (or_intror B3))). lia.
Qed.

Lemma reached_inv buffer_len u off len : 0 <= buffer_len <= zlen mem -> reached buffer_len u off len ->
  walk_inv off u /\ 0 <= off /\ 0 <= len /\ off + len = buffer_len.
Proof.
  intros Hb. induction 1 as [|u off len u' off' len' _ (I & ? & ? & Eb) Hlen E]; [split; [apply walk_inv_empty|lia]|].
  destruct (check_item_ok u off len _ _ _ I ltac:(lia) ltac:(lia) ltac:(lia) E) as (? & ? & ? & ?). split; [done|lia].
Qed.

Lemma check_items_total buffer_len : 0 <= buffer_len <= zlen mem -> lengths_fit buffer_len -> forall fuel u off len,
  len <= Z.of_nat fuel -> reached buffer_len u off len -> check_items fuel u off len <> Unfinished.
Proof.
  intros Hb Hf. induction fuel as [|fuel IH]; intros u off len Hl Hr; destruct (reached_inv _ _ _ _ Hb Hr) as (I & ? & ? & <-);
    cbn [Update.check_items]; (destruct (Z.eqb_spec len 0); [by destruct (check_se_version _ u)|]); [lia|].
  destruct (check_item u off len) as [u' off' len'| |] eqn:E; [|done..].
  pose proof (check_item_moves u off len _ _ _ I ltac:(lia) ltac:(lia) ltac:(lia) (Hf u off len Hr ltac:(done)) E).
  pose proof (check_item_ok u off len _ _ _ I ltac:(lia) ltac:(lia) ltac:(lia) E) as [_ (? & ? & ?)].
  apply IH; [lia|]. by eapply reached_step.
Qed.

End Check.
(** ** What goes wrong *)

(** A secure element item whose length overflows to zero, for the first element. *)
Definition se_header (codelen version : Z) : list Z :=
  SE_HEADER_MAGIC ++ zrep 8 0 ++ le_bytes 4 codelen ++ le_bytes 4 version ++ zrep 8 0 ++ [0x10] ++ zrep 995 0.

Lemma hang_turns combine sign_open key_m key_n keys ble_version flash_addr flash addr :
  exists u1 u2, let step u := check_item combine sign_open key_m key_n keys [[49; 46; 48; 46; 48]] ble_version flash_addr flash addr
    (se_header 0xFFFFFC00 0) u 0 1024 in
  step empty_info = Next u1 0 1024 /\ step u1 = Next u2 0 1024 /\ step u2 = Next u2 0 1024.
Proof.
  eexists _, _. cbn beta zeta. split; [vm_compute; reflexivity|]. split; [vm_compute; reflexivity|]. vm_compute. reflexivity.
Qed.

(** A second item for the first element is not recorded, but its version counts. *)
Lemma duplicate_se_version combine sign_open key_m key_n keys ble_version flash_addr flash addr : exists u,
  check_file_contents combine sign_open key_m key_n keys [[49; 46; 48; 46; 48]] ble_version flash_addr flash addr
    (se_header 0 0x000001 ++ se_header 0 0x090909) 2 2048 = Accepted u /\
  ui_item_count u = 1 /\ it_new_version (item u 0) = strncpy32 (ver_string 0x000001) /\ ui_se_new_version u = 0x090909.
Proof. eexists. split; [vm_compute; reflexivity|]. split; [reflexivity|]. split; vm_compute; reflexivity. Qed.

(** Firmware that fits into the internal flash is refused as too big for the second part. *)
Lemma small_firmware_refused headers codelen : 0 <= headers -> 0 <= codelen -> headers + codelen < FIRMWARE_IMAGE_INNER_SIZE ->
  FMC_SDRAM_FIRMWARE_P2_LEN < u32 (codelen - u32 (FIRMWARE_IMAGE_INNER_SIZE - headers)).
Proof.
  change FIRMWARE_IMAGE_INNER_SIZE with 1572864. change FMC_SDRAM_FIRMWARE_P2_LEN with 4194304. intros Hh Hc Hs.
  rewrite (u32_small (1572864 - headers)) by lia. unfold u32, wrap.
  rewrite <- (Z_mod_plus_full _ 1), Z.mod_small by lia. lia.
Qed.

(** Versions as packed words do not compare as versions: 2.10.0 is below 2.9.1. *)
Lemma packed_order_differs : 0x000A02 < 0x010902 /\ version_compare 0x010902 0x000A02 < 0.
Proof. vm_compute. split; reflexivity. Qed.

Lemma boot_contents combine sign_open key_m key_n keys mem hdr : Forall is_byte mem -> BOOTLOADER_IMAGE_MAXSIZE <= zlen mem ->
  image_accepted combine sign_open mem BOOTLOADER_IMAGE_MAGIC BOOTLOADER_IMAGE_MAXSIZE key_m key_n keys hdr ->
  (check_image_contents_ADV None hdr (drop (Z.to_nat (ih_hdrlen hdr)) mem) 0 (ih_codelen hdr) true = Val ()) <->
  code_verified hdr IMAGE_HEADER_SIZE 0 (slice mem IMAGE_HEADER_SIZE (ih_codelen hdr)) true.
Proof.
  intros Hb Hs E. destruct (accepted_fields combine sign_open _ _ _ _ _ _ _ Hb E) as [Hblk _].
  pose proof (ia_hdrlen _ _ _ _ _ _ _ _ _ E) as Eh. pose proof (ia_codelen _ _ _ _ _ _ _ _ _ E) as Ec.
  unfold IMAGE_HEADER_SIZE, BOOTLOADER_IMAGE_MAXSIZE, BOOTLOADER_SECTORS_COUNT, IMAGE_CHUNK_SIZE in *.
  rewrite contents_iff; [|done|unfold headers_len; lia|unfold headers_len, is_u32; lia|
    unfold is_u32, zlen in *; rewrite length_drop; lia].
  unfold headers_len, code_verified. rewrite Eh. unfold slice. by rewrite drop_0.
Qed.

(** ** Properties *)

(** The secure element is new enough for the firmware: where a least version is demanded,
    the version judged, which is that of the header met last for the first element or else the
    installed one, is not below it, and a new version is not below the installed one. The
    installed version is read as a string of major, minor and patch. *)
Definition se_sufficient (se_versions : list (list Z)) (u : update_info) : Prop :=
  forall installed, znth [] se_versions 0 = ver_string installed -> minimum u <> 0 ->
  if ui_se_new_version u =? 0 then 0 <= lex (take 3 (components installed)) (take 3 (components (minimum u)))
  else 0 <= lex (components (ui_se_new_version u)) (components (minimum u)) /\
       0 <= lex (take 3 (components (ui_se_new_version u))) (take 3 (components installed)).

Lemma compare_ver_strings a b :
  compare_str_version (ver_string a) (ver_string b) = lex (take 3 (components a)) (take 3 (components b)).
Proof.
  unfold ver_string. destruct (format_ver_ok (zrep 64 0) a eq_refl) as (sa & -> & _ & ->).
  destruct (format_ver_ok (zrep 64 0) b eq_refl) as (sb & -> & _ & ->). apply compare_dotted; apply Forall_take, components_bytes.
Qed.

Lemma check_se_version_ok se_versions u : check_se_version se_versions u = true -> se_sufficient se_versions u.
Proof.
  unfold check_se_version. intros H installed Hi Hz. destruct (Z.eqb_spec (minimum u) 0); [done|]. cbn [negb] in H.
  rewrite Hi in H. rewrite !compare_ver_strings in H. destruct (Z.eqb_spec (ui_se_new_version u) 0); cbn [negb] in H.
  - destruct (Z.ltb_spec (lex (take 3 (components installed)) (take 3 (components (minimum u)))) 0); [discriminate|done].
  - destruct (Z.ltb_spec (lex (take 3 (components (ui_se_new_version u))) (take 3 (components installed))) 0); [discriminate|].
    destruct (Z.ltb_spec (version_compare (ui_se_new_version u) (minimum u)) 0); [discriminate|].
    rewrite <- version_compare_lex. lia.
Qed.


(** An update with system firmware that demands version 1.0.0 of the secure element, for a
    device with older firmware of the same vendor. *)
Definition upd_header (hs : list Z) : list Z :=
  [0x54; 0x43; 0x32; 0x46] ++ le_bytes 4 1024 ++ zrep 4 0 ++ le_bytes 4 1572864 ++ zrep 8 0 ++ le_bytes 4 2 ++ le_bytes 4 0x200000 ++
  hs ++ zrep 484 0 ++ le_bytes 4 1 ++ zrep 407 0 ++ [1] ++ zrep 64 7.

Definition upd_code : list Z := zrep 1572864 0.

Lemma upd_code_ok : zlen upd_code = 1572864 /\ Forall is_byte upd_code.
Proof. split; [by apply zlen_zrep|by apply Forall_zrep]. Qed.
#[local] Opaque upd_code demo_code.

Lemma upd_header_ok hs rest : length hs = 32%nat -> Forall is_byte (upd_header hs ++ rest) ->
  forall h, h = header_at (upd_header hs ++ rest) ->
  image_accepted demo_combine demo_sign_open (upd_header hs ++ rest) FIRMWARE_IMAGE_MAGIC FIRMWARE_IMAGE_MAXSIZE 1 1
    (zrep 32 7 :: replicate 7 []) h /\
  ih_codelen h = 1572864 /\ chunk_size h = 0x200000 /\ ih_hashes h = hs ++ zrep 480 0 /\
  ih_onekey_version h = 2 /\ ih_purpose h = 0 /\ ih_se_minimum_version h = 1.
Proof.
  intros Hl Hb h ->. do 32 (destruct hs as [|? hs]; [discriminate Hl|]). destruct hs; [|discriminate Hl].
  unfold chunk_size. split; [|cbn [header_at ih_codelen ih_hash_block ih_hashes ih_onekey_version ih_purpose ih_se_minimum_version];
    repeat split; vm_compute; reflexivity].
  demo_accepted ltac:(unfold upd_header).
Qed.

Lemma upd_header_len hs : length hs = 32%nat -> zlen (upd_header hs) = 1024.
Proof. intros H. unfold upd_header. assert (zlen hs = 32) by (unfold zlen; lia). zlen. Qed.

Definition upd_mem : list Z := demo_vendor ++ upd_header (H256 upd_code) ++ upd_code.

Lemma upd_mem_ok : zlen upd_mem = 1574021 /\ Forall is_byte upd_mem.
Proof.
  pose proof (H256_shape upd_code) as [Hl Hb]. destruct upd_code_ok as [Lc Hc]. unfold upd_mem.
  generalize dependent (H256 upd_code). generalize dependent upd_code. intros code Lc Hc hs Hl Hb.
  split.
  { rewrite !zlen_app, upd_header_len, Lc by done. reflexivity. }
  unfold upd_header.
  repeat apply Forall_app_2; try assumption; apply (bool_decide_unpack _); vm_compute; exact I.
Qed.

Definition upd_h : image_header := header_at (upd_header (H256 upd_code)).

(** The headers of the installed firmware. *)
Lemma demo_current : current_headers demo_combine demo_sign_open 1 1 [zrep 32 7] 0 (demo_mem []) = Val (Some (demo_v, demo_h), 0) /\
  ih_onekey_version demo_h = 0 /\ ih_purpose demo_h = 0.
Proof.
  pose proof (demo_firmware [] [] ltac:(constructor)) as [EV EI _ _]. pose proof (demo_bytes [] ltac:(constructor)) as Hb.
  assert (F : ih_onekey_version demo_h = 0 /\ ih_purpose demo_h = 0).
  { pose proof (proj1 (H256_shape demo_code)) as Hh. unfold demo_h. generalize dependent (H256 demo_code). intros hs Hh.
    do 32 (destruct hs as [|? hs]; [discriminate Hh|]). destruct hs; [|discriminate Hh].
    cbn [header_at ih_onekey_version ih_purpose]. split; vm_compute; reflexivity. }
  assert (Hmax : IMAGE_HEADER_SIZE <= FIRMWARE_IMAGE_MAXSIZE < 2 ^ 32) by (vm_compute; split; [discriminate|reflexivity]).
  split; [|exact F]. destruct F as [F _]. unfold current_headers.
  rewrite (vendor_accepted_loads demo_combine demo_sign_open 1 1 [zrep 32 7] ltac:(lia) ltac:(lia) _ _ _ _ EV).
  rewrite (proj2 (load_image_header_iff _ _ _ _ _ (vh_vsig_m demo_v) (vh_vsig_n demo_v) _ demo_h (Forall_drop _ _ _ Hb) Hmax ltac:(vm_compute; discriminate) ltac:(vm_compute; split; discriminate)) EI).
  by rewrite F.
Qed.

(** The headers of the update and its code, covered by one hash. *)
Lemma upd_headers : upd_h = header_at (upd_header (H256 upd_code) ++ upd_code) /\
  Forall is_byte (upd_header (H256 upd_code) ++ upd_code) /\ drop (Z.to_nat 133) upd_mem = upd_header (H256 upd_code) ++ upd_code.
Proof.
  pose proof (proj1 (H256_shape upd_code)) as Hh.
  assert (Hd : drop (Z.to_nat 133) upd_mem = upd_header (H256 upd_code) ++ upd_code) by (apply (drop_app_length' demo_vendor); reflexivity).
  split; [|split; [|exact Hd]].
  - symmetry. apply header_at_app. rewrite upd_header_len by exact Hh. unfold IMAGE_HEADER_SIZE. lia.
  - rewrite <- Hd. apply Forall_drop, upd_mem_ok.
Qed.

Lemma upd_code_verified : code_verified upd_h 1157 0 (slice upd_mem 1157 1572864) true.
Proof.
  destruct upd_code_ok as [Lc _]. pose proof (proj1 (H256_shape upd_code)) as Hh. destruct upd_headers as (HA & Hbd & _).
  destruct (upd_header_ok _ _ Hh Hbd upd_h HA) as (_ & _ & Hck & Hhs & _).
  assert (slice upd_mem 1157 1572864 = upd_code) as ->.
  { pose proof (slice_mid (demo_vendor ++ upd_header (H256 upd_code)) upd_code [] 1157 1572864) as S.
    rewrite app_nil_r, <- app_assoc in S. apply S; [|symmetry; exact Lc].
    rewrite zlen_app, upd_header_len by exact Hh. reflexivity. }
  unfold code_verified. rewrite Hck. change ((0 + 1157) / 0x200000) with 0. unfold code_parts. rewrite Hck, Hhs.
  unfold code_pieces. change (0 =? 0) with true. cbn iota. rewrite take_ge, drop_ge by (unfold zlen in Lc; lia).
  split; [split; [exact (first_hash _ Hh)|exact I]|]. change (zlen (upd_code :: pieces 0x200000 [])) with 1. split.
  - rewrite zlen_app, zlen_zrep by lia. unfold zlen. rewrite Hh. lia.
  - intros _ i Hi. apply zero_hashes; [exact Hh|lia].
Qed.

(** The same vendor, a newer version of the same purpose: nothing is wiped. *)
Lemma upd_compare : compare_installed (demo_mem []) upd_mem demo_v upd_h (McuInfo false false false 0 0) (Some (demo_v, demo_h))
  = Val (McuInfo false false false 0 1, None).
Proof.
  destruct demo_current as (_ & Dv & Dp). destruct upd_headers as (HA & Hbd & _).
  destruct (upd_header_ok _ _ (proj1 (H256_shape upd_code)) Hbd upd_h HA) as (_ & _ & _ & _ & Hov & Hpu & Hmi).
  assert (R : forall rest, vendor_header_hash (demo_vendor ++ rest) demo_v = Val (blake2s_chunks [[97; 98; 99]; vendor_label])).
  { intros rest. unfold vendor_header_hash. rewrite read_in; [reflexivity|vm_compute; discriminate|vm_compute; discriminate|].
    rewrite zlen_app. pose proof (zlen_nonneg rest). change (zlen demo_vendor) with 133. cbn [demo_v vh_vstr vh_vstr_len]. lia. }
  unfold compare_installed, demo_mem, upd_mem. rewrite !R. cbn [mbind res_bind]. rewrite bool_decide_true by reflexivity.
  rewrite Dv, Dp, Hov, Hpu, Hmi. reflexivity.
Qed.

Lemma upd_vendor : vendor_accepted demo_combine demo_sign_open 0 upd_mem 1574021 1 1 [zrep 32 7] demo_v /\
  vendor_keys upd_mem demo_v = zrep 32 7 :: replicate 7 [] /\ slice upd_mem 0 4 = MCU_HEADER_MAGIC.
Proof.
  destruct upd_mem_ok as [Lm Hb]. split; [|split].
  - apply demo_vendor_ok; fold upd_mem; [rewrite Lm; lia|exact Hb].
  - unfold upd_mem. generalize (upd_header (H256 upd_code) ++ upd_code). intros rest. vm_compute. reflexivity.
  - unfold upd_mem. generalize (upd_header (H256 upd_code) ++ upd_code). intros rest. reflexivity.
Qed.

#[local] Opaque upd_mem demo_mem upd_h demo_h.

Lemma upd_accepted : exists u,
  check_file_contents demo_combine demo_sign_open 1 1 [zrep 32 7] [[49; 46; 48; 46; 48]] None 0 (demo_mem []) 0 upd_mem 1 1574021 = Accepted u /\
  ui_item_count u = 1 /\ it_type (item u 0) = UPDATE_MCU /\ minimum u = 1.
Proof.
  destruct upd_mem_ok as [Lm Hb]. destruct upd_headers as (HA & Hbd & Hd).
  destruct (upd_header_ok _ _ (proj1 (H256_shape upd_code)) Hbd upd_h HA) as (IA & Hcl & _).
  destruct upd_vendor as (EV & Hk & Hmag).
  destruct (check_mcu_item_next demo_combine demo_sign_open 1 1 [zrep 32 7] 0 (demo_mem []) 0 upd_mem ltac:(lia) ltac:(lia) Hb ltac:(lia)
    empty_info 0 1574021 demo_v upd_h (Some (demo_v, demo_h), 0) (McuInfo false false false 0 1)) as (u & E & M & N & C & T).
  - reflexivity.
  - reflexivity.
  - cbn [empty_info ui_item_count]. lia.
  - lia.
  - lia.
  - lia.
  - exact EV.
  - change (drop (Z.to_nat 0) upd_mem) with upd_mem. rewrite Hk. change (vh_hdrlen demo_v) with 133. rewrite Hd. exact IA.
  - rewrite Hcl. vm_compute. discriminate.
  - rewrite Hcl. vm_compute. discriminate.
  - rewrite Hcl. vm_compute. discriminate.
  - rewrite Hcl. vm_compute. discriminate.
  - rewrite Hcl. exact upd_code_verified.
  - exact (proj1 demo_current).
  - exact upd_compare.
  - rewrite Hcl in E. change (vh_hdrlen demo_v + IMAGE_HEADER_SIZE + 1572864) with 1574021 in E.
    exists u. split; [|split; [exact C|split; [exact T|exact M]]].
    unfold check_file_contents. change (1574021 <? IMAGE_HEADER_SIZE) with false. cbn iota. cbn [check_items].
    change (1574021 =? 0) with false. cbn iota. unfold check_item. change (UPDATE_ITEM_COUNT <=? ui_item_count empty_info) with false. cbn iota.
    rewrite read_in by lia. cbn [check]. rewrite Hmag, bool_decide_true by reflexivity. rewrite E.
    change (1574021 - 1574021) with 0. cbn [check_items Z.eqb].
    assert (S : check_se_version [[49; 46; 48; 46; 48]] u = true) by (unfold check_se_version; rewrite M, N; vm_compute; reflexivity).
    rewrite S. reflexivity.
Qed.

Definition ble_header : list Z := BLE_HEADER_MAGIC ++ zrep 8 0 ++ le_bytes 4 512 ++ le_bytes 4 0x010203 ++ zrep 1004 0.



(** C37: The walk over an update file ends within as many turns as the file has bytes, with a
    verdict or a fault, provided no secure element or Bluetooth header that is met has a
    length that overflows when the size of the header is added. *)
Theorem update_check_terminates combine sign_open key_m key_n keys se_versions ble_version flash_addr flash addr mem buffer_len :
  0 <= key_m -> 0 <= key_n <= 8 -> Forall is_byte mem -> zlen mem < 4294967296 -> 0 <= buffer_len <= zlen mem ->
  lengths_fit combine sign_open key_m key_n keys se_versions ble_version flash_addr flash addr mem buffer_len ->
  check_file_contents combine sign_open key_m key_n keys se_versions ble_version flash_addr flash addr mem
    (Z.to_nat buffer_len) buffer_len <> Unfinished.
Proof.
  intros Hm Hn Hb Hs Hl Hf. unfold check_file_contents. destruct (_ <? _); [discriminate|].
  apply (check_items_total _ _ _ _ _ _ _ _ _ _ _ Hm Hn Hb Hs buffer_len Hl Hf); [lia|constructor].
Qed.

Lemma demo_lengths_fit : lengths_fit demo_combine demo_sign_open 1 1 [] [] None 0 [] 0 (ble_header ++ zrep 512 7) 1536.
Proof.
  assert (R : forall u off len, reached demo_combine demo_sign_open 1 1 [] [] None 0 [] 0 (ble_header ++ zrep 512 7) 1536 u off len ->
    off = 0 /\ u = empty_info /\ len = 1536 \/ len = 0).
  { induction 1 as [|u off len u' off' len' _ [(-> & -> & ->)|Hz] Hl E]; [by left| |by rewrite Hz in Hl]. right. revert E. vm_compute. by intros [=]. }
  intros u off len Hr Hl _. apply R in Hr as [(-> & _)|?]; [vm_compute; reflexivity|done].
Qed.

Lemma update_check_terminates_witness :
  check_file_contents demo_combine demo_sign_open 1 1 [] [] None 0 [] 0 (ble_header ++ zrep 512 7) (Z.to_nat 1536) 1536 <> Unfinished.
Proof.
  refine (update_check_terminates demo_combine demo_sign_open 1 1 [] [] None 0 [] 0 (ble_header ++ zrep 512 7) 1536 _ _ _ _ _ demo_lengths_fit);
    [lia|lia|apply (bool_decide_unpack _); vm_compute; exact I|vm_compute; reflexivity|vm_compute; split; discriminate].
Defined.

(** C38: The walk need not end: for a file with one secure element item whose length
    overflows to zero, no number of turns is enough.  The item is recorded once, and from
    then on skipped without moving on. *)
Theorem update_walk_may_hang combine sign_open key_m key_n keys ble_version flash_addr flash addr fuel :
  check_file_contents combine sign_open key_m key_n keys [[49; 46; 48; 46; 48]] ble_version flash_addr flash addr
    (se_header 0xFFFFFC00 0) fuel IMAGE_HEADER_SIZE = Unfinished.
Proof.
  destruct (hang_turns combine sign_open key_m key_n keys ble_version flash_addr flash addr) as (u1 & u2 & E1 & E2 & E3).
  assert (L : forall f, check_items combine sign_open key_m key_n keys [[49; 46; 48; 46; 48]] ble_version flash_addr flash addr
    (se_header 0xFFFFFC00 0) f u2 0 1024 = Unfinished).
  { induction f as [|f IH]; [done|]. cbn [check_items]. rewrite E3. exact IH. }
  unfold check_file_contents, IMAGE_HEADER_SIZE. change (1024 <? 1024) with false. cbn iota.
  destruct fuel as [|fuel]; [done|]. cbn [check_items]. rewrite E1.
  destruct fuel as [|fuel]; [done|]. cbn [check_items]. rewrite E2. apply L.
Qed.

(** A new bootloader is reported as installable exactly when a file of an admissible
    size was read completely, its header is signed by the device keys, its code matches the
    signed hashes, its size is the one in the header and its packed version word is not
    below the running one. *)
Theorem bootloader_update_checked combine sign_open key_m key_n keys version f hdr :
  0 <= key_m -> 0 <= key_n <= 8 -> Forall is_byte (bf_data f) -> BOOTLOADER_IMAGE_MAXSIZE <= zlen (bf_data f) ->
  (check_bootloader_update combine sign_open key_m key_n keys version (Some (Some f)) = (Val 0, Some hdr)) <->
  bf_size f <= BOOTLOADER_IMAGE_MAXSIZE /\ bf_read f = Some (bf_size f) /\
  image_accepted combine sign_open (bf_data f) BOOTLOADER_IMAGE_MAGIC BOOTLOADER_IMAGE_MAXSIZE key_m key_n keys hdr /\
  code_verified hdr IMAGE_HEADER_SIZE 0 (slice (bf_data f) IMAGE_HEADER_SIZE (ih_codelen hdr)) true /\
  bf_size f = IMAGE_HEADER_SIZE + ih_codelen hdr /\ version <= ih_version hdr.
Proof.
  intros Hm Hn Hb Hs. unfold check_bootloader_update.
  assert (Hmax : IMAGE_HEADER_SIZE <= BOOTLOADER_IMAGE_MAXSIZE < 2 ^ 32) by (vm_compute; split; [discriminate|reflexivity]).
  pose proof (fun h => load_image_header_iff combine sign_open (bf_data f) BOOTLOADER_IMAGE_MAGIC BOOTLOADER_IMAGE_MAXSIZE key_m key_n keys h Hb Hmax Hm Hn) as LI.
  destruct (Z.ltb_spec BOOTLOADER_IMAGE_MAXSIZE (bf_size f)); [split; [discriminate|lia]|].
  destruct (bf_read f) as [n|]; [|split; [discriminate|by intros (_ & ? & _)]].
  destruct (Z.eqb_spec n (bf_size f)) as [->|Nn]; cbn [negb]; [|split; [discriminate|intros (_ & [= ?] & _); done]].
  destruct (load_image_header _ _ _ _ _ _ _ _) as [h| |] eqn:E.
  2,3: split; [discriminate|intros (_ & _ & A & _); apply LI in A; discriminate].
  pose proof (proj1 (LI h) eq_refl) as A. pose proof (boot_contents combine sign_open key_m key_n keys (bf_data f) h Hb Hs A) as C.
  assert (Hu : u32 (ih_hdrlen h + ih_codelen h) = IMAGE_HEADER_SIZE + ih_codelen h).
  { rewrite (ia_hdrlen _ _ _ _ _ _ _ _ _ A). apply u32_small. pose proof (ia_codelen _ _ _ _ _ _ _ _ _ A). lia. }
  rewrite Hu. assert (U : forall h', image_accepted combine sign_open (bf_data f) BOOTLOADER_IMAGE_MAGIC BOOTLOADER_IMAGE_MAXSIZE key_m key_n keys h' -> h' = h).
  { intros h' A'. apply LI in A'. by injection A'. }
  destruct (check_image_contents_ADV _ _ _ _ _ _) as [[]| |] eqn:EC.
  2,3: split; [discriminate|intros (_ & _ & A' & C' & _); apply U in A' as ->; apply C in C'; discriminate].
  destruct (Z.eqb_spec (IMAGE_HEADER_SIZE + ih_codelen h) (bf_size f)); cbn [negb].
  2:{ split; [discriminate|]. intros (_ & _ & A' & _ & ? & _). apply U in A' as ->. lia. }
  destruct (Z.ltb_spec (ih_version h) version).
  { split; [discriminate|]. intros (_ & _ & A' & _ & _ & ?). apply U in A' as ->. lia. }
  split; [intros [= <-]|intros (_ & _ & A' & _); by apply U in A' as ->]. split; [done|]. split; [done|]. split; [done|].
  split; [by apply C|]. split; [done|lia].
Qed.

Definition demo_fill : list Z := zrep 300000 0.
Lemma demo_fill_ok : zlen demo_fill = 300000 /\ Forall is_byte demo_fill.
Proof. split; [by apply zlen_zrep|by apply Forall_zrep]. Qed.
#[local] Opaque demo_fill.

Definition demo_boot_file : boot_file := BootFile 4096 (Some 4096) (boot_mem ++ demo_fill).

Lemma demo_boot_version : ih_version (header_at boot_mem) = 0 /\ ih_codelen (header_at boot_mem) = 3072.
Proof.
  unfold boot_mem. generalize (H256 (zrep 3072 0)). intros hs. cbn [header_at ih_version ih_codelen]. split; vm_compute; reflexivity.
Qed.

Lemma bootloader_update_checked_witness :
  check_bootloader_update demo_combine demo_sign_open 1 1 [zrep 32 7] 0 (Some (Some demo_boot_file)) = (Val 0, Some (header_at boot_mem)).
Proof.
  pose proof demo_fill_ok as [Fl Fb]. destruct boot_accepts as (V & Hz & Hb). destruct demo_boot_version as [Hv Hc].
  destruct (verify_bootloader_accepts demo_combine demo_sign_open 1 1 [zrep 32 7] ltac:(lia) ltac:(lia) _ _ _ Hb Hz V) as [A C].
  pose proof (ia_size _ _ _ _ _ _ _ _ _ A) as Hs. rewrite Hc in *. unfold IMAGE_HEADER_SIZE in *.
  apply (bootloader_update_checked demo_combine demo_sign_open 1 1 [zrep 32 7] 0 demo_boot_file (header_at boot_mem)); [lia|lia|..].
  - cbn [demo_boot_file bf_data]. by apply Forall_app_2.
  - cbn [demo_boot_file bf_data]. rewrite zlen_app, Fl. change BOOTLOADER_IMAGE_MAXSIZE with 262144. lia.
  - cbn [demo_boot_file bf_data bf_size bf_read]. split; [vm_compute; discriminate|]. split; [exact eq_refl|]. rewrite Hv, Hc. split; [|split; [|split; [exact eq_refl|lia]]].
    + unfold boot_mem at 1. rewrite <- app_assoc.
      refine (proj1 (boot_header_ok _ _ _ (proj1 (H256_shape _)) _)). rewrite app_assoc. fold boot_mem. symmetry. by apply header_at_app.
    + unfold IMAGE_HEADER_SIZE. rewrite slice_app_l by lia. exact C.
Defined.

End UpdateSpec.
