(* ===== verification/Bignum.v ===== *)
(** * 256-bit numbers (crypto/bignum.c, crypto/bignum.h)

    A [bignum256] is an array of nine 32-bit limbs, digits in base 2^29 with
    the least significant one first.  The operations below keep the machine
    arithmetic of the source: a 32-bit or 64-bit accumulator is reduced at
    every addition, a limb is masked with [BN_LIMB_MASK] and the carry is the
    accumulator shifted right by [BN_BITS_PER_LIMB].  A function whose body
    contains an [assert] returns an option, [None] being the failed
    assertion.  The pointer arguments the source writes through are results;
    the loops read every limb before they write it, so that an argument that
    is also the result needs no other treatment.

    [carry] is the loop all the linear operations share
    (acc += term; out[i] = acc & BN_LIMB_MASK; acc >>= BN_BITS_PER_LIMB). *)

From stdpp Require Import base list numbers.
From Stdlib Require Import ZArith Lia.
From S2P Require Import Prelude.
Local Open Scope fw_scope.

Module Bignum.

Definition u64 (x : Z) : Z := wrap 64 x.

(** ** Layout *)

Definition BN_LIMBS : Z := 9.
Definition BN_BITS_PER_LIMB : Z := 29.
Definition BN_BASE : Z := 0x20000000.
Definition BN_LIMB_MASK : Z := 0x1fffffff.
Definition BN_EXTRA_BITS : Z := 3.
Definition BN_MAX_DECIMAL_DIGITS : Z := 79.

Definition bignum256 : Type := list Z.
Definition limb (x : list Z) (i : Z) : Z := znth 0 x i.

(** The carry loop: the limbs it stores and the last accumulator. *)
Fixpoint carry (w acc : Z) (ts : list Z) : list Z * Z :=
  match ts with
  | [] => ([], acc)
  | t :: ts =>
      let acc := wrap w (acc + t) in
      let '(out, last) := carry w (Z.shiftr acc BN_BITS_PER_LIMB) ts in
      ((acc .& BN_LIMB_MASK) :: out, last)
  end.

(** ** Raw numbers *)

Definition read_be (data : list Z) (off : Z) : Z :=
  Z.shiftl (znth 0 data off) 24 .| Z.shiftl (znth 0 data (off + 1)) 16
  .| Z.shiftl (znth 0 data (off + 2)) 8 .| znth 0 data (off + 3).

Definition read_le (data : list Z) (off : Z) : Z :=
  Z.shiftl (znth 0 data (off + 3)) 24 .| Z.shiftl (znth 0 data (off + 2)) 16
  .| Z.shiftl (znth 0 data (off + 1)) 8 .| znth 0 data off.

Definition write_be (data : list Z) (off x : Z) : list Z :=
  let data := zupd data off (u8 (Z.shiftr x 24)) in
  let data := zupd data (off + 1) (u8 (Z.shiftr x 16)) in
  let data := zupd data (off + 2) (u8 (Z.shiftr x 8)) in
  zupd data (off + 3) (u8 x).

Definition write_le (data : list Z) (off x : Z) : list Z :=
  let data := zupd data (off + 3) (u8 (Z.shiftr x 24)) in
  let data := zupd data (off + 2) (u8 (Z.shiftr x 16)) in
  let data := zupd data (off + 1) (u8 (Z.shiftr x 8)) in
  zupd data off (u8 x).

(** The loop of bn_read_be and bn_read_le over the eight words. *)
Fixpoint bn_read_loop (read : Z -> Z) (idx : list Z) (temp : Z) : bignum256 :=
  match idx with
  | [] => [temp]
  | i :: idx =>
      let lmb := read i in
      let temp := temp .| u32 (Z.shiftl lmb (BN_EXTRA_BITS * i)) in
      (temp .& BN_LIMB_MASK)
      :: bn_read_loop read idx (Z.shiftr lmb (32 - BN_EXTRA_BITS * (i + 1)))
  end.

Definition bn_read_be (in_number : list Z) : bignum256 :=
  bn_read_loop (fun i => read_be in_number ((BN_LIMBS - 2 - i) * 4)) (seqZ 0 8) 0.

Definition bn_read_le (in_number : list Z) : bignum256 :=
  bn_read_loop (fun i => read_le in_number (i * 4)) (seqZ 0 8) 0.

(** One turn of the loops of bn_write_be and bn_write_le: the word for
    limb [i] below [temp], the limb above it. *)
Definition bn_write_word (x : bignum256) (temp i : Z) : Z :=
  u32 (Z.shiftl temp (BN_BITS_PER_LIMB - BN_EXTRA_BITS * i))
  .| Z.shiftr (limb x i) (BN_EXTRA_BITS * i).

Fixpoint bn_write_loop (write : list Z -> Z -> Z -> list Z) (x : bignum256)
    (idx : list Z) (temp : Z) (out : list Z) : list Z :=
  match idx with
  | [] => out
  | i :: idx => bn_write_loop write x idx (limb x i) (write out i (bn_write_word x temp i))
  end.

Definition bn_write_be (in_number : bignum256) (out_number : list Z) : list Z :=
  bn_write_loop (fun out i w => write_be out ((BN_LIMBS - 2 - i) * 4) w) in_number
    (rev (seqZ 0 8)) (limb in_number (BN_LIMBS - 1)) out_number.

Definition bn_write_le (in_number : bignum256) (out_number : list Z) : list Z :=
  bn_write_loop (fun out i w => write_le out (i * 4) w) in_number
    (rev (seqZ 0 8)) (limb in_number (BN_LIMBS - 1)) out_number.

Definition bn_read_uint32 (in_number : Z) : bignum256 :=
  (in_number .& BN_LIMB_MASK) :: Z.shiftr in_number BN_BITS_PER_LIMB :: replicate 7 0.

Definition bn_read_uint64 (in_number : Z) : bignum256 :=
  let v0 := in_number .& BN_LIMB_MASK in
  let in_number := Z.shiftr in_number BN_BITS_PER_LIMB in
  let v1 := in_number .& BN_LIMB_MASK in
  v0 :: v1 :: u32 (Z.shiftr in_number BN_BITS_PER_LIMB) :: replicate 6 0.

Definition bn_write_uint32 (in_number : bignum256) : Z :=
  limb in_number 0 .| u32 (Z.shiftl (limb in_number 1) BN_BITS_PER_LIMB).

Definition bn_write_uint64 (in_number : bignum256) : Z :=
  let acc := limb in_number 2 in
  let acc := u64 (Z.shiftl acc BN_BITS_PER_LIMB) in
  let acc := acc .| limb in_number 1 in
  let acc := u64 (Z.shiftl acc BN_BITS_PER_LIMB) in
  acc .| limb in_number 0.

(** ** Tests *)

Definition builtin_clz (x : Z) : Z := 31 - Z.log2 x.

Fixpoint bitcount_loop (x : bignum256) (idx : list Z) : Z :=
  match idx with
  | [] => 0
  | i :: idx =>
      if limb x i =? 0 then bitcount_loop x idx
      else i * BN_BITS_PER_LIMB + (32 - builtin_clz (limb x i))
  end.

Definition bn_bitcount (x : bignum256) : Z := bitcount_loop x (rev (seqZ 0 9)).

Definition bn_zero : bignum256 := replicate 9 0.
Definition bn_one : bignum256 := 1 :: replicate 8 0.

(** C's [!v]. *)
Definition lnot_c (v : Z) : Z := if v =? 0 then 1 else 0.

Definition bn_is_zero (x : bignum256) : Z := lnot_c (fold_left Z.lor x 0).

Definition bn_is_one (x : bignum256) : Z :=
  lnot_c (fold_left Z.lor (tail x) (limb x 0 .^ 1)).

Definition bn_is_less (x y : bignum256) : Z :=
  let '(res1, res2) :=
    fold_left (fun '(res1, res2) i =>
        (u32 (Z.shiftl res1 1) .| Z.b2z (limb x i <? limb y i),
         u32 (Z.shiftl res2 1) .| Z.b2z (limb y i <? limb x i)))
      (rev (seqZ 0 9)) (0, 0) in
  Z.b2z (res2 <? res1).

Definition bn_is_equal (x y : bignum256) : Z :=
  lnot_c (fold_left Z.lor (zip_with Z.lxor x y) 0).

Definition bn_is_even (x : bignum256) : Z := Z.b2z ((limb x 0 .& 1) =? 0).
Definition bn_is_odd (x : bignum256) : Z := Z.b2z ((limb x 0 .& 1) =? 1).

(** ** Selection, shifts and bits *)

Definition bn_cmov (cond : Z) (truecase falsecase : bignum256) : option bignum256 :=
  if (cond =? 1) || (cond =? 0) then
    let tmask := u32 (- cond) in
    let fmask := not32 tmask in
    Some (zip_with (fun t f => (t .& tmask) .| (f .& fmask)) truecase falsecase)
  else None.

Definition bn_lshift (x : bignum256) : bignum256 :=
  (u32 (Z.shiftl (limb x 0) 1) .& BN_LIMB_MASK)
  :: zip_with (fun a below => (u32 (Z.shiftl a 1) .& BN_LIMB_MASK)
                              .| Z.shiftr below (BN_BITS_PER_LIMB - 1)) (tail x) x.

Definition bn_rshift (x : bignum256) : bignum256 :=
  zip_with (fun a above => Z.shiftr a 1 .| Z.shiftl (above .& 1) (BN_BITS_PER_LIMB - 1))
    x (tail x)
  ++ [Z.shiftr (limb x (BN_LIMBS - 1)) 1].

Definition bn_setbit (x : bignum256) (i : Z) : option bignum256 :=
  if i <? BN_LIMBS * BN_BITS_PER_LIMB then
    Some (zupd x (i / BN_BITS_PER_LIMB)
            (limb x (i / BN_BITS_PER_LIMB) .| Z.shiftl 1 (i mod BN_BITS_PER_LIMB)))
  else None.

Definition bn_clearbit (x : bignum256) (i : Z) : option bignum256 :=
  if i <? BN_LIMBS * BN_BITS_PER_LIMB then
    Some (zupd x (i / BN_BITS_PER_LIMB)
            (limb x (i / BN_BITS_PER_LIMB) .& not32 (Z.shiftl 1 (i mod BN_BITS_PER_LIMB))))
  else None.

Definition bn_testbit (x : bignum256) (i : Z) : option Z :=
  if i <? BN_LIMBS * BN_BITS_PER_LIMB then
    Some (Z.shiftr (limb x (i / BN_BITS_PER_LIMB)) (i mod BN_BITS_PER_LIMB) .& 1)
  else None.

Definition bn_xor (x y : bignum256) : bignum256 := zip_with Z.lxor x y.

(** ** Addition and subtraction *)

Definition bn_normalize (x : bignum256) : bignum256 := fst (carry 32 0 x).

Definition bn_add (x y : bignum256) : bignum256 :=
  fst (carry 32 0 (zip_with (fun a b => u32 (a + b)) x y)).

Definition bn_addi (x : bignum256) (y : Z) : bignum256 := fst (carry 32 y x).

Definition bn_subi (x : bignum256) (y : Z) (prime : bignum256) : option bignum256 :=
  if y <? limb prime 0 then
    Some (fst (carry 32 (u32 (- y)) (zip_with (fun a p => u32 (a + p)) x prime)))
  else None.

Definition bn_subtract (x y : bignum256) : bignum256 :=
  fst (carry 32 1 (zip_with (fun a b => u32 (BN_BASE - 1 + a - b)) x y)).

Definition bn_subtractmod (x y prime : bignum256) : bignum256 :=
  fst (carry 32 1
    (zip_with (fun ab p => u32 (BN_BASE - 1 + ab.1 + u32 (2 * p) - ab.2)) (zip x y) prime)).

(** ** Reduction modulo a prime *)

(** coef = x // 2^256, taken from the top limb *)
Definition bn_fast_mod (x prime : bignum256) : bignum256 :=
  let coef := Z.shiftr (limb x (BN_LIMBS - 1)) 24 in
  let shift := 8 in
  fst (carry 64 (Z.shiftl 1 shift)
    (zip_with (fun a p => u64 (Z.shiftl (BN_BASE - 1) shift + a - u64 (p * coef))) x prime)).

Definition bn_addmod (x y prime : bignum256) : bignum256 :=
  bn_fast_mod (zip_with (fun a b => u32 (a + b)) x y) prime.

Definition bn_mult_k (x : bignum256) (k : Z) (prime : bignum256) : option bignum256 :=
  if k <=? 8 then Some (bn_fast_mod (map (fun a => u32 (k * a)) x) prime) else None.

Definition bn_mod (x prime : bignum256) : option bignum256 :=
  let x_less_prime := bn_is_less x prime in
  let temp := bn_subtract x prime in
  bn_cmov x_less_prime x temp.

(** The two accumulators of bn_cnegate run side by side. *)
Fixpoint bn_cnegate_loop (tmask fmask acc1 acc2 : Z) (xps : list (Z * Z)) : list Z :=
  match xps with
  | [] => []
  | (x, p) :: xps =>
      let acc1 := u32 (acc1 + u32 (BN_BASE - 1 + u32 (2 * p) - x)) in
      let acc2 := u32 (acc2 + u32 (p + x)) in
      (((acc1 .& tmask) .| (acc2 .& fmask)) .& BN_LIMB_MASK)
      :: bn_cnegate_loop tmask fmask (Z.shiftr acc1 BN_BITS_PER_LIMB)
           (Z.shiftr acc2 BN_BITS_PER_LIMB) xps
  end.

Definition bn_cnegate (cond : Z) (x prime : bignum256) : option bignum256 :=
  if (cond =? 1) || (cond =? 0) then
    let tmask := u32 (- cond) in
    let fmask := not32 tmask in
    x ← bn_mod x prime;
    Some (bn_cnegate_loop tmask fmask 1 0 (zip x prime))
  else None.

Fixpoint bn_mult_half_loop (mask acc : Z) (xps : list (Z * Z)) : list Z :=
  match xps with
  | [] => [acc]
  | (x, p) :: xps =>
      let temp := u32 (x + (p .& mask)) in
      let acc := u32 (acc + u32 (Z.shiftl (temp .& 1) (BN_BITS_PER_LIMB - 1))) in
      (acc .& BN_LIMB_MASK)
      :: bn_mult_half_loop mask (u32 (Z.shiftr acc BN_BITS_PER_LIMB + Z.shiftr temp 1)) xps
  end.

Definition bn_mult_half (x prime : bignum256) : bignum256 :=
  let x_is_odd_mask := u32 (- (limb x 0 .& 1)) in
  let acc := Z.shiftr (u32 (limb x 0 + (limb prime 0 .& x_is_odd_mask))) 1 in
  bn_mult_half_loop x_is_odd_mask acc (tail (zip x prime)).

(** ** Multiplication *)

(** The columns of the long multiplication: for each digit [i] of the product
    the indices [j] the inner loop runs through. *)
Definition mul_columns : list (Z * list Z) :=
  map (fun i => (i, seqZ 0 (i + 1))) (seqZ 0 9)
  ++ map (fun i => (i, seqZ (i - BN_LIMBS + 1) (2 * BN_LIMBS - 1 - i))) (seqZ 9 8).

Definition mul_column (k x : bignum256) (i : Z) (js : list Z) (acc : Z) : Z :=
  fold_left (fun acc j => u64 (acc + u64 (limb k j * limb x (i - j)))) js acc.

Fixpoint mul_loop (k x : bignum256) (cols : list (Z * list Z)) (acc : Z) : list Z :=
  match cols with
  | [] => [u32 acc]
  | (i, js) :: cols =>
      let acc := mul_column k x i js acc in
      (acc .& BN_LIMB_MASK) :: mul_loop k x cols (Z.shiftr acc BN_BITS_PER_LIMB)
  end.

Definition bn_multiply_long (k x : bignum256) : list Z := mul_loop k x mul_columns 0.

Definition bn_multiply_reduce_step (res : list Z) (prime : bignum256) (d : Z) : list Z :=
  let coef := u32 (Z.shiftr (limb res (d + BN_LIMBS - 1)) 24
                   + u32 (Z.shiftl (limb res (d + BN_LIMBS)) 5)) in
  let shift := 31 in
  let '(out, _) := carry 64 (Z.shiftl 1 shift)
    (zip_with (fun a p => u64 (Z.shiftl (BN_BASE - 1) shift + a - u64 (p * coef)))
       (slice res d BN_LIMBS) prime) in
  take (Z.to_nat d) res ++ out ++ [0] ++ drop (Z.to_nat (d + BN_LIMBS + 1)) res.

Definition bn_multiply_reduce (res : list Z) (prime : bignum256) : bignum256 :=
  take 9 (fold_left (fun res d => bn_multiply_reduce_step res prime d) (rev (seqZ 0 9)) res).

Definition bn_multiply (k x prime : bignum256) : bignum256 :=
  bn_multiply_reduce (bn_multiply_long k x) prime.

(** ** Powers *)

(** The loop over the bits of one limb of the exponent, left early when it is
    the last limb and has no more bits. *)
Fixpoint power_bits (n : nat) (prime : bignum256) (last : bool) (lmb : Z)
    (acc res : bignum256) : bignum256 * bignum256 :=
  match n with
  | O => (acc, res)
  | S n =>
      if last && (lmb =? 0) then (acc, res)
      else
        let res := if (lmb .& 1) =? 0 then res else bn_multiply acc res prime in
        power_bits n prime last (Z.shiftr lmb 1) (bn_multiply acc acc prime) res
  end.

Definition bn_power_mod (x e prime : bignum256) : bignum256 :=
  snd (fold_left (fun '(acc, res) i =>
         power_bits 29 prime (i =? BN_LIMBS - 1) (limb e i) acc res)
       (seqZ 0 9) (x, bn_one)).

Definition bn_sqrt (x prime : bignum256) : option bignum256 :=
  if limb prime (BN_LIMBS - 1) mod 4 =? 3 then
    let e := bn_addi prime 1 in
    let e := bn_rshift e in
    let e := bn_rshift e in
    let x := bn_power_mod x e prime in
    bn_mod x prime
  else None.

(** ** Division *)

(** [i] doubles at each turn while it is below [n <= 32]: six turns of fuel. *)
Fixpoint inverse_loop (fuel : nat) (i n mask acc f : Z) : Z :=
  match fuel with
  | O => acc
  | S fuel =>
      if i <? n then
        let f := u32 (f * f) .& mask in
        let acc := u32 (acc * u32 (1 + f)) .& mask in
        inverse_loop fuel (u32 (Z.shiftl i 1)) n mask acc f
      else acc
  end.

Definition inverse_mod_power_two (a n : Z) : Z :=
  let acc := u32 (2 - a) in
  let f := u32 (a - 1) in
  let mask := if n =? 32 then 0xffffffff else u32 (Z.shiftl 1 n - 1) in
  inverse_loop 6 1 n mask acc f.

Definition bn_divide_base (x prime : bignum256) : option bignum256 :=
  let m := u32 (limb x 0 * u32 (BN_BASE - inverse_mod_power_two (limb prime 0) BN_BITS_PER_LIMB))
           .& BN_LIMB_MASK in
  let acc := u64 (limb x 0 + u64 (m * limb prime 0)) in
  let acc := Z.shiftr acc BN_BITS_PER_LIMB in
  let '(out, acc) := carry 64 acc
    (zip_with (fun a p => u64 (a + u64 (m * p))) (tail x) (tail prime)) in
  if Z.shiftr acc BN_BITS_PER_LIMB =? 0 then Some (out ++ [u32 acc]) else None.

(** The loop from the top limb down: the turns for the limbs above come
    first, and leave their quotient limbs and the remainder. *)
Fixpoint long_division_loop (x : list Z) (d : Z) : list Z * Z :=
  match x with
  | [] => ([], 0)
  | [top] => ([top / d], top mod d)
  | a :: x =>
      let '(q, r) := long_division_loop x d in
      let acc := u32 (u32 (r * (BN_BASE mod d)) + a) in
      (u32 (u32 (r * (BN_BASE / d)) + acc / d) :: q, acc mod d)
  end.

Definition bn_long_division (x : bignum256) (d : Z) : option (bignum256 * Z) :=
  if (1 <=? d) && (d <? 61304) then Some (long_division_loop x d) else None.

Definition bn_divmod58 (x : bignum256) : option (bignum256 * Z) := bn_long_division x 58.
Definition bn_divmod1000 (x : bignum256) : option (bignum256 * Z) := bn_long_division x 1000.
Definition bn_divmod10 (x : bignum256) : option (bignum256 * Z) := bn_long_division x 10.

Fixpoint digitcount_loop (idx : list Z) (val : bignum256) (digits : Z) : option Z :=
  match idx with
  | [] => Some digits
  | i :: idx =>
      '(val, lmb) ← bn_divmod1000 val;
      digitcount_loop idx val
        (if 100 <=? lmb then i + 3 else if 10 <=? lmb then i + 2
         else if 1 <=? lmb then i + 1 else digits)
  end.

(** i = 0, 3, ..., 78 *)
Definition bn_digitcount (x : bignum256) : option Z :=
  digitcount_loop (map (Z.mul 3) (seqZ 0 27)) x 1.

End Bignum.
