(* ===== verification/Curves.v ===== *)
(** * Curve parameters (crypto/ecdsa.h, crypto/secp256k1.c, crypto/nist256p1.c)

    The parameters of the two Weierstrass curves y^2 = x^3 + a x + b of the
    firmware, limb by limb as the sources list them.  The precomputed multiples
    of the first curve are in EcTable. *)

From stdpp Require Import base list numbers.
From Stdlib Require Import ZArith Lia.
From S2P Require Import Prelude Bignum.

Module Curves.
Import Bignum.

Record curve_point := CurvePoint { cx : bignum256; cy : bignum256 }.

Record ecdsa_curve := EcdsaCurve {
  prime : bignum256;
  G : curve_point;
  order : bignum256;
  order_half : bignum256;
  coef_a : Z;
  coef_b : bignum256 }.

Definition secp256k1 : ecdsa_curve := EcdsaCurve
  [0x1ffffc2f; 0x1ffffff7; 0x1fffffff; 0x1fffffff; 0x1fffffff; 0x1fffffff; 0x1fffffff; 0x1fffffff; 0xffffff]
  (CurvePoint
    [0x16f81798; 0x0f940ad8; 0x138a3656; 0x17f9b65b; 0x10b07029; 0x114ae743; 0x0eb15681; 0x0fdf3b97; 0x79be66]
    [0x1b10d4b8; 0x023e847f; 0x01550667; 0x0f68914d; 0x108a8fd1; 0x1dfe0708; 0x11957693; 0x0ee4d478; 0x483ada])
  [0x10364141; 0x1e92f466; 0x12280eef; 0x1db9cd5e; 0x1fffebaa; 0x1fffffff; 0x1fffffff; 0x1fffffff; 0xffffff]
  [0x081b20a0; 0x1f497a33; 0x09140777; 0x0edce6af; 0x1ffff5d5; 0x1fffffff; 0x1fffffff; 0x1fffffff; 0x7fffff]
  0
  [7; 0; 0; 0; 0; 0; 0; 0; 0].

Definition nist256p1 : ecdsa_curve := EcdsaCurve
  [0x1fffffff; 0x1fffffff; 0x1fffffff; 0x000001ff; 0x00000000; 0x00000000; 0x00040000; 0x1fe00000; 0xffffff]
  (CurvePoint
    [0x1898c296; 0x0509ca2e; 0x1acce83d; 0x06fb025b; 0x040f2770; 0x1372b1d2; 0x091fe2f3; 0x1e5c2588; 0x6b17d1]
    [0x17bf51f5; 0x1db20341; 0x0c57b3b2; 0x1c66aed6; 0x19e162bc; 0x15a53e07; 0x1e6e3b9f; 0x1c5fc34f; 0x4fe342])
  [0x1c632551; 0x1dce5617; 0x05e7a13c; 0x0df55b4e; 0x1ffffbce; 0x1fffffff; 0x0003ffff; 0x1fe00000; 0xffffff]
  [0x1e3192a8; 0x0ee72b0b; 0x02f3d09e; 0x06faada7; 0x1ffffde7; 0x1fffffff; 0x0001ffff; 0x1ff00000; 0x7fffff]
  (-3)
  [0x07d2604b; 0x1e71e1f1; 0x14ec3d8e; 0x1a0d6198; 0x086bc651; 0x1eaabb4c; 0x0f9ecfae; 0x1b154752; 0x005ac635].

End Curves.
