(* ===== verification/BignumSpec.v ===== *)
(** * 256-bit numbers: values of the linear operations

    [bn_val] is the number an array of limbs stands for, [normalized] the
    representation invariant the source states for every input and output.
    The lemma on the carry loop ([carry_ok]) says that, as long as no
    accumulator exceeds its width, the stored limbs are the digits of the sum
    modulo 2^(29 n) and the last accumulator is its quotient; addition,
    subtraction, normalisation and the reductions are instances of it. *)

From stdpp Require Import base list numbers.
From Stdlib Require Import ZArith Lia.
From S2P Require Import Prelude Bits Bignum Curves.
Local Open Scope fw_scope.

Module BignumSpec.
Import Bignum Curves.

(** ** Values and well-formedness *)

Definition bn_val (l : list Z) : Z := foldr (fun a v => a + 2 ^ 29 * v) 0 l.
Definition norm_limb (a : Z) : Prop := 0 <= a < 2 ^ 29.
Definition normalized (x : bignum256) : Prop := length x = 9%nat /\ Forall norm_limb x.

(** The primes the reductions are made for. *)
Definition prime_ok (p : bignum256) : Prop :=
  normalized p /\ 2 ^ 256 - 2 ^ 224 <= bn_val p <= 2 ^ 256.

(** [radix n] is the weight of the limb after [n] limbs. *)
Definition radix (n : nat) : Z := 2 ^ (29 * Z.of_nat n).

Lemma radix_0 : radix 0 = 1.
Proof. reflexivity. Qed.
Lemma radix_S n : radix (S n) = 2 ^ 29 * radix n.
Proof. unfold radix. rewrite <- Z.pow_add_r by lia. f_equal. lia. Qed.
Lemma radix_pos n : 0 < radix n.
Proof. apply Z.pow_pos_nonneg; lia. Qed.
Lemma radix_add m n : radix (m + n) = radix m * radix n.
Proof. unfold radix. rewrite <- Z.pow_add_r by lia. f_equal. lia. Qed.
Lemma radix_9 : radix 9 = 2 ^ 261.
Proof. reflexivity. Qed.

Lemma land_mask a : a .& BN_LIMB_MASK = a mod 2 ^ 29.
Proof. unfold BN_LIMB_MASK. change 0x1fffffff with (Z.ones 29). by rewrite Z.land_ones by lia. Qed.

Lemma norm_mod a : norm_limb (a mod 2 ^ 29).
Proof. apply Z.mod_pos_bound. lia. Qed.

Lemma val_nonneg l : Forall (fun a => 0 <= a) l -> 0 <= bn_val l.
Proof. induction 1; cbn [bn_val foldr] in *; [lia|]. fold (bn_val l) in *. lia. Qed.

Lemma val_range l : Forall norm_limb l -> 0 <= bn_val l < radix (length l).
Proof.
  induction 1 as [|a l Ha _ IH]; cbn [bn_val foldr length] in *; [rewrite radix_0; lia|].
  fold (bn_val l) in *. rewrite radix_S. unfold norm_limb in Ha. lia.
Qed.

Lemma val_app l k : bn_val (l ++ k) = bn_val l + radix (length l) * bn_val k.
Proof.
  induction l as [|a l IH]; [cbn [app length]; rewrite radix_0; change (bn_val []) with 0; lia|].
  cbn [app bn_val foldr length]. fold (bn_val (l ++ k)). fold (bn_val l). rewrite IH, radix_S. lia.
Qed.

Lemma normalized_range x : normalized x -> 0 <= bn_val x < 2 ^ 261.
Proof. intros [Hl Hx]. apply val_range in Hx. by rewrite Hl, radix_9 in Hx. Qed.

Lemma norm_dest x : normalized x ->
  exists x0 x1 x2 x3 x4 x5 x6 x7 x8, x = [x0; x1; x2; x3; x4; x5; x6; x7; x8] /\
  Forall norm_limb [x0; x1; x2; x3; x4; x5; x6; x7; x8].
Proof.
  intros [Hl Hx]. do 10 (destruct x as [|? x]; try done). by repeat eexists.
Qed.

(** Reads at a known index of a list with known cells. *)
Ltac znths := repeat match goal with |- context [znth 0 ?l ?k] =>
  let v := eval vm_compute in (znth 0 l k) in change (znth 0 l k) with v end.

(** Normalized numbers with the same value are the same. *)
Lemma val_inj_list l : forall k, length l = length k -> Forall norm_limb l -> Forall norm_limb k ->
  bn_val l = bn_val k -> l = k.
Proof.
  induction l as [|a l IH]; intros [|b k] Hlen Hl Hk Hv; try done.
  apply Forall_cons_1 in Hl as [Ha Hl]. apply Forall_cons_1 in Hk as [Hb Hk].
  cbn [bn_val foldr] in Hv. fold (bn_val l) (bn_val k) in Hv. unfold norm_limb in *.
  f_equal; [lia|]. apply IH; auto. lia.
Qed.

Lemma bn_val_inj x y : normalized x -> normalized y -> bn_val x = bn_val y -> x = y.
Proof. intros [Hx ?] [Hy ?]. apply val_inj_list; auto. congruence. Qed.

(** The value of a sum of limbs taken position by position. *)
Lemma val_zip f c a b x : forall y, length x = length y ->
  Forall2 (fun u v => f u v = c + a * u + b * v) x y ->
  bn_val (zip_with f x y) = c * bn_val (replicate (length x) 1) + a * bn_val x + b * bn_val y.
Proof.
  induction x as [|u x IH]; intros [|v y] Hl H; try done.
  - cbn. lia.
  - apply Forall2_cons_1 in H as [Hf H]. cbn in Hl. specialize (IH y ltac:(lia) H).
    cbn [zip_with bn_val foldr length replicate] in *.
    fold (bn_val (zip_with f x y)) (bn_val x) (bn_val y) (bn_val (replicate (length x) 1)) in *.
    rewrite IH, Hf. lia.
Qed.

Lemma val_ones n : (2 ^ 29 - 1) * bn_val (replicate n 1) = radix n - 1.
Proof.
  induction n as [|n IH]; [reflexivity|]. cbn [replicate bn_val foldr].
  fold (bn_val (replicate n 1)). rewrite radix_S. lia.
Qed.

(** ** The carry loop *)

Lemma digit_split m S r : norm_limb m -> 0 < r ->
  (m + 2 ^ 29 * S) / (2 ^ 29 * r) = S / r /\
  (m + 2 ^ 29 * S) mod (2 ^ 29 * r) = m + 2 ^ 29 * (S mod r).
Proof.
  intros Hm Hr. pose proof (Z.div_mod S r ltac:(lia)) as E.
  pose proof (Z.mod_pos_bound S r Hr) as Hb. unfold norm_limb in Hm.
  split; symmetry.
  - apply (Z.div_unique_pos _ _ _ (m + 2 ^ 29 * (S mod r))); lia.
  - apply (Z.mod_unique_pos _ _ (S / r)); lia.
Qed.

Lemma carry_ok w B ts : forall acc, 29 <= w -> Forall (fun t => 0 <= t <= B) ts ->
  0 <= acc -> acc + B < 2 ^ w -> 2 ^ (w - 29) + B <= 2 ^ w ->
  carry w acc ts = (fst (carry w acc ts), (acc + bn_val ts) / radix (length ts)) /\
  bn_val (fst (carry w acc ts)) = (acc + bn_val ts) mod radix (length ts) /\
  Forall norm_limb (fst (carry w acc ts)) /\ length (fst (carry w acc ts)) = length ts.
Proof.
  induction ts as [|t ts IH]; intros acc Hw Hts Ha HB HB'.
  - cbn [carry bn_val foldr length fst]. rewrite radix_0, Z.add_0_r, Z.div_1_r, Z.mod_1_r. done.
  - apply Forall_cons_1 in Hts as [Ht Hts]. cbn [carry].
    rewrite wrap_small by lia. set (s := acc + t).
    change BN_BITS_PER_LIMB with 29. rewrite Z.shiftr_div_pow2, land_mask by lia.
    assert (Hs : s = 2 ^ 29 * (s / 2 ^ 29) + s mod 2 ^ 29) by (apply Z.div_mod; lia).
    pose proof (norm_mod s) as Hm.
    assert (Hq : 0 <= s / 2 ^ 29 < 2 ^ (w - 29)).
    { split; [apply Z.div_pos; lia|]. apply Z.div_lt_upper_bound; [lia|].
      rewrite <- Z.pow_add_r by lia. replace (29 + (w - 29)) with w by lia. lia. }
    destruct (IH (s / 2 ^ 29)) as (E & Hv & Hn & Hlen); [lia|done|lia|lia|lia|].
    rewrite E. cbn [fst length]. cbn [bn_val foldr]. fold (bn_val ts).
    fold (bn_val (fst (carry w (s / 2 ^ 29) ts))). rewrite Hv, Hlen, radix_S.
    assert (Hsum : acc + (t + 2 ^ 29 * bn_val ts) = s mod 2 ^ 29 + 2 ^ 29 * (s / 2 ^ 29 + bn_val ts)) by lia.
    rewrite Hsum. pose proof (radix_pos (length ts)).
    set (S := s / 2 ^ 29 + bn_val ts) in *. split; [|split; [|split; [by constructor|done]]].
    + f_equal. by destruct (digit_split (s mod 2 ^ 29) S (radix (length ts))) as [-> _].
    + by destruct (digit_split (s mod 2 ^ 29) S (radix (length ts))) as [_ ->].
Qed.

(** A first term that wraps around behaves as its residue. *)
Lemma carry_wrap w acc t ts acc' t' : wrap w (acc + t) = wrap w (acc' + t') ->
  carry w acc (t :: ts) = carry w acc' (t' :: ts).
Proof. intros E. cbn [carry]. by rewrite E. Qed.

Lemma zip_forall (P Q R : Z -> Prop) f x : forall y, Forall P x -> Forall Q y ->
  (forall u v, P u -> Q v -> R (f u v)) -> Forall R (zip_with f x y).
Proof.
  induction x as [|u x IH]; intros [|v y] HP HQ H; try constructor;
    apply Forall_cons_1 in HP as [? ?], HQ as [? ?]; auto.
Qed.

Lemma zip_linear (P Q : Z -> Prop) f c a b x : forall y, length x = length y -> Forall P x -> Forall Q y ->
  (forall u v, P u -> Q v -> f u v = c + a * u + b * v) ->
  bn_val (zip_with f x y) = c * bn_val (replicate (length x) 1) + a * bn_val x + b * bn_val y.
Proof.
  intros y Hl HP HQ H. apply val_zip; [done|]. revert y Hl HQ.
  induction HP as [|u x Hu HP IH]; intros [|v y] Hl HQ; try done.
  apply Forall_cons_1 in HQ as [Hv HQ]. constructor; auto.
Qed.

(** The carry loop over terms computed from two numbers limb by limb, when the
    term is linear in the limbs and fits the accumulator. *)
Lemma carry_zip (P Q : Z -> Prop) w B c a b acc f x y :
  29 <= w -> length x = length y -> Forall P x -> Forall Q y ->
  (forall u v, P u -> Q v -> f u v = c + a * u + b * v /\ 0 <= f u v <= B) ->
  0 <= acc -> acc + B < 2 ^ w -> 2 ^ (w - 29) + B <= 2 ^ w ->
  let s := acc + (c * bn_val (replicate (length x) 1) + a * bn_val x + b * bn_val y) in
  let out := carry w acc (zip_with f x y) in
  snd out = s / radix (length x) /\ bn_val (fst out) = s mod radix (length x) /\
  Forall norm_limb (fst out) /\ length (fst out) = length x.
Proof.
  intros Hw Hl HP HQ Hf Ha HB HB' s out.
  assert (Hlen : length (zip_with f x y) = length x) by (rewrite length_zip_with; lia).
  destruct (carry_ok w B (zip_with f x y) acc) as (E & Hv & Hn & Hlo); try done.
  { apply (zip_forall P Q); [done..|]. intros. by apply Hf. }
  assert (Hval : bn_val (zip_with f x y) = c * bn_val (replicate (length x) 1) + a * bn_val x + b * bn_val y).
  { apply (zip_linear P Q); [done..|]. intros. by apply Hf. }
  subst s out. rewrite Hlen, Hval in *. rewrite E at 1. cbn [snd]. by rewrite Hlo.
Qed.

(** ** Addition, subtraction, normalisation *)

Definition u32_limb (a : Z) : Prop := 0 <= a < 2 ^ 32.

Lemma norm_u32 x : Forall norm_limb x -> Forall u32_limb x.
Proof. induction 1 as [|a l Ha _ IH]; constructor; [unfold norm_limb, u32_limb in *; lia|done]. Qed.

Ltac limbs := unfold norm_limb, u32_limb, u32, u64, BN_BASE in *.

Lemma bn_add_val x y : normalized x -> normalized y ->
  normalized (bn_add x y) /\ bn_val (bn_add x y) = (bn_val x + bn_val y) mod 2 ^ 261.
Proof.
  intros [Hlx Hx] [Hly Hy]. unfold bn_add.
  destruct (carry_zip norm_limb norm_limb 32 (2 ^ 30 - 2) 0 1 1 0 (fun a b => u32 (a + b)) x y)
    as (_ & Hv & Hn & Hlen); [lia|congruence|done|done| |lia|lia|lia|].
  - intros u v Hu Hv. limbs. rewrite wrap_small by lia. lia.
  - split; [split; [congruence|done]|]. rewrite Hv, Hlx. change (radix 9) with (2 ^ 261). f_equal. lia.
Qed.

Lemma bn_subtract_val x y : normalized x -> normalized y ->
  normalized (bn_subtract x y) /\ bn_val (bn_subtract x y) = (bn_val x - bn_val y) mod 2 ^ 261.
Proof.
  intros [Hlx Hx] [Hly Hy]. unfold bn_subtract.
  destruct (carry_zip norm_limb norm_limb 32 (2 ^ 30 - 2) (2 ^ 29 - 1) 1 (-1) 1
    (fun a b => u32 (BN_BASE - 1 + a - b)) x y) as (_ & Hv & Hn & Hlen); [lia|congruence|done|done| |lia|lia|lia|].
  - intros u v Hu Hv. limbs. rewrite wrap_small by lia. lia.
  - split; [split; [congruence|done]|]. rewrite Hv, val_ones, Hlx. change (radix 9) with (2 ^ 261).
    rewrite <- (Z.mod_add (bn_val x - bn_val y) 1) by lia. f_equal. lia.
Qed.


Lemma zip3 (P : Z -> Prop) (f : Z * Z -> Z -> Z) (g h : Z -> Z -> Z) x : forall y p, Forall P x -> Forall P y -> Forall P p ->
  (forall a b q, P a -> P b -> P q -> f (a, b) q = g (h a b) q) ->
  zip_with f (zip x y) p = zip_with g (zip_with h x y) p.
Proof.
  induction x as [|u x IH]; intros [|v y] [|q p] Hx Hy Hp H; try done.
  apply Forall_cons_1 in Hx as [? ?], Hy as [? ?], Hp as [? ?].
  cbn. rewrite (IH y p); auto. f_equal. auto.
Qed.

Lemma bn_subtractmod_val x y p : normalized x -> normalized y -> normalized p ->
  normalized (bn_subtractmod x y p) /\
  bn_val (bn_subtractmod x y p) = (bn_val x + (2 * bn_val p - bn_val y)) mod 2 ^ 261.
Proof.
  intros [Hlx Hx] [Hly Hy] [Hlp Hp]. unfold bn_subtractmod.
  rewrite (zip3 norm_limb _ (fun t q => t + 2 * q) (fun a b => 2 ^ 29 - 1 + a - b)); [|done..|].
  2: { intros a b q Ha Hb Hq. cbn. limbs. rewrite (wrap_small _ (2 * q)), wrap_small by lia. lia. }
  set (d := zip_with _ x y).
  assert (Hd : Forall (fun t => 0 <= t <= 2 ^ 30 - 2) d).
  { apply (zip_forall norm_limb norm_limb); [done..|]. intros. limbs. lia. }
  assert (Hld : length d = 9%nat) by (unfold d; rewrite length_zip_with; lia).
  assert (Hdv : bn_val d = 2 ^ 261 - 1 + bn_val x - bn_val y).
  { unfold d. rewrite (zip_linear norm_limb norm_limb _ (2 ^ 29 - 1) 1 (-1)); [|congruence|done..|intros; lia].
    rewrite val_ones, Hlx. change (radix 9) with (2 ^ 261). lia. }
  destruct (carry_zip (fun t => 0 <= t <= 2 ^ 30 - 2) norm_limb 32 (2 ^ 31 - 4) 0 1 2 1
    (fun t q => t + 2 * q) d p) as (_ & Hv & Hn & Hlen); [lia|congruence|done|done| |lia|lia|lia|].
  - intros u v Hu Hv. limbs. lia.
  - split; [split; [congruence|done]|]. rewrite Hv, Hld, Hdv. change (radix 9) with (2 ^ 261).
    rewrite <- (Z.mod_add (_ + (_ - _)) 1) by lia. f_equal. lia.
Qed.

Lemma bn_normalize_val x : length x = 9%nat -> Forall u32_limb x -> bn_val x < 2 ^ 261 ->
  Forall (fun a => a <= 2 ^ 32 - 8) x ->
  normalized (bn_normalize x) /\ bn_val (bn_normalize x) = bn_val x.
Proof.
  intros Hl Hx Hb Hc. unfold bn_normalize.
  destruct (carry_ok 32 (2 ^ 32 - 8) x 0) as (_ & Hv & Hn & Hlen); [lia| |lia|lia|lia|].
  - clear Hl Hb. induction Hx; constructor; apply Forall_cons_1 in Hc as [? ?]; limbs; [lia|auto].
  - split; [split; [congruence|done]|]. rewrite Hv, Hl. change (radix 9) with (2 ^ 261).
    apply Z.mod_small. split; [|lia]. apply val_nonneg.
    clear -Hx. induction Hx; constructor; limbs; [lia|auto].
Qed.

Lemma bn_addi_val x y : normalized x -> 0 <= y <= 2 ^ 32 - 2 ^ 29 ->
  normalized (bn_addi x y) /\ bn_val (bn_addi x y) = (bn_val x + y) mod 2 ^ 261.
Proof.
  intros [Hlx Hx] Hy. unfold bn_addi.
  destruct (carry_ok 32 (2 ^ 29 - 1) x y) as (_ & Hv & Hn & Hlen); [lia| |lia|lia|lia|].
  - clear Hlx. induction Hx; constructor; limbs; [lia|auto].
  - split; [split; [congruence|done]|]. rewrite Hv, Hlx. change (radix 9) with (2 ^ 261). f_equal. lia.
Qed.

(** The accumulator of bn_subi starts below zero and the first limb lifts it. *)
Lemma bn_subi_val x y p : normalized x -> normalized p -> 0 <= y < limb p 0 ->
  exists r, bn_subi x y p = Some r /\ normalized r /\
  bn_val r = (bn_val x + bn_val p - y) mod 2 ^ 261.
Proof.
  intros Hx Hp Hy.
  destruct (norm_dest x Hx) as (x0 & x1 & x2 & x3 & x4 & x5 & x6 & x7 & x8 & -> & Fx).
  destruct (norm_dest p Hp) as (p0 & p1 & p2 & p3 & p4 & p5 & p6 & p7 & p8 & -> & Fp).
  unfold bn_subi. change (limb (p0 :: _) 0) with p0 in *. rewrite (proj2 (Z.ltb_lt y p0)) by lia.
  eexists. split; [reflexivity|]. cbn [zip_with].
  assert (Hx0 : norm_limb x0) by (by apply Forall_inv in Fx).
  assert (Hp0 : norm_limb p0) by (by apply Forall_inv in Fp).
  rewrite (carry_wrap 32 _ _ _ 0 (x0 + p0 - y)).
  2: { unfold u32, wrap. rewrite <- Zplus_mod. f_equal. lia. }
  set (xs := [x1; x2; x3; x4; x5; x6; x7; x8]). set (ps := [p1; p2; p3; p4; p5; p6; p7; p8]).
  change [u32 (x1 + p1); _; _; _; _; _; _; _] with (zip_with (fun a b => u32 (a + b)) xs ps).
  assert (Hxs : Forall norm_limb xs) by (by apply Forall_inv_tail in Fx).
  assert (Hps : Forall norm_limb ps) by (by apply Forall_inv_tail in Fp).
  set (ts := zip_with _ xs ps).
  assert (Hts : Forall (fun t => 0 <= t <= 2 ^ 30 - 2) ts).
  { apply (zip_forall norm_limb norm_limb); [done..|]. intros. limbs. rewrite wrap_small; lia. }
  assert (Hv : bn_val ts = bn_val xs + bn_val ps).
  { unfold ts. rewrite (zip_linear norm_limb norm_limb _ 0 1 1); [lia|done..|].
    intros. limbs. rewrite wrap_small; lia. }
  destruct (carry_ok 32 (2 ^ 30 - 2) (x0 + p0 - y :: ts) 0) as (_ & Hw & Hn & Hlen);
    [lia|constructor; [limbs; lia|done]|lia|lia|lia|].
  split; [split; [by rewrite Hlen|done]|].
  rewrite Hw. change (radix _) with (2 ^ 261). f_equal.
  change (bn_val (x0 + p0 - y :: ts)) with (x0 + p0 - y + 2 ^ 29 * bn_val ts). rewrite Hv.
  change (bn_val (x0 :: _)) with (x0 + 2 ^ 29 * bn_val xs).
  change (bn_val (p0 :: _)) with (p0 + 2 ^ 29 * bn_val ps). lia.
Qed.

(** ** Reductions *)

Lemma dest9 {A} (x : list A) : length x = 9%nat ->
  exists x0 x1 x2 x3 x4 x5 x6 x7 x8, x = [x0; x1; x2; x3; x4; x5; x6; x7; x8].
Proof. intros Hl. do 10 (destruct x as [|? x]; try done). by repeat eexists. Qed.

(** The eight low limbs and the top one, for limbs of any 32-bit value. *)
Lemma top_split x : length x = 9%nat -> Forall u32_limb x ->
  exists low, bn_val x = low + 2 ^ 232 * limb x 8 /\ 0 <= low < 2 ^ 236 /\ u32_limb (limb x 8).
Proof.
  intros Hl Hx. destruct (dest9 x Hl) as (x0 & x1 & x2 & x3 & x4 & x5 & x6 & x7 & x8 & ->).
  rewrite !Forall_cons_iff in Hx. destruct Hx as (? & ? & ? & ? & ? & ? & ? & ? & ? & _).
  exists (bn_val [x0; x1; x2; x3; x4; x5; x6; x7]). change (limb _ 8) with x8.
  unfold bn_val. cbn [foldr]. limbs. lia.
Qed.

Lemma prod_range a b A B : 0 <= a <= A -> 0 <= b <= B -> 0 <= a * b <= A * B.
Proof. nia. Qed.

(** What a multiple of 2^256 - p adds. *)
Lemma coef_slack c C P : 0 <= c <= C -> 2 ^ 256 - 2 ^ 224 <= P <= 2 ^ 256 ->
  0 <= c * (2 ^ 256 - P) <= C * 2 ^ 224.
Proof. intros Hc HP. apply prod_range; lia. Qed.

(** Partial reduction, for any limbs the machine can hold. *)
Lemma bn_fast_mod_val x p : length x = 9%nat -> Forall u32_limb x -> prime_ok p ->
  normalized (bn_fast_mod x p) /\
  bn_val (bn_fast_mod x p) = bn_val x - limb x 8 / 2 ^ 24 * bn_val p /\
  0 <= bn_val (bn_fast_mod x p) < 2 * bn_val p.
Proof.
  intros Hl Hx [[Hlp Hp] HP]. destruct (top_split x Hl Hx) as (low & Hval & Hlow & H8).
  unfold bn_fast_mod. change (BN_LIMBS - 1) with 8. rewrite Z.shiftr_div_pow2 by lia.
  change (Z.shiftl (BN_BASE - 1) 8) with (2 ^ 37 - 2 ^ 8). change (Z.shiftl 1 8) with (2 ^ 8).
  set (x8 := limb x 8) in *. set (coef := x8 / 2 ^ 24).
  assert (Hc : 0 <= coef <= 255) by (unfold coef; limbs; zlia).
  assert (Hr : 0 <= x8 - 2 ^ 24 * coef < 2 ^ 24) by (unfold coef; zlia).
  destruct (carry_zip u32_limb norm_limb 64 (2 ^ 37 + 2 ^ 32) (2 ^ 37 - 2 ^ 8) 1 (- coef) (2 ^ 8)
    (fun a q => u64 (2 ^ 37 - 2 ^ 8 + a - u64 (q * coef))) x p) as (_ & Hv & Hn & Hlen);
    [lia|congruence|done|done| |lia|lia|lia|].
  - intros u v Hu Hv. limbs. assert (0 <= v * coef <= (2 ^ 29 - 1) * 255) by (apply prod_range; lia).
    rewrite (wrap_small _ (v * coef)), wrap_small by lia. lia.
  - assert (Hres : 0 <= bn_val x - coef * bn_val p < 2 * bn_val p) 
      by (pose proof (coef_slack coef 255 (bn_val p) Hc HP); lia).
    assert (E : bn_val (fst (carry 64 (2 ^ 8) (zip_with (fun a q => u64 (2 ^ 37 - 2 ^ 8 + a - u64 (q * coef))) x p)))
                = bn_val x - coef * bn_val p).
    { rewrite Hv. replace (2 ^ 37 - 2 ^ 8) with (2 ^ 8 * (2 ^ 29 - 1)) by lia.
      rewrite <- Z.mul_assoc, val_ones, Hl. change (radix 9) with (2 ^ 261).
      rewrite <- (Z.mod_small (bn_val x - coef * bn_val p) (2 ^ 261)) by lia.
      rewrite <- (Z.mod_add (bn_val x - coef * bn_val p) (2 ^ 8)) by lia. f_equal. lia. }
    split; [split; [congruence|done]|]. rewrite E. done.
Qed.

Lemma mod_sub_mul a k m : m <> 0 -> (a - k * m) mod m = a mod m.
Proof. intros. rewrite <- (Z.mod_add (a - k * m) k) by done. f_equal. lia. Qed.

Lemma mul_cong a b c d m : a mod m = c mod m -> b mod m = d mod m -> (a * b) mod m = (c * d) mod m.
Proof. intros H1 H2. by rewrite Zmult_mod, H1, H2, <- Zmult_mod. Qed.

Lemma bn_fast_mod_ok x p : length x = 9%nat -> Forall u32_limb x -> prime_ok p ->
  normalized (bn_fast_mod x p) /\ bn_val (bn_fast_mod x p) mod bn_val p = bn_val x mod bn_val p /\
  0 <= bn_val (bn_fast_mod x p) < 2 * bn_val p.
Proof.
  intros Hl Hx Hp. destruct (bn_fast_mod_val x p Hl Hx Hp) as (Hn & Hv & Hr).
  split; [done|]. split; [|done]. rewrite Hv. apply mod_sub_mul. destruct Hp as [_ Hp]. lia.
Qed.

Lemma bn_addmod_val x y p : normalized x -> normalized y -> prime_ok p ->
  normalized (bn_addmod x y p) /\ 0 <= bn_val (bn_addmod x y p) < 2 * bn_val p /\
  bn_val (bn_addmod x y p) mod bn_val p = (bn_val x + bn_val y) mod bn_val p.
Proof.
  intros [Hlx Hx] [Hly Hy] Hp. unfold bn_addmod.
  destruct (bn_fast_mod_ok (zip_with (fun a b => u32 (a + b)) x y) p) as (Hn & Hv & Hr); [| |done|].
  - rewrite length_zip_with. lia.
  - apply (zip_forall norm_limb norm_limb); [done..|]. intros. limbs. rewrite wrap_small; lia.
  - split; [done|]. split; [done|]. rewrite Hv. f_equal.
    rewrite (zip_linear norm_limb norm_limb _ 0 1 1); [lia|congruence|done..|].
    intros. limbs. rewrite wrap_small; lia.
Qed.

Lemma bn_mult_k_val x k p : normalized x -> 0 <= k <= 8 -> prime_ok p ->
  exists r, bn_mult_k x k p = Some r /\ normalized r /\ 0 <= bn_val r < 2 * bn_val p /\
  bn_val r mod bn_val p = (k * bn_val x) mod bn_val p.
Proof.
  intros [Hlx Hx] Hk Hp. unfold bn_mult_k. rewrite (proj2 (Z.leb_le k 8)) by lia.
  assert (Hm : Forall u32_limb (map (fun a => u32 (k * a)) x) /\
               bn_val (map (fun a => u32 (k * a)) x) = k * bn_val x).
  { clear Hlx. induction Hx as [|a x Ha Hx [IH1 IH2]]; [split; [constructor|cbn; lia]|].
    assert (Hs : u32 (k * a) = k * a) by (limbs; rewrite wrap_small; nia).
    cbn [map]. rewrite Hs. split; [constructor; [limbs; nia|done]|].
    cbn [bn_val foldr]. fold (bn_val (map (fun a => u32 (k * a)) x)) (bn_val x). rewrite IH2. lia. }
  destruct Hm as [Hu Hkv].
  destruct (bn_fast_mod_ok (map (fun a => u32 (k * a)) x) p) as (Hn & Hv & Hr); [by rewrite length_map|done|done|].
  eexists. split; [done|]. split; [done|]. split; [done|]. by rewrite Hv, Hkv.
Qed.

(** ** Comparisons *)

Lemma fold_lor l : forall a, fold_left Z.lor l a = 0 <-> a = 0 /\ Forall (fun b => b = 0) l.
Proof.
  induction l as [|b l IH]; intros a; cbn [fold_left].
  - split; [done|]. by intros [? _].
  - rewrite IH, Z.lor_eq_0_iff, Forall_cons_iff. tauto.
Qed.

Lemma val_zero l : Forall (fun a => 0 <= a) l -> bn_val l = 0 <-> Forall (fun b => b = 0) l.
Proof.
  induction 1 as [|a l Ha Hl IH]; [done|]. cbn [bn_val foldr]. fold (bn_val l).
  rewrite Forall_cons_iff, <- IH. pose proof (val_nonneg l Hl). lia.
Qed.

Lemma norm_nonneg x : Forall norm_limb x -> Forall (fun a => 0 <= a) x.
Proof. induction 1; constructor; limbs; [lia|done]. Qed.

Lemma lnot_b2z v (b : bool) : (v = 0 <-> b = true) -> lnot_c v = Z.b2z b.
Proof. intros H. unfold lnot_c. destruct (Z.eqb_spec v 0), b; cbn; tauto || (destruct H; intuition congruence). Qed.

Lemma bn_is_zero_val x : normalized x -> bn_is_zero x = Z.b2z (bn_val x =? 0).
Proof.
  intros [_ Hx]. apply lnot_b2z. rewrite fold_lor, Z.eqb_eq, val_zero by (by apply norm_nonneg). tauto.
Qed.

Lemma bn_is_one_val x : normalized x -> bn_is_one x = Z.b2z (bn_val x =? 1).
Proof.
  intros Hx. destruct x as [|x0 x]; [by destruct Hx|]. destruct Hx as [_ Hx].
  apply Forall_cons_1 in Hx as [H0 Hx]. apply lnot_b2z.
  change (limb (x0 :: x) 0) with x0. change (tail (x0 :: x)) with x.
  rewrite fold_lor, Z.eqb_eq, <- val_zero by (by apply norm_nonneg).
  change (bn_val (x0 :: x)) with (x0 + 2 ^ 29 * bn_val x).
  rewrite Z.lxor_eq_0_iff. pose proof (val_nonneg x (norm_nonneg x Hx)). limbs. lia.
Qed.

Lemma zip_lxor x : forall y, length x = length y ->
  Forall (fun b => b = 0) (zip_with Z.lxor x y) <-> x = y.
Proof.
  induction x as [|a x IH]; intros [|b y] Hl; try done. cbn [zip_with].
  rewrite Forall_cons_iff, IH, Z.lxor_eq_0_iff by (cbn in Hl; lia).
  split; [by intros [-> ->]|]. by intros [= -> ->].
Qed.

Lemma bn_is_equal_val x y : normalized x -> normalized y ->
  bn_is_equal x y = Z.b2z (bn_val x =? bn_val y).
Proof.
  intros Hx Hy. apply lnot_b2z. rewrite fold_lor, Z.eqb_eq, zip_lxor by (destruct Hx, Hy; congruence).
  split; [by intros [_ ->]|]. intros. split; [done|]. by apply bn_val_inj.
Qed.

(** The two bit strings of bn_is_less compare as the limbs read so far do. *)
Definition less_inv (n r1 r2 X Y : Z) : Prop :=
  0 <= r1 < 2 ^ n /\ 0 <= r2 < 2 ^ n /\ (r2 < r1 <-> X < Y) /\ (r1 < r2 <-> Y < X).

Lemma less_bit n r b : 0 <= n < 32 -> 0 <= r < 2 ^ n ->
  u32 (Z.shiftl r 1) .| Z.b2z b = 2 * r + Z.b2z b.
Proof.
  intros Hn Hr. assert (2 ^ (n + 1) <= 2 ^ 32) by (apply Z.pow_le_mono_r; lia).
  rewrite Z.pow_add_r in * by lia. rewrite u32_small by (rewrite Z.shiftl_mul_pow2 by lia; lia).
  rewrite Z.lor_comm, lor_shift by (destruct b; cbn; lia). lia.
Qed.

Lemma less_step n r1 r2 X Y a b : 0 <= n < 32 -> less_inv n r1 r2 X Y -> norm_limb a -> norm_limb b ->
  less_inv (n + 1) (u32 (Z.shiftl r1 1) .| Z.b2z (a <? b)) (u32 (Z.shiftl r2 1) .| Z.b2z (b <? a))
    (a + 2 ^ 29 * X) (b + 2 ^ 29 * Y).
Proof.
  intros Hn (H1 & H2 & Hlt & Hgt) Ha Hb. rewrite !(less_bit n) by lia.
  unfold less_inv. rewrite Z.pow_add_r by lia. limbs.
  destruct (Z.ltb_spec a b), (Z.ltb_spec b a); cbn [Z.b2z]; lia.
Qed.

Lemma bn_is_less_val x y : normalized x -> normalized y ->
  bn_is_less x y = Z.b2z (bn_val x <? bn_val y).
Proof.
  intros Hx Hy.
  destruct (norm_dest x Hx) as (x0 & x1 & x2 & x3 & x4 & x5 & x6 & x7 & x8 & -> & Fx).
  destruct (norm_dest y Hy) as (y0 & y1 & y2 & y3 & y4 & y5 & y6 & y7 & y8 & -> & Fy).
  rewrite !Forall_cons_iff in Fx, Fy.
  destruct Fx as (? & ? & ? & ? & ? & ? & ? & ? & ? & _), Fy as (? & ? & ? & ? & ? & ? & ? & ? & ? & _).
  unfold bn_is_less. change (rev (seqZ 0 9)) with [8; 7; 6; 5; 4; 3; 2; 1; 0]. cbn [fold_left].
  match goal with |- Z.b2z (?B <? ?A) = _ =>
    assert (Hi : less_inv 9 A B (bn_val [x0; x1; x2; x3; x4; x5; x6; x7; x8])
                   (bn_val [y0; y1; y2; y3; y4; y5; y6; y7; y8])) end.
  { change 9 with (0 + 1 + 1 + 1 + 1 + 1 + 1 + 1 + 1 + 1).
    do 9 (apply less_step; [lia| |assumption|assumption]). unfold less_inv. cbn. lia. }
  destruct Hi as (_ & _ & Hi & _). f_equal.
  match goal with |- (?A <? ?B) = (?C <? ?D) => destruct (Z.ltb_spec A B), (Z.ltb_spec C D); [done|lia|lia|done] end.
Qed.


(** Deciding the invariants, for concrete numbers. *)
Definition normalized_b (x : bignum256) : bool :=
  (length x =? 9)%nat && forallb (fun a => (0 <=? a) && (a <? 2 ^ 29)) x.

Lemma normalized_b_ok x : normalized_b x = true -> normalized x.
Proof.
  unfold normalized_b. intros [Hl Hf]%andb_prop. apply Nat.eqb_eq in Hl. split; [done|].
  apply List.Forall_forall. intros a Ha. rewrite forallb_forall in Hf. specialize (Hf a Ha).
  unfold norm_limb. zbool. lia.
Qed.

Lemma prime_b_ok p : normalized_b p && (2 ^ 256 - 2 ^ 224 <=? bn_val p) && (bn_val p <=? 2 ^ 256) = true -> prime_ok p.
Proof. intros H. zbool. split; [by apply normalized_b_ok|lia]. Qed.

Lemma secp256k1_prime_ok : prime_ok (prime secp256k1).
Proof. apply prime_b_ok. vm_compute. reflexivity. Qed.

Lemma secp256k1_order_ok : prime_ok (order secp256k1).
Proof. apply prime_b_ok. vm_compute. reflexivity. Qed.

Lemma nist256p1_prime_ok : prime_ok (prime nist256p1).
Proof. apply prime_b_ok. vm_compute. reflexivity. Qed.

Lemma nist256p1_order_ok : prime_ok (order nist256p1).
Proof. apply prime_b_ok. vm_compute. reflexivity. Qed.

End BignumSpec.
