(* ===== verification/Primes.v ===== *)
(** * Primality of the moduli of the curves

    The field prime and the group order of secp256k1 are proved prime: a checker
    for chains of Pocklington certificates, its soundness, and the two chains.
    The results about points and signatures use these facts; nothing about the
    primes is assumed. *)

From stdpp Require Import base list numbers.
From Stdlib Require Import ZArith Znumtheory Zpow_facts Lia.
From Stdlib Require Import Zdivisibility ZmodDef ZmodBase ZmodInv.
From S2P Require Import Prelude Bignum Curves BignumSpec.

Module Primes.
Import BignumSpec.

(** ** The checker *)

(** Trial division up to the square root. *)
Definition small_prime_b (n : Z) : bool :=
  (1 <? n) && forallb (fun d => negb (n mod d =? 0)) (seqZ 2 (Z.sqrt n - 1)).

(** Reduction by a multiplication with an approximate reciprocal [m] = 2^(2b + 16) / n.
    The result is congruent to [x] whatever [m] and [b] are. *)
Definition barrett (n m b x : Z) : Z := x - Z.shiftr (Z.shiftr x (b - 16) * m) (b + 32) * n.

(** a^e, with [r] to reduce and [s] to multiply by [a] *)
Fixpoint power_by (r s : Z -> Z) (a : Z) (e : positive) : Z :=
  match e with
  | xH => a
  | xO e => let z := power_by r s a e in r (z * z)
  | xI e => let z := power_by r s a e in r (s (z * z))
  end.

(** [n] is prime if the product of the primes q of the certificate exceeds the
    square root of [n] and each of them comes with a number y whose order modulo
    every prime divisor of [n] is q: y^q = 1 modulo n, and y - 1 is coprime to n. *)
Definition pocklington_b (n : Z) (qs : list (Z * Z)) : bool :=
  let b := Z.log2 n + 1 in
  let r := barrett n (2 ^ (2 * b + 16) / n) b in
  let f := foldr Z.mul 1 (map fst qs) in
  (2 <? n) && (n <=? f * f) &&
  forallb (fun '(q, y) => (power_by r (fun x => r x * y) y (Z.to_pos q) mod n =? 1) && (Z.gcd (y - 1) n =? 1)) qs.

Fixpoint coprimes_b (qs : list Z) : bool :=
  match qs with
  | [] => true
  | q :: qs => (Z.gcd q (foldr Z.mul 1 qs) =? 1) && coprimes_b qs
  end.

(** A chain: each entry uses primes of the entries after it, or small ones. *)
Fixpoint chain_b (c : list (Z * list (Z * Z))) : bool :=
  match c with
  | [] => true
  | (n, qs) :: c =>
      pocklington_b n qs && coprimes_b (map fst qs) &&
      forallb (fun q => if existsb (fun e => fst e =? q) c then true else small_prime_b q) (map fst qs) && chain_b c
  end.

(** ** Soundness *)

Lemma small_prime_ok n : small_prime_b n = true -> Z.prime n.
Proof.
  unfold small_prime_b. intros [Hn%Z.ltb_lt Hf]%andb_prop. split; [done|]. intros d Hd [m Hm].
  rewrite forallb_forall in Hf.
  assert (H : forall e, 1 < e -> (e | n) -> e * e <= n -> False).
  { intros e He Hdiv Hle. assert (e <= Z.sqrt n) by (by apply Z.sqrt_le_square; lia).
    assert (Hin : List.In e (seqZ 2 (Z.sqrt n - 1))) by (apply list_elem_of_In, elem_of_seqZ; lia).
    specialize (Hf e Hin). apply Z.mod_divide in Hdiv; [|lia]. by rewrite Hdiv in Hf. }
  destruct (Z.le_ge_cases d m).
  - apply (H d); [lia|by exists m|nia].
  - apply (H m); [nia|exists d; lia|nia].
Qed.

Lemma prime_divisor n : 1 < n -> exists p, Z.prime p /\ (p | n).
Proof.
  intros Hn. assert (H : forall k, (k <= Z.to_nat n)%nat -> (exists p, Z.prime p /\ (p | n)) \/
    forall d, 1 < d <= Z.of_nat k -> ~ (d | n)).
  { induction k as [|k IH]; intros Hk; [right; lia|]. destruct IH as [?|IH]; [lia|by left|].
    destruct (Z.BoolSpec_divide (Z.of_nat (S k)) n) as [Hd|Hd].
    - destruct (Z.ltb_spec 1 (Z.of_nat (S k))); [|right; intros d ?; lia].
      left. exists (Z.of_nat (S k)). split; [|done]. split; [done|]. intros m Hm Hmk.
      apply (IH m); [lia|]. by apply (Z.divide_trans _ (Z.of_nat (S k))).
    - right. intros d Hdk. destruct (Z.eq_dec d (Z.of_nat (S k))) as [->|]; [done|]. apply IH. lia. }
  destruct (H (Z.to_nat n)) as [?|Hno]; [lia|done|]. exfalso. apply (Hno n); [lia|done].
Qed.

(** In the units modulo a prime: b^q = 1 with q and p - 1 coprime makes b = 1. *)
Lemma unit_trivial p q (b : Zmod p) : Z.prime p -> b <> Zmod.zero -> Zmod.pow b q = Zmod.one -> Z.gcd q (p - 1) = 1 ->
  b = Zmod.one.
Proof.
  intros Hp Hb Hq Hg. pose proof (Z.prime_ge_2 _ Hp).
  assert (Hc : Z.gcd (Zmod.to_Z b) p = 1).
  { rewrite Z.gcd_comm. apply Z.coprime_prime_small; [done|]. apply Zmod.to_Z_nz in Hb. pose proof (Zmod.to_Z_range b). lia. }
  pose proof (Zmod.fermat_nz b Hb Hp) as Hf. replace (Z.pred p) with (p - 1) in Hf by lia.
  destruct (Z.gcd_bezout q (p - 1) 1 Hg) as (u & v & E).
  rewrite <- (Zmod.pow_1_r b), <- E, Zmod.pow_add_r_coprime, (Z.mul_comm u), (Z.mul_comm v), !Zmod.pow_mul_r_coprime by done.
  rewrite Hq, Hf, !Zmod.pow_1_l. apply Zmod.mul_1_l.
Qed.
Lemma power_by_ok n r s a e : (forall x, r x mod n = x mod n) -> (forall x, s x mod n = (x * a) mod n) ->
  power_by r s a e mod n = (a ^ Z.pos e) mod n.
Proof.
  intros Hr Hs. assert (Hsq : forall z k, z mod n = (a ^ Z.pos k) mod n -> (z * z) mod n = (a ^ (2 * Z.pos k)) mod n).
  { intros z k E. replace (2 * Z.pos k) with (Z.pos k + Z.pos k) by lia. rewrite Z.pow_add_r by lia. by apply mul_cong. }
  induction e as [e IH|e IH|]; cbn [power_by].
  - rewrite Hr, Hs, Pos2Z.inj_xI, Z.pow_add_r, Z.pow_1_r by lia. apply mul_cong; [by apply Hsq|done].
  - rewrite Hr, Pos2Z.inj_xO. by apply Hsq.
  - by rewrite Z.pow_1_r.
Qed.

Lemma barrett_ok n m b x : n <> 0 -> barrett n m b x mod n = x mod n.
Proof. intros Hn. unfold barrett. by apply mod_sub_mul. Qed.

(** Every prime divisor of [n] is 1 modulo q. *)
Lemma pocklington_step n q y p : (y ^ q) mod n = 1 -> Z.gcd (y - 1) n = 1 -> 1 < n -> Z.prime q ->
  Z.prime p -> (p | n) -> (q | p - 1).
Proof.
  intros Hpow Hg Hn Hq Hp Hpn. pose proof (Z.prime_ge_2 _ Hp) as Hp2. pose proof (Z.prime_ge_2 _ Hq) as Hq2.
  set (b := Zmod.of_Z p y).
  assert (Hbq : Zmod.pow b q = Zmod.one).
  { unfold b. rewrite <- Zmod.of_Z_pow, <- Zmod.of_Z_1 by lia.
    apply Zmod.of_Z_inj. by rewrite <- (Z.mod_mod_divide (y ^ q) n p), Hpow. }
  assert (Hb0 : b <> Zmod.zero).
  { intros E. rewrite E, Zmod.pow_0_l in Hbq by lia. symmetry in Hbq. revert Hbq. apply Zmod.one_neq_zero. lia. }
  destruct (Z.BoolSpec_divide q (p - 1)) as [?|Hnd]; [done|exfalso].
  assert (E : b = Zmod.one) by (apply (unit_trivial p q); [done..|by apply Z.coprime_prime_l]).
  unfold b in E. rewrite <- Zmod.of_Z_1 in E. apply Zmod.of_Z_inj in E.
  assert (Hdiv : (p | y - 1)).
  { apply Z.mod_divide; [lia|]. rewrite Zminus_mod, E, Z.sub_diag. by rewrite Z.mod_0_l by lia. }
  assert (H1 : (p | 1)) by (rewrite <- Hg; by apply Z.gcd_greatest).
  apply Z.divide_1_r_nonneg in H1; lia.
Qed.

Lemma product_divides m qs : coprimes_b qs = true -> Forall (fun q => (q | m)) qs -> (foldr Z.mul 1 qs | m).
Proof.
  induction qs as [|q qs IH]; intros Hc Hd; [apply Z.divide_1_l|]. cbn [coprimes_b foldr] in *.
  apply andb_prop in Hc as [Hg Hc]. apply Z.eqb_eq in Hg. apply Forall_cons_1 in Hd as [[k ->] Hd].
  specialize (IH Hc Hd). rewrite Z.gcd_comm in Hg.
  destruct (Z.gauss (foldr Z.mul 1 qs) q k) as [j ->]; [by rewrite Z.mul_comm|done|]. exists j. lia.
Qed.

Lemma product_pos qs : Forall Z.prime qs -> 0 < foldr Z.mul 1 qs.
Proof. induction 1 as [|q qs Hq _ IH]; cbn [foldr]; [lia|]. pose proof (Z.prime_ge_2 _ Hq). nia. Qed.

Lemma pocklington_ok n qs : pocklington_b n qs = true -> coprimes_b (map fst qs) = true ->
  Forall Z.prime (map fst qs) -> Z.prime n.
Proof.
  unfold pocklington_b. intros H Hc Hqs. apply andb_prop in H as [H Hf]. apply andb_prop in H as [Hn Hprod].
  apply Z.ltb_lt in Hn. apply Z.leb_le in Hprod. set (r := barrett _ _ _) in Hf.
  assert (Hr : forall x, r x mod n = x mod n) by (intros; apply barrett_ok; lia).
  assert (Hdiv : forall p, Z.prime p -> (p | n) -> n < p * p).
  { intros p Hp Hpn. pose proof (Z.prime_ge_2 _ Hp).
    assert (Hq : (foldr Z.mul 1 (map fst qs) | p - 1)).
    { apply product_divides; [done|]. rewrite forallb_forall in Hf. rewrite List.Forall_forall in *. intros q Hin.
      pose proof (Hqs q Hin) as Hq. apply in_map_iff in Hin as ((q' & y) & E & Hin). cbn in E. subst q'.
      specialize (Hf _ Hin). cbn in Hf. apply andb_prop in Hf as [Hy Hg]. apply Z.eqb_eq in Hy, Hg.
      pose proof (Z.prime_ge_2 _ Hq). rewrite (power_by_ok n) in Hy; [|done|intros; by apply mul_cong].
      rewrite Z2Pos.id in Hy by lia. apply (pocklington_step n q y p); [done|done|lia|done..]. }
    apply Z.divide_pos_le in Hq; [|lia]. pose proof (product_pos _ Hqs).
    apply (Z.le_lt_trans _ _ _ Hprod). apply Z.square_lt_mono_nonneg; lia. }
  split; [lia|]. intros d Hd [m Hm].
  assert (H : forall e, 1 < e -> (e | n) -> e * e <= n -> False).
  { intros e He Hen Hle. destruct (prime_divisor e He) as (p & Hp & Hpe).
    pose proof (Z.divide_pos_le p e ltac:(lia) Hpe). pose proof (Z.prime_ge_2 _ Hp).
    pose proof (Hdiv p Hp (Z.divide_trans _ _ _ Hpe Hen)). nia. }
  destruct (Z.le_ge_cases d m); [apply (H d); [lia|by exists m|nia]|apply (H m); [nia|exists d; lia|nia]].
Qed.

Lemma chain_ok c : chain_b c = true -> Forall Z.prime (map fst c).
Proof.
  induction c as [|[n qs] c IH]; intros H; [constructor|]. cbn [chain_b map fst] in *.
  apply andb_prop in H as [H Hc]. apply andb_prop in H as [H Hq]. apply andb_prop in H as [H1 H2]. specialize (IH Hc).
  constructor; [|done]. apply (pocklington_ok n qs); [done..|]. rewrite forallb_forall in Hq.
  rewrite List.Forall_forall in *. intros q Hin. specialize (Hq q Hin). destruct (existsb _ c) eqn:Hex.
  - clear Hq. rename Hex into Hq. apply existsb_exists in Hq as ((m & qs') & Hm & E). apply Z.eqb_eq in E. cbn in E. subst m. apply IH.
    by apply (in_map fst) in Hm.
  - by apply small_prime_ok.
Qed.

Lemma chain_prime n c : match c with (m, _) :: _ => m =? n | [] => false end && chain_b c = true -> Z.prime n.
Proof.
  intros [Hn Hc]%andb_prop. apply chain_ok in Hc. destruct c as [|[m qs] c]; [done|]. apply Z.eqb_eq in Hn. subst m.
  by apply Forall_inv in Hc.
Qed.

(** ** The two chains *)

Definition secp256k1_p : Z := 2 ^ 256 - 2 ^ 32 - 977.
Definition secp256k1_n : Z := 0xfffffffffffffffffffffffffffffffebaaedce6af48a03bbfd25e8cd0364141.

Definition secp256k1_p_chain : list (Z * list (Z * Z)) :=
  [(secp256k1_p, [(205115282021455665897114700593932402728804164701536103180137503955397371, 0x429ec5b06c46c20546d5aabbe15bfbeedcade9791a517f619bf3f4135dc4da10)]);
   (205115282021455665897114700593932402728804164701536103180137503955397371, [(255515944373312847190720520512484175977, 0x7b08ccbe4749ceb24c5edd1bcdf1f473d4aac9b13960ce85a31117c6622)]);
   (255515944373312847190720520512484175977, [(96557, 0x23ac68c78f30cf7c8df9abfdec7d9f64);
     (41201, 0x2cd9ae0036e77246b43be852efde75c8);
     (4423, 0x7058ac3ce56fcfc1049fd296e88dc501);
     (2657, 0x6c4d134f0037f6cf17c9dba7eb1b3e5c);
     (1627, 0x68d563da82577cde747be7ca1629a663)])].

Definition secp256k1_n_chain : list (Z * list (Z * Z)) :=
  [(secp256k1_n, [(341948486974166000522343609283189, 0xbf8ef18068f2b95b4ec1d89e969aaaf80d6a55b047c0187ebebfa98b6a4e7de2);
     (174723607534414371449, 0x80894521654e00cb538d9bbda87ca1924c43e68444848439d39a6b50ed475170)]);
   (341948486974166000522343609283189, [(29047611873442575647497758179, 0xe62d151a1de8c23e34c03a81887)]);
   (29047611873442575647497758179, [(297159362677, 0x33e68e5c0f4c9f74cf1864bb);
     (545358713, 0x5010e22e6820a9a776987fc)]);
   (297159362677, [(1627771, 0x1a951d9805)]);
   (545358713, [(28181, 0x1909c92e)]);
   (174723607534414371449, [(44706919, 0x3c02f880550dc7bc9);
     (120233, 0x54d08d619496f1ee4)]);
   (44706919, [(9349, 0x17a51a5)])].

Lemma secp256k1_p_prime : Z.prime secp256k1_p.
Proof. apply (chain_prime _ secp256k1_p_chain). vm_cast_no_check (eq_refl true). Qed.

Lemma secp256k1_n_prime : Z.prime secp256k1_n.
Proof. apply (chain_prime _ secp256k1_n_chain). vm_cast_no_check (eq_refl true). Qed.

End Primes.
