(* ===== verification/EcGroup.v ===== *)
(** * The group of a Weierstrass curve

    Points of y^2 = x^3 + a x + b over a field of characteristic other than 2, with
    the chord and tangent law, form a commutative group when the discriminant is
    not zero.  Associativity rests on one observation: the slope l of the line
    through two points with x1, x2 satisfies both l (x1 - x2) = y1 - y2 and
    l (y1 + y2) = x1^2 + x1 x2 + x2^2 + a, chord or tangent alike. *)

From stdpp Require Import base tactics decidable.
From Stdlib Require Import ZArith Zdivisibility Field Lia.
From S2P Require Import Prelude.

Module EcGroup.

Section Curve.
Context {F : Type} (zero one : F) (add mul sub : F -> F -> F) (opp : F -> F) (div : F -> F -> F) (inv : F -> F).
Context (Fth : field_theory zero one add mul sub opp div inv eq).
Context `{!EqDecision F}.
Variables a b : F.

Add Field Ffield : Fth.

Local Infix "+" := add.
Local Infix "*" := mul.
Local Infix "-" := sub.
Local Infix "/" := div.
Local Abbreviation two := (one + one).
Local Abbreviation three := (one + one + one).

Inductive point := Infinity | Affine (x y : F).

#[export] Instance point_eq_dec : EqDecision point.
Proof. solve_decision. Defined.

Definition on_curve (p : point) : Prop :=
  match p with Infinity => True | Affine x y => y * y = x * x * x + a * x + b end.

Definition negate (p : point) : point :=
  match p with Infinity => Infinity | Affine x y => Affine x (opp y) end.

(** The third point of the line of slope [l] through (x1, y1) and another point
    with abscissa [x2], reflected. *)
Definition third (l x1 y1 x2 : F) : point :=
  let x3 := l * l - x1 - x2 in Affine x3 (l * (x1 - x3) - y1).

Definition plus (p q : point) : point :=
  match p, q with
  | Infinity, _ => q
  | _, Infinity => p
  | Affine x1 y1, Affine x2 y2 =>
      if decide (x1 = x2) then
        if decide (y1 = opp y2) then Infinity
        else third ((three * (x1 * x1) + a) / (two * y1)) x1 y1 x2
      else third ((y1 - y2) / (x1 - x2)) x1 y1 x2
  end.

Hypothesis two_nz : two <> zero.
Hypothesis disc_nz : (two * two) * (a * a * a) + (three * three * three) * (b * b) <> zero.

Lemma mul_zero x y : x * y = zero -> x = zero \/ y = zero.
Proof.
  intros H. destruct (decide (x = zero)) as [|Hx]; [by left|right].
  transitivity (inv x * (x * y)); [field; done|]. rewrite H. ring.
Qed.

Lemma sub_zero x y : x - y = zero -> x = y.
Proof. intros H. transitivity (x - y + y); [ring|]. rewrite H. ring. Qed.

Lemma cancel_l x y z : x <> zero -> x * y = x * z -> y = z.
Proof.
  intros Hx H. apply sub_zero. destruct (mul_zero x (y - z)) as [|E]; [|done|exact E].
  transitivity (x * y - x * z); [ring|]. rewrite H. ring.
Qed.

Lemma sub_nz x y : x <> y -> x - y <> zero.
Proof. intros H E. by apply H, sub_zero. Qed.

Lemma same_x x y1 y2 : on_curve (Affine x y1) -> on_curve (Affine x y2) -> y1 = y2 \/ y1 = opp y2.
Proof.
  cbn. intros H1 H2. destruct (mul_zero (y1 - y2) (y1 + y2)) as [E|E].
  - transitivity (y1 * y1 - y2 * y2); [ring|]. rewrite H1, H2. ring.
  - left. by apply sub_zero.
  - right. apply sub_zero. rewrite <- E. ring.
Qed.

(** ** Slopes *)

Record slope (l x1 y1 x2 y2 : F) : Prop := {
  slope_chord : l * (x1 - x2) = y1 - y2;
  slope_conic : l * (y1 + y2) = x1 * x1 + x1 * x2 + x2 * x2 + a }.

(** Two points of the curve that are not opposite have a slope, and the law takes
    the third point of that line. *)
Lemma plus_slope x1 y1 x2 y2 : on_curve (Affine x1 y1) -> on_curve (Affine x2 y2) -> ~ (x1 = x2 /\ y1 = opp y2) ->
  exists l, slope l x1 y1 x2 y2 /\ plus (Affine x1 y1) (Affine x2 y2) = third l x1 y1 x2.
Proof.
  intros H1 H2 Hne. cbn [plus]. destruct (decide (x1 = x2)) as [->|Hx].
  - destruct (decide (y1 = opp y2)) as [|Hy]; [tauto|].
    assert (E : y1 = y2) by (by destruct (same_x x2 y1 y2 H1 H2)).
    subst y2. assert (Hy1 : y1 <> zero) by (intros ->; apply Hy; ring).
    eexists. split; [|reflexivity]. split; [ring|field; done].
  - pose proof (sub_nz _ _ Hx). eexists. split; [|reflexivity]. split; [field; done|].
    transitivity ((y1 * y1 - y2 * y2) / (x1 - x2)); [field; done|]. cbn in H1, H2. rewrite H1, H2. field. done.
Qed.

Lemma slope_ends l x1 y1 x2 y2 : slope l x1 y1 x2 y2 ->
  y2 = y1 - l * (x1 - x2) /\ a = l * (y1 + (y1 - l * (x1 - x2))) - x1 * x1 - x1 * x2 - x2 * x2.
Proof.
  intros [Hc Hq]. assert (E : y2 = y1 - l * (x1 - x2)) by (rewrite Hc; ring). split; [done|].
  rewrite <- E, Hq. ring.
Qed.

Lemma curve_b x y : on_curve (Affine x y) -> b = y * y - x * x * x - a * x.
Proof. cbn. intros H. rewrite H. ring. Qed.

Lemma slope_sym l x1 y1 x2 y2 : slope l x1 y1 x2 y2 -> slope l x2 y2 x1 y1.
Proof.
  intros [Hc Hq]. split.
  - transitivity (opp (l * (x1 - x2))); [ring|]. rewrite Hc. ring.
  - transitivity (l * (y1 + y2)); [ring|]. rewrite Hq. ring.
Qed.

Lemma slope_opp l x1 y1 x2 y2 : slope l x1 y1 x2 y2 -> slope (opp l) x1 (opp y1) x2 (opp y2).
Proof.
  intros [Hc Hq]. split.
  - transitivity (opp (l * (x1 - x2))); [ring|]. rewrite Hc. ring.
  - transitivity (l * (y1 + y2)); [ring|]. done.
Qed.

(** The line also has its slope between the first point and the reflected third. *)
Lemma slope_third l x1 y1 x2 y2 x3 y3 : slope l x1 y1 x2 y2 -> third l x1 y1 x2 = Affine x3 y3 ->
  slope l x1 y1 x3 (opp y3).
Proof.
  intros Hs [= <- <-]. destruct (slope_ends _ _ _ _ _ Hs) as [Hy Ha]. split; [ring|]. ring [Ha].
Qed.

Lemma third_sym l x1 y1 x2 y2 : slope l x1 y1 x2 y2 -> third l x1 y1 x2 = third l x2 y2 x1.
Proof. intros Hs. destruct (slope_ends _ _ _ _ _ Hs) as [-> _]. unfold third. f_equal; ring. Qed.

Lemma third_on_curve l x1 y1 x2 y2 : slope l x1 y1 x2 y2 -> on_curve (Affine x1 y1) -> on_curve (third l x1 y1 x2).
Proof.
  intros Hs H1. destruct (slope_ends _ _ _ _ _ Hs) as [_ Ha]. pose proof (curve_b _ _ H1) as Hb. cbn. ring [Hb Ha].
Qed.

Lemma slope_unique l m x1 y1 x2 y2 : slope l x1 y1 x2 y2 -> slope m x1 y1 x2 y2 -> ~ (x1 = x2 /\ y1 = opp y2) -> l = m.
Proof.
  intros [Hc Hq] [Hc' Hq'] Hne. destruct (decide (x1 = x2)) as [->|Hx].
  - destruct (decide (y1 + y2 = zero)) as [E|Hy].
    + exfalso. apply Hne. split; [done|]. transitivity (y1 + y2 - y2); [ring|]. rewrite E. ring.
    + apply (cancel_l (y1 + y2)); [done|]. transitivity (l * (y1 + y2)); [ring|]. rewrite Hq, <- Hq'. ring.
  - apply (cancel_l (x1 - x2)); [by apply sub_nz|]. transitivity (l * (x1 - x2)); [ring|]. rewrite Hc, <- Hc'. ring.
Qed.

Lemma plus_third l x1 y1 x2 y2 : on_curve (Affine x1 y1) -> on_curve (Affine x2 y2) -> ~ (x1 = x2 /\ y1 = opp y2) ->
  slope l x1 y1 x2 y2 -> plus (Affine x1 y1) (Affine x2 y2) = third l x1 y1 x2.
Proof.
  intros H1 H2 Hne Hs. destruct (plus_slope _ _ _ _ H1 H2 Hne) as (m & Hm & ->). f_equal. by eapply slope_unique.
Qed.

Lemma plus_opposite x y1 y2 : y1 = opp y2 -> plus (Affine x y1) (Affine x y2) = Infinity.
Proof. intros H. cbn. by rewrite !decide_True. Qed.

Definition opposite (x1 y1 x2 y2 : F) : {x1 = x2 /\ y1 = opp y2} + {~ (x1 = x2 /\ y1 = opp y2)} := decide _.

(** ** The group laws *)

Lemma negate_on_curve p : on_curve p -> on_curve (negate p).
Proof. destruct p as [|x y]; [done|]. cbn. intros H. rewrite <- H. ring. Qed.

Lemma negate_negate p : negate (negate p) = p.
Proof. destruct p as [|x y]; [done|]. cbn. f_equal. ring. Qed.

Lemma plus_on_curve p q : on_curve p -> on_curve q -> on_curve (plus p q).
Proof.
  destruct p as [|x1 y1], q as [|x2 y2]; [done..|]. intros H1 H2. destruct (opposite x1 y1 x2 y2) as [[<- ->]|Hne].
  - by rewrite plus_opposite.
  - destruct (plus_slope _ _ _ _ H1 H2 Hne) as (l & Hl & ->). by eapply third_on_curve.
Qed.

Lemma plus_inf_r p : plus p Infinity = p.
Proof. by destruct p. Qed.

Lemma plus_comm p q : on_curve p -> on_curve q -> plus p q = plus q p.
Proof.
  destruct p as [|x1 y1], q as [|x2 y2]; [done..|]. intros H1 H2. destruct (opposite x1 y1 x2 y2) as [[<- ->]|Hne].
  - rewrite (plus_opposite x1 (opp y2) y2), (plus_opposite x1 y2 (opp y2)) by ring. done.
  - destruct (plus_slope _ _ _ _ H1 H2 Hne) as (l & Hl & ->). rewrite (plus_third l); [by eapply third_sym|done|done| |by apply slope_sym].
    intros [-> ->]. apply Hne. split; [done|ring].
Qed.

Lemma plus_negate p : plus p (negate p) = Infinity.
Proof. destruct p as [|x y]; [done|]. apply plus_opposite. ring. Qed.

Lemma negate_plus p q : on_curve p -> on_curve q -> negate (plus p q) = plus (negate p) (negate q).
Proof.
  destruct p as [|x1 y1], q as [|x2 y2]; [done..|]. intros H1 H2. destruct (opposite x1 y1 x2 y2) as [[<- ->]|Hne].
  - cbn [negate]. rewrite !plus_opposite by ring. done.
  - destruct (plus_slope _ _ _ _ H1 H2 Hne) as (l & Hl & ->). cbn [negate].
    rewrite (plus_third (opp l)); [| | | |by apply slope_opp].
    + unfold third. cbn. f_equal; ring.
    + by apply (negate_on_curve (Affine x1 y1)).
    + by apply (negate_on_curve (Affine x2 y2)).
    + intros [-> E]. apply Hne. split; [done|]. transitivity (opp (opp y1)); [ring|]. rewrite E. ring.
Qed.

(** Adding a point to another one that is affine changes it: this is where the
    discriminant counts. *)
Lemma third_changes l x1 y1 x2 y2 : slope l x1 y1 x2 y2 -> on_curve (Affine x1 y1) ->
  third l x1 y1 x2 <> Affine x1 y1.
Proof.
  intros Hs H1 [= Hx Hy]. rewrite Hx in Hy. destruct (slope_ends _ _ _ _ _ Hs) as [_ Ha]. pose proof (curve_b _ _ H1) as Hb.
  assert (Hy0 : y1 = zero).
  { destruct (mul_zero two y1) as [|E]; [|by apply two_nz in H|done]. transitivity (y1 + y1); [ring|]. rewrite <- Hy at 1. ring. }
  subst y1. assert (Hx2 : x2 = l * l - x1 - x1) by (transitivity (l * l - x1 - (l * l - x1 - x2)); [ring|by rewrite Hx]).
  assert (Ha' : a = opp (three * (x1 * x1))) by (rewrite Ha, Hx2; ring).
  apply disc_nz. rewrite Hb, Ha'. ring.
Qed.

Lemma plus_cancel p q : on_curve p -> on_curve q -> plus (negate p) (plus p q) = q.
Proof.
  destruct p as [|x1 y1]; [done|]. destruct q as [|x2 y2].
  { intros _ _. rewrite plus_inf_r. cbn [negate]. by apply plus_opposite. }
  intros H1 H2. destruct (opposite x1 y1 x2 y2) as [[<- ->]|Hne].
  { rewrite plus_opposite by done. cbn. f_equal. ring. }
  destruct (plus_slope _ _ _ _ H1 H2 Hne) as (l & Hl & ->). destruct (third l x1 y1 x2) as [|x3 y3] eqn:E; [done|].
  pose proof (third_on_curve _ _ _ _ _ Hl H1) as H3. rewrite E in H3. cbn [negate].
  rewrite (plus_third (opp l)); [| |done| |].
  - injection E as <- <-. destruct (slope_ends _ _ _ _ _ Hl) as [-> _]. unfold third. f_equal; ring.
  - by apply (negate_on_curve (Affine x1 y1)).
  - intros [<- Ey]. apply (third_changes _ _ _ _ _ Hl H1). rewrite E. f_equal. transitivity (opp (opp y3)); [ring|]. rewrite <- Ey. ring.
  - pose proof (slope_opp _ _ _ _ _ (slope_third _ _ _ _ _ _ _ Hl E)) as Hs. replace (opp (opp y3)) with y3 in Hs by ring. done.
Qed.

(** The slope from A + B to C, in terms of the slopes l of A, B and m of B, C. *)
Lemma assoc_slope l m n x1 y1 x2 y2 x3 y3 x4 y4 :
  on_curve (Affine x1 y1) -> on_curve (Affine x2 y2) -> on_curve (Affine x3 y3) ->
  slope l x1 y1 x2 y2 -> slope m x2 y2 x3 y3 -> third l x1 y1 x2 = Affine x4 y4 -> slope n x4 y4 x3 y3 ->
  ~ (x2 = x3 /\ y2 = opp y3) -> ~ (x4 = x3 /\ y4 = opp y3) ->
  n * (l - m) = (x1 - x3) - l * (l - m).
Proof.
  intros H1 H2 H3 Hl Hm E4 Hn Hbc Hdc. pose proof (third_on_curve _ _ _ _ _ Hl H1) as H4. rewrite E4 in H4.
  pose proof (slope_sym _ _ _ _ _ Hl) as Hl'. destruct (slope_ends _ _ _ _ _ Hl') as [Ey1 Ea1].
  destruct (slope_ends _ _ _ _ _ Hm) as [Ey3 Ea3]. rewrite (third_sym _ _ _ _ _ Hl) in E4.
  destruct (decide (x4 = x3)) as [Ex|Hx].
  - subst x4. assert (Ey : y4 = y3) by (destruct (same_x x3 y4 y3 H4 H3); [done|by exfalso; apply Hdc]).
    subst y4. assert (Hx23 : x2 <> x3).
    { intros ->. destruct (plus_slope _ _ _ _ H2 H3 Hbc) as (k & Hk & _). apply (third_changes _ _ _ _ _ Hl' H2). rewrite E4. f_equal.
      rewrite Ey3. ring. }
    pose proof (slope_third _ _ _ _ _ _ _ Hl' E4) as [Hc4 _]. destruct Hm as [Hc3 _]. destruct Hn as [_ Hq].
    assert (H2y : (l - m) * (x2 - x3) = y3 + y3) by (transitivity (l * (x2 - x3) - m * (x2 - x3)); [ring|rewrite Hc4, Hc3; ring]).
    assert (Hy3 : y3 + y3 <> zero).
    { intros E. apply Hdc. split; [done|]. transitivity (y3 + y3 - y3); [ring|]. rewrite E. ring. }
    assert (Hder : x3 * x3 + x3 * x3 + x3 * x3 + a = (x1 - x3) * (x2 - x3) - l * (y3 + y3)).
    { injection E4 as <- <-. ring [Ea1]. }
    apply (cancel_l (y3 + y3)); [done|]. transitivity (n * (y3 + y3) * (l - m)); [ring|]. rewrite Hq, Hder.
    transitivity ((x1 - x3) * ((l - m) * (x2 - x3)) - l * (y3 + y3) * (l - m)); [ring|]. rewrite H2y. ring.
  - destruct Hn as [Hc _]. apply (cancel_l (x4 - x3)); [by apply sub_nz|]. transitivity (n * (x4 - x3) * (l - m)); [ring|]. rewrite Hc.
    assert (Hii : two * (l - m) * y2 = (x1 + x2 + x3) * (x1 - x3) - l * l * (x1 - x2) + m * m * (x3 - x2)).
    { apply sub_zero. transitivity (a - a); [rewrite Ea1 at 1; rewrite Ea3; ring|ring]. }
    injection E4 as <- <-. rewrite Ey3. apply sub_zero.
    transitivity ((x1 + x2 + x3) * (x1 - x3) - l * l * (x1 - x2) + m * m * (x3 - x2) - two * (l - m) * y2); [|rewrite Hii; ring]. ring.
Qed.

(** The two ways of adding three points meet when the slopes differ. *)
Lemma assoc_lines l m n r x1 y1 x2 y2 x3 y3 x4 y4 x5 y5 :
  slope l x1 y1 x2 y2 -> slope m x2 y2 x3 y3 -> third l x1 y1 x2 = Affine x4 y4 -> third m x2 y2 x3 = Affine x5 y5 ->
  slope n x4 y4 x3 y3 -> l <> m ->
  n * (l - m) = (x1 - x3) - l * (l - m) -> r * (m - l) = (x3 - x1) - m * (m - l) ->
  third n x4 y4 x3 = third r x1 y1 x5.
Proof.
  intros Hl Hm E4 E5 [Hc _] Hlm Hn Hr. pose proof (sub_nz _ _ Hlm) as Hd.
  assert (Er : r = n + l - m).
  { apply (cancel_l (l - m)); [done|]. transitivity (opp (r * (m - l))); [ring|]. rewrite Hr.
    transitivity (n * (l - m) + (l - m) * (l - m)); [rewrite Hn; ring|ring]. }
  assert (Ex3 : x3 = x1 - (n + l) * (l - m)) by (transitivity (x1 - (n * (l - m) + l * (l - m))); [rewrite Hn; ring|ring]).
  assert (Ey4 : y4 = n * (x4 - x3) + y3) by (rewrite Hc; ring).
  destruct (slope_ends _ _ _ _ _ (slope_sym _ _ _ _ _ Hl)) as [Ey1 _]. destruct (slope_ends _ _ _ _ _ Hm) as [Ey3 _].
  injection E4 as Ex4 _. injection E5 as Ex5 _. unfold third.
  assert (Ex : n * n - x4 - x3 = r * r - x1 - x5) by (rewrite <- Ex4, <- Ex5, Er, Ex3; ring).
  f_equal; [done|]. rewrite <- Ex, Ey4, Ey3, Ey1, Er. rewrite <- Ex4, Ex3. ring.
Qed.

Lemma affine_inj x1 y1 x2 y2 : Affine x1 y1 = negate (Affine x2 y2) <-> x1 = x2 /\ y1 = opp y2.
Proof. cbn. split; [by intros [= -> ->]|by intros [-> ->]]. Qed.

(** If A + B = - C then B + C = - A. *)
Lemma plus_turn p q s : on_curve p -> on_curve q -> plus p q = negate s -> plus q s = negate p.
Proof.
  intros Hp Hq E. assert (Hs : s = negate (plus p q)) by (by rewrite E, negate_negate).
  rewrite Hs, negate_plus by done. rewrite <- (negate_negate q) at 1. rewrite (plus_comm (negate p)) by (by apply negate_on_curve).
  by apply plus_cancel; apply negate_on_curve.
Qed.

Lemma plus_assoc p q s : on_curve p -> on_curve q -> on_curve s -> plus (plus p q) s = plus p (plus q s).
Proof.
  intros Hp Hq Hs. destruct p as [|x1 y1]; [done|]. destruct q as [|x2 y2]; [done|].
  destruct s as [|x3 y3]; [by rewrite !plus_inf_r|].
  destruct (opposite x1 y1 x2 y2) as [[<- ->]|Hab].
  { rewrite plus_opposite by done. cbn [plus]. by rewrite <- (plus_cancel (Affine x1 y2) (Affine x3 y3)) at 1. }
  destruct (opposite x2 y2 x3 y3) as [[<- ->]|Hbc].
  { rewrite (plus_opposite x2) by done. rewrite plus_inf_r, (plus_comm (Affine x1 y1)), plus_comm by (try apply plus_on_curve; done).
    rewrite <- (plus_cancel (Affine x2 (opp y3)) (Affine x1 y1)) at 2 by done. cbn [negate]. by replace (opp (opp y3)) with y3 by ring. }
  destruct (plus_slope _ _ _ _ Hp Hq Hab) as (l & Hl & ED). destruct (plus_slope _ _ _ _ Hq Hs Hbc) as (m & Hm & EE).
  destruct (third l x1 y1 x2) as [|x4 y4] eqn:E4; [done|]. destruct (third m x2 y2 x3) as [|x5 y5] eqn:E5; [done|].
  pose proof (plus_on_curve _ _ Hp Hq) as HD. pose proof (plus_on_curve _ _ Hq Hs) as HE. rewrite ED in HD |- *. rewrite EE in HE |- *.
  destruct (opposite x4 y4 x3 y3) as [Hop|Hdc].
  { destruct Hop as [-> Hop]. rewrite plus_opposite by done.
    assert (EA : plus (Affine x2 y2) (Affine x3 y3) = negate (Affine x1 y1)).
    { apply plus_turn; [done..|]. rewrite ED. by apply affine_inj. }
    rewrite EE in EA. apply affine_inj in EA as [-> ->]. symmetry. apply plus_opposite. ring. }
  destruct (opposite x1 y1 x5 y5) as [Hop|Hae].
  { exfalso. apply Hdc, affine_inj. rewrite <- ED. apply plus_turn; [done..|]. apply plus_turn; [done..|]. rewrite EE.
    destruct Hop as [-> ->]. apply affine_inj. split; [done|ring]. }
  destruct (plus_slope _ _ _ _ HD Hs Hdc) as (n & Hn & EN). destruct (plus_slope _ _ _ _ Hp HE Hae) as (r & Hr & ER).
  pose proof (assoc_slope l m n _ _ _ _ _ _ _ _ Hp Hq Hs Hl Hm E4 Hn Hbc Hdc) as Kn.
  destruct (decide (l = m)) as [<-|Hlm].
  - assert (x1 = x3) as <- by (apply sub_zero; transitivity (n * (l - l) + l * (l - l)); [rewrite Kn; ring|ring]).
    assert (y3 = y1) as ->.
    { destruct (slope_ends _ _ _ _ _ Hm) as [-> _]. destruct (slope_ends _ _ _ _ _ (slope_sym _ _ _ _ _ Hl)) as [-> _]. ring. }
    rewrite <- ED, <- EE, (plus_comm (Affine x2 y2)) by done. apply plus_comm; [by apply plus_on_curve|done].
  - rewrite EN, ER. apply (assoc_lines l m n r _ _ _ _ _ _ _ _ _ y5 Hl Hm E4 E5 Hn Hlm Kn).
    apply (assoc_slope m l r x3 y3 x2 y2 x1 y1 x5 y5); try done; try by apply slope_sym.
    + by rewrite <- (third_sym _ _ _ _ _ Hm).
    + intros [-> E]. apply Hab. split; [done|]. rewrite E. ring.
    + intros [-> E]. apply Hae. split; [done|]. rewrite E. ring.
Qed.

(** ** The formulas of the code *)

Lemma tangent_slope x y : y <> zero -> slope (mul (three * (x * x) - opp a) (inv (two * y))) x y x y.
Proof. intros Hy. split; [ring|]. field. done. Qed.

Lemma chord_slope x1 y1 x2 y2 : on_curve (Affine x1 y1) -> on_curve (Affine x2 y2) -> x1 <> x2 ->
  slope (inv (x2 - x1) * (y2 - y1)) x1 y1 x2 y2.
Proof.
  cbn [on_curve]. intros H1 H2 Hx. assert (Hx' : x2 - x1 <> zero) by (by apply sub_nz; congruence). split; [field; done|].
  transitivity ((y2 * y2 - y1 * y1) * inv (x2 - x1)); [field; done|]. rewrite H1, H2. field. done.
Qed.

Lemma third_sum l x1 y1 x2 :
  Affine (l * l - (x1 + x2)) (l * (x1 - (l * l - (x1 + x2))) - y1) = third l x1 y1 x2.
Proof. unfold third. f_equal; ring. Qed.

(** Jacobian coordinates of an affine point. *)
Record jacobian (X Y Z : F) (q : point) : Prop := {
  jac_z : Z <> zero;
  jac_q : exists x y, q = Affine x y /\ X = x * (Z * Z) /\ Y = y * (Z * (Z * Z)) }.

Lemma jacobian_double_law X Y Z x y : jacobian X Y Z (Affine x y) -> y <> zero ->
  let m := (three * (X * X) - opp a * (Z * Z * (Z * Z))) / two in
  let X3 := m * m - (Y * Y * X + Y * Y * X) in
  jacobian X3 (m * (Y * Y * X - X3) - Y * Y * (Y * Y)) (Y * Z) (plus (Affine x y) (Affine x y)).
Proof.
  intros [HZ (x' & y' & [= <- <-] & -> & ->)] Hy m X3. cbn [plus]. rewrite decide_True by done. rewrite decide_False.
  2: { intros E. apply Hy. destruct (mul_zero two y) as [|E']; [|by apply two_nz in H|done]. transitivity (y + y); [ring|]. rewrite E at 1. ring. }
  set (l := (three * (x * x) + a) / (two * y)).
  assert (Em : m = l * (y * (Z * Z * (Z * Z)))) by (unfold m, l; field; done).
  split.
  - intros E. apply mul_zero in E as [E|]; [|done]. apply mul_zero in E as [|E]; [done|]. apply mul_zero in E as [|E]; [done|].
    by apply mul_zero in E as [|].
  - eexists _, _. split; [reflexivity|]. unfold X3. rewrite Em. split; ring.
Qed.

Lemma jacobian_add_law X Y Z x1 y1 x2 y2 h r : jacobian X Y Z (Affine x2 y2) ->
  on_curve (Affine x1 y1) -> on_curve (Affine x2 y2) -> ~ (x1 = x2 /\ y1 = opp y2) ->
  (if decide (x1 = x2) then h = y1 * (Z * Z * Z) + Y /\ r = three * (X * X) - opp a * (Z * Z * (Z * Z))
   else h = x1 * (Z * Z) - X /\ r = y1 * (Z * Z * Z) - Y) ->
  let s := (x1 * (Z * Z) + X) * (h * h) in
  let t := (y1 * (Z * Z * Z) + Y) * (h * h * h) in
  let X3 := r * r - s in
  jacobian X3 ((r * (s - X3 - X3) - t) / two) (h * Z) (plus (Affine x1 y1) (Affine x2 y2)).
Proof.
  intros [HZ (x' & y' & [= <- <-] & -> & ->)] H1 H2 Hne Hhr s t X3.
  destruct (plus_slope _ _ _ _ H1 H2 Hne) as (l & Hl & ->). destruct Hl as [Hc Hq].
  assert (Hh : h <> zero /\ r = l * (h * Z)).
  { destruct (decide (x1 = x2)) as [->|Hx]; destruct Hhr as [-> ->].
    - split; [|transitivity ((x2 * x2 + x2 * x2 + x2 * x2 + a) * (Z * Z * (Z * Z))); [ring|rewrite <- Hq; ring]].
      intros E. destruct (mul_zero (y1 + y2) (Z * (Z * Z))) as [E'|E'].
      + rewrite <- E. ring.
      + apply Hne. split; [done|]. transitivity (y1 + y2 - y2); [ring|]. rewrite E'. ring.
      + apply mul_zero in E' as [|E']; [done|]. by apply mul_zero in E' as [|].
    - split; [|transitivity ((y1 - y2) * (Z * (Z * Z))); [ring|rewrite <- Hc; ring]].
      intros E. destruct (mul_zero (x1 - x2) (Z * Z)) as [E'|E']; [rewrite <- E; ring|by apply sub_zero in E'|by apply mul_zero in E' as [|]]. }
  destruct Hh as [Hh Hr]. split; [intros E; by apply mul_zero in E as [|]|]. eexists _, _. split; [reflexivity|].
  assert (Ey2 : y2 = y1 - l * (x1 - x2)) by (rewrite Hc; ring). unfold X3, s, t. rewrite Hr, Ey2. split; [ring|field; done].
Qed.

Lemma jacobian_affine X Y Z q : jacobian X Y Z q ->
  q = Affine (X * (inv Z * inv Z)) (Y * (inv Z * inv Z * inv Z)).
Proof. intros [HZ (x & y & -> & -> & ->)]. f_equal; field; done. Qed.

Lemma jacobian_negate X Y Z q : jacobian X Y Z q -> jacobian X Y (opp Z) (negate q) /\ jacobian X (opp Y) Z (negate q).
Proof.
  intros [HZ (x & y & -> & -> & ->)]. split; split.
  - intros E. apply HZ. transitivity (opp (opp Z)); [ring|]. rewrite E. ring.
  - eexists _, _. split; [reflexivity|]. split; ring.
  - done.
  - eexists _, _. split; [reflexivity|]. split; ring.
Qed.

(** ** Multiples *)

Fixpoint times_pos (n : positive) (p : point) : point :=
  match n with
  | xH => p
  | xO n => let q := times_pos n p in plus q q
  | xI n => let q := times_pos n p in plus p (plus q q)
  end.

Definition times (n : Z) (p : point) : point :=
  match n with
  | Z0 => Infinity
  | Zpos n => times_pos n p
  | Zneg n => negate (times_pos n p)
  end.

Section Multiples.
Variable p : point.
Hypothesis Hp : on_curve p.

Lemma times_pos_on_curve n : on_curve (times_pos n p).
Proof. induction n; cbn; [by repeat apply plus_on_curve|by apply plus_on_curve|done]. Qed.

Lemma times_on_curve n : on_curve (times n p).
Proof. destruct n; cbn; [done|apply times_pos_on_curve|apply negate_on_curve, times_pos_on_curve]. Qed.

Lemma times_pos_succ n : times_pos (Pos.succ n) p = plus p (times_pos n p).
Proof.
  pose proof times_pos_on_curve as HO. induction n as [n IH|n IH|]; [|done|done].
  change (times_pos (Pos.succ n~1) p) with (plus (times_pos (Pos.succ n) p) (times_pos (Pos.succ n) p)).
  rewrite IH. cbn [times_pos]. set (q := times_pos n p). assert (Hq : on_curve q) by apply HO.
  assert (Hqq : on_curve (plus q q)) by (by apply plus_on_curve). assert (Hpq : on_curve (plus p q)) by (by apply plus_on_curve).
  rewrite plus_assoc, (plus_comm q (plus p q)), plus_assoc by done. done.
Qed.

Lemma times_succ n : times (Z.succ n) p = plus p (times n p).
Proof.
  destruct n as [|n|n]; [by rewrite plus_inf_r|rewrite <- Pos2Z.inj_succ; apply times_pos_succ|].
  destruct (Pos.eq_dec n 1) as [->|Hn]; [by rewrite plus_negate|].
  replace n with (Pos.succ (Pos.pred n)) by (by apply Pos.succ_pred). set (k := Pos.pred n).
  replace (Z.succ (Z.neg (Pos.succ k))) with (Z.neg k) by lia. cbn [times]. rewrite times_pos_succ, negate_plus by (done || apply times_pos_on_curve).
  assert (Hk : on_curve (negate (times_pos k p))) by (apply negate_on_curve, times_pos_on_curve).
  rewrite <- (negate_negate p) at 2. symmetry. apply plus_cancel; [by apply negate_on_curve|done].
Qed.

Lemma times_add m n : times (m + n) p = plus (times m p) (times n p).
Proof.
  revert m. apply Z.bi_induction.
  - by intros ? ? ->.
  - done.
  - intros m. rewrite Z.add_succ_l, !times_succ, plus_assoc by (done || apply times_on_curve). split; [by intros ->|].
    intros E. rewrite <- (plus_cancel p (times (m + n) p)), E by (done || apply times_on_curve).
    apply plus_cancel; [done|]. apply plus_on_curve; apply times_on_curve.
Qed.

Lemma times_neg n : times (- n) p = negate (times n p).
Proof. destruct n; cbn; [done|done|by rewrite negate_negate]. Qed.

Lemma times_sub_inf m n : times (m - n) p = Infinity -> times m p = times n p.
Proof.
  intros E. replace m with ((m - n) + n)%Z by lia. by rewrite times_add, E.
Qed.

Lemma times_mod n k : 0 < n -> times n p = Infinity -> times (k mod n) p = times k p.
Proof.
  intros Hn E. assert (Hm : forall j, times (n * j) p = Infinity).
  { apply Z.bi_induction; [by intros ? ? ->|by rewrite Z.mul_0_r|]. intros j. rewrite Z.mul_succ_r, times_add, E, plus_inf_r. done. }
  rewrite (Z.div_mod k n) at 2 by lia. by rewrite times_add, Hm.
Qed.

(** The multiples of a point of prime order. *)
Lemma times_inf n k : Z.prime n -> times n p = Infinity -> p <> Infinity -> times k p = Infinity <-> k mod n = 0.
Proof.
  intros Hn E Hne. pose proof (Z.prime_ge_2 _ Hn). split.
  - intros Ek. destruct (Z.eq_dec (k mod n) 0) as [|Hk]; [done|exfalso]. apply Hne.
    assert (Hg : Z.gcd n (k mod n) = 1) by (apply Z.coprime_prime_small; [done|]; pose proof (Z.mod_pos_bound k n); lia).
    destruct (Z.gcd_bezout n (k mod n) 1 Hg) as (u & v & Eb). transitivity (times 1 p); [done|]. rewrite <- Eb.
    assert (Hmul : forall c j, times j p = Infinity -> times (c * j) p = Infinity).
    { intros c j Ej. revert c. apply Z.bi_induction; [by intros ? ? ->|done|]. intros c. by rewrite Z.mul_succ_l, times_add, Ej, plus_inf_r. }
    rewrite times_add, !Hmul; [done|rewrite times_mod by (done || lia); done|done].
  - intros Ek. rewrite <- (times_mod n k), Ek by (done || lia). done.
Qed.

End Multiples.

Lemma times_times p m n : on_curve p -> times m (times n p) = times (m * n) p.
Proof.
  intros Hp. pose proof (times_on_curve p Hp n) as Hn. revert m. apply Z.bi_induction.
  - by intros ? ? ->.
  - done.
  - intros m. rewrite times_succ, Z.mul_succ_l, Z.add_comm, times_add by done. split; [by intros ->|].
    intros E. rewrite <- (plus_cancel (times n p) (times m (times n p))), E by (done || by apply times_on_curve).
    apply plus_cancel; [done|]. by apply times_on_curve.
Qed.

End Curve.
End EcGroup.
