(* ===== verification/BignumBits.v ===== *)
(** * 256-bit numbers: selection, shifts, halving and bits

    The values of the operations that select, shift or address bits: bn_cmov,
    bn_mod, bn_cnegate, bn_lshift, bn_rshift, bn_mult_half, bn_setbit,
    bn_clearbit, bn_testbit, bn_xor and bn_bitcount. *)

From stdpp Require Import base list numbers.
From Stdlib Require Import ZArith Lia.
From S2P Require Import Prelude Bits Bignum Curves BignumSpec.
Local Open Scope fw_scope.

Module BignumBits.
Import Bignum Curves BignumSpec.

(** ** Selection by masks *)

Lemma land_all a : 0 <= a < 2 ^ 32 -> a .& 0xffffffff = a.
Proof. intros Ha. change 0xffffffff with (Z.ones 32). rewrite Z.land_ones by lia. by apply Z.mod_small. Qed.

Definition mask_of (c : bool) : Z := if c then 0xffffffff else 0.

Lemma tmask_of c : u32 (- Z.b2z c) = mask_of c.
Proof. by destruct c. Qed.
Lemma fmask_of c : not32 (mask_of c) = mask_of (negb c).
Proof. by destruct c. Qed.

Lemma land_mask_of a c : 0 <= a < 2 ^ 32 -> a .& mask_of c = if c then a else 0.
Proof. intros Ha. destruct c; cbn [mask_of]; [by apply land_all|apply Z.land_0_r]. Qed.

Lemma select_word a b c : 0 <= a < 2 ^ 32 -> 0 <= b < 2 ^ 32 ->
  (a .& mask_of c) .| (b .& mask_of (negb c)) = if c then a else b.
Proof.
  intros Ha Hb. rewrite !land_mask_of by done.
  destruct c; cbn [negb]; [apply Z.lor_0_r|apply Z.lor_0_l].
Qed.

Lemma select_words c x : forall y, length x = length y -> Forall u32_limb x -> Forall u32_limb y ->
  zip_with (fun t f => (t .& mask_of c) .| (f .& mask_of (negb c))) x y = if c then x else y.
Proof.
  induction x as [|a x IH]; intros [|b y] Hl Hx Hy; try done; [by destruct c|].
  apply Forall_cons_1 in Hx as [Ha Hx], Hy as [Hb Hy]. cbn [zip_with].
  rewrite IH by (cbn in Hl; auto). rewrite select_word by done. by destruct c.
Qed.

Lemma bn_cmov_sel (c : bool) x y : length x = length y -> Forall u32_limb x -> Forall u32_limb y ->
  bn_cmov (Z.b2z c) x y = Some (if c then x else y).
Proof.
  intros Hl Hx Hy. unfold bn_cmov.
  replace ((Z.b2z c =? 1) || (Z.b2z c =? 0)) with true by (by destruct c).
  by rewrite tmask_of, fmask_of, select_words.
Qed.

Lemma bn_cmov_norm (c : bool) x y : normalized x -> normalized y ->
  bn_cmov (Z.b2z c) x y = Some (if c then x else y).
Proof. intros [? ?] [? ?]. apply bn_cmov_sel; [congruence|by apply norm_u32..]. Qed.

(** ** Full reduction and negation *)

Lemma bn_mod_val x p : normalized x -> normalized p ->
  exists r, bn_mod x p = Some r /\ normalized r /\
  bn_val r = if bn_val x <? bn_val p then bn_val x else bn_val x - bn_val p.
Proof.
  intros Hx Hp. unfold bn_mod. rewrite bn_is_less_val by done.
  destruct (bn_subtract_val x p Hx Hp) as [Hn Hv].
  rewrite bn_cmov_norm by done. eexists. split; [done|].
  destruct (Z.ltb_spec (bn_val x) (bn_val p)); split; try done. rewrite Hv.
  apply Z.mod_small. pose proof (normalized_range x Hx). pose proof (normalized_range p Hp). lia.
Qed.

Lemma bn_mod_ok x p : normalized x -> normalized p -> bn_val x < 2 * bn_val p ->
  exists r, bn_mod x p = Some r /\ normalized r /\ bn_val r = bn_val x mod bn_val p.
Proof.
  intros Hx Hp Hr. destruct (bn_mod_val x p Hx Hp) as (r & E & Hn & Hv). exists r.
  split; [done|]. split; [done|]. rewrite Hv. pose proof (normalized_range x Hx).
  destruct (Z.ltb_spec (bn_val x) (bn_val p)); [rewrite Z.mod_small; lia|].
  apply (Z.mod_unique_pos _ _ 1); lia.
Qed.

(** Both accumulators of bn_cnegate are carry loops, and the mask chooses
    between the limbs they store. *)
Lemma cnegate_loop_sel c x : forall p acc1 acc2, length x = length p ->
  bn_cnegate_loop (mask_of c) (mask_of (negb c)) acc1 acc2 (zip x p) =
  if c then fst (carry 32 acc1 (zip_with (fun a q => u32 (BN_BASE - 1 + u32 (2 * q) - a)) x p))
  else fst (carry 32 acc2 (zip_with (fun a q => u32 (q + a)) x p)).
Proof.
  induction x as [|a x IH]; intros [|q p] acc1 acc2 Hl; try done; [by destruct c|].
  change (zip (a :: x) (q :: p)) with ((a, q) :: zip x p).
  cbn [bn_cnegate_loop zip_with carry]. rewrite IH by (cbn in Hl; lia).
  set (s1 := u32 (acc1 + _)). set (s2 := u32 (acc2 + _)). fold (u32 (acc1 + u32 (BN_BASE - 1 + u32 (2 * q) - a))).
  fold (u32 (acc2 + u32 (q + a))). fold s1 s2.
  rewrite select_word by apply u32_range. destruct c.
  - by destruct (carry 32 (Z.shiftr s1 _) _).
  - by destruct (carry 32 (Z.shiftr s2 _) _).
Qed.

Lemma bn_cnegate_val (c : bool) x p : normalized x -> normalized p -> bn_val x < 2 * bn_val p ->
  bn_val p < 2 ^ 260 ->
  exists r, bn_cnegate (Z.b2z c) x p = Some r /\ normalized r /\
  bn_val r = if c then 2 * bn_val p - bn_val x mod bn_val p else bn_val x mod bn_val p + bn_val p.
Proof.
  intros Hx Hp Hr Hb. unfold bn_cnegate.
  replace ((Z.b2z c =? 1) || (Z.b2z c =? 0)) with true by (by destruct c).
  destruct (bn_mod_ok x p Hx Hp Hr) as (y & -> & [Hly Hy] & Hv). cbn [mbind option_bind].
  rewrite tmask_of, fmask_of. eexists. split; [done|]. destruct Hp as [Hlp Hp].
  rewrite cnegate_loop_sel by congruence. pose proof (val_range y Hy) as Ry. rewrite Hly, radix_9 in Ry.
  pose proof (val_range x (proj2 Hx)) as Rx.
  assert (Hlt : bn_val y < bn_val p) by (rewrite Hv; apply Z.mod_pos_bound; lia).
  rewrite <- Hv. destruct c.
  - destruct (carry_zip norm_limb norm_limb 32 (3 * 2 ^ 29 - 3) (2 ^ 29 - 1) (-1) 2 1
      (fun a q => u32 (BN_BASE - 1 + u32 (2 * q) - a)) y p) as (_ & Hw & Hn & Hlen);
      [lia|congruence|done|done| |lia|lia|lia|].
    + intros u v Hu Hv'. limbs. rewrite (wrap_small _ (2 * v)), wrap_small by lia. lia.
    + split; [split; [congruence|done]|]. rewrite Hw, val_ones, Hly, radix_9.
      symmetry. apply (Z.mod_unique_pos _ _ 1); lia.
  - destruct (carry_zip norm_limb norm_limb 32 (2 ^ 30 - 2) 0 1 1 0
      (fun a q => u32 (q + a)) y p) as (_ & Hw & Hn & Hlen);
      [lia|congruence|done|done| |lia|lia|lia|].
    + intros u v Hu Hv'. limbs. rewrite wrap_small by lia. lia.
    + split; [split; [congruence|done]|]. rewrite Hw, Hly, radix_9. rewrite Z.mod_small; lia.
Qed.

(** ** Shifts *)

Lemma land_1 a : a .& 1 = a mod 2.
Proof. change 1 with (Z.ones 1) at 1. by rewrite Z.land_ones by lia. Qed.

Lemma rshift_limb a b : norm_limb a ->
  Z.shiftr a 1 .| Z.shiftl (b .& 1) (BN_BITS_PER_LIMB - 1) = a / 2 + 2 ^ 28 * (b mod 2).
Proof.
  intros Ha. rewrite land_1, Z.shiftr_div_pow2, lor_shift by (limbs; unfold BN_BITS_PER_LIMB; zlia).
  unfold BN_BITS_PER_LIMB. change (2 ^ 1) with 2. lia.
Qed.

Lemma lshift_limb a b : norm_limb a -> norm_limb b ->
  (u32 (Z.shiftl a 1) .& BN_LIMB_MASK) .| Z.shiftr b (BN_BITS_PER_LIMB - 1)
  = 2 * (a mod 2 ^ 28) + b / 2 ^ 28.
Proof.
  intros Ha Hb. rewrite land_mask, u32_small by (rewrite Z.shiftl_mul_pow2 by lia; limbs; lia).
  rewrite Z.shiftl_mul_pow2, Z.shiftr_div_pow2 by (unfold BN_BITS_PER_LIMB; lia).
  change (2 ^ (BN_BITS_PER_LIMB - 1)) with (2 ^ 28). rewrite Z.lor_comm.
  replace ((a * 2 ^ 1) mod 2 ^ 29) with (Z.shiftl (a mod 2 ^ 28) 1)
    by (rewrite Z.shiftl_mul_pow2 by lia; limbs; zlia).
  rewrite lor_shift by (limbs; zlia). lia.
Qed.

Lemma lshift_limb0 a : norm_limb a -> u32 (Z.shiftl a 1) .& BN_LIMB_MASK = 2 * (a mod 2 ^ 28).
Proof.
  intros Ha. rewrite land_mask, u32_small by (rewrite Z.shiftl_mul_pow2 by lia; limbs; lia).
  rewrite Z.shiftl_mul_pow2 by lia. limbs. zlia.
Qed.

Lemma bn_rshift_val x : normalized x ->
  normalized (bn_rshift x) /\ bn_val (bn_rshift x) = bn_val x / 2.
Proof.
  intros Hx. destruct (norm_dest x Hx) as (x0 & x1 & x2 & x3 & x4 & x5 & x6 & x7 & x8 & -> & Fx).
  rewrite !Forall_cons_iff in Fx. destruct Fx as (? & ? & ? & ? & ? & ? & ? & ? & ? & _).
  unfold bn_rshift. change (limb _ (BN_LIMBS - 1)) with x8. cbn [tail zip_with app].
  rewrite !rshift_limb by done. rewrite Z.shiftr_div_pow2 by lia. change (2 ^ 1) with 2.
  split.
  - split; [done|]. repeat (constructor; [limbs; zlia|]). constructor.
  - unfold bn_val. cbn [foldr]. limbs. zlia.
Qed.

Lemma bn_lshift_val x : normalized x ->
  normalized (bn_lshift x) /\ bn_val (bn_lshift x) = (2 * bn_val x) mod 2 ^ 261.
Proof.
  intros Hx. destruct (norm_dest x Hx) as (x0 & x1 & x2 & x3 & x4 & x5 & x6 & x7 & x8 & -> & Fx).
  rewrite !Forall_cons_iff in Fx. destruct Fx as (? & ? & ? & ? & ? & ? & ? & ? & ? & _).
  unfold bn_lshift. change (limb _ 0) with x0. cbn [tail zip_with].
  rewrite !lshift_limb, lshift_limb0 by done.
  split.
  - split; [done|]. repeat (constructor; [limbs; zlia|]). constructor.
  - apply (Z.mod_unique_pos _ _ (x8 / 2 ^ 28)); unfold bn_val; cbn [foldr]; limbs; zlia.
Qed.

Lemma bn_is_even_val x : normalized x -> bn_is_even x = Z.b2z (Z.even (bn_val x)).
Proof.
  intros [Hl Hx]. destruct x as [|x0 x]; [done|]. unfold bn_is_even. change (limb _ 0) with x0.
  rewrite land_1. change (bn_val (x0 :: x)) with (x0 + 2 ^ 29 * bn_val x).
  replace (Z.even (x0 + 2 ^ 29 * bn_val x)) with (Z.even x0).
  2: { rewrite Z.even_add, Z.even_mul. by destruct (Z.even x0). }
  by rewrite Zmod_even; destruct (Z.even x0).
Qed.

(** ** Halving modulo an odd number *)

(** The loop adds half of the sums that are still to come; each sum is split
    into its parity, which goes to the limb below, and its half. *)
Lemma mult_half_loop_val c x : forall p acc, length x = length p -> Forall norm_limb x -> Forall norm_limb p ->
  0 <= acc < 2 ^ 30 ->
  let out := bn_mult_half_loop (mask_of c) acc (zip x p) in
  2 * bn_val out = 2 * acc + 2 ^ 29 * (bn_val x + if c then bn_val p else 0) /\
  length out = S (length x) /\
  exists init top, out = init ++ [top] /\ Forall norm_limb init /\ 0 <= top.
Proof.
  induction x as [|a x IH]; intros [|q p] acc Hl Hx Hp Ha; try done.
  - cbn. split; [destruct c; lia|]. split; [done|]. exists [], acc. split; [done|]. split; [constructor|lia].
  - apply Forall_cons_1 in Hx as [Hu Hx], Hp as [Hq Hp]. change (zip (a :: x) (q :: p)) with ((a, q) :: zip x p).
    cbn [bn_mult_half_loop]. rewrite land_mask_of by (limbs; lia).
    set (t := a + if c then q else 0).
    assert (Ht : 0 <= t < 2 ^ 30) by (unfold t; limbs; destruct c; lia).
    rewrite (u32_small t), land_1, land_mask by lia. unfold BN_BITS_PER_LIMB.
    rewrite Z.shiftl_mul_pow2, !Z.shiftr_div_pow2 by lia. change (2 ^ (29 - 1)) with (2 ^ 28). change (2 ^ 1) with 2.
    rewrite (u32_small (t mod 2 * _)), (u32_small (acc + _)) by zlia.
    set (s := acc + t mod 2 * 2 ^ 28). assert (Hs : 0 <= s < 2 ^ 30 + 2 ^ 28) by (unfold s; zlia).
    rewrite u32_small by zlia. cbn zeta.
    destruct (IH p (s / 2 ^ 29 + t / 2)) as (Hv & Hlen & init & top & Eo & Hi & Htop); [cbn in Hl; lia|done|done|zlia|].
    split; [|split; [cbn [length]; by rewrite Hlen|]].
    + cbn [bn_val foldr]. fold (bn_val x) (bn_val p). fold (bn_val (bn_mult_half_loop (mask_of c) (s / 2 ^ 29 + t / 2) (zip x p))).
      assert (Et : t = a + if c then q else 0) by done. clearbody t.
      assert (Es : s = acc + t mod 2 * 2 ^ 28) by done. clearbody s. destruct c; zlia.
    + rewrite Eo. exists (s mod 2 ^ 29 :: init), top. split; [done|]. split; [|done].
      constructor; [apply norm_mod|done].
Qed.

Lemma last_limb init top : Forall norm_limb init -> length init = 8%nat -> 0 <= top ->
  bn_val (init ++ [top]) < 2 ^ 261 -> normalized (init ++ [top]).
Proof.
  intros Hi Hl Ht Hv. split; [rewrite length_app, Hl; done|]. apply Forall_app. split; [done|].
  constructor; [|constructor]. rewrite val_app, Hl in Hv. change (radix 8) with (2 ^ 232) in Hv.
  apply val_range in Hi. rewrite Hl in Hi. change (bn_val [top]) with (top + 2 ^ 29 * 0) in Hv. limbs. lia.
Qed.

Lemma bn_mult_half_val x p : normalized x -> normalized p -> Z.odd (bn_val p) = true ->
  normalized (bn_mult_half x p) /\
  bn_val (bn_mult_half x p) = if Z.odd (bn_val x) then (bn_val x + bn_val p) / 2 else bn_val x / 2.
Proof.
  intros Hx Hp Ho. pose proof (normalized_range x Hx) as Rx. pose proof (normalized_range p Hp) as Rp.
  destruct Hx as [Hlx Hx], Hp as [Hlp Hp]. destruct x as [|x0 x], p as [|p0 p]; try done.
  apply Forall_cons_1 in Hx as [H0 Hx], Hp as [Hp0 Hp]. unfold bn_mult_half. change (limb (x0 :: x) 0) with x0.
  change (limb (p0 :: p) 0) with p0. change (tail (zip (x0 :: x) (p0 :: p))) with (zip x p).
  change (bn_val (x0 :: x)) with (x0 + 2 ^ 29 * bn_val x) in *.
  change (bn_val (p0 :: p)) with (p0 + 2 ^ 29 * bn_val p) in *.
  assert (Eo : Z.odd (x0 + 2 ^ 29 * bn_val x) = Z.odd x0)
    by (rewrite Z.odd_add, Z.odd_mul; cbn; apply xorb_false_r).
  assert (Op : Z.odd p0 = true) by (rewrite Z.odd_add, Z.odd_mul in Ho; cbn in Ho; by rewrite xorb_false_r in Ho).
  rewrite Eo. rewrite land_1, Zmod_odd. change (if Z.odd x0 then 1 else 0) with (Z.b2z (Z.odd x0)).
  rewrite tmask_of, land_mask_of by (limbs; lia). set (c := Z.odd x0).
  assert (Ec : (x0 + if c then p0 else 0) mod 2 = 0).
  { rewrite Zmod_odd, Z.odd_add. unfold c. destruct (Z.odd x0) eqn:E; cbn; rewrite ?E, ?Op; done. }
  rewrite u32_small, Z.shiftr_div_pow2 by (limbs; destruct c; lia). change (2 ^ 1) with 2.
  set (acc := (x0 + if c then p0 else 0) / 2).
  assert (Hacc : 2 * acc = x0 + if c then p0 else 0) by (unfold acc; zlia).
  destruct (mult_half_loop_val c x p acc) as (Hv & Hlen & init & top & Eout & Hi & Htop);
    [cbn in *; lia|done|done|limbs; destruct c; lia|].
  cbn zeta in *. set (out := bn_mult_half_loop _ _ _) in *.
  assert (Hval : 2 * bn_val out = x0 + 2 ^ 29 * bn_val x + if c then p0 + 2 ^ 29 * bn_val p else 0)
    by (destruct c; lia).
  split.
  - rewrite Eout in *. rewrite length_app in Hlen. apply last_limb; [done|cbn in *; lia|done|destruct c; lia].
  - destruct c; zlia.
Qed.

(** ** Bits *)

Lemma limb_split a v i : norm_limb a -> 0 <= i ->
  Z.testbit (a + 2 ^ 29 * v) i = if i <? 29 then Z.testbit a i else Z.testbit v (i - 29).
Proof.
  intros Ha Hi. replace (a + 2 ^ 29 * v) with (a .| Z.shiftl v 29) by (rewrite lor_shift; limbs; lia).
  rewrite Z.lor_spec. destruct (Z.ltb_spec i 29).
  - by rewrite Z.shiftl_spec_low, orb_false_r by lia.
  - rewrite Z.shiftl_spec by lia. rewrite <- (Z.mod_small a (2 ^ 29)) by (limbs; lia).
    by rewrite Z.mod_pow2_bits_high by lia.
Qed.

Lemma limb_cons a l i : 0 <= i -> limb (a :: l) i = if i =? 0 then a else limb l (i - 1).
Proof.
  intros Hi. unfold limb, znth. destruct (Z.eqb_spec i 0) as [->|]; [done|].
  rewrite !(proj2 (Z.ltb_ge _ 0)) by lia. replace (Z.to_nat i) with (S (Z.to_nat (i - 1))) by lia. done.
Qed.

Lemma limb_nil i : limb [] i = 0.
Proof. unfold limb, znth. destruct (i <? 0), (Z.to_nat i); done. Qed.

Lemma val_testbit l : Forall norm_limb l -> forall i, 0 <= i ->
  Z.testbit (bn_val l) i = Z.testbit (limb l (i / 29)) (i mod 29).
Proof.
  induction 1 as [|a l Ha Hl IH]; intros i Hi.
  - by rewrite limb_nil, !Z.bits_0.
  - change (bn_val (a :: l)) with (a + 2 ^ 29 * bn_val l).
    rewrite limb_split, limb_cons by (try done; zlia). destruct (Z.ltb_spec i 29).
    + rewrite Z.div_small, Z.mod_small by lia. done.
    + rewrite IH by lia. replace (i / 29 =? 0) with false by (symmetry; apply Z.eqb_neq; zlia).
      f_equal; [f_equal|]; zlia.
Qed.

Lemma val_bits_eq x v : Forall norm_limb x -> 0 <= v ->
  (forall k i, 0 <= k -> 0 <= i < 29 -> Z.testbit (limb x k) i = Z.testbit v (29 * k + i)) ->
  bn_val x = v.
Proof.
  intros Hx Hv H. apply Z.bits_inj'. intros i Hi. rewrite val_testbit by done.
  rewrite H by zlia. f_equal. zlia.
Qed.

Lemma limb_zupd x k v m : 0 <= k < zlen x -> 0 <= m ->
  limb (zupd x k v) m = if m =? k then v else limb x m.
Proof.
  intros Hk Hm. unfold limb. destruct (Z.eqb_spec m k) as [->|]; [by rewrite znth_zupd_eq|].
  by rewrite znth_zupd_ne by lia.
Qed.

Lemma norm_limb_at x k : Forall norm_limb x -> norm_limb (limb x k).
Proof.
  intros Hx. unfold limb, znth. destruct (k <? 0); [limbs; lia|].
  destruct (nth_in_or_default (Z.to_nat k) x 0) as [Hin|E]; [|rewrite E; limbs; lia].
  rewrite List.Forall_forall in Hx. by apply Hx.
Qed.

Lemma norm_zupd x k v : normalized x -> norm_limb v -> normalized (zupd x k v).
Proof.
  intros [Hl Hx] Hv. unfold zupd. destruct (k <? 0); [done|]. split; [by rewrite length_insert|]. by apply Forall_insert.
Qed.

Lemma limb_of_bits a : 0 <= a -> (forall i, 29 <= i -> Z.testbit a i = false) -> norm_limb a.
Proof. intros. split; [done|]. by apply bounded_bits. Qed.

Lemma limb_high x k i : Forall norm_limb x -> 29 <= i -> Z.testbit (limb x k) i = false.
Proof.
  intros Hx Hi. pose proof (norm_limb_at x k Hx). rewrite <- (Z.mod_small (limb x k) (2 ^ 29)) by (limbs; lia).
  by rewrite Z.mod_pow2_bits_high by lia.
Qed.

Lemma one_bit n i : 0 <= n -> Z.testbit (Z.shiftl 1 n) i = (i =? n).
Proof.
  intros Hn. rewrite Z.shiftl_1_l. destruct (Z.eqb_spec i n) as [->|]; [by rewrite Z.pow2_bits_true|].
  by rewrite Z.pow2_bits_false by lia.
Qed.

Lemma bit_index i : 0 <= i < 261 -> 0 <= i / 29 < 9 /\ 0 <= i mod 29 < 29.
Proof. zlia. Qed.

Lemma bn_setbit_val x i : normalized x -> 0 <= i < 261 ->
  exists r, bn_setbit x i = Some r /\ normalized r /\ bn_val r = Z.setbit (bn_val x) i.
Proof.
  intros Hx Hi. unfold bn_setbit. change (BN_LIMBS * BN_BITS_PER_LIMB) with 261.
  unfold BN_BITS_PER_LIMB. zif. eexists. split; [done|]. pose proof (bit_index i Hi) as [Hk Hm].
  pose proof (norm_limb_at x (i / 29) (proj2 Hx)) as Hn.
  assert (Hb : norm_limb (limb x (i / 29) .| Z.shiftl 1 (i mod 29))).
  { apply limb_of_bits; [apply Z.lor_nonneg; rewrite Z.shiftl_nonneg; limbs; lia|].
    intros j Hj. rewrite Z.lor_spec, limb_high, one_bit by (apply Hx || lia). apply Z.eqb_neq. lia. }
  pose proof (norm_zupd x (i / 29) _ Hx Hb) as Hr. split; [done|].
  apply val_bits_eq; [apply Hr| |].
  - rewrite Z.setbit_spec'. apply Z.lor_nonneg. pose proof (normalized_range x Hx). lia.
  - intros k j Hk' Hj. rewrite Z.setbit_eqb, limb_zupd by (try lia; unfold zlen; rewrite (proj1 Hx); lia).
    rewrite val_testbit by (apply Hx || lia).
    replace ((29 * k + j) / 29) with k by zlia. replace ((29 * k + j) mod 29) with j by zlia.
    destruct (Z.eqb_spec k (i / 29)) as [->|Hne].
    + rewrite Z.lor_spec, one_bit by lia. rewrite orb_comm. f_equal.
      destruct (Z.eqb_spec j (i mod 29)), (Z.eqb_spec i (29 * (i / 29) + j)); zlia.
    + destruct (Z.eqb_spec i (29 * k + j)); [zlia|]. done.
Qed.

Lemma bn_clearbit_val x i : normalized x -> 0 <= i < 261 ->
  exists r, bn_clearbit x i = Some r /\ normalized r /\ bn_val r = Z.clearbit (bn_val x) i.
Proof.
  intros Hx Hi. unfold bn_clearbit. change (BN_LIMBS * BN_BITS_PER_LIMB) with 261.
  unfold BN_BITS_PER_LIMB. zif. eexists. split; [done|]. pose proof (bit_index i Hi) as [Hk Hm].
  pose proof (norm_limb_at x (i / 29) (proj2 Hx)) as Hn.
  assert (Hu : is_u32 (Z.shiftl 1 (i mod 29))).
  { rewrite Z.shiftl_1_l. split; [lia|]. apply (Z.lt_le_trans _ (2 ^ 29)); [apply Z.pow_lt_mono_r; lia|lia]. }
  assert (Hb : norm_limb (limb x (i / 29) .& not32 (Z.shiftl 1 (i mod 29)))).
  { apply limb_of_bits; [apply Z.land_nonneg; limbs; lia|].
    intros j Hj. by rewrite Z.land_spec, limb_high by (apply Hx || lia). }
  pose proof (norm_zupd x (i / 29) _ Hx Hb) as Hr. split; [done|].
  apply val_bits_eq; [apply Hr| |].
  - rewrite Z.clearbit_spec'. apply Z.ldiff_nonneg. pose proof (normalized_range x Hx). lia.
  - intros k j Hk' Hj. rewrite Z.clearbit_eqb, limb_zupd by (try lia; unfold zlen; rewrite (proj1 Hx); lia).
    rewrite val_testbit by (apply Hx || lia).
    replace ((29 * k + j) / 29) with k by zlia. replace ((29 * k + j) mod 29) with j by zlia.
    destruct (Z.eqb_spec k (i / 29)) as [->|Hne].
    + rewrite Z.land_spec, not32_spec, one_bit by (done || lia). zif. f_equal. cbn. f_equal.
      destruct (Z.eqb_spec j (i mod 29)), (Z.eqb_spec i (29 * (i / 29) + j)); zlia.
    + destruct (Z.eqb_spec i (29 * k + j)); [zlia|]. by rewrite andb_true_r.
Qed.

Lemma bn_testbit_val x i : normalized x -> 0 <= i < 261 ->
  bn_testbit x i = Some (Z.b2z (Z.testbit (bn_val x) i)).
Proof.
  intros Hx Hi. unfold bn_testbit. change (BN_LIMBS * BN_BITS_PER_LIMB) with 261.
  unfold BN_BITS_PER_LIMB. zif. rewrite val_testbit by (apply Hx || lia). f_equal.
  by rewrite Z.testbit_spec', land_1, Z.shiftr_div_pow2 by zlia.
Qed.

Lemma limb_zip_xor x : forall y k, length x = length y -> 0 <= k ->
  limb (zip_with Z.lxor x y) k = limb x k .^ limb y k.
Proof.
  induction x as [|a x IH]; intros [|b y] k Hl Hk; try done.
  - by rewrite !limb_nil.
  - cbn [zip_with]. rewrite !limb_cons by lia. destruct (Z.eqb_spec k 0); [done|]. apply IH; [cbn in Hl; lia|lia].
Qed.

Lemma bn_xor_val x y : normalized x -> normalized y ->
  normalized (bn_xor x y) /\ bn_val (bn_xor x y) = bn_val x .^ bn_val y.
Proof.
  intros Hx Hy. unfold bn_xor.
  assert (Hn : Forall norm_limb (zip_with Z.lxor x y)).
  { apply (zip_forall norm_limb norm_limb); [apply Hx|apply Hy|]. intros u v Hu Hv.
    apply limb_of_bits; [rewrite Z.lxor_nonneg; limbs; lia|]. intros i Hi. rewrite Z.lxor_spec.
    rewrite <- (Z.mod_small u (2 ^ 29)), <- (Z.mod_small v (2 ^ 29)) by (limbs; lia).
    by rewrite !Z.mod_pow2_bits_high by lia. }
  destruct Hx as [Hlx Hx], Hy as [Hly Hy]. split; [split; [rewrite length_zip_with; lia|done]|].
  apply val_bits_eq; [done| |].
  - rewrite Z.lxor_nonneg. pose proof (val_range x Hx). pose proof (val_range y Hy). lia.
  - intros k i Hk Hi. rewrite limb_zip_xor, !Z.lxor_spec, !val_testbit by (congruence || done || lia).
    replace ((29 * k + i) / 29) with k by zlia. by replace ((29 * k + i) mod 29) with i by zlia.
Qed.

(** The bit size of a number. *)
Definition bit_size (v : Z) : Z := if v =? 0 then 0 else Z.log2 v + 1.

Lemma take_limb x n : (n < length x)%nat -> take (S n) x = take n x ++ [limb x (Z.of_nat n)].
Proof.
  intros Hn. unfold limb, znth. zif. rewrite Nat2Z.id.
  destruct (lookup_lt_is_Some_2 x n Hn) as [a Ha]. rewrite (take_S_r _ _ _ Ha). do 2 f_equal.
  symmetry. by apply nth_lookup_Some.
Qed.

Lemma bitcount_loop_val x n : Forall norm_limb x -> (n <= length x)%nat ->
  bitcount_loop x (rev (seqZ 0 (Z.of_nat n))) = bit_size (bn_val (take n x)).
Proof.
  intros Hx. induction n as [|n IH]; intros Hn; [done|].
  replace (Z.of_nat (S n)) with (Z.of_nat n + 1) by lia.
  rewrite seqZ_app, Z.add_0_l by lia.
  replace (seqZ (Z.of_nat n) 1) with [Z.of_nat n] by (unfold seqZ; cbn; f_equal; lia).
  rewrite rev_app_distr. cbn [rev app bitcount_loop].
  rewrite take_limb, val_app, length_take_le by lia. change (bn_val [limb x ?n]) with (limb x n + 2 ^ 29 * 0).
  set (a := limb x (Z.of_nat n)). rewrite Z.mul_0_r, Z.add_0_r.
  pose proof (norm_limb_at x (Z.of_nat n) Hx) as Ha. fold a in Ha.
  assert (Hr : 0 <= bn_val (take n x) < radix n).
  { pose proof (val_range (take n x) (Forall_take _ _ _ Hx)) as Hr. by rewrite length_take_le in Hr by lia. }
  destruct (Z.eqb_spec a 0) as [->|Hne].
  - rewrite Z.mul_0_r, Z.add_0_r. apply IH. lia.
  - unfold bit_size, builtin_clz. limbs. pose proof (radix_pos n).
    replace (_ =? 0) with false by (symmetry; apply Z.eqb_neq; nia).
    replace (Z.log2 (bn_val (take n x) + radix n * a)) with (29 * Z.of_nat n + Z.log2 a);
      [unfold BN_BITS_PER_LIMB; lia|].
    symmetry. apply Z.log2_unique; [pose proof (Z.log2_nonneg a); lia|].
    replace (Z.succ (29 * Z.of_nat n + Z.log2 a)) with (29 * Z.of_nat n + Z.succ (Z.log2 a)) by lia.
    pose proof (Z.log2_spec a ltac:(lia)). pose proof (Z.log2_nonneg a).
    rewrite !(Z.pow_add_r 2) by lia. fold (radix n). nia.
Qed.

Lemma bn_bitcount_val x : normalized x -> bn_bitcount x = bit_size (bn_val x).
Proof.
  intros [Hl Hx]. unfold bn_bitcount. change 9 with (Z.of_nat 9).
  rewrite bitcount_loop_val by (done || lia). by rewrite <- Hl, firstn_all.
Qed.


(** ** The properties *)

(** The constant-time tests agree with the numbers: less, equal, zero, one
    and even, the bit at an index, and the bit size; setting and clearing a bit
    and the exclusive or are those of the numbers. *)
Theorem bn_tests_correct x y i : normalized x -> normalized y -> 0 <= i < 261 ->
  bn_is_less x y = Z.b2z (bn_val x <? bn_val y) /\ bn_is_equal x y = Z.b2z (bn_val x =? bn_val y) /\
  bn_is_zero x = Z.b2z (bn_val x =? 0) /\ bn_is_one x = Z.b2z (bn_val x =? 1) /\
  bn_is_even x = Z.b2z (Z.even (bn_val x)) /\
  bn_testbit x i = Some (Z.b2z (Z.testbit (bn_val x) i)) /\ bn_bitcount x = bit_size (bn_val x) /\
  (exists r, bn_setbit x i = Some r /\ normalized r /\ bn_val r = Z.setbit (bn_val x) i) /\
  (exists r, bn_clearbit x i = Some r /\ normalized r /\ bn_val r = Z.clearbit (bn_val x) i) /\
  bn_val (bn_xor x y) = bn_val x .^ bn_val y.
Proof.
  intros Hx Hy Hi. split_and!; [by apply bn_is_less_val|by apply bn_is_equal_val|by apply bn_is_zero_val|
    by apply bn_is_one_val|by apply bn_is_even_val|by apply bn_testbit_val|by apply bn_bitcount_val|
    by apply bn_setbit_val|by apply bn_clearbit_val|by apply bn_xor_val].
Qed.

Lemma bn_tests_correct_witness :
  bn_is_less (order secp256k1) (prime secp256k1) =
  Z.b2z (bn_val (order secp256k1) <? bn_val (prime secp256k1)).
Proof.
  apply (bn_tests_correct (order secp256k1) (prime secp256k1) 5);
    [apply secp256k1_order_ok|apply secp256k1_prime_ok|lia].
Defined.

End BignumBits.
