(* ===== verification/BignumConv.v ===== *)
(** * 256-bit numbers: raw formats and long division

    bn_read_be, bn_read_le, bn_write_be and bn_write_le regroup eight 32-bit
    words into nine 29-bit limbs and back; bn_long_division divides by a small
    number from the top limb down, and bn_digitcount counts decimal digits with
    it. *)

From stdpp Require Import base list numbers.
From Stdlib Require Import ZArith Lia.
From S2P Require Import Prelude Bits Bignum Curves BignumSpec BignumBits.
Local Open Scope fw_scope.

Module BignumConv.
Import Bignum Curves BignumSpec BignumBits.

(** ** Reading *)

(** The words still to be read, from word [i] on. *)
Definition words_val (read : Z -> Z) (idx : list Z) : Z := foldr (fun i v => read i + 2 ^ 32 * v) 0 idx.

Lemma pow3_split i : 0 <= i <= 8 -> 2 ^ (3 * i) * 2 ^ (29 - 3 * i) = 2 ^ 29 /\ 2 ^ (3 * (i + 1)) = 8 * 2 ^ (3 * i).
Proof.
  intros Hi. rewrite <- Z.pow_add_r by lia. split; [f_equal; lia|].
  replace (3 * (i + 1)) with (3 + 3 * i) by lia. rewrite Z.pow_add_r by lia. lia.
Qed.

(** Before word [i] is read, [temp] holds the 3 i bits left over from the words
    before it. *)
Lemma read_loop_val read n : forall i temp, (forall j, 0 <= read j < 2 ^ 32) -> 0 <= i ->
  i + Z.of_nat n = 8 -> 0 <= temp < 2 ^ (3 * i) ->
  let out := bn_read_loop read (seqZ i (Z.of_nat n)) temp in
  bn_val out = temp + 2 ^ (3 * i) * words_val read (seqZ i (Z.of_nat n)) /\
  length out = S n /\ Forall norm_limb out.
Proof.
  induction n as [|n IH]; intros i temp Hr Hi Hn Ht out.
  - assert (i = 8) as -> by lia. subst out. change (seqZ 8 (Z.of_nat 0)) with (@nil Z).
    change (2 ^ (3 * 8)) with (2 ^ 24) in *. cbn [bn_read_loop words_val foldr bn_val length]. split; [lia|]. split; [done|].
    constructor; [limbs; lia|constructor].
  - subst out. rewrite seqZ_cons by lia. replace (Z.pred (Z.of_nat (S n))) with (Z.of_nat n) by lia.
    cbn [bn_read_loop words_val foldr]. fold (words_val read (seqZ (Z.succ i) (Z.of_nat n))).
    unfold BN_EXTRA_BITS. set (w := read i). pose proof (Hr i) as Hw. fold w in Hw.
    destruct (pow3_split i) as [P1 P2]; [lia|]. assert (0 < 2 ^ (3 * i)) by lia. assert (0 < 2 ^ (29 - 3 * i)) by lia.
    destruct (IH (Z.succ i) (Z.shiftr w (32 - 3 * (i + 1)))) as (Hv & Hl & Hf); [done|lia|lia| |].
    { rewrite Z.shiftr_div_pow2 by lia. replace (32 - 3 * (i + 1)) with (29 - 3 * i) by lia.
      split; [apply Z.div_pos; lia|]. apply Z.div_lt_upper_bound; [lia|].
      replace (Z.succ i) with (i + 1) by lia. rewrite P2. lia. }
    cbn zeta in Hv, Hl, Hf. rewrite land_mask.
    assert (E : (temp .| u32 (Z.shiftl w (3 * i))) mod 2 ^ 29 = (temp + w * 2 ^ (3 * i)) mod 2 ^ 29).
    { rewrite <- lor_shift by lia. unfold u32, wrap. rewrite <- !Z.land_ones by lia.
      apply Z.bits_inj'. intros j Hj. rewrite !Z.land_spec, !Z.lor_spec, !Z.land_spec.
      rewrite !Z.testbit_ones_nonneg by lia. destruct (Z.ltb_spec j 29); [|by rewrite !andb_false_r].
      rewrite (proj2 (Z.ltb_lt j 32)) by lia. by rewrite !andb_true_r. }
    rewrite E. split; [|split; [cbn [length]; by rewrite Hl|constructor; [apply norm_mod|done]]].
    cbn [bn_val foldr]. fold (bn_val (bn_read_loop read (seqZ (Z.succ i) (Z.of_nat n)) (Z.shiftr w (32 - 3 * (i + 1))))).
    rewrite Hv. rewrite Z.shiftr_div_pow2 by lia. replace (32 - 3 * (i + 1)) with (29 - 3 * i) by lia.
    replace (Z.succ i) with (i + 1) by lia. rewrite P2.
    assert (Ed : w / 2 ^ (29 - 3 * i) = (temp + w * 2 ^ (3 * i)) / 2 ^ 29).
    { rewrite <- P1, <- Z.div_div by lia. f_equal. rewrite Z.div_add by lia. rewrite (Z.div_small temp) by lia. lia. }
    rewrite Ed. pose proof (Z.div_mod (temp + w * 2 ^ (3 * i)) (2 ^ 29) ltac:(lia)). lia.
Qed.

Lemma word_val a b c d : is_byte a -> is_byte b -> is_byte c -> is_byte d ->
  Z.shiftl d 24 .| Z.shiftl c 16 .| Z.shiftl b 8 .| a = a + 2 ^ 8 * (b + 2 ^ 8 * (c + 2 ^ 8 * d)).
Proof.
  unfold is_byte. intros Ha Hb Hc Hd.
  replace (Z.shiftl d 24) with (Z.shiftl (Z.shiftl (Z.shiftl d 8) 8) 8) by (rewrite !Z.shiftl_shiftl by lia; done).
  replace (Z.shiftl c 16) with (Z.shiftl (Z.shiftl c 8) 8) by (rewrite !Z.shiftl_shiftl by lia; done).
  rewrite <- !Z.shiftl_lor. rewrite (Z.lor_comm (Z.shiftl _ 8) a), (Z.lor_comm (Z.shiftl _ 8) b), (Z.lor_comm (Z.shiftl _ 8) c).
  rewrite !lor_shift by lia. lia.
Qed.

Lemma byte_at data i : Forall is_byte data -> is_byte (znth 0 data i).
Proof.
  intros H. unfold znth. destruct (i <? 0); [unfold is_byte; lia|].
  destruct (nth_in_or_default (Z.to_nat i) data 0) as [Hin|E]; [|rewrite E; unfold is_byte; lia].
  rewrite List.Forall_forall in H. by apply H.
Qed.

Lemma read_be_range data off : Forall is_byte data -> 0 <= read_be data off < 2 ^ 32.
Proof.
  intros H. pose proof (byte_at data) as B. unfold read_be. rewrite word_val by auto.
  pose proof (B off H). pose proof (B (off + 1) H). pose proof (B (off + 2) H). pose proof (B (off + 3) H).
  unfold is_byte in *. lia.
Qed.

Lemma read_le_range data off : Forall is_byte data -> 0 <= read_le data off < 2 ^ 32.
Proof.
  intros H. pose proof (byte_at data) as B. unfold read_le. rewrite word_val by auto.
  pose proof (B off H). pose proof (B (off + 1) H). pose proof (B (off + 2) H). pose proof (B (off + 3) H).
  unfold is_byte in *. lia.
Qed.


Lemma bn_read_le_val data : Forall is_byte data -> length data = 32%nat ->
  normalized (bn_read_le data) /\ bn_val (bn_read_le data) = le_val data.
Proof.
  intros Hb Hl. unfold bn_read_le. change 8 with (Z.of_nat 8).
  destruct (read_loop_val (fun i => read_le data (i * 4)) 8 0 0) as (Hv & Hlen & Hn);
    [intros; by apply read_le_range|lia|lia|lia|].
  split; [by split|]. rewrite Hv. clear Hv Hlen Hn. change (2 ^ (3 * 0)) with 1.
  change (seqZ 0 (Z.of_nat 8)) with [0; 1; 2; 3; 4; 5; 6; 7]. cbn [words_val foldr].
  unfold read_le. rewrite !word_val by (by apply byte_at). clear Hb.
  do 33 (destruct data as [|? data]; try done). znths.
  cbn [le_val]. lia.
Qed.

Lemma bn_read_be_val data : Forall is_byte data -> length data = 32%nat ->
  normalized (bn_read_be data) /\ bn_val (bn_read_be data) = be_val data.
Proof.
  intros Hb Hl. unfold bn_read_be. change 8 with (Z.of_nat 8).
  destruct (read_loop_val (fun i => read_be data ((BN_LIMBS - 2 - i) * 4)) 8 0 0) as (Hv & Hlen & Hn);
    [intros; by apply read_be_range|lia|lia|lia|].
  split; [by split|]. rewrite Hv. clear Hv Hlen Hn. change (2 ^ (3 * 0)) with 1.
  change (seqZ 0 (Z.of_nat 8)) with [0; 1; 2; 3; 4; 5; 6; 7]. cbn [words_val foldr].
  unfold read_be. rewrite !word_val by (by apply byte_at). clear Hb.
  do 33 (destruct data as [|? data]; try done). znths.
  unfold be_val. cbn [rev app le_val]. lia.
Qed.
(** ** Writing *)

(** The word assembled from limbs [i] and [i + 1] is word [i] of the number. *)
Lemma write_word_val x i : normalized x -> bn_val x < 2 ^ 256 -> 0 <= i < 8 ->
  bn_write_word x (limb x (i + 1)) i = (bn_val x / 2 ^ (32 * i)) mod 2 ^ 32.
Proof.
  intros Hx Hb Hi. unfold bn_write_word, BN_BITS_PER_LIMB, BN_EXTRA_BITS.
  apply Z.bits_inj'. intros j Hj.
  rewrite Z.lor_spec, u32_spec, Z.shiftr_spec by lia.
  destruct (Z.ltb_spec j 32).
  - rewrite Z.mod_pow2_bits_low, Z.div_pow2_bits, val_testbit by (apply Hx || lia).
    cbn [andb]. destruct (Z.lt_ge_cases (3 * i + j) 29).
    + rewrite Z.shiftl_spec_low by lia. cbn [orb].
      replace ((j + 32 * i) / 29) with i by zlia. f_equal. zlia.
    + rewrite Z.shiftl_spec by lia. rewrite (limb_high x i) by (apply Hx || lia). rewrite orb_false_r.
      replace ((j + 32 * i) / 29) with (i + 1) by zlia. f_equal. zlia.
  - rewrite Z.mod_pow2_bits_high by lia. cbn [andb orb]. apply limb_high; [apply Hx|lia].
Qed.

Lemma le_bytes_4 w : le_bytes 4 w = [u8 w; u8 (Z.shiftr w 8); u8 (Z.shiftr w 16); u8 (Z.shiftr w 24)].
Proof.
  rewrite !Z.shiftr_div_pow2 by lia. cbn [le_bytes]. rewrite !Z.div_div by lia. reflexivity.
Qed.

Lemma le_bytes_words v : le_bytes 32 v =
  le_bytes 4 (v / 2 ^ (32 * 0)) ++ le_bytes 4 (v / 2 ^ (32 * 1)) ++ le_bytes 4 (v / 2 ^ (32 * 2)) ++
  le_bytes 4 (v / 2 ^ (32 * 3)) ++ le_bytes 4 (v / 2 ^ (32 * 4)) ++ le_bytes 4 (v / 2 ^ (32 * 5)) ++
  le_bytes 4 (v / 2 ^ (32 * 6)) ++ le_bytes 4 (v / 2 ^ (32 * 7)).
Proof.
  change 32%nat with (4 + (4 + (4 + (4 + (4 + (4 + (4 + 4)))))))%nat.
  rewrite !le_bytes_add. change (256 ^ Z.of_nat 4) with (2 ^ 32).
  rewrite !Z.div_div by lia. rewrite Z.mul_0_r, Z.pow_0_r, Z.div_1_r.
  by rewrite <- !Z.pow_add_r by lia.
Qed.

Lemma word_bytes v i : 0 <= i -> le_bytes 4 ((v / 2 ^ (32 * i)) mod 2 ^ 32) = le_bytes 4 (v / 2 ^ (32 * i)).
Proof. intros. change (2 ^ 32) with (256 ^ Z.of_nat 4). apply le_bytes_mod. Qed.

(** The eight words bn_write_be and bn_write_le compute, from the top one down. *)
Lemma write_loop_words write x out : normalized x -> bn_val x < 2 ^ 256 ->
  bn_write_loop write x (rev (seqZ 0 8)) (limb x (BN_LIMBS - 1)) out =
  fold_left (fun out i => write out i ((bn_val x / 2 ^ (32 * i)) mod 2 ^ 32)) [7; 6; 5; 4; 3; 2; 1; 0] out.
Proof.
  intros Hx Hb. change (rev (seqZ 0 8)) with [7; 6; 5; 4; 3; 2; 1; 0].
  cbn [bn_write_loop fold_left].
  by rewrite <- (write_word_val x 0), <- (write_word_val x 1), <- (write_word_val x 2), <- (write_word_val x 3),
    <- (write_word_val x 4), <- (write_word_val x 5), <- (write_word_val x 6), <- (write_word_val x 7) by (done || lia).
Qed.

Lemma bn_write_le_val x out : normalized x -> bn_val x < 2 ^ 256 -> length out = 32%nat ->
  bn_write_le x out = le_bytes 32 (bn_val x).
Proof.
  intros Hx Hb Hl. unfold bn_write_le. rewrite write_loop_words by done.
  rewrite le_bytes_words. rewrite <- (word_bytes _ 0), <- (word_bytes _ 1), <- (word_bytes _ 2), <- (word_bytes _ 3),
    <- (word_bytes _ 4), <- (word_bytes _ 5), <- (word_bytes _ 6), <- (word_bytes _ 7) by lia.
  cbn [fold_left]. generalize ((bn_val x / 2 ^ (32 * 0)) mod 2 ^ 32), ((bn_val x / 2 ^ (32 * 1)) mod 2 ^ 32),
    ((bn_val x / 2 ^ (32 * 2)) mod 2 ^ 32), ((bn_val x / 2 ^ (32 * 3)) mod 2 ^ 32),
    ((bn_val x / 2 ^ (32 * 4)) mod 2 ^ 32), ((bn_val x / 2 ^ (32 * 5)) mod 2 ^ 32),
    ((bn_val x / 2 ^ (32 * 6)) mod 2 ^ 32), ((bn_val x / 2 ^ (32 * 7)) mod 2 ^ 32).
  intros w0 w1 w2 w3 w4 w5 w6 w7. rewrite !le_bytes_4.
  do 33 (destruct out as [|? out]; try done).
Qed.

Lemma bn_write_be_val x out : normalized x -> bn_val x < 2 ^ 256 -> length out = 32%nat ->
  bn_write_be x out = be_bytes 32 (bn_val x).
Proof.
  intros Hx Hb Hl. unfold bn_write_be. rewrite write_loop_words by done. unfold be_bytes.
  rewrite le_bytes_words. rewrite <- (word_bytes _ 0), <- (word_bytes _ 1), <- (word_bytes _ 2), <- (word_bytes _ 3),
    <- (word_bytes _ 4), <- (word_bytes _ 5), <- (word_bytes _ 6), <- (word_bytes _ 7) by lia.
  cbn [fold_left]. generalize ((bn_val x / 2 ^ (32 * 0)) mod 2 ^ 32), ((bn_val x / 2 ^ (32 * 1)) mod 2 ^ 32),
    ((bn_val x / 2 ^ (32 * 2)) mod 2 ^ 32), ((bn_val x / 2 ^ (32 * 3)) mod 2 ^ 32),
    ((bn_val x / 2 ^ (32 * 4)) mod 2 ^ 32), ((bn_val x / 2 ^ (32 * 5)) mod 2 ^ 32),
    ((bn_val x / 2 ^ (32 * 6)) mod 2 ^ 32), ((bn_val x / 2 ^ (32 * 7)) mod 2 ^ 32).
  intros w0 w1 w2 w3 w4 w5 w6 w7. rewrite !le_bytes_4.
  do 33 (destruct out as [|? out]; try done).
Qed.


(** ** Small integers *)

Lemma val_zeros n : bn_val (replicate n 0) = 0.
Proof. induction n as [|n IH]; [done|]. cbn [replicate bn_val foldr]. fold (bn_val (replicate n 0)). lia. Qed.

Lemma norm_zeros n : Forall norm_limb (replicate n 0).
Proof. induction n; constructor; [limbs; lia|done]. Qed.

Lemma bn_read_uint32_val n : 0 <= n < 2 ^ 32 ->
  normalized (bn_read_uint32 n) /\ bn_val (bn_read_uint32 n) = n.
Proof.
  intros Hn. unfold bn_read_uint32, BN_BITS_PER_LIMB. rewrite land_mask, Z.shiftr_div_pow2 by lia.
  split; [split; [done|]|].
  - constructor; [apply norm_mod|]. constructor; [limbs; zlia|]. apply norm_zeros.
  - cbn [bn_val foldr]. fold (bn_val (replicate 7 0)). rewrite val_zeros. zlia.
Qed.

Lemma bn_read_uint64_val n : 0 <= n < 2 ^ 64 ->
  normalized (bn_read_uint64 n) /\ bn_val (bn_read_uint64 n) = n.
Proof.
  intros Hn. unfold bn_read_uint64, BN_BITS_PER_LIMB. rewrite !land_mask, !Z.shiftr_div_pow2 by lia.
  rewrite u32_small by zlia. split; [split; [done|]|].
  - constructor; [apply norm_mod|]. constructor; [apply norm_mod|].
    constructor; [limbs; zlia|]. apply norm_zeros.
  - cbn [bn_val foldr]. fold (bn_val (replicate 6 0)). rewrite val_zeros. zlia.
Qed.

(** A number that fits 64 bits is held by its first three limbs. *)
Lemma low_limbs x : normalized x -> bn_val x < 2 ^ 64 ->
  bn_val x = limb x 0 + 2 ^ 29 * (limb x 1 + 2 ^ 29 * limb x 2) /\
  norm_limb (limb x 0) /\ norm_limb (limb x 1) /\ norm_limb (limb x 2).
Proof.
  intros Hx Hb. destruct (norm_dest x Hx) as (x0 & x1 & x2 & x3 & x4 & x5 & x6 & x7 & x8 & -> & Fx).
  rewrite !Forall_cons_iff in Fx. destruct Fx as (? & ? & ? & ? & ? & ? & ? & ? & ? & _).
  change (limb _ 0) with x0. change (limb _ 1) with x1. change (limb _ 2) with x2.
  unfold bn_val in *. cbn [foldr] in *. limbs. lia.
Qed.

Lemma bn_write_uint32_val x : normalized x -> bn_val x < 2 ^ 32 -> bn_write_uint32 x = bn_val x.
Proof.
  intros Hx Hb. destruct (low_limbs x Hx) as (E & H0 & H1 & H2); [lia|].
  unfold bn_write_uint32, BN_BITS_PER_LIMB. limbs. rewrite u32_small by (rewrite Z.shiftl_mul_pow2 by lia; lia).
  rewrite lor_shift by lia. lia.
Qed.

Lemma bn_write_uint64_val x : normalized x -> bn_val x < 2 ^ 64 -> bn_write_uint64 x = bn_val x.
Proof.
  intros Hx Hb. destruct (low_limbs x Hx) as (E & H0 & H1 & H2); [lia|].
  unfold bn_write_uint64, BN_BITS_PER_LIMB. limbs.
  rewrite (wrap_small _ (Z.shiftl (limb x 2) 29)) by (rewrite Z.shiftl_mul_pow2 by lia; lia).
  rewrite (Z.lor_comm _ (limb x 1)), lor_shift by lia.
  rewrite wrap_small by (rewrite Z.shiftl_mul_pow2 by lia; lia).
  rewrite Z.lor_comm, lor_shift by lia. lia.
Qed.

(** ** Long division *)

Lemma division_step d r a : 1 <= d < 61304 -> 0 <= r < d -> norm_limb a ->
  let acc := u32 (u32 (r * (BN_BASE mod d)) + a) in
  let q := u32 (u32 (r * (BN_BASE / d)) + acc / d) in
  r * 2 ^ 29 + a = d * q + acc mod d /\ norm_limb q.
Proof.
  intros Hd Hr Ha. cbn zeta. unfold BN_BASE. change 0x20000000 with (2 ^ 29). limbs.
  set (B := 2 ^ 29 / d). set (m := 2 ^ 29 mod d).
  assert (HB : 2 ^ 29 = d * B + m) by (apply Z.div_mod; lia).
  assert (Hm : 0 <= m < d) by (apply Z.mod_pos_bound; lia).
  assert (HB0 : 0 <= B) by (apply Z.div_pos; lia).
  assert (Hrm : 0 <= r * m <= 61302 * 61302) by nia.
  assert (HrB : 0 <= r * B <= 2 ^ 29) by nia.
  rewrite (wrap_small _ (r * m)), (wrap_small _ (r * m + a)), (wrap_small _ (r * B)) by lia.
  set (c := (r * m + a) / d).
  assert (Ec : r * m + a = d * c + (r * m + a) mod d) by (apply Z.div_mod; lia).
  pose proof (Z.mod_pos_bound (r * m + a) d ltac:(lia)) as Hc. set (e := (r * m + a) mod d) in *.
  assert (Htot : r * 2 ^ 29 + a = d * (r * B + c) + e) by (rewrite HB at 1; lia).
  assert (Hq : 0 <= r * B + c < 2 ^ 29).
  { split; [assert (0 <= c) by (apply Z.div_pos; lia); lia|].
    apply (Z.mul_lt_mono_pos_l d); [lia|]. nia. }
  rewrite wrap_small by lia. split; [done|lia].
Qed.

Lemma long_division_loop_val d x : 1 <= d < 61304 -> x <> [] -> Forall norm_limb x ->
  let '(q, r) := long_division_loop x d in
  bn_val x = d * bn_val q + r /\ 0 <= r < d /\ Forall norm_limb q /\ length q = length x.
Proof.
  intros Hd. induction x as [|a x IH]; intros Hne Hx; [done|].
  apply Forall_cons_1 in Hx as [Ha Hx]. destruct x as [|b x].
  - cbn [long_division_loop]. pose proof (Z.div_mod a d ltac:(lia)). pose proof (Z.mod_pos_bound a d ltac:(lia)).
    limbs. split; [cbn [bn_val foldr]; lia|]. split; [done|]. split; [|done]. constructor; [|constructor].
    split; [apply Z.div_pos; lia|]. apply (Z.le_lt_trans _ a); [|lia]. apply Z.div_le_upper_bound; nia.
  - specialize (IH ltac:(done) Hx). change (long_division_loop (a :: b :: x) d) with
      (let '(q, r) := long_division_loop (b :: x) d in
       let acc := u32 (u32 (r * (BN_BASE mod d)) + a) in
       (u32 (u32 (r * (BN_BASE / d)) + acc / d) :: q, acc mod d)).
    destruct (long_division_loop (b :: x) d) as [q r]. destruct IH as (Hv & Hr & Hq & Hlen). cbn zeta.
    destruct (division_step d r a Hd Hr Ha) as [E Hn]. cbn zeta in E.
    split; [|split; [apply Z.mod_pos_bound; lia|split; [by constructor|cbn [length] in *; congruence]]].
    change (bn_val (a :: b :: x)) with (a + 2 ^ 29 * bn_val (b :: x)). rewrite Hv.
    set (q0 := u32 (_ + _ / d)) in *. change (bn_val (q0 :: q)) with (q0 + 2 ^ 29 * bn_val q). lia.
Qed.

Lemma bn_long_division_val x d : normalized x -> 1 <= d < 61304 ->
  exists q r, bn_long_division x d = Some (q, r) /\ normalized q /\
  bn_val q = bn_val x / d /\ r = bn_val x mod d.
Proof.
  intros [Hl Hx] Hd. unfold bn_long_division. zif.
  pose proof (long_division_loop_val d x Hd) as H. destruct (long_division_loop x d) as [q r].
  destruct H as (Hv & Hr & Hq & Hlen); [by destruct x|done|]. exists q, r.
  split; [done|]. split; [split; [congruence|done]|].
  split; [apply (Z.div_unique_pos _ _ _ r); lia|apply (Z.mod_unique_pos _ _ (bn_val q)); lia].
Qed.

(** ** Counting decimal digits *)

Definition dec_digits (v k : Z) : Prop :=
  1 <= k /\ v < 10 ^ k /\ (k = 1 \/ 10 ^ (k - 1) <= v).

Lemma digits_step k low c digits : 0 <= k -> 0 <= low < 10 ^ (3 * k) -> 0 <= c < 1000 ->
  dec_digits low digits ->
  dec_digits (low + 10 ^ (3 * k) * c)
    (if 100 <=? c then 3 * k + 3 else if 10 <=? c then 3 * k + 2 else if 1 <=? c then 3 * k + 1 else digits).
Proof.
  intros Hk Hlow Hc Hd. unfold dec_digits.
  destruct (Z.leb_spec 100 c); [|destruct (Z.leb_spec 10 c); [|destruct (Z.leb_spec 1 c)]].
  - replace (3 * k + 3 - 1) with (3 * k + 2) by lia. rewrite !Z.pow_add_r by lia. nia.
  - replace (3 * k + 2 - 1) with (3 * k + 1) by lia. rewrite !Z.pow_add_r by lia. nia.
  - replace (3 * k + 1 - 1) with (3 * k) by lia. rewrite !Z.pow_add_r by lia. nia.
  - replace (low + _ * c) with low by lia. done.
Qed.

Lemma digitcount_loop_val X n : forall k x digits, normalized x -> 0 <= X -> 0 <= k ->
  bn_val x = X / 10 ^ (3 * k) -> dec_digits (X mod 10 ^ (3 * k)) digits ->
  exists r, digitcount_loop (map (Z.mul 3) (seqZ k (Z.of_nat n))) x digits = Some r /\
  dec_digits (X mod 10 ^ (3 * (k + Z.of_nat n))) r.
Proof.
  induction n as [|n IH]; intros k x digits Hx HX Hk Hv Hd.
  - exists digits. rewrite Z.add_0_r. done.
  - rewrite seqZ_cons by lia. replace (Z.pred (Z.of_nat (S n))) with (Z.of_nat n) by lia.
    cbn [map digitcount_loop]. unfold bn_divmod1000.
    destruct (bn_long_division_val x 1000 Hx ltac:(lia)) as (q & r & -> & Hq & Hqv & Hr).
    cbn [mbind option_bind]. replace (k + Z.of_nat (S n)) with (Z.succ k + Z.of_nat n) by lia.
    assert (HT : 10 ^ (3 * Z.succ k) = 10 ^ (3 * k) * 1000)
      by (replace (3 * Z.succ k) with (3 * k + 3) by lia; rewrite Z.pow_add_r by lia; done).
    apply IH; [done|done|lia| |].
    + rewrite Hqv, Hv, HT, Z.div_div by lia. done.
    + rewrite HT, Z.rem_mul_r, <- Hv, <- Hr by lia.
      apply digits_step; [lia|apply Z.mod_pos_bound; lia|rewrite Hr; apply Z.mod_pos_bound; lia|done].
Qed.

Lemma bn_digitcount_val x : normalized x ->
  exists k, bn_digitcount x = Some k /\ dec_digits (bn_val x) k.
Proof.
  intros Hx. unfold bn_digitcount. pose proof (normalized_range x Hx) as Hr. change 27 with (Z.of_nat 27).
  destruct (digitcount_loop_val (bn_val x) 27 0 x 1) as (r & E & Hd); [done|lia|lia| | |].
  - by rewrite Z.mul_0_r, Z.pow_0_r, Z.div_1_r.
  - rewrite Z.mul_0_r, Z.pow_0_r, Z.mod_1_r. unfold dec_digits. lia.
  - exists r. split; [done|]. rewrite Z.mod_small in Hd; [done|]. split; [lia|].
    apply (Z.lt_le_trans _ (2 ^ 261)); [lia|]. vm_compute. discriminate.
Qed.


(** ** The properties *)

(** Reading and writing raw numbers are inverse to each other: a number
    below 2^256 that is written (in either byte order, over any 32 bytes) is
    read back as it was, and 32 bytes that are read are written back as they
    were; in both cases the bytes are the number in base 256.  Numbers of 32 and
    64 bits go in and out unchanged. *)
Theorem bn_raw_roundtrip x bytes out n : normalized x -> bn_val x < 2 ^ 256 ->
  Forall is_byte bytes -> length bytes = 32%nat -> length out = 32%nat -> 0 <= n < 2 ^ 64 ->
  bn_write_be x out = be_bytes 32 (bn_val x) /\ bn_read_be (bn_write_be x out) = x /\
  bn_write_le x out = le_bytes 32 (bn_val x) /\ bn_read_le (bn_write_le x out) = x /\
  bn_val (bn_read_be bytes) = be_val bytes /\ bn_write_be (bn_read_be bytes) out = bytes /\
  bn_val (bn_read_le bytes) = le_val bytes /\ bn_write_le (bn_read_le bytes) out = bytes /\
  bn_write_uint64 (bn_read_uint64 n) = n /\ (n < 2 ^ 32 -> bn_write_uint32 (bn_read_uint32 n) = n).
Proof.
  intros Hx Hb Hbytes Hl Ho Hn. pose proof (normalized_range x Hx) as Rx.
  destruct (bn_read_be_val bytes Hbytes Hl) as [Nbe Vbe]. destruct (bn_read_le_val bytes Hbytes Hl) as [Nle Vle].
  assert (Hle : 0 <= le_val bytes < 2 ^ 256).
  { pose proof (le_val_range bytes Hbytes) as R. unfold zlen in R. rewrite Hl in R. exact R. }
  assert (Hbe : 0 <= be_val bytes < 2 ^ 256).
  { unfold be_val. pose proof (le_val_range (rev bytes)) as R. unfold zlen in R. rewrite length_rev, Hl in R.
    apply R. by apply Forall_rev. }
  split_and!.
  - by apply bn_write_be_val.
  - rewrite bn_write_be_val by done. unfold be_bytes. destruct (bn_read_be_val (rev (le_bytes 32 (bn_val x)))) as [N V].
    + apply Forall_rev, le_bytes_byte.
    + by rewrite length_rev, length_le_bytes.
    + apply bn_val_inj; [done|done|]. rewrite V. unfold be_val. rewrite rev_involutive, le_val_bytes. apply Z.mod_small. change (256 ^ Z.of_nat 32) with (2 ^ 256). lia.
  - by apply bn_write_le_val.
  - rewrite bn_write_le_val by done. destruct (bn_read_le_val (le_bytes 32 (bn_val x)) (le_bytes_byte _ _)) as [N V];
      [apply length_le_bytes|]. apply bn_val_inj; [done|done|]. rewrite V, le_val_bytes. apply Z.mod_small. change (256 ^ Z.of_nat 32) with (2 ^ 256). lia.
  - done.
  - rewrite bn_write_be_val by (done || lia). rewrite Vbe. unfold be_bytes, be_val.
    replace 32%nat with (length (rev bytes)) by (by rewrite length_rev).
    rewrite le_bytes_val by (by apply Forall_rev). apply rev_involutive.
  - done.
  - rewrite bn_write_le_val by (done || lia). rewrite Vle, <- Hl. by apply le_bytes_val.
  - destruct (bn_read_uint64_val n Hn) as [N V]. rewrite bn_write_uint64_val by (done || lia). done.
  - intros. destruct (bn_read_uint32_val n ltac:(lia)) as [N V]. rewrite bn_write_uint32_val by (done || lia). done.
Qed.

Lemma bn_raw_roundtrip_witness : bn_read_be (bn_write_be (cx (G secp256k1)) (replicate 32 0)) = cx (G secp256k1).
Proof.
  apply (bn_raw_roundtrip (cx (G secp256k1)) (replicate 32 7) (replicate 32 0) 5).
  - apply normalized_b_ok. vm_compute. reflexivity.
  - vm_compute. reflexivity.
  - apply Forall_replicate. unfold is_byte. lia.
  - reflexivity.
  - reflexivity.
  - lia.
Defined.

(** Long division: for every divisor the assertion admits the call returns
    the quotient, normalized, and the remainder; no intermediate of 32 bits
    overflows.  The digit count is the number of decimal digits, one for zero. *)
Theorem bn_division_correct x d : normalized x -> 1 <= d < 61304 ->
  (exists q r, bn_long_division x d = Some (q, r) /\ normalized q /\
    bn_val q = bn_val x / d /\ r = bn_val x mod d) /\
  (exists k, bn_digitcount x = Some k /\ dec_digits (bn_val x) k).
Proof. intros Hx Hd. split; [by apply bn_long_division_val|by apply bn_digitcount_val]. Qed.

Lemma bn_division_correct_witness :
  exists q r, bn_long_division (order secp256k1) 58 = Some (q, r) /\ normalized q /\
    bn_val q = bn_val (order secp256k1) / 58 /\ r = bn_val (order secp256k1) mod 58.
Proof. apply (bn_division_correct (order secp256k1) 58); [apply secp256k1_order_ok|lia]. Defined.

End BignumConv.
