(* ===== verification/BignumMul.v ===== *)
(** * 256-bit numbers: multiplication modulo a prime

    The long multiplication is exact; each reduction step subtracts a multiple
    of the prime that brings the number below 2 p 2^(29 d); nine steps leave a
    partly reduced number congruent to the product. *)

From stdpp Require Import base list numbers.
From Stdlib Require Import ZArith Lia.
From S2P Require Import Prelude Bits Bignum Curves BignumSpec BignumBits.
Local Open Scope fw_scope.

Module BignumMul.
Import Bignum Curves BignumSpec BignumBits.

(** ** Long multiplication *)

Definition col_sum (k x : list Z) (i : Z) (js : list Z) : Z :=
  foldr (fun j s => limb k j * limb x (i - j) + s) 0 js.

Lemma mul_column_sum k x i js : forall acc, 0 <= acc < 2 ^ 64 ->
  mul_column k x i js acc = wrap 64 (acc + col_sum k x i js).
Proof.
  induction js as [|j js IH]; intros acc Ha; cbn [mul_column fold_left col_sum foldr].
  - rewrite Z.add_0_r. symmetry. by apply wrap_small.
  - fold (mul_column k x i js (u64 (acc + u64 (limb k j * limb x (i - j))))). fold (col_sum k x i js).
    rewrite IH by (apply Z.mod_pos_bound; lia). unfold u64, wrap.
    rewrite Zplus_mod_idemp_r, Zplus_mod_idemp_l. f_equal. lia.
Qed.

(** The loop over the columns is the carry loop on the column sums. *)
Lemma mul_loop_carry k x cols : forall acc, 0 <= acc < 2 ^ 64 ->
  mul_loop k x cols acc =
  let '(out, last) := carry 64 acc (map (fun c => col_sum k x c.1 c.2) cols) in out ++ [u32 last].
Proof.
  induction cols as [|[i js] cols IH]; intros acc Ha; [done|]. cbn [mul_loop map carry fst snd].
  rewrite mul_column_sum by done. set (s := wrap 64 _).
  assert (Hs : 0 <= s < 2 ^ 64) by (apply Z.mod_pos_bound; lia).
  rewrite IH. { by destruct (carry 64 _ _). }
  unfold BN_BITS_PER_LIMB. rewrite Z.shiftr_div_pow2 by lia. zlia.
Qed.

Definition mul_sums (k x : list Z) : list Z := map (fun c => col_sum k x c.1 c.2) mul_columns.

Lemma col_sum_bound k x i js n : Forall norm_limb k -> Forall norm_limb x -> (length js <= n)%nat ->
  0 <= col_sum k x i js <= Z.of_nat n * (2 ^ 29 - 1) ^ 2.
Proof.
  intros Hk Hx. revert n. induction js as [|j js IH]; intros n Hn; cbn [col_sum foldr]; [lia|].
  fold (col_sum k x i js). destruct n as [|n]; [cbn in Hn; lia|].
  specialize (IH n ltac:(cbn in Hn; lia)).
  pose proof (norm_limb_at k j Hk). pose proof (norm_limb_at x (i - j) Hx). limbs. nia.
Qed.

Lemma mul_sums_bound k x : Forall norm_limb k -> Forall norm_limb x ->
  Forall (fun t => 0 <= t <= 9 * (2 ^ 29 - 1) ^ 2) (mul_sums k x).
Proof.
  intros Hk Hx. unfold mul_sums. apply List.Forall_forall. intros t Ht.
  apply in_map_iff in Ht as ([i js] & <- & Hin). apply (col_sum_bound k x i js 9); [done..|].
  assert (H : Forall (fun c : Z * list Z => (length c.2 <= 9)%nat) mul_columns) by (vm_compute; repeat constructor).
  rewrite List.Forall_forall in H. apply (H _ Hin).
Qed.

Lemma mul_sums_val k x : normalized k -> normalized x ->
  bn_val (mul_sums k x) = bn_val k * bn_val x.
Proof.
  intros Hk Hx.
  destruct (norm_dest k Hk) as (k0 & k1 & k2 & k3 & k4 & k5 & k6 & k7 & k8 & -> & _).
  destruct (norm_dest x Hx) as (x0 & x1 & x2 & x3 & x4 & x5 & x6 & x7 & x8 & -> & _).
  unfold mul_sums. let c := eval vm_compute in mul_columns in change mul_columns with c.
  cbn [map col_sum foldr fst snd]. unfold limb. znths.
  unfold bn_val. cbn [foldr]. generalize (2 ^ 29). intros b. ring.
Qed.

Lemma bn_multiply_long_val k x : normalized k -> normalized x ->
  bn_val (bn_multiply_long k x) = bn_val k * bn_val x /\
  Forall norm_limb (bn_multiply_long k x) /\ length (bn_multiply_long k x) = 18%nat.
Proof.
  intros Hk Hx. unfold bn_multiply_long. rewrite mul_loop_carry by lia. fold (mul_sums k x).
  destruct (carry_ok 64 (9 * (2 ^ 29 - 1) ^ 2) (mul_sums k x) 0) as (E & Hv & Hn & Hl);
    [lia|apply mul_sums_bound; [apply Hk|apply Hx]|lia|lia|lia|].
  rewrite E. set (out := fst (carry _ _ _)) in *. rewrite Z.add_0_l, mul_sums_val in * by done.
  change (length (mul_sums k x)) with 17%nat in *. change (radix 17) with (2 ^ 493) in *.
  pose proof (normalized_range k Hk) as Rk. pose proof (normalized_range x Hx) as Rx.
  set (P := bn_val k * bn_val x) in *.
  assert (HP : 0 <= P < 2 ^ 522) by (unfold P; nia).
  assert (Hq : norm_limb (P / 2 ^ 493)).
  { split; [apply Z.div_pos; lia|]. apply Z.div_lt_upper_bound; lia. }
  rewrite u32_small by (limbs; lia). split; [|split].
  - rewrite val_app, Hl, Hv. change (radix 17) with (2 ^ 493). cbn [bn_val foldr].
    pose proof (Z.div_mod P (2 ^ 493) ltac:(lia)). lia.
  - apply Forall_app. split; [done|]. constructor; [done|constructor].
  - by rewrite length_app, Hl.
Qed.

(** ** Reduction *)

(** A number of 18 limbs around position [d]: [d] low limbs, the nine limbs the
    step works on, the limb above them and the rest. *)
Lemma split_at (res : list Z) d : length res = 18%nat -> 0 <= d <= 8 ->
  exists lo mid t hi, res = lo ++ mid ++ [t] ++ hi /\ length lo = Z.to_nat d /\ length mid = 9%nat /\
  length hi = Z.to_nat (8 - d).
Proof.
  intros Hl Hd. exists (take (Z.to_nat d) res), (take 9 (drop (Z.to_nat d) res)).
  assert (Hd9 : (9 < length (drop (Z.to_nat d) res))%nat) by (rewrite length_drop; lia).
  destruct (lookup_lt_is_Some_2 _ _ Hd9) as [t Ht]. exists t, (drop 10 (drop (Z.to_nat d) res)).
  split; [|rewrite !length_take, !length_drop; lia].
  rewrite <- (take_drop (Z.to_nat d) res) at 1. f_equal.
  rewrite <- (take_drop 10 (drop (Z.to_nat d) res)) at 1. rewrite (take_S_r _ _ _ Ht), <- app_assoc. done.
Qed.

Lemma limb_app_r (l k : list Z) i : 0 <= i -> limb (l ++ k) (zlen l + i) = limb k i.
Proof. apply znth_app_r. Qed.

Lemma reduce_step_shape lo mid t hi p d : length lo = Z.to_nat d -> length mid = 9%nat -> 0 <= d ->
  bn_multiply_reduce_step (lo ++ mid ++ [t] ++ hi) p d =
  let coef := u32 (Z.shiftr (limb mid 8) 24 + u32 (Z.shiftl t 5)) in
  lo ++ fst (carry 64 (2 ^ 31) (zip_with (fun a q => u64 (2 ^ 31 * (2 ^ 29 - 1) + a - u64 (q * coef))) mid p))
     ++ [0] ++ hi.
Proof.
  intros Hlo Hmid Hd. unfold bn_multiply_reduce_step. unfold BN_LIMBS.
  assert (Zlo : zlen lo = d) by (unfold zlen; lia).
  replace (limb (lo ++ mid ++ [t] ++ hi) (d + 9 - 1)) with (limb mid 8).
  2: { rewrite <- Zlo, <- Z.add_sub_assoc, limb_app_r by lia. unfold limb, znth. zif.
       by rewrite app_nth1 by (change (Z.to_nat (9 - 1)) with 8%nat; lia). }
  replace (limb (lo ++ mid ++ [t] ++ hi) (d + 9)) with t.
  2: { rewrite <- Zlo, limb_app_r by lia.
       replace 9 with (zlen mid + 0) by (unfold zlen; lia). by rewrite limb_app_r by lia. }
  rewrite slice_mid by (unfold zlen; lia). cbn zeta.
  change (Z.shiftl (BN_BASE - 1) 31) with (2 ^ 31 * (2 ^ 29 - 1)). change (Z.shiftl 1 31) with (2 ^ 31).
  rewrite take_app_length' by done. replace (Z.to_nat (d + 9 + 1)) with (length (lo ++ mid ++ [t])).
  2: { rewrite !length_app. cbn [length]. lia. }
  replace (lo ++ mid ++ [t] ++ hi) with ((lo ++ mid ++ [t]) ++ hi) by (by rewrite <- !app_assoc).
  rewrite drop_app_length. by destruct (carry _ _ _).
Qed.

Lemma step_coef mid t : length mid = 9%nat -> Forall norm_limb mid -> 0 <= t < 2 ^ 26 ->
  let coef := u32 (Z.shiftr (limb mid 8) 24 + u32 (Z.shiftl t 5)) in
  coef = (bn_val mid + 2 ^ 261 * t) / 2 ^ 256 /\ 0 <= coef < 2 ^ 31.
Proof.
  intros Hl Hm Ht. destruct (dest9 mid Hl) as (x0 & x1 & x2 & x3 & x4 & x5 & x6 & x7 & x8 & ->).
  change (limb _ 8) with x8. rewrite !Forall_cons_iff in Hm. destruct Hm as (? & ? & ? & ? & ? & ? & ? & ? & ? & _).
  rewrite Z.shiftr_div_pow2, Z.shiftl_mul_pow2 by lia. cbn zeta. limbs.
  rewrite (wrap_small _ (t * 2 ^ 5)), wrap_small by zlia. split; [|zlia].
  apply (Z.div_unique_pos _ _ _ (bn_val [x0; x1; x2; x3; x4; x5; x6; x7] + 2 ^ 232 * (x8 mod 2 ^ 24)));
    unfold bn_val; cbn [foldr]; zlia.
Qed.

(** One reduction step. *)
Lemma reduce_step_val res p d : length res = 18%nat -> Forall norm_limb res -> prime_ok p -> 0 <= d <= 8 ->
  bn_val res < 2 ^ 287 * radix (Z.to_nat d) ->
  exists c, let res' := bn_multiply_reduce_step res p d in
  bn_val res' = bn_val res - c * bn_val p /\ 0 <= bn_val res' < 2 * bn_val p * radix (Z.to_nat d) /\
  length res' = 18%nat /\ Forall norm_limb res'.
Proof.
  intros Hl Hn [[Hlp Hp] HP] Hd Hb. destruct (split_at res d Hl Hd) as (lo & mid & t & hi & -> & Hlo & Hmid & Hhi).
  rewrite reduce_step_shape by lia. set (coef := u32 _).
  rewrite !Forall_app in Hn. destruct Hn as (Nlo & Nmid & Nt & Nhi). apply Forall_inv in Nt.
  pose proof (val_range lo Nlo) as Rlo. pose proof (val_range mid Nmid) as Rmid. pose proof (val_range hi Nhi) as Rhi.
  rewrite !val_app, Hlo, Hmid in Hb. change (length [t]) with 1%nat in Hb.
  rewrite Hlo in Rlo. rewrite Hmid, radix_9 in Rmid. set (W := radix (Z.to_nat d)) in *.
  assert (HW : 0 < W) by apply radix_pos.
  change (radix 9) with (2 ^ 261) in Hb. change (radix 1) with (2 ^ 29) in Hb.
  change (bn_val [t]) with (t + 2 ^ 29 * 0) in Hb. unfold norm_limb in Nt.
  assert (Htop : bn_val mid + 2 ^ 261 * (t + 2 ^ 29 * bn_val hi) < 2 ^ 287)
    by (apply (Z.mul_lt_mono_pos_l W); lia).
  assert (Hhi0 : bn_val hi = 0) by lia. assert (Ht : 0 <= t < 2 ^ 26) by lia.
  destruct (step_coef mid t Hmid Nmid) as [Ec Hc]; [lia|]. cbn zeta in Ec, Hc. fold coef in Ec, Hc.
  set (H := bn_val mid + 2 ^ 261 * t) in *.
  pose proof (Z.div_mod H (2 ^ 256) ltac:(lia)) as EH. rewrite <- Ec in EH.
  pose proof (Z.mod_pos_bound H (2 ^ 256) ltac:(lia)) as BH.
  assert (Hres : 0 <= H - coef * bn_val p < 2 * bn_val p).
  { pose proof (coef_slack coef (2 ^ 31) (bn_val p) ltac:(lia) HP). lia. }
  destruct (carry_zip norm_limb norm_limb 64 (2 ^ 60 + 2 ^ 29) (2 ^ 31 * (2 ^ 29 - 1)) 1 (- coef) (2 ^ 31)
    (fun a q => u64 (2 ^ 31 * (2 ^ 29 - 1) + a - u64 (q * coef))) mid p) as (_ & Hv & Hn' & Hlen);
    [lia|congruence|done|done| |lia|lia|lia|].
  { clear - Hc. intros u v Hu Hv. limbs. assert (0 <= v * coef <= (2 ^ 29 - 1) * (2 ^ 31 - 1)) by (apply prod_range; lia).
    rewrite (wrap_small _ (v * coef)), wrap_small by lia. lia. }
  set (out := fst _) in *. cbn zeta.
  assert (Ho : bn_val out = H - coef * bn_val p).
  { rewrite Hv, <- Z.mul_assoc, val_ones, Hmid. change (radix 9) with (2 ^ 261).
    symmetry. apply (Z.mod_unique_pos _ _ (2 ^ 31 - t)); [lia|]. unfold H. lia. }
  exists (W * coef). cbn zeta. fold out. split; [|split; [|split]].
  - rewrite !val_app, Hlen, Hlo, Hmid. fold W. cbn [length]. rewrite Hhi0, Ho.
    change (radix 9) with (2 ^ 261). cbn [bn_val foldr]. unfold H. lia.
  - rewrite !val_app, Hlo. fold W. cbn [length]. rewrite Hhi0, Ho. cbn [bn_val foldr].
    clear - Rlo Hres HW. set (h := H - coef * bn_val p) in *. clearbody h. nia.
  - rewrite !length_app, Hlen, Hlo, Hmid, Hhi. cbn [length]. lia.
  - rewrite !Forall_app. repeat split; [done|done|constructor; [limbs; lia|constructor]|done].
Qed.

Lemma reduce_loop_val p n : forall res, prime_ok p -> (n <= 9)%nat ->
  length res = 18%nat -> Forall norm_limb res ->
  (n <> 0%nat -> bn_val res < 2 ^ 287 * radix (n - 1)) ->
  let res' := fold_left (fun res d => bn_multiply_reduce_step res p d) (rev (seqZ 0 (Z.of_nat n))) res in
  (exists c, bn_val res' = bn_val res - c * bn_val p) /\ (n <> 0%nat -> 0 <= bn_val res' < 2 * bn_val p) /\
  length res' = 18%nat /\ Forall norm_limb res'.
Proof.
  induction n as [|n IH]; intros res Hp Hn Hl Hf Hb.
  - change (rev (seqZ 0 (Z.of_nat 0))) with (@nil Z). cbn [fold_left]. cbn zeta. split; [exists 0; lia|]. done.
  - replace (Z.of_nat (S n)) with (Z.of_nat n + 1) by lia. rewrite seqZ_app, Z.add_0_l by lia.
    replace (seqZ (Z.of_nat n) 1) with [Z.of_nat n] by (unfold seqZ; cbn; f_equal; lia).
    rewrite rev_app_distr. cbn [rev app fold_left].
    specialize (Hb ltac:(done)). replace (S n - 1)%nat with n in Hb by lia.
    destruct (reduce_step_val res p (Z.of_nat n)) as (c & Hv & Hr & Hl' & Hf'); [done..|lia|by rewrite Nat2Z.id|].
    rewrite Nat2Z.id in Hr. cbn zeta in *. set (res1 := bn_multiply_reduce_step _ _ _) in *.
    destruct Hp as [Hpn HP]. destruct (IH res1) as ([c' Hv'] & Hr' & Hl2 & Hf2); [done|lia|done|done| |].
    { intros Hn0. replace n with (S (n - 1)) in Hr by lia. rewrite radix_S in Hr.
      pose proof (radix_pos (n - 1)). clear - Hr HP H. set (r := radix (n - 1)) in *. clearbody r. nia. }
    split; [exists (c + c'); lia|]. split; [|done]. intros _. destruct n as [|n]; [|by apply Hr'].
    cbn [seqZ rev fold_left] in *. change (fold_left _ (rev (seqZ 0 (Z.of_nat 0))) res1) with res1.
    rewrite radix_0 in Hr. lia.
Qed.

Lemma take9_val res : length res = 18%nat -> Forall norm_limb res -> bn_val res < 2 ^ 261 ->
  normalized (take 9 res) /\ bn_val (take 9 res) = bn_val res.
Proof.
  intros Hl Hn Hb. split; [split; [rewrite length_take; lia|by apply Forall_take]|].
  rewrite <- (take_drop 9 res) in Hb |- * at 2. rewrite val_app, length_take, Hl in *.
  change (radix (9 `min` 18)) with (2 ^ 261) in *.
  pose proof (val_range (take 9 res) (Forall_take _ _ _ Hn)). pose proof (val_range (drop 9 res) (Forall_drop _ _ _ Hn)).
  assert (bn_val (drop 9 res) = 0) by lia. lia.
Qed.

Lemma bn_multiply_val k x p : normalized k -> normalized x -> prime_ok p -> bn_val k * bn_val x < 2 ^ 519 ->
  normalized (bn_multiply k x p) /\ 0 <= bn_val (bn_multiply k x p) < 2 * bn_val p /\
  bn_val (bn_multiply k x p) mod bn_val p = (bn_val k * bn_val x) mod bn_val p.
Proof.
  intros Hk Hx Hp Hb. unfold bn_multiply, bn_multiply_reduce.
  destruct (bn_multiply_long_val k x Hk Hx) as (Hv & Hn & Hl).
  destruct (reduce_loop_val p 9 (bn_multiply_long k x)) as ([c Hc] & Hr & Hl' & Hn'); [done|lia|done|done| |].
  { intros _. rewrite Hv. apply (Z.lt_le_trans _ _ _ Hb). done. }
  change (Z.of_nat 9) with 9 in *. cbn zeta in *. set (res := fold_left _ _ _) in *.
  specialize (Hr ltac:(done)). pose proof Hp as [_ HP].
  destruct (take9_val res) as [Hn9 Hv9]; [done|done|lia|]. rewrite Hv9. split; [done|]. split; [done|].
  rewrite Hc, Hv. apply mod_sub_mul. lia.
Qed.


(** ** The properties *)

(** C29: Modular multiplication: the long product has the exact value k * x (no
    64-bit accumulator overflows), and for every prime between 2^256 - 2^224 and
    2^256 and every product below 2^519 the nine reduction steps leave a
    normalized number below 2 p congruent to it. *)
Theorem bn_multiply_correct k x p : normalized k -> normalized x -> prime_ok p ->
  bn_val k * bn_val x < 2 ^ 519 ->
  bn_val (bn_multiply_long k x) = bn_val k * bn_val x /\
  normalized (bn_multiply k x p) /\ bn_val (bn_multiply k x p) < 2 * bn_val p /\
  bn_val (bn_multiply k x p) mod bn_val p = (bn_val k * bn_val x) mod bn_val p.
Proof.
  intros Hk Hx Hp Hb. destruct (bn_multiply_val k x p Hk Hx Hp Hb) as (N & R & V).
  split; [by apply bn_multiply_long_val|]. split; [done|]. split; [lia|done].
Qed.

Lemma bn_multiply_correct_witness :
  let k := cx (G secp256k1) in let x := cy (G secp256k1) in let p := prime secp256k1 in
  bn_val (bn_multiply k x p) mod bn_val p = (bn_val k * bn_val x) mod bn_val p.
Proof.
  apply (bn_multiply_correct (cx (G secp256k1)) (cy (G secp256k1)) (prime secp256k1));
    [apply normalized_b_ok; vm_compute; reflexivity..|apply secp256k1_prime_ok|vm_compute; reflexivity].
Defined.

(** The other operations modulo p implement the arithmetic of residues:
    partial and full reduction, sum, difference, multiples up to 8, halves and
    conditional negation keep the invariant and stay within twice the prime
    where the comments say so.  Partial reduction works for limbs of any 32-bit
    value, which bn_addmod and bn_mult_k rely on. *)
Theorem bn_residues_refine x y p k (c : bool) : normalized x -> normalized y -> prime_ok p ->
  Z.odd (bn_val p) = true -> bn_val x < 2 * bn_val p -> bn_val y < 2 * bn_val p -> 0 <= k <= 8 ->
  let P := bn_val p in
  let residue r n := normalized r /\ bn_val r mod P = n mod P in
  (forall w, length w = 9%nat -> Forall u32_limb w ->
     residue (bn_fast_mod w p) (bn_val w) /\ bn_val (bn_fast_mod w p) < 2 * P) /\
  (exists r, bn_mod x p = Some r /\ residue r (bn_val x) /\ bn_val r < P) /\
  (residue (bn_addmod x y p) (bn_val x + bn_val y) /\ bn_val (bn_addmod x y p) < 2 * P) /\
  residue (bn_subtractmod x y p) (bn_val x - bn_val y) /\
  (exists r, bn_mult_k x k p = Some r /\ residue r (k * bn_val x) /\ bn_val r < 2 * P) /\
  (normalized (bn_mult_half x p) /\ (2 * bn_val (bn_mult_half x p)) mod P = bn_val x mod P /\
   bn_val (bn_mult_half x p) < 2 * P) /\
  (exists r, bn_cnegate (Z.b2z c) x p = Some r /\ residue r (if c then - bn_val x else bn_val x)).
Proof.
  intros Hx Hy Hp Ho Rx Ry Hk P residue. pose proof Hp as [Np HP]. fold P in HP.
  assert (P <> 0) by lia. pose proof (normalized_range x Hx). pose proof (normalized_range y Hy).
  split_and!.
  - intros w Hl Hw. destruct (bn_fast_mod_ok w p Hl Hw Hp) as (N & V & R). split; [done|apply R].
  - destruct (bn_mod_ok x p Hx Np Rx) as (r & E & N & V). exists r. split; [done|]. rewrite V. split.
    + split; [done|]. rewrite V. apply Zmod_mod.
    + apply Z.mod_pos_bound. fold P. lia.
  - destruct (bn_addmod_val x y p Hx Hy Hp) as (N & R & V). done.
  - destruct (bn_addmod_val x y p Hx Hy Hp) as (N & R & V). lia.
  - destruct (bn_subtractmod_val x y p Hx Hy Np) as [N V]. split; [done|]. rewrite V. fold P.
    rewrite (Z.mod_small _ (2 ^ 261)) by lia. rewrite <- (Z.mod_add (bn_val x - bn_val y) 2) by done. f_equal. lia.
  - destruct (bn_mult_k_val x k p Hx Hk Hp) as (r & E & N & R & V). exists r. split; [done|]. split; [done|]. lia.
  - apply (bn_mult_half_val x p); done.
  - destruct (bn_mult_half_val x p Hx Np Ho) as [_ V]. rewrite V. fold P in Ho |- *. clear V.
    pose proof (Zmod_odd (bn_val x)) as Ex. pose proof (Zmod_odd P) as EP. rewrite Ho in EP.
    destruct (Z.odd (bn_val x)); [|f_equal; zlia].
    rewrite <- (Z.mod_add (bn_val x) 1) by done. f_equal. zlia.
  - destruct (bn_mult_half_val x p Hx Np Ho) as [_ V]. rewrite V. fold P in Rx |- *. clear V.
    destruct (Z.odd (bn_val x)); apply Z.div_lt_upper_bound; lia.
  - destruct (bn_cnegate_val c x p Hx Np Rx) as (r & E & N & V); [fold P; lia|]. exists r. split; [done|].
    split; [done|]. rewrite V. fold P. destruct c.
    + rewrite <- (mod_sub_mul (2 * P - _) 2) by done.
      replace (2 * P - bn_val x mod P - 2 * P) with (0 - bn_val x mod P) by lia. by rewrite Zminus_mod_idemp_r.
    + rewrite <- (Z.mul_1_l P) at 2. by rewrite Z.mod_add, Zmod_mod.
Qed.

Lemma bn_residues_refine_witness :
  exists r, bn_mod (bn_addmod (cx (G nist256p1)) (cy (G nist256p1)) (prime nist256p1)) (prime nist256p1) = Some r /\
  (normalized r /\ bn_val r mod bn_val (prime nist256p1) =
     bn_val (bn_addmod (cx (G nist256p1)) (cy (G nist256p1)) (prime nist256p1)) mod bn_val (prime nist256p1)) /\
  bn_val r < bn_val (prime nist256p1).
Proof.
  apply (bn_residues_refine (bn_addmod (cx (G nist256p1)) (cy (G nist256p1)) (prime nist256p1)) (cx (G nist256p1))
    (prime nist256p1) 3 true); [apply normalized_b_ok; vm_compute; reflexivity..|apply nist256p1_prime_ok|
    vm_compute; reflexivity|vm_compute; reflexivity|vm_compute; reflexivity|lia].
Defined.

End BignumMul.
