(* ===== verification/BignumPow.v ===== *)
(** * 256-bit numbers: powers and square roots modulo a prime

    bn_power_mod is the right-to-left square-and-multiply exponentiation;
    bn_sqrt raises to (p + 1) / 4, which squares back to its argument when p is
    a prime with p mod 4 = 3 (by Fermat's little theorem). *)

From stdpp Require Import base list numbers.
From Stdlib Require Import ZArith Zpow_facts ZmodInv Lia.
From S2P Require Import Prelude Bits Bignum Curves BignumSpec BignumBits BignumMul.
Local Open Scope fw_scope.

Module BignumPow.
Import Bignum Curves BignumSpec BignumBits BignumMul.

(** ** Congruences *)

Lemma pow_cong a b n m : 0 < m -> a mod m = b mod m -> (a ^ n) mod m = (b ^ n) mod m.
Proof. intros Hm H. by rewrite Zpower_mod, H, <- Zpower_mod. Qed.

(** ** Exponentiation *)

Section Power.
Context (p : bignum256) (Hp : prime_ok p).
Abbreviation P := (bn_val p).

Lemma P_range : 2 ^ 256 - 2 ^ 224 <= P <= 2 ^ 256.
Proof. apply Hp. Qed.

Definition base_ok (x : bignum256) : Prop := normalized x /\ bn_val x < 2 ^ 259.

Lemma mul_base x y : base_ok x -> base_ok y ->
  base_ok (bn_multiply x y p) /\ bn_val (bn_multiply x y p) < 2 * P /\
  bn_val (bn_multiply x y p) mod P = (bn_val x * bn_val y) mod P.
Proof.
  intros [Nx Bx] [Ny By]. pose proof P_range. pose proof (normalized_range x Nx). pose proof (normalized_range y Ny).
  destruct (bn_multiply_val x y p Nx Ny Hp) as (Hn & Hr & Hv); [nia|]. split; [|split; [lia|done]].
  split; [done|lia].
Qed.

Lemma pow_halves a e : 0 <= e -> a ^ e = (if Z.odd e then a else 1) * (a * a) ^ (e / 2).
Proof.
  intros He. rewrite <- Z.pow_2_r, <- Z.pow_mul_r by (try lia; zlia).
  pose proof (Zmod_odd e) as Ho. destruct (Z.odd e).
  - rewrite <- (Z.pow_1_r a) at 2. rewrite <- Z.pow_add_r by zlia. f_equal. zlia.
  - rewrite Z.mul_1_l. f_equal. zlia.
Qed.

Lemma power_bits_val n : forall last lmb acc res, base_ok acc -> base_ok res -> bn_val res < 2 * P ->
  0 <= lmb < 2 ^ Z.of_nat n ->
  let '(acc', res') := power_bits n p last lmb acc res in
  base_ok acc' /\ base_ok res' /\ bn_val res' < 2 * P /\
  bn_val res' mod P = (bn_val res * bn_val acc ^ lmb) mod P /\
  (last = false -> bn_val acc' mod P = bn_val acc ^ (2 ^ Z.of_nat n) mod P).
Proof.
  pose proof P_range as HP.
  induction n as [|n IH]; intros last lmb acc res Ha Hr Hb Hl; cbn [power_bits].
  - assert (lmb = 0) as -> by lia. rewrite Z.pow_0_r, Z.mul_1_r, Z.pow_1_r. done.
  - destruct (last && (lmb =? 0)) eqn:El.
    { apply andb_true_iff in El as [-> ->%Z.eqb_eq]. rewrite Z.pow_0_r, Z.mul_1_r. done. }
    rewrite land_1, Z.shiftr_div_pow2 by lia. change (2 ^ 1) with 2.
    set (res1 := if lmb mod 2 =? 0 then res else bn_multiply acc res p).
    destruct (mul_base acc acc Ha Ha) as (Ha2 & _ & Hv2). destruct (mul_base acc res Ha Hr) as (Hm & Hmb & Hmv).
    assert (H1 : base_ok res1 /\ bn_val res1 < 2 * P /\
      bn_val res1 mod P = (bn_val res * if Z.odd lmb then bn_val acc else 1) mod P).
    { unfold res1. rewrite Zmod_odd. destruct (Z.odd lmb); cbn [Z.eqb].
      - rewrite (Z.mul_comm (bn_val res)). done.
      - by rewrite Z.mul_1_r. }
    destruct H1 as (H1 & H1b & H1v).
    rewrite Nat2Z.inj_succ, Z.pow_succ_r in Hl by lia.
    assert (Hl2 : 0 <= lmb / 2 < 2 ^ Z.of_nat n) by (split; [apply Z.div_pos|apply Z.div_lt_upper_bound]; lia).
    specialize (IH last (lmb / 2) (bn_multiply acc acc p) res1 Ha2 H1 H1b Hl2).
    destruct (power_bits n p last (lmb / 2) (bn_multiply acc acc p) res1) as [acc' res'].
    destruct IH as (I1 & I2 & I3 & I4 & I5). split; [done|]. split; [done|]. split; [done|]. split.
    + rewrite I4, (pow_halves (bn_val acc) lmb), Z.mul_assoc by lia.
      apply mul_cong; [done|]. apply pow_cong; [lia|done].
    + intros E. rewrite I5, Nat2Z.inj_succ, Z.pow_succ_r, Z.pow_mul_r, Z.pow_2_r by (done || lia).
      apply pow_cong; [lia|done].
Qed.

Lemma power_loop_val x e n : base_ok x -> normalized e -> (n <= 9)%nat ->
  let '(acc, res) := fold_left (fun '(acc, res) i => power_bits 29 p (i =? BN_LIMBS - 1) (limb e i) acc res)
    (seqZ 0 (Z.of_nat n)) (x, bn_one) in
  base_ok acc /\ base_ok res /\ bn_val res < 2 * P /\
  bn_val res mod P = (bn_val x ^ bn_val (take n e)) mod P /\
  ((n <= 8)%nat -> bn_val acc mod P = (bn_val x ^ radix n) mod P).
Proof.
  intros Hx [Hle He]. pose proof P_range as HP. induction n as [|n IH]; intros Hn.
  - change (seqZ 0 (Z.of_nat 0)) with (@nil Z). cbn [fold_left take]. rewrite radix_0, Z.pow_1_r.
    change (bn_val bn_one) with 1. split; [done|]. split; [|split; [lia|done]].
    split; [|change (bn_val bn_one) with 1; lia]. split; [done|]. repeat (constructor; [limbs; lia|]). constructor.
  - assert (Hne : (n < length e)%nat) by lia.
    assert (Htk : length (take n e) = n) by (apply length_take_le; lia).
    specialize (IH ltac:(lia)). replace (Z.of_nat (S n)) with (Z.of_nat n + 1) by lia.
    rewrite seqZ_app, Z.add_0_l by lia.
    replace (seqZ (Z.of_nat n) 1) with [Z.of_nat n] by (unfold seqZ; cbn; f_equal; lia).
    rewrite fold_left_app. destruct (fold_left _ _ _) as [acc res]. cbn [fold_left].
    destruct IH as (I1 & I2 & I3 & I4 & I5). specialize (I5 ltac:(lia)).
    pose proof (norm_limb_at e (Z.of_nat n) He) as Hlm. limbs.
    assert (Hr : 0 <= bn_val (take n e)) by (apply val_range; by apply Forall_take).
    pose proof (radix_pos n). assert (Hr0 : 0 <= radix n) by lia. assert (Hl0 : 0 <= limb e (Z.of_nat n)) by lia.
    assert (Hrl : 0 <= radix n * limb e (Z.of_nat n)) by (by apply Z.mul_nonneg_nonneg).
    assert (HP0 : 0 < P) by lia.
    assert (Hlast : (S n <= 8)%nat -> (Z.of_nat n =? BN_LIMBS - 1) = false)
      by (intros; apply Z.eqb_neq; unfold BN_LIMBS; lia).
    pose proof (power_bits_val 29 (Z.of_nat n =? BN_LIMBS - 1) (limb e (Z.of_nat n)) acc res I1 I2 I3 Hlm) as Hs.
    change (2 ^ Z.of_nat 29) with (2 ^ 29) in Hs. assert (Hb : 0 <= 2 ^ 29) by lia.
    rewrite radix_S.
    destruct (power_bits _ _ _ _ _ _) as [acc' res']. destruct Hs as (S1 & S2 & S3 & S4 & S5).
    split; [done|]. split; [done|]. split; [done|]. split.
    + rewrite S4, (take_limb e n Hne), val_app, Htk.
      replace (bn_val [limb e (Z.of_nat n)]) with (limb e (Z.of_nat n)) by (cbn [bn_val foldr]; ring).
      rewrite Z.pow_add_r, Z.pow_mul_r by assumption. apply mul_cong; [done|]. by apply pow_cong.
    + intros Hn8. rewrite S5, (Z.mul_comm (2 ^ 29)), Z.pow_mul_r by auto. by apply pow_cong.
Qed.

Lemma bn_power_mod_val x e : base_ok x -> normalized e ->
  normalized (bn_power_mod x e p) /\ 0 <= bn_val (bn_power_mod x e p) < 2 * P /\
  bn_val (bn_power_mod x e p) mod P = (bn_val x ^ bn_val e) mod P.
Proof.
  intros Hx He. unfold bn_power_mod. pose proof (power_loop_val x e 9 Hx He ltac:(lia)) as H.
  change (Z.of_nat 9) with 9 in H. destruct (fold_left _ _ _) as [acc res]. cbn [snd].
  destruct H as (_ & [Hn _] & Hb & Hv & _). split; [done|]. pose proof (normalized_range res Hn).
  split; [lia|]. rewrite Hv. destruct He as [He _]. by rewrite <- He, firstn_all.
Qed.

(** ** Square roots *)

(** The top limb of every prime the library takes is 2^24 - 1: the assertion
    of bn_sqrt cannot tell them apart (2^256 itself has 2^24 there). *)
Lemma top_limb : P < 2 ^ 256 -> limb p (BN_LIMBS - 1) = 2 ^ 24 - 1.
Proof.
  intros HP. pose proof P_range as HR. destruct Hp as [Hn _].
  destruct (norm_dest p Hn) as (x0 & x1 & x2 & x3 & x4 & x5 & x6 & x7 & x8 & E & Fx).
  rewrite E in HP, HR |- *. change (limb _ (BN_LIMBS - 1)) with x8.
  rewrite !Forall_cons_iff in Fx. destruct Fx as (? & ? & ? & ? & ? & ? & ? & ? & ? & _).
  unfold bn_val in HP, HR. cbn [foldr] in HP, HR. limbs. lia.
Qed.

Lemma bn_sqrt_val x : base_ok x -> P < 2 ^ 256 ->
  exists r, bn_sqrt x p = Some r /\ normalized r /\ bn_val r = (bn_val x ^ ((P + 1) / 4)) mod P.
Proof.
  intros Hx HP. pose proof P_range as HR. pose proof Hp as [Hn _]. unfold bn_sqrt.
  rewrite top_limb by done. change ((2 ^ 24 - 1) mod 4 =? 3) with true. cbn match.
  destruct (bn_addi_val p 1 Hn ltac:(lia)) as [N1 V1].
  destruct (bn_rshift_val _ N1) as [N2 V2]. destruct (bn_rshift_val _ N2) as [N3 V3].
  destruct (bn_power_mod_val x _ Hx N3) as (N4 & R4 & V4).
  destruct (bn_mod_ok _ p N4 Hn ltac:(lia)) as (r & E & Nr & Vr). exists r.
  split; [done|]. split; [done|]. rewrite Vr, V4. do 2 f_equal.
  rewrite V3, V2, V1, Z.mod_small, Z.div_div by lia. done.
Qed.

(** The root squares back when the argument is the square of [y] and raising
    to p leaves [y] alone, as it does for every [y] when p is prime. *)
Lemma sqrt_squares x y r : P mod 4 = 3 -> x mod P = (y * y) mod P -> (y ^ P) mod P = y mod P ->
  r = (x ^ ((P + 1) / 4)) mod P -> (r * r) mod P = x mod P.
Proof.
  intros H4 Hx Hf ->. pose proof P_range as HR.
  rewrite <- Zmult_mod, <- Z.pow_2_r, <- Z.pow_mul_r by zlia.
  replace ((P + 1) / 4 * 2) with ((P + 1) / 2) by zlia.
  rewrite (pow_cong x (y * y)) by (done || lia).
  rewrite <- Z.pow_2_r, <- Z.pow_mul_r by zlia.
  replace (2 * ((P + 1) / 2)) with (P + 1) by zlia. rewrite Z.pow_add_r, Z.pow_1_r by lia.
  rewrite Hx. by apply mul_cong.
Qed.

Lemma fermat_root y : Z.prime P -> (y ^ P) mod P = y mod P.
Proof. apply Z.fermat. Qed.

End Power.


(** ** The properties *)

(** Exponentiation: bn_power_mod returns x^e modulo p, normalized and below
    2 p, for every base below 2^259 and every exponent. *)
Theorem bn_power_mod_correct x e p : prime_ok p -> normalized x -> bn_val x < 2 ^ 259 -> normalized e ->
  normalized (bn_power_mod x e p) /\ bn_val (bn_power_mod x e p) < 2 * bn_val p /\
  bn_val (bn_power_mod x e p) mod bn_val p = (bn_val x ^ bn_val e) mod bn_val p.
Proof.
  intros Hp Nx Bx He. destruct (bn_power_mod_val p Hp x e (conj Nx Bx) He) as (N & R & V).
  split; [done|]. split; [lia|done].
Qed.

Lemma bn_power_mod_correct_witness :
  let x := cx (G secp256k1) in let e := order secp256k1 in let p := prime secp256k1 in
  normalized (bn_power_mod x e p) /\ bn_val (bn_power_mod x e p) < 2 * bn_val p /\
  bn_val (bn_power_mod x e p) mod bn_val p = (bn_val x ^ bn_val e) mod bn_val p.
Proof.
  apply (bn_power_mod_correct (cx (G secp256k1)) (order secp256k1) (prime secp256k1));
    [apply secp256k1_prime_ok|apply normalized_b_ok; vm_compute; reflexivity|vm_compute; reflexivity|
     apply secp256k1_order_ok].
Defined.

(** Square roots: the call returns, its result is fully reduced, and when
    p mod 4 = 3 and the argument is the square of some y that raising to p leaves
    alone (every y, for a prime p: fermat_root), the result squares back to the
    argument. *)
Theorem bn_sqrt_correct x y p : prime_ok p -> bn_val p < 2 ^ 256 -> normalized x -> bn_val x < 2 ^ 259 ->
  bn_val p mod 4 = 3 -> bn_val x mod bn_val p = (y * y) mod bn_val p ->
  (y ^ bn_val p) mod bn_val p = y mod bn_val p ->
  exists r, bn_sqrt x p = Some r /\ normalized r /\ bn_val r < bn_val p /\
  (bn_val r * bn_val r) mod bn_val p = bn_val x mod bn_val p.
Proof.
  intros Hp HP Nx Bx H4 Hy Hf. destruct (bn_sqrt_val p Hp x (conj Nx Bx) HP) as (r & E & Nr & Vr).
  exists r. split; [done|]. split; [done|]. split.
  - rewrite Vr. apply Z.mod_pos_bound. pose proof (P_range p Hp). lia.
  - by apply (sqrt_squares p Hp (bn_val x) y).
Qed.

Lemma bn_sqrt_correct_witness :
  exists r, bn_sqrt (bn_read_uint32 4) (prime secp256k1) = Some r /\ normalized r /\ bn_val r < bn_val (prime secp256k1) /\
  (bn_val r * bn_val r) mod bn_val (prime secp256k1) = bn_val (bn_read_uint32 4) mod bn_val (prime secp256k1).
Proof.
  apply (bn_sqrt_correct (bn_read_uint32 4) 2 (prime secp256k1)); [apply secp256k1_prime_ok|vm_compute; reflexivity|
    apply normalized_b_ok; vm_compute; reflexivity|vm_compute; reflexivity..|].
  rewrite <- Zpow_mod_correct by (vm_compute; discriminate). vm_compute. reflexivity.
Defined.

(** The assertion of bn_sqrt looks at the top limb, where it is meant to
    check that p mod 4 = 3: it holds for every modulus the library takes.  With
    the order of secp256k1, which is 1 modulo 4, the call returns a number that
    does not square back to 4. *)
Theorem bn_sqrt_assert_vacuous :
  (forall p, prime_ok p -> bn_val p < 2 ^ 256 -> limb p (BN_LIMBS - 1) mod 4 = 3) /\
  bn_val (order secp256k1) mod 4 = 1 /\
  exists r, bn_sqrt (bn_read_uint32 4) (order secp256k1) = Some r /\
  (bn_val r * bn_val r) mod bn_val (order secp256k1) <> 4.
Proof.
  split; [intros p Hp HP; by rewrite top_limb|]. split; [vm_compute; reflexivity|].
  destruct (bn_sqrt_val (order secp256k1) secp256k1_order_ok (bn_read_uint32 4)) as (r & E & _ & V).
  - split; [apply normalized_b_ok; vm_compute; reflexivity|vm_compute; reflexivity].
  - vm_compute. reflexivity.
  - exists r. split; [exact E|]. rewrite <- Zpow_mod_correct in V by (vm_compute; discriminate).
    assert (W : bn_val r = 1) by (rewrite V; vm_compute; reflexivity). rewrite W. vm_compute. discriminate.
Qed.

End BignumPow.
