(* ===== verification/BignumInverse.v ===== *)
(** * 256-bit numbers: inverses modulo an odd number

    bn_inverse is the constant-time "almost Montgomery inverse": 522 turns of a
    binary gcd on u and v that also double the coefficients r and s, followed by
    the division of s by 2^k.  The source chooses the operands of each turn by
    computing pointers with bit masks; the variables u, v, r, s and zero are
    cells 0 to 4 of a small store here, and the pointers are their indices. *)

From stdpp Require Import base list numbers.
From Stdlib Require Import ZArith Lia.
From S2P Require Import Prelude Bits Bignum Curves BignumSpec BignumBits BignumConv BignumMul BignumPow.
Local Open Scope fw_scope.

Module BignumInverse.
Import Bignum Curves BignumSpec BignumBits BignumConv BignumMul BignumPow.

(** ** The code *)

Definition at_u : Z := 0.
Definition at_v : Z := 1.
Definition at_r : Z := 2.
Definition at_s : Z := 3.
Definition at_zero : Z := 4.

Definition cells : Type := list bignum256.
Definition load (m : cells) (a : Z) : bignum256 := znth [] m a.

(** BN_INVERSE_FAST_TERNARY on addresses; [c] is 0 or -1 *)
Definition ternary (c t f : Z) : Z := (c .& t) .| (Z.lnot c .& f).

Record inverse_state := InverseState { mem : cells; finished : Z; k_count : Z }.

Definition inverse_turn (st : inverse_state) : inverse_state :=
  let m := mem st in
  let fin := finished st .| (- bn_is_one (load m at_v)) in
  let u_even := - bn_is_even (load m at_u) in
  let v_even := - bn_is_even (load m at_v) in
  let v_less_u := - bn_is_less (load m at_v) (load m at_u) in
  let b1 := Z.lnot fin .& u_even in
  let b2 := Z.lnot fin .& Z.lnot b1 .& v_even in
  let b3 := Z.lnot fin .& Z.lnot b1 .& Z.lnot b2 .& v_less_u in
  let b4 := Z.lnot fin .& Z.lnot b1 .& Z.lnot b2 .& Z.lnot b3 in
  let m := zupd m (ternary b3 at_u at_v)
    (bn_subtract (load m (ternary b3 at_u at_v))
       (load m (ternary (b3 .| b4) (ternary b3 at_v at_u) at_zero))) in
  let m := zupd m (ternary b3 at_r at_s)
    (bn_add (load m (ternary b3 at_r at_s))
       (load m (ternary (b3 .| b4) (ternary b3 at_s at_r) at_zero))) in
  let m := zupd m (ternary (b1 .| b3) at_u at_v) (bn_rshift (load m (ternary (b1 .| b3) at_u at_v))) in
  let m := zupd m (ternary (b1 .| b3) at_s at_r) (bn_lshift (load m (ternary (b1 .| b3) at_s at_r))) in
  InverseState m fin (k_count st - Z.lnot fin).

Definition inverse_start (x prime : bignum256) : inverse_state :=
  InverseState [prime; x; bn_zero; bn_one; bn_zero] 0 0.

(** 2 * BN_LIMBS * BN_BITS_PER_LIMB turns *)
Definition inverse_turns : nat := 522.

Fixpoint inverse_run (n : nat) (st : inverse_state) : inverse_state :=
  match n with O => st | S n => inverse_run n (inverse_turn st) end.

(** s = s / 2^29 while [i < k / 29] *)
Fixpoint divide_loop (prime : bignum256) (idx : list Z) (k : Z) (s : bignum256) : option bignum256 :=
  match idx with
  | [] => Some s
  | i :: idx =>
      r ← bn_divide_base s prime;
      s ← bn_cmov (Z.b2z (i <? k / BN_BITS_PER_LIMB)) r s;
      divide_loop prime idx k s
  end.

(** s = s / 2 while [i < k mod 29] *)
Fixpoint halve_loop (prime : bignum256) (idx : list Z) (k : Z) (s : bignum256) : option bignum256 :=
  match idx with
  | [] => Some s
  | i :: idx =>
      let r := bn_mult_half s prime in
      s ← bn_cmov (Z.b2z (i <? k mod BN_BITS_PER_LIMB)) r s;
      halve_loop prime idx k s
  end.

(** What follows the turns. *)
Definition inverse_finish (x prime : bignum256) (st : inverse_state) : option bignum256 :=
  s ← divide_loop prime (seqZ 0 18) (k_count st) (load (mem st) at_s);
  s ← halve_loop prime (seqZ 0 29) (k_count st) s;
  bn_cmov (bn_is_zero x) x s.

Definition bn_inverse_fast (x prime : bignum256) : option bignum256 :=
  let x := bn_fast_mod x prime in
  x ← bn_mod x prime;
  inverse_finish x prime (inverse_run inverse_turns (inverse_start x prime)).

Definition bn_inverse (x prime : bignum256) : option bignum256 := bn_inverse_fast x prime.

Lemma u64_small a : 0 <= a < 2 ^ 64 -> u64 a = a.
Proof. apply wrap_small. Qed.

(** ** Inverses modulo a power of two *)

Lemma land_pow_mask a n : 0 <= n -> a .& (2 ^ n - 1) = a mod 2 ^ n.
Proof. intros Hn. rewrite <- Z.land_ones by done. by rewrite Z.ones_equiv, <- Z.sub_1_r. Qed.

Lemma u32_mod a n : 0 <= n <= 32 -> u32 a mod 2 ^ n = a mod 2 ^ n.
Proof.
  intros Hn. unfold u32, wrap. apply Z.mod_mod_divide.
  exists (2 ^ (32 - n)). rewrite <- Z.pow_add_r by lia. f_equal. lia.
Qed.

(** Each turn squares f = a - 1 and keeps a * acc = 1 - f^2; f is divisible by
    2^i. *)
Lemma inverse_loop_val a n fuel : forall i acc f, 1 <= n <= 32 -> 1 <= i -> i * 2 ^ Z.of_nat fuel = 64 ->
  0 <= acc < 2 ^ n -> (a * acc) mod 2 ^ n = (1 - f * f) mod 2 ^ n -> (2 ^ Z.min i n | f) ->
  let r := inverse_loop fuel i n (2 ^ n - 1) acc f in
  0 <= r < 2 ^ n /\ (a * r) mod 2 ^ n = 1 mod 2 ^ n.
Proof.
  induction fuel as [|fuel IH]; intros i acc f Hn Hi Hf Ha Hinv Hd; cbn [inverse_loop].
  - split; [done|]. rewrite Hinv. rewrite Z.min_r in Hd by lia. destruct Hd as [c ->].
    replace (1 - c * 2 ^ n * (c * 2 ^ n)) with (1 - (c * c * 2 ^ n) * 2 ^ n) by lia. apply mod_sub_mul. lia.
  - assert (Hpn : 0 < 2 ^ n) by (apply Z.pow_pos_nonneg; lia). destruct (Z.ltb_spec i n).
    + rewrite Nat2Z.inj_succ, Z.pow_succ_r in Hf by lia.
      rewrite !land_pow_mask, !u32_mod by lia. cbn zeta.
      assert (Ei : u32 (Z.shiftl i 1) = 2 * i).
      { rewrite Z.shiftl_mul_pow2 by lia. rewrite u32_small; [lia|]. nia. }
      rewrite Ei. apply IH; [done|lia|lia|apply Z.mod_pos_bound; lia| |].
      * set (g := (f * f) mod 2 ^ n). assert (Hg : g mod 2 ^ n = (f * f) mod 2 ^ n) by apply Zmod_mod.
        rewrite Zmult_mod_idemp_r, Z.mul_assoc. transitivity (((1 - g) * (1 + g)) mod 2 ^ n); [|f_equal; lia].
        apply mul_cong; [|apply u32_mod; lia]. by rewrite Hinv, Zminus_mod, <- Hg, <- Zminus_mod.
      * assert (Hsq : (2 ^ Z.min (2 * i) n | f * f)).
        { rewrite Z.min_l in Hd by lia. destruct Hd as [c ->].
          exists (c * c * 2 ^ (2 * i - Z.min (2 * i) n)).
          transitivity (c * c * 2 ^ (i + i)); [rewrite Z.pow_add_r by lia; ring|].
          rewrite <- (Z.mul_assoc (c * c)), <- Z.pow_add_r by lia. do 2 f_equal. lia. }
        rewrite Z.mod_eq by lia. apply Z.divide_sub_r; [done|].
        apply Z.divide_mul_l. exists (2 ^ (n - Z.min (2 * i) n)). rewrite <- Z.pow_add_r by lia. f_equal. lia.
    + split; [done|]. rewrite Hinv. rewrite Z.min_r in Hd by lia. destruct Hd as [c ->].
      replace (1 - c * 2 ^ n * (c * 2 ^ n)) with (1 - (c * c * 2 ^ n) * 2 ^ n) by lia. apply mod_sub_mul. lia.
Qed.

Lemma inverse_mod_power_two_val a n : 0 <= a < 2 ^ 32 -> Z.odd a = true -> 2 <= n <= 32 ->
  0 <= inverse_mod_power_two a n < 2 ^ n /\ (a * inverse_mod_power_two a n) mod 2 ^ n = 1.
Proof.
  intros Ha Ho Hn. unfold inverse_mod_power_two.
  assert (Hm : (if n =? 32 then 0xffffffff else u32 (Z.shiftl 1 n - 1)) = 2 ^ n - 1).
  { destruct (Z.eqb_spec n 32) as [->|]; [done|]. rewrite Z.shiftl_1_l, u32_small; [done|].
    assert (0 < 2 ^ n) by (apply Z.pow_pos_nonneg; lia). assert (2 ^ n <= 2 ^ 32) by (apply Z.pow_le_mono_r; lia). lia. }
  rewrite Hm. assert (H1 : 1 mod 2 ^ n = 1).
  { apply Z.mod_small. split; [lia|]. apply Z.pow_gt_1; lia. }
  pose proof (Zmod_odd a) as E. rewrite Ho in E.
  assert (Hf : u32 (a - 1) = a - 1) by (apply u32_small; zlia). rewrite Hf.
  (* the first turn starts from an accumulator that is not yet reduced *)
  change (inverse_loop 6 1 n (2 ^ n - 1) (u32 (2 - a)) (a - 1)) with
    (if 1 <? n then inverse_loop 5 2 n (2 ^ n - 1)
       (u32 (u32 (2 - a) * u32 (1 + (u32 ((a - 1) * (a - 1)) .& (2 ^ n - 1)))) .& (2 ^ n - 1))
       (u32 ((a - 1) * (a - 1)) .& (2 ^ n - 1)) else u32 (2 - a)).
  rewrite (proj2 (Z.ltb_lt 1 n)) by lia. rewrite !land_pow_mask, !u32_mod by lia.
  assert (Hpn : 0 < 2 ^ n) by (apply Z.pow_pos_nonneg; lia).
  set (f := a - 1) in *. set (g := (f * f) mod 2 ^ n).
  assert (Hg : g mod 2 ^ n = (f * f) mod 2 ^ n) by apply Zmod_mod.
  set (acc := (u32 (2 - a) * u32 (1 + g)) mod 2 ^ n).
  pose proof (inverse_loop_val a n 5 2 acc g) as HL. cbn zeta in HL. rewrite H1 in HL. apply HL; clear HL;
    [lia|lia|reflexivity|apply Z.mod_pos_bound; lia|unfold acc|].
  - rewrite Zmult_mod_idemp_r, Z.mul_assoc. transitivity (((1 - g) * (1 + g)) mod 2 ^ n); [|f_equal; lia].
    apply mul_cong; [|apply u32_mod; lia].
    rewrite (Zminus_mod 1 g), Hg, <- Zminus_mod. transitivity ((a * (2 - a)) mod 2 ^ n).
    + apply mul_cong; [done|apply u32_mod; lia].
    + f_equal. unfold f. lia.
  - rewrite Z.min_l by lia. unfold g. rewrite Z.mod_eq by lia.
    assert (Hd : (2 | f)) by (exists (a / 2); unfold f; zlia). destruct Hd as [c Hc].
    apply Z.divide_sub_r; [exists (c * c); rewrite Hc; lia|].
    apply Z.divide_mul_l. exists (2 ^ (n - 2)). rewrite <- Z.pow_add_r by lia. f_equal. lia.
Qed.

(** ** Division by the base *)

Lemma bn_divide_base_val x p : normalized x -> normalized p -> Z.odd (bn_val p) = true ->
  exists r m, bn_divide_base x p = Some r /\ normalized r /\ 0 <= m < 2 ^ 29 /\
  2 ^ 29 * bn_val r = bn_val x + m * bn_val p.
Proof.
  intros Hx Hp Ho. pose proof (normalized_range x Hx) as Rx. pose proof (normalized_range p Hp) as Rp.
  destruct Hx as [Hlx Hx], Hp as [Hlp Hp]. destruct x as [|x0 x], p as [|p0 p]; try done.
  apply Forall_cons_1 in Hx as [H0 Hx], Hp as [Hp0 Hp]. unfold bn_divide_base.
  change (limb (x0 :: x) 0) with x0. change (limb (p0 :: p) 0) with p0.
  change (tail (x0 :: x)) with x. change (tail (p0 :: p)) with p.
  change (bn_val (x0 :: x)) with (x0 + 2 ^ 29 * bn_val x) in *.
  change (bn_val (p0 :: p)) with (p0 + 2 ^ 29 * bn_val p) in *.
  assert (Op : Z.odd p0 = true) by (rewrite Z.odd_add, Z.odd_mul in Ho; cbn in Ho; by rewrite xorb_false_r in Ho).
  unfold BN_BITS_PER_LIMB. rewrite land_mask, u32_mod by lia.
  destruct (inverse_mod_power_two_val p0 29) as [Ri Hi]; [limbs; lia|done|lia|].
  set (inv := inverse_mod_power_two p0 29) in *. unfold BN_BASE. change 0x20000000 with (2 ^ 29).
  rewrite (u32_small (2 ^ 29 - inv)) by lia. set (m := (x0 * (2 ^ 29 - inv)) mod 2 ^ 29).
  assert (Hm : 0 <= m < 2 ^ 29) by (apply Z.mod_pos_bound; lia).
  assert (Hz : (x0 + m * p0) mod 2 ^ 29 = 0).
  { unfold m. rewrite Zplus_mod, Zmult_mod_idemp_l, <- Zplus_mod.
    replace (x0 + x0 * (2 ^ 29 - inv) * p0) with (x0 * (1 - p0 * inv) + (x0 * p0) * 2 ^ 29) by lia.
    rewrite Z.mod_add, Zmult_mod, Zminus_mod, Hi by lia. by rewrite Z.mul_0_r. }
  assert (Hmp : 0 <= m * p0 <= (2 ^ 29 - 1) * (2 ^ 29 - 1)) by (limbs; apply prod_range; lia).
  rewrite (u64_small (m * p0)) by lia.
  rewrite (u64_small (x0 + m * p0)) by (limbs; lia).
  rewrite Z.shiftr_div_pow2 by lia. set (acc := (x0 + m * p0) / 2 ^ 29).
  assert (Hacc : x0 + m * p0 = 2 ^ 29 * acc) by (unfold acc; pose proof (Z.div_mod (x0 + m * p0) (2 ^ 29) ltac:(lia)); lia).
  destruct (carry_zip norm_limb norm_limb 64 (2 ^ 58 + 2 ^ 29) 0 1 m acc (fun a q => u64 (a + u64 (m * q))) x p)
    as (Hlast & Hv & Hn & Hlen); [lia|cbn in *; lia|done|done| |limbs; lia|limbs; lia|lia|].
  { clear - Hm. intros u v Hu Hv. limbs. assert (0 <= m * v <= (2 ^ 29 - 1) * (2 ^ 29 - 1)) by (apply prod_range; lia).
    rewrite (wrap_small _ (m * v)), wrap_small by lia. lia. }
  set (T := acc + (0 * bn_val (replicate (length x) 1) + 1 * bn_val x + m * bn_val p)) in *.
  assert (ET : 2 ^ 29 * T = x0 + 2 ^ 29 * bn_val x + m * (p0 + 2 ^ 29 * bn_val p)) by (unfold T; lia).
  assert (Hlx8 : length x = 8%nat) by (cbn in Hlx; lia).
  rewrite Hlx8 in *. change (radix 8) with (2 ^ 232) in *.
  assert (HT : 0 <= T < 2 ^ 261).
  { assert (0 <= m * (p0 + 2 ^ 29 * bn_val p) <= (2 ^ 29 - 1) * (2 ^ 261 - 1)) by (apply prod_range; lia). lia. }
  assert (Hq : 0 <= T / 2 ^ 232 < 2 ^ 29) by (split; [apply Z.div_pos|apply Z.div_lt_upper_bound]; lia).
  destruct (carry 64 acc _) as [out last] eqn:Ec. cbn [fst snd] in *. subst last.
  rewrite Z.shiftr_div_pow2, (Z.div_small _ (2 ^ 29)), u32_small by lia. cbn [Z.eqb].
  exists (out ++ [T / 2 ^ 232]), m. split; [done|].
  assert (Hval : bn_val (out ++ [T / 2 ^ 232]) = T).
  { rewrite val_app, Hlen, Hv. change (radix 8) with (2 ^ 232). cbn [bn_val foldr].
    pose proof (Z.div_mod T (2 ^ 232) ltac:(lia)). lia. }
  split; [apply last_limb; [done|done|lia|lia]|]. split; [done|]. by rewrite Hval.
Qed.

(** ** One turn *)

Lemma zero_norm : normalized bn_zero.
Proof. split; [done|]. repeat (constructor; [limbs; lia|]). constructor. Qed.

Lemma one_norm : normalized bn_one.
Proof. split; [done|]. repeat (constructor; [limbs; lia|]). constructor. Qed.

Lemma bn_subtract_zero x : normalized x -> bn_subtract x bn_zero = x.
Proof.
  intros Hx. destruct (bn_subtract_val x bn_zero Hx zero_norm) as [Hn Hv].
  apply bn_val_inj; [done|done|]. rewrite Hv. change (bn_val bn_zero) with 0. rewrite Z.sub_0_r.
  apply Z.mod_small, normalized_range, Hx.
Qed.

Lemma bn_add_zero x : normalized x -> bn_add x bn_zero = x.
Proof.
  intros Hx. destruct (bn_add_val x bn_zero Hx zero_norm) as [Hn Hv].
  apply bn_val_inj; [done|done|]. rewrite Hv. change (bn_val bn_zero) with 0. rewrite Z.add_0_r.
  apply Z.mod_small, normalized_range, Hx.
Qed.

(** The new contents of u, v, r and s. *)
Definition turn_mem (fin : bool) (u v r s : bignum256) : cells :=
  if fin then [u; bn_rshift v; bn_lshift r; s; bn_zero]
  else if Z.even (bn_val u) then [bn_rshift u; v; r; bn_lshift s; bn_zero]
  else if Z.even (bn_val v) then [u; bn_rshift v; bn_lshift r; s; bn_zero]
  else if bn_val v <? bn_val u then [bn_rshift (bn_subtract u v); v; bn_add r s; bn_lshift s; bn_zero]
  else [u; bn_rshift (bn_subtract v u); bn_lshift r; bn_add s r; bn_zero].

Lemma inverse_turn_eq u v r s (f : bool) k : normalized u -> normalized v -> normalized r -> normalized s ->
  let fin := f || (bn_val v =? 1) in
  inverse_turn (InverseState [u; v; r; s; bn_zero] (- Z.b2z f) k) =
  InverseState (turn_mem fin u v r s) (- Z.b2z fin) (k + Z.b2z (negb fin)).
Proof.
  intros Hu Hv Hr Hs fin. unfold inverse_turn, turn_mem. cbn [mem finished k_count].
  change (load [u; v; r; s; bn_zero] at_u) with u. change (load [u; v; r; s; bn_zero] at_v) with v.
  rewrite bn_is_one_val, !bn_is_even_val, bn_is_less_val by done.
  assert (Ef : (- Z.b2z f) .| (- Z.b2z (bn_val v =? 1)) = - Z.b2z fin)
    by (unfold fin; by destruct f, (bn_val v =? 1)).
  rewrite Ef. clear Ef. clearbody fin.
  destruct fin, (Z.even (bn_val u)), (Z.even (bn_val v)), (bn_val v <? bn_val u);
    cbn -[bn_subtract bn_add bn_rshift bn_lshift bn_zero];
    unfold load, znth, zupd; cbn -[bn_subtract bn_add bn_rshift bn_lshift bn_zero];
    rewrite ?bn_subtract_zero, ?bn_add_zero by done; f_equal; lia.
Qed.

(** ** The invariant of the gcd *)

Definition no_common (a b : Z) : Prop := forall d, (d | a) -> (d | b) -> (d | 1).

(** The equations the four branches keep, on the values of the variables. *)
Definition gcd_inv (P X U V R S k : Z) : Prop :=
  1 <= U /\ 1 <= V /\ 0 <= R /\ 0 <= S /\ no_common U V /\ U * S + V * R = P /\
  (P | X * S - V * 2 ^ k) /\ (P | X * R + U * 2 ^ k) /\ 2 ^ k * (U * V) <= P * X.

Lemma half_even a : Z.even a = true -> a = 2 * (a / 2).
Proof. intros H. pose proof (Zmod_even a). rewrite H in *. zlia. Qed.

Lemma half_odd_diff a b : Z.even a = false -> Z.even b = false -> a - b = 2 * ((a - b) / 2).
Proof. intros Ha Hb. apply half_even. by rewrite Z.even_sub, Ha, Hb. Qed.

Lemma gcd_b1 P X U V R S k : 0 <= k -> Z.even U = true -> gcd_inv P X U V R S k ->
  gcd_inv P X (U / 2) V R (2 * S) (k + 1).
Proof.
  intros Hk He (HU & HV & HR & HS & Hg & HP & D1 & D2 & HB). apply half_even in He. set (U' := U / 2) in *.
  clearbody U'. subst U. unfold gcd_inv. rewrite Z.pow_add_r by lia. change (2 ^ 1) with 2.
  assert (0 < 2 ^ k) by lia. repeat split; try lia.
  - intros d H1 H2. apply Hg; [|done]. by apply Z.divide_mul_r.
  - destruct D1 as [c Hc]. exists (2 * c). lia.
  - destruct D2 as [c Hc]. exists c. lia.
Qed.

Lemma gcd_b2 P X U V R S k : 0 <= k -> Z.even V = true -> gcd_inv P X U V R S k ->
  gcd_inv P X U (V / 2) (2 * R) S (k + 1).
Proof.
  intros Hk He (HU & HV & HR & HS & Hg & HP & D1 & D2 & HB). apply half_even in He. set (V' := V / 2) in *.
  clearbody V'. subst V. unfold gcd_inv. rewrite Z.pow_add_r by lia. change (2 ^ 1) with 2.
  assert (0 < 2 ^ k) by lia. repeat split; try lia.
  - intros d H1 H2. apply Hg; [done|]. by apply Z.divide_mul_r.
  - destruct D1 as [c Hc]. exists c. lia.
  - destruct D2 as [c Hc]. exists (2 * c). lia.
Qed.

Lemma gcd_b3 P X U V R S k : 0 <= k -> Z.even U = false -> Z.even V = false -> V < U ->
  gcd_inv P X U V R S k -> gcd_inv P X ((U - V) / 2) V (R + S) (2 * S) (k + 1).
Proof.
  intros Hk Hu Hv Hlt (HU & HV & HR & HS & Hg & HP & D1 & D2 & HB).
  pose proof (half_odd_diff U V Hu Hv) as E. set (U' := (U - V) / 2) in *. clearbody U'.
  assert (U = V + 2 * U') as -> by lia. unfold gcd_inv. rewrite Z.pow_add_r by lia. change (2 ^ 1) with 2.
  assert (0 < 2 ^ k) by lia. repeat split; try lia.
  - intros d H1 H2. apply Hg; [|done]. apply Z.divide_add_r; [done|]. by apply Z.divide_mul_r.
  - destruct D1 as [c Hc]. exists (2 * c). lia.
  - destruct D1 as [c1 Hc1], D2 as [c2 Hc2]. exists (c1 + c2). lia.
Qed.

Lemma gcd_b4 P X U V R S k : 0 <= k -> Z.even U = false -> Z.even V = false -> U <= V -> V <> 1 ->
  gcd_inv P X U V R S k -> gcd_inv P X U ((V - U) / 2) (2 * R) (S + R) (k + 1).
Proof.
  intros Hk Hu Hv Hle H1 (HU & HV & HR & HS & Hg & HP & D1 & D2 & HB).
  assert (Hlt : U < V).
  { destruct (Z.eq_dec U V) as [<-|]; [|lia]. exfalso. apply H1.
    pose proof (Hg U (Z.divide_refl _) (Z.divide_refl _)) as Hd. apply Z.divide_pos_le in Hd; lia. }
  pose proof (half_odd_diff V U Hv Hu) as E. set (V' := (V - U) / 2) in *. clearbody V'.
  assert (V = U + 2 * V') as -> by lia. unfold gcd_inv. rewrite Z.pow_add_r by lia. change (2 ^ 1) with 2.
  assert (0 < 2 ^ k) by lia. repeat split; try lia.
  - intros d Hd1 Hd2. apply Hg; [done|]. apply Z.divide_add_r; [done|]. by apply Z.divide_mul_r.
  - destruct D1 as [c1 Hc1], D2 as [c2 Hc2]. exists (c1 + c2). lia.
  - destruct D2 as [c Hc]. exists (2 * c). lia.
Qed.

(** The coefficients stay below P, so that no doubling leaves 261 bits. *)
Lemma gcd_bounds P X U V R S k : gcd_inv P X U V R S k -> R + S <= P /\ U * S <= P /\ V * R <= P.
Proof. intros (HU & HV & HR & HS & _ & HP & _). nia. Qed.

(** ** The run *)

Section Run.
Context (p : bignum256) (Hp : prime_ok p) (Hodd : Z.odd (bn_val p) = true).
Abbreviation P := (bn_val p).
Context (x : bignum256) (Hx : normalized x) (HX : bn_val x < P).
Abbreviation X := (bn_val x).

(** The state after [n] turns: every variable normalized; not finished, the gcd
    goes on; finished, s is the wanted multiple. *)
Definition run_state (n : Z) (st : inverse_state) : Prop :=
  exists u v r s (f : bool) k, st = InverseState [u; v; r; s; bn_zero] (- Z.b2z f) k /\
  normalized u /\ normalized v /\ normalized r /\ normalized s /\ 0 <= k <= n /\
  (no_common P X -> X <> 0 ->
    if f then bn_val s <= P /\ (P | X * bn_val s - 2 ^ k)
    else k = n /\ gcd_inv P X (bn_val u) (bn_val v) (bn_val r) (bn_val s) k).

Lemma P_bounds : 2 ^ 256 - 2 ^ 224 <= P <= 2 ^ 256.
Proof. apply Hp. Qed.

Lemma run_start : run_state 0 (inverse_start x p).
Proof.
  pose proof P_bounds. exists p, x, bn_zero, bn_one, false, 0. split; [done|].
  split; [apply Hp|]. split; [done|]. split; [apply zero_norm|]. split; [apply one_norm|]. split; [lia|].
  intros Hg Hx0. split; [done|]. change (bn_val bn_zero) with 0. change (bn_val bn_one) with 1.
  pose proof (normalized_range x Hx). unfold gcd_inv. rewrite Z.pow_0_r.
  repeat split; try lia; try done; [exists 0; lia|exists 1; lia].
Qed.

Lemma turn_norm fin u v r s : normalized u -> normalized v -> normalized r -> normalized s ->
  exists u' v' r' s', turn_mem fin u v r s = [u'; v'; r'; s'; bn_zero] /\
  normalized u' /\ normalized v' /\ normalized r' /\ normalized s' /\
  (fin = true -> s' = s) /\
  (fin = false -> forall k, 0 <= k -> bn_val v <> 1 ->
   gcd_inv P X (bn_val u) (bn_val v) (bn_val r) (bn_val s) k ->
   gcd_inv P X (bn_val u') (bn_val v') (bn_val r') (bn_val s') (k + 1)).
Proof.
  intros Hu Hv Hr Hs. pose proof P_bounds as HP. unfold turn_mem.
  pose proof (normalized_range u Hu) as Ru. pose proof (normalized_range v Hv) as Rv.
  destruct (bn_rshift_val u Hu) as [Nu2 Vu2]. destruct (bn_rshift_val v Hv) as [Nv2 Vv2].
  destruct (bn_lshift_val r Hr) as [Nr2 Vr2]. destruct (bn_lshift_val s Hs) as [Ns2 Vs2].
  destruct (bn_subtract_val u v Hu Hv) as [Nuv Vuv]. destruct (bn_subtract_val v u Hv Hu) as [Nvu Vvu].
  destruct (bn_rshift_val _ Nuv) as [Nuv2 Vuv2]. destruct (bn_rshift_val _ Nvu) as [Nvu2 Vvu2].
  destruct (bn_add_val r s Hr Hs) as [Nrs Vrs]. destruct (bn_add_val s r Hs Hr) as [Nsr Vsr].
  destruct fin; [|destruct (Z.even (bn_val u)) eqn:Eu; [|destruct (Z.even (bn_val v)) eqn:Ev;
    [|destruct (Z.ltb_spec (bn_val v) (bn_val u))]]]; do 4 eexists; (split; [reflexivity|]);
    do 4 (split; [assumption|]); (split; [done|]); intros Hfin k Hk H1 Hi; try discriminate.
  - rewrite Vu2, Vs2. pose proof (gcd_b1 _ _ _ _ _ _ _ Hk Eu Hi) as Hn. pose proof (gcd_bounds _ _ _ _ _ _ _ Hn).
    rewrite (Z.mod_small (2 * bn_val s)) by (destruct Hn as (? & ? & ? & ? & _); lia). done.
  - rewrite Vv2, Vr2. pose proof (gcd_b2 _ _ _ _ _ _ _ Hk Ev Hi) as Hn. pose proof (gcd_bounds _ _ _ _ _ _ _ Hn).
    rewrite (Z.mod_small (2 * bn_val r)) by (destruct Hn as (? & ? & ? & ? & _); lia). done.
  - rewrite Vuv2, Vuv, Vrs, Vs2. pose proof (gcd_b3 _ _ _ _ _ _ _ Hk Eu Ev ltac:(lia) Hi) as Hn.
    pose proof (gcd_bounds _ _ _ _ _ _ _ Hn).
    rewrite !Z.mod_small by (destruct Hn as (? & ? & ? & ? & _); lia). done.
  - rewrite Vvu2, Vvu, Vsr, Vr2. pose proof (gcd_b4 _ _ _ _ _ _ _ Hk Eu Ev ltac:(lia) H1 Hi) as Hn.
    pose proof (gcd_bounds _ _ _ _ _ _ _ Hn).
    rewrite !Z.mod_small by (destruct Hn as (? & ? & ? & ? & _); lia). done.
Qed.

Lemma run_turn n st : 0 <= n -> run_state n st -> run_state (n + 1) (inverse_turn st).
Proof.
  intros Hn (u & v & r & s & f & k & -> & Hu & Hv & Hr & Hs & Hk & Hrun).
  rewrite inverse_turn_eq by done. set (fin := f || (bn_val v =? 1)).
  destruct (turn_norm fin u v r s Hu Hv Hr Hs) as (u' & v' & r' & s' & -> & Nu & Nv & Nr & Ns & Hfin & Hgo).
  exists u', v', r', s', fin, (k + Z.b2z (negb fin)). split; [done|]. do 4 (split; [done|]).
  split; [destruct fin; cbn; lia|]. intros Hg Hx0. specialize (Hrun Hg Hx0).
  destruct fin eqn:Ef; cbn [negb Z.b2z].
  - rewrite Hfin by done. rewrite Z.add_0_r. destruct f; [done|].
    apply Z.eqb_eq in Ef. destruct Hrun as (-> & Hi). pose proof (gcd_bounds _ _ _ _ _ _ _ Hi) as (? & _).
    destruct Hi as (_ & _ & ? & ? & _ & _ & D & _). rewrite Ef, Z.mul_1_l in D. split; [lia|done].
  - apply orb_false_iff in Ef as [-> Ev%Z.eqb_neq]. destruct Hrun as (-> & Hi). split; [done|].
    apply Hgo; [done|lia|done|done].
Qed.

Lemma run_all n : forall m st, 0 <= m -> run_state m st -> run_state (m + Z.of_nat n) (inverse_run n st).
Proof.
  induction n as [|n IH]; intros m st Hm Hs; cbn [inverse_run]; [by rewrite Z.add_0_r|].
  replace (m + Z.of_nat (S n)) with (m + 1 + Z.of_nat n) by lia. apply IH; [lia|]. by apply run_turn.
Qed.

Lemma pow2_prime k : 0 <= k -> Z.gcd P (2 ^ k) = 1.
Proof.
  intros Hk. apply Z.coprime_pow_r; [done|]. apply Z.gcd_unique; [lia|apply Z.divide_1_l..|].
  intros d H1 H2. apply Zodd_bool_iff, Zodd_ex_iff in Hodd as [c Hc].
  destruct H1 as [a Ha], H2 as [b Hb]. exists (a - c * b). rewrite Z.mul_sub_distr_r, <- Z.mul_assoc, <- Ha, <- Hb. lia.
Qed.

(** After 522 turns the gcd has ended: its numbers halve with every turn and
    started below 2^512. *)
Lemma run_result : no_common P X -> X <> 0 ->
  exists s k, load (mem (inverse_run inverse_turns (inverse_start x p))) at_s = s /\
  k_count (inverse_run inverse_turns (inverse_start x p)) = k /\ normalized s /\ 0 <= k <= 522 /\
  bn_val s < P /\ (P | X * bn_val s - 2 ^ k).
Proof.
  intros Hg Hx0. pose proof P_bounds as HP. pose proof (normalized_range x Hx) as RX.
  destruct (run_all inverse_turns 0 _ ltac:(lia) run_start) as (u & v & r & s & f & k & -> & _ & _ & _ & Hs & Hk & Hrun).
  specialize (Hrun Hg Hx0). change (0 + Z.of_nat inverse_turns) with 522 in *.
  exists s, k. split; [done|]. split; [done|]. split; [done|]. split; [done|]. destruct f.
  - destruct Hrun as [Hle D]. split; [|done]. destruct (Z.eq_dec (bn_val s) P) as [E|]; [|lia]. exfalso.
    rewrite E in D. assert (Hd : (P | 1 * 2 ^ k)).
    { rewrite Z.mul_1_l. destruct D as [c Hc]. exists (X - c). lia. }
    rewrite Z.mul_comm in Hd. apply Z.gauss in Hd; [|apply pow2_prime; lia]. apply Z.divide_pos_le in Hd; lia.
  - exfalso. destruct Hrun as (-> & HU & HV & _ & _ & _ & _ & _ & _ & HB).
    assert (P * X < 2 ^ 512) by nia. assert (1 <= bn_val u * bn_val v) by nia. nia.
Qed.

Lemma run_any : exists s k, load (mem (inverse_run inverse_turns (inverse_start x p))) at_s = s /\
  k_count (inverse_run inverse_turns (inverse_start x p)) = k /\ normalized s /\ 0 <= k <= 522.
Proof.
  destruct (run_all inverse_turns 0 _ ltac:(lia) run_start) as (u & v & r & s & f & k & -> & _ & _ & _ & Hs & Hk & _).
  exists s, k. done.
Qed.

End Run.

(** ** Dividing by the power of two *)

Section Divide.
Context (p : bignum256) (Hp : prime_ok p) (Hodd : Z.odd (bn_val p) = true).
Abbreviation P := (bn_val p).

(** [s'] is s / 2^e modulo P, reduced if s is. *)
Definition divided (e : Z) (s s' : bignum256) : Prop :=
  normalized s' /\ (P | 2 ^ e * bn_val s' - bn_val s) /\ (bn_val s < P -> bn_val s' < P).

Lemma divided_0 s : normalized s -> divided 0 s s.
Proof. intros Hs. split; [done|]. split; [exists 0; lia|done]. Qed.

Lemma divided_trans d e s t w : 0 <= d -> 0 <= e -> divided d s t -> divided e t w -> divided (d + e) s w.
Proof.
  intros Hd He (Nt & [a Ha] & Rt) (Nw & [b Hb] & Rw). split; [done|]. split; [|auto].
  exists (2 ^ d * b + a). rewrite Z.pow_add_r by lia.
  replace (2 ^ d * 2 ^ e * bn_val w - bn_val s) with (2 ^ d * (2 ^ e * bn_val w - bn_val t) + (2 ^ d * bn_val t - bn_val s)) by ring.
  rewrite Ha, Hb. ring.
Qed.

Lemma divide_base_step s : normalized s -> exists r, bn_divide_base s p = Some r /\ divided 29 s r.
Proof.
  intros Hs. destruct (bn_divide_base_val s p Hs (proj1 Hp) Hodd) as (r & m & E & Nr & Hm & Hv).
  exists r. split; [done|]. split; [done|]. split; [exists m; lia|]. intros Hlt.
  destruct Hp as [_ HP]. assert (m * P <= (2 ^ 29 - 1) * P) by (apply Z.mul_le_mono_nonneg_r; lia). lia.
Qed.

Lemma mult_half_step s : normalized s -> divided 1 s (bn_mult_half s p).
Proof.
  intros Hs. destruct (bn_mult_half_val s p Hs (proj1 Hp) Hodd) as [Nr Hv]. split; [done|].
  pose proof (Zmod_odd (bn_val s)) as Es. pose proof (Zmod_odd P) as EP. rewrite Hodd in EP.
  change (2 ^ 1) with 2. rewrite Hv. clear Hv Nr. destruct (Z.odd (bn_val s)).
  - split; [exists 1; zlia|]. intros. zlia.
  - split; [exists 0; zlia|]. intros. destruct Hp as [_ HP]. pose proof (normalized_range s Hs). zlia.
Qed.

(** A loop of [n] turns from [i] divides while its index is below [t]. *)
Definition turns_done (i n t : Z) : Z := Z.max 0 (Z.min n (t - i)).

Lemma divide_loop_val k n : forall i s, normalized s -> exists s',
  divide_loop p (seqZ i (Z.of_nat n)) k s = Some s' /\ divided (29 * turns_done i (Z.of_nat n) (k / 29)) s s'.
Proof.
  unfold turns_done. induction n as [|n IH]; intros i s Hs.
  - exists s. split; [done|]. replace (29 * _) with 0 by lia. by apply divided_0.
  - rewrite seqZ_cons by lia. replace (Z.pred (Z.of_nat (S n))) with (Z.of_nat n) by lia. cbn [divide_loop].
    destruct (divide_base_step s Hs) as (r & -> & Hr). cbn [mbind option_bind].
    rewrite bn_cmov_norm by (done || apply Hr). unfold BN_BITS_PER_LIMB. destruct (Z.ltb_spec i (k / 29)) as [Hi|Hi].
    + destruct (IH (Z.succ i) r (proj1 Hr)) as (s' & E & Hd). exists s'. split; [done|].
      replace (29 * Z.max 0 (Z.min (Z.of_nat (S n)) (k / 29 - i)))
        with (29 + 29 * Z.max 0 (Z.min (Z.of_nat n) (k / 29 - Z.succ i))) by lia.
      apply (divided_trans 29 _ s r); [lia|lia|done|done].
    + destruct (IH (Z.succ i) s Hs) as (s' & E & Hd). exists s'. split; [done|].
      replace (29 * Z.max 0 (Z.min (Z.of_nat (S n)) (k / 29 - i)))
        with (29 * Z.max 0 (Z.min (Z.of_nat n) (k / 29 - Z.succ i))) by lia. done.
Qed.

Lemma halve_loop_val k n : forall i s, normalized s -> exists s',
  halve_loop p (seqZ i (Z.of_nat n)) k s = Some s' /\ divided (turns_done i (Z.of_nat n) (k mod 29)) s s'.
Proof.
  unfold turns_done. induction n as [|n IH]; intros i s Hs.
  - exists s. split; [done|]. replace (Z.max _ _) with 0 by lia. by apply divided_0.
  - rewrite seqZ_cons by lia. replace (Z.pred (Z.of_nat (S n))) with (Z.of_nat n) by lia. cbn [halve_loop].
    pose proof (mult_half_step s Hs) as Hr. set (r := bn_mult_half s p) in *.
    rewrite bn_cmov_norm by (done || apply Hr). cbn [mbind option_bind].
    unfold BN_BITS_PER_LIMB. destruct (Z.ltb_spec i (k mod 29)) as [Hi|Hi].
    + destruct (IH (Z.succ i) r (proj1 Hr)) as (s' & E & Hd). exists s'. split; [done|].
      replace (Z.max 0 (Z.min (Z.of_nat (S n)) (k mod 29 - i)))
        with (1 + Z.max 0 (Z.min (Z.of_nat n) (k mod 29 - Z.succ i))) by lia.
      apply (divided_trans 1 _ s r); [lia|lia|done|done].
    + destruct (IH (Z.succ i) s Hs) as (s' & E & Hd). exists s'. split; [done|].
      replace (Z.max 0 (Z.min (Z.of_nat (S n)) (k mod 29 - i)))
        with (Z.max 0 (Z.min (Z.of_nat n) (k mod 29 - Z.succ i))) by lia. done.
Qed.

(** Both loops together divide by 2^k. *)
Lemma divide_all k s : normalized s -> 0 <= k <= 522 -> exists t w,
  divide_loop p (seqZ 0 18) k s = Some t /\ halve_loop p (seqZ 0 29) k t = Some w /\ divided k s w.
Proof.
  intros Hs Hk. destruct (divide_loop_val k 18 0 s Hs) as (t & E1 & D1).
  destruct (halve_loop_val k 29 0 t (proj1 D1)) as (w & E2 & D2). exists t, w. split; [done|]. split; [done|].
  unfold turns_done in *.
  replace k with (29 * Z.max 0 (Z.min (Z.of_nat 18) (k / 29 - 0)) + Z.max 0 (Z.min (Z.of_nat 29) (k mod 29 - 0))) by zlia.
  apply (divided_trans _ _ s t); [lia|lia|done|done].
Qed.

(** ** The inverse *)

Lemma cancel_pow X S k : 0 <= k -> (P | 2 ^ k * (X * S - 1)) -> (P | X * S - 1).
Proof. intros Hk Hd. apply Z.gauss in Hd; [done|]. by apply pow2_prime. Qed.

Lemma no_common_mod x : Z.gcd (bn_val x) P = 1 -> no_common P (bn_val x mod P).
Proof.
  intros Hg d H1 H2. rewrite <- Hg. destruct Hp as [_ HP]. apply Z.gcd_greatest; [|done].
  rewrite (Z.div_mod (bn_val x) P) by lia. apply Z.divide_add_r; [by apply Z.divide_mul_l|done].
Qed.

Lemma bn_inverse_val x : normalized x ->
  exists r, bn_inverse x p = Some r /\ normalized r /\
  (bn_val x mod P = 0 -> bn_val r = 0) /\
  (Z.gcd (bn_val x) P = 1 -> bn_val r < P /\ (bn_val x * bn_val r) mod P = 1).
Proof.
  intros [Hlx Hx]. destruct Hp as [Np HP]. unfold bn_inverse, bn_inverse_fast.
  destruct (bn_fast_mod_ok x p Hlx (norm_u32 _ Hx) Hp) as (N1 & V1 & R1).
  destruct (bn_mod_ok _ p N1 Np ltac:(lia)) as (y & -> & Ny & Vy). cbn [mbind option_bind].
  assert (Ey : bn_val y = bn_val x mod P) by congruence. clear N1 V1 R1 Vy.
  assert (Hy : 0 <= bn_val y < P) by (rewrite Ey; apply Z.mod_pos_bound; lia).
  pose proof (run_any p Hp y Ny) as Hany. pose proof (run_result p Hp Hodd y Ny (proj2 Hy)) as Hend.
  generalize dependent (inverse_run inverse_turns (inverse_start y p)). intros st Hany Hend. unfold inverse_finish.
  destruct Hany as (s & k & Es & Ek & Ns & Hk). rewrite Es, Ek.
  destruct (divide_all k s Ns Hk) as (t & w & -> & E2 & Nw & [c Hc] & Rw). cbn [mbind option_bind]. rewrite E2.
  cbn [mbind option_bind]. rewrite bn_is_zero_val, bn_cmov_norm by done. eexists. split; [done|].
  destruct (Z.eqb_spec (bn_val y) 0) as [Ez|Ez].
  - split; [done|]. split; [done|]. intros Hg. exfalso.
    pose proof (no_common_mod x Hg P (Z.divide_refl _)) as Hd. rewrite <- Ey, Ez in Hd.
    specialize (Hd (Z.divide_0_r _)). apply Z.divide_pos_le in Hd; lia.
  - split; [done|]. split; [lia|]. intros Hg.
    destruct Hend as (s' & k' & Es' & Ek' & _ & _ & Rs & [d Hd]);
      [rewrite Ey; by apply no_common_mod|done|].
    rewrite Es in Es'. rewrite Ek in Ek'. subst s' k'. split; [by apply Rw|].
    assert (Hone : (P | bn_val y * bn_val w - 1)).
    { apply (cancel_pow _ _ k); [lia|]. exists (bn_val y * c + d).
      replace (2 ^ k * (bn_val y * bn_val w - 1)) with
        (bn_val y * (2 ^ k * bn_val w - bn_val s) + (bn_val y * bn_val s - 2 ^ k)) by ring. rewrite Hc, Hd. ring. }
    rewrite <- (Zmult_mod_idemp_l (bn_val x)), <- Ey. destruct Hone as [e He].
    symmetry. apply (Z.mod_unique_pos _ _ e); lia.
Qed.

End Divide.


(** ** The properties *)

(** C40: The modular inverse: for an odd modulus of the size the library takes
    ([2^256 - 2^224] to [2^256]) and any normalized number the call returns (522 turns are enough for the
    gcd, and no assertion fails); a multiple of p gives 0 and a number prime to p
    gives its inverse, fully reduced. *)
Theorem bn_inverse_correct x p : prime_ok p -> Z.odd (bn_val p) = true -> normalized x ->
  exists r, bn_inverse x p = Some r /\ normalized r /\
  (bn_val x mod bn_val p = 0 -> bn_val r = 0) /\
  (Z.gcd (bn_val x) (bn_val p) = 1 -> bn_val r < bn_val p /\ (bn_val x * bn_val r) mod bn_val p = 1).
Proof. intros Hp Ho Hx. by apply bn_inverse_val. Qed.

Lemma bn_inverse_correct_witness :
  exists r, bn_inverse (cx (G secp256k1)) (order secp256k1) = Some r /\ normalized r /\
  (bn_val (cx (G secp256k1)) mod bn_val (order secp256k1) = 0 -> bn_val r = 0) /\
  (Z.gcd (bn_val (cx (G secp256k1))) (bn_val (order secp256k1)) = 1 -> bn_val r < bn_val (order secp256k1) /\
   (bn_val (cx (G secp256k1)) * bn_val r) mod bn_val (order secp256k1) = 1).
Proof.
  apply (bn_inverse_correct (cx (G secp256k1)) (order secp256k1));
    [apply secp256k1_order_ok|vm_compute; reflexivity|apply normalized_b_ok; vm_compute; reflexivity].
Defined.

Definition typed (o : option bignum256) : Prop := match o with Some r => normalized r | None => False end.

Lemma typed_some o : (exists r, o = Some r /\ normalized r) -> typed o.
Proof. by intros (r & -> & H). Qed.

(** The representation invariant: under the bounds their assertions state (on shift and bit
    positions, on multipliers and divisors, and numbers below twice the modulus), the
    operations listed return normalized numbers and no assertion fails. *)
Theorem bn_ops_normalized x y p (c : bool) i k n bytes : normalized x -> normalized y -> prime_ok p ->
  Z.odd (bn_val p) = true -> bn_val p < 2 ^ 256 -> bn_val x < 2 * bn_val p -> bn_val y < 2 * bn_val p ->
  0 <= i < 261 -> 0 <= k <= 8 -> 0 <= n < 2 ^ 32 -> n < limb p 0 -> n <= 2 ^ 32 - 2 ^ 29 ->
  Forall is_byte bytes -> length bytes = 32%nat ->
  Forall normalized
    [bn_zero; bn_one; bn_read_be bytes; bn_read_le bytes; bn_read_uint32 n; bn_read_uint64 n;
     bn_lshift x; bn_rshift x; bn_xor x y; bn_mult_half x p; bn_multiply x y p; bn_fast_mod x p;
     bn_power_mod x y p; bn_normalize x; bn_add x y; bn_addmod x y p; bn_addi x n;
     bn_subtractmod x y p; bn_subtract x y] /\
  Forall typed
    [bn_cmov (Z.b2z c) x y; bn_cnegate (Z.b2z c) x p; bn_setbit x i; bn_clearbit x i; bn_mult_k x k p;
     bn_mod x p; bn_sqrt x p; bn_divide_base x p; bn_inverse x p; bn_subi x n p] /\
  (forall d, 1 <= d < 61304 -> exists q r, bn_long_division x d = Some (q, r) /\ normalized q).
Proof.
  intros Hx Hy Hp Ho HP2 Rx Ry Hi Hk Hn Hn0 Hn9 Hb Hl. pose proof Hp as [Np HP]. pose proof Hx as [Lx Fx].
  pose proof (normalized_range x Hx) as Bx. pose proof (normalized_range y Hy) as By.
  assert (Hxy : bn_val x * bn_val y < 2 ^ 519) by nia.
  assert (Ox : base_ok x) by (split; [done|lia]).
  assert (Cx : Forall (fun a => a <= 2 ^ 32 - 8) x).
  { clear -Fx. induction Fx; constructor; limbs; [lia|done]. }
  split; [|split].
  - repeat (apply List.Forall_cons); [apply zero_norm|apply one_norm|by apply bn_read_be_val|by apply bn_read_le_val|
      by apply bn_read_uint32_val|apply bn_read_uint64_val; lia|by apply bn_lshift_val|by apply bn_rshift_val|
      by apply bn_xor_val|by apply bn_mult_half_val|by apply bn_multiply_val|
      apply bn_fast_mod_val; [done|by apply norm_u32|done]|by apply bn_power_mod_val|
      apply bn_normalize_val; [done|by apply norm_u32|lia|done]|by apply bn_add_val|by apply bn_addmod_val|
      apply bn_addi_val; [done|lia]|by apply bn_subtractmod_val|by apply bn_subtract_val|apply List.Forall_nil].
  - repeat (apply List.Forall_cons); try apply List.Forall_nil; apply typed_some.
    + rewrite bn_cmov_norm by done. eexists. split; [done|]. by destruct c.
    + destruct (bn_cnegate_val c x p Hx Np Rx ltac:(lia)) as (r & E & N & _). by exists r.
    + destruct (bn_setbit_val x i Hx Hi) as (r & E & N & _). by exists r.
    + destruct (bn_clearbit_val x i Hx Hi) as (r & E & N & _). by exists r.
    + destruct (bn_mult_k_val x k p Hx Hk Hp) as (r & E & N & _). by exists r.
    + destruct (bn_mod_val x p Hx Np) as (r & E & N & _). by exists r.
    + destruct (bn_sqrt_val p Hp x Ox HP2) as (r & E & N & _). by exists r.
    + destruct (bn_divide_base_val x p Hx Np Ho) as (r & m & E & N & _). by exists r.
    + destruct (bn_inverse_val p Hp Ho x Hx) as (r & E & N & _). by exists r.
    + destruct (bn_subi_val x n p Hx Np) as (r & E & N & _); [lia|]. by exists r.
  - intros d Hd. destruct (bn_long_division_val x d Hx Hd) as (q & r & E & N & _). by exists q, r.
Qed.

Lemma bn_ops_normalized_witness :
  exists q r, bn_long_division (cx (G secp256k1)) 58 = Some (q, r) /\ normalized q.
Proof.
  apply (bn_ops_normalized (cx (G secp256k1)) (cy (G secp256k1)) (prime secp256k1) true 7 3 5 (replicate 32 1));
    [apply normalized_b_ok; vm_compute; reflexivity|apply normalized_b_ok; vm_compute; reflexivity|
     apply secp256k1_prime_ok|vm_compute; reflexivity|vm_compute; reflexivity|vm_compute; reflexivity|
     vm_compute; reflexivity|lia|lia|lia|vm_compute; reflexivity|lia|apply Forall_replicate; unfold is_byte; lia|reflexivity|lia].
Defined.

End BignumInverse.
