(* ===== verification/BignumFormat.v ===== *)
(** * 256-bit numbers: decimal formatting (bn_format)

    bn_format writes an amount with a prefix, a suffix, a decimal point and
    separators of thousands into a buffer, from its end towards its start, and
    moves the text to the front.  Every character goes through a check of the
    space that is left; when there is none the buffer is cleared and 0 returned.
    The comment of the source gives a Python prototype, which is the
    specification here ([py_format]). *)

From stdpp Require Import base list numbers.
From Stdlib Require Import ZArith Lia.
From S2P Require Import Prelude Bits Bignum BignumSpec BignumBits BignumConv.
Local Open Scope fw_scope.

Module BignumFormat.
Import Bignum BignumSpec BignumBits BignumConv.

(** ** The code *)

Inductive stop := no_space | assert_failed.

(** The output buffer and the position of the last character written. *)
Definition cursor : Type := list Z * Z.
Definition F (A : Type) : Type := M stop cursor A.

(** BN_FORMAT_ADD_OUTPUT_CHAR *)
Definition add_char (c : Z) : F unit := fun '(output, position) =>
  let position := position - 1 in
  if (0 <=? position) && (position <? zlen output)
  then Ok tt (zupd output position c, position)
  else Halt no_space (zrep (zlen output) 0, position).

(** A null pointer is [None]; a string is its characters. *)
Definition add_string (s : option (list Z)) : F unit :=
  forM (rev (default [] s)) add_char.

Definition divmod10 (x : bignum256) : F (bignum256 * Z) :=
  match bn_divmod10 x with Some r => mret r | None => halt assert_failed end.

(** for (; exponent < 0; ++exponent), [n] turns to go *)
Fixpoint scale_down (n : nat) (temp : bignum256) : F bignum256 :=
  match n with
  | O => mret temp
  | S n =>
      if bn_is_zero temp =? 0 then
        '(temp, _) ← divmod10 temp;
        scale_down n temp
      else mret temp
  end.

(** for (; decimals > 0; --decimals) *)
Fixpoint fraction_loop (decimals : nat) (trailing : bool) (temp : bignum256) (fractional_part : bool)
  : F (bignum256 * bool) :=
  match decimals with
  | O => mret (temp, fractional_part)
  | S decimals =>
      '(temp, digit) ← divmod10 temp;
      if fractional_part || negb (digit =? 0) || trailing then
        _ ← add_char (48 + digit);
        fraction_loop decimals trailing temp true
      else if bn_is_zero temp =? 0 then fraction_loop decimals trailing temp fractional_part
      else mret (temp, fractional_part)
  end.

Definition add_separator (thousands : Z) (more : bool) (digits : Z) : F unit :=
  if negb (thousands =? 0) && more && (digits mod 3 =? 0) then add_char thousands else mret ().

(** for (; exponent > 0; --exponent) *)
Fixpoint zeros_loop (exponent : nat) (thousands digits : Z) : F Z :=
  match exponent with
  | O => mret digits
  | S exponent =>
      let digits := digits + 1 in
      _ ← add_char 48;
      _ ← add_separator thousands true digits;
      zeros_loop exponent thousands digits
  end.

(** The do-while loop over the integer digits; a number below 2^261 has at most
    79 of them, the fuel is 80. *)
Fixpoint digits_loop (fuel : nat) (thousands : Z) (temp : bignum256) (digits : Z) : F unit :=
  match fuel with
  | O => mret ()
  | S fuel =>
      let digits := digits + 1 in
      '(temp, digit) ← divmod10 temp;
      let is_zero := negb (bn_is_zero temp =? 0) in
      _ ← add_char (48 + digit);
      _ ← add_separator thousands (negb is_zero) digits;
      if is_zero then mret () else digits_loop fuel thousands temp digits
  end.

Definition format_body (amount : bignum256) (prefix suffix : option (list Z)) (decimals exponent : Z)
    (trailing : bool) (thousands : Z) : F unit :=
  _ ← add_char 0;
  _ ← add_string suffix;
  temp ← scale_down (Z.to_nat (- exponent)) amount;
  let exponent := if exponent <? 0 then 0 else exponent in
  let trailing_zeros := if decimals <? exponent then decimals else exponent in
  let decimals := decimals - trailing_zeros in
  let exponent := exponent - trailing_zeros in
  fractional_part ←
    (if trailing && negb (trailing_zeros =? 0)
     then _ ← forM (zrep trailing_zeros 48) add_char; mret true else mret false);
  '(temp, fractional_part) ← fraction_loop (Z.to_nat decimals) trailing temp fractional_part;
  _ ← (if fractional_part : bool then add_char 46 else mret ());
  digits ← (if bn_is_zero temp =? 0 then zeros_loop (Z.to_nat exponent) thousands 0 else mret 0);
  _ ← digits_loop 80 thousands temp digits;
  add_string prefix.

(** memmove(output, position, length) *)
Definition move_front (output : list Z) (position : Z) : list Z :=
  let length := zlen output - position in
  drop (Z.to_nat position) output ++ drop (Z.to_nat length) output.

(** The buffer and the returned length; [None] is a failed assertion. *)
Definition bn_format (amount : bignum256) (prefix suffix : option (list Z)) (decimals exponent : Z)
    (trailing : bool) (thousands : Z) (output : list Z) : option (list Z * Z) :=
  match format_body amount prefix suffix decimals exponent trailing thousands (output, zlen output) with
  | Ok _ (output, position) => Some (move_front output position, zlen output - position - 1)
  | Halt no_space (output, _) => Some (output, 0)
  | Halt assert_failed _ => None
  end.

Definition bn_format_uint64 (amount : Z) (prefix suffix : option (list Z)) (decimals exponent : Z)
    (trailing : bool) (thousands : Z) (output : list Z) : option (list Z * Z) :=
  bn_format (bn_read_uint64 amount) prefix suffix decimals exponent trailing thousands output.

Definition bn_format_amount (amount : Z) (prefix suffix : option (list Z)) (decimals : Z)
    (output : list Z) : option (list Z * Z) :=
  bn_format_uint64 amount prefix suffix decimals 0 false 44 output.

(** ** The Python prototype *)

(** Decimal digits as characters, least significant first. *)
Fixpoint lsd (fuel : nat) (n : Z) : list Z :=
  match fuel with
  | O => []
  | S fuel => (48 + n mod 10) :: if n / 10 =? 0 then [] else lsd fuel (n / 10)
  end.
Definition py_digits (n : Z) : list Z := lsd (S (Z.to_nat (Z.log2 n))) n.

(** Exactly [k] digits. *)
Fixpoint pad_digits (k : nat) (n : Z) : list Z :=
  match k with O => [] | S k => (48 + n mod 10) :: pad_digits k (n / 10) end.

(** A separator after every third digit that has digits above it; [c] digits
    have been printed before. *)
Fixpoint group (th c : Z) (ds : list Z) : list Z :=
  match ds with
  | [] => []
  | [d] => [d]
  | d :: ds => d :: (if negb (th =? 0) && ((c + 1) mod 3 =? 0) then [th] else []) ++ group th (c + 1) ds
  end.

Fixpoint lstrip (c : Z) (s : list Z) : list Z :=
  match s with [] => [] | d :: s' => if d =? c then lstrip c s' else s end.
Definition rstrip (c : Z) (s : list Z) : list Z := rev (lstrip c (rev s)).

Definition py_format (amount : Z) (prefix suffix : list Z) (decimals exponent : Z) (trailing : bool)
    (thousands : Z) : list Z :=
  let amount := if 0 <=? exponent then amount * 10 ^ exponent else amount / 10 ^ (- exponent) in
  let d := 10 ^ decimals in
  let integer_str := rev (group thousands 0 (py_digits (amount / d))) in
  let decimal_str :=
    if decimals =? 0 then []
    else
      let s := 46 :: rev (pad_digits (Z.to_nat decimals) (amount mod d)) in
      if trailing then s else rstrip 46 (rstrip 48 s) in
  prefix ++ integer_str ++ decimal_str ++ suffix.

(** ** Output as a list of characters *)

Abbreviation emit cs := (forM cs add_char).

(** [m] prints [cs] and returns [a]. *)
Definition yields {A} (m : F A) (cs : list Z) (a : A) : Prop :=
  forall st, m st = (emit cs ≫= fun _ => mret a) st.

Lemma emit_app a b st : emit (a ++ b) st = (emit a ≫= fun _ => emit b) st.
Proof.
  revert st. induction a as [|c a IH]; intros st; [done|]. cbn [app forM]. unfold mbind, M_bind in *.
  destruct (add_char c st); [apply IH|done].
Qed.

Lemma bind_assoc {A B C} (m : F A) (f : A -> F B) (g : B -> F C) st :
  ((m ≫= f) ≫= g) st = (m ≫= fun a => f a ≫= g) st.
Proof. unfold mbind, M_bind. by destruct (m st). Qed.

Lemma yields_emit cs : yields (emit cs) cs tt.
Proof. intros st. unfold mbind, M_bind. by destruct (emit cs st) as [[] ?|]. Qed.

Lemma yields_ret {A} (a : A) : yields (mret a) [] a.
Proof. done. Qed.

Lemma yields_bind {A B} (m : F A) (k : A -> F B) cs cs' a b :
  yields m cs a -> yields (k a) cs' b -> yields (m ≫= k) (cs ++ cs') b.
Proof.
  intros Hm Hk st. unfold yields, mbind, M_bind in *. rewrite Hm, emit_app. unfold mbind, M_bind.
  destruct (emit cs st); [cbn; apply Hk|done].
Qed.

Lemma yields_bind_l {A B} (m : F A) (k : A -> F B) cs a b :
  yields m [] a -> yields (k a) cs b -> yields (m ≫= k) cs b.
Proof. apply (yields_bind m k []). Qed.

Lemma yields_bind_r {A B} (m : F A) (k : A -> F B) cs a b :
  yields m cs a -> yields (k a) [] b -> yields (m ≫= k) cs b.
Proof. intros H1 H2. rewrite <- (app_nil_r cs). by apply (yields_bind m k cs [] a). Qed.

Lemma yields_char c : yields (add_char c) [c] tt.
Proof.
  intros st. unfold mbind, M_bind. cbn [forM]. unfold mbind, M_bind, mret, M_ret. by destruct (add_char c st) as [[] ?|].
Qed.

Lemma add_char_ok c pre b tl :
  add_char c ((pre ++ [b]) ++ tl, zlen (pre ++ [b])) = Ok tt (pre ++ c :: tl, zlen pre).
Proof.
  unfold add_char. pose proof (zlen_nonneg pre). pose proof (zlen_nonneg tl).
  replace (zlen (pre ++ [b]) - 1) with (zlen pre) by (rewrite zlen_app, zlen_cons, zlen_nil; lia).
  rewrite !zlen_app. change (zlen [b]) with 1. zif. rewrite <- app_assoc.
  replace (zlen pre) with (zlen pre + 0) at 1 by lia. by rewrite zupd_app_r by lia.
Qed.

Lemma add_char_none c tl : add_char c (tl, 0) = Halt no_space (zrep (zlen tl) 0, -1).
Proof. done. Qed.

Lemma emit_cons c cs st : emit (c :: cs) st = (add_char c ≫= fun _ => emit cs) st.
Proof. done. Qed.

Lemma emit_fits cs : forall pre tl, (length cs <= length pre)%nat ->
  emit cs (pre ++ tl, zlen pre) =
  Ok tt (take (length pre - length cs) pre ++ rev cs ++ tl, zlen pre - zlen cs).
Proof.
  induction cs as [|c cs IH]; intros pre tl Hl.
  - cbn [forM length]. rewrite Nat.sub_0_r, firstn_all, zlen_nil, Z.sub_0_r. done.
  - destruct (exists_last (l := pre)) as (pre' & b & ->); [intros ->; cbn in Hl; lia|].
    rewrite emit_cons. unfold mbind, M_bind. rewrite add_char_ok.
    rewrite length_app in *. cbn [length] in *. rewrite IH by lia. f_equal. f_equal.
    + rewrite take_app_le by lia. f_equal; [f_equal; lia|]. cbn [rev]. by rewrite <- app_assoc.
    + rewrite zlen_app, !zlen_cons, zlen_nil. lia.
Qed.

Lemma emit_full cs : forall pre tl, (length pre < length cs)%nat ->
  exists pos, emit cs (pre ++ tl, zlen pre) = Halt no_space (zrep (zlen (pre ++ tl)) 0, pos).
Proof.
  induction cs as [|c cs IH]; intros pre tl Hl; [cbn in Hl; lia|].
  rewrite emit_cons. unfold mbind, M_bind.
  destruct (decide (pre = [])) as [->|Hne]; [by eexists|].
  destruct (exists_last Hne) as (pre' & b & ->). rewrite length_app in Hl. cbn [length] in *.
  rewrite add_char_ok. destruct (IH pre' (c :: tl)) as [pos ->]; [lia|]. exists pos.
  by rewrite <- app_assoc, !zlen_app, !zlen_cons.
Qed.

(** ** What the loops print *)

Lemma yields_div x : normalized x -> exists q, yields (divmod10 x) [] (q, bn_val x mod 10) /\
  normalized q /\ bn_val q = bn_val x / 10.
Proof.
  intros Hx. destruct (bn_long_division_val x 10 Hx ltac:(lia)) as (q & r & E & Hq & Hv & ->).
  exists q. split; [|done]. unfold divmod10, bn_divmod10. rewrite E. apply yields_ret.
Qed.

Lemma is_zero_test x : normalized x -> (bn_is_zero x =? 0) = negb (bn_val x =? 0).
Proof. intros Hx. rewrite bn_is_zero_val by done. by destruct (bn_val x =? 0). Qed.

Lemma scale_down_yields n : forall x, normalized x -> exists y, yields (scale_down n x) [] y /\
  normalized y /\ bn_val y = bn_val x / 10 ^ Z.of_nat n.
Proof.
  induction n as [|n IH]; intros x Hx; cbn [scale_down].
  - exists x. rewrite Z.pow_0_r, Z.div_1_r. split; [apply yields_ret|done].
  - rewrite is_zero_test by done. destruct (Z.eqb_spec (bn_val x) 0) as [E|E]; cbn [negb].
    + exists x. rewrite E, Z.div_0_l by lia. split; [apply yields_ret|done].
    + destruct (yields_div x Hx) as (q & Hq & Nq & Vq). destruct (IH q Nq) as (y & Hy & Ny & Vy).
      exists y. split; [by eapply yields_bind_l|]. split; [done|].
      rewrite Vy, Vq, Z.div_div, Nat2Z.inj_succ, Z.pow_succ_r by lia. done.
Qed.

Lemma pad_zero k : pad_digits k 0 = replicate k 48.
Proof. induction k as [|k IH]; [done|]. cbn [pad_digits replicate]. by rewrite Zdiv_0_l, IH. Qed.

Lemma lstrip_zeros k s : lstrip 48 (replicate k 48 ++ s) = lstrip 48 s.
Proof. induction k; done. Qed.

Lemma fraction_all k : forall x fp trailing, normalized x ->
  fp || trailing = true -> exists y,
  yields (fraction_loop k trailing x fp) (pad_digits k (bn_val x)) (y, fp || (0 <? Z.of_nat k)) /\
  normalized y /\ bn_val y = bn_val x / 10 ^ Z.of_nat k.
Proof.
  induction k as [|k IH]; intros x fp trailing Hx Hft; cbn [fraction_loop pad_digits].
  - exists x. rewrite Z.pow_0_r, Z.div_1_r, orb_false_r. split; [apply yields_ret|done].
  - destruct (yields_div x Hx) as (q & Hq & Nq & Vq).
    destruct (IH q true trailing Nq eq_refl) as (y & Hy & Ny & Vy). exists y. split.
    + eapply yields_bind_l; [exact Hq|]. cbn beta iota.
      replace (fp || _ || trailing) with true by (destruct fp; [done|]; cbn in Hft; subst; by rewrite orb_true_r).
      rewrite Vq in Hy. replace (fp || _) with true by (zif; by rewrite orb_true_r).
      apply (yields_bind _ _ [_] _ tt); [apply yields_char|exact Hy].
    + split; [done|]. rewrite Vy, Vq, Z.div_div, Nat2Z.inj_succ, Z.pow_succ_r by lia. done.
Qed.

Lemma fraction_strip k : forall x, normalized x -> exists y,
  let cs := lstrip 48 (pad_digits k (bn_val x)) in
  yields (fraction_loop k false x false) cs (y, bool_decide (cs <> [])) /\
  normalized y /\ bn_val y = bn_val x / 10 ^ Z.of_nat k.
Proof.
  induction k as [|k IH]; intros x Hx; cbn [fraction_loop pad_digits].
  - exists x. rewrite Z.pow_0_r, Z.div_1_r. split; [apply yields_ret|done].
  - destruct (yields_div x Hx) as (q & Hq & Nq & Vq).
    assert (HT : bn_val x / 10 ^ Z.of_nat (S k) = bn_val q / 10 ^ Z.of_nat k)
      by (rewrite Vq, Z.div_div, Nat2Z.inj_succ, Z.pow_succ_r by lia; done).
    rewrite HT. clear HT. cbn [lstrip]. pose proof (Z.mod_pos_bound (bn_val x) 10 ltac:(lia)).
    destruct (Z.eqb_spec (bn_val x mod 10) 0) as [Ed|Ed].
    + rewrite (proj2 (Z.eqb_eq (48 + bn_val x mod 10) 48)) by lia. rewrite <- Vq.
      destruct (Z.eqb_spec (bn_val q) 0) as [Ez|Ez].
      * exists q. split; [|split; [done|rewrite Ez, Z.div_0_l; lia]].
        rewrite Ez, pad_zero, <- (app_nil_r (replicate k 48)), lstrip_zeros.
        eapply yields_bind_l; [exact Hq|]. cbn beta iota. rewrite Ed. cbn [Z.eqb negb orb].
        rewrite is_zero_test, Ez by done. apply yields_ret.
      * destruct (IH q Nq) as (y & Hy & Ny & Vy). exists y. split; [|done].
        eapply yields_bind_l; [exact Hq|]. cbn beta iota. rewrite Ed. cbn [Z.eqb negb orb].
        rewrite is_zero_test by done. rewrite (proj2 (Z.eqb_neq (bn_val q) 0)) by done. exact Hy.
    + rewrite (proj2 (Z.eqb_neq (48 + bn_val x mod 10) 48)) by lia. rewrite <- Vq.
      destruct (fraction_all k q true false Nq eq_refl) as (y & Hy & Ny & Vy).
      exists y. split; [|done]. rewrite bool_decide_true by done.
      eapply yields_bind_l; [exact Hq|]. cbn beta iota. rewrite (proj2 (Z.eqb_neq _ 0)) by done. cbn [negb orb].
      apply (yields_bind _ _ [_] _ tt); [apply yields_char|exact Hy].
Qed.

(** The separator after digit number [c + 1] when digits follow. *)
Definition sep (th c : Z) : list Z := if negb (th =? 0) && ((c + 1) mod 3 =? 0) then [th] else [].

Lemma group_more th c d e ds : group th c (d :: e :: ds) = d :: sep th c ++ group th (c + 1) (e :: ds).
Proof. done. Qed.

Lemma yields_sep th more c : yields (add_separator th more (c + 1)) (if more then sep th c else []) tt.
Proof.
  unfold add_separator, sep. destruct more; rewrite ?andb_true_r, ?andb_false_r; cbn [andb]; [|apply yields_ret].
  destruct (negb (th =? 0) && _); [apply yields_char|apply yields_ret].
Qed.

Fixpoint zero_groups (k : nat) (th c : Z) : list Z :=
  match k with O => [] | S k => 48 :: sep th c ++ zero_groups k th (c + 1) end.

Lemma group_zeros k th d ds : forall c,
  group th c (replicate k 48 ++ d :: ds) = zero_groups k th c ++ group th (c + Z.of_nat k) (d :: ds).
Proof.
  induction k as [|k IH]; intros c; [by rewrite Z.add_0_r|]. cbn [replicate app zero_groups].
  assert (E : group th c (48 :: replicate k 48 ++ d :: ds) =
              48 :: sep th c ++ group th (c + 1) (replicate k 48 ++ d :: ds)) by (by destruct k).
  rewrite E, IH, <- app_assoc. do 4 f_equal. lia.
Qed.

Lemma zeros_yields k th : forall c, yields (zeros_loop k th c) (zero_groups k th c) (c + Z.of_nat k).
Proof.
  induction k as [|k IH]; intros c; cbn [zeros_loop zero_groups]; [rewrite Z.add_0_r; apply yields_ret|].
  apply (yields_bind _ _ [48] _ tt); [apply yields_char|].
  eapply yields_bind; [apply (yields_sep th true)|]. replace (c + Z.of_nat (S k)) with (c + 1 + Z.of_nat k) by lia. apply IH.
Qed.

Lemma lsd_cons fuel n : exists d ds, lsd (S fuel) n = d :: ds.
Proof. by do 2 eexists. Qed.

Lemma digits_yields th fuel : forall x c, normalized x -> bn_val x < 10 ^ Z.of_nat fuel -> (0 < fuel)%nat ->
  yields (digits_loop fuel th x c) (group th c (lsd fuel (bn_val x))) tt.
Proof.
  induction fuel as [|fuel IH]; intros x c Hx Hb Hf; [lia|]. cbn [digits_loop lsd].
  pose proof (normalized_range x Hx) as Rx.
  destruct (yields_div x Hx) as (q & Hq & Nq & Vq). rewrite <- Vq.
  eapply yields_bind_l; [exact Hq|]. cbn beta iota. rewrite is_zero_test by done.
  destruct (Z.eqb_spec (bn_val q) 0) as [Ez|Ez]; cbn [negb].
  - apply (yields_bind _ _ [_] [] tt); [apply yields_char|]. apply (yields_bind_l _ _ _ tt); [apply (yields_sep th false)|].
    apply yields_ret.
  - assert (Hlt : bn_val q < 10 ^ Z.of_nat fuel).
    { rewrite Vq. apply Z.div_lt_upper_bound; [lia|]. rewrite Nat2Z.inj_succ, Z.pow_succ_r in Hb by lia. lia. }
    destruct fuel as [|fuel].
    { exfalso. rewrite Z.pow_0_r in Hlt. pose proof (normalized_range q Nq). lia. }
    specialize (IH q (c + 1) Nq Hlt ltac:(lia)). destruct (lsd_cons fuel (bn_val q)) as (d & ds & E). rewrite E in *.
    rewrite group_more. apply (yields_bind _ _ [_] _ tt); [apply yields_char|].
    apply (yields_bind _ _ (sep th c) _ tt); [apply (yields_sep th true)|exact IH].
Qed.

(** ** Digits *)

Lemma lsd_fuel f : forall g n, 0 <= n -> n < 10 ^ Z.of_nat f -> n < 10 ^ Z.of_nat g -> (0 < f)%nat -> (0 < g)%nat ->
  lsd f n = lsd g n.
Proof.
  induction f as [|f IH]; intros [|g] n Hn H1 H2 Hf Hg; try lia. cbn [lsd]. f_equal.
  destruct (Z.eqb_spec (n / 10) 0) as [E|E]; [done|].
  assert (0 < n / 10) by (assert (0 <= n / 10) by (apply Z.div_pos; lia); lia).
  rewrite Nat2Z.inj_succ, Z.pow_succ_r in H1, H2 by lia.
  assert (n / 10 < 10 ^ Z.of_nat f) by (apply Z.div_lt_upper_bound; lia).
  assert (n / 10 < 10 ^ Z.of_nat g) by (apply Z.div_lt_upper_bound; lia).
  apply IH; [lia|done|done| |]; [destruct f|destruct g]; cbn in *; lia.
Qed.

Lemma py_digits_eq f n : 0 <= n -> n < 10 ^ Z.of_nat f -> (0 < f)%nat -> py_digits n = lsd f n.
Proof.
  intros Hn Hf Hp. apply lsd_fuel; [done| |done|lia|done].
  rewrite Nat2Z.inj_succ, Z2Nat.id by apply Z.log2_nonneg.
  destruct (Z.eq_dec n 0) as [->|]; [cbn; lia|]. pose proof (Z.log2_spec n ltac:(lia)) as [_ H].
  apply (Z.lt_le_trans _ _ _ H). apply Z.pow_le_mono_l. lia.
Qed.

Lemma lsd_scale e f : forall B, 0 < B -> (0 < f)%nat -> lsd (e + f) (B * 10 ^ Z.of_nat e) = replicate e 48 ++ lsd f B.
Proof.
  induction e as [|e IH]; intros B HB Hf; [by rewrite Z.pow_0_r, Z.mul_1_r|].
  rewrite Nat2Z.inj_succ, Z.pow_succ_r by lia. cbn [Nat.add lsd replicate app].
  assert (0 < 10 ^ Z.of_nat e) by (apply Z.pow_pos_nonneg; lia).
  replace (B * (10 * 10 ^ Z.of_nat e)) with (B * 10 ^ Z.of_nat e * 10) by ring.
  rewrite Z.mod_mul, Z.div_mul by lia. rewrite IH by done.
  rewrite (proj2 (Z.eqb_neq (B * 10 ^ Z.of_nat e) 0)) by nia. done.
Qed.

Lemma pad_scale t k A : pad_digits (t + k) (A * 10 ^ Z.of_nat t) = replicate t 48 ++ pad_digits k A.
Proof.
  revert A. induction t as [|t IH]; intros A; [by rewrite Z.pow_0_r, Z.mul_1_r|].
  rewrite Nat2Z.inj_succ, Z.pow_succ_r by lia. cbn [Nat.add pad_digits replicate app].
  replace (A * (10 * 10 ^ Z.of_nat t)) with (A * 10 ^ Z.of_nat t * 10) by ring.
  rewrite Z.mod_mul, Z.div_mul by lia. by rewrite IH.
Qed.

Lemma pad_mod k : forall n, pad_digits k (n mod 10 ^ Z.of_nat k) = pad_digits k n.
Proof.
  induction k as [|k IH]; intros n; [done|]. cbn [pad_digits].
  rewrite Nat2Z.inj_succ, Z.pow_succ_r by lia. assert (0 < 10 ^ Z.of_nat k) by (apply Z.pow_pos_nonneg; lia).
  rewrite Z.rem_mul_r by lia. pose proof (Z.mod_pos_bound n 10 ltac:(lia)) as Hr.
  rewrite <- (IH (n / 10)). generalize ((n / 10) mod 10 ^ Z.of_nat k). intros m.
  f_equal; [|f_equal]; zlia.
Qed.

(** The integer part, printed as zeros and the digits of what is left. *)
Lemma integer_yields x e th : normalized x -> 0 <= e ->
  yields (digits ← (if bn_is_zero x =? 0 then zeros_loop (Z.to_nat e) th 0 else mret 0);
          digits_loop 80 th x digits)
    (group th 0 (py_digits (bn_val x * 10 ^ e))) tt.
Proof.
  intros Hx He. rewrite is_zero_test by done. pose proof (normalized_range x Hx) as Rx.
  assert (Hf : bn_val x < 10 ^ Z.of_nat 80) by (apply (Z.lt_le_trans _ (2 ^ 261)); [lia|vm_compute; discriminate]).
  destruct (Z.eqb_spec (bn_val x) 0) as [Ez|Ez]; cbn [negb].
  - eapply yields_bind_l; [apply yields_ret|]. rewrite Ez, Z.mul_0_l, (py_digits_eq 80) by (rewrite ?Ez in *; lia).
    rewrite <- Ez. apply digits_yields; [done|done|lia].
  - rewrite <- (Z2Nat.id e) at 2 by done. set (k := Z.to_nat e).
    assert (Hk : 0 < 10 ^ Z.of_nat k) by (apply Z.pow_pos_nonneg; lia).
    rewrite (py_digits_eq (k + 80)); [|nia| |lia].
    2: { rewrite Nat2Z.inj_add, Z.pow_add_r by lia. rewrite Z.mul_comm. apply Z.mul_lt_mono_pos_l; lia. }
    rewrite lsd_scale by lia. destruct (lsd_cons 79 (bn_val x)) as (d & ds & E). rewrite E, group_zeros, <- E.
    eapply yields_bind; [apply zeros_yields|]. apply digits_yields; [done|done|lia].
Qed.

(** The fraction, last digit first, as the code prints it. *)
Definition fraction_chars (trailing : bool) (tz k : nat) (A : Z) : list Z :=
  if trailing then (replicate tz 48 ++ pad_digits k A) ++ if bool_decide (tz + k = 0)%nat then [] else [46]
  else let cs := lstrip 48 (pad_digits k A) in cs ++ if bool_decide (cs <> []) then [46] else [].

Lemma lstrip_app s t : lstrip 48 (s ++ t) = if bool_decide (lstrip 48 s = []) then lstrip 48 t else lstrip 48 s ++ t.
Proof.
  induction s as [|d s IH]; [done|]. cbn [app lstrip]. destruct (Z.eqb_spec d 48); [apply IH|].
  by rewrite bool_decide_false.
Qed.

Lemma pad_chars k : forall n, Forall (fun d => 48 <= d <= 57) (pad_digits k n).
Proof. induction k; intros n; constructor; [zlia|auto]. Qed.

Lemma lstrip_head s d t : Forall (fun d => 48 <= d <= 57) s -> lstrip 48 s = d :: t -> 48 <= d <= 57.
Proof.
  induction 1 as [|c s Hc Hs IH]; [done|]. cbn [lstrip]. destruct (c =? 48); [done|]. by intros [= -> ->].
Qed.

Lemma strip_fraction tz k A :
  rev (rstrip 46 (rstrip 48 (46 :: rev (replicate tz 48 ++ pad_digits k A)))) =
  let cs := lstrip 48 (pad_digits k A) in cs ++ if bool_decide (cs <> []) then [46] else [].
Proof.
  unfold rstrip. cbn [rev]. rewrite !rev_involutive, <- app_assoc, lstrip_zeros, lstrip_app. cbn zeta.
  destruct (lstrip 48 (pad_digits k A)) as [|d t] eqn:E; [done|].
  apply lstrip_head in E; [|apply pad_chars]. rewrite bool_decide_false, bool_decide_true by done.
  cbn [app lstrip]. by rewrite (proj2 (Z.eqb_neq d 46)) by lia.
Qed.

Lemma pad_amount D E (tz k : nat) A : 0 <= E -> D = Z.of_nat tz + Z.of_nat k -> Z.of_nat tz = Z.min D E ->
  pad_digits (Z.to_nat D) ((A * 10 ^ E) mod 10 ^ D) = replicate tz 48 ++ pad_digits k A.
Proof.
  intros HE HD Htz. replace (10 ^ D) with (10 ^ Z.of_nat (Z.to_nat D)) by (f_equal; lia). rewrite pad_mod.
  replace (Z.to_nat D) with (tz + k)%nat by lia.
  replace (A * 10 ^ E) with (A * 10 ^ (E - Z.of_nat tz) * 10 ^ Z.of_nat tz).
  2: { rewrite <- Z.mul_assoc, <- Z.pow_add_r by lia. do 2 f_equal. lia. }
  rewrite pad_scale. f_equal. destruct k; [done|]. replace (E - Z.of_nat tz) with 0 by lia.
  by rewrite Z.pow_0_r, Z.mul_1_r.
Qed.

(** The fraction of the prototype is what the code prints. *)
Lemma fraction_str (trailing : bool) D E (tz k : nat) A : 0 <= E -> D = Z.of_nat tz + Z.of_nat k -> Z.of_nat tz = Z.min D E ->
  rev (if D =? 0 then [] else
       let s := 46 :: rev (pad_digits (Z.to_nat D) ((A * 10 ^ E) mod 10 ^ D)) in
       if trailing then s else rstrip 46 (rstrip 48 s)) = fraction_chars trailing tz k A.
Proof.
  intros HE HD Htz. cbn zeta. rewrite (pad_amount D E tz k A HE HD Htz). unfold fraction_chars.
  destruct (Z.eqb_spec D 0) as [E0|E0].
  - assert (tz = O) as -> by lia. assert (k = O) as -> by lia. by destruct trailing.
  - destruct trailing; [|apply strip_fraction].
    rewrite bool_decide_false by lia. cbn [rev]. by rewrite rev_involutive.
Qed.

Lemma replicate_zrep (n : nat) : zrep (Z.of_nat n) 48 = replicate n 48.
Proof. unfold zrep. by rewrite Nat2Z.id. Qed.

(** The fraction loop with its decimal point, followed by [next]. *)
Lemma fraction_yields {B} (trailing : bool) tz (k : nat) x (next : bignum256 -> F B) cs b : 0 <= tz -> normalized x ->
  (forall y, normalized y -> bn_val y = bn_val x / 10 ^ Z.of_nat k -> yields (next y) cs b) ->
  yields
    (fractional_part ← (if trailing && negb (tz =? 0)
       then _ ← forM (zrep tz 48) add_char; mret true else mret false);
     '(temp, fractional_part) ← fraction_loop k trailing x fractional_part;
     _ ← (if fractional_part : bool then add_char 46 else mret ());
     next temp)
    (fraction_chars trailing (Z.to_nat tz) k (bn_val x) ++ cs) b.
Proof.
  intros Htz. assert (exists n, tz = Z.of_nat n) as [n ->] by (exists (Z.to_nat tz); lia). clear Htz.
  rewrite Nat2Z.id. rename n into tz. intros Hx Hnext. unfold fraction_chars. destruct trailing; cbn [andb].
  - rewrite replicate_zrep, <- !app_assoc.
    destruct (fraction_all k x (negb (Z.of_nat tz =? 0)) true Hx (orb_true_r _)) as (y & Hy & Ny & Vy).
    apply (yields_bind _ _ _ _ (negb (Z.of_nat tz =? 0))).
    + destruct tz as [|tz]; [apply yields_ret|]. zif. eapply yields_bind_r; [apply yields_emit|apply yields_ret].
    + apply (yields_bind _ _ _ _ _ _ Hy). cbn beta iota.
      apply (yields_bind _ _ _ _ tt); [|by apply Hnext].
      destruct tz as [|tz], k as [|k]; cbn [Nat.add]; zif; try (rewrite bool_decide_false by lia; apply yields_char).
      apply yields_ret.
  - eapply yields_bind_l; [apply yields_ret|]. rewrite <- app_assoc.
    destruct (fraction_strip k x Hx) as (y & Hy & Ny & Vy).
    apply (yields_bind _ _ _ _ _ _ Hy). cbn beta iota. apply (yields_bind _ _ _ _ tt); [|by apply Hnext].
    destruct (bool_decide _); [apply yields_char|apply yields_ret].
Qed.

Lemma yields_string s : yields (add_string s) (rev (default [] s)) tt.
Proof. apply yields_emit. Qed.

Lemma yields_ext {A} (m : F A) cs cs' a : cs = cs' -> yields m cs a -> yields m cs' a.
Proof. by intros ->. Qed.

(** The body prints the prototype's string, last character first, after the
    terminating zero. *)
Lemma body_yields amount prefix suffix decimals exponent trailing thousands :
  normalized amount -> 0 <= decimals ->
  yields (format_body amount prefix suffix decimals exponent trailing thousands)
    (rev (py_format (bn_val amount) (default [] prefix) (default [] suffix) decimals exponent trailing thousands ++ [0])) tt.
Proof.
  intros Ha Hd. unfold format_body.
  destruct (scale_down_yields (Z.to_nat (- exponent)) amount Ha) as (x & Hx & Nx & Vx).
  set (E := if exponent <? 0 then 0 else exponent).
  set (tz := if decimals <? E then decimals else E).
  assert (HE : 0 <= E) by (unfold E; destruct (Z.ltb_spec exponent 0); lia).
  assert (Htz : tz = Z.min decimals E) by (unfold tz; destruct (Z.ltb_spec decimals E); lia).
  assert (Eamt : (if 0 <=? exponent then bn_val amount * 10 ^ exponent else bn_val amount / 10 ^ (- exponent))
                 = bn_val x * 10 ^ E).
  { rewrite Vx. unfold E. destruct (Z.leb_spec 0 exponent), (Z.ltb_spec exponent 0); try lia.
    - replace (Z.to_nat (- exponent)) with 0%nat by lia. by rewrite Z.pow_0_r, Z.div_1_r.
    - by rewrite Z2Nat.id, Z.pow_0_r, Z.mul_1_r by lia. }
  unfold py_format. rewrite Eamt. clearbody E. set (ds := if decimals =? 0 then [] else _).
  rewrite !rev_app_distr, rev_involutive. change (rev [0]) with [0].
  assert (Hds : rev ds = fraction_chars trailing (Z.to_nat tz) (Z.to_nat (decimals - tz)) (bn_val x))
    by (apply (fraction_str trailing decimals E); lia).
  rewrite Hds, <- !app_assoc.
  apply (yields_bind _ _ [0] _ tt); [apply yields_char|].
  apply (yields_bind _ _ _ _ tt); [apply yields_string|].
  apply (yields_bind_l _ _ _ _ _ Hx). cbn zeta beta.
  apply (fraction_yields trailing tz (Z.to_nat (decimals - tz)) x
    (fun temp => digits ← (if bn_is_zero temp =? 0 then zeros_loop (Z.to_nat (E - tz)) thousands 0 else mret 0);
                 _ ← digits_loop 80 thousands temp digits; add_string prefix)); [lia|done|].
  intros y Ny Vy.
  assert (Ev : bn_val x * 10 ^ E / 10 ^ decimals = bn_val y * 10 ^ (E - tz)).
  { rewrite Vy, Z2Nat.id by lia. destruct (Z.le_gt_cases E decimals).
    - replace tz with E by lia. rewrite Z.sub_diag, Z.pow_0_r, Z.mul_1_r.
      replace (10 ^ decimals) with (10 ^ E * 10 ^ (decimals - E)) by (rewrite <- Z.pow_add_r by lia; f_equal; lia).
      rewrite <- Z.div_div, Z.div_mul by lia. done.
    - replace tz with decimals by lia. rewrite Z.sub_diag, Z.pow_0_r, Z.div_1_r.
      replace (10 ^ E) with (10 ^ (E - decimals) * 10 ^ decimals) by (rewrite <- Z.pow_add_r by lia; f_equal; lia).
      by rewrite Z.mul_assoc, Z.div_mul by lia. }
  rewrite Ev. intros st.
  pose proof (yields_bind _ (fun _ => add_string prefix) _ _ _ _ (integer_yields y (E - tz) thousands Ny ltac:(lia)) (yields_string prefix) st) as H.
  rewrite <- H. symmetry. apply bind_assoc.
Qed.

(** ** The formatted buffer *)

Lemma bn_format_val amount prefix suffix decimals exponent trailing thousands output :
  normalized amount -> 0 <= decimals ->
  let s := py_format (bn_val amount) (default [] prefix) (default [] suffix) decimals exponent trailing thousands in
  exists buf n, bn_format amount prefix suffix decimals exponent trailing thousands output = Some (buf, n) /\
  length buf = length output /\
  if zlen s <? zlen output then take (S (length s)) buf = s ++ [0] /\ n = zlen s
  else buf = zrep (zlen output) 0 /\ n = 0.
Proof.
  intros Ha Hd s. unfold bn_format. rewrite body_yields by done. fold s.
  unfold mbind, M_bind.
  assert (Hlen : length (rev (s ++ [0])) = S (length s)) by (rewrite length_rev, length_app; cbn; lia).
  destruct (Z.ltb_spec (zlen s) (zlen output)) as [Hfit|Hfull].
  - pose proof (emit_fits (rev (s ++ [0])) output [] ltac:(unfold zlen in *; lia)) as HE.
    rewrite !app_nil_r in HE. rewrite HE, rev_involutive, Hlen. cbn.
    assert (Hz : zlen (rev (s ++ [0])) = 1 + zlen s) by (unfold zlen; rewrite Hlen; lia).
    rewrite Hz. set (pre := take _ output).
    assert (Hpre : length pre = (length output - S (length s))%nat) by (unfold pre; rewrite length_take; lia).
    assert (Hout : zlen (pre ++ s ++ [0]) = zlen output)
      by (unfold zlen in *; rewrite !length_app, Hpre; cbn [length]; lia).
    do 2 eexists. split; [reflexivity|]. unfold move_front. rewrite Hout.
    replace (Z.to_nat (zlen output - (1 + zlen s))) with (length pre) by (unfold zlen in *; lia).
    rewrite drop_app_length. split.
    + rewrite !length_app, length_drop, !length_app, Hpre. unfold zlen in *. cbn [length]. lia.
    + split; [|lia]. rewrite take_app_le by (rewrite length_app; cbn; lia).
      rewrite <- (firstn_all (s ++ [0])) at 2. f_equal. rewrite length_app. cbn. lia.
  - destruct (emit_full (rev (s ++ [0])) output []) as [pos HE]; [unfold zlen in *; lia|].
    rewrite !app_nil_r in HE. rewrite HE. do 2 eexists. split; [reflexivity|]. split; [|done].
    unfold zrep, zlen. rewrite length_replicate. lia.
Qed.


(** ** The property *)

(** Bn_format does what the Python prototype in its comment does: for every
    amount, decimals, exponent, separator and every buffer, either the buffer
    starts with the prototype's string and a terminating zero and the length is
    returned, or the string does not fit, the buffer is cleared and 0 returned.
    No character is ever written outside the buffer. *)
Theorem bn_format_correct amount prefix suffix decimals exponent trailing thousands output :
  normalized amount -> 0 <= decimals ->
  let s := py_format (bn_val amount) (default [] prefix) (default [] suffix) decimals exponent trailing thousands in
  exists buf n, bn_format amount prefix suffix decimals exponent trailing thousands output = Some (buf, n) /\
  length buf = length output /\
  if zlen s <? zlen output then take (S (length s)) buf = s ++ [0] /\ n = zlen s
  else buf = zrep (zlen output) 0 /\ n = 0.
Proof. apply bn_format_val. Qed.

Lemma bn_format_correct_witness :
  let amount := bn_read_uint64 1234567890 in
  let s := py_format (bn_val amount) [36] [32; 75] 3 0 false 44 in
  exists buf n, bn_format amount (Some [36]) (Some [32; 75]) 3 0 false 44 (replicate 30 7) = Some (buf, n) /\
  length buf = 30%nat /\
  if zlen s <? 30 then take (S (length s)) buf = s ++ [0] /\ n = zlen s else buf = zrep 30 0 /\ n = 0.
Proof.
  apply (bn_format_correct (bn_read_uint64 1234567890) (Some [36]) (Some [32; 75]) 3 0 false 44 (replicate 30 7));
    [apply normalized_b_ok; vm_compute; reflexivity|lia].
Defined.

End BignumFormat.
