(* ===== verification/Drbg.v ===== *)
(** * Deterministic random numbers (crypto/hmac_drbg.c, crypto/rfc6979.c)

    HMAC_DRBG with SHA-256.  The code keeps the states of SHA-256 after the inner
    and the outer padded key, and V as a block that is already padded, so that an
    HMAC costs two compressions; the specification below is the one of NIST
    SP 800-90A over HMAC. *)

From stdpp Require Import base list numbers.
From Stdlib Require Import ZArith Lia.
From S2P Require Import Prelude Bits Hash HashSpec Sha2 Sha2Spec Hmac HmacSpec Bignum Curves.
Local Open Scope fw_scope.

Module Drbg.
Import Hash HashSpec Sha2 Sha2Spec Hmac HmacSpec Bignum Curves.

(** ** The code *)

Definition SHA256_BLOCK_LENGTH : Z := 64.
Definition SHA256_DIGEST_LENGTH : Z := 32.

Record HMAC_DRBG_CTX := DrbgCtx { d_odig : list Z; d_idig : list Z; d_v : list Z }.

(** The first hash operation: words of HMAC's inner digest, and [v] afterwards. *)
Definition first_hash (ctx : HMAC_DRBG_CTX) (domain : Z) (data1 data2 : list Z) : list Z * list Z :=
  if zlen data1 + zlen data2 =? 0 then
    let v := zupd (d_v ctx) 8 0x00800000 in
    let v := zupd v 15 ((SHA256_BLOCK_LENGTH + SHA256_DIGEST_LENGTH + 1) * 8) in
    let h := sha256_Transform (d_idig ctx) v in
    let v := zupd v 8 0x80000000 in
    let v := zupd v 15 ((SHA256_BLOCK_LENGTH + SHA256_DIGEST_LENGTH) * 8) in
    (h, v)
  else
    let buffer := bytes_of 4 (map REVERSE32 (take 8 (d_v ctx))) ++ replicate 32 0 in
    let buffer := zupd buffer SHA256_DIGEST_LENGTH domain in
    let sha_ctx := HashCtx (d_idig ctx) ((SHA256_BLOCK_LENGTH + SHA256_DIGEST_LENGTH + 1) * 8) buffer in
    let sha_ctx := sha256_Update sha_ctx data1 in
    let sha_ctx := sha256_Update sha_ctx data2 in
    (map REVERSE32 (words_of 4 8 (sha256_Final sha_ctx)), d_v ctx).

Definition update_k (ctx : HMAC_DRBG_CTX) (domain : Z) (data1 data2 : list Z) : HMAC_DRBG_CTX :=
  let '(h8, v) := first_hash ctx domain data1 data2 in
  let h := set_words (replicate 16 0) h8 in
  let h := zupd h 8 0x80000000 in
  let h := zupd h 15 ((SHA256_BLOCK_LENGTH + SHA256_DIGEST_LENGTH) * 8) in
  let h := set_words h (sha256_Transform (d_odig ctx) h) in
  let h := zupd h 8 0 in
  let h := zupd h 15 0 in
  let h := map (fun x => x .^ 0x36363636) h in
  let idig := sha256_Transform sha256_initial_hash_value h in
  let h := map (fun x => x .^ 0x36363636 .^ 0x5c5c5c5c) h in
  let odig := sha256_Transform sha256_initial_hash_value h in
  DrbgCtx odig idig v.

Definition update_v (ctx : HMAC_DRBG_CTX) : HMAC_DRBG_CTX :=
  let v := set_words (d_v ctx) (sha256_Transform (d_idig ctx) (d_v ctx)) in
  let v := set_words v (sha256_Transform (d_odig ctx) v) in
  DrbgCtx (d_odig ctx) (d_idig ctx) v.

Definition hmac_drbg_reseed (ctx : HMAC_DRBG_CTX) (entropy addin : list Z) : HMAC_DRBG_CTX :=
  let ctx := update_k ctx 0 entropy addin in
  let ctx := update_v ctx in
  if zlen entropy =? 0 then ctx
  else
    let ctx := update_k ctx 1 entropy addin in
    update_v ctx.

Definition hmac_drbg_init (entropy nonce : list Z) : HMAC_DRBG_CTX :=
  let idig := sha256_Transform sha256_initial_hash_value (words_of 4 16 (replicate 64 0x36)) in
  let odig := sha256_Transform sha256_initial_hash_value (words_of 4 16 (replicate 64 0x5c)) in
  let v := words_of 4 8 (replicate 32 1) ++ replicate 8 0 in
  let v := zupd v 8 0x80000000 in
  let v := zupd v 15 ((SHA256_BLOCK_LENGTH + SHA256_DIGEST_LENGTH) * 8) in
  hmac_drbg_reseed (DrbgCtx odig idig v) entropy nonce.

(** The bytes of the words of [v], most significant first. *)
Definition v_bytes (v : list Z) : list Z :=
  concat (map (fun r => map (fun k => Z.shiftr r k .& 0xff) [24; 16; 8; 0]) (take 8 v)).

(** while (i < len): the bytes that are left to write; each turn writes up to 32. *)
Fixpoint generate_loop (fuel : nat) (ctx : HMAC_DRBG_CTX) (left : Z) : list Z * HMAC_DRBG_CTX :=
  match fuel with
  | O => ([], ctx)
  | S fuel =>
      if 0 <? left then
        let ctx := update_v ctx in
        let out := take (Z.to_nat left) (v_bytes (d_v ctx)) in
        let '(rest, ctx) := generate_loop fuel ctx (left - zlen out) in
        (out ++ rest, ctx)
      else ([], ctx)
  end.

(** [len] turns are more than enough. *)
Definition hmac_drbg_generate (ctx : HMAC_DRBG_CTX) (len : Z) : list Z * HMAC_DRBG_CTX :=
  let '(buf, ctx) := generate_loop (Z.to_nat len) ctx len in
  let ctx := update_k ctx 0 [] [] in
  (buf, update_v ctx).

(** *** rfc6979.c *)

Definition init_rfc6979 (priv_key hash : list Z) (curve : option ecdsa_curve) : option HMAC_DRBG_CTX :=
  match curve with
  | Some curve =>
      let hash_bn := bn_read_be hash in
      if 256 <=? bn_bitcount (order curve) then
        hash_bn ← bn_mod hash_bn (order curve);
        let hash_reduced := bn_write_be hash_bn (replicate 32 0) in
        Some (hmac_drbg_init (take 32 priv_key) hash_reduced)
      else None
  | None => Some (hmac_drbg_init (take 32 priv_key) (take 32 hash))
  end.

Definition generate_rfc6979 (state : HMAC_DRBG_CTX) : list Z * HMAC_DRBG_CTX := hmac_drbg_generate state 32.

Definition generate_k_rfc6979 (state : HMAC_DRBG_CTX) : bignum256 * HMAC_DRBG_CTX :=
  let '(buf, state) := generate_rfc6979 state in
  (bn_read_be buf, state).

End Drbg.
