(* ===== verification/DrbgSpec.v ===== *)
(** * HMAC_DRBG and RFC 6979: the properties

    The generator of NIST SP 800-90A (10.1.2) over the HMAC of RFC 2104, and the
    relation between its state and the context of the code, which holds the two
    digests of the padded key instead of the key. *)

From stdpp Require Import base list numbers.
From Stdlib Require Import ZArith Lia.
From S2P Require Import Prelude Bits Hash HashSpec Sha2 Sha2Spec Hmac HmacSpec Bignum Curves BignumSpec BignumBits BignumConv Drbg.
Local Open Scope fw_scope.

Module DrbgSpec.
Import Hash HashSpec Sha2 Sha2Spec Hmac HmacSpec Bignum Curves BignumSpec BignumBits BignumConv Drbg.

(** ** The specification *)

(** Key and V. *)
Definition drbg_state : Type := list Z * list Z.

Section Standard.
Variable prf : list Z -> list Z -> list Z.

Definition drbg_update (data : list Z) (st : drbg_state) : drbg_state :=
  let '(K, V) := st in
  let K := prf K (V ++ 0x00 :: data) in
  let V := prf K V in
  match data with
  | [] => (K, V)
  | _ => let K := prf K (V ++ 0x01 :: data) in (K, prf K V)
  end.

Definition drbg_instantiate (entropy nonce : list Z) : drbg_state :=
  drbg_update (entropy ++ nonce) (replicate 32 0x00, replicate 32 0x01).

(** [n] blocks of output. *)
Fixpoint drbg_blocks (n : nat) (st : drbg_state) : list Z * drbg_state :=
  match n with
  | O => ([], st)
  | S n =>
      let '(K, V) := st in
      let V := prf K V in
      let '(out, st) := drbg_blocks n (K, V) in
      (V ++ out, st)
  end.

Definition drbg_generate (len : nat) (st : drbg_state) : list Z * drbg_state :=
  let '(out, st) := drbg_blocks ((len + 31) / 32) st in
  (take len out, drbg_update [] st).

End Standard.

(** HMAC with SHA-256. *)
Definition hmac256 : list Z -> list Z -> list Z := rfc2104 fips_sha256 64.

(** ** The state of the code *)

Local Abbreviation A := sha256_alg.
Local Abbreviation hm := (rfc_hmac sha256_alg).
Local Abbreviation tail8 := [0x80000000; 0; 0; 0; 0; 0; 0; 768].

Definition str32 (b : list Z) : Prop := length b = 32%nat /\ Forall is_byte b.

Record drbg_rep (ctx : HMAC_DRBG_CTX) (st : drbg_state) : Prop := {
  dr_odig : d_odig ctx = absorb A 1 (ha_init A) (xor_with 0x5c (rfc_key A (fst st)));
  dr_idig : d_idig ctx = absorb A 1 (ha_init A) (xor_with 0x36 (rfc_key A (fst st)));
  dr_v : d_v ctx = be_words 4 8 (snd st) ++ tail8;
  dr_key : str32 (fst st);
  dr_vb : str32 (snd st) }.

Lemma update_ext f f' data st : (forall K m, f K m = f' K m) -> drbg_update f data st = drbg_update f' data st.
Proof. intros E. destruct st as [K V]. unfold drbg_update. rewrite !E. by destruct data; rewrite ?E. Qed.

Lemma blocks_ext f f' n : (forall K m, f K m = f' K m) -> forall st, drbg_blocks f n st = drbg_blocks f' n st.
Proof. intros E. induction n as [|n IH]; intros [K V]; [done|]. cbn [drbg_blocks]. by rewrite E, IH. Qed.

Lemma generate_ext f f' len st : (forall K m, f K m = f' K m) -> drbg_generate f len st = drbg_generate f' len st.
Proof. intros E. unfold drbg_generate. rewrite (blocks_ext f f' _ E). destruct (drbg_blocks f' _ st). by rewrite (update_ext f f' _ _ E). Qed.

Lemma hmac256_eq K m : hmac256 K m = hm K m.
Proof. symmetry. apply rfc_hmac_sha256. Qed.

Lemma hm_str K m : str32 (hm K m).
Proof. apply (rfc_hmac_ok A (P := sha256_params) K m). Qed.

(** The two halves of an HMAC in one compression each. *)
Lemma raw256 c K u : Forall is_byte K -> length u = 32%nat ->
  sha256_Transform (absorb A 1 (ha_init A) (xor_with c (rfc_key A K))) (be_words 4 8 u ++ tail8)
  = be_words 4 8 (digest_of A (xor_with c (rfc_key A K) ++ u)).
Proof. intros HK Hu. exact (raw_hash A (P := sha256_params) K HK c u Hu). Qed.

Lemma transform_len st ws : length (sha256_Transform st ws) = 8%nat.
Proof. exact (hp_transform (HmacParams := sha256_params) st ws). Qed.

Lemma digest_str m : str32 (digest_of A m).
Proof. split; [exact (length_digest_of A (P := sha256_params) m)|exact (digest_bytes A m)]. Qed.

Lemma set_tail ws st : length ws = 8%nat -> length st = 8%nat -> set_words (ws ++ tail8) st = st ++ tail8.
Proof.
  intros Hw Hs. unfold set_words, memcpy. rewrite take_0, Nat.add_0_l, Hs, <- Hw, drop_app_length. apply app_nil_l.
Qed.

Lemma hm_eq K m : hm K m = digest_of A (xor_with 0x5c (rfc_key A K) ++ digest_of A (xor_with 0x36 (rfc_key A K) ++ m)).
Proof. reflexivity. Qed.

Lemma update_v_rep ctx K V : drbg_rep ctx (K, V) -> drbg_rep (update_v ctx) (K, hm K V).
Proof.
  intros [Ho Hi Hv [LK BK] [LV BV]]. cbn [fst snd] in *. unfold update_v.
  split; cbn [fst snd d_odig d_idig d_v]; [exact Ho|exact Hi| |exact (conj LK BK)|apply hm_str].
  rewrite Hv, Ho, Hi, set_tail by (apply length_be_words || apply transform_len).
  rewrite raw256, set_tail by (exact BK || exact LV || apply length_be_words || apply transform_len).
  rewrite raw256 by (exact BK || apply digest_str). rewrite hm_eq. reflexivity.
Qed.

(** The word list of V with the padding changed, and changed back. *)
Lemma zupd_tail (ws : list Z) t i x : length ws = 8%nat -> 0 <= i -> zupd (ws ++ t) (8 + i) x = ws ++ zupd t i x.
Proof. intros Hw Hi. replace 8 with (zlen ws) by (unfold zlen; by rewrite Hw). by apply zupd_app_r. Qed.

Lemma zupd_pad (ws : list Z) t x y : length ws = 8%nat -> zupd (zupd (ws ++ t) 8 x) 15 y = ws ++ zupd (zupd t 0 x) 7 y.
Proof. intros Hw. rewrite (zupd_tail ws t 0 x Hw ltac:(lia) : zupd (ws ++ t) 8 x = _). exact (zupd_tail ws (zupd t 0 x) 7 y Hw ltac:(lia)). Qed.

(** HMAC of V and one zero byte: the padding fits the block. *)
Lemma short_hash K V : Forall is_byte K -> length V = 32%nat -> Forall is_byte V ->
  sha256_Transform (absorb A 1 (ha_init A) (xor_with 0x36 (rfc_key A K))) (be_words 4 8 V ++ [0x00800000; 0; 0; 0; 0; 0; 0; 776])
  = be_words 4 8 (digest_of A (xor_with 0x36 (rfc_key A K) ++ V ++ [0])).
Proof.
  intros HK LV BV. destruct (rfc_key_block A (P := sha256_params) K HK) as [Lk _].
  assert (Hl : length (xor_with 0x36 (rfc_key A K)) = block_len A) by (rewrite length_xor_with; exact Lk).
  assert (Hm : length (V ++ [0]) = 33%nat) by (rewrite length_app, LV; reflexivity).
  assert (Hs : (length (V ++ [0%Z]) + 1 + 2 * ha_wb A <= block_len A)%nat) by (rewrite Hm; cbn; lia).
  rewrite (digest_words_eq A (P := sha256_params)). rewrite (final_short A (P := sha256_params) _ _ Hl Hs), Hm.
  change (be_words (ha_wb A) 16) with (be_words 4 (8 + 8)). rewrite be_words_app, be_words_prefix by (rewrite Hm; cbn; lia).
  rewrite be_words_prefix by (rewrite LV; reflexivity). rewrite <- (app_assoc V [0]), drop_app_length' by (rewrite LV; reflexivity).
  reflexivity.
Qed.

(** HMAC of V, the domain byte and data: a context that has seen the key and V. *)
Lemma long_hash K V dom d1 d2 : Forall is_byte K -> length V = 32%nat -> Forall is_byte V -> is_byte dom ->
  Forall is_byte d1 -> Forall is_byte d2 -> zlen d1 + zlen d2 < 2 ^ 60 ->
  let ctx := HashCtx (absorb A 1 (ha_init A) (xor_with 0x36 (rfc_key A K))) 776
    (zupd (bytes_of 4 (map REVERSE32 (be_words 4 8 V)) ++ replicate 32 0) 32 dom) in
  map REVERSE32 (words_of 4 8 (sha256_Final (sha256_Update (sha256_Update ctx d1) d2)))
  = be_words 4 8 (digest_of A (xor_with 0x36 (rfc_key A K) ++ V ++ dom :: d1 ++ d2)).
Proof.
  intros HK LV BV Hd B1 B2 Hlen ctx. destruct (rfc_key_block A (P := sha256_params) K HK) as [Lk Bk].
  set (blk := xor_with 0x36 (rfc_key A K)) in *. assert (Hl : length blk = 64%nat) by (unfold blk; rewrite length_xor_with; exact Lk).
  assert (EV : bytes_of 4 (map REVERSE32 (be_words 4 8 V)) = V).
  { pose proof (bytes_of_reverse A (L := sha256_laws) (be_words 4 8 V)) as E. rewrite <- (concat_be_words A 8 V) at 2 by (exact LV || exact BV).
    apply E. apply (be_words_range A); [rewrite LV; cbn; lia|exact BV]. }
  assert (R : ctx_rep A (L := sha256_laws) ctx (blk ++ V ++ [dom])).
  { assert (Lm : length (blk ++ V ++ [dom]) = 97%nat) by (rewrite !length_app, Hl, LV; reflexivity).
    assert (EB : zupd (V ++ replicate 32 0) 32 dom = V ++ dom :: replicate 31 0).
    { change 32 with (32 + 0). replace 32 with (zlen V) by (unfold zlen; rewrite LV; reflexivity). apply (zupd_app_r V (replicate 32 0) 0 dom). lia. }
    unfold ctx. rewrite EV, EB. split; cbn [state bitcount buffer]; rewrite ?Lm.
    - change (97 / block_len A)%nat with 1%nat. symmetry. apply absorb_prefix. rewrite Hl. cbn. lia.
    - unfold zlen. rewrite Lm. reflexivity.
    - rewrite length_app, LV. reflexivity.
    - apply Forall_app. split; [exact BV|]. apply Forall_cons_2; [exact Hd|]. apply (bytes_0 31).
    - change (97 mod block_len A)%nat with 33%nat. change (97 / block_len A * block_len A)%nat with 64%nat. rewrite <- Hl, drop_app_length.
      change (dom :: replicate 31 0) with ([dom] ++ replicate 31 0). rewrite app_assoc. apply take_app_length'.
      rewrite length_app, LV. reflexivity. }
  assert (Lz : zlen (blk ++ V ++ [dom]) = 97) by (unfold zlen; rewrite !length_app, Hl, LV; reflexivity).
  assert (R1 : ctx_rep A (L := sha256_laws) (sha256_Update ctx d1) ((blk ++ V ++ [dom]) ++ d1)).
  { apply (hash_Update_rep A (L := sha256_laws)); [exact R|exact B1|]. rewrite Lz. pose proof (zlen_nonneg d2). lia. }
  assert (R2 : ctx_rep A (L := sha256_laws) (sha256_Update (sha256_Update ctx d1) d2) (((blk ++ V ++ [dom]) ++ d1) ++ d2)).
  { apply (hash_Update_rep A (L := sha256_laws)); [exact R1|exact B2|]. rewrite zlen_app, Lz. lia. }
  assert (EF : sha256_Final (sha256_Update (sha256_Update ctx d1) d2) = digest_of A (((blk ++ V ++ [dom]) ++ d1) ++ d2)).
  { apply (hash_Final_rep A (L := sha256_laws)); [exact R2|]. rewrite !zlen_app. rewrite !zlen_app in Lz. lia. }
  rewrite EF. replace (((blk ++ V ++ [dom]) ++ d1) ++ d2) with (blk ++ V ++ dom :: d1 ++ d2) by (rewrite <- !app_assoc; reflexivity).
  apply (map_words A (L := sha256_laws) 8); [rewrite (proj1 (digest_str _)); cbn; lia|apply digest_str].
Qed.

(** The inner digest, whichever branch computes it; V is as before. *)
Lemma first_hash_rep ctx K V dom d1 d2 : drbg_rep ctx (K, V) -> is_byte dom -> Forall is_byte d1 -> Forall is_byte d2 ->
  zlen d1 + zlen d2 < 2 ^ 60 -> (d1 ++ d2 = [] -> dom = 0) ->
  Drbg.first_hash ctx dom d1 d2 = (be_words 4 8 (digest_of A (xor_with 0x36 (rfc_key A K) ++ V ++ dom :: d1 ++ d2)), d_v ctx).
Proof.
  intros [Ho Hi Hv [LK BK] [LV BV]] Hd B1 B2 Hlen Hdom. cbn [fst snd] in *. unfold Drbg.first_hash. rewrite Hv, Hi.
  destruct (Z.eqb_spec (zlen d1 + zlen d2) 0) as [E|E].
  - pose proof (zlen_nonneg d1). pose proof (zlen_nonneg d2).
    assert (d1 = []) as -> by (apply nil_length_inv; unfold zlen in *; lia). assert (d2 = []) as -> by (apply nil_length_inv; unfold zlen in *; lia).
    rewrite (Hdom eq_refl). clear E Hdom. cbv zeta.
    rewrite (zupd_pad (be_words 4 8 V)) by apply length_be_words.
    change (zupd (zupd tail8 0 0x00800000) 7 ((SHA256_BLOCK_LENGTH + SHA256_DIGEST_LENGTH + 1) * 8)) with [0x00800000; 0; 0; 0; 0; 0; 0; 776].
    rewrite (zupd_pad (be_words 4 8 V)) by apply length_be_words.
    rewrite (short_hash K V BK LV BV). reflexivity.
  - rewrite take_app_length' by (symmetry; apply length_be_words). f_equal. exact (long_hash K V dom d1 d2 BK LV BV Hd B1 B2 Hlen).
Qed.

(** The padded key of the next key. *)
Lemma next_key_words K : str32 K -> be_words 4 8 K ++ replicate 8 0 = be_words 4 16 (rfc_key A K).
Proof.
  intros [LK BK]. unfold rfc_key, hmac_key. rewrite LK. change (block_len A <? 32)%nat with false. cbv iota. rewrite LK.
  change (be_words 4 16) with (be_words 4 (8 + 8)). rewrite be_words_app, be_words_prefix by (rewrite LK; cbn; lia).
  rewrite drop_app_length' by (rewrite LK; reflexivity). reflexivity.
Qed.

Lemma absorb_one bs : length bs = 64%nat -> absorb A 1 (ha_init A) bs = sha256_Transform sha256_initial_hash_value (be_words 4 16 bs).
Proof. intros Hl. cbn [absorb]. rewrite take_ge by (rewrite Hl; cbn; lia). reflexivity. Qed.

Lemma pad_key c w K : str32 K -> is_byte c -> w = le_val (replicate 4 c) ->
  sha256_Transform sha256_initial_hash_value (map (fun x => x .^ w) (be_words 4 8 K ++ replicate 8 0))
  = absorb A 1 (ha_init A) (xor_with c (rfc_key A K)).
Proof.
  intros HK Hc ->. destruct (rfc_key_block A (P := sha256_params) K (proj2 HK)) as [Lk Bk].
  rewrite absorb_one by (rewrite length_xor_with; exact Lk). rewrite next_key_words by exact HK. f_equal.
  apply (xor_words A c 16); [exact Hc|rewrite Lk; cbn; lia|exact Bk].
Qed.

Lemma update_k_rep ctx K V dom d1 d2 : drbg_rep ctx (K, V) -> is_byte dom -> Forall is_byte d1 -> Forall is_byte d2 ->
  zlen d1 + zlen d2 < 2 ^ 60 -> (d1 ++ d2 = [] -> dom = 0) ->
  drbg_rep (update_k ctx dom d1 d2) (hm K (V ++ dom :: d1 ++ d2), V).
Proof.
  intros HR Hd B1 B2 Hlen Hdom. unfold update_k. rewrite (first_hash_rep ctx K V dom d1 d2 HR Hd B1 B2 Hlen Hdom). cbv iota beta zeta.
  destruct HR as [Ho Hi Hv [LK BK] [LV BV]]. cbn [fst snd] in *. set (m := V ++ dom :: d1 ++ d2).
  set (h8 := be_words 4 8 (digest_of A (xor_with 0x36 (rfc_key A K) ++ m))).
  assert (L8 : length h8 = 8%nat) by apply length_be_words.
  assert (E1 : zupd (zupd (set_words (replicate 16 0) h8) 8 0x80000000) 15 ((SHA256_BLOCK_LENGTH + SHA256_DIGEST_LENGTH) * 8) = h8 ++ tail8).
  { unfold set_words, memcpy. rewrite take_0, Nat.add_0_l, L8, app_nil_l. change (drop 8 (replicate 16 0)) with (replicate 8 0).
    rewrite (zupd_pad h8) by exact L8. reflexivity. }
  set (K' := hm K m). assert (HK' : str32 K') by apply hm_str.
  assert (E3 : set_words (h8 ++ tail8) (sha256_Transform (absorb A 1 (ha_init A) (xor_with 0x5c (rfc_key A K))) (h8 ++ tail8))
    = be_words 4 8 K' ++ tail8).
  { rewrite set_tail by (exact L8 || apply transform_len). unfold h8. rewrite raw256 by (exact BK || apply digest_str). reflexivity. }
  assert (E2 : zupd (zupd (be_words 4 8 K' ++ tail8) 8 0) 15 0 = be_words 4 8 K' ++ replicate 8 0).
  { rewrite (zupd_pad (be_words 4 8 K')) by apply length_be_words. reflexivity. }
  rewrite E1, Ho, E3, E2. clearbody K'. split; cbn [fst snd d_odig d_idig d_v]. 2: { apply (pad_key 0x36 0x36363636 K'); [exact HK'|unfold is_byte; lia|reflexivity]. }
  2: exact Hv. 2: exact HK'. 2: exact (conj LV BV).
  rewrite map_map. rewrite <- (pad_key 0x5c 0x5c5c5c5c) by (exact HK' || (unfold is_byte; lia) || reflexivity). f_equal. apply map_ext. intros x.
  rewrite (Z.lxor_assoc x 0x36363636 0x36363636), Z.lxor_nilpotent, Z.lxor_0_r. reflexivity.
Qed.

(** Reseeding with entropy is the update of the standard. *)
Lemma reseed_rep ctx st entropy addin : drbg_rep ctx st -> Forall is_byte entropy -> Forall is_byte addin -> (entropy = [] -> addin = []) ->
  zlen entropy + zlen addin < 2 ^ 60 -> drbg_rep (hmac_drbg_reseed ctx entropy addin) (drbg_update hm (entropy ++ addin) st).
Proof.
  intros HR Be Ba Hne Hlen. destruct st as [K V]. unfold hmac_drbg_reseed, drbg_update.
  assert (H1 : drbg_rep (update_v (update_k ctx 0 entropy addin)) (let K := hm K (V ++ 0x00 :: entropy ++ addin) in (K, hm K V)))
    by (apply update_v_rep, update_k_rep; [exact HR|unfold is_byte; lia|exact Be|exact Ba|exact Hlen|reflexivity]).
  destruct entropy as [|x entropy]; [rewrite (Hne eq_refl) in *; exact H1|].
  assert (Hz : (zlen (x :: entropy) =? 0) = false) by (apply Z.eqb_neq; rewrite zlen_cons; pose proof (zlen_nonneg entropy); lia).
  rewrite Hz. apply update_v_rep, update_k_rep; [exact H1|unfold is_byte; lia|exact Be|exact Ba|exact Hlen|done].
Qed.

Lemma drbg_init_rep entropy nonce : Forall is_byte entropy -> Forall is_byte nonce -> (entropy = [] -> nonce = []) -> zlen entropy + zlen nonce < 2 ^ 60 ->
  drbg_rep (hmac_drbg_init entropy nonce) (drbg_instantiate hm entropy nonce).
Proof.
  intros Be Bn Hne Hlen. unfold hmac_drbg_init, drbg_instantiate. apply reseed_rep; [|assumption..].
  split; cbn [fst snd d_odig d_idig d_v]; [vm_compute; reflexivity|vm_compute; reflexivity|vm_compute; reflexivity| |];
    (split; [reflexivity|apply Forall_replicate; unfold is_byte; lia]).
Qed.

(** ** Output *)

Lemma v_bytes_word r : map (fun k => Z.shiftr r k .& 0xff) [24; 16; 8; 0] = be_bytes 4 r.
Proof.
  unfold be_bytes. rewrite le_bytes_4. change 0xff with (Z.ones 8). cbn [map rev app]. rewrite !Z.land_ones, Z.shiftr_0_r by lia. reflexivity.
Qed.

Lemma v_bytes_rep ctx st : drbg_rep ctx st -> v_bytes (d_v ctx) = snd st.
Proof.
  intros [_ _ Hv _ [LV BV]]. unfold v_bytes. rewrite Hv, take_app_length' by (symmetry; apply length_be_words).
  rewrite (map_ext _ (be_bytes 4) v_bytes_word). exact (concat_be_words A 8 (snd st) LV BV).
Qed.

Lemma blocks_rep n : forall fuel ctx st left, drbg_rep ctx st -> 0 <= left -> (left + 31) / 32 = Z.of_nat n -> (n <= fuel)%nat ->
  exists ctx', generate_loop fuel ctx left = (take (Z.to_nat left) (fst (drbg_blocks hm n st)), ctx') /\
  drbg_rep ctx' (snd (drbg_blocks hm n st)).
Proof.
  induction n as [|n IH]; intros fuel ctx [K V] left HR Hl Hn Hf.
  - assert (left = 0) as -> by zlia. exists ctx. split; [by destruct fuel|exact HR].
  - destruct fuel as [|fuel]; [lia|]. cbn [generate_loop drbg_blocks]. assert (Hpos : 0 < left) by zlia.
    rewrite (proj2 (Z.ltb_lt 0 left) Hpos). apply update_v_rep in HR. cbv zeta. rewrite (v_bytes_rep _ _ HR). cbn [snd].
    set (V' := hm K V) in *. assert (LV : length V' = 32%nat) by apply hm_str.
    assert (Hz : zlen (take (Z.to_nat left) V') = Z.min left 32) by (unfold zlen; rewrite length_take, LV; lia). rewrite Hz.
    destruct (IH fuel (update_v ctx) (K, V') (left - Z.min left 32) HR) as (ctx' & E & HR'); [lia|zlia|lia|].
    rewrite E. destruct (drbg_blocks hm n (K, V')) as [out st']. cbn [fst snd] in *. exists ctx'. split; [|exact HR'].
    f_equal. rewrite take_app, LV. f_equal. f_equal. lia.
Qed.

Lemma generate_rep ctx st len : drbg_rep ctx st -> 0 <= len ->
  exists ctx', hmac_drbg_generate ctx len = (fst (drbg_generate hm (Z.to_nat len) st), ctx') /\
  drbg_rep ctx' (snd (drbg_generate hm (Z.to_nat len) st)).
Proof.
  intros HR Hl. unfold hmac_drbg_generate, drbg_generate.
  assert (Hn : (len + 31) / 32 = Z.of_nat ((Z.to_nat len + 31) / 32)) by (rewrite Nat2Z.inj_div, Nat2Z.inj_add, Z2Nat.id by lia; reflexivity).
  destruct (blocks_rep ((Z.to_nat len + 31) / 32) (Z.to_nat len) ctx st len HR Hl Hn) as (ctx' & E & HR').
  { apply Nat2Z.inj_le. rewrite <- Hn, Z2Nat.id by lia. zlia. }
  rewrite E. destruct (drbg_blocks hm _ st) as [out [K V]]. cbn [fst snd] in *. exists (update_v (update_k ctx' 0 [] [])). split; [reflexivity|].
  apply update_v_rep, update_k_rep; [exact HR'|unfold is_byte; lia|apply Forall_nil_2|apply Forall_nil_2|reflexivity|reflexivity].
Qed.

(** A block of 32 bytes: the next V. *)
Lemma generate_32 st : fst (drbg_generate hm 32 st) = hm (fst st) (snd st).
Proof.
  destruct st as [K V]. unfold drbg_generate. change ((32 + 31) / 32)%nat with 1%nat. cbn [drbg_blocks fst snd].
  rewrite app_nil_r. apply take_ge. rewrite (proj1 (hm_str K V)). done.
Qed.

(** The numbers k that are tried in turn. *)
Lemma generate_k_rep ctx st : drbg_rep ctx st ->
  exists k ctx', generate_k_rfc6979 ctx = (k, ctx') /\ normalized k /\ bn_val k = be_val (fst (drbg_generate hm 32 st)) /\
  drbg_rep ctx' (snd (drbg_generate hm 32 st)).
Proof.
  intros HR. destruct (generate_rep ctx st 32 HR ltac:(lia)) as (ctx' & E & HR'). change (Z.to_nat 32) with 32%nat in E, HR'.
  unfold generate_k_rfc6979, generate_rfc6979. rewrite E. eexists _, ctx'. split; [reflexivity|]. rewrite generate_32.
  destruct (hm_str (fst st) (snd st)) as [Lh Bh]. destruct (bn_read_be_val _ Bh Lh) as [Nk Vk]. split; [exact Nk|]. split; [exact Vk|exact HR'].
Qed.

(** ** The properties *)

(** What a caller does with the generator, on the code and on the standard. *)
Inductive request := Generate (len : Z) | Reseed (entropy addin : list Z).

Definition serve (q : request) (ctx : HMAC_DRBG_CTX) : list Z * HMAC_DRBG_CTX :=
  match q with
  | Generate len => hmac_drbg_generate ctx len
  | Reseed entropy addin => ([], hmac_drbg_reseed ctx entropy addin)
  end.

Definition serve_spec (q : request) (st : drbg_state) : list Z * drbg_state :=
  match q with
  | Generate len => drbg_generate hmac256 (Z.to_nat len) st
  | Reseed entropy addin => ([], drbg_update hmac256 (entropy ++ addin) st)
  end.

Definition request_ok (q : request) : Prop :=
  match q with
  | Generate len => 0 <= len
  | Reseed entropy addin => (entropy = [] -> addin = []) /\ Forall is_byte entropy /\ Forall is_byte addin /\ zlen entropy + zlen addin < 2 ^ 60
  end.

(** The outputs of a sequence of requests. *)
Fixpoint outputs {S} (step : request -> S -> list Z * S) (qs : list request) (s : S) : list (list Z) :=
  match qs with
  | [] => []
  | q :: qs => let '(out, s) := step q s in out :: outputs step qs s
  end.

Lemma serve_rep q ctx st : drbg_rep ctx st -> request_ok q ->
  exists ctx', serve q ctx = (fst (serve_spec q st), ctx') /\ drbg_rep ctx' (snd (serve_spec q st)).
Proof.
  intros HR. destruct q as [len|entropy addin]; cbn [serve serve_spec request_ok].
  - intros Hl. rewrite (generate_ext hmac256 hm _ _ hmac256_eq). by apply generate_rep.
  - intros (Hne & Be & Ba & Hlen). eexists. split; [reflexivity|]. cbn [snd]. rewrite (update_ext hmac256 hm _ _ hmac256_eq). by apply reseed_rep.
Qed.

Lemma outputs_rep qs : forall ctx st, drbg_rep ctx st -> Forall request_ok qs -> outputs serve qs ctx = outputs serve_spec qs st.
Proof.
  induction qs as [|q qs IH]; intros ctx st HR Hq; [reflexivity|]. inversion Hq as [|? ? H1 H2]; subst. cbn [outputs].
  destruct (serve_rep q ctx st HR H1) as (ctx' & E & HR'). rewrite E. destruct (serve_spec q st) as [out st']. cbn [fst snd] in *. f_equal. by apply IH.
Qed.

(** C15: The generator of hmac_drbg.c is the HMAC_DRBG of NIST SP 800-90A with
    HMAC-SHA256: initialised with entropy and a nonce, it answers every sequence
    of requests (blocks of any length, reseeding) with the bytes the standard
    prescribes, although it keeps two compression states instead of the key and never
    hashes the padded key again. Initialisation and each reseed have entropy, or no input
    at all: with additional input and no entropy the code leaves out the second half of
    the update. *)
Theorem hmac_drbg_refines entropy nonce qs : (entropy = [] -> nonce = []) -> Forall is_byte entropy -> Forall is_byte nonce ->
  zlen entropy + zlen nonce < 2 ^ 60 -> Forall request_ok qs ->
  outputs serve qs (hmac_drbg_init entropy nonce) = outputs serve_spec qs (drbg_instantiate hmac256 entropy nonce).
Proof.
  intros Hne Be Bn Hlen Hq. apply outputs_rep; [|exact Hq]. unfold drbg_instantiate. rewrite (update_ext hmac256 hm _ _ hmac256_eq).
  by apply drbg_init_rep.
Qed.

Lemma hmac_drbg_refines_witness :
  outputs serve [Generate 40; Reseed [7] []; Reseed [] []; Generate 5] (hmac_drbg_init [1; 2; 3] [4]) =
  outputs serve_spec [Generate 40; Reseed [7] []; Reseed [] []; Generate 5] (drbg_instantiate hmac256 [1; 2; 3] [4]).
Proof.
  apply hmac_drbg_refines.
  - discriminate.
  - repeat (apply Forall_cons_2; [unfold is_byte; lia|]). apply Forall_nil_2.
  - repeat (apply Forall_cons_2; [unfold is_byte; lia|]). apply Forall_nil_2.
  - vm_compute. reflexivity.
  - apply Forall_cons_2; [cbn; lia|]. apply Forall_cons_2; [|apply Forall_cons_2; [|apply Forall_cons_2; [cbn; lia|apply Forall_nil_2]]].
    2:{ split; [reflexivity|]. split; [apply Forall_nil_2|]. split; [apply Forall_nil_2|vm_compute; reflexivity]. }
    split; [discriminate|]. split; [apply Forall_cons_2; [unfold is_byte; lia|apply Forall_nil_2]|]. split; [apply Forall_nil_2|vm_compute; reflexivity].
Defined.

End DrbgSpec.
