(* ===== verification/Ecdsa.v ===== *)
(** * Points of elliptic curves and signatures (crypto/ecdsa.c)

    The operations of ecdsa.c on points (affine and Jacobian coordinates, the
    multiplication of a point by a number), on public keys, and the computation,
    verification and recovery of signatures.  The pointer arguments the source
    writes through are results; a function that reaches an [assert] of itself or of
    the numbers it computes with returns an option.

    The hardware random generator is not part of the sources: [words] is the list
    of the 32-bit numbers it is going to yield, and a computation that needs more
    of them than there are has no result.

    The build decides how multiples of the base point are computed
    (USE_PRECOMPUTED_CP): [cp] is the table of precomputed multiples, if there is
    one. *)

From stdpp Require Import base list numbers.
From Stdlib Require Import ZArith Lia.
From S2P Require Import Prelude Bignum Curves BignumInverse.
Local Open Scope fw_scope.

Module Ecdsa.
Import Bignum Curves BignumInverse.

(** An int as a condition. *)
Definition truth (v : Z) : bool := negb (v =? 0).

(** ** Affine points *)

Definition point_set_infinity : curve_point := CurvePoint bn_zero bn_zero.

Definition point_is_infinity (p : curve_point) : bool :=
  truth (bn_is_zero (cx p)) && truth (bn_is_zero (cy p)).

Definition point_is_equal (p q : curve_point) : bool :=
  truth (bn_is_equal (cx p) (cx q)) && truth (bn_is_equal (cy p) (cy q)).

Definition point_is_negative_of (p q : curve_point) : bool :=
  if negb (truth (bn_is_equal (cx p) (cx q))) then false
  else if truth (bn_is_zero (cy p)) then false
  else negb (truth (bn_is_equal (cy p) (cy q))).

Definition point_double (curve : ecdsa_curve) (cp : curve_point) : option curve_point :=
  let p := prime curve in
  if point_is_infinity cp then Some cp
  else if truth (bn_is_zero (cy cp)) then Some point_set_infinity
  else
    lambda ← bn_mult_k (cy cp) 2 p;
    let lambda := bn_fast_mod lambda p in
    lambda ← bn_mod lambda p;
    lambda ← bn_inverse lambda p;
    let xr := bn_multiply (cx cp) (cx cp) p in
    xr ← bn_mult_k xr 3 p;
    xr ← bn_subi xr (u32 (- coef_a curve)) p;
    let lambda := bn_multiply xr lambda p in
    let xr := bn_multiply lambda lambda p in
    let yr := bn_lshift (cx cp) in
    let xr := bn_subtractmod xr yr p in
    let xr := bn_fast_mod xr p in
    xr ← bn_mod xr p;
    let yr := bn_subtractmod (cx cp) xr p in
    let yr := bn_multiply lambda yr p in
    let yr := bn_subtractmod yr (cy cp) p in
    let yr := bn_fast_mod yr p in
    yr ← bn_mod yr p;
    Some (CurvePoint xr yr).

(** The new value of [cp2]. *)
Definition point_add (curve : ecdsa_curve) (cp1 cp2 : curve_point) : option curve_point :=
  let p := prime curve in
  if point_is_infinity cp1 then Some cp2
  else if point_is_infinity cp2 then Some cp1
  else if point_is_equal cp1 cp2 then point_double curve cp2
  else if point_is_negative_of cp1 cp2 then Some point_set_infinity
  else
    let inv := bn_subtractmod (cx cp2) (cx cp1) p in
    inv ← bn_inverse inv p;
    let lambda := bn_subtractmod (cy cp2) (cy cp1) p in
    let lambda := bn_multiply inv lambda p in
    let xr := bn_multiply lambda lambda p in
    let yr := bn_addmod (cx cp1) (cx cp2) p in
    let xr := bn_subtractmod xr yr p in
    let xr := bn_fast_mod xr p in
    xr ← bn_mod xr p;
    let yr := bn_subtractmod (cx cp1) xr p in
    let yr := bn_multiply lambda yr p in
    let yr := bn_subtractmod yr (cy cp1) p in
    let yr := bn_fast_mod yr p in
    yr ← bn_mod yr p;
    Some (CurvePoint xr yr).

(** ** Jacobian points *)

Record jacobian_curve_point := JacobianPoint { jx : bignum256; jy : bignum256; jz : bignum256 }.

Definition BN_BITS_LAST_LIMB : Z := 24.

(** Nine words of the generator as a number of 256 bits. *)
Definition random_limbs (ws : list Z) : bignum256 :=
  map (fun w => w .& (Z.shiftl 1 BN_BITS_PER_LIMB - 1)) (take 8 ws)
  ++ map (fun w => w .& (Z.shiftl 1 BN_BITS_LAST_LIMB - 1)) (take 1 (drop 8 ws)).

(** do ... while (bn_is_zero(k) || !bn_is_less(k, prime)) *)
Fixpoint k_random_loop (fuel : nat) (words : list Z) (prime : bignum256) : option (bignum256 * list Z) :=
  match fuel with
  | O => None
  | S fuel =>
      if (length words <? 9)%nat then None
      else
        let k := random_limbs words in
        let words := drop 9 words in
        if truth (bn_is_zero k) || negb (truth (bn_is_less k prime)) then k_random_loop fuel words prime
        else Some (k, words)
  end.

Definition generate_k_random (words : list Z) (prime : bignum256) : option (bignum256 * list Z) :=
  k_random_loop (length words) words prime.

Definition curve_to_jacobian (words : list Z) (p : curve_point) (prime : bignum256) :
    option (jacobian_curve_point * list Z) :=
  '(z, words) ← generate_k_random words prime;
  let x := bn_multiply z z prime in
  let y := bn_multiply z x prime in
  let x := bn_multiply (cx p) x prime in
  let y := bn_multiply (cy p) y prime in
  Some (JacobianPoint x y z, words).

Definition jacobian_to_curve (jp : jacobian_curve_point) (prime : bignum256) : option curve_point :=
  y ← bn_inverse (jz jp) prime;
  let x := bn_multiply y y prime in
  let y := bn_multiply x y prime in
  let x := bn_multiply (jx jp) x prime in
  let y := bn_multiply (jy jp) y prime in
  x ← bn_mod x prime;
  y ← bn_mod y prime;
  Some (CurvePoint x y).

(** The new value of [p2]. *)
Definition point_jacobian_add (p1 : curve_point) (p2 : jacobian_curve_point) (curve : ecdsa_curve) :
    option jacobian_curve_point :=
  let p := prime curve in
  let a := coef_a curve in
  if negb ((-3 <=? a) && (a <=? 0)) then None
  else
    let xz := bn_multiply (jz p2) (jz p2) p in
    let yz := bn_multiply xz (jz p2) p in
    az ← (if negb (a =? 0) then bn_mult_k (bn_multiply xz xz p) (u8 (- a)) p else Some bn_zero);
    let xz := bn_multiply (cx p1) xz p in
    let h := bn_subtractmod xz (jx p2) p in
    let h := bn_fast_mod h p in
    let xz := bn_add xz (jx p2) in
    let is_doubling := bn_is_equal h p in
    let yz := bn_multiply (cy p1) yz p in
    let r := bn_subtractmod yz (jy p2) p in
    let yz := bn_add yz (jy p2) in
    let r2 := bn_multiply (jx p2) (jx p2) p in
    r2 ← bn_mult_k r2 3 p;
    let r2 := if negb (a =? 0) then bn_subtractmod r2 az p else r2 in
    r ← bn_cmov is_doubling r2 r;
    h ← bn_cmov is_doubling yz h;
    let hsqx := bn_multiply h h p in
    let hcby := bn_multiply hsqx h p in
    let hsqx := bn_multiply xz hsqx p in
    let hcby := bn_multiply yz hcby p in
    let z3 := bn_multiply h (jz p2) p in
    let x3 := bn_multiply r r p in
    let x3 := bn_subtractmod x3 hsqx p in
    let x3 := bn_fast_mod x3 p in
    let y3 := bn_subtractmod hsqx x3 p in
    let y3 := bn_subtractmod y3 x3 p in
    let y3 := bn_multiply r y3 p in
    let y3 := bn_subtractmod y3 hcby p in
    let y3 := bn_mult_half y3 p in
    let y3 := bn_fast_mod y3 p in
    Some (JacobianPoint x3 y3 z3).

Definition point_jacobian_double (q : jacobian_curve_point) (curve : ecdsa_curve) :
    option jacobian_curve_point :=
  let p := prime curve in
  if negb ((-3 <=? coef_a curve) && (coef_a curve <=? 0)) then None
  else
    let m := bn_multiply (jx q) (jx q) p in
    m ← bn_mult_k m 3 p;
    let az4 := bn_multiply (jz q) (jz q) p in
    let az4 := bn_multiply az4 az4 p in
    az4 ← bn_mult_k az4 (u8 (- coef_a curve)) p;
    let m := bn_subtractmod m az4 p in
    let m := bn_mult_half m p in
    let msq := bn_multiply m m p in
    let ysq := bn_multiply (jy q) (jy q) p in
    let xysq := bn_multiply ysq (jx q) p in
    let z3 := bn_multiply (jy q) (jz q) p in
    let x3 := bn_lshift xysq in
    let x3 := bn_fast_mod x3 p in
    let x3 := bn_subtractmod msq x3 p in
    let x3 := bn_fast_mod x3 p in
    let y3 := bn_subtractmod xysq x3 p in
    let y3 := bn_multiply m y3 p in
    let ysq := bn_multiply ysq ysq p in
    let y3 := bn_subtractmod y3 ysq p in
    let y3 := bn_fast_mod y3 p in
    Some (JacobianPoint x3 y3 z3).
(** ** Multiplication by a number *)

(** The loop over the eight low limbs and the top one: the odd number k + 2^256,
    or k + 2^256 - order for an even k, and the disjunction of the limbs of k. *)
Definition odd_scalar (k order : bignum256) : bignum256 * Z :=
  let is_even := u32 ((limb k 0 .& 1) - 1) in
  let term j := u32 (BN_BASE - 1 + limb k j - (limb order j .& is_even)) in
  let '(low, tmp) := carry 32 1 (map term (seqZ 0 8)) in
  let top := u32 (tmp + 0xffffff + limb k 8 - (limb order 8 .& is_even)) in
  (low ++ [top], fold_left Z.lor (take 9 k) 0).

(** pmult[i] = pmult[7]; point_add(curve, &pmult[i - 1], &pmult[i]) for the next
    [n] entries, from the entry before them and the doubled point. *)
Fixpoint pmult_rest (n : nat) (curve : ecdsa_curve) (prev twice : curve_point) : option (list curve_point) :=
  match n with
  | O => Some []
  | S n =>
      next ← point_add curve prev twice;
      rest ← pmult_rest n curve next twice;
      Some (next :: rest)
  end.

Definition pmult_table (curve : ecdsa_curve) (p : curve_point) : option (list curve_point) :=
  twice ← point_double curve p;
  rest ← pmult_rest 7 curve p twice;
  Some (p :: rest).

Definition no_point : curve_point := CurvePoint [] [].

(** The variables of the loop of point_multiply: the index of the limb [aptr]
    points at, [abits], [ashift], [sign] and [jres]. *)
Record mul_state := MulState { aptr : Z; abits : Z; ashift : Z; mul_sign : Z; jres : jacobian_curve_point }.

(** Moves to the next four bits of [a], lowest five bits of a >> (4 * i). *)
Definition next_bits (a : bignum256) (aptr abits ashift : Z) : Z * Z * Z * Z :=
  let ashift := ashift - 4 in
  if ashift <? 0 then
    let bits := u32 (Z.shiftl abits (- ashift)) in
    let aptr := aptr - 1 in
    let abits := limb a aptr in
    let ashift := ashift + BN_BITS_PER_LIMB in
    (aptr, abits, ashift, (bits .| Z.shiftr abits ashift) .& 31)
  else (aptr, abits, ashift, Z.shiftr abits ashift .& 31).

(** (bits >> 4) - 1, and bits ^ sign, & 15 *)
Definition digit_sign (bits : Z) : Z := u32 (Z.shiftr bits 4 - 1).
Definition digit_bits (bits : Z) : Z := (bits .^ digit_sign bits) .& 15.

Definition mul_turn (curve : ecdsa_curve) (a : bignum256) (pmult : list curve_point) (st : mul_state) :
    option mul_state :=
  j ← point_jacobian_double (jres st) curve;
  j ← point_jacobian_double j curve;
  j ← point_jacobian_double j curve;
  j ← point_jacobian_double j curve;
  let '(aptr, abits, ashift, bits) := next_bits a (aptr st) (abits st) (ashift st) in
  let nsign := digit_sign bits in
  z ← bn_cnegate ((mul_sign st .^ nsign) .& 1) (jz j) (prime curve);
  j ← point_jacobian_add (znth no_point pmult (Z.shiftr (digit_bits bits) 1)) (JacobianPoint (jx j) (jy j) z) curve;
  Some (MulState aptr abits ashift nsign j).

Fixpoint mul_turns (n : nat) (curve : ecdsa_curve) (a : bignum256) (pmult : list curve_point) (st : mul_state) :
    option mul_state :=
  match n with
  | O => Some st
  | S n => st ← mul_turn curve a pmult st; mul_turns n curve a pmult st
  end.

(** What the call returns, the value of [res] and the words that are left. *)
Definition point_multiply (words : list Z) (curve : ecdsa_curve) (k : bignum256) (p res : curve_point) :
    option (Z * curve_point * list Z) :=
  if negb (truth (bn_is_less k (order curve))) then Some (1, res, words)
  else
    let '(a, is_non_zero) := odd_scalar k (order curve) in
    if (limb a 0 .& 1) =? 0 then None
    else if negb (truth is_non_zero) then Some (1, point_set_infinity, words)
    else
      pmult ← pmult_table curve p;
      let abits := limb a 8 in
      let ashift := 256 - BN_BITS_PER_LIMB * 8 - 4 in
      let bits := Z.shiftr abits ashift in
      '(j, words) ← curve_to_jacobian words (znth no_point pmult (Z.shiftr (digit_bits bits) 1)) (prime curve);
      st ← mul_turns 63 curve a pmult (MulState 8 abits ashift (digit_sign bits) j);
      z ← bn_cnegate (mul_sign st .& 1) (jz (jres st)) (prime curve);
      res ← jacobian_to_curve (JacobianPoint (jx (jres st)) (jy (jres st)) z) (prime curve);
      Some (0, res, words).

(** The shift of [a] by four places in scalar_multiply. *)
Definition shift_scalar (a : bignum256) : bignum256 :=
  map (fun j => Z.shiftr (limb a j) 4 .| u32 (Z.shiftl (limb a (j + 1) .& 0xf) (BN_BITS_PER_LIMB - 4))) (seqZ 0 8)
  ++ [Z.shiftr (limb a 8) 4].

(** lowbits of [a]: five bits, made odd and positive *)
Definition low_digit (a : bignum256) : Z :=
  digit_bits (limb a 0 .& (Z.shiftl 1 5 - 1)).

(** The turns for the rows [i] to 63 of the table. *)
Fixpoint scalar_turns (rows : list (list curve_point)) (curve : ecdsa_curve) (a : bignum256)
    (j : jacobian_curve_point) : option (bignum256 * jacobian_curve_point) :=
  match rows with
  | [] => Some (a, j)
  | row :: rows =>
      let a := shift_scalar a in
      let lowbits := low_digit a in
      y ← bn_cnegate (Z.lnot lowbits .& 1) (jy j) (prime curve);
      j ← point_jacobian_add (znth no_point row (Z.shiftr lowbits 1)) (JacobianPoint (jx j) y (jz j)) curve;
      scalar_turns rows curve a j
  end.

(** scalar_multiply of a build with precomputed multiples [cp]. *)
Definition scalar_multiply_cp (cp : list (list curve_point)) (words : list Z) (curve : ecdsa_curve)
    (k : bignum256) (res : curve_point) : option (Z * curve_point * list Z) :=
  if negb (truth (bn_is_less k (order curve))) then Some (1, res, words)
  else
    let '(a, is_non_zero) := odd_scalar k (order curve) in
    if (limb a 0 .& 1) =? 0 then None
    else if negb (truth is_non_zero) then Some (0, point_set_infinity, words)
    else
      '(j, words) ← curve_to_jacobian words (znth no_point (znth [] cp 0) (Z.shiftr (low_digit a) 1)) (prime curve);
      '(a, j) ← scalar_turns (tail (take 64 cp)) curve a j;
      y ← bn_cnegate (Z.lnot (Z.shiftr (limb a 0) 4) .& 1) (jy j) (prime curve);
      res ← jacobian_to_curve (JacobianPoint (jx j) y (jz j)) (prime curve);
      Some (0, res, words).

Definition scalar_multiply (cp : option (list (list curve_point))) (words : list Z) (curve : ecdsa_curve)
    (k : bignum256) (res : curve_point) : option (Z * curve_point * list Z) :=
  match cp with
  | Some cp => scalar_multiply_cp cp words curve k res
  | None => point_multiply words curve k (G curve) res
  end.


End Ecdsa.
