(* ===== verification/EcdsaSig.v ===== *)
(** * Public keys and signatures (crypto/ecdsa.c)

    The second half of ecdsa.c: reading, checking and writing public keys, the
    shared secret of Diffie-Hellman, and making, checking and undoing
    signatures.  As in Ecdsa, [words] is what the hardware random generator is
    going to yield and [cp] the table of precomputed multiples of the build, if
    any; the results carry the words that are left.  A NULL curve is the None of
    ecdsa_read_pubkey. *)

From stdpp Require Import base list numbers.
From Stdlib Require Import ZArith Lia.
From S2P Require Import Prelude Bignum Curves BignumInverse Hash Drbg Ecdsa.
Local Open Scope fw_scope.

Module EcdsaSig.
Import Bignum Curves BignumInverse Hash Drbg Ecdsa.

(** bn_read_be(buf + off, .) and bn_write_be(x, buf + off) *)
Definition read_bn (buf : list Z) (off : Z) : bignum256 := bn_read_be (slice buf off 32).
Definition write_bn (x : bignum256) (buf : list Z) (off : Z) : list Z :=
  memcpy buf (Z.to_nat off) (bn_write_be x (slice buf off 32)).

(** ** Public keys *)

Definition compress_coords (cp : curve_point) (compressed : list Z) : list Z :=
  let compressed := zupd compressed 0 (if truth (bn_is_odd (cy cp)) then 0x03 else 0x02) in
  write_bn (cx cp) compressed 1.

(** The value of [y]. *)
Definition uncompress_coords (curve : ecdsa_curve) (odd : Z) (x : bignum256) : option bignum256 :=
  let y := x in
  let y := bn_multiply x y (prime curve) in
  y ← bn_subi y (u32 (- coef_a curve)) (prime curve);
  let y := bn_multiply x y (prime curve) in
  let y := bn_add y (coef_b curve) in
  y ← bn_sqrt y (prime curve);
  if negb ((odd .& 0x01) =? (limb y 0 .& 1)) then Some (bn_subtract (prime curve) y) else Some y.

Definition ecdsa_validate_pubkey (curve : ecdsa_curve) (pub : curve_point) : option Z :=
  if point_is_infinity pub then Some 0
  else if negb (truth (bn_is_less (cx pub) (prime curve))) || negb (truth (bn_is_less (cy pub) (prime curve)))
  then Some 0
  else
    let y_2 := bn_multiply (cy pub) (cy pub) (prime curve) in
    y_2 ← bn_mod y_2 (prime curve);
    let x3_ax_b := bn_multiply (cx pub) (cx pub) (prime curve) in
    x3_ax_b ← bn_subi x3_ax_b (u32 (- coef_a curve)) (prime curve);
    let x3_ax_b := bn_multiply (cx pub) x3_ax_b (prime curve) in
    let x3_ax_b := bn_addmod x3_ax_b (coef_b curve) (prime curve) in
    x3_ax_b ← bn_mod x3_ax_b (prime curve);
    if negb (truth (bn_is_equal x3_ax_b y_2)) then Some 0 else Some 1.

(** What the call returns, and [pub]. *)
Definition ecdsa_read_pubkey (curve : option ecdsa_curve) (pub_key : list Z) (pub : curve_point) :
    option (Z * curve_point) :=
  let curve := match curve with Some curve => curve | None => secp256k1 end in
  if znth 0 pub_key 0 =? 0x04 then
    let pub := CurvePoint (read_bn pub_key 1) (read_bn pub_key 33) in
    r ← ecdsa_validate_pubkey curve pub;
    Some (r, pub)
  else if (znth 0 pub_key 0 =? 0x02) || (znth 0 pub_key 0 =? 0x03) then
    let x := read_bn pub_key 1 in
    y ← uncompress_coords curve (znth 0 pub_key 0) x;
    r ← ecdsa_validate_pubkey curve (CurvePoint x y);
    Some (r, CurvePoint x y)
  else Some (0, pub).

(** curve_point pub = {0} *)
Definition zero_point : curve_point := CurvePoint bn_zero bn_zero.

(** pub_key[0] = 0x04, then the coordinates *)
Definition write_point (p : curve_point) (buf : list Z) : list Z :=
  let buf := zupd buf 0 0x04 in
  let buf := write_bn (cx p) buf 1 in
  write_bn (cy p) buf 33.

Definition ecdsa_uncompress_pubkey (curve : option ecdsa_curve) (pub_key uncompressed : list Z) :
    option (Z * list Z) :=
  '(r, pub) ← ecdsa_read_pubkey curve pub_key zero_point;
  if negb (truth r) then Some (0, uncompressed) else Some (1, write_point pub uncompressed).

(** Whether a private key is refused. *)
Definition invalid_key (curve : ecdsa_curve) (k : bignum256) : bool :=
  truth (bn_is_zero k) || negb (truth (bn_is_less k (order curve))).

Definition ecdsa_get_public_key33 (cp : option (list (list curve_point))) (words : list Z) (curve : ecdsa_curve)
    (priv_key pub_key : list Z) : option (Z * list Z * list Z) :=
  let k := read_bn priv_key 0 in
  if invalid_key curve k then Some (-1, memcpy pub_key 0 (replicate 33 0), words)
  else
    '(r, R, words) ← scalar_multiply cp words curve k zero_point;
    if negb (r =? 0) then Some (1, pub_key, words)
    else
      let pub_key := zupd pub_key 0 (0x02 .| (limb (cy R) 0 .& 0x01)) in
      Some (0, write_bn (cx R) pub_key 1, words).

Definition ecdsa_get_public_key65 (cp : option (list (list curve_point))) (words : list Z) (curve : ecdsa_curve)
    (priv_key pub_key : list Z) : option (Z * list Z * list Z) :=
  let k := read_bn priv_key 0 in
  if invalid_key curve k then Some (-1, memcpy pub_key 0 (replicate 65 0), words)
  else
    '(r, R, words) ← scalar_multiply cp words curve k zero_point;
    if negb (r =? 0) then Some (1, pub_key, words) else Some (0, write_point R pub_key, words).

Definition ecdh_multiply (words : list Z) (curve : ecdsa_curve) (priv_key pub_key session_key : list Z) :
    option (Z * list Z * list Z) :=
  '(r, point) ← ecdsa_read_pubkey (Some curve) pub_key zero_point;
  if negb (truth r) then Some (1, session_key, words)
  else
    let k := read_bn priv_key 0 in
    if invalid_key curve k then Some (2, session_key, words)
    else
      '(_, point, words) ← point_multiply words curve k point point;
      Some (0, write_point point session_key, words).

(** ** Signatures *)

(** The state of the loop of ecdsa_sign_digest: the generator of the numbers k,
    the words of the hardware, R and the buffer of the signature. *)
Record sign_state := SignState { sg_rng : HMAC_DRBG_CTX; sg_words : list Z; sg_R : curve_point; sg_sig : list Z }.

(** How a turn of the loop ends: continue, or return with a value of [by]. *)
Inductive attempt := Retry (st : sign_state) | Return (ret by_ : Z) (st : sign_state).

(** if S > order/2 => S = -S *)
Definition low_s (curve : ecdsa_curve) (s : bignum256) (by_ : Z) : bignum256 * Z :=
  if truth (bn_is_less (order_half curve) s) then (bn_subtract (order curve) s, by_ .^ 1) else (s, by_).

(** r = (rx mod n) *)
Definition reduce_rx (curve : ecdsa_curve) (R : curve_point) : bignum256 * Z :=
  let by_ := limb (cy R) 0 .& 1 in
  if negb (truth (bn_is_less (cx R) (order curve))) then (bn_subtract (cx R) (order curve), by_ .| 2)
  else (cx R, by_).

(** k^-1 (r * priv + z), through a random multiple of k *)
Definition blinded_s (curve : ecdsa_curve) (randk k rx s z : bignum256) : option bignum256 :=
  let k := bn_multiply randk k (order curve) in
  k ← bn_inverse k (order curve);
  let s := bn_multiply rx s (order curve) in
  let s := bn_add s z in
  let s := bn_multiply k s (order curve) in
  let s := bn_multiply randk s (order curve) in
  bn_mod s (order curve).

Definition sign_attempt (cp : option (list (list curve_point))) (curve : ecdsa_curve) (priv_key : list Z)
    (z : bignum256) (is_canonical : option (Z -> list Z -> Z)) (st : sign_state) : option attempt :=
  let '(k, rng) := generate_k_rfc6979 (sg_rng st) in
  if invalid_key curve k then Some (Retry (SignState rng (sg_words st) (sg_R st) (sg_sig st)))
  else
    '(_, R, words) ← scalar_multiply cp (sg_words st) curve k (sg_R st);
    let '(rx, by_) := reduce_rx curve R in
    if truth (bn_is_zero rx) then Some (Retry (SignState rng words (CurvePoint rx (cy R)) (sg_sig st)))
    else
      let s := read_bn priv_key 0 in
      if invalid_key curve s then Some (Return 2 by_ (SignState rng words (CurvePoint rx s) (sg_sig st)))
      else
        '(randk, words) ← generate_k_random words (order curve);
        s ← blinded_s curve randk k rx s z;
        if truth (bn_is_zero s) then Some (Retry (SignState rng words (CurvePoint rx s) (sg_sig st)))
        else
          let '(s, by_) := low_s curve s by_ in
          let sig := write_bn rx (sg_sig st) 0 in
          let sig := write_bn s sig 32 in
          let st := SignState rng words (CurvePoint rx s) sig in
          let refused := match is_canonical with Some f => f by_ sig =? 0 | None => false end in
          if refused then Some (Retry st) else Some (Return 0 by_ st).

(** The turns that are left; after the last one the call returns -1. *)
Fixpoint sign_loop (turns : nat) (cp : option (list (list curve_point))) (curve : ecdsa_curve) (priv_key : list Z)
    (z : bignum256) (is_canonical : option (Z -> list Z -> Z)) (st : sign_state) : option (Z * Z * sign_state) :=
  match turns with
  | O => Some (-1, 0, st)
  | S turns =>
      a ← sign_attempt cp curve priv_key z is_canonical st;
      match a with
      | Retry st => sign_loop turns cp curve priv_key z is_canonical st
      | Return ret by_ st => Some (ret, by_, st)
      end
  end.

Definition sign_turns : nat := Z.to_nat 10000.

(** What the call returns, [sig], the byte behind [pby] and the words left. *)
Definition ecdsa_sign_digest (cp : option (list (list curve_point))) (words : list Z) (curve : ecdsa_curve)
    (priv_key digest sig : list Z) (pby : Z) (is_canonical : option (Z -> list Z -> Z)) :
    option (Z * list Z * Z * list Z) :=
  rng ← init_rfc6979 priv_key digest (Some curve);
  let z := read_bn digest 0 in
  if truth (bn_is_zero z) then Some (1, sig, pby, words)
  else
    '(ret, by_, st) ← sign_loop sign_turns cp curve priv_key z is_canonical (SignState rng words zero_point sig);
    Some (ret, sg_sig st, if ret =? 0 then by_ else pby, sg_words st).

(** The checks of ecdsa_verify_digest on r, s and the digest. *)
Definition sig_range (curve : ecdsa_curve) (r s z : bignum256) : Z :=
  let result :=
    if truth (bn_is_zero r) || truth (bn_is_zero s) || negb (truth (bn_is_less r (order curve)))
       || negb (truth (bn_is_less s (order curve))) then 2 else 0 in
  if truth (bn_is_zero z) then 3 else result.

Definition ecdsa_verify_digest (cp : option (list (list curve_point))) (words : list Z) (curve : ecdsa_curve)
    (pub_key sig digest : list Z) : option (Z * list Z) :=
  '(ok, pub) ← ecdsa_read_pubkey (Some curve) pub_key zero_point;
  if negb (truth ok) then Some (1, words)
  else
    let r := read_bn sig 0 in
    let s := read_bn sig 32 in
    let z := read_bn digest 0 in
    let result := sig_range curve r s z in
    if negb (result =? 0) then Some (result, words)
    else
      s ← bn_inverse s (order curve);
      let z := bn_multiply s z (order curve) in
      z ← bn_mod z (order curve);
      let s := bn_multiply r s (order curve) in
      s ← bn_mod s (order curve);
      '(_, res, words) ← scalar_multiply cp words curve z zero_point;
      '(_, pub, words) ← point_multiply words curve s pub pub;
      res ← point_add curve pub res;
      if point_is_infinity res then Some (4, words)
      else
        x ← bn_mod (cx res) (order curve);
        if negb (truth (bn_is_equal x r)) then Some (5, words) else Some (0, words).

(** The x coordinate of R: r, or r + n; None stands for return 1. *)
Definition recovered_x (curve : ecdsa_curve) (r : bignum256) (recid : Z) : option bignum256 :=
  if truth (recid .& 2) then
    let x := bn_add r (order curve) in
    if negb (truth (bn_is_less x (prime curve))) then None else Some x
  else Some r.

(** The computation of the key once R is known: s r^-1 R - digest r^-1 G. *)
Definition recovered_key (cp : option (list (list curve_point))) (words : list Z) (curve : ecdsa_curve)
    (r s : bignum256) (digest : list Z) (R : curve_point) : option (curve_point * list Z) :=
  let e := read_bn digest 0 in
  e ← bn_mod e (order curve);
  let e := bn_subtract (order curve) e in
  r ← bn_inverse r (order curve);
  let e := bn_multiply r e (order curve) in
  e ← bn_mod e (order curve);
  let s := bn_multiply r s (order curve) in
  s ← bn_mod s (order curve);
  '(_, p, words) ← point_multiply words curve s R R;
  '(_, p2, words) ← scalar_multiply cp words curve e zero_point;
  p ← point_add curve p2 p;
  Some (p, words).

Definition ecdsa_recover_pub_from_sig (cp : option (list (list curve_point))) (words : list Z) (curve : ecdsa_curve)
    (pub_key sig digest : list Z) (recid : Z) : option (Z * list Z * list Z) :=
  let r := read_bn sig 0 in
  let s := read_bn sig 32 in
  if invalid_key curve r || invalid_key curve s then Some (1, pub_key, words)
  else
    match recovered_x curve r recid with
    | None => Some (1, pub_key, words)
    | Some x =>
        y ← uncompress_coords curve (recid .& 1) x;
        ok ← ecdsa_validate_pubkey curve (CurvePoint x y);
        if negb (truth ok) then Some (1, pub_key, words)
        else
          '(p, words) ← recovered_key cp words curve r s digest (CurvePoint x y);
          if point_is_infinity p then Some (1, pub_key, words)
          else Some (0, write_point p pub_key, words)
    end.

End EcdsaSig.
