(* ===== verification/EcField.v ===== *)
(** * Residues in the code of the curves

    [repr c x u]: the nine limbs of [x] are normalized, its value is below c times
    the prime, and it stands for the element [u] of the field of residues.  One
    rule per operation of bignum.c says how the bound and the element evolve, so
    that a sequence of calls is followed by applying the rules; the bounds are
    what keeps the next call inside the range it is correct for. *)

From stdpp Require Import base list numbers.
From Stdlib Require Import ZArith Lia.
From Stdlib Require Import Zdivisibility ZmodDef ZmodBase ZmodInv Field.
From S2P Require Import Prelude Bignum Curves BignumSpec BignumBits BignumConv BignumMul BignumPow BignumInverse Ecdsa.
Local Open Scope fw_scope.

Module EcField.
Import Bignum Curves BignumSpec BignumBits BignumConv BignumMul BignumPow BignumInverse Ecdsa.

#[export] Instance zmod_eq_dec m : EqDecision (Zmod m).
Proof.
  intros x y. destruct (Z.eq_dec (Zmod.to_Z x) (Zmod.to_Z y)) as [E|E]; [left; by apply Zmod.to_Z_inj|right; congruence].
Defined.

(** The primes of the curves: of 256 bits, and prime. *)
Class PrimeField (p : bignum256) : Prop := { pf_ok : prime_ok p; pf_prime : Z.prime (bn_val p) }.

#[export] Hint Extern 0 (prime_ok _) => apply pf_ok : core.
#[export] Hint Extern 0 (Z.prime _) => apply pf_prime : core.

Section Residues.
Context {p : bignum256} {FP : PrimeField p}.
Local Abbreviation P := (bn_val p).
Local Abbreviation Hp := (pf_ok (p := p)).
Local Abbreviation HP := (pf_prime (p := p)).

Local Abbreviation fe := (Zmod.of_Z P).

Record repr (c : Z) (x : bignum256) (u : Zmod P) : Prop := {
  repr_norm : normalized x;
  repr_bound : bn_val x < c * P;
  repr_val : fe (bn_val x) = u }.

Lemma prime_bounds : 2 ^ 256 - 2 ^ 224 <= P < 2 ^ 256.
Proof.
  destruct Hp as [_ H]. split; [lia|]. destruct (Z.eq_dec P (2 ^ 256)) as [E|]; [exfalso|lia].
  destruct HP as [_ Hd]. apply (Hd 2); rewrite E; [done|]. by exists (2 ^ 255).
Qed.

Lemma P_odd : Z.odd P = true.
Proof.
  pose proof prime_bounds as HB. destruct HP as [_ Hd]. rewrite <- Z.negb_even. apply negb_true_iff.
  destruct (Z.even P) eqn:E; [exfalso|done]. apply Zeven_bool_iff, Zeven_ex in E as [m Hm].
  apply (Hd 2); [lia|]. exists m. lia.
Qed.

Lemma repr_range c x u : repr c x u -> 0 <= bn_val x < c * P.
Proof. intros [N B _]. pose proof (normalized_range x N). lia. Qed.

Lemma repr_weaken c c' x u : repr c x u -> c <= c' -> repr c' x u.
Proof. intros [N B V] Hc. pose proof prime_bounds. split; [done|nia|done]. Qed.

Lemma fe_eq x y : x mod P = y mod P -> fe x = fe y.
Proof. apply Zmod.of_Z_inj. Qed.

(** Reduced residues are equal as numbers when they stand for the same element. *)
Lemma repr_1_val x u : repr 1 x u -> bn_val x = Zmod.to_Z u.
Proof.
  intros H. pose proof (repr_range _ _ _ H). destruct H as [N B <-]. rewrite Zmod.to_Z_of_Z, Z.mod_small; lia.
Qed.

Lemma repr_1_inj x y u : repr 1 x u -> repr 1 y u -> x = y.
Proof.
  intros Hx Hy. apply bn_val_inj; [apply Hx|apply Hy|]. by rewrite (repr_1_val _ _ Hx), (repr_1_val _ _ Hy).
Qed.

(** ** The rules *)

Lemma repr_mul c d x y u v : repr c x u -> repr d y v -> 0 <= c -> 0 <= d -> c * d <= 128 ->
  repr 2 (bn_multiply x y p) (Zmod.mul u v).
Proof.
  intros Hx Hy Hc Hd Hcd. pose proof prime_bounds as HB. pose proof (repr_range _ _ _ Hx) as Rx. pose proof (repr_range _ _ _ Hy) as Ry.
  destruct Hx as [Nx Bx <-], Hy as [Ny By <-].
  destruct (bn_multiply_val x y p Nx Ny Hp) as (N & R & V).
  { apply (Z.lt_le_trans _ ((c * P) * (d * P))); [apply Z.mul_lt_mono_nonneg; lia|].
    replace (c * P * (d * P)) with (c * d * (P * P)) by ring. transitivity (128 * (2 ^ 256 * 2 ^ 256)); [|done].
    apply Z.mul_le_mono_nonneg; nia. }
  split; [done|lia|]. rewrite <- Zmod.of_Z_mul. by apply fe_eq.
Qed.

Lemma repr_subtractmod c x y u v : repr c x u -> repr 2 y v -> 0 <= c <= 28 ->
  repr (c + 2) (bn_subtractmod x y p) (Zmod.sub u v).
Proof.
  intros Hx Hy Hc. pose proof prime_bounds as HB. pose proof (repr_range _ _ _ Hx) as Rx. pose proof (repr_range _ _ _ Hy) as Ry.
  destruct Hx as [Nx Bx <-], Hy as [Ny By <-].
  destruct (bn_subtractmod_val x y p Nx Ny (proj1 Hp)) as [N V].
  assert (E : bn_val (bn_subtractmod x y p) = bn_val x + (2 * P - bn_val y)).
  { rewrite V. apply Z.mod_small. split; [lia|]. apply (Z.le_lt_trans _ (30 * P)); [nia|lia]. }
  split; [done|nia|]. rewrite E, <- Zmod.of_Z_sub. apply fe_eq.
  replace (bn_val x + (2 * P - bn_val y)) with (bn_val x - bn_val y + 2 * P) by lia. apply Z.mod_add. lia.
Qed.

Lemma repr_subtractmod_pos c x y u v : repr c x u -> repr 2 y v -> 0 <= c <= 28 -> 0 < bn_val (bn_subtractmod x y p).
Proof.
  intros Hx Hy Hc. pose proof prime_bounds as HB. pose proof (repr_range _ _ _ Hx) as Rx. pose proof (repr_range _ _ _ Hy) as Ry.
  rewrite (proj2 (bn_subtractmod_val x y p (repr_norm _ _ _ Hx) (repr_norm _ _ _ Hy) (proj1 Hp))).
  rewrite Z.mod_small; [lia|]. split; [lia|]. apply (Z.le_lt_trans _ (30 * P)); [nia|lia].
Qed.

Lemma repr_fast_mod c x u : repr c x u -> repr 2 (bn_fast_mod x p) u.
Proof.
  intros [[Hl N] B <-]. destruct (bn_fast_mod_ok x p Hl (norm_u32 _ N) Hp) as (N' & V & R).
  split; [done|lia|]. by apply fe_eq.
Qed.

Lemma repr_add c d x y u v : repr c x u -> repr d y v -> 0 <= c -> 0 <= d -> c + d <= 28 ->
  repr (c + d) (bn_add x y) (Zmod.add u v).
Proof.
  intros Hx Hy Hc Hd Hcd. pose proof prime_bounds as HB. pose proof (repr_range _ _ _ Hx) as Rx. pose proof (repr_range _ _ _ Hy) as Ry.
  destruct Hx as [Nx Bx <-], Hy as [Ny By <-]. destruct (bn_add_val x y Nx Ny) as [N V].
  assert (E : bn_val (bn_add x y) = bn_val x + bn_val y).
  { rewrite V. apply Z.mod_small. split; [lia|]. apply (Z.lt_le_trans _ (28 * P)); [nia|lia]. }
  split; [done|nia|]. rewrite E. apply Zmod.of_Z_add.
Qed.

Lemma repr_addmod c d x y u v : repr c x u -> repr d y v -> repr 2 (bn_addmod x y p) (Zmod.add u v).
Proof.
  intros [Nx Bx <-] [Ny By <-]. destruct (bn_addmod_val x y p Nx Ny Hp) as (N & R & V).
  split; [done|lia|]. rewrite <- Zmod.of_Z_add. by apply fe_eq.
Qed.

Lemma repr_lshift c x u : repr c x u -> 0 <= c <= 14 -> repr (2 * c) (bn_lshift x) (Zmod.add u u).
Proof.
  intros Hx Hc. pose proof prime_bounds as HB. pose proof (repr_range _ _ _ Hx) as Rx. destruct Hx as [Nx Bx <-].
  destruct (bn_lshift_val x Nx) as [N V]. assert (E : bn_val (bn_lshift x) = bn_val x + bn_val x).
  { rewrite V. rewrite Z.mod_small; [lia|]. split; [lia|]. apply (Z.lt_le_trans _ (28 * P)); [nia|lia]. }
  split; [done|nia|]. rewrite E. apply Zmod.of_Z_add.
Qed.

Lemma repr_mult_k c x u k : repr c x u -> 0 <= k <= 8 ->
  exists r, bn_mult_k x k p = Some r /\ repr 2 r (Zmod.mul (fe k) u).
Proof.
  intros [Nx Bx <-] Hk. destruct (bn_mult_k_val x k p Nx Hk Hp) as (r & E & N & R & V). exists r. split; [done|].
  split; [done|lia|]. rewrite <- Zmod.of_Z_mul. by apply fe_eq.
Qed.

Lemma repr_subi c x u y : repr c x u -> 0 <= y < limb p 0 -> 0 <= c <= 28 ->
  exists r, bn_subi x y p = Some r /\ repr (c + 1) r (Zmod.sub u (fe y)).
Proof.
  intros Hx Hy Hc. pose proof prime_bounds as HB. pose proof (repr_range _ _ _ Hx) as Rx. destruct Hx as [Nx Bx <-].
  destruct (bn_subi_val x y p Nx (proj1 Hp) Hy) as (r & E & N & V). exists r. split; [done|].
  assert (Hlp : limb p 0 < 2 ^ 29).
  { destruct (proj1 Hp) as [Hl Hf]. clear -Hl Hf. destruct p as [|p0 p']; [done|]. apply Forall_cons_1 in Hf as [H0 _]. apply H0. }
  assert (Ev : bn_val r = bn_val x + P - y).
  { rewrite V. apply Z.mod_small. split; [lia|]. apply (Z.le_lt_trans _ (29 * P)); [nia|lia]. }
  split; [done|nia|]. rewrite Ev, <- Zmod.of_Z_sub. apply fe_eq.
  replace (bn_val x + P - y) with (bn_val x - y + 1 * P) by lia. apply Z.mod_add. lia.
Qed.

Lemma repr_mod x u : repr 2 x u -> exists r, bn_mod x p = Some r /\ repr 1 r u.
Proof.
  intros Hx. pose proof prime_bounds. pose proof (repr_range _ _ _ Hx) as Rx. destruct Hx as [Nx Bx <-].
  destruct (bn_mod_ok x p Nx (proj1 Hp) ltac:(lia)) as (r & E & N & V). exists r. split; [done|].
  pose proof (Z.mod_pos_bound (bn_val x) P ltac:(lia)). split; [done|lia|]. rewrite V. apply Zmod.of_Z_mod.
Qed.

Lemma repr_inverse x c u : repr c x u -> exists r, bn_inverse x p = Some r /\ repr 1 r (Zmod.inv u).
Proof.
  intros Hx. pose proof prime_bounds. destruct Hx as [Nx Bx Ex].
  destruct (bn_inverse_val p Hp P_odd x Nx) as (r & E & N & H0 & H1). exists r. split; [done|].
  destruct (decide (u = Zmod.zero)) as [Hu|Hu].
  - assert (E0 : bn_val r = 0).
    { apply H0. rewrite Hu in Ex. apply (f_equal Zmod.to_Z) in Ex. by rewrite Zmod.to_Z_of_Z, Zmod.to_Z_0 in Ex. }
    split; [done|lia|]. rewrite E0, Hu, Zmod.inv_0. apply Zmod.of_Z_0.
  - assert (Hg : Z.gcd (bn_val x) P = 1).
    { rewrite Z.gcd_comm. apply Z.coprime_prime_l; [done|]. intros Hd%Z.mod_divide; [|lia]. apply Hu. rewrite <- Ex.
      apply Zmod.to_Z_inj. by rewrite Zmod.to_Z_of_Z, Zmod.to_Z_0. }
    destruct (H1 Hg) as [Hlt Hm]. split; [done|lia|].
    apply (Zmod.mul_cancel_l_prime u _ _ HP Hu). rewrite Zmod.mul_inv_same_r_prime by done.
    rewrite <- Ex, <- Zmod.of_Z_mul, <- Zmod.of_Z_1. apply fe_eq. rewrite Hm, Z.mod_small; lia.
Qed.

Lemma top_coef x : normalized x -> limb x 8 / 2 ^ 24 = bn_val x / 2 ^ 256.
Proof.
  intros Hx. destruct (norm_dest x Hx) as (x0 & x1 & x2 & x3 & x4 & x5 & x6 & x7 & x8 & -> & Fx).
  change (limb _ 8) with x8. change [x0; x1; x2; x3; x4; x5; x6; x7; x8] with ([x0; x1; x2; x3; x4; x5; x6; x7] ++ [x8]) in *.
  apply Forall_app in Fx as [Fl _]. rewrite val_app. apply val_range in Fl. set (low := bn_val [x0; x1; x2; x3; x4; x5; x6; x7]) in *.
  change (radix (length _)) with (2 ^ 232) in *. change (bn_val [x8]) with (x8 + 2 ^ 29 * 0).
  change (2 ^ 256) with (2 ^ 232 * 2 ^ 24). rewrite <- (Z.div_div _ (2 ^ 232) (2 ^ 24)) by lia. f_equal.
  replace (low + 2 ^ 232 * (x8 + 2 ^ 29 * 0)) with (low + x8 * 2 ^ 232) by lia. rewrite Z.div_add by lia.
  by rewrite (Z.div_small low) by lia.
Qed.

(** The test of point_jacobian_add: a positive multiple of the prime is brought to
    the prime itself by bn_fast_mod. *)
Lemma repr_is_prime c x u : repr c x u -> 0 < bn_val x -> c <= 28 ->
  bn_is_equal (bn_fast_mod x p) p = Z.b2z (bool_decide (u = Zmod.zero)).
Proof.
  intros Hx Hpos Hc. pose proof prime_bounds as HB. pose proof (repr_range _ _ _ Hx) as Rx. destruct Hx as [[Hl N] B Eu].
  destruct (bn_fast_mod_ok x p Hl (norm_u32 _ N) Hp) as (N' & V & R').
  destruct (bn_fast_mod_val x p Hl (norm_u32 _ N) Hp) as (_ & E & _). rewrite top_coef in E by done.
  rewrite bn_is_equal_val by (done || apply Hp). f_equal. apply eq_bool_prop_intro.
  rewrite bool_decide_spec. rewrite <- Eu. rewrite Is_true_true, Z.eqb_eq.
  assert (Hz : fe (bn_val x) = Zmod.zero <-> bn_val x mod P = 0).
  { rewrite <- Zmod.of_Z_0. rewrite Zmod.of_Z_inj, Z.mod_0_l by lia. done. }
  rewrite Hz. clear Hz Eu. split.
  - intros EP. rewrite <- V, EP. apply Z.mod_same. lia.
  - intros [j Hj]%Z.mod_divide; [|lia]. rewrite E, Hj.
    assert (Hj1 : 1 <= j < 28) by nia. assert (Hq : j * P / 2 ^ 256 = j - 1).
    { symmetry. apply (Z.div_unique _ _ _ (j * P - (j - 1) * 2 ^ 256)); [|lia]. left. split; nia. }
    rewrite Hq. lia.
Qed.

Lemma repr_mult_half c x u : repr c x u -> 1 <= c -> repr c (bn_mult_half x p) (Zmod.mdiv u (fe 2)).
Proof.
  intros Hx Hc. pose proof prime_bounds as HB. pose proof (repr_range _ _ _ Hx) as Rx. destruct Hx as [Nx B Eu].
  destruct (bn_mult_half_val x p Nx (proj1 Hp) P_odd) as [N V].
  assert (E : exists j, 2 * bn_val (bn_mult_half x p) = bn_val x + j * P /\ bn_val (bn_mult_half x p) < c * P).
  { rewrite V. pose proof P_odd as [q Hq]%Z.odd_spec. assert (HcP : P <= c * P) by nia. set (cP := c * P) in *.
    destruct (Z.odd (bn_val x)) eqn:Eo.
    - apply Z.odd_spec in Eo as [m Hm]. exists 1. replace (bn_val x + P) with ((m + q + 1) * 2) by lia. rewrite Z.div_mul; lia.
    - rewrite <- Z.negb_even in Eo. apply negb_false_iff, Z.even_spec in Eo as [m Hm]. exists 0.
      replace (bn_val x) with (m * 2) by lia. rewrite Z.div_mul; lia. }
  destruct E as (j & E & Hlt). split; [done|done|].
  assert (H2 : fe 2 <> Zmod.zero) by (apply Zmod.of_Z_nz; rewrite Z.mod_small; lia).
  apply (Zmod.mul_cancel_l_prime (fe 2) _ _ HP H2). rewrite <- Zmod.of_Z_mul, E, <- Zmod.mul_inv_r.
  rewrite (Zmod.mul_comm (fe 2)), <- Zmod.mul_assoc, Zmod.mul_inv_same_l_prime, Zmod.mul_1_r by done.
  rewrite <- Eu. apply fe_eq. apply Z.mod_add. lia.
Qed.

Lemma repr_cnegate (b : bool) x u : repr 2 x u -> u <> Zmod.zero ->
  exists r, bn_cnegate (Z.b2z b) x p = Some r /\ repr 2 r (if b then Zmod.opp u else u).
Proof.
  intros Hx Hu. pose proof prime_bounds as HB. destruct Hx as [Nx B Eu].
  destruct (bn_cnegate_val b x p Nx (proj1 Hp) B ltac:(lia)) as (r & E & N & V). exists r. split; [done|].
  assert (Hm : 0 < bn_val x mod P < P).
  { pose proof (Z.mod_pos_bound (bn_val x) P ltac:(lia)). split; [|lia].
    destruct (Z.eq_dec (bn_val x mod P) 0) as [E0|]; [exfalso|lia]. apply Hu. rewrite <- Eu, <- Zmod.of_Z_mod, E0. apply Zmod.of_Z_0. }
  split; [done|destruct b; lia|]. rewrite V, <- Eu. destruct b.
  - rewrite <- Zmod.of_Z_opp. apply fe_eq. replace (2 * P - bn_val x mod P) with (- (bn_val x mod P) + 2 * P) by lia.
    rewrite Z.mod_add by lia. by rewrite <- Z.sub_0_l, Zminus_mod_idemp_r, Z.sub_0_l.
  - apply fe_eq. replace (bn_val x mod P + P) with (bn_val x mod P + 1 * P) by lia. rewrite Z.mod_add by lia. apply Z.mod_mod. lia.
Qed.

(** ** Tests on reduced residues *)

Lemma repr_zero : repr 1 bn_zero Zmod.zero.
Proof.
  pose proof prime_bounds. assert (E : bn_val bn_zero = 0) by apply val_zeros. split.
  - split; [done|]. apply norm_zeros.
  - rewrite E. lia.
  - rewrite E. apply Zmod.of_Z_0.
Qed.

Lemma repr_is_zero x u : repr 1 x u -> bn_is_zero x = Z.b2z (bool_decide (u = Zmod.zero)).
Proof.
  intros Hx. rewrite bn_is_zero_val, (repr_1_val _ _ Hx) by apply Hx. f_equal. apply eq_bool_prop_intro.
  rewrite bool_decide_spec, Is_true_true, Z.eqb_eq. apply Zmod.to_Z_0_iff.
Qed.

Lemma repr_is_equal x y u v : repr 1 x u -> repr 1 y v -> bn_is_equal x y = Z.b2z (bool_decide (u = v)).
Proof.
  intros Hx Hy. rewrite bn_is_equal_val, (repr_1_val _ _ Hx), (repr_1_val _ _ Hy) by (apply Hx || apply Hy). f_equal. apply eq_bool_prop_intro.
  rewrite bool_decide_spec, Is_true_true, Z.eqb_eq. apply Zmod.to_Z_inj_iff.
Qed.

End Residues.

Arguments repr p c x u : clear implicits.
End EcField.
