(* ===== verification/EcCurve.v ===== *)
(** * The curves of the firmware as groups

    For a record of curve parameters: the field of residues modulo its prime, the
    group of its points, and [CurveOk], the class of the parameter sets the code of
    ecdsa.c may be used with.  The theorems about points, keys and signatures are
    stated against this class; secp256k1 is an instance of it (EcParams). *)

From stdpp Require Import base list numbers.
From Stdlib Require Import ZArith Lia.
From Stdlib Require Import Zdivisibility ZmodDef ZmodBase ZmodInv Field.
From S2P Require Import Prelude Bignum Curves BignumSpec EcGroup EcField.

Module EcCurve.
Import Bignum Curves BignumSpec EcField.
Export EcGroup (point, Infinity, Affine).
#[export] Existing Instance EcGroup.point_eq_dec.

Abbreviation cP c := (bn_val (prime c)).
Abbreviation cN c := (bn_val (order c)).

Section Group.
Variable curve : ecdsa_curve.

Local Abbreviation felem := (Zmod (cP curve)).
Definition fa : felem := Zmod.of_Z (cP curve) (coef_a curve).
Definition fb : felem := Zmod.of_Z (cP curve) (bn_val (coef_b curve)).

Local Abbreviation ecp := (@EcGroup.point felem).
Definition on_curve (q : ecp) : Prop := EcGroup.on_curve Zmod.add Zmod.mul fa fb q.
Definition ec_neg (q : ecp) : ecp := EcGroup.negate Zmod.opp q.
Definition ec_add (q r : ecp) : ecp :=
  EcGroup.plus Zmod.one Zmod.add Zmod.mul Zmod.sub Zmod.opp Zmod.mdiv fa q r.
Definition ec_times (n : Z) (q : ecp) : ecp :=
  EcGroup.times Zmod.one Zmod.add Zmod.mul Zmod.sub Zmod.opp Zmod.mdiv fa n q.
Definition ec_third (l x1 y1 x2 : felem) : ecp := EcGroup.third Zmod.mul Zmod.sub l x1 y1 x2.
Definition ec_slope (l x1 y1 x2 y2 : felem) : Prop := EcGroup.slope Zmod.add Zmod.mul Zmod.sub fa l x1 y1 x2 y2.

Definition ec_jacobian (X Y Z : felem) (q : ecp) : Prop := EcGroup.jacobian Zmod.zero Zmod.mul X Y Z q.

(** What a point of the code stands for: reduced coordinates, and (0, 0) for the
    point at infinity. *)
Inductive stands_for (p : curve_point) : ecp -> Prop :=
  | stands_infinity : cx p = bn_zero -> cy p = bn_zero -> stands_for p Infinity
  | stands_affine x y : repr (prime curve) 1 (cx p) x -> repr (prime curve) 1 (cy p) y ->
      on_curve (Affine x y) -> stands_for p (Affine x y).

(** A prime of 256 bits that is 3 modulo 4, a coefficient [a] the Jacobian
    formulas allow, a curve without singular points and points of order two that
    does not pass through (0, 0). *)
Class CurveBase : Prop := {
  ok_prime : prime_ok (prime curve);
  ok_P : Z.prime (cP curve);
  ok_a : -3 <= coef_a curve <= 0;
  ok_b : normalized (coef_b curve) /\ 0 < bn_val (coef_b curve) < (cP curve);
  ok_limb : 3 < limb (prime curve) 0;
  ok_mod4 : cP curve mod 4 = 3;
  ok_disc : (4 * coef_a curve ^ 3 + 27 * bn_val (coef_b curve) ^ 2) mod (cP curve) <> 0;
  ok_no2 : forall x, ~ on_curve (Affine x Zmod.zero) }.

(** The parameter sets: such a curve, and a base point of prime order. *)
Class CurveOk : Prop := {
  ok_base :: CurveBase;
  ok_order : prime_ok (order curve);
  ok_N : Z.prime (cN curve);
  ok_half : normalized (order_half curve) /\ bn_val (order_half curve) = (cN curve) / 2;
  ok_G : exists g, stands_for (G curve) g /\ g <> Infinity /\ ec_times (cN curve) g = Infinity }.

Context {OK : CurveBase}.

#[export] Instance curve_prime : PrimeField (prime curve).
Proof. split; [apply ok_prime|apply ok_P]. Qed.

#[export] Instance curve_order `{!CurveOk} : PrimeField (order curve).
Proof. split; [apply ok_order|apply ok_N]. Qed.

Definition ec_field : field_theory _ _ _ _ _ _ _ _ _ := Zmod.field_theory (cP curve) ok_P.

Lemma cP_big : 2 ^ 255 < (cP curve).
Proof. destruct ok_prime as [_ H]. lia. Qed.

Lemma ec_two_nz : Zmod.add Zmod.one Zmod.one <> Zmod.zero :> felem.
Proof.
  pose proof cP_big. rewrite <- Zmod.of_Z_1, <- Zmod.of_Z_add. apply Zmod.of_Z_nz. rewrite Z.mod_small; lia.
Qed.

Lemma ec_disc_nz (two := Zmod.add Zmod.one Zmod.one : felem) (three := Zmod.add two Zmod.one) :
  Zmod.add (Zmod.mul (Zmod.mul two two) (Zmod.mul (Zmod.mul fa fa) fa))
    (Zmod.mul (Zmod.mul (Zmod.mul three three) three) (Zmod.mul fb fb)) <> Zmod.zero.
Proof.
  subst three two. unfold fa, fb. rewrite <- !Zmod.of_Z_1.
  repeat first [rewrite <- Zmod.of_Z_add | rewrite <- Zmod.of_Z_mul]. apply Zmod.of_Z_nz. pose proof ok_disc as H.
  match goal with |- ?x mod _ <> 0 => replace x with (4 * coef_a curve ^ 3 + 27 * bn_val (coef_b curve) ^ 2) by ring end. done.
Qed.

(** The laws of the group, for this curve. *)

Lemma ec_add_on_curve q r : on_curve q -> on_curve r -> on_curve (ec_add q r).
Proof. apply (EcGroup.plus_on_curve _ _ _ _ _ _ _ _ ec_field _ _ ec_two_nz). Qed.

Lemma ec_neg_on_curve q : on_curve q -> on_curve (ec_neg q).
Proof. apply (EcGroup.negate_on_curve _ _ _ _ _ _ _ _ ec_field). Qed.

Lemma ec_add_comm q r : on_curve q -> on_curve r -> ec_add q r = ec_add r q.
Proof. apply (EcGroup.plus_comm _ _ _ _ _ _ _ _ ec_field _ _ ec_two_nz). Qed.

Lemma ec_add_assoc q r s : on_curve q -> on_curve r -> on_curve s -> ec_add (ec_add q r) s = ec_add q (ec_add r s).
Proof. apply (EcGroup.plus_assoc _ _ _ _ _ _ _ _ ec_field _ _ ec_two_nz ec_disc_nz). Qed.

Lemma ec_times_on_curve n q : on_curve q -> on_curve (ec_times n q).
Proof. intros Hq. apply (EcGroup.times_on_curve _ _ _ _ _ _ _ _ ec_field _ _ ec_two_nz _ Hq). Qed.

Lemma ec_times_add m n q : on_curve q -> ec_times (m + n) q = ec_add (ec_times m q) (ec_times n q).
Proof. intros Hq. apply (EcGroup.times_add _ _ _ _ _ _ _ _ ec_field _ _ ec_two_nz ec_disc_nz _ Hq). Qed.

Lemma ec_times_neg n q : ec_times (- n) q = ec_neg (ec_times n q).
Proof. apply (EcGroup.times_neg _ _ _ _ _ _ _ _ ec_field). Qed.

Lemma ec_times_mod n k q : on_curve q -> 0 < n -> ec_times n q = Infinity -> ec_times (k mod n) q = ec_times k q.
Proof. intros Hq. apply (EcGroup.times_mod _ _ _ _ _ _ _ _ ec_field _ _ ec_two_nz ec_disc_nz _ Hq). Qed.

Lemma ec_times_inf n k q : on_curve q -> Z.prime n -> ec_times n q = Infinity -> q <> Infinity ->
  ec_times k q = Infinity <-> k mod n = 0.
Proof. intros Hq. apply (EcGroup.times_inf _ _ _ _ _ _ _ _ ec_field _ _ ec_two_nz ec_disc_nz _ Hq). Qed.

Lemma ec_times_times m n q : on_curve q -> ec_times m (ec_times n q) = ec_times (m * n) q.
Proof. apply (EcGroup.times_times _ _ _ _ _ _ _ _ ec_field _ _ ec_two_nz ec_disc_nz). Qed.

Lemma ec_slope_add x1 y1 x2 y2 : on_curve (Affine x1 y1) -> on_curve (Affine x2 y2) -> ~ (x1 = x2 /\ y1 = Zmod.opp y2) ->
  exists l, ec_slope l x1 y1 x2 y2 /\ ec_add (Affine x1 y1) (Affine x2 y2) = ec_third l x1 y1 x2.
Proof. apply (EcGroup.plus_slope _ _ _ _ _ _ _ _ ec_field _ _ ec_two_nz). Qed.

Lemma ec_add_third l x1 y1 x2 y2 : on_curve (Affine x1 y1) -> on_curve (Affine x2 y2) -> ~ (x1 = x2 /\ y1 = Zmod.opp y2) ->
  ec_slope l x1 y1 x2 y2 -> ec_add (Affine x1 y1) (Affine x2 y2) = ec_third l x1 y1 x2.
Proof. apply (EcGroup.plus_third _ _ _ _ _ _ _ _ ec_field _ _ ec_two_nz). Qed.

Lemma ec_add_opposite x y1 y2 : y1 = Zmod.opp y2 -> ec_add (Affine x y1) (Affine x y2) = Infinity.
Proof. apply EcGroup.plus_opposite. Qed.

Lemma fe_2 : Zmod.of_Z (cP curve) 2 = Zmod.add Zmod.one Zmod.one.
Proof. by rewrite <- !Zmod.of_Z_1, <- !Zmod.of_Z_add. Qed.

Lemma fe_3 : Zmod.of_Z (cP curve) 3 = Zmod.add (Zmod.add Zmod.one Zmod.one) Zmod.one.
Proof. by rewrite <- !Zmod.of_Z_1, <- !Zmod.of_Z_add. Qed.

Lemma fe_minus_a : Zmod.of_Z (cP curve) (- coef_a curve) = Zmod.opp fa.
Proof. apply Zmod.of_Z_opp. Qed.

Lemma self_opposite (y : felem) : y = Zmod.opp y -> y = Zmod.zero.
Proof.
  intros E. destruct (EcGroup.mul_zero _ _ _ _ _ _ _ _ ec_field (Zmod.add Zmod.one Zmod.one) y) as [E'|]; [|by apply ec_two_nz in E'|done].
  rewrite Zmod.mul_add_l, Zmod.mul_1_l. rewrite E at 1. apply Zmod.add_opp_same_l.
Qed.

(** The formulas of the code, with its constants. *)

Lemma ec_tangent x y : on_curve (Affine x y) -> y <> Zmod.zero ->
  let l := Zmod.mul (Zmod.sub (Zmod.mul (Zmod.of_Z (cP curve) 3) (Zmod.mul x x)) (Zmod.of_Z (cP curve) (- coef_a curve)))
             (Zmod.inv (Zmod.mul (Zmod.of_Z (cP curve) 2) y)) in
  let x3 := Zmod.sub (Zmod.mul l l) (Zmod.add x x) in
  ec_add (Affine x y) (Affine x y) = Affine x3 (Zmod.sub (Zmod.mul l (Zmod.sub x x3)) y).
Proof.
  intros Hc Hy l x3. unfold x3. rewrite (EcGroup.third_sum _ _ _ _ _ _ _ _ ec_field). apply ec_add_third; [done|done| |].
  - intros [_ E]. by apply Hy, self_opposite.
  - unfold l. rewrite fe_2, fe_3, fe_minus_a. by apply (EcGroup.tangent_slope _ _ _ _ _ _ _ _ ec_field _ ec_two_nz).
Qed.

Lemma ec_chord x1 y1 x2 y2 : on_curve (Affine x1 y1) -> on_curve (Affine x2 y2) -> x1 <> x2 ->
  let l := Zmod.mul (Zmod.inv (Zmod.sub x2 x1)) (Zmod.sub y2 y1) in
  let x3 := Zmod.sub (Zmod.mul l l) (Zmod.add x1 x2) in
  ec_add (Affine x1 y1) (Affine x2 y2) = Affine x3 (Zmod.sub (Zmod.mul l (Zmod.sub x1 x3)) y1).
Proof.
  intros H1 H2 Hx l x3. unfold x3. rewrite (EcGroup.third_sum _ _ _ _ _ _ _ _ ec_field).
  apply ec_add_third; [done|done|tauto|]. by apply (EcGroup.chord_slope _ _ _ _ _ _ _ _ ec_field fa fb).
Qed.

Lemma ec_jacobian_double X Y Z x y : ec_jacobian X Y Z (Affine x y) -> y <> Zmod.zero ->
  let m := Zmod.mdiv (Zmod.sub (Zmod.mul (Zmod.of_Z (cP curve) 3) (Zmod.mul X X))
             (Zmod.mul (Zmod.of_Z (cP curve) (- coef_a curve)) (Zmod.mul (Zmod.mul Z Z) (Zmod.mul Z Z)))) (Zmod.of_Z (cP curve) 2) in
  let w := Zmod.mul (Zmod.mul Y Y) X in
  let X3 := Zmod.sub (Zmod.mul m m) (Zmod.add w w) in
  ec_jacobian X3 (Zmod.sub (Zmod.mul m (Zmod.sub w X3)) (Zmod.mul (Zmod.mul Y Y) (Zmod.mul Y Y))) (Zmod.mul Y Z)
    (ec_add (Affine x y) (Affine x y)).
Proof.
  intros HJ Hy. rewrite fe_2, fe_3, fe_minus_a. by apply (EcGroup.jacobian_double_law _ _ _ _ _ _ _ _ ec_field _ ec_two_nz).
Qed.

Lemma ec_jacobian_add X Y Z x1 y1 x2 y2 h r : ec_jacobian X Y Z (Affine x2 y2) ->
  on_curve (Affine x1 y1) -> on_curve (Affine x2 y2) -> ~ (x1 = x2 /\ y1 = Zmod.opp y2) ->
  (if decide (x1 = x2)
   then h = Zmod.add (Zmod.mul y1 (Zmod.mul (Zmod.mul Z Z) Z)) Y /\
        r = Zmod.sub (Zmod.mul (Zmod.of_Z (cP curve) 3) (Zmod.mul X X))
              (Zmod.mul (Zmod.of_Z (cP curve) (- coef_a curve)) (Zmod.mul (Zmod.mul Z Z) (Zmod.mul Z Z)))
   else h = Zmod.sub (Zmod.mul x1 (Zmod.mul Z Z)) X /\ r = Zmod.sub (Zmod.mul y1 (Zmod.mul (Zmod.mul Z Z) Z)) Y) ->
  let s := Zmod.mul (Zmod.add (Zmod.mul x1 (Zmod.mul Z Z)) X) (Zmod.mul h h) in
  let t := Zmod.mul (Zmod.add (Zmod.mul y1 (Zmod.mul (Zmod.mul Z Z) Z)) Y) (Zmod.mul (Zmod.mul h h) h) in
  let X3 := Zmod.sub (Zmod.mul r r) s in
  ec_jacobian X3 (Zmod.mdiv (Zmod.sub (Zmod.mul r (Zmod.sub (Zmod.sub s X3) X3)) t) (Zmod.of_Z (cP curve) 2)) (Zmod.mul h Z)
    (ec_add (Affine x1 y1) (Affine x2 y2)).
Proof.
  rewrite fe_2, fe_3, fe_minus_a. apply (EcGroup.jacobian_add_law _ _ _ _ _ _ _ _ ec_field fa fb ec_two_nz).
Qed.

Lemma ec_jacobian_affine X Y Z q : ec_jacobian X Y Z q ->
  q = Affine (Zmod.mul X (Zmod.mul (Zmod.inv Z) (Zmod.inv Z))) (Zmod.mul Y (Zmod.mul (Zmod.mul (Zmod.inv Z) (Zmod.inv Z)) (Zmod.inv Z))).
Proof. apply (EcGroup.jacobian_affine _ _ _ _ _ _ _ _ ec_field). Qed.

Lemma ec_jacobian_neg X Y Z q : ec_jacobian X Y Z q ->
  ec_jacobian X Y (Zmod.opp Z) (ec_neg q) /\ ec_jacobian X (Zmod.opp Y) Z (ec_neg q).
Proof. apply (EcGroup.jacobian_negate _ _ _ _ _ _ _ _ ec_field). Qed.

Lemma ec_same_x x y1 y2 : on_curve (Affine x y1) -> on_curve (Affine x y2) -> y1 = y2 \/ y1 = Zmod.opp y2.
Proof. apply (EcGroup.same_x _ _ _ _ _ _ _ _ ec_field). Qed.

Lemma origin_off_curve : ~ on_curve (Affine Zmod.zero Zmod.zero).
Proof.
  destruct ok_b as [_ Hb]. unfold on_curve. cbn. rewrite !Zmod.mul_0_l, Zmod.mul_0_r, !Zmod.add_0_l. intros E. symmetry in E. revert E.
  apply Zmod.of_Z_nz. rewrite Z.mod_small; lia.
Qed.

End Group.
End EcCurve.
