(* ===== verification/EcCofactor.v ===== *)
(** * Every point has the order of the base point

    The code checks that a public key is a point of the curve, and not that it is
    a multiple of the base point: its authors assume curves of cofactor one.  For
    the curves of CurveOk this is a theorem.  A point whose multiple by the order
    is not the point at infinity would give three disjoint classes of points, each
    as large as the group of the base point; the curve has at most 2 p + 1
    points. *)

From stdpp Require Import base list numbers.
From Stdlib Require Import ZArith Lia.
From Stdlib Require Import Zdivisibility ZmodDef ZmodBase ZmodInv.
From S2P Require Import Prelude Bignum Curves BignumSpec EcGroup EcField EcCurve.

Module EcCofactor.
Import Bignum Curves BignumSpec EcField EcCurve.

Section Cofactor.
Variable curve : ecdsa_curve.
Context {OK : CurveOk curve}.
Local Abbreviation P := (cP curve).
Local Abbreviation N := (cN curve).
Local Abbreviation ecp := (@point (Zmod P)).

(** A number for each point of the curve: the abscissa and the parity of the
    ordinate. *)
Definition point_code (q : ecp) : Z :=
  match q with
  | Infinity => 2 * P
  | Affine x y => 2 * Zmod.to_Z x + Zmod.to_Z y mod 2
  end.

Lemma elem_range (x : Zmod P) : 0 <= Zmod.to_Z x < P.
Proof. pose proof (cP_big curve). pose proof (Zmod.to_Z_range x). lia. Qed.

Lemma point_code_range q : 0 <= point_code q < 2 * P + 1.
Proof.
  pose proof (cP_big curve). destruct q as [|x y]; cbn [point_code]; [lia|]. pose proof (elem_range x).
  pose proof (Z.mod_pos_bound (Zmod.to_Z y) 2 ltac:(lia)). lia.
Qed.

Lemma opposite_parity (y : Zmod P) : y <> Zmod.zero -> Zmod.to_Z (Zmod.opp y) mod 2 <> Zmod.to_Z y mod 2.
Proof.
  intros Hy. pose proof (P_odd (p := prime curve)) as [k Hk]%Z.odd_spec. pose proof (elem_range y) as R.
  assert (Zmod.to_Z y <> 0) by (intros E; by apply Hy, Zmod.to_Z_0_iff).
  rewrite Zmod.to_Z_opp, Z.mod_opp_l_nz by (rewrite ?Z.mod_small; lia). rewrite (Z.mod_small _ P) by lia. set (v := Zmod.to_Z y) in *. clearbody v. zlia.
Qed.

Lemma point_code_inj q r : on_curve curve q -> on_curve curve r -> point_code q = point_code r -> q = r.
Proof.
  intros Hq Hr. destruct q as [|x1 y1], r as [|x2 y2]; cbn [point_code]; intros E; [done|..].
  - pose proof (elem_range x2). pose proof (Z.mod_pos_bound (Zmod.to_Z y2) 2 ltac:(lia)). lia.
  - pose proof (elem_range x1). pose proof (Z.mod_pos_bound (Zmod.to_Z y1) 2 ltac:(lia)). lia.
  - pose proof (Z.mod_pos_bound (Zmod.to_Z y1) 2 ltac:(lia)). pose proof (Z.mod_pos_bound (Zmod.to_Z y2) 2 ltac:(lia)).
    assert (x1 = x2) as -> by (apply Zmod.to_Z_inj; lia). destruct (ec_same_x curve _ _ _ Hq Hr) as [->|Ho]; [done|].
    destruct (decide (y2 = Zmod.zero)) as [->|Hy]; [by apply (ok_no2 curve) in Hr|].
    exfalso. apply (opposite_parity y2 Hy). rewrite <- Ho. lia.
Qed.

(** More than 2 p + 1 points of the curve cannot all be different. *)
Lemma few_points (f : Z -> ecp) n : 0 <= n -> (forall i, on_curve curve (f i)) ->
  (forall i j, 0 <= i < n -> 0 <= j < n -> f i = f j -> i = j) -> n <= 2 * P + 1.
Proof.
  intros Hn Hf Hinj. pose proof (cP_big curve).
  assert (HD : NoDup (map (fun i => point_code (f i)) (seqZ 0 n))).
  { apply NoDup_fmap_2_strong; [|apply NoDup_seqZ]. intros i j Hi%elem_of_seqZ Hj%elem_of_seqZ E.
    apply Hinj; [lia|lia|]. by apply point_code_inj. }
  assert (HI : map (fun i => point_code (f i)) (seqZ 0 n) ⊆ seqZ 0 (2 * P + 1)).
  { intros c (i & -> & _)%list_elem_of_fmap. apply elem_of_seqZ. pose proof (point_code_range (f i)). lia. }
  apply (NoDup_submseteq _ _ HD), submseteq_length in HI. rewrite length_map, !length_seqZ in HI. lia.
Qed.

Lemma no_order_2 q : on_curve curve q -> ec_add curve q q = Infinity -> q = Infinity.
Proof.
  intros Hq E. destruct q as [|x y]; [done|]. exfalso. destruct (decide (y = Zmod.opp y)) as [Ey|Hy].
  - apply (self_opposite curve) in Ey as ->. by apply (ok_no2 curve) in Hq.
  - destruct (ec_slope_add curve _ _ _ _ Hq Hq) as (l & _ & E'); [tauto|]. by rewrite E in E'.
Qed.

Lemma ec_add_inf_r q : on_curve curve q -> ec_add curve q Infinity = q.
Proof. intros Hq. by rewrite (ec_add_comm curve q Infinity Hq I). Qed.

Lemma ec_neg_l q : ec_add curve (ec_neg curve q) q = Infinity.
Proof. destruct q as [|x y]; [done|]. by apply (ec_add_opposite curve). Qed.

Lemma ec_neg_r q : on_curve curve q -> ec_add curve q (ec_neg curve q) = Infinity.
Proof. intros Hq. rewrite (ec_add_comm curve _ _ Hq (ec_neg_on_curve curve _ Hq)). apply ec_neg_l. Qed.

(** a + b = c + d gives a - c = d - b. *)
Lemma ec_exchange a b c d : on_curve curve a -> on_curve curve b -> on_curve curve c -> on_curve curve d ->
  ec_add curve a b = ec_add curve c d -> ec_add curve a (ec_neg curve c) = ec_add curve d (ec_neg curve b).
Proof.
  intros Ha Hb Hc Hd E. pose proof (ec_neg_on_curve curve _ Hb) as Hnb. pose proof (ec_neg_on_curve curve _ Hc) as Hnc.
  assert (Ea : a = ec_add curve c (ec_add curve d (ec_neg curve b))).
  { rewrite <- (ec_add_assoc curve) by done. by rewrite <- E, (ec_add_assoc curve), ec_neg_r, ec_add_inf_r. }
  rewrite Ea at 1. set (m := ec_add curve d (ec_neg curve b)). assert (Hm : on_curve curve m) by (by apply (ec_add_on_curve curve)).
  by rewrite (ec_add_comm curve c m), (ec_add_assoc curve), ec_neg_r, ec_add_inf_r.
Qed.

(** The multiples of [q] by 0, 1 and 2, plus the multiples of the base point. *)
Definition coset_point (q g : ecp) (m : Z) : ecp := ec_add curve (ec_times curve (m / N) q) (ec_times curve (m mod N) g).

Lemma small_multiple c q : on_curve curve q -> -2 <= c <= 2 -> c <> 0 -> ec_times curve c q = Infinity -> q = Infinity.
Proof.
  intros Hq Hc Hc0 E. assert (E' : ec_times curve (Z.abs c) q = Infinity).
  { destruct (Z.abs_eq_or_opp c) as [-> | ->]; [done|]. by rewrite (ec_times_neg curve), E. }
  assert (H : Z.abs c = 1 \/ Z.abs c = 1 + 1) by lia. destruct H as [H|H]; rewrite H in E'; [done|].
  rewrite (ec_times_add curve) in E' by done. by apply no_order_2.
Qed.

(** Every point of the curve times the order is the point at infinity. *)
Lemma ec_order_all q : on_curve curve q -> ec_times curve N q = Infinity.
Proof.
  intros Hq. destruct (decide (ec_times curve N q = Infinity)) as [|Hne]; [done|]. exfalso.
  destruct (ok_G curve) as (g & Hsg & Hg0 & HgN). assert (Hg : on_curve curve g) by (by destruct Hsg).
  pose proof (prime_bounds (p := order curve)) as BN. pose proof (prime_bounds (p := prime curve)) as BP.
  assert (3 * N <= 2 * P + 1); [|lia]. apply (few_points (coset_point q g)); [lia| |].
  { intros i. apply (ec_add_on_curve curve); by apply (ec_times_on_curve curve). }
  intros m m' Hm Hm' E. unfold coset_point in E.
  apply ec_exchange in E; [|by apply (ec_times_on_curve curve)..]. rewrite <- !(ec_times_neg curve), <- !(ec_times_add curve) in E by done.
  set (c := m / N + - (m' / N)) in *. set (i := m' mod N + - (m mod N)) in *.
  assert (Hc : -2 <= c <= 2).
  { assert (0 <= m / N < 3) by (split; [apply Z.div_pos|apply Z.div_lt_upper_bound]; lia).
    assert (0 <= m' / N < 3) by (split; [apply Z.div_pos|apply Z.div_lt_upper_bound]; lia). unfold c. lia. }
  assert (Ec : ec_times curve c (ec_times curve N q) = Infinity).
  { rewrite (ec_times_times curve) by done. rewrite Z.mul_comm, <- (ec_times_times curve), E, (ec_times_times curve) by done.
    rewrite (ec_times_inf curve N _ g Hg (ok_N curve) HgN Hg0). rewrite Z.mul_comm. apply Z.mod_mul. lia. }
  assert (Hc0 : c = 0).
  { destruct (Z.eq_dec c 0) as [|Hc0]; [done|]. exfalso. by apply Hne, (small_multiple c); [apply (ec_times_on_curve curve)|..]. }
  replace (m) with (N * (m / N) + m mod N) by (symmetry; apply Z.div_mod; lia). replace (m') with (N * (m' / N) + m' mod N) by (symmetry; apply Z.div_mod; lia).
  rewrite Hc0 in E. symmetry in E. apply (ec_times_inf curve N i g Hg (ok_N curve) HgN Hg0) in E.
  assert (i = 0) by (apply Z.mod_divide in E as [e He]; [|lia]; pose proof (Z.mod_pos_bound m N ltac:(lia)); pose proof (Z.mod_pos_bound m' N ltac:(lia));
    assert (e = 0) by (unfold i in He; nia); subst e; lia).
  lia.
Qed.

End Cofactor.
End EcCofactor.
