(* ===== verification/EcdsaPoint.v ===== *)
(** * Points: the formulas of ecdsa.c compute the group law

    The affine operations point_double and point_add, the Jacobian operations and
    the conversions between the two, each against the group of EcCurve. *)

From stdpp Require Import base list numbers.
From Stdlib Require Import ZArith Lia.
From Stdlib Require Import Zdivisibility ZmodDef ZmodBase ZmodInv Field.
From S2P Require Import Prelude Bignum Curves BignumSpec BignumBits BignumConv BignumMul BignumPow BignumInverse Ecdsa EcField EcCurve.
Local Open Scope fw_scope.

Module EcdsaPoint.
Import Bignum Curves BignumSpec BignumBits BignumConv BignumMul BignumPow BignumInverse Ecdsa EcField EcCurve.

(** Follows the rules of EcField through nested calls. *)
Ltac fp :=
  lazymatch goal with
  | |- repr _ _ (bn_multiply _ _ _) _ => eapply repr_mul; [fp|fp|lia..]
  | |- repr _ _ (bn_subtractmod _ _ _) _ => eapply repr_subtractmod; [fp|fp2|lia]
  | |- repr _ _ (bn_fast_mod _ _) _ => eapply repr_fast_mod; fp
  | |- repr _ _ (bn_addmod _ _ _) _ => eapply repr_addmod; fp
  | |- repr _ _ (bn_add _ _) _ => eapply repr_add; [fp|fp|lia..]
  | |- repr _ _ (bn_lshift _) _ => eapply repr_lshift; [fp|lia]
  | |- repr _ _ (bn_mult_half _ _) _ => eapply repr_mult_half; [fp|lia]
  | H : repr _ _ ?x _ |- repr _ _ ?x _ => exact H
  end
with fp2 := eapply repr_weaken; [fp|lia].

Lemma bind_is {A B} (f : A -> option B) m x : m = Some x -> m ≫= f = f x.
Proof. by intros ->. Qed.

(** The same for a call that can fail: the result [r] with what it stands for. *)
Tactic Notation "fp_step" open_constr(lem) "as" ident(r) ident(H) :=
  let E := fresh "E" in
  edestruct lem as (r & E & H); [..|rewrite (bind_is _ _ _ E); clear E; cbv beta zeta].

Section Points.
Variable curve : ecdsa_curve.
Context {OK : CurveBase curve}.
Local Abbreviation p := (prime curve).
Local Abbreviation F := (Zmod (cP curve)).
Local Abbreviation rp := (repr p).
Local Abbreviation r_mod := (@repr_mod p _).
Local Abbreviation r_inverse := (@repr_inverse p _).
Local Abbreviation r_mult_k := (@repr_mult_k p _).
Local Abbreviation r_subi := (@repr_subi p _).

Lemma truth_b2z (b : bool) : truth (Z.b2z b) = b.
Proof. by destruct b. Qed.

Lemma stands_on_curve q u : stands_for curve q u -> on_curve curve u.
Proof. by destruct 1. Qed.

Lemma is_infinity_ok q u : stands_for curve q u -> point_is_infinity q = bool_decide (u = Infinity).
Proof.
  intros [E1 E2|x y Hx Hy Hc]; unfold point_is_infinity.
  - by rewrite E1, E2.
  - rewrite (repr_is_zero _ _ Hx), (repr_is_zero _ _ Hy), !truth_b2z.
    rewrite (bool_decide_eq_false_2 (Affine x y = Infinity)) by done. apply andb_false_iff.
    destruct (decide (x = Zmod.zero)) as [->|]; [|left; by apply bool_decide_eq_false].
    destruct (decide (y = Zmod.zero)) as [->|]; [by apply origin_off_curve in Hc|right; by apply bool_decide_eq_false].
Qed.

Lemma stands_infinity_ok : stands_for curve point_set_infinity Infinity.
Proof. by constructor. Qed.

Lemma minus_a : u32 (- coef_a curve) = - coef_a curve /\ u8 (- coef_a curve) = - coef_a curve /\ 0 <= - coef_a curve < limb p 0.
Proof. pose proof (ok_a curve). pose proof (ok_limb curve). rewrite u32_small, u8_small by lia. lia. Qed.

(** Twice a point. *)
Lemma point_double_ok q u : stands_for curve q u ->
  exists r, point_double curve q = Some r /\ stands_for curve r (ec_add curve u u).
Proof.
  intros Hq. unfold point_double. rewrite (is_infinity_ok _ _ Hq). destruct Hq as [E1 E2|x y Hx Hy Hc].
  { rewrite bool_decide_eq_true_2 by done. exists q. split; [done|]. by constructor. }
  rewrite bool_decide_eq_false_2 by done. rewrite (repr_is_zero _ _ Hy), truth_b2z.
  destruct (decide (y = Zmod.zero)) as [->|Hy0].
  { rewrite bool_decide_eq_true_2 by done. eexists. split; [done|]. rewrite ec_add_opposite by (by rewrite Zmod.opp_0). apply stands_infinity_ok. }
  rewrite bool_decide_eq_false_2 by done. destruct minus_a as (Ea & _ & Ra). rewrite Ea.
  fp_step (r_mult_k 1 (cy q) y 2) as l1 Hl1; [done|lia|].
  fp_step (r_mod (bn_fast_mod l1 p)) as l2 Hl2; [fp|].
  fp_step (r_inverse l2) as l3 Hl3; [fp|].
  fp_step (r_mult_k _ (bn_multiply (cx q) (cx q) p) _ 3) as x1 Hx1; [fp|lia|].
  fp_step (r_subi _ x1) as x2 Hx2; [fp|done|lia|].
  eassert (Hl : rp 2 (bn_multiply x2 l3 p) _) by fp. set (l := bn_multiply x2 l3 p) in *. clearbody l.
  fp_step (r_mod (bn_fast_mod (bn_subtractmod (bn_multiply l l p) (bn_lshift (cx q)) p) p)) as xr Hxr; [fp|].
  fp_step (r_mod (bn_fast_mod (bn_subtractmod (bn_multiply l (bn_subtractmod (cx q) xr p) p) (cy q) p) p)) as yr Hyr; [fp|].
  eexists. split; [done|]. pose proof (ec_add_on_curve curve _ _ Hc Hc) as Hs. rewrite ec_tangent in Hs |- * by done.
  by constructor.
Qed.

(** The sum of two points, whatever they are. *)
Lemma point_add_ok q1 q2 u1 u2 : stands_for curve q1 u1 -> stands_for curve q2 u2 ->
  exists r, point_add curve q1 q2 = Some r /\ stands_for curve r (ec_add curve u1 u2).
Proof.
  intros H1 H2. unfold point_add. rewrite (is_infinity_ok _ _ H1), (is_infinity_ok _ _ H2).
  pose proof (stands_on_curve _ _ H1) as C1. pose proof (stands_on_curve _ _ H2) as C2.
  destruct (decide (u1 = Infinity)) as [->|N1].
  { rewrite bool_decide_eq_true_2 by done. by exists q2. }
  rewrite bool_decide_eq_false_2 by done. destruct (decide (u2 = Infinity)) as [->|N2].
  { rewrite bool_decide_eq_true_2 by done. exists q1. split; [done|]. by rewrite ec_add_comm. }
  rewrite bool_decide_eq_false_2 by done. pose proof (point_double_ok _ _ H2) as HD.
  destruct H1 as [|x1 y1 X1 Y1 _]; [done|]. destruct H2 as [|x2 y2 X2 Y2 _]; [done|].
  unfold point_is_equal, point_is_negative_of.
  rewrite (repr_is_equal _ _ _ _ X1 X2), (repr_is_equal _ _ _ _ Y1 Y2), (repr_is_zero _ _ Y1), !truth_b2z.
  destruct (decide (x1 = x2)) as [->|Hx].
  { rewrite (bool_decide_eq_true_2 (x2 = x2)) by done. cbn [andb negb].
    destruct (decide (y1 = y2)) as [->|Hy]; [by rewrite (bool_decide_eq_true_2 (y2 = y2))|].
    rewrite (bool_decide_eq_false_2 (y1 = y2)) by done. destruct (ec_same_x curve _ _ _ C1 C2) as [|Ho]; [done|].
    rewrite bool_decide_eq_false_2. 2: { intros ->. apply Hy. by rewrite <- (Zmod.opp_opp y2), <- Ho, Zmod.opp_0. }
    eexists. split; [done|]. rewrite ec_add_opposite by done. apply stands_infinity_ok. }
  rewrite (bool_decide_eq_false_2 (x1 = x2)) by done. cbn [andb negb].
  fp_step (r_inverse (bn_subtractmod (cx q2) (cx q1) p)) as i Hi; [fp|].
  eassert (Hl : rp 2 (bn_multiply i (bn_subtractmod (cy q2) (cy q1) p) p) _) by fp. set (l := bn_multiply i _ p) in *. clearbody l.
  fp_step (r_mod (bn_fast_mod (bn_subtractmod (bn_multiply l l p) (bn_addmod (cx q1) (cx q2) p) p) p)) as xr Hxr; [fp|].
  fp_step (r_mod (bn_fast_mod (bn_subtractmod (bn_multiply l (bn_subtractmod (cx q1) xr p) p) (cy q1) p) p)) as yr Hyr; [fp|].
  eexists. split; [done|]. pose proof (ec_add_on_curve curve _ _ C1 C2) as Hs. rewrite ec_chord in Hs |- * by done.
  by constructor.
Qed.

(** ** Jacobian points *)

(** A Jacobian point of the code, partly reduced, and the affine point it stands for. *)
Definition jac_stands (j : jacobian_curve_point) (u : @point F) : Prop :=
  on_curve curve u /\
  exists X Y Z, rp 2 (jx j) X /\ rp 2 (jy j) Y /\ rp 2 (jz j) Z /\ ec_jacobian curve X Y Z u.

Lemma jac_affine j u : jac_stands j u -> exists x y, u = Affine x y.
Proof. intros (_ & X & Y & Z & _ & _ & _ & [_ (x & y & -> & _)]). eauto. Qed.

Lemma k_random_ok (q : bignum256) fuel words k rest : normalized q -> k_random_loop fuel words q = Some (k, rest) ->
  normalized k /\ 0 < bn_val k < bn_val q.
Proof.
  intros Hq. revert words. induction fuel as [|fuel IH]; intros words; [done|]. cbn [k_random_loop].
  destruct (Nat.ltb_spec (length words) 9) as [|Hlen]; [done|].
  assert (Hk : normalized (random_limbs words)).
  { unfold random_limbs. do 9 (destruct words as [|? words]; [cbn in Hlen; lia|]). cbn [take drop map app]. split; [done|].
    change (Z.shiftl 1 BN_BITS_PER_LIMB - 1) with (Z.ones 29). change (Z.shiftl 1 BN_BITS_LAST_LIMB - 1) with (Z.ones 24).
    repeat constructor; rewrite Z.land_ones by lia; unfold norm_limb; zlia. }
  rewrite bn_is_zero_val, bn_is_less_val, !truth_b2z by done.
  destruct (Z.eqb_spec (bn_val (random_limbs words)) 0); cbn [orb]; [apply IH|].
  destruct (Z.ltb_spec (bn_val (random_limbs words)) (bn_val q)); cbn [negb]; [|apply IH].
  intros [= <- <-]. pose proof (normalized_range _ Hk). split; [done|lia].
Qed.

Lemma random_residue words z rest : generate_k_random words p = Some (z, rest) ->
  exists Z, rp 1 z Z /\ Z <> Zmod.zero.
Proof.
  intros E. apply k_random_ok in E as [Nz Rz]; [|apply (ok_prime curve)]. exists (Zmod.of_Z (cP curve) (bn_val z)). split.
  - split; [done|lia|done].
  - apply Zmod.of_Z_nz. rewrite Z.mod_small; lia.
Qed.

Lemma curve_to_jacobian_ok words q u z rest : stands_for curve q u -> u <> Infinity ->
  generate_k_random words p = Some (z, rest) ->
  exists j, curve_to_jacobian words q p = Some (j, rest) /\ jac_stands j u.
Proof.
  intros Hq Hu E. destruct (random_residue _ _ _ E) as (Z & Hz & HZ). destruct Hq as [|x y Hx Hy Hc]; [done|].
  unfold curve_to_jacobian. rewrite (bind_is _ _ _ E). cbv beta zeta iota. eexists. split; [reflexivity|].
  split; [done|]. eexists _, _, _. cbn [jx jy jz]. split; [fp|]. split; [fp|]. split; [fp2|].
  split; [done|]. eexists _, _. done.
Qed.

Lemma jacobian_to_curve_ok j u : jac_stands j u ->
  exists q, jacobian_to_curve j p = Some q /\ stands_for curve q u.
Proof.
  intros (Hc & X & Y & Z & HX & HY & HZ & HJ). unfold jacobian_to_curve.
  fp_step (r_inverse (jz j)) as i Hi; [fp|].
  fp_step (r_mod (bn_multiply (jx j) (bn_multiply i i p) p)) as x Hx; [fp|].
  fp_step (r_mod (bn_multiply (jy j) (bn_multiply (bn_multiply i i p) i p) p)) as y Hy; [fp|].
  eexists. split; [done|]. rewrite (ec_jacobian_affine curve _ _ _ _ HJ) in Hc |- *. by constructor.
Qed.

Lemma a_guard : negb ((-3 <=? coef_a curve) && (coef_a curve <=? 0)) = false.
Proof. pose proof (ok_a curve). apply negb_false_iff, andb_true_intro. split; apply Z.leb_le; lia. Qed.

Lemma double_affine x y : ec_add curve (Affine x y) (Affine x y) <> Infinity -> y <> Zmod.zero.
Proof. intros H ->. apply H, ec_add_opposite. by rewrite Zmod.opp_0. Qed.

Lemma point_jacobian_double_ok j u : jac_stands j u -> ec_add curve u u <> Infinity ->
  exists r, point_jacobian_double j curve = Some r /\ jac_stands r (ec_add curve u u).
Proof.
  intros Hj Hu. destruct (jac_affine _ _ Hj) as (x & y & ->). destruct Hj as (Hc & X & Y & Z & HX & HY & HZ & HJ).
  unfold point_jacobian_double. rewrite a_guard. destruct minus_a as (_ & Ea & Ra). rewrite Ea. pose proof (ok_a curve) as Ha. cbv zeta.
  fp_step (r_mult_k _ (bn_multiply (jx j) (jx j) p) _ 3) as m1 Hm1; [fp|lia|].
  fp_step (r_mult_k _ (bn_multiply (bn_multiply (jz j) (jz j) p) (bn_multiply (jz j) (jz j) p) p) _ (- coef_a curve)) as az Haz; [fp|lia|].
  eassert (Hm : rp _ (bn_mult_half (bn_subtractmod m1 az p) p) _) by fp. set (m := bn_mult_half _ p) in *. clearbody m.
  eexists. split; [reflexivity|]. split; [by apply ec_add_on_curve|]. eexists _, _, _. cbn [jx jy jz].
  split; [fp|]. split; [fp|]. split; [fp|]. by apply ec_jacobian_double, (double_affine x y).
Qed.

(** The test for doubling: the abscissas agree. *)
Lemma same_abscissa X Z x1 x2 : X = Zmod.mul x2 (Zmod.mul Z Z) -> Z <> Zmod.zero ->
  Zmod.sub (Zmod.mul x1 (Zmod.mul Z Z)) X = Zmod.zero :> F <-> x1 = x2.
Proof.
  intros -> HZ. rewrite <- Zmod.mul_sub_l, !(Zmod.mul_0_iff_prime (ok_P curve)), Zmod.sub_eq_0_iff. tauto.
Qed.

Lemma cmov_repr (d : bool) c x y u v : rp c x u -> rp c y v ->
  exists r, bn_cmov (Z.b2z d) x y = Some r /\ rp c r (if d then u else v).
Proof.
  intros Hx Hy. exists (if d then x else y). split; [|by destruct d]. apply bn_cmov_norm; [apply Hx|apply Hy].
Qed.

(** What the code takes for r2 in both cases of the coefficient a. *)
Lemma jacobian_r2 X Z r az : rp 2 r (Zmod.mul (Zmod.of_Z (cP curve) 3) (Zmod.mul X X)) ->
  (coef_a curve <> 0 -> rp 2 az (Zmod.mul (Zmod.of_Z (cP curve) (- coef_a curve)) (Zmod.mul (Zmod.mul Z Z) (Zmod.mul Z Z)))) ->
  rp 4 (if negb (coef_a curve =? 0) then bn_subtractmod r az p else r)
    (Zmod.sub (Zmod.mul (Zmod.of_Z (cP curve) 3) (Zmod.mul X X))
      (Zmod.mul (Zmod.of_Z (cP curve) (- coef_a curve)) (Zmod.mul (Zmod.mul Z Z) (Zmod.mul Z Z)))).
Proof.
  intros Hr Haz. destruct (Z.eqb_spec (coef_a curve) 0) as [E|Hne]; cbn [negb].
  - rewrite E. change (- 0) with 0. rewrite Zmod.of_Z_0, Zmod.mul_0_l, Zmod.sub_0_r. fp2.
  - specialize (Haz Hne). eapply repr_weaken; [fp|lia].
Qed.

(** The sum of an affine and a Jacobian point, equal or not, whose sum is not the
    point at infinity. *)
Lemma point_jacobian_add_ok q j u1 u2 : stands_for curve q u1 -> u1 <> Infinity -> jac_stands j u2 ->
  ec_add curve u1 u2 <> Infinity ->
  exists r, point_jacobian_add q j curve = Some r /\ jac_stands r (ec_add curve u1 u2).
Proof.
  intros Hq Hu1 Hj Hu. destruct (jac_affine _ _ Hj) as (x2 & y2 & ->). destruct Hj as (Hc2 & X & Y & Z & HX & HY & HZ & HJ).
  destruct Hq as [|x1 y1 Hx Hy Hc1]; [done|]. pose proof HJ as [HZ0 (x' & y' & [= <- <-] & EX & EY)].
  unfold point_jacobian_add. rewrite a_guard. destruct minus_a as (_ & Ea & Ra). rewrite Ea. pose proof (ok_a curve) as Ha. cbv zeta.
  assert (Haz : exists az, (if negb (coef_a curve =? 0)
     then bn_mult_k (bn_multiply (bn_multiply (jz j) (jz j) p) (bn_multiply (jz j) (jz j) p) p) (- coef_a curve) p
     else Some bn_zero) = Some az /\
     (coef_a curve <> 0 -> rp 2 az (Zmod.mul (Zmod.of_Z (cP curve) (- coef_a curve)) (Zmod.mul (Zmod.mul Z Z) (Zmod.mul Z Z))))).
  { destruct (Z.eqb_spec (coef_a curve) 0); cbn [negb]; [by exists bn_zero|].
    eassert (Hzz : rp 2 (bn_multiply (bn_multiply (jz j) (jz j) p) (bn_multiply (jz j) (jz j) p) p) _) by fp.
    destruct (r_mult_k _ _ _ (- coef_a curve) Hzz) as (az & -> & Haz); [lia|]. by exists az. }
  destruct Haz as (az & Eaz & Haz). rewrite (bind_is _ _ _ Eaz). cbv beta zeta.
  fp_step (r_mult_k _ (bn_multiply (jx j) (jx j) p) _ 3) as r2 Hr2; [fp|lia|].
  pose proof (jacobian_r2 _ _ _ _ Hr2 Haz) as Hr2'. set (r2' := if negb _ then bn_subtractmod r2 az p else r2) in *. clearbody r2'.
  eassert (Hd : bn_is_equal (bn_fast_mod (bn_subtractmod (bn_multiply (cx q) (bn_multiply (jz j) (jz j) p) p) (jx j) p) p) p = _).
  { eapply (repr_is_prime (p := p)); [fp|eapply repr_subtractmod_pos; [fp|fp|lia]|lia]. }
  rewrite Hd. set (d := bool_decide _) in *.
  eassert (Hxz : rp 2 (bn_multiply (cx q) (bn_multiply (jz j) (jz j) p) p) _) by fp. set (xz := bn_multiply (cx q) _ p) in *. clearbody xz.
  eassert (Hyz : rp 2 (bn_multiply (cy q) (bn_multiply (bn_multiply (jz j) (jz j) p) (jz j) p) p) _) by fp.
  set (yz := bn_multiply (cy q) _ p) in *. clearbody yz.
  fp_step (cmov_repr d 4 r2' (bn_subtractmod yz (jy j) p)) as r Hr; [fp|eapply repr_weaken; [fp|lia]|].
  fp_step (cmov_repr d 4 (bn_add yz (jy j)) (bn_fast_mod (bn_subtractmod xz (jx j) p) p)) as h Hh; [eapply repr_weaken; [fp|lia]..|].
  eexists. split; [reflexivity|]. split; [by apply ec_add_on_curve|]. eexists _, _, _. cbn [jx jy jz].
  split; [fp|]. split; [fp|]. split; [fp|]. apply ec_jacobian_add; [done..| |].
  - intros [-> ->]. apply Hu. by apply ec_add_opposite.
  - unfold d. destruct (decide (x1 = x2)) as [E|Hne].
    + rewrite bool_decide_eq_true_2; [done|]. by apply (same_abscissa _ _ _ _ EX HZ0).
    + rewrite bool_decide_eq_false_2; [done|]. intros E. by apply (same_abscissa _ _ _ _ EX HZ0) in E.
Qed.

End Points.
End EcdsaPoint.
