(* ===== verification/EcdsaMul.v ===== *)
(** * Multiplication of a point by a number

    point_multiply and scalar_multiply write the number with 64 odd signed digits
    in base 16 and add multiples of the point.  First the digits: the windows the
    code cuts out of the limbs are those of one recoding; then the two loops. *)

From stdpp Require Import base list numbers.
From Stdlib Require Import ZArith Lia.
From Stdlib Require Import Zdivisibility ZmodDef ZmodBase ZmodInv.
From S2P Require Import Prelude Bits Bignum Curves BignumSpec BignumBits BignumConv BignumMul BignumPow BignumInverse Ecdsa EcField EcCurve EcdsaPoint.
Local Open Scope fw_scope.

Module EcdsaMul.
Import Bignum Curves BignumSpec BignumBits BignumConv BignumMul BignumPow BignumInverse Ecdsa EcField EcCurve EcdsaPoint.

(** ** Odd signed digits *)

(** The odd number next to [x]: itself or x + 1. *)
Definition odd_up (x : Z) : Z := 2 * (x / 2) + 1.

(** Window [i] of [A]: five bits from 4 i on; its digit is odd and below 16. *)
Definition window (A i : Z) : Z := (A / 16 ^ i) mod 32.
Definition digit (A i : Z) : Z := odd_up (window A i) - 16.

Lemma digit_step A i : 0 <= i -> odd_up (A / 16 ^ i) = 16 * odd_up (A / 16 ^ (i + 1)) + digit A i.
Proof.
  intros Hi. unfold digit, window, odd_up. rewrite Z.pow_add_r, Z.pow_1_r by lia. rewrite <- Z.div_div by lia.
  set (B := A / 16 ^ i). zlia.
Qed.

(** The numbers the digits from [i] on, and those below [i], stand for. *)
Definition high (A i : Z) : Z := odd_up (A / 16 ^ i) - 16 ^ (64 - i).
Definition low (A i : Z) : Z := A - 16 ^ i * odd_up (A / 16 ^ i).

Lemma odd_up_range x n : 0 < n -> 0 <= x < 2 ^ (n + 1) -> 0 < odd_up x < 2 ^ (n + 1).
Proof.
  intros Hn Hx. unfold odd_up. rewrite Z.pow_add_r, Z.pow_1_r in * by lia. zlia.
Qed.

Lemma pow16 i : 0 <= i -> 16 ^ i = 2 ^ (4 * i).
Proof. intros. change 16 with (2 ^ 4). by rewrite <- Z.pow_mul_r by lia. Qed.

Lemma div16_range A i : 0 <= A < 2 ^ 257 -> 0 <= i <= 64 -> 0 <= A / 16 ^ i < 2 ^ (4 * (64 - i) + 1).
Proof.
  intros HA Hi. rewrite pow16 by lia. assert (0 < 2 ^ (4 * i)) by (apply Z.pow_pos_nonneg; lia).
  split; [apply Z.div_pos; lia|]. apply Z.div_lt_upper_bound; [done|].
  rewrite <- Z.pow_add_r by lia. replace (4 * i + (4 * (64 - i) + 1)) with 257 by lia. lia.
Qed.

Lemma high_step A i : 0 <= i < 64 -> high A i = 16 * high A (i + 1) + digit A i.
Proof.
  intros Hi. unfold high. rewrite digit_step by lia. replace (64 - i) with (1 + (64 - (i + 1))) by lia.
  rewrite (Z.pow_add_r 16 1 (64 - (i + 1))), Z.pow_1_r by lia. lia.
Qed.

Lemma high_top A : 0 <= A < 2 ^ 257 -> high A 64 = 0.
Proof.
  intros HA. pose proof (div16_range A 64 HA ltac:(lia)) as H. change (2 ^ (4 * (64 - 64) + 1)) with 2 in H.
  unfold high, odd_up. change (16 ^ (64 - 64)) with 1. zlia.
Qed.

Lemma high_range A i : 0 <= A < 2 ^ 257 -> 0 <= i < 64 -> - 16 ^ (64 - i) < high A i < 16 ^ (64 - i) /\ Z.odd (high A i) = true.
Proof.
  intros HA Hi. pose proof (div16_range A i HA ltac:(lia)) as H. apply odd_up_range in H; [|lia].
  unfold high. rewrite pow16 by lia. rewrite Z.pow_add_r, Z.pow_1_r in H by lia. split; [lia|].
  rewrite Z.odd_sub, Z.odd_pow by lia. unfold odd_up. rewrite Z.odd_add, Z.odd_mul. done.
Qed.

Lemma high_zero A : Z.odd A = true -> high A 0 = A - 2 ^ 256.
Proof.
  intros [m Hm]%Z.odd_spec. unfold high, odd_up. change (16 ^ (64 - 0)) with (2 ^ 256). rewrite Z.pow_0_r, Z.div_1_r. zlia.
Qed.

Lemma low_step A i : 0 <= i < 64 -> low A (i + 1) = low A i + 16 ^ i * digit A i.
Proof. intros Hi. unfold low. rewrite (digit_step A i), (Z.pow_add_r 16 i 1), Z.pow_1_r by lia. lia. Qed.

Lemma low_zero A : Z.odd A = true -> low A 0 = 0.
Proof. intros [m Hm]%Z.odd_spec. unfold low, odd_up. rewrite Z.pow_0_r, Z.div_1_r. zlia. Qed.

Lemma low_top A : 0 <= A < 2 ^ 257 -> low A 64 = A - 2 ^ 256.
Proof.
  intros HA. pose proof (high_top A HA) as H. unfold high in H. change (16 ^ (64 - 64)) with 1 in H. unfold low.
  replace (odd_up (A / 16 ^ 64)) with 1 by lia. change (16 ^ 64) with (2 ^ 256). lia.
Qed.

Lemma low_range A i : 0 <= A -> Z.odd A = true -> 0 < i -> - 16 ^ i < low A i < 16 ^ i /\ Z.odd (low A i) = true.
Proof.
  intros HA HO Hi. assert (Hp : 0 < 16 ^ i) by (apply Z.pow_pos_nonneg; lia).
  assert (E : exists e, low A i = A mod 16 ^ i - 16 ^ i * e /\ (e = 0 \/ e = 1 /\ A mod 16 ^ i <> 0)).
  { exists (1 - (A / 16 ^ i) mod 2). unfold low, odd_up. split.
    - rewrite (Z.div_mod A (16 ^ i)) at 1 by lia. set (q := A / 16 ^ i).
      replace (q) with (2 * (q / 2) + q mod 2) at 1 by zlia. lia.
    - pose proof (Z.mod_pos_bound (A / 16 ^ i) 2 ltac:(lia)). destruct (Z.eq_dec ((A / 16 ^ i) mod 2) 1); [left; lia|right].
      split; [lia|]. intros E0. rewrite (Z.div_mod A (16 ^ i)), E0, Z.add_0_r, Z.odd_mul, Z.odd_pow in HO by lia. done. }
  pose proof (Z.mod_pos_bound A (16 ^ i) Hp). destruct E as (e & E & He). split; [destruct He as [->|[-> ?]]; lia|].
  unfold low. rewrite Z.odd_sub, Z.odd_mul, Z.odd_pow, HO by lia. done.
Qed.

(** What the code makes of a window: the index of the table entry and the sign. *)
Lemma window_digit b : 0 <= b < 32 ->
  let idx := Z.shiftr (digit_bits b) 1 in
  0 <= idx < 8 /\ digit_sign b = (if b <? 16 then 0xffffffff else 0) /\
  odd_up b - 16 = (if b <? 16 then - (2 * idx + 1) else 2 * idx + 1) /\
  digit_bits b .& 1 = (b .^ (if b <? 16 then 1 else 0)) .& 1.
Proof.
  intros Hb. assert (H : forallb (fun b => let idx := Z.shiftr (digit_bits b) 1 in
    (0 <=? idx) && (idx <? 8) && (digit_sign b =? (if b <? 16 then 0xffffffff else 0)) &&
    (odd_up b - 16 =? (if b <? 16 then - (2 * idx + 1) else 2 * idx + 1)) &&
    ((digit_bits b .& 1) =? ((b .^ (if b <? 16 then 1 else 0)) .& 1))) (seqZ 0 32) = true) by reflexivity.
  rewrite forallb_forall in H. specialize (H b). rewrite <- list_elem_of_In, elem_of_seqZ in H. specialize (H ltac:(lia)).
  cbv beta zeta in H |- *. zbool. repeat split; try lia.
Qed.

(** ** The odd number *)

Lemma even_mask k0 : norm_limb k0 -> u32 ((k0 .& 1) - 1) = if Z.odd k0 then 0 else 0xffffffff.
Proof.
  intros Hk. change (k0 .& 1) with (k0 .& Z.ones 1). rewrite Z.land_ones, Zmod_odd by lia. by destruct (Z.odd k0).
Qed.

Lemma mask_limb o (b : bool) : norm_limb o -> o .& (if b then 0 else 0xffffffff) = if b then 0 else o.
Proof.
  intros Ho. destruct b; [apply Z.land_0_r|]. change 0xffffffff with (Z.ones 32). rewrite Z.land_ones by lia.
  apply Z.mod_small. unfold norm_limb in Ho. lia.
Qed.

Lemma scalar_limbs ks es k8 e8 : length ks = 8%nat -> length es = 8%nat -> Forall norm_limb ks -> Forall norm_limb es ->
  norm_limb k8 -> norm_limb e8 -> 0 <= bn_val (ks ++ [k8]) + 2 ^ 256 - bn_val (es ++ [e8]) < 2 ^ 257 ->
  let c := carry 32 1 (zip_with (fun a b => u32 (BN_BASE - 1 + a - b)) ks es) in
  let a := fst c ++ [u32 (snd c + 0xffffff + k8 - e8)] in
  normalized a /\ bn_val a = bn_val (ks ++ [k8]) + 2 ^ 256 - bn_val (es ++ [e8]).
Proof.
  intros Lk Le Fk Fe Hk He HR c. cbv zeta.
  destruct (carry_zip norm_limb norm_limb 32 (2 ^ 30 - 2) (2 ^ 29 - 1) 1 (-1) 1
    (fun a b => u32 (BN_BASE - 1 + a - b)) ks es) as (Hs & Hv & Hn & Hlen); [lia|congruence|done|done| |lia|lia|lia|].
  { intros u v Hu Hv. limbs. rewrite wrap_small by lia. lia. }
  fold c in Hs, Hv, Hn, Hlen. rewrite val_ones, Lk in Hs, Hv. change (radix 8) with (2 ^ 232) in Hs, Hv. rewrite Lk in Hlen.
  rewrite !val_app, Lk, Le in HR. rewrite !val_app, Lk, Le, Hlen. change (radix 8) with (2 ^ 232) in *.
  assert (V1 : forall v, bn_val [v] = v) by (intros; cbn; lia). rewrite !V1 in *.
  set (s := 1 + (2 ^ 232 - 1 + 1 * bn_val ks + -1 * bn_val es)) in *. pose proof (Z.div_mod s (2 ^ 232) ltac:(lia)) as E.
  pose proof (Z.mod_pos_bound s (2 ^ 232) ltac:(lia)) as Rm. set (q := s / 2 ^ 232) in *. set (m := s mod 2 ^ 232) in *.
  assert (Es : s = 2 ^ 232 + bn_val ks - bn_val es) by (unfold s; lia). clearbody s q m. rewrite Hs, Hv.
  assert (Hu : u32 (q + 0xffffff + k8 - e8) = q + 0xffffff + k8 - e8) by (apply u32_small; lia).
  rewrite Hu. split; [split; [rewrite length_app, Hlen; done|]|lia].
  apply Forall_app. split; [done|]. constructor; [unfold norm_limb; lia|done].
Qed.

Lemma odd_scalar_ok k o : normalized k -> normalized o -> Z.odd (bn_val o) = true -> bn_val k < bn_val o <= 2 ^ 256 ->
  exists a nz, odd_scalar k o = (a, nz) /\ normalized a /\ Z.odd (bn_val a) = true /\
  bn_val a = bn_val k + 2 ^ 256 - (if Z.odd (bn_val k) then 0 else bn_val o) /\ bn_val a < 2 ^ 257 /\
  truth nz = negb (bn_val k =? 0).
Proof.
  intros Hk Ho Hoo Hr. pose proof (normalized_range k Hk) as Rk.
  assert (Hnz : truth (fold_left Z.lor (take 9 k) 0) = negb (bn_val k =? 0)).
  { rewrite take_ge by (rewrite (proj1 Hk); done). pose proof (bn_is_zero_val k Hk) as E. unfold bn_is_zero, lnot_c in E. unfold truth.
    destruct (fold_left Z.lor k 0 =? 0), (bn_val k =? 0); done. }
  destruct (norm_dest k Hk) as (k0 & k1 & k2 & k3 & k4 & k5 & k6 & k7 & k8 & -> & Fk).
  destruct (norm_dest o Ho) as (o0 & o1 & o2 & o3 & o4 & o5 & o6 & o7 & o8 & -> & Fo).
  unfold odd_scalar. change (limb [k0; k1; k2; k3; k4; k5; k6; k7; k8] 0) with k0.
  rewrite !Forall_cons_iff in Fk, Fo. destruct Fk as (A0 & A1 & A2 & A3 & A4 & A5 & A6 & A7 & A8 & _).
  destruct Fo as (B0 & B1 & B2 & B3 & B4 & B5 & B6 & B7 & B8 & _).
  rewrite even_mask by done. change (map _ (seqZ 0 8)) with
    (map (fun '(kj, oj) => u32 (BN_BASE - 1 + kj - (oj .& (if Z.odd k0 then 0 else 0xffffffff))))
       [(k0, o0); (k1, o1); (k2, o2); (k3, o3); (k4, o4); (k5, o5); (k6, o6); (k7, o7)]).
  cbn [map]. rewrite !mask_limb by done. change (limb [k0; k1; k2; k3; k4; k5; k6; k7; k8] 8) with k8.
  change (limb [o0; o1; o2; o3; o4; o5; o6; o7; o8] 8) with o8.
  assert (Eo : Z.odd (bn_val [k0; k1; k2; k3; k4; k5; k6; k7; k8]) = Z.odd k0).
  { cbn [bn_val foldr]. rewrite Z.odd_add, Z.odd_mul. by rewrite andb_false_l, xorb_false_r. }
  rewrite Eo. set (e := fun oj : Z => if Z.odd k0 then 0 else oj).
  assert (Ne : forall oj, norm_limb oj -> norm_limb (e oj)) by (intros; unfold e; destruct (Z.odd k0); [unfold norm_limb; lia|done]).
  assert (Ve : bn_val ([e o0; e o1; e o2; e o3; e o4; e o5; e o6; e o7] ++ [e o8]) = if Z.odd k0 then 0 else bn_val [o0; o1; o2; o3; o4; o5; o6; o7; o8]).
  { unfold e. by destruct (Z.odd k0). }
  destruct (scalar_limbs [k0; k1; k2; k3; k4; k5; k6; k7] [e o0; e o1; e o2; e o3; e o4; e o5; e o6; e o7] k8 (e o8)) as [Na Va];
    [done|done|repeat (apply Forall_cons_2; [auto|]); apply Forall_nil_2|repeat (apply Forall_cons_2; [auto|]); apply Forall_nil_2|
     done|by apply Ne| |].
  { rewrite Ve. cbn [app]. destruct (Z.odd k0); lia. }
  rewrite Ve in Va. cbn [app] in Va. cbn [zip_with] in Na, Va. unfold e in Na, Va.
  eexists _, _. split; [rewrite (surjective_pairing (carry _ _ _)); reflexivity|]. split; [exact Na|]. split; [|split; [exact Va|split; [|exact Hnz]]].
  - rewrite Va. rewrite Z.odd_sub, Z.odd_add, Eo. destruct (Z.odd k0); [done|]. rewrite Hoo. done.
  - rewrite Va. destruct (Z.odd k0); lia.
Qed.

(** ** The windows in the limbs *)

Lemma limb_testbit a j t : normalized a -> 0 <= j -> 0 <= t < 29 -> Z.testbit (limb a j) t = Z.testbit (bn_val a) (29 * j + t).
Proof.
  intros [_ Ha] Hj Ht. rewrite val_testbit by (done || lia).
  replace ((29 * j + t) / 29) with j by zlia. by replace ((29 * j + t) mod 29) with t by zlia.
Qed.

Lemma window_bits A i t : 0 <= i -> 0 <= t -> Z.testbit (window A i) t = (t <? 5) && Z.testbit A (4 * i + t).
Proof.
  intros Hi Ht. unfold window. rewrite pow16 by lia. change 32 with (2 ^ 5). rewrite <- Z.shiftr_div_pow2 by lia.
  destruct (Z.ltb_spec t 5); cbn [andb].
  - rewrite Z.mod_pow2_bits_low, Z.shiftr_spec by lia. f_equal. lia.
  - by rewrite Z.mod_pow2_bits_high by lia.
Qed.

Lemma window_range A i : 0 <= window A i < 32.
Proof. apply Z.mod_pos_bound. lia. Qed.

Lemma land31 x t : 0 <= t -> Z.testbit (x .& 31) t = (t <? 5) && Z.testbit x t.
Proof.
  intros Ht. rewrite Z.land_spec. change 31 with (Z.ones 5). rewrite Z.testbit_ones_nonneg by lia. apply andb_comm.
Qed.

(** One step down the number: from the window at i + 1 to the one at i. *)
Lemma next_bits_ok a i aptr ashift : normalized a -> 0 <= i -> 0 <= aptr -> 0 <= ashift <= 28 ->
  29 * aptr + ashift = 4 * (i + 1) ->
  exists aptr' ashift', next_bits a aptr (limb a aptr) ashift = (aptr', limb a aptr', ashift', window (bn_val a) i) /\
  0 <= aptr' /\ 0 <= ashift' <= 28 /\ 29 * aptr' + ashift' = 4 * i.
Proof.
  intros Ha Hi Hp Hs Epos. pose proof (fun j t => limb_high a j t (proj2 Ha)) as Hhigh. unfold next_bits.
  destruct (Z.ltb_spec (ashift - 4) 0) as [Hneg|Hpos].
  - exists (aptr - 1), (ashift - 4 + 29). split; [|lia]. f_equal. apply Z.bits_inj'. intros t Ht.
    rewrite land31, window_bits, Z.lor_spec, u32_spec, Z.shiftr_spec by lia. destruct (Z.ltb_spec t 5); cbn [andb]; [|done].
    rewrite (proj2 (Z.ltb_lt t 32)) by lia. cbn [andb]. change BN_BITS_PER_LIMB with 29.
    destruct (Z.ltb_spec t (4 - ashift)).
    + rewrite Z.shiftl_spec_low by lia. cbn [orb]. rewrite limb_testbit by (done || lia). f_equal. lia.
    + rewrite Z.shiftl_spec_high by lia. rewrite (Hhigh (aptr - 1)) by lia. rewrite orb_false_r, limb_testbit by (done || lia). f_equal. lia.
  - exists aptr, (ashift - 4). split; [|lia]. f_equal. apply Z.bits_inj'. intros t Ht.
    rewrite land31, window_bits, Z.shiftr_spec by lia. destruct (Z.ltb_spec t 5); cbn [andb]; [|done].
    rewrite limb_testbit by (done || lia). f_equal. lia.
Qed.

Lemma first_bits_ok a : normalized a -> bn_val a < 2 ^ 257 -> Z.shiftr (limb a 8) 20 = window (bn_val a) 63.
Proof.
  intros Ha Hr. apply Z.bits_inj'. intros t Ht. rewrite window_bits, Z.shiftr_spec by lia.
  destruct (Z.ltb_spec t 5); cbn [andb].
  - rewrite limb_testbit by (done || lia). f_equal. lia.
  - destruct (Z.ltb_spec t 9); [|apply limb_high; [apply Ha|lia]]. rewrite limb_testbit by (done || lia).
    pose proof (normalized_range a Ha). rewrite <- (Z.mod_small (bn_val a) (2 ^ 257)) by (split; [apply H1|done]).
    apply Z.mod_pow2_bits_high. lia.
Qed.

(** One step of the shift: limb [j] takes the low bits of the next one. *)
Definition shifted_limb (a : bignum256) (j : Z) : Z :=
  Z.shiftr (limb a j) 4 .| u32 (Z.shiftl (limb a (j + 1) .& 0xf) (BN_BITS_PER_LIMB - 4)).

Lemma shifted_limb_bits a j t : normalized a -> 0 <= j -> 0 <= t ->
  Z.testbit (shifted_limb a j) t = (t <? 29) && Z.testbit (bn_val a) (29 * j + t + 4).
Proof.
  intros Ha Hj Ht. unfold shifted_limb. change (BN_BITS_PER_LIMB - 4) with 25. change 0xf with (Z.ones 4).
  rewrite Z.lor_spec, Z.shiftr_spec, u32_spec by lia.
  pose proof (fun t => limb_high a j t (proj2 Ha)) as Hhigh. destruct (Z.ltb_spec t 25).
  - rewrite Z.shiftl_spec_low, andb_false_r, orb_false_r by lia. rewrite (proj2 (Z.ltb_lt t 29)) by lia. cbn [andb].
    rewrite limb_testbit by (done || lia). f_equal. lia.
  - rewrite Hhigh by lia. cbn [orb]. rewrite Z.shiftl_spec_high, Z.land_spec, Z.testbit_ones_nonneg by lia.
    destruct (Z.ltb_spec t 29); cbn [andb].
    + rewrite (proj2 (Z.ltb_lt t 32)), (proj2 (Z.ltb_lt (t - 25) 4)) by lia. rewrite andb_true_r. cbn [andb].
      rewrite limb_testbit by (done || lia). f_equal. lia.
    + rewrite (proj2 (Z.ltb_ge (t - 25) 4)) by lia. by rewrite !andb_false_r.
Qed.

Lemma shifted_limb_norm a j : normalized a -> 0 <= j -> norm_limb (shifted_limb a j).
Proof.
  intros Ha Hj. apply limb_of_bits.
  - unfold shifted_limb. apply Z.lor_nonneg. split; [|apply Z.mod_pos_bound; lia].
    apply Z.shiftr_nonneg. apply (norm_limb_at a j (proj2 Ha)).
  - intros t Ht. rewrite shifted_limb_bits by (done || lia). by rewrite (proj2 (Z.ltb_ge t 29)) by lia.
Qed.

Lemma shift_scalar_ok a : normalized a -> normalized (shift_scalar a) /\ bn_val (shift_scalar a) = bn_val a / 16.
Proof.
  intros Ha. assert (E : shift_scalar a = map (shifted_limb a) (seqZ 0 9)).
  { unfold shift_scalar. change (seqZ 0 9) with (seqZ 0 8 ++ [8]). rewrite map_app. f_equal. cbn [map]. f_equal. unfold shifted_limb.
    replace (limb a (8 + 1)) with 0 by (destruct (dest9 a (proj1 Ha)) as (? & ? & ? & ? & ? & ? & ? & ? & ? & ->); done). by rewrite Z.lor_0_r. }
  assert (N : Forall norm_limb (shift_scalar a)).
  { rewrite E. apply Forall_map, List.Forall_forall. intros j Hj%list_elem_of_In%elem_of_seqZ. apply shifted_limb_norm; [done|lia]. }
  split; [split; [by rewrite E|done]|]. pose proof (normalized_range a Ha).
  apply val_bits_eq; [done|apply Z.div_pos; lia|]. intros k i Hk Hi. change 16 with (2 ^ 4). rewrite <- Z.shiftr_div_pow2, Z.shiftr_spec by lia.
  destruct (Z.ltb_spec k 9).
  - replace (limb (shift_scalar a) k) with (shifted_limb a k).
    + rewrite shifted_limb_bits by (done || lia). by rewrite (proj2 (Z.ltb_lt i 29)) by lia.
    + rewrite E. assert (H9 : k = 0 \/ k = 1 \/ k = 2 \/ k = 3 \/ k = 4 \/ k = 5 \/ k = 6 \/ k = 7 \/ k = 8) by lia.
      by repeat (destruct H9 as [->|H9]; [done|]); subst k.
  - replace (limb (shift_scalar a) k) with 0.
    + rewrite Z.bits_0. rewrite <- (Z.mod_small (bn_val a) (2 ^ 261)) by done. symmetry. apply Z.mod_pow2_bits_high. lia.
    + symmetry. unfold limb, znth. rewrite (proj2 (Z.ltb_ge k 0)) by lia. apply nth_overflow. rewrite E, length_map, length_seqZ. lia.
Qed.

Lemma low_digit_ok a : normalized a -> low_digit a = digit_bits (bn_val a mod 32).
Proof.
  intros Ha. unfold low_digit. change (Z.shiftl 1 5 - 1) with 31. f_equal. apply Z.bits_inj'. intros t Ht.
  rewrite land31 by lia. change 32 with (2 ^ 5). destruct (Z.ltb_spec t 5); cbn [andb].
  - rewrite limb_testbit, Z.mod_pow2_bits_low by (done || lia). f_equal; lia.
  - by rewrite Z.mod_pow2_bits_high by lia.
Qed.

(** ** The loops *)

Section Multiply.
Variable curve : ecdsa_curve.
Context {OK : CurveOk curve}.
Local Abbreviation p := (prime curve).
Local Abbreviation N := (cN curve).
Local Abbreviation ecp := (@point (Zmod (cP curve))).

(** A point of the curve whose multiple by the order is the point at infinity. *)
Variable u : ecp.
Hypothesis Hu : on_curve curve u.
Hypothesis Hne : u <> Infinity.
Hypothesis Hord : ec_times curve N u = Infinity.

Local Abbreviation T n := (ec_times curve n u).

Lemma N_bounds : 2 ^ 256 - 2 ^ 224 <= N < 2 ^ 256 /\ Z.odd N = true.
Proof. split; [apply (prime_bounds (p := order curve))|apply (P_odd (p := order curve))]. Qed.

Lemma T_add m n : ec_add curve (T m) (T n) = T (m + n).
Proof. symmetry. by apply (ec_times_add curve). Qed.

Lemma T_inf n : T n = Infinity <-> n mod N = 0.
Proof. apply (ec_times_inf curve N n u Hu (ok_N curve) Hord Hne). Qed.

Lemma T_small n : n <> 0 -> - N < n < N -> T n <> Infinity.
Proof.
  intros Hn Hr E. assert (HN : 0 < N) by (pose proof N_bounds as [HB _]; lia). apply T_inf in E.
  apply Z.mod_divide in E; [|intros E0; rewrite E0 in HN; lia]. destruct E as [c Hc].
  assert (c = 0) by nia. subst c. lia.
Qed.

Lemma T_curve n : on_curve curve (T n).
Proof. by apply (ec_times_on_curve curve). Qed.

Lemma jac_double_times j n : jac_stands curve j (T n) -> T (2 * n) <> Infinity ->
  exists r, point_jacobian_double j curve = Some r /\ jac_stands curve r (T (2 * n)).
Proof.
  intros Hj Hn. destruct (point_jacobian_double_ok curve j _ Hj) as (r & E & Hr).
  - rewrite T_add. by replace (n + n) with (2 * n) by lia.
  - exists r. split; [done|]. rewrite T_add in Hr. by replace (2 * n) with (n + n) by lia.
Qed.

Lemma jac_add_times q j m n : stands_for curve q (T m) -> T m <> Infinity -> jac_stands curve j (T n) -> T (m + n) <> Infinity ->
  exists r, point_jacobian_add q j curve = Some r /\ jac_stands curve r (T (m + n)).
Proof.
  intros Hq Hm Hj Hs. destruct (point_jacobian_add_ok curve q j _ _ Hq Hm Hj) as (r & E & Hr); [by rewrite T_add|].
  exists r. split; [done|]. by rewrite T_add in Hr.
Qed.

(** Negation of the z or the y coordinate. *)
Lemma jac_negate_z (b : bool) j n : jac_stands curve j (T n) ->
  exists z, bn_cnegate (Z.b2z b) (jz j) p = Some z /\
  jac_stands curve (JacobianPoint (jx j) (jy j) z) (T (if b then - n else n)).
Proof.
  intros (Hc & X & Y & Z & HX & HY & HZ & HJ). destruct (repr_cnegate b _ _ HZ) as (z & E & Hz); [apply HJ|].
  exists z. split; [done|]. split; [apply T_curve|]. destruct b.
  - exists X, Y, (Zmod.opp Z). rewrite (ec_times_neg curve). split; [done|]. split; [done|]. split; [done|]. by apply (ec_jacobian_neg curve).
  - by exists X, Y, Z.
Qed.

Lemma jac_negate_y (b : bool) j n : jac_stands curve j (T n) -> T (2 * n) <> Infinity ->
  exists y, bn_cnegate (Z.b2z b) (jy j) p = Some y /\
  jac_stands curve (JacobianPoint (jx j) y (jz j)) (T (if b then - n else n)).
Proof.
  intros (Hc & X & Y & Z & HX & HY & HZ & HJ) H2.
  assert (HY0 : Y <> Zmod.zero).
  { replace (2 * n) with (n + n) in H2 by lia. rewrite <- T_add in H2. pose proof HJ as [HZ0 (x & y & E & _ & ->)].
    rewrite E in H2. apply double_affine in H2. intros EY. apply (Zmod.mul_0_iff_prime (ok_P curve)) in EY as [|EY]; [done|].
    apply (Zmod.mul_0_iff_prime (ok_P curve)) in EY as [|EY]; [done|]. by apply (Zmod.mul_0_iff_prime (ok_P curve)) in EY as [|]. }
  destruct (repr_cnegate b _ _ HY HY0) as (y & E & Hy).
  exists y. split; [done|]. split; [apply T_curve|]. destruct b.
  - exists X, (Zmod.opp Y), Z. rewrite (ec_times_neg curve). split; [done|]. split; [done|]. split; [done|]. by apply (ec_jacobian_neg curve).
  - by exists X, Y, Z.
Qed.

(** The table of odd multiples. *)
Lemma pmult_rest_ok n : forall prev twice m, stands_for curve prev (T m) -> stands_for curve twice (T 2) ->
  exists l, pmult_rest n curve prev twice = Some l /\ length l = n /\
  forall i, (i < n)%nat -> stands_for curve (nth i l no_point) (T (m + 2 * (Z.of_nat i + 1))).
Proof.
  induction n as [|n IH]; intros prev twice m Hp H2; [exists []; split; [done|]; split; [done|]; lia|]. cbn [pmult_rest].
  destruct (point_add_ok curve _ _ _ _ Hp H2) as (next & E & Hn). rewrite (bind_is _ _ _ E). cbv beta. rewrite T_add in Hn.
  destruct (IH next twice (m + 2) Hn H2) as (l & El & Hl & Hi). rewrite (bind_is _ _ _ El). cbv beta.
  exists (next :: l). split; [done|]. split; [cbn; lia|]. intros [|i] Hlt; [done|]. cbn [nth].
  replace (m + 2 * (Z.of_nat (S i) + 1)) with (m + 2 + 2 * (Z.of_nat i + 1)) by lia. apply Hi. lia.
Qed.

Lemma pmult_table_ok q : stands_for curve q u ->
  exists l, pmult_table curve q = Some l /\ forall i, 0 <= i < 8 -> stands_for curve (znth no_point l i) (T (2 * i + 1)).
Proof.
  intros Hq. unfold pmult_table. destruct (point_double_ok curve _ _ Hq) as (twice & E & H2). rewrite (bind_is _ _ _ E). cbv beta.
  assert (E1 : T 1 = u) by done. rewrite <- E1 in H2 at 1. rewrite <- E1 in H2 at 2. rewrite T_add in H2. rewrite <- E1 in Hq.
  destruct (pmult_rest_ok 7 q twice 1 Hq H2) as (l & El & Hl & Hi). rewrite (bind_is _ _ _ El). cbv beta.
  exists (q :: l). split; [done|]. intros i Hi8. unfold znth. rewrite (proj2 (Z.ltb_ge i 0)) by lia.
  destruct (Z.eq_dec i 0) as [->|]; [done|]. replace (Z.to_nat i) with (S (Z.to_nat (i - 1))) by lia. cbn [nth].
  replace (2 * i + 1) with (1 + 2 * (Z.of_nat (Z.to_nat (i - 1)) + 1)) by lia. apply Hi. lia.
Qed.

(** *** point_multiply: from the top digit down *)

Section Windows.
Variable A : Z.
Hypothesis HA : 0 <= A < 2 ^ 257.
Hypothesis HO : Z.odd A = true.
Hypothesis HN : (A - 2 ^ 256) mod N <> 0.

(** The sign of digit [i], as a boolean and as a number. *)
Definition neg_digit (A i : Z) : bool := window A i <? 16.
Definition sgn (A i : Z) : Z := if neg_digit A i then -1 else 1.

Lemma digit_index i : 0 <= Z.shiftr (digit_bits (window A i)) 1 < 8 /\
  2 * Z.shiftr (digit_bits (window A i)) 1 + 1 = sgn A i * digit A i /\
  digit_sign (window A i) = if neg_digit A i then 0xffffffff else 0.
Proof.
  pose proof (window_digit (window A i) (window_range A i)) as (Hr & Hs & Hd & _). unfold sgn, neg_digit, digit.
  split; [done|]. split; [|done]. rewrite Hd. destruct (window A i <? 16); lia.
Qed.

Lemma sgn_square i : sgn A i * sgn A i = 1.
Proof. unfold sgn. by destruct (neg_digit A i). Qed.

Lemma sgn_cases i : sgn A i = 1 \/ sgn A i = -1.
Proof. unfold sgn. destruct (neg_digit A i); auto. Qed.

Lemma pow252 i : 0 < i -> 16 ^ (64 - i) <= 2 ^ 252.
Proof. intros Hi. change (2 ^ 252) with (16 ^ 63). apply Z.pow_le_mono_r; lia. Qed.

(** No multiple on the way is the point at infinity. *)
Lemma high_nz s e i : 0 <= i < 64 -> s = 1 \/ s = -1 -> (e = 1 \/ 0 < i /\ (e = 2 \/ e = 4 \/ e = 8 \/ e = 16)) ->
  T (e * (s * high A i)) <> Infinity.
Proof.
  intros Hi Hs He. pose proof N_bounds as [HB HNO]. destruct (high_range A i HA Hi) as [Hr Ho].
  assert (Hh0 : high A i <> 0) by (intros E; by rewrite E in Ho).
  destruct (Z.eq_dec i 0) as [->|Hi0].
  - destruct He as [->|[? _]]; [|lia]. rewrite high_zero by done. intros E. apply T_inf, Z.mod_divide in E; [|lia].
    apply HN, Z.mod_divide; [lia|]. destruct E as [c Hc]. destruct Hs as [-> | ->]; [exists c; lia|exists (- c); lia].
  - pose proof (pow252 i ltac:(lia)) as Hp. set (h := high A i) in *. assert (Hh : - 2 ^ 252 < h < 2 ^ 252) by lia.
    destruct (Z.eq_dec e 16) as [->|He16].
    + intros E. apply T_inf, Z.mod_divide in E; [|lia]. destruct E as [c Hc].
      assert (Hc1 : c = 1 \/ c = -1 \/ c = 0) by (destruct Hs as [-> | ->]; nia).
      assert (Hodd : Z.odd (16 * (s * h)) = Z.odd (c * N)) by (by rewrite Hc).
      rewrite !Z.odd_mul, HNO in Hodd. destruct Hc1 as [-> |[-> | ->]]; [done|done|]. destruct Hs as [-> | ->]; lia.
    + apply T_small; destruct Hs as [-> | ->]; lia.
Qed.

Lemma digit_times_nz q i : 0 <= i < 8 -> stands_for curve q (T (2 * i + 1)) -> T (2 * i + 1) <> Infinity.
Proof. intros Hi _. pose proof N_bounds as [HB _]. apply T_small; lia. Qed.

Variables (a : bignum256) (pmult : list curve_point).
Hypothesis Ha : normalized a.
Hypothesis Va : bn_val a = A.
Hypothesis Hpm : forall i, 0 <= i < 8 -> stands_for curve (znth no_point pmult i) (T (2 * i + 1)).

(** The state after digit [i]: the place in the limbs, the sign, and the point. *)
Definition mul_inv (st : mul_state) (i : Z) : Prop :=
  0 <= aptr st /\ abits st = limb a (aptr st) /\ 0 <= ashift st <= 28 /\ 29 * aptr st + ashift st = 4 * i /\
  mul_sign st = (if neg_digit A i then 0xffffffff else 0) /\ jac_stands curve (jres st) (T (sgn A i * high A i)).

Lemma mul_turn_ok st i : 0 <= i < 63 -> mul_inv st (i + 1) -> exists st', mul_turn curve a pmult st = Some st' /\ mul_inv st' i.
Proof.
  intros Hi (Hp & Hb & Hsh & Hpos & Hsg & Hj). unfold mul_turn. set (h := sgn A (i + 1) * high A (i + 1)) in *.
  assert (Hnz : forall e, e = 2 \/ e = 4 \/ e = 8 \/ e = 16 -> T (e * h) <> Infinity).
  { intros e He. apply high_nz; [lia|apply sgn_cases|right; split; [lia|done]]. }
  destruct (jac_double_times _ _ Hj) as (j1 & E1 & H1); [apply Hnz; tauto|]. rewrite (bind_is _ _ _ E1). cbv beta.
  destruct (jac_double_times _ _ H1) as (j2 & E2 & H2); [replace (2 * (2 * h)) with (4 * h) by lia; apply Hnz; tauto|].
  rewrite (bind_is _ _ _ E2). cbv beta.
  destruct (jac_double_times _ _ H2) as (j3 & E3 & H3); [replace (2 * (2 * (2 * h))) with (8 * h) by lia; apply Hnz; tauto|].
  rewrite (bind_is _ _ _ E3). cbv beta.
  destruct (jac_double_times _ _ H3) as (j4 & E4 & H4); [replace (2 * (2 * (2 * (2 * h)))) with (16 * h) by lia; apply Hnz; tauto|].
  rewrite (bind_is _ _ _ E4). cbv beta.
  destruct (next_bits_ok a i _ _ Ha ltac:(lia) Hp Hsh Hpos) as (ap & ash & En & Hap & Hash & Hpos'). rewrite Hb, En, Va. cbv beta iota zeta.
  destruct (digit_index i) as (Hidx & Hval & Hds). rewrite Hds, Hsg.
  replace (((if neg_digit A (i + 1) then 0xffffffff else 0) .^ (if neg_digit A i then 0xffffffff else 0)) .& 1)
    with (Z.b2z (xorb (neg_digit A (i + 1)) (neg_digit A i))) by (destruct (neg_digit A (i + 1)), (neg_digit A i); done).
  destruct (jac_negate_z (xorb (neg_digit A (i + 1)) (neg_digit A i)) _ _ H4) as (z & Ez & Hz). rewrite (bind_is _ _ _ Ez). cbv beta.
  replace (if xorb (neg_digit A (i + 1)) (neg_digit A i) then - (2 * (2 * (2 * (2 * h)))) else 2 * (2 * (2 * (2 * h))))
    with (sgn A i * (16 * high A (i + 1))) in Hz by (unfold h, sgn; destruct (neg_digit A (i + 1)), (neg_digit A i); cbn [xorb]; lia).
  pose proof (Hpm _ Hidx) as Hq. pose proof (digit_times_nz _ _ Hidx Hq) as Hq0.
  assert (Esum : 2 * Z.shiftr (digit_bits (window A i)) 1 + 1 + sgn A i * (16 * high A (i + 1)) = sgn A i * high A i).
  { rewrite Hval, (high_step A i) by lia. lia. }
  destruct (jac_add_times _ _ _ _ Hq Hq0 Hz) as (j5 & E5 & H5).
  { rewrite Esum. replace (sgn A i * high A i) with (1 * (sgn A i * high A i)) by lia. apply high_nz; [lia|apply sgn_cases|by left]. }
  rewrite (bind_is _ _ _ E5). cbv beta. eexists. split; [reflexivity|]. rewrite Esum in H5. unfold mul_inv. cbn [aptr abits ashift mul_sign jres]. tauto.
Qed.

Lemma mul_turns_ok n : forall st, mul_inv st (Z.of_nat n) -> (n <= 63)%nat ->
  exists st', mul_turns n curve a pmult st = Some st' /\ mul_inv st' 0.
Proof.
  induction n as [|n IH]; intros st Hst Hn; [by exists st|]. cbn [mul_turns].
  destruct (mul_turn_ok st (Z.of_nat n)) as (st1 & E & H1); [lia|by replace (Z.of_nat n + 1) with (Z.of_nat (S n)) by lia|].
  rewrite (bind_is _ _ _ E). cbv beta. apply IH; [done|lia].
Qed.

End Windows.

(** The odd number and the number it was made from have the same multiple. *)
Lemma scalar_same k : T (k + 2 ^ 256 - (if Z.odd k then 0 else N) - 2 ^ 256) = T k.
Proof.
  pose proof N_bounds as [HB _]. destruct (Z.odd k); [f_equal; lia|].
  rewrite <- (ec_times_mod curve N k), <- (ec_times_mod curve N (_ - _ - _)) by (done || lia). f_equal.
  replace (k + 2 ^ 256 - N - 2 ^ 256) with (k + (-1) * N) by lia. apply Z.mod_add. lia.
Qed.

Lemma scalar_nz k : 0 < k < N -> (k + 2 ^ 256 - (if Z.odd k then 0 else N) - 2 ^ 256) mod N <> 0.
Proof.
  intros Hk. replace (k + 2 ^ 256 - (if Z.odd k then 0 else N) - 2 ^ 256) with (k + (if Z.odd k then 0 else -1) * N) by (destruct (Z.odd k); lia).
  rewrite Z.mod_add, Z.mod_small by lia. lia.
Qed.

Lemma odd_land a : normalized a -> Z.odd (bn_val a) = true -> ((limb a 0 .& 1) =? 0) = false.
Proof.
  intros Ha HO. apply Z.eqb_neq. intros E. assert (Hb : Z.testbit (limb a 0) 0 = true).
  { rewrite limb_testbit by (done || lia). by rewrite <- Z.bit0_odd in HO. }
  apply (f_equal (fun x => Z.testbit x 0)) in E. by rewrite Z.land_spec, Hb in E.
Qed.

Lemma point_multiply_val words q res k z rest : stands_for curve q u -> normalized k -> 0 < bn_val k < N ->
  generate_k_random words p = Some (z, rest) ->
  exists r, point_multiply words curve k q res = Some (0, r, rest) /\ stands_for curve r (T (bn_val k)).
Proof.
  intros Hq Hk Rk Hrand. pose proof N_bounds as [HB HNO]. unfold point_multiply.
  rewrite bn_is_less_val, truth_b2z by (done || apply (ok_order curve)). rewrite (proj2 (Z.ltb_lt (bn_val k) N)) by lia. cbn [negb].
  destruct (odd_scalar_ok k (order curve) Hk (proj1 (ok_order curve)) HNO ltac:(lia)) as (a & nz & -> & Na & Oa & Va & Ra & Hnz).
  cbv beta iota zeta. rewrite odd_land, Hnz by done. rewrite (proj2 (Z.eqb_neq (bn_val k) 0)) by lia. cbn [negb].
  set (A := bn_val a) in *. pose proof (normalized_range a Na) as RA. assert (HA : 0 <= A < 2 ^ 257) by (unfold A; lia).
  assert (HAN : (A - 2 ^ 256) mod N <> 0) by (rewrite Va; by apply scalar_nz).
  destruct (pmult_table_ok q Hq) as (tbl & Et & Ht). rewrite (bind_is _ _ _ Et). cbv beta.
  change (256 - BN_BITS_PER_LIMB * 8 - 4) with 20. rewrite first_bits_ok by done. fold A.
  destruct (digit_index A 63) as (Hidx & Hval & Hds). pose proof (Ht _ Hidx) as Hent.
  destruct (curve_to_jacobian_ok curve words _ _ z rest Hent (digit_times_nz _ _ Hidx Hent) Hrand) as (j & Ej & Hj).
  rewrite (bind_is _ _ _ Ej). cbv beta iota. rewrite Hds.
  destruct (mul_turns_ok A HA Oa HAN a tbl Na eq_refl Ht 63 (MulState 8 (limb a 8) 20 (if neg_digit A 63 then 0xffffffff else 0) j)) as (st & Est & Hst); [|lia|].
  { unfold mul_inv. cbn [aptr abits ashift mul_sign jres]. do 5 (split; [done || lia|]). change (Z.of_nat 63) with 63.
    rewrite high_step, high_top by (done || lia). rewrite Hval in Hj. by replace (sgn A 63 * (16 * 0 + digit A 63)) with (sgn A 63 * digit A 63) by lia. }
  rewrite (bind_is _ _ _ Est). cbv beta. destruct Hst as (_ & _ & _ & _ & Hsg & Hjr). rewrite Hsg.
  replace ((if neg_digit A 0 then 0xffffffff else 0) .& 1) with (Z.b2z (neg_digit A 0)) by (by destruct (neg_digit A 0)).
  destruct (jac_negate_z (neg_digit A 0) _ _ Hjr) as (z' & Ez & Hz). rewrite (bind_is _ _ _ Ez). cbv beta.
  destruct (jacobian_to_curve_ok curve _ _ Hz) as (r & Er & Hr). rewrite (bind_is _ _ _ Er). cbv beta.
  exists r. split; [done|]. replace (if neg_digit A 0 then - (sgn A 0 * high A 0) else sgn A 0 * high A 0) with (high A 0) in Hr
    by (unfold sgn; destruct (neg_digit A 0); lia).
  rewrite high_zero, Va, scalar_same in Hr by done. done.
Qed.

(** *** scalar_multiply: from the lowest digit up, with a table of multiples *)

(** Entry [j] of row [i] of the table is (2 j + 1) 16^i times the point. *)
Definition cp_ok (cp : list (list curve_point)) : Prop :=
  zlen cp = 64 /\ forall i j, 0 <= i < 64 -> 0 <= j < 8 ->
  stands_for curve (znth no_point (znth [] cp i) j) (T ((2 * j + 1) * 16 ^ i)).

Section Rows.
Variable A : Z.
Hypothesis HA : 0 <= A < 2 ^ 257.
Hypothesis HO : Z.odd A = true.
Hypothesis HN : (A - 2 ^ 256) mod N <> 0.

Lemma neg_digit_bit i : 0 <= i -> neg_digit A i = negb (Z.testbit A (4 * (i + 1))).
Proof.
  intros Hi. pose proof (window_range A i) as Hr. pose proof (window_bits A i 4 Hi ltac:(lia)) as Hb. cbn [Z.ltb Z.compare Pos.compare Pos.compare_cont andb] in Hb.
  replace (4 * i + 4) with (4 * (i + 1)) in Hb by lia. rewrite <- Hb. unfold neg_digit.
  assert (H : forallb (fun b => Bool.eqb (b <? 16) (negb (Z.testbit b 4))) (seqZ 0 32) = true) by reflexivity.
  rewrite forallb_forall in H. apply Bool.eqb_prop, H, list_elem_of_In, elem_of_seqZ. lia.
Qed.

Lemma pow16_small i : 0 <= i < 64 -> 0 < 16 ^ i <= 2 ^ 252.
Proof.
  intros Hi. split; [apply Z.pow_pos_nonneg; lia|]. change (2 ^ 252) with (16 ^ 63). apply Z.pow_le_mono_r; lia.
Qed.

Lemma half_nz n : T n <> Infinity -> T (2 * n) <> Infinity.
Proof.
  intros Hn E. apply Hn, T_inf. apply T_inf in E. pose proof N_bounds as [HB HNO]. pose proof (ok_N curve) as HP.
  apply Z.mod_divide in E; [|lia]. apply Z.mod_divide; [lia|]. apply Z.divide_prime_mul in E as [E|E]; [|done|done].
  apply Z.divide_pos_le in E; lia.
Qed.

Lemma low_nz s i : 0 < i <= 64 -> s = 1 \/ s = -1 -> T (s * low A i) <> Infinity.
Proof.
  intros Hi Hs. pose proof N_bounds as [HB _]. destruct (Z.eq_dec i 64) as [->|Hi64].
  - rewrite low_top by done. intros E. apply T_inf, Z.mod_divide in E; [|lia]. apply HN, Z.mod_divide; [lia|].
    destruct E as [c Hc]. destruct Hs as [-> | ->]; [exists c; lia|exists (- c); lia].
  - destruct (low_range A i ltac:(lia) HO ltac:(lia)) as [Hr Ho]. pose proof (pow16_small i ltac:(lia)).
    assert (low A i <> 0) by (intros E; by rewrite E in Ho). apply T_small; destruct Hs as [-> | ->]; lia.
Qed.

Lemma entry_nz i j : 0 <= i < 64 -> 0 <= j < 8 -> T ((2 * j + 1) * 16 ^ i) <> Infinity.
Proof.
  intros Hi Hj. pose proof N_bounds as [HB _]. pose proof (pow16_small i Hi) as Hp. set (w := 16 ^ i) in *. apply T_small; nia.
Qed.

Lemma low_sign a i : 0 < i < 64 -> normalized a -> bn_val a = A / 16 ^ i ->
  low_digit a = digit_bits (window A i) /\ Z.lnot (low_digit a) .& 1 = Z.b2z (xorb (neg_digit A (i - 1)) (neg_digit A i)).
Proof.
  intros Hi Na Va. assert (E : low_digit a = digit_bits (window A i)) by (rewrite low_digit_ok, Va by done; done). split; [done|].
  pose proof (window_digit (window A i) (window_range A i)) as (_ & _ & _ & Hb). rewrite E.
  pose proof (window_bits A i 0 ltac:(lia) ltac:(lia)) as H0. cbn [Z.ltb Z.compare andb] in H0. rewrite Z.add_0_r in H0.
  rewrite (neg_digit_bit (i - 1)) by lia. replace (4 * (i - 1 + 1)) with (4 * i) by lia. rewrite <- H0. fold (neg_digit A i) in Hb.
  assert (Hl : forall x, x .& 1 = Z.b2z (Z.testbit x 0)) by (intros x; change 1 with (Z.ones 1) at 1; rewrite Z.land_ones, Zmod_odd, Z.bit0_odd by lia; by destruct (Z.odd x)).
  rewrite (Hl (digit_bits (window A i))), (Hl (Z.lxor (window A i) _)) in Hb. rewrite Hl, Z.lnot_spec by lia. apply Z.b2z_inj in Hb. rewrite Hb, Z.lxor_spec.
  by destruct (neg_digit A i), (Z.testbit (window A i) 0).
Qed.

(** The rows from [i] on. *)
Lemma scalar_turns_ok cp : cp_ok cp -> forall n i a j, i + Z.of_nat n = 64 -> 0 < i ->
  normalized a -> bn_val a = A / 16 ^ (i - 1) -> jac_stands curve j (T (sgn A (i - 1) * low A i)) ->
  exists a' j', scalar_turns (drop (Z.to_nat i) cp) curve a j = Some (a', j') /\
  normalized a' /\ bn_val a' = A / 16 ^ 63 /\ jac_stands curve j' (T (sgn A 63 * low A 64)).
Proof.
  intros [Hlen Hcp]. induction n as [|n IH]; intros i a j Hin Hi Na Va Hj.
  - replace i with 64 in * by lia. exists a, j. rewrite drop_ge by (unfold zlen in Hlen; lia). done.
  - destruct (drop (Z.to_nat i) cp) as [|row rows] eqn:Ed.
    { apply (f_equal length) in Ed. rewrite length_drop in Ed. cbn in Ed. unfold zlen in Hlen. lia. }
    assert (Hrow : row = znth [] cp i).
    { unfold znth. rewrite (proj2 (Z.ltb_ge i 0)) by lia. rewrite <- (take_drop (Z.to_nat i) cp), Ed.
      rewrite app_nth2; rewrite length_take; unfold zlen in Hlen; [|lia]. by replace (Z.to_nat i - Z.to_nat i `min` length cp)%nat with 0%nat by lia. }
    assert (Hrows : rows = drop (Z.to_nat (i + 1)) cp).
    { replace (Z.to_nat (i + 1)) with (Z.to_nat i + 1)%nat by lia. by rewrite <- drop_drop, Ed. }
    cbn [scalar_turns]. cbv zeta. destruct (shift_scalar_ok a Na) as [Ns Vs].
    assert (Vs' : bn_val (shift_scalar a) = A / 16 ^ i).
    { rewrite Vs, Va, Z.div_div by (try apply Z.pow_pos_nonneg; lia). f_equal. replace i with (i - 1 + 1) at 2 by lia.
      by rewrite Z.pow_add_r, Z.pow_1_r by lia. }
    destruct (low_sign (shift_scalar a) i ltac:(lia) Ns Vs') as [El Es]. rewrite Es.
    destruct (digit_index A i) as (Hidx & Hval & _). rewrite El.
    destruct (jac_negate_y (xorb (neg_digit A (i - 1)) (neg_digit A i)) _ _ Hj) as (y & Ey & Hy); [apply half_nz, low_nz; [lia|apply sgn_cases]|].
    rewrite (bind_is _ _ _ Ey). cbv beta.
    replace (if xorb (neg_digit A (i - 1)) (neg_digit A i) then - (sgn A (i - 1) * low A i) else sgn A (i - 1) * low A i)
      with (sgn A i * low A i) in Hy by (unfold sgn; destruct (neg_digit A (i - 1)), (neg_digit A i); cbn [xorb]; lia).
    pose proof (Hcp i _ ltac:(lia) Hidx) as Hq. rewrite <- Hrow in Hq.
    assert (Esum : (2 * Z.shiftr (digit_bits (window A i)) 1 + 1) * 16 ^ i + sgn A i * low A i = sgn A i * low A (i + 1)).
    { rewrite Hval, (low_step A i) by lia. lia. }
    destruct (jac_add_times _ _ _ _ Hq (entry_nz i _ ltac:(lia) Hidx) Hy) as (j' & Ej & Hj').
    { rewrite Esum. apply low_nz; [lia|apply sgn_cases]. }
    rewrite (bind_is _ _ _ Ej). cbv beta. rewrite Hrows. rewrite Esum in Hj'.
    apply IH; [lia|lia|done| |]; by replace (i + 1 - 1) with i by lia.
Qed.

End Rows.

Lemma scalar_multiply_cp_val cp words res k z rest : cp_ok cp -> normalized k -> 0 < bn_val k < N ->
  generate_k_random words p = Some (z, rest) ->
  exists r, scalar_multiply_cp cp words curve k res = Some (0, r, rest) /\ stands_for curve r (T (bn_val k)).
Proof.
  intros Hcp Hk Rk Hrand. pose proof N_bounds as [HB HNO]. unfold scalar_multiply_cp.
  rewrite bn_is_less_val, truth_b2z by (done || apply (ok_order curve)). rewrite (proj2 (Z.ltb_lt (bn_val k) N)) by lia. cbn [negb].
  destruct (odd_scalar_ok k (order curve) Hk (proj1 (ok_order curve)) HNO ltac:(lia)) as (a & nz & -> & Na & Oa & Va & Ra & Hnz).
  cbv beta iota zeta. rewrite odd_land, Hnz by done. rewrite (proj2 (Z.eqb_neq (bn_val k) 0)) by lia. cbn [negb].
  set (A := bn_val a) in *. pose proof (normalized_range a Na) as RA. assert (HA : 0 <= A < 2 ^ 257) by (unfold A; lia).
  assert (HAN : (A - 2 ^ 256) mod N <> 0) by (rewrite Va; by apply scalar_nz).
  assert (El : low_digit a = digit_bits (window A 0)).
  { rewrite low_digit_ok by done. fold A. unfold window. by rewrite Z.pow_0_r, Z.div_1_r. }
  rewrite El. destruct (digit_index A 0) as (Hidx & Hval & _). pose proof (proj2 Hcp 0 _ ltac:(lia) Hidx) as Hent.
  destruct (curve_to_jacobian_ok curve words _ _ z rest Hent (entry_nz 0 _ ltac:(lia) Hidx) Hrand) as (j & Ej & Hj).
  rewrite (bind_is _ _ _ Ej). cbv beta iota.
  replace (tail (take 64 cp)) with (drop (Z.to_nat 1) cp) by (destruct Hcp as [Hl _]; unfold zlen in Hl; rewrite take_ge by lia; by destruct cp).
  destruct (scalar_turns_ok A HA Oa HAN cp Hcp 63 1 a j) as (a' & j' & Et & Na' & Va' & Hj'); [done|lia|done| | |].
  { by rewrite Z.pow_0_r, Z.div_1_r. }
  { change (1 - 1) with 0. change 1 with (0 + 1). rewrite low_step, low_zero by (done || lia). rewrite Hval in Hj.
    by replace (sgn A 0 * (0 + 16 ^ 0 * digit A 0)) with (sgn A 0 * digit A 0 * 16 ^ 0) by lia. }
  rewrite (bind_is _ _ _ Et). cbv beta iota.
  replace (Z.lnot (Z.shiftr (limb a' 0) 4) .& 1) with (Z.b2z (neg_digit A 63)).
  2: { rewrite neg_digit_bit by lia. change 1 with (Z.ones 1). rewrite Z.land_ones, Zmod_odd, <- Z.bit0_odd, Z.lnot_spec, Z.shiftr_spec, limb_testbit by (done || lia).
       rewrite Va', pow16, <- Z.shiftr_div_pow2, Z.shiftr_spec by lia. by destruct (Z.testbit A _). }
  destruct (jac_negate_y (neg_digit A 63) _ _ Hj') as (y & Ey & Hy); [apply half_nz, low_nz; [done..|lia|apply sgn_cases]|].
  rewrite (bind_is _ _ _ Ey). cbv beta. destruct (jacobian_to_curve_ok curve _ _ Hy) as (r & Er & Hr). rewrite (bind_is _ _ _ Er). cbv beta.
  exists r. split; [done|]. replace (if neg_digit A 63 then - (sgn A 63 * low A 64) else sgn A 63 * low A 64) with (low A 64) in Hr
    by (unfold sgn; destruct (neg_digit A 63); lia).
  rewrite low_top, Va, scalar_same in Hr by done. done.
Qed.

End Multiply.

End EcdsaMul.
