(* ===== verification/EcTable.v ===== *)
(** * The precomputed multiples of secp256k1 (crypto/secp256k1.table)

    The table cp of secp256k1.c, 64 rows of 8 points with nine limbs for each
    coordinate, as the source lists it. *)

From stdpp Require Import base list numbers.
From Stdlib Require Import ZArith.
From S2P Require Import Prelude Bignum Curves.

Module EcTable.
Import Curves.

Definition secp256k1_cp_0 : list curve_point :=
  [CurvePoint [0x16f81798; 0xf940ad8; 0x138a3656; 0x17f9b65b; 0x10b07029; 0x114ae743; 0xeb15681; 0xfdf3b97; 0x79be66]
     [0x1b10d4b8; 0x23e847f; 0x1550667; 0xf68914d; 0x108a8fd1; 0x1dfe0708; 0x11957693; 0xee4d478; 0x483ada];
   CurvePoint [0x1ce036f9; 0x100f889d; 0x1be66c21; 0x3908b06; 0x15229b53; 0x7c2fc4e; 0xc4124d1; 0x324b18; 0xf9308a]
     [0x4b8e672; 0x5cfebac; 0x1088c6db; 0x1533269; 0x1f356650; 0x1bf3151b; 0x503f8c; 0x1ec65bd; 0x388f7b];
   CurvePoint [0x1240efe4; 0x1d46ab4d; 0x1866adf2; 0x17097bb8; 0x5128e88; 0x1392852e; 0x24d56d2; 0x9a340e4; 0x2f8bde]
     [0x6ac62d6; 0x543e9d5; 0x35a1037; 0x104e3756; 0x1c426f78; 0x14eed364; 0xf5b536e; 0x4c6dcbc; 0xd8ac22];
   CurvePoint [0xac4f9bc; 0x95eef6e; 0xc38e73a; 0x336fc06; 0x7a0e3d4; 0x19b2f975; 0x13aa8e63; 0xc8dcbb6; 0x5cbdf0]
     [0x87264da; 0x8413140; 0x1f79ed69; 0x7a17027; 0x54dba81; 0x6b6c30d; 0x5828c5e; 0x81744ab; 0x6aebca];
   CurvePoint [0x1c27ccbe; 0x1af8886f; 0x15f9c530; 0xf2d2e98; 0x19abde09; 0xbc54faa; 0x194c26b4; 0x1c5e18fe; 0xacd484]
     [0x64f9c37; 0xe613156; 0x17e383c1; 0x1111486e; 0x161e9add; 0x4b8bb1d; 0x7f590e0; 0x43614fb; 0xcc3389];
   CurvePoint [0x1da008cb; 0x1f60bc4a; 0x105e246e; 0x133017cb; 0x5aac564; 0x1235b863; 0x4797bd0; 0x1f0b1528; 0x774ae7]
     [0x953c61b; 0xeba64e; 0x1e75aa0c; 0x1b63c5bf; 0x1b365372; 0xeab6bdb; 0x1864090f; 0x65d6d6b; 0xd984a0];
   CurvePoint [0x19405aa8; 0x176efc78; 0x3963377; 0xbf78cc2; 0x8651b07; 0x902e1ba; 0x22f1f47; 0x185b2ea5; 0xf28773]
     [0x1b03ed81; 0xdae5a96; 0x7ea47ca; 0x140db4a4; 0x1af473a1; 0x975b2e6; 0xa25d608; 0x5d1b101; 0xab090];
   CurvePoint [0x27e080e; 0x56de7c7; 0x17de791; 0xb28de79; 0x1f41131e; 0xd7184af; 0xa596919; 0x9efa87d; 0xd7924d]
     [0x16a26b58; 0x826e4ff; 0x5b4e971; 0x15e57b1; 0x6defea4; 0x17611466; 0xa9a0e10; 0xe550d8e; 0x581e28]].

Definition secp256k1_cp_1 : list curve_point :=
  [CurvePoint [0xa6dec0a; 0x27744f1; 0x1e96ba71; 0x626d370; 0x3e97b2a; 0x155e10e1; 0x1b14c046; 0x1276b3d3; 0xe60fce]
     [0x9616821; 0xf996673; 0x148fc2f8; 0xd123c89; 0x13710129; 0xf9a7abc; 0x164a76e6; 0xe733cb2; 0xf7e350];
   CurvePoint [0x1118e5c3; 0x1ec38550; 0xafaf066; 0xf364e8a; 0x5b4bfc5; 0x12b77a73; 0x1f6d105; 0xbb2c8a6; 0x6eca33]
     [0x5a08668; 0xc517bc0; 0x1e3b0d12; 0x12d47477; 0x75a03a4; 0xbc83a5c; 0x1c4164bd; 0x16af4f40; 0xd50123];
   CurvePoint [0xf87f62e; 0x16698f0a; 0x1c5849c3; 0xdcc70c6; 0x59f010e; 0x1a2769a3; 0x3b035f1; 0x17de37f2; 0xe9623b]
     [0x44ee737; 0x1809f57d; 0x1a211394; 0x8793ba; 0xa929fe6; 0xa9d476d; 0x7a783fa; 0x7697853; 0x38a974];
   CurvePoint [0xa8d733c; 0x18556fc1; 0x1f2a3e7a; 0x4e97ec5; 0xd682ffc; 0x11b79040; 0x16e82212; 0xe7ca2c3; 0xbc82dd]
     [0x147797f0; 0x13c30827; 0xe25cc07; 0x74175ce; 0x102dfae9; 0x1a5fb8cf; 0x12b152a6; 0x7408963; 0xe5f28c];
   CurvePoint [0x1fbc7671; 0x1f7f118a; 0x1638cb5; 0x1e3790a5; 0xf490743; 0x8e70bcc; 0x847480a; 0x918ecae; 0x8e3d12]
     [0x18717dec; 0x178ee320; 0xf85129f; 0xa57554c; 0x1e90eb93; 0x70c9c9; 0xe07d912; 0x1c21d9f9; 0x99a48];
   CurvePoint [0x1eb31db2; 0x1943a195; 0x1d41a83c; 0x15d04f11; 0xa2b68fc; 0xc9f6844; 0x126225a8; 0x15444694; 0x78a891]
     [0x19fa4343; 0x34eb11d; 0x2e0b4c; 0xf379bb0; 0x2df6543; 0x192a9398; 0x172ff3d7; 0xb7d6a06; 0x6912a3];
   CurvePoint [0xdb0e595; 0x9a47bbc; 0x820aed9; 0xc7973f7; 0x76eba71; 0x1bb2c0b0; 0xc5f5f38; 0x30abb63; 0x7d8678]
     [0x1c733de8; 0xca8f1d5; 0x9754ca6; 0xf089c1c; 0x18838293; 0x1715f6a7; 0x1dcb958; 0x1bfd90df; 0xe2b99a];
   CurvePoint [0x16060dfc; 0x47f7c28; 0x179a8a80; 0x8bf0840; 0xb086765; 0x5cee20d; 0xb212125; 0x1e00b05; 0xddc531]
     [0x7820ca8; 0x1afc55b7; 0x1411cc3e; 0x175f8d57; 0x10e9041d; 0x15b6e647; 0x1a480646; 0x75e41b2; 0xba0d2f]].

Definition secp256k1_cp_2 : list curve_point :=
  [CurvePoint [0x15f51508; 0x123711fe; 0xb072841; 0x73957ab; 0x1e238d8c; 0x171f0b96; 0x767a8a9; 0x64258c1; 0x828226]
     [0x16e26caf; 0x18db757f; 0x1ec5efb4; 0xc27585e; 0xace62d; 0xb74185b; 0x1f917a09; 0x130aafb; 0x11f8a8];
   CurvePoint [0x57e8dfa; 0x7e065cf; 0x11f8613f; 0x1232347; 0x18ca0098; 0x187c5654; 0x11303668; 0x5fe0f33; 0x8262cf]
     [0x1bac376a; 0xe7fc6c7; 0x5311e0d; 0xdda6656; 0x14f3457b; 0x111762d9; 0x19399bfb; 0x1c412213; 0x83fd95];
   CurvePoint [0x26bdb6f; 0x2972458; 0x1cd2e524; 0x837a8f6; 0x19c877ca; 0x2d92674; 0x17545a04; 0x1163b41b; 0x19825c]
     [0x49cfc9b; 0xefb8426; 0x1db4e9ad; 0x13dd9919; 0x19f6cebe; 0x10e64a7a; 0x1e3cc809; 0x1e1a990; 0x629431];
   CurvePoint [0x1d82824c; 0x7684a91; 0x54d3994; 0xb1c68bc; 0x999edfa; 0x1ab76361; 0x4510f17; 0xd822c03; 0x6f12d8]
     [0x6eb34d0; 0xbce1a40; 0x152f16e1; 0x19248210; 0x3769391; 0xa79feb1; 0x1e821d66; 0x1e895677; 0x5c4ff7];
   CurvePoint [0x1b453629; 0x1b6ee016; 0x167980c1; 0x1fb9b81e; 0xbef645c; 0x138b511d; 0x9745098; 0xdf34155; 0x203a8c]
     [0x1ff89f84; 0xb8e3c29; 0xa17b516; 0x1bd64b8a; 0x10612686; 0x1b68afa0; 0x6e4db31; 0xa7bcbbb; 0x3b0f0b];
   CurvePoint [0x46c7ecb; 0x18986ef; 0xed33a5e; 0x15da7fcb; 0xe1ec9d3; 0x1b99a433; 0x607207b; 0x1d67a068; 0x6e2aca]
     [0xebc8720; 0x24900f7; 0x19d44b21; 0xe0d7236; 0x1643afac; 0x26d787d; 0x18527603; 0xcf2fdfd; 0x9e61a4];
   CurvePoint [0x10a4147e; 0x1b80c79f; 0x1d7c807a; 0xfbb17ee; 0x10a58274; 0x18bf4524; 0x15aebd85; 0x125d3d22; 0xd5a704]
     [0x13fb65ff; 0x1259e5c1; 0x19fd5fe3; 0x9b308f2; 0x532f4c; 0x4c83b2f; 0x71bf124; 0x1ebb7571; 0x9db526];
   CurvePoint [0x18edcec6; 0x16eda35e; 0x18d3d153; 0xc3985a6; 0xdac6a10; 0x17e31816; 0xea0148f; 0x13557c31; 0x38c511]
     [0x1933db08; 0xb705fd8; 0x154c2991; 0x2d90456; 0x1282f28a; 0x196d13af; 0xca99a32; 0x450bb2e; 0xe649dd]].

Definition secp256k1_cp_3 : list curve_point :=
  [CurvePoint [0x11e5b739; 0x1fe72daa; 0x888bb5c; 0x127067fa; 0x846de0b; 0xe63637e; 0x1969cbe6; 0x13ee5170; 0x175e15]
     [0x9fed695; 0x17d37ff7; 0x90d171b; 0xb2ab5ba; 0x11f5eacb; 0xbd28ffb; 0x7ae93be; 0x1b3c78f; 0xd3506e];
   CurvePoint [0x5041216; 0xdbfc78e; 0xae0da99; 0x66bed08; 0x1ed523f7; 0xcf7ee17; 0x13d04a2d; 0xf643ef5; 0xda7531]
     [0xe708572; 0x176994c3; 0x1eb3b6b6; 0x1580f5ce; 0x17fc6e9a; 0x110d9a16; 0x17c37c67; 0x8d7ee5a; 0x73f8a0];
   CurvePoint [0x465a930; 0xa1f38f; 0x4d4bf6c; 0xfe382d6; 0xeb1e258; 0x2c62541; 0x75c15cf; 0x1691d2e9; 0x1c71c5]
     [0x34638b5; 0xc39fb66; 0x5d351c7; 0x8bc7f6e; 0x1b68c793; 0x18f94125; 0x8309c4f; 0x69d1ebf; 0x4a91c3];
   CurvePoint [0x1adb6ee7; 0x18c6d72d; 0x11281df8; 0x1ba864e; 0x14c9c785; 0x1bd484d; 0x159a4dba; 0x1f83e634; 0xd84e4a]
     [0x142ebed2; 0x16aab736; 0x8f99260; 0x11592e95; 0x1de4dfdd; 0x6ac7ab2; 0x7384a8e; 0x134f8f6f; 0xe52580];
   CurvePoint [0x49e6d10; 0xa74f67d; 0xb26748e; 0x15bfe75d; 0x16ed3f60; 0x15c942ff; 0x53506c8; 0x97bccd0; 0xf3d444]
     [0x1347da3f; 0x101c6602; 0x75b18c2; 0x15b4a19d; 0x4b5bfc1; 0xad60cc5; 0x18f52eae; 0x1bf4de02; 0xa4324];
   CurvePoint [0x9d33a07; 0x659a037; 0xe6f2ad2; 0x5dc1154; 0x1f4044e7; 0xa9066de; 0x1627e421; 0x593b383; 0xae3065]
     [0xa0b2a6; 0x438607b; 0x15fa571d; 0x186febbf; 0xd5cf1c9; 0x13e99edc; 0x195fbf33; 0x1871ac7f; 0x6cb9d9];
   CurvePoint [0xc28caca; 0xcb2a5c8; 0xa0769d; 0x138f7799; 0x8c9a186; 0x1f3ac19c; 0x7205785; 0x54b7abc; 0xd8dc1b]
     [0x3b3ec7a; 0xdb3b751; 0x4a3db3; 0x2ba59d9; 0x7d947d3; 0x6d21012; 0x1f5631b6; 0x1b24f9d8; 0x8cec0a];
   CurvePoint [0x1bc4416f; 0x90fdb31; 0x2c100a2; 0x1dfa47e6; 0xf31da7a; 0x12d46819; 0x1b335650; 0x1258bf09; 0x2749e2]
     [0x1c6bbd8e; 0x14c5ef17; 0x1a58415f; 0x1d3f6cbd; 0xdb3ef59; 0xa4c87e5; 0xf1100f6; 0x9c6ece5; 0x50cc2d]].

Definition secp256k1_cp_4 : list curve_point :=
  [CurvePoint [0x3ff4640; 0x135d6c7c; 0x154bff94; 0x838fcaa; 0x2ee0534; 0x1602db13; 0x1272673a; 0x1a88f601; 0x363d90]
     [0x1bee9de9; 0x1001e3f9; 0x667b2d8; 0x13512010; 0x1363145b; 0x229cbf9; 0x88654ed; 0x15bf8e64; 0x4e273];
   CurvePoint [0x16e55dc8; 0x1c4890b7; 0x12810e52; 0x12b56dd5; 0x94426ff; 0x12206028; 0x1ecaea12; 0x8f218bf; 0x443140]
     [0x1be323b3; 0xeca2576; 0xa8b940c; 0x14536f3d; 0xfed7a66; 0x1bfab21; 0x1be3fa66; 0x85cca6c; 0x96b0c1];
   CurvePoint [0x101b23a8; 0x1f4a42eb; 0x1fb82b7; 0x16fa8e15; 0x1089dab7; 0x1eadc90; 0x1f04989; 0x11b0cd95; 0x9e22fe]
     [0x884edae; 0x1d209e28; 0x14473b3d; 0xf9293f6; 0x1533c0f; 0x1f8104ce; 0x14405dfc; 0x1d394245; 0xfd2ff0];
   CurvePoint [0x71a70e4; 0xba045f8; 0x173d1d77; 0x1dca3ebe; 0x1306dcd5; 0x14f32382; 0xa34bb75; 0x1aa079c5; 0x508df6]
     [0x9950984; 0x1972dfb9; 0x2ab7fb7; 0x6451dd; 0x49c54ec; 0x255399f; 0x10b5ddcc; 0x13726778; 0x154c43];
   CurvePoint [0xe1abe11; 0x157ed3b6; 0x12c883db; 0x124384b3; 0x125b2dab; 0x1ac0c980; 0x1d8cce37; 0x108aa212; 0xe3dbff]
     [0x1fa8de63; 0x1a4d6aa4; 0x1ad71052; 0x12fb2078; 0x8ef3d3c; 0x1d3aedc5; 0x108590e3; 0x1334682; 0x6f2f9];
   CurvePoint [0x3593449; 0x78d91b0; 0xa91bff7; 0x16f825c8; 0x1014af61; 0xe09d03e; 0x10361e36; 0xc98fbd2; 0x19ace0]
     [0xdf83631; 0x120a5c9d; 0x101a28e; 0x2173e81; 0x2c46ac7; 0xb9ceca0; 0xcceffaf; 0x6a4d14; 0xe37992];
   CurvePoint [0xcba6b63; 0x11f4c496; 0x2ceed7b; 0x1fcce9fa; 0x8e310a0; 0x19914754; 0x16a84230; 0x1d841f0f; 0xd8740c]
     [0x934c5f3; 0x1751b603; 0x5a52af; 0x9eb987; 0xc37d401; 0x1774c81d; 0xafcde29; 0x678d726; 0x6472c1];
   CurvePoint [0x1b3ec038; 0xca7f960; 0x31ac9d8; 0x1aa2d5cc; 0x10a50d9f; 0x1f3b1794; 0x20d9220; 0x7236a0c; 0x58ac33]
     [0x10246279; 0x17551f88; 0x13eef285; 0x12087816; 0x1fe97021; 0x924f4c8; 0xb65e1de; 0xdaab92; 0x9163d7]].

Definition secp256k1_cp_5 : list curve_point :=
  [CurvePoint [0x1ffdf80c; 0xfbcd2ae; 0x16f346da; 0x94f0342; 0x1638843e; 0x25adba2; 0xafa3189; 0x2cbbe78; 0x8b4b5f]
     [0x1fd4fd36; 0x1f7f8632; 0x18bb95ac; 0x66ca8c2; 0xda04f9e; 0xbc09d58; 0x2d2cfef; 0xded1a61; 0x4aad0a];
   CurvePoint [0x155812dd; 0x5152c17; 0xb4c38a8; 0x8ce46aa; 0xf78e3d4; 0x1f6b602c; 0x14bc2daa; 0xf525fe6; 0x7029bd]
     [0x1a2d2927; 0x10e63358; 0xcb1cf1c; 0x15d08487; 0x83ac47d; 0xa257183; 0xf49f759; 0x1b5fbd16; 0xb0eefa];
   CurvePoint [0x1d486ed1; 0xe72b41d; 0x1596da92; 0xb7d7492; 0x17560574; 0x84ec67; 0x12640275; 0x195d5ccb; 0x9ccfed]
     [0x15e95d8d; 0x1b6acf6b; 0x164aa893; 0x2ceb2d2; 0x13411242; 0x12409005; 0xb3ed848; 0xe27ad46; 0x7c2f4d];
   CurvePoint [0x1bd0eaca; 0x10358d3a; 0xb52ade8; 0xe8aed74; 0xdf19d0c; 0x1ef19e52; 0x50cd6a3; 0x10ec6828; 0xcd9a4b]
     [0xbff4acc; 0x137d7dad; 0x1bd8d3db; 0xf671dda; 0xa08b012; 0x457499f; 0x8fa0552; 0xf343d1e; 0xf04558];
   CurvePoint [0x7bc57c6; 0x104a9d1e; 0xc9db2fc; 0x7af447d; 0x3094490; 0x169749eb; 0xfaa213c; 0x5f11db3; 0xad0988]
     [0xe4a0ab8; 0x1196076d; 0x438b4f2; 0x23a6e6b; 0xbe5f7b3; 0x36394ed; 0x14ae8a06; 0x11885f74; 0x7243c0];
   CurvePoint [0xba56302; 0x14186395; 0x3c618ba; 0xd526f5e; 0xd2e0f50; 0x116954fd; 0x107c7ab6; 0x15d6794; 0xd9d129]
     [0x8291c29; 0x156ed7d4; 0x9d3caba; 0x135d9b3f; 0x186e4173; 0xae33931; 0x1bb40a5c; 0x27d85a7; 0x7eb531];
   CurvePoint [0x14d1243a; 0x1669b827; 0x15297f6e; 0x24c047e; 0x1558402b; 0x10d6031f; 0x13be4734; 0x1bca73ad; 0xbc5079]
     [0x55db68a; 0xe4a8b44; 0x1d1c5a7d; 0x1dc9eb63; 0x1c8d75f7; 0x195ca6ff; 0x12ee3bb1; 0x7674e0b; 0x65062a];
   CurvePoint [0x174a3f9f; 0x6922735; 0x2605a42; 0xf4ccbb8; 0x625ac28; 0x15573ed9; 0x1fa244f7; 0xfca0bf8; 0x4d31a7]
     [0x101e0ba7; 0x1e581209; 0x18029d53; 0xdf6a36d; 0x2753cbf; 0x79c63c0; 0x1d6c1ac6; 0x192c130a; 0x22241e]].

Definition secp256k1_cp_6 : list curve_point :=
  [CurvePoint [0x1232fcda; 0x1b08ac92; 0x1039def2; 0x1b7ff4d; 0x148c7b70; 0x18e005ea; 0x5b5afdd; 0x14dcbb73; 0x723cba]
     [0x1eb39f5f; 0xee034ec; 0x1e525200; 0x140ca6e; 0x4d6e266; 0x9ba4441; 0x1262a484; 0x16ab2b98; 0x96e867];
   CurvePoint [0x633cb1; 0xb3f04f4; 0x140844c9; 0x144496d3; 0x1fcb575; 0x1399090c; 0xb500318; 0x1e62f559; 0x6dde9c]
     [0x7ce6b34; 0x1eea4d53; 0x167bcd5; 0x4ffb59f; 0x66a880b; 0x17c350dd; 0x10757267; 0x1cf4e0fc; 0x9188fb];
   CurvePoint [0x933f3c5; 0xcd28c69; 0x1c494890; 0x141ee22b; 0x1b850085; 0x1dbfc723; 0x17a04f12; 0x59ab6b9; 0x486fa7]
     [0xafb0f53; 0x16a538d6; 0x3c8ede6; 0x136f079e; 0xf19f62d; 0x45d7664; 0x150f9231; 0x33ead7b; 0x62e123];
   CurvePoint [0x1e99f728; 0x1eaca112; 0x1c48813a; 0x6ebf7cd; 0x5303677; 0x1f93dbb5; 0x1d3ed993; 0xe951295; 0x247969]
     [0xbaaebff; 0x1d0028b7; 0x1d68b60d; 0x17e7812a; 0x1664a5ad; 0x143f3ec6; 0x7b14b; 0x88d11e6; 0xe3d78d];
   CurvePoint [0xfb0079a; 0xf0636a1; 0x4981272; 0x1f3dee47; 0x18324916; 0xcf73b59; 0x1fc18c69; 0x1b547aab; 0x2f39cb]
     [0xc5690ba; 0x1114b981; 0xa808c3f; 0x167f7910; 0x1a58b9bf; 0x1b6813c6; 0x60d36a4; 0x1bc270c7; 0xabeadb];
   CurvePoint [0x4f7ab73; 0x9980597; 0x1110e9de; 0x7a9d53a; 0xaed262e; 0xf43629a; 0x6e95a8e; 0xd864fac; 0xe5a31d]
     [0x10561f42; 0x89d1fe3; 0x32e884e; 0x18889350; 0xce5dbf8; 0x54bbd27; 0x15e83046; 0x7b1a3d3; 0x37788c];
   CurvePoint [0x14dcd86; 0x7c94d1e; 0xfdc6d62; 0xba8412d; 0x1dcf11fc; 0xecc1028; 0x111f7d43; 0x941a2a6; 0xcc389d]
     [0x8f0a873; 0x75b6ece; 0x1f9e1d1a; 0xafc31fc; 0x110ca05c; 0x5eddf54; 0xfb66d5a; 0x1acc1ed7; 0x93ae4f];
   CurvePoint [0x18819311; 0x7ce375b; 0x1dc51c9; 0x1c3dc421; 0x1ed1f0b3; 0x10bf067a; 0x408dd42; 0x1913ae3d; 0x7f9291]
     [0xc2eb125; 0x14fcdabd; 0x1a85d2a; 0x15548139; 0x15b6120; 0xf462292; 0x1bc3d743; 0x20c7d87; 0x9da00d]].

Definition secp256k1_cp_7 : list curve_point :=
  [CurvePoint [0xe7dd7fa; 0x1299f650; 0xa4660e6; 0xf2c246f; 0xd3b5094; 0x17640961; 0x1e62e97f; 0x1a9277d7; 0xeebfa4]
     [0x1de8999; 0xfea7ed7; 0x47dc4b7; 0x99b874e; 0x89d9ae; 0x1f6d78bc; 0x3c9a7b9; 0x1472e1de; 0x5d9a8c];
   CurvePoint [0x1b7ceceb; 0x1fb3c7fd; 0x5febc3c; 0xb3f2711; 0x681473a; 0x1c0937b7; 0x1140dbfe; 0x4084eda; 0x437a86]
     [0x16c181e1; 0x1b1de61a; 0x3e5e09c; 0x41f9fb9; 0x97ff872; 0x1f5b4ce9; 0xcbda6e3; 0x1427dd58; 0xb916b];
   CurvePoint [0x97f96f2; 0xc6b94f0; 0x121cd735; 0x46a53a5; 0xc273358; 0x1f1dcd1e; 0x6f20f2d; 0x27c5491; 0xa9ef9f]
     [0x16c04be4; 0x1eaad82; 0x6d1c0b0; 0x1f135eb5; 0x1613db74; 0x170b075d; 0x15f3655b; 0x1cb28ab3; 0xe814cc];
   CurvePoint [0x150cf77e; 0x55ad09; 0xa2ac36f; 0x17eae8a9; 0x64207d; 0x13eb4fd5; 0x16f954e0; 0x83dc3a6; 0x66d805]
     [0xeaa3a6; 0x12fcbd7d; 0xc6ddb4a; 0x968756f; 0x13f6944; 0xa1029ab; 0xd0b0fc7; 0x1ce65fff; 0x51cfdf];
   CurvePoint [0x7213a5a; 0x1aa43144; 0x17e98ae4; 0x64094f0; 0xc3c80b7; 0x450e326; 0x1e8afcd4; 0x1c26ca07; 0x62ac05]
     [0x146a9e45; 0x8690e07; 0x1e653bf0; 0x12120302; 0x12579e55; 0x13cf03d4; 0x1b934e57; 0x1e741a34; 0x236fbd];
   CurvePoint [0x7bad12b; 0x187ea4c3; 0x1d9b87b0; 0xbd401d5; 0x12db385d; 0x9d7ae37; 0x1d6d6fd8; 0x92e4891; 0xca13c4]
     [0x1723b0f2; 0xb4cfa34; 0x95d59a2; 0x156e223; 0x1a3d6637; 0x1d327556; 0x1f22b057; 0x106c3850; 0x83aa09];
   CurvePoint [0x1c80414e; 0xd772fca; 0x19b3dff7; 0x1f150c5a; 0x9e4914e; 0xe27a230; 0xba16b04; 0x34e0a5; 0x1cecb1]
     [0x12169a3b; 0x574a496; 0x1c8c7437; 0xaafca88; 0x1ad16907; 0x11941af6; 0x13ed396a; 0xcd2c12f; 0xf34360];
   CurvePoint [0xed810a9; 0x7ade462; 0x1c005571; 0x113a7e78; 0x123924f8; 0xd7af8ef; 0x1e732543; 0xea09af1; 0x2a6990]
     [0x1a9b4728; 0x1c359c47; 0x105171f3; 0x1a8fd2fd; 0x104fc667; 0xc34aa7d; 0x1f6b0fb1; 0x136d87bf; 0x54f903]].

Definition secp256k1_cp_8 : list curve_point :=
  [CurvePoint [0x19a48db0; 0x1ebc1ad9; 0xf00effb; 0x42b4536; 0x1de459f1; 0x8504dbd; 0x59c9e47; 0x1b4d2dce; 0x100f44]
     [0xbc65a09; 0x1deae6b1; 0x14656b03; 0x1e9431fe; 0x10666b7f; 0x19980604; 0xddcbb23; 0x6325401; 0xcdd9e1];
   CurvePoint [0x15bc15b4; 0x5cd09a4; 0x168bb9a7; 0xa051c8c; 0x1ca8d927; 0x774e76b; 0x1727b616; 0x5ca3dd5; 0x10e90e]
     [0x18aa258d; 0x75f304a; 0xedaa20d; 0xb12c605; 0x11f754ca; 0x14630b56; 0x109355e; 0x701abc; 0xc68a37];
   CurvePoint [0x1fe75269; 0xe9fe181; 0xf4cc60b; 0xf47980a; 0x17dcda37; 0x1c85b8a5; 0x18e115d6; 0x85b4a82; 0xf7422f]
     [0x17e49bd5; 0x4c07438; 0x8e63806; 0x7446fe9; 0x35977fb; 0x13ee5cfb; 0x4ff4633; 0x3466261; 0x406c2f];
   CurvePoint [0x15a7175f; 0x9db34b7; 0x73d0a99; 0x11cee3a6; 0x1debbedb; 0xd2ac16a; 0x13fdca1e; 0x82fa87; 0x2d8cad]
     [0x1b9d592a; 0x19bddc8d; 0xd797833; 0x8d7fb39; 0x9d377a8; 0x197d3096; 0x529eec8; 0x10663195; 0xc73f3b];
   CurvePoint [0x14b51045; 0x1a64de1c; 0x7096cf8; 0xd912de6; 0xcf73bbc; 0x1ea758f4; 0x1a962b9c; 0x3b7314d; 0x1ecbfd]
     [0x2c70026; 0x1d338808; 0xd908b54; 0xc8d68; 0x9b38b19; 0x5d8c24d; 0xe9911f4; 0x6117338; 0x1cf6e2];
   CurvePoint [0x9358533; 0x1d66bb37; 0x1ed2e77d; 0x1267f3a9; 0x12a8c10a; 0xad148e9; 0x14a20fa5; 0x18bfcaee; 0x9a0894]
     [0x360ba08; 0x19f0e2ee; 0x376b7e; 0xdcb7b77; 0x1c32165a; 0x1eafcaa7; 0x1f0c7e45; 0x18840371; 0xa79883];
   CurvePoint [0x198ef7f6; 0xa202eb0; 0x1e3e7da; 0x7e7eef4; 0xaea6592; 0x42939dc; 0xb8d6f67; 0x93b69fa; 0x664dd8]
     [0x1d1eac94; 0x1a4b7f9a; 0x39bb3b9; 0x1a756637; 0x58cffc3; 0x672ee82; 0x4ca8512; 0x2e2fe4f; 0xad5120];
   CurvePoint [0x3c934b3; 0x60535be; 0x2b8b138; 0x3eb00b6; 0x1a7022b3; 0xcb34c08; 0x18e08c7; 0x126efa17; 0x82113a]
     [0x42c6a0f; 0x1f2f3156; 0x111a00dd; 0x1ef84d34; 0xc628aa1; 0x16795ad0; 0x19982119; 0x1b5935c6; 0x8da1b8]].

Definition secp256k1_cp_9 : list curve_point :=
  [CurvePoint [0x534fd2d; 0x4566f37; 0x1cece14b; 0x1f1a88c9; 0xc017a77; 0x113d2502; 0x146c7724; 0x1c4c58fd; 0xe1031b]
     [0x1456a00d; 0x278c794; 0x73b5e69; 0x5ba833c; 0x1535af29; 0x120bb2cb; 0x179aeda; 0x12512808; 0x9d7061];
   CurvePoint [0xf028d83; 0x1cb11d77; 0x1d0e5855; 0xb24db74; 0x69db619; 0x1f2d0aef; 0x17b1a96a; 0x189c78f0; 0xa7ebf7]
     [0x19d0bed1; 0x1201c95c; 0x14e4665; 0x7124e96; 0x804b47a; 0x39bb822; 0xb573f67; 0x5f7fc6c; 0x620515];
   CurvePoint [0x7dd5cfa; 0x17072011; 0x2752d6e; 0x138a26fe; 0x146336a8; 0x1529a131; 0x1d307371; 0x11b96049; 0x5b5ca0]
     [0x1e48e98c; 0x132537cc; 0xc9a74f9; 0xcf995e; 0x9094bfd; 0x18675443; 0x97a647; 0x1ee1542b; 0x3eccb6];
   CurvePoint [0x3531f82; 0x1ca94719; 0x30b27ca; 0x264d762; 0x2c29ff5; 0x1f3a44e1; 0xed733bc; 0x15982229; 0x46f26]
     [0xbceda07; 0x82fe458; 0xd571fe9; 0xb28b9b5; 0x12579d02; 0x185617e1; 0xbab388d; 0x62c6b70; 0x6b804b];
   CurvePoint [0x10432711; 0x58aa1b8; 0x45ae418; 0x8165fbb; 0x1645acf1; 0x1787844c; 0x1ed4d7e5; 0x1b263c1d; 0xc11926]
     [0xfe2610c; 0x4930f17; 0x1cd01579; 0x17245941; 0xc6cf83a; 0x5f8c366; 0x1a246125; 0x198fa4b6; 0x8be1f8];
   CurvePoint [0x1257963; 0xbcc3a7d; 0x12aa1870; 0x31aa586; 0x179c45b0; 0x1aa5a9c4; 0x1cb9b36e; 0x1d3d6d11; 0x690846]
     [0x66f9835; 0x12bb2cca; 0x124ac94e; 0x18795043; 0x1bb7f6cb; 0x18127c97; 0xf16d005; 0x196fe7fd; 0xe2485f];
   CurvePoint [0x1ee23ace; 0x889ca5e; 0x1374bf4b; 0x10f8cb6a; 0x12915dec; 0xa96fa51; 0x2eaee9d; 0x1f719244; 0xfb3df7]
     [0x1722e8de; 0x4ef7a64; 0x149fd7b8; 0x4e285fd; 0xb58a9e7; 0x8aa06dd; 0x11594a89; 0x178238e7; 0x510e29];
   CurvePoint [0x10272351; 0x103e7f7a; 0x7fc4261; 0x6967bf3; 0x1cd41707; 0x11f59d58; 0x62cfae2; 0x1849eb8a; 0x6dd85e]
     [0x1fc7664b; 0x183fd15b; 0x18205f26; 0x18dfef87; 0x41b7877; 0x3fcd7ae; 0x9f82750; 0x1e8243e8; 0x16ea67]].

Definition secp256k1_cp_10 : list curve_point :=
  [CurvePoint [0x1094696d; 0xaf3446c; 0x75abd4b; 0x1164cd48; 0x1d7ec5cf; 0x1cf8a1d; 0xd4c2b0a; 0x15c8daab; 0xfeea6c]
     [0x18090088; 0xaaef5f8; 0x10510b4c; 0x1912af98; 0xcd5c981; 0x7095f9f; 0x6eac1b9; 0xd92fb9c; 0xe57c6b];
   CurvePoint [0x8dfd587; 0x1c9b0dda; 0xc099581; 0x9747193; 0x1a12d5ec; 0x1d55167a; 0x22cd219; 0x3759e8a; 0x5084b4]
     [0x11470e89; 0x13cf4bfc; 0x47d581b; 0xdeac0d1; 0x127475db; 0x13642a94; 0x14c5866a; 0x343b301; 0x34a963];
   CurvePoint [0x1ab34cc6; 0x411930b; 0x1cc284b4; 0x1852ecf9; 0x17128c80; 0x1f8fe8c6; 0x17a94fec; 0x7c0c85a; 0x4f14c0]
     [0x187e681f; 0xf61297c; 0x774089; 0x1c799d1d; 0x2540b9d; 0x1387a1d3; 0x253194e; 0x1519549d; 0x7b53d0];
   CurvePoint [0x1241d90d; 0x13b8808; 0x9113e0d; 0x19e283b6; 0x1d363e81; 0x1b04af6e; 0x1b475050; 0xfc938f3; 0xa74db8]
     [0x1f7adad4; 0x1928c5c1; 0x828c4fc; 0x1ca12689; 0x171c8a9e; 0x8452c40; 0x1bcc9ff7; 0x19b5e47d; 0xf78691];
   CurvePoint [0x11c1ae1f; 0xf665111; 0x13502ca9; 0x1cb18d15; 0x15658456; 0x6a275d1; 0xb3e6b37; 0xae89754; 0x6901fa]
     [0x122838b0; 0x1c19832e; 0x11dea4c3; 0x1e774bcb; 0x900dd79; 0x9c0614e; 0x849186d; 0x11044e78; 0x35de5c];
   CurvePoint [0x127a4bdb; 0x1818840d; 0x12532b12; 0x14da086a; 0x1a35d046; 0x1b21f8dd; 0x49e8912; 0x5a3a870; 0x8d3cd8]
     [0x69a8a2c; 0x1e9a63e7; 0x2b4a5b0; 0x700fa6e; 0x236ed4e; 0x1fce803b; 0x7d1c33e; 0xc301dc8; 0x9bd425];
   CurvePoint [0x14ec1d2d; 0x669e35; 0x1f63d151; 0x133eb8dc; 0x1691fd90; 0xb394b3d; 0x1ce6bfa7; 0xc7ac0c8; 0xeaf983]
     [0xc838452; 0x7f3ab02; 0x1a12d4ff; 0xa5aa8af; 0x199aaa9f; 0x14507358; 0x1489dd48; 0x74ffcf1; 0xe51818];
   CurvePoint [0x45ae767; 0x59adfb8; 0x25dc72f; 0x753973d; 0xe5d8c27; 0x7029603; 0x18d19bd0; 0x2c75db6; 0xfb95bd]
     [0x1bbf0e11; 0x29f5057; 0x167c4d06; 0xde8e314; 0x275bb81; 0x6ce9b41; 0x16f14801; 0x1b02351b; 0x664c14]].

Definition secp256k1_cp_11 : list curve_point :=
  [CurvePoint [0x1ec6cb1; 0x1fd4bc5e; 0x160f78c; 0x1acafb01; 0x1ca3cfee; 0x1f25f37f; 0x1372cd9e; 0x3b22093; 0xda67a9]
     [0x1a68be1d; 0x14f54713; 0x1dd0285f; 0xf5b8a11; 0x180e5dec; 0x11fbf64b; 0xaf107d1; 0x6a902c8; 0x9bacaa];
   CurvePoint [0x15bc8a44; 0x17ee8328; 0x18546867; 0x202ef97; 0x5fc7684; 0x12d25d2d; 0x168f4e15; 0xb079f9d; 0x4d0180]
     [0x1adbc09e; 0x18fca648; 0xb68d8b; 0x8408d0b; 0x3813969; 0x1d4003eb; 0x174d9fa6; 0x1831969e; 0x3a33c6];
   CurvePoint [0x5daeb00; 0xd5a943; 0x1917ddaf; 0x7d6499c; 0xe9d1592; 0x1b5139db; 0x55c20b2; 0xfbeb9f; 0x2f6615]
     [0x33992c0; 0x113b3c4c; 0x174c2304; 0x1bdc4e32; 0xadd06ec; 0x9bd4100; 0xcfdbbe5; 0x26dea56; 0xfd5c12];
   CurvePoint [0x116aa6d9; 0x1548504; 0x1c0b73c6; 0x5916c8e; 0x15a38366; 0xba6d0c1; 0x1f48953c; 0xfa0bfc8; 0xf59411]
     [0x1f2e50cf; 0x1e834b75; 0x1ad6e1b1; 0x4ef107c; 0xbceb7a9; 0xded584a; 0xc4b3d97; 0x14add2e3; 0xcaa761];
   CurvePoint [0x1ac6f4c0; 0x15701cab; 0x12f71332; 0x1d1bd198; 0x711dda4; 0x1c5f34b; 0x137b1387; 0xfe3e9b3; 0xf2d4d]
     [0x12339b58; 0x1f3ddd6b; 0x90995b9; 0x14214f20; 0x1e71e8f6; 0x13fef9c0; 0x19345fec; 0x10afd27b; 0x3ec89f];
   CurvePoint [0x1f428cb2; 0x2a829fe; 0x88ad576; 0x1045facd; 0xd0f1233; 0x10c0acac; 0xef47ade; 0x185c5429; 0x1d5dce]
     [0x95b189b; 0x12f68804; 0x18112947; 0x1d225f0e; 0x10b88bd3; 0x3c12437; 0x314341e; 0x10762859; 0x6e5c40];
   CurvePoint [0x8381273; 0x1875447d; 0x4f6b97e; 0x6ed2c0d; 0x126ced84; 0x14d96620; 0x1d0e7f7a; 0x1fa6012c; 0x89d9a2]
     [0x1309773d; 0x1f59f76; 0x49cc928; 0x3ad015a; 0x162f58f6; 0x17903b67; 0x1d40ddea; 0x168a3acd; 0xdfca25];
   CurvePoint [0x15c71d91; 0x6195965; 0x253f487; 0x8bc5c55; 0xfece239; 0xe0988ad; 0xb8714a8; 0x10f074a1; 0x83191b]
     [0x2148a61; 0x5cf6047; 0x1117b9c; 0x23ea2ea; 0xae8a17a; 0xf09e8be; 0xdc2781b; 0x2ae7003; 0xe0ac7f]].

Definition secp256k1_cp_12 : list curve_point :=
  [CurvePoint [0x1a37b7c0; 0x1aa2e660; 0x441a7d5; 0x11a1ef76; 0x2151ec0; 0x49af79; 0x13769b80; 0x15416669; 0x53904f]
     [0x22771c8; 0xe584b58; 0x110d1a67; 0x133303c2; 0x13c1c139; 0x16656106; 0x1b62327; 0x1a179002; 0x5bc087];
   CurvePoint [0x8a2050e; 0xd6217f2; 0x17e299dc; 0x1deaaec2; 0x19b89742; 0x14e63723; 0xc625add; 0x1fa4978e; 0x673724]
     [0x61d3d70; 0x864d248; 0xd2730ae; 0x1759fa86; 0x6b6dbe6; 0x1604d44; 0x88080d2; 0xaf12d49; 0xe4cf82];
   CurvePoint [0x2de63bf; 0x1fb7241c; 0x98719b2; 0x15ea650e; 0x166a8e03; 0x5318fb0; 0x10c27966; 0x148e5be9; 0x4366ef]
     [0x17924cd; 0x16352047; 0xa9b5ac0; 0x1618a4b5; 0x68eaf33; 0x9bf0981; 0x1f38bb89; 0x137dc5a; 0x2e7dd9];
   CurvePoint [0x6f96190; 0x8293ff8; 0x125497bc; 0x5bd20f; 0xa75fd1f; 0xab4b33d; 0xc7e5ef9; 0xc4f3235; 0x7bd753]
     [0xbda00f6; 0x1e8b9025; 0x3a9a568; 0x1f98b83c; 0x27d6ce0; 0x123a4a1c; 0xc2757b5; 0x167b774c; 0x8336f2];
   CurvePoint [0x16ad41ed; 0x1d8a98aa; 0x1c0d490c; 0x11586be9; 0xdc92030; 0xcf448c; 0x1706be8d; 0xf7bb55a; 0x4f7e92]
     [0x1e642d57; 0x1a1abc33; 0xbddd6f7; 0x628e29d; 0xf6a62e7; 0x6fa9d4; 0xc4154a6; 0xa2ad511; 0xdfe774];
   CurvePoint [0x7748690; 0x1d302893; 0x18c2c073; 0xf209bb0; 0x13d007d5; 0x958f6e9; 0x133252d1; 0x10cfa523; 0x2355cb]
     [0xc89582b; 0x1e23a98a; 0x724e451; 0x10d0b19a; 0x7c58582; 0x2f60ad5; 0x7e3d56e; 0x114b4e3c; 0x21c2f1];
   CurvePoint [0xade7f16; 0xd7510b0; 0xf80a31b; 0x1975d279; 0x15d24ae9; 0x955b613; 0x15b004d6; 0xb7367b4; 0xb6682]
     [0x8c56217; 0xa221342; 0x19f34af6; 0x8781be7; 0x1a97fb72; 0x1b5d45ab; 0xcffbce9; 0x17031c13; 0xa1fba0];
   CurvePoint [0x19060d5b; 0x8358114; 0xe8e9f0a; 0xc276238; 0x151cb904; 0xd97ecfc; 0x8b2d842; 0x79e17a0; 0xf60204]
     [0x1af88f13; 0x17b7a858; 0x17468fdd; 0x14ada56f; 0x17bea37a; 0x7b25627; 0x1c66206a; 0xd83e19; 0xf036b7]].

Definition secp256k1_cp_13 : list curve_point :=
  [CurvePoint [0x1ad86047; 0x1fcacfa1; 0x6e2f2bb; 0xa740875; 0x906779b; 0x53bb265; 0xe9dc673; 0x17a6b30; 0x8e7bcd]
     [0x460372a; 0x108023f4; 0x1f5a2cfa; 0x111c5c8f; 0x1514579e; 0x8210654; 0x12ce500c; 0x16547b4; 0x10b777];
   CurvePoint [0x41ead4b; 0x1f443cd0; 0x6c0f07f; 0xbdbf6d2; 0x76be3a7; 0x19a77d7f; 0xdfb1c51; 0x19191e6; 0xbfc90c]
     [0x6fedaed; 0x2963784; 0x182b8f9d; 0xd1dfe65; 0x2d36fb4; 0x18c6ea82; 0x1b4936e9; 0x163c139b; 0x7a9481];
   CurvePoint [0x15bb3b3e; 0x173de83b; 0x7dcf2c9; 0xa6c2fdf; 0x13f5b507; 0xc9f4616; 0xa937296; 0x397c7f5; 0x732df1]
     [0x17366693; 0x2bbf0f6; 0x11610db3; 0x1b5adac9; 0x13916e69; 0x12ac2012; 0x5df2df8; 0x7dbd1f3; 0x7f4190];
   CurvePoint [0x88dc3b9; 0xfad9e0c; 0x1dd32671; 0xcd249d2; 0x1ef6019a; 0x420664b; 0x1ed0a36a; 0x172c0728; 0x4ce094]
     [0x5c0de52; 0xa7bdb7; 0x1a81940b; 0xb64193; 0xaca2162; 0x6c0653b; 0xcfb55ed; 0x1757e353; 0x5390f];
   CurvePoint [0xaaafe5a; 0x1baf058; 0x26bb753; 0x8e1674a; 0x3fd0e25; 0x1354ad81; 0x1f7a5b62; 0x16edf8cc; 0x9a968e]
     [0xed975c0; 0x135fea12; 0x19c33033; 0xb1014cb; 0x1d0ee7b; 0x13681ec3; 0x8a553f1; 0xf4da77; 0xabf6fb];
   CurvePoint [0x134c6397; 0x1a8e5fcf; 0x1d33424d; 0x1a7b6a00; 0xb22107d; 0x17c0129b; 0x6553c2b; 0x1da02e2c; 0xd3c6fb]
     [0x8cb3f9c; 0xfe4682b; 0x1783802c; 0x18ee1120; 0xb6468a0; 0x1ca6c975; 0xbc65160; 0x18abcbc5; 0x4a0dd2];
   CurvePoint [0xac3137e; 0xdc12c98; 0xbd91186; 0x4b6c54b; 0x13953fe9; 0x353b555; 0xee380bc; 0x13025248; 0x4cbde3]
     [0xec02fe6; 0x478ae7; 0x3ab5830; 0x74f5cb1; 0xc370d19; 0x1509a5ca; 0x5654024; 0xc11e26c; 0x6ce554];
   CurvePoint [0xfbf84b; 0x1d118367; 0xfc2e291; 0x91f9778; 0xcebb03c; 0xe39860a; 0x91ee2f6; 0x790562c; 0x4b9d33]
     [0x36c3c48; 0x1cf725a5; 0x1d6d7988; 0xdaa87c5; 0x1b7eb676; 0x1ecc133c; 0x54954c4; 0x1f7c4998; 0xfd7fc7]].

Definition secp256k1_cp_14 : list curve_point :=
  [CurvePoint [0x19c43862; 0x1420f0ac; 0x5f99a42; 0xfe9e307; 0x1bde71a; 0xc344dc; 0x1c879b42; 0x69839bf; 0x385eed]
     [0x142e5453; 0x22c7f2a; 0x1b72330; 0x9dd841; 0x1f4576b3; 0xf0cf4f5; 0xfd59c07; 0x187d1d44; 0x283beb];
   CurvePoint [0x16e2d9b3; 0x5e98355; 0xe358d45; 0x17250636; 0x1845641d; 0x15309ce7; 0x179d784b; 0x1e72f8e0; 0x19a314]
     [0xbaaaf33; 0xa97712e; 0x12f95b5; 0x43a3a48; 0x128b3a50; 0x12fc43fa; 0x3748d25; 0x1ebb58e5; 0x6cacd8];
   CurvePoint [0x12f00480; 0xc2c3f58; 0x373b9f; 0xb100942; 0x7219203; 0xc31b27b; 0xa8d5772; 0x972b51b; 0x5840ed]
     [0x1e22cf9e; 0xc96af15; 0xb8e1c85; 0xa44a8a5; 0x1d8daba7; 0x6f550ae; 0x5041e5a; 0xd64417e; 0x670cda];
   CurvePoint [0x3f54c42; 0x426f741; 0x68f7239; 0x1834784d; 0x532545d; 0x60fa767; 0x3ec7716; 0x14a68d23; 0x9f5701]
     [0xfeb6a21; 0x1070e249; 0x67949e1; 0x1cf09564; 0x1bfdd89e; 0xdb5ab94; 0x195efee5; 0x171003b3; 0xce7b8f];
   CurvePoint [0x1522461a; 0x14a09994; 0x11c60c9f; 0x6144cb7; 0xf9a0bcb; 0x380833f; 0x13f006ee; 0xd246b51; 0x27f611]
     [0x7301a2d; 0x152657ce; 0x18e511a; 0x103641b5; 0x8ee8e49; 0x2b093a1; 0xb4ba923; 0x1532014d; 0xe512f1];
   CurvePoint [0x114f36b9; 0x7164d96; 0xe7ce433; 0x119576c7; 0xa981259; 0x197a1afa; 0x504986f; 0x10ad9ddf; 0x640779]
     [0x4b4b50a; 0xa58f74f; 0x73baca2; 0x1410e093; 0x7b6c8cd; 0xbafec2d; 0x1bebbe43; 0x11e89cad; 0xda6192];
   CurvePoint [0x14d6b76f; 0x17b1efcc; 0x120576f3; 0xb53f769; 0x1feae7fe; 0x1845e04e; 0x1a7d14bd; 0x1c6390ac; 0xa23750]
     [0xdcca8da; 0xec96664; 0xe123450; 0xf823fb; 0x11113e77; 0x1d1f26a0; 0x19b6b0cb; 0x294dcfb; 0xf7339b];
   CurvePoint [0x1ceee475; 0x1774e327; 0x1b5e0ac4; 0x15905081; 0xff41ab6; 0x10f9e5; 0x1e357b4f; 0xf47e46; 0xbbf1ac]
     [0x7fe5067; 0x3115004; 0x2d075a1; 0x173b1287; 0x15fe324e; 0x1e641b58; 0x3984220; 0x1bdd5a8c; 0xb4bfb8]].

Definition secp256k1_cp_15 : list curve_point :=
  [CurvePoint [0x3fac3a7; 0x10376c36; 0x11fef271; 0x1bf094b2; 0x1fa180fd; 0x19d2209e; 0x6458df1; 0x17007d9e; 0x6f9d9]
     [0x1a842160; 0x3448301; 0xa0400b6; 0x9ba5eb8; 0x1c4d47ea; 0x11518722; 0x6e9a6e3; 0x11cc060b; 0x7c80c6];
   CurvePoint [0x121ce204; 0x76baf46; 0x19d8f549; 0xe4b1c84; 0xf72fb2a; 0x6c2ce53; 0x193ee0dd; 0x1a2c5678; 0x43ca41]
     [0x134a8f6b; 0x9282274; 0x9291a39; 0xd8f667d; 0x1a31f9ab; 0x7c90c6d; 0xfe87194; 0x105c6e04; 0xdcea5a];
   CurvePoint [0xbe6efda; 0x7e74967; 0x1ca01659; 0x1a9fe7f0; 0x506d922; 0x1b91bc2d; 0xfd6d99b; 0x1de45125; 0x9c3e06]
     [0x7aefc7d; 0x18a07995; 0xdbf7df7; 0x1790d0f6; 0x6fd5d43; 0x196a2671; 0x8f62bc2; 0x1cbcec52; 0xa7b709];
   CurvePoint [0x6c88be2; 0x893d5ae; 0x1bb9789e; 0x18f041a0; 0x775bea2; 0x13acec18; 0x1c0ceedc; 0x14627c41; 0x5d6f8a]
     [0xd7ad75d; 0x972a9f8; 0xfe4b0a2; 0x16df1d4d; 0xbc20eda; 0x1799d584; 0x13a31c6a; 0x11b1aada; 0xadc4b1];
   CurvePoint [0x12d1b844; 0x1449a8dc; 0x1cf9213c; 0x18070582; 0x8bc5c69; 0xae1e09c; 0x157f21ac; 0x186094c1; 0xf57d35]
     [0x1266837; 0x125d5deb; 0x4571a91; 0xd2e4061; 0x634c700; 0x9fad4f2; 0x1365e413; 0x13d531de; 0x707f3d];
   CurvePoint [0x1cc7cb09; 0x1a6803f9; 0x146d0d48; 0xfd6d143; 0x71463bc; 0x10ff71ec; 0x1297d65b; 0xf474cb2; 0x13e760]
     [0x8079160; 0x1f3ad450; 0xd5d9046; 0x15c576cd; 0x299d65e; 0x1eec2d9a; 0x2c78c97; 0x11bd1f77; 0x284dc8];
   CurvePoint [0x18cdee05; 0x3067092; 0xbb0ee40; 0xc3f642e; 0x901da87; 0x12858d83; 0xb989000; 0x44ad030; 0x29bea3]
     [0x62651c8; 0x12501acd; 0x11a638e7; 0x18636d91; 0x5ec7f9f; 0xd9fdc38; 0x83aa402; 0x144d21d3; 0x7c40d9];
   CurvePoint [0x12f18ada; 0xdb63ab0; 0x16f6f304; 0x17b2777; 0x14a59d46; 0x17d7f99e; 0x39f670d; 0xda47051; 0xf52178]
     [0x3953516; 0xeb457e9; 0x16fc2607; 0x1de946d8; 0x1d1d6aa5; 0x10815e68; 0xd5fb309; 0x17ec071b; 0xe0686f]].

Definition secp256k1_cp_16 : list curve_point :=
  [CurvePoint [0x2d0e6bd; 0x1dbf073a; 0x3d794c4; 0x9a2c7b6; 0x16ecbf77; 0xa3e0826; 0x18960a88; 0x248789; 0x3322d4]
     [0xc28b2a0; 0x79d174b; 0x1cebd89; 0xbec7d45; 0xf9b7280; 0xcde26ed; 0x1bd6fec0; 0x12fd2cc9; 0x56e707];
   CurvePoint [0x59ab499; 0x1ece9f90; 0x1cf0cc2a; 0x65338dc; 0x101bc0b1; 0xb59e33f; 0x16e97486; 0x1e602b80; 0x78baaf]
     [0x1ee097fd; 0xe918c7; 0x494665a; 0x65ddd1a; 0x82e916; 0x27076c1; 0x2bebf2a; 0x1b7b60d8; 0xad4bdc];
   CurvePoint [0x1d06ace6; 0x49f0b67; 0xe883291; 0x1366df0; 0x1ab1a237; 0x24c2494; 0xf53082e; 0x234295c; 0x6f70f2]
     [0x1602d5de; 0x45f69a5; 0x16b17b81; 0x52acd7c; 0x19f50753; 0xc79a3dc; 0xdcdbe57; 0x612804f; 0x791e8a];
   CurvePoint [0xee1b40; 0x4771f73; 0x1a5891f7; 0x1a90b6e3; 0x1ccd48ce; 0x4f8c881; 0x1057e025; 0x1653ad54; 0xe1599d]
     [0x178f93a6; 0xeb132f6; 0xca66778; 0xc74e978; 0x1c7cfa63; 0x4a55517; 0x1283bebe; 0x465503a; 0x793362];
   CurvePoint [0x9c00c3e; 0xefd142; 0x48238be; 0x1d1e0792; 0x11859f00; 0x11699ea2; 0x5590d95; 0x12e0880d; 0xbb0b04]
     [0x11955a35; 0xcd4c168; 0x1772429e; 0xe089d20; 0x1b052fe6; 0x17d0bd58; 0x1d8d9574; 0xb0a75f3; 0x4067e4];
   CurvePoint [0x5dd32e6; 0x73adce0; 0xf97b9f8; 0x76aa36a; 0x5fbfc66; 0xedf03ad; 0x27a6d92; 0xaa832af; 0xdc5a41]
     [0x154a99b9; 0x73edbd3; 0x1926f3e0; 0x5dd20ed; 0x159442ff; 0x12f100df; 0x1e9db73a; 0x14c7f3ec; 0x4af3a8];
   CurvePoint [0x544e7cb; 0x16a2dd62; 0xa580d67; 0xc844b6a; 0x14e99a10; 0xa52b880; 0xe76f8cd; 0xe0730e7; 0x156e19]
     [0xd250a37; 0xa9c9605; 0xd0e735b; 0xdab1abd; 0x14be8949; 0xb9531c1; 0x1f6a4e5; 0x13f1e632; 0x6bc08d];
   CurvePoint [0x59853ca; 0x1fde14e6; 0x66fd536; 0x12c4d73e; 0x1161348e; 0x1b511473; 0xe09af29; 0x19d96d08; 0x4269bc]
     [0x15b8d367; 0x14ac77a9; 0x196a28f6; 0x12814bf3; 0x1a409fd3; 0x654e218; 0x1adc8f21; 0x3505802; 0xed2b1c]].

Definition secp256k1_cp_17 : list curve_point :=
  [CurvePoint [0x134ab83; 0x10eba694; 0x190ce5dc; 0x167f35ee; 0x5868741; 0x1b86c4b3; 0x1f68af45; 0xfa5bc16; 0x85672c]
     [0x190313a6; 0x7184a7b; 0xa63d132; 0x1e2ff98a; 0xc2e5e77; 0x24dfd31; 0xbad8dd0; 0x136b6876; 0x7c481b];
   CurvePoint [0x3ba9000; 0xf8391d4; 0x97a2dbf; 0xe5f38d0; 0x143dc48; 0x1b03ac20; 0x305a121; 0x1f3ffe3b; 0xac3874]
     [0xf10cf0a; 0xd1e3ecb; 0x19ba7e93; 0x1c6a1afe; 0x17f93085; 0xef44a08; 0x1a6e18b; 0x4611438; 0xaa65e9];
   CurvePoint [0xd06dbd4; 0x13037b37; 0x8834206; 0x1c7f0af1; 0x1e729ec0; 0x3af4d1; 0x4e6b45; 0x1cf54d0e; 0x570d5c]
     [0x1d1ed495; 0x132df675; 0x1182fb56; 0x746db8c; 0x1bbbb68; 0x173388e8; 0xbd816d9; 0x92841c0; 0xa6ae53];
   CurvePoint [0x92d230e; 0x1a60fc90; 0x4ce4a10; 0x1c6541a5; 0x6ef5dae; 0x114f701b; 0xedbe1f0; 0xe0504d1; 0x75b5f8]
     [0x151570b8; 0x1be5efde; 0x47e3ec0; 0xf49600a; 0x1fa8e026; 0x3a2aa6e; 0x148d8f5e; 0x43c74f0; 0x527cce];
   CurvePoint [0x34fcc0e; 0x1db5fb56; 0x18e21311; 0x1e214857; 0x59c8927; 0x1c0713e9; 0x1b0ac296; 0x1f5c3dbb; 0x44fc8e]
     [0x119c420a; 0x7f818f3; 0x14122767; 0x1d294979; 0x1d3d7720; 0x13f3c419; 0xd9f9249; 0x12975362; 0xd2c7de];
   CurvePoint [0xbb69991; 0xd240fe4; 0xc1c5d75; 0x167f4586; 0xf535fff; 0xb310701; 0xf1a19a8; 0x8f759cf; 0xdea2ba]
     [0x116fe2df; 0x33a154f; 0x7b66f1c; 0x1b9b66c4; 0x1b9e7229; 0x1ff6427b; 0x392b172; 0x1adb2185; 0xae28bf];
   CurvePoint [0x114fc9cc; 0x1206812; 0x9185963; 0x157853; 0xa83626d; 0x7b6625c; 0x35bbf07; 0x1314dc2d; 0x3968fc]
     [0x1fad37dd; 0xc9ca44a; 0x23ccd00; 0x8caedff; 0x132c91a1; 0xc168d56; 0x4a048de; 0x1a1b696b; 0x789cbb];
   CurvePoint [0xe0c85f1; 0x17610c8d; 0xe8e8942; 0xa5ca6c0; 0x145d5a6a; 0xef84abc; 0x8a49ac9; 0xd31c0d; 0x689691]
     [0xdc1de21; 0x3a41199; 0x1540e48b; 0x1833b41; 0x1d72d1f4; 0x2e0ec22; 0x1e495bcc; 0x16967192; 0xaefd3f]].

Definition secp256k1_cp_18 : list curve_point :=
  [CurvePoint [0xc82a0a; 0x1ecacd7b; 0x19a20cbf; 0x44d8c1e; 0x13b10f9; 0x4f8c8ca; 0x291ac1b; 0x10136331; 0x948bf]
     [0x18c8e589; 0x65bfc46; 0x1f34afb5; 0x1bfe1192; 0x1418c6d4; 0x1a62e8e1; 0x191b71ad; 0x10adb96c; 0x53a562];
   CurvePoint [0x18c8ac7f; 0x1417f2fd; 0x18aa949c; 0x485dccb; 0xf849641; 0x1cb6902b; 0xef2d70c; 0x1f7c7045; 0x9945b2]
     [0x9aea3b0; 0x16ca1d0b; 0x16b37ea5; 0x1ef447dd; 0xeff5282; 0x1a27fd94; 0xb581f6; 0x104961e5; 0x3eefed];
   CurvePoint [0x169e353a; 0x8ebcf1c; 0xef87dbb; 0x8810a5; 0x1d5fe10a; 0x1113883; 0x3988d7e; 0xd640b0e; 0x2a314c]
     [0x5746067; 0x12c9370f; 0x9962ff0; 0x14a955b6; 0x1ba0138; 0x1f23b5d5; 0x1eb06918; 0x17e6b44; 0x15a4ac];
   CurvePoint [0x9b84966; 0xf17a4f7; 0x1fcffe62; 0x1e820dba; 0x16c911b4; 0x17d79d35; 0x10b5262d; 0x16e07f; 0x5959a5]
     [0x7473a6a; 0x533190c; 0x1f890990; 0x1b98119; 0x2a70910; 0x94106e4; 0x25fe50c; 0xe83eb95; 0x370e6];
   CurvePoint [0xbc6b173; 0x1864dc91; 0x1b4fface; 0x10c478fd; 0x15f9d7dd; 0x623182d; 0x1fa38458; 0x726e445; 0x9eeb31]
     [0x1723a71d; 0x9cb106c; 0x19c312e5; 0xe357da1; 0x1ae30ea; 0x15fedddd; 0x163654aa; 0x1c0221da; 0xe121f1];
   CurvePoint [0x1ec805f3; 0x1b9221fb; 0x16656455; 0x81eea13; 0x97887de; 0x191c4037; 0x3d45bae; 0x1c98fee3; 0x39cc4f]
     [0x1a3c48d3; 0xc8d0609; 0x1244b934; 0x12ae6e7f; 0xde7dbbb; 0x1349e7a1; 0x3cc5479; 0x58b48df; 0xecb147];
   CurvePoint [0xe22580e; 0x1eb17dae; 0x15be21e4; 0x6512da5; 0x1d4d2c71; 0x1fef326d; 0x11a5a24b; 0xe8cdd9b; 0xf94c80]
     [0x1127db82; 0xf291fb3; 0xdc753a0; 0xfd88a64; 0x81f6988; 0x1ffb55ad; 0x96a4652; 0x1b8cf0a4; 0x5e9c7f];
   CurvePoint [0x10c4f21f; 0x1f205d68; 0xf69e9a; 0x952b29a; 0x199d2502; 0x10346d8c; 0x58bf300; 0xd8d5aba; 0x8cccb8]
     [0x129dfea0; 0x1f893753; 0x192f8a3d; 0x5b95904; 0x158a54b9; 0x17aa4e43; 0x110da66f; 0xb0c4ea3; 0x57f896]].

Definition secp256k1_cp_19 : list curve_point :=
  [CurvePoint [0x138fd8e8; 0x766c0cf; 0x1a5d4ab3; 0x1c89bf8; 0x73a8f1b; 0x1e707814; 0x70d3c19; 0xfe8c300; 0x6260ce]
     [0x12b4ae17; 0xd4274ad; 0x14706630; 0x5244700; 0x1ef7ecd; 0x824bbb5; 0x15c69fc2; 0x56df4b6; 0xbc2da8];
   CurvePoint [0x1136602; 0x185d232a; 0x78e96ee; 0x8de901b; 0x13b3d38c; 0x49bf919; 0x1f0cf416; 0x500905b; 0x87d127]
     [0x18af6aac; 0x1b41e20e; 0x14efdf13; 0x1108e8df; 0x1745387a; 0x13b67fb3; 0xf7a49a8; 0x10e14b40; 0x71ce24];
   CurvePoint [0x8c5a916; 0x1902eb9a; 0x15843c96; 0x18881aa6; 0x14aa13f5; 0x631ed5a; 0x5d1ac2b; 0x7fc4c3d; 0xfd5d7d]
     [0x1adb8bda; 0xa59bd83; 0x13dbeaac; 0xe70297b; 0x1b52fe5d; 0x1e533ce3; 0xc1f4ad0; 0x1a1dd6ab; 0xdd83e];
   CurvePoint [0x15f7529c; 0xecc84b1; 0xf547751; 0xcb7316b; 0x4381387; 0x9e1969a; 0x1848ae91; 0x2130384; 0xde0dd4]
     [0x4cd88fe; 0x1e106017; 0x6ddd018; 0x12498d11; 0x3570178; 0x4c116bd; 0x117e6c84; 0x13a21442; 0xd70a6e];
   CurvePoint [0x18f76d11; 0x417a469; 0x14555cf; 0x2001f7f; 0x92a2151; 0x1f7e1ce1; 0x1139a716; 0x115b499e; 0xb26c20]
     [0x3b7356b; 0xe0058f; 0x9892f7; 0x60cb3b; 0x16433050; 0x143ec866; 0xcf3c313; 0x1041293a; 0x1f1cf8];
   CurvePoint [0x69e22db; 0xa71d833; 0x7224cfe; 0x127feb3f; 0x294eac9; 0x1e9480c6; 0x148e9f8e; 0x171f8ffe; 0xfceb14]
     [0x1c2260a1; 0x1ab96d92; 0x13af932f; 0xa1cf274; 0x10924ad5; 0x12d3a92f; 0x347f362; 0x7481ad7; 0x64aa6b];
   CurvePoint [0x38a2755; 0x18420bcd; 0x1271541b; 0x434e2ca; 0x7faa537; 0x1abba5a8; 0x12b15705; 0xc4799ab; 0x4e909a]
     [0x3cca3de; 0x1bd24fb1; 0xa60032b; 0x1aa729a4; 0x159dbb6c; 0x36ea83a; 0x16bb3bc9; 0x10f199c6; 0xae56da];
   CurvePoint [0x183ba64d; 0x12c4acc; 0x116568ea; 0xc1eef11; 0x40e2bde; 0x10a2f5c7; 0x100efec2; 0xb845c09; 0xc36745]
     [0xa2181fd; 0xa6647cb; 0x1de3c518; 0x4d55942; 0x164c7426; 0x737426c; 0xcc2038; 0x1a0d396c; 0x3a520a]].

Definition secp256k1_cp_20 : list curve_point :=
  [CurvePoint [0x37fa2d; 0xa9e6469; 0xff710ca; 0x1d91eaeb; 0x14103043; 0x420a5df; 0x350f60d; 0x1c15f83b; 0xe5037d]
     [0x1d755bda; 0x72ee420; 0x1207c438; 0x1eb607d8; 0x10bddbd5; 0x684fdcc; 0xed7e7e6; 0x975529a; 0x457153];
   CurvePoint [0x177e7775; 0x4545370; 0x1b657d8e; 0x2ab2711; 0x91aeb5e; 0x1dd67a9; 0xf3b9615; 0x75ff2c6; 0x9d896a]
     [0x1a056691; 0x1e7b69d5; 0x6494efb; 0x139afdc5; 0x927de89; 0x1276b928; 0x1c2e53a5; 0x1c87e937; 0xdd91a9];
   CurvePoint [0x1c2a3293; 0x1ef026f1; 0xd1db17; 0x1170ddd2; 0xf4cd568; 0x52b9941; 0x1e4b43ac; 0x1dce22c6; 0x8327b8]
     [0xe0df9bd; 0x1e42a70c; 0xc9a905a; 0x1fb569dc; 0x1708496a; 0x1f53313c; 0x63862ec; 0x4cddc15; 0x4997e];
   CurvePoint [0x562c042; 0x10d9362; 0x37ec689; 0x1a464697; 0x8ed6092; 0x130ec7cd; 0x5a25f59; 0x15454db6; 0x5ae42a]
     [0xf79269c; 0x82e66fc; 0x1f3636fe; 0x1b72a20; 0x9d4a94e; 0xeee301c; 0x147aad70; 0xf80bfe0; 0x99d93a];
   CurvePoint [0x1e85af61; 0x1a440942; 0x12b9d9ac; 0x1dae45ba; 0x1b0f4e8; 0x1b47fb61; 0x3ad66ba; 0x1c84d439; 0x92c23a]
     [0x36a2b09; 0x1391b34e; 0xa1bfb53; 0x75b056c; 0xd5792d2; 0xbeae39c; 0xed027c8; 0x11e02aa3; 0x414cf8];
   CurvePoint [0x7b5eba8; 0x11578d96; 0x63a8db3; 0x17db8ff2; 0xdf422da; 0x1a0bb57c; 0x1c422343; 0x118ed5fb; 0xfee560]
     [0xd0b9b5c; 0x1a8ae9b4; 0x4151e4f; 0x1fe857f; 0x1c14ee38; 0x17cc943; 0x2bec450; 0x12269fcb; 0x380759];
   CurvePoint [0x1c63caf4; 0xf1dd259; 0x1d4f54a0; 0x1fe75651; 0x6afca28; 0x9da6315; 0x1f988284; 0x1d725ccc; 0x42e544]
     [0x169c29c8; 0x3d7604c; 0x1bf17c46; 0xa1cf6d7; 0x15e7873a; 0x11060ba0; 0x19c7dc7c; 0x1c1f2398; 0x9ff854];
   CurvePoint [0x1e0f09a1; 0x515ecc2; 0x100ca0e0; 0x213e372; 0xefef0a; 0x17695238; 0x138e0e65; 0x16ccaa65; 0x7aed83]
     [0x5857d73; 0x2ec66f4; 0xfd29501; 0x165e601e; 0x12d8ed88; 0x1e855881; 0x1df1f76b; 0xbf3463d; 0xf5b854]].

Definition secp256k1_cp_21 : list curve_point :=
  [CurvePoint [0x4fce725; 0xc335057; 0x9b16dc9; 0x11b7a38d; 0x171b4e7e; 0x82f478b; 0x1eb7d7aa; 0x161e9440; 0xe06372]
     [0xeee31dd; 0x1381a7ca; 0x4121c2c; 0x1094ef0e; 0x488cd74; 0x1dd956ad; 0x13f84a89; 0xe979c31; 0x7a9089];
   CurvePoint [0x1a328d6a; 0x1d540c46; 0xb7062f6; 0x1aee752b; 0x8fa7b24; 0x4c8c2d8; 0x18028d1a; 0xb74c469; 0xc663c0]
     [0x1ec9b8c0; 0x1d85db55; 0xafe7308; 0xaa3d4a2; 0x11317dd8; 0x1ee793ab; 0x10e34e6b; 0x11abee43; 0x3331e9];
   CurvePoint [0x1996de2f; 0x48e4241; 0xc94452f; 0x1dbe5dc1; 0x1e4e977c; 0x186f7507; 0x91673ac; 0x105bf70d; 0xd3fc26]
     [0x14526f8c; 0x249120e; 0x1eafc5a3; 0x136931be; 0x181da4e5; 0x3aa6a7b; 0x863da2d; 0x13348be1; 0xc4f0df];
   CurvePoint [0x3e697ea; 0x3624688; 0x17e0fa17; 0xcf1f730; 0x1abd19ce; 0xff64d1f; 0x8df728; 0x87fd658; 0xc17a4b]
     [0x1edc6c87; 0x171dc3ee; 0x7c0aac3; 0x3436aff; 0x1fae96e; 0x1c7b8cb0; 0x5532b85; 0x5aab56b; 0x39355c];
   CurvePoint [0x1163da1b; 0x16961811; 0x4e8c460; 0x1dbdcc1f; 0x11fde9a0; 0x1a4ebfe0; 0x2d1a324; 0xf944cf2; 0x8f618b]
     [0x3bdd76e; 0x1f989088; 0x126db9f1; 0x18cd464; 0x5a42645; 0xd3a6bd6; 0xdbad7ef; 0x4be117d; 0x78233f];
   CurvePoint [0xec8ae90; 0x142c87f0; 0xef177bb; 0x4d725d1; 0x1f1b8cfb; 0xdc6d641; 0x19bae1b5; 0x1e2b6f43; 0x9798c0]
     [0x52844d3; 0x14d61757; 0xc62389e; 0x92cb7a0; 0x73bee2e; 0x4a4a7ce; 0x1b4f74bb; 0x154eb485; 0xba40e2];
   CurvePoint [0x11d66b7f; 0xd0cbc78; 0x1f72041; 0xd24a0a3; 0x84757aa; 0xdc85c49; 0x159d1f3c; 0x1c7f6b45; 0xfdfa6e]
     [0x18e5178b; 0x1547c033; 0x15e37a76; 0xdf3ba27; 0x18c4d84; 0xe4d1ed; 0x36e4f03; 0x3c44933; 0x4d9cf3];
   CurvePoint [0x1265bcf0; 0x3abc24; 0x71f4c2e; 0x1c56f082; 0x1220e69c; 0x14d230e7; 0x190eb77a; 0x71bc453; 0xfd58ce]
     [0xb996292; 0x19f3d4e7; 0x1c73477c; 0xc37fc51; 0x1e4fb872; 0x155cd242; 0x56f54e0; 0x1ca6ec64; 0xffe0a5]].

Definition secp256k1_cp_22 : list curve_point :=
  [CurvePoint [0x10559754; 0x56b4846; 0x8fd6150; 0x217bbc5; 0xe02204b; 0x1dfcee06; 0x114d6342; 0xe2b9aba; 0x213c7a]
     [0x14b458f2; 0x1f9613a9; 0x1a9fbb77; 0x10a1ebe6; 0x1a190bb4; 0x1683122d; 0x941c04e; 0x16b5c8c; 0x4b6dad];
   CurvePoint [0x1e05dccc; 0x196c008c; 0x66a4f94; 0x1f47da98; 0x1d172ae3; 0x104b5ca9; 0xc2551b; 0x1c2ea7b4; 0xb8cef6]
     [0xc6d5750; 0xa5067e; 0x1ada04cc; 0xaff86d4; 0xbd99df7; 0x53a7269; 0xefda935; 0xc14d993; 0x302b8a];
   CurvePoint [0x173bb31a; 0xdeff709; 0x16e5ed21; 0x1ef6d6bf; 0x15f49701; 0x5ef175d; 0xe1780a8; 0x1cef368e; 0x3fb33]
     [0x1d215c9e; 0x1a65f34b; 0x1d903538; 0x14f8ed88; 0x1572bc65; 0xb0d55dd; 0x18a07830; 0xa4a91df; 0xf36ad9];
   CurvePoint [0x1d9a4ab4; 0xda8af5e; 0x16edf029; 0x186d830a; 0x17a36717; 0x17bda687; 0x184587c5; 0x1a213d87; 0x4b177c]
     [0x35ab6f7; 0x156eff23; 0x1d07d562; 0xfc4abe2; 0x6b486e3; 0x1b3949b1; 0x997f6a3; 0x1d34bc5f; 0x3ec966];
   CurvePoint [0x101c23a4; 0x1a37d94d; 0x9273d5b; 0x1482b08f; 0x1cd75c22; 0x1c14dcdc; 0x81b0a80; 0xa40d44f; 0x5e8703]
     [0x10d986f9; 0x10bccb58; 0x1333f684; 0xe3b0e94; 0x6e2da21; 0xae8d716; 0x8879c5d; 0x9df7392; 0x5b9664];
   CurvePoint [0x7b0c66; 0x19f9ae90; 0x1b21bec7; 0xffdc8ca; 0xeb7434a; 0x1227b056; 0x2911c8; 0x3261ad; 0xe545c3]
     [0x11f2d470; 0x3fabe93; 0x1688e776; 0xb051c36; 0x1bcbf97e; 0x17ed1cac; 0x1579f971; 0x1d18c52; 0xe06a34];
   CurvePoint [0x3648bba; 0x12c0c85c; 0x10f1d112; 0x1e160d3; 0x1b39882a; 0x17112f80; 0x160284cf; 0x2af4a9e; 0xb2a442]
     [0xfb6452; 0x37d5a50; 0x705eec9; 0x10aa2a39; 0x17e31c0d; 0x1e4bc7de; 0x19867a7e; 0x1856d26c; 0xfe4f5f];
   CurvePoint [0xbab27d0; 0x1b6e9177; 0x11440ff3; 0x1683f458; 0x17007f70; 0x180c8c6c; 0x1946ea5; 0x1e7a8a7; 0x1b908e]
     [0xd3d110; 0xf433af2; 0x1f946d5c; 0x179526b0; 0x4b9ab5b; 0x1e48c0be; 0xd79bcd5; 0xbdd88cd; 0x9b6d62]].

Definition secp256k1_cp_23 : list curve_point :=
  [CurvePoint [0x8fbd53c; 0x661d1d8; 0x118b377c; 0x718e15b; 0x19a87e28; 0x9a952a0; 0xd3a36ee; 0x54f5e96; 0x4e7c27]
     [0x17dcaae6; 0x59ca0c0; 0x1df74cf8; 0x172c297f; 0x1681b530; 0x84fb6f7; 0xc6385bf; 0xecd93a1; 0x17749c];
   CurvePoint [0x521b3ff; 0x114c2327; 0xa9d433b; 0x180e2fd3; 0x24a5233; 0x695f4d7; 0x1571d791; 0x6021928; 0x2484e]
     [0x269da7e; 0xd725c8; 0xeb22ef3; 0xdbd24; 0x10eebad7; 0x159e1596; 0xc341fb0; 0x1415447c; 0x9619d0];
   CurvePoint [0x4ba7b9; 0xb5bcfd4; 0x1d05d47e; 0xd48e060; 0x954e20d; 0x1b86b396; 0x195fbde6; 0x4d9f6d9; 0x16c1c5]
     [0x1c5bd741; 0x1adf1d28; 0x126a7311; 0xab8037b; 0x94deec7; 0x13a2ce45; 0x10e41898; 0xf868062; 0xdb157f];
   CurvePoint [0x36683fa; 0x1b243d5; 0x1b02097a; 0x436a701; 0x7b66958; 0xe73ba29; 0x6be1ea2; 0x1aea7f26; 0x3973c]
     [0x1f4a577f; 0x1afd95bb; 0x1a6077b7; 0x1109c31f; 0x1a26cd77; 0x95b195a; 0xe8d90f8; 0x5986194; 0x38cf5a];
   CurvePoint [0xbf6f06; 0x59ccce; 0x10ed5c6; 0x1826644a; 0x5765713; 0x27a5810; 0x54470b0; 0x174e5d9e; 0xba6a9b]
     [0x181db551; 0x195f7b83; 0x1a5eabf8; 0x1a29ef58; 0xbd8e9e5; 0x5f972ac; 0x6c0c808; 0x7166942; 0x13771e];
   CurvePoint [0x11231a43; 0x8f7cf83; 0xb50ee7f; 0xa29accb; 0x442f44d; 0xca8326f; 0x174b62bb; 0x1984f989; 0x35c5bc]
     [0x1620c8f6; 0xdb97228; 0xf3c2b9f; 0xf49980c; 0x589d4cf; 0xc105b7d; 0x1b39cd39; 0xe4772e8; 0xe3675];
   CurvePoint [0x1dd40609; 0x1a05e2b7; 0x735daf; 0x321301b; 0x356ac74; 0x1897e2c4; 0x1af2848b; 0x48b8ab0; 0xfd479c]
     [0xa64ca53; 0xf1789b3; 0x7291ce7; 0x75dae4c; 0x41fd911; 0xbd21e4c; 0x1fbfcb2b; 0x16a4d295; 0x3069cf];
   CurvePoint [0xb799a7f; 0xdb817a9; 0xe3a1093; 0x116d9aa7; 0x7d544f1; 0x75cd796; 0x192f7b6; 0x547599b; 0x6c4000]
     [0x13c81e32; 0x1ae64166; 0x120fda2; 0x157a9904; 0x1dcbdc07; 0x1b5070e; 0x16f9a42e; 0x2a616c6; 0x95c2dc]].

Definition secp256k1_cp_24 : list curve_point :=
  [CurvePoint [0xfb27b6; 0x1213f142; 0x10c15d8c; 0x1c7b657c; 0x6aa5c76; 0x1c56b0b4; 0xc6c43c8; 0x7b7cef1; 0xfea74e]
     [0x123cb96f; 0xe9edbf; 0xfdedddc; 0x16b2d72e; 0xaf93126; 0x1a6f665b; 0xca5f3d9; 0x1b736162; 0x6e0568];
   CurvePoint [0x1e889756; 0xec0d74d; 0x12ec97; 0x16c932f6; 0x99f3f27; 0xcbd938c; 0x1aa089b3; 0x1866423f; 0x762e8b]
     [0x1ca6b774; 0xf12cf03; 0x13e9789; 0x5b66291; 0xe347197; 0x278a4c1; 0x5f0f1f3; 0x4c15e7d; 0xc02894];
   CurvePoint [0x975d2ea; 0x17baf4b8; 0x53a3a89; 0x559f420; 0xf4a91e5; 0x1edd9184; 0x14d23866; 0x8fbec12; 0xdf077d]
     [0x11936f95; 0x11e16cf1; 0xf749dea; 0x1d8b709f; 0x527c8a1; 0x12e4c51; 0x1d109321; 0x11001def; 0xf8617a];
   CurvePoint [0x1c4c92d7; 0x1c248fdd; 0x10e46d16; 0x169addca; 0x1142935d; 0xf5419a5; 0x80cb85f; 0xeb17a7b; 0x9f3e7d]
     [0x114906dd; 0x5ddfe7d; 0x538461b; 0x144607ad; 0x11502452; 0x1590e5d5; 0x19ad6218; 0x3d4efa8; 0xecd284];
   CurvePoint [0x12a8c483; 0x1706b995; 0x102b0d6; 0x1619118a; 0x15281174; 0x1e9177c; 0x1e7b70e3; 0xbaf6b99; 0xa0cc79]
     [0x12cc6ba9; 0x4b3a2ac; 0x1a4d8154; 0x91e37be; 0x1df786b3; 0x7e4b918; 0x1cfb88dd; 0x45f1670; 0xabc301];
   CurvePoint [0x5dd3aee; 0x1878db5e; 0x5b4bc85; 0xa75151f; 0x176ca131; 0x154d6354; 0x1f338388; 0x14a2aa78; 0x6d1c50]
     [0x1df597f7; 0x171aa727; 0x1b54eb7f; 0x1c621551; 0x1d474851; 0x19001143; 0x1f725dc9; 0x11c0d57b; 0xafff14];
   CurvePoint [0x4a6d0bb; 0x1c654dbf; 0x86bf719; 0x1a6245eb; 0x418f659; 0x136c5453; 0x7cfcc46; 0xc3172ff; 0x5e5f1d]
     [0x1033eaf9; 0x141c23c8; 0x1bd94e85; 0xabe5ca0; 0x121da725; 0x15e68273; 0x1bdcd63d; 0x560d4fc; 0xd7b150];
   CurvePoint [0xf005e3f; 0xd4daf22; 0x10e6f4b7; 0xd1c637d; 0x1a1495af; 0x5cd6700; 0x9ffff4f; 0xd6782c8; 0xf8138a]
     [0xf357eb7; 0x16bf0101; 0x12f884d0; 0x18837aaa; 0x1cb51f4e; 0xaf2bd52; 0xf67e740; 0x77df69d; 0xca758f]].

Definition secp256k1_cp_25 : list curve_point :=
  [CurvePoint [0x17bdde39; 0x16015220; 0x1810ca54; 0x9c2f36e; 0x168d3154; 0xb86accc; 0x1c384289; 0x27ecef9; 0x76e641]
     [0x1901ac01; 0x58ba968; 0x1b480cad; 0x1467a56a; 0x1f0d35e2; 0x136b8340; 0x173d5dc1; 0x11bdc9d2; 0xc90ddf];
   CurvePoint [0x78ee8d; 0x182848e6; 0x1a46510b; 0x1e419ca0; 0x14ff64eb; 0x1931d54d; 0x6f897fd; 0x15b0b3b5; 0xd08e57]
     [0xda63e86; 0xcbfa6e1; 0x8bb677a; 0x1def9f28; 0x6df4123; 0x19773abf; 0x35cb585; 0x13095691; 0x852e97];
   CurvePoint [0x29129ec; 0xc8a3382; 0x12095205; 0x1c759e3c; 0x11d080ca; 0x1f407669; 0x149d7d62; 0x10bc9a89; 0x7da6c0]
     [0xcd9ff0e; 0x1a857715; 0x12961aba; 0x11810ca9; 0x27bf044; 0x103a48b; 0x15d4474; 0xd773e83; 0xf49814];
   CurvePoint [0x11654f22; 0x1c1ea4aa; 0x6abba53; 0xfe72846; 0x1d94fb2f; 0x800df34; 0x19b886fa; 0x19feb837; 0x90d090]
     [0x1a43e1; 0x1aef02bb; 0x8fe1d03; 0xc6aca7b; 0x170336dd; 0x10f035f; 0x186a54fc; 0x3a5759e; 0xcd569a];
   CurvePoint [0x76b19fa; 0x1b77b28e; 0x20675c6; 0xdc0da0d; 0x1292ed9d; 0x16188410; 0x7b31cc8; 0xb0f9e3a; 0xda4798]
     [0x126f5af7; 0x15137759; 0x14ff081a; 0x17a27d2a; 0x569ea67; 0x1483bf0b; 0x1c0745cd; 0xf137995; 0xebb1d7];
   CurvePoint [0x19135dbd; 0xc97db2d; 0x1618c7b3; 0x10f5e73; 0x1897cf0c; 0x157ac174; 0x19ab605e; 0x951bbd; 0xe3e475]
     [0x748045d; 0x83579f2; 0x12576a5a; 0x405febd; 0x3ffea5a; 0x40ca95c; 0x1b102e63; 0x1f013978; 0x930a5b];
   CurvePoint [0xdee455f; 0x1f85cf2e; 0x13901d72; 0xfffcdd1; 0x1db4aff6; 0x99c7c05; 0x6c291d1; 0xdfd0e15; 0x7e8c65]
     [0x171b9cba; 0x19ef4cc0; 0x1d1989c5; 0x5a2ce8d; 0x1a53b4aa; 0x1b07a401; 0x103ca8fd; 0x659460e; 0xbdddc6];
   CurvePoint [0x698b59e; 0x1bcb5cdb; 0xd11e90d; 0x6b24b12; 0x1c7260a3; 0x1ad59f1; 0x1ac56fac; 0x1f12352b; 0x3df841]
     [0xb92baf5; 0x7c733cb; 0x12527e2f; 0x190cf642; 0xf3867bf; 0x1d74788e; 0x307680a; 0x1bf31612; 0xb38fe6]].

Definition secp256k1_cp_26 : list curve_point :=
  [CurvePoint [0xbcbb891; 0x158a8121; 0x9b2fb8e; 0x198c87be; 0x18f9a8f7; 0xdd53a1f; 0xf87a0a0; 0xd607655; 0xc738c5]
     [0x99a84c3; 0x1f39aecb; 0x33fa45; 0x29ddef1; 0x1bbbb823; 0x797565f; 0x94dfdc6; 0xf12a35a; 0x893fb5];
   CurvePoint [0x761d58d; 0x5d5799c; 0x15838bcd; 0x1937c811; 0xdf7aca4; 0x51ab90; 0x5184289; 0x4f047ec; 0xb8c461]
     [0x1d1051a4; 0x1c7505d4; 0x41f16d8; 0xa08f0bc; 0x1c5053f7; 0xc7b4bf9; 0xdf45291; 0xd8a2e1c; 0x8f9ed9];
   CurvePoint [0x50b0040; 0xd859820; 0x4d2b70b; 0x8fb73e0; 0x3671f3f; 0x4c9ff4d; 0x7de8d43; 0x13ee204e; 0x8d56e]
     [0x1b3fd0a1; 0xc7133d2; 0x5e0afad; 0xf88e41c; 0x1b285f6d; 0xa8546bc; 0xa887ff4; 0x15d7a153; 0xa12185];
   CurvePoint [0x13573b7f; 0xb2b1ef8; 0x2d89c3d; 0x1438bda6; 0x5a37889; 0x7cbbdf3; 0x198d0788; 0x65a85f9; 0xdc13f2]
     [0xc1f2ba6; 0x15669142; 0x1012c710; 0xaa8e02e; 0x10a76704; 0x86d4254; 0x1030f1d0; 0x100853c6; 0xc909ba];
   CurvePoint [0x7ae9ceb; 0x17ac85c; 0x1bcb452c; 0x1843d4e1; 0x119a8226; 0xab2ed90; 0x1c1cebc6; 0x1cc03bef; 0x25c02d]
     [0xbc6e275; 0x1848689a; 0x1961c991; 0xc83be14; 0x111d537c; 0x706e7d6; 0xf03221; 0x1a590247; 0x8a9fea];
   CurvePoint [0xc5a3c34; 0x1c04c7b7; 0x16527f87; 0x1d058052; 0x3e58aec; 0xfa653d7; 0x1273a2ae; 0x3659f1c; 0xfedd9d]
     [0x13d7714; 0x15aa5fa7; 0xfe0a5d8; 0x1d6a8d33; 0x14b00ada; 0x2989647; 0x382c2fa; 0x18630a77; 0xa52e24];
   CurvePoint [0xab6a396; 0x1a72a68d; 0x4d81da6; 0x4372342; 0x88b3730; 0x16bfaf42; 0x1230b7b8; 0x10d78dd4; 0x3e0e32]
     [0x1980e27e; 0x1598f246; 0x11a3da8b; 0x2083e6; 0x13fc66ab; 0x1f0ef5a2; 0x1e593cc7; 0xe5f4766; 0xca4481];
   CurvePoint [0x141023ec; 0x179ac311; 0x1b3d5c2a; 0xbb1eedf; 0xb9af564; 0x101004c1; 0x14a1260b; 0x6101865; 0x344ab9]
     [0x1e1eeb87; 0x7c4c148; 0xe6575c1; 0x1d2ed5f8; 0x14c5ffc4; 0x1968f528; 0x18a9cfe3; 0x856488; 0x6e1c2b]].

Definition secp256k1_cp_27 : list curve_point :=
  [CurvePoint [0x8f6c14b; 0x1974fb2c; 0x494050d; 0xe5cbe75; 0x12877d1d; 0x3b1be4b; 0xe078993; 0xca916cb; 0xd89562]
     [0x1d7d991f; 0x9b1f6ba; 0xc19f85e; 0x51ac657; 0x140eb034; 0x3040c61; 0x1ab9ca3b; 0x71e578f; 0xfebfaa];
   CurvePoint [0x127b756; 0x5d43ffb; 0x825c120; 0x517c957; 0xb416034; 0x116d2830; 0x499cb4d; 0x5ee2dbe; 0x6d8c78]
     [0x1f172571; 0xa8fba55; 0x1f373299; 0x154db45a; 0x14daf4e3; 0x14169b69; 0x4445166; 0x112dfb7; 0x99aedf];
   CurvePoint [0x158cf17a; 0xf70d39b; 0x208d493; 0x10bb974b; 0x97f8f1f; 0xd778da0; 0xb2a3416; 0x1bb2b7ef; 0xebcabe]
     [0x1caa0ccd; 0x366e2fa; 0xb3a5711; 0x15a425a1; 0x12e6b10f; 0x50db3e1; 0x72c0b00; 0x1f1e457; 0x47d3ce];
   CurvePoint [0xc855c5b; 0x77728ad; 0x1f22beef; 0xac43402; 0x1fc28118; 0xd1b4f0b; 0x189114cc; 0x5c97a99; 0xe8df4d]
     [0xe465650; 0xeaf3961; 0x7935f56; 0x76abe3c; 0x132c5966; 0xda7acf7; 0xc991113; 0xe188ff3; 0x6c57fd];
   CurvePoint [0x12e7e454; 0x47aded2; 0x3985434; 0x5dfde1e; 0x1662fe3; 0x3011d4c; 0xca4492; 0x1ae31d95; 0x4068d3]
     [0x18ef191e; 0x1cd66f2e; 0x10dccc9d; 0x1a43da27; 0x138d1988; 0xa2cbece; 0x1eaae7b0; 0x16e4a948; 0x8cd853];
   CurvePoint [0x6c5d939; 0x2bd6fc2; 0xa4cf782; 0xb450ef7; 0x27ea47; 0x19973065; 0x1782d56f; 0x19b63b04; 0x12550e]
     [0x19e757c9; 0x153a7e2a; 0x16350c64; 0x16e83fd9; 0x4a72838; 0x121e0bb9; 0x1e9d5123; 0x69f0e5a; 0x7b8f83];
   CurvePoint [0x16c8a56f; 0x6855632; 0x1cdd084e; 0x1278a869; 0xd08f850; 0x1bda9d7d; 0x17531a6e; 0x35876b0; 0x944d67]
     [0x1a7be289; 0xfa6e32e; 0x1945fae; 0x982e9ba; 0xc61967d; 0x1c9b099d; 0x1ffd3050; 0x12ef6a03; 0xa71065];
   CurvePoint [0xe08f15a; 0x175c50c5; 0x4a402eb; 0x13cadb90; 0x1c305fd6; 0x1b2ad69; 0x833f9ac; 0x1239a133; 0x86a54e]
     [0x1388308; 0x9268f3e; 0xd49534d; 0x53a24b6; 0x16867771; 0x146836ba; 0x1180e9ca; 0x906f4f0; 0xcfee61]].

Definition secp256k1_cp_28 : list curve_point :=
  [CurvePoint [0xf676e03; 0x8a852b2; 0x1a13b752; 0x1f8e6d27; 0x8761cef; 0x1219ab8f; 0x1463ac3d; 0x6552ae; 0xb8da94]
     [0xefdf6e7; 0x447273a; 0x1fced445; 0x18b09b2b; 0x8b092c; 0xe64bb14; 0x7935f26; 0x148900b4; 0x2804df];
   CurvePoint [0x6e1346b; 0x10cc24ee; 0x16bc717a; 0x1cf62070; 0x152c05ab; 0x1b0f8a68; 0x42f9531; 0x1fe1305a; 0x69068]
     [0x17226c13; 0x1dac52a6; 0x11809b9e; 0xd127329; 0x442aa4f; 0xd95e843; 0x189b6a17; 0x1c1217fb; 0xb863e3];
   CurvePoint [0x1ca1f6a1; 0x7348fe6; 0x33fc68c; 0x197a2869; 0x6ce1068; 0xe2e58f4; 0x1d854a1b; 0x127964b2; 0x898c34]
     [0x164f647c; 0x56e1078; 0xaf5e729; 0xf9f2f3e; 0x6e93b2a; 0xa122956; 0x15527611; 0x10d56ad4; 0x75f759];
   CurvePoint [0x1d1e3998; 0x134f01e1; 0x810ca2a; 0xd91722f; 0x274e5e5; 0xceb8115; 0xfc0694a; 0x1fda5231; 0xb213e2]
     [0x125fb81e; 0x165ee31; 0x17b45d7b; 0x82cb7d7; 0x3bc3d53; 0xf5fc1d2; 0x104b0f58; 0x1841e5a7; 0x229f8e];
   CurvePoint [0x25be234; 0x5f0ff65; 0x17cd41c0; 0x7c7ce1b; 0x6e060e8; 0x5d348b0; 0x4f97474; 0x1b02d8ff; 0x4b3b3a]
     [0x120e8362; 0x11dbf01c; 0x846e101; 0xffb259e; 0xc04c41e; 0x14b6fec6; 0x1271e1d7; 0x770bb57; 0x5eec02];
   CurvePoint [0x289f55e; 0xb31a53f; 0x11d9c1ee; 0xd61e1c5; 0x165be297; 0x8d813c4; 0x1e580809; 0x16dbb609; 0x9f7b88]
     [0x1e1e4bde; 0x1e69db2f; 0x428ac6c; 0xa6dc1d6; 0x1c71fc0e; 0x35a14c7; 0x3def8c5; 0x1098e082; 0x32f9f7];
   CurvePoint [0x1dfe1d2b; 0x12a4e460; 0x1a1e3945; 0x7ea13ca; 0x173a4c49; 0x56fe9fd; 0x38f9db3; 0x1d396e89; 0xd58a43]
     [0xcd50922; 0x793cadc; 0xf5befff; 0x137442b9; 0x276b54d; 0x14899414; 0xf3c429c; 0xd740b10; 0xfc1786];
   CurvePoint [0x49c795e; 0x120a8df1; 0x13a01784; 0x80d5533; 0x1ea4eed4; 0xb4e1e13; 0xc4335b6; 0x72e2230; 0x21d271]
     [0x19208ece; 0x9761c; 0x17edd86c; 0x3289495; 0x1b4c3d67; 0xdc2a915; 0x13a85dcd; 0x16960eb5; 0x94c5f9]].

Definition secp256k1_cp_29 : list curve_point :=
  [CurvePoint [0x3c0df5d; 0xd08bbc7; 0x15a9e4bc; 0x13dff6a2; 0x17fab201; 0xd5ca3ae; 0xce9f62b; 0x28883f6; 0xe80fea]
     [0xac9ec78; 0x5a148db; 0xc8baa7f; 0xabd015e; 0x94472d1; 0x1b4651e5; 0x1dc7a25; 0xfec71c0; 0xeed1de];
   CurvePoint [0x17592d55; 0x1acf66; 0x18d4064b; 0xb728e81; 0xe3b106d; 0x17b4b19e; 0x149822bf; 0x1b789420; 0x5d2ec6]
     [0xf5183a7; 0x1372e875; 0x4545d09; 0x14f79b5a; 0xd6950e2; 0x87d1346; 0x17ad63dc; 0x1f138dc8; 0xa92cd];
   CurvePoint [0x1e8f9f5c; 0x8fa5a4f; 0x2029466; 0x3e3c2b3; 0x1404d736; 0x171a10af; 0x1d0bf8b2; 0x1876237e; 0xac371d]
     [0x125a503c; 0x1d41ff99; 0x1d478745; 0xa68b1dc; 0xe735229; 0xf3992a; 0x11dffc84; 0x1830e134; 0xc51616];
   CurvePoint [0x19e33446; 0x50e46a8; 0xbce177d; 0x127788a5; 0xa17a408; 0x5e8111; 0x10324d23; 0x7429e30; 0x894200]
     [0x6387689; 0x69c5007; 0x19d3e610; 0x1aee6cf3; 0x1e4e06bf; 0x16b6877e; 0x1de9362c; 0x12b2b4a0; 0xa9fd03];
   CurvePoint [0x1913cb26; 0xb9464ad; 0xef5b40f; 0x16833802; 0x5c9899e; 0x1227faa8; 0xaa28b36; 0xd661468; 0x277026]
     [0x1348a7a2; 0x1f38b99f; 0x56faef; 0x1923799; 0xb324e94; 0x92683f9; 0xc69554b; 0xbcf361b; 0xf649bc];
   CurvePoint [0x195e8247; 0x555010a; 0x1b346bc; 0x1fb88aad; 0xba9097b; 0x13700e7c; 0x1485e397; 0x1a70797d; 0x75e4d0]
     [0x19982d22; 0x111fecea; 0x6b624f2; 0x156b6dd5; 0x126d47dd; 0xb8763db; 0x641d07e; 0x142ea821; 0x1fce42];
   CurvePoint [0x6333323; 0x3cfa26d; 0x1d2afd1d; 0x177838d1; 0xda849cb; 0x6b02cc2; 0xfc0fc08; 0x7066c37; 0x3ed1b6]
     [0x15d61ba3; 0x189fe245; 0x1e3dca52; 0xe514216; 0x1929ea9b; 0x4c4b447; 0x1b9d765f; 0x14916b69; 0xd84f2d];
   CurvePoint [0x133980bf; 0x1282bea5; 0x17402ebc; 0x6e05ca1; 0xdd4368a; 0x1ebb91a4; 0x606e11b; 0x1e0d4eb0; 0x70fdd2]
     [0xb75785; 0x17754675; 0x15d29584; 0x6b070b; 0x596b0a1; 0x8688f7; 0x1a5a55e9; 0x181a1ab0; 0x5edfca]].

Definition secp256k1_cp_30 : list curve_point :=
  [CurvePoint [0x4e16070; 0xe03dde6; 0x1f5a4577; 0x304063d; 0x7543f2a; 0x4728eab; 0x10c4ee9; 0xf7bf9ae; 0xa30169]
     [0x1e177ea1; 0x68d020; 0x84684c3; 0xbb7ef81; 0xf9b173; 0x4fd12ea; 0x13d42060; 0x39f6cfc; 0x7370f9];
   CurvePoint [0x138011fc; 0x18093800; 0x1ca15899; 0x12d4cf5a; 0xa4d835; 0x9984110; 0xc4455ac; 0x146102bd; 0x6e8313]
     [0x1f15ab7d; 0x165b4fd1; 0x1147e69a; 0x1f22b5d3; 0xc30426a; 0x16d900ed; 0x8130684; 0x117b849e; 0xc14781];
   CurvePoint [0x100e6ba7; 0x1d3a4dc6; 0x45bdfd4; 0xdd8b689; 0x1e1b43d3; 0x101c526c; 0x147caf47; 0x132f090; 0xf952a9]
     [0x175e4c1; 0xdd77728; 0x18a8ae63; 0xe2cf698; 0x1a0f6555; 0x1b51713f; 0x1afe184d; 0xb611579; 0xd8a93a];
   CurvePoint [0x3aa0e93; 0x8032d14; 0x1ec7d89a; 0x1c72875d; 0x893a8f2; 0x18d0cecf; 0x1b9d4100; 0xbc63a7f; 0x94016d]
     [0x7addac2; 0x7769344; 0x15ec1e8e; 0x86e7754; 0x6fd7f48; 0xe9aa777; 0x165900d5; 0x1dcb88a9; 0x675032];
   CurvePoint [0x266b17b; 0x7a43170; 0x18aeccac; 0xad14404; 0x109c2023; 0x1c42354f; 0xa246ee5; 0xe9ab3f6; 0xef22d1]
     [0x19dac83e; 0x1537021b; 0x10d06dcc; 0xe4edee3; 0xa1073ee; 0x661d71a; 0x11d5a3e7; 0x192f5649; 0xbc5784];
   CurvePoint [0x12d382a0; 0x18980ad4; 0x1b366b88; 0x1b9779c5; 0x1f927f28; 0x63c0596; 0x4b4e72b; 0x19c99d71; 0xb5f7ef]
     [0x5b4b532; 0x117855dd; 0xb3e316e; 0x1612da53; 0x1ddd371f; 0xbe37065; 0x8d4f025; 0xb6a387e; 0x684354];
   CurvePoint [0x12cffa5; 0x13492322; 0x331711f; 0x1a8410cd; 0x624389e; 0xa6c7dea; 0x1d9021d; 0x1a565ce2; 0x1cddc3]
     [0x1521954e; 0xf36c4e6; 0xdad4a2b; 0x193084d6; 0xb08ac41; 0x935fca1; 0x298ff6c; 0x1965e3f; 0x1e476a];
   CurvePoint [0x14a9f22f; 0x1aff21c9; 0x1ea38ab4; 0x10338a42; 0x35b0cc0; 0x5c5ca44; 0x4e7c87e; 0xb3e4b9d; 0x2accb3]
     [0x175c4927; 0x1baee59d; 0xe9542de; 0x17af7d8b; 0xedf1154; 0x1d1bf6f8; 0xb946484; 0x1d2b115a; 0xd518a4]].

Definition secp256k1_cp_31 : list curve_point :=
  [CurvePoint [0x1fb04ed4; 0x1bd631f1; 0xc1fffea; 0x18661622; 0x18de208c; 0xe828933; 0x4d918fe; 0x16713ad7; 0x90ad85]
     [0xb6ef150; 0x8ea6a46; 0xa25366; 0x1df57c2b; 0x22b839a; 0x5eca139; 0x986bff7; 0x6c41470; 0xe507a];
   CurvePoint [0x10b7b678; 0x13aed99d; 0x1d8e0598; 0x18862379; 0x16c76f13; 0x15e52135; 0xc6e8661; 0xe669c84; 0x186e49]
     [0x18d91fc1; 0x1d03b797; 0x54d7729; 0xee44a89; 0x1e67e110; 0x412e05b; 0x1612a9ff; 0x1c9300f7; 0xc0d460];
   CurvePoint [0x13421fb8; 0x18372e5d; 0x16957433; 0x12e3e5de; 0x12412984; 0x159a61db; 0x1d8b9f81; 0x1069edb7; 0x61c8d]
     [0xe3ccd80; 0xaf7b342; 0x1bf374a6; 0xe269674; 0x1eb5c806; 0x92c8702; 0x12deea4e; 0x1b320076; 0x6dfc6a];
   CurvePoint [0xf6b35a4; 0x925f0c5; 0x9fed21c; 0x1e6f4d56; 0x68ad889; 0x1920399d; 0x144edcd8; 0x74411dc; 0xf6a6b6]
     [0x1f422a6; 0x175b7f64; 0x1b8618b2; 0xaeadceb; 0x186f19d; 0x1b827ab0; 0xe2c72b4; 0x150005a2; 0x3df7c8];
   CurvePoint [0x6954c11; 0xb411f45; 0x1834062e; 0x1148782a; 0x178ff7fa; 0xd878a83; 0xdd88834; 0x51850d8; 0x87a2fc]
     [0x72a8b45; 0xb719971; 0x1e0492dd; 0x11267e54; 0x7532cc4; 0xa46d069; 0x13be5ec6; 0x1168b55d; 0x33ad51];
   CurvePoint [0x2706ab6; 0x123a3957; 0x194f036b; 0x16683ba5; 0x4cfe3c0; 0x177e5e1c; 0x69a1155; 0x8dcf10; 0xe1472e]
     [0x1d58de05; 0x174350b4; 0xf349d4d; 0x113aaa8a; 0x21f8aa5; 0x8cbc643; 0x1f1a0fda; 0x1548f8b1; 0x82cd92];
   CurvePoint [0x7a84fb6; 0x1fd72a10; 0x854087a; 0x6d0ea1f; 0xb9ebc42; 0x6b00f24; 0x1bd77a2d; 0x19009f15; 0x1caf92]
     [0x7149109; 0x158c0c81; 0xb399d85; 0x1982d2d4; 0x1622ec1; 0x127c7f88; 0x14e92069; 0xb592edc; 0xbc24b8];
   CurvePoint [0xa955911; 0x1b467f0a; 0x17b54b6d; 0x1c2d44c1; 0x18397107; 0x17f4d9eb; 0x14349627; 0xd35e12c; 0x705bfd]
     [0x1fd200e4; 0x1dbe349f; 0x10b9cb62; 0x1e76a454; 0x51fa297; 0x1ec0faa0; 0x6429f98; 0x2616e7f; 0xe14aa4]].

Definition secp256k1_cp_32 : list curve_point :=
  [CurvePoint [0x1ec4c0da; 0x1bda2264; 0xfa8cd46; 0x18acf0e4; 0x1162ee88; 0xd6cc0f; 0x1cce48e7; 0x1a5ec76b; 0x8f68b9]
     [0x101fff82; 0x11e5fbca; 0x1442ff7c; 0x1459fd2a; 0x215dbbe; 0x8615b5f; 0x61b7876; 0x5b740c7; 0x662a9f];
   CurvePoint [0x123809fa; 0x715c76e; 0x16552f86; 0x8b966a3; 0x11f08fd8; 0x19b1f922; 0x1c8a2ea4; 0x17c5ca13; 0x38381d]
     [0x131fed52; 0xb83a8c1; 0x163c936f; 0x3f99665; 0xb1cc368; 0x2d2a907; 0x1f72c250; 0x141f722; 0xe4a32d];
   CurvePoint [0x17c2a310; 0x15213244; 0x4898c0f; 0xd5d4a80; 0x99a1f18; 0xdc15523; 0xb9bda48; 0x49c86e5; 0x492627]
     [0x1e27ded0; 0x20db40a; 0x17fe3383; 0xc6c254e; 0x303b6d1; 0x1d2b4b8a; 0xfe568b3; 0xe7794f5; 0x1337e7];
   CurvePoint [0xebd2d31; 0x1c2583ce; 0x1b6e344; 0x1834adfe; 0x1e2f84dc; 0x9d9f23b; 0x12435789; 0x11834481; 0xe30656]
     [0x12546e44; 0x95a041c; 0xdce099a; 0x1900857c; 0x10db6ffb; 0x15883fbe; 0x982223c; 0x1c6f1268; 0xeac6f];
   CurvePoint [0x163136b0; 0x9861cf1; 0xd077671; 0x17f1b355; 0x1d63374e; 0x73b11fd; 0x1bf09c6c; 0x1c48519; 0x3b9e10]
     [0xcdbbc8a; 0x9f60b7b; 0x14c7e065; 0x1c514675; 0x15b26a2a; 0x19f5c7a3; 0xdc77c54; 0x2a5a2d7; 0xfafb98];
   CurvePoint [0xf485d3f; 0x10478239; 0x1efbba5; 0x140ed102; 0xdef717c; 0x5407aef; 0x6a4addb; 0x92e2559; 0xbb0aad]
     [0x1ca2f975; 0x1c9c9281; 0x19c2fff9; 0x14b5f462; 0x1da34895; 0x100fb94b; 0x11e63b34; 0xa78b06a; 0xea699c];
   CurvePoint [0x16718dc9; 0x177699d1; 0x448f792; 0xb169b60; 0x113e1e; 0x158cbd7f; 0x130353a3; 0x191c9ddf; 0x79090a]
     [0x1cfae7c5; 0x11991588; 0xa4022e5; 0xd5f6e17; 0xaa56dd3; 0xb65e6cd; 0xe3c4f60; 0x572320b; 0xeaab72];
   CurvePoint [0x1f60c7d1; 0x134b4a63; 0x1dd6b4a8; 0xe3bcf9a; 0x1ba668dd; 0xdde72a4; 0xd54700f; 0x15bd3f2f; 0xe77c81]
     [0x2d72449; 0x162c0f94; 0xa61b4d3; 0x8e1ee38; 0x1543631; 0x1d991f54; 0xc8717f0; 0xf1ddf02; 0x3acf14]].

Definition secp256k1_cp_33 : list curve_point :=
  [CurvePoint [0x13231e11; 0x1437ea82; 0x1a078f99; 0x11d0ca06; 0x36091f4; 0xffc8cc6; 0x17597fe6; 0x2ed5f0; 0xe4f3fb]
     [0xfeb73bc; 0x1161c2bb; 0x14747260; 0xfce9d92; 0xb7286cc; 0x13687501; 0x1c705986; 0x75a1de9; 0x1e6363];
   CurvePoint [0xbf05bd6; 0x1ccf8273; 0xaa65194; 0xadc0642; 0x10deca2f; 0x1a8ff5a3; 0x1fa420cb; 0x837dc89; 0x900c32]
     [0x100d358b; 0x129569df; 0x13bec577; 0x10a6b078; 0x12439d69; 0x19022b85; 0x3d7e571; 0x1d1d163e; 0x6c31f9];
   CurvePoint [0x1f105c50; 0x13e14664; 0x4e1495e; 0x1bddef6; 0x33cd82e; 0x61a01e1; 0x2ab58a3; 0xc5560b2; 0x5a8d03]
     [0x18a4cde9; 0x4d900c1; 0x1404f0d7; 0xbed14cd; 0x1ff74a60; 0x15b920a1; 0x14da4da9; 0x16227a9c; 0xc059ea];
   CurvePoint [0x12d64feb; 0x3f0c5cd; 0x48a4b19; 0x5f14b25; 0x1a4e8377; 0x1d2bbb65; 0x182923bc; 0x62465e; 0xd93f4d]
     [0x14698359; 0x187deac9; 0x124368de; 0x8617dd; 0x8c4d93e; 0x188e2a6e; 0x1cce88dc; 0xba8b964; 0x792555];
   CurvePoint [0x39fbc84; 0x1110266a; 0x15e8059c; 0xc522c0; 0xc65b7e7; 0x115e3315; 0x1106c53; 0x18dc6de5; 0x2f0769]
     [0x1c201bec; 0x1dc816f0; 0x137575cf; 0xf36d498; 0x2149cca; 0x1803cc87; 0x1777e977; 0xe49ae77; 0xb434f3];
   CurvePoint [0x6a758ea; 0x9bf5664; 0x1fc67135; 0x11063124; 0x16e39911; 0x4ad0aa0; 0xc26561a; 0x100ab3c0; 0xfe7e67]
     [0x1b7ab649; 0x7916cae; 0xc483479; 0x2e0e88; 0x1251f3b8; 0x70b4c24; 0x12e62302; 0xcf4503b; 0x38aa69];
   CurvePoint [0xcfffefa; 0x138ab134; 0x1946beb7; 0x10089ee0; 0x1af85101; 0x17c8a861; 0x49f5b7d; 0x194ea706; 0x91baf5]
     [0x1f7f6faf; 0x1e9b79a6; 0x1f4c0f71; 0x1de621cd; 0x13d92f4b; 0x14f893ee; 0x13af9765; 0x23268f7; 0x4e5cf];
   CurvePoint [0xd33c546; 0x1e048bf4; 0x17b6bccb; 0xebf6650; 0x1ddd7825; 0x9b9f07a; 0x29f2cb1; 0x43967ef; 0x445841]
     [0xb4fd4; 0x5368c38; 0xb29cd98; 0x1e1479f6; 0xda20852; 0xf571c8d; 0x14e9dc89; 0xefe7f0e; 0x308d93]].

Definition secp256k1_cp_34 : list curve_point :=
  [CurvePoint [0xeae29e; 0x17db7571; 0x138741c5; 0x69e5e1a; 0x4266c70; 0xa9bd22d; 0xcc7ae58; 0x13631d7e; 0x8c00fa]
     [0x702414b; 0x1e952633; 0x18db1539; 0x15b5f503; 0xc974c2f; 0x1a1d1b9b; 0x686a770; 0xcffd4a4; 0xefa472];
   CurvePoint [0xbfd913d; 0x1fcab01f; 0x15327ab0; 0xd01cddc; 0x8d2050a; 0x1d042615; 0x17e1d341; 0x14fd20fb; 0x36362a]
     [0x52e243d; 0x27cd756; 0xcbeabf1; 0x17621ad; 0x2a82d83; 0x1221b86d; 0x1f54d058; 0xced9715; 0x48f278];
   CurvePoint [0xd132896; 0x55d5fcd; 0xf1b259f; 0x3c7756f; 0x1200dfcb; 0x16cb16ec; 0x180bca56; 0xdbe6543; 0x448797]
     [0xf685248; 0x600d895; 0x1daa9e92; 0x81ab4c4; 0x1a3306b; 0x1483ba2b; 0x1f87bf26; 0xc1a22b5; 0x27bd58];
   CurvePoint [0x1fa2670c; 0x40ab7b5; 0x189cf9b8; 0x1f05740; 0x10324740; 0xe55419a; 0xde22daa; 0x18517970; 0x4a4d3a]
     [0x16c1764d; 0x45cffee; 0xa6fbb60; 0xb2997e; 0x2b9d493; 0x188eef78; 0x93c5f9d; 0x380308b; 0x70abb9];
   CurvePoint [0xcb24aa7; 0xcb57f12; 0xd1714c3; 0x2118c72; 0xfe18903; 0x17ec4ffc; 0xb0eb9; 0x3215d23; 0x5f7b2d]
     [0xa693d7d; 0xbc03a1a; 0x1207431b; 0x1bd6e127; 0x7c47ce8; 0x1c051e73; 0xaccc28f; 0x189fbe; 0x77036];
   CurvePoint [0xf7fb8bd; 0xc8de2f9; 0x19024290; 0x8c942bf; 0x86d87bc; 0x12736ca4; 0x340abb0; 0xa2673b2; 0x513974]
     [0x3908c0f; 0x4a5616c; 0x1e6356a0; 0x1865a7c7; 0x15c47faf; 0x1f7ed740; 0xfcd2e23; 0x7c8ec87; 0xfcd714];
   CurvePoint [0xe36ca73; 0x15ba48af; 0xefcfb78; 0x10c9a6d7; 0x14887eac; 0x8895f80; 0x1ee2a90a; 0x1ac57f7b; 0xcf8316]
     [0xec25534; 0x1a490ca1; 0x35c43d6; 0xc2b31b1; 0xca681c9; 0x284486e; 0x15cf8e11; 0x11bd6bb3; 0x9feb5];
   CurvePoint [0x1752f97d; 0x449beb5; 0xd1d984f; 0x1df78ebe; 0x1a6165a2; 0x9433467; 0x127794e7; 0x13498976; 0x8610de]
     [0x1f1b1af2; 0x2bee6a0; 0x1550f820; 0x169b3ea8; 0x1f99e57a; 0xccd9299; 0xef24df3; 0x14056c61; 0xd31997]].

Definition secp256k1_cp_35 : list curve_point :=
  [CurvePoint [0xcb3e41; 0xbfeefe3; 0x2e4b026; 0x1a109e61; 0x18ed3143; 0x76054f4; 0xa7cf843; 0x1cd3ba90; 0xe7a26c]
     [0xf2cfd51; 0x1454a10e; 0x3a0f883; 0xd658084; 0x1bb18d0a; 0x350d57; 0x12d1c6c; 0x601f4f3; 0x2a758e];
   CurvePoint [0x1aee42db; 0x7cfe95f; 0xc1c529c; 0x1778b68e; 0xbfc1d9b; 0x176dc8f6; 0x543f1ed; 0x1cfb36b2; 0xcc3427]
     [0x15d87bdb; 0x1114e008; 0x1c908b71; 0xb975b1c; 0x1520010e; 0x1fe9fd90; 0x1a862178; 0x834a438; 0xea2498];
   CurvePoint [0x1ed4a086; 0x1a1b3633; 0x71043bf; 0xeb82b1d; 0x15cf4b1d; 0x2c2fde5; 0x1177b20f; 0x1759b308; 0x948f05]
     [0x1e2bca4b; 0x150c007c; 0xfe8b468; 0x6514e38; 0x139411c2; 0x8533008; 0x8ce0bd1; 0x13ff6b45; 0x864ca8];
   CurvePoint [0x17542c21; 0x65f5365; 0x9930570; 0x13e9a51d; 0x16d43ae1; 0x1e22a28e; 0xb24195b; 0xc525233; 0x258419]
     [0x72bfabf; 0x1f5f18cb; 0x10ab5ece; 0x7430dc9; 0x113d5f3e; 0xd52663a; 0x11200797; 0x3e39b64; 0xfcb35b];
   CurvePoint [0xc1ecbf8; 0x1e230fa0; 0x1bb5f290; 0x13e1bd35; 0x421f648; 0x1aa660f4; 0x14948aa5; 0x18826e78; 0x7e12cd]
     [0x10bed615; 0xa2dc66d; 0x18767d67; 0x13ec3b1f; 0x11259c96; 0xa6d5f26; 0xdc50fe; 0x111111b9; 0x71284f];
   CurvePoint [0x14557d86; 0x1f3328e0; 0x199ffd05; 0x1dd88f1c; 0x1a6cf1cf; 0x8e53d02; 0xa99dcae; 0x1fe546e8; 0x4b8ec2]
     [0x15167eb9; 0xecd8c8d; 0x10fda4af; 0xbe5de1f; 0x1ac5f28d; 0x396f293; 0x1eac5290; 0x1fe0982a; 0xfde6c3];
   CurvePoint [0x780763c; 0x15c169da; 0x195a4754; 0x14dabd24; 0xc07e5f8; 0x1b6e34bd; 0x9094c90; 0xe672c7; 0xfcd5c1]
     [0x18e851cb; 0xa73a101; 0x1918e92d; 0x13645ce2; 0xe38cb11; 0x6d9afb9; 0x1118edc8; 0x1c5caa45; 0x18ddab];
   CurvePoint [0x1d8ef686; 0x71df182; 0x9cb99af; 0x1c91e804; 0x6e53f68; 0x12ed7c13; 0xf9488e2; 0x1dcb0879; 0x900f2c]
     [0x121a8cf; 0x19d24b3f; 0x455b541; 0x19bfe879; 0x1d110596; 0xa8d89a4; 0x96b5871; 0xabd8c08; 0x732ac1]].

Definition secp256k1_cp_36 : list curve_point :=
  [CurvePoint [0x1e6b80ef; 0x794f59e; 0x1e5093cf; 0x17972cfa; 0xbdc571c; 0x6111de; 0x1b2348d5; 0x1dc6cc5; 0xb6459e]
     [0x1a71ba45; 0x185f85b0; 0x18d6cbfc; 0x75cda91; 0x1db3c4b; 0xf8b72b3; 0x1b7876b; 0xda0de7c; 0x67c87];
   CurvePoint [0x119888e9; 0x1ce793c9; 0x1122a2d0; 0x574d7e4; 0x81673d1; 0x69814b3; 0x1b8b7798; 0xee75874; 0x1f90ea]
     [0xf113b79; 0x17efe4bf; 0x548b995; 0xea3fdcb; 0x196a8213; 0x9e938f5; 0x43a5605; 0xf82bb54; 0x89be36];
   CurvePoint [0x1562222c; 0x2f7db79; 0x19bcb182; 0x688f323; 0x152bade0; 0x15d699a5; 0x2b5b9c0; 0x9bdbffc; 0x13a4e5]
     [0x8200145; 0x58b3465; 0x12413023; 0x138aef5b; 0x9a52d4f; 0x17c0eb0; 0x4ecb2b; 0x9cb02dd; 0xc9d67d];
   CurvePoint [0x143b46bb; 0x1bf26e07; 0x12494950; 0x1a74c7f5; 0x15dbd12e; 0x1e02ec22; 0xb747501; 0x17e46795; 0x61991e]
     [0xc20a848; 0x47ac80e; 0xbb363bd; 0x10e5394a; 0x1adf11ca; 0x1c38b37d; 0x124a54bc; 0x11e7fbc; 0x1c5e3];
   CurvePoint [0x121add3b; 0x12df1eee; 0x1c9f63df; 0x15289e8a; 0x26118b9; 0xe6d868b; 0xe1d240e; 0x1496f0fa; 0xea27ae]
     [0x168ce7dd; 0x1af148ed; 0x1386f9c6; 0x425ad1c; 0x2f6278b; 0x759192e; 0x1f795c8f; 0x1cdc8542; 0xc70ff1];
   CurvePoint [0x11ff757; 0x1457c5db; 0x13089b9b; 0x19d2e838; 0xb6da9b4; 0x87c5b71; 0x1552ea40; 0x6ad6fff; 0x594651]
     [0x94d031a; 0x5337654; 0xfff8eca; 0x1778f6ff; 0x6f9961; 0x1c680ae2; 0x1d401080; 0x19cbbe4; 0x361136];
   CurvePoint [0x36160b5; 0x1b12c51b; 0x19faf019; 0xa7e48e1; 0x11ec0ccc; 0x17bcb804; 0xa43a10e; 0x722bee6; 0x16b26e]
     [0x18a1dc0e; 0x312fdfa; 0xe8fbe05; 0xc7558e1; 0x54d4e13; 0x1a9231b; 0x1e2ed8d9; 0xb4c605d; 0x60f56];
   CurvePoint [0x17b32db8; 0xb269449; 0x11de47ce; 0x1dae93ec; 0xea85c91; 0xa1e4216; 0x1e4c6fa8; 0x12b88ab3; 0x24b52]
     [0xa64f760; 0xa2a7d55; 0x16e06a56; 0x16d02240; 0x5be862a; 0x1410e62f; 0x271edb8; 0x11eb7fe6; 0x609fef]].

Definition secp256k1_cp_37 : list curve_point :=
  [CurvePoint [0x96943e8; 0x16d07ada; 0x1cf16977; 0x1e3f8cfc; 0x106231d6; 0x1a5508c7; 0x101e4c8; 0x19050177; 0xd68a80]
     [0xb133120; 0xa642133; 0x114a568a; 0x1cf71ef0; 0xe28b5b0; 0xfc8bbd8; 0x1b40312c; 0x1ffe96b0; 0xdb8ba9];
   CurvePoint [0xca1c4f9; 0xda1550c; 0xdf8a08d; 0x1dfc6995; 0x116f44f4; 0x1c1ed30f; 0xa313102; 0x11e457ae; 0x7815f7]
     [0x1778bc15; 0x158f51b5; 0x1df47866; 0x85bcc2a; 0xc35d5cb; 0x1e798a2c; 0x1da9f764; 0x1d19a735; 0xc1c601];
   CurvePoint [0xe8c8530; 0x9370e1f; 0x3d3639b; 0x1bed03df; 0x6c6d512; 0x1e3200b5; 0x5db8dd; 0x19b41d88; 0xc39273]
     [0x198446c7; 0x18787b; 0x1bb5c571; 0x1bf97b45; 0x1199850e; 0x9ca20e1; 0x123a7407; 0x84ae867; 0x8c41be];
   CurvePoint [0x37a26c1; 0xf9205d9; 0x16fda94c; 0x18dcb181; 0x3b25166; 0x1218e0e8; 0x6c09d48; 0x8feb082; 0xda3174]
     [0xcf74d6f; 0x8c1b767; 0xa05497d; 0x106d8baf; 0x1d8b7d36; 0xb3e12c; 0x11a748e1; 0x170febb1; 0x753b97];
   CurvePoint [0x1739dc49; 0x15b14549; 0x1d5580f4; 0x725b4cd; 0x1231a239; 0x162845ff; 0x19b04192; 0x196055e1; 0x6a4be6]
     [0x12edd5cf; 0x13515cef; 0x1292934f; 0x1c569962; 0x8058ab7; 0x1371b07d; 0x1d65f705; 0x15455120; 0xf15d8f];
   CurvePoint [0x6987fac; 0x5f45062; 0xa1bd9e6; 0x121f0c81; 0x18a3c8bc; 0x1301f64; 0x1c4d13a6; 0x13e275cf; 0x1f7c6]
     [0x19174c68; 0x1c8f39c0; 0x1daf098f; 0x1ebbc433; 0xb6f9cb7; 0x1b7194d; 0x8b796c4; 0x7e6dfb4; 0x9d4ecc];
   CurvePoint [0x16daba4d; 0x99d0deb; 0xc658987; 0xbf61c40; 0x2bcb9c6; 0x1176ec7d; 0xe072dc1; 0x2ec3fa; 0x557e94]
     [0x17a52316; 0x9ba50dd; 0x10d64294; 0x1371ebf4; 0xbc86c5e; 0xe7d0ae6; 0x1f811b4d; 0x74c03f4; 0x7a7e8f];
   CurvePoint [0x9f5341a; 0x1c7a97f9; 0x58dae00; 0xf4658cd; 0x101419cc; 0xa0753d8; 0x16a4eca7; 0x10433310; 0x3adada]
     [0x586c6cc; 0x8ac049b; 0x17a3ef2d; 0xda5cb68; 0x11017e9d; 0x1adf9b55; 0x1a7d54b8; 0x4513326; 0xbfea1e]].

Definition secp256k1_cp_38 : list curve_point :=
  [CurvePoint [0x28d3d5d; 0x4acc07e; 0x11273a90; 0x55d72e6; 0x30b0961; 0x138483d; 0x1094b70; 0xfbecb90; 0x324aed]
     [0x16ab7c84; 0x1391257c; 0xcca10e5; 0x27618fc; 0x1f4f192; 0x61ad76; 0x1cbfc4c3; 0xaee96c3; 0x648a36];
   CurvePoint [0xfd53ed3; 0xe48bac1; 0x95b33bd; 0x1ee9f73b; 0x17c49163; 0x105c98ef; 0xab56e3d; 0x1ab32cee; 0x20840b]
     [0x1a7a7132; 0x18a1ff28; 0x19c22661; 0xf88e729; 0xfac2548; 0xa3b535d; 0x90d21ef; 0x12f9d830; 0xf29934];
   CurvePoint [0x8a35b35; 0x1e965dac; 0x28487b6; 0xbb114b8; 0xebfd1ab; 0x814f2c4; 0x6eef44f; 0x1ec1d667; 0xe6b6bf]
     [0x1c1007bd; 0xb949edc; 0x1a6671f1; 0x16d93a77; 0x161ddfe3; 0x1f1c1ac; 0xbcc99bd; 0x17a6601a; 0x1a5ff2];
   CurvePoint [0x360dd3; 0xa77c696; 0x14388243; 0x11506db0; 0xe3bb47a; 0x1c043706; 0x6ca22c2; 0xe8b7c93; 0xe05317]
     [0x1c24f87b; 0x15766c89; 0x40f70ac; 0x130fbd30; 0xa01461b; 0xac15adb; 0x1ce73602; 0xe34bb25; 0xdc1c3b];
   CurvePoint [0x1098dfea; 0xa33316; 0x99e1e5f; 0x1967925d; 0x5e57fad; 0x12e9541d; 0x11678063; 0x74ef10d; 0xa8153b]
     [0xe6d892f; 0x124d4efb; 0x16bd0562; 0xbc1ee85; 0x13e03b1b; 0xdce2bc2; 0x3f14f63; 0xc8c3a0c; 0x2a4739];
   CurvePoint [0xbcecfa5; 0x13f3bd24; 0x5aec082; 0x1ac5b436; 0xda3b2a0; 0x14ae31c7; 0x176b7ad1; 0x1661fd95; 0x4f05c3]
     [0x15d37b53; 0x16681254; 0x6d2334b; 0x1dc863e0; 0x134b9447; 0x191b0aca; 0x9beb758; 0x1d4c07a8; 0x53a499];
   CurvePoint [0x84b96aa; 0x10f3b2c8; 0xaaf3391; 0x130c6aa4; 0x1980ed02; 0x2f0d51d; 0x46f8990; 0x1733ecf5; 0xd9309a]
     [0x2b28a86; 0x136279be; 0x13fa5e3c; 0xd93f75f; 0xcb5fd3b; 0x783313a; 0x155f5f84; 0x55369d8; 0x6ef99b];
   CurvePoint [0x1f8fcf0e; 0x1bdc682c; 0x1129beb3; 0x16dffbcf; 0x3411d65; 0x1a236f55; 0x14d6ea70; 0x14270ac5; 0x7d587c]
     [0x18bc9459; 0xe0d04e; 0x8de0294; 0x72015a6; 0x16ad0c46; 0x5b67e; 0x11849c8d; 0x710609; 0xa7295c]].

Definition secp256k1_cp_39 : list curve_point :=
  [CurvePoint [0x1d054c96; 0x145e9b9f; 0x1472a223; 0x8287751; 0xe5dceec; 0xfedf2ff; 0x187db547; 0x92339bc; 0x4df9c1]
     [0xad10d5d; 0x175d6036; 0x2124064; 0xa0d9b85; 0x185d4b5d; 0x1a611d0e; 0x1ca01425; 0xa2125b0; 0x35ec];
   CurvePoint [0x1def001d; 0x7912ed2; 0x6e89fbd; 0x1377ad31; 0x1b64b21f; 0x1e8e04f1; 0x12bc8382; 0x5b64fc5; 0xa549a3]
     [0x10624783; 0xaed8d3f; 0x125c16b7; 0x83c54c5; 0x19456eb1; 0x1876c52; 0x1b2f7d33; 0xf20db2c; 0x799b7a];
   CurvePoint [0x52ed4cb; 0xd778f2e; 0x27b1681; 0x9bdf678; 0x12e6ec95; 0x5ecc1a9; 0x13448fc2; 0x61b40fd; 0x7e798f]
     [0x14bb9462; 0xb8b303c; 0x7cde849; 0x6ae37ff; 0xf057b17; 0xaa4ef79; 0x120c106a; 0x189449b5; 0xd23dcc];
   CurvePoint [0x13630834; 0xf9d07de; 0x16b019ff; 0x7e250c7; 0x8108846; 0xf4b5d46; 0x1e0eb56e; 0x62a28; 0x224fa2]
     [0x47a2272; 0x9e239be; 0x943dd73; 0x5249d81; 0x109f53d6; 0x187d1c8e; 0x970f12d; 0x65767db; 0xbbe54e];
   CurvePoint [0x183c19d7; 0x13b24e8a; 0xb3d5eed; 0x16bc8b58; 0x8ef2bbb; 0x12e67211; 0x7904a68; 0x198c0147; 0xc2d4a0]
     [0x507928d; 0x17945c16; 0xd1725dc; 0x95062e; 0x1260d268; 0x1dafbfa0; 0xa535060; 0x1f38100c; 0x65ada0];
   CurvePoint [0x1c940c9a; 0x64056a5; 0x1d08cc21; 0x1e79c275; 0x1dc2113c; 0x2f13a26; 0xc643956; 0xfd860be; 0x2ec22a]
     [0x51e7a4d; 0x8ca7ecc; 0x8d6f6b3; 0xa307b3; 0x7feb124; 0x127a814e; 0x5a130b8; 0xd1bc66f; 0x8b1da4];
   CurvePoint [0x1d683eeb; 0x138772fe; 0x34c4cea; 0xdd67141; 0xb8f33e3; 0x1b292842; 0x13b2ac6b; 0xe71f351; 0xafc669]
     [0x10cd4509; 0xf14e559; 0x1b77f724; 0x1756aa4b; 0x19c16570; 0xe3fe511; 0x1d4af0d6; 0x12edba44; 0x2c21];
   CurvePoint [0x176f4293; 0x1100fc3d; 0xf144e7a; 0x12f16aca; 0x1282e10e; 0x4679b85; 0xc24486f; 0xb53e686; 0xd2557b]
     [0x1282740a; 0xd8c3d12; 0x101697c7; 0x16d071bc; 0xd21fe34; 0x178375a5; 0x1fc049a0; 0x86abc84; 0xa787b3]].

Definition secp256k1_cp_40 : list curve_point :=
  [CurvePoint [0xc1f98cd; 0x1fe4ce45; 0x1fc0c232; 0x9120a9a; 0x6021523; 0x54e0e63; 0x1c3ebb6; 0x150948e9; 0x9c3919]
     [0x14fc599d; 0x13f2f01e; 0x193239af; 0x64deed8; 0xe641905; 0x225f930; 0x155d613c; 0x1e949bb; 0xddb84f];
   CurvePoint [0xfb64db3; 0x1dcc6a9c; 0x1754e105; 0x1bc99473; 0x1b8d6a7e; 0x1c1fdf29; 0x12dd02ee; 0x124537b9; 0xc11423]
     [0x1c0259be; 0x118674ff; 0x1159f478; 0xb01209a; 0x18bd1a87; 0x6f27f4b; 0x1f0a973b; 0x1b8b690d; 0x1237f6];
   CurvePoint [0x3081e46; 0x16f6c1a0; 0x11567a87; 0x44318aa; 0x34713a5; 0xe160c93; 0x89020b6; 0x1f0634ee; 0x6c5b4b]
     [0xbfbcd70; 0x8fce5c0; 0x108a98bb; 0x19f04d5; 0x1e47841d; 0x1c31e715; 0x10bec8d1; 0xe2924da; 0xcb0513];
   CurvePoint [0x64dcd4b; 0x572d762; 0x4704937; 0x18fab32; 0x10a450c3; 0x332e558; 0x1792d59c; 0xacce195; 0xe1e9a8]
     [0x1b041f2c; 0x85b12f5; 0x85aca4b; 0x9a33559; 0x177927f4; 0x1accd92; 0x14c6deb1; 0x12a88ab8; 0x562b0a];
   CurvePoint [0xbadd73c; 0x2c3b7f1; 0x992df40; 0x139bb205; 0x14208fd; 0x1a72176e; 0x265de29; 0xaf5a236; 0x51b21a]
     [0xb36d8d1; 0x1bea570f; 0x11cd2e9b; 0x261e51; 0x1cfa6c2; 0x3f80e96; 0xf975528; 0x20003fa; 0x7930];
   CurvePoint [0x1b09f34b; 0xbae85b9; 0x1319b39b; 0x10e7cc11; 0x19d61e58; 0x114b79f9; 0x1e6186ad; 0x14c76396; 0x9701f3]
     [0xdf5793; 0x6e42866; 0x1731e52b; 0x97872ff; 0x8337710; 0x18da98ab; 0x1b4575c0; 0x177195e1; 0x3dd44b];
   CurvePoint [0x1f1e2f46; 0xe73111d; 0x9de0c05; 0x1ee3d0e; 0x3c57527; 0x970206b; 0x1b311156; 0x3a593cc; 0xa036b4]
     [0x1effb349; 0x198f134a; 0x1c2c7d3d; 0x1c5059f; 0xb08d068; 0x1b5523cf; 0xcf5f7c7; 0x14007d2d; 0xc3bf91];
   CurvePoint [0xc4cea08; 0x6c5c81c; 0x3a8876f; 0x16b1741c; 0x4652654; 0x108a9a00; 0x1141bd29; 0x1b7549d1; 0x6a85fa]
     [0x1862f4f3; 0xcef672c; 0x15c86da8; 0xe349687; 0x6230b42; 0x19e0a47f; 0x16754c64; 0x975c8c; 0xb646]].

Definition secp256k1_cp_41 : list curve_point :=
  [CurvePoint [0xa959e5; 0x1109c109; 0x4753316; 0x2927517; 0x6bb91e; 0xf940ec7; 0x1f7e3781; 0x163ba25; 0x605717]
     [0x385a2a8; 0x4cdf499; 0x1893197a; 0x2a5787d; 0x1f262465; 0x116d7b8e; 0x1eb766; 0x164d4d49; 0x9a1af0];
   CurvePoint [0x171c032b; 0xa6d0b14; 0xbf72603; 0x16cd142f; 0x166c5ff6; 0xdafefe3; 0x980f744; 0x1f9adc00; 0x71eba8]
     [0x1668359f; 0x1d5ad470; 0x12d1d579; 0x635a2ee; 0xbb7f719; 0x28b7aa6; 0xe77bd98; 0xc496c3a; 0xd2ff12];
   CurvePoint [0xa03a61c; 0x3723a29; 0x1c15d34; 0x10d1e8d2; 0x9dd0507; 0x1a215d55; 0x148cb285; 0xb66493; 0x855ec3]
     [0x65dfc07; 0xfe37556; 0x1f912597; 0x5ee9d42; 0xfb4ed33; 0x5ffcda1; 0x105fd50f; 0x5d8be03; 0xdd85d];
   CurvePoint [0x1f32d706; 0x605240; 0x1a819e2c; 0x119948e8; 0x1bfa2061; 0x94d184a; 0xfc7c543; 0xd57567f; 0x3ce448]
     [0x1c7fd9e4; 0x5b9b1bf; 0x187a27d0; 0x2ac879a; 0x14906edd; 0x8235884; 0x14a23bf; 0x11b55c6f; 0xe77540];
   CurvePoint [0x191cd3fb; 0xda065db; 0xa6f9a1b; 0x1467fb2e; 0x44eb4a2; 0x190c7c4; 0x1febc0b8; 0x287e9c6; 0x11ccc5]
     [0x15160d86; 0x9b8b5d2; 0x174d1caa; 0x163dfa59; 0xc239fa0; 0x112249c6; 0x77ad4a3; 0x5520562; 0x4aa56b];
   CurvePoint [0x18f7552; 0x3dc88cb; 0x153eb0e; 0x2271730; 0x182ddbd4; 0x1bba7c11; 0x11bd0ee5; 0x2fca293; 0x250bb]
     [0x1510b14d; 0x18424b11; 0xf5bc78f; 0xde7866; 0x1d817da0; 0x1efbaff4; 0x208d0b5; 0x1f9377d0; 0x731930];
   CurvePoint [0x1f725d12; 0xe89f49c; 0xd7d1d41; 0xc8577b9; 0x2fbfd94; 0x1ce70501; 0x1f4ead28; 0x111668cf; 0x1a749c]
     [0x3ac56e4; 0x9b28a69; 0x436a9c0; 0x410d313; 0x13d8f607; 0x1f3ae157; 0x18b3d162; 0x12ae7d81; 0x7e91d1];
   CurvePoint [0x9fae458; 0x10824729; 0x1bb25ff5; 0x14b884ec; 0x17b328b0; 0xab52efd; 0x6304274; 0xb7c1f04; 0xc75068]
     [0x1757b598; 0xb420ca; 0x165468ac; 0x1b94a066; 0xc7b40a5; 0x1a0a6339; 0x1817ed4b; 0x1f19f243; 0xead795]].

Definition secp256k1_cp_42 : list curve_point :=
  [CurvePoint [0xcb94266; 0xd34b9f7; 0x1537c4ac; 0x1de1f74f; 0x1a31880c; 0x1cd228c6; 0x10450850; 0x11c47410; 0xa576df]
     [0x1b28ec8; 0x145f08d7; 0x5367cfb; 0x1c214fea; 0xd82c432; 0xbd7f2c6; 0x2cb24ae; 0x41cecc8; 0x40a6bf];
   CurvePoint [0xd9ed6c1; 0x14575ac6; 0x1564f5ad; 0x1ce8b787; 0xdd0ec24; 0xc3b82f; 0x14fa02ff; 0xdb96e9e; 0x32833]
     [0x18fafeee; 0x16375f37; 0x12d252b7; 0x17e9be4b; 0x17c8c265; 0xca1d106; 0x1ca311b5; 0x7025fb3; 0x71a898];
   CurvePoint [0x1235983a; 0xcd4d469; 0xef3aca4; 0x14206e02; 0x1531e38; 0x936b87f; 0x1153718e; 0x15d17223; 0xce4f4e]
     [0xd3cdecf; 0x7eb58c8; 0xfdd02bb; 0x18ca451d; 0x7543526; 0x10124f38; 0xeecfab7; 0xe78721f; 0xf3c9f9];
   CurvePoint [0x15b0e6c9; 0x16d55b32; 0x1b932269; 0x1ff39ef0; 0xbcbddb5; 0x7d9b6fc; 0x889e38a; 0x14a9730c; 0x4dbebf]
     [0x1eb2cc25; 0xa53c2aa; 0x1413beba; 0x6236578; 0x29f3589; 0x11373711; 0xbb7d169; 0x16079227; 0x10fee7];
   CurvePoint [0x5857295; 0x700d08d; 0x10cfc059; 0x11c8fe06; 0xa12069c; 0x8c7e50e; 0x10862cb8; 0x17fde8b; 0xa42a24]
     [0xa7eb9c1; 0x159bbff6; 0x1464e555; 0x38459a2; 0x1a4c427a; 0x1915926e; 0x15159e9a; 0x1e4c200b; 0x3aa0b3];
   CurvePoint [0xfcdc098; 0x1107faab; 0x191a00c8; 0x15c01ed5; 0x99c1550; 0xfc36062; 0x899e9fc; 0x5f2df64; 0x34e12b]
     [0xa7474e2; 0x658d6f3; 0x620fd99; 0x1ea261e3; 0x172db04d; 0x5e420bc; 0xc8b65d3; 0x1bbaf6ba; 0xa64ac2];
   CurvePoint [0xf173b92; 0x6b75af4; 0x7edd847; 0x1ce5e82d; 0x165683b7; 0xd10c7a6; 0x7ca6f8c; 0x81b3772; 0x10f4d2]
     [0x33146c2; 0x810036b; 0x1ab6df2; 0x16ed3a29; 0x108ba90b; 0x12d2d19c; 0xeb4846c; 0x12a122ea; 0x850e2d];
   CurvePoint [0x8d84958; 0x137e8ecd; 0xb3172bb; 0x3bd62d9; 0xcc866a1; 0xdcbb6a0; 0x1f9d27c6; 0x16d36ce; 0xe846e8]
     [0x1882cf9f; 0x62323db; 0x18306990; 0x3466ce3; 0xb76fad5; 0xc8823cc; 0x1895076f; 0x1f91298f; 0xa29cb8]].

Definition secp256k1_cp_43 : list curve_point :=
  [CurvePoint [0x1e58ad71; 0x1bb1c44d; 0x68e8823; 0x1a3eb9f; 0x8c38bb3; 0x1f4b14ef; 0xf8c2817; 0x11851bd8; 0x7778a7]
     [0x1d9f43ac; 0x1a89fe0f; 0x92b158e; 0x70823fe; 0x1580087b; 0x709797f; 0x8bfdc26; 0x1356b4b6; 0x34626d];
   CurvePoint [0x1319c869; 0x1be37571; 0x7ac9c0b; 0x13f2baec; 0xacdc18a; 0x1c8117e6; 0x1f234060; 0xbb302e7; 0x301804]
     [0x12b856f0; 0x63b64e; 0xf669eff; 0x15099494; 0x2e3bca2; 0x121906b1; 0x1edbe198; 0xf04a076; 0xac5fc5];
   CurvePoint [0x5ed29b5; 0x334c37d; 0xab746d3; 0x616c0e2; 0x1c885f58; 0x13edcd31; 0x1bcd0ead; 0x16c3dcaf; 0x322881]
     [0x1cd15ad2; 0x1a789373; 0x1b9d813b; 0x75d5729; 0x131e1ca8; 0x18cefa0a; 0x113ac442; 0x1082f406; 0x167702];
   CurvePoint [0x6c96100; 0x1fd4203c; 0x1a72398e; 0x602354d; 0x1dbcca16; 0xecd96f9; 0xe7fed0f; 0x7581f63; 0x3f3847]
     [0x12624707; 0xf1560df; 0x1d7c6f3c; 0xe38f816; 0x19ce5665; 0x2231783; 0xe5494d3; 0xabeba80; 0x70c69c];
   CurvePoint [0x1d22d2ac; 0x1a637637; 0x12ab3808; 0x1bfc24db; 0x1df2f10d; 0x704bc2; 0x1db72d0f; 0x18bfa4f4; 0x288113]
     [0xf42a268; 0xf5aafc; 0x12323f42; 0x7a8942a; 0x16137ddc; 0x1b93064b; 0x1723c81d; 0x2b1f78; 0xa1a7eb];
   CurvePoint [0x45f8ea8; 0x5d406e9; 0x134a4035; 0x491c72c; 0x19fe5d17; 0x6caeb88; 0x8a954fd; 0x1908c7; 0xf963a2]
     [0x19bc99eb; 0x1e2afd82; 0x2d82092; 0x11e46b3b; 0x27208bb; 0x11180ffa; 0xf028edc; 0x4d18ff0; 0x9c8594];
   CurvePoint [0x606a315; 0x10d44189; 0x1a58eb67; 0x4c0e5e4; 0x97e407; 0x5952c87; 0x69fe636; 0x99fee1b; 0xa5d922]
     [0x1e3b68d1; 0x1ab099ac; 0x469f274; 0x1a1a68fa; 0xde9ed4; 0x355ebcc; 0x96cd0cc; 0x7641b; 0x87328b];
   CurvePoint [0x6231493; 0x6dbdaa0; 0x131351a7; 0x2350619; 0x1e6a4964; 0x120e8072; 0xd813ad3; 0x5c36e78; 0xf1fe98]
     [0x158848c1; 0xb54cd33; 0x17fc3406; 0x7f668dc; 0x199d3f17; 0x1e102fbe; 0x177085b4; 0x1d5db349; 0x2e2019]].

Definition secp256k1_cp_44 : list curve_point :=
  [CurvePoint [0x6d903ac; 0x4f6d4e0; 0xb5f972c; 0x12c4e9cb; 0xfd2ed5f; 0xfe9873d; 0x1118dca; 0xbdcc6f5; 0x92895]
     [0x1bcd091f; 0x8c0749a; 0xa360ff1; 0x1a4ddf51; 0x95eeac3; 0x509849d; 0xaa09ede; 0x7a7e8; 0xc25621];
   CurvePoint [0x1874b839; 0x88943ab; 0xf4ad060; 0x22b672a; 0xb6aebe4; 0x186fd918; 0x16a014f7; 0x3f81c3c; 0x3e03b8]
     [0x1c0594ba; 0x60e72b3; 0xad6e368; 0xb8be1fb; 0x18f667de; 0x1303ab8c; 0x1d0b113d; 0xc7bfe0f; 0xd13ae1];
   CurvePoint [0x357a513; 0x11fbc734; 0xcc08fce; 0x37a268b; 0x122c5f15; 0x1141d514; 0x4b358be; 0x16f45e89; 0xe662c0]
     [0x17d07e; 0x95100e5; 0x14e36246; 0x6b9ac4a; 0x1a419d80; 0x11045090; 0x148c176b; 0x79cc248; 0xab0b19];
   CurvePoint [0x1f37d242; 0xcafbf7e; 0x7052c12; 0x1fd94c0f; 0x1587dc29; 0x1163e5f1; 0x1b2e10e1; 0x1639299e; 0x40bf80]
     [0x6405088; 0x8ec13cd; 0xf4d560f; 0x43d7485; 0xfe12743; 0x1f4d8d93; 0xbc13d4f; 0x6bb0ad5; 0xb579dd];
   CurvePoint [0x195a3558; 0x17959b22; 0xd29fcae; 0xe3f0bc4; 0x159f6ac0; 0xbc09c6d; 0x9c201be; 0x12ec03b9; 0x3d14fe]
     [0x443df4c; 0x156d9d63; 0x1075c9f1; 0x145c28f; 0x16e1482e; 0x1498edfa; 0x7be3ca6; 0x1add08d0; 0x16c6bd];
   CurvePoint [0x2b1fc24; 0xf4fad6c; 0xfdd5c3b; 0x11b038fc; 0x4865252; 0x16269649; 0x14947306; 0x81d05cc; 0xdd6fa5]
     [0xe9b74ca; 0x1218e230; 0x1cc88c12; 0x1bcd7da; 0x17e77ec1; 0x18f5f8b2; 0x1bf8d9b; 0xfd63a63; 0x67e62b];
   CurvePoint [0x1dd08e02; 0xf548ac9; 0xb7c0a20; 0xa8f6ffb; 0x11e80108; 0xa4cd51e; 0x15e03e1a; 0x1505bcab; 0x13fa2d]
     [0x1cb03410; 0x12aa0ee1; 0x90ae5f6; 0x95f7633; 0x32c7e64; 0xb1035da; 0x9c8c4cd; 0x1608aabb; 0x136338];
   CurvePoint [0x144ee41a; 0x119d5cc; 0x1f5a69ab; 0x16adba76; 0x8282879; 0x85b3963; 0x910fdf0; 0xa3a78e1; 0xd06c48]
     [0xb295e6f; 0x18fc274c; 0x18bb894b; 0x170868c2; 0x30919b7; 0x166a7a7b; 0x2b6eec2; 0x980b09a; 0x5815fd]].

Definition secp256k1_cp_45 : list curve_point :=
  [CurvePoint [0x3d82751; 0x1d573a8b; 0xb4d5149; 0xb69520f; 0x1b285564; 0x1279d071; 0x424e641; 0x1e7d8db6; 0x85d0fe]
     [0xeb1f962; 0x1611bd12; 0x1dccc560; 0xea3d2d0; 0xf5663e8; 0x4b72c16; 0x102f8a75; 0x10827471; 0x1f0364];
   CurvePoint [0xcde4cf3; 0xcaa830f; 0x2819aae; 0x1ca6a8f; 0x19ae7934; 0x169368ae; 0xb0ef9f0; 0x9582284; 0x384dab]
     [0x52d0566; 0x1e3cb591; 0x146e9ced; 0x614672e; 0xc6f01f4; 0x16b6d15a; 0x90efed3; 0x179a3739; 0xd6e3c5];
   CurvePoint [0x1e5238c2; 0x579f490; 0x3b2e2e6; 0xabeb870; 0xed48403; 0x1085a741; 0x16a906c5; 0x1d6fa82; 0x14f0ec]
     [0x12f07922; 0x14351a3c; 0x124e75b; 0x1801b006; 0x747fd25; 0x39f1c21; 0x1602487f; 0x7ba906b; 0xab12d5];
   CurvePoint [0x1543e94d; 0x1b1a977e; 0x1e638623; 0x6054ead; 0xddadd1; 0x1a33c52d; 0x1fb1070; 0x176f0585; 0xeb42f3]
     [0x5924d89; 0x2acef22; 0x35b5090; 0x108d1bcc; 0x1fb774cd; 0xeab97e6; 0x4b72683; 0xe9e4bb; 0x234a6d];
   CurvePoint [0x1e19aaed; 0x19272dab; 0x199cc9c0; 0x1759bd18; 0xa920459; 0x17b703; 0x366a7bb; 0x194a2d04; 0x1cf138]
     [0x92f400e; 0x9b752eb; 0x11dffef0; 0x1ddf1fdf; 0x1de17479; 0x195335b6; 0xe197d0d; 0x1e62e38c; 0xd6ffda];
   CurvePoint [0x16a8aa39; 0x1b6074fd; 0x1e3eb157; 0xcc6f694; 0x190d937a; 0x104b424c; 0x104b21d6; 0x17cbe81a; 0xb58686]
     [0xb493c1f; 0x1e3c9ae9; 0x16cd1ee3; 0x1b5f31cd; 0xa91dabb; 0x1c6a2a60; 0x10b05251; 0x86498f1; 0x5632d5];
   CurvePoint [0x103b4cc5; 0x148f5f1d; 0x71df0bb; 0x106374b4; 0x1a802572; 0x1e27f3f9; 0x10ad9ed6; 0x160d7179; 0x5fc19d]
     [0x5b57c28; 0x1d9cfdc3; 0x21fb128; 0xdea0798; 0x5ef4927; 0x9c7cd1d; 0x1f19bb88; 0x181d9318; 0xec8e84];
   CurvePoint [0xcb38cb5; 0x1a5c2bea; 0xe22522e; 0x16ffbe9a; 0xea1be10; 0x5207e9f; 0xa277aea; 0x1a85dbc; 0xb88fb7]
     [0x1965f3d7; 0x1dfd3ab2; 0xbe31c65; 0x1e7c244f; 0x1a8e24d4; 0x1dcca59a; 0xa0180d2; 0x15a8dd46; 0xd6c736]].

Definition secp256k1_cp_46 : list curve_point :=
  [CurvePoint [0x526087e; 0x1aa02412; 0x16880c23; 0x16db1105; 0xb85dfdf; 0x1b020bcc; 0x1a5f0726; 0x19d2fdd9; 0xff2b0d]
     [0x10c29907; 0x4a8f00f; 0x38b3acb; 0xfdadf72; 0x7936c7b; 0x26e2a68; 0x8622bd3; 0x1fdea497; 0x493d13];
   CurvePoint [0x19d681f9; 0xc82a7f3; 0x3fae7f1; 0x1c1ddf59; 0x94b066c; 0x1f92f016; 0xc2222df; 0x1e4eebe4; 0xc745fd]
     [0x1bbb1247; 0x18b9a1b; 0x1f5171d8; 0x17a66b8c; 0x18678cd; 0x1ca63874; 0x179e29c4; 0x1e5ed73c; 0x590222];
   CurvePoint [0x15cd0ea3; 0x10267769; 0x12b12057; 0x8f1d041; 0xe7f2b34; 0xf2f5b39; 0x142c9e96; 0x1e752ea0; 0xabb279]
     [0x1c307bce; 0x1849899b; 0xbced91; 0xed20b3c; 0x18ed47c9; 0x1f060183; 0x1c367ed2; 0x777e2f2; 0x5dee10];
   CurvePoint [0x1bc9ee3e; 0x17179f8; 0x19ce0b17; 0x1f4352c7; 0x1ed11ea9; 0x1553a133; 0xa09feb; 0x16b3f8d; 0x3f8115]
     [0x199aae06; 0x756d862; 0x16a0580f; 0x765b9f9; 0x15662762; 0x1f59e23c; 0xb519c6; 0xd1fb7f5; 0x19c88a];
   CurvePoint [0x18e4a007; 0xb8df7d7; 0xecd62d8; 0x19dd9e11; 0xc7ec15e; 0x1d19d52b; 0x179a5652; 0x5ba0105; 0x5cf813]
     [0x1068b883; 0x131f8484; 0x71ffa33; 0x8df2d8f; 0x3df6c89; 0xac4246; 0x837d2b5; 0xb81ac3f; 0xb45aee];
   CurvePoint [0x6c2d4a7; 0xab7f3d9; 0x13ffec42; 0x6df2677; 0x4ed21bc; 0x19cb9e20; 0x125194f8; 0x9a1a974; 0xb6d5fe]
     [0x1ae86371; 0xc6e73f1; 0x178f3204; 0x16fc9cde; 0x1fd8e745; 0x1c904eff; 0x1b0537f3; 0x1427577a; 0x47f373];
   CurvePoint [0x1c66dd33; 0x499b117; 0x171db714; 0x1f791fe3; 0x1b022ea8; 0xd8a8014; 0x21c1aec; 0x180cd9eb; 0x61c8bb]
     [0x16f10bfa; 0x1ddd4f9d; 0x832328; 0x20dd585; 0x1d3fb6a5; 0xcca5cc2; 0x1c0d119a; 0x473ca9e; 0x93599e];
   CurvePoint [0x1d6b2ff8; 0x2dbe66; 0x1b23ea6; 0x66d82e5; 0x1bdf1876; 0x1a9b9f61; 0x1461f27; 0x14ae84cf; 0x94e32b]
     [0xce1af3e; 0xea42aa9; 0x1aff84eb; 0x15e084a4; 0x19e8cb33; 0x12443316; 0x13864bc7; 0x11687b40; 0xd1b44]].

Definition secp256k1_cp_47 : list curve_point :=
  [CurvePoint [0x1856e241; 0x72f167; 0x15b74a1e; 0x3dc2919; 0x1212b57f; 0x1973180d; 0x3aa7b4a; 0x1c963d10; 0x827fbb]
     [0xec293ec; 0x102db45d; 0x40c59b5; 0xf4c630d; 0x112687ff; 0x19633e8e; 0xc2dc6fb; 0x12478e4f; 0xc60f9c];
   CurvePoint [0x1bb80fa7; 0x1a242e59; 0x104e218; 0xfb4d76e; 0x819f3aa; 0x1035e990; 0xbef0346; 0x3ec6118; 0x857e3]
     [0x9366b2d; 0xcc108f8; 0x15c05aaf; 0x1c6e0879; 0x17147172; 0x64e8ee5; 0x1c824b5f; 0x8475c02; 0xf64393];
   CurvePoint [0x9c70e63; 0xe8161d0; 0x14f525bd; 0x1716f1ce; 0x672e9cb; 0x32abb25; 0x10d517; 0x1d4ad7ac; 0x28aacc]
     [0x1057da4e; 0xf81c417; 0x13687a2e; 0x18b39c88; 0xebb7f5f; 0xb33e3b4; 0x18559ea2; 0x5df0341; 0x2b6932];
   CurvePoint [0x13e674b5; 0xee297b; 0x182ab18; 0x11ed39ce; 0x18a4f92d; 0x1964de75; 0x19851776; 0x4b40ab4; 0xa2f3b6]
     [0xe937941; 0x49c6470; 0xcfe94ec; 0x5f462f8; 0x7c4b922; 0x5487995; 0x2ba0011; 0xb2c298d; 0x620ea1];
   CurvePoint [0x191eb056; 0x1b00b18e; 0x13f4e1b1; 0x5dfb71d; 0x115f5a00; 0x1ae351fa; 0x48c7662; 0x193d55cb; 0x3c4f83]
     [0x5cecab; 0x12c49ed; 0x13dae1dd; 0x56a8903; 0x7880198; 0x12b9e1d9; 0xda8ceb5; 0xea2951; 0x944790];
   CurvePoint [0x1d86dfa9; 0x830fedd; 0xe64e9c6; 0x11694813; 0x3baadc3; 0xf01f408; 0x1f538a70; 0x511532c; 0xaff8e1]
     [0x1d12681; 0x1881e1b6; 0x67e71c1; 0x2db5288; 0x153f4f91; 0x15d50fe7; 0x10ff4f4f; 0x166426ef; 0x8d8b4b];
   CurvePoint [0x189ba9c1; 0x7939b5c; 0x74ce38a; 0x1ef94b41; 0xe579e40; 0x1315767; 0x2cfa116; 0x8a51b80; 0xd3fb78]
     [0xb51b267; 0x10dc46ff; 0x46b7801; 0x19dbab80; 0x10fe6341; 0x102bac5b; 0x139f29f2; 0x69df4d6; 0xf894d4];
   CurvePoint [0xf2bb909; 0xd4b60e8; 0x16636667; 0x204f8a6; 0x7d7f639; 0x14c41c8c; 0xa23fd1c; 0x1c15935; 0x4ec930]
     [0x4cf4071; 0x451c1fd; 0xb0e09ee; 0x1c2d041b; 0x49bad52; 0xe228c26; 0x13717203; 0xd7c360; 0x782ba1]].

Definition secp256k1_cp_48 : list curve_point :=
  [CurvePoint [0x120e2b3; 0x19dac7d1; 0x11fe6a9f; 0x11fb9cfe; 0xe5217a5; 0x571a673; 0x16eb9ef9; 0x1e43ea37; 0xeaa649]
     [0x1a5ad93d; 0x3d2982d; 0xfdf9675; 0xd72cbe2; 0x1aa5a01a; 0x7c4c3c; 0xeb1a6a; 0x1dab7776; 0xbe3279];
   CurvePoint [0x1f2e070d; 0xc1fe9d1; 0xa9aa63d; 0x156e398a; 0x47e229a; 0x18e1dc28; 0xaffd21c; 0x1d2085e9; 0x4b72a5]
     [0x96dd780; 0x25d4177; 0x5230f79; 0x8cbbba5; 0x13c10b0b; 0x1dd9b687; 0x73d809d; 0x9c3ad5c; 0x599e1d];
   CurvePoint [0xa02591c; 0xe73fec2; 0x1449687a; 0xa932cb0; 0x1fd613ef; 0x1fdf5af0; 0x38a169a; 0x1f8ca739; 0xa9fc93]
     [0x9bec2dc; 0x856ef7b; 0x13dc94de; 0x111882bf; 0x165e5ca8; 0xbd0d48; 0x1c5cfa13; 0x73b8a70; 0x9c2ce7];
   CurvePoint [0xd968b59; 0x8037071; 0x12ef0b84; 0x5175c27; 0x1027709a; 0x1d60904d; 0x1c29a9f5; 0xf834df3; 0xc94001]
     [0xde572fb; 0x17ebb204; 0x432723f; 0x8596c87; 0x1742ce28; 0x10dfd2da; 0x18804ee2; 0xa019370; 0x39d922];
   CurvePoint [0x126b3332; 0x143999ab; 0x1b9779a8; 0x711a0e7; 0x1f8e0310; 0x9d2fb85; 0x93b19e; 0x13afdda0; 0x1f84bb]
     [0x14e8d52e; 0xa214518; 0x1b70e895; 0x199c5a86; 0x1edf0c2b; 0x13fbadc; 0x1b30951f; 0xe57953; 0xee726d];
   CurvePoint [0xdefa98e; 0x6d52a56; 0xb09e657; 0x1088d023; 0x1e9c7724; 0xabd9cc8; 0x1341b2a0; 0x112128bf; 0xf13e0]
     [0x1e286767; 0x453bb4d; 0x13ab3370; 0x1ce0bc2d; 0x162db287; 0x1c5853d9; 0x1140d78f; 0x1e2ec9cf; 0xadd521];
   CurvePoint [0x9f59b6b; 0xf0e01df; 0x2238be9; 0x718c783; 0x26d3e9b; 0x50e96ac; 0x11f6cdca; 0x14aa3bbd; 0xdde191]
     [0x6cb1410; 0x156cb149; 0x553fb3d; 0xe7177ce; 0xe14e8b5; 0xbeb0e29; 0x172f829d; 0xf00504e; 0x5b2bfb];
   CurvePoint [0x9c6b699; 0x1462afee; 0x191a1c6d; 0x1eae6ad7; 0x1682a86; 0xbdfcbda; 0x1de9685b; 0x5ddb06d; 0x5fab01]
     [0x1c6c3aa; 0xb990a96; 0x20d466c; 0x1622ffd5; 0x2f7b90a; 0x1a08986b; 0x513a7ae; 0xe14787a; 0x2d9bfa]].

Definition secp256k1_cp_49 : list curve_point :=
  [CurvePoint [0x1a34d24f; 0x111b196e; 0x84dd007; 0xdb1e193; 0x2ee541b; 0xfb6f67a; 0x1a764e47; 0x878b9e2; 0xe4a42d]
     [0x1eba9414; 0x13fb898e; 0x16393c4e; 0xdddbf51; 0xd34ce88; 0xce67dc5; 0x1cd49bf2; 0x1ce2da38; 0x4d9f92];
   CurvePoint [0x1bea0c68; 0x4208579; 0x1ece4ad7; 0x60246ce; 0x16faf094; 0x1e47469c; 0xe892526; 0x69c2ad4; 0x3e4196]
     [0x1a45edb6; 0x5db7fb8; 0xf3686af; 0x2328c60; 0x93062fa; 0x5ff1b83; 0x7dfcdcf; 0x13b24964; 0x123c5];
   CurvePoint [0x139824d7; 0x1bae91e4; 0x72625eb; 0xf6c986a; 0x10b576eb; 0x11f317bf; 0x1423bb52; 0x1ea8abae; 0x8d9438]
     [0x1366489f; 0x10027a44; 0x1ac18f62; 0x13c57064; 0xef6f8fb; 0x5e98d5b; 0x10a8b298; 0xe69fdcd; 0x3261e0];
   CurvePoint [0x18d713de; 0x124038d4; 0xa398823; 0x185f6e8; 0x14543936; 0x89517f2; 0x1108352a; 0x18ab1dca; 0xb72524]
     [0x1b8350e9; 0x17ff292c; 0x1297f2dd; 0x5a4dfc8; 0x9415048; 0x8c174eb; 0x1914410b; 0x13514507; 0x4c51b3];
   CurvePoint [0x1e3b2cb4; 0x636149f; 0x1c84100b; 0x13e6b7e6; 0x1149e304; 0x1b71c090; 0x9466b71; 0xb442da2; 0x3de45f]
     [0x107eb02f; 0x10f19d61; 0x1c1133d; 0x1c51ccb5; 0x9106823; 0x55254be; 0x17714382; 0x13080bd5; 0xba2a85];
   CurvePoint [0xce4e5bf; 0x11a3b37b; 0x4016c5c; 0xf950d41; 0x106ae9b6; 0x1e71ba44; 0x1a1f078f; 0x18d12b37; 0x8511f1]
     [0x1789c08; 0x1e494a26; 0x14d9498b; 0x10f11378; 0x232da; 0xfbf6355; 0x121d3077; 0x19f2379a; 0xecdff5];
   CurvePoint [0x1d3258ab; 0xdab3451; 0xf05370c; 0x4850315; 0xab5957d; 0xe39770a; 0x88b3e8; 0x5d039ec; 0x8c5a05]
     [0x22d0f8f; 0xbf04298; 0x16512b79; 0x15d1f381; 0x8c246d; 0x63c826; 0x16841e6a; 0x9768877; 0x6811db];
   CurvePoint [0x1f91bcee; 0xc615055; 0x3036105; 0x1e3b1e3c; 0x1f137f5c; 0x1e762ab5; 0x1582f718; 0x2dbd7a6; 0xcef7f8]
     [0x1966b33; 0x1da6d4fc; 0x1cbdab1a; 0x1c960542; 0x1245fa63; 0x199ce00e; 0x1c04918e; 0x106c6e90; 0x67e74c]].

Definition secp256k1_cp_50 : list curve_point :=
  [CurvePoint [0x300bf19; 0x18b9dcea; 0x3fa9251; 0xa6aed51; 0x12b6b92b; 0x7d6d59a; 0x17655058; 0x1de6c197; 0x1ec80f]
     [0x107cefd; 0x18e6e0e6; 0x5681ed9; 0xdcefec5; 0x1bf5e014; 0x4ac53d5; 0x1034bce9; 0x6ead6a6; 0xaeefe9];
   CurvePoint [0x12fea1f9; 0x18be5de2; 0x114ae52; 0x1e16a118; 0x6531c4f; 0xed5b388; 0xba0ef3f; 0x14aba3e; 0xa6dc88]
     [0x1bc345e9; 0x18e0a723; 0x1a3df98e; 0x1713b6fc; 0xbc50057; 0x1d08b56; 0x1f0c0e1a; 0xa8fb86c; 0x7ef1a8];
   CurvePoint [0x6d6c9b3; 0x6a061f8; 0x1958df2; 0x1899d0e9; 0x81ba8c6; 0x114e3c52; 0x1664af70; 0x7fd4848; 0xfe6ba9]
     [0x948bdfb; 0x163c47d; 0x10ba6c03; 0x1e37e0b; 0x13b56d98; 0xd9a2a0; 0x1cadaed; 0x1ae80a73; 0x7ee918];
   CurvePoint [0xcf95151; 0x11788398; 0xb12d910; 0x900dc88; 0xded1b96; 0x4616e04; 0x2fec083; 0x1e28df93; 0x15d5e2]
     [0xff8ecf2; 0x1503e61; 0x16303e52; 0x9f72fb; 0x23f9bb2; 0x1084bc48; 0x13b1fe43; 0x6322bfa; 0xa5b72e];
   CurvePoint [0x96a5658; 0xbc085c9; 0x1bd9590f; 0x964a483; 0x29be381; 0x100493d7; 0x11eb631f; 0xe4ad108; 0x84c0e8]
     [0x181b80d1; 0xcb394de; 0x13c7f48b; 0xc35303e; 0x1725ed3a; 0x118c8329; 0xb12821f; 0x10182c04; 0x265983];
   CurvePoint [0x14dc6a0f; 0x1addae44; 0x1f855d4d; 0x6832285; 0x77c2744; 0x1273d160; 0xc755949; 0x18e3526e; 0xfed6b1]
     [0x176fc7e0; 0x5c6b96c; 0xff10273; 0x9ab2614; 0x1ae23137; 0xc0d7269; 0x1c2a11e4; 0x1cd61fff; 0x8de2ab];
   CurvePoint [0x18e29355; 0x19c42f88; 0x1c8361b6; 0x191d2672; 0x1b9d82f1; 0x1c302011; 0xf1c3f3b; 0x1b325a79; 0x2a6a4d]
     [0x15cc2872; 0x29f007d; 0x1131db00; 0xb474c9; 0xf90dfe9; 0xe40f134; 0x1831d83f; 0x174f894f; 0x8677df];
   CurvePoint [0x148dabf; 0x1cfd447f; 0x75e3ac7; 0x1ba57269; 0xe735c1a; 0x7611afd; 0x151b65d9; 0x4d924e; 0xe42d93]
     [0x11e1361; 0x1b963ab4; 0x19dfae75; 0x4eae033; 0x18530327; 0x675fef9; 0x12c362ce; 0x58dc5b0; 0x641386]].

Definition secp256k1_cp_51 : list curve_point :=
  [CurvePoint [0x166642be; 0xedac941; 0x162ea227; 0x920e2fa; 0x1fa8bce3; 0x57a3406; 0x10be46c0; 0x11808ce1; 0x146a77]
     [0x1d83efd0; 0x594ba41; 0x1f97b474; 0x152e3a5e; 0xb2870aa; 0xc13fcea; 0xa2b759a; 0x1d866a80; 0xb318e0];
   CurvePoint [0x7315443; 0xc9c39c1; 0x1a19ca67; 0x1377aa95; 0x142a13d7; 0x4cc1050; 0xd7fd0b2; 0x80cc12; 0xfc696c]
     [0x17d28960; 0x486b05a; 0x6f46c5d; 0x1fe90c21; 0x77b5487; 0x10e6eb4b; 0x24aefc3; 0x1d7f076b; 0xe0ce27];
   CurvePoint [0x16fdb4eb; 0xdd97ae0; 0xb9a9e74; 0x7baf38c; 0xb0928fa; 0x151ab15f; 0xab46b95; 0x43fe9fe; 0x974af2]
     [0x9f6f484; 0x4e1efd; 0x1ff08d21; 0x18ae5477; 0x90ed111; 0x121e8160; 0xf299347; 0xfaa6a00; 0x555238];
   CurvePoint [0x1d5aeee3; 0x1c8256da; 0x163204dc; 0x109786cc; 0x70c5e82; 0xd9d3349; 0x62c2448; 0x13693bc7; 0x5baab5]
     [0x10f69717; 0x1694d7db; 0x14c7bb60; 0x1bb93b57; 0x1daf7215; 0x4330ff; 0x1a15b968; 0xc2f81ef; 0x8a577f];
   CurvePoint [0x15726890; 0x8d8f227; 0xdf4561; 0x4bfd59; 0x10a0ee59; 0x17e75fc8; 0x10f4040c; 0x14fd6938; 0xfb685f]
     [0x1835783a; 0x375479d; 0x39e6c98; 0xd9625d2; 0xba094fa; 0x10b6cc32; 0x18ba1a72; 0x45931cb; 0xd750df];
   CurvePoint [0x8bca48a; 0x325f89d; 0xf7d8bd5; 0x9abe9d0; 0x1f71d78b; 0x1dc8e143; 0x5682ac9; 0x1ecb3c53; 0x5de58f]
     [0x12fd41cd; 0x3ca7406; 0x3e2aa56; 0xb7b389c; 0x13c843fe; 0x111e1296; 0xd54c269; 0x7b006b3; 0x685a3b];
   CurvePoint [0x5ef63b6; 0xf1c1a27; 0x6c60baf; 0x9a02ce6; 0x1c1c85ab; 0x1fed1da7; 0x2febc6d; 0x19bd5ac3; 0x6f1825]
     [0x5c655f3; 0x1642367a; 0x1fe51504; 0x12b4c804; 0x134553c8; 0x1026bc19; 0x46e63d0; 0xfbab232; 0xff097e];
   CurvePoint [0x14a63f3b; 0x1a823f6f; 0x1e3e5c9e; 0x760332; 0xc765832; 0x8afaf3b; 0xddad61c; 0x12beec54; 0xc5ecb8]
     [0x5005024; 0x9f9ba34; 0xc2fb96d; 0x16cbdcbc; 0x33ec8be; 0x2c7fc9; 0x7cdd3a9; 0x3032f10; 0x222525]].

Definition secp256k1_cp_52 : list curve_point :=
  [CurvePoint [0x1180eef9; 0xbb543c9; 0xa2e5ddb; 0x244134; 0x7b128d0; 0x75d8d50; 0x17c1f8eb; 0x1ec3a45c; 0xfa50c0]
     [0x1f4f2811; 0x66c6be9; 0x1e884ece; 0x1065274a; 0x1a68a5e6; 0x9439140; 0xea6dcb3; 0x124472fd; 0x6b84c6];
   CurvePoint [0x11da5e12; 0xf70719c; 0x12b2ca5c; 0xc14802b; 0xa2b6a9c; 0x14fc9d0e; 0xc6f368c; 0x7886f3c; 0xf7502e]
     [0x385f4eb; 0x125ce2f4; 0x973af1e; 0xda65dee; 0x72047b8; 0x4a2e1eb; 0xbf5665c; 0x1dbacf9f; 0x3c57f5];
   CurvePoint [0x10b7d105; 0x3a49988; 0x195f27c8; 0x14b89729; 0x55b3f4c; 0x1b31271a; 0x18a8e93; 0x1f3075cb; 0x12fe78]
     [0x1f794a60; 0xc5637dc; 0x1ba42e11; 0x19c4cbad; 0x1cb771de; 0xd50ccd3; 0x13dde1ad; 0x14671ad7; 0x2062f1];
   CurvePoint [0x1e0c5d05; 0x110ec19c; 0x15cb6bfd; 0x1cd8a154; 0x4b1a480; 0x1d881404; 0x1cf56312; 0x268fbe8; 0x76aac3]
     [0x11ece63e; 0xb30cdba; 0x179bb8d5; 0x44b9e02; 0x625f4b1; 0x19641901; 0x3beafbc; 0x1de1ab8e; 0xef5576];
   CurvePoint [0x1c53c086; 0x1137a42f; 0x686bb27; 0xab86939; 0x8104c6b; 0x618a2f4; 0x13321f98; 0xb77cb8b; 0xa663fe]
     [0x5016201; 0x14e28195; 0x653f039; 0x1d994ae7; 0x3dc3991; 0x81644c1; 0x1efd746c; 0xfed6423; 0xb54199];
   CurvePoint [0xb758574; 0x16c00f6a; 0x13e71ba6; 0x4cd1286; 0xbdf3d83; 0x10813d71; 0x16096df2; 0xf4040d9; 0xde9552]
     [0x1b67232a; 0x1bef8fe7; 0x168b7ad2; 0xd420a2a; 0x9ed7bae; 0xe423f8b; 0x5393887; 0xad5927a; 0x4cd3e0];
   CurvePoint [0x1d85474f; 0x1bcdc55f; 0x18d19a35; 0x18945712; 0x5aea894; 0x65f223c; 0xb76ffb7; 0x1c0cda65; 0x8da6bc]
     [0x1d7b4ef7; 0x1efce3e9; 0x16f75e97; 0x198b260b; 0x1fff10b1; 0xfae838e; 0x13fe13f7; 0xd5e63da; 0x13fc6c];
   CurvePoint [0x1dd042ea; 0x1aea12b3; 0x3abf41a; 0x144d4c8b; 0x93beebf; 0x1324f19e; 0x8e6c6f5; 0x18f9f677; 0x7329ac]
     [0xf5c94a1; 0xd467f61; 0x1ead3c2b; 0x112ee63b; 0x168ee184; 0x73ca7d5; 0x1c5224a1; 0x6a836ed; 0x927249]].

Definition secp256k1_cp_53 : list curve_point :=
  [CurvePoint [0x1f067ec2; 0x129e995a; 0xee94883; 0x11156bab; 0xe8421a2; 0x1fb5bec4; 0x846c696; 0x1a194e43; 0xda1d61]
     [0x1ad836f1; 0xafdd078; 0x1e6d2299; 0xe7133a4; 0x11e2966a; 0x1b30b0e4; 0x1b1e701; 0xb4f9326; 0x8157f5];
   CurvePoint [0x1a95a8db; 0xec3b997; 0x74dbd85; 0x1d81888f; 0x11723b83; 0x13234c8d; 0x141067a5; 0x148c607b; 0xe3e90d]
     [0x1b0d1cf9; 0xb67bf8; 0x6134f44; 0x3df2f99; 0xe76afbb; 0x15486381; 0x1e2ec03e; 0x1800ad82; 0xfbe53b];
   CurvePoint [0x112ee214; 0x1d57eb20; 0x4c55005; 0x149d2f2b; 0xc01c782; 0x86feae0; 0x1dd6a2d9; 0x18e65c7a; 0x9f4ffe]
     [0x1085f37a; 0x17a21112; 0x12200a0f; 0x136d2617; 0x1c69d971; 0x13417eba; 0x1cb983a5; 0x1c2631c5; 0x639ce2];
   CurvePoint [0x1f61a0a5; 0x5b40a28; 0x10538fbe; 0x4a7c367; 0xb2c4b1; 0x10520fa2; 0xb06c5c6; 0x5a82269; 0x431f62]
     [0x18cef899; 0x15bdbff3; 0x1595dc91; 0x1554086a; 0x1aa7241b; 0x1328cb91; 0xe3db5b7; 0xffcf548; 0xa29832];
   CurvePoint [0x7748503; 0x16133eab; 0x4ca39f2; 0x1c1c8ee6; 0x12ac0e6; 0x1779cfc5; 0x1ee1b2d8; 0x1bbd9cf1; 0x993dba]
     [0x1eb0cee2; 0x1d39b09b; 0x2b6a926; 0x10f7ed37; 0x1f51a17f; 0x1c23c3d0; 0x1bade17d; 0x1dd0ad3d; 0xa521a9];
   CurvePoint [0x6d23d80; 0xf5113ad; 0x11d351e3; 0x17a23e4c; 0x162c0e10; 0x18e5c84; 0x1a968ce5; 0x1740d5ab; 0x75f17a]
     [0x80dd57e; 0x3542d81; 0x13a96426; 0x1ff7db76; 0x16292372; 0x1e85f8cd; 0xa031ff1; 0x1fc2ac73; 0xa07a62];
   CurvePoint [0x1ad3413; 0x115cdb6b; 0x9f5a12b; 0x13800806; 0x7b7a8db; 0xfa42e5c; 0x12829ba5; 0xbc23b3e; 0x667855]
     [0x1ebca672; 0x12408103; 0x17199804; 0x1c5a2a75; 0x1df9ea6c; 0x136c93e5; 0x191a4949; 0x7bc4f1e; 0x510dda];
   CurvePoint [0x6cc8563; 0x57ad8; 0x18407aab; 0x9beb7ff; 0x3688922; 0x15ec0cb; 0x1d22b6b2; 0x6c59b4e; 0xebdc4a]
     [0x394ccfa; 0xd8bde75; 0x813e492; 0x80f2492; 0x14f07bec; 0x11af366e; 0xd7e6c7b; 0x89d0ada; 0x659a31]].

Definition secp256k1_cp_54 : list curve_point :=
  [CurvePoint [0xd064e13; 0x139d8308; 0x1bc7818a; 0x23bc088; 0x14166153; 0x1fcc747e; 0x1a41c857; 0x1fe192e0; 0xa8e282]
     [0x11f4cc0c; 0x17be3988; 0x175af5b3; 0xf347ca1; 0x115888b6; 0x1f9e2d92; 0x1026afed; 0xb71b703; 0x7f9735];
   CurvePoint [0x1a3979b5; 0x150ccd85; 0x1fa0a788; 0x111f1bcc; 0xe50ba2; 0x1f858f72; 0x98c9fcd; 0x18b9b5bc; 0xae2207]
     [0x450fa6f; 0x79e6b34; 0x153e225a; 0x10f6fa6f; 0x17060fca; 0x92291d6; 0x1dc6b532; 0xa2180f3; 0xea91fe];
   CurvePoint [0xefca824; 0x80c880; 0x8593eb9; 0x1c189fd4; 0x5461e0b; 0xa08032c; 0x139673b1; 0x195ae55; 0xcb8ded]
     [0xf227361; 0xa05e82c; 0x4c5d0bc; 0x1a3fbf8f; 0xcbc496a; 0x16243d16; 0x3216cc5; 0x11ee81b1; 0x33a500];
   CurvePoint [0x1bcbd327; 0x8da6d1; 0x192abba5; 0x1c10a443; 0x16ed6b04; 0x4806bf3; 0xd9c23a5; 0x5315e30; 0xb0c53b]
     [0xd7be436; 0x10b5e251; 0x18da83c5; 0x144418e8; 0xb2afd82; 0x15300db3; 0x1a858e3d; 0x803f7af; 0xee2a97];
   CurvePoint [0x17b836a1; 0x1377db1c; 0x19e7bdf7; 0xc80bfee; 0x1f526c80; 0x317673b; 0x4835362; 0x7e653b7; 0x6f6ba7]
     [0x6832b84; 0xdef97d8; 0x187fe4d3; 0x1218a511; 0xe9c0d89; 0x1c5202df; 0x638f6c2; 0x2ffebf8; 0xdc778a];
   CurvePoint [0x1eb39ede; 0x1771a104; 0x184b50a; 0x110065ae; 0x4360310; 0x1a33f081; 0xbd2ef3f; 0xfb8e845; 0x7d471a]
     [0xbf6607e; 0x4de6ca5; 0x8aa3f43; 0xb9efa38; 0x86fa779; 0x1118f7fe; 0x15941ee0; 0x33e74d0; 0x4a7b];
   CurvePoint [0x165eb1c1; 0xb6a4f12; 0xb9716a9; 0x1aeacf9b; 0xf0967fc; 0x1e618cc1; 0x1eb1c1c3; 0xc7f36e7; 0xf00251]
     [0xdde2ae0; 0xd3eb823; 0x1344795f; 0xdfeb9ad; 0xafed857; 0x1a52ed13; 0x37d319a; 0x1d1107a4; 0x54ea9];
   CurvePoint [0x1ac32c64; 0x79a849e; 0xb92fe13; 0xdfc07d9; 0x1715e0e3; 0x74a87a3; 0xea83dc1; 0x3da4; 0xac1214]
     [0x1eb1a867; 0x956dd6; 0x14fc2262; 0x14ba74b4; 0x99a3ed5; 0x1b4ab982; 0xebc61c2; 0x19758671; 0xce8ebc]].

Definition secp256k1_cp_55 : list curve_point :=
  [CurvePoint [0x319497c; 0x179c16f4; 0x9423008; 0x1363f4a2; 0x1cab15d5; 0x12b73489; 0x161cb4e7; 0x17393450; 0x174a53]
     [0x79afa73; 0x1ed09d60; 0xe6150e0; 0x16743b19; 0x1f9e6646; 0xaaf9623; 0x10595ed0; 0x6f57f93; 0xccc9dc];
   CurvePoint [0x154b8367; 0xa4039eb; 0x1541affa; 0xb6efacf; 0x16a5db77; 0x12ea2c21; 0x9b9032a; 0x95c88ca; 0x5e5a09]
     [0x11ce85ca; 0x994d4ec; 0x197fe911; 0x1553de7b; 0x4b7a796; 0xf8ab95; 0x18170b24; 0x19348f2b; 0xae8af8];
   CurvePoint [0x17b10d9d; 0xcc2bc9c; 0x7e3f2bc; 0xa5e313a; 0xb82de6a; 0x5c19886; 0x1a1677b3; 0x15b72e05; 0xd4e0]
     [0x1140dced; 0x1080243; 0x18b648fa; 0x113192f1; 0x87f70b5; 0x1c232191; 0x10251f4b; 0x130306ec; 0x87b801];
   CurvePoint [0x1c9caee8; 0x408d304; 0x89c2ec8; 0x1c408b63; 0xa667632; 0x10cd7762; 0x1303dbde; 0x26d1dee; 0x36652]
     [0x1772b711; 0x14f6351d; 0x56e9fc2; 0x17531265; 0x944501c; 0x1e340dd3; 0x1b666527; 0x565527b; 0x1f18c3];
   CurvePoint [0x1446c85c; 0x1ffcba8c; 0x7018d4; 0xfbc11cc; 0xc6eade3; 0x1b6229fb; 0x1c7ea819; 0xadfb71; 0xe5891]
     [0x148972e; 0x1b63bf39; 0x1376b757; 0x469d01; 0x1898f49; 0xc5d7a4; 0xf683b1d; 0xbe23f4f; 0xe39a48];
   CurvePoint [0x22e1259; 0x18c56f9e; 0x4d8abf; 0xe73480d; 0x17771931; 0x1afd5003; 0x18fcadb3; 0xda4de28; 0xa74012]
     [0x134a5f43; 0x1bb8b921; 0x75b6b57; 0xcbcea76; 0x7ee5178; 0x18ba533e; 0x7fc6c17; 0x175e329e; 0x5a9ff];
   CurvePoint [0xb08f1fe; 0x450bd1e; 0x821eff6; 0x1cfdce17; 0xd177d7c; 0x2bb2ec1; 0x13929950; 0x42db28e; 0x87e4b8]
     [0xed5e2ec; 0xfba564d; 0x1e1b675d; 0x1e47b7ac; 0xc2cc6e2; 0x1fc7517c; 0x33b35f5; 0x180ecc69; 0xf74e3a];
   CurvePoint [0x1c4d15c; 0x14380735; 0x1039d2e6; 0x1d4f7e0f; 0x14a44105; 0x11606092; 0x696a4b0; 0x8c7fd4f; 0x35ea1b]
     [0x1f3fe1ea; 0x49cdd7b; 0x194257b7; 0x6754060; 0x13b185d6; 0x1d2feba6; 0xb35e223; 0xca373da; 0xad2191]].

Definition secp256k1_cp_56 : list curve_point :=
  [CurvePoint [0x1475b7ba; 0x27eff84; 0x462cf62; 0x13ce61c9; 0x18cdbe03; 0xbf6fa80; 0x170f4f9; 0x1303286f; 0x959396]
     [0x1524f2fd; 0xdc55fc3; 0x1c24e17a; 0xa7ec990; 0xd6849c6; 0x1c3525ce; 0x7762e80; 0x5111866; 0x2e7e55];
   CurvePoint [0xfd69985; 0x4e2eec8; 0x17dcaba8; 0x13996db; 0xcf149f3; 0x1486fde6; 0x1df9e23d; 0xeb9d6e5; 0xae976]
     [0x1409a003; 0xe475a08; 0x1b86bfe2; 0x133a82f5; 0x54c5d0b; 0xff7028d; 0x1453a6e3; 0xe7edc91; 0x912199];
   CurvePoint [0x19262b90; 0xe0c9efe; 0xf30a6a7; 0x78983fc; 0x5d1fb72; 0xf8bbc01; 0x4bb26d9; 0x54b582c; 0x2b1586]
     [0x83d7557; 0x8ccb732; 0x5226926; 0x692e1f3; 0x149066f5; 0x6a96d43; 0xfea9e8c; 0x7b54146; 0x2eb005];
   CurvePoint [0x8e7be40; 0x1fcb8a65; 0x103b964; 0x5912922; 0x769af2d; 0xe0b0b72; 0x199dfba5; 0x1da352dd; 0x6af9ea]
     [0xe387e1c; 0x120b7013; 0x1d655a7e; 0x7eccd41; 0x1dc8145e; 0x152141a3; 0x19259c27; 0x22d200c; 0xb3812a];
   CurvePoint [0x1482801e; 0x135b7d07; 0xf505574; 0x129f178b; 0xd6f9407; 0x15a1265c; 0x113bacea; 0x1dc08882; 0x596668]
     [0x4870c37; 0x3b8a478; 0x14d4d6b5; 0xd8396c7; 0x1304e8db; 0x1cb043b8; 0x1d7c7b23; 0x150b775d; 0x949aa0];
   CurvePoint [0x32c19fd; 0x64d973e; 0xa30f9; 0x1571d20b; 0x10b5b4ac; 0x68bd5ab; 0x1d8bf7d; 0x11036a0a; 0xbe84d1]
     [0x12f1281f; 0x1b4a529b; 0x14370dd9; 0xb4feabc; 0x3994795; 0x12fa4184; 0x2513479; 0x19665b8a; 0xeff960];
   CurvePoint [0x16c69482; 0x8dbafea; 0xbe859ef; 0x156a8026; 0xbc88cbe; 0x193a6579; 0x1b9507d5; 0x62981af; 0x9867a0]
     [0xf792cd7; 0x178308a3; 0x158a2a45; 0x48b9ea2; 0x99639e6; 0x16aad8dd; 0xd3e71e4; 0xb476210; 0xd02e61];
   CurvePoint [0x1d557aa1; 0x511cec8; 0x7f0a5e; 0x1b25fd9a; 0x1d6abdf1; 0x1975004c; 0x569649f; 0x8a81b10; 0xa866f2]
     [0x1430634; 0xc0ddda6; 0x184692de; 0x16d38cf8; 0xe13961e; 0xc7d2ed8; 0xd135e4f; 0x1ed50045; 0xb58739]].

Definition secp256k1_cp_57 : list curve_point :=
  [CurvePoint [0x1d82b151; 0x1a89a064; 0x7ee8b6e; 0x1487aac; 0x9a8fcca; 0x108a9d88; 0x195b5916; 0xa15c803; 0xd2a63a]
     [0x1cf89405; 0xa10ba6; 0x13294b5; 0x1eea15e9; 0x8220a70; 0x172c594a; 0x12dd596b; 0x1f6c887f; 0xe82d86];
   CurvePoint [0xe4b3ba0; 0x2cfb1af; 0x2fc7c5e; 0x157debe3; 0x1245f5c2; 0xb8798df; 0xdcefbf8; 0xa443ff; 0x410811]
     [0x17525595; 0x34b0ee0; 0x8191552; 0xc930acb; 0x18498133; 0x12d70eb5; 0x19a3cb29; 0xd2edfea; 0xdc37f3];
   CurvePoint [0x13d98ded; 0x114e4dc4; 0x2808611; 0x1e450677; 0x1d65edbd; 0x114c8298; 0x323233c; 0x2142d98; 0x63a2a2]
     [0xd1cfc2; 0xc8cbea7; 0x11e1ce94; 0x17ed4013; 0x194461fa; 0x1992a76; 0x1dbf4194; 0x1c5cffd8; 0x882b42];
   CurvePoint [0x18045445; 0x1430d285; 0x7a35fba; 0x1ee6e320; 0x1bef080f; 0x17172eab; 0x1f28f7c4; 0xba893ac; 0xc1581]
     [0x54a206; 0xa7c3eaa; 0x1633a8c8; 0xa9c86c; 0x1cd28ba3; 0x1e1db331; 0x45742a4; 0x1475d28; 0x2f30d6];
   CurvePoint [0x3857faf; 0x14891ce6; 0x5865c07; 0x1f95bc3d; 0xef7f882; 0x1d47a414; 0xa70355e; 0xd7135d1; 0xc757eb]
     [0x584ca4; 0xeced865; 0x6253040; 0x1a621a20; 0xc61b627; 0x14f9045f; 0x1cd895cd; 0x19f9a47f; 0xf03a59];
   CurvePoint [0x1459225d; 0x1268c27a; 0x2163443; 0x15eefc5b; 0x2a244f; 0xa04c8ce; 0x343e057; 0x15d5b5f4; 0xfa8063]
     [0x1ece1507; 0x115bf1db; 0x1f1670e; 0x16d86da0; 0x425c0a2; 0x11104126; 0x1a45837; 0x120af818; 0xba71f];
   CurvePoint [0x16f0d044; 0x13cff4a0; 0x79869e5; 0x153fa921; 0xe0a5aab; 0x14e7c317; 0x1ea278bd; 0x18b3a04a; 0x658ca3]
     [0x17cb872d; 0xe8f9977; 0x633a26b; 0x2cec788; 0x1d37655a; 0xeb1389d; 0x15183c59; 0x6ef5d44; 0xae5cc1];
   CurvePoint [0x1696756d; 0x1ad64ab9; 0x158505ea; 0x15e2c0ac; 0x1305c676; 0xcc1ae9f; 0xaeb3930; 0x955f23e; 0x31c94b]
     [0x1e08ae78; 0x1e22f46e; 0xb441c2a; 0x1dbf95cd; 0x160683a; 0x5acd57a; 0xea6fd2e; 0x96aadd0; 0xf80f88]].

Definition secp256k1_cp_58 : list curve_point :=
  [CurvePoint [0x1617e073; 0x1b7cda2; 0xe4c5ecd; 0x197b7a70; 0x1dc866ba; 0x1c4b6be7; 0x1ae243b9; 0x466a8e3; 0x64587e]
     [0x1faf6589; 0x14cf2f4; 0xebaacd6; 0x12147226; 0x99a185b; 0xeb223e1; 0xb8aba5b; 0x1ab7ed20; 0xd99fcd];
   CurvePoint [0xe103dd6; 0xfb8a390; 0x12166b; 0xc0980f8; 0xa17ac34; 0x9e7e2c9; 0xfe0da88; 0x1aab4840; 0xbc477b]
     [0x16f7c343; 0x1c8416c6; 0xed12b18; 0x126ae58c; 0xa6395d2; 0x2a9636f; 0x1549b2eb; 0x485351b; 0xe31e1e];
   CurvePoint [0x144eab31; 0x86e1d86; 0x198d241f; 0xb5e2809; 0x1f8e80ac; 0x1a11933d; 0xe00c0e; 0x1fcb4d77; 0x589db4]
     [0x11361f6a; 0xd75f3a; 0x123e36e5; 0x21caa42; 0x190f31f6; 0x310125e; 0xa93d81c; 0xb821154; 0x625544];
   CurvePoint [0x1a0c2c41; 0x1fcb0b94; 0xcdb19e; 0x63838ac; 0xdb7c428; 0xc3056b7; 0x1e8baa28; 0x6fa2dc5; 0x1339b3]
     [0x9f1bc2b; 0x2f82a5d; 0x1a48e906; 0x44ff0fb; 0x1a3406b1; 0x1207e889; 0x196e9e8c; 0xc6c58f5; 0x9f9b29];
   CurvePoint [0x18fc47af; 0x18258fc2; 0x10337b0d; 0x1bfd9065; 0x1b568a8d; 0x194da800; 0x1c5f3140; 0x14226c79; 0x7ff3bb]
     [0x19ba43a7; 0x1c30b267; 0x2eb0a5f; 0xa7635a3; 0x1446b17a; 0x48dba39; 0x18a682f2; 0x15d00314; 0x1f6ba7];
   CurvePoint [0x15213775; 0xc26b004; 0x150aa640; 0x8527647; 0x7f6100b; 0x149caff6; 0x2ed8507; 0x8c79d6c; 0x8ec670]
     [0x1841ffff; 0x100879f3; 0x13d47a43; 0x15314179; 0x1ee0e71d; 0x1a0ae76; 0xf8c1b99; 0xdf41b4b; 0x8f58a6];
   CurvePoint [0x1452abbb; 0x59ffc69; 0xe570b8f; 0x154e5fc5; 0x1d495ae6; 0x161ff6ca; 0x6ee276e; 0x16883ce0; 0x83de61]
     [0x54eb66e; 0x1028bb58; 0x1390a462; 0x18be6d77; 0x1563d79; 0x1b57c627; 0x27e9afe; 0x694698c; 0x32f0e3];
   CurvePoint [0x159276f1; 0xb446137; 0x85ec57a; 0x1c4b6525; 0xd86833a; 0x1ae007be; 0x76c6a2e; 0x1131ea18; 0x3d7663]
     [0x59cbcb3; 0xf2532dc; 0xc65e180; 0x3304033; 0x333ef32; 0x171a6d6c; 0x176d825d; 0xe6f430f; 0xd37669]].

Definition secp256k1_cp_59 : list curve_point :=
  [CurvePoint [0x1d45e458; 0xc6b6436; 0x1439ff4d; 0x154d9d44; 0x1de042f0; 0x369f2a4; 0x216ce95; 0x1c1c9c9b; 0x8481bd]
     [0x1779057e; 0xb258dac; 0x98b955b; 0x14f38856; 0xb2ca900; 0xdf9ce76; 0x13761289; 0x11974a80; 0x38ee7b];
   CurvePoint [0x152da17d; 0x10507d20; 0x14191ac5; 0x1827b611; 0xbc811d; 0x13582ff0; 0x117c2253; 0x3c1ea31; 0x3beaed]
     [0xcc768d2; 0x13824c2f; 0x1fb105b3; 0x1bcef71b; 0xe1b554c; 0x145f5f40; 0xb37fbd2; 0x1eab5fef; 0xc3b0d7];
   CurvePoint [0x1a4edcc5; 0x1a7d0bed; 0xc46dc8; 0x1c644284; 0x15997e74; 0xfe01c93; 0x15861d4b; 0x14197b93; 0x6e73db]
     [0x159da0e4; 0x198fbe6e; 0x19e40de; 0x14efb4e0; 0x8693278; 0xa844441; 0x1122fa91; 0x1f893dd9; 0xee0ac1];
   CurvePoint [0xa80b979; 0x4e26212; 0x6aecc50; 0x1ebf465; 0x1c310049; 0xcbf5523; 0x1649d89f; 0x1126fcb6; 0x7706dd]
     [0x126cfde; 0x67a4082; 0x1fbf8c85; 0x141469fa; 0x9c7117f; 0xebcc8f5; 0x1c51dde3; 0x104fab76; 0x8a02a9];
   CurvePoint [0x126fe285; 0x6dce25b; 0xfbc49f7; 0x17585282; 0x1e06aa45; 0x1e3d20fc; 0x3e034bc; 0x18b25378; 0x16d422]
     [0x155b441; 0x1f07ff36; 0xd93508c; 0x1e18226e; 0x131b1e93; 0x1f34d31a; 0x1906a2ad; 0x1f4a3c44; 0xdf888];
   CurvePoint [0x1acfa513; 0x11885e55; 0x1838ebab; 0x80f3f34; 0x16a9c4e2; 0x1a23a87a; 0x158ea968; 0x8fdd8ed; 0x1fcc0e]
     [0x107afc9c; 0x83add20; 0x60e461d; 0x1bdba2c9; 0x1f9b44be; 0x1c3aa19c; 0x11e2d238; 0x14083c6a; 0x165dc1];
   CurvePoint [0x1edc69b2; 0xd1383e7; 0x1addc5c8; 0x14c11364; 0xa386a50; 0x1821ae5; 0x285cc19; 0xe75ad97; 0xc12b90]
     [0xdd41dd; 0x19574d81; 0x9eca800; 0x1c3b7c7a; 0x14976b8e; 0x16e44fc4; 0x17c765dc; 0x7fca699; 0x3173c4];
   CurvePoint [0x1961fe4d; 0x1b7ac2ef; 0x41c65ea; 0x910df16; 0xa73e8a1; 0x14989896; 0xa3e8fcf; 0x10bb864f; 0xd059bf]
     [0xae823c2; 0xc9ad833; 0x16ad932e; 0x111743e9; 0x155b4fd3; 0x1b2ee424; 0x978ff81; 0xc18116a; 0x45107a]].

Definition secp256k1_cp_60 : list curve_point :=
  [CurvePoint [0xcaf666b; 0x6b181fb; 0xc738c2f; 0x19fda789; 0x1f4637ff; 0xbcd740b; 0xaa98ada; 0xaf4f020; 0x13464a]
     [0x1f6ecc27; 0x1a4ad483; 0x250b84f; 0x601503a; 0xb0ca48f; 0x19a29e6; 0x1603bdf9; 0x12008c28; 0x69be15];
   CurvePoint [0xeca5f51; 0x10b5904c; 0x1f26bafc; 0x142e3729; 0x1b5cfdde; 0xb595f82; 0x1a58b1bb; 0x29bb3dc; 0xdde9d5]
     [0x10c638f7; 0x16b4d39e; 0x255c7e6; 0x1dd7d1bd; 0x18f0950f; 0x19a5853f; 0x4476247; 0x2679c50; 0xb84e69];
   CurvePoint [0x199c88e4; 0x1c83582c; 0xb51bb0b; 0x1aa27c41; 0x4b179ae; 0x375890; 0xdcdba7d; 0x2046d32; 0xfd1a62]
     [0x195bc8df; 0xe4648b2; 0x13003ca6; 0x16e3a92b; 0x17782dc6; 0x34aa4b; 0x82fec4f; 0xa973918; 0x1ac97b];
   CurvePoint [0x1f8018ce; 0xa8adada; 0x24b5a2f; 0x1b4ae71b; 0x6dc7cf2; 0x1e727964; 0x1ae7c4ff; 0x63b1852; 0x4ee485]
     [0x1e48381f; 0x1ad30d8; 0x1a01804f; 0xe92e369; 0x1c5e6710; 0x2046863; 0x2d7f1ed; 0x1a90217f; 0xb68f9e];
   CurvePoint [0x11473678; 0x1429748f; 0x10e4bdc0; 0xaf2a12; 0xc070cba; 0x18a62adc; 0x36ffd78; 0x13869880; 0xfd76cc]
     [0xd144f4f; 0x10b27754; 0x7210df; 0x51ddc28; 0x12cd6606; 0x10539e81; 0xf6b83fb; 0x86f0e28; 0xf20465];
   CurvePoint [0xd7a2193; 0x1805b8a4; 0x5d51bb7; 0x123c89e3; 0xea212c6; 0x7413a5a; 0x1008679b; 0x14662476; 0x85a2ab]
     [0x10cdcf3a; 0x18641ea5; 0xec4909f; 0xdb5bf38; 0x29fe1c; 0x104168e6; 0x145b60b1; 0xafd6560; 0x9c1298];
   CurvePoint [0x177568b0; 0xd8182d9; 0x180ec14d; 0x1d1ba033; 0x1650f35a; 0x16b62bc1; 0x19d1102d; 0x1f8e79ff; 0xd25ddb]
     [0x1f39929c; 0x509c936; 0xf0fc018; 0x4e7103c; 0x1d92b832; 0x17ba66f3; 0x24e2fab; 0xeb27f09; 0x7a3aff];
   CurvePoint [0x71d7c13; 0xff288c5; 0x3fe8e15; 0x156beff4; 0xc805641; 0x1f4d4bd5; 0x9c957c1; 0x6287d29; 0x458135]
     [0x1aff63cf; 0x11c5e2a9; 0xf65ae65; 0xcaa85; 0x169c9702; 0x878bbee; 0xb62d5fd; 0x1d8292f3; 0x9f5858]].

Definition secp256k1_cp_61 : list curve_point :=
  [CurvePoint [0xd83f366; 0x16d1d069; 0x1ca16232; 0x1399dbc5; 0x1c97a0cd; 0x185e60e; 0x18ba6bbd; 0x1eb6e27f; 0xbc4a9d]
     [0x181f33c1; 0x1ac6b332; 0x151ec5b5; 0x1153f7f4; 0x198caa6e; 0x1bd6fa5b; 0x1018e0e4; 0x194dcf0b; 0xd3a81];
   CurvePoint [0x1712be3c; 0x3517197; 0x51a99ac; 0xbe31db4; 0x1534729; 0x12edd580; 0xde34f1c; 0x13b26636; 0x39d734]
     [0x1c6ff65c; 0x180cfa0; 0x9059133; 0x1def4bd9; 0x12e8ef5; 0x1aaa6334; 0xfdfec49; 0x9eadde7; 0x8f929b];
   CurvePoint [0x1f77f22b; 0x15727de6; 0x1e0b80d6; 0x12e47329; 0x1af26c69; 0x6b614ca; 0x17427947; 0x2fefb83; 0xf0cba6]
     [0x1909a03c; 0x1e47163a; 0x8255987; 0x318fd21; 0xd04004f; 0x1361b28b; 0x1e627bcc; 0x8627f3b; 0x1a25ab];
   CurvePoint [0x6509c12; 0x566e6a6; 0x147d1d96; 0x17fc46b7; 0x68ed8d6; 0x18746c39; 0x134c8745; 0x173b642a; 0x381d7a]
     [0xeb46102; 0x3215471; 0x19babdd5; 0x1050b0d9; 0x181e7205; 0x122b9d32; 0x16a7ad74; 0xb6ffb47; 0xa47aab];
   CurvePoint [0x184fe955; 0xd9da6b1; 0x18ef3923; 0x12ad4b40; 0x8a53f69; 0x1b9f34a6; 0x1f991e4e; 0xa8cf570; 0xa703f0]
     [0x161344bd; 0x135977de; 0x5c9dfe8; 0x1c2c538b; 0x1199b539; 0x1c96b58c; 0x1eb703a9; 0x6b45608; 0xd500f9];
   CurvePoint [0x6eace58; 0x4cb2b60; 0x1cc8474d; 0x1c8ac745; 0x1a03f1b7; 0x1686b829; 0x35d1b1a; 0x18b55aaa; 0x73c6b3]
     [0xaf8654e; 0xb8548b9; 0xe34a45c; 0x150f1b77; 0x191c6aa6; 0x4c89b36; 0x1dd06ea4; 0x148e6749; 0x3a2fb4];
   CurvePoint [0x181d5e; 0x59c45f8; 0x16abc815; 0x3675372; 0xddb8de7; 0x69d0e07; 0x1ff68740; 0x1cea0da8; 0xc627f3]
     [0x169f886d; 0x13c80531; 0x12f8b0e4; 0xd600a93; 0x1f7d68ef; 0xb009c50; 0x98ecb5a; 0x1ae3c885; 0xd78f9d];
   CurvePoint [0x17828b16; 0x7146cfd; 0x9211fcd; 0xf2b1e51; 0xde53a04; 0x1a053783; 0x8cfe897; 0x17c1dbfa; 0xbb88fa]
     [0xaea5df7; 0x8a39d10; 0x87a5a71; 0x1502e9c7; 0x19163ec4; 0x2cb008a; 0x374d177; 0x16609ebd; 0xb73676]].

Definition secp256k1_cp_62 : list curve_point :=
  [CurvePoint [0x5324caa; 0xa55987f; 0x51ca8e5; 0x16cbc615; 0xa32e694; 0x63a4a29; 0xf0348f6; 0xf7f0531; 0x8c28a9]
     [0xbef9482; 0x138ee39e; 0x72e5167; 0xf09e08a; 0xc0eb7ae; 0x16f98fbe; 0x64cde3f; 0xc74660a; 0x40a304];
   CurvePoint [0x754dd40; 0x11f438aa; 0xd19b3e1; 0x44c63f8; 0xf6e9a24; 0x20fe6b9; 0x1f3d16d2; 0xe06581b; 0x972924]
     [0xaa36143; 0x25a4979; 0xb2bd24e; 0x15d0a4ab; 0xdf3690d; 0x3aee5ea; 0x8773457; 0x884cbfd; 0x91d1a2];
   CurvePoint [0xc2ca7ff; 0x16c175c; 0x17c0868f; 0x6c8bb2b; 0x127af180; 0x8d6ad17; 0x5b8141e; 0x12eb014f; 0x89637f]
     [0x10493e68; 0x16a0af0b; 0x10baadef; 0x178d471c; 0x17489f87; 0xe78aa1a; 0x109355ee; 0x4919110; 0x2d1fe1];
   CurvePoint [0xca8dd7f; 0xc36b1d0; 0x84e0698; 0xe5006ad; 0x157421bc; 0xed01ea9; 0x1824bf72; 0x1ce37c4b; 0x308138]
     [0xa92c7f2; 0xaf923c; 0x12b64579; 0xcac8c86; 0x8e18c81; 0x1622e8a0; 0x124978e7; 0x1a51051f; 0x28d1e2];
   CurvePoint [0x66a3fb1; 0x6e62b44; 0x4b881b0; 0x125033; 0x862f6ec; 0x1a8642db; 0xd974795; 0x1d054dbd; 0x575fc4]
     [0x102655ad; 0xdc74854; 0x8ebcbc2; 0x76ae78d; 0x87daed3; 0xde14bc7; 0x128b59c7; 0x120854df; 0x6f6edb];
   CurvePoint [0x190117df; 0xdb54523; 0x8040a48; 0xa77779c; 0x2a8fda2; 0x137c0f75; 0xde889fc; 0x6d6c9d5; 0xa5ec90]
     [0x186462fe; 0x94099f; 0x528d8f6; 0x8c3e0ac; 0x1a0f71c8; 0x1cc1d68f; 0x1003165; 0xc4bd828; 0xb79dc6];
   CurvePoint [0x172ad712; 0x187cbae0; 0x411ca42; 0x131961bc; 0x149b95a3; 0x1cbb0a31; 0xc252779; 0x1d226621; 0xa153df]
     [0xd48fdd2; 0x52fb29c; 0x1c2cca72; 0xa7e50b5; 0x1b89abd0; 0xc6af8f8; 0xcbf120c; 0x827f60b; 0xfd94d8];
   CurvePoint [0x11cf5b3a; 0x1861b808; 0xd69e040; 0x675077b; 0x1c824c44; 0x1a684476; 0x18564d70; 0x18d5ef28; 0x9a541a]
     [0x16a44ae4; 0x1faabaf9; 0x7a94b58; 0x11fdc4a4; 0x1475f554; 0xd79b447; 0xadf2bf8; 0x1839620d; 0xb66148]].

Definition secp256k1_cp_63 : list curve_point :=
  [CurvePoint [0x1faccae0; 0x625d088; 0x12eccdd2; 0x166a18b4; 0x11fd23c8; 0xa672783; 0x1ea30776; 0xcc272a4; 0x8ea96]
     [0xe62b945; 0xd79a518; 0x1c3e3a55; 0xf077d39; 0x1c5d735b; 0x1e067dca; 0x1e0b8939; 0x17791dc4; 0x620efa];
   CurvePoint [0x6a06f5e; 0xd205acb; 0x820dc08; 0x324a2dd; 0x1b716a34; 0x6a10931; 0x14eb0dec; 0x1f7d4284; 0x383b24]
     [0x13c6e772; 0x4fa3c36; 0x30ac102; 0xd5ce977; 0x5a19e8f; 0xb36aa75; 0x881133d; 0xd589db7; 0x54cf70];
   CurvePoint [0x638a136; 0x1cbae0ea; 0xe06571; 0x1a39c66d; 0x1790c2b0; 0xce35b06; 0x15b5e279; 0x1a07c05d; 0xe68432]
     [0xc6c2584; 0x17e8c084; 0xd5ccdaa; 0x13c7d7b6; 0x1e6472e0; 0x13981d00; 0x998934a; 0x2731c6b; 0xca5be4];
   CurvePoint [0x16e8c10c; 0x743e220; 0x6f5a01f; 0x530be72; 0x6e7fb47; 0x1ef67398; 0x10a83bbe; 0xb3c5fcb; 0x395dd5]
     [0x5fe638e; 0x1eb6c98; 0x19a48b2f; 0x13809b8; 0x4e274c9; 0x1f43d7fd; 0xb174104; 0x1a968b25; 0xfd62dc];
   CurvePoint [0xd6c14ef; 0xb326d90; 0x1e4f23d4; 0x11f8ea0d; 0x6480085; 0x16adf771; 0x172e7dbb; 0x1b86aa4b; 0x7a514a]
     [0xb3fbd13; 0x169f0c38; 0x9b893de; 0x1d5dee55; 0x15c3729b; 0x185ca647; 0x1363a25f; 0x1fda2a5c; 0x56edd1];
   CurvePoint [0xf6d65eb; 0x14a31e82; 0x10085492; 0x1220eea8; 0x8f235a9; 0x179dfa48; 0x4363aa3; 0xb0864bb; 0x1ee1fd]
     [0x1d22941c; 0x101b5c92; 0xd60ac47; 0x5e9d30c; 0xfcfaca3; 0x1cfe27a1; 0x1cf073ea; 0x1237bad8; 0xbb6928];
   CurvePoint [0xe36cb44; 0x18ca8778; 0x12880647; 0x1d16d91b; 0x1357d617; 0x7e86c41; 0xaa2f016; 0x69a71f5; 0x155156]
     [0x1f495a68; 0x14d7a328; 0x830794c; 0x6e2ebe0; 0x1205da8c; 0x11f85a31; 0x8578dc3; 0x18eaaaea; 0xab4fff];
   CurvePoint [0x1427bacc; 0xfca3083; 0xb58b854; 0x662c9ba; 0x1c4aa9e7; 0x7584ac6; 0x804d8d6; 0xc88d7ea; 0x3bc6bc]
     [0xad6fda6; 0x619feaf; 0x2fad1c5; 0x16eb4a45; 0xc02bd71; 0x1771136b; 0xc1736d8; 0x180e2ed8; 0x8e305c]].

Definition secp256k1_cp : list (list curve_point) :=
  [secp256k1_cp_0; secp256k1_cp_1; secp256k1_cp_2; secp256k1_cp_3; secp256k1_cp_4; secp256k1_cp_5; secp256k1_cp_6; secp256k1_cp_7;
   secp256k1_cp_8; secp256k1_cp_9; secp256k1_cp_10; secp256k1_cp_11; secp256k1_cp_12; secp256k1_cp_13; secp256k1_cp_14; secp256k1_cp_15;
   secp256k1_cp_16; secp256k1_cp_17; secp256k1_cp_18; secp256k1_cp_19; secp256k1_cp_20; secp256k1_cp_21; secp256k1_cp_22; secp256k1_cp_23;
   secp256k1_cp_24; secp256k1_cp_25; secp256k1_cp_26; secp256k1_cp_27; secp256k1_cp_28; secp256k1_cp_29; secp256k1_cp_30; secp256k1_cp_31;
   secp256k1_cp_32; secp256k1_cp_33; secp256k1_cp_34; secp256k1_cp_35; secp256k1_cp_36; secp256k1_cp_37; secp256k1_cp_38; secp256k1_cp_39;
   secp256k1_cp_40; secp256k1_cp_41; secp256k1_cp_42; secp256k1_cp_43; secp256k1_cp_44; secp256k1_cp_45; secp256k1_cp_46; secp256k1_cp_47;
   secp256k1_cp_48; secp256k1_cp_49; secp256k1_cp_50; secp256k1_cp_51; secp256k1_cp_52; secp256k1_cp_53; secp256k1_cp_54; secp256k1_cp_55;
   secp256k1_cp_56; secp256k1_cp_57; secp256k1_cp_58; secp256k1_cp_59; secp256k1_cp_60; secp256k1_cp_61; secp256k1_cp_62; secp256k1_cp_63].

End EcTable.
