(* ===== verification/EcParams.v ===== *)
(** * secp256k1 meets the requirements of the code

    The parameters of secp256k1 are an instance of CurveOk, and each of the 512
    points of its table is the multiple of the base point it should be.  Both rest
    on checks of sums of points: a certificate lists the slopes, and the checker
    verifies the equations of the chord and tangent law modulo the prime. *)

From stdpp Require Import base list numbers.
From Stdlib Require Import ZArith Lia.
From Stdlib Require Import Zdivisibility ZmodDef ZmodBase ZmodInv.
From S2P Require Import Prelude Bignum Curves BignumSpec BignumConv Primes EcGroup EcField EcCurve Ecdsa EcdsaPoint EcdsaMul EcTable.

Module EcParams.
Import Bignum Curves BignumSpec BignumConv Primes EcField EcCurve Ecdsa EcdsaPoint EcdsaMul EcTable.

(** ** The curve *)

Lemma secp256k1_P : bn_val (prime secp256k1) = secp256k1_p.
Proof. vm_compute. reflexivity. Qed.

Lemma secp256k1_N : bn_val (order secp256k1) = secp256k1_n.
Proof. vm_compute. reflexivity. Qed.

(** -7 is not a cube modulo the prime, so no point has order two. *)
Definition cube_check : Z :=
  let r := barrett secp256k1_p (2 ^ 528 / secp256k1_p) 256 in
  power_by r (fun x => r x * -7) (-7) (Z.to_pos ((secp256k1_p - 1) / 3)) mod secp256k1_p.

Lemma cube_check_ok : (cube_check =? 1) = false.
Proof. vm_cast_no_check (eq_refl false). Qed.

Lemma cube_power : cube_check = (-7) ^ ((secp256k1_p - 1) / 3) mod secp256k1_p.
Proof.
  unfold cube_check. rewrite (power_by_ok secp256k1_p).
  - rewrite Z2Pos.id by (vm_compute; reflexivity). reflexivity.
  - intros y. apply barrett_ok. discriminate.
  - intros y. rewrite Z.mul_mod, barrett_ok, <- Z.mul_mod by discriminate. reflexivity.
Qed.

Lemma no_cube p q x : Z.prime p -> p - 1 = 3 * q -> 0 <= q -> (-7) mod p <> 0 -> (-7) ^ q mod p <> 1 -> x ^ 3 mod p <> -7 mod p.
Proof.
  intros Hp E3 Hq Hnz Hc Hx. pose proof (Z.prime_ge_2 _ Hp) as H2.
  assert (Hx0 : x mod p <> 0).
  { intros E0. apply Hnz. rewrite <- Hx. apply Z.mod_divide in E0; [|lia]. destruct E0 as [k Hk]. rewrite Hk.
    replace ((k * p) ^ 3) with (k * (k * p) ^ 2 * p) by ring. apply Z.mod_mul. lia. }
  pose proof (Z.fermat_nz p x Hp Hx0) as Hf. rewrite E3 in Hf. rewrite Z.pow_mul_r in Hf by lia.
  apply Hc. rewrite <- Hf, Zpow_facts.Zpower_mod, <- Hx, <- Zpow_facts.Zpower_mod by lia. reflexivity.
Qed.

Lemma on_curve_cube (curve : ecdsa_curve) x : coef_a curve = 0 -> bn_val (coef_b curve) = 7 -> 0 < cP curve ->
  on_curve curve (Affine x Zmod.zero) -> Zmod.to_Z x ^ 3 mod cP curve = -7 mod cP curve.
Proof.
  unfold on_curve, fa, fb. intros -> -> Hp. cbn [EcGroup.on_curve]. rewrite Zmod.of_Z_0, Zmod.mul_0_l, Zmod.mul_0_l, Zmod.add_0_r. intros E.
  apply Zmod.of_Z_inj. rewrite <- (Zmod.of_Z_to_Z x) in E.
  change (-7) with (- (7)). rewrite (Zmod.of_Z_opp 7). replace (Zmod.to_Z x ^ 3) with (Zmod.to_Z x * Zmod.to_Z x * Zmod.to_Z x) by ring.
  rewrite !Zmod.of_Z_mul. symmetry in E. apply Zmod.sub_eq_0. rewrite <- Zmod.add_opp_r, Zmod.opp_opp. exact E.
Qed.

#[export] Instance secp256k1_base : CurveBase secp256k1.
Proof.
  split.
  - apply secp256k1_prime_ok.
  - rewrite secp256k1_P. apply secp256k1_p_prime.
  - done.
  - split; [apply normalized_b_ok; vm_compute; reflexivity|]. vm_compute. done.
  - done.
  - vm_compute. done.
  - vm_compute. done.
  - intros x Hc. apply (on_curve_cube secp256k1) in Hc; [|reflexivity..]. revert Hc. apply (no_cube _ ((secp256k1_p - 1) / 3)).
    + rewrite secp256k1_P. apply secp256k1_p_prime.
    + vm_compute. reflexivity.
    + vm_compute. discriminate.
    + vm_compute. discriminate.
    + rewrite secp256k1_P, <- cube_power. apply Z.eqb_neq, cube_check_ok.
Qed.

(** ** Checks of sums *)

(** Twice 256 bits modulo p = 2^256 - c: the high half times c. *)
Definition fold_c : Z := 2 ^ 32 + 977.
Definition fold_high (x : Z) : Z := let h := Z.shiftr x 256 in x - Z.shiftl h 256 + fold_c * h.
Definition zero_b (x : Z) : bool :=
  let r := fold_high (fold_high (fold_high x)) in (r =? 0) || (r =? secp256k1_p).

Definition in_field (q : Z * Z) : bool :=
  let '(x, y) := q in (0 <=? x) && (x <? secp256k1_p) && (0 <=? y) && (y <? secp256k1_p).

(** q3 is the third point, reflected, of the line of slope [l] through q1 and a
    point of abscissa [x2]. *)
Definition third_b (l : Z) (q1 : Z * Z) (x2 : Z) (q3 : Z * Z) : bool :=
  let '(x1, y1) := q1 in
  let '(x3, y3) := q3 in
  zero_b (l * l - x1 - x2 - x3) && zero_b (l * (x1 - x3) - y1 - y3).

Definition chord_b (l : Z) (q1 q2 q3 : Z * Z) : bool :=
  let '(x1, y1) := q1 in
  let '(x2, y2) := q2 in
  in_field q1 && in_field q2 && negb (x1 =? x2) && zero_b (l * (x1 - x2) - (y1 - y2)) && third_b l q1 x2 q3.

Definition tangent_b (l : Z) (q1 q3 : Z * Z) : bool :=
  let '(x1, y1) := q1 in
  in_field q1 && negb (y1 =? 0) && zero_b (l * (y1 + y1) - 3 * (x1 * x1)) && third_b l q1 x1 q3.

(** *** The table, row by row *)

(** Twice the first point with its slope, the slopes from a point to the next one,
    and the slope from the last one to the first point of the next row. *)
Record row_cert := RowCert { rc_l : Z; rc_d : Z * Z; rc_ls : list Z; rc_next : Z }.

Definition pt (q : curve_point) : Z * Z := (bn_val (cx q), bn_val (cy q)).
Definition entry (row : list curve_point) (j : nat) : curve_point := nth j row no_point.
Definition limbs_b (q : curve_point) : bool := normalized_b (cx q) && normalized_b (cy q) && in_field (pt q).

Fixpoint row_rest_b (d : Z * Z) (ls : list Z) (prev : curve_point) (row : list curve_point) : bool :=
  match ls, row with
  | [], [] => true
  | l :: ls, q :: row => chord_b l (pt prev) d (pt q) && row_rest_b d ls q row
  | _, _ => false
  end.

Definition row_b (c : row_cert) (row : list curve_point) : bool :=
  (length row =? 8)%nat && forallb limbs_b row &&
  match row with
  | q :: row => tangent_b (rc_l c) (pt q) (rc_d c) && row_rest_b (rc_d c) (rc_ls c) q row
  | [] => false
  end.

Fixpoint rows_b (cs : list row_cert) (rows : list (list curve_point)) : bool :=
  match cs, rows with
  | [], [] => true
  | c :: cs, row :: rows =>
      row_b c row &&
      match rows with
      | [] => true
      | row' :: _ => chord_b (rc_next c) (pt (entry row 7)) (pt (entry row 0)) (pt (entry row' 0))
      end && rows_b cs rows
  | _, _ => false
  end.

(** *** The order: the sum of the digits of N *)

Definition negate_b (q : Z * Z) : Z * Z := (fst q, secp256k1_p - snd q).

Fixpoint sum_b (steps : list (Z * (Z * Z))) (acc : Z * Z) (qs : list (Z * Z)) : bool :=
  match steps, qs with
  | (l, r) :: steps, q :: qs => chord_b l q acc r && sum_b steps r qs
  | [], [q] => (fst q =? fst acc) && (snd q =? secp256k1_p - snd acc)
  | _, _ => false
  end.

(** Digit [i] of [A] times 16^i, and the point of the table for it. *)
Definition term (rows : list (list curve_point)) (A i : Z) : Z * (Z * Z) :=
  let d := digit A i in
  let q := pt (znth no_point (znth [] rows i) ((Z.abs d - 1) / 2)) in
  (d * 16 ^ i, if d <? 0 then negate_b q else q).

Local Abbreviation fe := (Zmod.of_Z (cP secp256k1)).
Definition aff (q : Z * Z) : @point (Zmod (cP secp256k1)) := Affine (fe (fst q)) (fe (snd q)).

Lemma fold_high_ok x : fold_high x mod cP secp256k1 = x mod cP secp256k1.
Proof.
  unfold fold_high. rewrite Z.shiftl_mul_pow2 by lia. set (h := Z.shiftr x 256).
  replace (x - h * 2 ^ 256 + fold_c * h) with (x - h * cP secp256k1); [apply mod_sub_mul; by vm_compute|].
  replace (cP secp256k1) with (2 ^ 256 - fold_c) by (vm_compute; reflexivity). ring.
Qed.

Lemma zero_ok x : zero_b x = true -> fe x = Zmod.zero.
Proof.
  unfold zero_b. intros H. rewrite <- Zmod.of_Z_0. apply Zmod.of_Z_inj. rewrite Z.mod_0_l by (by vm_compute).
  rewrite <- fold_high_ok, <- (fold_high_ok (fold_high x)), <- (fold_high_ok (fold_high (fold_high x))).
  set (r := fold_high _) in *. apply orb_prop in H as [H|H]; apply Z.eqb_eq in H; rewrite H; [by vm_compute|].
  rewrite secp256k1_P. apply Z.mod_same. by vm_compute.
Qed.

Lemma in_field_inj x y : 0 <= x < secp256k1_p -> 0 <= y < secp256k1_p -> fe x = fe y -> x = y.
Proof.
  intros Hx Hy E. apply Zmod.of_Z_inj in E. rewrite secp256k1_P in E. by rewrite !Z.mod_small in E by done.
Qed.

Lemma third_ok l q1 x2 q3 : third_b l q1 x2 q3 = true ->
  ec_third secp256k1 (fe l) (fe (fst q1)) (fe (snd q1)) (fe x2) = aff q3.
Proof.
  destruct q1 as [x1 y1], q3 as [x3 y3]. unfold third_b. intros [H1 H2]%andb_prop. apply zero_ok in H1, H2.
  rewrite !Zmod.of_Z_sub in H1. rewrite !Zmod.of_Z_sub, Zmod.of_Z_mul, Zmod.of_Z_sub in H2. rewrite Zmod.of_Z_mul in H1.
  apply Zmod.sub_eq_0 in H1, H2. unfold ec_third, EcGroup.third, aff. cbn [fst snd]. by rewrite H1, H2.
Qed.

Section Sums.
Variable g : @point (Zmod (cP secp256k1)).
Hypothesis Hg : on_curve secp256k1 g.
Local Abbreviation T n := (ec_times secp256k1 n g).

Lemma T_on n q : T n = q -> on_curve secp256k1 q.
Proof. intros <-. by apply (ec_times_on_curve secp256k1). Qed.

Lemma chord_ok l m n q1 q2 q3 : T m = aff q1 -> T n = aff q2 -> chord_b l q1 q2 q3 = true -> T (m + n) = aff q3.
Proof.
  intros H1 H2 H. destruct q1 as [x1 y1], q2 as [x2 y2]. unfold chord_b, in_field in H.
  apply andb_prop in H as [H H3]. apply andb_prop in H as [H Hc]. apply zero_ok in Hc. zbool.
  rewrite (ec_times_add secp256k1), H1, H2 by done. change (aff (x1, y1)) with (Affine (fe x1) (fe y1)) in *. change (aff (x2, y2)) with (Affine (fe x2) (fe y2)) in *.
  assert (Hx : fe x1 <> fe x2) by (intros E; apply in_field_inj in E; lia).
  destruct (ec_slope_add secp256k1 (fe x1) (fe y1) (fe x2) (fe y2)) as (k & Hk & ->); [by apply T_on in H1|by apply T_on in H2|tauto|].
  rewrite <- (third_ok l (x1, y1) x2 q3) by done. cbn [fst snd]. f_equal. destruct Hk as [Hk _].
  rewrite Zmod.of_Z_sub, Zmod.of_Z_mul, !Zmod.of_Z_sub in Hc. apply Zmod.sub_eq_0 in Hc.
  apply (Zmod.mul_cancel_l_prime (Zmod.sub (fe x1) (fe x2))); [apply (ok_P secp256k1)|by rewrite Zmod.sub_eq_0_iff|].
  by rewrite (Zmod.mul_comm _ k), (Zmod.mul_comm _ (fe l)), Hk, Hc.
Qed.

Lemma tangent_ok l m q1 q3 : T m = aff q1 -> tangent_b l q1 q3 = true -> T (m + m) = aff q3.
Proof.
  intros H1 H. destruct q1 as [x1 y1]. unfold tangent_b, in_field in H.
  apply andb_prop in H as [H H3]. apply andb_prop in H as [H Hc]. apply zero_ok in Hc. zbool.
  rewrite (ec_times_add secp256k1), H1 by done. change (aff (x1, y1)) with (Affine (fe x1) (fe y1)) in *. pose proof (T_on _ _ H1) as C1.
  assert (Hy : fe y1 <> Zmod.zero) by (intros E; rewrite <- Zmod.of_Z_0 in E; apply in_field_inj in E; lia).
  assert (Hop : ~ (fe x1 = fe x1 /\ fe y1 = Zmod.opp (fe y1))) by (intros [_ E]; by apply Hy, (self_opposite secp256k1)).
  rewrite (ec_add_third secp256k1 (fe l)); [by apply (third_ok l (x1, y1) x1 q3)|done|done|done|].
  rewrite !Zmod.of_Z_sub, !Zmod.of_Z_mul, Zmod.of_Z_add in Hc. apply Zmod.sub_eq_0 in Hc. split.
  - rewrite !Zmod.sub_same. apply Zmod.mul_0_r.
  - rewrite Hc, (fe_3 secp256k1), !Zmod.mul_add_l, !Zmod.mul_1_l. change (fa secp256k1) with (fe 0).
    by rewrite Zmod.of_Z_0, Zmod.add_0_r.
Qed.

(** A row that passes holds the odd multiples of its first point. *)
Lemma row_rest_ok d m ls : forall prev row k, T (2 * m) = aff d -> T (k * m) = aff (pt prev) ->
  row_rest_b d ls prev row = true -> forall j, (j < length row)%nat -> T ((k + 2 * (Z.of_nat j + 1)) * m) = aff (pt (entry row j)).
Proof.
  induction ls as [|l ls IH]; intros prev [|q row] k Hd Hk H j Hj; cbn [row_rest_b length] in H, Hj; try (done || lia).
  apply andb_prop in H as [Hq H]. pose proof (chord_ok _ _ _ _ _ _ Hk Hd Hq) as Eq.
  replace (k * m + 2 * m) with ((k + 2) * m) in Eq by lia. destruct j as [|j].
  - replace ((k + 2 * (Z.of_nat 0 + 1)) * m) with ((k + 2) * m) by lia. done.
  - replace ((k + 2 * (Z.of_nat (S j) + 1)) * m) with ((k + 2 + 2 * (Z.of_nat j + 1)) * m) by lia.
    apply (IH q row (k + 2)); [done..|lia].
Qed.

Lemma row_ok c row m : row_b c row = true -> T m = aff (pt (entry row 0)) ->
  length row = 8%nat /\ forall j, (j < 8)%nat -> limbs_b (entry row j) = true /\ T ((2 * Z.of_nat j + 1) * m) = aff (pt (entry row j)).
Proof.
  unfold row_b. intros H Hm. apply andb_prop in H as [H Hr]. apply andb_prop in H as [Hl Hf]. apply Nat.eqb_eq in Hl. split; [done|].
  intros j Hj. split.
  - rewrite forallb_forall in Hf. apply Hf, nth_In. lia.
  - destruct row as [|q row]; [done|]. apply andb_prop in Hr as [Ht Hr]. cbn [entry nth] in Hm.
    destruct j as [|j]; [by replace ((2 * Z.of_nat 0 + 1) * m) with m by lia|].
    pose proof (tangent_ok _ _ _ _ Hm Ht) as Hd. replace (m + m) with (2 * m) in Hd by lia.
    replace ((2 * Z.of_nat (S j) + 1) * m) with ((1 + 2 * (Z.of_nat j + 1)) * m) by lia.
    apply (row_rest_ok _ _ (rc_ls c) q row 1 Hd); [by rewrite Z.mul_1_l|done|cbn in Hl; lia].
Qed.

Lemma rows_ok cs : forall rows m, rows_b cs rows = true -> T m = aff (pt (entry (hd [] rows) 0)) ->
  forall i j, (i < length rows)%nat -> (j < 8)%nat ->
  limbs_b (entry (nth i rows []) j) = true /\ T ((2 * Z.of_nat j + 1) * (m * 16 ^ Z.of_nat i)) = aff (pt (entry (nth i rows []) j)).
Proof.
  induction cs as [|c cs IH]; intros [|row rows] m H Hm i j Hi Hj; cbn [rows_b] in H; try (done || (cbn in Hi; lia)).
  apply andb_prop in H as [H Hrs]. apply andb_prop in H as [Hr Hn]. destruct (row_ok c row m Hr Hm) as [_ He].
  destruct i as [|i].
  - replace (m * 16 ^ Z.of_nat 0) with m by (rewrite Z.pow_0_r; lia). by apply He.
  - destruct rows as [|row' rows]; [cbn in Hi; lia|]. destruct (He 7%nat ltac:(lia)) as [_ H7]. destruct (He 0%nat ltac:(lia)) as [_ H0].
    pose proof (chord_ok _ _ _ _ _ _ H7 H0 Hn) as Hnext.
    replace ((2 * Z.of_nat 7 + 1) * m + (2 * Z.of_nat 0 + 1) * m) with (m * 16) in Hnext by lia.
    replace (m * 16 ^ Z.of_nat (S i)) with (m * 16 * 16 ^ Z.of_nat i) by (rewrite Nat2Z.inj_succ, Z.pow_succ_r by lia; lia).
    apply (IH (row' :: rows)); [done|done|cbn in Hi |- *; lia|done].
Qed.

Lemma negate_ok m q : T m = aff q -> in_field q = true -> T (- m) = aff (negate_b q).
Proof.
  intros E Hq. rewrite (ec_times_neg secp256k1), E. unfold aff, negate_b, ec_neg, EcGroup.negate. cbn [fst snd]. f_equal. rewrite <- Zmod.of_Z_opp. apply Zmod.of_Z_inj.
  rewrite secp256k1_P. replace (secp256k1_p - snd q) with (- snd q + 1 * secp256k1_p) by lia. symmetry. apply Z.mod_add. by vm_compute.
Qed.

Lemma sum_ok steps : forall m acc ns qs, T m = aff acc -> Forall2 (fun n q => T n = aff q) ns qs -> in_field acc = true ->
  Forall (fun q => in_field q = true) (map snd steps) -> sum_b steps acc qs = true -> T (m + foldr Z.add 0 ns) = Infinity.
Proof.
  induction steps as [|[l r] steps IH]; intros m acc ns qs Hm HF Ha Hs H; destruct HF as [|n q ns qs Hq HF]; cbn [sum_b] in H; try done.
  - destruct HF as [|n' q' ns qs Hq' HF]; [|done]. apply andb_prop in H as [Hx Hy]. apply Z.eqb_eq in Hx, Hy. cbn [foldr].
    rewrite Z.add_0_r, (ec_times_add secp256k1), Hm, Hq by done. assert (E : q = negate_b acc) by (destruct q; cbn in *; by subst).
    pose proof (negate_ok _ _ Hm Ha) as En. rewrite <- E in En. rewrite <- En, <- Hm, <- (ec_times_add secp256k1) by done.
    by rewrite Z.add_opp_diag_r.
  - apply andb_prop in H as [Hc H]. apply Forall_cons_1 in Hs as [Hr Hs]. cbn [foldr].
    replace (m + (n + foldr Z.add 0 ns)) with ((n + m) + foldr Z.add 0 ns) by lia.
    apply (IH _ r _ qs); [by eapply chord_ok|done..].
Qed.

End Sums.

(** ** Certificates *)

Definition secp256k1_rows : list row_cert :=
  [RowCert 0xcb35b28428101a303eb9d1235992ac63f58857c2f631ee6936d3aebbeddcd1b1 (0xc6047f9441ed7d6d3045406e95c07cd85c778e4b8cef3ca7abac09b95c709ee5, 0x1ae168fea63dc339a3c58419466ceaeef7f632653266d0e1236431a950cfe52a)
     [0x342119815c0f816f31f431a9fe98a6c76d11425ecaeaecf2d0ef6def197c56b0;
      0xb96755a5aa4a37e34d58d463a547b56fcf0ceee65a20052241a3425b10fdc015;
      0x34b624a49fa5aca121c4301a49339f74e51b7a580650e8e53efcabd644b87c4;
      0xcbe159daf398ee5fb621f8a916221c8ce6bdcd3e2295d44d29ec8a87924b2b63;
      0x53facbed580953c9d1732da8795d9db5ad651182ff845923bf0ed9efaf075c88;
      0x59a555539aa1e85f024b89e7b3299adc3dc9d56459d9c4f71711ed3cf915f3ad;
      0x37757e9ad5f9b72ecc0a64292bb6a15916d5c53cca0adc067d420985fbb3cf81] 0xbe141d8262c4836bd89e84b21a7ec1d11eaa5f6825c50dc3deb18d76707bdc51;
   RowCert 0xb68c9cb56c4f0fd3279f2dec6acae3ffbacfb8384548d24892d676cd6beacbf5 (0xd30199d74fb5a22d47b6e054e2f378cedacffcb89904a61d75d0dbd407143e65, 0x95038d9d0ae3d5c3b3d6dec9e98380651f760cc364ed819605b3ff1f24106ab9)
     [0xeff4b297af72a144a3958712d0942215ec24c4e352b0938e36d133eb8562a8ae;
      0x6fb8aae470da0e005dedfdac81640b4c183b60c58b49c28a9f3dda8615e7bf1e;
      0x6aaf246dead1deeac13bfe84ae30f17ccaa26004140556b9a1ce588f016c7264;
      0x9635ca281ee55f39e79860f3fb430e8f1d8e5de89a444008ba3f5b8bd1add666;
      0x812650e514797d10de16ad43ee2d446ab8a577061d7c752d7e2b69ed25e3e301;
      0xdbae3dd24009775597cf8bbb03228a8d4f62602ee022f9cba7bbd19634a10243;
      0x932fdb0c5b018614c75f663fa2452262e6b63049889a3f54f90f69698c606003] 0xc4271220634f883cc03bb25fe5f11404989f100fa977e1f61e5986a1dcc11ef3;
   RowCert 0xed7816fe6ca3e42058b150c9eeac31ef8a6bda7ee9e51a0ec33e09f96afc74bc (0x465370b287a79ff3905a857a9cf918d50adbc968d9e159d0926e2c00ef34a24d, 0x35e531b38368c082a4af8bdafdeec2c1588e09b215d37a10a2f8fb20b33887f4)
     [0x90ec547aa45814b3d84e0d30665b5fb1513d4c747c8046302221ba9499e36930;
      0xe33e25587633388ff70219fb934a81e4321c2349d8c88f47512faf557c62f87a;
      0x802d014a199a942de72c5ba45ac4a08ba3c41d9caa081d34cfc092140ba999b8;
      0xa2a3529bb2e24a36d573db30a6c6cfa1eb4aeef2b024820a1a76c02a46d3d297;
      0x3cb1baebd532623b16be4610e39cbdf876d285e70c8061fbb77911a88b7e86a4;
      0x7a7decea5cdf39eb1922bdebfa9faa53c96a4b2edc80ece9e98b9f92f4f5a7a9;
      0x9665bbc166a1cd984cd5391388480ccc54eb23bfa21246a2fbf6cb47b6509d57] 0xb616a5cc4a66c802a178f7e87006468c04ffc8a42906502943f3a2893ef25626;
   RowCert 0xca43b3ab114e7c697fee873576d7b89f909e0592f9e805e00246c31200fb967b (0x423a013f03ff32d7a5ffbcc8e139c62130fdfeb5c6da121bce78049e46bc47d6, 0xb91ae00fe1e1d970a1179f7bbaf6b3c7720d8ec3524f009ed1236e6d8b548a34)
     [0xba893b5329aa5648b63c21b3214d40a41e37e6a0566848b5dcdcfc8a25ffb38d;
      0xd0d42fb33f87be82ba979024cdfbaf973ed054518b3edaeb8fd37e9113cb59ea;
      0xbd82f91810c63fbc376d769f32a16adefa1159cd03ded9ff6f38fbd164abeacb;
      0x4870c5c8bb550403859ff7d2c3474a181a0b8c50a9f61fd5d14a0730fe14fbd4;
      0x26e25256db8ef64fc1c27641ff20f76aaa8930c2a7099454718a8c7674391ce3;
      0x3f55847cb65e3e5b681c74af320f14e13694afa399fdc1224474ed4b5e4631b2;
      0x8deaca29d939d060db4404de4e3683d00f9403a0fcbe2c0eb516b760fc7010f5] 0x63bc1acae5d5173f0e9666e6bc1cbd310703abd0e4ee8a0eda6879c85bc364df;
   RowCert 0xbe610814de113647213fff8fc6378b31333e2bac4ac437ff9a702a6734563c9 (0x4c1b9866ed9a7e9b553973c6c93b02bf0b62fb012edfb59dd2712a5caf92c541, 0xc1f792d320be8a0f7fbcb753ce56e69cc652ead7e43eb1ad72c4f3fdc68fe020)
     [0xea08aa55361098bc4ad36448da2c8085fc64b56a1006604b8d9209af1a058dae;
      0xbb7fd470bfb368dd113be247ec2e8e688e795c1c4371d73ffe2bf273bd9e272b;
      0x5f2916fdc864097c3b5e35856dbb77180abc707f48f07d71767650c8a3a2fb03;
      0xd350786dbd244f14af84e979f3e36e6abeb3ce23c93fe0dd4a958d6b7b73b1ab;
      0x234a75f5a562cfd775844e95f3245999e04a957f5b81c61eac114bc682c67046;
      0xac124dab987420e41114d4667ad14f1062c484315c535bfda53229aa02176c5e;
      0x1ba64cbfa0dbc727245d30fae908cc5840856bc769a6cde594536088a5a71e4] 0xadf729d9ef49bfcd985a14d9b1d650d9a463318652064575c456889c62d11796;
   RowCert 0xec7e64a924b93bbe0b71cb15729ff63848d6104ae7d55a16ed4a41d45b8fe684 (0xed0c5ce4e13291718ce17c7ec83c611071af64ee417c997abb3f26714755e4be, 0x221a9fc7bc2345bdbf3dad7f5a7ea68049d93925763ddab163f9fa6ea07bf42f)
     [0x1c2cde1e34307acfbeb73cb069cf328f4b075e3b3430da8f562b33d2fab6abfd;
      0xe54ba2feff2a086b60d879534e5e4eda0430aba6dc705f285761f8c86bcaa65c;
      0x17ea4548418de74d0c94069f164d05a78a51a5e602f374d30c27994d7a756db3;
      0x7d1246ffb8cd2cba7dbfbb19a73e12e527ce67207d4271b0c992afb3f8ad4a02;
      0xa88ec21174be559eb31945215e9ea5a044b4a9e63581f7b05e8e8ee1a80beefa;
      0x7a20136d47df614337f4f9ee475a5f1574b1ce88391d37235793cc0062d163be;
      0x988549c138429de21eb00ac8c34d7508db0f09706ac7e1b6cd33299c7fa998b2] 0x9c32c2aa6b5d3ea9f061072873420bd2a004f16ab8b64413ff5a869eb535f4;
   RowCert 0xc985b179caa5bee0ef6acefc42c0dec227b196c5dbd0953cc43c5868392e7cd3 (0x57efa786437b744d343d7dc45773a3c62d240a43079849071fd383d60ca030d5, 0xd712db0bd1b48518893627c928de03ec689b6d2ae5e9974ab07ab44274b02f9e)
     [0x763e5105893ee9da8d95edb04989f5b32792a272d4bebcf53e8945d7a87ac229;
      0x6963efd68df6607bb5b20b51dc7929bdb8f7c5c08183b7bca003ab72812bc6de;
      0x23b768d637df67a8a25f25d483f516733144cdedcf6777bb8d19c13b917012ef;
      0xe182ee6aaf38a6989aa43beab5cb99208b9cebbaec753aa94e4c84500724198f;
      0x1bd9741378c465462af137f5a17d417aa9a7b541c135be74a2b9718401cb07ca;
      0xe3395c863f727506c9f1ed029731251ff11fa1e794ac26041eab4b673320e381;
      0xd10da0a6b4ee19c057f567ca8b67f05460cf82e35c0db5c522b5dc0ea9eccf0d] 0xf71843ffd6b2254bc57231c6ddee21bf05f5391959c24d6556e7ac4889e37a31;
   RowCert 0xa6a6f72a0273aa6f7b6276e647117f1c0e9f5561a551c6238ec167ba7ac03635 (0x381c4ad7a7a97bfda61c6031c118495fc4ea4bc08f6766d676bee90847d297fd, 0x936af53b238eeee48f3e5fa709915eccf0451032db939c0093ace3187d493fc5)
     [0x89bd2ca90b5ae8c8d6e00213cfef1b782992b64d27b8c07cfdfd48ad10188f1d;
      0xe58e2cb1f0858cb34c7487b590cbb018cbd30c790c40632642ecc29ab84b326;
      0x15659a9b574c68968654c7ce834d45dc0a948f346dfa9037f9e6fe415ae9201e;
      0xa0860817985803fbfc326bc21bd09d9e140e309ba5377f52c7aa57612cc7c655;
      0x23ea941343a5fc0dbdb08e8aca458403f381cf42c475552ce80db8f575e3163d;
      0x244df413d2d1ace83256ba82e7ee088c81970f5cd7f52902a3c3290fcbb4a100;
      0xa33e7c5eed6c696651609162d1ea6f9426444d1125a167cbf5bbf8564eb4863a] 0x6a7d54d53b9d4a6eaf795d508a547eb4a63b3b95175c01259b52377b214ff0d5;
   RowCert 0x82cd82212ae9dbf4101c8671a40de941c0bc39b23359c41063b171fe4cbf7c6a (0x8c0989f2ceb5c771a8415dff2b4c4199d8d9c8f9237d08084b05284f1e4df706, 0xfb4dbd044f432034ffd2172cb9dc966c60de6bf5156511aa736ac5a35d72fa98)
     [0xf07e5f7a0b2cdebc6aa18f07b51a644de0623c3dd91df7e7c8262a534ef6f966;
      0xacec251fe5efd871fa7335467feace0cb4759c915f18dab751fd2598c82d7ddf;
      0x58432e36718139373880da3558a260af157409fb75a6499efdc350d1e14da19e;
      0xf4f8c011d07b732089acc5f7e280dd00bca0b4c660a26dcc438f681866bc2501;
      0xc2ed3c7116fe1390f8cbb521a1101cb61f75d4d2becae17a6566a8e1c2b3862e;
      0xa324377edbd1dcb4047955cf45f5f9c97b55757c7952c15efcf7209e5fb28f77;
      0xd4e200e816fff1114b83b3cae98ae0980a76ab3b353b6796743f7f53571ef1b0] 0x1ab56cda4f8cc4b9cf04514c018b2273627b68b090b04c9cbaa713d8c8b710c7;
   RowCert 0x27923dd35874b9d0c3e1b1930352c0c3b0d91412f38fa8c1341f5a73beb4f8b9 (0xf4b93f224c8089eab9f95dcd0f29b2c9028a6ac5de94d85784e27e36a95c8356, 0xa67a92ec062962dfb0e5f6a7a40eee90c37ef1344915609abd5861b9be001fd3)
     [0x7582ca93e9ef21ff43d542f9fd4486770f1dd809ec21f1ac8f0d5b3ef26a1f5e;
      0x3da18d0e9c78b3e89f2cc4a235341f7f5683e242ee02674da7698b46ed6fe699;
      0xf9dfbfe41a9cd320987c3caf03d887a75647a2c7585ee7b77fe8230a40eb3d0f;
      0xe93ab533710b7bde49eabac0c0adb08bdb43b89c1b218f4124596d06c5eaae7;
      0x87dda101325cacf71b708d85386afcba1dbc5a8fb690bbb796dbff98793fda4b;
      0xe7c25fb1a345a0af02246e1dbd5e6b7712e7a51cc5101fb83dd23ed75281a526;
      0xc30607dd49e1e8ac62a411730bf07f278c79702f689a70bb6fe0a2816c9e836f] 0x9d9ce26c3d988d1e2d85e08fc1c030c70707303dcca9ed50f4b1c495bfa8e9b7;
   RowCert 0x32f78aa8da44cbc85c1d785fb24f0e7f0da8ec5386523d436bb3a50d1e52fb8c (0x4d000b621adb87e1c53261af9db2e179141ecae0b331a1870aa4040aee752b08, 0x6a0d5b8f18e0d255cb6d825582d972cccb7df5f119c7293a3e72851f48302cea)
     [0x44c52f97ffaad00c5e44485423230728b195bded59de910550e2ddd5b114f2ed;
      0xc3133b5ab074b8fd1e66bcb97646197bd228a606a59eae82d2eccb54d9a81e33;
      0x78ef7d841a91c2adbf8d32379c8cc01dc8b8fa28452058fa5b1f32e0ea17a7be;
      0xa6b23b5648b63f4d60b891d850cf9fbf493295af1b71e8d0d5f1c6f560f115b;
      0x55cd678c9142c4460a6bd568ed6f4d0c5f9f95b093c1d2a7a2120e1678d8b351;
      0x4cc6d9ab4eea6f2a024c44351b028ad4844d95155a070d9f175299c74f448d16;
      0x58d5cfdcef448df88f04325891f97d7748672d6e6395e80cdf9e295bc429232a] 0x9cc4a3bb1c210723fe5a3d4ffa76140a0fa18fe8ffb3274f10e7464747df438c;
   RowCert 0xea6ec05c50822815af2653e43c1adabb3be24e602591c72373d731cc1a44a051 (0x4dbacd365fa1ef587c0c0cfaaf00d8718bbd9f35ccea5a835ee3cc821fe741c9, 0x16c3540e8a51892e7fdcfd59e838299d0cc384a09fc0535f60be10f8338eb623)
     [0x59ac5f27f3433dedde6723efe462e1983de81e71abacd37fad50f35f07ad253f;
      0x7bf22977afa4154116d3478e36decb29aac98dd2e88d1898ecc52d0df0117ca1;
      0x941dc4a670d02e44514658b07ff7c1a4552fab817a22443ba237a48fd02732e5;
      0x53a83c47d5d33026f6c6f35c49cc55ff0ae493442c084c8754a5a4b8a0dae0a9;
      0x7bc05031acb3faa5589d8a9e1e2d0b12c30b471882571caf6bc187c71bc4d243;
      0x47e06e4e06f3d2343aed9cda3c3142662bbede4ad393ebf78375f55a1323218e;
      0x9703fb70cc5a4c42316865263aecf7832efa49a89bb46023b647c4b8a375a3df] 0x1bad58933a852580e9e3750c614d1c39d9d4f8c7814a897e5a1ceeb0461a0cda;
   RowCert 0xdfada4b2106cac4951ec538f3d828576d57426ebe0d870d5e091e5b044aa5639 (0x1a575af9d4146753cf991196316995d2a6ee7aaad0f85ad57cd0f1f38a47ca9, 0x3038f1cb8ab20dc3cc55fc52e1bb8698bdb93c5d9f4d7ea667c5df2e77ebcdb7)
     [0xf0b3b66a959fc7bb49adf2d28fdf865989c2047a537b02eca98551e7ca4dd1a3;
      0x3e968b8961d1d9d52ab4c90d4f781179b2204edfab6af6c5f995a6216968409d;
      0xfc1c970f215921a4e7589316f5b65a0b40f087a435670b13341ff363dd3aa95c;
      0x694bb79f30fda9ccdcccd2dacb4e7e15ac57841736e61aeaac87ce9cfeb55b6c;
      0x450501febdf52acbc4bbab08ea6efa6e871e30b8eb3e37087fc07f529d8914b5;
      0xe243725f30b46f3da26c505f12710356f48774c21d988aea974e5dd90430cc41;
      0x43fd8e98e00e9faff0eff1481585c4098ab05f35830e0084d647efc2145a1f4c] 0x14778336ac03f179e8843de92a4f056ffc5b8218968815d55f727f05f676339b;
   RowCert 0xff486a88ac95151d852a5270924d4ccf1fff7b676398e499d324893a4bbb576c (0x33b35baa195e729dc350f319996950df3bc15b8d3d0389e777d2808bf13f0351, 0xa58a0185640abf87f9464036248d52bcaa6560efbc889b702bc503cccb8d7418)
     [0xda421b70f9a2d87cca33110c6386f7e1dc520ba57e682cc22945a6ab183275f8;
      0xba777a973ccf143a0b5407a560bb4c9b487da5fb356cb3996e628ebd8757c561;
      0x165d7ce5eac0b1546f7bd761f70e261012192c823c3db7a881d2004319396ba6;
      0xaaac83207bbdb989a71bf8486d0dc5d8cd663e89ddf0d0298e7a539736d8528a;
      0x5f0df2f09f4bd0c3d53717b5d5eb5df4ed80fbf6edd417d1bae0a1eefeb431df;
      0xb97fcbac6b4bc317e426fc795c81f1902959aa94c1229d32c51b2258d4a4b3e;
      0xcba734006201456f43f0d12aae22a2217852ffa1ca9cc539ad2559933d9403d] 0x5fa81e96e529e6ae7a7f9740064adf8ad5a069454329548df246e7749e319431;
   RowCert 0x738fd7bbbe9afd0e286fa67c1b3d9d1d4306cf1d91327714eb87d7e6678bcdb6 (0xf6f622083daf54800456be134d5f67d147c82642befc1ce2dc83a27078f2827c, 0x1bcd4e817de73a0faf2c5715b367cee7e657ca7448321bf6d15b20b520aaa102)
     [0xe95bbefd868554d07575a7a1c5ba54bcbb752782c9beea522c380640af30eb7b;
      0x476dc33e4fc21d038ca22bf14efc68631a735c71fba97c6c911bd34729efe0f9;
      0xe4e8a1c100f130cbee46cbf1efeddf58e85fc25b83d3186c16af512790fb6234;
      0x134ff7a76e990fdaacf71be54beb013a77312f46f8ad82df3ca350deab5dca13;
      0xd353d23eb440df827a4ba71f8899a029a1ea52dc7249e0941d8d36f26746f054;
      0x9f1624a76e53c52cae220cf26c5344d9483740d7247522784924ce65184b8bef;
      0xc941568c8ada2f8927c5d6aa12570dc77fef142aded3b334875d5cdb8e6b121c] 0x3926ffc9275fc91cc17ddd98e2cb925d6f0d9cc712163e6d8ce6767925f554ec;
   RowCert 0x61ff0b09e723c8829eb256b349701c992867da5babb9246b4e80f4a06a7739aa (0xae86eeea252b411c1cdc36c284482939da1745e5a7e4da175c9d22744b7fd72d, 0x19e993c9707302f962ab0ace589ff0e98d9211551472f7282334cb7a4eee38bc)
     [0xd03cd8d63c1e7e7e68fe0bd992f689e6a8d246b78606a38278eb11912ee5cef3;
      0xfc9d7681f4a0a555a09a6f5bb02f13acbfaf1f80f4b937de127552b63b4ccdb9;
      0x598da92acf33c067b039bf0da3606389537198a64e46a937f6bcff840ef731ab;
      0xf1057b9e87c094827a8c8104d78c834a653d143f9a5acd03345866c593cf3599;
      0xdcf7adb7d8dd0de66dd7fad7bd1d232f86e56035587018e7c2a946d21c52a2e7;
      0x87a84441f0d70c46cb6fd78303714ae25b481fef2228b9f3cda712d237cbfa4;
      0x61eb2cc8d04b5a24f4360c82af7a18301358e17b245e974a3f0f43ce5f785e8f] 0x181257999e83dc416fc55723b0da050c95bb486152b8ae743fb685031ec3238e;
   RowCert 0x5e1c71fb55e898f6e64912dece2b8a3d031f1eaee2af6f37ebd48ca94c1a3624 (0x8d26200250cebdae120ef31b04c80cd50d4cddc8eadbcf29fc696d32c0ade462, 0xebed3bb4715bf437d31f6f2dc3ee36ba1d4afb4e72678b3ad8e0a8b90f26470c)
     [0x3ba3fba731907a7863c1b48672c7eb3c04556896261d9ab576bb04bbb9be057b;
      0x56b37f5de27b31f28a65e0ffe89cca1bd25b83f7198e5277607e0e30a959895;
      0x9e71bb62260e4ccaec0840b1f53bef2dc2a2ba84c5614146762db5ad2b6864df;
      0x29bd8dbcf0a470799504b721707bdbd659e905ac20bd8b849b1118a088bb0d98;
      0x6e42ec96ae737b523c1209c5257cab04c90944e45f5171b891e231e498978d1b;
      0x8c4d83bed2f23abb08f269f933d660d1c4b2925717500d43a02c6c67bae84b8;
      0x74d54f446652941ac3b0b00306c2afa6d8fdf2928850de459aa03e80fd14a1ad] 0xf95a10c6e4cf5cbab00569ccf84e753ea0bf219e9bc190bbfa420544ae6d1642;
   RowCert 0xad98ae499f8b968dacfaf69097db01061deecdd4b8b7fe434720aaf6131a6fc1 (0x534ccf6b740f9ec036c1861215c8a61f3b89ea46df2e6d96998b90bc1f17fc25, 0xd5715cb09c8b2ddb462ae3dd32d543550ae3d277bfdd28ddd71c7f6ecfe86e76)
     [0x71283c9912b0465ee4d23f2be12122e1ab316671ff897630e6988d14919efebd;
      0xd8a7453f3055a807b834fb99c7dd046ca43b265cc07e2359d4ef9aac88ee9d31;
      0x72b6961bc2ce5b55b3fce549d3534ff24aceeacac94af4e616b2f27b61608258;
      0x5572e327d460be45d8c18acd3731e23c89347fc5455303b5e7351b887b921965;
      0xbbf9c2b39fbc60a3c23c87789c38038363d9e4c2563a51b055f13e5a0b4c434b;
      0x245edb8943b10c21d2420c2e9311abddfa89561870182bd0e21627c3ca9f1039;
      0xc0a79495d3151497454d85f746dfd657d5728e7ce15f29d204aa66ee5b3cdd4b] 0x1933216eb8e98fe6ea2db5be8ddfba4e83ca9c8f6adcf661f34c9a60f2767488;
   RowCert 0xe6d9fa3e6518d4e9723dea425cf89cf627c6b2258bb185785b0f3d91b04e6115 (0x26952c7f372e59360d5ce4c66291f0b6ef16c1331e825e51396eb0457e8b000a, 0xf513ea4c5800a68862bc893d2d688422debe398f653d67318c3d401f05ef705a)
     [0x828e77c0ef74ff466ae3939235df8daf5afbbe741409b6f91192904fe7fb4a61;
      0x2d23a580c1cf53d858a58a89437bc461ea38ac29d9c442cc402a09702d1e8a90;
      0xe37dfb0f2b04b1dbeba5c6adf9b8bc802b5e31497a840e0530be249ea8b888a;
      0x4d44c1abf90706eff40be5e310dce957d75325a1d6c3a385fb50e965c0a064bc;
      0xf129d45bc076cb38eaad625e948bf60a77ff9d9d842ce7cf42d8f236db265151;
      0x990a765f709806f85c2b75a68efb1930e10c0b0472a9af0be1a916e8efe67e47;
      0x97ed78318d8e7ded77b9fc39a95c99390b3df934b1d0c8213886ace0e6078f3e] 0x568b57baa06162c4af23d8c7e4ceafdfdd6da128c82d2b0369f76a940207d581;
   RowCert 0xf9bd4b25fb8787ac97edb42b9bac8deb9ff7ef01b41f5d6575086f1012bf96ce (0x85d8da4748ad1a73dec8409be84f1a1316e65c5196aad27e0766746f3d477c2d, 0x58948b53665c6690586b536531efc7bc94b0a02033c4d5a62079816fc7d1dd70)
     [0x9213573ad8597c9de04c456eb8047a840b3ba522231bb7b514b5573eb48d77d6;
      0x91e4fb2b77ea2cc5a9192156590346b6298e3ec7b1cc63280014d146ac7ca4cc;
      0x7be19d1c4b6dc3cd32f25cf46a0ca9c893fa7f4a994fe40d148678eaf4b50d1c;
      0x3a1714899ee746894e556c44e8755b3179142fe9ec6ea0b5435c98b26e715ca5;
      0x76e60c514ada2e650d2d8686cf4884f321692bc8dbd772d852fee5953257b39c;
      0x93ba6b88b374c2a0e8045dc8d3350dfda206163ccca47097d612545ea297a30c;
      0xdf73091839f6281c276b6cfd33a4694b34d251c6379b65c84fe39bca23f42aa6] 0xcea0a3004217b413822af1645924ceabe7be92218379af62e5ea6fbfe11c80a;
   RowCert 0x18b9cd189f45726e2c6dfdc2cce38866bc945ec92113621bfaa817ce723adf9e (0xa5e00da467fd5494f40b6cf7d2d61b3ec3ab217c792a2ddb8c63c8c79e3d34ef, 0x98fe5f5e5608555421726fe99bf43d25b60dcfe790900acb855c5ce2f7adb4c)
     [0xd850ff89f7db5551fd6dd32a392234574e93ce32a2a714cfe37c3a37ae5a6c81;
      0x4b5546bc950c0deebef026f35fc2a1f9f5eb3a9c257d8ebfd0b70eecc206cefb;
      0x947554c5d24459f7685db6eddcd44c8edb687ea1e0f88747327c9af184c2d8dc;
      0xb8b75f84ef8da1f43641ffe6cce4375a484b081a2c4b53f899a1b48aa5099994;
      0x7c37db1b16acd843019acc2a79584ece24232e7d12bdcb374b15f2186f4eab18;
      0x522707a771301b74617649b24da8195dcce2ed6e7851845b9d1ecd6bb81f873f;
      0xb2700d00403233ea90cce9aa4e5182ace114c6df11bbfec394d938df4e344f33] 0x934fe12ee4b862d1a3a418c9020014c4413b9e0a6f4eb74f811ef8ccf0483ea7;
   RowCert 0x24076fdb1fa11f74017e5c3696347308e32b3f0e740977d9c044061b43cc1ca4 (0xeac134ca2046b8f9c8dbd304fad3f3c045ebfdb4ec6ed3cfe09aee43ed2ff3e, 0x49630dbe79359b4245bf103bf2b11799ac19f696b7f21376e17206207d210988)
     [0xd5e8e1aff6185860f1b380ba9e777949d1ef3b29072fae1ae3e935f00068bd8d;
      0x3e74198bfc9dd49756cf04e3050c1bb61bfa73d0a63949b8375a8907ab4c18c;
      0x651a24aa9676c834c4e5c7824fa921065cd4c9281ce91fdc0ae7febf70e6112d;
      0x2cf529e31f3108b347df5aadc486ddd0243b76b7af50def83b594472faa64988;
      0x283109fb8bab55f37cb61d97d4c604d575247a6efa2b7b01117247d3fb9e340f;
      0x31721e7d12535c812fd0772b5a4060744e9b40acb71844bba80e582debf1de0f;
      0x7d99886946f0afb7cbe43f1e4bfa22297bc23c0629eb2eca61f13f44e770ac61] 0x2b8cefa90c3f45be76f6026484de448c4fc4c63437b7aef251b6550d2772a;
   RowCert 0xa25099814b5320e1032c789b522196ca8e997d9c4c7caf884c79019ad46985e4 (0x1c5e548132b49a7f66ae9fed8323480e0d1ab974622e7cf08993895e0ec87fac, 0x4ffcf60f837f468f2bb959fa1d4c2ad3a3deaceb26fe324c555d7b3d5fc2d4ef)
     [0x45665f9570af188d305be8445a802604cfcea5b2d0d6b905fdae310b7bd72e1d;
      0xcb16075a2c55fabe3a30b2a14e399229c59f2644b9bee161e2955e0d8608138e;
      0x78c5148e39e656a8843f6402d31f2be35213b0e8dba3af3b8110fd9e83b77ce0;
      0xad1edcda7503006b26491ce989abed7250698b0d90dd2d593e472d7616f397e9;
      0x6d83c216e1e2d567efe4c4c63fec836e539404a91cb30174d05da6a283cecca5;
      0x49b203c5cd8f69a726a28c436957892510ed3dbfc36a2368792015f6674f636e;
      0x36d38ca787f91cece7ca093bf3687f712557f864385bba03ec88b4f3930d172c] 0x331a15890fa5c8259d64c065b53e60cd88f3ffb34d6d201d9ffc8dccc6676a91;
   RowCert 0x1636e902f0379b679aafde9343d791a7ab89d449ce8432e3b716d55e3470094f (0x899017b02696888f268a269f4e385d9c9b11f25a1bef8790e2821e6e7c6e1b4d, 0x43ae2cdab5b334f0bb45798336358bfae4e51bc0f932b212009aebdad814ab2b)
     [0x16a58851e6fc75ef7bcd643889d57ece70fce317d8645744afa303df92bf1def;
      0x4d5160709167c505ab6e066ae520111aaab35b1a9b41ea8f036f1d4f2290900d;
      0x20f0b003e4a88dec16d9c0cea752453c47ef87082c1fd4229d3584a32cc3637f;
      0x9a37034f99991cf3484fbb050c5109e047651501113bab0c72389cbac3d73f04;
      0x1dbebaf46a09ad8cbb2fc2dd18646f598d0bbd7d77e3dd58860dfa0ce46c213a;
      0xe00158347249dbad93619d6e521f880ca9c79cfb1649eb8c9c12f483b120e4ea;
      0x11f65eb6794ac8ff3372783d929ad1ff0a78a36b5177d9747d256f83d13fc4b7] 0x28c391cc3c0dc08d850af4160b8f1568ac999fd02b44bf3a0e905e373b897894;
   RowCert 0x41c5c1a77b62baa51b180e1dcbff6780ece0a093f5a78051c6de090fab67d58b (0xed9441c8304280ff180e03d850e8cd0ebb570ee5de3730488fd97c961f9756e4, 0x3dbe9e9efe8bfa19afa176128b13911e09f23774fe4de98bff0e09f93f3abfae)
     [0xd9f61212fda588184f397936a710e9d54c78c1ef4974786c6d00721a0a88c0d8;
      0x465334c189983d5a758faf4df7b4054b940b6a23431b4c986422d29fd5c99153;
      0x21706c070eb96ec868c65094a93f36b29b6b01543fa4fbff99213fd1c91164a2;
      0xfaa246e142468b35a270b878b3b16162e499e7b6d266a008d4db9878e271e578;
      0xe65f22944e0bc17fd360d9dcff90300de22499a002d3f05065e3bf7017d093fd;
      0xcbc70aba56e0d68d4ae1576ddea07f9d29bf9c8964d1fb37917b0055efa792a1;
      0x5188ce35e7f20891873273b10dfb703257d4a94e20903bb3b7888f32152ca45b] 0x7e99e89ae6b325a298edebd985981d7fcf7659d0ecd47491c03bc2050502cd28;
   RowCert 0xf1bf5eae2a0c4c9ef23bb69797a3827927656b3d5c2e1dc0e927cc43f0db11ba (0x708a530e9e52c73bee87c9d88161c810005d57622c29ae691cf999a83a1187a5, 0x9b884811e1f9a897fa9656dcbb6d38283ecda73c6d353e8a58a4f19b473db9c0)
     [0x676f034e400c7cf8fb952279f383808bfd0b4158a3cab7fc719add3d6674b914;
      0xe1eb1c56cd9d80606b3c5a7a73ad430d85696441816da1f12aa30b565fb13e45;
      0x8394657f4175cf095567049f3dad7dab5ea3c7c9c9dc6f970a5e84cacfa62c2c;
      0x8aa913480110b37f938f3df11ed0954423dd5caf50ff1b0a9e7e2885ced8a0ec;
      0x3bdf368b8184fef1bae9bf3063bbe79b55b27f41f03ee1d19922b0bba6ad54fc;
      0xacdf754e950f3a71013681ef9afe7c575bd6df89364c0952571742ca31a1e47;
      0xf397927f4d8fa34e1034d16ebc938ea262054803e49772b81cba073fda866ec3] 0xf0db6e39d92b14127c4eac65817b0e597f37e93fa411acad78ee98016f056b5e;
   RowCert 0xa12d5e05dff013873b8147dae62e9e6caf91901e3e357c1cec3858f69f0d4b2 (0x5578845ecd7c037435b32a6992e7aa94647197ea49b8c9e4ddaab0784662ab1b, 0xe61d07978b6de2c3cea6d0a51d2a4053f653a7746a5d64de316d18f3056f3511)
     [0x13299b47a761828c6f8f10e38c1bb9c157564dc62f407d033de0c896e68c70c1;
      0x743f7ca0af0f30dd33707d80a41bf4996a5cb5ff2f550b5b15ec5626383767e5;
      0x9bd08fb99cac33cc864e261441ed4b1fa9e9bdc4482a96036e6159848e6a5bd4;
      0x51ef8edbd6d269b8cffaa9d56454f6b4591f67058db5057adc5afce773b799e8;
      0xf1380d1666a559aa3b2ef7e8d6a7fd36fc02b055f6cd6abe9444d70e1d97929a;
      0x9613f0cad80d1b6152d0f589e8144904d17128312556d132116e9b2cf9555d8f;
      0xaccb24aba3ae8864673a3572d8e010d04b88b42791ceeb910d8dccc22919bce1] 0x63635cd753c8aa11d451b22919cfd19736587d92050500924efd77c00d9f028;
   RowCert 0x9824e79ee39825411d7bf6454d5ed23a6453d1b81b9b3a889361ae2bb1a01db9 (0xfd136eef8971044e8a3a43622003a26703ecaf7a0ec40c3fba5b594b77078424, 0x218da834f3c652cc67a1d191b5c5efa57cf2b1f78a2adfa8cd61eeefc671ddf1)
     [0x7bf19ea363d869e31db321a7f761ba678a1237cf0e43089fa8602a75b9c142e4;
      0xdb1eb469febae65de2f1ccb43fcd182fe0863b3a22670fe9d72aa11beaee9dc;
      0x88a4f4ef66fac5363edb9ffbc658ed888884445ed06e4b2c22266876f2413592;
      0xdeacb123a4ab09d8ad6892ac997370cf75d34935491654711180157e1af111a5;
      0xa32d7fd3b5d8ead0b77a90355d50d4173bca770b9b0f8c886513e0f84d6f01e7;
      0xe1ee28f5c5b05003ec1c1cb05c2905794763be9a0e717cee1c257a230785bc75;
      0x25588b848dfc482703173a793bf0aec174616fa57184a15e24d4455f19ceb7bb] 0x82a2ff45d5815bf0d8aceb96fdb2b4f2b99e372fd0774e2353fcdb85ca481a;
   RowCert 0x9e134159fa7f342a7059c56115bfcbe4aee40bb38561a32f7d1cd882eb497297 (0x6d36d105ed8cc5ce53f2cb698ab620f9469a3e5cb25bf6e6d413f414c5af726a, 0xe4ba5c34e377669e72d8c66c95c50029dcc59936b4108a35c570491a13f9fc7d)
     [0x5a0ef0fdb39b376257ff6759017f156304fd82ab20a34e74a7901e70d0ea461f;
      0xdfbfad1edd5df8c077f9f18d55e5ed65b2f14314848075fc0329da9bcb1c3b8f;
      0xe5f3ef78cb49c68ad24d19d664e722d1b38702f93ff80f1ad257c3d452fc6dd0;
      0xcd949035b819521fbb79a1e1f6b12646596c3ed161d782165b35993634fc5a7f;
      0x517a99caba6fd06853cfb6fd48fecd2df31d271da9c98b8f5bc94397befa4ff4;
      0xa9794a16e4bc73a8494910e419ab5f6a0dea0736ea9e3f7d5f0149b59878db68;
      0xaf92bd1260c79011d9ee177b339fc9e6ed86248f39f045eee2acaa92779e1983] 0x24cc2c0dffdb75da896496fa9918efa62fc168c57895596a4db2b5113888ba71;
   RowCert 0x759f42169706492f4d893748465b0b891cf451657415eb8bad19754d88799bb8 (0x440ca1f08ea41265981ac4ed1efe7a37122dcc3877d2f9162db0e78b0f83cd58, 0xa6c8b0d2cd5ee122af8954dc9d4e2f02a21e4d4269c0a260b07bc069b88a3f4b)
     [0xf3bb47d1d75773c035a5d968b050635c8464834e686872129fa57d5214f506e8;
      0xe2510ede029bbbb837fe5a78cc6ac86752219fe148fc29b58987174931c3f17d;
      0xb488d6df3a43049b2c4b7672ab2818f8be15c308c17f6f38797b98db64d086c7;
      0xdd7deeefbddeca9b22be9606ebef8fd4e1e4a35885c822ee2e172fcfdce35267;
      0x94fd6f69c6d7d7af4fae2f9d67c083320922e4358a09327efd37b76f267ba60d;
      0xe3da01c75ef67c4dd60525ab7034f258a01e5a7bab2b073c37f371685c0bc9f6;
      0xdb3dbc86a2c7f73800a317d9456ee148dfb77c8af851be1d5103fa15871d8fa5] 0x8e6ea98de900b7f6f06985c82ec54f6fc7917d2fc27e62cf4b3788337be93828;
   RowCert 0x60fb0dd8cfb159a6cc7a0b308761f2bb17857246959617835ef54989090a211d (0x27e1e59cff79f049f3e8d2419e0bff74b43965004c34b5d811420316f24ba5ae, 0x310b26a6c804e209ee1b5e3cfc79df05df48a1a69afa63f784a5bfee883a45b3)
     [0x4e6a224a7c90e9d0874cfbe54565f8ba73b71c14aea8ca60ddb3cb537471f9ae;
      0x207610f6c1fc596cd6309ff84f343f32435c2d98c0a5e2e8b1b61c9b1efa99e8;
      0x5fe17c700cb22643f583d1cc954787e2f59be1b179fe552e211224330aa96a10;
      0x5ebc80ee7428e69f862715f4f878e29e04a354379d76a32674de939d25cd168;
      0x3166f134c0056afb3902237444dcd3c41ee8d39e8d8d3e719958560dff1136dd;
      0x343f081df33af1ee253d2b10ead5881df5a8858c9f76aee71a93baf11c090f5;
      0x6b820f2c692a376714e94f7b0f25f614049e3820ac83c674d5b1f556be84c390] 0xe9f19a124f5a7dcc6fb2b748a864d00b18050c5d270f4deaf1082f6dfa9629a2;
   RowCert 0xd4f0db18fed8a66a083b386445c250011b57923062480f793ccb65d82d6f2d6b (0x7e2cd40ef8c94077f44b1d1548425e3d7e125be646707bad2818b0eda7dc0151, 0x905b75082adcfab382a61a8b321ef95d889bee40aeee082c9a3bc53920721ec7)
     [0xc4e76c76097e7bef21613e895414802ac586c92b79803f5b82741fa35c8d8281;
      0x97d4ea579e25c0bab35bd3956b4b5dbfc7118ae9d7a3c303a52cb1a6c8c7f772;
      0xefc81a34c5c6ee745d4e5bd6e4063c145d54e1120df0301f001d1080f08bc800;
      0xa0ee8f79b54afe8303a918b98a9e1d4d213cbd4846168fcd6a9a2593fb06c679;
      0x50c79d15bd4249cd4c68ed7d8287d62520fea3cc8b53589a017816dbe67128cc;
      0x7d9f2afdd1a0263652b87142ae5f77ef1bb7870d5ca5c26229ac4a191ba2069a;
      0x52be54a4be512237c70a2773e2243ffa70acf1bc0451978b686529050a8b5405] 0x445abe635b475e85d37c1ea1e1f1e687d6f7ce23ef469c32da064eb0d1e7fab2;
   RowCert 0xcfc72646669a22e13c4fa2f56147ca7fd7babf662697196e4fab511935abdd53 (0x4d49aefd784e8158fcafebe77fd9af59d89858ade7627eaee6847df84cf27076, 0xcd32fc59a10dd135e723f210359ca6f06e0f2d1a7df4d8466b90b66203aa781e)
     [0x9e07aa227cb5942ed408a53a9db59ccb968bd022b58706e4bae779c149fe3bd4;
      0x633b4a18eece6d8c8543f1602b73b19b08eef2d9ac277493e6052e3af0eb1668;
      0x49083f13e9b9844ea279151608428c0e73d902c9c7965821b8e015dbc2b3cea6;
      0x1829887d9db7fe90eed87e21ea437c9075fdf015af3fb0f17fbffe654cece0ea;
      0xf9a7d43924de7ff714ec3d359a289e8982686ff8db0c07f5dfe2940c7fc0302;
      0xfb4e777d3db814553c910a4d17a072501741d1bfad029c9317915a82dafd6d81;
      0x3b16455a8a32b51a66d02e20dd099b43d2c635e44e0298a66cc64d1139b689b4] 0x4c114a80f839cd3fcc5739225dc7d8e8abb85b69e87511940776445398453600;
   RowCert 0xe838298a11c6053304d86bdaf61c5c8d69f0d9a71cdac755d0eef49f886c88a5 (0x4b30cbb7686773e01ec64110abdb362f88531a825ba172953bfee2233bcdaf2f, 0x74c6350265bb629b6f9e2c5777c3c4a91fdf3c81e434857568033d463d26b5b7)
     [0xf31487dd95ca654d7932d4d3bcd027b2f08212f65a007a7ac28ab8a47d790549;
      0xed3491183e9078873324227b8f56a305bc0f3e4d545175a6433e5e5b1027d026;
      0xc19f42ec3a4069aee7dd4dc4f60683aa53fa204d73b12695304cb2e81087b84b;
      0xf02ef5e3a37437447d2393ef177b7e9a5acdeea35a212e9542b6c7ebd1697cb0;
      0x57d6351beb7d99d7ae3b3a1e8ec39c609050c4689f4c064705ed4ca1401b7608;
      0x73e82ba2a95953feaf421daa1dd2d80517f9e786d5f1bce7f765442dced1738c;
      0x42f558f39ce1fe745685e391b1c3e4c8d928515031769966d95c48abc70d12fb] 0x3f2f0169fdff3beecdb86d143c9de9fda65ef0bed16c86f247eb85d1c951fc81;
   RowCert 0x6c647a1f5541b1be021e4f77cd01120521d0d33c945d4d43da55868291df55d1 (0x24cfc0176da2b46fa8bb5bf9636be1effd7e297f29122fb3e84c9ab0c18ada5f, 0xebff8fbb079c61a69868714d5deda927ed959ca1a4f814f268fa6139978a586b)
     [0x6db1659610b747db82dfb000747cd5e41caba7e46898f52c2fa3202cf0b5314d;
      0xf20b01a02710ef622ce2dfffe4796c5b505acadeb5ba884b7dd7ece9ee3bc973;
      0xb1eeda27addf896c742a49d4275a1073afb4829c7d6408b55826d0073fab1b8;
      0x45c00d286961224f591147f090323f4578baeab77260cada14f0c3e815844c3e;
      0x4d564f249bc4a73ced4e9c630fc80e9ef5e18f7481b02907efc3c45ea80db0a5;
      0x2b679a47934105b0b82883485017d4ea61339b89e271e894010692c18723a256;
      0xe577f18ed2bb0f0722dee9d135c8cec14bb76bb27ce0fc4829eecf05c5d74571] 0x387af9db0ef1df9f3fead724046ae90874e98518283eba82285a3c6e041a963e;
   RowCert 0xd752c21abb9fa74c23cf9a0a508bceb1e8ebf1a05fa786e83dfcabe7215cc4f8 (0xf5cafaba036bf8d00d38bfb6772089f5203c35e4d6e32fa9d97e5b917b4ae861, 0x19e83b8a022a6d817bff9904640839159b3b2a9c552f05f3cc9c239c0d82239c)
     [0x8b6d23aabefa10611d4cbed196a4e8894abd1af1a9fdfe5750ecab76ff959735;
      0x3d656643f68b0670eabae66df5cf5afac13bfb38797713fab3439aaf42c08952;
      0xd48b5375fd6996fefd20077a9d4a47c45ec9dce89deb64a747c6f4629fd2cf9f;
      0x23553aa490af34c80b5519cf48f23fb41c50ae79c6d8e49ee41b80e48acaf8a4;
      0xe1667e1be7b6d30cb836501f9d4ac1a33aa246e8e8c3fe347b18acdbd6f4644d;
      0xdc5a28c04d668a83e461ccc4f975e4f8d45942ac3704d25bd5cafb7a66c23085;
      0xae605e054d53917ca6ad44a7fa80433573551dfbb04c3b9a4217e0d81a9f7cbc] 0x50162db7f794e52fbe9f72a8f0ff3749359e5e2b8369001d965b63b672bf580a;
   RowCert 0x2ecde3a1819b7740be340e73abd290b7be207dc8b994187f22de6eae9bc0bf87 (0xe5d8e8f0d9823c88e4d36f7301f41593b6890576be79c211253ef375033eb51f, 0x4dc1e9b7861e3e04abb16a57d8feeef0e509dc46d9f0f54979d5bd965a62a2d9)
     [0x3694e372043945708c42d100f846f5ffccc08bb2702ede79b47c329531a1ceb1;
      0xfae7a4e0e007cfe1db4db558e6ee0cef4800e88a9100c73cc0a3527720c1ab95;
      0x97bb10869cc6adfbb34295b02c7c13a127fd5f14905359e27c913071355e3294;
      0x2c17206899de944ddc202bfef74f327d175c6eba5f2a41df264b28c3787388d1;
      0x1573e218a6fb3299e6f1979b3214f96238e9013fbd0b7d0a32e5e51534960c2b;
      0xadc3f8f34f7e12283d03d6a728b33b6557fc25b9d51c1ae9ebe67f3ba90f7b40;
      0x68faf3765e1388174eb447f801512495db4876c6dcaa61d80a3f43af165afb67] 0xad2af8a78014319e6ea53ad22479a04236fc4cee842f52a3b3199a60ea193230;
   RowCert 0xadd2fbf87697aae5ab2e2dcaaf5124953800e7ee86c6dac559dcf3af6cf0dbcb (0xf16a409c677a40be402f8efb3752373caced053c6f702b828bda222ca412b6fd, 0x2a41311714532799d7a6a75a74e30e4e16540659249ebca4268dae77eca052da)
     [0xe4e1bb72eaa1f1108f7d8c4499356ddca7b70bedfae22b256b794da2cb9bc1df;
      0xc03f4e0ba253bff29002719b5babea970138d552b8b2fb2b8f535b2303a8e08a;
      0xf0aa76131adf76b72f096f0312c92e6c0e73a6923f3c01a7b356ee29b47751d2;
      0x976e8e0ea99d1cb056fc90ac341bbba086b6bb1b9190116b917e311c87b713a0;
      0xef4b7b5b539f8a2e582f70ae941630f965ac031810f17d018c5dbf51de036c27;
      0xa201e3c451ae214dc20ec1362566bf9c51cf4da249034a38c91a3f5bed17b068;
      0xad80ea8061391be5f19d73cc425d318ad71fb4672502c03bb26af3426896302c] 0xf9fd7dd2ad58f4ef92f0c36b9a56a70fa2e2963d9b0be8a565ea834db88160de;
   RowCert 0x7b7846b99d2cb887dc01de992223a08bd13234db3fadf04f7cd70e0a52208267 (0x32c9331ea26f490228d32681880d7203f72b3e4a8de0db1fa8f38381b2919749, 0xd7cd272b34209cb5695a2f02b6f3dbb8268a4abdae39ab09631e97b0f290b5e3)
     [0x4d544efe4d29d9e474350af9456f8f49cc57c22e9b6593eb550e27ca7a643c61;
      0xe2ac9eb0ad430b7f8380c5c0ce3be110388a6521f1bb00d8ae201761f1491843;
      0x83a7518d99bc571de7f7d1ea9fc28da38985b247602c1e9770c553cc4bac5aa2;
      0xf4ae0ccce4fabd2d498c7adf9116b9196509f293d7df26e68c33ee133f84338a;
      0xc5f9b76e84e6d4cfdfeb8a2fc073c1e8542cb6ee410fb45953060f0e3ae85d91;
      0xd3a1ad2e29659d5f2b0811f5843e984f51e8834d2fdad83f6deabbe12fefcbfd;
      0x955b7c67cc677c9e565acd3f724b9b1a3730824c822640f1f1a1a6066fcf2050] 0x46c733ceacef4a13f7223fd63f90edec6e98237a1b195a5be96bbdcc7e583d8a;
   RowCert 0x372b7dac49413e4c9dad265782bb7a697f6b7066a48cf5559b1227cbfb02729a (0xed32cad8d2cc998cd25317d4e4b87088e9de4554e57a8d70c0c6b0fc1da49e04, 0x129fef5f1d030204a541ca375859d20b52da9facb49fab7db63120d17c1db9e0)
     [0x473e1798c83e97f2e7adba37443e8d9bf8a1a0bcab351813b55b26d4d12703f7;
      0x7379309096ca4d0672abd3a11f865c4f945aa5a9a817e1169cd8911b6ba51044;
      0x89fad7a176076b03192669a167f9d8af268086d5c13af835ef4bb676b1700b9f;
      0x3d897c4e1c4c13ff6c5ea0dca1f64e8a398c24bbe3763247b3916b1d1ac869fa;
      0x6f73e578e1d0a7a2631ca8b7433a3c4155ce0cc96090710263af1261425dfa5e;
      0x21b658b2d723458808f0fce52e02064a9986d96c10440c6b49c951b6f02208e2;
      0x1af73f6366b33ee7fde7d7d51f5d0e327c27b96250965e3691972298965ae8bf] 0x868cfdbd7d848e10813fc76c21aa36b70f942297e065ff1420ff34ab6ff1439b;
   RowCert 0x7200f1a08c4d4fa4b78f1a5ccf3dcd2a05dac0177c506d88589c5ec2a987e9a (0x2e3c05326255d80f0a42fc69d5c92aa40cd326a53e8535f0435efb7b694a09ec, 0x1ff891656c6fb5bddae240b82fc1abe048a53c707b66512534868188c7327e)
     [0x9b34a459107bea67447910a097a34bf290897c8de4e47ee006778b0432a407fc;
      0x7025132625986e4977ce921d63b2b8243fd30e8e39698cc21ff9728397e8242e;
      0xbe789dfdba748630bcab216a73bca646473da7c8762d6d7efdca5e01fce5bc2;
      0x7a7711b9d0a3f3ef25bebb6255ea23004d455abce3cc676101562119b37e8cd0;
      0x5cbac004a5ec2fd2af1e070494980a8faaaccd779258c98000a847fad1cd5bc5;
      0x6d2bdb70c5968c013d2d8bb600103eaa8c15b2f8128f426fdbd90f861b93df39;
      0x2cb739327f3a00f40899e06c4cc72b7af2437ee22c4abb385795ad5b526c048e] 0x885867fb64de9e56b5a2f771473c163ddb4160459ddb895ddbf616c4a70b5062;
   RowCert 0x540888725efd001e10d388737cf1cfa7349e1f8870aa9655492e125f3f6807ab (0x6773fd677c52e0640394110a46dc85df7c133f8dd4a28e661899ca5d82fd545c, 0x444eb6d8cd97652f0f0f25c9dd2b246bead780f5a1c6cf98e8c7f034947eb1ae)
     [0x85a39fc89a94e822a3e282513039203c9e5f8c58d320a86ad243cfc35b01efe8;
      0xa91b0cb964f44fd33ad54896aa3840869aaca34c6db7350dfaca28699ed03bc9;
      0x65c6e24294135d55461518b9a9a4564b13bb458551bbe6443f4cff0d59ad1ac;
      0xda39ada6934744f5eb0f1d6852cf6c99dfd27d29b4e0fc00cf9bf6db3ac25d84;
      0x7e2ab9dc5619e42f80c8c905d69782de91990bb26d40e845c39f61da2cfb338e;
      0x9c2e82126d9038bdc412aab5a5cc4ca8a87b9cf16a2607712633c05f8b66a786;
      0x558a1906a969579a33f93bc17609d1980b1047b352e33c034d14336beadc7db8] 0x986d328e88f48ea4af45b5276a36e488da726b98cc8255a35cbb445648c2ff68;
   RowCert 0x6f6f2e174458f1d58240ba2cfac0d9070d865a2d820ca850f93c92ac5eabd882 (0x9e5dcc62ef3b5a3b546520867be71bae6f3ba063c9acfb8dcec5725bda704896, 0x6fedd12ddb925f3ea5fd3a2154c7612279605d186030f51248f2769dca82c835)
     [0xd90e8e7934e837f5f8432b19e106602d1d377ba7af4c59e217421ff7fb4d8ca9;
      0xb99218bf58f395cdc6c848870bd8034a9ba99597a60ee39f978f6c5909fe9c41;
      0x1de73353fe405aec72fe2d0a23d738fafc03f19861707ece3f81b9c9f6fd72b8;
      0x889e56834ad3cb956ceea4b64987cb495b7fccc39b2662609dbe5e21da8c61a6;
      0x4f3d4c244d6b25775ceb6a6e7c2d24d203c1afa011579993074521e438b128a8;
      0x4849fc1cb2bc7a51235af7267fc39ea7eb1c6f70b137ddad8393698294ff1e33;
      0xe484685de7c0ae63201b1b57362ac2747e1196bb1195a2129659b1ea15db5421] 0x5251512a96edd8beb4addb11b9f3a45573305626a4c6db43fbe0c98a28dabd50;
   RowCert 0xc7816876ad9abbf99acb73461760051cde30b403c126a5d18def648dcd8a3255 (0xe7b9796b5ca006d1632f482d7f0fe3932cf16a5ae104eea7a7ea1c251073e879, 0x12b8988c19169e2fdf42102a737cc1ca9cb5bf25eda98af338e71089baa89d98)
     [0x2c67bdc9d2514c25e9bb1597ce601f4c39eb78c8794f0adf458ac0aa5b317b60;
      0x4ccc0af9231fe69035fc4c553fb7b62ebb81ac3562f3effac0b003da01e96206;
      0x4bffb1645ffa42598c1bfdb83fa7b5d806dbd4aacbf1ee17760b57cc3efc92bb;
      0xb7ec8cf857fdc2fa2212eae1f236a7a4cf0b778ec52dbcbc3f6076e426d125e6;
      0xd26dfac7dfead7f329bf0d0b1fe55e6f275e4f1fcd741096e33161eafe520f51;
      0x4c9e06896ba072ccc2ce94e553560c7994d6354be3494252d761c8d49441ddc0;
      0xdc438ce9ef3f50e67586918e3d0a5cb68617ba0d2dc26602df34329b1ec3676f] 0xd5392ed54e0e6245e0882b98b9f88e051a52d1cf2c2d3a8364169f3b70f36873;
   RowCert 0xfe85fc2db040e0bf7f52d908972234ce554af464e48dc688262d664d91d26ef2 (0x4f89bdee3771d350dad163b04cb18ad67ce5e9c55b58f0e7231047a60f59dd9e, 0xca7952d5227a1f695c4baf4c043bb2471e4882506638df5c1016ae320156b049)
     [0xe66533f67a556ca1cc90f60c09e95cade8277402ac195a46db28794a96fbe767;
      0xfbbdf027d24d520775363c44a72be411a2661af553d610cf17278c2e63e28a22;
      0x51d5d0f9204c0321ca59aefdcaa48238aa5501ab2b58cf266c8e609416d71986;
      0x9df760aaf76dcafba8bf1c5e99a548c9a5fb260745a0883020db5540a1f6a653;
      0x71c9080392ffc2c6166e76b3559ffa669911438c6d4001115cefe58a49022c4d;
      0xe5f603985bbbfd2684778aadf7ec773721e5a2618076973dde34ba90223694be;
      0x48032f4b655800c65a94cb2e9fec38d14c79622959fac4965b41649c02f9ab40] 0x9e38db589566d97b027c0c0b6a217ea8934c0bf0c8def5add00d7ccb9059c0ea;
   RowCert 0xdddfc2224c76486c7cf9a8aad85abc295a5272e88b500a0a3fa5d2868ca0cfb4 (0x6b790f4b19a4c4f4f607a6cfcd11df0468b482e009711ff756356d141d5fcade, 0xd03a981b2ff9eb3ef296661f9cae09cba83fa5b47be26b0ab6fff86fc338d3ff)
     [0xf0c367f15e970721e2f9cda15b59ff07dc0e8faeb9c18a3b0c06f70bb89f18ac;
      0x7a6d8800b094dbbf9b4f7d5d244f42c96ab9656da89224eec54da1cab935db1b;
      0x656e4cc9b8fd2296dd73886f53cdcdf2aeae4da6410ce7ccab03bd1b0bf7bab;
      0xcbb66a5346950583bac669b0cc3a1f13032f5314c220eaeb74b0bcf44a3f3bf0;
      0x7d7d595ed7dc2cde530fcda1e6ee4d15ff3e386351344c913840518b49fe11;
      0x641282e85219d865b60fc7ef5d38cb73f7d820ca976250f18a76d484b1d6950d;
      0x442bb4c40562d6b0eb2e7c65e52a1fdb1b5bca99250860e0351ad1b63356d79c] 0x416bcd083cc077e4c6ee5567e23dcdafa8cb7aad093b93bc6da7293e23b48380;
   RowCert 0x282ba9fe238cf4d58886ca874c29771dec3f1fe49d8d1478d77543a97562c63a (0x2982dbbc5f366c9f78e29ebbecb1bb223deb5c4ee638b4583bd3a9af3149f8ef, 0xa61b5be9af66220ab9fa5339c7b5bc9d095db99412e3ed8456e726b016c7a248)
     [0x228ec7f179bbcf30d4409c659760a863593a6b2c8481f0646d94a69e903fb120;
      0x51ea18c08af12dbd0333f283ac8f1292d3c868b683990e6910908601ea4d9cad;
      0x6b4ee3694b2f87b77b17fd2009724829a80f48a338c3fc26693229185228c28;
      0xb87884f9ec22426d2c9e8f24f5da572399fbd27365985980b5113b0e11edfce4;
      0x8243d8f62bf6a9c246b04a39eb03a56710128fbb6c379ee16c687f9a91f56791;
      0xf4f742e3d35319237a3a223f75df74e5869fcf65cde829a706af1c7a7dedb45b;
      0xbe8ac61a1aee1e801aa84b937db0700635ae7cab24bcf84719b68e2af68a62d] 0xeaedb019a19dff101e25de35d0f06c7fc965bb4e9904ce2f4c848c8898f77ffe;
   RowCert 0x9e87acd4a4f9954e433d87d2c82b246380f5d49b0ade098a24addc6e6ee1de4f (0xb77f12a7dce56b973e2d7c8d576e6b3660470a9218b87461ef6e44b70cb1815d, 0x4b6f85b14f86acc43f0cefb373cc2e654c42f0f91a44816d6ba3d2bc8e57dbc5)
     [0x504342abf28ec5aec9dda4f81ddafd291446e69773c571ff08316823fd76a0b3;
      0x6eefdc1b0a67ea1c30968b414d8883a99634b9a0fd21dcf23a91c8d69db997c;
      0x9e1560b1d5a5ef809f1ef3270ab29d101100a563da5905f516496968695469de;
      0x1d9a6ed61ff7cc9f888656327719567893f54ff2c8bd28fba0adfd92a0f22836;
      0xb25adbdaa1089d74feacf76f9bfabe74e58217a604fc38da696924c242e4dcf6;
      0x44e71c9468c97b4860afa8cea24a2de0a63b46ab348654be4307d502d2fb1ef5;
      0xf2f9ee32db824170d2874fbc4e73d51eef7933d8461c3a6f9f0f682b5b94fd7e] 0xaa29b95d2e564f2b141e3efe378279748da292b4f044747fb79e077395112739;
   RowCert 0x361f57ef460f29732cafc83d9eba25fe0dd319931c8036710b2a38f274f1db61 (0x3adb9db3beb997eec2623ea5002279ea9e337b5c705f3db453dbc1cc1fc9b0a8, 0x374e2d6daee74e713c774de07c095ff6aad9c8f9870266cc61ae7975f05bbdda)
     [0x8e12d19342fcdca709cfafedfc56ce6ae44e64a83169af9490c7f9f4ec02a8d9;
      0x37ed98fe7154ba68c7017feb6d21ef09b3deb94a2727f91da0fe5b05e37da428;
      0xb9154731dad6d1abad080293b9e80ebc8226d6f1653bcd05cd54b4757711dce3;
      0xb6d581b1a1259431eff71d3cb556146e20aca85ea932556193186b572eea57f6;
      0x5ac2bfed0ecd6c5c4cd0f3a8b083a528d80810359cf36c46463dbc61e40797e5;
      0x285572ea7f6291123f4ce0f1b6f4ee67d91abfa8e33b43945c7ab47ee6c70b63;
      0x9df8af9dff7d42736b4f0519aa54c36925ee163a18a664f4bf134962ebcced63] 0x43885ab65586d9a320cd73fc708a8ecdcc8fdb6cc68b56f44dec2d90d0790cc6;
   RowCert 0xa5af926d811d13acfb2c4a8c53c007027c0786aaa9e7ca78d2ef4ce4f1014719 (0xfd6451fb84cfb18d3ef0acf856c4ef4d0553c562f7ae4d2a303f2ea33e8f62bb, 0xe745ceb2b1871578b6fe7a5c1bc344ccfa2ab492d200e83fd0ad9086132c0911)
     [0xfd1c6ce035d7a092710d5e9db4ae123acfe2987bbf14f3f60159206d47b12cb5;
      0xc52c1230a6b242374a694fcbf09a3ac886bd77304903c496e473bf4f42aac34;
      0xb520b8d08919a91dede30d28eb94d82e4b41afb731bef41d69c6752e11a9af85;
      0xa50dd329cc425045fc9338172b151779d3c3b7a8ada8f822c5b878bc99e3656;
      0xc5ce29a7242e4a4138baf89b074ce73c35b8b19f2e5a4a9ce49566f402cb37d1;
      0x6ce456d64104388c87bcc187f47c9b99cc418e92c40fcdb9814b268a0c3e5d53;
      0xce278c1dbe5b1f5590f81cef2ee564074ce14b42b18b1b5fe6960951bd93de70] 0x818b0c379970c1a14ccadd790cef15fc21a529b01a617d700dcc0a85ddac4952;
   RowCert 0xf492eaa6961c99ae817c48f8e3a99d4a2945f856225756a063f20f3021e24ab0 (0x5be7ea3519f04bc6cbeeaa0344fc90bb8e8462f6ebd890560dae805d414ff9e4, 0x32f32ec3f638e605477f890f655ab7fe0e99c6302119a3094030b07847e0bdbb)
     [0xd1b629b5a74186876e6f7654657dfc52dd44da0418ff35a119063fff42d2e8b0;
      0xccaba9681c010ec4370b9152d540dc4d512c5de66dda3ce412a48bb60215649c;
      0x8b3cf89335d5980aee90a7483b06a795525a839259591c7669f1b8702c170e0d;
      0x25bef928c2a148f1e9f11c0d1d21c071c93aed4d8f7dbc342eb7207235ef63f4;
      0x67d6ff0ad77c8b6de0cabdff7411f94bba5f3280ac003918a05ba8e854685f83;
      0x358943b6dc5b100b3ce656ccf0aacdedcb8017f0230d87dae115a90d4755799f;
      0xdad1c98d2585b9974754d4c3e94504cd8c3f644dca7c0e2f454ce8847b1054d1] 0x3853c2c984fbd3dbe175af0808c1b1c6ad3332aa51e00edd7c0d4555dbd59db3;
   RowCert 0x2236ba67f0aed1ee74398f778818bc9190f4f60d994e1952d10793288a21c756 (0x574ef0ce8a597e24e5670b5c0bcd14cfeefc983c7ecb261911b2365579de5cac, 0x9b99930281f19c73bd6ada0569b78451a260a7bef10008cae59aea6c75a4805)
     [0x36936e7893cce5d003df0c7abb87123f78dd8c059a745c253f2c3e09e7eeffdf;
      0xbf674ee2e636e98ba6edfd710c6364a9a476b9a88306dc287b7ea2ccde2a919;
      0xc8fd0b11cee2142bb64e5dbe548b69cabe7598cb709cb9622fb7eaf6f6c43c7f;
      0x5e2a99914f8e832c5228c2f85e964f2da79bf403193ba7ecf77bda2d3ed8b61b;
      0x4b6b45e34e3604fb551e5c86a680f5f32a1b0355e4bf5217a891aa922c0b41ee;
      0x981b2e701c34c1e283bb1f1f8d9b74be18425475537ec6e365fc5325cd231e12;
      0xea7cfc507a7ae8c7c621d9075acf472014e74ef2b67858adb2608bad709ca474] 0x698c2bf28223a4f78028170336dfe20e1631789351fd0cf86f286bc7883b8a67;
   RowCert 0xf66c18362c94a842ae9f96fd5fe8a693363e8759ff6c57cdc3f98b7730339f73 (0x63964eee619074e0780140fe02e90836e72328d2448386d459c5be23187f5048, 0x3b6cfb3a6b89cf41a39ff9b1c34bfbc93d580b934dde6c84383a284d89309df8)
     [0x48137c4d727073827c75d9e5500ec9e4444deb46b1d2555596e973e08fc010c1;
      0x9175d4682e34da4a7c9648a0266aa96fc96d1a19601c940ef4f9483c9af9dd78;
      0xf64955bcaefec5adbea3517c0fb61baa7c8712054fb1e59589c1121b104e32b7;
      0x5a9c387a370259279895b949225c03f361e17caa73d2d6efea22e15de7732c0d;
      0x339250933d9b997d8ebe586aebafe9e02f87f9213da04c4acb153ed73e97104f;
      0x10f5d18920e76b440b811e7eae30b3da76deeade0d4c205431cf5eb182a94602;
      0x67c2bb26192670a4677cb21527265ef45531b2e593c8411e193677f6f68003bc] 0x1cdced8423b62fc210b9ffbcd0d40bafa52fa198808226398a9e7b766963b8d4;
   RowCert 0xb30ceb66c726c55aa8bdeef02647bed83bb630d8025e1beaa2a4659163a8f3f0 (0x9c7be00b4ef4c444df85d5f61dc1283a23605483e1f8e934b3c210d22cd3c369, 0x9220c0de74b20d2052a26d455ce401483e31153a16769cbd29ee3feba2329515)
     [0x342b9a331c9835240a35d7a2b1272bf96cf0b7cbb51607af5dd26636cf42167f;
      0xf47fea4479a05183dae25e4ef9f00fb912dc0db078276a8d928bc98fe345586a;
      0x7059cee151de9f4db562d7e261e1f0a2b2d22c471cdd7aa5d5f1df88f033a4f7;
      0x79d87f9db4b6fe1a577eaa729d66fc6a312e767dc0051a420acf700a41fdc13d;
      0x2a836405b4d015d7959813c144dd3ddfbc19d778fc3978214caab4bd5266e7a1;
      0x7e39f623a53567d6da171e50fbead98452be9f181d206257bbd5ff1d0423346d;
      0x948e425d2a2f7b063a8bf36fda2146ee85411ed1c511996aa4f421ad011e92b1] 0x7656cbe2ab035d844ea2ea99f33c917f63612be5197637d748db9d419468ee28;
   RowCert 0x22045e501c08e7fd4bfd5e3730fbefb93cc5ef12bac847beb4253468845106b3 (0xcac6f2e7e27faecbcb876f805ea66e63efbe9eaa753d67c1c15eb9ea7f7653a1, 0xf7d416e5e2aa6f194cdb65d9a42a345081e83ae5688103a068c10ad0fec5e556)
     [0xc304766d6ee6141ce26f2365a768bef42d9eb98af5b06d4a14bc5dbcf5c6fdca;
      0xc238b4764d941acdd38931897a45a358f1f9c383a837d929c31ed9c49b6b52df;
      0x31da0ebfd19be7fcba7e50b31c719adb907db2ce607e61e82e1df34aecc4abad;
      0xf94b5be14a798a93af155ac8532d5a3d9d68e405506d5c3eb5dbc30088fd7598;
      0x8f398c8cea236f65c42091eb04fa531dfc95bef68b6c49c711883e592d01122c;
      0x4551b8a6799b8a48c2cbf26c84788b6e39c5a939300b9b629270f2c2239a7c;
      0xc2acfa08fad05c67bef6005cd1ac56b5dd4154823ab6c8c4453596674f5e54fe] 0x3e2efa4051466bd09a8bcc3d7c75e46ccff27dd1167232f7477001d312832cd2;
   RowCert 0x4d2f7028964ab24df12ede0ebb0d70474d9d35e3fa88a6f72d0992ca075e7423 (0x20e6e2e796946bb630c7071ef1b92ea3d53d280e0e4501115f5da36f840dd273, 0xd3ad7afe4f1559e44a0ba1ad97874655811ec9793da8693cc07cfd15bb46b593)
     [0x2d7cb89b8ea523db9a1a3938d28db684e367d2de70f4880310d8bf18114332a0;
      0x40926fca6dd1d1fc242e485b20b17a51fee865028d8015197bc28d3b09a8e774;
      0x76fa3987d5c4089536d7684dc849fe68eb613771953b0636de6293d8f2dea58d;
      0xcefe409a67978223930c8c16d020b600d47eae37bdae3944b87e327533170f34;
      0xf20b3177a2778f69bf0bc509b9bafed62e0a4a473f9e9e82eb925af37fe084c6;
      0x9cfec6dd699cd4a2b562a9b2a89522c821c87b8dfcc5b4bcbc6884bfa428ddea;
      0x3bee3d6d19262aa661bc3f9fe9f127b30fe1b633062361b6a138c58008879742] 0xb0b1d802dbee2e45f78cbddccf3b89e0231ae7da827bb7882d00cf4f6f080f4a;
   RowCert 0x20f70b4b1d6ce28d3cb19b2f27a9714fe1185759ffd6109ec1ae18ba7e0b482b (0xcbee1405ff0da7deafe32ca7dd73d95ed702226b391747c707275a940bc8f53b, 0xf6211f4f4e75f902b51f3e689b8294cf0d9ff4f68126f7282922e6b278c87f45)
     [0x208833895d834a4e8bc6b569c1065ae079d76b31ce6216f94127baa94c8fac90;
      0x65f170eee088c2deeb36e06552d46a3867f2547f9960c8d749939f95647a654a;
      0x7ae49b210af0c0da1ef4b1193f14000c50620a1ebbb3b7c83b92b7611beb0a08;
      0x33d4d7fe55db9638750d20cf0b0d3cb98928db22c7487e03d551455b6187b2b9;
      0x2fef462352e6a4d35e0cc347e4ac082d3def049616866a51e24ceaab8c67ac5f;
      0xae4d6d02c111e9ba328c32b39a71649469b2d5df91ce5716d3e15a6f68b21f32;
      0xe70646c555638d830798a7d3961c2f43d14e983316211849990db33ff430f3db] 0x7799d42ce640378cf8455e7b572d103559637df50a703e354a3835e790710db2;
   RowCert 0x695a461880f215df8c78df54a946d96d3d913b60d87441a36d3e41538f4789b7 (0xbaf183a76100525e23bc7202033725f922b9cd6b36c413497c6c4bacca72da5f, 0xdeac9fbe9ccb4d335688bd58dd69b1d18e2336c5ca739361377ce628a8f2a0cf)
     [0xf9ee574a3d6484ce0c43da3c32d395aa92e60eef86bc305cffa4a74c86675f1d;
      0x6a2f5fe651fe6285731d6c2ddd54a1d0efa97d54ab881feee32ce69faea1ee71;
      0x256d8e25618298562a57c7517483a310faee554b6317d15babf1e6788acc619d;
      0x25dea25096303adba8b38e2cb5907dc7df43fbc545975ca677adb5cfc461f1c0;
      0x1ed87b7271b699858401a984bf95d272915762566d0d2aced081bf703fafd2d;
      0x569d1b582cbc9d75e63afe6e04e24f7599b64cf0b93218e2bf588bd01b2ff356;
      0x1fa4943666408e02d45ad99962015bb9956b8af0f4381f9378d8f861facd98ae] 0x3aa65b97b9118771a50c0eaa8b0f47cf3597573d780fce2c8ee623e3c95aaae2;
   RowCert 0xae953ad3269b7bcb3fc29e1dc17815047a20636d0ece8ba0dc6dddcbf615bda (0xb866d6b142df940f2cf28b54c92f0c1294e0b6a22a91f2ef44bcd88c4384480d, 0x1914b0b3426aeb7089a278d7ea9ad7ac24e522804b1d86d60e659b470c4cafa8)
     [0x4c51d3e9d4c8028fcea3bc0eb872f4b854fbff36220de93ca3935c10152e9659;
      0x829c66f4b3a3246c9d6364786e08fa281c16e48200a2fb07e1908a3f9f126eb;
      0x707126f23ce96b8dee59be2fc892acb20df656a6adfa0477bae5fd0cfff65b87;
      0x4daac09a54488567b06f8e5a7c4606b0803393ebf101e83470754893ecbd5463;
      0xf33d2aeea5429ac00bcf94157c66122f06ecb0fdefb6d3e3e4c6a1e92e197fa5;
      0xbb01f736814151ddb601f18c81c418c94db2769f7cfae6f1eff07c5f9709699b;
      0x491bcf24ab9dbbd5743d6bd34b5ebc7f049c689fc3323d27f90d6dcc020f7b8a] 0xdb5465f8951662d0964f6fc76ddfdcc99fa68d78977c58493c1e58de7fc2afd;
   RowCert 0xa1f316299c051adcfd77e3908b8b8e1d16a72fcd0b069f7ae3f53fb842d3ad56 (0x9629a450bd383a8b9fd43c6cd1d492bf392ed605299561dde54433526ce9f114, 0xbf439b280c5fb6d7576befd220cef64db925593e5c56af8dca3972c4a24aa391)
     [0x9e7d2303c0891fc4e98b633ac9b78d016ad4bbca059c3cfae3fa8a4e094843c7;
      0xd9906b88b823322672076c3de80a1a07f08dd9e25a8cf1f87329356cfc8491d8;
      0xbcb0d137b979812a3511a264789c2c7a9ac582b7e0387a0f38633b92f3dbc255;
      0x97ff77192826cf649f54a521b97f02b3bd69d1e749fa32cf0f0e1674a228916a;
      0x9a1f598f325d386629cca57b34790c3dba5d167a3a44e1f04e886d6c5f9d94fc;
      0x43d1032892d67a7cc7e31127c30f43922af93d15799027f47ff521b43bb9e4bd;
      0x49120357cd5514d961f54bbdd63f10b88706a29a375e08206ae739857accba7b] 0x6499867c0624c1c932365ec591ba2d99cbb18ba1325e1bbcee11ba132f54a2e7;
   RowCert 0x7f6ca70ea09ad6dc86113265e004c641fe4ade7c26f023e090d6fed00d0af860 (0xeb3cf8f532245362ec05c88c85fe12d19182be7dceabe577c75849c6065084ae, 0xc833c78222d9d70043fe63dcefdca4a1f52b45c5e7dbd2a66f67c1fff96b9480)
     [0x9c885f3279c907ce64d715bdaf29c33dac3fdd647d893b6729d755685e2dcaa;
      0x1d3bfdea637c81d92b77eb6923bbdff8227fdbcd0d886c32b0e55283be65d2d2;
      0x8b6d0ef4979ec0eac11e812f967fe9a4a550c1d43e7b7c6dd2fdb1985bcc918d;
      0xe72ab970ae8e2a904e231774d1d2af3b5cb5c86c8eff9c4b8ab788090e666612;
      0xcd6ccfb524c599698f96650cc4a06d5f6bd5d6e8827735dd8402fd27324d340f;
      0xcca0444b551d9d55a85554e8fd86daf5ccdb0777656444b862274d724a12bd45;
      0xdf20496b1e6e3f1f19065ccd4e967121da9db7e57cb94001ee9392ca2b2a88d8] 0x6d558015f0104fcb114ab1ae25e8a7d20dcf241b5df9fb95357e8f3c069f00ed;
   RowCert 0xaa3e6192682f538d4b72a6099461c5e2cfe08640786f4558796afa7bdd1b4f14 (0xda433d5e11ceccc0abc5c7626ce7bab42e89b221f785c409282de545f3fceb19, 0xe498dbd321a810301debbdc4af95e5218e77fc2d9227b277684e7120a6f5cc64)
     [0x887aca47e363c7ab893a25ea87d83952a3373c1e5ef370f076787a444340b70b;
      0x5b2bff4f9126e25c3d52a3a5adb88e1132b01d3dca55a1c173b65579c75df5d6;
      0xd7b342c63e03053d0ab1aa11a5db872bfaa2042d35258ce1e17b8b7a5b87076b;
      0xae09788fae717a1aea87846332a8aec85b5ffe3449eb646dbd83acb892f7498d;
      0x3cfb75ca967055d68eb7a9219d402aa4a699d50545cc3d2fa7e0eac16d9d683b;
      0x2bc3f45f07840a84ee0bf1a658d035c9809e4d2cc4930354145ac3a8c2a10edc;
      0x297d9b8d2e236776f0f6cf5bf61e2b1ffe49cb62bc97e16bd26f8d21dbb538c] 0x52cff9be87882d7bf26b42136356b78ed45235ea750a0abea981e025bdf9c93;
   RowCert 0x1bddb5e9b6dcb12288dee8372dd502b817cebcf99239560c5bb02eae1f5b8d6d (0xab1ac1872a38a2f196bed5a6047f0da2c8130fe8de49fc4d5dfb201f7611d8e2, 0x13f4a37a324d17a1e9aa5f39db6a42b6f7ef93d33e1e545f01a581f3c429d15b)
     [0xe5ddb50d3b99cd22018eaa7331ac97fb305ad4efa498fe05954136694e29fb92;
      0xad8fa2e79fca695478112a31fb5c8d05de9e78c5aec9b811f521d056dfdd5ac3;
      0x52716ac9eb986b6ede5b0a83c57cbf7574d87cbca3cd931ac8cefd6c9c382a8e;
      0xcf6f1deee02419867ce3f08e33ce03d64f0bf4d672856e140746caf9be0cafe0;
      0x19b86623042f4c2e28e2ce2be68a1fc9ae5ee0c63730754236f675b7cfa84b01;
      0x907a00164132b6d3715c3ded1b35c7d6631fa6414f13755ef9a48a2238565834;
      0x841af799102da1c5ccd6caf632c779318adb089085f79ca3a4f3b3f6dcfcd1e9] 0x87663c7968b6ce5af114758089972729f4a3fd3f66d9a3166a1418e9bc467d29;
   RowCert 0xf606cc653fb2edb4402ff71980fbd71223060bd7ebc89b350e2a4b367515686a (0xc25f637176220cd9f3a66df315559d8263cf2a23a4ab5ab9a293131da190b632, 0x53154fede94d2873989049903809d7980a9f04ff9e027a1d6eebf3d6fc9590cf)
     [0x3a24cc96368aa69192b6278fe80b0b2055f7dfc4adaed408d78b8e65f0eff45c;
      0xd129012b61191f600a3d52ad0250f4fcaeb496ea032f79fc5f322ce2b05672c0;
      0x32e1ef9b6c302aec21ca5a0d53c2915386669b6c6ba9909f047f4359aa484c3c;
      0xf00ca3583771f55ede70721c3eed231ecdefd80fde8f49af70b997f13f1871e0;
      0x1dad8faff0c58dd6e66fd6ce213b4bdd5aeed53d6c9017f374b2e9fb64d9d1f;
      0x4b346635aee88f5829a0ec5267a43bbd6803a5ffc018334da873d010ecb7c90b;
      0xbc8382d66efff15f9ed2d65ed04f8628dc98fc796b522761973baf5254718017] 0x0].

Definition secp256k1_sum : list (Z * (Z * Z)) :=
  [(0x893b1b36d42955cd88a643165e58eedb8aed44cecf6963cf5251dca16dff7113, (0x186b483d056a033826ae73d88f732985c4ccb1f32ba35f4b4cc47fdcf04aa6eb, 0x3b952d32c67cf77e2e17446e204180ab21fb8090895138b4a4a797f86e80888b));
   (0xdaba5fac304515d022acfd39862a8c559d4eedb513383dd4067e076bc74de348, (0x569cb44c9b7900aa576ba0bf61c4455afb09ff4bc30242d7fba993fdbb37425f, 0x2021472d00e51c2be18709b9538225c23eece217f1da992f2ccbfd8cf33cab7e));
   (0x7c5509e13e2fab3b83575c65b8c62d6b9d39a83e0415dc666f7704b5818e1fd8, (0x66697421b3d71e5251534ce02207ef68f2bb0ce81c4e2eb75fab18ed11531b19, 0xf6cad8b3caac22cbeba3934a183ecf1f1c2da03f299d6cde7840305e57dea90f));
   (0x464ff6524da57b1ae50fc00d59865d9e047411e4942550bde53db0e64b6b28c6, (0xc8db06b4203881c24280af548d7212427fcfb4d3ff2647b4d2d423b8135dd420, 0x4037b81be21acf19ab141c952570f1985653340fb451f11e1ae36cb5186d2c43));
   (0xa90c059dfc018da946a97d082f22b5a69837c6ef2e17a81f3b3e3c7cbef456ba, (0x4398a9fad1ee8619290bc61c46c7448a6331cee78f18f1eb5dce2a3eff397b68, 0xba9c5b4f812c68bd8eae301d487c2446c98153ef3e64fdd0f43afcafd6dce55b));
   (0xdfd7d78844c36f9d9e90a5722179ae59ed9140bc2a1302ec2416c291a4e493e8, (0xe86665a9762155cebe1129f2b56baa79c39c94851cacdd7510966cb07267a39b, 0xe6b18635fe40a71483a2844370555ebf01f972830d8880551c3ac649502e5dde));
   (0x9e3d7e2ae52c1f3ceea29feb05af5d83139b28eed5ddd4166e68f7487b389481, (0xda4e95adf16f0e8fd141d21013af123e7e1b5c6c5808add2c2e0e8826a871af0, 0x7f022cf90aeec778fdb7667b58771d1e571d65594622d27a3f450d15b51ec66a));
   (0x36263161489e859aa6b3074f194097be8bf1dca550c5b69536f4a74f5ecbd65d, (0x3ddd848b25422c73740fd47b688a494b4adf1bab39efc081e48b6a1739de3561, 0x15ceff6f097d3ae1f0b4abd17ccb41deff6fe02e67bd019c0a8707cb9779bfaf));
   (0x289c1ef95d756c1af98cf75fda4cb2fd5f6157dbb93f79d1e8982582f67b7117, (0x7ac5690e16f63b30eb0d34a6c61a333571387e78718c71befb92a452847222ad, 0x94f3d499fe2cb0371860c0de4c064f3a481bc59e067ad9b5f46f1a8d3df68b35));
   (0xe755cd7f1a8fdcdb9008244776120ab7e6e1cd777acc4925546c71e792c63f91, (0xb48748b4910f7493f7df5c91c81099695c1c557dca159b3cfa497256ec09e4cb, 0xce32fcd2e3a4fa873799a7ad1f9a2d42f2916977c0d5db3fe10db1e636eb1670));
   (0x18018499efcb57363e110ff7b551059c732cfc931dbeeaab4f7ef20e73191055, (0x3a7f5a222f30987c98c2cd3b0f5425d8eda26877f8d4a2761155830eb5a7b187, 0xeb2a26d16c22af7e35f1636cbef176a1595a543d34a9c53002969722c2f3e761));
   (0x73954346a953b42fa33f4e1bd355400b7d6b8daec39cc979fe4c427a0f39db55, (0xdb4debedbb9468943822660643f229864d4d415da851d48fbfb65601eb0648d3, 0x8e67133a0b8e549b5fcbb222baf5ea310138e31bc0ee09549b3a123dc44dddf9));
   (0xb117ecf32809b63d8992f3a5990b7365bf50bcdacbb81a995fc2c7e0ebc86e95, (0x7e6e0cd74b2fb86ac20274c8eaf9c7f9ab3241085e2be17ee70636a8d83248f0, 0x860b6eacda868eb88e08766f4ee302e71099fc45770641dceca1876dbaa711d0));
   (0xf110d8c860ba5fd5e07e8bc0cdf0492ae6c36e512083096a0630e7a1fecd11d2, (0x51e30660b0713bdb461f3977a8f778a2b3014c7d2b44b5615ef06b9bc32cf68c, 0x2e9935e9c1143b53e07b87f36d5153ebdd09d43ded0bfd3834e3877ab4fa87d2));
   (0x6a2e3633eaade19365d3ba1cd0d55e7c5d2dcf77785f673a7b21429f3b265766, (0x84f4101008af280dacc03df64cc1481b28cfa1a90dd79b0b14f8aa8a5ae6bf42, 0x50d4edeaeda984377dce6d3d859f43494620f783733e7e7a5f633818fe72d406));
   (0x1836df2f3b75cd10575815ff98eed7fe65cf1d1293f5aa71d00e119283244c8, (0xecd7e0001a8c64ac630abdf2237791d22f6c8b480421757a062cb5c973a1b16, 0x66c5bf0f2d47a3416fc2c5683503dcb99bacb90481400f4e3715909edd32ed55));
   (0x2e77fe593e08de6f1138ed3d7475381929c39084f80d15d7035cc5e93b701449, (0x5191bcbfb01282f6832b00011afe83ae0cc7d3dd1cb8762fd5c03af772a6c543, 0x69f816b4275ba02ddce7287933f5fc153e3079d8c8970f3fe9c7a4f6b045c5f3));
   (0xad6756fb366a5af07ee64b048fa1e0a4073e9333e93cee94c71b41b4baead200, (0x8c074c803b98bd4fdc254f3fe4a94b4ecc47153a5e9be8f5d945cf864869c258, 0xca56b20338880bf16c998c8bbae914c6ad2e311cc77d85630921adbeb6392e61));
   (0x2e7968db86490e5f9223574fa4bad42c3ce6eaa3a27e249ee9bab21e8d18c792, (0x5539473917b45d7983d56c66b4f5db8f8da79d515c9d2e57b29fd5c061d1826f, 0xebba553b8ac9a26926242470f3dd5e38137eb757f9e094bcd73feb69d296885b));
   (0xa1f67b01654d81eb92a084f380145aaf3e6680d92a9c82328036349c42974de1, (0xb5a6eae778419f4b8fb2c49bc465937d04d811d26615ddc1a4984ffc1de78db0, 0x6be7a06b35b189d95b85ab3524c46c27a54ac98c02a9aee47125c8d5fe1230ca));
   (0x6ad1903b9fc5b126670bc0b47eef77b87215a81889b04cf6b3213fb1a685bf3c, (0x5697fb65327a39d695f45850620a2de21ab27293d7ea8ea5898497cb331299b8, 0x42fc4aaa5a4355e0b98c9d8932ff70b43545f3719c9553d0457e3b0c84c109b9));
   (0xa04868d9ab96540aa7ace911f2ee59602f6269d65556d6fdee59cf9b74aaa28f, (0x85fb62c5afd1c4bf9d25d4b96d47422798f7cd92d0be7d29faf069c5b92b73a9, 0xf30e1310c82f69ecad5e6e9b662e13f56aa8e1d26327e3e35faca7620905ded6));
   (0x533cb3327eeaaa7d3c82c3d6f7595a83a63e3393313d34b4df3fbe6283897c67, (0x6d29c82f189bb5f2dd33cb20e6ed7a53daf5f3629d0910acf7d88f32185417d0, 0xbd08d3757efdf1d2606d76dc7cb3605d5d8b75f1848d9b7f789a942a4ec79f73));
   (0x72a881cc2e40c129939bbb3c59d5af75b0adc0bd4c19a3b0a5afa955aedee4e9, (0x2e023f3352354e9307dba954a494e59490f878207e44d360caf7f43ab14150c5, 0x1a2b4236a7afaa54e76e1103973c653ba5714bb70e2295d2931faa7cb3963053));
   (0x2e6ac19dba11ef7d3b9d0c0b702788b9f7a69138346fd66d18eb7f13ecf0e25, (0xe73dcd9449823ca72f0327de75505994adf71de4f3d63d07f158fcd76a1ce145, 0x7a886ee5f2da8cc37caa497fa92ceaa683295b9c68ff5bef112d528f2f633438));
   (0xc706ae8a6e57571e4a85b7f861fb682d16e4a2a5a85f7a372b669f02c77ebd28, (0xf526be64e59e448494bfc16c842cc08b0238ecd47aea81b5fb2a175d893fabb1, 0x6bdfd728a83a5c4771428c94621bc1b6d859b285679fe0444a150505ad56f767));
   (0x44642c1293168184736d30857f3092dbf189b78941427847a2d508435743b9ed, (0x853c61bc7c98a0546c2eb5ae5ee72a6cdd460dd25bef08690221fb66b6d5f487, 0xec91639270c1949811db69dae3952c2492f1b21ceb3c7f2df04e204c877bf8f6));
   (0x99a5a6d16181f1f7cbadfd6622e76cd6de174fbb7c898d47b5e2894156b154be, (0xe0acbdaa856e2bb6748617420d4d2c423e4a54dda4bd9e075f05c47bff4b0b49, 0x8b871f17004cb6c7997680293692d31f74863e12db70029485b808b5ff6a46e4));
   (0x147977baf7e1c75fa1682138eaf92d488bdc22ee3e07b7695d37a0e12e9d4c60, (0x2d7268dbc9e8b611bc99e57e40958ba5b7b2236294077d7f2db8166c43f6594, 0xa41dfd9533968202289c34955b27b2ff409547ebaa2e39c335773b02145411a4));
   (0x74d93ef7c8feace813b244e55f19d165c0bc5e736263f2271d78d5d9fd68c28c, (0x5cf69822879b757e8677abc701d4721add75263406e0cac1771f3c4dadc17289, 0xa26ca7646f6a68827603ea84eb55d71fdc36400c27cfe55bfdaf16bdd31eb145));
   (0xb45f439273880c438f83ae65303c7032f0ca4d88191e831b6ca8d15e93b12e71, (0xf50cb15a62672f2e7e0ac8a9a896e1a2d52edca00b0c464f22917c18f52a81a7, 0x9b1496a9fd0939ff934bf6841dedd053c68ceb40abbfcd17a4eea632694ac919));
   (0x83be92a21fcf3bd0308e5e7a1df3ec1a3057d2b714271b875d0f38e0639ccf4e, (0x5b4aa9f5464f360f3e1f82d356075f1e6f13639afb6c3cd107b2c78acdb45790, 0x96a94f25d2e61fe7dddf0f638bd310cef2f7a8880f4b9341c1ff7e7063b59aa1));
   (0xfdc0e2b0b5748486eb0e912b48ce284bad3344c253c0999f3cc0eec7eca96f2e, (0xb8ead36b106b1e77e66dc732b036fa1ea301edbf80271686f888feaebfaa9b57, 0xf147e75153f23c951f2bc0d45623fd051a70b2c1fd6d1aca1450236058e325e3));
   (0x1c28fd1a503d5aa451f574504ec183c67175bdb6401dbbc4da8bd0ee097c1eee, (0x5bd340c1ff3e1a5c15bc5ce17f7507f51c9f8a9a281a2284d34f48ad466f42bc, 0x75e3e9b0b909197e9f41ff5d2249204f0e84218740df7bef889c76e8584c94b4));
   (0xfe7262eac4874c17c3a728fe74cb1bec962dcdb1eaecf7bf54d38bf03575f4ff, (0x31dba3753460f46a6fef89624ae8f73c7a9eccb0d20d01e8731352d4ea706847, 0x314d948335b147d69107c0c23662daec17c05344f72fd4f180010420bb240e4e));
   (0xe91893396284f514a8a3bd0b6e2977f567890313d4f0bc9171576a4b700b2385, (0x910e91ba5bccc2381081ff9a0c40ead75532d4d7751335a181ff52898af867db, 0x61010d74bc22bfada38824f57c1584454906365c75c534c63f2dfd4d4bfe6aa7));
   (0x15cd24ee3235541327378e169e4ef84ac6ca61a69114a4cfffa55222b3d1ecdd, (0x53d267f2627fd7140d3577e26dd3a6559c50e09ac896129ab5965751ff12f77d, 0x9187c16ee14c268a58922f6dc095e3d365ce47180cfbd0081794722532d2edd8));
   (0xabb29e63c1c4b9b998f0ce5e0cb89a20e81a2c96b343d0c13053d4f6a041d488, (0x2e91e45606b00aa02490d59b2796c9b946208b3b322c03b29a4944d327760a3d, 0x23088e5093b47529f778a472f830e21ca3c8afeb3cc9824fb15d781584e9fceb));
   (0x498492ddc2bd0671ea322c582e2da309897bf226739e33ea3667b5e9ed5327b5, (0xb68edff82e574c531ec225c9797eac7b488626d8f7e80aed195ab8e908c4bc13, 0x56e2762a6a46c0449a256a7371e41511f57428edbb3938a2a126dac5bfa0779f));
   (0xe796b0e0934dd252b7e8b74a5d22669caca8aebd22b905472082bdca3f51dae7, (0xfdb1b13c5662392b8cd3c2a92e925efbb13575e1e7f3f53ee736237ee8bc3398, 0x9e5c22a71cef3dd555288e57742201b8103e596444d8aeea46b10311cb46150));
   (0x9e76f5372138caa54387961b5976f1e647bc4ef500c599701a50f821d676055b, (0xcfa0a0ea5ee9ff6f8bc2913f88a5074070a379dba0b82f312bba64f2e5ef9317, 0x423f6a8db4a3b6f248b3e8f4f0e9fd56b9a4bdd779f1020c375d1dc6cb4cc1d6));
   (0x2e86032f879857668140c7dcf749247f9ef2e07a195bd761da2662f47be6941a, (0x420bf137853b852b48e75f30fbc1b0e2a55358e05e5034453e5bfba2a768f494, 0x855887f7bf03ab1432452924fd1d1395e18cd62fb48cb6181118219d6d0aec7d));
   (0x3d55fe10ac3c4a3eef503dd52a12b91a226e29b362ca52dc339d8c5b727b4c, (0x32291d0c71362f6c129ac4d7292d2f63aa29f47a37c1384adf10c250840c64a9, 0x383a2f6c238881628e8ddab189742028c1687c491cd9debe0833ad07348c4722));
   (0x9713a3e44941c09f557c9d45f59ebbab8d8cbaec906149eeefd04f0a453f97b8, (0x8c5bf317323d51a449292c726850616174b36d2f511a03ac061b6caefac62518, 0x967d8a9e15eaefe18f36e2916e9648a9b3054ddabb71a7c940fa7cd4f22f4c04));
   (0xae37ed5e35eb1c273370096412dd801f37fbf89d6ed40e9a1975e68f7dfbd8e4, (0xfe39f9931f8580d74b06c98335cb270dcf72c1dd3ba2cb3564b2784719c5b061, 0x108a4dd147bef22f566109c48c6bc524aa13105d89992a5574e74ae19026b1df));
   (0xbb25e9fa239babd92fc5ec7640580e2be061dc9b80581cc0264bc05e51fe4600, (0x695448202f6547af91e66f3b38ea6244f9004d9d0aa593256514d5b7ea5c9909, 0xa87bb1736eeeb7ba28861350134ddeda4e00f85a742619d0393f2de7273e16a9));
   (0xede205df8bd9d078004f169b613d20546a6b9f91804c3d77bf7e19fd3b8ec7f6, (0x2af86b8393e2013275e18347ec0eb4ee2df1df65dbb38a4e3d53f9dfd774c728, 0x378b41649a44d205e05db8f3f6138e71d86ccaadaf237453c26803ffe69e5cce));
   (0x712fdde68b203f2aa5932f1b1cdad5e2d20dc34604bc1bfd02b4c9755c60463d, (0x70f7b8afc6aa2061bc6c93b2fc8c2aee471147834b69299d466009350de6ef45, 0x5a41e01bd28e629828cdaf5cc0736a7682a019d0edbfaa003488db5794ef0c81));
   (0x88c2841b38c00f7646f15d47f0d3fc81eabe1930aa95f7f829fbeb273f452b63, (0x5cc676c101e027304169988905c307735015ed4e285bc0f3dc4e224dbf3a6a34, 0x7ed242650431c312011cab78076a3d231f65c11f34ee2f34c60d0df532eebce2));
   (0x791be83abdc427f94730b99ebd091867c9fd558d20ed99a4139da48387bfc98, (0x6bba7755ac517a5621a4b588f59a6f00ecba19e4c5cd6de24b789934e466423b, 0x5222f8d9e1b7cbbb7b14cac6745c724f9df3b7d0260d55047d3ab9eb737ed0de));
   (0xd0cdbe71617a668177050537742e6bb0a595dcc33afa67a1bb3b2ade2789e6e6, (0xf31bcde4637139b023f16fff60426598992ce559186d5fb458b5c09f50b577ca, 0xd0edc594ca974127b26bb4315f1fe6ce8b19bfc2017fbb0d67d50adbce5de279));
   (0xabf1383eb982b3b0ea9560f239e29cccbd8fe355f50835f095d51ba37169f0fc, (0xcf2e5e74f9ae703c0d86f152152f0b45dcbac3c1c145b85fd32d41c864b3395f, 0x93ebf4bbdd466b982c1bc4d491308e1a2e0d30235dabbeb92132ca6e4432c499));
   (0xf93ae40d8204b289075c1c3b7dc07e0891877f4618f2e8484e7286af3cd93e17, (0xd2d7e1bf8cc7e561a378cf06e4923f0eb943e02507ab40e05bf4cc87b8165dae, 0xea5ba67cb5c1fb5df8baab75d7f0296c7130a7af5bd08e58d1f300657b2d1b91));
   (0x39b2a717bf9b3ab96158581fa8a4e5104c6d2342eff034e80d8b33363978b101, (0xdde1482e6bf525705d354681c5fb35c8aedf589d208d8743da017a64f2e73e01, 0x354f57edcab4a927e3482376eb3c6c41f0c31e49cc95e44dbdcec581d1a7bcf4));
   (0xaf2766e0f356a7a02c69b87f220dfa82b31018f46c865cf4ac79994046e1bcc2, (0xad14da0ccc16eae596feef4f1f7273c28233b4263f9cfa8ee02320be367a29a3, 0x990275088fe257e68aadf546d348aa082784c614386a6a8da68d79a4e9cc93c9));
   (0xa49b6e138878ebc56fe7bb1991e9ce0e9e30d0080e4e6bf8930ae477960199bd, (0x74b45d8e512382f2dfec78657473fbe8cfe97f9d22d1ab275196058fa3633772, 0x81c556164f23fc09b8cb1d354a35c0cba90e464bcbe3c6f8e783e01ec915bb26));
   (0x61a793a24c1039b04f9804329726896bd77723b1623462e4da4a4f401ed3d74, (0xe35804f377aa78e768a70c6dbd3cd493b352bc5d870a5a803772c31fda578787, 0x433b1721278fed4c5d74ca83c9e1ebc0869e79d8f3e3be60f84e9ee30f9df057));
   (0xe0218be7fe7711589906853a3c5af20eb967930bb88202e3037e36e5b097e054, (0x435819533a9bc56a88bb838e480d84af2aebd3e9956c141fbd1262e61897b8f7, 0x246aa5af676323eaefeeea2a4970832095244990998c46e53d67936c6352e93));
   (0x9f83c078ce1b6e261693d07dcc007598e2f295b12d2cbcd94e969257ab9feea1, (0x2642bc23054af85f666960a14be42d4df6cdd768f106b25cae172b73190bde3, 0x62ee4061b6111d7f1ae95b2872892ce863468d0797715e402e66a08439c9b556));
   (0x781226c34df2ac8579a2f759c18409b26c946241aba44f724841eddc9cd4fc2c, (0x1f26aef7af0fc09b7af66780746ec9fc1dbcae9d3e50f516d3d3d27a0254da71, 0xc23047264ebc7cebf78a19b6dc72860546d6a0267c97f389e3d82c6868bb7315));
   (0x1e7545c8ef47afc43bcc16fb49431a8a11585235093078332af6e5eaa96a2111, (0x85c9bd8ad859cdb136a95fc386b552fb9fce855d6cdddad6aa62f800390e1b15, 0x31db9b715276022a7067aa3f821932111ba120b821f47047c0a3e162a659336b));
   (0x453e1ca893db4650159eeae4dd2347d10055f140f25091d7b42b3b519dba70ff, (0x3bc6bc6446bf520136358eb0958dc4aa9e733164dd2d62e151f946107427bacc, 0x71cfa33f8e893cfa3249d11dd9293fd428e48a5add7414b8eb3cc0291528fe89))].

(** ** The base point and the table *)

Definition secp256k1_g : @point (Zmod (cP secp256k1)) := aff (pt (G secp256k1)).

Lemma secp256k1_g_on : on_curve secp256k1 secp256k1_g.
Proof.
  unfold on_curve, secp256k1_g, aff, EcGroup.on_curve, fa, fb. rewrite <- !Zmod.of_Z_mul, <- !Zmod.of_Z_add.
  apply Zmod.of_Z_inj. vm_compute. reflexivity.
Qed.

Lemma secp256k1_rows_ok : rows_b secp256k1_rows secp256k1_cp = true.
Proof. vm_cast_no_check (eq_refl true). Qed.

Lemma secp256k1_G : stands_for secp256k1 (G secp256k1) secp256k1_g.
Proof.
  constructor; [| |apply secp256k1_g_on]; (split; [apply normalized_b_ok; vm_compute; reflexivity|vm_compute; reflexivity|reflexivity]).
Qed.

(** What the checks of the table give. *)
Lemma secp256k1_entries i j : 0 <= i < 64 -> 0 <= j < 8 ->
  let q := znth no_point (znth [] secp256k1_cp i) j in
  limbs_b q = true /\ ec_times secp256k1 ((2 * j + 1) * 16 ^ i) secp256k1_g = aff (pt q).
Proof.
  intros Hi Hj. destruct (rows_ok secp256k1_g secp256k1_g_on secp256k1_rows secp256k1_cp 1 secp256k1_rows_ok) with (i := Z.to_nat i) (j := Z.to_nat j)
    as [Hl Ht]; [reflexivity|change (length secp256k1_cp) with 64%nat; lia|lia|].
  unfold znth. rewrite (proj2 (Z.ltb_ge i 0)), (proj2 (Z.ltb_ge j 0)) by lia. split; [done|].
  rewrite !Z2Nat.id, Z.mul_1_l in Ht by lia. done.
Qed.

Lemma limbs_in_field q : limbs_b q = true -> in_field (pt q) = true.
Proof. unfold limbs_b. by intros [_ H]%andb_prop. Qed.

Lemma term_ok i : 0 <= i < 64 ->
  let '(n, q) := term secp256k1_cp (secp256k1_n + 2 ^ 256) i in ec_times secp256k1 n secp256k1_g = aff q.
Proof.
  intros Hi. set (A := secp256k1_n + 2 ^ 256). unfold term. destruct (digit_index A i) as (Hr & Hv & _).
  set (j := Z.shiftr (digit_bits (window A i)) 1) in *. assert (Hd : digit A i = 2 * j + 1 \/ digit A i = - (2 * j + 1)).
  { unfold sgn in Hv. destruct (neg_digit A i); lia. }
  assert (Ej : (Z.abs (digit A i) - 1) / 2 = j) by (destruct Hd as [-> | ->]; zlia). rewrite Ej.
  destruct (secp256k1_entries i j Hi Hr) as [Hl Ht]. cbv zeta in Ht, Hl. destruct Hd as [-> | ->].
  - rewrite (proj2 (Z.ltb_ge (2 * j + 1) 0)) by lia. done.
  - rewrite (proj2 (Z.ltb_lt (- (2 * j + 1)) 0)) by lia. rewrite Z.mul_opp_l.
    apply negate_ok; [exact Ht|by apply limbs_in_field].
Qed.

Lemma secp256k1_sum_ok :
  match map (term secp256k1_cp (secp256k1_n + 2 ^ 256)) (seqZ 0 64) with
  | (n, q) :: ts => in_field q && forallb in_field (map snd secp256k1_sum) && sum_b secp256k1_sum q (map snd ts) &&
      (n + foldr Z.add 0 (map fst ts) =? secp256k1_n)
  | [] => false
  end = true.
Proof. vm_cast_no_check (eq_refl true). Qed.

Lemma sum_total N steps ts : Forall (fun t => ec_times secp256k1 (fst t) secp256k1_g = aff (snd t)) ts ->
  match ts with
  | (n, q) :: ts => in_field q && forallb in_field (map snd steps) && sum_b steps q (map snd ts) &&
      (n + foldr Z.add 0 (map fst ts) =? N)
  | [] => false
  end = true -> ec_times secp256k1 N secp256k1_g = Infinity.
Proof.
  destruct ts as [|[n q] ts]; [discriminate|]. intros HT H. apply Forall_cons_1 in HT as [Hq HT]. cbn [fst snd] in Hq.
  apply andb_prop in H as [H Hn]. apply andb_prop in H as [H Hs]. apply andb_prop in H as [Hf Hfs]. apply Z.eqb_eq in Hn.
  rewrite <- Hn. apply (sum_ok secp256k1_g secp256k1_g_on steps n q (map fst ts) (map snd ts)); [exact Hq| |exact Hf| |exact Hs].
  - clear -HT. induction HT as [|t ts Ht _ IH]; constructor; [exact Ht|exact IH].
  - apply List.Forall_forall. intros r Hr. rewrite forallb_forall in Hfs. by apply Hfs.
Qed.

Lemma secp256k1_order N : N = secp256k1_n -> ec_times secp256k1 N secp256k1_g = Infinity.
Proof.
  intros E. apply (sum_total N secp256k1_sum (map (term secp256k1_cp (secp256k1_n + 2 ^ 256)) (seqZ 0 64))).
  - apply Forall_map, List.Forall_forall. intros i Hi%list_elem_of_In%elem_of_seqZ. pose proof (term_ok i ltac:(lia)) as Ht.
    destruct (term _ _ i). exact Ht.
  - rewrite E. exact secp256k1_sum_ok.
Qed.

#[export] Instance secp256k1_ok : CurveOk secp256k1.
Proof.
  split.
  - apply secp256k1_base.
  - apply secp256k1_order_ok.
  - rewrite secp256k1_N. apply secp256k1_n_prime.
  - split; [apply normalized_b_ok; vm_compute; reflexivity|vm_compute; reflexivity].
  - exists secp256k1_g. split; [apply secp256k1_G|]. split; [discriminate|apply secp256k1_order, secp256k1_N].
Qed.

(** A checked entry stands for the multiple it holds. *)
Lemma limbs_stand P q u : P = secp256k1_p -> cP secp256k1 = P -> limbs_b q = true -> u = aff (pt q) -> on_curve secp256k1 u ->
  stands_for secp256k1 q u.
Proof.
  intros EP EP' Hl -> Hc. unfold limbs_b, in_field, pt in Hl. rewrite !andb_true_iff in Hl.
  destruct Hl as [[Nx Ny] [[[_ Bx] _] By]]. apply Z.ltb_lt in Bx, By. rewrite <- EP, <- EP' in Bx, By.
  constructor; [| |exact Hc]; (split; [by apply normalized_b_ok|rewrite Z.mul_1_l; assumption|reflexivity]).
Qed.

(** The table of secp256k1. *)
Lemma secp256k1_table : cp_ok secp256k1 secp256k1_g secp256k1_cp.
Proof.
  split; [reflexivity|]. intros i j Hi Hj. destruct (secp256k1_entries i j Hi Hj) as [Hl E].
  apply (limbs_stand (cP secp256k1)); [apply secp256k1_P|reflexivity|exact Hl|exact E|].
  apply (ec_times_on_curve secp256k1), secp256k1_g_on.
Qed.

End EcParams.
