(* ===== verification/EcdsaScalar.v ===== *)
(** * Points and their multiples: the properties

    The operations on points implement the group of the curve, and the two
    multiplications compute multiples for every number and every point of the
    curve.  [supplies] says when the words of the hardware generator are enough
    for a number of draws. *)

From stdpp Require Import base list numbers.
From Stdlib Require Import ZArith Lia.
From Stdlib Require Import Zdivisibility ZmodDef ZmodBase ZmodInv.
From S2P Require Import Prelude Bignum Curves BignumSpec BignumBits BignumConv Ecdsa EcField EcCurve EcCofactor EcdsaPoint EcdsaMul EcTable EcParams.

Module EcdsaScalar.
Import Bignum Curves BignumSpec BignumBits BignumConv Ecdsa EcField EcCurve EcCofactor EcdsaPoint EcdsaMul EcTable EcParams.

(** ** The words of the generator *)

(** At least [n] blocks of nine words make a number that is acceptable modulo
    the prime and modulo the order; the others may be anything. *)
Inductive supplies (curve : ecdsa_curve) : nat -> list Z -> Prop :=
  | supplies_0 words : supplies curve 0 words
  | supplies_skip n b words : length b = 9%nat -> supplies curve n words -> supplies curve n (b ++ words)
  | supplies_use n b words : length b = 9%nat -> 0 < bn_val (random_limbs b) < Z.min (cP curve) (cN curve) ->
      supplies curve n words -> supplies curve (S n) (b ++ words).

Lemma supplies_less curve n words : supplies curve (S n) words -> supplies curve n words.
Proof.
  intros H. remember (S n) as m eqn:E. revert n E. induction H as [words|m b words Hb H IH|m b words Hb Hv H IH]; intros n E; [done|..].
  - apply supplies_skip; [done|by apply IH].
  - injection E as [= <-]. by apply supplies_skip.
Qed.

Lemma k_random_more q f : forall f' words r, k_random_loop f words q = Some r -> (f <= f')%nat -> k_random_loop f' words q = Some r.
Proof.
  induction f as [|f IH]; intros f' words r E Hf; [done|]. destruct f' as [|f']; [lia|]. cbn [k_random_loop] in E |- *.
  destruct (length words <? 9)%nat; [done|]. cbv zeta in E |- *. destruct (_ || _); [apply IH; [done|lia]|done].
Qed.

Lemma block_head b words : length b = 9%nat -> random_limbs (b ++ words) = random_limbs b /\ drop 9 (b ++ words) = words.
Proof.
  intros Hb. split; [|rewrite <- Hb; apply drop_app_length]. unfold random_limbs.
  rewrite take_app_le, (drop_app_le b words 8), take_app_le; [done|rewrite length_drop|..]; lia.
Qed.

(** A draw succeeds and uses up at most one of the good blocks. *)
Lemma supplies_draw curve q n words : normalized q -> Z.min (cP curve) (cN curve) <= bn_val q -> supplies curve (S n) words ->
  exists z rest, generate_k_random words q = Some (z, rest) /\ supplies curve n rest.
Proof.
  intros Nq Hq H. remember (S n) as m eqn:E. revert n E. induction H as [words|m b words Hb H IH|m b words Hb Hv H IH]; intros n E; [done|..].
  - unfold generate_k_random. destruct (k_random_loop 1 (b ++ words) q) as [[z rest]|] eqn:E1.
    + pose proof E1 as E2. cbn [k_random_loop] in E2. destruct (length (b ++ words) <? 9)%nat; [done|]. cbv zeta in E2.
      destruct (_ || _); [done|]. injection E2 as <- <-. eexists _, _. split; [apply (k_random_more q 1); [exact E1|rewrite length_app; lia]|].
      rewrite (proj2 (block_head b words Hb)). apply supplies_less. by rewrite <- E.
    + destruct (IH n E) as (z & rest & Ez & Hr). exists z, rest. split; [|done]. unfold generate_k_random in Ez.
      rewrite length_app, Hb. change (9 + length words)%nat with (S (8 + length words)). cbn [k_random_loop] in E1 |- *.
      destruct (Nat.ltb_spec (length (b ++ words)) 9) as [Hl|_]; [rewrite length_app in Hl; lia|]. cbv zeta in E1 |- *.
      destruct (_ || _); [|done]. rewrite (proj2 (block_head b words Hb)). apply (k_random_more q (length words)); [done|lia].
  - injection E as [= <-]. eexists _, _. unfold generate_k_random. rewrite length_app, Hb. change (9 + length words)%nat with (S (8 + length words)).
    cbn [k_random_loop]. destruct (Nat.ltb_spec (length (b ++ words)) 9) as [Hl|_]; [rewrite length_app in Hl; lia|].
    destruct (block_head b words Hb) as [-> ->]. cbv zeta.
    assert (Nb : normalized (random_limbs b)).
    { unfold random_limbs. do 9 (destruct b as [|? b]; [done|]). destruct b; [|done]. cbn [take drop map app]. split; [done|].
      change (Z.shiftl 1 BN_BITS_PER_LIMB - 1) with (Z.ones 29). change (Z.shiftl 1 BN_BITS_LAST_LIMB - 1) with (Z.ones 24).
      repeat constructor; rewrite Z.land_ones by lia; unfold norm_limb; zlia. }
    rewrite bn_is_zero_val, bn_is_less_val, !truth_b2z by done.
    rewrite (proj2 (Z.eqb_neq (bn_val (random_limbs b)) 0)), (proj2 (Z.ltb_lt (bn_val (random_limbs b)) (bn_val q))) by lia. done.
Qed.

(** The block 1, 0, ..., 0 over and over. *)
Definition one_block : list Z := 1 :: replicate 8 0.
Definition plenty (n : nat) : list Z := concat (replicate n one_block).

Lemma plenty_supplies curve `{!CurveOk curve} n : supplies curve n (plenty n).
Proof.
  induction n as [|n IH]; [constructor|]. change (plenty (S n)) with (one_block ++ plenty n). apply supplies_use; [done| |done].
  change (bn_val (random_limbs one_block)) with 1. pose proof (prime_bounds (p := prime curve)). pose proof (prime_bounds (p := order curve)). lia.
Qed.

(** A point of the code is determined by what it stands for. *)
Lemma stands_for_inj curve `{!CurveBase curve} q r u : stands_for curve q u -> stands_for curve r u -> q = r.
Proof.
  intros [E1 E2|x y Hx Hy _] Hr; inversion Hr as [F1 F2|x' y' Hx' Hy' _]; subst; destruct q, r; cbn in *; [by subst|].
  f_equal; eapply (repr_1_inj (p := prime curve)); eassumption.
Qed.

Section Multiples.
Variable curve : ecdsa_curve.
Context {OK : CurveOk curve}.
Local Abbreviation N := (cN curve).

Lemma draw_prime n words : supplies curve (S n) words ->
  exists z rest, generate_k_random words (prime curve) = Some (z, rest) /\ supplies curve n rest.
Proof. apply supplies_draw; [apply (ok_prime curve)|lia]. Qed.

Lemma draw_order n words : supplies curve (S n) words ->
  exists z rest, generate_k_random words (order curve) = Some (z, rest) /\ supplies curve n rest.
Proof. apply supplies_draw; [apply (ok_order curve)|lia]. Qed.

Lemma large_scalar k : normalized k -> N <= bn_val k -> truth (bn_is_less k (order curve)) = false.
Proof. intros Hk Hr. rewrite bn_is_less_val, truth_b2z by (done || apply (ok_order curve)). by apply Z.ltb_ge. Qed.

Lemma zero_scalar k : normalized k -> bn_val k = 0 ->
  truth (bn_is_less k (order curve)) = true /\
  exists a nz, odd_scalar k (order curve) = (a, nz) /\ ((limb a 0 .& 1) =? 0)%fw = false /\ truth nz = false.
Proof.
  intros Hk E. pose proof (prime_bounds (p := order curve)) as HB. pose proof (P_odd (p := order curve)) as HO.
  split; [rewrite bn_is_less_val, truth_b2z by (done || apply (ok_order curve)); apply Z.ltb_lt; lia|].
  destruct (odd_scalar_ok k (order curve) Hk (proj1 (ok_order curve)) HO ltac:(lia)) as (a & nz & Ea & Na & Oa & _ & _ & Hnz).
  exists a, nz. split; [done|]. split; [by apply odd_land|]. by rewrite Hnz, E.
Qed.

(** point_multiply for every number. *)
Lemma point_multiply_ok words q u k res n : stands_for curve q u -> u <> Infinity -> normalized k -> supplies curve (S n) words ->
  exists r rest, point_multiply words curve k q res = Some (if (0 <? bn_val k) && (bn_val k <? N) then 0 else 1, r, rest) /\
  supplies curve n rest /\ (bn_val k < N -> stands_for curve r (ec_times curve (bn_val k) u)) /\ (N <= bn_val k -> r = res).
Proof.
  intros Hq Hu Hk Hw. pose proof (normalized_range k Hk) as Rk. pose proof (prime_bounds (p := order curve)) as HB.
  destruct (Z.ltb_spec (bn_val k) N) as [Hlt|Hge].
  - destruct (Z.eq_dec (bn_val k) 0) as [E0|Hk0].
    + exists point_set_infinity, words. destruct (zero_scalar k Hk E0) as (El & a & nz & Ea & Eo & En).
      unfold point_multiply. rewrite El, Ea, Eo, En, E0. cbn [negb andb Z.ltb Z.compare]. split; [done|].
      split; [by apply supplies_less|]. split; [intros _; by constructor|lia].
    + destruct (draw_prime n words Hw) as (z & rest & Ez & Hr). pose proof (stands_on_curve curve _ _ Hq) as Hc.
      destruct (point_multiply_val curve u Hc Hu (ec_order_all curve u Hc) words q res k z rest Hq Hk ltac:(lia) Ez) as (r & E & Hs).
      exists r, rest. rewrite (proj2 (Z.ltb_lt 0 (bn_val k))) by lia. cbn [andb]. split; [done|]. split; [done|]. split; [done|lia].
  - exists res, words. unfold point_multiply. rewrite large_scalar by done. cbn [negb]. rewrite andb_false_r. split; [done|].
    split; [by apply supplies_less|]. split; [lia|done].
Qed.

(** The table of a build, if it has one, holds the multiples of the base point. *)
Definition table_ok (cp : option (list (list curve_point))) (g : @point (Zmod (cP curve))) : Prop :=
  match cp with Some t => cp_ok curve g t | None => True end.

(** Zero is reported differently by the two builds. *)
Definition scalar_return (cp : option (list (list curve_point))) (k : Z) : Z :=
  if N <=? k then 1 else if k =? 0 then (match cp with Some _ => 0 | None => 1 end) else 0.

Lemma scalar_multiply_ok cp words g k res n : stands_for curve (G curve) g -> g <> Infinity -> table_ok cp g -> normalized k ->
  supplies curve (S n) words ->
  exists r rest, scalar_multiply cp words curve k res = Some (scalar_return cp (bn_val k), r, rest) /\
  supplies curve n rest /\ (bn_val k < N -> stands_for curve r (ec_times curve (bn_val k) g)) /\ (N <= bn_val k -> r = res).
Proof.
  intros Hg Hg0 Hcp Hk Hw. pose proof (normalized_range k Hk) as Rk. unfold scalar_return. destruct cp as [t|].
  - cbn [scalar_multiply]. destruct (Z.leb_spec N (bn_val k)) as [Hge|Hlt].
    + exists res, words. unfold scalar_multiply_cp. rewrite large_scalar by done. cbn [negb]. split; [done|].
      split; [by apply supplies_less|]. split; [lia|done].
    + destruct (Z.eqb_spec (bn_val k) 0) as [E0|Hk0].
      * exists point_set_infinity, words. destruct (zero_scalar k Hk E0) as (El & a & nz & Ea & Eo & En).
        unfold scalar_multiply_cp. rewrite El, Ea, Eo, En, E0. cbn [negb]. split; [done|].
        split; [by apply supplies_less|]. split; [intros _; by constructor|lia].
      * destruct (draw_prime n words Hw) as (z & rest & Ez & Hr). pose proof (stands_on_curve curve _ _ Hg) as Hc.
        destruct (scalar_multiply_cp_val curve g Hc Hg0 (ec_order_all curve g Hc) t words res k z rest Hcp Hk ltac:(lia) Ez) as (r & E & Hs).
        exists r, rest. split; [done|]. split; [done|]. split; [done|lia].
  - destruct (point_multiply_ok words _ _ k res n Hg Hg0 Hk Hw) as (r & rest & E & H). exists r, rest. split; [|done].
    cbn [scalar_multiply]. rewrite E. do 3 f_equal. destruct (Z.leb_spec N (bn_val k)), (Z.ltb_spec (bn_val k) N), (Z.eqb_spec (bn_val k) 0),
      (Z.ltb_spec 0 (bn_val k)); try lia; done.
Qed.

End Multiples.

(** ** The properties *)

(** Affine arithmetic: on points of the curve, whatever they are (infinity,
    equal, opposite or different), point_add and point_double have a result, and
    it is the reduced form of the sum of the chord and tangent law; the sum is an
    associative and commutative operation with infinity as its neutral element,
    and point_is_infinity recognises the neutral element. *)
Theorem point_add_correct curve `{!CurveBase curve} q1 q2 q3 u1 u2 u3 :
  stands_for curve q1 u1 -> stands_for curve q2 u2 -> stands_for curve q3 u3 ->
  (exists r, point_add curve q1 q2 = Some r /\ stands_for curve r (ec_add curve u1 u2)) /\
  (exists r, point_double curve q1 = Some r /\ stands_for curve r (ec_add curve u1 u1)) /\
  point_is_infinity q1 = bool_decide (u1 = Infinity) /\
  ec_add curve u1 (ec_add curve u2 u3) = ec_add curve (ec_add curve u1 u2) u3 /\
  ec_add curve u1 u2 = ec_add curve u2 u1 /\ ec_add curve Infinity u1 = u1.
Proof.
  intros H1 H2 H3. pose proof (stands_on_curve curve _ _ H1). pose proof (stands_on_curve curve _ _ H2).
  pose proof (stands_on_curve curve _ _ H3). split; [by apply point_add_ok|]. split; [by apply point_double_ok|].
  split; [by apply (is_infinity_ok curve)|]. split; [symmetry; by apply (ec_add_assoc curve)|]. split; [by apply (ec_add_comm curve)|done].
Qed.

Lemma point_add_correct_witness :
  exists r, point_add secp256k1 (G secp256k1) (entry secp256k1_cp_0 3) = Some r /\
  stands_for secp256k1 r (ec_add secp256k1 secp256k1_g (ec_times secp256k1 ((2 * 3 + 1) * 16 ^ 0) secp256k1_g)).
Proof.
  pose proof (point_add_correct secp256k1 (G secp256k1) (entry secp256k1_cp_0 3) (G secp256k1) secp256k1_g
    (ec_times secp256k1 ((2 * 3 + 1) * 16 ^ 0) secp256k1_g) secp256k1_g secp256k1_G
    (proj2 secp256k1_table 0 3 ltac:(lia) ltac:(lia)) secp256k1_G) as (H & _).
  exact H.
Defined.

(** Jacobian arithmetic: for a point of the curve in Jacobian coordinates the
    code's formulas (which let coordinates grow to twice the prime) double it,
    add an affine point to it, equal or not, and convert it from and to affine
    coordinates, provided no result is the point at infinity, which the formulas
    cannot express; no assertion of the number library fails. *)
Theorem point_jacobian_correct curve `{!CurveBase curve} q j u v words z rest :
  stands_for curve q u -> u <> Infinity -> jac_stands curve j v ->
  ec_add curve u v <> Infinity -> ec_add curve v v <> Infinity ->
  generate_k_random words (prime curve) = Some (z, rest) ->
  (exists r, point_jacobian_add q j curve = Some r /\ jac_stands curve r (ec_add curve u v)) /\
  (exists r, point_jacobian_double j curve = Some r /\ jac_stands curve r (ec_add curve v v)) /\
  (exists r, jacobian_to_curve j (prime curve) = Some r /\ stands_for curve r v) /\
  (exists r, curve_to_jacobian words q (prime curve) = Some (r, rest) /\ jac_stands curve r u).
Proof.
  intros Hq Hu Hj Ha Hd Hw. split; [by apply point_jacobian_add_ok|]. split; [by apply point_jacobian_double_ok|].
  split; [by apply jacobian_to_curve_ok|]. by apply (curve_to_jacobian_ok curve words q u z rest).
Qed.

(** The base point with z = 1, and its multiples, for the examples. *)
Definition unit_jacobian : jacobian_curve_point := JacobianPoint (cx (G secp256k1)) (cy (G secp256k1)) bn_one.

Lemma secp256k1_multiple n : 0 < n < 2 ^ 255 -> ec_times secp256k1 n secp256k1_g <> Infinity.
Proof.
  intros Hn. pose proof (prime_bounds (p := order secp256k1)) as HB.
  apply (T_small secp256k1 secp256k1_g secp256k1_g_on); [discriminate|apply secp256k1_order, secp256k1_N|lia|lia].
Qed.

Lemma unit_jacobian_stands : jac_stands secp256k1 unit_jacobian secp256k1_g.
Proof.
  split; [apply secp256k1_g_on|].
  exists (Zmod.of_Z _ (fst (pt (G secp256k1)))), (Zmod.of_Z _ (snd (pt (G secp256k1)))), Zmod.one.
  do 3 (split; [split; [apply normalized_b_ok; vm_compute; reflexivity|vm_compute; reflexivity|reflexivity]|]).
  split; [apply Zmod.one_neq_zero; pose proof (cP_big secp256k1); lia|]. eexists _, _. split; [reflexivity|].
  rewrite !Zmod.mul_1_r. split; reflexivity.
Qed.

Lemma point_jacobian_correct_witness :
  exists r, point_jacobian_add (G secp256k1) unit_jacobian secp256k1 = Some r /\
  jac_stands secp256k1 r (ec_add secp256k1 secp256k1_g secp256k1_g).
Proof.
  assert (H2 : ec_add secp256k1 secp256k1_g secp256k1_g <> Infinity) by exact (secp256k1_multiple 2 ltac:(lia)).
  destruct (draw_prime secp256k1 0 (plenty 1) (plenty_supplies secp256k1 1)) as (z & rest & E & _).
  pose proof (point_jacobian_correct secp256k1 (G secp256k1) unit_jacobian secp256k1_g secp256k1_g (plenty 1) z rest
    secp256k1_G ltac:(discriminate) unit_jacobian_stands H2 H2 E) as (H & _).
  exact H.
Defined.

(** C11: point_multiply is total and right for every number and every point of the
    curve: it reports 1 and leaves the result alone for a number that is not
    below the order, reports 1 and yields the point at infinity for zero, and
    otherwise reports 0 and yields the multiple of the point, whatever the random
    numbers are; it uses up one acceptable block of random words at most. *)
Theorem point_multiply_correct curve `{!CurveOk curve} words q u k res n :
  stands_for curve q u -> u <> Infinity -> normalized k -> supplies curve (S n) words ->
  exists r rest,
  point_multiply words curve k q res = Some (if (0 <? bn_val k) && (bn_val k <? cN curve) then 0 else 1, r, rest) /\
  supplies curve n rest /\
  (bn_val k < cN curve -> stands_for curve r (ec_times curve (bn_val k) u)) /\ (cN curve <= bn_val k -> r = res).
Proof. apply point_multiply_ok. done. Qed.

Lemma point_multiply_correct_witness :
  let k := bn_read_uint32 2016 in
  exists r rest, point_multiply (plenty 1) secp256k1 k (G secp256k1) no_point =
    Some (if (0 <? bn_val k) && (bn_val k <? cN secp256k1) then 0 else 1, r, rest) /\
  supplies secp256k1 0 rest /\
  (bn_val k < cN secp256k1 -> stands_for secp256k1 r (ec_times secp256k1 (bn_val k) secp256k1_g)) /\
  (cN secp256k1 <= bn_val k -> r = no_point).
Proof.
  apply (point_multiply_correct secp256k1 (plenty 1) (G secp256k1) secp256k1_g (bn_read_uint32 2016) no_point 0 secp256k1_G).
  - discriminate.
  - apply normalized_b_ok. vm_compute. reflexivity.
  - apply (plenty_supplies secp256k1).
Defined.

(** C12: The two builds of scalar_multiply agree: with the table of precomputed
    multiples (from the lowest digit up, no doublings) and without it (through
    point_multiply) the same multiple of the base point results for every number
    below the order, and nothing is written for the others.  They differ in what
    they report for zero. *)
Theorem scalar_multiply_builds_agree curve `{!CurveOk curve} cp g words words' k res n :
  stands_for curve (G curve) g -> g <> Infinity -> cp_ok curve g cp -> normalized k ->
  supplies curve (S n) words -> supplies curve (S n) words' ->
  exists ret ret' r rest rest',
  scalar_multiply (Some cp) words curve k res = Some (ret, r, rest) /\
  scalar_multiply None words' curve k res = Some (ret', r, rest') /\
  ret = (if cN curve <=? bn_val k then 1 else 0) /\ (ret = ret' <-> bn_val k <> 0) /\
  (bn_val k < cN curve -> stands_for curve r (ec_times curve (bn_val k) g)) /\ (cN curve <= bn_val k -> r = res).
Proof.
  intros Hg Hg0 Hcp Hk Hw Hw'.
  destruct (scalar_multiply_ok curve (Some cp) words g k res n Hg Hg0 Hcp Hk Hw) as (r & rest & E & _ & Hs & Hr).
  destruct (scalar_multiply_ok curve None words' g k res n Hg Hg0 I Hk Hw') as (r' & rest' & E' & _ & Hs' & Hr').
  assert (r' = r) as ->.
  { destruct (Z.lt_ge_cases (bn_val k) (cN curve)) as [Hlt|Hge]; [|by rewrite Hr, Hr'].
    by apply (stands_for_inj curve r' r (ec_times curve (bn_val k) g)); [apply Hs'|apply Hs]. }
  exists (scalar_return curve (Some cp) (bn_val k)), (scalar_return curve None (bn_val k)), r, rest, rest'.
  split; [done|]. split; [done|]. pose proof (prime_bounds (p := order curve)). unfold scalar_return.
  destruct (Z.leb_spec (cN curve) (bn_val k)), (Z.eqb_spec (bn_val k) 0); repeat split; try done; lia.
Qed.

Lemma scalar_multiply_builds_agree_witness :
  let k := order_half secp256k1 in
  exists ret ret' r rest rest',
  scalar_multiply (Some secp256k1_cp) (plenty 1) secp256k1 k no_point = Some (ret, r, rest) /\
  scalar_multiply None (plenty 1) secp256k1 k no_point = Some (ret', r, rest') /\
  ret = (if cN secp256k1 <=? bn_val k then 1 else 0) /\ (ret = ret' <-> bn_val k <> 0) /\
  (bn_val k < cN secp256k1 -> stands_for secp256k1 r (ec_times secp256k1 (bn_val k) secp256k1_g)) /\
  (cN secp256k1 <= bn_val k -> r = no_point).
Proof.
  apply (scalar_multiply_builds_agree secp256k1 secp256k1_cp secp256k1_g (plenty 1) (plenty 1) (order_half secp256k1) no_point 0
    secp256k1_G).
  - discriminate.
  - exact secp256k1_table.
  - apply normalized_b_ok. vm_compute. reflexivity.
  - apply (plenty_supplies secp256k1).
  - apply (plenty_supplies secp256k1).
Defined.

(** The table of secp256k1.table is right: entry j of row i of the 64 rows is
    (2 j + 1) 16^i times the base point, in reduced form; and the base point is
    on the curve and has the prime order of the parameters. *)
Theorem secp256k1_table_correct :
  cp_ok secp256k1 secp256k1_g secp256k1_cp /\ stands_for secp256k1 (G secp256k1) secp256k1_g /\
  Z.prime (cP secp256k1) /\ Z.prime (cN secp256k1) /\
  forall n, ec_times secp256k1 n secp256k1_g = Infinity <-> n mod cN secp256k1 = 0.
Proof.
  split; [exact secp256k1_table|]. split; [exact secp256k1_G|]. split; [apply (ok_P secp256k1)|]. split; [apply (ok_N secp256k1)|].
  intros n. apply (ec_times_inf secp256k1 (cN secp256k1) n secp256k1_g secp256k1_g_on (ok_N secp256k1)); [|discriminate].
  apply secp256k1_order, secp256k1_N.
Qed.

End EcdsaScalar.
