(* ===== verification/EcdsaKeys.v ===== *)
(** * Public keys: the properties

    Which byte strings ecdsa_read_pubkey takes for a public key and what they
    mean, the keys that are computed from private keys, and Diffie-Hellman. *)

From stdpp Require Import base list numbers.
From Stdlib Require Import ZArith Lia.
From Stdlib Require Import Zdivisibility ZmodDef ZmodBase ZmodInv.
From S2P Require Import Prelude Bits Hash HashSpec Bignum Curves BignumSpec BignumBits BignumConv BignumPow BignumInverse Ecdsa EcdsaSig.
From S2P Require Import EcGroup EcField EcCurve EcCofactor EcdsaPoint EcdsaMul EcTable EcParams EcdsaScalar.
Local Open Scope fw_scope.

Module EcdsaKeys.
Import Hash HashSpec Bignum Curves BignumSpec BignumBits BignumConv BignumPow BignumInverse Ecdsa EcdsaSig.
Import EcField EcCurve EcCofactor EcdsaPoint EcdsaMul EcTable EcParams EcdsaScalar.

(** ** Numbers in buffers *)

Definition bytes_n (n : nat) (b : list Z) : Prop := Forall is_byte b /\ length b = n.

Lemma bytes_slice n b off : bytes_n n b -> 0 <= off -> off + 32 <= Z.of_nat n -> bytes_n 32 (slice b off 32).
Proof.
  intros [Hb Hl] Ho Hn. unfold slice. split; [by apply Forall_take, Forall_drop|]. rewrite length_take, length_drop. lia.
Qed.

Lemma be_val_range bs : Forall is_byte bs -> 0 <= be_val bs < 256 ^ zlen bs.
Proof.
  intros H. unfold be_val. replace (zlen bs) with (zlen (rev bs)) by (unfold zlen; by rewrite length_rev).
  apply le_val_range, Forall_rev, H.
Qed.

Lemma be_val_be_bytes n z : 0 <= z < 256 ^ Z.of_nat n -> be_val (be_bytes n z) = z.
Proof. intros Hz. unfold be_val, be_bytes. by rewrite rev_involutive, le_val_bytes, Z.mod_small. Qed.

Lemma be_bytes_be_val n b : bytes_n n b -> be_bytes n (be_val b) = b.
Proof.
  intros [Hb <-]. unfold be_bytes, be_val. rewrite <- (length_rev b), le_bytes_val, rev_involutive by (by apply Forall_rev). done.
Qed.

Lemma be_bytes_n n z : bytes_n n (be_bytes n z).
Proof. split; [apply Forall_rev, le_bytes_byte|apply length_be_bytes]. Qed.

Lemma read_bn_ok n b off : bytes_n n b -> 0 <= off -> off + 32 <= Z.of_nat n ->
  normalized (read_bn b off) /\ bn_val (read_bn b off) = be_val (slice b off 32) /\ 0 <= bn_val (read_bn b off) < 2 ^ 256.
Proof.
  intros Hb Ho Hn. destruct (bytes_slice n b off Hb Ho Hn) as [Hs Hl]. unfold read_bn.
  destruct (bn_read_be_val _ Hs Hl) as [N V]. split; [done|]. split; [done|]. rewrite V.
  pose proof (be_val_range _ Hs) as R. unfold zlen in R. rewrite Hl in R. done.
Qed.

Lemma write_bn_ok x b off : normalized x -> bn_val x < 2 ^ 256 -> 0 <= off -> off + 32 <= zlen b ->
  write_bn x b off = take (Z.to_nat off) b ++ be_bytes 32 (bn_val x) ++ drop (Z.to_nat (off + 32)) b.
Proof.
  intros Hx Hr Ho Hl. unfold write_bn, memcpy. rewrite bn_write_be_val; [|done|done|].
  - rewrite length_be_bytes. do 3 f_equal. lia.
  - unfold slice, zlen in *. rewrite length_take, length_drop. lia.
Qed.

(** ** Checking and completing points *)

Section Keys.
Variable curve : ecdsa_curve.
Context {OK : CurveOk curve}.
Local Abbreviation p := (prime curve).
Local Abbreviation P := (cP curve).
Local Abbreviation N := (cN curve).
Local Abbreviation F := (Zmod P).
Local Abbreviation rp := (repr p).
Local Abbreviation fe := (Zmod.of_Z P).

Lemma elem_repr x : normalized x -> bn_val x < P -> rp 1 x (fe (bn_val x)).
Proof. intros Hx Hr. split; [done|lia|done]. Qed.

Lemma raw_repr x : normalized x -> bn_val x < 2 ^ 256 -> rp 2 x (fe (bn_val x)).
Proof. intros Hx Hr. pose proof (prime_bounds (p := p)). split; [done|lia|done]. Qed.

Lemma b_repr : rp 1 (coef_b curve) (fb curve).
Proof. destruct (ok_b curve) as [Nb Rb]. split; [done|lia|done]. Qed.

(** The right hand side of the equation the way the code computes it. *)
Lemma cubic_form x y : on_curve curve (Affine x y) <->
  Zmod.add (Zmod.mul x (Zmod.sub (Zmod.mul x x) (fe (- coef_a curve)))) (fb curve) = Zmod.mul y y.
Proof.
  unfold on_curve. cbn [EcGroup.on_curve]. rewrite fe_minus_a, Zmod.sub_opp_r, Zmod.mul_add_r, (Zmod.mul_comm x (fa curve)), (Zmod.mul_assoc x x x).
  split; intros E; symmetry; exact E.
Qed.

#[local] Instance on_curve_dec q : Decision (on_curve curve q).
Proof. unfold on_curve. destruct q as [|x y]; cbn [EcGroup.on_curve]; [left; exact I|apply zmod_eq_dec]. Defined.

Lemma validate_ok pub : normalized (cx pub) -> normalized (cy pub) ->
  exists v, ecdsa_validate_pubkey curve pub = Some v /\
  (v = 1 /\ (exists u, stands_for curve pub u /\ u <> Infinity) \/ v = 0 /\ forall u, stands_for curve pub u -> u = Infinity).
Proof.
  intros Nx Ny. unfold ecdsa_validate_pubkey. pose proof (fun u H => is_infinity_ok curve pub u H) as HI.
  destruct (point_is_infinity pub) eqn:Ei.
  { exists 0. split; [done|]. right. split; [done|]. intros u Hu. specialize (HI u Hu). symmetry in HI. by apply bool_decide_eq_true in HI. }
  rewrite !bn_is_less_val, !truth_b2z by (done || apply (ok_prime curve)).
  destruct (Z.ltb_spec (bn_val (cx pub)) P) as [Hx|Hx]; cbn [negb orb].
  2: { exists 0. split; [done|]. right. split; [done|]. intros u [|x y Hxr _ _]; [done|]. pose proof (repr_range _ _ _ Hxr). lia. }
  destruct (Z.ltb_spec (bn_val (cy pub)) P) as [Hy|Hy]; cbn [negb orb].
  2: { exists 0. split; [done|]. right. split; [done|]. intros u [|x y _ Hyr _]; [done|]. pose proof (repr_range _ _ _ Hyr). lia. }
  pose proof (elem_repr _ Nx Hx) as Rx. pose proof (elem_repr _ Ny Hy) as Ry. pose proof b_repr as Rb.
  destruct (minus_a curve) as (Ea & _ & Ra). rewrite Ea.
  fp_step (repr_mod (p := p) (bn_multiply (cy pub) (cy pub) p)) as y2 Hy2; [fp|].
  fp_step (repr_subi (p := p) _ (bn_multiply (cx pub) (cx pub) p)) as s Hs; [fp|done|lia|].
  fp_step (repr_mod (p := p) (bn_addmod (bn_multiply (cx pub) s p) (coef_b curve) p)) as x3 Hx3; [fp|].
  rewrite (repr_is_equal _ _ _ _ Hx3 Hy2), truth_b2z. set (x := fe (bn_val (cx pub))) in *. set (y := fe (bn_val (cy pub))) in *.
  destruct (decide (on_curve curve (Affine x y))) as [Hc|Hc].
  - exists 1. rewrite bool_decide_eq_true_2 by (by apply cubic_form). split; [done|]. left. split; [done|]. exists (Affine x y). split; [by constructor|done].
  - exists 0. rewrite bool_decide_eq_false_2 by (by rewrite <- cubic_form). split; [done|]. right. split; [done|].
    intros u [|x' y' Hx' Hy' Hc']; [done|]. exfalso. apply Hc. unfold x, y. by rewrite (repr_val _ _ _ Hx'), (repr_val _ _ _ Hy').
Qed.

(** The square root the code takes is a root when there is one. *)
Lemma sqrt_repr x u v : rp 8 x u -> Zmod.mul v v = u ->
  exists r, bn_sqrt x p = Some r /\ exists w, rp 1 r w /\ Zmod.mul w w = u.
Proof.
  intros Hx Hv. pose proof (prime_bounds (p := p)) as HB. pose proof (repr_range _ _ _ Hx) as Rx.
  destruct (bn_sqrt_val p (ok_prime curve) x) as (r & Er & Nr & Vr); [split; [apply Hx|lia]|lia|].
  exists r. split; [done|]. exists (fe (bn_val r)).
  assert (Rr : bn_val r < P) by (rewrite Vr; apply Z.mod_pos_bound; lia). split; [by apply elem_repr|].
  assert (E : (bn_val r * bn_val r) mod P = bn_val x mod P).
  { apply (sqrt_squares p (ok_prime curve) (bn_val x) (Zmod.to_Z v)); [apply (ok_mod4 curve)| |apply fermat_root, (ok_P curve)|done].
    apply Zmod.of_Z_inj. rewrite Zmod.of_Z_mul, Zmod.of_Z_to_Z, Hv. apply (repr_val _ _ _ Hx). }
  rewrite <- Zmod.of_Z_mul. rewrite (proj2 (Zmod.of_Z_inj _ _) E). apply (repr_val _ _ _ Hx).
Qed.

Lemma low_bit x : normalized x -> limb x 0 .& 1 = Z.b2z (Z.odd (bn_val x)).
Proof.
  intros Hx. change 1 with (Z.ones 1). rewrite Z.land_ones by lia. change (2 ^ 1) with 2. rewrite Zmod_odd.
  rewrite <- !Z.bit0_odd, (limb_testbit x 0 0 Hx ltac:(lia) ltac:(lia)). change (29 * 0 + 0) with 0. by destruct (Z.testbit (bn_val x) 0).
Qed.

Lemma low_bit_z x : x .& 1 = Z.b2z (Z.odd x).
Proof. change 1 with (Z.ones 1). rewrite Z.land_ones by lia. change (2 ^ 1) with 2. rewrite Zmod_odd. by destruct (Z.odd x). Qed.

Lemma to_Z_odd_opp (y : F) : y <> Zmod.zero -> Z.odd (Zmod.to_Z (Zmod.opp y)) = negb (Z.odd (Zmod.to_Z y)).
Proof.
  intros Hy. pose proof (opposite_parity curve y Hy) as H. rewrite !Zmod_odd in H.
  by destruct (Z.odd (Zmod.to_Z (Zmod.opp y))), (Z.odd (Zmod.to_Z y)).
Qed.

(** p - y *)
Lemma subtract_repr y v : rp 1 y v -> v <> Zmod.zero -> rp 1 (bn_subtract p y) (Zmod.opp v).
Proof.
  intros Hy Hv. pose proof (prime_bounds (p := p)) as HB. pose proof (repr_range _ _ _ Hy) as Ry.
  destruct (bn_subtract_val p y) as [Ns Vs]; [apply (ok_prime curve)|apply Hy|].
  assert (bn_val y <> 0). { intros E. apply Hv. rewrite <- (repr_val _ _ _ Hy), E. apply Zmod.of_Z_0. }
  rewrite Z.mod_small in Vs by lia. split; [done|lia|]. rewrite Vs, Zmod.of_Z_sub, (repr_val _ _ _ Hy).
  replace (fe P) with (Zmod.zero : F); [apply Zmod.sub_0_l|]. rewrite <- Zmod.of_Z_0. apply Zmod.of_Z_inj. rewrite Z.mod_same, Z.mod_0_l by lia. done.
Qed.

Lemma uncompress_ok odd x u : rp 2 x u ->
  exists y, uncompress_coords curve odd x = Some y /\ normalized y /\
  forall v, on_curve curve (Affine u v) ->
  exists w, on_curve curve (Affine u w) /\ rp 1 y w /\ Z.odd (Zmod.to_Z w) = Z.odd odd.
Proof.
  intros Hx. unfold uncompress_coords. pose proof b_repr as Rb. destruct (minus_a curve) as (Ea & _ & Ra). rewrite Ea. cbv zeta.
  fp_step (repr_subi (p := p) _ (bn_multiply x x p)) as s Hs; [fp|done|lia|].
  eassert (Hc : rp (2 + 1) (bn_add (bn_multiply x s p) (coef_b curve)) _) by fp. set (c := bn_add _ _) in *. clearbody c.
  pose proof (prime_bounds (p := p)) as HB. pose proof (repr_range _ _ _ Hc) as Rc.
  destruct (bn_sqrt_val p (ok_prime curve) c) as (r & Er & Nr & Vr); [split; [apply Hc|lia]|lia|].
  rewrite (bind_is _ _ _ Er). cbv beta. rewrite low_bit, low_bit_z by done.
  destruct (bn_subtract_val p r (proj1 (ok_prime curve)) Nr) as [Nsub _].
  assert (HR : forall v, on_curve curve (Affine u v) -> exists w, rp 1 r w /\ on_curve curve (Affine u w) /\ w <> Zmod.zero).
  { intros v Hv. destruct (sqrt_repr c _ v (repr_weaken _ 8 _ _ Hc ltac:(lia))) as (r' & Er' & w & Hw & Ew); [symmetry; by apply cubic_form|].
    rewrite Er in Er'. injection Er' as <-. exists w. assert (Hcw : on_curve curve (Affine u w)) by (apply cubic_form; by symmetry).
    split; [done|]. split; [done|]. intros ->. by apply (ok_no2 curve) in Hcw. }
  exists (if Bool.eqb (Z.odd odd) (Z.odd (bn_val r)) then r else bn_subtract p r). split.
  { destruct (Z.odd odd), (Z.odd (bn_val r)); done. }
  split; [by destruct (Bool.eqb _ _)|]. intros v Hv. destruct (HR v Hv) as (w & Hw & Hcw & Hw0). rewrite (repr_1_val _ _ Hw).
  destruct (Bool.eqb (Z.odd odd) (Z.odd (Zmod.to_Z w))) eqn:Eb.
  - exists w. apply Bool.eqb_prop in Eb. done.
  - exists (Zmod.opp w). split; [by apply (ec_neg_on_curve curve) in Hcw|]. split; [by apply subtract_repr|].
    rewrite to_Z_odd_opp by done. by destruct (Z.odd odd), (Z.odd (Zmod.to_Z w)).
Qed.

(** ** The encodings of points *)

Definition enc65 (u : @point F) : list Z :=
  match u with Infinity => [] | Affine x y => 0x04 :: be_bytes 32 (Zmod.to_Z x) ++ be_bytes 32 (Zmod.to_Z y) end.

Definition enc33 (u : @point F) : list Z :=
  match u with Infinity => [] | Affine x y => (if Z.odd (Zmod.to_Z y) then 0x03 else 0x02) :: be_bytes 32 (Zmod.to_Z x) end.

(** [pk] is one of the two encodings of the point [u] of the curve. *)
Definition encodes (pk : list Z) (u : @point F) : Prop :=
  u <> Infinity /\ on_curve curve u /\ (pk = enc65 u \/ pk = enc33 u).

(** The buffers the code may read as a key: 65 bytes after 0x04, 33 otherwise. *)
Definition key_buffer (pk : list Z) : Prop :=
  Forall is_byte pk /\ zlen pk = if znth 0 pk 0 =? 0x04 then 65 else 33.

Lemma F_bytes (x : F) : 0 <= Zmod.to_Z x < 256 ^ Z.of_nat 32.
Proof. pose proof (elem_range curve x). pose proof (prime_bounds (p := p)). change (256 ^ Z.of_nat 32) with (2 ^ 256). lia. Qed.

Lemma encodes_buffer pk u : encodes pk u -> key_buffer pk.
Proof.
  intros (Hu & _ & Hpk). destruct u as [|x y]; [done|]. unfold key_buffer.
  destruct (be_bytes_n 32 (Zmod.to_Z x)) as [Bx Lx], (be_bytes_n 32 (Zmod.to_Z y)) as [By Ly].
  destruct Hpk as [-> | ->]; cbn [enc65 enc33].
  - split; [constructor; [done|by apply Forall_app]|]. rewrite zlen_cons, zlen_app. unfold zlen. by rewrite Lx, Ly.
  - split; [constructor; [by destruct (Z.odd _)|done]|]. rewrite zlen_cons. unfold zlen. rewrite Lx. by destruct (Z.odd _).
Qed.

Lemma read_coord bs off x : Forall is_byte bs -> 0 <= off -> off + 32 <= zlen bs ->
  slice bs off 32 = be_bytes 32 (Zmod.to_Z x) -> rp 1 (read_bn bs off) x.
Proof.
  intros Hb Ho Hl E. destruct (read_bn_ok (length bs) bs off) as (Nr & Vr & _); [done|done|done|]. rewrite E, be_val_be_bytes in Vr by apply F_bytes.
  pose proof (elem_range curve x). split; [done|lia|]. rewrite Vr. apply Zmod.of_Z_to_Z.
Qed.

Lemma coord_bytes bs off x : Forall is_byte bs -> 0 <= off -> off + 32 <= zlen bs -> rp 1 (read_bn bs off) x ->
  slice bs off 32 = be_bytes 32 (Zmod.to_Z x).
Proof.
  intros Hb Ho Hl Hx. destruct (read_bn_ok (length bs) bs off) as (Nr & Vr & _); [done|done|done|].
  rewrite <- (repr_1_val _ _ Hx), Vr. symmetry. apply be_bytes_be_val. by apply (bytes_slice (length bs)).
Qed.

Lemma key_slices (h : Z) (b1 b2 : list Z) : length b1 = 32%nat -> length b2 = 32%nat ->
  slice (h :: b1 ++ b2) 1 32 = b1 /\ slice (h :: b1 ++ b2) 33 32 = b2 /\ slice (h :: b1) 1 32 = b1.
Proof.
  intros H1 H2. unfold slice. change (Z.to_nat 1) with 1%nat. change (Z.to_nat 33) with (S 32). change (Z.to_nat 32) with 32%nat. cbn [drop].
  rewrite drop_0, <- H1, take_app_length, drop_app_length. split; [done|]. rewrite H1, <- H2. split; [by rewrite take_ge|].
  rewrite drop_0, take_ge by lia. done.
Qed.

Lemma key_split65 (pk : list Z) : zlen pk = 65 -> pk = znth 0 pk 0 :: slice pk 1 32 ++ slice pk 33 32.
Proof.
  intros Hl. destruct pk as [|h b]; [done|]. unfold slice. change (Z.to_nat 33) with (S 32). cbn [Z.to_nat Pos.to_nat drop].
  change (Pos.to_nat 32) with 32%nat. rewrite (take_ge (drop 32 b)) by (rewrite length_drop; unfold zlen in Hl; cbn in Hl; lia).
  change (drop (Pos.to_nat 1) (h :: b)) with b. by rewrite take_drop.
Qed.

Lemma key_split33 (pk : list Z) : zlen pk = 33 -> pk = znth 0 pk 0 :: slice pk 1 32.
Proof.
  intros Hl. destruct pk as [|h b]; [done|]. unfold slice. change (drop (Z.to_nat 1) (h :: b)) with b. change (Z.to_nat 32) with 32%nat.
  rewrite take_ge by (unfold zlen in Hl; cbn in Hl; lia). done.
Qed.

(** 0x04: both coordinates are in the key. *)
Lemma read_full pk pub0 : key_buffer pk -> znth 0 pk 0 = 0x04 ->
  exists ok pub, ecdsa_read_pubkey (Some curve) pk pub0 = Some (ok, pub) /\
  (ok = 1 /\ (exists u, encodes pk u /\ stands_for curve pub u) \/ ok = 0 /\ forall u, ~ encodes pk u).
Proof.
  intros [Hb Hl] H4. rewrite H4 in Hl. cbn [Z.eqb Pos.eqb] in Hl. unfold ecdsa_read_pubkey. rewrite H4. cbn [Z.eqb Pos.eqb].
  set (pub := CurvePoint (read_bn pk 1) (read_bn pk 33)).
  destruct (read_bn_ok (length pk) pk 1) as (N1 & _ & _); [done|done|unfold zlen in Hl; lia|].
  destruct (read_bn_ok (length pk) pk 33) as (N2 & _ & _); [done|done|unfold zlen in Hl; lia|].
  destruct (validate_ok pub N1 N2) as (v & Ev & Hv). rewrite (bind_is _ _ _ Ev). exists v, pub. split; [done|].
  destruct Hv as [(-> & u & Hs & Hu)|[-> Hno]]; [left|right]; split; [done| |done|].
  - exists u. split; [|done]. split; [done|]. split; [by apply (stands_on_curve curve pub)|]. left.
    destruct Hs as [|x y Hx Hy _]; [done|]. cbn [cx cy pub] in Hx, Hy. rewrite (key_split65 pk Hl), H4. cbn [enc65].
    rewrite (coord_bytes pk 1 x), (coord_bytes pk 33 y) by (done || lia). done.
  - intros u (Hu & Hc & [E|E]); destruct u as [|x y]; try done.
    + apply Hu, Hno. destruct (be_bytes_n 32 (Zmod.to_Z x)) as [_ Lx], (be_bytes_n 32 (Zmod.to_Z y)) as [_ Ly].
      destruct (key_slices 0x04 _ _ Lx Ly) as (E1 & E2 & _). cbn [enc65] in E. rewrite <- E in E1, E2.
      constructor; [apply read_coord; [done|lia|lia|done]|apply read_coord; [done|lia|lia|done]|done].
    + rewrite E in H4. cbn in H4. by destruct (Z.odd _).
Qed.

(** 0x02 and 0x03: the ordinate is computed. *)
Lemma read_compressed pk pub0 : key_buffer pk -> znth 0 pk 0 = 0x02 \/ znth 0 pk 0 = 0x03 ->
  exists ok pub, ecdsa_read_pubkey (Some curve) pk pub0 = Some (ok, pub) /\
  (ok = 1 /\ (exists u, encodes pk u /\ stands_for curve pub u) \/ ok = 0 /\ forall u, ~ encodes pk u).
Proof.
  intros [Hb Hl] Ht. assert (E4 : (znth 0 pk 0 =? 0x04) = false) by (apply Z.eqb_neq; lia). rewrite E4 in Hl.
  unfold ecdsa_read_pubkey. rewrite E4. replace ((znth 0 pk 0 =? 0x02) || (znth 0 pk 0 =? 0x03)) with true by (destruct Ht as [-> | ->]; done).
  destruct (read_bn_ok (length pk) pk 1) as (N1 & _ & R1); [done|done|unfold zlen in Hl; lia|].
  set (x := read_bn pk 1) in *. destruct (uncompress_ok (znth 0 pk 0) x _ (raw_repr x N1 ltac:(lia))) as (y & Ey & Ny & Hy).
  cbv zeta. rewrite (bind_is _ _ _ Ey). destruct (validate_ok (CurvePoint x y) N1 Ny) as (v & Ev & Hv). rewrite (bind_is _ _ _ Ev).
  exists v, (CurvePoint x y). split; [done|]. destruct Hv as [(-> & u & Hs & Hu)|[-> Hno]]; [left|right]; split; [done| |done|].
  - exists u. split; [|done]. split; [done|]. pose proof (stands_on_curve curve _ _ Hs) as Hc. split; [done|]. right.
    destruct Hs as [|x' y' Hx' Hy' _]; [done|]. cbn [cx cy] in Hx', Hy'. rewrite (repr_val _ _ _ Hx') in Hy. destruct (Hy y' Hc) as (w & _ & Hw & Ho).
    assert (y' = w) as -> by (by rewrite <- (repr_val _ _ _ Hw), <- (repr_val _ _ _ Hy')). rewrite (key_split33 pk Hl). cbn [enc33].
    rewrite Ho, (coord_bytes pk 1 x') by (done || lia). by destruct Ht as [-> | ->].
  - intros u (Hu & Hc & [E|E]); destruct u as [|x' y']; try done; [rewrite E in E4; done|]. cbn [enc33] in E.
    destruct (be_bytes_n 32 (Zmod.to_Z x')) as [_ Lx]. destruct (key_slices (if Z.odd (Zmod.to_Z y') then 3 else 2) _ _ Lx Lx) as (_ & _ & E1). rewrite <- E in E1.
    assert (Hx' : rp 1 x x') by (apply read_coord; [done|lia|lia|done]). rewrite (repr_val _ _ _ Hx') in Hy.
    destruct (Hy y' Hc) as (w & Hcw & Hw & _). enough (Affine x' w = Infinity) by done. apply Hno. by constructor.
Qed.

Lemma read_pubkey_ok pk pub0 : key_buffer pk ->
  exists ok pub, ecdsa_read_pubkey (Some curve) pk pub0 = Some (ok, pub) /\
  (ok = 1 /\ (exists u, encodes pk u /\ stands_for curve pub u) \/ ok = 0 /\ forall u, ~ encodes pk u).
Proof.
  intros Hk. destruct (Z.eqb_spec (znth 0 pk 0) 0x04) as [E4|N4]; [by apply read_full|].
  destruct (Z.eqb_spec (znth 0 pk 0) 0x02) as [E2|N2]; [apply read_compressed; tauto|].
  destruct (Z.eqb_spec (znth 0 pk 0) 0x03) as [E3|N3]; [apply read_compressed; tauto|].
  exists 0, pub0. split; [|right; split; [done|]].
  - unfold ecdsa_read_pubkey. by rewrite (proj2 (Z.eqb_neq _ _) N4), (proj2 (Z.eqb_neq _ _) N2), (proj2 (Z.eqb_neq _ _) N3).
  - intros u (Hu & _ & [E|E]); destruct u as [|x y]; try done; rewrite E in N4, N2, N3; cbn in *; [done|]. by destruct (Z.odd _).
Qed.

(** ** Keys that are computed *)

Lemma times_nz k u : on_curve curve u -> u <> Infinity -> 0 < k < N -> ec_times curve k u <> Infinity.
Proof.
  intros Hc Hu Hk E. apply (ec_times_inf curve N k u Hc (ok_N curve) (ec_order_all curve u Hc) Hu) in E. rewrite Z.mod_small in E; lia.
Qed.

Lemma invalid_key_ok k : normalized k -> invalid_key curve k = negb ((0 <? bn_val k) && (bn_val k <? N)).
Proof.
  intros Hk. pose proof (normalized_range k Hk). unfold invalid_key.
  rewrite bn_is_zero_val, bn_is_less_val, !truth_b2z by (done || apply (ok_order curve)).
  destruct (Z.eqb_spec (bn_val k) 0), (Z.ltb_spec 0 (bn_val k)), (Z.ltb_spec (bn_val k) N); try lia; done.
Qed.

Lemma read_key priv : bytes_n 32 priv -> normalized (read_bn priv 0) /\ bn_val (read_bn priv 0) = be_val priv.
Proof.
  intros Hp. destruct (read_bn_ok 32 priv 0 Hp) as (N0 & V0 & _); [lia|lia|]. split; [done|]. rewrite V0.
  f_equal. unfold slice. apply take_ge. destruct Hp as [_ ->]. done.
Qed.

Lemma coord_write x u b off : rp 1 x u -> 0 <= off -> off + 32 <= zlen b ->
  write_bn x b off = take (Z.to_nat off) b ++ be_bytes 32 (Zmod.to_Z u) ++ drop (Z.to_nat (off + 32)) b.
Proof.
  intros Hx Ho Hl. pose proof (repr_range _ _ _ Hx). pose proof (prime_bounds (p := p)).
  rewrite write_bn_ok by (apply Hx || lia). by rewrite (repr_1_val _ _ Hx).
Qed.

Lemma write_point_ok q u buf : stands_for curve q u -> u <> Infinity -> zlen buf = 65 -> write_point q buf = enc65 u.
Proof.
  intros [|x y Hx Hy _] Hu Hl; [done|]. unfold write_point. destruct buf as [|h b]; [done|]. rewrite zlen_cons in Hl. cbv zeta.
  change (zupd (h :: b) 0 0x04) with (0x04 :: b). rewrite (coord_write (cx q) x) by (done || rewrite ?zlen_cons; lia).
  change (take (Z.to_nat 1) (0x04 :: b)) with [0x04]. change (drop (Z.to_nat (1 + 32)) (0x04 :: b)) with (drop 32 b).
  assert (Lx : length (be_bytes 32 (Zmod.to_Z x)) = 32%nat) by apply length_be_bytes.
  assert (Ld : length (drop 32 b) = 32%nat) by (rewrite length_drop; unfold zlen in Hl; lia).
  assert (Hz : zlen ([0x04] ++ be_bytes 32 (Zmod.to_Z x) ++ drop 32 b) = 65) by (rewrite !zlen_app; unfold zlen; by rewrite Lx, Ld).
  rewrite (coord_write (cy q) y) by (done || lia).
  cbn [enc65]. change ([0x04] ++ be_bytes 32 (Zmod.to_Z x) ++ drop 32 b) with (0x04 :: be_bytes 32 (Zmod.to_Z x) ++ drop 32 b).
  rewrite (drop_ge _ (Z.to_nat (33 + 32))) by (cbn [length]; rewrite length_app, Lx, Ld; lia).
  change (Z.to_nat 33) with (S 32). cbn [take]. rewrite <- Lx at 1. by rewrite take_app_length, app_nil_r.
Qed.

Lemma write_compressed_ok q u h buf : stands_for curve q u -> u <> Infinity -> zlen buf = 33 ->
  h = (if Z.odd (bn_val (cy q)) then 0x03 else 0x02) -> write_bn (cx q) (zupd buf 0 h) 1 = enc33 u.
Proof.
  intros [|x y Hx Hy _] Hu Hl ->; [done|]. destruct buf as [|h b]; [done|]. rewrite zlen_cons in Hl. rewrite (repr_1_val _ _ Hy).
  set (t := if Z.odd _ then _ else _). change (zupd (h :: b) 0 t) with (t :: b). rewrite (coord_write (cx q) x) by (done || rewrite ?zlen_cons; lia).
  change (take (Z.to_nat 1) (t :: b)) with [t]. rewrite drop_ge by (cbn [length]; unfold zlen in Hl; lia). by rewrite app_nil_r.
Qed.

Lemma compress_ok q u buf : stands_for curve q u -> u <> Infinity -> zlen buf = 33 -> compress_coords q buf = enc33 u.
Proof.
  intros Hq Hu Hl. unfold compress_coords. apply write_compressed_ok; [done..|]. unfold bn_is_odd.
  destruct Hq as [|x y Hx Hy _]; [done|]. rewrite low_bit by apply Hy. by destruct (Z.odd _).
Qed.

(** The base point of the curve, and the table of the build. *)
Variable g : @point F.
Hypothesis Hg : stands_for curve (G curve) g.
Hypothesis Hg0 : g <> Infinity.
Variable cp : option (list (list curve_point)).
Hypothesis Hcp : table_ok curve cp g.

(** Keys that name a number between 1 and the order. *)
Definition valid_key (priv : list Z) : Prop := bytes_n 32 priv /\ 0 < be_val priv < N.

Lemma valid_key_ok priv : valid_key priv -> invalid_key curve (read_bn priv 0) = false.
Proof.
  intros [Hp Hr]. destruct (read_key priv Hp) as [Nk Vk]. rewrite invalid_key_ok, Vk by done. apply negb_false_iff, andb_true_intro.
  split; apply Z.ltb_lt; lia.
Qed.

Lemma invalid_key_val priv : bytes_n 32 priv -> ~ valid_key priv -> invalid_key curve (read_bn priv 0) = true.
Proof.
  intros Hp Hn. destruct (read_key priv Hp) as [Nk Vk]. rewrite invalid_key_ok, Vk by done. apply negb_true_iff, andb_false_iff.
  destruct (Z.ltb_spec 0 (be_val priv)); [|by left]. right. apply Z.ltb_ge. destruct (Z.lt_ge_cases (be_val priv) N); [|done].
  by destruct Hn.
Qed.

Lemma key_multiple priv words n : valid_key priv -> supplies curve (S n) words ->
  exists R rest, scalar_multiply cp words curve (read_bn priv 0) zero_point = Some (0, R, rest) /\ supplies curve n rest /\
  stands_for curve R (ec_times curve (be_val priv) g) /\ ec_times curve (be_val priv) g <> Infinity.
Proof.
  intros [Hp Hr] Hw. destruct (read_key priv Hp) as [Nk Vk].
  destruct (scalar_multiply_ok curve cp words g (read_bn priv 0) zero_point n Hg Hg0 Hcp Nk Hw) as (R & rest & E & Hs & HR & _).
  rewrite Vk in E, HR. exists R, rest. split; [|split; [done|]].
  - rewrite E. unfold scalar_return. rewrite (proj2 (Z.leb_gt _ _)), (proj2 (Z.eqb_neq _ _)) by lia. done.
  - split; [apply HR; lia|]. apply times_nz; [by apply (stands_on_curve curve (G curve))|done|done].
Qed.

Lemma get65_ok priv pk words n : valid_key priv -> supplies curve (S n) words -> zlen pk = 65 ->
  exists rest, ecdsa_get_public_key65 cp words curve priv pk = Some (0, enc65 (ec_times curve (be_val priv) g), rest) /\ supplies curve n rest.
Proof.
  intros Hv Hw Hl. destruct (key_multiple priv words n Hv Hw) as (R & rest & E & Hs & HR & H0). exists rest. split; [|done].
  unfold ecdsa_get_public_key65. rewrite valid_key_ok by done. rewrite (bind_is _ _ _ E). cbv beta iota zeta. cbn [Z.eqb negb].
  by rewrite (write_point_ok R _ pk HR H0 Hl).
Qed.

Lemma get33_ok priv pk words n : valid_key priv -> supplies curve (S n) words -> zlen pk = 33 ->
  exists rest, ecdsa_get_public_key33 cp words curve priv pk = Some (0, enc33 (ec_times curve (be_val priv) g), rest) /\ supplies curve n rest.
Proof.
  intros Hv Hw Hl. destruct (key_multiple priv words n Hv Hw) as (R & rest & E & Hs & HR & H0). exists rest. split; [|done].
  unfold ecdsa_get_public_key33. rewrite valid_key_ok by done. rewrite (bind_is _ _ _ E). cbv beta iota zeta. cbn [Z.eqb negb].
  rewrite (write_compressed_ok R _ _ pk HR H0 Hl); [done|]. destruct HR as [|x y Hx Hy _]; [done|]. rewrite low_bit by apply Hy. by destruct (Z.odd _).
Qed.

Lemma encodes_enc u : on_curve curve u -> u <> Infinity -> encodes (enc65 u) u /\ encodes (enc33 u) u.
Proof. intros Hc Hu. unfold encodes. tauto. Qed.

(** A key encodes one point at most. *)
Lemma encodes_inj pk u v : encodes pk u -> encodes pk v -> u = v.
Proof.
  intros Hu Hv. destruct Hu as (Hu0 & Hu & Eu), Hv as (Hv0 & Hv & Ev). destruct u as [|x1 y1], v as [|x2 y2]; [done..|].
  assert (Hinj : forall a b : F, be_bytes 32 (Zmod.to_Z a) = be_bytes 32 (Zmod.to_Z b) -> a = b).
  { intros a b E. apply Zmod.to_Z_inj. rewrite <- (be_val_be_bytes 32 (Zmod.to_Z a)), <- (be_val_be_bytes 32 (Zmod.to_Z b)) by apply F_bytes. by rewrite E. }
  cbn [enc65 enc33] in Eu, Ev. destruct Eu as [Eu|Eu], Ev as [Ev|Ev]; rewrite Eu in Ev.
  - apply (f_equal (@tail Z)) in Ev. cbn [tail] in Ev. apply app_inj_1 in Ev as [Ex Ey]; [|by rewrite !length_be_bytes]. by rewrite (Hinj _ _ Ex), (Hinj _ _ Ey).
  - apply (f_equal (hd 0)) in Ev. cbn [hd] in Ev. by destruct (Z.odd _).
  - apply (f_equal (hd 0)) in Ev. cbn [hd] in Ev. by destruct (Z.odd _).
  - pose proof (f_equal (hd 0) Ev) as Et. pose proof (f_equal (@tail Z) Ev) as Ex. cbn [hd tail] in Et, Ex. apply Hinj in Ex as ->. destruct (ec_same_x curve _ _ _ Hu Hv) as [->|Ho]; [done|]. exfalso.
    rewrite Ho, to_Z_odd_opp in Et; [destruct (Z.odd (Zmod.to_Z y2)); discriminate Et|]. intros ->. by apply (ok_no2 curve) in Hv.
Qed.

(** Reading a key of a point of the curve. *)
Lemma read_encoded pk u pub0 : encodes pk u ->
  exists pub, ecdsa_read_pubkey (Some curve) pk pub0 = Some (1, pub) /\ stands_for curve pub u.
Proof.
  intros Hu. destruct (read_pubkey_ok pk pub0 (encodes_buffer pk u Hu)) as (ok & pub & E & [(-> & v & Hv & Hs)|(_ & Hno)]).
  - exists pub. split; [done|]. by rewrite (encodes_inj pk u v Hu Hv).
  - by destruct (Hno u).
Qed.

Lemma read_refused pk pub0 : key_buffer pk -> (forall u, ~ encodes pk u) ->
  exists pub, ecdsa_read_pubkey (Some curve) pk pub0 = Some (0, pub).
Proof.
  intros Hk Hno. destruct (read_pubkey_ok pk pub0 Hk) as (ok & pub & E & [(-> & v & Hv & Hs)|(-> & _)]); [by destruct (Hno v)|by exists pub].
Qed.

Lemma ecdh_ok priv pk u sk words n : valid_key priv -> encodes pk u -> supplies curve (S n) words -> zlen sk = 65 ->
  exists rest, ecdh_multiply words curve priv pk sk = Some (0, enc65 (ec_times curve (be_val priv) u), rest) /\ supplies curve n rest.
Proof.
  intros Hv Hu Hw Hl. destruct (read_encoded pk u zero_point Hu) as (pub & E & Hs). unfold ecdh_multiply. rewrite (bind_is _ _ _ E).
  cbv beta iota. cbn [truth Z.eqb negb]. rewrite valid_key_ok by done. destruct Hv as [Hp Hr]. destruct (read_key priv Hp) as [Nk Vk].
  destruct Hu as (Hu0 & Huc & _). destruct (point_multiply_ok curve words pub u (read_bn priv 0) pub n Hs Hu0 Nk Hw) as (r & rest & E1 & Hsup & HR & _).
  exists rest. split; [|done]. cbv zeta. rewrite (bind_is _ _ _ E1). cbv beta iota. rewrite Vk in HR.
  rewrite (write_point_ok r _ sk (HR ltac:(lia))); [done|by apply times_nz|done].
Qed.

End Keys.

(** ** The properties *)

(** C18: ecdsa_read_pubkey accepts exactly the keys that encode a point of the
    curve (uncompressed, or compressed with the parity of the ordinate; reduced
    coordinates, never the point at infinity) and yields that point; every other
    key is refused with 0 and no assertion fails.  A key encodes one point at
    most, and each point that is accepted has the order of the base point: the
    check the code leaves out on the assumption that the cofactor is one is not
    needed. *)
Theorem read_pubkey_correct curve `{!CurveOk curve} pk pub0 : key_buffer pk ->
  exists ok pub, ecdsa_read_pubkey (Some curve) pk pub0 = Some (ok, pub) /\
  ((ok = 1 /\ exists u, encodes curve pk u /\ stands_for curve pub u /\ ec_times curve (cN curve) u = Infinity /\
      forall v, encodes curve pk v -> v = u) \/
   (ok = 0 /\ forall u, ~ encodes curve pk u)).
Proof.
  intros Hk. destruct (read_pubkey_ok curve pk pub0 Hk) as (ok & pub & E & H). exists ok, pub. split; [done|].
  destruct H as [(-> & u & Hu & Hs)|H]; [left|by right]. split; [done|]. exists u. split; [done|]. split; [done|].
  split; [apply (ec_order_all curve), Hu|]. intros v Hv. by apply (encodes_inj curve pk).
Qed.

Lemma read_pubkey_correct_witness :
  exists ok pub, ecdsa_read_pubkey (Some secp256k1) (enc65 secp256k1 secp256k1_g) zero_point = Some (ok, pub) /\
  ((ok = 1 /\ exists u, encodes secp256k1 (enc65 secp256k1 secp256k1_g) u /\ stands_for secp256k1 pub u /\
      ec_times secp256k1 (cN secp256k1) u = Infinity /\ forall v, encodes secp256k1 (enc65 secp256k1 secp256k1_g) v -> v = u) \/
   (ok = 0 /\ forall u, ~ encodes secp256k1 (enc65 secp256k1 secp256k1_g) u)).
Proof.
  apply (read_pubkey_correct secp256k1 (enc65 secp256k1 secp256k1_g) zero_point).
  apply (encodes_buffer secp256k1 _ secp256k1_g). apply (encodes_enc secp256k1); [apply secp256k1_g_on|discriminate].
Defined.

(** Public keys: for a private key between 1 and the order,
    ecdsa_get_public_key33 and ecdsa_get_public_key65 return 0 and write the
    compressed and the uncompressed encoding of its multiple of the base point,
    ecdsa_read_pubkey reads both back to this point, ecdsa_uncompress_pubkey turns
    the first into the second and compress_coords makes the first of the point.
    For any other private key they return -1 and clear the buffer. *)
Theorem public_key_roundtrip curve `{!CurveOk curve} cp g priv b33 b65 words n :
  stands_for curve (G curve) g -> g <> Infinity -> table_ok curve cp g -> bytes_n 32 priv ->
  zlen b33 = 33 -> zlen b65 = 65 -> supplies curve (S n) words ->
  (valid_key curve priv ->
   let Q := ec_times curve (be_val priv) g in
   exists rest33 rest65 pub,
   ecdsa_get_public_key33 cp words curve priv b33 = Some (0, enc33 curve Q, rest33) /\
   ecdsa_get_public_key65 cp words curve priv b65 = Some (0, enc65 curve Q, rest65) /\
   ecdsa_read_pubkey (Some curve) (enc33 curve Q) zero_point = Some (1, pub) /\
   ecdsa_read_pubkey (Some curve) (enc65 curve Q) zero_point = Some (1, pub) /\
   stands_for curve pub Q /\ compress_coords pub b33 = enc33 curve Q /\
   ecdsa_uncompress_pubkey (Some curve) (enc33 curve Q) b65 = Some (1, enc65 curve Q)) /\
  (~ valid_key curve priv ->
   ecdsa_get_public_key33 cp words curve priv b33 = Some (-1, replicate 33 0, words) /\
   ecdsa_get_public_key65 cp words curve priv b65 = Some (-1, replicate 65 0, words)).
Proof.
  intros Hg Hg0 Hcp Hp H33 H65 Hw. split.
  - intros Hv. cbv zeta. set (Q := ec_times curve (be_val priv) g).
    destruct (get33_ok curve g Hg Hg0 cp Hcp priv b33 words n Hv Hw H33) as (r33 & E33 & _).
    destruct (get65_ok curve g Hg Hg0 cp Hcp priv b65 words n Hv Hw H65) as (r65 & E65 & _).
    assert (HQ : on_curve curve Q) by (apply (ec_times_on_curve curve), (stands_on_curve curve _ _ Hg)).
    assert (HQ0 : Q <> Infinity) by (apply times_nz; [done|by apply (stands_on_curve curve _ _ Hg)|done|apply Hv]).
    destruct (encodes_enc curve Q HQ HQ0) as [He65 He33].
    destruct (read_encoded curve _ _ zero_point He33) as (pub & R33 & Hs). destruct (read_encoded curve _ _ zero_point He65) as (pub' & R65 & Hs').
    rewrite (stands_for_inj curve _ _ _ Hs' Hs) in R65. exists r33, r65, pub.
    split; [exact E33|]. split; [exact E65|]. split; [exact R33|]. split; [exact R65|]. split; [exact Hs|].
    split; [by apply compress_ok|]. unfold ecdsa_uncompress_pubkey. rewrite (bind_is _ _ _ R33). cbv beta iota. cbn [truth Z.eqb negb].
    rewrite (write_point_ok curve pub Q b65) by assumption. reflexivity.
  - intros Hv. unfold ecdsa_get_public_key33, ecdsa_get_public_key65. rewrite invalid_key_val by done. unfold memcpy, zlen in *.
    rewrite !drop_ge by (rewrite length_replicate; lia). rewrite !app_nil_r. done.
Qed.

(** The private key 2016, for the examples. *)
Definition demo_key : list Z := be_bytes 32 2016.

Lemma demo_key_bytes : bytes_n 32 demo_key.
Proof. apply be_bytes_n. Qed.

Lemma demo_key_valid : valid_key secp256k1 demo_key.
Proof. split; [apply demo_key_bytes|]. split; vm_compute; reflexivity. Qed.

Lemma public_key_roundtrip_witness :
  exists rest33 rest65 pub,
  ecdsa_get_public_key33 (Some secp256k1_cp) (plenty 1) secp256k1 demo_key (replicate 33 0) =
    Some (0, enc33 secp256k1 (ec_times secp256k1 (be_val demo_key) secp256k1_g), rest33) /\
  ecdsa_get_public_key65 (Some secp256k1_cp) (plenty 1) secp256k1 demo_key (replicate 65 0) =
    Some (0, enc65 secp256k1 (ec_times secp256k1 (be_val demo_key) secp256k1_g), rest65) /\
  stands_for secp256k1 pub (ec_times secp256k1 (be_val demo_key) secp256k1_g).
Proof.
  pose proof (public_key_roundtrip secp256k1 (Some secp256k1_cp) secp256k1_g demo_key (replicate 33 0) (replicate 65 0) (plenty 1) 0
    secp256k1_G ltac:(discriminate) secp256k1_table demo_key_bytes eq_refl eq_refl (plenty_supplies secp256k1 1)) as [H _].
  destruct (H demo_key_valid) as (r33 & r65 & pub & E33 & E65 & _ & _ & Hs & _).
  exists r33, r65, pub. split; [exact E33|]. split; [exact E65|exact Hs].
Defined.

(** Diffie-Hellman: two parties that multiply each other's public key, in
    either encoding, by their own private key write the same 65 bytes, the
    encoding of the product's multiple of the base point.  A key that encodes no
    point gives 1, a private key out of range gives 2, and the buffer is left
    alone. *)
Theorem ecdh_agreement curve `{!CurveOk curve} g d1 d2 pk1 pk2 sk words n :
  stands_for curve (G curve) g -> g <> Infinity -> valid_key curve d1 -> valid_key curve d2 ->
  encodes curve pk1 (ec_times curve (be_val d1) g) -> encodes curve pk2 (ec_times curve (be_val d2) g) ->
  zlen sk = 65 -> supplies curve (S n) words ->
  (exists rest1 rest2,
   ecdh_multiply words curve d1 pk2 sk = Some (0, enc65 curve (ec_times curve (be_val d1 * be_val d2) g), rest1) /\
   ecdh_multiply words curve d2 pk1 sk = Some (0, enc65 curve (ec_times curve (be_val d1 * be_val d2) g), rest2)) /\
  (forall pk, key_buffer pk -> (forall u, ~ encodes curve pk u) -> ecdh_multiply words curve d1 pk sk = Some (1, sk, words)) /\
  (forall d, bytes_n 32 d -> ~ valid_key curve d -> ecdh_multiply words curve d pk1 sk = Some (2, sk, words)).
Proof.
  intros Hg Hg0 H1 H2 He1 He2 Hl Hw. pose proof (stands_on_curve curve _ _ Hg) as Hc. split; [|split].
  - destruct (ecdh_ok curve d1 pk2 _ sk words n H1 He2 Hw Hl) as (rest1 & E1 & _).
    destruct (ecdh_ok curve d2 pk1 _ sk words n H2 He1 Hw Hl) as (rest2 & E2 & _). exists rest1, rest2.
    rewrite E1, E2, !(ec_times_times curve) by done. by rewrite (Z.mul_comm (be_val d2)).
  - intros pk Hk Hno. destruct (read_refused curve pk zero_point Hk Hno) as (pub & E). unfold ecdh_multiply. by rewrite (bind_is _ _ _ E).
  - intros d Hd Hn. destruct (read_encoded curve pk1 _ zero_point He1) as (pub & E & _). unfold ecdh_multiply. rewrite (bind_is _ _ _ E).
    cbv beta iota. cbn [truth Z.eqb negb]. by rewrite invalid_key_val.
Qed.

Lemma ecdh_agreement_witness :
  let Q := ec_times secp256k1 (be_val demo_key) secp256k1_g in
  exists rest1 rest2,
  ecdh_multiply (plenty 1) secp256k1 demo_key (enc33 secp256k1 Q) (replicate 65 0) =
    Some (0, enc65 secp256k1 (ec_times secp256k1 (be_val demo_key * be_val demo_key) secp256k1_g), rest1) /\
  ecdh_multiply (plenty 1) secp256k1 demo_key (enc65 secp256k1 Q) (replicate 65 0) =
    Some (0, enc65 secp256k1 (ec_times secp256k1 (be_val demo_key * be_val demo_key) secp256k1_g), rest2).
Proof.
  assert (HQ : on_curve secp256k1 (ec_times secp256k1 (be_val demo_key) secp256k1_g)) by (apply (ec_times_on_curve secp256k1), secp256k1_g_on).
  assert (HQ0 : ec_times secp256k1 (be_val demo_key) secp256k1_g <> Infinity)
    by (apply times_nz; [exact secp256k1_ok|apply secp256k1_g_on|discriminate|apply demo_key_valid]).
  destruct (encodes_enc secp256k1 _ HQ HQ0) as [He65 He33].
  pose proof (ecdh_agreement secp256k1 secp256k1_g demo_key demo_key _ _ (replicate 65 0) (plenty 1) 0 secp256k1_G ltac:(discriminate)
    demo_key_valid demo_key_valid He65 He33 eq_refl (plenty_supplies secp256k1 1)) as [H _].
  exact H.
Defined.

End EcdsaKeys.
