(* ===== verification/EcdsaVerify.v ===== *)
(** * Checking signatures and recovering keys: the properties

    The specification of verification in terms of the group, ecdsa_verify_digest
    as an implementation of it, and the recovery of the key. *)

From stdpp Require Import base list numbers.
From Stdlib Require Import ZArith Lia.
From Stdlib Require Import Zdivisibility ZmodDef ZmodBase ZmodInv.
From S2P Require Import Prelude Bits Hash HashSpec Bignum Curves BignumSpec BignumBits BignumConv BignumInverse Ecdsa EcdsaSig.
From S2P Require Import EcGroup EcField EcCurve EcCofactor EcdsaPoint EcdsaMul EcTable EcParams EcdsaScalar EcdsaKeys.
Local Open Scope fw_scope.

Module EcdsaVerify.
Import Hash HashSpec Bignum Curves BignumSpec BignumBits BignumConv BignumInverse Ecdsa EcdsaSig.
Import EcField EcCurve EcCofactor EcdsaPoint EcdsaMul EcTable EcParams EcdsaScalar EcdsaKeys.

Section Verify.
Variable curve : ecdsa_curve.
Context {OK : CurveOk curve}.
Local Abbreviation o := (order curve).
Local Abbreviation P := (cP curve).
Local Abbreviation N := (cN curve).
Local Abbreviation ecp := (@point (Zmod P)).
Local Abbreviation rn := (repr o).
Local Abbreviation sc := (Zmod.of_Z N).

(** The base point and the table of the build. *)
Variable g : ecp.
Hypothesis Hg : stands_for curve (G curve) g.
Hypothesis Hg0 : g <> Infinity.
Variable cp : option (list (list curve_point)).
Hypothesis Hcp : table_ok curve cp g.

(** The multiple by a residue of the order. *)
Definition mult (e : Zmod N) (u : ecp) : ecp := ec_times curve (Zmod.to_Z e) u.

(** ** The specification *)

(** u1 G + u2 Q *)
Definition verify_point (Q : ecp) (r s z : Z) : ecp :=
  let w := Zmod.inv (sc s) in
  ec_add curve (mult (Zmod.mul (sc r) w) Q) (mult (Zmod.mul w (sc z)) g).

Definition verify_spec (Q : ecp) (r s z : Z) : Z :=
  if z =? 0 then 3
  else if negb ((0 <? r) && (r <? N) && (0 <? s) && (s <? N)) then 2
  else match verify_point Q r s z with
       | Infinity => 4
       | Affine x _ => if Zmod.to_Z x mod N =? r then 0 else 5
       end.

(** ** Numbers modulo the order *)

Lemma N_range : 2 ^ 256 - 2 ^ 224 <= N < 2 ^ 256 /\ 2 ^ 256 - 2 ^ 224 <= P < 2 ^ 256.
Proof. split; [apply (prime_bounds (p := o))|apply (prime_bounds (p := prime curve))]. Qed.

Lemma scalar_repr x : normalized x -> bn_val x < N -> rn 1 x (sc (bn_val x)).
Proof. intros Hx Hr. split; [done|lia|done]. Qed.

Lemma wide_repr x : normalized x -> bn_val x < 2 ^ 256 -> rn 2 x (sc (bn_val x)).
Proof. intros Hx Hr. pose proof N_range. split; [done|lia|done]. Qed.

Lemma scalar_range (e : Zmod N) : 0 <= Zmod.to_Z e < N.
Proof. pose proof N_range. pose proof (Zmod.to_Z_range e). lia. Qed.

(** scalar_multiply and point_multiply of a reduced number. *)
Lemma scalar_mult k e words n res : rn 1 k e -> supplies curve (S n) words ->
  exists ret r rest, scalar_multiply cp words curve k res = Some (ret, r, rest) /\ supplies curve n rest /\ stands_for curve r (mult e g).
Proof.
  intros Hk Hw. destruct (scalar_multiply_ok curve cp words g k res n Hg Hg0 Hcp (repr_norm _ _ _ Hk) Hw) as (r & rest & E & Hs & HR & _).
  eexists _, r, rest. split; [exact E|]. split; [done|]. unfold mult. rewrite <- (repr_1_val _ _ Hk). apply HR.
  pose proof (repr_bound _ _ _ Hk). lia.
Qed.

Lemma point_mult k e q u words n res : rn 1 k e -> stands_for curve q u -> u <> Infinity -> supplies curve (S n) words ->
  exists ret r rest, point_multiply words curve k q res = Some (ret, r, rest) /\ supplies curve n rest /\ stands_for curve r (mult e u).
Proof.
  intros Hk Hq Hu Hw. destruct (point_multiply_ok curve words q u k res n Hq Hu (repr_norm _ _ _ Hk) Hw) as (r & rest & E & Hs & HR & _).
  eexists _, r, rest. split; [exact E|]. split; [done|]. unfold mult. rewrite <- (repr_1_val _ _ Hk). apply HR.
  pose proof (repr_bound _ _ _ Hk). lia.
Qed.

Lemma sig_range_ok r s z : normalized r -> normalized s -> normalized z ->
  sig_range curve r s z = if bn_val z =? 0 then 3
    else if negb ((0 <? bn_val r) && (bn_val r <? N) && (0 <? bn_val s) && (bn_val s <? N)) then 2 else 0.
Proof.
  intros Hr Hs Hz. unfold sig_range. rewrite !bn_is_zero_val, !bn_is_less_val, !truth_b2z by (done || apply (ok_order curve)).
  pose proof (normalized_range r Hr). pose proof (normalized_range s Hs).
  destruct (bn_val z =? 0); [done|]. destruct (Z.eqb_spec (bn_val r) 0), (Z.ltb_spec 0 (bn_val r)), (Z.eqb_spec (bn_val s) 0), (Z.ltb_spec 0 (bn_val s)),
    (bn_val r <? N), (bn_val s <? N); try lia; done.
Qed.

(** Two halves of a signature. *)
Lemma read_half sig : bytes_n 64 sig ->
  normalized (read_bn sig 0) /\ bn_val (read_bn sig 0) = be_val (slice sig 0 32) /\ 0 <= bn_val (read_bn sig 0) < 2 ^ 256 /\
  normalized (read_bn sig 32) /\ bn_val (read_bn sig 32) = be_val (slice sig 32 32) /\ 0 <= bn_val (read_bn sig 32) < 2 ^ 256.
Proof.
  intros Hs. destruct (read_bn_ok 64 sig 0 Hs) as (? & ? & ?); [lia|lia|]. destruct (read_bn_ok 64 sig 32 Hs) as (? & ? & ?); [lia|lia|]. done.
Qed.

(** The x coordinate modulo the order, as the code compares it. *)
Lemma x_mod q x y r : stands_for curve q (Affine x y) -> normalized r -> 0 <= bn_val r < N ->
  exists m, bn_mod (cx q) o = Some m /\ truth (bn_is_equal m r) = (Zmod.to_Z x mod N =? bn_val r).
Proof.
  intros Hq Nr Rr. inversion Hq as [|x' y' Hx Hy Hc]. subst x' y'. pose proof N_range.
  destruct (repr_mod (p := o) (cx q) (sc (bn_val (cx q)))) as (m & Em & Hm); [apply wide_repr; [apply Hx|pose proof (repr_range _ _ _ Hx); lia]|].
  exists m. split; [done|]. rewrite (repr_is_equal _ _ _ _ Hm (scalar_repr r Nr ltac:(lia))), truth_b2z, (repr_1_val _ _ Hx).
  destruct (Z.eqb_spec (Zmod.to_Z x mod N) (bn_val r)) as [E|E].
  - apply bool_decide_eq_true_2. apply Zmod.of_Z_inj. rewrite E. symmetry. apply Z.mod_small. lia.
  - apply bool_decide_eq_false_2. intros E'. apply E. apply Zmod.of_Z_inj in E'. rewrite E'. apply Z.mod_small. lia.
Qed.

(** ** ecdsa_verify_digest *)

Lemma verify_ok pk Q sig digest words n : encodes curve pk Q -> bytes_n 64 sig -> bytes_n 32 digest -> supplies curve (S (S n)) words ->
  exists rest, ecdsa_verify_digest cp words curve pk sig digest =
    Some (verify_spec Q (be_val (slice sig 0 32)) (be_val (slice sig 32 32)) (be_val digest), rest) /\ supplies curve n rest.
Proof.
  intros HQ Hsig Hd Hw. destruct (read_encoded curve pk Q zero_point HQ) as (pub & E & Hpub).
  destruct (read_half sig Hsig) as (Nr & Vr & Rr & Ns & Vs & Rs). destruct (read_key digest Hd) as [Nz Vz].
  destruct (read_bn_ok 32 digest 0 Hd) as (_ & _ & Rz); [lia|lia|].
  unfold ecdsa_verify_digest. rewrite (bind_is _ _ _ E). cbv beta iota zeta. cbn [truth Z.eqb negb].
  rewrite <- Vr, <- Vs, <- Vz in *. set (r := read_bn sig 0) in *. set (s := read_bn sig 32) in *. set (z := read_bn digest 0) in *.
  rewrite sig_range_ok by done. unfold verify_spec. clear Vr Vs Vz.
  destruct (bn_val z =? 0) eqn:Ez. { exists words. split; [done|]. by do 2 apply supplies_less. }
  destruct ((0 <? bn_val r) && (bn_val r <? N) && (0 <? bn_val s) && (bn_val s <? N)) eqn:Erange; cbn [negb].
  2: { exists words. split; [done|]. by do 2 apply supplies_less. }
  cbn [Z.eqb negb]. rewrite !andb_true_iff, !Z.ltb_lt in Erange. destruct Erange as [[[? ?] ?] ?].
  pose proof (scalar_repr r Nr ltac:(lia)) as Hr. pose proof (scalar_repr s Ns ltac:(lia)) as Hs. pose proof (wide_repr z Nz ltac:(lia)) as Hz.
  fp_step (repr_inverse (p := o) s) as w Hwi; [exact Hs|].
  fp_step (repr_mod (p := o) (bn_multiply w z o)) as u1 Hu1; [fp|].
  fp_step (repr_mod (p := o) (bn_multiply r w o)) as u2 Hu2; [fp|].
  destruct (scalar_mult u1 _ words (S n) zero_point Hu1 Hw) as (c1 & R1 & rest1 & E1 & Hs1 & HR1). rewrite (bind_is _ _ _ E1). cbv beta iota.
  destruct (point_mult u2 _ pub Q rest1 n pub Hu2 Hpub (proj1 HQ) Hs1) as (c2 & R2 & rest2 & E2 & Hs2 & HR2). rewrite (bind_is _ _ _ E2). cbv beta iota.
  destruct (point_add_ok curve R2 R1 _ _ HR2 HR1) as (R & E3 & HR). rewrite (bind_is _ _ _ E3). cbv beta.
  fold (verify_point Q (bn_val r) (bn_val s) (bn_val z)) in HR. rewrite (is_infinity_ok curve _ _ HR). exists rest2.
  destruct (verify_point Q (bn_val r) (bn_val s) (bn_val z)) as [|x y]; [done|]. rewrite bool_decide_eq_false_2 by done.
  destruct (x_mod R x y r HR Nr ltac:(lia)) as (m & Em & Heq). rewrite (bind_is _ _ _ Em). cbv beta. rewrite Heq.
  split; [by destruct (Zmod.to_Z x mod N =? bn_val r)|done].
Qed.

(** ** ecdsa_recover_pub_from_sig *)

(** The point with abscissa [x] whose ordinate has the given parity. *)
Definition lifts (x : Z) (odd : bool) (u : ecp) : Prop :=
  on_curve curve u /\ match u with Infinity => False | Affine a b => Zmod.to_Z a = x /\ Z.odd (Zmod.to_Z b) = odd end.

(** r^-1 (s R - z G) *)
Definition recover_point (R : ecp) (r s z : Z) : ecp :=
  let w := Zmod.inv (sc r) in
  ec_add curve (mult (Zmod.mul w (Zmod.opp (sc z))) g) (mult (Zmod.mul w (sc s)) R).

Lemma recover_lift odd x : normalized x -> 0 <= bn_val x < 2 ^ 256 ->
  exists y v, uncompress_coords curve odd x = Some y /\ ecdsa_validate_pubkey curve (CurvePoint x y) = Some v /\
  (v = 1 /\ (exists u, lifts (bn_val x) (Z.odd odd) u /\ stands_for curve (CurvePoint x y) u) \/
   v = 0 /\ forall u, ~ lifts (bn_val x) (Z.odd odd) u).
Proof.
  intros Nx Rx. destruct (uncompress_ok curve odd x _ (raw_repr curve x Nx ltac:(lia))) as (y & Ey & Ny & Hy).
  destruct (validate_ok curve (CurvePoint x y) Nx Ny) as (v & Ev & Hv). exists y, v. split; [done|]. split; [done|].
  destruct Hv as [(-> & u & Hs & Hu)|[-> Hno]]; [left|right]; split; [done| |done|].
  - exists u. split; [|done]. pose proof (stands_on_curve curve _ _ Hs) as Hc. split; [done|]. destruct Hs as [|x' y' Hx' Hy' _]; [done|]. cbn [cx cy] in Hx', Hy'.
    split; [symmetry; by apply (repr_1_val (p := prime curve))|]. rewrite (repr_val _ _ _ Hx') in Hy. destruct (Hy y' Hc) as (w & _ & Hw & Ho).
    by rewrite <- Ho, <- (repr_val _ _ _ Hw), <- (repr_val _ _ _ Hy').
  - intros u [Hc Hl]. destruct u as [|x' y']; [done|]. destruct Hl as [Ex Eo].
    assert (Hx' : repr (prime curve) 1 x x').
    { split; [done|pose proof (elem_range curve x'); lia|]. rewrite <- Ex. apply Zmod.of_Z_to_Z. }
    rewrite (repr_val _ _ _ Hx') in Hy. destruct (Hy y' Hc) as (w & Hcw & Hw & _).
    enough (Affine x' w = Infinity) by done. apply Hno. by constructor.
Qed.

Lemma lifts_inj x odd u v : lifts x odd u -> lifts x odd v -> u = v.
Proof.
  intros [Hu Lu] [Hv Lv]. destruct u as [|x1 y1], v as [|x2 y2]; try done. destruct Lu as [<- <-], Lv as [Ex Eo].
  apply Zmod.to_Z_inj in Ex as ->. destruct (ec_same_x curve _ _ _ Hu Hv) as [->|Ho]; [done|]. exfalso.
  rewrite Ho, (to_Z_odd_opp curve) in Eo; [by destruct (Z.odd (Zmod.to_Z y2))|]. intros ->. by apply (ok_no2 curve) in Hv.
Qed.

Lemma subtract_wide y v : rn 1 y v -> rn 2 (bn_subtract o y) (Zmod.opp v).
Proof.
  intros Hy. pose proof N_range. pose proof (repr_range _ _ _ Hy) as Ry.
  destruct (bn_subtract_val o y (proj1 (ok_order curve)) (repr_norm _ _ _ Hy)) as [Ns Vs]. rewrite Z.mod_small in Vs by lia.
  split; [done|lia|]. rewrite Vs, Zmod.of_Z_sub, (repr_val _ _ _ Hy).
  replace (sc N) with (Zmod.zero : Zmod N); [apply Zmod.sub_0_l|]. rewrite <- Zmod.of_Z_0. apply Zmod.of_Z_inj. rewrite Z.mod_same, Z.mod_0_l by lia. done.
Qed.

Lemma recovered_key_ok r s digest R u words n : rn 1 r (sc (bn_val r)) -> rn 1 s (sc (bn_val s)) -> bytes_n 32 digest ->
  stands_for curve R u -> u <> Infinity -> supplies curve (S (S n)) words ->
  exists q rest, recovered_key cp words curve r s digest R = Some (q, rest) /\ supplies curve n rest /\
  stands_for curve q (recover_point u (bn_val r) (bn_val s) (be_val digest)).
Proof.
  intros Hr Hs Hd HR Hu Hw. destruct (read_key digest Hd) as [Nz Vz]. destruct (read_bn_ok 32 digest 0 Hd) as (_ & _ & Rz); [lia|lia|].
  unfold recovered_key. rewrite <- Vz. pose proof (wide_repr _ Nz ltac:(lia)) as Hz. cbv zeta.
  fp_step (repr_mod (p := o) (read_bn digest 0)) as e He; [exact Hz|]. apply subtract_wide in He.
  fp_step (repr_inverse (p := o) r) as w Hwi; [exact Hr|].
  fp_step (repr_mod (p := o) (bn_multiply w (bn_subtract o e) o)) as u1 Hu1; [fp|].
  fp_step (repr_mod (p := o) (bn_multiply w s o)) as u2 Hu2; [fp|].
  destruct (point_mult u2 _ R u words (S n) R Hu2 HR Hu Hw) as (c2 & R2 & rest2 & E2 & Hs2 & HR2). rewrite (bind_is _ _ _ E2). cbv beta iota.
  destruct (scalar_mult u1 _ rest2 n zero_point Hu1 Hs2) as (c1 & R1 & rest1 & E1 & Hs1 & HR1). rewrite (bind_is _ _ _ E1). cbv beta iota.
  destruct (point_add_ok curve R1 R2 _ _ HR1 HR2) as (q & E3 & Hq). rewrite (bind_is _ _ _ E3). cbv beta. exists q, rest1. done.
Qed.

(** The abscissa the code takes. *)
Definition recover_x (r recid : Z) : Z := if Z.testbit recid 1 then r + N else r.

Lemma recovered_x_ok r recid : normalized r -> 0 < bn_val r < N ->
  match recovered_x curve r recid with
  | Some x => normalized x /\ bn_val x = recover_x (bn_val r) recid /\ 0 <= bn_val x < 2 ^ 256
  | None => P <= recover_x (bn_val r) recid
  end.
Proof.
  intros Nr Rr. pose proof N_range. unfold recovered_x, recover_x.
  replace (truth (recid .& 2)) with (Z.testbit recid 1).
  2: { unfold truth. destruct (Z.eqb_spec (recid .& 2) 0) as [E|E]; cbn [negb].
       - apply (f_equal (fun x => Z.testbit x 1)) in E. rewrite Z.land_spec, Z.bits_0 in E. change (Z.testbit 2 1) with true in E. by rewrite andb_true_r in E.
       - destruct (Z.testbit recid 1) eqn:Eb; [done|]. exfalso. apply E. apply Z.bits_inj'. intros i Hi. rewrite Z.land_spec, Z.bits_0. change 2 with (2 ^ 1).
         rewrite Z.pow2_bits_eqb by lia. destruct (Z.eqb_spec 1 i) as [<-|]; [by rewrite Eb|apply andb_false_r]. }
  destruct (Z.testbit recid 1); [|split; [done|lia]]. destruct (bn_add_val r o Nr (proj1 (ok_order curve))) as [Na Va]. rewrite Z.mod_small in Va by lia.
  rewrite bn_is_less_val, truth_b2z by (done || apply (ok_prime curve)). destruct (Z.ltb_spec (bn_val (bn_add r o)) P); cbn [negb]; [|lia].
  split; [done|]. lia.
Qed.

Lemma recover_ok pk sig digest recid words n : bytes_n 64 sig -> bytes_n 32 digest -> zlen pk = 65 -> supplies curve (S (S n)) words ->
  let r := be_val (slice sig 0 32) in let s := be_val (slice sig 32 32) in let z := be_val digest in
  exists ret pk' rest, ecdsa_recover_pub_from_sig cp words curve pk sig digest recid = Some (ret, pk', rest) /\ supplies curve n rest /\
  (ret = 0 /\ (exists R, 0 < r < N /\ 0 < s < N /\ lifts (recover_x r recid) (Z.odd recid) R /\ recover_point R r s z <> Infinity /\
     pk' = enc65 curve (recover_point R r s z)) \/
   ret = 1 /\ pk' = pk /\ ~ exists R, 0 < r < N /\ 0 < s < N /\ lifts (recover_x r recid) (Z.odd recid) R /\ recover_point R r s z <> Infinity).
Proof.
  intros Hsig Hd Hl Hw. cbv zeta. destruct (read_half sig Hsig) as (Nr & Vr & Rr & Ns & Vs & Rs). rewrite <- Vr, <- Vs.
  unfold ecdsa_recover_pub_from_sig. rewrite !invalid_key_ok by done. set (r := read_bn sig 0) in *. set (s := read_bn sig 32) in *. cbv zeta.
  destruct ((0 <? bn_val r) && (bn_val r <? N)) eqn:Br; cbn [negb orb].
  2: { exists 1, pk, words. split; [done|]. split; [by do 2 apply supplies_less|]. right. split; [done|]. split; [done|].
       intros (R & ? & _). rewrite (proj2 (Z.ltb_lt _ _)), (proj2 (Z.ltb_lt _ _)) in Br by lia. done. }
  destruct ((0 <? bn_val s) && (bn_val s <? N)) eqn:Bs; cbn [negb orb].
  2: { exists 1, pk, words. split; [done|]. split; [by do 2 apply supplies_less|]. right. split; [done|]. split; [done|].
       intros (R & _ & ? & _). rewrite (proj2 (Z.ltb_lt _ _)), (proj2 (Z.ltb_lt _ _)) in Bs by lia. done. }
  rewrite andb_true_iff, !Z.ltb_lt in Br, Bs. pose proof (recovered_x_ok r recid Nr Br) as Hx.
  destruct (recovered_x curve r recid) as [x|].
  2: { exists 1, pk, words. split; [done|]. split; [by do 2 apply supplies_less|]. right. split; [done|]. split; [done|].
       intros ([|a b] & _ & _ & [_ HL] & _); [done|]. destruct HL as [Ha _]. pose proof (elem_range curve a). lia. }
  destruct Hx as (Nx & Vx & Rx). destruct (recover_lift (recid .& 1) x Nx Rx) as (y & v & Ey & Ev & Hv). rewrite (bind_is _ _ _ Ey). cbv beta.
  rewrite (bind_is _ _ _ Ev). cbv beta. rewrite Vx in Hv. replace (Z.odd (recid .& 1)) with (Z.odd recid) in Hv by (rewrite low_bit_z; by destruct (Z.odd recid)).
  destruct Hv as [(-> & R & HL & HR)|[-> Hno]]; cbn [truth Z.eqb negb].
  2: { exists 1, pk, words. split; [done|]. split; [by do 2 apply supplies_less|]. right. split; [done|]. split; [done|].
       intros (R & _ & _ & HL & _). by apply (Hno R). }
  assert (HR0 : R <> Infinity) by (intros ->; by destruct HL).
  destruct (recovered_key_ok r s digest (CurvePoint x y) R words n (scalar_repr r Nr ltac:(lia)) (scalar_repr s Ns ltac:(lia)) Hd HR HR0 Hw) as (q & rest & E & Hsup & Hq).
  rewrite (bind_is _ _ _ E). cbv beta iota. rewrite (is_infinity_ok curve _ _ Hq).
  destruct (decide (recover_point R (bn_val r) (bn_val s) (be_val digest) = Infinity)) as [E0|E0].
  - rewrite bool_decide_eq_true_2 by done. exists 1, pk, rest. split; [done|]. split; [done|]. right. split; [done|]. split; [done|].
    intros (R' & _ & _ & HL' & Hne). by rewrite (lifts_inj _ _ _ _ HL' HL) in Hne.
  - rewrite bool_decide_eq_false_2 by done. exists 0, (write_point q pk), rest. split; [done|]. split; [done|]. left. split; [done|].
    exists R. do 4 (split; [done|]). by apply write_point_ok.
Qed.

End Verify.
(** ** The properties *)

(** C8: ecdsa_verify_digest implements the verification of ECDSA: for a key that
    encodes the point Q it returns 0 exactly when r and s are between 1 and the
    order, the digest is not zero and the abscissa of
    (z / s) G + (r / s) Q modulo the order is r; the reasons for a refusal are
    told apart as the code numbers them (2: range, 3: zero digest, 4: infinity,
    5: mismatch), and a key that encodes no point gives 1.  It always has a
    result, whatever the bytes of key, signature and digest are. *)
Theorem verify_digest_correct curve `{!CurveOk curve} cp g pk sig digest words n :
  stands_for curve (G curve) g -> g <> Infinity -> table_ok curve cp g ->
  key_buffer pk -> bytes_n 64 sig -> bytes_n 32 digest -> supplies curve (S (S n)) words ->
  exists res rest, ecdsa_verify_digest cp words curve pk sig digest = Some (res, rest) /\
  (forall Q, encodes curve pk Q ->
     res = verify_spec curve g Q (be_val (slice sig 0 32)) (be_val (slice sig 32 32)) (be_val digest)) /\
  ((forall Q, ~ encodes curve pk Q) -> res = 1).
Proof.
  intros Hg Hg0 Hcp Hk Hs Hd Hw. destruct (read_pubkey_ok curve pk zero_point Hk) as (ok & pub & E & [(-> & Q & HQ & _)|[-> Hno]]).
  - destruct (verify_ok curve g Hg Hg0 cp Hcp pk Q sig digest words n HQ Hs Hd Hw) as (rest & Ev & _). eexists _, rest. split; [exact Ev|].
    split; [|intros Hn; by destruct (Hn Q)]. intros Q' HQ'. by rewrite (encodes_inj curve pk Q' Q HQ' HQ).
  - exists 1, words. unfold ecdsa_verify_digest. rewrite (bind_is _ _ _ E). split; [done|]. split; [|done]. intros Q HQ. by destruct (Hno Q).
Qed.

Lemma verify_digest_correct_witness :
  exists res rest, ecdsa_verify_digest (Some secp256k1_cp) (plenty 2) secp256k1 (enc65 secp256k1 secp256k1_g) (be_bytes 64 7) (be_bytes 32 9) = Some (res, rest) /\
  (forall Q, encodes secp256k1 (enc65 secp256k1 secp256k1_g) Q ->
     res = verify_spec secp256k1 secp256k1_g Q (be_val (slice (be_bytes 64 7) 0 32)) (be_val (slice (be_bytes 64 7) 32 32)) (be_val (be_bytes 32 9))) /\
  ((forall Q, ~ encodes secp256k1 (enc65 secp256k1 secp256k1_g) Q) -> res = 1).
Proof.
  apply (verify_digest_correct secp256k1 (Some secp256k1_cp) secp256k1_g (enc65 secp256k1 secp256k1_g) (be_bytes 64 7) (be_bytes 32 9) (plenty 2) 0 secp256k1_G).
  - discriminate.
  - exact secp256k1_table.
  - apply (encodes_buffer secp256k1 _ secp256k1_g). apply (encodes_enc secp256k1); [apply secp256k1_g_on|discriminate].
  - apply be_bytes_n.
  - apply be_bytes_n.
  - apply (plenty_supplies secp256k1).
Defined.

(** ecdsa_recover_pub_from_sig returns 0 and the encoding of
    (s R - z G) / r when r and s are between 1 and the order, R is the point of
    the curve with abscissa r (or r plus the order, bit 1 of the recovery
    number) whose ordinate has the parity of the recovery number, and the result
    is not the point at infinity; in every other case it returns 1 and leaves the
    buffer alone. *)
Theorem recover_pub_correct curve `{!CurveOk curve} cp g pk sig digest recid words n :
  stands_for curve (G curve) g -> g <> Infinity -> table_ok curve cp g ->
  bytes_n 64 sig -> bytes_n 32 digest -> zlen pk = 65 -> supplies curve (S (S n)) words ->
  let r := be_val (slice sig 0 32) in let s := be_val (slice sig 32 32) in let z := be_val digest in
  let good R := 0 < r < cN curve /\ 0 < s < cN curve /\ lifts curve (recover_x curve r recid) (Z.odd recid) R /\
                recover_point curve g R r s z <> Infinity in
  exists ret pk' rest, ecdsa_recover_pub_from_sig cp words curve pk sig digest recid = Some (ret, pk', rest) /\
  (forall R, good R -> ret = 0 /\ pk' = enc65 curve (recover_point curve g R r s z)) /\
  ((forall R, ~ good R) -> ret = 1 /\ pk' = pk).
Proof.
  intros Hg Hg0 Hcp Hs Hd Hl Hw. cbv zeta.
  destruct (recover_ok curve g Hg Hg0 cp Hcp pk sig digest recid words n Hs Hd Hl Hw) as (ret & pk' & rest & E & _ & H).
  exists ret, pk', rest. split; [exact E|]. destruct H as [(-> & R & H1 & H2 & HL & Hne & ->)|(-> & -> & Hno)].
  - split; [|intros Hn; by destruct (Hn R)]. intros R' (_ & _ & HL' & _). by rewrite (lifts_inj curve _ _ _ _ HL' HL).
  - split; [|done]. intros R HR. exfalso. apply Hno. by exists R.
Qed.

Lemma recover_pub_correct_witness :
  exists ret pk' rest, ecdsa_recover_pub_from_sig None (plenty 2) secp256k1 (replicate 65 0) (be_bytes 64 7) (be_bytes 32 9) 0 = Some (ret, pk', rest) /\
  ((forall R, ~ (0 < be_val (slice (be_bytes 64 7) 0 32) < cN secp256k1 /\ 0 < be_val (slice (be_bytes 64 7) 32 32) < cN secp256k1 /\
     lifts secp256k1 (recover_x secp256k1 (be_val (slice (be_bytes 64 7) 0 32)) 0) (Z.odd 0) R /\
     recover_point secp256k1 secp256k1_g R (be_val (slice (be_bytes 64 7) 0 32)) (be_val (slice (be_bytes 64 7) 32 32)) (be_val (be_bytes 32 9)) <> Infinity)) ->
   ret = 1 /\ pk' = replicate 65 0).
Proof.
  pose proof (recover_pub_correct secp256k1 None secp256k1_g (replicate 65 0) (be_bytes 64 7) (be_bytes 32 9) 0 (plenty 2) 0 secp256k1_G
    ltac:(discriminate) I (be_bytes_n 64 7) (be_bytes_n 32 9) eq_refl (plenty_supplies secp256k1 2)) as (ret & pk' & rest & E & _ & H).
  exists ret, pk', rest. split; [exact E|exact H].
Defined.

End EcdsaVerify.
