(* ===== verification/EcdsaSign.v ===== *)
(** * Making signatures: the properties

    The specification of deterministic signing (RFC 6979 with the low half of s),
    ecdsa_sign_digest as an implementation of it, and what the signatures are good
    for: they verify, and the key can be recovered from them. *)

From stdpp Require Import base list numbers.
From Stdlib Require Import ZArith Lia Field.
From Stdlib Require Import Zdivisibility ZmodDef ZmodBase ZmodInv.
From S2P Require Import Prelude Bits Hash HashSpec Sha2 Hmac HmacSpec Bignum Curves BignumSpec BignumBits BignumConv BignumInverse Drbg DrbgSpec Ecdsa EcdsaSig.
From S2P Require Import EcGroup EcField EcCurve EcCofactor EcdsaPoint EcdsaMul EcTable EcParams EcdsaScalar EcdsaKeys EcdsaVerify.
Local Open Scope fw_scope.

Module EcdsaSign.
Import Hash HashSpec Sha2 Hmac HmacSpec Bignum Curves BignumSpec BignumBits BignumConv BignumInverse Drbg DrbgSpec Ecdsa EcdsaSig.
Import EcField EcCurve EcCofactor EcdsaPoint EcdsaMul EcTable EcParams EcdsaScalar EcdsaKeys EcdsaVerify.

(** ** Equations modulo a prime *)

Section Scalars.
Variable m : Z.
Hypothesis Hm : Z.prime m.
Add Field scalar_field : (Zmod.field_theory m Hm).
Implicit Types k r s d z e : Zmod m.

(** The random factor cancels. *)
Lemma unblind p k e : p <> Zmod.zero -> k <> Zmod.zero ->
  Zmod.mul p (Zmod.mul (Zmod.inv (Zmod.mul p k)) e) = Zmod.mul (Zmod.inv k) e :> Zmod m.
Proof. intros Hp Hk. field. auto. Qed.

Lemma sign_equation k r d z s : k <> Zmod.zero -> s = Zmod.mul (Zmod.inv k) (Zmod.add (Zmod.mul r d) z) ->
  Zmod.add (Zmod.mul r d) z = Zmod.mul k s.
Proof. intros Hk ->. field. exact Hk. Qed.

Lemma verify_exponent k r d z s : s <> Zmod.zero -> Zmod.add (Zmod.mul r d) z = Zmod.mul k s ->
  Zmod.add (Zmod.mul (Zmod.mul r (Zmod.inv s)) d) (Zmod.mul (Zmod.inv s) z) = k.
Proof.
  intros Hs E. transitivity (Zmod.mul (Zmod.inv s) (Zmod.add (Zmod.mul r d) z)); [ring|]. rewrite E. field. exact Hs.
Qed.

Lemma recover_exponent k r d z s : r <> Zmod.zero -> Zmod.add (Zmod.mul r d) z = Zmod.mul k s ->
  Zmod.add (Zmod.mul (Zmod.inv r) (Zmod.opp z)) (Zmod.mul (Zmod.mul (Zmod.inv r) s) k) = d.
Proof.
  intros Hr E. transitivity (Zmod.mul (Zmod.inv r) (Zmod.sub (Zmod.mul k s) z)); [ring|]. rewrite <- E. field. exact Hr.
Qed.

Lemma opp_product k s : Zmod.mul (Zmod.opp k) (Zmod.opp s) = Zmod.mul k s :> Zmod m.
Proof. ring. Qed.
End Scalars.

Lemma other_half n s : n / 2 < s < n -> 0 < n - s <= n / 2.
Proof. intros H. zlia. Qed.

Lemma below_half n s : 0 < s <= n / 2 -> 0 < s < n.
Proof. intros H. zlia. Qed.

Section Sign.
Variable curve : ecdsa_curve.
Context {OK : CurveOk curve}.
Local Abbreviation o := (order curve).
Local Abbreviation P := (cP curve).
Local Abbreviation N := (cN curve).
Local Abbreviation ecp := (@point (Zmod P)).
Local Abbreviation rn := (repr o).
Local Abbreviation sc := (Zmod.of_Z N).
Local Abbreviation mul_by := (mult curve).

Variable g : ecp.
Hypothesis Hg : stands_for curve (G curve) g.
Hypothesis Hg0 : g <> Infinity.
Variable cp : option (list (list curve_point)).
Hypothesis Hcp : table_ok curve cp g.

(** ** The specification *)

(** A number k tried: refused, of no use because the key is out of range, or a
    signature with its recovery byte. *)
Inductive trial := Again | BadKey | Signed (r s by_ : Z).

Definition sign_try (d z k : Z) : trial :=
  if negb ((0 <? k) && (k <? N)) then Again
  else match ec_times curve k g with
       | Infinity => Again
       | Affine x y =>
           let r := Zmod.to_Z x mod N in
           if r =? 0 then Again
           else if negb ((0 <? d) && (d <? N)) then BadKey
           else
             let s := Zmod.to_Z (Zmod.mul (Zmod.inv (sc k)) (Zmod.add (Zmod.mul (sc r) (sc d)) (sc z))) in
             let by_ := Z.b2z (Z.odd (Zmod.to_Z y)) + (if N <=? Zmod.to_Z x then 2 else 0) in
             if s =? 0 then Again
             else if N / 2 <? s then Signed r (N - s) (by_ .^ 1) else Signed r s by_
       end.

(** Whether the coin-specific check refuses a signature. *)
Definition refused (is_canonical : option (Z -> list Z -> Z)) (by_ : Z) (sig : list Z) : bool :=
  match is_canonical with Some f => f by_ sig =? 0 | None => false end.

Definition sig_bytes (r s : Z) : list Z := be_bytes 32 r ++ be_bytes 32 s.

(** The first acceptable signature from the numbers of the generator: what the
    call returns, the recovery byte and the buffer. *)
Fixpoint sign_spec (f : list Z -> list Z -> list Z) (turns : nat) (d z : Z) (is_canonical : option (Z -> list Z -> Z))
    (st : drbg_state) (sig : list Z) : Z * Z * list Z :=
  match turns with
  | O => (-1, 0, sig)
  | S turns =>
      let '(out, st) := drbg_generate f 32 st in
      match sign_try d z (be_val out) with
      | Again => sign_spec f turns d z is_canonical st sig
      | BadKey => (2, 0, sig)
      | Signed r s by_ =>
          if refused is_canonical by_ (sig_bytes r s) then sign_spec f turns d z is_canonical st (sig_bytes r s)
          else (0, by_, sig_bytes r s)
      end
  end.

(** ** The steps of the code *)

Lemma nz_repr x : normalized x -> 0 < bn_val x < N -> sc (bn_val x) <> Zmod.zero.
Proof. intros Nx Hx. apply Zmod.of_Z_nz. rewrite Z.mod_small; lia. Qed.

Lemma reduce_rx_ok R x y : stands_for curve R (Affine x y) ->
  exists rx, reduce_rx curve R = (rx, Z.b2z (Z.odd (Zmod.to_Z y)) + (if N <=? Zmod.to_Z x then 2 else 0)) /\
  normalized rx /\ bn_val rx = Zmod.to_Z x mod N.
Proof.
  intros HR. inversion HR as [|x' y' Hx Hy Hc]. subst x' y'. pose proof (N_range curve). pose proof (elem_range curve x) as Rx.
  unfold reduce_rx. rewrite low_bit by apply Hy. rewrite bn_is_less_val, truth_b2z by (apply Hx || apply (ok_order curve)).
  rewrite (repr_1_val _ _ Hx), (repr_1_val _ _ Hy). destruct (Z.ltb_spec (Zmod.to_Z x) N) as [Hlt|Hge]; cbn [negb].
  - exists (cx R). rewrite (proj2 (Z.leb_gt _ _) Hlt), Z.add_0_r. split; [done|]. split; [apply Hx|].
    rewrite (repr_1_val _ _ Hx), Z.mod_small by lia. done.
  - exists (bn_subtract (cx R) o). rewrite (proj2 (Z.leb_le _ _) Hge). split; [by destruct (Z.odd _)|].
    destruct (bn_subtract_val (cx R) o) as [Ns Vs]; [apply Hx|apply (ok_order curve)|]. split; [done|].
    rewrite Vs, (repr_1_val _ _ Hx). rewrite (Z.mod_small _ (2 ^ 261)) by lia.
    symmetry. rewrite <- (Z.mod_small (Zmod.to_Z x - N) N) by lia. replace (Zmod.to_Z x) with (Zmod.to_Z x - N + 1 * N) at 1 by lia. by rewrite Z.mod_add by lia.
Qed.

Lemma blinded_s_ok randk k rx s z : normalized randk -> 0 < bn_val randk < N -> normalized k -> 0 < bn_val k < N ->
  normalized rx -> bn_val rx < N -> normalized s -> bn_val s < N -> normalized z -> bn_val z < 2 ^ 256 ->
  exists r, blinded_s curve randk k rx s z = Some r /\
  rn 1 r (Zmod.mul (Zmod.inv (sc (bn_val k))) (Zmod.add (Zmod.mul (sc (bn_val rx)) (sc (bn_val s))) (sc (bn_val z)))).
Proof.
  intros Np Rp Nk Rk Nx Rx Ns Rs Nz Rz. unfold blinded_s.
  pose proof (scalar_repr curve randk Np ltac:(lia)) as Hp. pose proof (scalar_repr curve k Nk ltac:(lia)) as Hk.
  pose proof (scalar_repr curve rx Nx Rx) as Hx. pose proof (scalar_repr curve s Ns Rs) as Hs. pose proof (wide_repr curve z Nz Rz) as Hz. cbv zeta.
  fp_step (repr_inverse (p := o) (bn_multiply randk k o)) as w Hw; [fp|].
  destruct (repr_mod (p := o) (bn_multiply randk (bn_multiply w (bn_add (bn_multiply rx s o) z) o) o)
    (Zmod.mul (sc (bn_val randk)) (Zmod.mul (Zmod.inv (Zmod.mul (sc (bn_val randk)) (sc (bn_val k))))
       (Zmod.add (Zmod.mul (sc (bn_val rx)) (sc (bn_val s))) (sc (bn_val z)))))) as (r & Er & Hr); [fp|].
  exists r. split; [exact Er|]. rewrite (unblind N (ok_N curve)) in Hr by (apply nz_repr; done). exact Hr.
Qed.

Lemma low_s_ok s by_ : rn 1 s (sc (bn_val s)) -> 0 < bn_val s ->
  exists s' b', low_s curve s by_ = (s', b') /\ normalized s' /\
  bn_val s' = (if N / 2 <? bn_val s then N - bn_val s else bn_val s) /\ b' = (if N / 2 <? bn_val s then by_ .^ 1 else by_).
Proof.
  intros Hs Hpos. unfold low_s. destruct (ok_half curve) as [Nh Vh]. pose proof (repr_range _ _ _ Hs) as Rs. pose proof (N_range curve).
  rewrite bn_is_less_val, truth_b2z, Vh by (done || apply Hs). destruct (N / 2 <? bn_val s).
  - destruct (bn_subtract_val o s (proj1 (ok_order curve)) (repr_norm _ _ _ Hs)) as [Nd Vd]. rewrite Z.mod_small in Vd by lia.
    eexists _, _. split; [reflexivity|]. done.
  - eexists _, _. split; [reflexivity|]. split; [apply Hs|done].
Qed.

Lemma write_sig rx s sig : normalized rx -> bn_val rx < 2 ^ 256 -> normalized s -> bn_val s < 2 ^ 256 -> zlen sig = 64 ->
  write_bn s (write_bn rx sig 0) 32 = sig_bytes (bn_val rx) (bn_val s).
Proof.
  intros Nr Rr Ns Rs Hl. rewrite (write_bn_ok rx) by (done || lia). change (take (Z.to_nat 0) sig) with (@nil Z). rewrite app_nil_l.
  assert (Lr : length (be_bytes 32 (bn_val rx)) = 32%nat) by apply length_be_bytes.
  assert (Ld : length (drop (Z.to_nat (0 + 32)) sig) = 32%nat) by (rewrite length_drop; unfold zlen in Hl; lia).
  rewrite write_bn_ok; [|done|done|lia|rewrite zlen_app; unfold zlen; rewrite Lr, Ld; lia].
  rewrite take_app_length' by (rewrite Lr; done). rewrite (drop_ge _ (Z.to_nat (32 + 32))) by (rewrite length_app, Lr, Ld; lia).
  by rewrite app_nil_r.
Qed.

(** What a turn of the loop does, by the outcome of the trial. *)
Definition turn_ok (st : sign_state) (drbg : drbg_state) (n : nat) (is_canonical : option (Z -> list Z -> Z)) (t : trial) (a : attempt) : Prop :=
  match t with
  | Again => exists st', a = Retry st' /\ drbg_rep (sg_rng st') drbg /\ supplies curve n (sg_words st') /\ sg_sig st' = sg_sig st
  | BadKey => exists b st', a = Return 2 b st' /\ supplies curve n (sg_words st') /\ sg_sig st' = sg_sig st
  | Signed r s b =>
      exists st', a = (if refused is_canonical b (sig_bytes r s) then Retry st' else Return 0 b st') /\
      drbg_rep (sg_rng st') drbg /\ supplies curve n (sg_words st') /\ sg_sig st' = sig_bytes r s
  end.

Lemma turn_again st drbg n is_canonical st' : drbg_rep (sg_rng st') drbg -> supplies curve n (sg_words st') -> sg_sig st' = sg_sig st ->
  turn_ok st drbg n is_canonical Again (Retry st').
Proof. intros. by exists st'. Qed.

(** The part of a turn after k * G is known. *)
Lemma sign_finish_ok priv z is_canonical st rng drbg words n k R x y : drbg_rep rng drbg -> bytes_n 32 priv -> zlen (sg_sig st) = 64 ->
  normalized z -> bn_val z < 2 ^ 256 -> normalized k -> 0 < bn_val k < N -> stands_for curve R (Affine x y) ->
  ec_times curve (bn_val k) g = Affine x y -> supplies curve (S n) words ->
  exists a,
  (let '(rx, by_) := reduce_rx curve R in
   if truth (bn_is_zero rx) then Some (Retry (SignState rng words (CurvePoint rx (cy R)) (sg_sig st)))
   else
     let s := read_bn priv 0 in
     if invalid_key curve s then Some (Return 2 by_ (SignState rng words (CurvePoint rx s) (sg_sig st)))
     else
       '(randk, words) ← generate_k_random words (order curve);
       s ← blinded_s curve randk k rx s z;
       if truth (bn_is_zero s) then Some (Retry (SignState rng words (CurvePoint rx s) (sg_sig st)))
       else
         let '(s, by_) := low_s curve s by_ in
         let sig := write_bn rx (sg_sig st) 0 in
         let sig := write_bn s sig 32 in
         let st := SignState rng words (CurvePoint rx s) sig in
         let refused := match is_canonical with Some f => f by_ sig =? 0 | None => false end in
         if refused then Some (Retry st) else Some (Return 0 by_ st)) = Some a /\
  turn_ok st drbg n is_canonical (sign_try (be_val priv) (bn_val z) (bn_val k)) a.
Proof.
  intros Hrng Hp Hl Nz Rz Nk Rk HR Ek Hw. pose proof (N_range curve). unfold sign_try.
  rewrite (proj2 (Z.ltb_lt 0 (bn_val k))), (proj2 (Z.ltb_lt (bn_val k) N)), Ek by lia. cbn [andb negb].
  destruct (reduce_rx_ok R x y HR) as (rx & -> & Nx & Vx). cbv beta iota zeta. rewrite bn_is_zero_val, truth_b2z by done. rewrite <- Vx.
  assert (Rx : 0 <= bn_val rx < N) by (rewrite Vx; apply Z.mod_pos_bound; lia).
  destruct (bn_val rx =? 0) eqn:Erx. { eexists. split; [reflexivity|]. apply turn_again; [done|by apply supplies_less|done]. }
  destruct (read_key priv Hp) as [Ns Vs]. rewrite invalid_key_ok, Vs by done.
  destruct ((0 <? be_val priv) && (be_val priv <? N)) eqn:Ed; cbn [negb].
  2: { eexists. split; [reflexivity|]. eexists _, _. split; [reflexivity|]. split; [by apply supplies_less|done]. }
  rewrite andb_true_iff, !Z.ltb_lt in Ed.
  destruct (draw_order curve n words Hw) as (randk & words' & Er & Hw'). rewrite (bind_is _ _ _ Er). cbv beta iota.
  destruct (k_random_ok _ _ _ _ _ (proj1 (ok_order curve)) Er) as [Np Rp].
  destruct (blinded_s_ok randk k rx (read_bn priv 0) z Np Rp Nk Rk Nx ltac:(lia) Ns ltac:(lia) Nz Rz) as (s & Es & Hs). rewrite Vs in Hs.
  rewrite (bind_is _ _ _ Es). cbv beta. rewrite bn_is_zero_val, truth_b2z by apply Hs. rewrite <- (repr_1_val _ _ Hs). pose proof (repr_range _ _ _ Hs) as Rs.
  destruct (Z.eqb_spec (bn_val s) 0) as [E0|E0]. { eexists. split; [reflexivity|]. by apply turn_again. }
  destruct (low_s_ok s (Z.b2z (Z.odd (Zmod.to_Z y)) + (if N <=? Zmod.to_Z x then 2 else 0))) as (s' & b' & -> & Ns' & Vs' & Eb);
    [apply scalar_repr; [apply Hs|lia]|lia|]. cbv beta iota.
  assert (Rs' : bn_val s' < 2 ^ 256) by (rewrite Vs'; destruct (_ <? _); lia).
  rewrite write_sig by (done || lia). fold (refused is_canonical b' (sig_bytes (bn_val rx) (bn_val s'))).
  exists (if refused is_canonical b' (sig_bytes (bn_val rx) (bn_val s'))
          then Retry (SignState rng words' (CurvePoint rx s') (sig_bytes (bn_val rx) (bn_val s')))
          else Return 0 b' (SignState rng words' (CurvePoint rx s') (sig_bytes (bn_val rx) (bn_val s')))).
  split; [by destruct (refused _ _ _)|].
  destruct (N / 2 <? bn_val s); rewrite Vs', Eb; eexists; (split; [reflexivity|]); done.
Qed.

Lemma sign_attempt_ok priv z is_canonical st drbg n : drbg_rep (sg_rng st) drbg -> bytes_n 32 priv -> zlen (sg_sig st) = 64 ->
  normalized z -> bn_val z < 2 ^ 256 -> supplies curve (S (S n)) (sg_words st) ->
  exists a, sign_attempt cp curve priv z is_canonical st = Some a /\
  turn_ok st (snd (drbg_generate (rfc_hmac sha256_alg) 32 drbg)) n is_canonical
    (sign_try (be_val priv) (bn_val z) (be_val (fst (drbg_generate (rfc_hmac sha256_alg) 32 drbg)))) a.
Proof.
  intros Hrng Hp Hl Nz Rz Hw. unfold sign_attempt. destruct (generate_k_rep _ _ Hrng) as (k & rng & -> & Nk & Vk & Hrng').
  cbv beta iota. rewrite <- Vk, invalid_key_ok by done.
  destruct ((0 <? bn_val k) && (bn_val k <? N)) eqn:Ek; cbn [negb].
  2: { eexists. split; [reflexivity|]. unfold sign_try. rewrite Ek. apply turn_again; [exact Hrng'|by do 2 apply supplies_less|done]. }
  rewrite andb_true_iff, !Z.ltb_lt in Ek.
  destruct (scalar_multiply_ok curve cp (sg_words st) g k (sg_R st) (S n) Hg Hg0 Hcp Nk Hw) as (R & words & E & Hw' & HR & _).
  rewrite (bind_is _ _ _ E). cbv beta iota. specialize (HR ltac:(lia)).
  pose proof (times_nz curve (bn_val k) g (stands_on_curve curve _ _ Hg) Hg0 Ek) as Hnz.
  destruct (ec_times curve (bn_val k) g) as [|x y] eqn:Exy; [done|].
  exact (sign_finish_ok priv z is_canonical st rng _ words n k R x y Hrng' Hp Hl Nz Rz Nk Ek HR Exy Hw').
Qed.

Lemma zlen_sig_bytes r s : zlen (sig_bytes r s) = 64.
Proof. unfold sig_bytes. rewrite zlen_app. unfold zlen. by rewrite !length_be_bytes. Qed.

Lemma sign_loop_ok priv z is_canonical turns : forall st drbg, drbg_rep (sg_rng st) drbg -> bytes_n 32 priv -> zlen (sg_sig st) = 64 ->
  normalized z -> bn_val z < 2 ^ 256 -> supplies curve (2 * turns) (sg_words st) ->
  exists b st', let '(ret, by_, sig) := sign_spec (rfc_hmac sha256_alg) turns (be_val priv) (bn_val z) is_canonical drbg (sg_sig st) in
  sign_loop turns cp curve priv z is_canonical st = Some (ret, b, st') /\ sg_sig st' = sig /\ (ret = 0 -> b = by_).
Proof.
  induction turns as [|turns IH]; intros st drbg Hrng Hp Hl Nz Rz Hw. { exists 0, st. done. }
  cbn [sign_loop sign_spec]. replace (2 * S turns)%nat with (S (S (2 * turns))) in Hw by lia.
  destruct (sign_attempt_ok priv z is_canonical st drbg (2 * turns) Hrng Hp Hl Nz Rz Hw) as (a & Ea & Ht). rewrite (bind_is _ _ _ Ea).
  destruct (drbg_generate (rfc_hmac sha256_alg) 32 drbg) as [out drbg']. cbn [fst snd] in Ht.
  destruct (sign_try (be_val priv) (bn_val z) (be_val out)) as [| |r s b]; cbn [turn_ok] in Ht.
  - destruct Ht as (st' & -> & Hr & Hs & Esig). rewrite <- Esig. apply IH; [exact Hr|exact Hp|by rewrite Esig|exact Nz|exact Rz|exact Hs].
  - destruct Ht as (b & st' & -> & _ & Esig). exists b, st'. split; [reflexivity|]. split; [exact Esig|done].
  - destruct Ht as (st' & -> & Hr & Hs & Esig). destruct (refused is_canonical b (sig_bytes r s)).
    + rewrite <- Esig. apply IH; [exact Hr|exact Hp|rewrite Esig; apply zlen_sig_bytes|exact Nz|exact Rz|exact Hs].
    + exists b, st'. split; [reflexivity|]. split; [exact Esig|done].
Qed.

(** The generator for a key and a digest: the key, and the digest modulo the order. *)
Definition rfc6979_seed (f : list Z -> list Z -> list Z) (priv digest : list Z) : drbg_state :=
  drbg_instantiate f priv (be_bytes 32 (be_val digest mod N)).

Lemma init_rfc6979_ok priv digest : bytes_n 32 priv -> bytes_n 32 digest ->
  exists ctx, init_rfc6979 priv digest (Some curve) = Some ctx /\ drbg_rep ctx (rfc6979_seed (rfc_hmac sha256_alg) priv digest).
Proof.
  intros Hp Hd. pose proof (N_range curve). unfold init_rfc6979. rewrite bn_bitcount_val by apply (ok_order curve).
  replace (256 <=? bit_size N) with true.
  2: { symmetry. apply Z.leb_le. unfold bit_size. rewrite (proj2 (Z.eqb_neq N 0)) by lia. pose proof (Z.log2_le_mono (2 ^ 255) N ltac:(lia)) as Hlog.
       rewrite Z.log2_pow2 in Hlog by lia. lia. }
  destruct (bn_read_be_val digest (proj1 Hd) (proj2 Hd)) as [Nz Vz]. pose proof (be_val_range digest (proj1 Hd)) as Rz.
  unfold zlen in Rz. rewrite (proj2 Hd) in Rz. change (256 ^ Z.of_nat 32) with (2 ^ 256) in Rz.
  destruct (repr_mod (p := o) (bn_read_be digest) (sc (bn_val (bn_read_be digest)))) as (r & Er & Hr); [apply wide_repr; [done|done|rewrite Vz; lia]|].
  rewrite (bind_is _ _ _ Er). cbv beta zeta. pose proof (repr_range _ _ _ Hr) as Rr.
  rewrite (bn_write_be_val r (replicate 32 0) (repr_norm _ _ _ Hr)) by (done || lia).
  rewrite (repr_1_val _ _ Hr), Zmod.to_Z_of_Z, Vz. rewrite take_ge by (rewrite (proj2 Hp); done).
  eexists. split; [reflexivity|]. destruct (be_bytes_n 32 (be_val digest mod N)) as [Bn Ln].
  apply drbg_init_rep; [apply Hp|exact Bn|intros E; destruct Hp as [_ Lp]; by rewrite E in Lp|]. unfold zlen. rewrite (proj2 Hp), Ln. done.
Qed.

(** ** What a signature says *)

Lemma times_cong a b u : on_curve curve u -> a mod N = b mod N -> ec_times curve a u = ec_times curve b u.
Proof.
  intros Hu E. pose proof (N_range curve). pose proof (ec_order_all curve u Hu) as HN.
  rewrite <- (ec_times_mod curve N a), <- (ec_times_mod curve N b) by (done || lia). by rewrite E.
Qed.

Lemma mult_sc k u : on_curve curve u -> mul_by (sc k) u = ec_times curve k u.
Proof. intros Hu. unfold mult. apply times_cong; [done|]. rewrite Zmod.to_Z_of_Z. apply Z.mod_mod. pose proof (N_range curve). lia. Qed.

Lemma mult_add a b u : on_curve curve u -> mul_by (Zmod.add a b) u = ec_add curve (mul_by a u) (mul_by b u).
Proof.
  intros Hu. unfold mult. rewrite <- (ec_times_add curve) by done. apply times_cong; [done|]. rewrite Zmod.to_Z_add. apply Z.mod_mod.
  pose proof (N_range curve). lia.
Qed.

Lemma mult_mul a b u : on_curve curve u -> mul_by a (mul_by b u) = mul_by (Zmod.mul a b) u.
Proof.
  intros Hu. unfold mult. rewrite (ec_times_times curve) by done. apply times_cong; [done|]. rewrite Zmod.to_Z_mul. symmetry. apply Z.mod_mod.
  pose proof (N_range curve). lia.
Qed.

Lemma mult_opp a u : on_curve curve u -> mul_by (Zmod.opp a) u = ec_neg curve (mul_by a u).
Proof.
  intros Hu. unfold mult. rewrite <- (ec_times_neg curve). apply times_cong; [done|]. rewrite Zmod.to_Z_opp. apply Z.mod_mod.
  pose proof (N_range curve). lia.
Qed.

(** R, the number of which it is the multiple of the base point, and the equation
    that binds them to the signature. *)
Record signed (d z r s b : Z) (k : Zmod N) (x y : Zmod P) : Prop := {
  sd_R : mul_by k g = Affine x y;
  sd_r : 0 < r < N;
  sd_s : 0 < s <= N / 2;
  sd_d : 0 < d < N;
  sd_x : Zmod.to_Z x mod N = r;
  sd_lift : lifts curve (recover_x curve r b) (Z.odd b) (Affine x y);
  sd_eq : Zmod.add (Zmod.mul (sc r) (sc d)) (sc z) = Zmod.mul k (sc s) }.

Lemma recover_byte (x : Zmod P) (odd : bool) : let b := Z.b2z odd + (if N <=? Zmod.to_Z x then 2 else 0) in
  recover_x curve (Zmod.to_Z x mod N) b = Zmod.to_Z x /\ Z.odd b = odd /\
  recover_x curve (Zmod.to_Z x mod N) (b .^ 1) = Zmod.to_Z x /\ Z.odd (b .^ 1) = negb odd.
Proof.
  cbv zeta. pose proof (N_range curve). pose proof (elem_range curve x) as Rx. unfold recover_x. destruct (Z.leb_spec N (Zmod.to_Z x)) as [Hge|Hlt].
  - assert (E : Zmod.to_Z x mod N + N = Zmod.to_Z x).
    { replace (Zmod.to_Z x) with (Zmod.to_Z x - N + 1 * N) at 1 by lia. rewrite Z.mod_add, Z.mod_small by lia. lia. }
    by destruct odd.
  - rewrite Z.mod_small by lia. by destruct odd.
Qed.

Lemma sign_try_ok d z k r s b : sign_try d z k = Signed r s b -> exists k' x y, signed d z r s b k' x y.
Proof.
  pose proof (N_range curve) as HN. pose proof (stands_on_curve curve _ _ Hg) as Hc. unfold sign_try.
  destruct ((0 <? k) && (k <? N)) eqn:Ek; [|done]. rewrite andb_true_iff, !Z.ltb_lt in Ek. cbn [negb].
  destruct (ec_times curve k g) as [|x y] eqn:Exy; [done|]. destruct (Z.eqb_spec (Zmod.to_Z x mod N) 0) as [|Hr0]; [done|].
  destruct ((0 <? d) && (d <? N)) eqn:Ed; [|done]. rewrite andb_true_iff, !Z.ltb_lt in Ed. cbn [negb].
  pose proof (Z.mod_pos_bound (Zmod.to_Z x) N ltac:(lia)) as Rr. set (r0 := Zmod.to_Z x mod N) in *.
  set (s0 := Zmod.mul (Zmod.inv (sc k)) _). destruct (Z.eqb_spec (Zmod.to_Z s0) 0) as [|Hs0]; [done|].
  pose proof (scalar_range curve s0) as Rs.
  assert (Hk : sc k <> Zmod.zero) by (apply Zmod.of_Z_nz; rewrite Z.mod_small; lia).
  pose proof (sign_equation N (ok_N curve) (sc k) (sc r0) (sc d) (sc z) s0 Hk eq_refl) as Eq.
  destruct (recover_byte x (Z.odd (Zmod.to_Z y))) as (E1 & E2 & E3 & E4). fold r0 in E1, E3.
  assert (Hx0 : Zmod.to_Z x mod N = r0) by reflexivity. clearbody s0 r0.
  assert (Hon : on_curve curve (Affine x y)) by (rewrite <- Exy; by apply (ec_times_on_curve curve)).
  destruct (Z.ltb_spec (N / 2) (Zmod.to_Z s0)) as [Hhigh|Hlow]; intros [= <- <- <-].
  - exists (Zmod.opp (sc k)), x, (Zmod.opp y). split; [|lia|apply other_half; lia|done|done| |].
    + rewrite mult_opp, mult_sc, Exy by done. reflexivity.
    + split; [by apply (ec_neg_on_curve curve) in Hon|]. split; [by rewrite E3|]. rewrite E4. apply (to_Z_odd_opp curve).
      intros ->. by apply (ok_no2 curve) in Hon.
    + rewrite Eq, Zmod.of_Z_sub, Zmod.of_Z_to_Z. replace (sc N) with (Zmod.zero : Zmod N).
      * rewrite Zmod.sub_0_l. symmetry. apply (opp_product N (ok_N curve)).
      * rewrite <- Zmod.of_Z_0. apply Zmod.of_Z_inj. rewrite Z.mod_same, Z.mod_0_l by lia. done.
  - exists (sc k), x, y. split; [|lia|lia|done|done| |].
    + by rewrite mult_sc.
    + split; [done|]. by rewrite E1, E2.
    + by rewrite Eq, Zmod.of_Z_to_Z.
Qed.

Lemma signed_verifies d z r s b k x y : signed d z r s b k x y -> z <> 0 -> verify_spec curve g (ec_times curve d g) r s z = 0.
Proof.
  intros [HR Hr Hs Hd Hx _ Eq] Hz. pose proof (N_range curve) as HN. pose proof (stands_on_curve curve _ _ Hg) as Hc. unfold verify_spec.
  pose proof (below_half N s Hs) as Hs2.
  rewrite (proj2 (Z.eqb_neq z 0) Hz), !(proj2 (Z.ltb_lt _ _)) by lia. cbn [andb negb]. unfold verify_point.
  rewrite <- (mult_sc d g Hc), mult_mul, <- mult_add by done.
  rewrite (verify_exponent N (ok_N curve) k (sc r) (sc d) (sc z) (sc s)), HR, Hx, Z.eqb_refl; [done| |exact Eq].
  apply Zmod.of_Z_nz. rewrite Z.mod_small; lia.
Qed.

Lemma signed_recovers d z r s b k x y : signed d z r s b k x y ->
  recover_point curve g (Affine x y) r s z = ec_times curve d g.
Proof.
  intros [HR Hr Hs Hd Hx _ Eq]. pose proof (N_range curve) as HN. pose proof (stands_on_curve curve _ _ Hg) as Hc. unfold recover_point.
  rewrite <- HR, mult_mul, <- mult_add by done. rewrite (recover_exponent N (ok_N curve) k (sc r) (sc d) (sc z) (sc s)); [by apply mult_sc| |exact Eq].
  apply Zmod.of_Z_nz. rewrite Z.mod_small; lia.
Qed.

Lemma sign_spec_outcome f c turns : forall d z st sig ret b sig', sign_spec f turns d z c st sig = (ret, b, sig') ->
  ret = -1 \/ ret = 2 /\ ~ 0 < d < N \/
  ret = 0 /\ exists r s k x y, signed d z r s b k x y /\ sig' = sig_bytes r s /\ refused c b sig' = false.
Proof.
  induction turns as [|turns IH]; intros d z st sig ret b sig'; cbn [sign_spec]. { intros [= <- <- <-]. by left. }
  destruct (drbg_generate f 32 st) as [out st']. destruct (sign_try d z (be_val out)) as [| |r s b'] eqn:Et; [apply IH| |].
  - intros [= <- <- <-]. right. left. split; [done|]. unfold sign_try in Et. destruct (negb ((0 <? be_val out) && _)); [done|].
    destruct (ec_times _ _ _); [done|]. destruct (_ =? 0); [done|]. destruct ((0 <? d) && (d <? N)) eqn:Ed.
    + cbv zeta in Et. cbn [negb] in Et. repeat match type of Et with (if ?c then _ else _) = _ => destruct c end; discriminate Et.
    + intros [? ?]. by rewrite !(proj2 (Z.ltb_lt _ _)) in Ed by lia.
  - destruct (refused c b' (sig_bytes r s)) eqn:Er; [apply IH|]. intros [= <- <- <-]. right. right. split; [done|].
    destruct (sign_try_ok _ _ _ _ _ _ Et) as (k & x & y & Hs). exists r, s, k, x, y. done.
Qed.

Lemma sig_halves r s : 0 <= r < 2 ^ 256 -> 0 <= s < 2 ^ 256 ->
  bytes_n 64 (sig_bytes r s) /\ be_val (slice (sig_bytes r s) 0 32) = r /\ be_val (slice (sig_bytes r s) 32 32) = s.
Proof.
  intros Hr Hs. destruct (be_bytes_n 32 r) as [Br Lr], (be_bytes_n 32 s) as [Bs Ls]. unfold sig_bytes. split.
  - split; [by apply Forall_app|]. rewrite length_app, Lr, Ls. done.
  - unfold slice. change (Z.to_nat 32) with 32%nat. change (Z.to_nat 0) with 0%nat. rewrite drop_0, take_app_length' by done.
    rewrite drop_app_length' by done. rewrite take_ge by (rewrite Ls; done). split; by apply be_val_be_bytes.
Qed.

(** A signature verifies, and its key is recovered. *)
Lemma signed_good d z r s b k x y pk digest words n : signed d z r s b k x y -> bytes_n 32 digest -> be_val digest = z -> z <> 0 ->
  encodes curve pk (ec_times curve d g) -> supplies curve (S (S n)) words ->
  (exists rest, ecdsa_verify_digest cp words curve pk (sig_bytes r s) digest = Some (0, rest)) /\
  (forall buf, zlen buf = 65 -> exists rest,
     ecdsa_recover_pub_from_sig cp words curve buf (sig_bytes r s) digest b = Some (0, enc65 curve (ec_times curve d g), rest)).
Proof.
  intros Hs Hd Hz Hz0 Hpk Hw. pose proof (N_range curve) as HN. pose proof Hs as [HR Rr Rs Rd Hx HL Eq].
  pose proof (below_half N s Rs) as Rs2. destruct (sig_halves r s ltac:(lia) ltac:(lia)) as (Hsig & Er & Es). split.
  - destruct (verify_ok curve g Hg Hg0 cp Hcp pk _ (sig_bytes r s) digest words n Hpk Hsig Hd Hw) as (rest & E & _). exists rest.
    rewrite E, Er, Es, Hz, (signed_verifies d z r s b k x y) by done. done.
  - intros buf Hl. destruct (recover_ok curve g Hg Hg0 cp Hcp buf (sig_bytes r s) digest b words n Hsig Hd Hl Hw) as (ret & pk' & rest & E & _ & H).
    rewrite Er, Es, Hz in H. exists rest. rewrite E. destruct H as [(-> & R & _ & _ & HL' & _ & ->)|(_ & _ & Hno)].
    + rewrite (lifts_inj curve _ _ _ _ HL' HL), (signed_recovers d z r s b k x y) by done. done.
    + exfalso. apply Hno. exists (Affine x y). split; [done|]. split; [lia|]. split; [done|]. rewrite (signed_recovers d z r s b k x y) by done.
      apply Hpk.
Qed.

Lemma sign_spec_ext f f' c turns : (forall K m, f K m = f' K m) -> forall d z st sig, sign_spec f turns d z c st sig = sign_spec f' turns d z c st sig.
Proof.
  intros E. induction turns as [|turns IH]; intros d z st sig; [done|]. cbn [sign_spec]. rewrite (generate_ext f f' _ _ E).
  destruct (drbg_generate f' 32 st) as [out st']. rewrite !IH. destruct (sign_try d z (be_val out)); [done|done|]. by rewrite IH.
Qed.

Lemma seed_ext f f' priv digest : (forall K m, f K m = f' K m) -> rfc6979_seed f priv digest = rfc6979_seed f' priv digest.
Proof. intros E. apply update_ext, E. Qed.

Lemma sign_digest_ok priv digest sig pby is_canonical words : bytes_n 32 priv -> bytes_n 32 digest -> zlen sig = 64 -> be_val digest <> 0 ->
  supplies curve (2 * sign_turns) words ->
  exists rest, let '(ret, by_, sig') := sign_spec hmac256 sign_turns (be_val priv) (be_val digest) is_canonical (rfc6979_seed hmac256 priv digest) sig in
  ecdsa_sign_digest cp words curve priv digest sig pby is_canonical = Some (ret, sig', (if ret =? 0 then by_ else pby), rest).
Proof.
  intros Hp Hd Hl Hz Hw. rewrite (sign_spec_ext hmac256 (rfc_hmac sha256_alg) _ _ hmac256_eq), (seed_ext hmac256 (rfc_hmac sha256_alg) _ _ hmac256_eq).
  destruct (init_rfc6979_ok priv digest Hp Hd) as (ctx & Ec & Hc). unfold ecdsa_sign_digest. rewrite (bind_is _ _ _ Ec). cbv beta zeta.
  destruct (read_key digest Hd) as [Nz Vz]. destruct (read_bn_ok 32 digest 0 Hd) as (_ & _ & Rz); [lia|lia|].
  rewrite bn_is_zero_val, truth_b2z, Vz, (proj2 (Z.eqb_neq _ _) Hz) by done.
  destruct (sign_loop_ok priv (read_bn digest 0) is_canonical sign_turns (SignState ctx words zero_point sig) _ Hc Hp Hl Nz ltac:(lia) Hw) as (b & st' & H).
  cbn [sg_sig] in H. rewrite Vz in H. destruct (sign_spec _ _ _ _ _ _ _) as [[ret by_] sig']. destruct H as (E & Es & Hb). exists (sg_words st').
  rewrite (bind_is _ _ _ E). cbv beta iota. rewrite Es. destruct (Z.eqb_spec ret 0) as [E0|]; [by rewrite (Hb E0)|done].
Qed.

End Sign.
(** ** The properties *)

(** C7: ecdsa_sign_digest is deterministic ECDSA: the numbers k are those of the
    HMAC_DRBG of RFC 6979, seeded with the key and the digest modulo the order;
    the first of at most 10000 that is in range, gives r and s different from
    zero, and after the choice of the smaller of s and -s passes the check of the
    coin, determines the bytes of the signature and the recovery byte.  The
    blinding by hardware random numbers does not influence the result.  A zero
    digest gives 1, a key out of range 2, and -1 is returned when all numbers are
    refused. *)
Theorem sign_digest_correct curve `{!CurveOk curve} cp g priv digest sig pby is_canonical words :
  stands_for curve (G curve) g -> g <> Infinity -> table_ok curve cp g ->
  bytes_n 32 priv -> bytes_n 32 digest -> zlen sig = 64 -> supplies curve (2 * sign_turns) words ->
  exists ret by_ sig' rest,
  (ret, by_, sig') = (if be_val digest =? 0 then (1, 0, sig)
    else sign_spec curve g hmac256 sign_turns (be_val priv) (be_val digest) is_canonical (rfc6979_seed curve hmac256 priv digest) sig) /\
  ecdsa_sign_digest cp words curve priv digest sig pby is_canonical = Some (ret, sig', (if ret =? 0 then by_ else pby), rest).
Proof.
  intros Hg Hg0 Hcp Hp Hd Hl Hw. destruct (Z.eqb_spec (be_val digest) 0) as [Ez|Hz].
  - exists 1, 0, sig, words. split; [done|].
    destruct (init_rfc6979_ok curve priv digest Hp Hd) as (ctx & Ec & _). unfold ecdsa_sign_digest. rewrite (bind_is _ _ _ Ec). cbv beta zeta.
    destruct (read_key digest Hd) as [Nz Vz]. by rewrite bn_is_zero_val, truth_b2z, Vz, Ez by done.
  - destruct (sign_digest_ok curve g Hg Hg0 cp Hcp priv digest sig pby is_canonical words Hp Hd Hl Hz Hw) as (rest & H).
    destruct (sign_spec _ _ _ _ _ _ _ _ _) as [[ret by_] sig']. by exists ret, by_, sig', rest.
Qed.

Lemma sign_digest_correct_witness :
  exists ret by_ sig' rest,
  (ret, by_, sig') = (if be_val (be_bytes 32 9) =? 0 then (1, 0, replicate 64 0)
    else sign_spec secp256k1 secp256k1_g hmac256 sign_turns (be_val demo_key) (be_val (be_bytes 32 9)) None
           (rfc6979_seed secp256k1 hmac256 demo_key (be_bytes 32 9)) (replicate 64 0)) /\
  ecdsa_sign_digest (Some secp256k1_cp) (plenty (2 * sign_turns)) secp256k1 demo_key (be_bytes 32 9) (replicate 64 0) 0 None =
    Some (ret, sig', (if ret =? 0 then by_ else 0), rest).
Proof.
  exact (sign_digest_correct secp256k1 (Some secp256k1_cp) secp256k1_g demo_key (be_bytes 32 9) (replicate 64 0) 0 None (plenty (2 * sign_turns)) secp256k1_G
    ltac:(discriminate) secp256k1_table demo_key_bytes (be_bytes_n 32 9) eq_refl (plenty_supplies secp256k1 _)).
Defined.

(** C6: Signatures are good: when a key in range signs a digest that is not zero,
    ecdsa_sign_digest returns 0 or gives up with -1, and what it signs has its s
    in the lower half, passes the coin's check, is accepted by
    ecdsa_verify_digest under the public key in either encoding, and gives the
    public key back through ecdsa_recover_pub_from_sig with the recovery byte
    that was returned. *)
Theorem sign_verify_recover curve `{!CurveOk curve} cp g priv digest sig pby is_canonical words :
  stands_for curve (G curve) g -> g <> Infinity -> table_ok curve cp g ->
  valid_key curve priv -> bytes_n 32 digest -> be_val digest <> 0 -> zlen sig = 64 -> supplies curve (2 * sign_turns) words ->
  let Q := ec_times curve (be_val priv) g in
  exists ret sig' by_ rest,
  ecdsa_sign_digest cp words curve priv digest sig pby is_canonical = Some (ret, sig', by_, rest) /\ (ret = 0 \/ ret = -1) /\
  (ret = 0 ->
   bytes_n 64 sig' /\ 0 < be_val (slice sig' 32 32) <= cN curve / 2 /\ refused is_canonical by_ sig' = false /\
   forall pk words' n, encodes curve pk Q -> supplies curve (S (S n)) words' ->
   (exists rest', ecdsa_verify_digest cp words' curve pk sig' digest = Some (0, rest')) /\
   (forall buf, zlen buf = 65 -> exists rest',
      ecdsa_recover_pub_from_sig cp words' curve buf sig' digest by_ = Some (0, enc65 curve Q, rest'))).
Proof.
  intros Hg Hg0 Hcp [Hp Hr] Hd Hz Hl Hw Q. destruct (sign_digest_ok curve g Hg Hg0 cp Hcp priv digest sig pby is_canonical words Hp Hd Hl Hz Hw) as (rest & H).
  destruct (sign_spec _ _ _ _ _ _ _ _ _) as [[ret by_] sig'] eqn:Es.
  destruct (sign_spec_outcome curve g Hg _ _ _ _ _ _ _ _ _ _ Es) as [-> |[[_ Hb]|(-> & r & s & k & x & y & Hs & -> & Hc)]]; [|by destruct Hb|].
  - eexists _, _, _, rest. split; [exact H|]. split; [by right|done].
  - eexists _, _, _, rest. split; [exact H|]. split; [by left|]. intros _. pose proof (N_range curve).
    pose proof (below_half _ _ (sd_s _ _ _ _ _ _ _ _ _ _ Hs)). pose proof (sd_r _ _ _ _ _ _ _ _ _ _ Hs).
    destruct (sig_halves r s ltac:(lia) ltac:(lia)) as (Hsig & _ & E2). split; [exact Hsig|]. rewrite E2. split; [apply (sd_s _ _ _ _ _ _ _ _ _ _ Hs)|].
    split; [exact Hc|]. intros pk words' n Hpk Hw'. by apply (signed_good curve g Hg Hg0 cp Hcp _ _ _ _ _ _ _ _ pk digest words' n Hs).
Qed.

Lemma sign_verify_recover_witness :
  exists ret sig' by_ rest,
  ecdsa_sign_digest (Some secp256k1_cp) (plenty (2 * sign_turns)) secp256k1 demo_key (be_bytes 32 9) (replicate 64 0) 0 None = Some (ret, sig', by_, rest) /\
  (ret = 0 \/ ret = -1).
Proof.
  pose proof (sign_verify_recover secp256k1 (Some secp256k1_cp) secp256k1_g demo_key (be_bytes 32 9) (replicate 64 0) 0 None (plenty (2 * sign_turns)) secp256k1_G
    ltac:(discriminate) secp256k1_table demo_key_valid (be_bytes_n 32 9) ltac:(vm_compute; discriminate) eq_refl (plenty_supplies secp256k1 _)) as H.
  destruct H as (ret & sig' & by_ & rest & E & Hret & _). exists ret, sig', by_, rest. split; [exact E|exact Hret].
Defined.

End EcdsaSign.
