(* ===== verification/Der.v ===== *)
(** * DER encoding of signatures (crypto/ecdsa.c)

    ecdsa_sig_to_der and ecdsa_sig_from_der: a signature of two 32-byte numbers
    as a DER sequence of two integers, and back.  A read outside the input is a
    value of its own ([None]), so that the absence of such reads can be
    stated. *)

From stdpp Require Import base list numbers.
From Stdlib Require Import ZArith Lia.
From S2P Require Import Prelude.

Module Der.

(** while (i < last && sig[i] == 0) i++, from [i] *)
Fixpoint skip_zeros (fuel : nat) (sig : list Z) (i last : Z) : Z :=
  match fuel with
  | O => i
  | S fuel => if (i <? last) && (znth 0 sig i =? 0) then skip_zeros fuel sig (i + 1) last else i
  end.

(** One integer: tag, length, a zero when the top bit is set, the bytes from
    the first significant one to [stop]. *)
Definition der_integer (sig : list Z) (start stop : Z) : list Z :=
  let i := skip_zeros 32 sig start (stop - 1) in
  let zero := if 0x80 <=? znth 0 sig i then [0] else [] in
  let body := zero ++ slice sig i (stop - i) in
  0x02 :: u8 (zlen body) :: body.

(** The bytes written at [der]; the call returns their number. *)
Definition ecdsa_sig_to_der (sig : list Z) : list Z * Z :=
  let r := der_integer sig 0 32 in
  let s := der_integer sig 32 64 in
  let len1 := znth 0 r 1 in
  let len2 := znth 0 s 1 in
  let len := u8 (len1 + len2 + 4) in
  (0x30 :: len :: r ++ s, len + 2).

(** der[i], [None] outside the input *)
Definition at_ (der : list Z) (i : Z) : option Z :=
  if (0 <=? i) && (i <? zlen der) then Some (znth 0 der i) else None.

(** memcpy(sig + off, src, zlen src) *)
Definition put (sig : list Z) (off : Z) (src : list Z) : list Z :=
  take (Z.to_nat off) sig ++ src ++ drop (Z.to_nat (off + zlen src)) sig.

(** What a step of the parser gives: a refusal (return 1), or the next position
    and the signature so far. *)
Inductive parsed := Refused (sig : list Z) | Next (pos : Z) (sig : list Z).

(** The turn of the loop for integer [i]. *)
Definition parse_integer (der : list Z) (i pos : Z) (sig : list Z) : option parsed :=
  let der_len := zlen der in
  if der_len <? pos + 2 then Some (Refused sig)
  else
    tag ← at_ der pos;
    if negb (tag =? 0x02) then Some (Refused sig)
    else
      int_len ← at_ der (pos + 1);
      let pos := pos + 2 in
      if der_len <? pos + int_len then Some (Refused sig)
      else
        first ← (if int_len =? 0 then Some 1 else at_ der pos);
        let skip := negb (int_len =? 0) && (first =? 0) in
        let int_len := if skip then int_len - 1 else int_len in
        let pos := if skip then pos + 1 else pos in
        if 32 <? int_len then Some (Refused sig)
        else Some (Next (pos + int_len) (put sig (32 * (i + 1) - int_len) (slice der pos int_len))).

Definition ecdsa_sig_from_der (der : list Z) : option (Z * list Z) :=
  let der_len := zlen der in
  let sig := zrep 64 0 in
  if (der_len <? 2) || (72 <? der_len) then Some (1, sig)
  else
    tag ← at_ der 0;
    if negb (tag =? 0x30) then Some (1, sig)
    else
      len ← at_ der 1;
      if negb (len =? der_len - 2) then Some (1, sig)
      else
        p1 ← parse_integer der 0 2 sig;
        match p1 with
        | Refused sig => Some (1, sig)
        | Next pos sig =>
            p2 ← parse_integer der 1 pos sig;
            match p2 with
            | Refused sig => Some (1, sig)
            | Next pos sig => Some (if negb (pos =? der_len) then 1 else 0, sig)
            end
        end.

(** ** Safety of the parser *)

Lemma at_in der i : 0 <= i < zlen der -> at_ der i = Some (znth 0 der i).
Proof. intros Hi. unfold at_. by zif. Qed.

Lemma byte_nth der i : Forall is_byte der -> is_byte (znth 0 der i).
Proof.
  intros H. unfold znth. destruct (i <? 0); [unfold is_byte; lia|].
  destruct (nth_in_or_default (Z.to_nat i) der 0) as [Hin|E]; [|rewrite E; unfold is_byte; lia].
  rewrite List.Forall_forall in H. by apply H.
Qed.

Lemma length_put sig off src : length sig = 64%nat -> 0 <= off -> off + zlen src <= 64 -> length (put sig off src) = 64%nat.
Proof. intros Hl Ho Hs. unfold put, zlen in *. rewrite !length_app, length_take, length_drop. lia. Qed.

Lemma zlen_cut (l : list Z) off n : 0 <= off -> 0 <= n -> off + n <= zlen l -> zlen (slice l off n) = n.
Proof. intros. unfold slice, zlen in *. rewrite length_take, length_drop. lia. Qed.

(** One integer is parsed without reading outside the input; the position moves
    on, inside the input. *)
Lemma parse_integer_safe der i pos sig : Forall is_byte der -> 0 <= i <= 1 -> 0 <= pos -> length sig = 64%nat ->
  exists r, parse_integer der i pos sig = Some r /\
  match r with
  | Refused sig' => sig' = sig
  | Next pos' sig' => pos < pos' <= zlen der /\ length sig' = 64%nat
  end.
Proof.
  intros Hd Hi Hp Hs. unfold parse_integer.
  destruct (Z.ltb_spec (zlen der) (pos + 2)); [by eexists|]. rewrite (at_in der pos) by lia. cbn [mbind option_bind].
  destruct (negb (_ =? 2)); [by eexists|]. rewrite (at_in der (pos + 1)) by lia. cbn [mbind option_bind].
  set (n := znth 0 der (pos + 1)). pose proof (byte_nth der (pos + 1) Hd) as Hn. fold n in Hn. unfold is_byte in Hn.
  destruct (Z.ltb_spec (zlen der) (pos + 2 + n)); [by eexists|].
  destruct (Z.eqb_spec n 0) as [->|E].
  - cbn. eexists. split; [done|]. cbn. split; [lia|]. apply length_put; [done|lia|].
    rewrite zlen_cut by lia. lia.
  - rewrite at_in by lia. cbn [mbind option_bind negb andb].
    set (sk := znth 0 der (pos + 2) =? 0). set (m := if sk then n - 1 else n). set (q := if sk then pos + 2 + 1 else pos + 2).
    assert (Hm : 0 <= m /\ q + m = pos + 2 + n /\ pos < q) by (unfold m, q; destruct sk; lia).
    destruct (Z.ltb_spec 32 m); [by eexists|]. eexists. split; [done|]. cbn. split; [lia|].
    apply length_put; [done|lia|]. rewrite zlen_cut by lia. lia.
Qed.

Lemma from_der_total der : Forall is_byte der ->
  exists ret sig, ecdsa_sig_from_der der = Some (ret, sig) /\ (ret = 0 \/ ret = 1) /\ length sig = 64%nat.
Proof.
  intros Hd. unfold ecdsa_sig_from_der.
  destruct (Z.ltb_spec (zlen der) 2), (Z.ltb_spec 72 (zlen der)); cbn [orb]; [by do 2 eexists; eauto..|].
  rewrite (at_in der 0) by lia. cbn [mbind option_bind]. destruct (negb (_ =? 0x30)); [by do 2 eexists; eauto|].
  rewrite at_in by lia. cbn [mbind option_bind]. destruct (negb (_ =? _)); [by do 2 eexists; eauto|].
  destruct (parse_integer_safe der 0 2 (zrep 64 0) Hd) as (r1 & -> & H1); [lia|lia|done|]. cbn [mbind option_bind].
  destruct r1 as [s1|p1 s1]; [subst; by do 2 eexists; eauto|]. destruct H1 as [H1 L1].
  destruct (parse_integer_safe der 1 p1 s1 Hd) as (r2 & -> & H2); [lia|lia|done|]. cbn [mbind option_bind].
  destruct r2 as [s2|p2 s2]; [subst; by do 2 eexists; eauto|]. destruct H2 as [H2 L2].
  do 2 eexists. split; [done|]. split; [|done]. destruct (negb _); auto.
Qed.

(** ** Round trip *)

(** A number of 32 bytes as [k] leading zeros and the rest, which starts with a
    byte that is not zero or is the last byte. *)
Definition significant (bs : list Z) (k : Z) (b : Z) (tl : list Z) : Prop :=
  bs = zrep k 0 ++ b :: tl /\ 0 <= k <= 31 /\ (b <> 0 \/ k = 31).

Lemma skip_zeros_ok pre bs post : forall fuel k, length bs = 32%nat -> 0 <= k <= 31 -> 31 - k < Z.of_nat fuel ->
  take (Z.to_nat k) bs = zrep k 0 ->
  exists j b tl, significant bs j b tl /\ skip_zeros fuel (pre ++ bs ++ post) (zlen pre + k) (zlen pre + 31) = zlen pre + j.
Proof.
  induction fuel as [|fuel IH]; intros k Hl Hk Hf Ht; [lia|]. cbn [skip_zeros].
  destruct (lookup_lt_is_Some_2 bs (Z.to_nat k)) as [b Hb]; [lia|].
  assert (Hn : znth 0 (pre ++ bs ++ post) (zlen pre + k) = b).
  { rewrite znth_app_r by lia. unfold znth. zif. rewrite app_nth1 by lia. by apply nth_lookup_Some. }
  rewrite Hn. assert (Hsplit : bs = zrep k 0 ++ b :: drop (S (Z.to_nat k)) bs).
  { rewrite <- Ht. symmetry. by apply take_drop_middle. }
  destruct (Z.ltb_spec (zlen pre + k) (zlen pre + 31)); cbn [andb].
  - destruct (Z.eqb_spec b 0) as [->|Hne].
    + replace (zlen pre + k + 1) with (zlen pre + (k + 1)) by lia. apply IH; [done|lia|lia|].
      replace (Z.to_nat (k + 1)) with (S (Z.to_nat k)) by lia. rewrite (take_S_r _ _ _ Hb), Ht.
      rewrite zrep_app by lia. done.
    + exists k, b, (drop (S (Z.to_nat k)) bs). split; [|done]. split; [done|]. split; [lia|by left].
  - exists k, b, (drop (S (Z.to_nat k)) bs). split; [|done]. split; [done|]. split; [lia|right; lia].
Qed.

(** The body of an encoded integer. *)
Definition int_body (b : Z) (tl : list Z) : list Z := (if 0x80 <=? b then [0] else []) ++ b :: tl.

Lemma der_integer_ok pre bs post : length bs = 32%nat ->
  exists k b tl, significant bs k b tl /\
  der_integer (pre ++ bs ++ post) (zlen pre) (zlen pre + 32) = 0x02 :: zlen (int_body b tl) :: int_body b tl.
Proof.
  intros Hl. destruct (skip_zeros_ok pre bs post 32 0 Hl) as (k & b & tl & Hs & E); [lia|lia|done|].
  exists k, b, tl. split; [done|]. destruct Hs as (-> & Hk & _).
  rewrite Z.add_0_r in E. unfold der_integer. replace (zlen pre + 32 - 1) with (zlen pre + 31) by lia. rewrite E.
  assert (Hlen : zlen (b :: tl) = 32 - k).
  { rewrite length_app in Hl. unfold zrep, zlen in *. rewrite length_replicate in Hl. lia. }
  assert (Hz : zlen (zrep k 0) = k) by (apply zlen_zrep; lia).
  assert (Hb : znth 0 (pre ++ (zrep k 0 ++ b :: tl) ++ post) (zlen pre + k) = b).
  { rewrite znth_app_r by lia. rewrite <- app_assoc. replace k with (zlen (zrep k 0) + 0) at 2 by lia.
    by rewrite znth_app_r by lia. }
  rewrite Hb. assert (Hsl : slice (pre ++ (zrep k 0 ++ b :: tl) ++ post) (zlen pre + k) (zlen pre + 32 - (zlen pre + k)) = b :: tl).
  { replace (pre ++ (zrep k 0 ++ b :: tl) ++ post) with ((pre ++ zrep k 0) ++ (b :: tl) ++ post) by (by rewrite <- !app_assoc).
    apply slice_mid; [rewrite zlen_app; lia|lia]. }
  rewrite Hsl. fold (int_body b tl). f_equal. f_equal. apply u8_small. unfold int_body. rewrite zlen_app, Hlen.
  destruct (0x80 <=? b); [change (zlen [0]) with 1|change (zlen (@nil Z)) with 0]; lia.
Qed.

(** The parser strips the sign byte, and the byte of a zero. *)
Definition stripped (b : Z) (tl : list Z) : list Z :=
  if (0x80 <=? b) || negb (b =? 0) then b :: tl else tl.

Lemma parse_integer_ok pre b tl post i sig : Forall is_byte (b :: tl) -> zlen tl <= 31 ->
  parse_integer (pre ++ (0x02 :: zlen (int_body b tl) :: int_body b tl) ++ post) i (zlen pre) sig =
  Some (Next (zlen pre + 2 + zlen (int_body b tl))
         (put sig (32 * (i + 1) - zlen (stripped b tl)) (stripped b tl))).
Proof.
  intros Hb Hl. apply Forall_cons_1 in Hb as [Hb _]. unfold is_byte in Hb. unfold parse_integer.
  set (body := int_body b tl). set (der := pre ++ _ ++ post).
  pose proof (zlen_nonneg pre) as Zp. pose proof (zlen_nonneg post) as Zo. pose proof (zlen_nonneg tl) as Zt.
  assert (Hbody : 1 <= zlen body).
  { unfold body, int_body. rewrite zlen_app, zlen_cons. pose proof (zlen_nonneg (if 0x80 <=? b then [0] else [])). lia. }
  assert (Hd : zlen der = zlen pre + 2 + zlen body + zlen post)
    by (unfold der; rewrite zlen_app, zlen_app, !zlen_cons; lia).
  assert (Hat : forall j, 0 <= j -> znth 0 der (zlen pre + j) = znth 0 ((0x02 :: zlen body :: body) ++ post) j)
    by (intros; unfold der; by rewrite znth_app_r by lia).
  zif. rewrite (at_in der (zlen pre)) by lia. cbn [mbind option_bind].
  replace (znth 0 der (zlen pre)) with 2 by (rewrite <- (Z.add_0_r (zlen pre)), Hat by lia; done).
  rewrite (at_in der (zlen pre + 1)) by lia. cbn [mbind option_bind Z.eqb Pos.eqb negb].
  replace (znth 0 der (zlen pre + 1)) with (zlen body) by (rewrite Hat by lia; done).
  rewrite (proj2 (Z.ltb_ge (zlen der) _)) by lia. rewrite (proj2 (Z.eqb_neq (zlen body) 0)) by lia.
  rewrite (at_in der (zlen pre + 2)) by lia. cbn [mbind option_bind negb andb].
  assert (Hcut : forall w x, body = w ++ x -> slice der (zlen pre + 2 + zlen w) (zlen x) = x).
  { intros w x E. unfold der. rewrite E. replace (pre ++ (2 :: zlen (w ++ x) :: w ++ x) ++ post)
      with ((pre ++ 2 :: zlen (w ++ x) :: w) ++ x ++ post) by (cbn [app]; rewrite <- !app_assoc; cbn [app]; by rewrite <- ?app_assoc).
    apply slice_mid; [rewrite zlen_app, !zlen_cons; lia|done]. }
  assert (Hfirst : znth 0 der (zlen pre + 2) = znth 0 (body ++ post) 0) by (rewrite Hat by lia; done).
  rewrite Hfirst. unfold stripped. unfold body, int_body in *.
  destruct (Z.leb_spec 128 b); cbn [app orb].
  - change (znth 0 (0 :: _) 0 =? 0) with true. cbn [orb]. rewrite !zlen_cons in *.
    specialize (Hcut [0] (b :: tl) eq_refl). change (zlen [0]) with 1 in Hcut. rewrite zlen_cons in Hcut.
    replace (1 + (1 + zlen tl) - 1) with (1 + zlen tl) by lia. zif. rewrite Hcut. do 2 f_equal. lia.
  - change (znth 0 (b :: _) 0) with b. destruct (Z.eqb_spec b 0) as [->|Hne]; cbn [negb orb].
    + specialize (Hcut [0] tl eq_refl). change (zlen [0]) with 1 in Hcut. rewrite !zlen_cons in *.
      replace (1 + zlen tl - 1) with (zlen tl) by lia. zif. rewrite Hcut. do 2 f_equal. lia.
    + specialize (Hcut [] (b :: tl) eq_refl). change (zlen (@nil Z)) with 0 in Hcut. rewrite Z.add_0_r in Hcut. rewrite !zlen_cons in *. zif.
      rewrite Hcut. done.
Qed.

(** Putting the stripped bytes at the end of a field of zeros restores it. *)
Lemma put_field a bs rest k b tl : significant bs k b tl -> length bs = 32%nat -> Forall is_byte bs ->
  put (a ++ zrep 32 0 ++ rest) (zlen a + 32 - zlen (stripped b tl)) (stripped b tl) = a ++ bs ++ rest.
Proof.
  intros (-> & Hk & Hbk) Hl Hby. pose proof (zlen_nonneg a) as Za. pose proof (zlen_nonneg tl) as Zt.
  rewrite length_app in Hl. unfold zrep in Hl at 1. rewrite length_replicate in Hl. cbn [length] in Hl.
  assert (Ht : zlen tl = 31 - k) by (unfold zlen; lia).
  apply Forall_app in Hby as [_ Hby]. apply Forall_cons_1 in Hby as [Hb _]. unfold is_byte in Hb.
  assert (E : exists z, stripped b tl = drop z (b :: tl) /\ zrep k 0 ++ b :: tl = zrep (32 - zlen (stripped b tl)) 0 ++ stripped b tl
              /\ zlen (stripped b tl) <= 32).
  { unfold stripped. destruct (Z.eqb_spec b 0) as [->|Hne].
    - exists 1%nat. cbn. split; [done|]. destruct Hbk as [?|Hk31]; [done|].
      assert (tl = []) as -> by (destruct tl; [done|rewrite zlen_cons in Ht; pose proof (zlen_nonneg tl); lia]).
      rewrite Hk31. cbn. split; [done|]. lia.
    - exists 0%nat. rewrite orb_true_r. split; [done|]. rewrite zlen_cons, Ht. split; [|lia]. f_equal. f_equal. lia. }
  destruct E as (_ & _ & E & Hle). rewrite E. set (w := stripped b tl) in *.
  pose proof (zlen_nonneg w) as Zw. unfold put. replace (zlen a + 32 - zlen w + zlen w) with (zlen a + 32) by lia.
  replace (a ++ zrep 32 0 ++ rest) with ((a ++ zrep (32 - zlen w) 0) ++ zrep (zlen w) 0 ++ rest).
  2: { rewrite <- !app_assoc. f_equal. rewrite app_assoc, <- zrep_app by lia. do 2 f_equal. lia. }
  rewrite take_app_length' by (rewrite length_app; unfold zrep, zlen in *; rewrite length_replicate; lia).
  rewrite (app_assoc (a ++ _) (zrep (zlen w) 0) rest), drop_app_length' by (rewrite !length_app; unfold zrep, zlen in *; rewrite !length_replicate; lia).
  by rewrite <- !app_assoc.
Qed.

(** C35: A signature that is encoded is decoded again, for all 64-byte
    signatures, also with leading zeros, a zero number or the top bit set; the
    encoding has at most 72 bytes.  On any input at all the decoder returns 0 or
    1, never reads outside the input, and leaves 64 bytes. *)
Theorem der_roundtrip sig junk : length sig = 64%nat -> Forall is_byte sig -> Forall is_byte junk ->
  let '(der, n) := ecdsa_sig_to_der sig in
  n = zlen der /\ zlen der <= 72 /\ ecdsa_sig_from_der der = Some (0, sig) /\
  exists ret out, ecdsa_sig_from_der junk = Some (ret, out) /\ (ret = 0 \/ ret = 1) /\ length out = 64%nat.
Proof.
  intros Hl Hb Hj. pose proof (from_der_total junk Hj) as Hjunk.
  assert (Hsplit : sig = take 32 sig ++ drop 32 sig) by (by rewrite take_drop).
  set (r := take 32 sig) in *. set (s := drop 32 sig) in *.
  assert (Hlr : length r = 32%nat) by (unfold r; rewrite length_take; lia).
  assert (Hls : length s = 32%nat) by (unfold s; rewrite length_drop; lia).
  clearbody r s. subst sig. apply Forall_app in Hb as [Hbr Hbs].
  destruct (der_integer_ok [] r s Hlr) as (k1 & b1 & t1 & S1 & E1).
  destruct (der_integer_ok r s [] Hls) as (k2 & b2 & t2 & S2 & E2).
  rewrite app_nil_r in E2. assert (Hzr : zlen r = 32) by (unfold zlen; lia). rewrite Hzr in E2.
  change (zlen [] + 32) with 32 in E1. change (zlen (@nil Z)) with 0 in E1. cbn [app] in E1. change (32 + 32) with 64 in E2.
  assert (B1 : Forall is_byte (b1 :: t1)) by (destruct S1 as (-> & _); by apply Forall_app in Hbr as [_ ?]).
  assert (B2 : Forall is_byte (b2 :: t2)) by (destruct S2 as (-> & _); by apply Forall_app in Hbs as [_ ?]).
  assert (Hlen : forall bs k b tl, significant bs k b tl -> length bs = 32%nat ->
            zlen tl <= 31 /\ 1 <= zlen (int_body b tl) <= 33).
  { intros bs k b tl (-> & Hk & _) Hbs'. rewrite length_app in Hbs'. unfold zrep in Hbs'. rewrite length_replicate in Hbs'.
    cbn [length] in Hbs'. assert (zlen tl = 31 - k) by (unfold zlen; lia). split; [lia|]. unfold int_body.
    rewrite zlen_app, zlen_cons. destruct (128 <=? b); [change (zlen [0]) with 1|change (zlen (@nil Z)) with 0]; lia. }
  destruct (Hlen _ _ _ _ S1 Hlr) as [T1 L1]. destruct (Hlen _ _ _ _ S2 Hls) as [T2 L2].
  unfold ecdsa_sig_to_der. rewrite E1, E2.
  change (znth 0 (2 :: ?n :: ?l) 1) with n. change (znth 0 (2 :: ?n :: ?l) 1) with n.
  set (n1 := zlen (int_body b1 t1)) in *. set (n2 := zlen (int_body b2 t2)) in *. rewrite u8_small by lia.
  set (der := _ :: _ :: _). assert (Hd : zlen der = n1 + n2 + 6) by (unfold der; rewrite !zlen_cons, zlen_app, !zlen_cons; lia).
  split; [lia|]. split; [lia|]. split; [|done]. unfold ecdsa_sig_from_der.
  rewrite (proj2 (Z.ltb_ge (zlen der) 2)), (proj2 (Z.ltb_ge 72 (zlen der))) by lia. cbn [orb].
  rewrite (at_in der 0), (at_in der 1) by lia. change (znth 0 der 0) with 48. change (znth 0 der 1) with (n1 + n2 + 4).
  cbn [mbind option_bind Z.eqb Pos.eqb negb]. rewrite (proj2 (Z.eqb_eq (n1 + n2 + 4) _)) by lia. cbn [negb].
  pose proof (parse_integer_ok [48; n1 + n2 + 4] b1 t1 (2 :: n2 :: int_body b2 t2) 0 (zrep 64 0) B1 T1) as P1.
  change (zlen [48; n1 + n2 + 4]) with 2 in P1. fold n1 in P1.
  change ([48; n1 + n2 + 4] ++ _) with der in P1. rewrite P1. cbn [mbind option_bind].
  pose proof (put_field [] r (zrep 32 0) k1 b1 t1 S1 Hlr Hbr) as Q1. change (zlen [] + 32) with 32 in Q1.
  change (32 * (0 + 1)) with 32. change (zrep 64 0) with ([] ++ zrep 32 0 ++ zrep 32 0). rewrite Q1. cbn [app].
  pose proof (parse_integer_ok ([48; n1 + n2 + 4] ++ 2 :: n1 :: int_body b1 t1) b2 t2 [] 1 (r ++ zrep 32 0) B2 T2) as P2.
  fold n2 in P2. rewrite app_nil_r in P2.
  replace (zlen ([48; n1 + n2 + 4] ++ 2 :: n1 :: int_body b1 t1)) with (2 + 2 + n1) in P2
    by (rewrite zlen_app, !zlen_cons, zlen_nil; unfold n1; lia).
  change ((_ ++ _) ++ _) with der in P2. rewrite P2. cbn [mbind option_bind].
  pose proof (put_field r s [] k2 b2 t2 S2 Hls Hbs) as Q2. rewrite !app_nil_r, Hzr in Q2.
  change (32 * (1 + 1)) with (32 + 32). rewrite Q2. rewrite (proj2 (Z.eqb_eq (2 + 2 + n1 + 2 + n2) _)) by lia. done.
Qed.

Lemma der_roundtrip_witness :
  let '(der, n) := ecdsa_sig_to_der (zrep 31 0 ++ [5; 200] ++ zrep 31 9) in
  n = zlen der /\ zlen der <= 72 /\ ecdsa_sig_from_der der = Some (0, zrep 31 0 ++ [5; 200] ++ zrep 31 9) /\
  exists ret out, ecdsa_sig_from_der [48; 0] = Some (ret, out) /\ (ret = 0 \/ ret = 1) /\ length out = 64%nat.
Proof.
  apply (der_roundtrip (zrep 31 0 ++ [5; 200] ++ zrep 31 9) [48; 0]); [reflexivity| |].
  - apply Forall_app. split; [apply Forall_zrep; unfold is_byte; lia|]. apply Forall_app.
    split; [repeat constructor; unfold is_byte; lia|apply Forall_zrep; unfold is_byte; lia].
  - repeat constructor; unfold is_byte; lia.
Defined.

End Der.
