(* ===== verification/Ripemd.v ===== *)
(** * RIPEMD-160 (crypto/ripemd160.c)

    The context holds the byte count in two words, the five state words and a
    block of 64 bytes.  The compression function runs two lines of 80 steps side
    by side; a step of the source names the five registers in a rotated order, so
    the step here returns them rotated and the tables keep only the message word
    and the shift of each line.  The theorem says that the digest of a message fed
    in pieces of any length is the compression of its padded blocks. *)

From stdpp Require Import base list numbers.
From Stdlib Require Import ZArith Lia.
From S2P Require Import Prelude Bits Hash HashSpec.
Local Open Scope fw_scope.

Module Ripemd.
Import Bits Hash HashSpec.

Definition RIPEMD160_BLOCK_LENGTH : Z := 64.
Definition RIPEMD160_DIGEST_LENGTH : Z := 20.

Record RIPEMD160_CTX := RipemdCtx { total0 : Z; total1 : Z; rstate : list Z; rbuffer : list Z }.

Definition ripemd160_Init : RIPEMD160_CTX :=
  RipemdCtx 0 0 [0x67452301; 0xEFCDAB89; 0x98BADCFE; 0x10325476; 0xC3D2E1F0] (replicate 64 0).

Definition F1 (x y z : Z) : Z := x .^ y .^ z.
Definition F2 (x y z : Z) : Z := (x .& y) .| (not32 x .& z).
Definition F3 (x y z : Z) : Z := (x .| not32 y) .^ z.
Definition F4 (x y z : Z) : Z := (x .& z) .| (y .& not32 z).
Definition F5 (x y z : Z) : Z := x .^ (y .| not32 z).

(** S(x, n), a rotation to the left *)
Definition rotl (x n : Z) : Z := u32 (Z.shiftl x n) .| Z.shiftr x (32 - n).

(** The registers of one line, in the order the next step names them. *)
Record line := Line { ra : Z; rb : Z; rc : Z; rd : Z; re : Z }.

(** P(a, b, c, d, e, r, s, f, k) *)
Definition P (X : list Z) (f : Z -> Z -> Z -> Z) (k r s : Z) (l : line) : line :=
  let a := u32 (ra l + f (rb l) (rc l) (rd l) + znth 0 X r + k) in
  let a := u32 (rotl a s + re l) in
  let c := rotl (rc l) 10 in
  Line (re l) a (rb l) c (rd l).

(** The rows of P2: message word and shift of the line, message word and shift
    of the parallel line. *)
Definition lines_1 : list (Z * Z * Z * Z) :=
  [(0, 11, 5, 8); (1, 14, 14, 9); (2, 15, 7, 9); (3, 12, 0, 11);
   (4, 5, 9, 13); (5, 8, 2, 15); (6, 7, 11, 15); (7, 9, 4, 5);
   (8, 11, 13, 7); (9, 13, 6, 7); (10, 14, 15, 8); (11, 15, 8, 11);
   (12, 6, 1, 14); (13, 7, 10, 14); (14, 9, 3, 12); (15, 8, 12, 6)].

Definition lines_2 : list (Z * Z * Z * Z) :=
  [(7, 7, 6, 9); (4, 6, 11, 13); (13, 8, 3, 15); (1, 13, 7, 7);
   (10, 11, 0, 12); (6, 9, 13, 8); (15, 7, 5, 9); (3, 15, 10, 11);
   (12, 7, 14, 7); (0, 12, 15, 7); (9, 15, 8, 12); (5, 9, 12, 7);
   (2, 11, 4, 6); (14, 7, 9, 15); (11, 13, 1, 13); (8, 12, 2, 11)].

Definition lines_3 : list (Z * Z * Z * Z) :=
  [(3, 11, 15, 9); (10, 13, 5, 7); (14, 6, 1, 15); (4, 7, 3, 11);
   (9, 14, 7, 8); (15, 9, 14, 6); (8, 13, 6, 6); (1, 15, 9, 14);
   (2, 14, 11, 12); (7, 8, 8, 13); (0, 13, 12, 5); (6, 6, 2, 14);
   (13, 5, 10, 13); (11, 12, 0, 13); (5, 7, 4, 7); (12, 5, 13, 5)].

Definition lines_4 : list (Z * Z * Z * Z) :=
  [(1, 11, 8, 15); (9, 12, 6, 5); (11, 14, 4, 8); (10, 15, 1, 11);
   (0, 14, 3, 14); (8, 15, 11, 14); (12, 9, 15, 6); (4, 8, 0, 14);
   (13, 9, 5, 6); (3, 14, 12, 9); (7, 5, 2, 12); (15, 6, 13, 9);
   (14, 8, 9, 12); (5, 6, 7, 5); (6, 5, 10, 15); (2, 12, 14, 8)].

Definition lines_5 : list (Z * Z * Z * Z) :=
  [(4, 9, 12, 8); (0, 15, 15, 5); (5, 5, 10, 12); (9, 11, 4, 9);
   (7, 6, 1, 12); (12, 8, 5, 5); (2, 13, 8, 14); (10, 12, 7, 6);
   (14, 5, 6, 8); (1, 12, 2, 13); (3, 13, 13, 6); (8, 14, 14, 5);
   (11, 11, 0, 15); (6, 8, 3, 13); (15, 5, 9, 11); (13, 6, 11, 11)].

(** P2 over the rows of a group *)
Definition P2 (X : list Z) (f fp : Z -> Z -> Z -> Z) (k kp : Z) (rows : list (Z * Z * Z * Z)) (l : line * line) :
    line * line :=
  fold_left (fun l row => let '(r, s, rp, sp) := row in (P X f k r s (fst l), P X fp kp rp sp (snd l))) rows l.

Definition ripemd160_process (st : list Z) (data : list Z) : list Z :=
  let X := words_of 4 16 data in
  let start := Line (znth 0 st 0) (znth 0 st 1) (znth 0 st 2) (znth 0 st 3) (znth 0 st 4) in
  let l := P2 X F1 F5 0x00000000 0x50A28BE6 lines_1 (start, start) in
  let l := P2 X F2 F4 0x5A827999 0x5C4DD124 lines_2 l in
  let l := P2 X F3 F3 0x6ED9EBA1 0x6D703EF3 lines_3 l in
  let l := P2 X F4 F2 0x8F1BBCDC 0x7A6D76E9 lines_4 l in
  let '(l, lp) := P2 X F5 F1 0xA953FD4E 0x00000000 lines_5 l in
  [u32 (znth 0 st 1 + rc l + rd lp); u32 (znth 0 st 2 + rd l + re lp); u32 (znth 0 st 3 + re l + ra lp);
   u32 (znth 0 st 4 + ra l + rb lp); u32 (znth 0 st 0 + rb l + rc lp)].

(** while (ilen >= RIPEMD160_BLOCK_LENGTH): the state and the rest of the input *)
Fixpoint process_blocks (fuel : nat) (st : list Z) (input : list Z) : list Z * list Z :=
  match fuel with
  | O => (st, input)
  | S fuel =>
      if RIPEMD160_BLOCK_LENGTH <=? zlen input then
        process_blocks fuel (ripemd160_process st (take 64 input)) (drop 64 input)
      else (st, input)
  end.

Definition ripemd160_Update (ctx : RIPEMD160_CTX) (input : list Z) : RIPEMD160_CTX :=
  let ilen := zlen input in
  if ilen =? 0 then ctx
  else
    let left := total0 ctx .& 0x3F in
    let fill := RIPEMD160_BLOCK_LENGTH - left in
    let t0 := u32 (total0 ctx + ilen) .& 0xFFFFFFFF in
    let t1 := if t0 <? ilen then u32 (total1 ctx + 1) else total1 ctx in
    let '(st, buf, input, at_) :=
      if negb (left =? 0) && (fill <=? ilen) then
        let buf := memcpy (rbuffer ctx) (Z.to_nat left) (take (Z.to_nat fill) input) in
        (ripemd160_process (rstate ctx) buf, buf, drop (Z.to_nat fill) input, 0)
      else (rstate ctx, rbuffer ctx, input, left) in
    let '(st, input) := process_blocks (length input) st input in
    let buf := if 0 <? zlen input then memcpy buf (Z.to_nat at_) input else buf in
    RipemdCtx t0 t1 st buf.

Definition ripemd160_padding : list Z := 0x80 :: replicate 63 0.

Definition ripemd160_Final (ctx : RIPEMD160_CTX) : list Z :=
  let high := Z.shiftr (total0 ctx) 29 .| u32 (Z.shiftl (total1 ctx) 3) in
  let low := u32 (Z.shiftl (total0 ctx) 3) in
  let msglen := le_bytes 4 low ++ le_bytes 4 high in
  let last := total0 ctx .& 0x3F in
  let padn := if last <? 56 then 56 - last else 120 - last in
  let ctx := ripemd160_Update ctx (take (Z.to_nat padn) ripemd160_padding) in
  let ctx := ripemd160_Update ctx msglen in
  bytes_of 4 (rstate ctx).

Definition ripemd160 (msg : list Z) : list Z := ripemd160_Final (ripemd160_Update ripemd160_Init msg).

(** ** The digest of a message in pieces *)

(** The state after the whole blocks of a message, and the bytes that are left. *)
Definition run (st m : list Z) : list Z * list Z := process_blocks (length m) st m.

Lemma process_more f : forall g st m, (length m <= f)%nat -> (length m <= g)%nat -> process_blocks f st m = process_blocks g st m.
Proof.
  induction f as [|f IH]; intros [|g] st m Hf Hg; try done.
  - destruct m; [reflexivity|cbn in Hf; lia].
  - destruct m; [reflexivity|cbn in Hg; lia].
  - cbn [process_blocks]. destruct (Z.leb_spec RIPEMD160_BLOCK_LENGTH (zlen m)) as [H|]; [|done].
    unfold zlen, RIPEMD160_BLOCK_LENGTH in H. apply IH; rewrite length_drop; lia.
Qed.

Lemma run_eq st m : run st m = if 64 <=? zlen m then run (ripemd160_process st (take 64 m)) (drop 64 m) else (st, m).
Proof.
  unfold run. destruct m as [|x m]; [done|]. cbn [length process_blocks]. unfold RIPEMD160_BLOCK_LENGTH.
  destruct (64 <=? zlen (x :: m)); [|done]. apply process_more; rewrite ?length_drop; cbn [length]; lia.
Qed.

Lemma run_app st a b : run st (a ++ b) = let '(st, rest) := run st a in run st (rest ++ b).
Proof.
  remember (length a) as n eqn:En. revert st a En. induction (lt_wf n) as [n _ IH]. intros st a ->.
  rewrite (run_eq st a). destruct (Z.leb_spec 64 (zlen a)) as [H|]; [|done]. rewrite run_eq. unfold zlen in *.
  rewrite (proj2 (Z.leb_le _ _)) by (rewrite length_app; lia). rewrite take_app_le, drop_app_le by lia.
  apply (IH (length (drop 64 a))); [rewrite length_drop; lia|done].
Qed.

Lemma run_rest st m : zlen (snd (run st m)) = zlen m mod 64.
Proof.
  remember (length m) as n eqn:En. revert st m En. induction (lt_wf n) as [n _ IH]. intros st m ->.
  rewrite run_eq. destruct (Z.leb_spec 64 (zlen m)) as [H|H]; [|cbn; rewrite Z.mod_small; [done|unfold zlen in *; lia]].
  unfold zlen in *. rewrite (IH (length (drop 64 m))) by (rewrite ?length_drop; lia). rewrite length_drop.
  rewrite Nat2Z.inj_sub by lia. change (Z.of_nat 64) with 64. zlia.
Qed.

(** The context stands for the message that was fed. *)
Record fed (ctx : RIPEMD160_CTX) (m : list Z) : Prop := {
  fed_low : total0 ctx = zlen m mod 2 ^ 32;
  fed_high : total1 ctx = (zlen m / 2 ^ 32) mod 2 ^ 32;
  fed_buf : length (rbuffer ctx) = 64%nat;
  fed_run : run (rstate ripemd160_Init) m = (rstate ctx, take (Z.to_nat (zlen m mod 64)) (rbuffer ctx)) }.

Lemma fed_left ctx m : fed ctx m -> total0 ctx .& 0x3F = zlen m mod 64.
Proof. intros H. rewrite (fed_low _ _ H). change 0x3F with (Z.ones 6). rewrite Z.land_ones by lia. zlia. Qed.

Lemma fed_init : fed ripemd160_Init [].
Proof. constructor; reflexivity. Qed.

Lemma count_ok ctx m i : fed ctx m -> 0 < i < 2 ^ 32 ->
  let t0 := u32 (total0 ctx + i) .& 0xFFFFFFFF in
  t0 = (zlen m + i) mod 2 ^ 32 /\
  (if t0 <? i then u32 (total1 ctx + 1) else total1 ctx) = ((zlen m + i) / 2 ^ 32) mod 2 ^ 32.
Proof.
  intros H Hi. cbv zeta. rewrite (fed_low _ _ H), (fed_high _ _ H). change 0xFFFFFFFF with (Z.ones 32). rewrite Z.land_ones by lia.
  unfold u32, wrap. pose proof (zlen_nonneg m). set (l := zlen m) in *. split; [zlia|].
  destruct (Z.ltb_spec (((l mod 2 ^ 32 + i) mod 2 ^ 32) mod 2 ^ 32) i); zlia.
Qed.

(** The buffer at the end of an update: the bytes [rest] that are left go behind
    the [off] bytes it holds. *)
Lemma fed_finish ctx m input st rest buf off : fed ctx m -> 0 < zlen input < 2 ^ 32 ->
  run (rstate ctx) (take (Z.to_nat (zlen m mod 64)) (rbuffer ctx) ++ input) = (st, take off buf ++ rest) ->
  length buf = 64%nat -> (off + length rest <= 64)%nat ->
  let t0 := u32 (total0 ctx + zlen input) .& 0xFFFFFFFF in
  fed (RipemdCtx t0 (if t0 <? zlen input then u32 (total1 ctx + 1) else total1 ctx) st
         (if 0 <? zlen rest then memcpy buf off rest else buf)) (m ++ input).
Proof.
  intros H Hi Er Lb Lo. destruct (count_ok ctx m (zlen input) H Hi) as [C0 C1]. cbv zeta in *.
  assert (Hrun : run (rstate ripemd160_Init) (m ++ input) = (st, take off buf ++ rest)) by (by rewrite run_app, (fed_run _ _ H)).
  pose proof (run_rest (rstate ripemd160_Init) (m ++ input)) as Hlen. rewrite Hrun in Hlen. cbn [snd] in Hlen.
  rewrite (zlen_app (take _ _)) in Hlen. unfold zlen in Hlen at 1 2. rewrite length_take in Hlen.
  constructor; cbn [total0 total1 rstate rbuffer]; [by rewrite zlen_app|by rewrite zlen_app| |].
  - destruct (0 <? zlen rest); [|done]. by rewrite length_memcpy by lia.
  - rewrite Hrun, <- Hlen. f_equal. destruct (Z.ltb_spec 0 (zlen rest)) as [Hp|Hz].
    + replace (Z.to_nat _) with (off + length rest)%nat by lia. by rewrite take_memcpy by lia.
    + destruct rest; [|rewrite zlen_cons in Hz; pose proof (zlen_nonneg rest); lia]. rewrite app_nil_r. f_equal. cbn. lia.
Qed.

Lemma run_short st m rest : run st m = rest -> zlen m < 64 -> rest = (st, m).
Proof. intros <- H. by rewrite run_eq, (proj2 (Z.leb_gt _ _)). Qed.

Lemma update_fed ctx m input : fed ctx m -> zlen input < 2 ^ 32 -> fed (ripemd160_Update ctx input) (m ++ input).
Proof.
  intros H Hi. unfold ripemd160_Update. pose proof (zlen_nonneg input). destruct (Z.eqb_spec (zlen input) 0) as [E|E].
  { destruct input; [by rewrite app_nil_r|rewrite zlen_cons in E; pose proof (zlen_nonneg input); lia]. }
  cbv zeta. rewrite (fed_left _ _ H). pose proof (fed_buf _ _ H) as Hb. pose proof (Z.mod_pos_bound (zlen m) 64 ltac:(lia)) as Hm.
  pose proof (fun st rest buf off => fed_finish ctx m input st rest buf off H ltac:(lia)) as Hfin. cbv zeta in Hfin.
  set (left := zlen m mod 64) in *.
  assert (Htk : length (take (Z.to_nat left) (rbuffer ctx)) = Z.to_nat left) by (rewrite length_take; lia).
  assert (Hrest : forall st x, (length (snd (run st x)) <= 64)%nat) by (intros st x; pose proof (run_rest st x); unfold zlen in *; zlia).
  unfold RIPEMD160_BLOCK_LENGTH. destruct (Z.eqb_spec left 0) as [E0|E0]; cbn [negb andb];
    [|destruct (Z.leb_spec (64 - left) (zlen input)) as [Hf|Hf]].
  - destruct (process_blocks _ _ _) as [st rest] eqn:Er. change (run (rstate ctx) input = (st, rest)) in Er.
    specialize (Hrest (rstate ctx) input). rewrite Er in Hrest. apply Hfin; [by rewrite E0|done|rewrite E0; exact Hrest].
  - assert (Hbuf : memcpy (rbuffer ctx) (Z.to_nat left) (take (Z.to_nat (64 - left)) input) =
                     take 64 (take (Z.to_nat left) (rbuffer ctx) ++ input)).
    { rewrite memcpy_full by (rewrite length_take; unfold zlen in Hf; lia). rewrite take_app_ge by lia. rewrite Htk. repeat f_equal. lia. }
    rewrite Hbuf. destruct (process_blocks _ _ _) as [st rest] eqn:Er.
    change (run (ripemd160_process (rstate ctx) (take 64 (take (Z.to_nat left) (rbuffer ctx) ++ input)))
              (drop (Z.to_nat (64 - left)) input) = (st, rest)) in Er.
    specialize (Hrest _ _ : (length (snd (run (ripemd160_process (rstate ctx) (take 64 (take (Z.to_nat left) (rbuffer ctx) ++ input)))
              (drop (Z.to_nat (64 - left)) input))) <= 64)%nat). rewrite Er in Hrest.
    apply Hfin; [|rewrite length_take, length_app; unfold zlen in *; lia|exact Hrest]. rewrite run_eq.
    rewrite (proj2 (Z.leb_le _ _)) by (rewrite zlen_app; unfold zlen in *; lia).
    rewrite drop_app_ge by lia. rewrite Htk. replace (64 - Z.to_nat left)%nat with (Z.to_nat (64 - left)) by lia. exact Er.
  - destruct (process_blocks _ _ _) as [st rest] eqn:Er. apply run_short in Er as [= -> ->]; [|lia].
    apply Hfin; [|done|unfold zlen in Hf; lia]. rewrite run_eq, (proj2 (Z.leb_gt _ _)); [done|]. rewrite zlen_app. unfold zlen in *. lia.
Qed.

(** The standard: the message, 0x80, zeros up to eight bytes below a multiple of
    64, and the length in bits; the blocks are compressed from the initial state. *)
Definition rmd_pad (m : list Z) : list Z :=
  m ++ 0x80 :: zrep ((55 - zlen m) mod 64) 0 ++ le_bytes 8 (8 * zlen m).
Definition rmd160 (m : list Z) : list Z := bytes_of 4 (fst (run (rstate ripemd160_Init) (rmd_pad m))).

Lemma length_field ctx m : fed ctx m -> zlen m < 2 ^ 61 ->
  le_bytes 4 (u32 (Z.shiftl (total0 ctx) 3)) ++ le_bytes 4 (Z.shiftr (total0 ctx) 29 .| u32 (Z.shiftl (total1 ctx) 3)) =
  le_bytes 8 (8 * zlen m).
Proof.
  intros H Hl. pose proof (zlen_nonneg m). rewrite (fed_low _ _ H), (fed_high _ _ H). set (l := zlen m) in *.
  assert (Ehi : Z.shiftr (l mod 2 ^ 32) 29 .| u32 (Z.shiftl ((l / 2 ^ 32) mod 2 ^ 32) 3) = 8 * l / 2 ^ 32).
  { rewrite (Z.mod_small (l / 2 ^ 32)) by zlia. rewrite u32_small by (rewrite Z.shiftl_mul_pow2 by lia; zlia).
    rewrite lor_shift; rewrite ?Z.shiftr_div_pow2 by lia; zlia. }
  rewrite Ehi. symmetry. apply le_bytes_uniq; [by rewrite length_app, !length_le_bytes|apply Forall_app; split; apply le_bytes_byte|].
  rewrite le_val_app, zlen_le_bytes, !le_val_bytes, Z.shiftl_mul_pow2 by lia. unfold u32, wrap.
  change (Z.of_nat 4) with 4. change (256 ^ 4) with (2 ^ 32). zlia.
Qed.

Lemma ripemd_final_ok ctx m : fed ctx m -> zlen m < 2 ^ 61 -> ripemd160_Final ctx = rmd160 m.
Proof.
  intros H Hl. unfold ripemd160_Final. cbv zeta. rewrite (length_field ctx m H Hl), (fed_left ctx m H).
  pose proof (Z.mod_pos_bound (zlen m) 64 ltac:(lia)) as Hm. set (padn := if _ <? 56 then _ else _).
  assert (Hp : padn = 1 + (55 - zlen m) mod 64) by (unfold padn; destruct (Z.ltb_spec (zlen m mod 64) 56); zlia).
  assert (Epad : take (Z.to_nat padn) ripemd160_padding = 0x80 :: zrep ((55 - zlen m) mod 64) 0).
  { rewrite Hp. pose proof (Z.mod_pos_bound (55 - zlen m) 64 ltac:(lia)). unfold ripemd160_padding, zrep.
    rewrite Z2Nat.inj_add by lia. change (Z.to_nat 1 + ?k)%nat with (S k). cbn [take]. rewrite take_replicate. do 2 f_equal. lia. }
  rewrite Epad. pose proof (Z.mod_pos_bound (55 - zlen m) 64 ltac:(lia)) as Hz.
  assert (H1 : fed (ripemd160_Update ctx (0x80 :: zrep ((55 - zlen m) mod 64) 0)) (m ++ 0x80 :: zrep ((55 - zlen m) mod 64) 0)).
  { apply update_fed; [done|]. rewrite zlen_cons, zlen_zrep by lia. lia. }
  pose proof (update_fed _ _ (le_bytes 8 (8 * zlen m)) H1 ltac:(by rewrite zlen_le_bytes)) as H2.
  unfold rmd160, rmd_pad. rewrite <- app_assoc in H2. cbn [app] in H2. by rewrite (fed_run _ _ H2).
Qed.

Lemma updates_fed ds : forall ctx m, fed ctx m -> Forall (fun d => zlen d < 2 ^ 32) ds ->
  fed (fold_left ripemd160_Update ds ctx) (m ++ concat ds).
Proof.
  induction ds as [|d ds IH]; intros ctx m H Hd; cbn [fold_left concat]; [by rewrite app_nil_r|].
  inversion Hd; subst. rewrite app_assoc. apply IH; [by apply update_fed|done].
Qed.

(** RIPEMD-160: fed in pieces of any length below 2^32, the context yields the
    digest of the whole message, the compression of its padded blocks. *)
Theorem ripemd160_stream_correct ds : Forall (fun d => zlen d < 2 ^ 32) ds -> zlen (concat ds) < 2 ^ 61 ->
  ripemd160_Final (fold_left ripemd160_Update ds ripemd160_Init) = rmd160 (concat ds).
Proof. intros Hd Hl. apply ripemd_final_ok; [|done]. apply (updates_fed ds ripemd160_Init [] fed_init Hd). Qed.

Lemma ripemd160_raw m : zlen m < 2 ^ 32 -> ripemd160 m = rmd160 m.
Proof. intros Hl. apply ripemd_final_ok; [|lia]. apply (update_fed _ [] m fed_init Hl). Qed.

Lemma length_ripemd160_process st data : length (ripemd160_process st data) = 5%nat.
Proof. unfold ripemd160_process. by destruct (P2 _ _ _ _ _ lines_5 _). Qed.

Lemma length_run st m : length st = 5%nat -> length (fst (run st m)) = 5%nat.
Proof.
  intros Hs. unfold run. generalize (length m) as f. intros f. revert st m Hs.
  induction f as [|f IH]; intros st m Hs; [done|]. cbn [process_blocks]. destruct (_ <=? _); [|done]. apply IH, length_ripemd160_process.
Qed.

Lemma length_rmd160 m : length (rmd160 m) = 20%nat.
Proof. unfold rmd160. by rewrite length_bytes_of, length_run. Qed.

(** The digests of the empty message and of "abc". *)
Example ripemd160_empty : be_val (ripemd160 []) = 0x9c1185a5c5e9fc54612808977ee8f548b2258d31.
Proof. vm_compute. reflexivity. Qed.
Example ripemd160_abc : be_val (ripemd160 [97; 98; 99]) = 0x8eb208f7e05d987a9b044a8e98c6b087f15a0bfc.
Proof. vm_compute. reflexivity. Qed.

End Ripemd.
