(* ===== verification/Hasher.v ===== *)
(** * The selectable hash function (crypto/hasher.c, crypto/hasher.h)

    A hasher is a tag, the context of the function the tag selects, and a
    parameter.  SHA-256, its double and its composition with RIPEMD-160, and
    BLAKE2b are the functions of the other files.  SHA-3, BLAKE-256 and Groestl
    are not modelled: [other_digests] names what they compute, and a context of
    theirs holds the message so far. *)

From stdpp Require Import base list numbers.
From Stdlib Require Import ZArith Lia.
From S2P Require Import Prelude Hash HashSpec Sha2 Sha2Spec Blake2 Ripemd.

Module Hasher.
Import Hash HashSpec Sha2 Sha2Spec Blake2 Ripemd.

Definition HASHER_DIGEST_LENGTH : Z := 32.

Inductive HasherType :=
  | HASHER_SHA2 | HASHER_SHA2D | HASHER_SHA2_RIPEMD | HASHER_SHA2_TAPSIGHASH
  | HASHER_SHA3 | HASHER_SHA3K
  | HASHER_BLAKE | HASHER_BLAKED | HASHER_BLAKE_RIPEMD
  | HASHER_GROESTLD_TRUNC
  | HASHER_BLAKE2B | HASHER_BLAKE2B_PERSONAL.

#[export] Instance HasherType_eq_dec : EqDecision HasherType.
Proof. solve_decision. Defined.

(** What sha3_Final, keccak_Final, blake256_Final and groestl512_DoubleTrunc
    write for the message that was fed. *)
Record other_digests := OtherDigests {
  sha3_256 : list Z -> list Z;
  keccak_256 : list Z -> list Z;
  blake256 : list Z -> list Z;
  groestl512_double_trunc : list Z -> list Z }.

(** The union of contexts; [blake2b_Init] and [blake2b_InitPersonal] may fail,
    which the hasher does not look at. *)
Inductive hasher_ctx :=
  | CtxSha2 (sha2 : hash_ctx Z)
  | CtxBlake2b (blake2b : option blake2_state)
  | CtxOther (message : list Z).

Record Hasher := MkHasher { type : HasherType; ctx : hasher_ctx; param : option (list Z) }.

Definition sha256_initial_tapsighash_state : list Z :=
  [0xf504a425; 0xd7f8783b; 0x1363868a; 0xe3e55658; 0x6eee945d; 0xbc7888dd; 0x02a6e2c3; 0x1873fe9f].

Definition hasher_InitParam (t : HasherType) (param : option (list Z)) : Hasher :=
  MkHasher t
    match t with
    | HASHER_SHA2 | HASHER_SHA2D | HASHER_SHA2_RIPEMD => CtxSha2 sha256_Init
    | HASHER_SHA2_TAPSIGHASH => CtxSha2 (sha256_Init_ex sha256_initial_tapsighash_state 512)
    | HASHER_SHA3 | HASHER_SHA3K => CtxOther []
    | HASHER_BLAKE | HASHER_BLAKED | HASHER_BLAKE_RIPEMD => CtxOther []
    | HASHER_GROESTLD_TRUNC => CtxOther []
    | HASHER_BLAKE2B => CtxBlake2b (blake2b_Init 32)
    | HASHER_BLAKE2B_PERSONAL => CtxBlake2b (blake2b_InitPersonal 32 param)
    end param.

Definition hasher_Init (t : HasherType) : Hasher := hasher_InitParam t None.

Definition hasher_Reset (hasher : Hasher) : Hasher := hasher_InitParam (type hasher) (param hasher).

Definition hasher_Update (hasher : Hasher) (data : list Z) : Hasher :=
  MkHasher (type hasher)
    match ctx hasher with
    | CtxSha2 c => CtxSha2 (sha256_Update c data)
    | CtxBlake2b c => CtxBlake2b (option_map (fun c => blake2b_Update c data) c)
    | CtxOther m => CtxOther (m ++ data)
    end (param hasher).

(** ripemd160(hash, 32, hash): the first 20 of the 32 bytes are replaced. *)
Definition ripemd_in_place (hash : list Z) : list Z := memcpy hash 0 (ripemd160 hash).

(** The buffer [hash] afterwards; a hasher whose context does not fit its tag does
    not arise. *)
Definition hasher_Final (others : other_digests) (hasher : Hasher) (hash : list Z) : list Z :=
  match type hasher, ctx hasher with
  | HASHER_SHA2, CtxSha2 c | HASHER_SHA2_TAPSIGHASH, CtxSha2 c => sha256_Final c
  | HASHER_SHA2D, CtxSha2 c => sha256_Raw (sha256_Final c)
  | HASHER_SHA2_RIPEMD, CtxSha2 c => ripemd_in_place (sha256_Final c)
  | HASHER_SHA3, CtxOther m => sha3_256 others m
  | HASHER_SHA3K, CtxOther m => keccak_256 others m
  | HASHER_BLAKE, CtxOther m => blake256 others m
  | HASHER_BLAKED, CtxOther m => blake256 others (blake256 others m)
  | HASHER_BLAKE_RIPEMD, CtxOther m => ripemd_in_place (blake256 others m)
  | HASHER_GROESTLD_TRUNC, CtxOther m => groestl512_double_trunc others m
  | HASHER_BLAKE2B, CtxBlake2b (Some c) | HASHER_BLAKE2B_PERSONAL, CtxBlake2b (Some c) =>
      match blake2b_Final c 32 with Digest d => memcpy hash 0 d | Failed | Overread => hash end
  | _, _ => hash
  end.

Definition hasher_Raw (others : other_digests) (t : HasherType) (data hash : list Z) : list Z :=
  hasher_Final others (hasher_Update (hasher_Init t) data) hash.

(** A digest of 32 bytes. *)
Definition digest32 (d : list Z) : Prop := length d = 32%nat /\ Forall is_byte d.

(** The functions that are not modelled write 32 bytes. *)
Class DigestsOk (others : other_digests) : Prop := {
  sha3_ok m : digest32 (sha3_256 others m);
  keccak_ok m : digest32 (keccak_256 others m);
  blake256_ok m : digest32 (blake256 others m);
  groestl_ok m : digest32 (groestl512_double_trunc others m) }.

Lemma hash_Final_length {C} (A : hash_alg C) n c : (forall st ws, length (ha_transform A st ws) = n) ->
  length (hash_Final A c) = (ha_wb A * n)%nat.
Proof.
  intros H. unfold hash_Final. rewrite length_bytes_of, length_map. f_equal. unfold hash_Last.
  destruct (if (_ <? _)%nat then _ else _) as [[st buf] used]. apply H.
Qed.

Lemma sha256_Transform_length st ws : length (sha256_Transform st ws) = 8%nat.
Proof. unfold sha256_Transform, sha2_Transform. by destruct (sha2_load_loop _ _ _ _ _ _ _ _). Qed.

Lemma sha256_Final_ok c : digest32 (sha256_Final c).
Proof. split; [exact (hash_Final_length sha256_alg 8 c sha256_Transform_length)|exact (bytes_of_byte 4 _)]. Qed.

Lemma ripemd160_digest m : zlen m < 2 ^ 32 -> length (ripemd160 m) = 20%nat /\ Forall is_byte (ripemd160 m).
Proof. intros H. rewrite ripemd160_raw by exact H. split; [apply length_rmd160|apply bytes_of_byte]. Qed.

Lemma in_place_ok m : digest32 m -> digest32 (ripemd_in_place m).
Proof.
  intros [L B]. destruct (ripemd160_digest m) as [L' B']; [unfold zlen; rewrite L; done|]. unfold ripemd_in_place.
  split; [rewrite length_memcpy; [exact L|rewrite L', L; lia]|apply Forall_memcpy; assumption].
Qed.

Lemma blake2_Final_ok A st outlen d : (forall o, o <= outlen -> b_copied A o outlen <= outlen) ->
  blake2_Final A st outlen = Digest d -> (length d <= Z.to_nat outlen)%nat /\ Forall is_byte d.
Proof.
  intros Hc. unfold blake2_Final. destruct (Z.ltb_spec outlen (bs_outlen st)) as [|Ho]; [discriminate|].
  destruct (is_lastblock st); [discriminate|]. cbv zeta. cbn [set_buf set_lastblock compress increment_counter bs_outlen].
  specialize (Hc _ Ho). destruct (_ <? _); [discriminate|]. intros E. injection E as <-.
  split; [rewrite length_take; lia|apply Forall_take, bytes_of_byte].
Qed.

Lemma blake2b_in_place c hash d : blake2b_Final c 32 = Digest d -> digest32 hash -> digest32 (memcpy hash 0 d).
Proof.
  intros E [L B]. apply (blake2_Final_ok blake2b_alg c 32 d) in E as [L' B']; [|intros o Ho; exact Ho].
  split; [rewrite length_memcpy; [exact L|rewrite L; exact L']|apply Forall_memcpy; assumption].
Qed.

Lemma sha256_Raw_ok m : digest32 (sha256_Raw m).
Proof. exact (sha256_Final_ok (hash_Update sha256_alg (hash_Init sha256_alg) m)). Qed.

(** Every hasher leaves 32 bytes in the buffer. *)
Lemma hasher_Final_ok others `{!DigestsOk others} h hash : digest32 hash -> digest32 (hasher_Final others h hash).
Proof.
  intros Hh. destruct h as [t c p]. unfold hasher_Final. cbn [type ctx].
  destruct t, c as [c|[c|]|m]; try exact Hh; try exact (sha256_Final_ok c); try exact (sha256_Raw_ok _);
    try exact (in_place_ok _ (sha256_Final_ok c)); try exact (sha3_ok m); try exact (keccak_ok m);
    try exact (blake256_ok _); try exact (in_place_ok _ (blake256_ok m)); try exact (groestl_ok m).
  all: destruct (blake2b_Final c 32) as [d| |] eqn:E; [exact (blake2b_in_place c hash d E Hh)|exact Hh|exact Hh].
Qed.

Lemma zeros_digest : digest32 (zrep 32 0).
Proof. split; [reflexivity|apply Forall_zrep; unfold is_byte; lia]. Qed.

Lemma hasher_Raw_ok others `{!DigestsOk others} t data : digest32 (hasher_Raw others t data (zrep 32 0)).
Proof. apply hasher_Final_ok; [assumption|exact zeros_digest]. Qed.

End Hasher.
