(* ===== verification/Base58.v ===== *)
(** * Base58 (crypto/base58.c)

    Encoding and decoding of binary data, bare and with the checksum of a
    selectable hasher.  A C string is the list of its characters before the
    terminating zero; a buffer is a list of bytes.  [b58tobin] fills its buffer
    from the end.  [b58check] may leave its inputs when all bytes are zero, which
    is [None]. *)

From stdpp Require Import base list numbers.
From Stdlib Require Import ZArith Lia.
From S2P Require Import Prelude Hash Hasher.
Local Open Scope fw_scope.

Module Base58.
Import Hash Hasher.

Definition b58digits_ordered : list Z :=
  [49; 50; 51; 52; 53; 54; 55; 56; 57; 65; 66; 67; 68; 69; 70; 71; 72; 74; 75; 76;
   77; 78; 80; 81; 82; 83; 84; 85; 86; 87; 88; 89; 90; 97; 98; 99; 100; 101; 102; 103;
   104; 105; 106; 107; 109; 110; 111; 112; 113; 114; 115; 116; 117; 118; 119; 120; 121; 122].

Definition b58digits_map : list Z :=
  [-1; -1; -1; -1; -1; -1; -1; -1; -1; -1; -1; -1; -1; -1; -1; -1; -1; -1; -1;
   -1; -1; -1; -1; -1; -1; -1; -1; -1; -1; -1; -1; -1; -1; -1; -1; -1; -1; -1;
   -1; -1; -1; -1; -1; -1; -1; -1; -1; -1; -1; 0; 1; 2; 3; 4; 5; 6; 7;
   8; -1; -1; -1; -1; -1; -1; -1; 9; 10; 11; 12; 13; 14; 15; 16; -1; 17; 18;
   19; 20; 21; -1; 22; 23; 24; 25; 26; 27; 28; 29; 30; 31; 32; -1; -1; -1; -1;
   -1; -1; 33; 34; 35; 36; 37; 38; 39; 40; 41; 42; 43; -1; 44; 45; 46; 47; 48;
   49; 50; 51; 52; 53; 54; 55; 56; 57; -1; -1; -1; -1; -1].

Definition b58_almostmaxint_bits : Z := 32.
Definition b58_almostmaxint_mask : Z := Z.shiftl 1 b58_almostmaxint_bits - 1.

(** The number of leading elements equal to [x], and the rest. *)
Fixpoint strip (x : Z) (l : list Z) : Z * list Z :=
  match l with
  | y :: l' => if y =? x then let '(n, rest) := strip x l' in (n + 1, rest) else (0, l)
  | [] => (0, l)
  end.

(** for (j = outisz; j--;): the words from the last to the first; the final c *)
Fixpoint multiply_add (outi : list Z) (c : Z) : list Z * Z :=
  match outi with
  | [] => ([], c)
  | x :: outi =>
      let '(outi, c) := multiply_add outi c in
      let t := u64 (x * 58 + c) in
      (t .& b58_almostmaxint_mask :: outi, u32 (Z.shiftr t b58_almostmaxint_bits))
  end.

(** The loop over the digits, [None] where the code returns false. *)
Fixpoint digits_in (b58u : list Z) (zeromask : Z) (outi : list Z) : option (list Z) :=
  match b58u with
  | [] => Some outi
  | ch :: b58u =>
      if negb (ch .& 0x80 =? 0) then None
      else if znth (-1) b58digits_map ch =? -1 then None
      else
        let '(outi, c) := multiply_add outi (u32 (znth (-1) b58digits_map ch)) in
        if negb (c =? 0) then None
        else if negb (znth 0 outi 0 .& zeromask =? 0) then None
        else digits_in b58u zeromask outi
  end.

(** The bytes of the words, [bytesleft] of the first one if it is not full. *)
Definition words_out (outi : list Z) (bytesleft : Z) : list Z :=
  match outi with
  | x :: rest =>
      (if bytesleft =? 0 then be_bytes 4 x else be_bytes (Z.to_nat bytesleft) x) ++ concat (map (be_bytes 4) rest)
  | [] => []
  end.

(** What the call returns, the buffer of [binsz] bytes at [bin], and *binszp. *)
Definition b58tobin (bin : list Z) (binsz : Z) (b58 : list Z) : bool * list Z * Z :=
  if binsz =? 0 then (false, bin, binsz)
  else
    let outisz := (binsz + 4 - 1) / 4 in
    let bytesleft := u8 (binsz mod 4) in
    let zeromask := if bytesleft =? 0 then 0 else u32 (Z.shiftl b58_almostmaxint_mask (bytesleft * 8)) in
    let '(zerocount, b58u) := strip 49 b58 in
    match digits_in b58u zeromask (zrep outisz 0) with
    | None => (false, bin, binsz)
    | Some outi =>
        let binu := words_out outi bytesleft in
        let '(i, _) := strip 0 binu in
        if i <? zerocount then (false, binu, binsz) else (true, binu, binsz - i + zerocount)
    end.

(** base58str[i] for an index up to the terminating zero *)
Definition char_at (s : list Z) (i : Z) : option Z :=
  if (0 <=? i) && (i <=? zlen s) then Some (znth 0 s i) else None.
Definition byte_at (b : list Z) (i : Z) : option Z :=
  if (0 <=? i) && (i <? zlen b) then Some (znth 0 b i) else None.

(** for (i = 0; binc[i] == 0 && base58str[i] == '1'; ++i), then the last test *)
Fixpoint zeros_match (fuel : nat) (binc base58str : list Z) (i : Z) : option bool :=
  match fuel with
  | O => None
  | S fuel =>
      b ← byte_at binc i;
      if b =? 0 then
        ch ← char_at base58str i;
        if ch =? 49 then zeros_match fuel binc base58str (i + 1) else Some false
      else
        ch ← char_at base58str i;
        Some (negb (ch =? 49))
  end.

Section Check.
Context (others : other_digests).

Definition b58check (bin : list Z) (hasher_type : HasherType) (base58str : list Z) : option Z :=
  let binsz := zlen bin in
  if binsz <? 4 then Some (-4)
  else
    let buf := hasher_Raw others hasher_type (take (Z.to_nat (binsz - 4)) bin) (zrep 32 0) in
    if negb (bool_decide (slice bin (binsz - 4) 4 = take 4 buf)) then Some (-1)
    else
      ok ← zeros_match (S (length bin)) bin base58str 0;
      if negb ok then Some (-3) else Some (znth 0 bin 0).

(** for (carry = bin[i], j = size - 1; (j > high) || carry; --j): the buffer
    and [j] where the loop stops *)
Fixpoint carry_loop (fuel : nat) (buf : list Z) (carry j high : Z) : list Z * Z :=
  match fuel with
  | O => (buf, j)
  | S fuel =>
      if (high <? j) || negb (carry =? 0) then
        let carry := carry + 256 * znth 0 buf j in
        let buf := zupd buf j (carry mod 58) in
        let carry := carry / 58 in
        if j =? 0 then (buf, j) else carry_loop fuel buf carry (j - 1) high
      else (buf, j)
  end.

(** for (i = zcount, high = size - 1; i < binsz; ++i, high = j) *)
Fixpoint bytes_loop (bin : list Z) (buf : list Z) (high : Z) : list Z :=
  match bin with
  | [] => buf
  | b :: bin =>
      let '(buf, j) := carry_loop (length buf) buf b (zlen buf - 1) high in
      bytes_loop bin buf j
  end.

(** What the call returns, the string (when it is written) and *b58sz. *)
Definition b58enc (b58sz : Z) (data : list Z) : bool * list Z * Z :=
  let '(zcount, bin) := strip 0 data in
  let size := zlen bin * 138 / 100 + 1 in
  let buf := bytes_loop bin (zrep size 0) (size - 1) in
  let '(j, rest) := strip 0 buf in
  if b58sz <=? zcount + size - j then (false, [], zcount + size - j + 1)
  else
    let b58 := zrep zcount 49 ++ map (znth 0 b58digits_ordered) rest in
    (true, b58, zlen b58 + 1).

(** The string, and what the call returns: its length with the terminating zero,
    or 0. *)
Definition base58_encode_check (data : list Z) (hasher_type : HasherType) (strsize : Z) : list Z * Z :=
  if 128 <? zlen data then ([], 0)
  else
    let hash := hasher_Raw others hasher_type data (zrep 32 0) in
    let '(success, str, res) := b58enc strsize (data ++ take 4 hash) in
    if success then (str, res) else ([], 0).

(** The bytes written at [data], a buffer of [datalen] bytes, and what the call
    returns: their number, or 0. *)
Definition base58_decode_check (str : list Z) (hasher_type : HasherType) (datalen : Z) : option (list Z * Z) :=
  if 128 <? datalen then Some ([], 0)
  else
    let '(ok, d, res) := b58tobin (zrep (datalen + 4) 0) (datalen + 4) str in
    if negb ok then Some ([], 0)
    else
      let nd := drop (Z.to_nat (datalen + 4 - res)) d in
      c ← b58check nd hasher_type str;
      if c <? 0 then Some ([], 0) else Some (take (Z.to_nat (res - 4)) nd, res - 4).

End Check.
End Base58.
