(* ===== verification/Base58Spec.v ===== *)
(** * Correctness of Base58

    [b58_of data s] is the encoding of Bitcoin: a character '1' for each leading
    zero byte, then the digits of the number the bytes stand for, without leading
    zeros.  The carry loops of base58.c compute it in buffers of fixed size; the
    bound on the size of the encoding is proved for every length. *)

From stdpp Require Import base list numbers.
From Stdlib Require Import ZArith Lia.
From S2P Require Import Prelude Bits Hash HashSpec Hasher Base58.
Local Open Scope fw_scope.

Module Base58Spec.
Import Bits Hash HashSpec Hasher Base58.

(** ** Numbers in base [b], the first digit most significant *)

Fixpoint bval (b : Z) (l : list Z) : Z :=
  match l with
  | [] => 0
  | d :: l => d * b ^ zlen l + bval b l
  end.

Definition digit (b x : Z) : Prop := 0 <= x < b.

Lemma bval_app b l k : 0 < b -> bval b (l ++ k) = bval b l * b ^ zlen k + bval b k.
Proof.
  intros Hb. induction l as [|d l IH]; [done|]. cbn [app bval]. rewrite IH, zlen_app, Z.pow_add_r by apply zlen_nonneg. lia.
Qed.

Lemma bval_snoc b l d : 0 < b -> bval b (l ++ [d]) = bval b l * b + d.
Proof.
  intros Hb. rewrite bval_app by done. cbn [bval]. change (zlen [d]) with 1. change (zlen (@nil Z)) with 0.
  rewrite Z.pow_1_r, Z.pow_0_r. lia.
Qed.

Lemma bval_range b l : 0 < b -> Forall (digit b) l -> 0 <= bval b l < b ^ zlen l.
Proof.
  intros Hb H. induction H as [|d l Hd Hl IH]; [done|]. cbn [bval]. rewrite zlen_cons, Z.pow_add_r by (lia || apply zlen_nonneg).
  rewrite Z.pow_1_r. unfold digit in Hd. nia.
Qed.

Lemma bval_zeros b n : 0 < b -> bval b (replicate n 0) = 0.
Proof. intros Hb. induction n as [|n IH]; [done|]. cbn [replicate bval]. lia. Qed.

Lemma bval_inj b l k : 0 < b -> Forall (digit b) l -> Forall (digit b) k -> length l = length k -> bval b l = bval b k -> l = k.
Proof.
  intros Hb Hl. revert k. induction Hl as [|d l Hd Hl IH]; intros [|e k] Hk; try done. inversion Hk; subst. cbn [length bval].
  intros [= E] Ev. pose proof (bval_range b l Hb Hl). pose proof (bval_range b k Hb ltac:(done)). unfold zlen in *. rewrite E in *.
  unfold digit in *. assert (d = e) as -> by nia. f_equal. apply IH; [done|done|lia].
Qed.

(** No leading zero. *)
Definition lead (l : list Z) : Prop := match l with d :: _ => d <> 0 | [] => True end.

Lemma lead_low b l : 0 < b -> lead l -> Forall (digit b) l -> l <> [] -> b ^ (zlen l - 1) <= bval b l.
Proof.
  intros Hb Hd Hl Hn. destruct Hl as [|d l Hdd Hl]; [done|]. pose proof (bval_range b l Hb Hl). cbn [bval lead] in *.
  rewrite zlen_cons. replace (1 + zlen l - 1) with (zlen l) by lia. unfold digit in Hdd. nia.
Qed.

(** A number has one representation without leading zeros. *)
Lemma lead_inj b l k : 1 < b -> lead l -> lead k -> Forall (digit b) l -> Forall (digit b) k -> bval b l = bval b k -> l = k.
Proof.
  intros Hb Dl Dk Hl Hk E.
  assert (Hcmp : forall x y : list Z, lead y -> Forall (digit b) x -> Forall (digit b) y -> bval b x = bval b y -> (length y <= length x)%nat).
  { intros x y Dy Hx Hy Exy. destruct (decide (y = [])) as [->|Hn]; [cbn; lia|]. pose proof (lead_low b y ltac:(lia) Dy Hy Hn).
    pose proof (bval_range b x ltac:(lia) Hx). destruct (Nat.le_gt_cases (length y) (length x)) as [|Hlt]; [done|].
    assert (b ^ zlen x <= b ^ (zlen y - 1)) by (apply Z.pow_le_mono_r; unfold zlen; lia). lia. }
  apply (bval_inj b); [lia|done|done| |done].
  pose proof (Hcmp l k Dk Hl Hk E). pose proof (Hcmp k l Dl Hk Hl (eq_sym E)). lia.
Qed.

Lemma bval_be_bytes n v : 0 <= v < 256 ^ Z.of_nat n -> bval 256 (be_bytes n v) = v.
Proof.
  unfold be_bytes. revert v. induction n as [|n IH]; intros v Hv; [cbn in *; lia|]. cbn [le_bytes rev]. rewrite bval_snoc by lia.
  rewrite Nat2Z.inj_succ, Z.pow_succ_r in Hv by lia. rewrite IH by zlia. zlia.
Qed.

(** ** Leading elements *)

Lemma strip_ok x l : exists n rest, strip x l = (Z.of_nat n, rest) /\ l = replicate n x ++ rest /\
  match rest with y :: _ => y <> x | [] => True end.
Proof.
  induction l as [|y l IH]; [by exists 0%nat, []|]. cbn [strip]. destruct (Z.eqb_spec y x) as [->|Hn].
  - destruct IH as (n & rest & -> & -> & Hr). exists (S n), rest. split; [f_equal; lia|]. done.
  - by exists 0%nat, (y :: l).
Qed.

Lemma strip_unique x n rest : match rest with y :: _ => y <> x | [] => True end -> strip x (replicate n x ++ rest) = (Z.of_nat n, rest).
Proof.
  intros Hr. induction n as [|n IH].
  - destruct rest as [|y rest]; [done|]. cbn. by rewrite (proj2 (Z.eqb_neq _ _) Hr).
  - cbn [replicate app strip]. rewrite Z.eqb_refl, IH. f_equal. lia.
Qed.

(** ** The encoding *)

Definition b58_char (d : Z) : Z := znth 0 b58digits_ordered d.

Definition b58_of (data s : list Z) : Prop :=
  exists z bin ds, data = replicate z 0 ++ bin /\ lead bin /\ Forall (digit 58) ds /\ lead ds /\
  bval 58 ds = bval 256 bin /\ s = replicate z 49 ++ map b58_char ds.

Lemma b58_char_table : forallb (fun d => (b58_char d .& 0x80 =? 0) && (znth (-1) b58digits_map (b58_char d) =? d)
  && Bool.eqb (b58_char d =? 49) (d =? 0)) (seqZ 0 58) = true.
Proof. vm_compute. reflexivity. Qed.

Lemma b58_map_table : forallb (fun c => let d := znth (-1) b58digits_map c in
  (d =? -1) || ((0 <=? d) && (d <? 58) && (b58_char d =? c))) (seqZ 0 128) = true.
Proof. vm_compute. reflexivity. Qed.

Lemma b58_char_ok d : digit 58 d -> b58_char d .& 0x80 = 0 /\ znth (-1) b58digits_map (b58_char d) = d /\ (b58_char d = 49 <-> d = 0).
Proof.
  intros Hd. pose proof b58_char_table as H. rewrite forallb_forall in H. specialize (H d). rewrite <- list_elem_of_In, elem_of_seqZ in H.
  specialize (H ltac:(unfold digit in Hd; lia)). apply andb_true_iff in H as [H H3]. apply andb_true_iff in H as [H1 H2].
  apply Z.eqb_eq in H1, H2. split; [done|]. split; [done|]. apply Bool.eqb_prop in H3.
  destruct (Z.eqb_spec (b58_char d) 49), (Z.eqb_spec d 0); done.
Qed.

Lemma b58_map_ok c : 0 <= c < 128 -> znth (-1) b58digits_map c <> -1 ->
  digit 58 (znth (-1) b58digits_map c) /\ b58_char (znth (-1) b58digits_map c) = c.
Proof.
  intros Hc Hn. pose proof b58_map_table as H. rewrite forallb_forall in H. specialize (H c). rewrite <- list_elem_of_In, elem_of_seqZ in H.
  specialize (H ltac:(lia)). cbv zeta in H. rewrite (proj2 (Z.eqb_neq _ _) Hn) in H. cbn [orb] in H.
  apply andb_true_iff in H as [H H3]. apply andb_true_iff in H as [H1 H2]. apply Z.eqb_eq in H3. unfold digit. split; [lia|done].
Qed.

(** ** The size of the encoding *)

Lemma size_step r k q : 0 <= r -> 0 <= k -> 0 <= q -> 256 ^ r <= 58 ^ k -> 256 ^ (50 * q + r) <= 58 ^ (69 * q + k).
Proof.
  intros Hr Hk Hq Hb. rewrite !Z.pow_add_r by lia. apply Z.mul_le_mono_nonneg; [lia| |lia|done].
  rewrite !Z.pow_mul_r by lia. apply Z.pow_le_mono_l. split; [lia|]. apply Z.leb_le. vm_compute. reflexivity.
Qed.

Lemma size_table : forallb (fun r => (256 ^ r <=? 58 ^ ((r + 1) * 138 / 100)) && (256 ^ r <=? 58 ^ (r * 138 / 100 + 1))) (seqZ 0 50) = true.
Proof. vm_compute. reflexivity. Qed.

(** The buffer of the encoder holds the digits of [n] bytes, and its first digit
    is not used before the last byte. *)
Lemma size_enough n : 0 <= n -> 256 ^ n <= 58 ^ ((n + 1) * 138 / 100) /\ 256 ^ n <= 58 ^ (n * 138 / 100 + 1).
Proof.
  intros Hn. pose proof size_table as H. rewrite forallb_forall in H. specialize (H (n mod 50)). rewrite <- list_elem_of_In, elem_of_seqZ in H.
  specialize (H ltac:(zlia)). apply andb_true_iff in H as [H1 H2]. apply Z.leb_le in H1, H2.
  replace ((n + 1) * 138 / 100) with (69 * (n / 50) + (n mod 50 + 1) * 138 / 100) by zlia.
  replace (n * 138 / 100 + 1) with (69 * (n / 50) + (n mod 50 * 138 / 100 + 1)) by zlia.
  replace n with (50 * (n / 50) + n mod 50) at 1 4 by zlia. split; apply size_step; zlia.
Qed.

(** ** The carry loops of the encoder *)

Lemma zero_take (p : list Z) n : (length p <= n)%nat -> Forall (eq 0) (take n p) -> p = replicate (length p) 0.
Proof.
  intros Hn H. rewrite take_ge in H by done. clear Hn. induction H as [|x l <- _ IH]; [done|]. cbn [length replicate]. by rewrite <- IH.
Qed.

Lemma carry_loop_ok p : p <> [] -> forall fuel s carry high, (length p <= fuel)%nat -> Forall (digit 58) p -> 0 <= carry < 256 ->
  0 <= high -> Forall (eq 0) (take (Z.to_nat (high + 1)) p) -> 256 * bval 58 p + carry < 58 ^ zlen p ->
  exists q j, carry_loop fuel (p ++ s) carry (zlen p - 1) high = (q ++ s, j) /\ length q = length p /\ Forall (digit 58) q /\
  bval 58 q = 256 * bval 58 p + carry /\ 0 <= j < zlen p /\ (j = 0 \/ Forall (eq 0) (take (Z.to_nat (j + 1)) q)).
Proof.
  induction p as [|b p IH] using rev_ind; intros Hne fuel s carry high Hf Hp Hc Hh Hz Hb; [done|]. clear Hne.
  apply Forall_app in Hp as [Hp Hb1]. rewrite Forall_singleton in Hb1. rewrite bval_snoc in * by lia. rewrite zlen_app in *. change (zlen [b]) with 1 in *.
  rewrite Z.pow_add_r, Z.pow_1_r in Hb by (lia || apply zlen_nonneg). rewrite length_app in Hf. cbn [length] in Hf. destruct fuel as [|fuel]; [lia|].
  replace (zlen p + 1 - 1) with (zlen p) by lia. cbn [carry_loop]. rewrite <- app_assoc. cbn [app]. unfold digit in Hb1.
  destruct ((high <? zlen p) || negb (carry =? 0)) eqn:Eenter.
  - pose proof (znth_app_r 0 p (b :: s) 0 ltac:(lia)) as En. rewrite Z.add_0_r in En. rewrite En.
    pose proof (zupd_app_r p (b :: s) 0 ((carry + 256 * b) mod 58) ltac:(lia)) as Eu. rewrite Z.add_0_r in Eu.
    change (znth 0 (b :: s) 0) with b. rewrite Eu. change (zupd (b :: s) 0 ?x) with (x :: s).
    set (c' := (carry + 256 * b) / 58). set (b' := (carry + 256 * b) mod 58). assert (Hb' : 0 <= b' < 58) by (unfold b'; zlia).
    assert (Ec : carry + 256 * b = 58 * c' + b') by (unfold b', c'; zlia).
    clearbody b' c'. assert (Hc' : 0 <= c' < 256) by lia.
    destruct (Z.eqb_spec (zlen p) 0) as [E0|E0].
    + assert (p = []) as -> by (destruct p; [done|rewrite zlen_cons in E0; pose proof (zlen_nonneg p); lia]). cbn [bval] in Hb |- *. change (zlen (@nil Z)) with 0 in *.
      exists [b'], 0. cbn [app]. split; [done|]. split; [done|]. split; [by apply Forall_singleton|]. rewrite Z.pow_0_r in *.
      split; [cbn [bval]; change (zlen (@nil Z)) with 0; lia|]. split; [unfold zlen; cbn; lia|by left].
    + destruct (IH ltac:(by intros ->) fuel (b' :: s) c' high ltac:(lia) Hp Hc' Hh) as (q & j & E & Lq & Dq & Vq & Hj & Zq).
      { rewrite take_app in Hz. by apply Forall_app in Hz as [Hz _]. }
      { lia. }
      exists (q ++ [b']), j. rewrite E, <- app_assoc. split; [done|]. rewrite !length_app, Lq. split; [done|].
      split; [apply Forall_app; split; [done|by apply Forall_singleton]|]. rewrite bval_snoc, Vq by lia. split; [lia|]. split; [lia|].
      destruct Zq as [->|Zq]; [by left|right]. rewrite take_app_le; [done|]. unfold zlen in Hj. lia.
  - apply orb_false_iff in Eenter as [E1 E2]. apply negb_false_iff, Z.eqb_eq in E2 as ->. apply Z.ltb_ge in E1.
    assert (Ez : p ++ [b] = replicate (length (p ++ [b])) 0) by (apply (zero_take _ (Z.to_nat (high + 1))); [rewrite length_app; cbn; unfold zlen in E1; lia|done]).
    exists (p ++ [b]), (zlen p). rewrite <- app_assoc. split; [done|]. split; [done|]. split; [apply Forall_app; split; [done|by apply Forall_singleton]|].
    pose proof (bval_snoc 58 p b ltac:(lia)) as Ev. rewrite Ez, bval_zeros in Ev by lia. rewrite Ez, bval_zeros by lia.
    pose proof (bval_range 58 p ltac:(lia) Hp). split; [lia|]. pose proof (zlen_nonneg p). split; [lia|]. right. apply Forall_take, Forall_replicate. done.
Qed.

Lemma first_digit q v : q <> [] -> Forall (digit 58) q -> bval 58 q = v -> v < 58 ^ (zlen q - 1) -> Forall (eq 0) (take 1 q).
Proof.
  intros Hn Hq Hv Hlt. destruct Hq as [|d q Hd Hq]; [done|]. cbn [take]. constructor; [|constructor].
  pose proof (bval_range 58 q ltac:(lia) Hq). cbn [bval] in Hv. rewrite zlen_cons in Hlt. replace (1 + zlen q - 1) with (zlen q) in Hlt by lia.
  unfold digit in Hd. nia.
Qed.

Lemma bytes_loop_ok bin : forall buf high v, Forall is_byte bin -> buf <> [] -> Forall (digit 58) buf -> bval 58 buf = v ->
  0 <= high -> (v + 1) * 256 ^ zlen bin <= 58 ^ zlen buf ->
  (bin <> [] -> Forall (eq 0) (take (Z.to_nat (high + 1)) buf) /\ (v + 1) * 256 ^ (zlen bin - 1) <= 58 ^ (zlen buf - 1)) ->
  let buf' := bytes_loop bin buf high in
  length buf' = length buf /\ Forall (digit 58) buf' /\ bval 58 buf' = v * 256 ^ zlen bin + bval 256 bin.
Proof.
  induction bin as [|b bin IH]; intros buf high v Hbin Hne Hd Hv Hh H1 H2; cbv zeta.
  - cbn [bytes_loop bval]. change (zlen (@nil Z)) with 0. rewrite Z.pow_0_r. split; [done|]. split; [done|lia].
  - apply Forall_cons_iff in Hbin as [Hb Hbin]. cbn [bytes_loop]. pose proof (bval_range 58 buf ltac:(lia) Hd) as Rv. rewrite Hv in Rv.
    destruct (H2 ltac:(done)) as [Hz H2']. clear H2. pose proof (zlen_nonneg bin). rewrite zlen_cons in *.
    replace (1 + zlen bin - 1) with (zlen bin) in H2' by lia. rewrite Z.pow_add_r, Z.pow_1_r in H1 |- * by lia.
    assert (Hp : 0 < 256 ^ zlen bin) by (apply Z.pow_pos_nonneg; lia). unfold is_byte in Hb.
    destruct (carry_loop_ok buf Hne (length buf) [] b high ltac:(lia) Hd Hb Hh Hz ltac:(rewrite Hv; nia)) as (q & j & E & Lq & Dq & Vq & Hj & Zq).
    rewrite !app_nil_r in E. rewrite E. assert (Lz : zlen q = zlen buf) by (unfold zlen; by rewrite Lq). rewrite Hv in Vq.
    assert (Hq : q <> []) by (intros ->; by destruct buf).
    destruct (IH q j (256 * v + b) Hbin Hq Dq Vq (proj1 Hj)) as (L' & D' & V').
    + rewrite Lz. nia.
    + intros Hnb. rewrite Lz. assert (Hp' : 256 ^ zlen bin = 256 * 256 ^ (zlen bin - 1)).
      { rewrite <- Z.pow_succ_r; [f_equal; lia|]. destruct bin; [done|]. rewrite zlen_cons. pose proof (zlen_nonneg bin). lia. }
      assert (Hp1 : 0 < 256 ^ (zlen bin - 1)) by nia. split; [|nia]. destruct Zq as [->|Zq]; [|done].
      apply (first_digit q (256 * v + b) Hq Dq Vq). rewrite Lz. nia.
    + split; [by rewrite L'|]. split; [done|]. rewrite V'. cbn [bval]. lia.
Qed.

(** ** The encoder *)

Lemma zrep_replicate {A} n (x : A) : zrep (Z.of_nat n) x = replicate n x.
Proof. unfold zrep. by rewrite Nat2Z.id. Qed.

Lemma b58enc_ok b58sz data : Forall is_byte data ->
  exists s, b58_of data s /\
  b58enc b58sz data = if b58sz <=? zlen s then (false, [], zlen s + 1) else (true, s, zlen s + 1).
Proof.
  intros Hb. unfold b58enc. destruct (strip_ok 0 data) as (z & bin & Es & Ed & Hl). rewrite Es. rewrite Ed in Hb. apply Forall_app in Hb as [_ Hb].
  pose proof (zlen_nonneg bin) as Hn. set (size := zlen bin * 138 / 100 + 1). assert (Hs : 1 <= size) by (unfold size; zlia).
  assert (Hz : forall n, Forall (digit 58) (zrep n 0)) by (intros n; apply Forall_zrep; unfold digit; lia).
  destruct (bytes_loop_ok bin (zrep size 0) (size - 1) 0 Hb) as (L & D & V).
  - unfold zrep. by destruct (Z.to_nat size) eqn:E; [lia|].
  - apply Hz.
  - apply bval_zeros. lia.
  - lia.
  - rewrite zlen_zrep by lia. pose proof (proj2 (size_enough (zlen bin) Hn)). fold size in H. lia.
  - intros Hne. split; [apply Forall_take, Forall_zrep; done|]. rewrite zlen_zrep by lia.
    assert (1 <= zlen bin) by (destruct bin; [done|rewrite zlen_cons; pose proof (zlen_nonneg bin); lia]).
    pose proof (proj1 (size_enough (zlen bin - 1) ltac:(lia))) as Hlow. replace (zlen bin - 1 + 1) with (zlen bin) in Hlow by lia.
    unfold size. replace (zlen bin * 138 / 100 + 1 - 1) with (zlen bin * 138 / 100) by lia. lia.
  - set (buf := bytes_loop bin (zrep size 0) (size - 1)) in *. destruct (strip_ok 0 buf) as (j & rest & Ej & Eb & Hr). rewrite Ej.
    exists (replicate z 49 ++ map b58_char rest). assert (Lb : zlen buf = size) by (unfold zlen; rewrite L; fold (zlen (zrep size 0)); rewrite zlen_zrep; lia).
    assert (Hlen : Z.of_nat z + size - Z.of_nat j = zlen (replicate z 49 ++ map b58_char rest)).
    { rewrite <- Lb, Eb. unfold zlen. rewrite !length_app, !length_replicate, length_map. lia. }
    split.
    + exists z, bin, rest. rewrite Eb in D, V. apply Forall_app in D as [_ D]. rewrite bval_app, bval_zeros in V by lia. split; [done|].
      split; [by destruct bin|]. split; [done|]. split; [by destruct rest|]. split; [lia|done].
    + rewrite Hlen, zrep_replicate. done.
Qed.

(** ** The decoder *)

Abbreviation W32 := (2 ^ 32) (only parsing).

Lemma multiply_add_ok outi : forall c, Forall (digit W32) outi -> 0 <= c < 58 ->
  exists outi' c', multiply_add outi c = (outi', c') /\ length outi' = length outi /\ Forall (digit W32) outi' /\ 0 <= c' < 58 /\
  c' * W32 ^ zlen outi + bval W32 outi' = 58 * bval W32 outi + c.
Proof.
  induction outi as [|x outi IH]; intros c Ho Hc.
  - exists [], c. cbn [multiply_add bval]. change (zlen (@nil Z)) with 0. rewrite Z.pow_0_r. split; [done|]. split; [done|]. split; [done|]. lia.
  - apply Forall_cons_iff in Ho as [Hx Ho]. destruct (IH c Ho Hc) as (o & c1 & E & L & D & C & V). cbn [multiply_add]. rewrite E.
    unfold digit in Hx. unfold u64, u32, wrap, b58_almostmaxint_mask, b58_almostmaxint_bits. rewrite (Z.mod_small (x * 58 + c1)) by lia.
    change (Z.shiftl 1 32 - 1) with (Z.ones 32). rewrite Z.land_ones, Z.shiftr_div_pow2 by lia.
    rewrite (Z.mod_small ((x * 58 + c1) / 2 ^ 32)) by zlia. do 2 eexists. split; [done|]. cbn [length bval]. split; [by rewrite L|].
    split; [constructor; [unfold digit; zlia|done]|]. split; [zlia|]. rewrite zlen_cons, Z.pow_add_r, Z.pow_1_r by (lia || apply zlen_nonneg).
    assert (Lz : zlen o = zlen outi) by (unfold zlen; by rewrite L). rewrite Lz.
    pose proof (Z.div_mod (x * 58 + c1) (2 ^ 32) ltac:(lia)) as Edm. set (q := (x * 58 + c1) / 2 ^ 32) in *. set (r := (x * 58 + c1) mod 2 ^ 32) in *.
    clearbody q r. nia.
Qed.

(** The words of a buffer of [binsz] bytes, and the mask of the first one. *)
Section Decoder.
Context (binsz : Z) (Hsz : 0 < binsz).
Definition words_n : Z := (binsz + 4 - 1) / 4.
Definition spare : Z := u8 (binsz mod 4).
Definition mask_of : Z := if spare =? 0 then 0 else u32 (Z.shiftl b58_almostmaxint_mask (spare * 8)).

Lemma spare_mod : spare = binsz mod 4.
Proof. unfold spare. apply u8_small. zlia. Qed.

Lemma mask_ok x : digit W32 x -> (x .& mask_of = 0 <-> spare = 0 \/ x < 2 ^ (8 * spare)).
Proof.
  intros Hx. assert (Hs : 0 <= spare <= 3) by (rewrite spare_mod; zlia). unfold mask_of. destruct (Z.eqb_spec spare 0) as [E|E]; [rewrite Z.land_0_r; tauto|].
  assert (Em : u32 (Z.shiftl b58_almostmaxint_mask (spare * 8)) = Z.shiftl (Z.ones (32 - 8 * spare)) (8 * spare)).
  { unfold u32, wrap. assert (H3 : spare = 1 \/ spare = 2 \/ spare = 3) by lia. by destruct H3 as [->|[->| ->]]. }
  rewrite Em. assert (Ex : x .& Z.shiftl (Z.ones (32 - 8 * spare)) (8 * spare) = Z.shiftl (Z.shiftr x (8 * spare)) (8 * spare)).
  { apply Z.bits_inj'. intros n Hn. rewrite Z.land_spec. destruct (Z.lt_ge_cases n (8 * spare)).
    - rewrite !Z.shiftl_spec_low by lia. apply andb_false_r.
    - rewrite !Z.shiftl_spec, Z.shiftr_spec by lia. replace (n - 8 * spare + 8 * spare) with n by lia.
      destruct (Z.lt_ge_cases n 32); [rewrite Z.ones_spec_low by lia; apply andb_true_r|].
      rewrite Z.ones_spec_high by lia. rewrite andb_false_r. symmetry. apply (Z.bits_above_log2 x n); unfold digit in Hx.
      + lia.
      + destruct (Z.eq_dec x 0) as [->|]; [cbn; lia|]. apply Z.log2_lt_pow2; [lia|]. apply Z.lt_le_trans with W32; [lia|]. apply Z.pow_le_mono_r; lia. }
  rewrite Ex, Z.shiftl_mul_pow2, Z.shiftr_div_pow2 by lia. assert (Hp : 0 < 2 ^ (8 * spare)) by (apply Z.pow_pos_nonneg; lia).
  unfold digit in Hx. split.
  - intros Hz. right. apply Z.nle_gt. intros Hge. pose proof (Z.div_le_lower_bound x (2 ^ (8 * spare)) 1 Hp ltac:(lia)). nia.
  - intros [|Hlt]; [done|]. rewrite Z.div_small by lia. done.
Qed.

(** The bytes of the first word that are in use. *)
Definition first_bytes : Z := if spare =? 0 then 4 else spare.

Lemma first_bytes_ok : 1 <= first_bytes <= 4 /\ binsz = first_bytes + 4 * (words_n - 1) /\ 1 <= words_n.
Proof.
  pose proof spare_mod as Hs. unfold first_bytes, words_n. rewrite Hs. destruct (Z.eqb_spec (binsz mod 4) 0); zlia.
Qed.

Lemma bytes_pow (rest : list Z) : zlen rest = words_n - 1 -> 256 ^ binsz = 256 ^ first_bytes * W32 ^ zlen rest.
Proof.
  intros Hl. destruct first_bytes_ok as (Hf & Hb & Hw). rewrite Hb, Z.pow_add_r, Hl by lia. f_equal. change W32 with (256 ^ 4). by rewrite <- Z.pow_mul_r by lia.
Qed.

(** The mask test is the test whether the number fits the buffer. *)
Lemma fits_ok outi : zlen outi = words_n -> Forall (digit W32) outi -> (znth 0 outi 0 .& mask_of = 0 <-> bval W32 outi < 256 ^ binsz).
Proof.
  intros Hl Ho. destruct first_bytes_ok as (Hf & Hb & Hw). destruct Ho as [|x rest Hx Hr]; [change (zlen (@nil Z)) with 0 in Hl; lia|].
  rewrite zlen_cons in Hl. change (znth 0 (x :: rest) 0) with x. rewrite mask_ok by done. rewrite (bytes_pow rest) by lia. cbn [bval].
  pose proof (bval_range W32 rest ltac:(lia) Hr) as Rr. assert (Hp : 0 < W32 ^ zlen rest) by (apply Z.pow_pos_nonneg; [lia|apply zlen_nonneg]).
  assert (Hx' : spare = 0 \/ x < 2 ^ (8 * spare) <-> x < 256 ^ first_bytes).
  { unfold first_bytes. unfold digit in Hx. destruct (Z.eqb_spec spare 0) as [->|E]; [change (256 ^ 4) with W32; lia|].
    change 256 with (2 ^ 8). rewrite <- Z.pow_mul_r by (rewrite ?spare_mod; zlia). tauto. }
  rewrite Hx'. set (R := W32 ^ zlen rest) in *. set (F := 256 ^ first_bytes). clearbody R F. split; intros; nia.
Qed.

Lemma digits_in_ok ds : forall outi, Forall (digit 58) ds -> zlen outi = words_n -> Forall (digit W32) outi -> bval W32 outi < 256 ^ binsz ->
  let v := bval W32 outi * 58 ^ zlen ds + bval 58 ds in
  (v < 256 ^ binsz -> exists outi', digits_in (map b58_char ds) mask_of outi = Some outi' /\ zlen outi' = words_n /\
     Forall (digit W32) outi' /\ bval W32 outi' = v) /\
  (256 ^ binsz <= v -> digits_in (map b58_char ds) mask_of outi = None).
Proof.
  induction ds as [|d ds IH]; intros outi Hds Hl Ho Hv; cbv zeta.
  - cbn [map digits_in bval]. change (zlen (@nil Z)) with 0. rewrite Z.pow_0_r, Z.mul_1_r, Z.add_0_r. split; [|lia]. intros _. by exists outi.
  - apply Forall_cons_iff in Hds as [Hd Hds]. cbn [map digits_in bval]. destruct (b58_char_ok d Hd) as (C1 & C2 & _). rewrite C1, C2. cbn [Z.eqb negb].
    unfold digit in Hd. rewrite (proj2 (Z.eqb_neq d (-1))) by lia. rewrite u32_small by lia.
    destruct (multiply_add_ok outi d Ho Hd) as (o & c & E & L & D & C & V). rewrite E.
    assert (Lo : zlen o = words_n) by (rewrite <- Hl; unfold zlen; by rewrite L). pose proof (bval_range W32 o ltac:(lia) D) as Ro.
    rewrite Lo in Ro. rewrite Hl in V. destruct first_bytes_ok as (Hf & Hb & Hw).
    assert (HW : 256 ^ binsz <= W32 ^ words_n) by (change W32 with (256 ^ 4); rewrite <- Z.pow_mul_r by lia; apply Z.pow_le_mono_r; lia).
    rewrite zlen_cons, Z.pow_add_r, Z.pow_1_r by (lia || apply zlen_nonneg). pose proof (bval_range 58 ds ltac:(lia) Hds) as Rds.
    pose proof (bval_range W32 outi ltac:(lia) Ho) as Rv. set (v := bval W32 outi) in *.
    replace (v * (58 * 58 ^ zlen ds) + (d * 58 ^ zlen ds + bval 58 ds)) with ((58 * v + d) * 58 ^ zlen ds + bval 58 ds) by lia.
    assert (Hp : 0 < 58 ^ zlen ds) by (apply Z.pow_pos_nonneg; [lia|apply zlen_nonneg]).
    destruct (Z.eqb_spec c 0) as [-> | Hc]; cbn [negb].
    + destruct (Z.eqb_spec (znth 0 o 0 .& mask_of) 0) as [Em|Em]; cbn [negb].
      * apply (fits_ok o Lo D) in Em. destruct (IH o Hds Lo D Em) as [I1 I2]. cbv zeta in I1, I2.
        replace (58 * v + d) with (bval W32 o) by lia. split; assumption.
      * rewrite (fits_ok o Lo D) in Em. split; [|done]. intros Hlt. exfalso. nia.
    + split; [|done]. intros Hlt. exfalso. set (T := W32 ^ words_n) in *. clearbody T. nia.
Qed.

(** Characters that are accepted are digits. *)
Lemma digits_in_chars s : forall m outi outi', Forall is_byte s -> digits_in s m outi = Some outi' ->
  exists ds, s = map b58_char ds /\ Forall (digit 58) ds.
Proof.
  induction s as [|c s IH]; intros m outi outi' Hs E; [by exists []|]. apply Forall_cons_iff in Hs as [Hc Hs]. cbn [digits_in] in E.
  destruct (Z.eqb_spec (c .& 0x80) 0) as [E8|]; [|done]. destruct (Z.eqb_spec (znth (-1) b58digits_map c) (-1)) as [|Hm]; [done|]. cbn [negb] in E.
  assert (Hlow : 0 <= c < 128).
  { unfold is_byte in Hc. destruct (Z.lt_ge_cases c 128); [lia|]. exfalso. assert (Hb : Z.testbit (c .& 0x80) 7 = true); [|by rewrite E8 in Hb].
    rewrite Z.land_spec. replace (Z.testbit 128 7) with true by done. rewrite andb_true_r. apply Z.testbit_true; [lia|]. zlia. }
  destruct (b58_map_ok c Hlow Hm) as [Hd Ec]. destruct (multiply_add _ _) as [o c']. destruct (negb (c' =? 0)); [done|]. destruct (negb _); [done|].
  destruct (IH _ _ _ Hs E) as (ds & -> & Hds). exists (znth (-1) b58digits_map c :: ds). cbn [map]. rewrite Ec. split; [done|]. by constructor.
Qed.

Lemma be_bytes_app m n a b : 0 <= a -> 0 <= b < 256 ^ Z.of_nat n -> be_bytes (m + n) (a * 256 ^ Z.of_nat n + b) = be_bytes m a ++ be_bytes n b.
Proof.
  intros Ha Hb. unfold be_bytes. rewrite <- rev_app_distr. f_equal.
  assert (Hp : 0 < 256 ^ Z.of_nat n) by (apply Z.pow_pos_nonneg; lia).
  revert b Hb. induction n as [|n IH]; intros b Hb.
  - cbn [Z.of_nat] in *. rewrite Z.pow_0_r in *. rewrite Nat.add_0_r. cbn [le_bytes app]. f_equal. lia.
  - rewrite Nat.add_succ_r. cbn [le_bytes app]. rewrite Nat2Z.inj_succ, Z.pow_succ_r in * by lia.
    assert (Hp' : 0 < 256 ^ Z.of_nat n) by lia. replace (a * (256 * 256 ^ Z.of_nat n) + b) with (b + (a * 256 ^ Z.of_nat n) * 256) by lia.
    rewrite Z.mod_add, Z.div_add by lia. f_equal. rewrite Z.add_comm. apply (IH Hp'). zlia.
Qed.

Lemma limb_bytes_eq rest : Forall (digit W32) rest -> concat (map (be_bytes 4) rest) = be_bytes (4 * length rest) (bval W32 rest).
Proof.
  intros H. induction H as [|x rest Hx Hr IH]; [done|]. cbn [map concat length bval]. rewrite IH. replace (4 * S (length rest))%nat with (4 + 4 * length rest)%nat by lia.
  pose proof (bval_range W32 rest ltac:(lia) Hr) as R. unfold zlen in *. change W32 with (256 ^ 4) in R |- * at 1 2 3. rewrite <- Z.pow_mul_r in * by lia.
  replace (4 * Z.of_nat (length rest)) with (Z.of_nat (4 * length rest)) in * by lia. symmetry. apply be_bytes_app; [unfold digit in Hx; lia|done].
Qed.

Lemma words_out_ok outi : zlen outi = words_n -> Forall (digit W32) outi ->
  words_out outi spare = be_bytes (Z.to_nat binsz) (bval W32 outi).
Proof.
  intros Hl Ho. destruct first_bytes_ok as (Hf & Hb & Hw). destruct Ho as [|x rest Hx Hr]; [change (zlen (@nil Z)) with 0 in Hl; lia|].
  rewrite zlen_cons in Hl. cbn [words_out bval]. rewrite limb_bytes_eq by done. unfold digit in Hx.
  pose proof (bval_range W32 rest ltac:(lia) Hr) as R. assert (Ep : W32 ^ zlen rest = 256 ^ Z.of_nat (4 * length rest)).
  { unfold zlen. change W32 with (256 ^ 4). rewrite <- Z.pow_mul_r by lia. f_equal. lia. }
  rewrite Ep in *. replace (Z.to_nat binsz) with (Z.to_nat first_bytes + 4 * length rest)%nat by (unfold zlen in Hl; lia).
  rewrite be_bytes_app by lia. f_equal. unfold first_bytes. by destruct (spare =? 0).
Qed.

End Decoder.

Lemma byte_digit l : Forall is_byte l <-> Forall (digit 256) l.
Proof. done. Qed.

Lemma be_bytes_lead n bin v : Forall is_byte bin -> zlen bin <= n -> bval 256 bin = v ->
  be_bytes (Z.to_nat n) v = replicate (Z.to_nat (n - zlen bin)) 0 ++ bin.
Proof.
  intros Hb Hl Hv. pose proof (bval_range 256 bin ltac:(lia) Hb) as R. assert (Hlt : v < 256 ^ Z.of_nat (Z.to_nat n)).
  { assert (256 ^ zlen bin <= 256 ^ Z.of_nat (Z.to_nat n)) by (apply Z.pow_le_mono_r; lia). lia. }
  apply (bval_inj 256); [lia| |apply Forall_app; split; [apply Forall_replicate; unfold digit; lia|done]| |].
  - apply Forall_rev, le_bytes_byte.
  - rewrite length_be_bytes, length_app, length_replicate. unfold zlen in *. lia.
  - rewrite bval_be_bytes, bval_app, bval_zeros by lia. lia.
Qed.

Section Decode.
Context (binsz : Z) (Hsz : 0 < binsz) (bin0 : list Z).

Lemma b58tobin_eq s z ds : Forall (digit 58) ds -> lead ds -> s = replicate z 49 ++ map b58_char ds ->
  b58tobin bin0 binsz s =
    if bval 58 ds <? 256 ^ binsz then
      let binu := be_bytes (Z.to_nat binsz) (bval 58 ds) in
      let '(i, _) := strip 0 binu in
      if i <? Z.of_nat z then (false, binu, binsz) else (true, binu, binsz - i + Z.of_nat z)
    else (false, bin0, binsz).
Proof.
  intros Hds Hld ->. unfold b58tobin. rewrite (proj2 (Z.eqb_neq _ _)) by lia. rewrite strip_unique.
  2: { destruct Hds as [|d ds Hd _]; [done|]. cbn [map]. cbn [lead] in Hld. destruct (b58_char_ok d Hd) as (_ & _ & H). tauto. }
  assert (Hw : 1 <= words_n binsz) by (apply first_bytes_ok; lia). change ((binsz + 4 - 1) / 4) with (words_n binsz).
  change (u8 (binsz mod 4)) with (spare binsz). cbv zeta. fold (mask_of binsz).
  destruct (digits_in_ok binsz Hsz ds (zrep (words_n binsz) 0)) as [I1 I2]; [done|rewrite zlen_zrep; lia|apply Forall_zrep; unfold digit; lia| |].
  { unfold zrep. rewrite bval_zeros by lia. apply Z.pow_pos_nonneg; lia. }
  cbv zeta in I1, I2. unfold zrep in I1, I2. rewrite bval_zeros, Z.mul_0_l, Z.add_0_l in I1, I2 by lia. fold (zrep (words_n binsz) 0) in I1, I2.
  destruct (Z.ltb_spec (bval 58 ds) (256 ^ binsz)) as [Hlt|Hge].
  - destruct (I1 Hlt) as (o & E & Lo & Do & Vo). rewrite E, words_out_ok, Vo by done. done.
  - by rewrite (I2 Hge).
Qed.

(** Decoding what [b58_of] encodes. *)
Lemma b58tobin_encoded data s : Forall is_byte data -> b58_of data s -> zlen data <= binsz ->
  b58tobin bin0 binsz s = (true, zrep (binsz - zlen data) 0 ++ data, zlen data).
Proof.
  intros Hb (z & bin & ds & -> & Hl & Hds & Hld & Hv & Hs) Hlen. rewrite (b58tobin_eq s z ds Hds Hld Hs). apply Forall_app in Hb as [_ Hb].
  rewrite zlen_app in *. assert (Hz : zlen (replicate z 0) = Z.of_nat z) by (unfold zlen; by rewrite length_replicate). rewrite Hz in *.
  pose proof (bval_range 256 bin ltac:(lia) Hb) as R. pose proof (zlen_nonneg bin).
  assert (Hle : 256 ^ zlen bin <= 256 ^ binsz) by (apply Z.pow_le_mono_r; lia). rewrite (proj2 (Z.ltb_lt _ _)) by lia. cbv zeta.
  rewrite (be_bytes_lead binsz bin) by (done || lia). rewrite strip_unique by (by destruct bin).
  rewrite (proj2 (Z.ltb_ge _ _)) by lia. f_equal; [f_equal|lia].
  rewrite app_assoc. f_equal. unfold zrep. rewrite <- replicate_add. f_equal. lia.
Qed.

(** A buffer too small for the data is refused. *)
Lemma b58tobin_small data s : Forall is_byte data -> b58_of data s -> binsz < zlen data -> fst (fst (b58tobin bin0 binsz s)) = false.
Proof.
  intros Hb (z & bin & ds & -> & Hl & Hds & Hld & Hv & Hs) Hlen. rewrite (b58tobin_eq s z ds Hds Hld Hs). apply Forall_app in Hb as [_ Hb].
  rewrite zlen_app in Hlen. assert (Hz : zlen (replicate z 0) = Z.of_nat z) by (unfold zlen; by rewrite length_replicate). rewrite Hz in Hlen.
  destruct (Z.ltb_spec (bval 58 ds) (256 ^ binsz)) as [Hlt|]; [|done]. cbv zeta. pose proof (zlen_nonneg bin).
  assert (Hbin : zlen bin <= binsz).
  { destruct (decide (bin = [])) as [->|Hn]; [change (zlen (@nil Z)) with 0; lia|]. pose proof (lead_low 256 bin ltac:(lia) Hl Hb Hn) as Hlow.
    destruct (Z.le_gt_cases (zlen bin) binsz); [done|]. assert (256 ^ binsz <= 256 ^ (zlen bin - 1)) by (apply Z.pow_le_mono_r; lia). lia. }
  rewrite (be_bytes_lead binsz bin) by (done || lia). rewrite strip_unique by (by destruct bin). by rewrite (proj2 (Z.ltb_lt _ _)) by lia.
Qed.

(** What is decoded encodes to the string. *)
Lemma b58tobin_decoded s out n : Forall is_byte s -> b58tobin bin0 binsz s = (true, out, n) ->
  exists data, Forall is_byte data /\ b58_of data s /\ n = zlen data /\ n <= binsz /\ out = zrep (binsz - n) 0 ++ data.
Proof.
  intros Hs E. destruct (strip_ok 49 s) as (z & b58u & Es & Eq & Hh).
  assert (Hd : exists ds, b58u = map b58_char ds /\ Forall (digit 58) ds).
  { unfold b58tobin in E. rewrite (proj2 (Z.eqb_neq _ _)) in E by lia. rewrite Es in E. destruct (digits_in _ _ _) as [o|] eqn:Ed; [|done].
    rewrite Eq in Hs. apply Forall_app in Hs as [_ Hs]. by apply digits_in_chars in Ed. }
  destruct Hd as (ds & -> & Hds). assert (Hl : lead ds).
  { destruct Hds as [|d ds Hd _]; [done|]. cbn [map] in Hh. destruct (b58_char_ok d Hd) as (_ & _ & H). cbn [lead]. tauto. }
  rewrite (b58tobin_eq s z ds Hds Hl Eq) in E. destruct (Z.ltb_spec (bval 58 ds) (256 ^ binsz)) as [Hlt|]; [|done]. cbv zeta in E.
  destruct (strip_ok 0 (be_bytes (Z.to_nat binsz) (bval 58 ds))) as (i & rest & Ei & Eb & Hr). rewrite Ei in E.
  destruct (Z.ltb_spec (Z.of_nat i) (Z.of_nat z)) as [|Hiz]; [done|]. injection E as <- <-.
  pose proof (bval_range 58 ds ltac:(lia) Hds) as Rd.
  assert (Hbytes : Forall is_byte (be_bytes (Z.to_nat binsz) (bval 58 ds))) by apply Forall_rev, le_bytes_byte.
  assert (Hval : bval 256 (be_bytes (Z.to_nat binsz) (bval 58 ds)) = bval 58 ds) by (apply bval_be_bytes; rewrite Z2Nat.id; lia).
  assert (Hlen : length (be_bytes (Z.to_nat binsz) (bval 58 ds)) = Z.to_nat binsz) by apply length_be_bytes.
  rewrite Eb in Hbytes, Hval, Hlen |- *. apply Forall_app in Hbytes as [_ Hrest]. rewrite bval_app, bval_zeros in Hval by lia.
  rewrite length_app, length_replicate in Hlen. exists (replicate z 0 ++ rest).
  assert (Hn : binsz - Z.of_nat i + Z.of_nat z = zlen (replicate z 0 ++ rest)) by (unfold zlen; rewrite length_app, length_replicate; lia).
  split; [apply Forall_app; split; [apply Forall_replicate; unfold is_byte; lia|done]|]. split.
  { exists z, rest, ds. split; [done|]. split; [by destruct rest|]. split; [done|]. split; [done|]. split; [lia|done]. }
  split; [done|]. split; [lia|]. unfold zrep. rewrite app_assoc. f_equal. rewrite <- replicate_add. f_equal. lia.
Qed.

End Decode.

(** The encoding is one-to-one. *)
Lemma b58_of_unique data s s' : b58_of data s -> b58_of data s' -> s = s'.
Proof.
  intros (z & bin & ds & E & Hl & Hds & Hld & Hv & ->) (z' & bin' & ds' & E' & Hl' & Hds' & Hld' & Hv' & ->).
  pose proof (strip_unique 0 z bin ltac:(by destruct bin)) as S1. pose proof (strip_unique 0 z' bin' ltac:(by destruct bin')) as S2.
  rewrite <- E in S1. rewrite <- E', S1 in S2. injection S2 as Ez ->. apply Nat2Z.inj in Ez as ->.
  by rewrite (lead_inj 58 ds ds') by (done || lia || congruence).
Qed.

(** ** With a checksum *)

Lemma byte_at_app z b r i : 0 <= i -> byte_at (replicate z 0 ++ b :: r) i =
  if i <? Z.of_nat z then Some 0 else if i =? Z.of_nat z then Some b else byte_at (replicate z 0 ++ b :: r) i.
Proof.
  intros Hi. assert (Hz : zlen (replicate z 0) = Z.of_nat z) by (unfold zlen; by rewrite length_replicate).
  unfold byte_at. rewrite zlen_app, zlen_cons, Hz. pose proof (zlen_nonneg r). destruct (Z.ltb_spec i (Z.of_nat z)) as [H1|H1].
  - zif. f_equal. unfold znth. zif. rewrite app_nth1 by (rewrite length_replicate; lia). by rewrite nth_lookup, lookup_replicate_2 by lia.
  - destruct (Z.eqb_spec i (Z.of_nat z)) as [->|]; [|done]. zif. rewrite <- Hz, <- (Z.add_0_r (zlen _)). by rewrite znth_app_r by lia.
Qed.

Lemma char_at_app z t i : 0 <= i <= Z.of_nat z -> match t with y :: _ => y <> 49 | [] => True end ->
  exists c, char_at (replicate z 49 ++ t) i = Some c /\ (c = 49 <-> i < Z.of_nat z).
Proof.
  intros Hi Ht. assert (Hz : zlen (replicate z 49) = Z.of_nat z) by (unfold zlen; by rewrite length_replicate).
  unfold char_at. rewrite zlen_app, Hz. pose proof (zlen_nonneg t). exists (znth 0 (replicate z 49 ++ t) i). split; [by zif|].
  destruct (Z.lt_ge_cases i (Z.of_nat z)) as [H1|H1].
  - unfold znth. zif. rewrite app_nth1 by (rewrite length_replicate; lia). rewrite nth_lookup, lookup_replicate_2 by lia. cbn. lia.
  - replace i with (zlen (replicate z 49) + 0) by lia. rewrite znth_app_r by lia. destruct t as [|y t]; [change (znth 0 (@nil Z) 0) with 0; lia|]. change (znth 0 (y :: t) 0) with y. lia.
Qed.

Lemma zeros_match_ok z b r t k : b <> 0 -> match t with y :: _ => y <> 49 | [] => True end -> forall fuel i, 0 <= i -> Z.of_nat z = i + Z.of_nat k ->
  (k < fuel)%nat -> zeros_match fuel (replicate z 0 ++ b :: r) (replicate z 49 ++ t) i = Some true.
Proof.
  intros Hb Ht. induction k as [|k IH]; intros fuel i Hi Hz Hf; (destruct fuel as [|fuel]; [lia|]); cbn [zeros_match]; rewrite byte_at_app by done.
  - rewrite (proj2 (Z.ltb_ge _ _)), (proj2 (Z.eqb_eq _ _)) by lia. cbn. rewrite (proj2 (Z.eqb_neq _ _) Hb).
    destruct (char_at_app z t i ltac:(lia) Ht) as (c & -> & Hc). cbn. rewrite (proj2 (Z.eqb_neq _ _)) by lia. done.
  - rewrite (proj2 (Z.ltb_lt _ _)) by lia. cbn. destruct (char_at_app z t i ltac:(lia) Ht) as (c & -> & Hc). cbn.
    rewrite (proj2 (Z.eqb_eq c 49)) by (apply Hc; lia). apply IH; lia.
Qed.

Section Checksum.
Context (others : other_digests) `{!DigestsOk others}.

Definition checksum (t : HasherType) (data : list Z) : list Z := take 4 (hasher_Raw others t data (zrep 32 0)).

Lemma checksum_ok t data : length (checksum t data) = 4%nat /\ Forall is_byte (checksum t data).
Proof. destruct (hasher_Raw_ok others t data) as [L B]. unfold checksum. split; [rewrite length_take, L; done|by apply Forall_take]. Qed.

(** Some byte of the data or its checksum is not zero, as every version byte but
    0 makes sure. *)
Definition checkable (t : HasherType) (data : list Z) : Prop := Exists (fun b => b <> 0) (data ++ checksum t data).

Lemma split_check t data : slice (data ++ checksum t data) (zlen data) 4 = checksum t data /\
  take (Z.to_nat (zlen data)) (data ++ checksum t data) = data.
Proof.
  unfold slice, zlen. rewrite Nat2Z.id, drop_app_length, take_app_length. split; [|done]. apply take_ge. destruct (checksum_ok t data) as [-> _]. done.
Qed.

Lemma b58check_ok t data s : b58_of (data ++ checksum t data) s -> checkable t data ->
  exists c, b58check others (data ++ checksum t data) t s = Some c /\ (Forall is_byte data -> 0 <= c).
Proof.
  intros (z & bin & ds & E & Hl & Hds & Hld & _ & ->) Hc. destruct (checksum_ok t data) as [Lc Bc]. destruct (split_check t data) as [S1 S2].
  unfold b58check. assert (Hlen : zlen (data ++ checksum t data) = zlen data + 4) by (rewrite zlen_app; unfold zlen; by rewrite Lc).
  rewrite Hlen. pose proof (zlen_nonneg data). rewrite (proj2 (Z.ltb_ge _ _)) by lia. cbv zeta. replace (zlen data + 4 - 4) with (zlen data) by lia.
  rewrite S1, S2, bool_decide_eq_true_2 by done. cbn [negb]. unfold checkable in Hc. rewrite E in Hc.
  destruct bin as [|b bin]; [exfalso; rewrite app_nil_r in Hc; apply Exists_exists in Hc as (x & Hx & Hn); apply list_elem_of_In, elem_of_replicate in Hx as [-> _]; done|].
  assert (Hm : zeros_match (S (length (data ++ checksum t data))) (data ++ checksum t data) (replicate z 49 ++ map b58_char ds) 0 = Some true).
  { rewrite E. apply (zeros_match_ok z b bin (map b58_char ds) z); [done| |lia|lia|rewrite length_app, length_replicate; cbn; lia].
    destruct Hds as [|d ds Hd _]; [done|]. cbn [map]. destruct (b58_char_ok d Hd) as (_ & _ & H0). cbn [lead] in Hld. tauto. }
  rewrite Hm. eexists. split; [reflexivity|]. intros Hb. assert (Hall : Forall is_byte (data ++ checksum t data)) by (apply Forall_app; done).
  destruct Hall as [|x l Hx _]; [done|]. change (znth 0 (x :: l) 0) with x. unfold is_byte in Hx. lia.
Qed.

(** A string that passes the check ends in the checksum of what precedes it. *)
Lemma b58check_sound t nd s c : b58check others nd t s = Some c -> 0 <= c ->
  exists data, nd = data ++ checksum t data.
Proof.
  unfold b58check. destruct (Z.ltb_spec (zlen nd) 4) as [|H4]; [intros [= <-]; lia|]. cbv zeta.
  set (data := take (Z.to_nat (zlen nd - 4)) nd). destruct (bool_decide_reflect (slice nd (zlen nd - 4) 4 = take 4 (hasher_Raw others t data (zrep 32 0)))) as [E|];
    [|intros [= <-]; lia]. intros _ _. exists data. unfold checksum. rewrite <- E. unfold data, slice.
  rewrite (take_ge (drop _ _)) by (rewrite length_drop; unfold zlen in *; lia). by rewrite take_drop.
Qed.

End Checksum.

(** What base58_encode_check writes. *)
Lemma encode_check_ok others `{!DigestsOk others} t data strsize : Forall is_byte data -> zlen data <= 128 ->
  exists s, b58_of (data ++ checksum others t data) s /\
  base58_encode_check others data t strsize = if strsize <=? zlen s then ([], 0) else (s, zlen s + 1).
Proof.
  intros Hb Hl. destruct (checksum_ok others t data) as [Lc Bc]. assert (Hall : Forall is_byte (data ++ checksum others t data)) by (apply Forall_app; done).
  destruct (b58enc_ok strsize _ Hall) as (s & Hs & E). exists s. split; [done|]. unfold base58_encode_check.
  rewrite (proj2 (Z.ltb_ge _ _)) by lia. fold (checksum others t data). rewrite E. by destruct (strsize <=? zlen s).
Qed.

Lemma zlen_check others `{!DigestsOk others} t data : zlen (data ++ checksum others t data) = zlen data + 4.
Proof. rewrite zlen_app. unfold zlen. by destruct (checksum_ok others t data) as [-> _]. Qed.

(** Reading it back. *)
Lemma decode_encoded others `{!DigestsOk others} t data s datalen : Forall is_byte data -> checkable others t data ->
  b58_of (data ++ checksum others t data) s -> zlen data <= datalen <= 128 ->
  base58_decode_check others s t datalen = Some (data, zlen data).
Proof.
  intros Hb Hc Hs Hd. destruct (checksum_ok others t data) as [Lc Bc]. assert (Hall : Forall is_byte (data ++ checksum others t data)) by (apply Forall_app; done).
  unfold base58_decode_check. rewrite (proj2 (Z.ltb_ge _ _)) by lia. pose proof (zlen_nonneg data).
  rewrite (b58tobin_encoded (datalen + 4) ltac:(lia) _ _ s Hall Hs) by (rewrite (zlen_check others t data); lia). rewrite (zlen_check others t data). cbn [negb].
  rewrite drop_app_length' by (unfold zrep; rewrite length_replicate; done).
  destruct (b58check_ok others t data s Hs Hc) as (c & Ec & Hpos). rewrite Ec. cbn. rewrite (proj2 (Z.ltb_ge _ _)) by auto.
  replace (zlen data + 4 - 4) with (zlen data) by lia. by rewrite (proj2 (split_check others t data)).
Qed.

(** What base58_decode_check returns encodes to the string. *)
Lemma decode_sound others `{!DigestsOk others} t s datalen out n : Forall is_byte s -> 0 <= datalen ->
  base58_decode_check others s t datalen = Some (out, n) -> 0 < n ->
  n = zlen out /\ n <= datalen /\ Forall is_byte out /\ b58_of (out ++ checksum others t out) s.
Proof.
  intros Hs Hd E Hn. unfold base58_decode_check in E. destruct (128 <? datalen); [injection E as <- <-; lia|].
  destruct (b58tobin _ _ _) as [[ok d] res] eqn:Eb. destruct ok; [|injection E as <- <-; lia]. cbn [negb] in E.
  destruct (b58tobin_decoded (datalen + 4) ltac:(lia) _ s d res Hs Eb) as (nd & Bn & Hof & -> & Hres & ->).
  rewrite drop_app_length' in E by (unfold zrep; rewrite length_replicate; done). destruct (b58check others nd t s) as [c|] eqn:Ec; [|done]. cbn in E.
  destruct (Z.ltb_spec c 0) as [|Hc0]; [injection E as <- <-; lia|]. injection E as <- <-.
  destruct (b58check_sound others t nd s c Ec Hc0) as (dd & ->). rewrite (zlen_check others t dd) in *. replace (zlen dd + 4 - 4) with (zlen dd) in * by lia.
  rewrite (proj2 (split_check others t dd)). split; [done|]. split; [lia|]. apply Forall_app in Bn as [Bn _]. done.
Qed.

(** A buffer that is too small is refused. *)
Lemma decode_small others `{!DigestsOk others} t data s datalen : Forall is_byte data -> b58_of (data ++ checksum others t data) s ->
  0 <= datalen < zlen data -> base58_decode_check others s t datalen = Some ([], 0).
Proof.
  intros Hb Hs Hd. destruct (checksum_ok others t data) as [Lc Bc]. assert (Hall : Forall is_byte (data ++ checksum others t data)) by (apply Forall_app; done).
  unfold base58_decode_check. destruct (128 <? datalen); [done|].
  assert (Hf : fst (fst (b58tobin (zrep (datalen + 4) 0) (datalen + 4) s)) = false); [|destruct (b58tobin _ _ _) as [[ok d] res]; cbn in Hf; by rewrite Hf].
  apply (b58tobin_small (datalen + 4) ltac:(lia) _ _ s Hall Hs). rewrite (zlen_check others t data). lia.
Qed.

(** C22: Base58Check round trip: base58_encode_check writes the Base58 form of the
    data and four bytes of its digest when the buffer is large enough (the carry
    buffer of 138/100 of the length always is), and nothing otherwise;
    base58_decode_check reads the data back from it.  Conversely, what
    base58_decode_check accepts is that form of the data it returns, so no other
    string is accepted for the same data. *)
Theorem base58_check_roundtrip others `{!DigestsOk others} t data strsize datalen :
  Forall is_byte data -> zlen data <= 128 -> checkable others t data ->
  (exists s, b58_of (data ++ checksum others t data) s /\
    base58_encode_check others data t strsize = (if strsize <=? zlen s then ([], 0) else (s, zlen s + 1)) /\
    (zlen data <= datalen <= 128 -> base58_decode_check others s t datalen = Some (data, zlen data)) /\
    (0 <= datalen < zlen data -> base58_decode_check others s t datalen = Some ([], 0))) /\
  (forall s out n, Forall is_byte s -> 0 <= datalen -> base58_decode_check others s t datalen = Some (out, n) -> 0 < n ->
    n = zlen out /\ n <= datalen /\ Forall is_byte out /\ b58_of (out ++ checksum others t out) s).
Proof.
  intros Hb Hl Hc. split; [|intros s out n; apply (decode_sound others t s datalen out n)]. destruct (encode_check_ok others t data strsize Hb Hl) as (s & Hs & E).
  exists s. split; [done|]. split; [done|]. split; intros Hd; [by apply decode_encoded|by apply (decode_small others t data)].
Qed.

(** Digests for the examples. *)
Definition zero_digests : other_digests :=
  OtherDigests (fun _ => zrep 32 0) (fun _ => zrep 32 0) (fun _ => zrep 32 0) (fun _ => zrep 32 0).

#[export] Instance zero_digests_ok : DigestsOk zero_digests.
Proof. split; intros; exact zeros_digest. Qed.

(** The address of the public key hash 0x010966776006953D5567439E5E39F86A0D273BEE. *)
Definition demo_hash : list Z := 0 :: be_bytes 20 0x010966776006953D5567439E5E39F86A0D273BEE.

Lemma base58_check_roundtrip_witness : exists s,
  base58_encode_check zero_digests demo_hash HASHER_SHA2D 40 = (s, 34) /\
  base58_decode_check zero_digests s HASHER_SHA2D 21 = Some (demo_hash, 21).
Proof.
  destruct (base58_check_roundtrip zero_digests HASHER_SHA2D demo_hash 40 21) as [(s & _ & E & D & _) _].
  - apply Forall_cons_2; [unfold is_byte; lia|]. apply Forall_rev, le_bytes_byte.
  - vm_compute. discriminate.
  - unfold checkable. apply Exists_app. left. vm_compute. apply Exists_cons_tl, Exists_cons_hd. discriminate.
  - assert (Es : snd (base58_encode_check zero_digests demo_hash HASHER_SHA2D 40) = 34) by (vm_compute; reflexivity).
    rewrite E in Es. exists s. rewrite E. destruct (Z.leb_spec 40 (zlen s)) as [Hs|Hs]; cbn [snd] in Es; [discriminate|].
    rewrite Es. split; [reflexivity|]. apply D. vm_compute. split; discriminate.
Defined.

End Base58Spec.
