(* ===== verification/Address.v ===== *)
(** * Addresses (crypto/address.c and the address functions of crypto/ecdsa.c)

    Version prefixes of one to four bytes, addresses and WIF keys in Base58Check,
    and signing and verification of messages through a selectable hasher.  A
    string that is written is the list of its characters; [] when the buffer of
    the caller is too small. *)

From stdpp Require Import base list numbers.
From Stdlib Require Import ZArith Lia.
From S2P Require Import Prelude Bits Hash HashSpec Bignum Curves Drbg Ecdsa EcdsaSig Hasher Base58 Base58Spec.
Local Open Scope fw_scope.

Module Address.
Import Bits Hash HashSpec Hasher Base58 Base58Spec.

(** ** address.c *)

Definition address_prefix_bytes_len (address_type : Z) : Z :=
  if address_type <=? 0xFF then 1
  else if address_type <=? 0xFFFF then 2
  else if address_type <=? 0xFFFFFF then 3
  else 4.

(** The bytes written at [out]. *)
Definition address_write_prefix_bytes (address_type : Z) : list Z :=
  (if 0xFFFFFF <? address_type then [u8 (Z.shiftr address_type 24)] else [])
  ++ (if 0xFFFF <? address_type then [Z.shiftr address_type 16 .& 0xFF] else [])
  ++ (if 0xFF <? address_type then [Z.shiftr address_type 8 .& 0xFF] else [])
  ++ [address_type .& 0xFF].

Definition address_check_prefix (addr : list Z) (address_type : Z) : bool :=
  let a i := znth 0 addr i in
  if address_type <=? 0xFF then address_type =? a 0
  else if address_type <=? 0xFFFF then address_type =? (u32 (Z.shiftl (a 0) 8) .| a 1)
  else if address_type <=? 0xFFFFFF then address_type =? (u32 (Z.shiftl (a 0) 16) .| u32 (Z.shiftl (a 1) 8) .| a 2)
  else address_type =? (u32 (Z.shiftl (a 0) 24) .| u32 (Z.shiftl (a 1) 16) .| u32 (Z.shiftl (a 2) 8) .| a 3).

(** ** The functions of ecdsa.c *)

Section Addresses.
Context (others : other_digests).

(** The 20 bytes written at [pubkeyhash]. *)
Definition ecdsa_get_pubkeyhash (pub_key : list Z) (hasher_pubkey : HasherType) : list Z :=
  let h := zrep 32 0 in
  let h :=
    if znth 0 pub_key 0 =? 0x04 then hasher_Raw others hasher_pubkey (take 65 pub_key) h
    else if znth 0 pub_key 0 =? 0x00 then hasher_Raw others hasher_pubkey (take 1 pub_key) h
    else hasher_Raw others hasher_pubkey (take 33 pub_key) h in
  take 20 h.

Definition ecdsa_get_address_raw (pub_key : list Z) (version : Z) (hasher_pubkey : HasherType) (addr_raw : list Z) : list Z :=
  let prefix_len := address_prefix_bytes_len version in
  let addr_raw := memcpy addr_raw 0 (address_write_prefix_bytes version) in
  memcpy addr_raw (Z.to_nat prefix_len) (ecdsa_get_pubkeyhash pub_key hasher_pubkey).

Definition MAX_ADDR_RAW_SIZE : Z := 65.

Definition ecdsa_get_address (pub_key : list Z) (version : Z) (hasher_pubkey hasher_base58 : HasherType) (addrsize : Z) : list Z :=
  let raw := zrep MAX_ADDR_RAW_SIZE 0 in
  let prefix_len := address_prefix_bytes_len version in
  let raw := ecdsa_get_address_raw pub_key version hasher_pubkey raw in
  fst (base58_encode_check others (take (Z.to_nat (20 + prefix_len)) raw) hasher_base58 addrsize).

Definition ecdsa_get_address_segwit_p2sh_raw (pub_key : list Z) (version : Z) (hasher_pubkey : HasherType) (addr_raw : list Z) : list Z :=
  let buf := zrep (32 + 2) 0 in
  let buf := zupd buf 0 0 in
  let buf := zupd buf 1 20 in
  let buf := memcpy buf 2 (ecdsa_get_pubkeyhash pub_key hasher_pubkey) in
  let prefix_len := address_prefix_bytes_len version in
  let addr_raw := memcpy addr_raw 0 (address_write_prefix_bytes version) in
  memcpy addr_raw (Z.to_nat prefix_len)
    (hasher_Raw others hasher_pubkey (take 22 buf) (slice addr_raw prefix_len 32)).

Definition ecdsa_get_address_segwit_p2sh (pub_key : list Z) (version : Z) (hasher_pubkey hasher_base58 : HasherType)
    (addrsize : Z) : list Z :=
  let raw := zrep MAX_ADDR_RAW_SIZE 0 in
  let prefix_len := address_prefix_bytes_len version in
  let raw := ecdsa_get_address_segwit_p2sh_raw pub_key version hasher_pubkey raw in
  fst (base58_encode_check others (take (Z.to_nat (prefix_len + 20)) raw) hasher_base58 addrsize).

Definition MAX_WIF_RAW_SIZE : Z := 4 + 32 + 1.

Definition ecdsa_get_wif (priv_key : list Z) (version : Z) (hasher_base58 : HasherType) (wifsize : Z) : list Z :=
  let wif_raw := zrep MAX_WIF_RAW_SIZE 0 in
  let prefix_len := address_prefix_bytes_len version in
  let wif_raw := memcpy wif_raw 0 (address_write_prefix_bytes version) in
  let wif_raw := memcpy wif_raw (Z.to_nat prefix_len) (take 32 priv_key) in
  let wif_raw := zupd wif_raw (prefix_len + 32) 0x01 in
  fst (base58_encode_check others (take (Z.to_nat (prefix_len + 32 + 1)) wif_raw) hasher_base58 wifsize).

(** What the call returns, and the bytes at [out]; [None] for [addr] is NULL. *)
Definition ecdsa_address_decode (addr : option (list Z)) (version : Z) (hasher_base58 : HasherType) : option (Z * list Z) :=
  match addr with
  | None => Some (0, [])
  | Some addr =>
      let prefix_len := address_prefix_bytes_len version in
      '(out, n) ← base58_decode_check others addr hasher_base58 (20 + prefix_len);
      Some (Z.b2z ((n =? 20 + prefix_len) && address_check_prefix out version), out)
  end.

(** Messages: the digest of a selectable hasher is signed and verified. *)
Definition ecdsa_sign (cp : option (list (list Curves.curve_point))) (words : list Z) (curve : Curves.ecdsa_curve)
    (hasher_sign : HasherType) (priv_key msg sig : list Z) (pby : Z) (is_canonical : option (Z -> list Z -> Z)) :
    option (Z * list Z * Z * list Z) :=
  let hash := hasher_Raw others hasher_sign msg (zrep 32 0) in
  EcdsaSig.ecdsa_sign_digest cp words curve priv_key hash sig pby is_canonical.

Definition ecdsa_verify (cp : option (list (list Curves.curve_point))) (words : list Z) (curve : Curves.ecdsa_curve)
    (hasher_sign : HasherType) (pub_key sig msg : list Z) :=
  let hash := hasher_Raw others hasher_sign msg (zrep 32 0) in
  EcdsaSig.ecdsa_verify_digest cp words curve pub_key sig hash.

End Addresses.

(** ** Prefixes *)

Definition is_version (v : Z) : Prop := 0 <= v < 2 ^ 32.

Lemma prefix_len_ok v : is_version v -> 1 <= address_prefix_bytes_len v <= 4 /\ v < 256 ^ address_prefix_bytes_len v.
Proof.
  intros Hv. unfold is_version, address_prefix_bytes_len in *.
  destruct (Z.leb_spec v 0xFF); [|destruct (Z.leb_spec v 0xFFFF); [|destruct (Z.leb_spec v 0xFFFFFF)]]; cbn; lia.
Qed.

Lemma low_byte x : x .& 0xFF = x mod 256.
Proof. change 0xFF with (Z.ones 8). by rewrite Z.land_ones by lia. Qed.

(** The prefix is the version in big-endian order, without leading zeros. *)
Lemma write_prefix_ok v : is_version v -> address_write_prefix_bytes v = be_bytes (Z.to_nat (address_prefix_bytes_len v)) v.
Proof.
  intros Hv. unfold is_version, address_prefix_bytes_len, address_write_prefix_bytes, u8, wrap, be_bytes in *.
  rewrite !low_byte, !Z.shiftr_div_pow2 by lia.
  change (2 ^ 8) with 256. change (2 ^ 16) with 65536. change (2 ^ 24) with 16777216.
  destruct (Z.leb_spec v 0xFF); [|destruct (Z.leb_spec v 0xFFFF); [|destruct (Z.leb_spec v 0xFFFFFF)]];
    destruct (Z.ltb_spec 0xFFFFFF v), (Z.ltb_spec 0xFFFF v), (Z.ltb_spec 0xFF v); try lia;
    [change (Z.to_nat 1) with 1%nat|change (Z.to_nat 2) with 2%nat|change (Z.to_nat 3) with 3%nat|change (Z.to_nat 4) with 4%nat];
    cbn [app le_bytes rev]; repeat (apply (f_equal2 cons); [zlia|]); reflexivity.
Qed.

Lemma be_val_cons b bs : be_val (b :: bs) = b * 256 ^ zlen bs + be_val bs.
Proof. unfold be_val. cbn [rev]. rewrite le_val_app. unfold zlen. rewrite length_rev. cbn. lia. Qed.

Lemma or_bytes a b k : 0 < k -> 0 <= a -> 0 <= b < 2 ^ k -> a * 2 ^ k < 2 ^ 32 -> u32 (Z.shiftl a k) .| b = a * 2 ^ k + b.
Proof.
  intros Hk Ha Hb Hlt. rewrite u32_small by (rewrite Z.shiftl_mul_pow2; lia). rewrite Z.lor_comm, lor_shift by lia. lia.
Qed.

(** The check compares the prefix with the version. *)
Lemma check_prefix_ok v p rest : is_version v -> zlen p = address_prefix_bytes_len v -> Forall is_byte p ->
  address_check_prefix (p ++ rest) v = (v =? be_val p).
Proof.
  intros Hv Hl Hp. unfold address_check_prefix, address_prefix_bytes_len, is_version, zlen in *.
  destruct (Z.leb_spec v 0xFF); [|destruct (Z.leb_spec v 0xFFFF); [|destruct (Z.leb_spec v 0xFFFFFF)]];
    [destruct p as [|a [|? ?]]|destruct p as [|a [|b [|? ?]]]|destruct p as [|a [|b [|c [|? ?]]]]|destruct p as [|a [|b [|c [|d [|? ?]]]]]];
    cbn [length] in Hl; try lia; rewrite ?Forall_cons_iff in Hp; unfold is_byte in Hp; rewrite !be_val_cons; cbn [app]; cbv zeta;
    change (be_val []) with 0; unfold zlen; cbn [length Z.of_nat Pos.of_succ_nat Pos.succ];
    change (znth 0 (a :: ?l) 0) with a; change (256 ^ 0) with 1; change (256 ^ 1) with (2 ^ 8); change (256 ^ 2) with (2 ^ 16); change (256 ^ 3) with (2 ^ 24).
  - f_equal. lia.
  - change (znth 0 (a :: b :: ?l) 1) with b. rewrite or_bytes by lia. f_equal. lia.
  - change (znth 0 (a :: b :: ?l) 1) with b. change (znth 0 (a :: b :: c :: ?l) 2) with c.
    rewrite <- Z.lor_assoc, (or_bytes b c), (or_bytes a) by lia. f_equal. lia.
  - change (znth 0 (a :: b :: ?l) 1) with b. change (znth 0 (a :: b :: c :: ?l) 2) with c. change (znth 0 (a :: b :: c :: d :: ?l) 3) with d.
    rewrite <- !Z.lor_assoc, (or_bytes c d), (or_bytes b), (or_bytes a) by lia. f_equal. lia.
Qed.

(** ** Round trip *)

Section Roundtrip.
Context (others : other_digests) `{!DigestsOk others}.

(** The bytes of an address: version and hash of the public key. *)
Definition address_data (pub_key : list Z) (version : Z) (hasher_pubkey : HasherType) : list Z :=
  be_bytes (Z.to_nat (address_prefix_bytes_len version)) version ++ ecdsa_get_pubkeyhash others pub_key hasher_pubkey.

Lemma pubkeyhash_ok pub_key t : length (ecdsa_get_pubkeyhash others pub_key t) = 20%nat /\ Forall is_byte (ecdsa_get_pubkeyhash others pub_key t).
Proof.
  assert (H : forall d, length (take 20 (hasher_Raw others t d (zrep 32 0))) = 20%nat /\ Forall is_byte (take 20 (hasher_Raw others t d (zrep 32 0)))).
  { intros d. destruct (hasher_Raw_ok others t d) as [L B]. split; [rewrite length_take, L; reflexivity|by apply Forall_take]. }
  unfold ecdsa_get_pubkeyhash. cbv zeta. destruct (_ =? 4); [apply H|]. destruct (_ =? 0); apply H.
Qed.

Lemma address_version_bytes v : is_version v -> Forall is_byte (be_bytes (Z.to_nat (address_prefix_bytes_len v)) v).
Proof. intros _. apply Forall_rev, le_bytes_byte. Qed.

Lemma address_data_ok pub_key v t : is_version v ->
  Forall is_byte (address_data pub_key v t) /\ zlen (address_data pub_key v t) = 20 + address_prefix_bytes_len v.
Proof.
  intros Hv. destruct (pubkeyhash_ok pub_key t) as [L B]. pose proof (prefix_len_ok v Hv) as [Hl _]. unfold address_data. split.
  - apply Forall_app. split; [by apply address_version_bytes|exact B].
  - unfold zlen. rewrite length_app, length_be_bytes, L. lia.
Qed.

Lemma get_address_raw_ok pub_key v t : is_version v ->
  take (Z.to_nat (20 + address_prefix_bytes_len v)) (ecdsa_get_address_raw others pub_key v t (zrep MAX_ADDR_RAW_SIZE 0)) = address_data pub_key v t.
Proof.
  intros Hv. destruct (pubkeyhash_ok pub_key t) as [L _]. pose proof (prefix_len_ok v Hv) as [Hl _].
  unfold ecdsa_get_address_raw, address_data. rewrite write_prefix_ok by exact Hv.
  set (pre := be_bytes (Z.to_nat (address_prefix_bytes_len v)) v). assert (Lp : length pre = Z.to_nat (address_prefix_bytes_len v)) by apply length_be_bytes.
  assert (Lb : length (zrep MAX_ADDR_RAW_SIZE 0) = 65%nat) by reflexivity. set (buf := zrep _ 0) in *. clearbody buf. cbv zeta.
  replace (Z.to_nat (20 + address_prefix_bytes_len v)) with (Z.to_nat (address_prefix_bytes_len v) + length (ecdsa_get_pubkeyhash others pub_key t))%nat by lia.
  rewrite take_memcpy by (rewrite length_memcpy; lia). f_equal. rewrite <- Lp. by rewrite <- (Nat.add_0_l (length pre)), take_memcpy by lia.
Qed.

(** An address is read back with its version, and with no other. *)
Lemma address_decode_ok data v v' t s : is_version v -> is_version v' -> Forall is_byte data -> zlen data = 20 ->
  let d := be_bytes (Z.to_nat (address_prefix_bytes_len v)) v ++ data in
  b58_of (d ++ checksum others t d) s -> checkable others t d ->
  exists out, ecdsa_address_decode others (Some s) v' t = Some (Z.b2z (v' =? v), out) /\ (v' = v -> out = d).
Proof.
  intros Hv Hv' Hb Hlen d Hs Hc. pose proof (prefix_len_ok v Hv) as [Hl Hr]. pose proof (prefix_len_ok v' Hv') as [Hl' Hr'].
  pose proof (address_version_bytes v Hv) as Bp. assert (Bd : Forall is_byte d) by (apply Forall_app; done).
  set (pre := be_bytes (Z.to_nat (address_prefix_bytes_len v)) v) in *.
  assert (Lp : zlen pre = address_prefix_bytes_len v) by (unfold zlen, pre; rewrite length_be_bytes; lia).
  assert (Ld : zlen d = 20 + address_prefix_bytes_len v) by (unfold d; rewrite zlen_app; lia). unfold ecdsa_address_decode.
  destruct (Z.lt_trichotomy (address_prefix_bytes_len v') (address_prefix_bytes_len v)) as [Hlt|[Heq|Hgt]].
  - rewrite (decode_small others t d s) by (assumption || lia). cbn [mbind option_bind]. rewrite (proj2 (Z.eqb_neq 0 _)) by lia. exists [].
    destruct (Z.eqb_spec v' v) as [->|]; [lia|]. split; [reflexivity|done].
  - rewrite (decode_encoded others t d s) by (assumption || lia). cbn [mbind option_bind]. rewrite (proj2 (Z.eqb_eq (zlen d) _)) by lia. exists d. cbn [andb].
    unfold d at 1. rewrite (check_prefix_ok v' pre data Hv') by (assumption || lia). split; [|reflexivity]. do 3 f_equal.
    unfold pre, be_val, be_bytes. rewrite rev_involutive, le_val_bytes, Z2Nat.id, Z.mod_small by (unfold is_version in *; lia). reflexivity.
  - rewrite (decode_encoded others t d s) by (assumption || lia). cbn [mbind option_bind]. rewrite (proj2 (Z.eqb_neq (zlen d) _)) by lia. exists d.
    destruct (Z.eqb_spec v' v) as [->|]; [lia|]. split; [reflexivity|done].
Qed.

End Roundtrip.

(** C24: Addresses: ecdsa_get_address writes the Base58Check form of the version
    prefix and the hash of the public key, or nothing when the buffer is too
    small; ecdsa_address_decode accepts it with the version it was made with,
    yielding these bytes, and refuses it with every other version, one with a
    prefix of another length included. *)
Theorem address_roundtrip others `{!DigestsOk others} pub_key version hasher_pubkey hasher_base58 addrsize :
  is_version version -> checkable others hasher_base58 (address_data others pub_key version hasher_pubkey) ->
  exists s, b58_of (address_data others pub_key version hasher_pubkey ++
                    checksum others hasher_base58 (address_data others pub_key version hasher_pubkey)) s /\
  ecdsa_get_address others pub_key version hasher_pubkey hasher_base58 addrsize = (if addrsize <=? zlen s then [] else s) /\
  forall version', is_version version' -> exists out,
    ecdsa_address_decode others (Some s) version' hasher_base58 = Some (Z.b2z (version' =? version), out) /\
    (version' = version -> out = address_data others pub_key version hasher_pubkey).
Proof.
  intros Hv Hc. destruct (address_data_ok others pub_key version hasher_pubkey Hv) as [B L]. pose proof (prefix_len_ok version Hv) as [Hl _].
  destruct (encode_check_ok others hasher_base58 _ addrsize B ltac:(lia)) as (s & Hs & E). exists s. split; [exact Hs|]. split.
  - unfold ecdsa_get_address. rewrite (get_address_raw_ok others pub_key version hasher_pubkey Hv), E. by destruct (addrsize <=? zlen s).
  - intros v' Hv'. destruct (pubkeyhash_ok others pub_key hasher_pubkey) as [Lh Bh].
    apply (address_decode_ok others (ecdsa_get_pubkeyhash others pub_key hasher_pubkey) version v'); [assumption..| |exact Hs|exact Hc].
    unfold zlen. by rewrite Lh.
Qed.

Lemma address_roundtrip_witness : exists s out,
  ecdsa_get_address zero_digests (2 :: zrep 32 7) 0x1cb8 HASHER_SHA2_RIPEMD HASHER_SHA2D 2 = [] /\
  ecdsa_address_decode zero_digests (Some s) 0x1cb8 HASHER_SHA2D = Some (1, out) /\
  out = address_data zero_digests (2 :: zrep 32 7) 0x1cb8 HASHER_SHA2_RIPEMD.
Proof.
  destruct (address_roundtrip zero_digests (2 :: zrep 32 7) 0x1cb8 HASHER_SHA2_RIPEMD HASHER_SHA2D 2) as (s & Hs & E & D).
  - unfold is_version. lia.
  - unfold checkable, address_data. apply Exists_app. left. apply Exists_app. left. apply Exists_cons_hd. vm_compute. discriminate.
  - destruct (D 0x1cb8 ltac:(unfold is_version; lia)) as (out & Ed & Ho). exists s, out. split; [vm_compute; reflexivity|].
    split; [exact Ed|exact (Ho eq_refl)].
Defined.

End Address.
