(* ===== verification/Bip32.v ===== *)
(** * Hierarchical deterministic keys (crypto/bip32.c)

    Nodes of the key tree: creation, private and public derivation, the cache of
    derived parents, fingerprints and the Base58 form of extended keys.  Modelled
    for the default options of options.h: with the cache, with the curves over
    25519 and Keccak, without Cardano, NEM and Ethereum.

    A pointer to one of the constant [curve_info] structures is a [curve_ptr], so
    that comparing pointers is comparing tags.  [others] are the hash functions
    that are not modelled, [ed] the public keys of the curves over 25519, [tables]
    the precomputed multiples of the build, [words] the random words that are left.
    The endless loops that retry with a new digest take the number of turns. *)

From stdpp Require Import base list numbers strings.
From Stdlib Require Import ZArith Lia.
From S2P Require Import Prelude Hash Bignum Curves BignumInverse Hmac Drbg Ecdsa EcdsaSig Hasher Base58 Address.
Local Open Scope fw_scope.

Module Bip32.
Import Hash Bignum Curves BignumInverse Hmac Drbg Ecdsa EcdsaSig Hasher Base58 Address.

(** ** Curves *)

Record curve_info := CurveInfo {
  curve_name : string;
  bip32_name : string;
  params : option ecdsa_curve;
  hasher_base58 : HasherType;
  hasher_sign : HasherType;
  hasher_pubkey : HasherType;
  hasher_script : HasherType }.

Definition SECP256K1_NAME : string := "secp256k1".
Definition SECP256K1_DECRED_NAME : string := "secp256k1-decred".
Definition SECP256K1_GROESTL_NAME : string := "secp256k1-groestl".
Definition SECP256K1_SMART_NAME : string := "secp256k1-smart".
Definition NIST256P1_NAME : string := "nist256p1".
Definition ED25519_NAME : string := "ed25519".
Definition ED25519_SEED_NAME : string := "ed25519 seed".
Definition ED25519_SHA3_NAME : string := "ed25519-sha3".
Definition ED25519_KECCAK_NAME : string := "ed25519-keccak".
Definition CURVE25519_NAME : string := "curve25519".
Definition ED25519_POLKADOT_NAME : string := "ed25519-polkadot".

Definition secp256k1_info : curve_info :=
  CurveInfo SECP256K1_NAME "Bitcoin seed" (Some secp256k1) HASHER_SHA2D HASHER_SHA2D HASHER_SHA2_RIPEMD HASHER_SHA2.
Definition secp256k1_decred_info : curve_info :=
  CurveInfo SECP256K1_DECRED_NAME "Bitcoin seed" (Some secp256k1) HASHER_BLAKED HASHER_BLAKE HASHER_BLAKE_RIPEMD HASHER_BLAKE.
Definition secp256k1_groestl_info : curve_info :=
  CurveInfo SECP256K1_GROESTL_NAME "Bitcoin seed" (Some secp256k1) HASHER_GROESTLD_TRUNC HASHER_SHA2 HASHER_SHA2_RIPEMD HASHER_SHA2.
Definition secp256k1_smart_info : curve_info :=
  CurveInfo SECP256K1_SMART_NAME "Bitcoin seed" (Some secp256k1) HASHER_SHA3K HASHER_SHA2 HASHER_SHA2_RIPEMD HASHER_SHA2.
Definition nist256p1_info : curve_info :=
  CurveInfo NIST256P1_NAME "Nist256p1 seed" (Some nist256p1) HASHER_SHA2D HASHER_SHA2D HASHER_SHA2_RIPEMD HASHER_SHA2.
Definition ed25519_info : curve_info :=
  CurveInfo ED25519_NAME ED25519_SEED_NAME None HASHER_SHA2D HASHER_SHA2D HASHER_SHA2_RIPEMD HASHER_SHA2.
Definition ed25519_sha3_info : curve_info :=
  CurveInfo ED25519_SHA3_NAME "ed25519-sha3 seed" None HASHER_SHA2D HASHER_SHA2D HASHER_SHA2_RIPEMD HASHER_SHA2.
Definition ed25519_keccak_info : curve_info :=
  CurveInfo ED25519_KECCAK_NAME "ed25519-keccak seed" None HASHER_SHA2D HASHER_SHA2D HASHER_SHA2_RIPEMD HASHER_SHA2.
Definition curve25519_info : curve_info :=
  CurveInfo CURVE25519_NAME "curve25519 seed" None HASHER_SHA2D HASHER_SHA2D HASHER_SHA2_RIPEMD HASHER_SHA2.
Definition ed25519_polkadot_info : curve_info :=
  CurveInfo ED25519_POLKADOT_NAME ED25519_SEED_NAME None HASHER_SHA2D HASHER_SHA2D HASHER_SHA2_RIPEMD HASHER_SHA2.

(** Pointers to them. *)
Inductive curve_ptr :=
  | To_secp256k1 | To_decred | To_groestl | To_smart | To_nist256p1
  | To_ed25519 | To_sha3 | To_keccak | To_curve25519 | To_polkadot.

#[export] Instance curve_ptr_eq_dec : EqDecision curve_ptr.
Proof. solve_decision. Defined.

Definition deref (p : curve_ptr) : curve_info :=
  match p with
  | To_secp256k1 => secp256k1_info | To_decred => secp256k1_decred_info
  | To_groestl => secp256k1_groestl_info | To_smart => secp256k1_smart_info
  | To_nist256p1 => nist256p1_info | To_ed25519 => ed25519_info | To_sha3 => ed25519_sha3_info
  | To_keccak => ed25519_keccak_info | To_curve25519 => curve25519_info | To_polkadot => ed25519_polkadot_info
  end.

(** NULL for an unknown or missing name *)
Definition get_curve_by_name (name : option string) : option curve_ptr :=
  match name with
  | None => None
  | Some name =>
      if String.eqb name SECP256K1_NAME then Some To_secp256k1
      else if String.eqb name SECP256K1_DECRED_NAME then Some To_decred
      else if String.eqb name SECP256K1_GROESTL_NAME then Some To_groestl
      else if String.eqb name SECP256K1_SMART_NAME then Some To_smart
      else if String.eqb name NIST256P1_NAME then Some To_nist256p1
      else if String.eqb name ED25519_NAME then Some To_ed25519
      else if String.eqb name ED25519_SHA3_NAME then Some To_sha3
      else if String.eqb name ED25519_KECCAK_NAME then Some To_keccak
      else if String.eqb name CURVE25519_NAME then Some To_curve25519
      else if String.eqb name ED25519_POLKADOT_NAME then Some To_polkadot
      else None
  end.

(** The characters of a string. *)
Definition chars (s : string) : list Z := map (fun a => Z.of_N (Ascii.N_of_ascii a)) (String.list_ascii_of_string s).

(** ** Nodes *)

Record HDNode := MkNode {
  depth : Z;
  child_num : Z;
  address_count : Z;
  address_n : list Z;
  chain_code : list Z;
  private_key : list Z;
  private_key_extension : list Z;
  public_key : list Z;
  curve : option curve_ptr }.

(** memcmp of two nodes compares their fields. *)
#[export] Instance HDNode_eq_dec : EqDecision HDNode.
Proof. solve_decision. Defined.

(** memzero(node, sizeof(HDNode)) *)
Definition zero_node : HDNode := MkNode 0 0 0 (zrep 8 0) (zrep 32 0) (zrep 32 0) (zrep 32 0) (zrep 33 0) None.

Definition set_public_key (pk : list Z) (n : HDNode) : HDNode :=
  MkNode (depth n) (child_num n) (address_count n) (address_n n) (chain_code n) (private_key n)
    (private_key_extension n) pk (curve n).

(** The fields a derivation writes. *)
Definition derived (n : HDNode) (i : Z) (chain priv pub : list Z) : HDNode :=
  MkNode (u32 (depth n + 1)) i (address_count n) (address_n n) chain priv (private_key_extension n) pub (curve n).

Definition hdnode_from_xpub (depth child_num : Z) (chain public : list Z) (name : option string) (out : HDNode) : Z * HDNode :=
  match get_curve_by_name name with
  | None => (0, out)
  | Some info =>
      if negb (znth 0 public 0 =? 0x02) && negb (znth 0 public 0 =? 0x03) then (0, out)
      else (1, MkNode depth child_num (address_count out) (address_n out) (take 32 chain) (zrep 32 0) (zrep 32 0)
                 (take 33 public) (Some info))
  end.

Definition hdnode_from_xprv (depth child_num : Z) (chain private : list Z) (name : option string) (out : HDNode) : Z * HDNode :=
  match get_curve_by_name name with
  | None => (0, out)
  | Some info =>
      let failed :=
        match params (deref info) with
        | Some c =>
            let a := read_bn private 0 in
            if truth (bn_is_zero a) then true else negb (truth (bn_is_less a (order c)))
        | None => false
        end in
      if failed then (0, out)
      else (1, MkNode depth child_num (address_count out) (address_n out) (take 32 chain) (take 32 private) (zrep 32 0)
                 (zrep 33 0) (Some info))
  end.

(** The loop of hdnode_from_seed: [I] when its first half is a private key. *)
Fixpoint seed_loop (turns : nat) (name : list Z) (c : ecdsa_curve) (I : list Z) : option (list Z) :=
  match turns with
  | O => None
  | S turns =>
      let a := read_bn I 0 in
      if negb (truth (bn_is_zero a)) && truth (bn_is_less a (order c)) then Some I
      else
        let ctx := hmac_sha512_Init name in
        let ctx := hmac_sha512_Update ctx I in
        seed_loop turns name c (hmac_sha512_Final ctx)
  end.

Definition hdnode_from_seed (turns : nat) (seed : list Z) (name : option string) : option (Z * HDNode) :=
  match get_curve_by_name name with
  | None => Some (0, zero_node)
  | Some info =>
      let seed_name := chars (bip32_name (deref info)) in
      let ctx := hmac_sha512_Init seed_name in
      let ctx := hmac_sha512_Update ctx seed in
      let I := hmac_sha512_Final ctx in
      I ← match params (deref info) with Some c => seed_loop turns seed_name c I | None => Some I end;
      Some (1, MkNode 0 0 0 (zrep 8 0) (slice I 32 32) (take 32 I) (zrep 32 0) (zrep 33 0) (Some info))
  end.

(** The functions of the curves over 25519: public keys and signatures of
    ed25519 and its variants over SHA-3 and Keccak (the message first, then the
    key), and the multiples curve25519 computes (the scalar first). *)
Record ed_keys := EdKeys {
  ed25519_publickey : list Z -> list Z;
  ed25519_publickey_sha3 : list Z -> list Z;
  ed25519_publickey_keccak : list Z -> list Z;
  curve25519_basepoint : list Z -> list Z;
  ed25519_sign : list Z -> list Z -> list Z;
  ed25519_sign_sha3 : list Z -> list Z -> list Z;
  ed25519_sign_keccak : list Z -> list Z -> list Z;
  curve25519_scalarmult : list Z -> list Z -> list Z }.

Section Derivation.
Context (others : other_digests) (ed : ed_keys) (tables : ecdsa_curve -> option (list (list curve_point))).

(** What the call returns, the node, and the words left; [None] for a NULL curve
    as well. *)
Definition hdnode_fill_public_key (words : list Z) (node : HDNode) : option (Z * HDNode * list Z) :=
  if negb (znth 0 (public_key node) 0 =? 0) then Some (0, node, words)
  else
    p ← curve node;
    match params (deref p) with
    | Some c =>
        '(r, pk, words) ← ecdsa_get_public_key33 (tables c) words c (private_key node) (public_key node);
        Some (if negb (r =? 0) then 1 else 0, set_public_key pk node, words)
    | None =>
        let pk := zupd (public_key node) 0 1 in
        let key := private_key node in
        let pk :=
          match p with
          | To_ed25519 | To_polkadot => memcpy pk 1 (ed25519_publickey ed key)
          | To_sha3 => memcpy pk 1 (ed25519_publickey_sha3 ed key)
          | To_keccak => memcpy pk 1 (ed25519_publickey_keccak ed key)
          | To_curve25519 => memcpy pk 1 (curve25519_basepoint ed key)
          | _ => pk
          end in
        Some (0, set_public_key pk node, words)
    end.

Definition hdnode_fingerprint (words : list Z) (node : HDNode) : option (Z * HDNode * list Z) :=
  '(_, node, words) ← hdnode_fill_public_key words node;
  p ← curve node;
  let digest := hasher_Raw others (hasher_pubkey (deref p)) (take 33 (public_key node)) (zrep 32 0) in
  let fingerprint := u32 (u32 (Z.shiftl (znth 0 digest 0) 24) + Z.shiftl (znth 0 digest 1) 16
                          + Z.shiftl (znth 0 digest 2) 8 + znth 0 digest 3) in
  Some (fingerprint, node, words).

(** hmac_sha512 of [data] under the chain code *)
Definition hmac_chain (chain data : list Z) : list Z :=
  let ctx := hmac_sha512_Init (take 32 chain) in
  let ctx := hmac_sha512_Update ctx data in
  hmac_sha512_Final ctx.

(** data[0] = 1; memcpy(data + 1, I + 32, 32) *)
Definition next_data (data I : list Z) : list Z :=
  let data := zupd data 0 1 in
  memcpy data 1 (slice I 32 32).

(** The loop of hdnode_private_ckd_bip32: the new private key, and the [I] it
    came from. *)
Fixpoint private_loop (turns : nat) (c : ecdsa_curve) (chain : list Z) (a : bignum256) (data I priv : list Z) :
    option (list Z * list Z) :=
  match turns with
  | O => None
  | S turns =>
      let b := read_bn I 0 in
      next ←
        (if negb (truth (bn_is_less b (order c))) then Some None
         else
           let b := bn_add b a in
           b ← bn_mod b (order c);
           Some (if truth (bn_is_zero b) then None else Some b));
      match next with
      | Some b => Some (write_bn b priv 0, I)
      | None =>
          let data := next_data data I in
          private_loop turns c chain a data (hmac_chain chain data) priv
      end
  end.

Definition hdnode_private_ckd_bip32 (turns : nat) (words : list Z) (inout : HDNode) (i : Z) : option (Z * HDNode * list Z) :=
  p ← curve inout;
  let info := deref p in
  let data := zrep (1 + 32 + 4) 0 in
  '(prefix, inout, words) ←
    (if negb (i .& 0x80000000 =? 0) then
       Some (Some (memcpy (zupd data 0 0) 1 (take 32 (private_key inout))), inout, words)
     else
       match params info with
       | None => Some (None, inout, words)
       | Some _ =>
           '(r, inout, words) ← hdnode_fill_public_key words inout;
           Some (if negb (r =? 0) then None else Some (memcpy data 0 (take 33 (public_key inout))), inout, words)
       end);
  match prefix with
  | None => Some (0, inout, words)
  | Some data =>
      let data := memcpy data 33 (be_bytes 4 i) in
      let a := read_bn (private_key inout) 0 in
      let I := hmac_chain (chain_code inout) data in
      '(priv, I_) ←
        match params info with
        | Some c => private_loop turns c (chain_code inout) a data I (private_key inout)
        | None => Some (take 32 I, I)
        end;
      Some (1, derived inout i (slice I_ 32 32) priv (zrep 33 0), words)
  end.

Definition hdnode_private_ckd := hdnode_private_ckd_bip32.

(** The loop of hdnode_public_ckd_cp: the child and the [I] it came from. *)
Fixpoint public_loop (turns : nat) (words : list Z) (c : ecdsa_curve) (parent : curve_point) (chain data : list Z)
    (child : curve_point) : option (curve_point * list Z * list Z) :=
  match turns with
  | O => None
  | S turns =>
      let I := hmac_sha512 (take 32 chain) data in
      let b := read_bn I 0 in
      '(ok, child, words) ←
        (if truth (bn_is_less b (order c)) then
           '(_, child, words) ← scalar_multiply (tables c) words c b child;
           child ← point_add c parent child;
           Some (negb (point_is_infinity child), child, words)
         else Some (false, child, words));
      if ok : bool then Some (child, I, words)
      else public_loop turns words c parent chain (next_data data I) child
  end.

(** What the call returns, the child, the chain code of the child, the words. *)
Definition hdnode_public_ckd_cp (turns : nat) (words : list Z) (c : ecdsa_curve) (parent : curve_point)
    (parent_chain : list Z) (i : Z) (child : curve_point) (child_chain : list Z) :
    option (Z * curve_point * list Z * list Z) :=
  let data := zrep ((1 + 32) + 4) 0 in
  if negb (i .& 0x80000000 =? 0) then Some (0, child, child_chain, words)
  else
    let data := zupd data 0 (0x02 .| (limb (cy parent) 0 .& 0x01)) in
    let data := write_bn (cx parent) data 1 in
    let data := memcpy data 33 (be_bytes 4 i) in
    '(child, I_, words) ← public_loop turns words c parent parent_chain data child;
    Some (1, child, slice I_ 32 32, words).

Definition hdnode_public_ckd (turns : nat) (words : list Z) (inout : HDNode) (i : Z) : option (Z * HDNode * list Z) :=
  p ← curve inout;
  '(r, parent) ← ecdsa_read_pubkey (params (deref p)) (public_key inout) zero_point;
  if r =? 0 then Some (0, inout, words)
  else
    c ← params (deref p);
    '(r, child, chain, words) ← hdnode_public_ckd_cp turns words c parent (chain_code inout) i zero_point (chain_code inout);
    if r =? 0 then Some (0, inout, words)
    else
      let pk := zupd (public_key inout) 0 (0x02 .| (limb (cy child) 0 .& 0x01)) in
      let pk := write_bn (cx child) pk 1 in
      Some (1, derived inout i chain (zrep 32 0) pk, words).

(** ** The cache of parents *)

Definition BIP32_CACHE_SIZE : Z := 10.
Definition BIP32_CACHE_MAXDEPTH : Z := 8.

Record cache_entry := MkEntry { ce_set : bool; ce_depth : Z; ce_i : list Z; ce_node : HDNode }.

(** private_ckd_cache_root_set, _root, _index and the entries *)
Record ckd_cache := MkCache { cache_root_set : bool; cache_root : HDNode; cache_index : Z; cache_entries : list cache_entry }.

Definition zero_entry : cache_entry := MkEntry false 0 (zrep BIP32_CACHE_MAXDEPTH 0) zero_node.

Definition bip32_cache_clear : ckd_cache := MkCache false zero_node 0 (zrep BIP32_CACHE_SIZE zero_entry).

(** for (j = 0; j < BIP32_CACHE_SIZE; j++), for the path [path] of i_count - 1 steps *)
Fixpoint find_parent (entries : list cache_entry) (path : list Z) (cv : option curve_ptr) : option HDNode :=
  match entries with
  | [] => None
  | e :: entries =>
      if ce_set e && (ce_depth e =? zlen path) && bool_decide (take (length path) (ce_i e) = path)
         && bool_decide (curve (ce_node e) = cv)
      then Some (ce_node e)
      else find_parent entries path cv
  end.

(** for (k = 0; k < i_count - 1; k++): what hdnode_private_ckd returned last *)
Fixpoint derive_path (turns : nat) (words : list Z) (inout : HDNode) (path : list Z) : option (Z * HDNode * list Z) :=
  match path with
  | [] => Some (1, inout, words)
  | i :: path =>
      '(r, inout, words) ← hdnode_private_ckd turns words inout i;
      if r =? 0 then Some (0, inout, words) else derive_path turns words inout path
  end.

(** The fingerprint, if it is asked for, and the last step. *)
Definition last_step (turns : nat) (words : list Z) (inout : HDNode) (i : Z) (want : bool) :
    option (Z * HDNode * option Z * list Z) :=
  '(fp, inout, words) ←
    (if want then '(f, inout, words) ← hdnode_fingerprint words inout; Some (Some f, inout, words)
     else Some (None, inout, words));
  '(r, inout, words) ← hdnode_private_ckd turns words inout i;
  Some (if r =? 0 then 0 else 1, inout, fp, words).

(** What the call returns, the node, *fingerprint if it is written, the cache and
    the words; [None] where the path does not fit the cache entry. *)
Definition hdnode_private_ckd_cached (turns : nat) (words : list Z) (cache : ckd_cache) (inout : HDNode) (i : list Z) (want : bool) :
    option (Z * HDNode * option Z * ckd_cache * list Z) :=
  let i_count := zlen i in
  if i_count =? 0 then Some (1, inout, None, cache, words)
  else if i_count =? 1 then
    '(r, inout, fp, words) ← last_step turns words inout (znth 0 i 0) want;
    Some (r, inout, fp, cache, words)
  else
    let path := take (Z.to_nat (i_count - 1)) i in
    let last := znth 0 i (i_count - 1) in
    let same_root := cache_root_set cache && bool_decide (cache_root cache = inout) in
    let cache :=
      if same_root then cache
      else MkCache true inout 0 (zrep BIP32_CACHE_SIZE zero_entry) in
    match (if same_root then find_parent (cache_entries cache) path (curve inout) else None) with
    | Some parent =>
        '(r, inout, fp, words) ← last_step turns words parent last want;
        Some (r, inout, fp, cache, words)
    | None =>
        '(r, inout, words) ← derive_path turns words inout path;
        if r =? 0 then Some (0, inout, None, cache, words)
        else if BIP32_CACHE_MAXDEPTH <? i_count - 1 then None
        else
          let e := MkEntry true (i_count - 1) (memcpy (zrep BIP32_CACHE_MAXDEPTH 0) 0 path) inout in
          let cache := MkCache (cache_root_set cache) (cache_root cache) ((cache_index cache + 1) mod BIP32_CACHE_SIZE)
                         (zupd (cache_entries cache) (cache_index cache) e) in
          '(r, inout, fp, words) ← last_step turns words inout last want;
          Some (r, inout, fp, cache, words)
    end.

(** ** Extended keys as strings *)

Definition hdnode_serialize (node : HDNode) (fingerprint version : Z) (use_private : bool) (strsize : Z) : option (list Z * Z) :=
  p ← curve node;
  let d := zrep 78 0 in
  let d := memcpy d 0 (be_bytes 4 version) in
  let d := zupd d 4 (u8 (depth node)) in
  let d := memcpy d 5 (be_bytes 4 fingerprint) in
  let d := memcpy d 9 (be_bytes 4 (child_num node)) in
  let d := memcpy d 13 (take 32 (chain_code node)) in
  let d :=
    if use_private then memcpy (zupd d 45 0) 46 (take 32 (private_key node))
    else memcpy d 45 (take 33 (public_key node)) in
  Some (base58_encode_check others d (hasher_base58 (deref p)) strsize).

Definition hdnode_serialize_public (node : HDNode) (fingerprint version strsize : Z) := hdnode_serialize node fingerprint version false strsize.
Definition hdnode_serialize_private (node : HDNode) (fingerprint version strsize : Z) := hdnode_serialize node fingerprint version true strsize.

(** What the call returns, the node, and *fingerprint; [None] for an unknown curve,
    whose NULL the code follows. *)
Definition hdnode_deserialize (str : list Z) (version : Z) (use_private : bool) (name : option string) (fingerprint : Z) :
    option (Z * HDNode * Z) :=
  p ← get_curve_by_name name;
  let node := MkNode 0 0 0 (zrep 8 0) (zrep 32 0) (zrep 32 0) (zrep 32 0) (zrep 33 0) (Some p) in
  '(d, n) ← base58_decode_check others str (hasher_base58 (deref p)) 78;
  if negb (n =? 78) then Some (-1, node, fingerprint)
  else if negb (be_val (slice d 0 4) =? version) then Some (-3, node, fingerprint)
  else if use_private && negb (znth 0 d 45 =? 0) then Some (-2, node, fingerprint)
  else
    let '(priv, pub) := if use_private then (slice d 46 32, zrep 33 0) else (zrep 32 0, slice d 45 33) in
    Some (0, MkNode (znth 0 d 4) (be_val (slice d 9 4)) 0 (zrep 8 0) (slice d 13 32) priv (zrep 32 0) pub (Some p),
          be_val (slice d 5 4)).

Definition hdnode_deserialize_public (str : list Z) (version : Z) (name : option string) (fingerprint : Z) :=
  hdnode_deserialize str version false name fingerprint.
Definition hdnode_deserialize_private (str : list Z) (version : Z) (name : option string) (fingerprint : Z) :=
  hdnode_deserialize str version true name fingerprint.

(** ** Addresses, signatures and shared keys of a node *)

Definition hdnode_get_address_raw (words : list Z) (node : HDNode) (version : Z) (addr_raw : list Z) :
    option (Z * HDNode * list Z * list Z) :=
  '(r, node, words) ← hdnode_fill_public_key words node;
  if negb (r =? 0) then Some (1, node, addr_raw, words)
  else
    p ← curve node;
    Some (0, node, ecdsa_get_address_raw others (public_key node) version (hasher_pubkey (deref p)) addr_raw, words).

Definition hdnode_get_address (words : list Z) (node : HDNode) (version addrsize : Z) : option (Z * HDNode * list Z * list Z) :=
  '(r, node, words) ← hdnode_fill_public_key words node;
  if negb (r =? 0) then Some (1, node, [], words)
  else
    p ← curve node;
    Some (0, node, ecdsa_get_address others (public_key node) version (hasher_pubkey (deref p)) (hasher_base58 (deref p)) addrsize, words).

(** The address of a child; the refusal of a hardened index is not looked at. *)
Definition hdnode_public_ckd_address_optimized (turns : nat) (words : list Z) (pub : curve_point) (chain : list Z) (i version : Z)
    (pubkey_hasher base58_hasher : HasherType) (addrsize addrformat : Z) : option (list Z * list Z) :=
  '(_, b, _, words) ← hdnode_public_ckd_cp turns words secp256k1 pub chain i zero_point [];
  let child_pubkey := zupd (zrep 33 0) 0 (0x02 .| (limb (cy b) 0 .& 0x01)) in
  let child_pubkey := write_bn (cx b) child_pubkey 1 in
  Some (if addrformat =? 1 then ecdsa_get_address_segwit_p2sh others child_pubkey version pubkey_hasher base58_hasher addrsize
        else ecdsa_get_address others child_pubkey version pubkey_hasher base58_hasher addrsize, words).

(** What the call returns, the signature, *pby and the words. *)
Definition hdnode_sign (words : list Z) (node : HDNode) (msg : list Z) (sign_hasher : HasherType) (sig : list Z) (pby : Z)
    (is_canonical : option (Z -> list Z -> Z)) : option (Z * list Z * Z * list Z) :=
  p ← curve node;
  match params (deref p) with
  | Some c => ecdsa_sign others (tables c) words c sign_hasher (private_key node) msg sig pby is_canonical
  | None =>
      match p with
      | To_ed25519 => Some (0, memcpy sig 0 (ed25519_sign ed msg (private_key node)), pby, words)
      | To_sha3 => Some (0, memcpy sig 0 (ed25519_sign_sha3 ed msg (private_key node)), pby, words)
      | To_keccak => Some (0, memcpy sig 0 (ed25519_sign_keccak ed msg (private_key node)), pby, words)
      | _ => Some (1, sig, pby, words)
      end
  end.

Definition hdnode_sign_digest (words : list Z) (node : HDNode) (digest sig : list Z) (pby : Z)
    (is_canonical : option (Z -> list Z -> Z)) : option (Z * list Z * Z * list Z) :=
  p ← curve node;
  match params (deref p) with
  | Some c => ecdsa_sign_digest (tables c) words c (private_key node) digest sig pby is_canonical
  | None =>
      if bool_decide (p = To_curve25519) then Some (1, sig, pby, words)
      else hdnode_sign words node (take 32 digest) HASHER_SHA2 sig pby is_canonical
  end.

(** What the call returns, the session key, *result_size and the words. *)
Definition hdnode_get_shared_key (words : list Z) (node : HDNode) (peer session : list Z) (result_size : Z) :
    option (Z * list Z * Z * list Z) :=
  p ← curve node;
  match params (deref p) with
  | Some c =>
      '(r, session, words) ← ecdh_multiply words c (private_key node) peer session;
      if negb (r =? 0) then Some (1, session, result_size, words) else Some (0, session, 65, words)
  | None =>
      if bool_decide (p = To_curve25519) then
        let session := zupd session 0 0x04 in
        if negb (znth 0 peer 0 =? 0x40) then Some (1, session, result_size, words)
        else Some (0, memcpy session 1 (curve25519_scalarmult ed (private_key node) (slice peer 1 32)), 33, words)
      else Some (1, session, 0, words)
  end.

End Derivation.
End Bip32.
