(* ===== verification/Bip32Spec.v ===== *)
(** * Correctness of the derivation of keys

    The rule of BIP-32 with the retry of the code (a digest that gives no valid
    key is replaced by the digest of its second half) as one function of the
    parent's number, [child_scalar].  Private derivation computes it on numbers,
    public derivation on points; the two agree. *)

From stdpp Require Import base list numbers strings.
From Stdlib Require Import ZArith Lia.
From Stdlib Require Import Zdivisibility ZmodDef ZmodBase ZmodInv.
From S2P Require Import Prelude Bits Hash HashSpec Sha2 Hmac Bignum Curves BignumSpec BignumBits BignumConv BignumInverse Ecdsa EcdsaSig.
From S2P Require Import EcGroup EcField EcCurve EcCofactor EcdsaPoint EcdsaMul EcTable EcParams EcdsaScalar EcdsaKeys.
From S2P Require Import Hasher Base58 Bip32.
Local Open Scope fw_scope.

Module Bip32Spec.
Import Hash HashSpec Sha2 Hmac Bignum Curves BignumSpec BignumBits BignumConv BignumInverse Ecdsa EcdsaSig.
Import EcField EcCurve EcCofactor EcdsaPoint EcdsaMul EcTable EcParams EcdsaScalar EcdsaKeys Hasher Bip32.

(** ** Digests *)

Lemma sha512_Transform_length st ws : length (sha512_Transform st ws) = 8%nat.
Proof. unfold sha512_Transform, sha2_Transform. destruct (sha2_load_loop _ _ _ _ _ _ _ _). reflexivity. Qed.

Lemma hmac_bytes key m : bytes_n 64 (hmac_sha512 key m).
Proof.
  split; [exact (bytes_of_byte 8 _)|]. exact (hash_Final_length sha512_alg 8 _ sha512_Transform_length).
Qed.

Lemma hmac_chain_eq chain data : hmac_chain chain data = hmac_sha512 (take 32 chain) data.
Proof. reflexivity. Qed.

Local Opaque hmac_sha512.

Section Derive.
Variable c : ecdsa_curve.
Context {OK : CurveOk c}.
Local Abbreviation N := (cN c).
Variable g : @point (Zmod (cP c)).
Hypothesis Hg : stands_for c (G c) g.
Hypothesis Hg0 : g <> Infinity.
Variable tables : ecdsa_curve -> option (list (list curve_point)).
Hypothesis Htab : table_ok c (tables c) g.

Local Abbreviation times k := (ec_times c k g).

Lemma order_range : 2 ^ 256 - 2 ^ 224 <= N < 2 ^ 256.
Proof. apply (prime_bounds (p := order c)). Qed.

(** The number of the child and the digest it comes from. *)
Fixpoint child_scalar (turns : nat) (chain : list Z) (a : Z) (data : list Z) : option (Z * list Z) :=
  match turns with
  | O => None
  | S turns =>
      let I := hmac_sha512 (take 32 chain) data in
      let b := be_val (take 32 I) in
      if (b <? N) && negb ((b + a) mod N =? 0) then Some ((b + a) mod N, I)
      else child_scalar turns chain a (next_data data I)
  end.

Lemma child_scalar_range turns : forall chain a data k I, child_scalar turns chain a data = Some (k, I) ->
  0 < k < N /\ bytes_n 64 I.
Proof.
  pose proof order_range. induction turns as [|turns IH]; intros chain a data k I E; [discriminate|]. cbn [child_scalar] in E.
  destruct (_ && _) eqn:Ec; [|by apply IH in E]. injection E as <- <-. apply andb_true_iff in Ec as [_ Ec]. apply negb_true_iff, Z.eqb_neq in Ec.
  split; [|apply hmac_bytes]. pose proof (Z.mod_pos_bound (be_val (take 32 (hmac_sha512 (take 32 chain) data)) + a) N ltac:(lia)). lia.
Qed.

(** The first half of a digest as a number. *)
Lemma left_half I : bytes_n 64 I -> normalized (read_bn I 0) /\ bn_val (read_bn I 0) = be_val (take 32 I) /\ 0 <= be_val (take 32 I) < 2 ^ 256.
Proof.
  intros HI. destruct (read_bn_ok 64 I 0 HI) as (Hn & Hv & Hr); [lia|lia|]. rewrite Hv in Hr. unfold slice in Hv, Hr. rewrite drop_0 in Hv, Hr.
  split; [exact Hn|]. split; [exact Hv|exact Hr].
Qed.

(** ** Private derivation *)

Lemma private_step b a : normalized b -> normalized a -> bn_val b < N -> bn_val a < N ->
  exists r, bn_mod (bn_add b a) (order c) = Some r /\ normalized r /\ bn_val r = (bn_val b + bn_val a) mod N.
Proof.
  intros Nb Na Hb Ha. pose proof order_range. pose proof (normalized_range b Nb). pose proof (normalized_range a Na).
  destruct (bn_add_val b a Nb Na) as [Ns Vs]. rewrite Z.mod_small in Vs by lia.
  destruct (bn_mod_val (bn_add b a) (order c) Ns (proj1 (ok_order c))) as (r & E & Nr & Vr). exists r. split; [exact E|]. split; [exact Nr|].
  rewrite Vr, Vs. fold (cN c). destruct (Z.ltb_spec (bn_val b + bn_val a) N); [rewrite Z.mod_small; lia|]. apply (Z.mod_unique_pos _ _ 1); lia.
Qed.

Lemma private_loop_ok turns : forall chain a data priv, normalized a -> bn_val a < N -> length priv = 32%nat ->
  private_loop turns c chain a data (hmac_chain chain data) priv =
    match child_scalar turns chain (bn_val a) data with Some (k, h) => Some (be_bytes 32 k, h) | None => None end.
Proof.
  pose proof order_range. induction turns as [|turns IH]; intros chain a data priv Na Ha Hl; [reflexivity|].
  cbn [private_loop child_scalar]. rewrite hmac_chain_eq. set (I := hmac_sha512 (take 32 chain) data).
  destruct (left_half I (hmac_bytes _ _)) as (Nb & Vb & Rb). rewrite bn_is_less_val, truth_b2z, Vb by (exact Nb || apply (ok_order c)). fold (cN c).
  destruct (Z.ltb_spec (be_val (take 32 I)) N) as [Hlt|Hge]; cbn [negb andb].
  - destruct (private_step (read_bn I 0) a Nb Na ltac:(lia) Ha) as (r & Er & Nr & Vr). rewrite Vb in Vr. rewrite (bind_is _ _ _ Er). cbv beta. cbn [mbind option_bind].
    rewrite bn_is_zero_val, truth_b2z, Vr by exact Nr. destruct (Z.eqb_spec ((be_val (take 32 I) + bn_val a) mod N) 0) as [E0|E0]; cbn [negb].
    + apply IH; assumption.
    + do 2 f_equal. pose proof (Z.mod_pos_bound (be_val (take 32 I) + bn_val a) N ltac:(lia)).
      rewrite write_bn_ok; [|exact Nr|lia|lia|unfold zlen; rewrite Hl; lia]. rewrite Vr. change (Z.to_nat (0 + 32)) with 32%nat.
      rewrite drop_ge by lia. by rewrite app_nil_r.
  - cbn [mbind option_bind]. apply IH; assumption.
Qed.

(** ** Public derivation *)

Lemma sum_point a b q r : 0 <= a -> 0 <= b -> stands_for c q (times a) -> stands_for c r (times b) ->
  exists s, point_add c q r = Some s /\ stands_for c s (times ((b + a) mod N)) /\
  point_is_infinity s = ((b + a) mod N =? 0).
Proof.
  intros Ha Hb Hq Hr. pose proof order_range. assert (Hc : on_curve c g) by apply (stands_on_curve c _ _ Hg).
  destruct (point_add_ok c q r _ _ Hq Hr) as (s & E & Hs). exists s. split; [exact E|].
  rewrite <- (ec_times_add c a b g Hc), Z.add_comm, <- (ec_times_mod c N (b + a) g Hc ltac:(lia) (ec_order_all c g Hc)) in Hs. split; [exact Hs|].
  rewrite (is_infinity_ok c _ _ Hs). pose proof (Z.mod_pos_bound (b + a) N ltac:(lia)) as R. destruct (Z.eqb_spec ((b + a) mod N) 0) as [->|Hne].
  - apply bool_decide_eq_true_2. reflexivity.
  - apply bool_decide_eq_false_2. apply (times_nz c); [exact Hc|exact Hg0|lia].
Qed.

Lemma public_loop_ok turns : forall chain a parent data child words, 0 <= a < N -> stands_for c parent (times a) -> supplies c turns words ->
  match child_scalar turns chain a data with
  | Some (k, h) => exists r rest, public_loop tables turns words c parent chain data child = Some (r, h, rest) /\ stands_for c r (times k)
  | None => public_loop tables turns words c parent chain data child = None
  end.
Proof.
  pose proof order_range. induction turns as [|turns IH]; intros chain a parent data child words Ha Hp Hw; [reflexivity|].
  cbn [public_loop child_scalar]. set (I := hmac_sha512 (take 32 chain) data). destruct (left_half I (hmac_bytes _ _)) as (Nb & Vb & Rb).
  rewrite bn_is_less_val, truth_b2z, Vb by (exact Nb || apply (ok_order c)). fold (cN c).
  destruct (Z.ltb_spec (be_val (take 32 I)) N) as [Hlt|Hge]; cbn [andb].
  - destruct (scalar_multiply_ok c (tables c) words g (read_bn I 0) child turns Hg Hg0 Htab Nb Hw) as (r & rest & Er & Hs & HR & _).
    rewrite Vb in HR, Er. rewrite (bind_is _ _ _ Er). cbv beta iota.
    destruct (sum_point a (be_val (take 32 I)) parent r ltac:(lia) ltac:(lia) Hp (HR Hlt)) as (s & Es & Ss & Is).
    rewrite (bind_is _ _ _ Es). cbv beta. cbn [mbind option_bind]. rewrite Is. destruct (Z.eqb_spec ((be_val (take 32 I) + a) mod N) 0) as [E0|E0]; cbn [negb].
    + apply IH; assumption.
    + exists s, rest. split; [reflexivity|exact Ss].
  - cbn [mbind option_bind]. apply IH; [assumption..|]. by apply supplies_less.
Qed.

(** ** Nodes *)

(** A node with the private key [k], whose public key is missing or right. *)
Record hd_ok (node : HDNode) (k : Z) : Prop := {
  hd_curve : exists p, curve node = Some p /\ params (deref p) = Some c;
  hd_valid : valid_key c (private_key node);
  hd_key : be_val (private_key node) = k;
  hd_length : length (public_key node) = 33%nat;
  hd_public : znth 0 (public_key node) 0 = 0 \/ public_key node = enc33 c (times k) }.

(** A node with the public key of [k]. *)
Record pub_ok (node : HDNode) (k : Z) : Prop := {
  pub_curve : exists p, curve node = Some p /\ params (deref p) = Some c;
  pub_range : 0 < k < N;
  pub_key : public_key node = enc33 c (times k) }.

Lemma g_on : on_curve c g.
Proof. exact (stands_on_curve c _ _ Hg). Qed.

Lemma hd_range node k : hd_ok node k -> 0 < k < N.
Proof. intros H. rewrite <- (hd_key _ _ H). apply (hd_valid _ _ H). Qed.

Lemma times_point k : 0 < k < N -> on_curve c (times k) /\ times k <> Infinity.
Proof. intros Hk. split; [apply (ec_times_on_curve c), g_on|]. apply (times_nz c); [exact g_on|exact Hg0|exact Hk]. Qed.

Lemma enc33_shape u : u <> Infinity -> length (enc33 c u) = 33%nat /\ znth 0 (enc33 c u) 0 <> 0.
Proof.
  intros Hu. destruct u as [|x y]; [done|]. cbn [enc33]. split; [cbn [length]; by rewrite length_be_bytes|].
  change (znth 0 (?h :: ?l) 0) with h. by destruct (Z.odd _).
Qed.

Section Nodes.
Context (ed : ed_keys).

Lemma fill_ok node k words n : hd_ok node k -> supplies c (S n) words ->
  exists rest, hdnode_fill_public_key ed tables words node = Some (0, set_public_key (enc33 c (times k)) node, rest) /\ supplies c n rest.
Proof.
  intros H Hw. unfold hdnode_fill_public_key. destruct (times_point k (hd_range _ _ H)) as [_ Hu].
  destruct (Z.eqb_spec (znth 0 (public_key node) 0) 0) as [E|E]; cbn [negb].
  - destruct (hd_curve _ _ H) as (p & Ep & Eq). rewrite Ep. cbn [mbind option_bind]. rewrite Eq.
    destruct (get33_ok c g Hg Hg0 (tables c) Htab (private_key node) (public_key node) words n (hd_valid _ _ H) Hw) as (rest & Er & Hs).
    { unfold zlen. by rewrite (hd_length _ _ H). }
    rewrite (hd_key _ _ H) in Er. exists rest. rewrite (bind_is _ _ _ Er). cbv beta iota. cbn [Z.eqb negb]. split; [reflexivity|exact Hs].
  - destruct (hd_public _ _ H) as [H0|<-]; [done|]. exists words. split; [by destruct node|]. by apply supplies_less.
Qed.

(** Derivation with a hardened index needs the private key. *)
Definition hardened (i : Z) : bool := negb (i .& 0x80000000 =? 0).

(** The message of the digest. *)
Definition ckd_data (priv : list Z) (k i : Z) : list Z :=
  (if hardened i then 0 :: priv else enc33 c (times k)) ++ be_bytes 4 i.

Lemma put_index (l : list Z) i : length l = 33%nat -> memcpy (l ++ zrep 4 0) 33 (be_bytes 4 i) = l ++ be_bytes 4 i.
Proof.
  intros Hl. unfold memcpy. rewrite length_be_bytes. rewrite <- Hl at 1. rewrite take_app_length, drop_ge; [by rewrite app_nil_r|].
  rewrite length_app, Hl. reflexivity.
Qed.

Lemma put_private priv : length priv = 32%nat -> memcpy (zupd (zrep (1 + 32 + 4) 0) 0 0) 1 (take 32 priv) = (0 :: priv) ++ zrep 4 0.
Proof. intros Hl. rewrite take_ge by lia. unfold memcpy. rewrite Hl. reflexivity. Qed.

Lemma put_public (pk : list Z) : length pk = 33%nat -> memcpy (zrep (1 + 32 + 4) 0) 0 (take 33 pk) = pk ++ zrep 4 0.
Proof. intros Hl. rewrite take_ge by lia. unfold memcpy. rewrite Hl. reflexivity. Qed.

(** Private derivation, whatever the random words. *)
Lemma private_ckd_ok turns node k i words n : hd_ok node k -> supplies c (S n) words ->
  exists rest, supplies c n rest /\ hdnode_private_ckd ed tables turns words node i =
    match child_scalar turns (chain_code node) k (ckd_data (private_key node) k i) with
    | Some (k', h) => Some (1, derived node i (slice h 32 32) (be_bytes 32 k') (zrep 33 0), rest)
    | None => None
    end.
Proof.
  intros H Hw. destruct (hd_curve _ _ H) as (p & Ep & Eq). pose proof (hd_valid _ _ H) as [[Bp Lp] Vr].
  destruct (times_point k (hd_range _ _ H)) as [_ Hu]. destruct (enc33_shape _ Hu) as [Le _].
  destruct (read_key (private_key node) (conj Bp Lp)) as [Na Va]. rewrite (hd_key _ _ H) in Va.
  assert (Hloop : forall nd data (rest : list Z), chain_code nd = chain_code node -> private_key nd = private_key node -> derived nd = derived node ->
    ('(priv, I_) ← private_loop turns c (chain_code nd) (read_bn (private_key nd) 0) data (hmac_chain (chain_code nd) data) (private_key nd);
     Some (1, derived nd i (slice I_ 32 32) priv (zrep 33 0), rest)) =
    match child_scalar turns (chain_code node) k data with
    | Some (k', h) => Some (1, derived node i (slice h 32 32) (be_bytes 32 k') (zrep 33 0), rest) | None => None end).
  { intros nd data rest Ec Ek Ed. rewrite Ec, Ek, Ed, private_loop_ok by (assumption || (rewrite Va; apply (hd_range _ _ H))). rewrite Va.
    by destruct (child_scalar _ _ _ _) as [[k' h]|]. }
  unfold hdnode_private_ckd, hdnode_private_ckd_bip32. rewrite Ep. cbn [mbind option_bind]. rewrite Eq. fold (hardened i). unfold ckd_data.
  destruct (hardened i).
  - exists words. split; [by apply supplies_less|]. cbn [mbind option_bind]. rewrite (put_private _ Lp), put_index by (cbn [length]; lia).
    apply Hloop; reflexivity.
  - destruct (fill_ok node k words n H Hw) as (rest & Ef & Hs). exists rest. split; [exact Hs|]. rewrite (bind_is _ _ _ Ef). cbv beta iota.
    cbn [mbind option_bind Z.eqb negb public_key set_public_key]. rewrite (put_public _ Le), put_index by exact Le. apply Hloop; reflexivity.
Qed.

Lemma child_ok turns chain node k i data k' h chain' : hd_ok node k -> child_scalar turns chain k data = Some (k', h) ->
  hd_ok (derived node i chain' (be_bytes 32 k') (zrep 33 0)) k'.
Proof.
  intros H E. destruct (child_scalar_range turns chain k data k' h E) as [Rk _]. pose proof order_range.
  assert (Ev : be_val (be_bytes 32 k') = k') by (apply be_val_be_bytes; change (256 ^ Z.of_nat 32) with (2 ^ 256); lia).
  constructor; cbn [curve private_key public_key derived]; [apply (hd_curve _ _ H)| |exact Ev|reflexivity|left; reflexivity].
  split; [apply be_bytes_n|]. rewrite Ev. exact Rk.
Qed.

(** ** Public derivation of nodes *)

Lemma parity_prefix q u : stands_for c q u -> u <> Infinity -> 0x02 .| (limb (cy q) 0 .& 0x01) = if Z.odd (bn_val (cy q)) then 0x03 else 0x02.
Proof. intros [|x y Hx Hy _] Hu; [done|]. rewrite low_bit by apply Hy. by destruct (Z.odd _). Qed.

Lemma public_data q u i : stands_for c q u -> u <> Infinity ->
  memcpy (write_bn (cx q) (zupd (zrep ((1 + 32) + 4) 0) 0 (0x02 .| (limb (cy q) 0 .& 0x01))) 1) 33 (be_bytes 4 i) = enc33 c u ++ be_bytes 4 i.
Proof.
  intros Hq Hu. destruct (enc33_shape u Hu) as [Le _]. rewrite (parity_prefix q u Hq Hu).
  destruct Hq as [|x y Hx Hy _]; [done|]. rewrite (coord_write c (cx q) x) by (exact Hx || (vm_compute; discriminate)).
  rewrite (repr_1_val _ _ Hy). cbn [enc33] in Le |- *. rewrite <- put_index by exact Le. f_equal.
Qed.

Lemma public_ckd_ok turns node k i words : pub_ok node k -> hardened i = false -> supplies c turns words ->
  match child_scalar turns (chain_code node) k (enc33 c (times k) ++ be_bytes 4 i) with
  | Some (k', h) => exists rest, hdnode_public_ckd tables turns words node i =
      Some (1, derived node i (slice h 32 32) (zrep 32 0) (enc33 c (times k')), rest)
  | None => hdnode_public_ckd tables turns words node i = None
  end.
Proof.
  intros H Hi Hw. destruct (pub_curve _ _ H) as (p & Ep & Eq). destruct (times_point k (pub_range _ _ H)) as [Hc Hu].
  destruct (encodes_enc c _ Hc Hu) as [_ He]. destruct (read_encoded c _ _ zero_point He) as (q & Eread & Hq).
  assert (Ecp : hdnode_public_ckd tables turns words node i =
    ('(child, h, words) ← public_loop tables turns words c q (chain_code node) (enc33 c (times k) ++ be_bytes 4 i) zero_point;
     let pk := zupd (public_key node) 0 (0x02 .| (limb (cy child) 0 .& 0x01)) in
     Some (1, derived node i (slice h 32 32) (zrep 32 0) (write_bn (cx child) pk 1), words))).
  { unfold hdnode_public_ckd. rewrite Ep. cbn [mbind option_bind]. rewrite Eq, (pub_key _ _ H), (bind_is _ _ _ Eread). cbv beta iota. cbn [Z.eqb].
    cbn [mbind option_bind]. unfold hdnode_public_ckd_cp. fold (hardened i). rewrite Hi. cbv zeta. rewrite (public_data q _ i Hq Hu).
    destruct (public_loop _ _ _ _ _ _ _ _) as [[[child h] rest]|]; reflexivity. }
  pose proof (public_loop_ok turns (chain_code node) k q (enc33 c (times k) ++ be_bytes 4 i) zero_point words ltac:(pose proof (pub_range _ _ H); lia) Hq Hw) as Hl.
  destruct (child_scalar turns (chain_code node) k _) as [[k' h]|] eqn:Es.
  - destruct Hl as (r & rest & El & Hr). exists rest. rewrite Ecp, El. cbn [mbind option_bind]. cbv zeta.
    destruct (child_scalar_range _ _ _ _ _ _ Es) as [Rk _]. destruct (times_point k' Rk) as [_ Hu']. destruct (enc33_shape _ Hu) as [Le _].
    rewrite (write_compressed_ok c r _ _ (public_key node) Hr Hu'); [reflexivity| |by apply (parity_prefix r (times k'))].
    rewrite (pub_key _ _ H). unfold zlen. by rewrite Le.
  - by rewrite Ecp, Hl.
Qed.

Lemma public_ckd_hardened turns node k i words : pub_ok node k -> hardened i = true ->
  hdnode_public_ckd tables turns words node i = Some (0, node, words).
Proof.
  intros H Hi. destruct (pub_curve _ _ H) as (p & Ep & Eq). destruct (times_point k (pub_range _ _ H)) as [Hc Hu].
  destruct (encodes_enc c _ Hc Hu) as [_ He]. destruct (read_encoded c _ _ zero_point He) as (q & Eread & Hq).
  unfold hdnode_public_ckd. rewrite Ep. cbn [mbind option_bind]. rewrite Eq, (pub_key _ _ H), (bind_is _ _ _ Eread). cbv beta iota. cbn [Z.eqb].
  cbn [mbind option_bind]. unfold hdnode_public_ckd_cp. fold (hardened i). by rewrite Hi.
Qed.

End Nodes.
End Derive.

(** ** The properties *)

(** C13: Private and public derivation agree.  For a node with a private key [k]
    and a node with its public key, and any number of turns of the retry loops:
    hdnode_private_ckd returns 1 with the key k' = (b + k) mod N of the rule of
    BIP-32, and the second half of the digest as chain code, or both derivations
    have no digest that gives a key within the turns.  For an index that is not
    hardened, hdnode_public_ckd returns the public key of k', the one
    hdnode_fill_public_key computes for the private child, with the same chain
    code, depth and number, and no private key; a hardened index it refuses with 0,
    leaving the node alone.  The random words that blind the multiplications make
    no difference, and no assertion of the number library fails. *)
Theorem ckd_agreement c `{!CurveOk c} g tables ed turns node pub k i words words' n :
  stands_for c (G c) g -> g <> Infinity -> table_ok c (tables c) g ->
  hd_ok c g node k -> pub_ok c g pub k -> chain_code pub = chain_code node -> depth pub = depth node ->
  supplies c (S (S n)) words -> supplies c turns words' ->
  match child_scalar c turns (chain_code node) k (ckd_data c g (private_key node) k i) with
  | None => hdnode_private_ckd ed tables turns words node i = None /\
            (hardened i = false -> hdnode_public_ckd tables turns words' pub i = None)
  | Some (k', h) => exists child rest,
      hdnode_private_ckd ed tables turns words node i = Some (1, child, rest) /\ hd_ok c g child k' /\
      chain_code child = slice h 32 32 /\ child_num child = i /\
      (hardened i = false -> exists pubchild filled rest1 rest2,
        hdnode_public_ckd tables turns words' pub i = Some (1, pubchild, rest1) /\ pub_ok c g pubchild k' /\
        hdnode_fill_public_key ed tables rest child = Some (0, filled, rest2) /\ public_key filled = public_key pubchild /\
        chain_code pubchild = chain_code child /\ depth pubchild = depth child /\ child_num pubchild = i /\
        private_key pubchild = zrep 32 0)
  end /\
  (hardened i = true -> hdnode_public_ckd tables turns words' pub i = Some (0, pub, words')).
Proof.
  intros Hg Hg0 Ht Hn Hp Ec Ed Hw Hw'. split; [|intros Hi; exact (public_ckd_hardened c g Hg Hg0 tables turns pub k i words' Hp Hi)].
  destruct (private_ckd_ok c g Hg Hg0 tables Ht ed turns node k i words (S n) Hn Hw) as (rest & Hs & Epriv).
  assert (Hpub : hardened i = false -> _) by (intros Hi; exact (public_ckd_ok c g Hg Hg0 tables Ht turns pub k i words' Hp Hi Hw')).
  assert (Edata : hardened i = false -> ckd_data c g (private_key node) k i = enc33 c (ec_times c k g) ++ be_bytes 4 i) by (intros Hi; unfold ckd_data; by rewrite Hi).
  rewrite Ec in Hpub. destruct (child_scalar c turns (chain_code node) k (ckd_data c g (private_key node) k i)) as [[k' h]|] eqn:Es.
  - pose proof (child_ok c g turns _ node k i _ k' h (slice h 32 32) Hn Es) as Hc. exists (derived node i (slice h 32 32) (be_bytes 32 k') (zrep 33 0)), rest.
    split; [exact Epriv|]. split; [exact Hc|]. split; [reflexivity|]. split; [reflexivity|]. intros Hi. specialize (Hpub Hi). rewrite <- (Edata Hi), Es in Hpub.
    destruct Hpub as (rest1 & Epub). destruct (fill_ok c g Hg Hg0 tables Ht ed _ k' rest n Hc Hs) as (rest2 & Ef & _).
    do 4 eexists. split; [exact Epub|]. split; [constructor; [exact (pub_curve _ _ _ _ Hp)|exact (hd_range _ _ _ _ Hc)|reflexivity]|].
    split; [exact Ef|]. cbn [public_key chain_code depth child_num private_key derived set_public_key]. rewrite Ed. repeat (split; [reflexivity|]). reflexivity.
  - split; [exact Epriv|]. intros Hi. specialize (Hpub Hi). rewrite <- (Edata Hi), Es in Hpub. exact Hpub.
Qed.

(** Nodes for the examples: the private key 2016 and its public key. *)
Definition demo_tables (c : ecdsa_curve) : option (list (list curve_point)) := Some secp256k1_cp.
Definition demo_ed : ed_keys := 
  EdKeys (fun k => k) (fun k => k) (fun k => k) (fun k => k) (fun m _ => m) (fun m _ => m) (fun m _ => m) (fun k _ => k).
Definition demo_node : HDNode := MkNode 2 7 0 (zrep 8 0) (zrep 32 9) demo_key (zrep 32 0) (zrep 33 0) (Some To_secp256k1).
Definition demo_pub : HDNode :=
  MkNode 2 7 0 (zrep 8 0) (zrep 32 9) (zrep 32 0) (zrep 32 0) (enc33 secp256k1 (ec_times secp256k1 2016 secp256k1_g)) (Some To_secp256k1).

Lemma demo_node_ok : hd_ok secp256k1 secp256k1_g demo_node 2016.
Proof.
  constructor; [exists To_secp256k1; split; reflexivity|exact demo_key_valid|vm_compute; reflexivity|reflexivity|left; reflexivity].
Qed.

Lemma demo_pub_ok : pub_ok secp256k1 secp256k1_g demo_pub 2016.
Proof. constructor; [exists To_secp256k1; split; reflexivity|split; vm_compute; reflexivity|reflexivity]. Qed.

Lemma demo_same : chain_code demo_pub = chain_code demo_node /\ depth demo_pub = depth demo_node.
Proof. exact (conj (eq_refl (zrep 32 9)) (eq_refl 2)). Qed.
Lemma demo_g : secp256k1_g <> Infinity.
Proof. discriminate. Qed.
Lemma demo_index : hardened 5 = false /\ hardened 0x80000005 = true.
Proof. split; reflexivity. Qed.

Lemma ckd_agreement_witness :
  (hdnode_private_ckd demo_ed demo_tables 1 (plenty 2) demo_node 5 = None <-> hdnode_public_ckd demo_tables 1 (plenty 1) demo_pub 5 = None) /\
  hdnode_public_ckd demo_tables 1 (plenty 1) demo_pub 0x80000005 = Some (0, demo_pub, plenty 1).
Proof.
  pose proof (fun i => ckd_agreement secp256k1 secp256k1_g demo_tables demo_ed 1 demo_node demo_pub 2016 i (plenty 2) (plenty 1) 0
    secp256k1_G demo_g secp256k1_table demo_node_ok demo_pub_ok (proj1 demo_same) (proj2 demo_same)
    (plenty_supplies secp256k1 2) (plenty_supplies secp256k1 1)) as H.
  destruct (H 5) as [H5 _]. destruct (H 0x80000005) as [_ Hh]. split; [|exact (Hh (proj2 demo_index))]. clear H Hh.
  destruct (child_scalar secp256k1 1 (chain_code demo_node) 2016 (ckd_data secp256k1 secp256k1_g (private_key demo_node) 2016 5)) as [[k' h]|].
  - destruct H5 as (child & rest & E & _ & _ & _ & Hp). destruct (Hp (proj1 demo_index)) as (pc & f & r1 & r2 & E' & _).
    split; intros E0; [pose proof (eq_trans (eq_sym E) E0) as X|pose proof (eq_trans (eq_sym E') E0) as X]; discriminate X.
  - destruct H5 as [E Hp]. split; intros _; [exact (Hp (proj1 demo_index))|exact E].
Defined.

End Bip32Spec.
