(* ===== verification/Bip32Cache.v ===== *)
(** * The cache of derived parents, and extended keys as strings

    [path_node] is the node a path leads to, without cache and random words.  The
    invariant of the cache says that each of its entries is the node its path
    leads to from the root; a call with the cache then returns what the
    derivation without it returns.  The second part is the Base58 form of extended
    keys. *)

From stdpp Require Import base list numbers strings.
From Stdlib Require Import ZArith Lia.
From Stdlib Require Import Zdivisibility ZmodDef ZmodBase ZmodInv.
From S2P Require Import Prelude Bits Hash HashSpec Sha2 Hmac Bignum Curves BignumSpec BignumBits BignumConv BignumInverse Ecdsa EcdsaSig.
From S2P Require Import EcGroup EcField EcCurve EcCofactor EcdsaPoint EcdsaMul EcTable EcParams EcdsaScalar EcdsaKeys.
From S2P Require Import Hasher Base58 Base58Spec Bip32 Bip32Spec.
Local Open Scope fw_scope.

Module Bip32Cache.
Import Hash HashSpec Hmac Bignum Curves BignumSpec Ecdsa EcdsaSig.
Import EcField EcCurve EcdsaPoint EcTable EcParams EcdsaScalar EcdsaKeys Hasher Base58 Base58Spec Bip32 Bip32Spec.

Local Opaque hmac_sha512.

Section Cache.
Variable c : ecdsa_curve.
Context {OK : CurveOk c}.
Variable g : @point (Zmod (cP c)).
Hypothesis Hg : stands_for c (G c) g.
Hypothesis Hg0 : g <> Infinity.
Variable tables : ecdsa_curve -> option (list (list curve_point)).
Hypothesis Htab : table_ok c (tables c) g.
Context (others : other_digests) (ed : ed_keys) (turns : nat).

Local Abbreviation hd_ok := (hd_ok c g).
Local Abbreviation times k := (ec_times c k g).

(** One step, and a path. *)
Definition step_node (node : HDNode) (k i : Z) : option (HDNode * Z) :=
  match child_scalar c turns (chain_code node) k (ckd_data c g (private_key node) k i) with
  | Some (k', h) => Some (derived node i (slice h 32 32) (be_bytes 32 k') (zrep 33 0), k')
  | None => None
  end.

Fixpoint path_node (node : HDNode) (k : Z) (path : list Z) : option (HDNode * Z) :=
  match path with
  | [] => Some (node, k)
  | i :: path => '(node, k) ← step_node node k i; path_node node k path
  end.

Lemma path_node_app node k p q : path_node node k (p ++ q) = ('(node, k) ← path_node node k p; path_node node k q).
Proof.
  revert node k. induction p as [|i p IH]; intros node k; [reflexivity|]. cbn [app path_node].
  destruct (step_node node k i) as [[nd k']|]; [apply IH|reflexivity].
Qed.

Lemma step_ok node k i nd k' : hd_ok node k -> step_node node k i = Some (nd, k') -> hd_ok nd k'.
Proof.
  intros H E. unfold step_node in E. destruct (child_scalar _ _ _ _ _) as [[k2 h]|] eqn:Es; [|discriminate]. injection E as <- <-.
  exact (child_ok c g turns _ node k i _ k2 h _ H Es).
Qed.

Lemma path_ok path : forall node k nd k', hd_ok node k -> path_node node k path = Some (nd, k') -> hd_ok nd k'.
Proof.
  induction path as [|i path IH]; intros node k nd k' H E; cbn [path_node] in E; [by injection E as <- <-|].
  destruct (step_node node k i) as [[n1 k1]|] eqn:Es; [|discriminate]. exact (IH n1 k1 nd k' (step_ok _ _ _ _ _ H Es) E).
Qed.

(** The code computes them, whatever the random words. *)
Lemma ckd_step node k i words n : hd_ok node k -> supplies c (S n) words ->
  exists rest, supplies c n rest /\
  hdnode_private_ckd ed tables turns words node i = match step_node node k i with Some (nd, _) => Some (1, nd, rest) | None => None end.
Proof.
  intros H Hw. destruct (private_ckd_ok c g Hg Hg0 tables Htab ed turns node k i words n H Hw) as (rest & Hs & E). exists rest. split; [exact Hs|].
  rewrite E. unfold step_node. destruct (child_scalar _ _ _ _ _) as [[k' h]|]; reflexivity.
Qed.

Lemma derive_path_ok path : forall node k words n, hd_ok node k -> supplies c (length path + n) words ->
  exists rest, supplies c n rest /\
  derive_path ed tables turns words node path = match path_node node k path with Some (nd, _) => Some (1, nd, rest) | None => None end.
Proof.
  induction path as [|i path IH]; intros node k words n H Hw; [exists words; split; [exact Hw|reflexivity]|]. cbn [length Nat.add] in Hw.
  destruct (ckd_step node k i words _ H Hw) as (rest & Hs & E). cbn [derive_path path_node]. rewrite E. clear E Hw.
  destruct (step_node node k i) as [[nd k']|] eqn:Es; cbn [mbind option_bind].
  - cbn [Z.eqb]. exact (IH nd k' rest n (step_ok _ _ _ _ _ H Es) Hs).
  - exists rest. split; [|reflexivity]. clear -Hs. induction (length path) as [|m IHm]; [exact Hs|]. apply IHm, supplies_less, Hs.
Qed.

(** The first bytes of the hash of the public key of [k]. *)
Definition fingerprint_of (node : HDNode) (k : Z) : option Z :=
  p ← curve node;
  let digest := hasher_Raw others (hasher_pubkey (deref p)) (enc33 c (times k)) (zrep 32 0) in
  Some (u32 (u32 (Z.shiftl (znth 0 digest 0) 24) + Z.shiftl (znth 0 digest 1) 16 + Z.shiftl (znth 0 digest 2) 8 + znth 0 digest 3)).

Lemma set_public_ok node k : hd_ok node k -> hd_ok (set_public_key (enc33 c (times k)) node) k.
Proof.
  intros H. destruct (times_point c g Hg Hg0 k (hd_range _ _ _ _ H)) as [_ Hu]. destruct (enc33_shape c _ Hu) as [Le _].
  constructor; cbn [curve private_key public_key set_public_key]; [exact (hd_curve _ _ _ _ H)|exact (hd_valid _ _ _ _ H)|exact (hd_key _ _ _ _ H)|exact Le|right; reflexivity].
Qed.

Lemma fingerprint_ok node k words n : hd_ok node k -> supplies c (S n) words ->
  exists f rest, hdnode_fingerprint others ed tables words node = Some (f, set_public_key (enc33 c (times k)) node, rest) /\
  supplies c n rest /\ fingerprint_of node k = Some f.
Proof.
  intros H Hw. destruct (fill_ok c g Hg Hg0 tables Htab ed node k words n H Hw) as (rest & E & Hs). destruct (hd_curve _ _ _ _ H) as (p & Ep & _).
  destruct (times_point c g Hg Hg0 k (hd_range _ _ _ _ H)) as [_ Hu]. destruct (enc33_shape c _ Hu) as [Le _].
  unfold hdnode_fingerprint, fingerprint_of. rewrite (bind_is _ _ _ E). cbv beta iota. cbn [curve set_public_key public_key]. rewrite Ep. cbn [mbind option_bind].
  rewrite take_ge by (rewrite Le; reflexivity). eexists _, rest. split; [reflexivity|]. split; [exact Hs|reflexivity].
Qed.

Lemma last_step_ok node k i want words n : hd_ok node k -> supplies c (S (S n)) words ->
  match step_node node k i with
  | Some (nd, _) => exists rest, supplies c n rest /\
      last_step others ed tables turns words node i want = Some (1, nd, if want then fingerprint_of node k else None, rest)
  | None => last_step others ed tables turns words node i want = None
  end.
Proof.
  intros H Hw. unfold last_step. destruct want.
  - destruct (fingerprint_ok node k words (S n) H Hw) as (f & rest & E & Hs & Ef). rewrite (bind_is _ _ _ E). cbv beta iota. cbn [mbind option_bind].
    destruct (ckd_step _ k i rest n (set_public_ok _ _ H) Hs) as (rest' & Hs' & E'). rewrite E'.
    change (step_node (set_public_key (enc33 c (times k)) node) k i) with (step_node node k i).
    destruct (step_node node k i) as [[nd k']|]; [|reflexivity]. exists rest'. split; [exact Hs'|]. by rewrite Ef.
  - cbn [mbind option_bind]. destruct (ckd_step node k i words (S n) H Hw) as (rest' & Hs' & E'). rewrite E'.
    destruct (step_node node k i) as [[nd k']|]; [|reflexivity]. exists rest'. split; [by apply supplies_less|reflexivity].
Qed.

(** ** The invariant *)

Definition entry_ok (root : HDNode) (k : Z) (e : cache_entry) : Prop :=
  ce_set e = true -> exists path k', ce_depth e = zlen path /\ take (length path) (ce_i e) = path /\
    path_node root k path = Some (ce_node e, k').

Record cache_ok (cache : ckd_cache) : Prop := {
  co_index : 0 <= cache_index cache < BIP32_CACHE_SIZE;
  co_length : zlen (cache_entries cache) = BIP32_CACHE_SIZE;
  co_entries : cache_root_set cache = true -> forall k, hd_ok (cache_root cache) k -> Forall (entry_ok (cache_root cache) k) (cache_entries cache) }.

Lemma empty_ok b root : cache_ok (MkCache b root 0 (zrep BIP32_CACHE_SIZE zero_entry)).
Proof.
  constructor; cbn [cache_index cache_entries]; [unfold BIP32_CACHE_SIZE; lia|reflexivity|]. intros _ k _. apply Forall_zrep. intros E. discriminate E.
Qed.

Lemma find_parent_ok entries path cv root k nd : Forall (entry_ok root k) entries -> find_parent entries path cv = Some nd ->
  exists k', path_node root k path = Some (nd, k').
Proof.
  intros He. induction He as [|e entries He _ IH]; intros E; [discriminate|]. cbn [find_parent] in E. destruct (_ && _) eqn:Et; [|exact (IH E)].
  injection E as <-. apply andb_true_iff in Et as [Et _]. apply andb_true_iff in Et as [Et E3]. apply andb_true_iff in Et as [E1 E2].
  apply Z.eqb_eq in E2. apply bool_decide_eq_true in E3. destruct (He E1) as (p & k' & Ed & Ep & En). exists k'. rewrite <- En.
  f_equal. rewrite <- Ep, <- E3. f_equal. unfold zlen in *. lia.
Qed.

Lemma store_ok cache path nd k k' : cache_ok cache -> cache_root_set cache = true -> hd_ok (cache_root cache) k -> zlen path <= BIP32_CACHE_MAXDEPTH ->
  path_node (cache_root cache) k path = Some (nd, k') ->
  cache_ok (MkCache (cache_root_set cache) (cache_root cache) ((cache_index cache + 1) mod BIP32_CACHE_SIZE)
    (zupd (cache_entries cache) (cache_index cache) (MkEntry true (zlen path) (memcpy (zrep BIP32_CACHE_MAXDEPTH 0) 0 path) nd))).
Proof.
  intros Hc Hs Hr Hl Hn. constructor; cbn [cache_index cache_entries cache_root_set cache_root].
  - unfold BIP32_CACHE_SIZE. zlia.
  - rewrite zlen_zupd. exact (co_length _ Hc).
  - intros _ k2 Hk2. assert (k2 = k) as -> by (rewrite <- (hd_key _ _ _ _ Hk2); exact (hd_key _ _ _ _ Hr)).
    pose proof (co_entries _ Hc Hs k Hr) as He. unfold zupd. destruct (cache_index cache <? 0); [exact He|].
    apply Forall_insert; [exact He|]. intros _. exists path, k'. split; [reflexivity|]. split; [|exact Hn]. unfold memcpy.
    rewrite take_0. cbn [app ce_i]. by rewrite take_app_length.
Qed.

(** ** A call *)

Lemma split_path (path : list Z) last : take (Z.to_nat (zlen (path ++ [last]) - 1)) (path ++ [last]) = path /\
  znth 0 (path ++ [last]) (zlen (path ++ [last]) - 1) = last /\ zlen (path ++ [last]) - 1 = zlen path.
Proof.
  rewrite zlen_app. change (zlen [last]) with 1. replace (zlen path + 1 - 1) with (zlen path) by lia. split; [|split; [|reflexivity]].
  - unfold zlen. by rewrite Nat2Z.id, take_app_length.
  - rewrite <- (Z.add_0_r (zlen path)). by rewrite znth_app_r by lia.
Qed.

(** The derivation of a parent that the cache does not hold. *)
Lemma miss_ok cache node k path last want words n : cache_ok cache -> cache_root_set cache = true -> cache_root cache = node -> hd_ok node k ->
  zlen path <= BIP32_CACHE_MAXDEPTH -> supplies c (length path + S (S n)) words ->
  let call :=
    '(r, inout, words) ← derive_path ed tables turns words node path;
    if r =? 0 then Some (0, inout, None, cache, words)
    else if BIP32_CACHE_MAXDEPTH <? zlen path then None
    else
      let e := MkEntry true (zlen path) (memcpy (zrep BIP32_CACHE_MAXDEPTH 0) 0 path) inout in
      let cache := MkCache (cache_root_set cache) (cache_root cache) ((cache_index cache + 1) mod BIP32_CACHE_SIZE)
                     (zupd (cache_entries cache) (cache_index cache) e) in
      '(r, inout, fp, words) ← last_step others ed tables turns words inout last want;
      Some (r, inout, fp, cache, words) in
  match path_node node k (path ++ [last]) with
  | Some (nd, _) => exists fp cache' rest, call = Some (1, nd, fp, cache', rest) /\ cache_ok cache' /\
      (want = true -> exists parent kp, path_node node k path = Some (parent, kp) /\ fp = fingerprint_of parent kp)
  | None => call = None
  end.
Proof.
  intros Hc Hs <- H Hl Hw. cbv zeta. destruct (derive_path_ok path _ k words (S (S n)) H Hw) as (rest & Hr & E). rewrite E, path_node_app. clear E Hw.
  destruct (path_node (cache_root cache) k path) as [[nd kp]|] eqn:Ep; cbn [mbind option_bind]; [|reflexivity]. cbn [Z.eqb path_node].
  rewrite (proj2 (Z.ltb_ge _ _)) by exact Hl. pose proof (last_step_ok nd kp last want rest n (path_ok _ _ _ _ _ H Ep) Hr) as Hstep.
  destruct (step_node nd kp last) as [[n2 k2]|]; cbn [mbind option_bind]; [|by rewrite Hstep]. destruct Hstep as (rest' & _ & E). rewrite E.
  do 3 eexists. split; [reflexivity|]. split; [exact (store_ok cache path nd k kp Hc Hs H Hl Ep)|]. intros ->. by exists nd, kp.
Qed.

Lemma cached_ok cache node k i want words n : cache_ok cache -> hd_ok node k -> 1 <= zlen i <= BIP32_CACHE_MAXDEPTH + 1 ->
  supplies c (length i + S (S n)) words ->
  match path_node node k i with
  | Some (nd, _) => exists fp cache' rest,
      hdnode_private_ckd_cached others ed tables turns words cache node i want = Some (1, nd, fp, cache', rest) /\ cache_ok cache' /\
      (want = true -> exists parent kp, path_node node k (take (length i - 1) i) = Some (parent, kp) /\ fp = fingerprint_of parent kp)
  | None => hdnode_private_ckd_cached others ed tables turns words cache node i want = None
  end.
Proof.
  intros Hc H Hi Hw. assert (Hi' : exists path last, i = path ++ [last]).
  { destruct i as [|x i] using rev_ind; [change (zlen (@nil Z)) with 0 in Hi; lia|by exists i, x]. }
  destruct Hi' as (path & last & ->). destruct (split_path path last) as (Et & En & El).
  assert (Lt : take (length (path ++ [last]) - 1) (path ++ [last]) = path) by (rewrite length_app, Nat.add_sub; apply take_app_length).
  rewrite Lt. unfold hdnode_private_ckd_cached. cbv zeta. rewrite Et, En, El. rewrite length_app in Hw. cbn [length] in Hw.
  rewrite (proj2 (Z.eqb_neq _ 0)) by lia. rewrite zlen_app in Hi |- *. change (zlen [last]) with 1 in *. pose proof (zlen_nonneg path).
  destruct (Z.eqb_spec (zlen path + 1) 1) as [E1|E1].
  - assert (path = []) as -> by (destruct path; [reflexivity|rewrite zlen_cons in E1; pose proof (zlen_nonneg path); lia]). cbn [app path_node]. change (znth 0 [last] 0) with last.
    pose proof (last_step_ok node k last want words (S n) H Hw) as Hstep. destruct (step_node node k last) as [[nd k']|]; cbn [mbind option_bind]; [|by rewrite Hstep].
    destruct Hstep as (rest & _ & E). rewrite E. do 3 eexists. split; [reflexivity|]. split; [exact Hc|]. intros ->. by exists node, k.
  - assert (Hw' : supplies c (length path + S (S n)) words) by (apply supplies_less; by replace (S (length path + S (S n))) with (length path + 1 + S (S n))%nat by lia).
    destruct (cache_root_set cache && bool_decide (cache_root cache = node)) eqn:Es.
    + apply andb_true_iff in Es as [Es Er]. apply bool_decide_eq_true in Er.
      destruct (find_parent (cache_entries cache) path (curve node)) as [nd|] eqn:Ef.
      * pose proof (co_entries _ Hc Es k ltac:(rewrite Er; exact H)) as He. rewrite Er in He.
        destruct (find_parent_ok _ _ _ _ _ _ He Ef) as (kp & Ep). rewrite path_node_app, Ep. cbn [mbind option_bind path_node].
        assert (Hw2 : supplies c (S (S n)) words). { clear -Hw'. induction (length path) as [|m IHm]; [exact Hw'|]. apply IHm, supplies_less, Hw'. }
        pose proof (last_step_ok nd kp last want words n (path_ok _ _ _ _ _ H Ep) Hw2) as Hstep.
        destruct (step_node nd kp last) as [[n2 k2]|]; cbn [mbind option_bind]; [|by rewrite Hstep]. destruct Hstep as (rest & _ & E). rewrite E.
        do 3 eexists. split; [reflexivity|]. split; [exact Hc|]. intros ->. by exists nd, kp.
      * exact (miss_ok cache node k path last want words n Hc Es Er H ltac:(lia) Hw').
    + exact (miss_ok (MkCache true node 0 (zrep BIP32_CACHE_SIZE zero_entry)) node k path last want words n (empty_ok true node) eq_refl eq_refl H ltac:(lia) Hw').
Qed.

(** A path that does not fit an entry of the cache is written past its end. *)
Lemma cached_overflow cache node k i want words n nd k' : cache_root_set cache = false -> hd_ok node k -> BIP32_CACHE_MAXDEPTH + 1 < zlen i ->
  path_node node k (take (length i - 1) i) = Some (nd, k') -> supplies c (length i + n) words ->
  hdnode_private_ckd_cached others ed tables turns words cache node i want = None.
Proof.
  intros Hs H Hi Hp Hw. unfold hdnode_private_ckd_cached. unfold BIP32_CACHE_MAXDEPTH in Hi. cbv zeta.
  rewrite (proj2 (Z.eqb_neq _ 0)), (proj2 (Z.eqb_neq _ 1)), Hs by lia. cbn [andb].
  replace (Z.to_nat (zlen i - 1)) with (length i - 1)%nat by (unfold zlen in *; lia).
  destruct (derive_path_ok (take (length i - 1) i) node k words (S n) H) as (rest & _ & E).
  { rewrite length_take. replace ((length i - 1) `min` length i + S n)%nat with (length i + n)%nat by (unfold zlen in Hi; lia). exact Hw. }
  rewrite E, Hp. cbn [mbind option_bind Z.eqb]. rewrite (proj2 (Z.ltb_lt _ _)); [reflexivity|]. unfold BIP32_CACHE_MAXDEPTH. lia.
Qed.

End Cache.

(** C14: The cache of derived parents changes nothing, on the ECDSA curves and given
    enough random words.  Starting from a cleared
    cache, every call of hdnode_private_ckd_cached keeps the invariant that the
    entries are the nodes their paths lead to, and for a path of at most nine
    indices it returns 1 and the node that repeated calls of hdnode_private_ckd
    return (or, as these, finds no key within the turns of the retry loops),
    together with the fingerprint of the parent when it is asked for, whether the
    parent was found in the cache or not. *)
Theorem cached_ckd_correct c `{!CurveOk c} g tables others ed turns :
  stands_for c (G c) g -> g <> Infinity -> table_ok c (tables c) g ->
  cache_ok c g turns bip32_cache_clear /\
  forall cache node k i want words n, cache_ok c g turns cache -> hd_ok c g node k -> 1 <= zlen i <= BIP32_CACHE_MAXDEPTH + 1 ->
    supplies c (length i + S (S n)) words ->
    match derive_path ed tables turns words node i with
    | None => hdnode_private_ckd_cached others ed tables turns words cache node i want = None
    | Some (r, nd, _) => r = 1 /\ exists fp cache' rest,
        hdnode_private_ckd_cached others ed tables turns words cache node i want = Some (1, nd, fp, cache', rest) /\
        cache_ok c g turns cache' /\
        (want = true -> exists parent w w' f filled,
           derive_path ed tables turns words node (take (length i - 1) i) = Some (1, parent, w) /\
           hdnode_fingerprint others ed tables w parent = Some (f, filled, w') /\ fp = Some f)
    end.
Proof.
  intros Hg Hg0 Ht. split; [apply empty_ok|]. intros cache node k i want words n Hc H Hi Hw.
  pose proof (cached_ok c g Hg Hg0 tables Ht others ed turns cache node k i want words n Hc H Hi Hw) as Hcall.
  destruct (derive_path_ok c g Hg Hg0 tables Ht ed turns i node k words (S (S n)) H Hw) as (rest & _ & E). rewrite E. clear E.
  destruct (path_node c g turns node k i) as [[nd k']|]; [|exact Hcall]. split; [reflexivity|].
  destruct Hcall as (fp & cache' & rest' & Ecall & Hc' & Hfp). exists fp, cache', rest'. split; [exact Ecall|]. split; [exact Hc'|].
  intros Hwant. destruct (Hfp Hwant) as (parent & kp & Ep & Ef).
  destruct (derive_path_ok c g Hg Hg0 tables Ht ed turns (take (length i - 1) i) node k words (S (S (S n))) H) as (w & Hw1 & Ed).
  { rewrite length_take. replace ((length i - 1) `min` length i + S (S (S n)))%nat with (length i + S (S n))%nat by (unfold zlen in Hi; lia). exact Hw. }
  rewrite Ep in Ed. destruct (fingerprint_ok c g Hg Hg0 tables Ht others ed parent kp w _ (path_ok c g turns _ _ _ _ _ H Ep) Hw1) as (f & w' & Efp & _ & Efo).
  exists parent, w, w', f, (set_public_key (enc33 c (ec_times c kp g)) parent). split; [exact Ed|]. split; [exact Efp|]. by rewrite Ef.
Qed.

Lemma cached_ckd_correct_witness :
  match derive_path demo_ed demo_tables 1 (plenty 4) demo_node [44; 7] with
  | None => hdnode_private_ckd_cached zero_digests demo_ed demo_tables 1 (plenty 4) bip32_cache_clear demo_node [44; 7] false = None
  | Some (r, nd, _) => exists cache' rest,
      hdnode_private_ckd_cached zero_digests demo_ed demo_tables 1 (plenty 4) bip32_cache_clear demo_node [44; 7] false = Some (1, nd, None, cache', rest) \/
      exists f, hdnode_private_ckd_cached zero_digests demo_ed demo_tables 1 (plenty 4) bip32_cache_clear demo_node [44; 7] false = Some (1, nd, Some f, cache', rest)
  end.
Proof.
  destruct (cached_ckd_correct secp256k1 secp256k1_g demo_tables zero_digests demo_ed 1 secp256k1_G demo_g secp256k1_table) as [H0 Hcall].
  assert (Hi : 1 <= zlen [44; 7] <= BIP32_CACHE_MAXDEPTH + 1) by (vm_compute; split; discriminate).
  specialize (Hcall bip32_cache_clear demo_node 2016 [44; 7] false (plenty 4) 0%nat H0 demo_node_ok Hi (plenty_supplies secp256k1 4)).
  destruct (derive_path demo_ed demo_tables 1 (plenty 4) demo_node [44; 7]) as [[[r nd] w]|]; [|exact Hcall].
  destruct Hcall as (_ & fp & cache' & rest & E & _). exists cache', rest. destruct fp as [f|]; [right; exists f; exact E|left; exact E].
Defined.

(** ** Extended keys as strings *)

(** The bytes of an extended key. *)
Definition xkey (version dep fingerprint child : Z) (chain key : list Z) : list Z :=
  be_bytes 4 version ++ [dep] ++ be_bytes 4 fingerprint ++ be_bytes 4 child ++ chain ++ key.

Lemma put_seg (a src : list Z) off m : length a = off -> zlen src <= m -> memcpy (a ++ zrep m 0) off src = (a ++ src) ++ zrep (m - zlen src) 0.
Proof.
  intros Ha Hm. unfold memcpy, zrep. rewrite <- Ha, take_app_length, drop_app_add', <- app_assoc by reflexivity. do 2 f_equal.
  rewrite drop_replicate. f_equal. unfold zlen in *. lia.
Qed.

Lemma put_byte (a : list Z) off x m : zlen a = off -> 1 <= m -> zupd (a ++ zrep m 0) off x = (a ++ [x]) ++ zrep (m - 1) 0.
Proof.
  intros Ha Hm. rewrite <- Ha, <- (Z.add_0_r (zlen a)), zupd_app_r, <- app_assoc by lia. f_equal. unfold zrep.
  replace (Z.to_nat m) with (S (Z.to_nat (m - 1))) by lia. reflexivity.
Qed.

Lemma zlen_be n z : zlen (be_bytes n z) = Z.of_nat n.
Proof. unfold zlen. by rewrite length_be_bytes. Qed.

Section Serialize.
Context (others : other_digests) `{!DigestsOk others}.

(** The key part: a zero and the private key, or the public key. *)
Definition key_part (use_private : bool) (node : HDNode) : list Z := if use_private then 0 :: private_key node else public_key node.

Record wf_node (node : HDNode) : Prop := {
  wf_depth : 0 <= depth node < 256;
  wf_child : 0 <= child_num node < 2 ^ 32;
  wf_chain : bytes_n 32 (chain_code node);
  wf_private : bytes_n 32 (private_key node);
  wf_public : bytes_n 33 (public_key node) }.

Definition xkey_of (node : HDNode) (fingerprint version : Z) (use_private : bool) : list Z :=
  xkey version (depth node) fingerprint (child_num node) (chain_code node) (key_part use_private node).

Lemma key_part_ok node use_private : wf_node node -> bytes_n 33 (key_part use_private node).
Proof.
  intros W. destruct use_private; [|exact (wf_public _ W)]. destruct (wf_private _ W) as [B L]. split; [constructor; [unfold is_byte; lia|exact B]|].
  cbn [key_part length]. by rewrite L.
Qed.

Lemma xkey_ok node fingerprint version use_private : wf_node node ->
  Forall is_byte (xkey_of node fingerprint version use_private) /\ zlen (xkey_of node fingerprint version use_private) = 78.
Proof.
  intros W. destruct (key_part_ok node use_private W) as [Bk Lk]. destruct (wf_chain _ W) as [Bc Lc]. unfold xkey_of, xkey. split.
  - rewrite !Forall_app. split; [apply be_bytes_n|]. split; [constructor; [exact (wf_depth _ W)|constructor]|].
    split; [apply be_bytes_n|]. split; [apply be_bytes_n|]. split; assumption.
  - rewrite !zlen_app, !zlen_be. unfold zlen. rewrite Lk, Lc. reflexivity.
Qed.

(** The buffer of hdnode_serialize. *)
Lemma serialize_eq node fingerprint version use_private strsize p : wf_node node -> curve node = Some p ->
  hdnode_serialize others node fingerprint version use_private strsize =
    Some (base58_encode_check others (xkey_of node fingerprint version use_private) (hasher_base58 (deref p)) strsize).
Proof.
  intros W Ep. unfold hdnode_serialize. rewrite Ep. cbn [mbind option_bind]. cbv zeta. do 2 f_equal.
  destruct (wf_chain _ W) as [_ Lc], (wf_private _ W) as [_ Lp], (wf_public _ W) as [_ Lq]. rewrite !take_ge by lia.
  rewrite u8_small by exact (wf_depth _ W). assert (Zc : zlen (chain_code node) = 32) by (unfold zlen; by rewrite Lc).
  change (zrep 78 0) with ([] ++ zrep 78 0). rewrite (put_seg [] (be_bytes 4 version) 0 78) by (rewrite ?zlen_be; reflexivity || lia). cbn [app].
  rewrite zlen_be, put_byte by (rewrite ?zlen_be; lia).
  rewrite put_seg by (rewrite ?length_app, ?length_be_bytes, ?zlen_be; cbn; lia). rewrite zlen_be.
  rewrite put_seg by (rewrite ?length_app, ?length_be_bytes, ?zlen_be; cbn; lia). rewrite zlen_be.
  rewrite put_seg by (rewrite ?length_app, ?length_be_bytes, ?zlen_be; cbn; lia). rewrite Zc.
  unfold xkey_of, xkey. set (a := ((((be_bytes 4 version ++ [depth node]) ++ be_bytes 4 fingerprint) ++ be_bytes 4 (child_num node)) ++ chain_code node)).
  assert (La : length a = 45%nat) by (unfold a; rewrite !length_app, !length_be_bytes, Lc; reflexivity).
  transitivity (a ++ key_part use_private node); [|unfold a; by rewrite <- !app_assoc]. destruct use_private; cbn [key_part].
  - rewrite put_byte by (unfold zlen; rewrite ?La; lia). rewrite put_seg by (rewrite ?length_app, ?La; unfold zlen; rewrite ?Lp; cbn; lia).
    unfold zlen. rewrite Lp, <- !app_assoc. cbn [app]. do 2 f_equal. exact (app_nil_r _).
  - rewrite put_seg by (rewrite ?La; unfold zlen; rewrite ?Lq; cbn; lia). unfold zlen. rewrite Lq. apply app_nil_r.
Qed.

(** The fields of the bytes. *)
Lemma xkey_fields version dep fingerprint child chain key : length chain = 32%nat -> length key = 33%nat ->
  let d := xkey version dep fingerprint child chain key in
  slice d 0 4 = be_bytes 4 version /\ znth 0 d 4 = dep /\ slice d 5 4 = be_bytes 4 fingerprint /\ slice d 9 4 = be_bytes 4 child /\
  slice d 13 32 = chain /\ slice d 45 33 = key /\ znth 0 d 45 = znth 0 key 0 /\ slice d 46 32 = drop 1 key.
Proof.
  intros Lc Lk. cbv zeta. unfold xkey. destruct (be_bytes 4 version) as [|v0 [|v1 [|v2 [|v3 [|? ?]]]]] eqn:E1;
    try (apply (f_equal length) in E1; rewrite length_be_bytes in E1; discriminate E1).
  destruct (be_bytes 4 fingerprint) as [|f0 [|f1 [|f2 [|f3 [|? ?]]]]] eqn:E2; try (apply (f_equal length) in E2; rewrite length_be_bytes in E2; discriminate E2).
  destruct (be_bytes 4 child) as [|c0 [|c1 [|c2 [|c3 [|? ?]]]]] eqn:E3; try (apply (f_equal length) in E3; rewrite length_be_bytes in E3; discriminate E3).
  destruct key as [|k0 key]; [discriminate Lk|]. cbn [length] in Lk.
  set (pre := [v0; v1; v2; v3] ++ [dep] ++ [f0; f1; f2; f3] ++ [c0; c1; c2; c3]).
  change ([v0; v1; v2; v3] ++ [dep] ++ [f0; f1; f2; f3] ++ [c0; c1; c2; c3] ++ chain ++ k0 :: key) with (pre ++ chain ++ k0 :: key).
  assert (Hz : forall x, znth 0 (pre ++ chain ++ k0 :: key) 45 = x <-> k0 = x).
  { intros x. replace 45 with (zlen (pre ++ chain) + 0) by (rewrite zlen_app; unfold zlen; rewrite Lc; reflexivity). by rewrite app_assoc, znth_app_r by lia. }
  split; [reflexivity|]. split; [reflexivity|]. split; [reflexivity|]. split; [reflexivity|]. split; [|split; [|split; [by apply Hz|]]].
  - apply slice_mid; unfold zlen; rewrite ?Lc; reflexivity.
  - pose proof (slice_mid (pre ++ chain) (k0 :: key) [] 45 33) as H. rewrite app_nil_r, <- app_assoc in H.
    apply H; rewrite ?zlen_app; unfold zlen; rewrite ?Lc; [reflexivity|cbn [length]; lia].
  - pose proof (slice_mid (pre ++ chain ++ [k0]) key [] 46 32) as H. rewrite app_nil_r, <- !app_assoc in H.
    apply H; rewrite ?zlen_app; unfold zlen; rewrite ?Lc; [reflexivity|lia].
Qed.

End Serialize.

(** C23: Extended keys round trip: hdnode_serialize writes the Base58Check form of
    version, depth, fingerprint, number, chain code and key (or nothing when the
    buffer is too small), and hdnode_deserialize of that string with the same
    version and kind of key restores these fields; with another version it returns
    -3.  Depths of 256 and more are not preserved: one byte is written. *)
Theorem hdnode_roundtrip others `{!DigestsOk others} node p name use_private fingerprint version strsize fp0 :
  wf_node node -> curve node = Some p -> get_curve_by_name name = Some p -> 0 <= fingerprint < 2 ^ 32 -> 0 <= version < 2 ^ 32 ->
  checkable others (hasher_base58 (deref p)) (xkey_of node fingerprint version use_private) ->
  exists s,
    hdnode_serialize others node fingerprint version use_private strsize = Some (if strsize <=? zlen s then ([], 0) else (s, zlen s + 1)) /\
    hdnode_deserialize others s version use_private name fp0 =
      Some (0, MkNode (depth node) (child_num node) 0 (zrep 8 0) (chain_code node)
                 (if use_private then private_key node else zrep 32 0) (zrep 32 0)
                 (if use_private then zrep 33 0 else public_key node) (Some p), fingerprint) /\
    forall version', version' <> version ->
      exists nd, hdnode_deserialize others s version' use_private name fp0 = Some (-3, nd, fp0).
Proof.
  intros W Ep En Hf Hv Hc. destruct (xkey_ok node fingerprint version use_private W) as [B L].
  destruct (encode_check_ok others (hasher_base58 (deref p)) _ strsize B ltac:(lia)) as (s & Hs & E). exists s.
  split; [by rewrite (serialize_eq others node fingerprint version use_private strsize p W Ep), E|].
  destruct (key_part_ok node use_private W) as [_ Lk]. destruct (wf_chain _ W) as [_ Lc].
  destruct (xkey_fields version (depth node) fingerprint (child_num node) (chain_code node) (key_part use_private node) Lc Lk) as (F1 & F2 & F3 & F4 & F5 & F6 & F7 & F8).
  fold (xkey_of node fingerprint version use_private) in F1, F2, F3, F4, F5, F6, F7, F8.
  assert (Hbe : forall z, 0 <= z < 2 ^ 32 -> be_val (be_bytes 4 z) = z) by (intros z Hz; apply be_val_be_bytes; exact Hz).
  unfold hdnode_deserialize. rewrite En. cbn [mbind option_bind]. rewrite (decode_encoded others _ _ s 78 B Hc Hs ltac:(rewrite L; lia)). cbn [mbind option_bind].
  rewrite (proj2 (Z.eqb_eq _ 78)) by exact L. cbn [negb]. rewrite F1, (Hbe version Hv). split.
  - rewrite Z.eqb_refl. cbn [negb]. rewrite F2, F3, F4, F5, F7, (Hbe _ Hf), (Hbe _ (wf_child _ W)).
    destruct use_private; cbn [key_part andb negb] in *; [change (znth 0 (0 :: private_key node) 0) with 0; cbn [Z.eqb negb]; by rewrite F8|by rewrite F6].
  - intros v' Hv'. rewrite (proj2 (Z.eqb_neq _ _)) by congruence. cbn [negb]. eexists. reflexivity.
Qed.

Lemma hdnode_roundtrip_witness : exists s nd,
  hdnode_serialize zero_digests demo_node 0x3442193e 0x0488ade4 true 10 = Some ([], 0) /\
  hdnode_deserialize zero_digests s 0x0488ade4 true (Some SECP256K1_NAME) 0 = Some (0, nd, 0x3442193e) /\ private_key nd = demo_key.
Proof.
  destruct (hdnode_roundtrip zero_digests demo_node To_secp256k1 (Some SECP256K1_NAME) true 0x3442193e 0x0488ade4 10 0) as (s & E & D & _).
  - constructor; cbn [depth child_num chain_code private_key public_key demo_node]; [lia|lia|split; [apply Forall_zrep; unfold is_byte; lia|reflexivity]|exact demo_key_bytes|
      split; [apply Forall_zrep; unfold is_byte; lia|reflexivity]].
  - reflexivity.
  - reflexivity.
  - lia.
  - lia.
  - unfold checkable. apply Exists_app. left. unfold xkey_of, xkey. apply Exists_app. left. vm_compute. apply Exists_cons_hd. discriminate.
  - exists s. eexists. split; [vm_compute; reflexivity|]. split; [exact D|reflexivity].
Defined.

End Bip32Cache.
