(* ===== verification/Fifo.v ===== *)
(** The byte queue between the receive interrupts and the application
    (src/core/embed/trezorhal/trans_fifo.c): a circular buffer with a read, a
    write and a lock position.  Bytes up to the lock position are offered to the
    reader, bytes behind it are still being received.

    The state is the C structure with its buffer.  A read returns the bytes it
    copies; the caller stores them.  The theorems compare the queue with two
    lists, the offered bytes and the pending ones. *)

From Stdlib Require Import ZArith Lia List.
From stdpp Require Import base list numbers.
From S2P Require Import Prelude.

Module Fifo.

Record trans_fifo := MkFifo {
  p_buf : list Z; buf_size : Z; over_pre : bool; read_pos : Z; write_pos : Z; lock_pos : Z }.

Definition set_over (b : bool) (f : trans_fifo) : trans_fifo :=
  MkFifo (p_buf f) (buf_size f) b (read_pos f) (write_pos f) (lock_pos f).
Definition set_read (p : Z) (f : trans_fifo) : trans_fifo :=
  MkFifo (p_buf f) (buf_size f) (over_pre f) p (write_pos f) (lock_pos f).
Definition set_lock (p : Z) (f : trans_fifo) : trans_fifo :=
  MkFifo (p_buf f) (buf_size f) (over_pre f) (read_pos f) (write_pos f) p.

Definition fifo_init (buf : list Z) (size : Z) : trans_fifo := MkFifo buf size false 0 0 0.

Definition fifo_data_len (f : trans_fifo) : Z :=
  if write_pos f <? read_pos f then u32 (buf_size f - read_pos f + write_pos f)
  else u32 (write_pos f - read_pos f).

Definition fifo_lockdata_len (f : trans_fifo) : Z :=
  if over_pre f && (read_pos f =? lock_pos f) then buf_size f
  else if lock_pos f <? read_pos f then u32 (buf_size f - read_pos f + lock_pos f)
  else u32 (lock_pos f - read_pos f).

Definition fifo_lockpos_set (f : trans_fifo) : trans_fifo := set_lock (write_pos f) f.

Definition fifo_lockpos_set_align (f : trans_fifo) (align : Z) : trans_fifo :=
  let len := fifo_data_len f in
  let len := if negb (len / align =? 0) then len - len mod align else len in
  set_lock (u32 (lock_pos f + len) mod buf_size f) f.

(** The statements the two put functions share. *)
Definition store_byte (f : trans_fifo) (onebyte : Z) : trans_fifo :=
  let over := if u32 (write_pos f + 1) mod buf_size f =? read_pos f then true else over_pre f in
  MkFifo (zupd (p_buf f) (write_pos f) onebyte) (buf_size f) over (read_pos f)
         (u32 (write_pos f + 1) mod buf_size f) (lock_pos f).

Definition fifo_put_no_overflow (f : trans_fifo) (onebyte : Z) : bool * trans_fifo :=
  if over_pre f then (false, f) else (true, store_byte f onebyte).

Definition fifo_put_overflow (f : trans_fifo) (onebyte : Z) : trans_fifo := store_byte f onebyte.

(** The bytes the copies of [fifo_read_lock] and [fifo_read_peek] move. *)
Definition copy_out (f : trans_fifo) (len : Z) : list Z :=
  if buf_size f <? u32 (read_pos f + len) then
    let len1 := buf_size f - read_pos f in
    slice (p_buf f) (read_pos f) len1 ++ slice (p_buf f) 0 (len - len1)
  else slice (p_buf f) (read_pos f) len.

Definition fifo_read_lock (f : trans_fifo) (request_len : Z) : Z * list Z * trans_fifo :=
  let avaliable_len := fifo_lockdata_len f in
  if request_len =? 0 then (0, [], f)
  else
    let f := if over_pre f then set_over false f else f in
    let len := Z.min request_len avaliable_len in
    (len, copy_out f len, set_read (u32 (read_pos f + len) mod buf_size f) f).

Definition fifo_read_peek (f : trans_fifo) (request_len : Z) : Z * list Z * trans_fifo :=
  let avaliable_len := fifo_lockdata_len f in
  if request_len =? 0 then (0, [], f)
  else
    let f := if over_pre f then set_over false f else f in
    let len := Z.min request_len avaliable_len in
    (len, copy_out f len, f).

Definition fifo_flush (f : trans_fifo) : trans_fifo := MkFifo (p_buf f) (buf_size f) false 0 0 0.

(** The loop of [fifo_write_no_overflow]. *)
Fixpoint put_all (f : trans_fifo) (buf : list Z) : bool * trans_fifo :=
  match buf with
  | [] => (true, f)
  | b :: rest => match fifo_put_no_overflow f b with (true, f) => put_all f rest | (false, f) => (false, f) end
  end.

Definition fifo_write_no_overflow (f : trans_fifo) (buf : list Z) : bool * trans_fifo :=
  match put_all f buf with (true, f) => (true, fifo_lockpos_set f) | (false, f) => (false, f) end.

(** ** Circular buffers *)

(** [n] bytes of a circular buffer from a position on. *)
Definition ring (buf : list Z) (pos n : Z) : list Z := map (fun i => znth 0 buf ((pos + i) mod zlen buf)) (seqZ 0 n).

Lemma zlen_ring buf pos n : 0 <= n -> zlen (ring buf pos n) = n.
Proof. intros H. unfold ring, zlen. rewrite length_map, length_seqZ. lia. Qed.

Lemma ring_app buf pos m n : 0 <= m -> 0 <= n -> ring buf pos (m + n) = ring buf pos m ++ ring buf (pos + m) n.
Proof.
  intros Hm Hn. unfold ring. rewrite seqZ_app, map_app by lia. f_equal. rewrite Z.add_0_l.
  replace (seqZ m n) with (Z.add m <$> seqZ 0 n) by (rewrite fmap_add_seqZ; f_equal; lia).
  rewrite map_map. apply map_ext. intros i. do 2 f_equal. lia.
Qed.

Lemma ring_mod buf pos n : ring buf (pos mod zlen buf) n = ring buf pos n.
Proof. apply map_ext. intros i. f_equal. by rewrite Zplus_mod_idemp_l. Qed.

Lemma ring_znth buf pos n i : 0 <= i < n -> znth 0 (ring buf pos n) i = znth 0 buf ((pos + i) mod zlen buf).
Proof.
  intros Hi. unfold ring. set (g := fun _ => _). unfold znth at 1. destruct (Z.ltb_spec i 0); [lia|].
  rewrite (nth_indep _ 0 (g 0)) by (rewrite length_map, length_seqZ; lia). rewrite map_nth.
  rewrite (nth_lookup_Some _ _ _ i); [done|]. apply lookup_seqZ. lia.
Qed.

Lemma ring_zupd buf pos n b : 0 <= n < zlen buf ->
  ring (zupd buf ((pos + n) mod zlen buf) b) pos (n + 1) = ring buf pos n ++ [b].
Proof.
  intros Hn. rewrite ring_app by lia. f_equal.
  - unfold ring. apply map_ext_in. intros i Hi. apply list_elem_of_In, elem_of_seqZ in Hi. rewrite zlen_zupd.
    apply znth_zupd_ne. intros E. assert (E' : (pos + n - (pos + i)) mod zlen buf = 0).
    { rewrite Zminus_mod, E, Z.sub_diag. apply Z.mod_0_l. lia. }
    rewrite Z.mod_small in E' by lia. lia.
  - unfold ring. change (seqZ 0 1) with [0]. cbn [map]. rewrite Z.add_0_r, zlen_zupd. f_equal. apply znth_zupd_eq.
    apply Z.mod_pos_bound. lia.
Qed.

Lemma slice_ring buf pos n : 0 <= pos -> 0 <= n -> pos + n <= zlen buf -> slice buf pos n = ring buf pos n.
Proof.
  intros Hp Hn Hb. apply (nth_ext _ _ 0 0).
  - unfold slice, ring. rewrite length_map, length_seqZ, length_take, length_drop. unfold zlen in Hb. lia.
  - intros i Hi. assert (Hi' : Z.of_nat i < n).
    { unfold slice in Hi. rewrite length_take in Hi. lia. }
    pose proof (ring_znth buf pos n (Z.of_nat i)) as R. unfold znth in R at 1. rewrite Nat2Z.id in R.
    destruct (Z.ltb_spec (Z.of_nat i) 0) in R; [lia|]. rewrite R by lia. rewrite Z.mod_small by lia.
    unfold slice, znth. destruct (Z.ltb_spec (pos + Z.of_nat i) 0); [lia|].
    rewrite !nth_lookup, lookup_take_lt, lookup_drop by lia. do 2 f_equal. lia.
Qed.

(** ** The queue as two lists *)

(** The structure holds the offered bytes [L] and the pending bytes [P]. *)
Record fifo_rep (f : trans_fifo) (L P : list Z) : Prop := {
  rep_size : 0 < buf_size f <= 2 ^ 31;
  rep_buf : zlen (p_buf f) = buf_size f;
  rep_read : 0 <= read_pos f < buf_size f;
  rep_room : zlen L + zlen P <= buf_size f;
  rep_lock : lock_pos f = (read_pos f + zlen L) mod buf_size f;
  rep_write : write_pos f = (read_pos f + (zlen L + zlen P)) mod buf_size f;
  rep_over : over_pre f = (zlen L + zlen P =? buf_size f);
  rep_data : ring (p_buf f) (read_pos f) (zlen L + zlen P) = L ++ P }.

Lemma fifo_init_rep buf size : 0 < size <= 2 ^ 31 -> zlen buf = size -> fifo_rep (fifo_init buf size) [] [].
Proof. intros Hs Hb. split; cbn; zlen; rewrite ?Z.mod_0_l by lia; try done. Qed.

Lemma flush_rep f L P : fifo_rep f L P -> fifo_rep (fifo_flush f) [] [].
Proof. intros [Hs Hb _ _ _ _ _ _]. by apply (fifo_init_rep (p_buf f) (buf_size f)). Qed.

Lemma put_rep f L P b : fifo_rep f L P -> zlen L + zlen P < buf_size f ->
  exists f', fifo_put_no_overflow f b = (true, f') /\ fifo_rep f' L (P ++ [b]) /\ buf_size f' = buf_size f.
Proof.
  intros [Hs Hb Hr Hm Hl Hw Ho Hd] Hroom. unfold fifo_put_no_overflow, store_byte. rewrite Ho.
  assert (Hlt := Z.mod_pos_bound (read_pos f + (zlen L + zlen P)) (buf_size f) ltac:(lia)). rewrite <- Hw in Hlt.
  assert (E1 : u32 (write_pos f + 1) mod buf_size f = (read_pos f + (zlen L + zlen P + 1)) mod buf_size f).
  { rewrite u32_small, Hw, Zplus_mod_idemp_l by lia. f_equal. lia. }
  destruct (Z.eqb_spec (zlen L + zlen P) (buf_size f)); [lia|]. eexists. split; [done|]. split; [|done].
  pose proof (zlen_nonneg L). pose proof (zlen_nonneg P).
  split; cbn; rewrite ?zlen_app, ?zlen_cons, ?zlen_nil, ?zlen_zupd, ?E1; try lia.
  - f_equal. lia.
  - destruct (Z.eqb_spec (zlen L + (zlen P + (1 + 0))) (buf_size f)) as [E|E];
      destruct (Z.eqb_spec ((read_pos f + (zlen L + zlen P + 1)) mod buf_size f) (read_pos f)) as [M|M]; try done.
    + destruct M. replace (zlen L + zlen P + 1) with (1 * buf_size f) by lia. rewrite Z.mod_add by lia. apply Z.mod_small. lia.
    + destruct E. destruct (Z.lt_ge_cases (read_pos f + (zlen L + zlen P + 1)) (buf_size f)) as [C|C].
      * rewrite Z.mod_small in M by lia. lia.
      * rewrite <- (Z.mod_add _ (-1)), Z.mod_small in M by lia. lia.
  - rewrite Hw, <- Hb. replace (zlen L + (zlen P + (1 + 0))) with (zlen L + zlen P + 1) by lia.
    rewrite ring_zupd by lia. by rewrite Hd, app_assoc.
Qed.

Lemma put_full f L P b : fifo_rep f L P -> zlen L + zlen P = buf_size f -> fifo_put_no_overflow f b = (false, f).
Proof. intros R E. unfold fifo_put_no_overflow. rewrite (rep_over _ _ _ R), E, Z.eqb_refl. done. Qed.

(** [put_all] stores the bytes that fit. *)
Lemma put_all_rep buf : forall f L P, fifo_rep f L P ->
  let room := buf_size f - (zlen L + zlen P) in
  exists f', put_all f buf = (zlen buf <=? room, f') /\ fifo_rep f' L (P ++ take (Z.to_nat room) buf) /\ buf_size f' = buf_size f.
Proof.
  induction buf as [|b buf IH]; intros f L P R room.
  - exists f. rewrite take_nil, app_nil_r. split; [|done]. cbn [put_all]. f_equal.
    symmetry. apply Z.leb_le. rewrite zlen_nil. pose proof (rep_room _ _ _ R). unfold room. lia.
  - cbn [put_all]. rewrite zlen_cons. pose proof (zlen_nonneg buf). pose proof (rep_room _ _ _ R).
    destruct (Z.eq_dec (zlen L + zlen P) (buf_size f)) as [Full|Room].
    + rewrite (put_full f L P b R Full). exists f. unfold room. rewrite Full, Z.sub_diag, take_0, app_nil_r.
      split; [|done]. f_equal. symmetry. apply Z.leb_gt. lia.
    + destruct (put_rep f L P b R) as (f1 & -> & R1 & S1); [lia|].
      destruct (IH f1 L (P ++ [b]) R1) as (f2 & -> & R2 & S2). exists f2. rewrite S1, zlen_app, zlen_cons, zlen_nil in *.
      split; [|split; [|lia]].
      * f_equal. unfold room. destruct (Z.leb_spec (1 + zlen buf) (buf_size f - (zlen L + zlen P)));
          [apply Z.leb_le|apply Z.leb_gt]; lia.
      * replace (Z.to_nat room) with (S (Z.to_nat (buf_size f - (zlen L + (zlen P + (1 + 0)))))) by (unfold room; lia).
        cbn [take]. by rewrite <- app_assoc in R2.
Qed.

Lemma lockpos_rep f L P : fifo_rep f L P -> fifo_rep (fifo_lockpos_set f) (L ++ P) [].
Proof.
  intros [Hs Hb Hr Hm Hl Hw Ho Hd]. split; cbn; rewrite ?zlen_app, ?zlen_nil, ?Z.add_0_r; try done.
  by rewrite app_nil_r.
Qed.

(** The number of offered bytes is right unless nothing is offered and the
    pending bytes fill the buffer. *)
Lemma lockdata_len_rep f L P : fifo_rep f L P -> (L = [] -> zlen P < buf_size f) -> fifo_lockdata_len f = zlen L.
Proof.
  intros [Hs Hb Hr Hm Hl Hw Ho Hd] Hne. unfold fifo_lockdata_len. rewrite Ho, Hl.
  pose proof (zlen_nonneg L). pose proof (zlen_nonneg P).
  destruct (Z.eq_dec (zlen L) (buf_size f)) as [E|N].
  { rewrite E. replace (buf_size f + zlen P) with (buf_size f) by lia. rewrite Z.eqb_refl.
    rewrite <- (Z.mod_add _ (-1)), Z.mod_small by lia. replace (_ + -1 * _) with (read_pos f) by lia. by rewrite Z.eqb_refl. }
  assert (B : (zlen L + zlen P =? buf_size f) && (read_pos f =? (read_pos f + zlen L) mod buf_size f) = false).
  { destruct (Z.eqb_spec (zlen L + zlen P) (buf_size f)) as [E|E]; [|done]. apply Z.eqb_neq. intros M.
    destruct (Z.lt_ge_cases (read_pos f + zlen L) (buf_size f)).
    - rewrite Z.mod_small in M by lia. assert (zlen L = 0) by lia. destruct L; [specialize (Hne eq_refl); lia|rewrite zlen_cons in *].
      pose proof (zlen_nonneg L). lia.
    - rewrite <- (Z.mod_add _ (-1)), Z.mod_small in M by lia. lia. }
  rewrite B. destruct (Z.lt_ge_cases (read_pos f + zlen L) (buf_size f)) as [C|C].
  - rewrite Z.mod_small by lia. destruct (Z.ltb_spec (read_pos f + zlen L) (read_pos f)); [lia|]. rewrite u32_small by lia. lia.
  - rewrite <- (Z.mod_add _ (-1)), Z.mod_small by lia.
    destruct (Z.ltb_spec (read_pos f + zlen L + -1 * buf_size f) (read_pos f)); [|lia]. rewrite u32_small by lia. lia.
Qed.

Lemma copy_out_ring f n : 0 < buf_size f <= 2 ^ 31 -> zlen (p_buf f) = buf_size f -> 0 <= read_pos f < buf_size f -> 0 <= n <= buf_size f ->
  copy_out f n = ring (p_buf f) (read_pos f) n.
Proof.
  intros Hs Hb Hr Hn. unfold copy_out. rewrite u32_small by lia. destruct (Z.ltb_spec (buf_size f) (read_pos f + n)).
  - rewrite !slice_ring by lia. rewrite <- (ring_mod _ 0). rewrite Z.mod_0_l by lia.
    replace n with ((buf_size f - read_pos f) + (n - (buf_size f - read_pos f))) at 2 by lia.
    rewrite ring_app by lia. f_equal. rewrite <- (ring_mod _ (read_pos f + _)). f_equal.
    replace (read_pos f + (buf_size f - read_pos f)) with (1 * zlen (p_buf f)) by lia. by rewrite Z.mod_mul by lia.
  - apply slice_ring; lia.
Qed.

(** What is copied out is the first offered bytes. *)
Lemma copy_out_rep f L P n : fifo_rep f L P -> 0 <= n <= zlen L -> copy_out f n = take (Z.to_nat n) L.
Proof.
  intros R Hn. pose proof (rep_room _ _ _ R). pose proof (zlen_nonneg P).
  rewrite copy_out_ring; [|try apply R..|lia].
  pose proof (rep_data _ _ _ R) as D. replace (zlen L + zlen P) with (n + (zlen L + zlen P - n)) in D by lia.
  rewrite ring_app in D by lia. apply (f_equal (take (Z.to_nat n))) in D.
  rewrite take_app_le in D by (pose proof (zlen_ring (p_buf f) (read_pos f) n); unfold zlen in *; lia).
  rewrite take_ge in D by (pose proof (zlen_ring (p_buf f) (read_pos f) n); unfold zlen in *; lia).
  rewrite D, take_app_le by (unfold zlen in *; lia). done.
Qed.

Lemma set_over_rep f L P : fifo_rep f L P -> zlen L + zlen P < buf_size f -> (if over_pre f then set_over false f else f) = f.
Proof. intros R H. rewrite (rep_over _ _ _ R). destruct (Z.eqb_spec (zlen L + zlen P) (buf_size f)); [lia|done]. Qed.

Lemma take_zlen (L : list Z) n : take (Z.to_nat (Z.min n (zlen L))) L = take (Z.to_nat n) L.
Proof.
  destruct (Z.le_gt_cases n (zlen L)); [by rewrite Z.min_l by lia|]. rewrite Z.min_r by lia.
  rewrite !take_ge; [done|unfold zlen in *; lia..].
Qed.

Lemma zlen_take_min (L : list Z) n : 0 <= n -> zlen (take (Z.to_nat n) L) = Z.min n (zlen L).
Proof. intros H. unfold zlen. rewrite length_take. lia. Qed.

(** Reading takes the first offered bytes off the queue. *)
Lemma read_rep f L P n : fifo_rep f L P -> 0 <= n -> (L = [] -> zlen P < buf_size f) ->
  exists f', fifo_read_lock f n = (zlen (take (Z.to_nat n) L), take (Z.to_nat n) L, f') /\
    fifo_rep f' (drop (Z.to_nat n) L) P /\ buf_size f' = buf_size f.
Proof.
  intros R Hn Hne. unfold fifo_read_lock. rewrite (lockdata_len_rep f L P R Hne).
  destruct (Z.eqb_spec n 0) as [->|Hn0]; [by exists f|].
  set (g := if over_pre f then _ else f). set (len := Z.min n (zlen L)).
  pose proof (zlen_nonneg L). pose proof (zlen_nonneg P). pose proof R as [Hs Hb Hr Hm Hl Hw Ho Hd].
  assert (Eg : p_buf g = p_buf f /\ buf_size g = buf_size f /\ read_pos g = read_pos f /\ write_pos g = write_pos f /\
               lock_pos g = lock_pos f /\ over_pre g = false) by (unfold g; destruct (over_pre f) eqn:E; done).
  destruct Eg as (Gb & Gs & Gr & Gw & Gl & Go).
  assert (Ec : copy_out g len = take (Z.to_nat n) L).
  { unfold copy_out. rewrite Gs, Gr, Gb. fold (copy_out f len). rewrite (copy_out_rep f L P) by (done || lia). apply take_zlen. }
  eexists. rewrite Ec, zlen_take_min by lia. fold len. split; [done|]. split; [|done]. rewrite Gr, Gs, u32_small by lia.
  assert (El : zlen (drop (Z.to_nat n) L) = zlen L - len) by (unfold len, zlen; rewrite length_drop; lia).
  assert (Epos : forall k, ((read_pos f + len) mod buf_size f + k) mod buf_size f = (read_pos f + (len + k)) mod buf_size f)
    by (intros k; rewrite Zplus_mod_idemp_l; f_equal; lia).
  split; cbn; rewrite ?Gs, ?Gb, ?Gw, ?Gl, ?Go, ?El; try lia.
  - apply Z.mod_pos_bound. lia.
  - rewrite Epos, Hl. f_equal. lia.
  - rewrite Epos, Hw. f_equal. lia.
  - symmetry. apply Z.eqb_neq. unfold len. destruct L as [|x L]; [specialize (Hne eq_refl)|pose proof (zlen_nonneg L)];
      rewrite ?zlen_nil, ?zlen_cons in *; lia.
  - replace (zlen L + zlen P) with (len + (zlen L - len + zlen P)) in Hd by lia. rewrite ring_app in Hd by lia.
    rewrite <- Hb, ring_mod. apply (f_equal (drop (Z.to_nat len))) in Hd.
    rewrite drop_app_length' in Hd by (pose proof (zlen_ring (p_buf f) (read_pos f) len); unfold zlen in *; lia).
    rewrite Hd, drop_app_le by (unfold zlen, len in *; lia). f_equal. unfold len.
    destruct (Z.le_gt_cases n (zlen L)); [by rewrite Z.min_l by lia|]. rewrite Z.min_r by lia.
    rewrite !drop_ge; [done|unfold zlen in *; lia..].
Qed.

(** Peeking returns the same bytes and, unless the buffer is full, leaves the
    queue as it was. *)
Lemma peek_rep f L P n : fifo_rep f L P -> 0 <= n -> (n = 0 \/ zlen L + zlen P < buf_size f) ->
  fifo_read_peek f n = (zlen (take (Z.to_nat n) L), take (Z.to_nat n) L, f).
Proof.
  intros R Hn Hf. unfold fifo_read_peek. destruct (Z.eqb_spec n 0) as [->|Hn0]; [done|].
  assert (Hfree : zlen L + zlen P < buf_size f) by lia.
  rewrite (lockdata_len_rep f L P R) by (pose proof (zlen_nonneg L); lia). rewrite (set_over_rep f L P R Hfree).
  pose proof (zlen_nonneg L). rewrite (copy_out_rep f L P _ R) by lia. by rewrite take_zlen, zlen_take_min by lia.
Qed.

(** A write is offered to the reader as a whole or not at all; the part of a
    refused write that fits stays pending. *)
Lemma write_rep f L P d : fifo_rep f L P ->
  let room := buf_size f - (zlen L + zlen P) in
  exists f', fifo_write_no_overflow f d = (zlen d <=? room, f') /\ buf_size f' = buf_size f /\
    if zlen d <=? room then fifo_rep f' (L ++ P ++ d) [] else fifo_rep f' L (P ++ take (Z.to_nat room) d).
Proof.
  intros R room. unfold fifo_write_no_overflow. destruct (put_all_rep d f L P R) as (f' & -> & R' & S). fold room in R' |- *.
  destruct (Z.leb_spec (zlen d) room); exists (if zlen d <=? room then fifo_lockpos_set f' else f').
  - rewrite (proj2 (Z.leb_le _ _)) by lia. split; [done|]. split; [done|].
    rewrite take_ge in R' by (unfold zlen in *; lia). apply lockpos_rep in R'. done.
  - rewrite (proj2 (Z.leb_gt _ _)) by lia. done.
Qed.

(** ** Refinement *)

Inductive fifo_op :=
  | Put (b : Z) | Commit | Write (d : list Z) | Read (n : Z) | Peek (n : Z) | Flush | Count.

Inductive fifo_res := Nothing | Flag (b : bool) | Bytes (n : Z) (d : list Z) | Number (n : Z).

Definition fifo_step (f : trans_fifo) (op : fifo_op) : fifo_res * trans_fifo :=
  match op with
  | Put b => let '(r, f) := fifo_put_no_overflow f b in (Flag r, f)
  | Commit => (Nothing, fifo_lockpos_set f)
  | Write d => let '(r, f) := fifo_write_no_overflow f d in (Flag r, f)
  | Read n => let '(k, d, f) := fifo_read_lock f n in (Bytes k d, f)
  | Peek n => let '(k, d, f) := fifo_read_peek f n in (Bytes k d, f)
  | Flush => (Nothing, fifo_flush f)
  | Count => (Number (fifo_lockdata_len f), f)
  end.

Fixpoint fifo_run (f : trans_fifo) (ops : list fifo_op) : list fifo_res * trans_fifo :=
  match ops with
  | [] => ([], f)
  | op :: ops => let '(r, f) := fifo_step f op in let '(rs, f) := fifo_run f ops in (r :: rs, f)
  end.

(** The contract: a bounded queue of offered and pending bytes.  [None] marks
    the two uses the structure does not support: looking at the queue when the
    pending bytes alone fill it, and peeking when it is full. *)
Definition readable (cap : Z) (L P : list Z) : bool := negb ((zlen L =? 0) && (zlen P =? cap)).

Definition queue_step (cap : Z) (q : list Z * list Z) (op : fifo_op) : option (fifo_res * (list Z * list Z)) :=
  let '(L, P) := q in
  let room := cap - (zlen L + zlen P) in
  match op with
  | Put b => if 0 <? room then Some (Flag true, (L, P ++ [b])) else Some (Flag false, q)
  | Commit => Some (Nothing, (L ++ P, []))
  | Write d => if zlen d <=? room then Some (Flag true, (L ++ P ++ d, []))
               else Some (Flag false, (L, P ++ take (Z.to_nat room) d))
  | Read n => let d := take (Z.to_nat n) L in
      if (0 <=? n) && readable cap L P then Some (Bytes (zlen d) d, (drop (Z.to_nat n) L, P)) else None
  | Peek n => let d := take (Z.to_nat n) L in
      if (n =? 0) || ((0 <=? n) && (0 <? room)) then Some (Bytes (zlen d) d, q) else None
  | Flush => Some (Nothing, ([], []))
  | Count => if readable cap L P then Some (Number (zlen L), q) else None
  end.

Fixpoint queue_run (cap : Z) (q : list Z * list Z) (ops : list fifo_op) : option (list fifo_res * (list Z * list Z)) :=
  match ops with
  | [] => Some ([], q)
  | op :: ops =>
      match queue_step cap q op with
      | Some (r, q) => match queue_run cap q ops with Some (rs, q) => Some (r :: rs, q) | None => None end
      | None => None
      end
  end.

Lemma readable_spec cap L P : readable cap L P = true -> zlen P <= cap -> L = [] -> zlen P < cap.
Proof.
  intros H Hc ->. unfold readable in H. rewrite zlen_nil, Z.eqb_refl in H. cbn in H.
  destruct (Z.eqb_spec (zlen P) cap); [done|lia].
Qed.

Lemma step_refines f L P op r q : fifo_rep f L P -> queue_step (buf_size f) (L, P) op = Some (r, q) ->
  exists f', fifo_step f op = (r, f') /\ fifo_rep f' q.1 q.2 /\ buf_size f' = buf_size f.
Proof.
  intros R E. pose proof (rep_room _ _ _ R) as Hm. pose proof (zlen_nonneg L). pose proof (zlen_nonneg P).
  assert (Hne : readable (buf_size f) L P = true -> L = [] -> zlen P < buf_size f) by (intros; apply (readable_spec _ L); [done|lia|done]).
  destruct op; cbn [queue_step fifo_step] in *.
  - destruct (Z.ltb_spec 0 (buf_size f - (zlen L + zlen P))); injection E as <- <-.
    + destruct (put_rep f L P b R) as (f' & -> & R' & S); [lia|]. by exists f'.
    + rewrite (put_full f L P b R) by lia. by exists f.
  - injection E as <- <-. eexists. split; [done|]. split; [by apply lockpos_rep|done].
  - destruct (write_rep f L P d R) as (f' & -> & S & R'). exists f'. destruct (zlen d <=? _); injection E as <- <-; done.
  - destruct (Z.leb_spec 0 n); [|done]. destruct (readable _ _ _) eqn:Hr; [|done]. injection E as <- <-.
    destruct (read_rep f L P n R) as (f' & -> & R' & S); [done|auto|]. by exists f'.
  - destruct ((n =? 0) || _) eqn:G; [|done]. injection E as <- <-. rewrite (peek_rep f L P n R); [by exists f|..].
    + destruct (Z.eqb_spec n 0); [lia|]. cbn in G. destruct (Z.leb_spec 0 n); [done|done].
    + destruct (Z.eqb_spec n 0); [by left|]. cbn in G. destruct (0 <=? n); [|done]. apply Z.ltb_lt in G. right. lia.
  - injection E as <- <-. eexists. split; [done|]. split; [by apply (flush_rep f L P)|done].
  - destruct (readable _ _ _) eqn:Hr; [|done]. injection E as <- <-. rewrite (lockdata_len_rep f L P R) by auto. by exists f.
Qed.

Lemma run_refines ops : forall f L P rs q, fifo_rep f L P -> queue_run (buf_size f) (L, P) ops = Some (rs, q) ->
  exists f', fifo_run f ops = (rs, f') /\ fifo_rep f' q.1 q.2.
Proof.
  induction ops as [|op ops IH]; intros f L P rs q R E; cbn [queue_run fifo_run] in *.
  - injection E as <- <-. by exists f.
  - destruct (queue_step _ _ op) as [[r [L1 P1]]|] eqn:E1; [|done].
    destruct (step_refines f L P op r (L1, P1) R E1) as (f1 & -> & R1 & S1). cbn in R1. rewrite <- S1 in E.
    destruct (queue_run (buf_size f1) (L1, P1) ops) as [[rs2 q2]|] eqn:E2; [|done]. injection E as <- <-.
    destruct (IH f1 L1 P1 rs2 q2 R1 E2) as (f2 & -> & R2). by exists f2.
Qed.

(** C17: from an empty buffer of up to 2^31 bytes, every sequence of put_bytes,
    commits, writes, reads, peeks, flushes and counts that stays within the
    contract of a bounded queue gives the results of that queue: bytes come out
    in the order they went in, a write is offered as a whole or refused, and
    nothing is offered before it is committed. *)
Theorem fifo_refines_queue buf size ops rs q : 0 < size <= 2 ^ 31 -> zlen buf = size ->
  queue_run size ([], []) ops = Some (rs, q) ->
  exists f, fifo_run (fifo_init buf size) ops = (rs, f) /\ fifo_rep f q.1 q.2.
Proof. intros Hs Hb E. by apply (run_refines ops (fifo_init buf size) [] []); [apply fifo_init_rep|]. Qed.

Lemma fifo_refines_queue_witness :
  fst (fifo_run (fifo_init [0; 0; 0; 0] 4) [Write [1; 2; 3]; Read 2; Put 4; Count; Commit; Peek 1; Write [5; 6; 7]; Read 9]) =
    [Flag true; Bytes 2 [1; 2]; Flag true; Number 1; Nothing; Bytes 1 [3]; Flag false; Bytes 2 [3; 4]].
Proof.
  set (ops := [Write [1; 2; 3]; Read 2; Put 4; Count; Commit; Peek 1; Write [5; 6; 7]; Read 9]).
  destruct (fifo_refines_queue [0; 0; 0; 0] 4 ops
    [Flag true; Bytes 2 [1; 2]; Flag true; Number 1; Nothing; Bytes 1 [3]; Flag false; Bytes 2 [3; 4]] ([], [5; 6]) ltac:(lia) eq_refl eq_refl)
    as (f & -> & _). reflexivity.
Defined.

(** Outside the contract the structure loses or invents data: peeking at a full
    buffer empties it, and after a refused write to an empty buffer the pending
    bytes are offered although the writer was told they were not accepted. *)
Lemma full_peek_loses : fst (fifo_run (fifo_init [0; 0; 0] 3) [Write [1; 2; 3]; Count; Peek 1; Count; Read 3]) =
  [Flag true; Number 3; Bytes 1 [1]; Number 0; Bytes 0 []].
Proof. reflexivity. Qed.

Lemma refused_write_offered : fst (fifo_run (fifo_init [0; 0; 0] 3) [Write [1; 2; 3; 4]; Count; Read 3]) =
  [Flag false; Number 3; Bytes 3 [1; 2; 3]].
Proof. reflexivity. Qed.

(** ** The functions no caller uses *)

Lemma data_len_rep f L P : fifo_rep f L P -> fifo_data_len f = (zlen L + zlen P) mod buf_size f.
Proof.
  intros [Hs Hb Hr Hm Hl Hw Ho Hd]. unfold fifo_data_len. rewrite Hw. set (k := zlen L + zlen P) in *.
  assert (0 <= k) by (unfold k; pose proof (zlen_nonneg L); pose proof (zlen_nonneg P); lia).
  destruct (Z.eq_dec k (buf_size f)) as [->|N].
  - rewrite Z.mod_same by lia. rewrite <- (Z.mod_add _ (-1)), Z.mod_small by lia.
    destruct (Z.ltb_spec (read_pos f + buf_size f + -1 * buf_size f) (read_pos f)); [lia|]. rewrite u32_small; lia.
  - rewrite (Z.mod_small k) by lia. destruct (Z.lt_ge_cases (read_pos f + k) (buf_size f)).
    + rewrite Z.mod_small by lia. destruct (Z.ltb_spec (read_pos f + k) (read_pos f)); [lia|]. rewrite u32_small; lia.
    + rewrite <- (Z.mod_add _ (-1)), Z.mod_small by lia.
      destruct (Z.ltb_spec (read_pos f + k + -1 * buf_size f) (read_pos f)); [|lia]. rewrite u32_small; lia.
Qed.

(** [fifo_lockpos_set_align] offers the pending bytes up to a multiple of the
    alignment when nothing else is offered. *)
Lemma lockpos_align_rep f P align : fifo_rep f [] P -> zlen P < buf_size f -> 0 < align <= zlen P ->
  let n := Z.to_nat (zlen P - zlen P mod align) in
  fifo_rep (fifo_lockpos_set_align f align) (take n P) (drop n P).
Proof.
  intros R Hp Ha n. pose proof (data_len_rep f [] P R) as Ed. rewrite zlen_nil, Z.add_0_l, Z.mod_small in Ed by lia.
  unfold fifo_lockpos_set_align. rewrite Ed. pose proof (Z.mod_pos_bound (zlen P) align ltac:(lia)).
  pose proof (Z.div_str_pos (zlen P) align ltac:(lia)). destruct (Z.eqb_spec (zlen P / align) 0); [lia|]. cbn [negb].
  pose proof (Z.mod_le (zlen P) align ltac:(lia) ltac:(lia)).
  destruct R as [Hs Hb Hr Hm Hl Hw Ho Hd]. rewrite zlen_nil in *.
  assert (E : zlen (take n P) + zlen (drop n P) = zlen P) by (rewrite <- zlen_app, take_drop; done).
  split; cbn; rewrite ?E; try done.
  - rewrite Hl, Z.add_0_r, (Z.mod_small (read_pos f)), u32_small by lia. unfold n. rewrite zlen_take_min by lia. do 2 f_equal. lia.
  - rewrite take_drop. done.
Qed.

(** Overwriting put_bytes agree with the others while there is room. *)
Lemma put_overflow_room f L P b : fifo_rep f L P -> zlen L + zlen P < buf_size f ->
  fifo_put_no_overflow f b = (true, fifo_put_overflow f b).
Proof.
  intros R H. unfold fifo_put_no_overflow. rewrite (rep_over _ _ _ R). destruct (Z.eqb_spec (zlen L + zlen P) (buf_size f)); [lia|done].
Qed.

End Fifo.
