(* ===== verification/Usart.v ===== *)
(** The receive side of the serial line to the Bluetooth chip
    (src/core/embed/trezorhal/usart.c): the interrupt handler that looks for
    frames in the circular DMA buffer and moves the good ones to the queue, and
    the functions the application reads the queue with.

    A frame is [A5 5A LH LL payload XOR]; the length counts the payload and the
    XOR byte.  What is queued is the frame without its XOR byte.  The value of the
    DMA counter is an argument of the handler. *)

From Stdlib Require Import ZArith Lia List.
From stdpp Require Import base list numbers.
From S2P Require Import Prelude Fifo.
Import Fifo.
Local Open Scope fw_scope.

Module Usart.

Definition UART_PACKET_MAX_LEN : Z := 256.
Definition UART_BUF_MAX_LEN : Z := 512.

Record usart := MkUsart { dma_uart_rev_buf : list Z; usart_dma_rx_read_pos : Z; uart_fifo_in : trans_fifo }.

Definition with_fifo (f : trans_fifo) (st : usart) : usart := MkUsart (dma_uart_rev_buf st) (usart_dma_rx_read_pos st) f.

(** The static initial values, and the buffers, which start zeroed. *)
Definition usart_start : usart :=
  MkUsart (zrep UART_PACKET_MAX_LEN 0) 0 (fifo_init (zrep UART_BUF_MAX_LEN 0) UART_BUF_MAX_LEN).

Definition xor_fold (x : Z) (bs : list Z) : Z := fold_left Z.lxor bs x.

(** The put loops of the handler ignore the result of a put. *)
Definition put_bytes (f : trans_fifo) (bs : list Z) : trans_fifo := fold_left (fun f b => snd (fifo_put_no_overflow f b)) bs f.

(** The while loop of [usart_rx_dma_process]; [None] when [turns] is too small. *)
Fixpoint rx_loop (turns : nat) (dma : list Z) (available_len processed_len current_read_pos : Z) (f : trans_fifo) :
    option (Z * trans_fifo) :=
  match turns with
  | O => None
  | S turns =>
      let buf_len := UART_PACKET_MAX_LEN in
      let skip := rx_loop turns dma available_len (u32 (processed_len + 1)) (u32 (current_read_pos + 1) mod buf_len) f in
      if negb (processed_len <? available_len) then Some (current_read_pos, f)
      else
        let remaining := u32 (available_len - processed_len) in
        if remaining <? 2 then Some (current_read_pos, f)
        else
          let b0 := znth 0 dma (current_read_pos mod buf_len) in
          let b1 := znth 0 dma (u32 (current_read_pos + 1) mod buf_len) in
          if negb (b0 =? 0xA5) || negb (b1 =? 0x5A) then skip
          else if remaining <? 4 then Some (current_read_pos, f)
          else
            let data_len := u16 (Z.shiftl (znth 0 dma (u32 (current_read_pos + 2) mod buf_len)) 8 +
                                 znth 0 dma (u32 (current_read_pos + 3) mod buf_len)) in
            let packet_total_len := data_len + 4 in
            let packet_store_len := data_len + 3 in
            if (packet_total_len <? 5) || (buf_len <? packet_total_len) then skip
            else if remaining <? packet_total_len then Some (current_read_pos, f)
            else
              let first_part_len := u32 (buf_len - current_read_pos) in
              let first_part_len := if packet_store_len <? first_part_len then packet_store_len else first_part_len in
              let second_part_len := packet_store_len - first_part_len in
              let first_part := slice dma current_read_pos first_part_len in
              let second_part := slice dma 0 second_part_len in
              let xor := xor_fold (xor_fold 0 first_part) second_part in
              if negb (xor =? znth 0 dma (u32 (current_read_pos + packet_total_len - 1) mod buf_len)) then skip
              else
                let f := fifo_lockpos_set (put_bytes (put_bytes f first_part) second_part) in
                rx_loop turns dma available_len (u32 (processed_len + packet_total_len))
                        (u32 (current_read_pos + packet_total_len) mod buf_len) f
  end.

Definition usart_rx_dma_process (counter : Z) (st : usart) : option usart :=
  let dma := dma_uart_rev_buf st in
  let write_pos := u32 (UART_PACKET_MAX_LEN - counter) in
  let pos := usart_dma_rx_read_pos st in
  if write_pos =? pos then Some st
  else
    let available_len := if pos <? write_pos then write_pos - pos else u32 (UART_PACKET_MAX_LEN - pos + write_pos) in
    match rx_loop (S (Z.to_nat available_len)) dma available_len 0 pos (uart_fifo_in st) with
    | Some (current_read_pos, f) => Some (MkUsart dma current_read_pos f)
    | None => None
    end.

Definition ble_usart_can_read (st : usart) : bool := negb (fifo_lockdata_len (uart_fifo_in st) =? 0).

(** A copy to the start of a buffer of the caller; [None] when it overruns. *)
Definition copy_to (buf d : list Z) : option (list Z) :=
  if zlen d <=? zlen buf then Some (d ++ drop (length d) buf) else None.

(** The reads the two readers of the queue share: four bytes are peeked for the
    length field of the header, then the packet is read. *)
Definition read_packet (f : trans_fifo) (buf : list Z) : option (Z * list Z * trans_fifo) :=
  let '(_, d, f) := fifo_read_peek f 4 in
  buf ← copy_to buf d;
  let len := Z.shiftl (znth 0 buf 2) 8 + znth 0 buf 3 in
  let '(_, d, f) := fifo_read_lock f (len + 3) in
  buf ← copy_to buf d;
  Some (len, buf, f).

(** The caller's length argument is not used. *)
Definition ble_usart_read (buf : list Z) (lenth : Z) (st : usart) : option (Z * list Z * usart) :=
  '(len, buf, f) ← read_packet (uart_fifo_in st) buf;
  Some (len + 3, buf, with_fifo f st).

(** The position is reset when reception is switched on again; the queue is kept. *)
Definition ble_usart_irq_ctrl (enable : bool) (st : usart) : usart :=
  if enable then MkUsart (dma_uart_rev_buf st) 0 (uart_fifo_in st) else st.

End Usart.
