(* ===== verification/UsartSpec.v ===== *)
(** The serial link to the Bluetooth chip against a specification on byte
    streams.  [scan] is the framing as a function on the list of received bytes.
    The handler computes it on the circular buffer; the way the stream is cut
    into interrupts does not matter; and the application receives the packets of
    the stream in order as long as neither buffer overflows.  Two theorems show
    what happens outside these limits: a frame as long as the DMA buffer is never
    delivered, and a reader whose buffer is shorter than a packet is overrun. *)

From Stdlib Require Import ZArith Lia List.
From stdpp Require Import base list numbers.
From S2P Require Import Prelude Fifo Usart.
Import Fifo Usart.
Local Open Scope fw_scope.

Module UsartSpec.

(** ** Framing as a function on lists *)

Inductive frame_verdict := Wait | Skip | Take (pkt rest : list Z).

(** What a receiver does with the unread bytes [u]: wait for more, skip a byte,
    or take a packet. *)
Definition frame_at (u : list Z) : frame_verdict :=
  if zlen u <? 2 then Wait
  else if negb (znth 0 u 0 =? 0xA5) || negb (znth 0 u 1 =? 0x5A) then Skip
  else if zlen u <? 4 then Wait
  else
    let n := 256 * znth 0 u 2 + znth 0 u 3 in
    if (n <? 1) || (252 <? n) then Skip
    else if zlen u <? n + 4 then Wait
    else
      let pkt := take (Z.to_nat (n + 3)) u in
      if xor_fold 0 pkt =? znth 0 u (n + 3) then Take pkt (drop (Z.to_nat (n + 4)) u) else Skip.

Fixpoint scan_n (turns : nat) (u : list Z) : list (list Z) * list Z :=
  match turns with
  | O => ([], u)
  | S turns =>
      match frame_at u with
      | Wait => ([], u)
      | Skip => scan_n turns (tail u)
      | Take pkt rest => let '(ps, r) := scan_n turns rest in (pkt :: ps, r)
      end
  end.

(** The packets of a stream and the bytes still waiting for more. *)
Definition scan (u : list Z) : list (list Z) * list Z := scan_n (length u) u.

Lemma zlen_tail (u : list Z) : 0 < zlen u -> zlen (tail u) = zlen u - 1.
Proof. intros H. destruct u; [discriminate H|]. cbn [tail]. rewrite zlen_cons. lia. Qed.

Lemma zlen_drop_n (u : list Z) n : 0 <= n <= zlen u -> zlen (drop (Z.to_nat n) u) = zlen u - n.
Proof. intros H. unfold zlen in *. rewrite length_drop. lia. Qed.

Lemma zlen_take_n (u : list Z) n : 0 <= n <= zlen u -> zlen (take (Z.to_nat n) u) = n.
Proof. intros H. unfold zlen in *. rewrite length_take. lia. Qed.

(** The cases of [frame_at] in one lemma. *)
Lemma frame_at_skip u : frame_at u = Skip -> 2 <= zlen u.
Proof. unfold frame_at. destruct (Z.ltb_spec (zlen u) 2); [done|lia]. Qed.

Lemma frame_at_take u pkt rest : frame_at u = Take pkt rest ->
  let n := 256 * znth 0 u 2 + znth 0 u 3 in
  1 <= n <= 252 /\ n + 4 <= zlen u /\ pkt = take (Z.to_nat (n + 3)) u /\ rest = drop (Z.to_nat (n + 4)) u /\
  xor_fold 0 pkt = znth 0 u (n + 3).
Proof.
  unfold frame_at. destruct (Z.ltb_spec (zlen u) 2); [done|]. destruct (_ || _); [done|].
  destruct (Z.ltb_spec (zlen u) 4); [done|]. cbv zeta.
  set (n := 256 * znth 0 u 2 + znth 0 u 3). destruct (Z.ltb_spec n 1); [done|]. destruct (Z.ltb_spec 252 n); [done|]. cbn [orb].
  destruct (Z.ltb_spec (zlen u) (n + 4)); [done|]. destruct (Z.eqb_spec (xor_fold 0 (take (Z.to_nat (n + 3)) u)) (znth 0 u (n + 3))); [|done].
  intros E. injection E as <- <-. repeat split; (done || lia).
Qed.

Lemma frame_at_wait u : frame_at u = Wait -> zlen u < 256.
Proof.
  unfold frame_at. destruct (Z.ltb_spec (zlen u) 2); [lia|]. destruct (_ || _); [done|].
  destruct (Z.ltb_spec (zlen u) 4); [lia|]. cbv zeta.
  set (n := 256 * znth 0 u 2 + znth 0 u 3). destruct (Z.ltb_spec n 1); [done|]. destruct (Z.ltb_spec 252 n); [done|]. cbn [orb].
  destruct (Z.ltb_spec (zlen u) (n + 4)); [lia|]. by destruct (_ =? _).
Qed.

Lemma frame_at_shorter u pkt rest : frame_at u = Take pkt rest -> zlen rest < zlen u /\ zlen pkt = zlen u - zlen rest - 1.
Proof. intros E. apply frame_at_take in E as (Hn & Hu & -> & -> & _). rewrite zlen_drop_n, zlen_take_n by lia. lia. Qed.

Lemma scan_n_enough : forall m n u, zlen u <= Z.of_nat m -> zlen u <= Z.of_nat n -> scan_n m u = scan_n n u.
Proof.
  assert (Nil : forall k, scan_n k [] = ([], [])) by (intros []; done).
  induction m as [|m IH]; intros n u Hm Hn; pose proof (zlen_nonneg u) as Hz.
  - assert (u = []) as -> by (destruct u; [done|rewrite zlen_cons in Hm; pose proof (zlen_nonneg u); lia]). by rewrite !Nil.
  - destruct n as [|n].
    { assert (u = []) as -> by (destruct u; [done|rewrite zlen_cons in Hn; pose proof (zlen_nonneg u); lia]). by rewrite !Nil. }
    cbn [scan_n]. destruct (frame_at u) as [| |pkt rest] eqn:E; [done|..].
    + pose proof (frame_at_skip u E). pose proof (zlen_tail u). apply IH; lia.
    + pose proof (frame_at_shorter u pkt rest E). rewrite (IH n rest) by lia. done.
Qed.

(** The recursion equation of [scan]. *)
Lemma scan_eq u : scan u =
  match frame_at u with
  | Wait => ([], u)
  | Skip => scan (tail u)
  | Take pkt rest => (pkt :: fst (scan rest), snd (scan rest))
  end.
Proof.
  unfold scan. rewrite (scan_n_enough (length u) (S (length u)) u) by (unfold zlen; lia). cbn [scan_n].
  destruct (frame_at u) as [| |pkt rest] eqn:E; [done|..].
  - pose proof (frame_at_skip u E). pose proof (zlen_tail u). apply scan_n_enough; unfold zlen in *; lia.
  - pose proof (frame_at_shorter u pkt rest E).
    rewrite (scan_n_enough (length u) (length rest) rest) by (unfold zlen in *; lia). by destruct (scan_n _ rest).
Qed.

Lemma znth_app_left (u v : list Z) i : 0 <= i < zlen u -> znth 0 (u ++ v) i = znth 0 u i.
Proof. intros H. unfold znth. destruct (Z.ltb_spec i 0); [done|]. apply app_nth1. unfold zlen in H. lia. Qed.

(** A decision taken on some bytes stands when more arrive. *)
Lemma frame_at_app u v :
  match frame_at u with
  | Wait => True
  | Skip => frame_at (u ++ v) = Skip
  | Take pkt rest => frame_at (u ++ v) = Take pkt (rest ++ v)
  end.
Proof.
  unfold frame_at. pose proof (zlen_nonneg v). rewrite zlen_app.
  destruct (Z.ltb_spec (zlen u) 2); [done|]. destruct (Z.ltb_spec (zlen u + zlen v) 2); [lia|].
  rewrite !(znth_app_left u v 0), !(znth_app_left u v 1) by lia. destruct (_ || _); [done|].
  destruct (Z.ltb_spec (zlen u) 4); [done|]. destruct (Z.ltb_spec (zlen u + zlen v) 4); [lia|]. cbv zeta.
  rewrite !(znth_app_left u v 2), !(znth_app_left u v 3) by lia.
  set (n := 256 * znth 0 u 2 + znth 0 u 3). destruct (Z.ltb_spec n 1); [done|]. destruct (Z.ltb_spec 252 n); [done|]. cbn [orb].
  destruct (Z.ltb_spec (zlen u) (n + 4)); [done|]. destruct (Z.ltb_spec (zlen u + zlen v) (n + 4)); [lia|].
  rewrite (znth_app_left u v) by lia. rewrite take_app_le, drop_app_le by (unfold zlen in *; lia). by destruct (_ =? _).
Qed.

(** Scanning a stream in two parts gives the packets of the whole: the first
    scan leaves exactly what the second one needs. *)
Lemma scan_app_n : forall (m : nat) u v, zlen u <= Z.of_nat m ->
  scan (u ++ v) = (fst (scan u) ++ fst (scan (snd (scan u) ++ v)), snd (scan (snd (scan u) ++ v))).
Proof.
  induction m as [|m IH]; intros u v Hm.
  - assert (u = []) as -> by (destruct u; [done|rewrite zlen_cons in Hm; pose proof (zlen_nonneg u); lia]).
    change (scan []) with (@nil (list Z), @nil Z). cbn [fst snd app]. by destruct (scan v).
  - pose proof (frame_at_app u v) as A. rewrite (scan_eq u). destruct (frame_at u) as [| |pkt rest] eqn:E; cbn [fst snd].
    + by destruct (scan (u ++ v)).
    + rewrite (scan_eq (u ++ v)), A. pose proof (frame_at_skip u E). destruct u as [|x u]; [rewrite zlen_nil in *; lia|].
      cbn [tail app]. rewrite zlen_cons in Hm. rewrite IH by lia. done.
    + rewrite (scan_eq (u ++ v)), A. pose proof (frame_at_shorter u pkt rest E). rewrite (IH rest v) by lia. done.
Qed.

Lemma scan_app u v : scan (u ++ v) = (fst (scan u) ++ fst (scan (snd (scan u) ++ v)), snd (scan (snd (scan u) ++ v))).
Proof. apply (scan_app_n (length u)). unfold zlen. lia. Qed.

(** ** The handler computes the framing *)

(** A packet is queued and offered to the reader. *)
Definition deliver (f : trans_fifo) (pkt : list Z) : trans_fifo := fifo_lockpos_set (put_bytes f pkt).

Lemma take_ring buf pos m n : 0 <= n <= m -> take (Z.to_nat n) (ring buf pos m) = ring buf pos n.
Proof.
  intros H. replace m with (n + (m - n)) by lia. rewrite ring_app by lia. apply take_app_length'.
  pose proof (zlen_ring buf pos n). unfold zlen in *. lia.
Qed.

Lemma drop_ring buf pos m n : 0 <= n <= m -> drop (Z.to_nat n) (ring buf pos m) = ring buf ((pos + n) mod zlen buf) (m - n).
Proof.
  intros H. rewrite ring_mod. replace m with (n + (m - n)) at 1 by lia. rewrite ring_app by lia. apply drop_app_length'.
  pose proof (zlen_ring buf pos n). unfold zlen in *. lia.
Qed.

Lemma tail_ring buf pos m : 1 <= m -> tail (ring buf pos m) = ring buf ((pos + 1) mod zlen buf) (m - 1).
Proof. intros H. rewrite <- (drop_ring buf pos m 1) by lia. by destruct (ring buf pos m). Qed.

(** The two parts of a packet that may wrap around the end of the buffer. *)
Lemma ring_parts buf pos k : 0 <= pos < zlen buf -> 0 <= k <= zlen buf ->
  let a := if k <? zlen buf - pos then k else zlen buf - pos in
  slice buf pos a ++ slice buf 0 (k - a) = ring buf pos k.
Proof.
  intros Hp Hk a. assert (Ha : 0 <= a <= k /\ pos + a <= zlen buf /\ (a = k \/ pos + a = zlen buf))
    by (unfold a; destruct (Z.ltb_spec k (zlen buf - pos)); lia).
  rewrite !slice_ring by lia. replace k with (a + (k - a)) at 2 by lia. rewrite ring_app by lia. f_equal.
  destruct Ha as (_ & _ & [->|E]); [by rewrite Z.sub_diag|].
  rewrite <- (ring_mod buf (pos + a)), E, Z.mod_same by lia. done.
Qed.

Lemma put_bytes_app f a b : put_bytes (put_bytes f a) b = put_bytes f (a ++ b).
Proof. unfold put_bytes. by rewrite fold_left_app. Qed.

Lemma xor_app a b : xor_fold (xor_fold 0 a) b = xor_fold 0 (a ++ b).
Proof. unfold xor_fold. by rewrite fold_left_app. Qed.

Lemma znth_is_byte l i : Forall is_byte l -> is_byte (znth 0 l i).
Proof.
  assert (Z0 : is_byte 0) by (unfold is_byte; lia). intros H. unfold znth. destruct (i <? 0); [done|]. destruct (nth_in_or_default (Z.to_nat i) l 0) as [I| ->]; [|done].
  by apply (proj1 (Forall_forall _ _) H).
Qed.

(** One turn of the handler's loop decides as [frame_at] does on the unread part
    of the circular buffer. *)
Lemma rx_turn turns dma avail proc cur f u :
  zlen dma = 256 -> Forall is_byte dma -> 0 <= cur < 256 -> 0 <= proc <= avail -> avail < 256 -> u = ring dma cur (avail - proc) ->
  rx_loop (S turns) dma avail proc cur f =
  match frame_at u with
  | Wait => Some (cur, f)
  | Skip => rx_loop turns dma avail (proc + 1) ((cur + 1) mod 256) f
  | Take pkt _ => rx_loop turns dma avail (proc + (zlen pkt + 1)) ((cur + (zlen pkt + 1)) mod 256) (deliver f pkt)
  end.
Proof.
  intros Hd Hb Hc Hp Ha Hu. assert (Lu : zlen u = avail - proc) by (subst u; apply zlen_ring; lia).
  assert (Hat : forall k, 0 <= k < zlen u -> znth 0 dma (u32 (cur + k) mod 256) = znth 0 u k).
  { intros k Hk. rewrite u32_small by lia. subst u. rewrite ring_znth by lia. by rewrite Hd. }
  cbn [rx_loop]. unfold UART_PACKET_MAX_LEN, frame_at. rewrite Lu. rewrite (u32_small (proc + 1)), (u32_small (cur + 1)) by lia.
  destruct (Z.ltb_spec proc avail); cbn [negb]; [|destruct (Z.ltb_spec (avail - proc) 2); [done|lia]].
  rewrite (u32_small (avail - proc)) by lia. destruct (Z.ltb_spec (avail - proc) 2); [done|].
  pose proof (Hat 0) as A0. pose proof (Hat 1) as A1. rewrite Z.add_0_r, u32_small in A0 by lia. rewrite u32_small in A1 by lia.
  rewrite A0, A1 by lia. destruct (_ || _); [done|]. destruct (Z.ltb_spec (avail - proc) 4); [done|].
  rewrite (Hat 2), (Hat 3) by lia. cbv zeta.
  assert (Bu : Forall is_byte u) by (subst u; apply Forall_fmap, Forall_forall; intros i _; by apply znth_is_byte).
  pose proof (znth_is_byte u 2 Bu) as B2. pose proof (znth_is_byte u 3 Bu) as B3. unfold is_byte in B2, B3.
  replace (u16 (Z.shiftl (znth 0 u 2) 8 + znth 0 u 3)) with (256 * znth 0 u 2 + znth 0 u 3)
    by (rewrite u16_small, Z.shiftl_mul_pow2 by (rewrite ?Z.shiftl_mul_pow2; lia); lia).
  set (n := 256 * znth 0 u 2 + znth 0 u 3).
  replace (n + 4 <? 5) with (n <? 1) by (destruct (Z.ltb_spec n 1), (Z.ltb_spec (n + 4) 5); lia).
  replace (256 <? n + 4) with (252 <? n) by (destruct (Z.ltb_spec 252 n), (Z.ltb_spec 256 (n + 4)); lia).
  destruct (Z.ltb_spec n 1); [done|]. destruct (Z.ltb_spec 252 n); [done|]. cbn [orb].
  destruct (Z.ltb_spec (avail - proc) (n + 4)); [done|].
  pose proof (ring_parts dma cur (n + 3)) as Parts. rewrite Hd in Parts. cbv zeta in Parts.
  rewrite (u32_small (256 - cur)), xor_app, put_bytes_app, Parts by lia.
  replace (ring dma cur (n + 3)) with (take (Z.to_nat (n + 3)) u) by (subst u; apply take_ring; lia).
  replace (cur + (n + 4) - 1) with (cur + (n + 3)) by lia. rewrite Hat by lia.
  destruct (_ =? _); [cbn [negb]|done]. rewrite zlen_take_n by lia. rewrite (u32_small (proc + _)), (u32_small (cur + _)) by lia.
  unfold deliver. do 2 f_equal; [lia|f_equal; lia].
Qed.

(** The handler's loop is [scan] on the unread part of the circular buffer. *)
Lemma rx_loop_scan turns : forall dma avail proc cur f u,
  zlen dma = 256 -> Forall is_byte dma -> 0 <= cur < 256 -> 0 <= proc <= avail -> avail < 256 -> u = ring dma cur (avail - proc) ->
  zlen u < Z.of_nat turns ->
  rx_loop turns dma avail proc cur f = Some ((cur + (zlen u - zlen (snd (scan u)))) mod 256, fold_left deliver (fst (scan u)) f).
Proof.
  induction turns as [|turns IH]; intros dma avail proc cur f u Hd Hb Hc Hp Ha Hu Ht; [pose proof (zlen_nonneg u); lia|].
  assert (Lu : zlen u = avail - proc) by (subst u; apply zlen_ring; lia).
  rewrite (rx_turn turns dma avail proc cur f u) by done. rewrite (scan_eq u). destruct (frame_at u) as [| |pkt rest] eqn:E; cbn [fst snd fold_left].
  - rewrite Z.sub_diag, Z.add_0_r, Z.mod_small by lia. done.
  - pose proof (frame_at_skip u E). assert (zlen (tail u) = zlen u - 1) as Lt by (apply zlen_tail; lia).
    rewrite (IH dma avail (proc + 1) _ f (tail u)); try done; try lia; [|apply Z.mod_pos_bound; lia|].
    + rewrite Lt, Zplus_mod_idemp_l. do 3 f_equal. lia.
    + rewrite Hu, tail_ring, Hd by lia. f_equal. lia.
  - pose proof (frame_at_shorter u pkt rest E) as Hs. pose proof (frame_at_take u pkt rest E) as (Hn & Hl & Ep & Er & _).
    set (n := 256 * znth 0 u 2 + znth 0 u 3) in *. assert (Lp : zlen pkt = n + 3) by (subst pkt; apply zlen_take_n; lia).
    rewrite Lp in *. rewrite (IH dma avail (proc + (n + 3 + 1)) _ (deliver f pkt) rest); try done; try lia; [|apply Z.mod_pos_bound; lia|].
    + rewrite Zplus_mod_idemp_l. do 3 f_equal. lia.
    + rewrite Er, Hu, drop_ring, Hd by lia. f_equal; [f_equal|]; lia.
Qed.

(** The handler leaves the bytes that wait for more in the buffer and queues the
    packets. *)
Lemma process_scan st u counter : zlen (dma_uart_rev_buf st) = 256 -> Forall is_byte (dma_uart_rev_buf st) ->
  0 <= usart_dma_rx_read_pos st < 256 -> zlen u < 256 -> ring (dma_uart_rev_buf st) (usart_dma_rx_read_pos st) (zlen u) = u ->
  0 < counter <= 256 -> 256 - counter = (usart_dma_rx_read_pos st + zlen u) mod 256 ->
  usart_rx_dma_process counter st = Some (MkUsart (dma_uart_rev_buf st)
    ((usart_dma_rx_read_pos st + (zlen u - zlen (snd (scan u)))) mod 256) (fold_left deliver (fst (scan u)) (uart_fifo_in st))).
Proof.
  intros Hd Hb Hc Hu Hr Hk Hw. destruct st as [dma pos f]. cbn [dma_uart_rev_buf usart_dma_rx_read_pos uart_fifo_in] in *.
  unfold usart_rx_dma_process, UART_PACKET_MAX_LEN. cbn [dma_uart_rev_buf usart_dma_rx_read_pos uart_fifo_in].
  rewrite (u32_small (256 - counter)) by lia. pose proof (zlen_nonneg u).
  destruct (Z.eqb_spec (256 - counter) pos) as [E|E].
  - assert (zlen u = 0) by (destruct (Z.lt_ge_cases (pos + zlen u) 256); [rewrite Z.mod_small in Hw by lia; lia|];
      rewrite <- (Z.mod_add _ (-1)), Z.mod_small in Hw by lia; lia).
    assert (u = []) as -> by (destruct u; [done|rewrite zlen_cons in *; pose proof (zlen_nonneg u); lia]).
    change (scan []) with (@nil (list Z), @nil Z). cbn. by rewrite Z.add_0_r, Z.mod_small by lia.
  - replace (if pos <? 256 - counter then 256 - counter - pos else u32 (256 - pos + (256 - counter))) with (zlen u).
    2: { destruct (Z.lt_ge_cases (pos + zlen u) 256).
         - rewrite Z.mod_small in Hw by lia. destruct (Z.ltb_spec pos (256 - counter)); [lia|]. rewrite u32_small; lia.
         - rewrite <- (Z.mod_add _ (-1)), Z.mod_small in Hw by lia. destruct (Z.ltb_spec pos (256 - counter)); [lia|]. rewrite u32_small; lia. }
    rewrite (rx_loop_scan _ dma (zlen u) 0 pos f u); try done; try lia. by rewrite Z.sub_0_r.
Qed.

End UsartSpec.

(** The serial link from the wire to the application.  The DMA controller writes
    arriving bytes to its circular buffer and raises an interrupt; the handler
    queues the packets; the application fetches them.  An execution is a list of
    events, and its specification keeps the unread bytes and the queued packets
    as lists. *)
Module UsartLink.
Import UsartSpec.

(** ** Frames *)

Definition uart_header (p : list Z) : list Z := [0xA5; 0x5A; (zlen p + 1) / 256; (zlen p + 1) mod 256].
Definition packet (p : list Z) : list Z := uart_header p ++ p.
Definition uart_frame (p : list Z) : list Z := packet p ++ [xor_fold 0 (packet p)].

(** What the other side sends: bytes that do not start a frame, then a frame. *)
Definition sent (item : list Z * list Z) : list Z := fst item ++ uart_frame (snd item).
Definition item_fits (item : list Z * list Z) : Prop :=
  Forall (fun x => is_byte x /\ x <> 0xA5) (fst item) /\ Forall is_byte (snd item) /\ zlen (snd item) <= 251.

Lemma zlen_packet p : zlen (packet p) = zlen p + 4.
Proof. unfold packet. rewrite zlen_app. change (zlen (uart_header p)) with 4. lia. Qed.

Lemma zlen_frame p : zlen (uart_frame p) = zlen p + 5.
Proof. unfold uart_frame. rewrite zlen_app, zlen_packet. change (zlen [_]) with 1. lia. Qed.

Lemma frame_at_frame p v : zlen p <= 251 -> frame_at (uart_frame p ++ v) = Take (packet p) v.
Proof.
  intros Hp. pose proof (zlen_nonneg p). pose proof (zlen_nonneg v). unfold frame_at. rewrite zlen_app, zlen_frame.
  destruct (Z.ltb_spec (zlen p + 5 + zlen v) 2); [lia|].
  change (znth 0 (uart_frame p ++ v) 0) with 0xA5. change (znth 0 (uart_frame p ++ v) 1) with 0x5A. cbn [negb orb Z.eqb Pos.eqb].
  destruct (Z.ltb_spec (zlen p + 5 + zlen v) 4); [lia|].
  change (znth 0 (uart_frame p ++ v) 2) with ((zlen p + 1) / 256). change (znth 0 (uart_frame p ++ v) 3) with ((zlen p + 1) mod 256).
  cbv zeta. rewrite <- Z.div_mod by lia. destruct (Z.ltb_spec (zlen p + 1) 1); [lia|]. destruct (Z.ltb_spec 252 (zlen p + 1)); [lia|].
  cbn [orb]. destruct (Z.ltb_spec (zlen p + 5 + zlen v) (zlen p + 1 + 4)); [lia|].
  assert (Hl : length (packet p) = Z.to_nat (zlen p + 1 + 3)) by (pose proof (zlen_packet p); unfold zlen in *; lia).
  unfold uart_frame. rewrite <- app_assoc, take_app_length' by done.
  replace (zlen p + 1 + 3) with (zlen (packet p) + 0) by (rewrite zlen_packet; lia). rewrite znth_app_r by lia.
  change (znth 0 ([xor_fold 0 (packet p)] ++ v) 0) with (xor_fold 0 (packet p)). rewrite Z.eqb_refl. f_equal.
  rewrite app_assoc. apply drop_app_length'. rewrite length_app. cbn [length]. lia.
Qed.

Lemma frame_at_noise x u : x <> 0xA5 -> 1 <= zlen u -> frame_at (x :: u) = Skip.
Proof.
  intros Hx Hu. unfold frame_at. rewrite zlen_cons. destruct (Z.ltb_spec (1 + zlen u) 2); [lia|].
  change (znth 0 (x :: u) 0) with x. destruct (Z.eqb_spec x 0xA5); done.
Qed.

(** The packets of a stream of frames. *)
Lemma scan_sent items : Forall item_fits items ->
  scan (concat (map sent items)) = (map (fun i => packet (snd i)) items, []).
Proof.
  induction 1 as [|[z p] items [Hz [_ Hp]] _ IH]; [done|]. cbn [map concat]. set (rest := concat _) in *. unfold sent. cbn [fst snd] in *.
  induction Hz as [|x z [_ Hx] _ IHz].
  - cbn [app]. rewrite scan_eq, frame_at_frame, IH by lia. done.
  - cbn [app]. rewrite scan_eq, frame_at_noise; [exact IHz|done|]. rewrite !zlen_app, zlen_frame.
    pose proof (zlen_nonneg z). pose proof (zlen_nonneg p). pose proof (zlen_nonneg rest). lia.
Qed.

(** ** Executions *)

(** The DMA controller in circular mode: a byte is stored and the position moves on. *)
Definition dma_byte (s : list Z * Z) (b : Z) : list Z * Z := (zupd (fst s) (snd s) b, (snd s + 1) mod 256).

Record link := MkLink { l_usart : usart; l_dma_pos : Z }.
Definition link_start : link := MkLink usart_start 0.

Inductive event := Arrive (d : list Z) | Fetch.

(** Bytes arrive and the handler runs, or the application fetches a packet with a
    buffer of [n] bytes if there is one. *)
Definition link_step (n : Z) (l : link) (ev : event) : option (list (list Z) * link) :=
  let st := l_usart l in
  match ev with
  | Arrive d =>
      let '(dma, pos) := fold_left dma_byte d (dma_uart_rev_buf st, l_dma_pos l) in
      st ← usart_rx_dma_process (256 - pos) (MkUsart dma (usart_dma_rx_read_pos st) (uart_fifo_in st));
      Some ([], MkLink st pos)
  | Fetch =>
      if ble_usart_can_read st then
        '(len, buf, st) ← ble_usart_read (zrep n 0) n st;
        Some ([take (Z.to_nat len) buf], MkLink st (l_dma_pos l))
      else Some ([], l)
  end.

Fixpoint link_run (n : Z) (l : link) (evs : list event) : option (list (list Z) * link) :=
  match evs with
  | [] => Some ([], l)
  | ev :: evs => '(ms, l) ← link_step n l ev; '(ms', l) ← link_run n l evs; Some (ms ++ ms', l)
  end.

(** The specification; [None] when one of the two buffers is filled. *)
Definition spec_step (s : list Z * list (list Z)) (ev : event) : option (list (list Z) * (list Z * list (list Z))) :=
  let '(r, Q) := s in
  match ev with
  | Arrive d =>
      let Q' := Q ++ fst (scan (r ++ d)) in
      if (zlen r + zlen d <? UART_PACKET_MAX_LEN) && (zlen (concat Q') <? UART_BUF_MAX_LEN) then Some ([], (snd (scan (r ++ d)), Q')) else None
  | Fetch => match Q with p :: Q => Some ([p], (r, Q)) | [] => Some ([], s) end
  end.

Fixpoint spec_run (s : list Z * list (list Z)) (evs : list event) : option (list (list Z) * (list Z * list (list Z))) :=
  match evs with
  | [] => Some ([], s)
  | ev :: evs => '(ms, s) ← spec_step s ev; '(ms', s) ← spec_run s evs; Some (ms ++ ms', s)
  end.

Definition arrivals (evs : list event) : list Z := concat (map (fun ev => match ev with Arrive d => d | Fetch => [] end) evs).

(** ** The buffers *)

Lemma dma_ring d : forall dma pos0 pos r, zlen dma = 256 -> Forall is_byte dma -> Forall is_byte d -> pos = (pos0 + zlen r) mod 256 -> ring dma pos0 (zlen r) = r ->
  zlen r + zlen d <= 256 ->
  let s := fold_left dma_byte d (dma, pos) in
  zlen (fst s) = 256 /\ Forall is_byte (fst s) /\ snd s = (pos0 + (zlen r + zlen d)) mod 256 /\
  ring (fst s) pos0 (zlen r + zlen d) = r ++ d.
Proof.
  induction d as [|b d IH]; intros dma pos0 pos r Hl Hb Hd Hp Hr Hs.
  - cbn. rewrite zlen_nil, Z.add_0_r, app_nil_r. done.
  - cbn [fold_left]. unfold dma_byte at 2. cbn [fst snd]. apply Forall_cons_iff in Hd as [Hb0 Hd]. rewrite zlen_cons in Hs.
    pose proof (zlen_nonneg r). pose proof (zlen_nonneg d).
    destruct (IH (zupd dma pos b) pos0 ((pos + 1) mod 256) (r ++ [b])) as (A & B & C & D); rewrite ?zlen_zupd; try done.
    + unfold zupd. destruct (pos <? 0); [done|]. by apply Forall_insert.
    + rewrite Hp, Zplus_mod_idemp_l, zlen_app, zlen_cons, zlen_nil. f_equal. lia.
    + rewrite zlen_app. change (zlen [b]) with 1. rewrite Hp, <- Hl, ring_zupd, Hr by lia. done.
    + rewrite zlen_app, zlen_cons, zlen_nil. lia.
    + rewrite zlen_app, zlen_cons, zlen_nil, <- app_assoc in *. cbn [app] in D.
      replace (zlen r + (1 + 0) + zlen d) with (zlen r + (1 + zlen d)) in * by lia. done.
Qed.

Lemma put_bytes_over f d : over_pre f = true -> put_bytes f d = f.
Proof. intros E. induction d as [|b d IH]; [done|]. cbn. unfold fifo_put_no_overflow at 2. rewrite E. exact IH. Qed.

Lemma put_bytes_put_all d : forall f, put_bytes f d = snd (put_all f d).
Proof.
  induction d as [|b d IH]; intros f; [done|]. cbn [put_all]. unfold fifo_put_no_overflow. destruct (over_pre f) eqn:E.
  - by apply put_bytes_over.
  - rewrite <- IH. cbn. unfold fifo_put_no_overflow at 2. by rewrite E.
Qed.

Lemma deliver_rep f L pkt : fifo_rep f L [] -> zlen L + zlen pkt <= buf_size f ->
  fifo_rep (deliver f pkt) (L ++ pkt) [] /\ buf_size (deliver f pkt) = buf_size f.
Proof.
  intros R H. unfold deliver. rewrite put_bytes_put_all. destruct (put_all_rep pkt f L [] R) as (f' & -> & R' & S).
  rewrite zlen_nil, take_ge in R' by (unfold zlen in *; lia). split; [|done]. by apply lockpos_rep in R'.
Qed.

Lemma deliver_all_rep ps : forall f L, fifo_rep f L [] -> zlen L + zlen (concat ps) <= buf_size f ->
  fifo_rep (fold_left deliver ps f) (L ++ concat ps) [] /\ buf_size (fold_left deliver ps f) = buf_size f.
Proof.
  induction ps as [|p ps IH]; intros f L R H; cbn [fold_left concat] in *; [by rewrite app_nil_r|].
  rewrite zlen_app in H. pose proof (zlen_nonneg (concat ps)). destruct (deliver_rep f L p R) as [R1 S1]; [lia|].
  destruct (IH (deliver f p) (L ++ p) R1) as [R2 S2]; [rewrite zlen_app; lia|]. rewrite <- app_assoc in R2. split; [done|lia].
Qed.

(** ** Packets in the queue *)

Definition pkt_ok (p : list Z) : Prop :=
  Forall is_byte p /\ 4 <= zlen p <= 255 /\ Z.shiftl (znth 0 p 2) 8 + znth 0 p 3 + 3 = zlen p.

Lemma scan_pkts_n : forall (m : nat) u, zlen u <= Z.of_nat m -> Forall is_byte u -> Forall pkt_ok (fst (scan u)) /\ Forall is_byte (snd (scan u)) /\ zlen (snd (scan u)) < 256.
Proof.
  induction m as [|m IH]; intros u Hm Hb.
  - assert (u = []) as -> by (destruct u; [done|rewrite zlen_cons in Hm; pose proof (zlen_nonneg u); lia]). by repeat constructor.
  - rewrite (scan_eq u). destruct (frame_at u) as [| |pkt rest] eqn:E.
    + split; [constructor|split; [done|by apply frame_at_wait]].
    + pose proof (frame_at_skip u E). destruct u as [|x u]; [done|]. rewrite zlen_cons in Hm. apply Forall_cons_iff in Hb as [_ Hb]. cbn [tail]. apply IH; [lia|done].
    + pose proof (frame_at_shorter u pkt rest E) as [Hs _]. apply frame_at_take in E as (Hn & Hl & -> & -> & _).
      set (n := 256 * znth 0 u 2 + znth 0 u 3) in *. destruct (IH (drop (Z.to_nat (n + 4)) u)) as (A & B & C); [lia|by apply Forall_drop|].
      cbn [fst snd]. split; [|done]. constructor; [|done]. split; [by apply Forall_take|]. rewrite zlen_take_n by lia. split; [lia|].
      assert (At : forall i, 0 <= i < 4 -> znth 0 (take (Z.to_nat (n + 3)) u) i = znth 0 u i).
      { intros i Hi. rewrite <- (take_drop (Z.to_nat (n + 3)) u) at 2. symmetry. apply znth_app_left. rewrite zlen_take_n; lia. }
      rewrite !At, Z.shiftl_mul_pow2 by lia. unfold n. lia.
Qed.

Lemma scan_pkts u : Forall is_byte u -> Forall pkt_ok (fst (scan u)) /\ Forall is_byte (snd (scan u)) /\ zlen (snd (scan u)) < 256.
Proof. apply (scan_pkts_n (length u)). unfold zlen. lia. Qed.

Lemma copy_to_fits buf d : zlen d <= zlen buf -> copy_to buf d = Some (d ++ drop (length d) buf).
Proof. intros H. unfold copy_to. by rewrite (proj2 (Z.leb_le _ _) H). Qed.

(** Fetching takes the first packet. *)
Lemma read_packet_rep f p rest buf : fifo_rep f (p ++ rest) [] -> zlen (p ++ rest) < buf_size f -> pkt_ok p -> 4 <= zlen buf ->
  exists f', fifo_rep f' rest [] /\ buf_size f' = buf_size f /\
    read_packet f buf = if zlen p <=? zlen buf then Some (zlen p - 3, p ++ drop (length p) buf, f') else None.
Proof.
  intros R Hs (Hb & Hp & Hlen) Hbuf. unfold read_packet. pose proof (@zlen_nil Z) as Z0.
  rewrite (peek_rep f _ _ 4 R) by lia. change (Z.to_nat 4) with 4%nat. rewrite take_app_le by (unfold zlen in *; lia).
  assert (L4 : zlen (take 4 p) = 4) by (unfold zlen in *; rewrite length_take; lia).
  cbv beta iota. rewrite (copy_to_fits buf (take 4 p)) by lia. cbn [mbind option_bind].
  set (b1 := take 4 p ++ _). assert (At : forall i, 0 <= i < 4 -> znth 0 b1 i = znth 0 p i).
  { intros i Hi. unfold b1. rewrite znth_app_left by lia. rewrite <- (take_drop 4 p) at 2. symmetry. apply znth_app_left. lia. }
  rewrite !At by lia. replace (Z.shiftl (znth 0 p 2) 8 + znth 0 p 3) with (zlen p - 3) by lia.
  assert (Lb : zlen b1 = zlen buf) by (unfold b1, zlen in *; rewrite length_app, length_drop; lia).
  destruct (read_rep f _ _ (zlen p - 3 + 3) R) as (f' & -> & R' & S); [lia|intros _; rewrite Z0; pose proof (zlen_nonneg (p ++ rest)); lia|].
  replace (zlen p - 3 + 3) with (zlen p) in * by lia. replace (Z.to_nat (zlen p)) with (length p) in * by (unfold zlen; lia).
  rewrite take_app_length, drop_app_length in *. exists f'. split; [done|]. split; [done|]. unfold copy_to. rewrite Lb.
  destruct (Z.leb_spec (zlen p) (zlen buf)); [|done]. cbn [mbind option_bind]. do 3 f_equal. unfold b1.
  rewrite drop_app_ge by (unfold zlen in *; lia). rewrite drop_drop. do 2 f_equal. unfold zlen in *. lia.
Qed.

(** ** The link follows the specification *)

(** The circular buffer holds the unread bytes, the queue the packets. *)
Record link_ok (l : link) (r : list Z) (Q : list (list Z)) : Prop := {
  lk_dma : zlen (dma_uart_rev_buf (l_usart l)) = 256;
  lk_bytes : Forall is_byte (dma_uart_rev_buf (l_usart l));
  lk_read : 0 <= usart_dma_rx_read_pos (l_usart l) < 256;
  lk_short : zlen r < 256;
  lk_unread : ring (dma_uart_rev_buf (l_usart l)) (usart_dma_rx_read_pos (l_usart l)) (zlen r) = r;
  lk_pos : l_dma_pos l = (usart_dma_rx_read_pos (l_usart l) + zlen r) mod 256;
  lk_fifo : fifo_rep (uart_fifo_in (l_usart l)) (concat Q) [];
  lk_size : buf_size (uart_fifo_in (l_usart l)) = UART_BUF_MAX_LEN;
  lk_room : zlen (concat Q) < UART_BUF_MAX_LEN;
  lk_pkts : Forall pkt_ok Q }.

Lemma link_start_ok : link_ok link_start [] [].
Proof. split; try done. by apply Forall_zrep. Qed.

Lemma suffix_ring buf pos u r : 0 < zlen buf -> ring buf pos (zlen u) = u -> (exists v, u = v ++ r) ->
  ring buf ((pos + (zlen u - zlen r)) mod zlen buf) (zlen r) = r.
Proof.
  intros Hb Hu [v ->]. rewrite zlen_app in *. pose proof (zlen_nonneg v). pose proof (zlen_nonneg r).
  rewrite ring_mod. rewrite ring_app in Hu by lia. replace (zlen v + zlen r - zlen r) with (zlen v) by lia.
  apply app_inj_1 in Hu as [_ Hu]; [done|]. pose proof (zlen_ring buf pos (zlen v)). unfold zlen in *. lia.
Qed.

(** What waits for more bytes is the end of the stream. *)
Lemma scan_suffix_n : forall (m : nat) u, zlen u <= Z.of_nat m -> exists v, u = v ++ snd (scan u).
Proof.
  induction m as [|m IH]; intros u Hm.
  - assert (u = []) as -> by (destruct u; [done|rewrite zlen_cons in Hm; pose proof (zlen_nonneg u); lia]). by exists [].
  - rewrite (scan_eq u). destruct (frame_at u) as [| |pkt rest] eqn:E; [by exists []|..].
    + pose proof (frame_at_skip u E). destruct u as [|x u]; [done|]. cbn [tail]. rewrite zlen_cons in Hm.
      destruct (IH u) as [v Hv]; [lia|]. exists (x :: v). cbn. by rewrite <- Hv.
    + pose proof (frame_at_shorter u pkt rest E). apply frame_at_take in E as (_ & _ & _ & -> & _). cbn [snd].
      destruct (IH (drop (Z.to_nat (256 * znth 0 u 2 + znth 0 u 3 + 4)) u)) as [v Hv]; [lia|].
      set (k := Z.to_nat _) in *. exists (take k u ++ v). rewrite <- app_assoc, <- Hv. by rewrite take_drop.
Qed.

Lemma scan_suffix u : exists v, u = v ++ snd (scan u).
Proof. apply (scan_suffix_n (length u)). unfold zlen. lia. Qed.

Definition ev_bytes (ev : event) : Prop := match ev with Arrive d => Forall is_byte d | Fetch => True end.

Lemma arrive_step n l r Q d ms s : link_ok l r Q -> Forall is_byte d -> spec_step (r, Q) (Arrive d) = Some (ms, s) ->
  exists l', link_step n l (Arrive d) = Some (ms, l') /\ link_ok l' (fst s) (snd s).
Proof.
  intros [Hd Hb Hc Hs Hu Hp Hf Hz Hm Hk] Bd E. cbn [spec_step] in E.
  destruct (Z.ltb_spec (zlen r + zlen d) UART_PACKET_MAX_LEN) as [H1|]; [|done].
  destruct (Z.ltb_spec (zlen (concat (Q ++ fst (scan (r ++ d))))) UART_BUF_MAX_LEN) as [H2|]; [|done]. injection E as <- <-.
  unfold UART_PACKET_MAX_LEN in H1. destruct l as [[dma rp f] pos]. cbn [l_usart l_dma_pos dma_uart_rev_buf usart_dma_rx_read_pos uart_fifo_in] in *.
  destruct (dma_ring d dma rp pos r Hd Hb Bd Hp Hu ltac:(lia)) as (Hd' & Hb' & Hp' & Hu').
  cbn [link_step l_usart l_dma_pos dma_uart_rev_buf usart_dma_rx_read_pos uart_fifo_in].
  destruct (fold_left dma_byte d (dma, pos)) as [dma' pos']. cbn [fst snd] in *.
  assert (Hpos : 0 <= pos' < 256) by (rewrite Hp'; apply Z.mod_pos_bound; lia).
  rewrite <- zlen_app in *.
  rewrite (process_scan (MkUsart dma' rp f) (r ++ d) (256 - pos')); cbn [dma_uart_rev_buf usart_dma_rx_read_pos uart_fifo_in]; try done; try lia.
  cbn [mbind option_bind]. eexists. split; [done|].
  assert (Bu : Forall is_byte (r ++ d)) by (rewrite <- Hu'; apply Forall_fmap, Forall_forall; intros i _; by apply znth_is_byte).
  destruct (scan_pkts (r ++ d) Bu) as (Pk & Br & Lr). rewrite concat_app in H2. rewrite zlen_app in H2.
  destruct (deliver_all_rep (fst (scan (r ++ d))) f (concat Q) Hf) as [Hf' Hz']; [lia|].
  split; cbn [l_usart l_dma_pos dma_uart_rev_buf usart_dma_rx_read_pos uart_fifo_in fst snd]; try done.
  - apply Z.mod_pos_bound. lia.
  - rewrite <- Hd' at 1. apply suffix_ring; [lia|done|apply scan_suffix].
  - rewrite Hp', Zplus_mod_idemp_l. f_equal. lia.
  - by rewrite concat_app.
  - lia.
  - rewrite concat_app, zlen_app. lia.
  - by apply Forall_app.
Qed.

Lemma fetch_step n l r Q ms s : 4 <= n -> Forall (fun p => zlen p <= n) ms -> link_ok l r Q -> spec_step (r, Q) Fetch = Some (ms, s) ->
  exists l', link_step n l Fetch = Some (ms, l') /\ link_ok l' (fst s) (snd s).
Proof.
  intros Hn Hfit [Hd Hb Hc Hs Hu Hp Hf Hz Hm Hk] E. destruct l as [[dma rp f] pos]. cbn [l_usart l_dma_pos dma_uart_rev_buf usart_dma_rx_read_pos uart_fifo_in] in *.
  cbn [link_step l_usart]. unfold ble_usart_can_read. cbn [uart_fifo_in]. rewrite (lockdata_len_rep f _ _ Hf) by (intros _; rewrite Hz; done).
  destruct Q as [|p Q]; cbn [spec_step] in E; injection E as <- <-; [by eexists|].
  apply Forall_inv in Hfit. apply Forall_cons_iff in Hk as [Hp0 Hk]. cbn [concat] in *. pose proof (proj1 (proj2 Hp0)).
  destruct (Z.eqb_spec (zlen (p ++ concat Q)) 0) as [E|_]; [rewrite zlen_app in E; pose proof (zlen_nonneg (concat Q)); lia|].
  destruct (read_packet_rep f p (concat Q) (zrep n 0) Hf) as (f' & R' & S' & Er); [lia|done|rewrite zlen_zrep; lia|].
  unfold ble_usart_read. cbn [uart_fifo_in negb]. rewrite Er, zlen_zrep by lia. destruct (Z.leb_spec (zlen p) n); [|lia].
  cbn [mbind option_bind]. replace (zlen p - 3 + 3) with (zlen p) by lia.
  replace (Z.to_nat (zlen p)) with (length p) by (unfold zlen; lia). rewrite take_app_length.
  eexists. split; [done|]. rewrite zlen_app in Hm. split; cbn; try done; [lia|pose proof (zlen_nonneg p); lia].
Qed.

Lemma link_follows n evs : forall l r Q ms s, 4 <= n -> Forall (fun p => zlen p <= n) ms -> link_ok l r Q -> Forall ev_bytes evs -> spec_run (r, Q) evs = Some (ms, s) ->
  exists l', link_run n l evs = Some (ms, l') /\ link_ok l' (fst s) (snd s).
Proof.
  induction evs as [|ev evs IH]; intros l r Q ms s Hn Hfit H B E; cbn [spec_run link_run] in *; [injection E as <- <-; by exists l|].
  apply Forall_cons_iff in B as [Be B]. destruct (spec_step (r, Q) ev) as [[m1 [r1 Q1]]|] eqn:E1; [|done]. cbn [mbind option_bind] in E.
  destruct (spec_run (r1, Q1) evs) as [[m2 s2]|] eqn:E2; [|done]. cbn [mbind option_bind] in *. injection E as <- <-.
  apply Forall_app in Hfit as [Hfit1 Hfit2].
  assert (exists l1, link_step n l ev = Some (m1, l1) /\ link_ok l1 r1 Q1) as (l1 & -> & H1).
  { destruct ev as [d|]; [by apply (arrive_step n l r Q d m1 (r1, Q1))|by apply (fetch_step n l r Q m1 (r1, Q1))]. }
  cbn [mbind option_bind]. destruct (IH l1 r1 Q1 m2 s2 Hn Hfit2 H1 B E2) as (l2 & -> & H2). by exists l2.
Qed.

(** The specification loses nothing and keeps the order. *)
Lemma spec_packets evs : forall r Q ms s, snd (scan r) = r -> fst (scan r) = [] -> spec_run (r, Q) evs = Some (ms, s) ->
  ms ++ snd s = Q ++ fst (scan (r ++ arrivals evs)) /\ fst s = snd (scan (r ++ arrivals evs)).
Proof.
  induction evs as [|ev evs IH]; intros r Q ms s Hr Hn E; cbn [spec_run] in E.
  - injection E as <- <-. unfold arrivals. cbn. rewrite app_nil_r, Hn, app_nil_r. by rewrite Hr.
  - destruct (spec_step (r, Q) ev) as [[m1 [r1 Q1]]|] eqn:E1; [|done]. cbn [mbind option_bind] in E.
    destruct (spec_run (r1, Q1) evs) as [[m2 s2]|] eqn:E2; [|done]. cbn [mbind option_bind] in E. injection E as <- <-.
    destruct ev as [d|]; cbn [spec_step] in E1.
    + destruct (_ && _); [|done]. injection E1 as <- <- <-. set (r1 := snd (scan (r ++ d))) in *.
      pose proof (scan_app (r ++ d) []) as Idem. rewrite !app_nil_r in Idem. fold r1 in Idem.
      assert (I1 : fst (scan r1) = []) by (apply (f_equal fst) in Idem; cbn in Idem; by apply (app_inv_head (fst (scan (r ++ d)))); rewrite app_nil_r).
      assert (I2 : snd (scan r1) = r1) by (apply (f_equal snd) in Idem; done).
      destruct (IH r1 _ m2 s2 I2 I1 E2) as [A B]. change (arrivals (Arrive d :: evs)) with (d ++ arrivals evs).
      rewrite (app_assoc r), (scan_app (r ++ d)). fold r1. cbn [fst snd app]. rewrite A, app_assoc. done.
    + change (arrivals (Fetch :: evs)) with (arrivals evs). destruct Q as [|p Q]; injection E1 as <- <- <-.
      * destruct (IH r [] m2 s2 Hr Hn E2) as [A B]. done.
      * destruct (IH r Q m2 s2 Hr Hn E2) as [A B]. cbn [app]. by rewrite A.
Qed.

(** C16: the packets of a stream of frames, with bytes that start no frame between
    them, reach the application complete, unchanged and in order, however the
    stream is cut into interrupts and whenever the application fetches, as long
    as every packet fits into the reader's buffer of [n] bytes (64 in the poll loop
    of the application, 128 in [ble_uart_poll]; see [short_reader_overrun] for one
    that does not), fewer than 256 bytes are unread and fewer than 512 queued; what was
    not fetched yet is queued. *)
Theorem uart_link_delivers n items evs ms r Q : 4 <= n -> Forall (fun i => zlen (packet (snd i)) <= n) items ->
  Forall item_fits items -> Forall ev_bytes evs ->
  arrivals evs = concat (map sent items) -> spec_run ([], []) evs = Some (ms, (r, Q)) ->
  exists l, link_run n link_start evs = Some (ms, l) /\ link_ok l [] Q /\ ms ++ Q = map (fun i => packet (snd i)) items.
Proof.
  intros Hn Hfit Hi Hb Ha E. destruct (spec_packets evs [] [] ms (r, Q) eq_refl eq_refl E) as [A B]. cbn [app fst snd] in *.
  rewrite Ha, (scan_sent items Hi) in A, B. cbn [fst snd] in *. subst r.
  assert (Hms : Forall (fun p => zlen p <= n) (ms ++ Q)) by (rewrite A; by apply Forall_fmap).
  apply Forall_app in Hms as [Hms _].
  destruct (link_follows n evs link_start [] [] ms ([], Q) Hn Hms link_start_ok Hb E) as (l & El & Hl). by exists l.
Qed.

Definition demo_sent : list (list Z * list Z) := [([7], [8; 1; 2]); ([], [9; 0x63])].
Definition demo_events : list event :=
  [Arrive [7; 0xA5; 0x5A; 0; 4]; Fetch; Arrive [8; 1; 2; 0xF0; 0xA5]; Fetch; Fetch; Arrive [0x5A; 0; 3; 9; 0x63; 0x96]].

Lemma uart_link_delivers_witness :
  exists l, link_run 64 link_start demo_events = Some ([[0xA5; 0x5A; 0; 4; 8; 1; 2]], l) /\ link_ok l [] [[0xA5; 0x5A; 0; 3; 9; 0x63]].
Proof.
  destruct (uart_link_delivers 64 demo_sent demo_events [[0xA5; 0x5A; 0; 4; 8; 1; 2]] [] [[0xA5; 0x5A; 0; 3; 9; 0x63]])
    as (l & H1 & H2 & _).
  - lia.
  - repeat (apply Forall_nil_2 || apply Forall_cons_2); vm_compute; discriminate.
  - unfold demo_sent, item_fits, is_byte. repeat (apply Forall_nil_2 || apply Forall_cons_2 || split); first [lia|vm_compute; discriminate].
  - unfold demo_events, ev_bytes, is_byte. repeat (apply Forall_nil_2 || apply Forall_cons_2 || split); lia.
  - vm_compute. reflexivity.
  - vm_compute. reflexivity.
  - exists l. split; assumption.
Defined.

(** ** Outside the limits *)

Lemma packet_bytes p : Forall is_byte p -> zlen p <= 251 -> Forall is_byte (packet p).
Proof.
  intros Hb Hp. pose proof (zlen_nonneg p). apply Forall_app. split; [|done].
  unfold uart_header, is_byte. repeat apply Forall_cons_2; try apply Forall_nil_2; zlia.
Qed.

Lemma xor_is_byte bs : forall x, is_byte x -> Forall is_byte bs -> is_byte (xor_fold x bs).
Proof.
  induction bs as [|b bs IH]; intros x Hx Hb; [done|]. apply Forall_cons_iff in Hb as [H0 Hb]. cbn. apply IH; [|done].
  unfold is_byte in *. assert (0 <= Z.lxor x b) by (apply Z.lxor_nonneg; lia). split; [done|].
  destruct (Z.eq_dec (Z.lxor x b) 0) as [->|]; [lia|]. apply Z.log2_lt_pow2 with (b := 8); [lia|].
  pose proof (Z.log2_lxor x b ltac:(lia) ltac:(lia)).
  assert (forall y, 0 <= y < 256 -> Z.log2 y < 8) as L by (intros y Hy; destruct (Z.eq_dec y 0) as [->|]; [done|apply Z.log2_lt_pow2; lia]).
  pose proof (L x Hx). pose proof (L b H0). lia.
Qed.

Lemma frame_bytes p : Forall is_byte p -> zlen p <= 251 -> Forall is_byte (uart_frame p).
Proof.
  intros Hb Hp. apply Forall_app. split; [by apply packet_bytes|]. apply Forall_cons_2; [|apply Forall_nil_2].
  apply xor_is_byte; [done|by apply packet_bytes].
Qed.

(** C34: the reader does not use the length of the caller's buffer: a packet
    that is longer overruns it.  The packets the handler accepts have up to 254
    bytes, and the poll loop of the application reads with a buffer of 64. *)
Theorem short_reader_overrun n p : 4 <= n < zlen p + 4 -> zlen p <= 250 -> Forall is_byte p ->
  link_run n link_start [Arrive (uart_frame p); Fetch] = None.
Proof.
  intros Hn Hp Hb. pose proof (zlen_nonneg p).
  assert (Es : scan ([] ++ uart_frame p) = ([packet p], [])).
  { cbn [app]. rewrite <- (app_nil_r (uart_frame p)), scan_eq, frame_at_frame by lia. done. }
  destruct (arrive_step n link_start [] [] (uart_frame p) [] ([], [packet p]) link_start_ok (frame_bytes p Hb ltac:(lia))) as (l & El & Hl).
  { cbn [spec_step]. rewrite Es. cbn [fst snd concat app]. rewrite app_nil_r, zlen_nil, zlen_frame, zlen_packet.
    unfold UART_PACKET_MAX_LEN, UART_BUF_MAX_LEN. destruct (Z.ltb_spec (0 + (zlen p + 5)) 256); [|lia]. by destruct (Z.ltb_spec (zlen p + 4) 512); [|lia]. }
  cbn [link_run]. rewrite El. cbn [mbind option_bind]. cbn [fst snd] in Hl. destruct Hl as [_ _ _ _ _ _ Hf Hz _ Hk].
  apply Forall_cons_iff in Hk as [Hk _]. cbn [concat] in Hf. destruct l as [[dma rp f] pos]. cbn [link_step l_usart uart_fifo_in] in *.
  unfold ble_usart_can_read, ble_usart_read. cbn [uart_fifo_in]. pose proof (zlen_packet p). unfold UART_BUF_MAX_LEN in Hz.
  assert (La : zlen (packet p ++ []) = zlen p + 4) by (by rewrite app_nil_r).
  rewrite (lockdata_len_rep f _ _ Hf) by (intros _; rewrite zlen_nil; lia). rewrite La.
  destruct (Z.eqb_spec (zlen p + 4) 0); [lia|]. cbn [negb].
  destruct (read_packet_rep f (packet p) [] (zrep n 0) Hf) as (f' & _ & _ & ->); [lia|done|rewrite zlen_zrep; lia|].
  rewrite zlen_zrep by lia. destruct (Z.leb_spec (zlen (packet p)) n); [lia|done].
Qed.

Lemma short_reader_overrun_witness : link_run 64 link_start [Arrive (uart_frame (zrep 61 7)); Fetch] = None.
Proof. apply (short_reader_overrun 64 (zrep 61 7)); [vm_compute; split; congruence|vm_compute; congruence|apply Forall_zrep; vm_compute; split; congruence]. Defined.

(** A proper prefix of a frame waits. *)
Lemma prefix_waits p u v : zlen p <= 251 -> u ++ v = uart_frame p -> v <> [] -> scan u = ([], u).
Proof.
  intros Hp E Hv. rewrite scan_eq. pose proof (frame_at_app u v) as A. pose proof (frame_at_frame p [] Hp) as F. rewrite app_nil_r, <- E in F.
  destruct (frame_at u) as [| |pkt rest]; [done|..]; rewrite F in A; [done|]. injection A as _ A. symmetry in A. by apply app_eq_nil in A as [_ ?].
Qed.

(** The whole buffer was filled: the handler takes it for empty. *)
Definition wrapped (l : link) : Prop :=
  fifo_rep (uart_fifo_in (l_usart l)) [] [] /\ buf_size (uart_fifo_in (l_usart l)) = UART_BUF_MAX_LEN /\
  l_dma_pos l = usart_dma_rx_read_pos (l_usart l) /\ 0 <= l_dma_pos l < 256.

Lemma wrapped_nothing n l : wrapped l -> link_step n l (Arrive []) = Some ([], l).
Proof.
  intros (_ & _ & Hp & Hr). destruct l as [[dma rp f] pos]. cbn in *. unfold usart_rx_dma_process, UART_PACKET_MAX_LEN. cbn [usart_dma_rx_read_pos].
  rewrite u32_small by lia. replace (256 - (256 - pos)) with rp by lia. by rewrite Z.eqb_refl.
Qed.

Lemma fill_wraps n l u d p : link_ok l u [] -> u ++ d = uart_frame p -> Forall is_byte d -> zlen p = 251 ->
  exists l', link_step n l (Arrive d) = Some ([], l') /\ wrapped l'.
Proof.
  intros [Hd Hb Hc Hs Hu Hp Hf Hz Hm Hk] E Bd Lp. pose proof (f_equal zlen E) as Le. rewrite zlen_app, zlen_frame in Le.
  destruct l as [[dma rp f] pos]. cbn [l_usart l_dma_pos dma_uart_rev_buf usart_dma_rx_read_pos uart_fifo_in] in *.
  destruct (dma_ring d dma rp pos u Hd Hb Bd Hp Hu ltac:(lia)) as (_ & _ & Hp' & _).
  cbn [link_step l_usart l_dma_pos dma_uart_rev_buf usart_dma_rx_read_pos uart_fifo_in].
  destruct (fold_left dma_byte d (dma, pos)) as [dma' pos']. cbn [fst snd] in *.
  assert (pos' = rp) as -> by (rewrite Hp', Le; replace (251 + 5) with (1 * 256) by lia; rewrite Lp; replace (rp + (251 + 5)) with (rp + 1 * 256) by lia; rewrite Z.mod_add, Z.mod_small by lia; done).
  unfold usart_rx_dma_process, UART_PACKET_MAX_LEN. cbn [usart_dma_rx_read_pos]. rewrite u32_small by lia.
  replace (256 - (256 - rp)) with rp by lia. rewrite Z.eqb_refl. cbn [mbind option_bind]. eexists. split; [done|]. done.
Qed.

Lemma fill_lost n p ds : zlen p = 251 -> forall l u, link_ok l u [] -> u ++ concat ds = uart_frame p -> Forall (Forall is_byte) ds ->
  exists l', link_run n l (map Arrive ds) = Some ([], l') /\ wrapped l'.
Proof.
  intros Lp. induction ds as [|d ds IH]; intros l u Hl E Hb; cbn [concat map link_run] in *.
  - rewrite app_nil_r in E. pose proof (lk_short _ _ _ Hl) as Hs. rewrite E, zlen_frame in Hs. lia.
  - apply Forall_cons_iff in Hb as [Hb0 Hb]. rewrite app_assoc in E. destruct (decide (concat ds = [])) as [En|En].
    + rewrite En, app_nil_r in E. destruct (fill_wraps n l u d p Hl E Hb0 Lp) as (l1 & -> & W1). cbn [mbind option_bind].
      assert (Hnil : Forall (fun d => d = []) ds) by (clear -En; induction ds; [constructor|cbn in En; apply app_eq_nil in En as [-> En]; constructor; auto]).
      clear -W1 Hnil. induction Hnil as [|d ds -> _ IHd]; cbn [map link_run]; [by exists l1|].
      rewrite (wrapped_nothing n l1 W1). cbn [mbind option_bind]. destruct IHd as (l2 & E2 & W2).
      destruct (link_run n l1 (map Arrive ds)) as [[ms l3]|]; [|done]. cbn [mbind option_bind] in *. exists l2. done.
    + pose proof (prefix_waits p (u ++ d) (concat ds) ltac:(lia) E En) as Ew.
      pose proof (f_equal zlen E) as Le. rewrite !zlen_app, zlen_frame in Le.
      assert (0 < zlen (concat ds)) by (destruct (concat ds); [done|rewrite zlen_cons; pose proof (zlen_nonneg l0); lia]).
      destruct (arrive_step n l u [] d [] (u ++ d, []) Hl Hb0) as (l1 & -> & H1).
      { cbn [spec_step]. rewrite Ew. cbn [fst snd app concat]. unfold UART_PACKET_MAX_LEN. by destruct (Z.ltb_spec (zlen u + zlen d) 256); [|lia]. }
      cbn [mbind option_bind fst snd] in *. destruct (IH l1 (u ++ d) H1 E Hb) as (l2 & -> & W). by exists l2.
Qed.

(** A frame whose 256 bytes fill the DMA buffer passes the length check of
    the handler, but it is never delivered: complete, it leaves the write
    position where the read position is, which the handler takes for nothing
    received. *)
Theorem longest_frame_lost n p ds : zlen p = 251 -> Forall is_byte p -> concat ds = uart_frame p ->
  exists l, link_run n link_start (map Arrive ds ++ [Fetch]) = Some ([], l) /\ l_dma_pos l = usart_dma_rx_read_pos (l_usart l).
Proof.
  intros Lp Hb E. pose proof (frame_bytes p Hb ltac:(lia)) as Bf. rewrite <- E in Bf. apply Forall_concat in Bf.
  destruct (fill_lost n p ds Lp link_start [] link_start_ok E Bf) as (l & El & W). exists l. split; [|apply W].
  assert (Ef : link_step n l Fetch = Some ([], l)).
  { destruct W as (Hf & Hz & _). destruct l as [[dma rp f] pos]. cbn [link_step l_usart uart_fifo_in] in *. unfold ble_usart_can_read.
    cbn [uart_fifo_in]. rewrite (lockdata_len_rep f _ _ Hf) by (intros _; rewrite zlen_nil, Hz; done). done. }
  clear -El Ef. revert El. generalize link_start. induction ds as [|d ds IH]; intros l0 El; cbn [map app link_run] in *.
  - injection El as ->. by rewrite Ef.
  - destruct (link_step n l0 (Arrive d)) as [[m1 l1]|]; [|done]. cbn [mbind option_bind] in *.
    destruct (link_run n l1 (map Arrive ds)) as [[m2 l2]|] eqn:E2; [|done]. cbn [mbind option_bind] in El. injection El as Em ->.
    apply app_eq_nil in Em as [-> ->]. by rewrite (IH l1 E2).
Qed.

Definition demo_frame : list Z := uart_frame (zrep 251 7).

Lemma longest_frame_lost_witness :
  exists l, link_run 255 link_start (map Arrive [take 100 demo_frame; drop 100 demo_frame] ++ [Fetch]) = Some ([], l) /\ l_dma_pos l = usart_dma_rx_read_pos (l_usart l).
Proof.
  apply (longest_frame_lost 255 (zrep 251 7)).
  - vm_compute. reflexivity.
  - apply Forall_zrep. vm_compute. split; congruence.
  - cbn [concat]. rewrite app_nil_r. apply take_drop.
Defined.

End UsartLink.
