(* ===== verification/Ble.v ===== *)
(** The Bluetooth chip as the firmware sees it (src/core/embed/trezorhal/ble.c):
    the frames it is sent, the packets polled from it and the requests that wait
    for an answer.

    The state is the static variables of the file, numbers and byte arrays, the
    receive queue of the serial line and the frames handed to [ble_usart_send].
    While a request waits, interrupts change the queue: [env k] is what they do to
    it before the [k]-th poll.  A copy that leaves its array ends the execution. *)

From Stdlib Require Import ZArith Lia List.
From stdpp Require Import base list numbers functions.
From S2P Require Import Prelude Fifo Usart UsartSpec.
Import Fifo Usart UsartSpec UsartLink.
Local Open Scope fw_scope.

Module Ble.

Definition BLE_NAME_LEN : Z := 16.
Definition BLE_CMD_ADV : Z := 0x01.
Definition BLE_CMD_CON_STA : Z := 0x02.
Definition BLE_CMD_PAIR_TX : Z := 0x03.
Definition BLE_CMD_PAIR_STA : Z := 0x04.
Definition BLE_CMD_FM_VER : Z := 0x05.
Definition BLE_CMD_PROTO_VER : Z := 0x06.
Definition BLE_CMD_BOOT_VER : Z := 0x07.
Definition BLE_CMD_POWER_STA : Z := 0x08.
Definition BLE_CMD_EQ : Z := 0x09.
Definition BLE_CMD_KEY_STA : Z := 0x0A.
Definition BLE_CMD_POWER_ERR : Z := 0x0B.
Definition BLE_CMD_BATTERY_INFO : Z := 0x0D.
Definition BLE_CMD_DEV_KEY : Z := 0x0E.
Definition BLE_CMD_BT_BUILD_ID : Z := 0x10.
Definition BLE_CMD_BT_HASH : Z := 0x11.
Definition BLE_CMD_BT_MAC : Z := 0x12.
Definition BLE_INSERT_POWER : Z := 0x01.
Definition BLE_CHARGING_PWR : Z := 0x03.
Definition BLE_CHAGE_OVER : Z := 0x04.
Definition CHARGE_TYPE_USB : Z := 0x01.
Definition CHARGE_TYPE_WIRELESS : Z := 0x02.
Definition BLE_KEY_RESP_SUCCESS : Z := 0x00.
Definition BLE_KEY_RESP_FAILED : Z := 0x01.
Definition BLE_KEY_RESP_PUBKEY : Z := 0x02.
Definition BLE_KEY_RESP_SIGN : Z := 0x03.
Definition BLE_BT : Z := 0x81.
Definition BLE_BT_STA : Z := 0x04.
Definition BLE_PWR : Z := 0x82.
Definition BLE_PWR_EQ : Z := 0x04.
Definition BLE_PWR_CHARGING : Z := 0x05.
Definition BLE_INFO : Z := 0x83.
Definition BLE_INFO_ADV_NAME : Z := 0x01.
Definition BLE_INFO_VER_FW : Z := 0x02.
Definition BLE_INFO_BUILD_ID : Z := 0x05.
Definition BLE_INFO_HASH : Z := 0x06.
Definition BLE_INFO_MAC_ADDR : Z := 0x07.
Definition BLE_FLASHLED : Z := 0x85.
Definition BLE_BATTERY_INFO : Z := 0x86.
Definition BLE_BATTERY_INFO_VOLTAGE : Z := 0x01.
Definition BLE_BATTERY_INFO_CHARGING_CURRENT : Z := 0x02.
Definition BLE_BATTERY_INFO_DISCHARGING_CURRENT : Z := 0x03.
Definition BLE_BATTERY_INFO_INNER_TEMP : Z := 0x04.
Definition BLE_DEVICE_KEY : Z := 0x87.
Definition BLE_DEVICE_KEY_GET : Z := 0x01.
Definition BLE_DEVICE_KEY_LOCK : Z := 0x02.
Definition BLE_DEVICE_KEY_SIGN : Z := 0x03.

(** The numbers and flags of the file; a C bool is 0 or 1. *)
Inductive var :=
  | battery_cap | dev_pwr_sta | dev_pwr_err | get_ble_name | get_ble_ver | get_ble_build | get_ble_hash | get_ble_mac
  | get_ble_proto_ver | get_ble_boot_ver | get_ble_battery | get_ble_charging | ble_charging_type | ble_connect
  | ble_switch | get_ble_switch | dev_press_sta | ble_request_state.

(** The byte arrays of the file. *)
Inductive arr := ble_name | ble_ver | ble_proto_ver | ble_boot_ver | ble_build | ble_hash | ble_mac_addr | ble_response_buf.

#[global] Instance var_eq_dec : EqDecision var.
Proof. solve_decision. Defined.
#[global] Instance arr_eq_dec : EqDecision arr.
Proof. solve_decision. Defined.

Record ble := MkBle { fifo : trans_fifo; vars : var -> Z; arrs : arr -> list Z; uart_out : list (list Z) }.

Definition set_fifo (f : trans_fifo) (b : ble) : ble := MkBle f (vars b) (arrs b) (uart_out b).
Definition assign (x : var) (v : Z) (b : ble) : ble := MkBle (fifo b) (<[x := v]> (vars b)) (arrs b) (uart_out b).
Definition assign_arr (x : arr) (v : list Z) (b : ble) : ble := MkBle (fifo b) (vars b) (<[x := v]> (arrs b)) (uart_out b).

Definition arr_size (x : arr) : Z :=
  match x with
  | ble_name => BLE_NAME_LEN + 1 | ble_ver => 16 | ble_proto_ver => 16 + 1 | ble_boot_ver => 6
  | ble_build => 8 | ble_hash => 32 | ble_mac_addr => 6 | ble_response_buf => 64
  end.

(** The initial values of the static variables. *)
Definition ble_start (f : trans_fifo) : ble :=
  MkBle f (fun x => match x with battery_cap => 0xFF | ble_request_state => -1 | _ => 0 end) (fun x => zrep (arr_size x) 0) [].

(** [memcpy(x, src, n)] into the start of an array of the file. *)
Definition memcpy_arr (x : arr) (src : list Z) (b : ble) : ble := assign_arr x (src ++ drop (length src) (arrs b x)) b.

(** The string at the start of some bytes. *)
Fixpoint c_string (bs : list Z) : list Z :=
  match bs with c :: bs => if c =? 0 then [] else c :: c_string bs | [] => [] end.

(** [strlcpy]: as much of the string as fits, and a zero. *)
Definition strlcpy_arr (x : arr) (src : list Z) (b : ble) : ble :=
  memcpy_arr x (take (Z.to_nat (arr_size x - 1)) (c_string src) ++ [0]) b.

(** ** Sending *)

Definition calXor (buf : list Z) : Z := xor_fold 0 buf.

(** Why an execution does not return: the device restarts, a copy leaves its
    array, or the turns a loop was given are used up. *)
Inductive ble_stop := Reboots | Overruns | Runs.
Abbreviation run := (M ble_stop ble).

Definition set (x : var) (v : Z) : run unit := modS (assign x v).
Definition get (x : var) : run Z := b ← getS; mret (vars b x).

(** [value_len] is a byte; the frame is built in an array of 64 and sent. *)
Definition ble_cmd_packet (value : list Z) (value_len : Z) : run unit :=
  let value_len := u8 value_len in
  let head := [0x5a; 0xa5; Z.shiftr (value_len + 1) 8 .& 0xff; (value_len + 1) .& 0xff] in
  if 64 <? value_len + 5 then halt Overruns
  else
    let cmd := head ++ take (Z.to_nat value_len) value in
    modS (fun b => MkBle (fifo b) (vars b) (arrs b) (uart_out b ++ [cmd ++ [calXor cmd]])).

Definition ble_cmd_req (cmd value : Z) : run unit := ble_cmd_packet ([cmd; value] ++ zrep 62 0) 2.

Definition ble_cmd_req_ex (cmd : Z) (value : list Z) : run unit :=
  if 63 <? zlen value then halt Overruns
  else ble_cmd_packet ([cmd] ++ value ++ zrep (63 - zlen value) 0) (zlen value + 1).

Definition ble_set_flashled (value : Z) : run unit := ble_cmd_packet ([BLE_FLASHLED; 0x01; value] ++ zrep 61 0) 3.

(** ** Polling *)

(** What a packet of the chip changes; [buf] is the packet in an array of 128
    bytes, its command at 4 and its value from 5 on. *)
Definition handle (buf : list Z) : run unit :=
  let cmd := znth 0 buf 4 in
  let v i := znth 0 buf (5 + i) in
  let value off n := slice buf (5 + off) n in
  let copy x bs := modS (memcpy_arr x bs) in
  if cmd =? BLE_CMD_ADV then modS (strlcpy_arr ble_name (drop 5 buf)) ;; set get_ble_name 1
  else if cmd =? BLE_CMD_CON_STA then
    set get_ble_switch 1 ;;
    if v 0 =? 0x01 then set ble_connect 1
    else if v 0 =? 0x02 then set ble_connect 0
    else if v 0 =? 0x03 then set ble_switch 1
    else if v 0 =? 0x04 then set ble_switch 0
    else mret tt
  else if cmd =? BLE_CMD_PAIR_TX then halt Reboots
  else if cmd =? BLE_CMD_PAIR_STA then if v 0 =? 0x01 then set ble_connect 1 else set ble_connect 0
  else if cmd =? BLE_CMD_FM_VER then copy ble_ver (value 0 5) ;; set get_ble_ver 1
  else if cmd =? BLE_CMD_PROTO_VER then copy ble_proto_ver (value 0 16) ;; set get_ble_proto_ver 1
  else if cmd =? BLE_CMD_BOOT_VER then copy ble_boot_ver (value 0 5) ;; set get_ble_boot_ver 1
  else if cmd =? BLE_CMD_POWER_STA then
    set get_ble_charging 1 ;;
    if (v 0 =? BLE_INSERT_POWER) || (v 0 =? BLE_CHARGING_PWR) || (v 0 =? BLE_CHAGE_OVER) then
      set dev_pwr_sta 1 ;;
      if (v 1 =? CHARGE_TYPE_USB) || (v 1 =? CHARGE_TYPE_WIRELESS) then set ble_charging_type (v 1) else mret tt
    else set dev_pwr_sta 0 ;; set ble_charging_type 0
  else if cmd =? BLE_CMD_EQ then set get_ble_battery 1 ;; set battery_cap (v 0)
  else if cmd =? BLE_CMD_KEY_STA then set dev_press_sta (v 0)
  else if cmd =? BLE_CMD_POWER_ERR then set dev_pwr_err (v 0)
  else if cmd =? BLE_CMD_BATTERY_INFO then
    if (v 0 =? BLE_BATTERY_INFO_VOLTAGE) || (v 0 =? BLE_BATTERY_INFO_CHARGING_CURRENT) ||
       (v 0 =? BLE_BATTERY_INFO_DISCHARGING_CURRENT) || (v 0 =? BLE_BATTERY_INFO_INNER_TEMP)
    then copy ble_response_buf (value 1 2) ;; set ble_request_state 0
    else mret tt
  else if cmd =? BLE_CMD_DEV_KEY then
    if v 0 =? BLE_KEY_RESP_PUBKEY then copy ble_response_buf (value 1 64) ;; set ble_request_state 0
    else if v 0 =? BLE_KEY_RESP_SIGN then copy ble_response_buf (value 1 64) ;; set ble_request_state 0
    else if v 0 =? BLE_KEY_RESP_FAILED then set ble_request_state 1
    else if v 0 =? BLE_KEY_RESP_SUCCESS then set ble_request_state 0
    else mret tt
  else if cmd =? BLE_CMD_BT_BUILD_ID then modS (assign_arr ble_build (zupd (value 0 8) 7 0)) ;; set get_ble_build 1
  else if cmd =? BLE_CMD_BT_HASH then copy ble_hash (value 0 32) ;; set get_ble_hash 1
  else if cmd =? BLE_CMD_BT_MAC then copy ble_mac_addr (value 0 6) ;; set get_ble_mac 1
  else mret tt.

Definition ble_uart_poll : run unit :=
  b ← getS;
  if fifo_lockdata_len (fifo b) <? 5 then mret tt
  else
    match read_packet (fifo b) (zrep 128 0) with
    | None => halt Overruns
    | Some (_, buf, f) => modS (set_fifo f) ;; handle buf
    end.

(** ** Requests *)

(** A turn of a waiting loop starts with a poll; interrupts come before it. *)
Definition poll_after (irq : trans_fifo -> trans_fifo) : run unit := modS (fun b => set_fifo (irq (fifo b)) b) ;; ble_uart_poll.

Section Requests.
Context (env : nat -> trans_fifo -> trans_fifo).

(** The loop the three key functions share: poll until the request is answered;
    [counter] is a byte that counts the milliseconds, the command is repeated every
    100. *)
Fixpoint key_wait (turns k : nat) (cmd : list Z) (len counter : Z) : run bool :=
  match turns with
  | O => halt Runs
  | S turns =>
      poll_after (env k) ;;
      state ← get ble_request_state;
      if negb (state =? -1) then mret true
      else
        let counter := u8 (counter + 1) in
        if 2000 <? counter then mret false
        else (if counter mod 100 =? 0 then ble_cmd_packet cmd len else mret tt) ;; key_wait turns (S k) cmd len counter
  end.

Definition key_request (turns : nat) (cmd : list Z) (len : Z) : run bool :=
  ble_cmd_packet cmd len ;;
  set ble_request_state (-1) ;;
  answered ← key_wait turns 0 cmd len 0;
  state ← get ble_request_state;
  mret (answered && (state =? 0)).

(** The answer is copied out and erased. *)
Definition take_response : run (list Z) :=
  b ← getS; modS (assign_arr ble_response_buf (zrep 64 0)) ;; mret (arrs b ble_response_buf).

Definition ble_get_pubkey (turns : nat) (pubkey : list Z) : run (bool * list Z) :=
  r ← key_request turns ([BLE_DEVICE_KEY; BLE_DEVICE_KEY_GET] ++ zrep 62 0) 2;
  if r : bool then key ← take_response; mret (true, key) else mret (false, pubkey).

Definition ble_lock_pubkey (turns : nat) : run bool :=
  key_request turns ([BLE_DEVICE_KEY; BLE_DEVICE_KEY_LOCK] ++ zrep 62 0) 2.

Definition ble_sign_msg (turns : nat) (msg sign : list Z) : run (bool * list Z) :=
  if 62 <? zlen msg then halt Overruns
  else
    r ← key_request turns ([BLE_DEVICE_KEY; BLE_DEVICE_KEY_SIGN] ++ msg ++ zrep (62 - zlen msg) 0) (zlen msg + 2);
    if r : bool then s ← take_response; mret (true, s) else mret (false, sign).

Fixpoint battery_wait (turns k : nat) (counter : Z) : run bool :=
  match turns with
  | O => halt Runs
  | S turns =>
      poll_after (env k) ;;
      state ← get ble_request_state;
      if negb (state =? -1) then mret true
      else
        let counter := u8 (counter + 1) in
        if 100 <? counter then mret false else battery_wait turns (S k) counter
  end.

Definition ble_get_battery_info (turns : nat) (type value : Z) : run (bool * Z) :=
  ble_cmd_req BLE_BATTERY_INFO type ;;
  set ble_request_state (-1) ;;
  answered ← battery_wait turns 0 0;
  state ← get ble_request_state;
  if (answered : bool) && (state =? 0) then
    b ← getS;
    let resp := arrs b ble_response_buf in mret (true, u16 (Z.shiftl (znth 0 resp 0) 8 + znth 0 resp 1))
  else mret (false, value).

Definition ble_get_battery_voltage (turns : nat) := ble_get_battery_info turns BLE_BATTERY_INFO_VOLTAGE.
Definition ble_get_battery_charging_current (turns : nat) := ble_get_battery_info turns BLE_BATTERY_INFO_CHARGING_CURRENT.
Definition ble_get_battery_discharging_current (turns : nat) := ble_get_battery_info turns BLE_BATTERY_INFO_DISCHARGING_CURRENT.
Definition ble_get_battery_inner_temp (turns : nat) := ble_get_battery_info turns BLE_BATTERY_INFO_INNER_TEMP.

Fixpoint version_wait (turns k : nat) (counter : Z) : run bool :=
  match turns with
  | O => halt Runs
  | S turns =>
      poll_after (env k) ;;
      known ← get get_ble_ver;
      if negb (known =? 0) then mret true
      else
        let counter := u8 (counter + 1) in
        if 20 <? counter then mret false
        else ble_cmd_req BLE_INFO BLE_INFO_VER_FW ;; version_wait turns (S k) counter
  end.

(** The version the caller's pointer is set to is the array of the file. *)
Definition ble_get_version_with_timeout (turns : nat) : run bool :=
  known ← get get_ble_ver;
  if negb (known =? 0) then mret true
  else ble_cmd_req BLE_INFO BLE_INFO_VER_FW ;; version_wait turns 0 0.

Fixpoint refresh_loop (turns k : nat) : run unit :=
  match turns with
  | O => halt Runs
  | S turns =>
      known ← get get_ble_ver;
      if negb (known =? 0) then mret tt
      else ble_cmd_req BLE_INFO BLE_INFO_VER_FW ;; poll_after (env k) ;; refresh_loop turns (S k)
  end.

Definition ble_refresh_dev_info (turns : nat) : run unit := set get_ble_ver 0 ;; refresh_loop turns 0.

Definition ble_get_version (turns : nat) : run bool := ble_refresh_dev_info turns ;; mret true.

End Requests.

(** The questions [ble_get_dev_info] asks, with the flag that says the answer is
    known. *)
Definition dev_info_requests : list (var * Z * Z) :=
  [(get_ble_name, BLE_INFO, BLE_INFO_ADV_NAME); (get_ble_ver, BLE_INFO, BLE_INFO_VER_FW);
   (get_ble_mac, BLE_INFO, BLE_INFO_MAC_ADDR); (get_ble_build, BLE_INFO, BLE_INFO_BUILD_ID);
   (get_ble_hash, BLE_INFO, BLE_INFO_HASH); (get_ble_battery, BLE_PWR, BLE_PWR_EQ);
   (get_ble_charging, BLE_PWR, BLE_PWR_CHARGING); (get_ble_switch, BLE_BT, BLE_BT_STA)].

Definition ble_get_dev_info : run unit :=
  forM dev_info_requests (fun '(x, cmd, value) => known ← get x; if known =? 0 then ble_cmd_req cmd value else mret tt).

Definition ble_power_button_state_clear (b : ble) : ble := assign dev_press_sta 0 b.
Definition ble_set_switch (flag : bool) (b : ble) : ble := assign ble_switch (if flag then 1 else 0) b.

End Ble.

(** What the driver of the Bluetooth chip promises: a poll handles the first
    packet of the queue, or overruns its array when the packet is longer; a key
    request returns the key of the first answer; and of the requests that count
    their turns, the battery and version requests give up, the key requests never
    do, because the byte they count in never exceeds 2000. *)
Module BleSpec.
Import Ble.

(** ** Polling *)

Lemma pad_array (p : list Z) : drop (length p) (zrep 128 0) = zrep (128 - zlen p) 0.
Proof. unfold zrep. rewrite drop_replicate. f_equal. unfold zlen. lia. Qed.

(** A poll takes the first packet off the queue and handles it, when it has
    at least five bytes and fits the array of 128 bytes it is copied to; a longer
    packet, which the interrupt handler accepts up to 255 bytes, overruns the
    array. *)
Theorem ble_poll_correct b p rest : fifo_rep (fifo b) (p ++ rest) [] -> zlen (p ++ rest) < buf_size (fifo b) -> pkt_ok p -> 5 <= zlen p ->
  exists f, fifo_rep f rest [] /\
    ble_uart_poll b = if zlen p <=? 128 then handle (p ++ zrep (128 - zlen p) 0) (set_fifo f b) else Halt Overruns b.
Proof.
  intros R Hs Hp Hl. destruct (read_packet_rep (fifo b) p rest (zrep 128 0) R Hs Hp) as (f & R' & _ & E); [done|].
  exists f. split; [done|]. unfold ble_uart_poll. mstep.
  rewrite (lockdata_len_rep _ _ _ R) by (intros _; rewrite zlen_nil; pose proof (zlen_nonneg (p ++ rest)); lia).
  rewrite zlen_app in *. pose proof (zlen_nonneg rest). destruct (Z.ltb_spec (zlen p + zlen rest) 5); [lia|].
  rewrite E, pad_array. change (zlen (zrep 128 0)) with 128. by destruct (zlen p <=? 128).
Qed.

Definition demo_packet : list Z := [0xA5; 0x5A; 0; 3; 9; 0x63].
Definition demo_ble : ble := ble_start (snd (fifo_write_no_overflow (fifo_init (zrep 16 0) 16) demo_packet)).

Lemma ble_poll_correct_witness : exists f, fifo_rep f [] [] /\ ble_uart_poll demo_ble = handle (demo_packet ++ zrep 122 0) (set_fifo f demo_ble).
Proof.
  destruct (ble_poll_correct demo_ble demo_packet []) as (f & H1 & H2).
  - destruct (write_rep (fifo_init (zrep 16 0) 16) [] [] demo_packet) as (f & E & _ & R); [apply fifo_init_rep; [lia|reflexivity]|].
    unfold demo_ble. rewrite E. exact R.
  - vm_compute. reflexivity.
  - split; [repeat apply Forall_cons_2; try apply Forall_nil_2; vm_compute; split; congruence|vm_compute; repeat split; congruence].
  - vm_compute. congruence.
  - exists f. split; [exact H1|]. rewrite H2. reflexivity.
Defined.

(** Sending leaves the queue and the variables alone. *)
Lemma cmd_packet_ok value len b : 0 <= len <= 59 -> exists cmd,
  ble_cmd_packet value len b = Ok tt (MkBle (fifo b) (vars b) (arrs b) (uart_out b ++ [cmd])).
Proof.
  intros H. unfold ble_cmd_packet. rewrite u8_small by lia. destruct (Z.ltb_spec 64 (len + 5)); [lia|]. by eexists.
Qed.

(** [env k] is what the interrupts do before poll [k]; [idle] describes the
    queues without a packet. *)
Section Requests.
Context (env : nat -> trans_fifo -> trans_fifo) (idle : trans_fifo -> Prop).
Context (idle_short : forall f, idle f -> fifo_lockdata_len f < 5).

(** Interrupts that bring no packet. *)
Definition silent (irq : trans_fifo -> trans_fifo) : Prop := forall f, idle f -> idle (irq f).

Lemma poll_silent irq b : silent irq -> idle (fifo b) -> poll_after irq b = Ok tt (set_fifo (irq (fifo b)) b).
Proof.
  intros Hs Hl. unfold poll_after, ble_uart_poll. mstep. cbn [fifo set_fifo].
  destruct (Z.ltb_spec (fifo_lockdata_len (irq (fifo b))) 5); [done|]. pose proof (idle_short _ (Hs _ Hl)). lia.
Qed.

(** ** Requests that are not answered *)

Lemma key_wait_hangs turns : forall k cmd len counter b, (forall k, silent (env k)) -> 0 <= len <= 59 ->
  idle (fifo b) -> vars b ble_request_state = -1 -> exists b', key_wait env turns k cmd len counter b = Halt Runs b'.
Proof.
  induction turns as [|turns IH]; intros k cmd len counter b He Hl Hf Hr; [by eexists|]. cbn [key_wait]. mstep.
  rewrite (poll_silent (env k) b (He k) Hf). unfold get. mstep. cbn [vars set_fifo]. rewrite Hr, Z.eqb_refl. cbn [negb].
  pose proof (u8_range (counter + 1)). destruct (Z.ltb_spec 2000 (u8 (counter + 1))); [lia|].
  assert (Hq : idle (env k (fifo b))) by by apply He.
  destruct (u8 (counter + 1) mod 100 =? 0).
  - destruct (cmd_packet_ok cmd len (set_fifo (env k (fifo b)) b) Hl) as (c & ->). by apply IH.
  - by apply IH.
Qed.

Lemma key_request_hangs turns cmd len b : (forall k, silent (env k)) -> 0 <= len <= 59 -> idle (fifo b) ->
  exists b', key_request env turns cmd len b = Halt Runs b'.
Proof.
  intros He Hl Hf. unfold key_request. mstep. destruct (cmd_packet_ok cmd len b Hl) as (c & ->). unfold set. mstep.
  match goal with |- context [key_wait env turns 0 cmd len 0 ?s] => set (b1 := s) end.
  destruct (key_wait_hangs turns 0 cmd len 0 b1 He Hl) as (b' & ->); [done| |by exists b'].
  unfold b1. cbn [vars assign]. by rewrite fn_lookup_insert.
Qed.

(** C30: while the chip does not answer, [ble_get_pubkey], [ble_lock_pubkey] and
    [ble_sign_msg] keep waiting: however many turns their loop makes, it has not
    returned. *)
Theorem ble_key_requests_hang turns key msg sign b : (forall k, silent (env k)) -> idle (fifo b) -> zlen msg <= 57 ->
  (exists b', ble_get_pubkey env turns key b = Halt Runs b') /\
  (exists b', ble_lock_pubkey env turns b = Halt Runs b') /\
  (exists b', ble_sign_msg env turns msg sign b = Halt Runs b').
Proof.
  intros He Hf Hm. pose proof (zlen_nonneg msg). unfold ble_get_pubkey, ble_lock_pubkey, ble_sign_msg. mstep.
  split; [|split].
  - destruct (key_request_hangs turns ([BLE_DEVICE_KEY; BLE_DEVICE_KEY_GET] ++ zrep 62 0) 2 b He) as (b' & ->); [lia|done|by exists b'].
  - apply key_request_hangs; [done|lia|done].
  - destruct (Z.ltb_spec 62 (zlen msg)); [lia|].
    destruct (key_request_hangs turns ([BLE_DEVICE_KEY; BLE_DEVICE_KEY_SIGN] ++ msg ++ zrep (62 - zlen msg) 0) (zlen msg + 2) b He)
      as (b' & ->); [lia|done|by exists b'].
Qed.

(** The waits after [counter] turns in vain: each turn polls once, the battery wait
    returns at its 101st turn and the version wait at its 21st, and not before. *)
Lemma battery_wait_ends turns : forall k counter b, (forall k, silent (env k)) -> idle (fifo b) ->
  vars b ble_request_state = -1 -> 0 <= counter <= 100 ->
  exists b', battery_wait env turns k counter b
    = if Z.of_nat turns <? 101 - counter then Halt Runs b' else Ok false b'.
Proof.
  induction turns as [|turns IH]; intros k counter b He Hf Hr Hc.
  { eexists. destruct (Z.ltb_spec (Z.of_nat 0) (101 - counter)); [reflexivity|lia]. }
  cbn [battery_wait]. mstep.
  rewrite (poll_silent (env k) b (He k) Hf). unfold get. mstep. cbn [vars set_fifo]. rewrite Hr, Z.eqb_refl. cbn [negb].
  rewrite u8_small by lia. destruct (Z.ltb_spec 100 (counter + 1)).
  - eexists. destruct (Z.ltb_spec (Z.of_nat (S turns)) (101 - counter)); [lia|reflexivity].
  - replace (Z.of_nat (S turns) <? 101 - counter) with (Z.of_nat turns <? 101 - (counter + 1)) by (apply eq_true_iff_eq; rewrite !Z.ltb_lt; lia).
    apply IH; try done; [by apply He|lia].
Qed.

Lemma version_wait_ends turns : forall k counter b, (forall k, silent (env k)) -> idle (fifo b) ->
  vars b get_ble_ver = 0 -> 0 <= counter <= 20 ->
  exists b', version_wait env turns k counter b = (if Z.of_nat turns <? 21 - counter then Halt Runs b' else Ok false b') /\
    zlen (uart_out b') = zlen (uart_out b) + Z.min (Z.of_nat turns) (20 - counter).
Proof.
  induction turns as [|turns IH]; intros k counter b He Hf Hr Hc.
  { exists b. destruct (Z.ltb_spec (Z.of_nat 0) (21 - counter)); [split; [reflexivity|lia]|lia]. }
  cbn [version_wait]. mstep.
  rewrite (poll_silent (env k) b (He k) Hf). unfold get. mstep. cbn [vars set_fifo]. rewrite Hr. cbn [negb Z.eqb].
  rewrite u8_small by lia. destruct (Z.ltb_spec 20 (counter + 1)).
  - eexists. split; [destruct (Z.ltb_spec (Z.of_nat (S turns)) (21 - counter)); [lia|reflexivity]|]. cbn [uart_out set_fifo]. lia.
  - unfold ble_cmd_req. destruct (cmd_packet_ok ([BLE_INFO; BLE_INFO_VER_FW] ++ zrep 62 0) 2 (set_fifo (env k (fifo b)) b)) as (c & ->); [lia|].
    replace (Z.of_nat (S turns) <? 21 - counter) with (Z.of_nat turns <? 21 - (counter + 1)) by (apply eq_true_iff_eq; rewrite !Z.ltb_lt; lia).
    match goal with |- context [version_wait env turns (S k) (counter + 1) ?s] => destruct (IH (S k) (counter + 1) s) as (b' & E & L) end;
      [done|by apply He|done|lia|]. exists b'. split; [done|]. rewrite L. cbn [uart_out set_fifo]. rewrite zlen_app. change (zlen [c]) with 1. lia.
Qed.

(** C32: while the chip does not answer, a battery request returns, with failure and the
    caller's value unchanged, at its 101st poll and not earlier; a version request that
    does not know the version yet returns with failure at its 21st poll and not earlier,
    having asked 21 questions: one before the first poll and one after each of the
    first 20 in vain. *)
Theorem ble_requests_give_up turns type value b : (forall k, silent (env k)) -> idle (fifo b) ->
  vars b get_ble_ver = 0 ->
  (exists b', ble_get_battery_info env turns type value b
    = if Z.of_nat turns <? 101 then Halt Runs b' else Ok (false, value) b') /\
  (exists b', ble_get_version_with_timeout env turns b
    = (if Z.of_nat turns <? 21 then Halt Runs b' else Ok false b') /\
    zlen (uart_out b') = zlen (uart_out b) + Z.min (Z.of_nat turns + 1) 21).
Proof.
  intros He Hf Hv. split.
  - unfold ble_get_battery_info, ble_cmd_req. mstep. destruct (cmd_packet_ok ([BLE_BATTERY_INFO; type] ++ zrep 62 0) 2 b) as (c & ->); [lia|].
    unfold set. mstep. match goal with |- context [battery_wait env turns 0 0 ?s] => set (b1 := s) end.
    destruct (battery_wait_ends turns 0 0 b1 He) as (b' & ->); [done|unfold b1; cbn [vars assign]; by rewrite fn_lookup_insert|lia|].
    change (101 - 0) with 101. by destruct (Z.of_nat turns <? 101); eexists.
  - unfold ble_get_version_with_timeout, get, ble_cmd_req. mstep. rewrite Hv. cbn [negb Z.eqb].
    destruct (cmd_packet_ok ([BLE_INFO; BLE_INFO_VER_FW] ++ zrep 62 0) 2 b) as (c & ->); [lia|].
    match goal with |- context [version_wait env turns 0 0 ?s] => destruct (version_wait_ends turns 0 0 s) as (b' & E & L) end;
      [done|done|done|lia|]. exists b'. split; [done|]. rewrite L. cbn [uart_out]. rewrite zlen_app. change (zlen [c]) with 1. lia.
Qed.

(** ** Requests that are answered *)

(** At turn [n] the queue offers the packet [p], whatever was in it. *)
Definition answers (irq : trans_fifo -> trans_fifo) (p : list Z) : Prop := forall f, idle f ->
  exists rest, fifo_rep (irq f) (p ++ rest) [] /\ zlen (p ++ rest) < buf_size (irq f).

(** The answer with a public key. *)
Definition key_packet (key : list Z) : list Z := packet (BLE_CMD_DEV_KEY :: BLE_KEY_RESP_PUBKEY :: key).

Lemma key_packet_ok key : Forall is_byte key -> zlen key = 64 -> pkt_ok (key_packet key) /\ zlen (key_packet key) = 70.
Proof.
  intros Hb Hl. assert (L : zlen (BLE_CMD_DEV_KEY :: BLE_KEY_RESP_PUBKEY :: key) = 66) by (rewrite !zlen_cons; lia).
  assert (L2 : zlen (key_packet key) = 70) by (unfold key_packet; rewrite zlen_packet; lia). split; [|done]. split; [|split; [lia|]].
  - apply packet_bytes; [|lia]. repeat apply Forall_cons_2; [unfold is_byte, BLE_CMD_DEV_KEY; lia|unfold is_byte, BLE_KEY_RESP_PUBKEY; lia|done].
  - rewrite L2. change (znth 0 (key_packet key) 2) with ((zlen (BLE_CMD_DEV_KEY :: BLE_KEY_RESP_PUBKEY :: key) + 1) / 256).
    change (znth 0 (key_packet key) 3) with ((zlen (BLE_CMD_DEV_KEY :: BLE_KEY_RESP_PUBKEY :: key) + 1) mod 256). by rewrite L.
Qed.

Lemma handle_key key pad b : zlen key = 64 -> zlen (arrs b ble_response_buf) = 64 ->
  handle (key_packet key ++ pad) b = Ok tt (assign ble_request_state 0 (assign_arr ble_response_buf key b)).
Proof.
  intros Hl Hr. unfold handle. change (znth 0 (key_packet key ++ pad) 4) with 14. change (znth 0 (key_packet key ++ pad) (5 + 0)) with 2.
  replace (slice (key_packet key ++ pad) (5 + 1) 64) with key.
  - cbn. mstep. unfold set, memcpy_arr. mstep. f_equal. f_equal. f_equal. rewrite drop_ge, app_nil_r by (unfold zlen in *; lia). done.
  - unfold slice. change (drop (Z.to_nat (5 + 1)) (key_packet key ++ pad)) with (key ++ pad). symmetry. apply take_app_length'. unfold zlen in *. lia.
Qed.

(** A poll that finds the answer. *)
Lemma poll_answer irq key b : answers irq (key_packet key) -> Forall is_byte key -> zlen key = 64 -> idle (fifo b) ->
  zlen (arrs b ble_response_buf) = 64 -> exists f, poll_after irq b =
    Ok tt (assign ble_request_state 0 (assign_arr ble_response_buf key (set_fifo f (set_fifo (irq (fifo b)) b)))).
Proof.
  intros Ha Hb Hl Hf Hr. destruct (Ha _ Hf) as (rest & R & Hs). destruct (key_packet_ok key Hb Hl) as [Hp L].
  destruct (read_packet_rep (irq (fifo b)) (key_packet key) rest (zrep 128 0) R Hs Hp) as (f & _ & _ & E); [done|]. exists f.
  unfold poll_after, ble_uart_poll. mstep. cbn [fifo set_fifo].
  rewrite (lockdata_len_rep _ _ _ R) by (intros _; rewrite zlen_nil; pose proof (zlen_nonneg (key_packet key ++ rest)); lia).
  rewrite zlen_app in *. pose proof (zlen_nonneg rest). destruct (Z.ltb_spec (zlen (key_packet key) + zlen rest) 5); [lia|].
  rewrite E, L. change (70 <=? zlen (zrep 128 0)) with true. apply handle_key; done.
Qed.

Lemma key_wait_answered key n : forall turns k cmd len counter b, (forall j, (k <= j < k + n)%nat -> silent (env j)) ->
  answers (env (k + n)) (key_packet key) -> Forall is_byte key -> zlen key = 64 -> 0 <= len <= 59 -> (n < turns)%nat ->
  idle (fifo b) -> vars b ble_request_state = -1 -> zlen (arrs b ble_response_buf) = 64 ->
  exists b', key_wait env turns k cmd len counter b = Ok true b' /\ vars b' ble_request_state = 0 /\ arrs b' ble_response_buf = key.
Proof.
  induction n as [|n IH]; intros turns k cmd len counter b He Ha Hb Hl Hc Ht Hf Hr Hz; (destruct turns as [|turns]; [lia|]); cbn [key_wait]; mstep.
  - rewrite Nat.add_0_r in Ha. destruct (poll_answer (env k) key b Ha Hb Hl Hf Hz) as (f & ->). unfold get. mstep.
    cbn [vars assign]. rewrite fn_lookup_insert. cbn [negb Z.eqb]. eexists. split; [done|]. cbn. by rewrite !fn_lookup_insert.
  - rewrite (poll_silent (env k) b) by (done || apply He; lia). unfold get. mstep. cbn [vars set_fifo]. rewrite Hr, Z.eqb_refl. cbn [negb].
    pose proof (u8_range (counter + 1)). destruct (Z.ltb_spec 2000 (u8 (counter + 1))); [lia|].
    assert (Hq : idle (env k (fifo b))) by (apply He; [lia|done]).
    rewrite Nat.add_succ_r in Ha. destruct (u8 (counter + 1) mod 100 =? 0).
    + destruct (cmd_packet_ok cmd len (set_fifo (env k (fifo b)) b) Hc) as (c & ->). apply IH; try done; try lia. intros j Hj. apply He. lia.
    + apply IH; try done; try lia. intros j Hj. apply He. lia.
Qed.

(** C31: when the chip answers a key request with a public key before poll [n],
    counted from 0, and not earlier, [ble_get_pubkey] returns that key and erases
    the response buffer. *)
Theorem ble_get_pubkey_answered key old n turns b : (forall j, (j < n)%nat -> silent (env j)) -> answers (env n) (key_packet key) ->
  Forall is_byte key -> zlen key = 64 -> (n < turns)%nat -> idle (fifo b) -> zlen (arrs b ble_response_buf) = 64 ->
  exists b', ble_get_pubkey env turns old b = Ok (true, key) b' /\ arrs b' ble_response_buf = zrep 64 0.
Proof.
  intros He Ha Hb Hl Ht Hf Hz. unfold ble_get_pubkey, key_request. mstep.
  destruct (cmd_packet_ok ([BLE_DEVICE_KEY; BLE_DEVICE_KEY_GET] ++ zrep 62 0) 2 b) as (c & ->); [lia|]. unfold set. mstep.
  match goal with |- context [key_wait env turns 0 ?x 2 0 ?s] => set (cmd := x); set (b1 := s) end.
  destruct (key_wait_answered key n turns 0 cmd 2 0 b1) as (b' & -> & Er & Ek); try done; try lia.
  - intros j Hj. apply He. lia.
  - unfold get, take_response. mstep. rewrite Er. cbn [andb Z.eqb]. rewrite Ek. eexists. split; [done|]. cbn [arrs assign_arr]. by rewrite fn_lookup_insert.
Qed.

End Requests.

(** Interrupts that bring nothing, then the answer. *)
Definition demo_env (k : nat) (f : trans_fifo) : trans_fifo :=
  if (k <? 150)%nat then f else snd (fifo_write_no_overflow f (key_packet (zrep 64 7))).
Definition empty_fifo : trans_fifo := fifo_init (zrep 512 0) 512.

Lemma ble_key_requests_hang_witness : exists b', ble_get_pubkey (fun _ f => f) 3000 (zrep 64 0) (ble_start empty_fifo) = Halt Runs b'.
Proof.
  exact (proj1 (ble_key_requests_hang (fun _ f => f) (fun f => fifo_lockdata_len f < 5) (fun f H => H) 3000 (zrep 64 0) [] []
    (ble_start empty_fifo) (fun _ f H => H) ltac:(vm_compute; reflexivity) ltac:(vm_compute; congruence))).
Defined.

Lemma ble_requests_give_up_witness :
  (exists b', ble_get_battery_info (fun _ f => f) 100 BLE_BATTERY_INFO_VOLTAGE 5 (ble_start empty_fifo) = Halt Runs b') /\
  (exists b', ble_get_battery_info (fun _ f => f) 101 BLE_BATTERY_INFO_VOLTAGE 5 (ble_start empty_fifo) = Ok (false, 5) b') /\
  (exists b', ble_get_version_with_timeout (fun _ f => f) 21 (ble_start empty_fifo) = Ok false b' /\ zlen (uart_out b') = 21).
Proof.
  pose (P turns := ble_requests_give_up (fun _ f => f) (fun f => fifo_lockdata_len f < 5) (fun f H => H) turns BLE_BATTERY_INFO_VOLTAGE 5
    (ble_start empty_fifo) (fun _ f H => H) ltac:(vm_compute; reflexivity) eq_refl).
  split; [exact (proj1 (P 100%nat))|split; [exact (proj1 (P 101%nat))|exact (proj2 (P 21%nat))]].
Defined.

Lemma ble_get_pubkey_answered_witness : exists b', ble_get_pubkey demo_env 151 [] (ble_start empty_fifo) = Ok (true, zrep 64 7) b'.
Proof.
  destruct (ble_get_pubkey_answered demo_env (fun f => f = empty_fifo) ltac:(intros f ->; vm_compute; reflexivity) (zrep 64 7) [] 150 151 (ble_start empty_fifo))
    as (b' & E & _).
  - intros j Hj f ->. unfold demo_env. rewrite (proj2 (Nat.ltb_lt j 150) Hj). reflexivity.
  - intros f ->. exists []. destruct (write_rep empty_fifo [] [] (key_packet (zrep 64 7))) as (f & E & S & R); [apply fifo_init_rep; [lia|reflexivity]|].
    change (demo_env 150 empty_fifo) with (snd (fifo_write_no_overflow empty_fifo (key_packet (zrep 64 7)))). rewrite E.
    split; [exact R|]. cbn [snd]. rewrite S. vm_compute. reflexivity.
  - apply Forall_zrep. vm_compute. split; congruence.
  - vm_compute. reflexivity.
  - vm_compute. lia.
  - reflexivity.
  - vm_compute. reflexivity.
  - exists b'. exact E.
Defined.

End BleSpec.
