(* ===== verification/Spi.v ===== *)
(** The receive side of the SPI link to the Bluetooth chip
    (src/core/embed/trezorhal/spi_legacy.c): transfers are written to a byte queue
    by the interrupts and polled as 64-byte packets or as FIDO messages.

    The header array of the poll function is not initialised, so its contents are
    an argument; the build of the bootloader sets [BOOT_ONLY]. *)

From Stdlib Require Import ZArith Lia List.
From stdpp Require Import base list numbers.
From S2P Require Import Prelude Bits Fifo Usart UsartSpec.
Import Fifo Usart UsartSpec UsartLink.
Local Open Scope fw_scope.

Module Spi.

Definition SPI_PKG_SIZE : Z := 64.
Definition SPI_BUF_MAX_IN_LEN : Z := 16 * 1024.

Definition spi_fifo_in : trans_fifo := fifo_init (zrep SPI_BUF_MAX_IN_LEN 0) SPI_BUF_MAX_IN_LEN.

(** A complete transfer: the receive buffer is cleared when the queue refuses it. *)
Definition HAL_SPI_RxCpltCallback (dma_recv_buf : list Z) (RxXferSize : Z) (f : trans_fifo) : list Z * trans_fifo :=
  match fifo_write_no_overflow f (take (Z.to_nat RxXferSize) dma_recv_buf) with
  | (true, f) => (dma_recv_buf, f)
  | (false, f) => (zrep RxXferSize 0 ++ drop (Z.to_nat RxXferSize) dma_recv_buf, f)
  end.

(** The end of a shorter transfer, with the DMA counter; [released] is the level
    of the select line and [spi_data_dir_in] the direction. *)
Definition spi_cs_irq_handler (released spi_data_dir_in : bool) (counter : Z) (dma_recv_buf : list Z) (f : trans_fifo) : trans_fifo :=
  if negb released then f
  else if spi_data_dir_in then
    let recv_len := u16 (SPI_BUF_MAX_IN_LEN - counter) in
    if 0 <? recv_len then snd (fifo_write_no_overflow f (take (Z.to_nat recv_len) dma_recv_buf)) else f
  else f.

Definition is_fid (header : list Z) : bool := bool_decide (take 3 header = [0x66; 0x69; 0x64]).
Definition QUESTION : Z := 0x3F.

(** The return value, the caller's buffer and the queue; [None] when a copy
    overruns the buffer. *)
Definition _spi_slave_poll_ex (boot_only : bool) (header : list Z) (buf : option (list Z)) (fido : bool) (f : trans_fifo) :
    option (Z * option (list Z) * trans_fifo) :=
  match buf with
  | None => Some (0, None, f)
  | Some buf =>
      let total_len := fifo_lockdata_len f in
      if total_len =? 0 then Some (0, Some buf, f)
      else
        let '(_, d, f) := fifo_read_peek f 3 in
        header ← copy_to header d;
        if negb (is_fid header) && negb (znth 0 header 0 =? QUESTION) then Some (0, Some buf, fifo_flush f)
        else if fido then
          if is_fid header then
            let '(_, d, f) := fifo_read_lock f 3 in
            header ← copy_to header d;
            let '(_, d, f) := fifo_read_lock f 2 in
            header ← copy_to header d;
            let len := Z.shiftl (znth 0 header 0) 8 .| znth 0 header 1 in
            let '(_, d, f) := fifo_read_lock f (u32 (total_len - 5)) in
            buf ← copy_to buf d;
            if u32 (total_len - 5) <? len then Some (0, Some buf, f) else Some (len, Some buf, f)
          else Some (0, Some buf, f)
        else if znth 0 header 0 =? QUESTION then
          let len := if SPI_PKG_SIZE <? total_len then SPI_PKG_SIZE else total_len in
          let '(n, d, f) := fifo_read_lock f len in
          buf ← copy_to buf d;
          Some (n, Some buf, f)
        else if boot_only then Some (0, Some buf, fifo_flush f)
        else Some (0, Some buf, f)
  end.

Definition spi_slave_poll (boot_only : bool) (header buf : list Z) := _spi_slave_poll_ex boot_only header (Some buf) false.
Definition spi_slave_poll_fido (boot_only : bool) (header buf : list Z) := _spi_slave_poll_ex boot_only header (Some buf) true.

(** ** Packets *)

(** A packet of the message protocol. *)
Definition spi_packet (p : list Z) : Prop := zlen p = SPI_PKG_SIZE /\ znth 0 p 0 = QUESTION.

Lemma copy_short header d : zlen header = 3 -> zlen d <= 3 -> exists h, copy_to header d = Some h /\ zlen h = 3 /\ take (length d) h = d.
Proof.
  intros Hh Hd. exists (d ++ drop (length d) header). rewrite copy_to_fits by lia. split; [done|]. split.
  - unfold zlen in *. rewrite length_app, length_drop. lia.
  - apply take_app_length.
Qed.

Lemma peek_header header L : zlen header = 3 -> 1 <= zlen L -> exists h, copy_to header (take 3 L) = Some h /\ zlen h = 3 /\
  znth 0 h 0 = znth 0 L 0 /\ take (length (take 3 L)) h = take 3 L.
Proof.
  intros Hh Hl. destruct (copy_short header (take 3 L) Hh) as (h & E & Hz & Ht); [unfold zlen; rewrite length_take; lia|].
  exists h. repeat split; try done. destruct L as [|x L]; [rewrite zlen_nil in Hl; lia|].
  destruct h as [|y h]; [done|]. cbn [take length] in Ht. injection Ht as -> _. done.
Qed.

(** A poll takes the first packet. *)
Lemma spi_poll_packet boot_only header buf f p rest : fifo_rep f (p ++ rest) [] -> zlen (p ++ rest) < buf_size f -> spi_packet p ->
  zlen header = 3 -> SPI_PKG_SIZE <= zlen buf ->
  exists f', spi_slave_poll boot_only header buf f = Some (SPI_PKG_SIZE, Some (p ++ drop 64 buf), f') /\ fifo_rep f' rest [] /\ buf_size f' = buf_size f.
Proof.
  intros R Hs [Hp Hq] Hh Hb. unfold SPI_PKG_SIZE in *. pose proof (zlen_nonneg rest). rewrite zlen_app in Hs.
  unfold spi_slave_poll, _spi_slave_poll_ex. rewrite (lockdata_len_rep f _ _ R) by (intros _; rewrite zlen_nil; lia).
  rewrite zlen_app. destruct (Z.eqb_spec (zlen p + zlen rest) 0); [lia|].
  pose proof (@zlen_nil Z). rewrite (peek_rep f _ _ 3 R) by (rewrite ?zlen_app; lia). change (Z.to_nat 3) with 3%nat.
  destruct (peek_header header (p ++ rest) Hh) as (h & -> & _ & Hq0 & _); [rewrite zlen_app; lia|]. cbn [mbind option_bind].
  rewrite Hq0, znth_app_left, Hq by lia. change (negb (QUESTION =? QUESTION)) with false. rewrite andb_false_r. cbn [Z.eqb Pos.eqb QUESTION].
  replace (if SPI_PKG_SIZE <? zlen p + zlen rest then SPI_PKG_SIZE else zlen p + zlen rest) with 64
    by (unfold SPI_PKG_SIZE; destruct (Z.ltb_spec 64 (zlen p + zlen rest)); lia).
  destruct (read_rep f _ _ 64 R) as (f' & -> & R' & S); [lia|intros _; rewrite zlen_nil; lia|].
  assert (El : length p = Z.to_nat 64) by (unfold zlen in Hp; lia).
  rewrite take_app_length', drop_app_length' in * by done. rewrite copy_to_fits by lia. cbn [mbind option_bind].
  exists f'. rewrite Hp, El. done.
Qed.

Fixpoint polls (n : nat) (boot_only : bool) (header buf : list Z) (f : trans_fifo) : option (list (list Z) * trans_fifo) :=
  match n with
  | O => Some ([], f)
  | S n =>
      match spi_slave_poll boot_only header buf f with
      | Some (len, Some b, f) => '(ps, f) ← polls n boot_only header buf f; Some (take (Z.to_nat len) b :: ps, f)
      | _ => None
      end
  end.

(** Packets of 64 bytes that start with a question mark, written to the
    queue in transfers of any size, are polled one by one, complete and in order,
    as long as they do not fill the queue. *)
Theorem spi_packets_in_order boot_only header buf transfers ps f : concat transfers = concat ps -> Forall spi_packet ps ->
  zlen (concat ps) < SPI_BUF_MAX_IN_LEN -> zlen header = 3 -> SPI_PKG_SIZE <= zlen buf ->
  f = fold_left (fun f d => snd (fifo_write_no_overflow f d)) transfers spi_fifo_in ->
  exists f', polls (length ps) boot_only header buf f = Some (ps, f') /\ fifo_rep f' [] [].
Proof.
  intros Et Hp Hl Hh Hb Ef.
  assert (R : fifo_rep f (concat ps) [] /\ buf_size f = SPI_BUF_MAX_IN_LEN).
  { rewrite <- Et in *. subst f. assert (G : forall ts f L, fifo_rep f L [] -> zlen L + zlen (concat ts) <= buf_size f ->
      fifo_rep (fold_left (fun f d => snd (fifo_write_no_overflow f d)) ts f) (L ++ concat ts) [] /\
      buf_size (fold_left (fun f d => snd (fifo_write_no_overflow f d)) ts f) = buf_size f).
    { clear. induction ts as [|d ts IH]; intros f L R H; cbn [fold_left concat] in *; [by rewrite app_nil_r|].
      rewrite zlen_app in H. pose proof (zlen_nonneg (concat ts)). destruct (write_rep f L [] d R) as (f' & -> & S & R').
      rewrite zlen_nil in R'. destruct (Z.leb_spec (zlen d) (buf_size f - (zlen L + 0))); [|lia]. cbn [snd app] in *.
      destruct (IH f' (L ++ d) R') as [R2 S2]; [rewrite zlen_app; lia|]. rewrite <- app_assoc in R2. split; [done|lia]. }
    apply (G transfers spi_fifo_in []); [by apply fifo_init_rep|]. rewrite zlen_nil. change (buf_size spi_fifo_in) with SPI_BUF_MAX_IN_LEN. lia. }
  clear Et Ef transfers. destruct R as [R S]. revert f R S Hl. induction Hp as [|p ps Hp _ IH]; intros f R S Hl; cbn [length polls concat] in *; [by exists f|].
  destruct (spi_poll_packet boot_only header buf f p (concat ps) R ltac:(lia) Hp Hh Hb) as (f' & -> & R' & S').
  rewrite zlen_app in Hl. pose proof (zlen_nonneg p). destruct (IH f' R') as (f2 & -> & R2); [lia|lia|]. cbn [mbind option_bind].
  exists f2. destruct Hp as [Hp _]. rewrite take_app_length' by (unfold SPI_PKG_SIZE, zlen in *; lia). done.
Qed.

Definition demo_packets : list (list Z) := [QUESTION :: zrep 63 1; QUESTION :: zrep 63 2].
Definition demo_queue : trans_fifo :=
  fold_left (fun f d => snd (fifo_write_no_overflow f d)) [take 100 (concat demo_packets); drop 100 (concat demo_packets)] spi_fifo_in.

Lemma spi_packets_in_order_witness : exists f', polls 2 false [0; 0; 0] (zrep 64 0) demo_queue = Some (demo_packets, f').
Proof.
  destruct (spi_packets_in_order false [0; 0; 0] (zrep 64 0) [take 100 (concat demo_packets); drop 100 (concat demo_packets)] demo_packets demo_queue)
    as (f' & E & _).
  - cbn [concat]. rewrite app_nil_r. apply take_drop.
  - repeat apply Forall_cons_2; try apply Forall_nil_2; split; reflexivity.
  - vm_compute. reflexivity.
  - reflexivity.
  - vm_compute. congruence.
  - reflexivity.
  - exists f'. exact E.
Defined.

(** ** FIDO messages *)

Definition fid : list Z := [0x66; 0x69; 0x64].

Lemma fid_header header L : zlen header = 3 -> exists h, copy_to header (take 3 (fid ++ L)) = Some h /\ is_fid h = true /\ zlen h = 3.
Proof.
  intros Hh. change (take 3 (fid ++ L)) with fid. destruct (copy_short header fid Hh) as (h & E & Hz & Ht); [done|].
  exists h. split; [done|]. split; [|done]. unfold is_fid. apply bool_decide_eq_true_2. exact Ht.
Qed.

Lemma read_empty f n : fifo_rep f [] [] -> 0 < n -> exists f', fifo_read_lock f n = (0, [], f') /\ fifo_rep f' [] [].
Proof.
  intros R Hn. destruct (read_rep f [] [] n R) as (f' & E & R' & _); [lia|intros _; rewrite zlen_nil; apply R|].
  exists f'. rewrite take_nil, drop_nil in *. done.
Qed.

Lemma fido_short boot_only header buf f : zlen header = 3 -> buf_size f = 16 * 1024 -> fifo_rep f fid [] ->
  exists f', fifo_rep f' [] [] /\ spi_slave_poll_fido boot_only header buf f = Some (0x6669, Some buf, f').
Proof.
  intros Hh Hs R. unfold spi_slave_poll_fido, _spi_slave_poll_ex. rewrite (lockdata_len_rep f _ _ R) by done. change (zlen fid) with 3. cbn [Z.eqb].
  rewrite (peek_rep f _ _ 3 R) by (done || (right; rewrite Hs; done)). change (take (Z.to_nat 3) fid) with (take 3 (fid ++ [])).
  destruct (fid_header header [] Hh) as (h & -> & Ef & Zh). cbn [mbind option_bind]. rewrite Ef. cbn [negb andb].
  destruct (read_rep f _ _ 3 R) as (f1 & -> & R1 & S1); [done..|]. change (take (Z.to_nat 3) fid) with fid. change (drop (Z.to_nat 3) fid) with (@nil Z) in R1.
  rewrite (copy_to_fits h fid) by (change (zlen fid) with 3; lia). cbn [mbind option_bind]. set (h1 := fid ++ _).
  destruct (read_empty f1 2 R1) as (f2 & -> & R2); [done|]. rewrite (copy_to_fits h1 []) by (rewrite zlen_nil; apply zlen_nonneg). cbn [mbind option_bind].
  destruct (read_empty f2 (u32 (3 - 5)) R2) as (f3 & -> & R3); [done|].
  rewrite (copy_to_fits buf []) by (rewrite zlen_nil; apply zlen_nonneg). cbn [mbind option_bind app length drop]. exists f3. split; [done|]. done.
Qed.

Lemma be_pair hi lo : is_byte hi -> is_byte lo -> Z.shiftl hi 8 .| lo = 256 * hi + lo.
Proof.
  unfold is_byte. intros Hh Hl. rewrite Z.lor_comm, lor_shift by lia. lia.
Qed.

(** C33: a FIDO message, [fid], the length and the data, is copied to the
    caller's buffer, and its length is returned if all of its data is there.  Data
    longer than the buffer overruns it, and of a transfer that ends after [fid]
    the length 0x6669 is returned although nothing was read. *)
Theorem spi_fido_poll boot_only header buf f hi lo data : zlen header = 3 -> is_byte hi -> is_byte lo -> buf_size f = SPI_BUF_MAX_IN_LEN ->
  (fifo_rep f (fid ++ [hi; lo] ++ data) [] -> 5 + zlen data < SPI_BUF_MAX_IN_LEN ->
     exists f', fifo_rep f' [] [] /\ spi_slave_poll_fido boot_only header buf f =
       if zlen data <=? zlen buf
       then Some (if zlen data <? 256 * hi + lo then 0 else 256 * hi + lo, Some (data ++ drop (length data) buf), f') else None) /\
  (fifo_rep f fid [] -> exists f', fifo_rep f' [] [] /\ spi_slave_poll_fido boot_only header buf f = Some (0x6669, Some buf, f')).
Proof.
  intros Hh Bh Bl Hs. pose proof (zlen_nonneg data). unfold is_byte in *. unfold SPI_BUF_MAX_IN_LEN in *. split.
  - intros R Hd. set (L := fid ++ [hi; lo] ++ data) in *. assert (Ll : zlen L = 5 + zlen data) by (unfold L, fid; cbn [app]; rewrite !zlen_cons; lia).
    unfold spi_slave_poll_fido, _spi_slave_poll_ex. rewrite (lockdata_len_rep f _ _ R) by (intros _; rewrite zlen_nil; lia). rewrite Ll.
    destruct (Z.eqb_spec (5 + zlen data) 0); [lia|]. pose proof (@zlen_nil Z). rewrite (peek_rep f _ _ 3 R) by lia. change (Z.to_nat 3) with 3%nat.
    destruct (fid_header header ([hi; lo] ++ data) Hh) as (h & Eh & Ef & Zh). fold L in Eh. rewrite Eh. cbn [mbind option_bind]. rewrite Ef. cbn [negb andb].
    destruct (read_rep f _ _ 3 R) as (f1 & -> & R1 & S1); [lia|intros _; rewrite zlen_nil; lia|]. change (Z.to_nat 3) with 3%nat in *.
    destruct (fid_header h ([hi; lo] ++ data) Zh) as (h1 & Eh1 & _ & Zh1). fold L in Eh1. rewrite Eh1. cbn [mbind option_bind].
    change (drop 3 L) with ([hi; lo] ++ data) in R1.
    destruct (read_rep f1 _ _ 2 R1) as (f2 & -> & R2 & S2); [lia|intros _; rewrite zlen_nil; lia|]. change (Z.to_nat 2) with 2%nat in *.
    change (take 2 ([hi; lo] ++ data)) with [hi; lo]. change (drop 2 ([hi; lo] ++ data)) with data in R2.
    rewrite (copy_to_fits h1 [hi; lo]) by (change (zlen [hi; lo]) with 2; lia). cbn [mbind option_bind].
    change (znth 0 ([hi; lo] ++ drop (length [hi; lo]) h1) 0) with hi. change (znth 0 ([hi; lo] ++ drop (length [hi; lo]) h1) 1) with lo.
    rewrite (be_pair hi lo) by (unfold is_byte; lia).
    rewrite u32_small by lia. replace (5 + zlen data - 5) with (zlen data) by lia.
    destruct (read_rep f2 _ _ (zlen data) R2) as (f3 & -> & R3 & S3); [lia|intros _; rewrite zlen_nil; lia|].
    replace (Z.to_nat (zlen data)) with (length data) in * by (unfold zlen; lia). rewrite firstn_all in *. rewrite drop_all in R3.
    exists f3. split; [done|]. unfold copy_to. destruct (zlen data <=? zlen buf); [|done]. cbn [mbind option_bind]. by destruct (zlen data <? 256 * hi + lo).
  - intros R. apply fido_short; done.
Qed.

Lemma spi_fido_poll_witness : exists f', spi_slave_poll_fido false [0; 0; 0] (zrep 1024 0) (snd (fifo_write_no_overflow spi_fifo_in fid)) =
  Some (0x6669, Some (zrep 1024 0), f').
Proof.
  destruct (write_rep spi_fifo_in [] [] fid) as (f & E & S & R); [apply fifo_init_rep; [vm_compute; split; congruence|vm_compute; reflexivity]|].
  rewrite E. cbn [snd]. change (fifo_rep f fid []) in R.
  destruct (spi_fido_poll false [0; 0; 0] (zrep 1024 0) f 0 0 [] eq_refl ltac:(vm_compute; split; congruence) ltac:(vm_compute; split; congruence) S)
    as [_ H]. destruct (H R) as (f' & _ & E'). exists f'. exact E'.
Defined.

End Spi.
