(* ===== verification/Words.v ===== *)
(** The words of Shamir backups and their button sequences
    (src/crypto/slip39_wordlist.h), as the source lists them; a word is the list of
    its characters. *)

From Stdlib Require Import ZArith List String Ascii.
From stdpp Require Import base list.
From S2P Require Import Prelude.

Module Words.
Local Open Scope string_scope.
Local Open Scope Z_scope.
Local Open Scope list_scope.

Definition SLIP39_WORD_COUNT : Z := 1024.

(** The characters of a string constant. *)
Definition c_str (s : string) : list Z := map (fun a => Z.of_N (N_of_ascii a)) (list_ascii_of_string s).

(** [strncmp] on characters without the terminating zero: the first difference. *)
Fixpoint strncmp (a b : list Z) (n : nat) : Z :=
  match n with
  | O => 0
  | S n =>
      match a, b with
      | [], [] => 0
      | [], y :: _ => - y
      | x :: _, [] => x
      | x :: a, y :: b => if x =? y then strncmp a b n else x - y
      end
  end.

(** ** The SLIP-39 words and their button sequences *)

Definition slip39_words_1 : list string :=
  ["academic"; "acid"; "acne"; "acquire"; "acrobat"; "activity"; "actress"; "adapt"; "adequate"; "adjust"; "admit";
   "adorn"; "adult"; "advance"; "advocate"; "afraid"; "again"; "agency"; "agree"; "aide"; "aircraft"; "airline";
   "airport"; "ajar"; "alarm"; "album"; "alcohol"; "alien"; "alive"; "alpha"; "already"; "alto"; "aluminum";
   "always"; "amazing"; "ambition"; "amount"; "amuse"; "analysis"; "anatomy"; "ancestor"; "ancient"; "angel";
   "angry"; "animal"; "answer"; "antenna"; "anxiety"; "apart"; "aquatic"; "arcade"; "arena"; "argue"; "armed";
   "artist"; "artwork"; "aspect"; "auction"; "august"; "aunt"; "average"; "aviation"; "avoid"; "award"; "away";
   "axis"; "axle"; "beam"; "beard"; "beaver"; "become"; "bedroom"; "behavior"; "being"; "believe"; "belong";
   "benefit"; "best"; "beyond"; "bike"; "biology"; "birthday"; "bishop"; "black"; "blanket"; "blessing"; "blimp";
   "blind"; "blue"; "body"; "bolt"; "boring"; "born"; "both"; "boundary"; "bracelet"; "branch"; "brave"; "breathe";
   "briefing"; "broken"; "brother"; "browser"; "bucket"; "budget"; "building"; "bulb"; "bulge"; "bumpy"; "bundle";
   "burden"; "burning"; "busy"; "buyer"; "cage"; "calcium"; "camera"; "campus"; "canyon"; "capacity"; "capital";
   "capture"; "carbon"; "cards"; "careful"; "cargo"; "carpet"; "carve"; "category"; "cause"; "ceiling"; "center";
   "ceramic"; "champion"; "change"; "charity"; "check"; "chemical"; "chest"; "chew"; "chubby"; "cinema"; "civil";
   "class"; "clay"; "cleanup"; "client"; "climate"; "clinic"; "clock"; "clogs"; "closet"; "clothes"; "club";
   "cluster"; "coal"; "coastal"; "coding"; "column"; "company"; "corner"; "costume"; "counter"; "course"; "cover";
   "cowboy"; "cradle"; "craft"; "crazy"; "credit"; "cricket"; "criminal"; "crisis"; "critical"; "crowd"; "crucial";
   "crunch"; "crush"; "crystal"; "cubic"; "cultural"; "curious"; "curly"; "custody"; "cylinder"; "daisy"; "damage";
   "dance"; "darkness"; "database"; "daughter"; "deadline"; "deal"; "debris"; "debut"; "decent"; "decision";
   "declare"; "decorate"; "decrease"; "deliver"; "demand"; "density"; "deny"; "depart"; "depend"; "depict"; "deploy";
   "describe"; "desert"; "desire"; "desktop"; "destroy"; "detailed"; "detect"; "device"; "devote"; "diagnose";
   "dictate"; "diet"; "dilemma"; "diminish"; "dining"; "diploma"; "disaster"; "discuss"; "disease"; "dish";
   "dismiss"; "display"; "distance"; "dive"; "divorce"; "document"; "domain"; "domestic"; "dominant"; "dough";
   "downtown"; "dragon"; "dramatic"; "dream"; "dress"; "drift"; "drink"; "drove"; "drug"; "dryer"; "duckling";
   "duke"; "duration"; "dwarf"; "dynamic"; "early"; "earth"; "easel"; "easy"; "echo"; "eclipse"; "ecology"; "edge";
   "editor"; "educate"; "either"; "elbow"; "elder"; "election"; "elegant"; "element"; "elephant"; "elevator";
   "elite"; "else"; "email"; "emerald"; "emission"; "emperor"; "emphasis"; "employer"; "empty"; "ending"; "endless";
   "endorse"; "enemy"; "energy"; "enforce"; "engage"; "enjoy"; "enlarge"; "entrance"; "envelope"; "envy"; "epidemic";
   "episode"; "equation"; "equip"; "eraser"; "erode"; "escape"; "estate"; "estimate"; "evaluate"; "evening";
   "evidence"; "evil"; "evoke"; "exact"; "example"; "exceed"; "exchange"; "exclude"; "excuse"; "execute"; "exercise";
   "exhaust"; "exotic"; "expand"; "expect"; "explain"; "express"; "extend"; "extra"; "eyebrow"; "facility"; "fact";
   "failure"; "faint"; "fake"; "false"; "family"; "famous"; "fancy"; "fangs"; "fantasy"; "fatal"; "fatigue";
   "favorite"; "fawn"; "fiber"; "fiction"; "filter"; "finance"; "findings"; "finger"; "firefly"; "firm"; "fiscal";
   "fishing"; "fitness"; "flame"; "flash"; "flavor"; "flea"; "flexible"; "flip"; "float"; "floral"; "fluff"; "focus";
   "forbid"; "force"; "forecast"; "forget"; "formal"; "fortune"; "forward"; "founder"; "fraction"; "fragment";
   "frequent"; "freshman"; "friar"; "fridge"; "friendly"; "frost"; "froth"; "frozen"; "fumes"; "funding"; "furl";
   "fused"; "galaxy"; "game"; "garbage"; "garden"; "garlic"; "gasoline"; "gather"; "general"; "genius"; "genre";
   "genuine"; "geology"; "gesture"; "glad"; "glance"; "glasses"; "glen"; "glimpse"; "goat"; "golden"; "graduate";
   "grant"; "grasp"; "gravity"; "gray"; "greatest"; "grief"; "grill"; "grin"; "grocery"; "gross"; "group"; "grownup";
   "grumpy"; "guard"; "guest"; "guilt"; "guitar"; "gums"; "hairy"; "hamster"; "hand"; "hanger"; "harvest"; "have";
   "havoc"; "hawk"; "hazard"; "headset"; "health"; "hearing"; "heat"; "helpful"; "herald"; "herd"; "hesitate";
   "hobo"; "holiday"; "holy"; "home"; "hormone"; "hospital"; "hour"; "huge"; "human"; "humidity"; "hunting";
   "husband"; "hush"; "husky"; "hybrid"; "idea"; "identify"; "idle"; "image"; "impact"; "imply"; "improve";
   "impulse"; "include"; "income"; "increase"; "index"; "indicate"; "industry"; "infant"; "inform"; "inherit";
   "injury"; "inmate"; "insect"; "inside"; "install"; "intend"; "intimate"; "invasion"; "involve"; "iris"; "island";
   "isolate"; "item"; "ivory"; "jacket"; "jerky"; "jewelry"; "join"; "judicial"; "juice"; "jump"; "junction";
   "junior"; "junk"; "jury"; "justice"; "kernel"; "keyboard"; "kidney"; "kind"; "kitchen"; "knife"; "knit"; "laden";
   "ladle"; "ladybug"; "lair"; "lamp"; "language"; "large"; "laser"; "laundry"; "lawsuit"; "leader"; "leaf"; "learn";
   "leaves"].

Definition slip39_words_2 : list string :=
  ["lecture"; "legal"; "legend"; "legs"; "lend"; "length"; "level"; "liberty"; "library"; "license"; "lift";
   "likely"; "lilac"; "lily"; "lips"; "liquid"; "listen"; "literary"; "living"; "lizard"; "loan"; "lobe"; "location";
   "losing"; "loud"; "loyalty"; "luck"; "lunar"; "lunch"; "lungs"; "luxury"; "lying"; "lyrics"; "machine";
   "magazine"; "maiden"; "mailman"; "main"; "makeup"; "making"; "mama"; "manager"; "mandate"; "mansion"; "manual";
   "marathon"; "march"; "market"; "marvel"; "mason"; "material"; "math"; "maximum"; "mayor"; "meaning"; "medal";
   "medical"; "member"; "memory"; "mental"; "merchant"; "merit"; "method"; "metric"; "midst"; "mild"; "military";
   "mineral"; "minister"; "miracle"; "mixed"; "mixture"; "mobile"; "modern"; "modify"; "moisture"; "moment";
   "morning"; "mortgage"; "mother"; "mountain"; "mouse"; "move"; "much"; "mule"; "multiple"; "muscle"; "museum";
   "music"; "mustang"; "nail"; "national"; "necklace"; "negative"; "nervous"; "network"; "news"; "nuclear"; "numb";
   "numerous"; "nylon"; "oasis"; "obesity"; "object"; "observe"; "obtain"; "ocean"; "often"; "olympic"; "omit";
   "oral"; "orange"; "orbit"; "order"; "ordinary"; "organize"; "ounce"; "oven"; "overall"; "owner"; "paces";
   "pacific"; "package"; "paid"; "painting"; "pajamas"; "pancake"; "pants"; "papa"; "paper"; "parcel"; "parking";
   "party"; "patent"; "patrol"; "payment"; "payroll"; "peaceful"; "peanut"; "peasant"; "pecan"; "penalty"; "pencil";
   "percent"; "perfect"; "permit"; "petition"; "phantom"; "pharmacy"; "photo"; "phrase"; "physics"; "pickup";
   "picture"; "piece"; "pile"; "pink"; "pipeline"; "pistol"; "pitch"; "plains"; "plan"; "plastic"; "platform";
   "playoff"; "pleasure"; "plot"; "plunge"; "practice"; "prayer"; "preach"; "predator"; "pregnant"; "premium";
   "prepare"; "presence"; "prevent"; "priest"; "primary"; "priority"; "prisoner"; "privacy"; "prize"; "problem";
   "process"; "profile"; "program"; "promise"; "prospect"; "provide"; "prune"; "public"; "pulse"; "pumps"; "punish";
   "puny"; "pupal"; "purchase"; "purple"; "python"; "quantity"; "quarter"; "quick"; "quiet"; "race"; "racism";
   "radar"; "railroad"; "rainbow"; "raisin"; "random"; "ranked"; "rapids"; "raspy"; "reaction"; "realize"; "rebound";
   "rebuild"; "recall"; "receiver"; "recover"; "regret"; "regular"; "reject"; "relate"; "remember"; "remind";
   "remove"; "render"; "repair"; "repeat"; "replace"; "require"; "rescue"; "research"; "resident"; "response";
   "result"; "retailer"; "retreat"; "reunion"; "revenue"; "review"; "reward"; "rhyme"; "rhythm"; "rich"; "rival";
   "river"; "robin"; "rocky"; "romantic"; "romp"; "roster"; "round"; "royal"; "ruin"; "ruler"; "rumor"; "sack";
   "safari"; "salary"; "salon"; "salt"; "satisfy"; "satoshi"; "saver"; "says"; "scandal"; "scared"; "scatter";
   "scene"; "scholar"; "science"; "scout"; "scramble"; "screw"; "script"; "scroll"; "seafood"; "season"; "secret";
   "security"; "segment"; "senior"; "shadow"; "shaft"; "shame"; "shaped"; "sharp"; "shelter"; "sheriff"; "short";
   "should"; "shrimp"; "sidewalk"; "silent"; "silver"; "similar"; "simple"; "single"; "sister"; "skin"; "skunk";
   "slap"; "slavery"; "sled"; "slice"; "slim"; "slow"; "slush"; "smart"; "smear"; "smell"; "smirk"; "smith";
   "smoking"; "smug"; "snake"; "snapshot"; "sniff"; "society"; "software"; "soldier"; "solution"; "soul"; "source";
   "space"; "spark"; "speak"; "species"; "spelling"; "spend"; "spew"; "spider"; "spill"; "spine"; "spirit"; "spit";
   "spray"; "sprinkle"; "square"; "squeeze"; "stadium"; "staff"; "standard"; "starting"; "station"; "stay"; "steady";
   "step"; "stick"; "stilt"; "story"; "strategy"; "strike"; "style"; "subject"; "submit"; "sugar"; "suitable";
   "sunlight"; "superior"; "surface"; "surprise"; "survive"; "sweater"; "swimming"; "swing"; "switch"; "symbolic";
   "sympathy"; "syndrome"; "system"; "tackle"; "tactics"; "tadpole"; "talent"; "task"; "taste"; "taught"; "taxi";
   "teacher"; "teammate"; "teaspoon"; "temple"; "tenant"; "tendency"; "tension"; "terminal"; "testify"; "texture";
   "thank"; "that"; "theater"; "theory"; "therapy"; "thorn"; "threaten"; "thumb"; "thunder"; "ticket"; "tidy";
   "timber"; "timely"; "ting"; "tofu"; "together"; "tolerate"; "total"; "toxic"; "tracks"; "traffic"; "training";
   "transfer"; "trash"; "traveler"; "treat"; "trend"; "trial"; "tricycle"; "trip"; "triumph"; "trouble"; "true";
   "trust"; "twice"; "twin"; "type"; "typical"; "ugly"; "ultimate"; "umbrella"; "uncover"; "undergo"; "unfair";
   "unfold"; "unhappy"; "union"; "universe"; "unkind"; "unknown"; "unusual"; "unwrap"; "upgrade"; "upstairs";
   "username"; "usher"; "usual"; "valid"; "valuable"; "vampire"; "vanish"; "various"; "vegan"; "velvet"; "venture";
   "verdict"; "verify"; "very"; "veteran"; "vexed"; "victim"; "video"; "view"; "vintage"; "violence"; "viral";
   "visitor"; "visual"; "vitamins"; "vocal"; "voice"; "volume"; "voter"; "voting"; "walnut"; "warmth"; "warn";
   "watch"; "wavy"; "wealthy"; "weapon"; "webcam"; "welcome"; "welfare"; "western"; "width"; "wildlife"; "window";
   "wine"; "wireless"; "wisdom"; "withdraw"; "wits"; "wolf"; "woman"; "work"; "worthy"; "wrap"; "wrist"; "writing";
   "wrote"; "year"; "yelp"; "yield"; "yoga"; "zero"].

Definition SLIP39_WORDLIST : list (list Z) := map c_str (slip39_words_1 ++ slip39_words_2).

Definition button_seq_1 : list (Z * Z) :=
  [(1212, 0); (1216, 7); (1236, 8); (1242, 1); (1248, 9); (1254, 10); (1263, 2); (1267, 11); (1268, 3); (1276, 4);
   (1281, 13); (1284, 5); (1285, 12); (1286, 14); (1287, 6); (1315, 67); (1317, 68); (1318, 69); (1326, 70);
   (1327, 71); (1341, 72); (1346, 73); (1354, 74); (1356, 75); (1363, 76); (1371, 15); (1378, 77); (1396, 78);
   (1414, 16); (1417, 23); (1423, 19); (1436, 17); (1453, 79); (1465, 80); (1472, 20); (1473, 18); (1474, 82);
   (1475, 21); (1476, 22); (1478, 81); (1512, 83); (1514, 35); (1516, 84); (1517, 24); (1518, 25); (1519, 34);
   (1526, 26); (1537, 85); (1543, 27); (1545, 86); (1546, 87); (1548, 28); (1564, 29); (1568, 36); (1573, 30);
   (1583, 88); (1585, 32); (1586, 31); (1587, 37); (1591, 33); (1615, 38); (1617, 48); (1618, 39); (1623, 40);
   (1624, 41); (1629, 89); (1643, 42); (1645, 44); (1647, 43); (1658, 90); (1674, 91); (1676, 92); (1679, 45);
   (1681, 49); (1683, 46); (1684, 93); (1686, 94); (1694, 47); (1712, 95); (1716, 96); (1718, 97); (1721, 50);
   (1731, 98); (1736, 51); (1743, 99); (1748, 52); (1753, 53); (1763, 56); (1765, 100); (1768, 101); (1769, 102);
   (1784, 54); (1789, 55); (1824, 104); (1825, 103); (1828, 57); (1837, 60); (1841, 61); (1845, 105); (1848, 58);
   (1851, 106); (1854, 107); (1856, 108); (1862, 109); (1864, 62); (1868, 59); (1872, 110); (1876, 111); (1879, 112);
   (1893, 113); (1917, 63); (1919, 64); (1947, 65); (1953, 66); (2143, 114); (2147, 185); (2151, 186); (2152, 115);
   (2153, 116); (2156, 117); (2161, 119); (2162, 187); (2164, 120); (2168, 121); (2169, 118); (2171, 122);
   (2172, 123); (2173, 124); (2174, 125); (2175, 188); (2176, 126); (2178, 127); (2181, 189); (2183, 128);
   (2184, 190); (2187, 129); (2312, 191); (2315, 192); (2317, 193); (2318, 194); (2323, 195); (2324, 196);
   (2325, 197); (2326, 198); (2327, 199); (2345, 130); (2351, 201)].

Definition button_seq_2 : list (Z * Z) :=
  [(2354, 200); (2361, 204); (2363, 205); (2364, 206); (2365, 207); (2367, 202); (2368, 131); (2369, 203);
   (2371, 132); (2372, 208); (2373, 209); (2374, 210); (2375, 211); (2378, 212); (2381, 213); (2383, 214);
   (2384, 215); (2386, 216); (2414, 217); (2415, 133); (2416, 134); (2417, 135); (2428, 218); (2432, 136);
   (2435, 137); (2437, 138); (2438, 219); (2439, 139); (2453, 220); (2454, 221); (2463, 141); (2464, 222);
   (2465, 223); (2471, 224); (2472, 225); (2473, 226); (2474, 227); (2475, 228); (2476, 229); (2478, 230);
   (2481, 140); (2483, 231); (2484, 142); (2486, 232); (2517, 143); (2519, 144); (2531, 145); (2543, 146);
   (2545, 147); (2546, 148); (2562, 149); (2564, 150); (2567, 151); (2568, 152); (2581, 153); (2587, 154);
   (2615, 155); (2617, 156); (2624, 157); (2628, 233); (2651, 234); (2653, 235); (2654, 236); (2656, 159);
   (2658, 158); (2676, 160); (2678, 161); (2683, 164); (2684, 237); (2686, 162); (2687, 163); (2691, 165);
   (2696, 238); (2712, 166); (2713, 167); (2714, 239); (2715, 240); (2719, 168); (2731, 241); (2732, 169);
   (2737, 242); (2742, 170); (2743, 243); (2745, 171); (2746, 244); (2747, 172); (2748, 173); (2768, 245);
   (2769, 174); (2782, 175); (2784, 246); (2786, 176); (2787, 177); (2793, 247); (2797, 178); (2814, 179);
   (2825, 248); (2853, 249); (2858, 180); (2871, 250); (2874, 181); (2875, 182); (2878, 183); (2917, 251);
   (2954, 184); (2961, 252); (3124, 323); (3128, 324); (3145, 325); (3146, 326); (3153, 327); (3154, 329);
   (3156, 330); (3157, 328); (3162, 331); (3164, 332); (3168, 333); (3173, 255); (3175, 253); (3178, 254);
   (3179, 256); (3181, 334); (3184, 335); (3186, 336); (3196, 337); (3243, 260); (3246, 257); (3248, 261);
   (3254, 258); (3265, 259); (3282, 262); (3413, 338); (3428, 339); (3458, 340); (3461, 341); (3462, 342);
   (3464, 343); (3472, 346); (3473, 344); (3474, 347); (3475, 345); (3484, 263); (3486, 348); (3514, 273);
   (3515, 349); (3516, 264); (3517, 350)].

Definition button_seq_3 : list (Z * Z) :=
  [(3518, 351); (3523, 265); (3531, 352); (3532, 266); (3534, 267); (3535, 268); (3536, 269); (3537, 274);
   (3538, 270); (3539, 353); (3546, 354); (3547, 275); (3548, 271); (3561, 355); (3563, 276); (3564, 277);
   (3565, 278); (3567, 356); (3568, 279); (3573, 272); (3583, 357); (3624, 280); (3625, 281); (3626, 282);
   (3628, 358); (3635, 283); (3636, 285); (3637, 284); (3641, 286); (3642, 292); (3646, 287); (3647, 293);
   (3651, 288); (3671, 359); (3672, 360); (3673, 361); (3674, 362); (3675, 363); (3678, 364); (3679, 365);
   (3681, 294); (3683, 290); (3684, 295); (3686, 366); (3687, 289); (3689, 291); (3712, 367); (3714, 368);
   (3717, 296); (3721, 298); (3736, 369); (3737, 370); (3741, 371); (3742, 372); (3743, 373); (3762, 297);
   (3767, 374); (3768, 375); (3769, 376); (3781, 299); (3784, 300); (3815, 301); (3836, 302); (3842, 303);
   (3845, 304); (3853, 377); (3862, 378); (3865, 305); (3873, 380); (3875, 379); (3912, 306); (3915, 307);
   (3923, 308); (3924, 309); (3925, 310); (3928, 311); (3931, 322); (3932, 312); (3937, 313); (3941, 314);
   (3961, 316); (3963, 317); (3965, 318); (3967, 319); (3968, 315); (3983, 320); (3987, 321); (4125, 483);
   (4147, 420); (4151, 381); (4153, 382); (4157, 421); (4162, 422); (4164, 423); (4171, 383); (4172, 384);
   (4175, 385); (4176, 386); (4178, 424); (4183, 425); (4184, 387); (4186, 426); (4191, 428); (4195, 427);
   (4231, 452); (4236, 453); (4253, 454); (4312, 429); (4315, 430); (4317, 431); (4318, 432); (4356, 433);
   (4363, 388); (4364, 389); (4365, 392); (4367, 390); (4368, 391); (4371, 434); (4372, 435); (4374, 436);
   (4375, 484); (4378, 393); (4393, 485); (4512, 394); (4514, 455); (4516, 395); (4517, 396); (4536, 397);
   (4545, 398); (4561, 456); (4565, 457); (4567, 458); (4568, 459); (4616, 437); (4618, 399); (4623, 463);
   (4624, 464); (4625, 460); (4626, 461); (4627, 462); (4628, 465); (4631, 466); (4636, 467); (4643, 468);
   (4646, 486); (4648, 469); (4651, 470)].

Definition button_seq_4 : list (Z * Z) :=
  [(4652, 400); (4653, 440); (4654, 438); (4659, 439); (4673, 471); (4674, 472); (4675, 441); (4676, 442);
   (4678, 473); (4681, 476); (4683, 474); (4684, 475); (4686, 477); (4687, 443); (4712, 401); (4716, 402);
   (4717, 403); (4718, 404); (4719, 405); (4731, 406); (4743, 407); (4745, 408); (4746, 409); (4747, 478);
   (4751, 479); (4762, 410); (4765, 480); (4767, 411); (4768, 412); (4769, 413); (4785, 414); (4817, 415);
   (4824, 487); (4835, 481); (4837, 416); (4842, 488); (4843, 444); (4845, 417); (4848, 418); (4851, 445);
   (4854, 446); (4856, 489); (4857, 419); (4862, 490); (4864, 491); (4865, 492); (4867, 482); (4868, 447);
   (4871, 448); (4874, 449); (4875, 450); (4878, 494); (4879, 493); (4917, 451); (5123, 502); (5124, 549);
   (5125, 503); (5129, 504); (5141, 550); (5142, 551); (5145, 552); (5146, 553); (5147, 505); (5151, 556);
   (5153, 554); (5154, 555); (5156, 506); (5161, 557); (5162, 558); (5164, 507); (5167, 559); (5168, 560);
   (5171, 561); (5172, 562); (5173, 509); (5174, 508); (5175, 563); (5176, 565); (5178, 564); (5183, 566);
   (5184, 567); (5186, 510); (5194, 568); (5196, 569); (5197, 511); (5312, 512); (5313, 513); (5316, 570);
   (5317, 514); (5318, 515); (5321, 571); (5324, 572); (5328, 516); (5341, 517); (5343, 518); (5347, 519);
   (5351, 573); (5356, 574); (5362, 520); (5364, 521); (5368, 575); (5372, 576); (5374, 577); (5376, 495);
   (5383, 522); (5384, 578); (5387, 579); (5391, 496); (5413, 523); (5417, 524); (5423, 525); (5426, 497);
   (5427, 580); (5438, 526); (5451, 528); (5452, 581); (5453, 527); (5454, 582); (5459, 529); (5462, 498);
   (5463, 583); (5464, 584); (5467, 530); (5468, 531); (5471, 585); (5478, 532); (5482, 499); (5483, 533);
   (5484, 534); (5491, 535); (5493, 586); (5498, 587); (5613, 537); (5614, 588); (5616, 536); (5621, 538);
   (5623, 589); (5624, 590); (5643, 500); (5647, 591); (5648, 501); (5653, 592); (5674, 539); (5676, 593);
   (5678, 594); (5682, 540); (5683, 598)].

Definition button_seq_5 : list (Z * Z) :=
  [(5684, 595); (5686, 596); (5687, 597); (5691, 541); (5824, 599); (5825, 542); (5853, 600); (5858, 601);
   (5861, 543); (5862, 544); (5864, 545); (5872, 602); (5873, 603); (5874, 604); (5878, 605); (5898, 546);
   (5946, 547); (5974, 548); (6123, 636); (6124, 637); (6125, 638); (6137, 618); (6141, 641); (6142, 639);
   (6143, 619); (6145, 606); (6146, 640); (6161, 644); (6162, 642); (6163, 645); (6168, 643); (6172, 646);
   (6173, 620); (6174, 617); (6175, 647); (6178, 648); (6181, 621); (6183, 649); (6184, 607); (6187, 650);
   (6195, 651); (6197, 652); (6231, 622); (6312, 653); (6316, 654); (6317, 655); (6321, 656); (6325, 608);
   (6341, 609); (6361, 657); (6362, 658); (6372, 659); (6373, 660); (6375, 661); (6378, 610); (6383, 623);
   (6384, 662); (6389, 611); (6397, 612); (6416, 663); (6417, 664); (6425, 668); (6428, 669); (6432, 670);
   (6453, 671); (6463, 673); (6465, 672); (6468, 665); (6471, 666); (6478, 674); (6482, 675); (6497, 667);
   (6514, 676); (6516, 677); (6517, 678); (6518, 679); (6519, 680); (6531, 681); (6548, 625); (6568, 682);
   (6586, 683); (6595, 624); (6712, 684); (6714, 628); (6715, 626); (6716, 627); (6719, 685); (6723, 629);
   (6724, 630); (6731, 686); (6732, 687); (6734, 688); (6735, 689); (6736, 690); (6737, 691); (6738, 692);
   (6741, 631); (6743, 693); (6745, 694); (6746, 695); (6747, 696); (6748, 697); (6749, 698); (6761, 699);
   (6762, 700); (6763, 701); (6764, 702); (6765, 703); (6767, 704); (6768, 705); (6786, 706); (6815, 707);
   (6816, 716); (6817, 717); (6825, 613); (6836, 633); (6837, 634); (6842, 718); (6843, 719); (6851, 614);
   (6853, 615); (6856, 709); (6857, 708); (6861, 712); (6862, 632); (6864, 710); (6869, 711); (6872, 713);
   (6876, 714); (6956, 616); (6963, 635); (6984, 715); (7121, 722); (7123, 720); (7124, 721); (7125, 775);
   (7131, 776); (7145, 723); (7146, 724); (7147, 725); (7151, 777); (7156, 778); (7158, 779); (7162, 726);
   (7164, 728); (7165, 727); (7176, 729)].

Definition button_seq_6 : list (Z * Z) :=
  [(7183, 782); (7184, 780); (7186, 781); (7197, 783); (7216, 784); (7217, 785); (7218, 786); (7236, 787);
   (7243, 789); (7246, 788); (7268, 790); (7271, 791); (7273, 792); (7274, 793); (7276, 794); (7312, 730);
   (7313, 795); (7315, 731); (7316, 732); (7317, 796); (7318, 733); (7321, 734); (7323, 735); (7326, 736);
   (7327, 797); (7328, 798); (7343, 739); (7345, 799); (7347, 737); (7348, 738); (7351, 740); (7353, 741);
   (7354, 742); (7356, 743); (7361, 745); (7362, 744); (7363, 746); (7364, 800); (7365, 747); (7368, 748);
   (7372, 749); (7373, 750); (7374, 751); (7376, 752); (7378, 753); (7381, 754); (7383, 757); (7384, 758);
   (7386, 756); (7387, 755); (7391, 759); (7412, 801); (7413, 802); (7415, 803); (7416, 804); (7417, 805);
   (7423, 811); (7424, 762); (7435, 806); (7437, 807); (7453, 812); (7454, 814); (7456, 815); (7458, 813);
   (7464, 816); (7467, 808); (7468, 809); (7474, 810); (7478, 817); (7481, 763); (7483, 764); (7495, 760);
   (7498, 761); (7516, 820); (7517, 827); (7518, 821); (7531, 828); (7532, 822); (7535, 829); (7542, 823);
   (7545, 824); (7546, 818); (7547, 830); (7548, 831); (7565, 832); (7569, 825); (7584, 833); (7586, 819);
   (7587, 826); (7612, 843); (7614, 765); (7615, 834); (7616, 835); (7617, 844); (7624, 837); (7625, 766);
   (7631, 845); (7632, 846); (7635, 847); (7636, 848); (7638, 838); (7639, 849); (7642, 850); (7643, 836);
   (7645, 851); (7646, 852); (7647, 853); (7648, 854); (7651, 767); (7652, 839); (7656, 768); (7658, 840);
   (7671, 855); (7674, 856); (7678, 769); (7681, 857); (7683, 858); (7685, 841); (7686, 770); (7687, 842);
   (7691, 771); (7812, 859); (7813, 860); (7814, 873); (7815, 874); (7816, 861); (7817, 862); (7818, 863);
   (7819, 864); (7831, 865); (7836, 866); (7841, 875); (7842, 867); (7845, 868); (7846, 772); (7848, 876);
   (7853, 773); (7856, 774); (7863, 878); (7865, 877); (7867, 869); (7871, 870); (7873, 879); (7874, 871);
   (7876, 880); (7878, 881); (7895, 872)].

Definition button_seq_7 : list (Z * Z) :=
  [(7931, 882); (7945, 883); (7946, 884); (7948, 885); (7951, 886); (7956, 887); (7962, 888); (7978, 889);
   (8125, 890); (8126, 892); (8128, 891); (8153, 893); (8154, 965); (8156, 967); (8158, 966); (8164, 968);
   (8174, 969); (8175, 894); (8178, 895); (8184, 896); (8194, 897); (8312, 898); (8315, 899); (8317, 900);
   (8341, 970); (8356, 901); (8358, 971); (8361, 902); (8362, 903); (8367, 904); (8368, 972); (8372, 973);
   (8374, 974); (8375, 905); (8378, 906); (8379, 975); (8383, 976); (8393, 977); (8398, 907); (8416, 908);
   (8418, 909); (8423, 979); (8425, 917); (8428, 978); (8429, 918); (8431, 910); (8436, 911); (8437, 912);
   (8439, 980); (8451, 919); (8453, 920); (8459, 946); (8464, 921); (8465, 982); (8467, 913); (8468, 981);
   (8471, 983); (8473, 914); (8474, 984); (8478, 985); (8481, 986); (8485, 915); (8486, 916); (8517, 948);
   (8584, 947); (8621, 987); (8623, 950); (8626, 949); (8631, 951); (8636, 952); (8638, 922); (8641, 953);
   (8642, 988); (8643, 923); (8646, 954); (8647, 960); (8648, 955); (8653, 924); (8654, 956); (8656, 957);
   (8658, 989); (8678, 961); (8681, 925); (8683, 990); (8684, 991); (8687, 958); (8694, 926); (8697, 959);
   (8712, 927); (8713, 928); (8714, 929); (8716, 930); (8717, 931); (8718, 932); (8731, 933); (8736, 934);
   (8737, 962); (8741, 935); (8742, 936); (8743, 963); (8746, 937); (8748, 938); (8768, 939); (8781, 964);
   (8783, 940); (8787, 941); (8942, 942); (8946, 943); (8963, 944); (8964, 945); (9156, 992); (9175, 993);
   (9176, 994); (9182, 995); (9189, 996); (9312, 999); (9315, 997); (9316, 998); (9317, 1019); (9352, 1000);
   (9353, 1001); (9356, 1020); (9376, 1023); (9378, 1002); (9428, 1003); (9435, 1021); (9452, 1004); (9462, 1005);
   (9463, 1006); (9472, 1008); (9473, 1007); (9484, 1009); (9487, 1010); (9641, 1022); (9651, 1012); (9653, 1011);
   (9675, 1013); (9678, 1014); (9716, 1015); (9747, 1016); (9748, 1017); (9768, 1018)].

(** The sequence of buttons and the index of the word. *)
Definition words_button_seq : list (Z * Z) :=
  button_seq_1 ++ button_seq_2 ++ button_seq_3 ++ button_seq_4 ++ button_seq_5 ++ button_seq_6 ++ button_seq_7.

End Words.
