(* ===== verification/Slip39.v ===== *)
(** The word functions of Shamir backups (src/crypto/slip39.c): the lookup of
    words and the keyboard with nine buttons on which a word is entered by the
    buttons of its first four letters.

    The theorems compare the binary searches with the list of all words. *)

From Stdlib Require Import ZArith Lia List.
From stdpp Require Import base list numbers.
From S2P Require Import Prelude Words.
Import Words.
Local Open Scope fw_scope.

Module Slip39.

Definition get_word (index : Z) : option (list Z) :=
  if SLIP39_WORD_COUNT <=? index then None else Some (znth [] SLIP39_WORDLIST index).

(** The loop of the two searches; [above] is the test at the middle. *)
Fixpoint halve (turns : nat) (above : Z -> bool) (lo hi : Z) : Z * Z :=
  match turns with
  | O => (lo, hi)
  | S turns =>
      if 1 <? hi - lo then
        let mid := (hi + lo) / 2 in
        if above mid then halve turns above lo mid else halve turns above mid hi
      else (lo, hi)
  end.

(** Ten turns narrow 1024 places down to one. *)
Definition search_turns : nat := 11.

Definition word_index (word : list Z) (word_length : Z) : option Z :=
  let cmp i := strncmp (znth [] SLIP39_WORDLIST i) word (Z.to_nat word_length) in
  let '(lo, _) := halve search_turns (fun mid => 0 <? cmp mid) 0 SLIP39_WORD_COUNT in
  if negb (cmp lo =? 0) then None else Some lo.

Definition sequence_at (i : Z) : Z := fst (znth (0, 0) words_button_seq i).

Definition find_sequence (sequence : Z) : Z :=
  if sequence <=? sequence_at 0 then 0
  else snd (halve search_turns (fun mid => sequence <=? sequence_at mid) 0 SLIP39_WORD_COUNT).

(** The loop of [button_sequence_to_word]; four turns are enough from 1 on. *)
Fixpoint scale (turns : nat) (sequence multiplier : Z) : Z * Z :=
  match turns with
  | O => (sequence, multiplier)
  | S turns => if sequence <? 1000 then scale turns (u16 (sequence * 10)) (u16 (multiplier * 10)) else (sequence, multiplier)
  end.

Definition button_sequence_to_word (sequence : Z) : option (list Z) :=
  let word i := znth [] SLIP39_WORDLIST (snd (znth (0, 0) words_button_seq i)) in
  if sequence =? 0 then Some (word 0)
  else
    let '(sequence, multiplier) := scale 4 sequence 1 in
    let i := find_sequence sequence in
    if (SLIP39_WORD_COUNT <=? i) || (multiplier <=? sequence_at i - sequence) then None else Some (word i).

(** The first loop of [slip39_word_completion_mask]. *)
Fixpoint widen (turns : nat) (min max divider : Z) : Z * Z * Z :=
  match turns with
  | O => (min, max, divider)
  | S turns => if max <=? 1000 then widen turns (u16 (min * 10)) (u16 (max * 10)) (u16 (divider * 10)) else (min, max, divider)
  end.

(** The second one. *)
Fixpoint collect (n : nat) (i divider bitmap : Z) : Z :=
  match n with
  | O => bitmap
  | S n =>
      let digit := u8 ((sequence_at i / divider) mod 10) in
      collect n (i + 1) divider (u16 (bitmap .| Z.shiftl 1 (digit - 1)))
  end.

Definition slip39_word_completion_mask (prefix : Z) : Z :=
  if 1000 <=? prefix then 0
  else
    let '(min, max, divider) := widen 5 prefix (u16 (prefix + 1)) 1 in
    let divider := divider / 10 in
    let min := find_sequence min in
    let max := find_sequence max in
    collect (Z.to_nat (max - min)) min divider 0.

(** ** Searching *)

Definition monotone (above : Z -> bool) (n : Z) : Prop := forall i j, 0 <= i <= j -> j < n -> above i = true -> above j = true.

(** The search ends between the last place below and the first place above. *)
Lemma halve_ok turns above n : monotone above n -> forall lo hi, 0 <= lo < hi -> hi <= n -> hi - lo <= 2 ^ Z.of_nat turns ->
  above lo = false -> (hi < n -> above hi = true) ->
  let r := halve turns above lo hi in
  0 <= fst r /\ snd r = fst r + 1 /\ snd r <= n /\ above (fst r) = false /\ (snd r < n -> above (snd r) = true).
Proof.
  intros M. induction turns as [|turns IH]; intros lo hi Hl Hh Hd Hlo Hhi; cbn [halve].
  - change (2 ^ Z.of_nat 0) with 1 in Hd. cbn. repeat split; (done || lia || auto).
  - rewrite Nat2Z.inj_succ, Z.pow_succ_r in Hd by lia. destruct (Z.ltb_spec 1 (hi - lo)).
    + pose proof (Z.div_mod (hi + lo) 2 ltac:(lia)). pose proof (Z.mod_pos_bound (hi + lo) 2 ltac:(lia)).
      set (mid := (hi + lo) / 2) in *. destruct (above mid) eqn:E; apply IH; try done; try lia; auto.
    + cbn. repeat split; (done || lia || auto).
Qed.

(** ** The table of button sequences *)

(** The button of a letter, from [ab] on the first to [wxyz] on the ninth. *)
Definition button (c : Z) : Z :=
  if c <? 99 then 1 else if c <? 101 then 2 else if c <? 103 then 3 else if c <? 107 then 4 else if c <? 110 then 5
  else if c <? 114 then 6 else if c <? 116 then 7 else if c <? 119 then 8 else 9.

Definition buttons (w : list Z) : Z := fold_left (fun n c => 10 * n + button c) (take 4 w) 0.

Fixpoint increasing (l : list Z) : bool :=
  match l with x :: l => match l with y :: _ => (x <? y) && increasing l | [] => true end | [] => true end.

(** The table lists every word, by its buttons, in increasing order; a sequence
    has four digits and none is zero. *)
Definition button_entry_ok (e : Z * Z) : bool :=
  let '(q, i) := e in
  (0 <=? i) && (i <? SLIP39_WORD_COUNT) && (q =? buttons (znth [] SLIP39_WORDLIST i)) && (1000 <=? q) && (q <? 10000) &&
  forallb (fun k => negb ((q / k) mod 10 =? 0)) [1; 10; 100; 1000].

Lemma entries_ok : forallb button_entry_ok words_button_seq = true.
Proof. vm_compute. reflexivity. Qed.
Lemma entries_increase : increasing (map fst words_button_seq) = true.
Proof. vm_compute. reflexivity. Qed.
Lemma entries_cover : forallb (fun i => existsb (fun e => i =? snd e) words_button_seq) (seqZ 0 SLIP39_WORD_COUNT) = true.
Proof. vm_compute. reflexivity. Qed.
Lemma length_entries : length words_button_seq = 1024%nat.
Proof. vm_compute. reflexivity. Qed.
Lemma length_words : length SLIP39_WORDLIST = 1024%nat.
Proof. vm_compute. reflexivity. Qed.

Local Opaque words_button_seq SLIP39_WORDLIST.

Definition word_at (i : Z) : list Z := znth [] SLIP39_WORDLIST (snd (znth (0, 0) words_button_seq i)).

Lemma entry_in i : 0 <= i < SLIP39_WORD_COUNT -> In (znth (0, 0) words_button_seq i) words_button_seq.
Proof. intros H. unfold znth. destruct (Z.ltb_spec i 0); [lia|]. apply nth_In. rewrite length_entries. unfold SLIP39_WORD_COUNT in H. lia. Qed.

(** What the table promises of entry [i]. *)
Lemma entry_facts i : 0 <= i < SLIP39_WORD_COUNT ->
  In (word_at i) SLIP39_WORDLIST /\ sequence_at i = buttons (word_at i) /\ 1000 <= sequence_at i < 10000 /\
  (forall k, In k [1; 10; 100; 1000] -> (sequence_at i / k) mod 10 <> 0).
Proof.
  intros H. pose proof (proj1 (forallb_forall _ _) entries_ok _ (entry_in i H)) as T. unfold sequence_at, word_at.
  destruct (znth (0, 0) words_button_seq i) as [q j]. cbn [fst snd]. unfold button_entry_ok in T. rewrite !andb_true_iff in T.
  destruct T as (((((T0 & T1) & T2) & T3) & T4) & T5). zbool. rewrite forallb_forall in T5. unfold SLIP39_WORD_COUNT in *.
  split; [|split; [done|split; [lia|]]].
  - unfold znth. destruct (Z.ltb_spec j 0); [lia|]. apply nth_In. rewrite length_words. lia.
  - intros k Hk. specialize (T5 k Hk). by zbool.
Qed.

(** Every word is in the table. *)
Lemma word_listed w : In w SLIP39_WORDLIST -> exists i, 0 <= i < SLIP39_WORD_COUNT /\ w = word_at i.
Proof.
  intros Hw. apply (In_nth _ _ []) in Hw as (k & Hk & <-). rewrite length_words in Hk.
  assert (Hz : In (Z.of_nat k) (seqZ 0 SLIP39_WORD_COUNT)) by (apply list_elem_of_In, elem_of_seqZ; unfold SLIP39_WORD_COUNT; lia).
  pose proof (proj1 (forallb_forall _ _) entries_cover _ Hz) as T. apply existsb_exists in T as ([q j] & Hin & E). apply Z.eqb_eq in E. cbn in E. subst j.
  apply (In_nth _ _ (0, 0)) in Hin as (i & Hi & E). rewrite length_entries in Hi.
  exists (Z.of_nat i). split; [unfold SLIP39_WORD_COUNT; lia|]. unfold word_at, znth.
  destruct (Z.ltb_spec (Z.of_nat i) 0); [lia|]. rewrite Nat2Z.id, E. cbn [snd]. destruct (Z.ltb_spec (Z.of_nat k) 0); [lia|]. by rewrite Nat2Z.id.
Qed.

Lemma increasing_nth l : increasing l = true -> forall i j, (i < j < length l)%nat -> nth i l 0 < nth j l 0.
Proof.
  intros H. assert (G : forall l x, increasing (x :: l) = true -> forall j, (j < length l)%nat -> x < nth j l 0).
  { clear. induction l as [|y l IH]; intros x H j Hj; [cbn in Hj; lia|]. cbn [increasing] in H. apply andb_prop in H as [Hx H]. apply Z.ltb_lt in Hx.
    destruct j as [|j]; [done|]. cbn [nth]. cbn [length] in Hj. specialize (IH y H j ltac:(lia)). lia. }
  induction l as [|x l IH]; intros i j Hij; [cbn in Hij; lia|]. destruct j as [|j]; [lia|]. cbn [length] in Hij. destruct i as [|i].
  - cbn [nth]. apply G; [done|lia].
  - cbn [nth]. apply IH; [|lia]. cbn [increasing] in H. destruct l; [done|]. by apply andb_prop in H as [_ H].
Qed.

Lemma sequence_lt i j : 0 <= i < j -> j < SLIP39_WORD_COUNT -> sequence_at i < sequence_at j.
Proof.
  intros Hij Hj.
  assert (A : forall k, 0 <= k -> sequence_at k = nth (Z.to_nat k) (map fst words_button_seq) 0).
  { intros k Hk. unfold sequence_at, znth. destruct (Z.ltb_spec k 0); [lia|]. symmetry. apply (map_nth fst words_button_seq (0, 0)). }
  rewrite !A by lia. apply (increasing_nth _ entries_increase). rewrite length_map, length_entries. unfold SLIP39_WORD_COUNT in Hj. lia.
Qed.

(** [find_sequence] is the number of sequences below. *)
Lemma find_sequence_ok s : let r := find_sequence s in 0 <= r <= SLIP39_WORD_COUNT /\
  (forall i, 0 <= i < r -> sequence_at i < s) /\ (forall i, r <= i < SLIP39_WORD_COUNT -> s <= sequence_at i).
Proof.
  assert (M : monotone (fun mid => s <=? sequence_at mid) SLIP39_WORD_COUNT).
  { intros i j Hij Hj H. zbool. apply Z.leb_le. destruct (Z.eq_dec i j) as [->|]; [done|]. pose proof (sequence_lt i j). lia. }
  unfold find_sequence. destruct (Z.leb_spec s (sequence_at 0)) as [H0|H0]; cbv zeta.
  - repeat split; try (unfold SLIP39_WORD_COUNT; lia). intros i Hi. destruct (Z.eq_dec 0 i) as [<-|]; [done|]. pose proof (sequence_lt 0 i). lia.
  - destruct (halve_ok search_turns _ _ M 0 SLIP39_WORD_COUNT) as (A & B & C & D & E); try done; try (apply Z.leb_gt; lia).
    set (r := halve _ _ _ _) in *. split; [lia|]. split.
    + intros i Hi. apply Z.leb_gt in D. destruct (Z.eq_dec i (fst r)) as [->|]; [done|]. pose proof (sequence_lt i (fst r)). lia.
    + intros i Hi. assert (Es := E ltac:(lia)). apply Z.leb_le in Es. destruct (Z.eq_dec (snd r) i) as [<-|]; [done|]. pose proof (sequence_lt (snd r) i). lia.
Qed.

(** ** The keyboard *)

(** The buttons [s], most significant first, are the first buttons of [q]. *)
Definition starts (q s : Z) : bool := (s =? 0) || existsb (fun m => q / m =? s) [1; 10; 100; 1000].

Lemma starts_scaled q s : 1000 <= q < 10000 -> 0 < s < 2 ^ 16 -> let '(s', m) := scale 4 s 1 in
  1000 <= s' /\ 1 <= m /\ starts q s = (s' <=? q) && (q <? s' + m).
Proof.
  intros Hq Hs. unfold starts. destruct (Z.eqb_spec s 0); [lia|]. cbn [orb existsb scale].
  destruct (Z.ltb_spec s 1000); [|split; [lia|split; [lia|]]].
  2: { apply eq_true_iff_eq. rewrite !orb_true_iff, andb_true_iff, !Z.eqb_eq, Z.leb_le, Z.ltb_lt. zlia. }
  rewrite u16_small by lia. change (u16 (1 * 10)) with 10. destruct (Z.ltb_spec (s * 10) 1000); [|split; [lia|split; [lia|]]].
  2: { apply eq_true_iff_eq. rewrite !orb_true_iff, andb_true_iff, !Z.eqb_eq, Z.leb_le, Z.ltb_lt. zlia. }
  rewrite u16_small by lia. change (u16 (10 * 10)) with 100. destruct (Z.ltb_spec (s * 10 * 10) 1000); [|split; [lia|split; [lia|]]].
  2: { apply eq_true_iff_eq. rewrite !orb_true_iff, andb_true_iff, !Z.eqb_eq, Z.leb_le, Z.ltb_lt. zlia. }
  rewrite u16_small by lia. change (u16 (100 * 10)) with 1000. destruct (Z.ltb_spec (s * 10 * 10 * 10) 1000); [lia|].
  split; [lia|split; [lia|]]. apply eq_true_iff_eq. rewrite !orb_true_iff, andb_true_iff, !Z.eqb_eq, Z.leb_le, Z.ltb_lt. zlia.
Qed.

(** [button_sequence_to_word] finds a word for the buttons pressed so far
    exactly when the list has a word that starts with them, and the word it finds
    is the first such word in the order of the buttons. *)
Theorem button_sequence_correct s : 0 <= s < 2 ^ 16 ->
  match button_sequence_to_word s with
  | Some w => In w SLIP39_WORDLIST /\ starts (buttons w) s = true /\
      (forall v, In v SLIP39_WORDLIST -> starts (buttons v) s = true -> buttons w <= buttons v)
  | None => forall v, In v SLIP39_WORDLIST -> starts (buttons v) s = false
  end.
Proof.
  intros Hs. unfold button_sequence_to_word. fold (word_at 0). destruct (Z.eqb_spec s 0) as [->|Hs0].
  - destruct (entry_facts 0) as (A & B & _); [done|]. split; [done|]. split; [done|]. intros v Hv _.
    destruct (word_listed v Hv) as (i & Hi & ->). destruct (entry_facts i Hi) as (_ & <- & _). rewrite <- B.
    destruct (Z.eq_dec 0 i) as [<-|]; [done|]. pose proof (sequence_lt 0 i). lia.
  - assert (St : forall i, 0 <= i < SLIP39_WORD_COUNT -> let '(s', m) := scale 4 s 1 in starts (buttons (word_at i)) s = (s' <=? sequence_at i) && (sequence_at i <? s' + m)).
    { intros i Hi. destruct (entry_facts i Hi) as (_ & E & R & _). pose proof (starts_scaled (sequence_at i) s R ltac:(lia)) as T.
      destruct (scale 4 s 1) as [s' m]. rewrite <- E. apply T. }
    destruct (scale 4 s 1) as [s' m]. destruct (find_sequence_ok s') as (Hr & Below & Above). set (r := find_sequence s') in *. fold (word_at r).
    destruct (Z.leb_spec SLIP39_WORD_COUNT r) as [Hend|Hend]; cbn [orb].
    { intros v Hv. destruct (word_listed v Hv) as (i & Hi & ->). rewrite (St i Hi). specialize (Below i ltac:(lia)).
      by rewrite (proj2 (Z.leb_gt _ _) Below). }
    assert (Hr' : 0 <= r < SLIP39_WORD_COUNT) by lia. destruct (entry_facts r Hr') as (A & B & _). pose proof (Above r ltac:(lia)) as Ar.
    destruct (Z.leb_spec m (sequence_at r - s')) as [Hm|Hm].
    + intros v Hv. destruct (word_listed v Hv) as (i & Hi & ->). rewrite (St i Hi). destruct (Z.lt_ge_cases i r) as [Hlt|Hge].
      * specialize (Below i ltac:(lia)). by rewrite (proj2 (Z.leb_gt _ _) Below).
      * assert (sequence_at r <= sequence_at i) by (destruct (Z.eq_dec r i) as [<-|]; [done|pose proof (sequence_lt r i); lia]).
        rewrite (proj2 (Z.ltb_ge _ _)) by lia. by rewrite andb_false_r.
    + split; [done|]. rewrite (St r Hr'). rewrite (proj2 (Z.leb_le _ _)), (proj2 (Z.ltb_lt _ _)) by lia. split; [done|]. intros v Hv.
      destruct (word_listed v Hv) as (i & Hi & ->). rewrite (St i Hi). intros Hst. apply andb_prop in Hst as [Hst _]. apply Z.leb_le in Hst.
      destruct (entry_facts i Hi) as (_ & <- & _). rewrite <- B. destruct (Z.lt_ge_cases i r) as [Hlt|Hge]; [specialize (Below i ltac:(lia)); lia|].
      destruct (Z.eq_dec r i) as [<-|]; [done|]. pose proof (sequence_lt r i). lia.
Qed.

Lemma button_sequence_correct_witness : match button_sequence_to_word 97 with Some w => starts (buttons w) 97 = true | None => False end.
Proof.
  pose proof (button_sequence_correct 97 ltac:(lia)) as H. revert H. vm_compute. intros H. exact (proj1 (proj2 H)).
Defined.

(** The width of the range of the sequences that start with a prefix. *)
Definition width (p : Z) : Z := if p =? 0 then 10000 else if p <? 10 then 1000 else if p <? 100 then 100 else 10.

Lemma widen_all : forallb (fun p => bool_decide (widen 5 p (u16 (p + 1)) 1 = (p * width p, (p + 1) * width p, width p))) (seqZ 0 1000) = true.
Proof. vm_compute. reflexivity. Qed.

Lemma widen_ok p : 0 <= p < 1000 -> widen 5 p (u16 (p + 1)) 1 = (p * width p, (p + 1) * width p, width p).
Proof.
  intros H. assert (Hin : In p (seqZ 0 1000)) by (apply list_elem_of_In, elem_of_seqZ; lia).
  apply (proj1 (forallb_forall _ _) widen_all) in Hin. by apply bool_decide_eq_true_1 in Hin.
Qed.

(** The buttons [10 p + d] start [q] when [q] is in the range of [p] and its next
    digit is [d]. *)
Lemma starts_next q p d : 1000 <= q < 10000 -> 0 <= p < 1000 -> 1 <= d <= 9 ->
  starts q (10 * p + d) = true <-> (p * width p <= q < (p + 1) * width p /\ (q / (width p / 10)) mod 10 = d).
Proof.
  intros Hq Hp Hd. unfold starts, width. destruct (Z.eqb_spec (10 * p + d) 0); [lia|]. cbn [orb existsb]. rewrite !orb_true_iff, !Z.eqb_eq.
  rewrite Z.div_1_r. destruct (Z.eqb_spec p 0) as [->|]; [change (10000 / 10) with 1000; zlia|].
  destruct (Z.ltb_spec p 10); [change (1000 / 10) with 100; zlia|]. destruct (Z.ltb_spec p 100); [change (100 / 10) with 10; zlia|].
  change (10 / 10) with 1. rewrite Z.div_1_r. zlia.
Qed.

Lemma starts_long q s : q < 10000 -> 10000 < s -> starts q s = false.
Proof.
  intros Hq Hs. unfold starts. destruct (Z.eqb_spec s 0); [lia|]. cbn [orb existsb]. rewrite !orb_false_iff, !Z.eqb_neq. zlia.
Qed.

Lemma collect_bit n t : 0 <= t <= 8 -> forall i divider bitmap, 0 <= bitmap < 512 -> (forall j, i <= j < i + Z.of_nat n -> 1 <= (sequence_at j / divider) mod 10 <= 9) ->
  let m := collect n i divider bitmap in
  0 <= m < 512 /\ (Z.testbit m t = true <-> Z.testbit bitmap t = true \/ exists j, i <= j < i + Z.of_nat n /\ (sequence_at j / divider) mod 10 = t + 1).
Proof.
  intros Ht. induction n as [|n IH]; intros i divider bitmap Hb Hd.
  - cbn. split; [done|]. split; [by left|]. intros [?|(j & Hj & _)]; [done|lia].
  - cbn [collect]. pose proof (Hd i ltac:(lia)) as D. rewrite u8_small by lia. set (d := (sequence_at i / divider) mod 10) in *.
    assert (Hbit : 0 <= Z.shiftl 1 (d - 1) < 512) by (rewrite Z.shiftl_1_l; split; [apply Z.pow_nonneg; lia|change 512 with (2 ^ 9); apply Z.pow_lt_mono_r; lia]).
    assert (Hor : 0 <= bitmap .| Z.shiftl 1 (d - 1) < 512).
    { split; [apply Z.lor_nonneg; lia|]. destruct (Z.eq_dec (bitmap .| Z.shiftl 1 (d - 1)) 0) as [->|]; [lia|].
      apply Z.log2_lt_pow2 with (b := 9); [assert (0 <= bitmap .| Z.shiftl 1 (d - 1)) by (apply Z.lor_nonneg; lia); lia|].
      rewrite Z.log2_lor by lia. assert (L : forall y, 0 <= y < 512 -> Z.log2 y < 9) by (intros y Hy; destruct (Z.eq_dec y 0) as [->|]; [done|apply Z.log2_lt_pow2; lia]).
      pose proof (L _ Hb). pose proof (L _ Hbit). lia. }
    rewrite u16_small by lia. destruct (IH (i + 1) divider _ Hor) as [R E]; [intros j Hj; apply Hd; lia|]. split; [done|]. rewrite E, Z.lor_spec, orb_true_iff.
    rewrite Z.shiftl_spec by lia. assert (B1 : Z.testbit 1 (t - (d - 1)) = true <-> d = t + 1).
    { split; [|intros ->; by replace (t - (t + 1 - 1)) with 0 by lia]. intros H. destruct (Z.eq_dec d (t + 1)); [done|].
      destruct (Z.lt_ge_cases (t - (d - 1)) 0); [rewrite Z.testbit_neg_r in H by lia; done|].
      rewrite (Z.bits_above_log2 1) in H by (cbn; lia). done. }
    rewrite B1. split.
    + intros [[?|?]|(j & Hj & Ej)]; [by left|right; exists i; split; [lia|done]|right; exists j; split; [lia|done]].
    + intros [?|(j & Hj & Ej)]; [by left; left|]. destruct (Z.eq_dec j i) as [->|]; [left; by right|right; exists j; split; [lia|done]].
Qed.

(** C36: after any buttons, bit [d - 1] of [slip39_word_completion_mask] is set
    exactly when the list has a word that starts with these buttons followed by
    button [d], and no other bit is set. *)
Theorem completion_mask_correct p d : 0 <= p < 2 ^ 16 -> 1 <= d <= 9 ->
  0 <= slip39_word_completion_mask p < 512 /\
  (Z.testbit (slip39_word_completion_mask p) (d - 1) = true <-> exists w, In w SLIP39_WORDLIST /\ starts (buttons w) (10 * p + d) = true).
Proof.
  intros Hp Hd. unfold slip39_word_completion_mask. destruct (Z.leb_spec 1000 p) as [Hbig|Hsmall].
  - split; [done|]. rewrite Z.testbit_0_l. split; [done|]. intros (w & Hw & Hst). destruct (word_listed w Hw) as (i & Hi & ->).
    destruct (entry_facts i Hi) as (_ & E & R & _). rewrite <- E, starts_long in Hst by lia. done.
  - rewrite widen_ok by lia. destruct (find_sequence_ok (p * width p)) as (Rl & Bl & Al). destruct (find_sequence_ok ((p + 1) * width p)) as (Rh & Bh & Ah).
    set (lo := find_sequence (p * width p)) in *. set (hi := find_sequence ((p + 1) * width p)) in *.
    assert (Hw : In (width p / 10) [1; 10; 100; 1000]) by (unfold width; destruct (p =? 0); [by repeat (try (by left); right)|]; destruct (p <? 10); [by repeat (try (by left); right)|]; destruct (p <? 100); by repeat (try (by left); right)).
    destruct (collect_bit (Z.to_nat (hi - lo)) (d - 1) ltac:(lia) lo (width p / 10) 0 ltac:(lia)) as [R E].
    { intros j Hj. destruct (entry_facts j ltac:(lia)) as (_ & _ & _ & D). specialize (D _ Hw). pose proof (Z.mod_pos_bound (sequence_at j / (width p / 10)) 10 ltac:(lia)). lia. }
    split; [done|]. rewrite E, Z.testbit_0_l. split.
    + intros [?|(j & Hj & Ej)]; [done|]. assert (Hj' : 0 <= j < SLIP39_WORD_COUNT) by lia. destruct (entry_facts j Hj') as (A & B & C & _).
      exists (word_at j). split; [done|]. rewrite <- B. apply starts_next; [done|lia|done|]. split; [|lia]. split; [apply Al; lia|apply Bh; lia].
    + intros (w & Hw' & Hst). right. destruct (word_listed w Hw') as (j & Hj & ->). destruct (entry_facts j Hj) as (_ & B & C & _).
      rewrite <- B in Hst. apply starts_next in Hst as [Hr Hm]; [|done|lia|done]. exists j. split; [|lia].
      assert (lo <= j) by (destruct (Z.lt_ge_cases j lo); [specialize (Bl j ltac:(lia)); lia|done]).
      assert (j < hi) by (destruct (Z.lt_ge_cases j hi); [done|specialize (Ah j ltac:(lia)); lia]). lia.
Qed.

Lemma completion_mask_correct_witness : Z.testbit (slip39_word_completion_mask 97) 3 = true /\ exists w, In w SLIP39_WORDLIST /\ starts (buttons w) 974 = true.
Proof.
  pose proof (proj2 (completion_mask_correct 97 4 ltac:(lia) ltac:(lia))) as H. assert (T : Z.testbit (slip39_word_completion_mask 97) 3 = true) by (vm_compute; reflexivity).
  split; [exact T|]. exact (proj1 H T).
Defined.

(** Looking a word up by its letters gives its index. *)
Lemma word_index_all : forallb (fun i => bool_decide (word_index (znth [] SLIP39_WORDLIST i) (zlen (znth [] SLIP39_WORDLIST i)) = Some i)) (seqZ 0 SLIP39_WORD_COUNT) = true.
Proof. vm_compute. reflexivity. Qed.

Lemma word_index_get i w : get_word i = Some w -> 0 <= i -> word_index w (zlen w) = Some i.
Proof.
  unfold get_word. destruct (Z.leb_spec SLIP39_WORD_COUNT i); [done|]. intros E Hi. injection E as <-.
  assert (Hin : In i (seqZ 0 SLIP39_WORD_COUNT)) by (apply list_elem_of_In, elem_of_seqZ; lia).
  apply (proj1 (forallb_forall _ _) word_index_all) in Hin. by apply bool_decide_eq_true_1 in Hin.
Qed.

End Slip39.
